(* ===== verification/_CoqProject ===== *)
-Q . S2P
Prelude.v
Bits.v
Spl.v
Ram.v
Tlb.v
KHeap.v
KHeapInv.v
KHeapOk.v
KHeapSpec.v
KHeapProps.v
Array.v
Queue.v
Thread.v
ThreadSpec.v
Synch.v
SynchSpec.v
Machine.v
MachineLinks.v
MachineRefine.v
MachineStart.v
SynchProps.v
Stoplight.v
StoplightInv.v
StoplightProof.v
StoplightProps.v
CatMouse.v
CatMouseInv.v
CatMouseProof.v
CatMouseProps.v
Bitmap.v
CopyInOut.v
Uio.v
Lhd.v
SfsDisk.v
SfsFile.v
SfsInv.v
SfsIo.v
SfsTrunc.v
SfsVnode.v
SfsDir.v
SfsTable.v
SfsFs.v
SfsMount.v
Coremap.v
CoremapSpec.v
CoremapProps.v
PageTable.v
PageTableInv.v
PageTableSpec.v
PageTableCount.v
PageTableOps.v
PageTableFork.v
PageTableLife.v
PageTableProps.v
Vfs.v
VfsSpec.v
VfsPath.v
VfsOps.v
VfsTable.v
Device.v
DeviceProps.v
DeviceBoot.v
VfsProps.v
LibMem.v
DumbVm.v
DumbVmSpec.v
DumbVmSys.v
DumbVmProps.v
LibStr.v
Printf.v
PrintfSpec.v
PrintfProps.v
UMalloc.v
UMallocInv.v
UMallocSpec.v
UMallocFree.v
UMallocClient.v
UMallocProps.v
