(* ===== verification/Prelude.v ===== *)
(** * OS/161: a verification library for the kernel and its C library

    OS/161 is a teaching operating system for a simulated MIPS machine.  This
    library models parts of it as Rocq functions translated from the C
    sources under src/os161 and proves what makes them correct.  Paths below
    are relative to src/os161.

    ** How the code is modelled

    A C function that touches state is a value of the monad [K S A] of this
    file: from a world to an outcome.  A world is the state [S] of the
    component and the answers [kmalloc] will still give ([wmem], a list of
    booleans; once it is used up, allocation succeeds), so that a theorem about
    every world covers every pattern of allocation failures; theorems that
    hold only while memory lasts assume that no answer is [false].  An outcome is
    [Ok] with a result and a new world, [Panic] (a failed [assert] or a call of
    [panic]), [Undef] (an access out of bounds, through NULL or to an
    indeterminate value) or [Diverge] (a loop outlived its fuel).  [wp c Q w]
    is total correctness: [c] started in [w] ends in [Ok] and [Q] holds; a
    theorem stated with it excludes panics, undefined behaviour and running
    out of fuel.  [zoom] runs code of one component inside the state of
    another.  Integers are [Z] with the wrap-around of their C types written
    out ([u8], [u16], [u32], [i32]).

    Loops are [kfold] (a [for] loop over a range), [kfind] (the same with an
    early exit), [kwhile] and [kloop] with fuel.  The fuel is an upper bound on
    the number of rounds computed from the data (the length of a list, the
    number of doublings of a 32-bit integer); each theorem shows that it is
    enough, since [Diverge] does not satisfy [wp].

    ** Parts and files

    - Prelude.v: outcomes, the monad, loops and their rules, machine integers.
    - Bits.v: words of a page and bit masks.
    - Spl.v: interrupt priority level (kern/arch/mips/mips/spl.c).
    - Ram.v: physical memory and pages (kern/arch/mips/mips/ram.c, the page
      functions of dumbvm.c).
    - KHeap.v, KHeapInv.v, KHeapOk.v, KHeapSpec.v, KHeapProps.v: [kmalloc] and
      [kfree] (kern/lib/kheap.c): the model, the invariant of the page
      references and free lists in memory, the lemmas of each function, and
      the properties.
    - Coremap.v, CoremapSpec.v, CoremapProps.v: the allocator of physical frames
      (kern/arch/mips/mips/coremap.c and the page functions of vm.c, of which the
      working copy has only the pristine text).  It is a second implementation
      of the interface [KPages] that the kernel heap is proved against.
    - PageTable.v, PageTableInv.v, PageTableSpec.v, PageTableCount.v,
      PageTableOps.v, PageTableFork.v, PageTableLife.v, PageTableProps.v: page
      tables with copy-on-write (kern/vm/page_table.c, pristine text) on the
      words of kernel memory.  [cow_ok] relates memory and reference counts to
      the roles of pages, the directories and the entries of all tables.
    - Tlb.v, DumbVm.v, DumbVmSpec.v, DumbVmSys.v, DumbVmProps.v: address spaces
      with consecutive frames (kern/arch/mips/mips/dumbvm.c): faults, loading and
      forking.  [as_map] is the translation an address space stands for; the TLB
      is a record of the pages that faulted.  [flats] is the specification: one
      flat memory for every program.
    - Array.v, Queue.v, Bitmap.v: kern/lib/array.c, queue.c, bitmap.c.
    - Thread.v, ThreadSpec.v: threads, scheduler, clock and timer interrupt
      (kern/thread/thread.c, of which the working copy has only the pristine
      text, scheduler.c, hardclock.c; kern/arch/mips/mips/pcb.c, trap.c,
      interrupt.c).  A function that switches threads is cut at the switch: its
      second half, named with [_return], runs when the thread is switched back
      in.  [tview] is the abstract view of the thread system, and each
      operation is shown to be an operation on views.
    - Synch.v, SynchSpec.v, SynchProps.v: semaphores, locks and condition
      variables (kern/thread/synch.c) on top of Thread.v.
    - Machine.v, MachineLinks.v, MachineRefine.v, MachineStart.v: a language for
      thread bodies, the concrete machine that runs them on Thread.v and
      Synch.v under a list of events (a step of the processor or a timer
      interrupt), the abstract machine that interleaves enabled commands, and
      the refinement between them.
    - Stoplight.v, StoplightInv.v, StoplightProof.v, StoplightProps.v: the
      traffic intersection (kern/asst1/stoplight.c).
    - CatMouse.v, CatMouseInv.v, CatMouseProof.v, CatMouseProps.v: cats and mice
      at the food bowls (kern/asst1/catlock.c).
    - CopyInOut.v, Uio.v: copies between kernel and user memory
      (kern/lib/copyinout.c, kern/userprog/uio.c).
    - Lhd.v: the disk driver (kern/dev/lamebus/lhd.c).
    - SfsDisk.v, SfsFile.v, SfsInv.v, SfsIo.v, SfsTrunc.v, SfsVnode.v, SfsDir.v,
      SfsTable.v, SfsFs.v, SfsMount.v: the simple file system (kern/fs/sfs,
      kern/include/kern/sfs.h, kern/fs/vfs/vnode.c): on-disk structures and
      block I/O, files, their invariant, reading and writing, truncation,
      vnodes and directories, the table of vnodes, mounting and syncing.
    - Vfs.v, VfsSpec.v, VfsPath.v, VfsOps.v, VfsTable.v, VfsProps.v: the layer
      above file systems and devices (kern/fs/vfs/vfslist.c, vfslookup.c,
      vfscwd.c, vfspath.c): the model over the class [Vnodes] of vnode and file
      system operations, the contract [VnodeLaws] (who hands out a reference)
      that kern/include/vnode.h, fs.h and dev.h document, the syntax of path
      names, what each operation does to the counts, the table of devices, and
      the properties.
    - Device.v, DeviceProps.v, DeviceBoot.v: devices as vnodes
      (kern/fs/vfs/device.c, devnull.c), that they meet the contract, and the
      start of the layer with the null device.
    - LibMem.v, LibStr.v: the memory and string functions that the kernel and
      user programs share (lib/libc: memcpy, memmove, bzero, memset, memcmp,
      strlen, strcpy, strcat, strcmp, strchr, strrchr, strtok_r, atoi), on a
      partial map from addresses to bytes.
    - Printf.v, PrintfSpec.v, PrintfProps.v: formatted output
      (lib/libc/__printf.c, snprintf.c): the state machine fed one character
      of the format at a time, a parser and renderer of formats as its
      specification, and the refinement.  The function that receives the text
      is a parameter; arguments are a list of typed values.
    - UMalloc.v, UMallocInv.v, UMallocSpec.v, UMallocFree.v, UMallocClient.v,
      UMallocProps.v: [malloc] and [free] of user programs
      (lib/libc/malloc.c) on the words of the heap, with block headers packed
      as bit-fields.  [sbrk] is the class [Sbrk]; its laws, those of the manual
      page, are the class [SbrkLaws], which an instance satisfies.

    ** What the theorems show

    - Memory: the kernel heap refines an ideal allocator (blocks are apart,
      contents are kept, everything is given back), its consistency checks
      hold, and wrong frees panic.
    - Virtual memory: the coremap finds the lowest run of free frames and keeps
      the kernel heap intact; forking, copy-on-write and destruction of page
      tables count every reference, copy what they should and give back exactly
      the pages nobody uses.  Without paging, programs behave as if each had a
      flat memory of its own, as far as the 64 entries of the TLB reach between
      two switches, and a loaded program finds its segments and its
      stack mapped.
    - Data structures: the queue refines a first-in first-out list, the bitmap a
      finite set; preallocation guarantees later additions.
    - Threads: as long as no [kmalloc] fails ([mem_ok]), the scheduler with the
      synchronisation primitives refines the interleaving of enabled commands
      ([kernel_implements_interleavings]): an invariant of all interleavings
      holds in every kernel state, nothing panics, and no wakeup is lost.
      Without memory [cv_wait] can lose a wakeup.
    - Clients: by that rule and under the same condition, the cars at the
      intersection never share a quadrant, keep their order and do not
      deadlock; cats and mice do not eat together, share no bowl and do not
      deadlock.  The counter of cars stays within 0 and 3 but does not bound
      the cars inside: four can be ([stoplight_four_inside]).
    - Files, on a disk that reports no errors ([healthy], a part of the
      invariant [fs_ok]): reads and writes transfer exactly the bytes they
      should; truncation keeps the bytes before the new end and unmaps the
      blocks past it, except that the first one stays when the indirect block
      maps it; directories are finite maps; a synced file system is restored
      by a mount.
    - Names: from a cold start and as long as memory lasts, the VFS layer on
      device vnodes serves any sequence of requests without a panic and leaves
      exactly the references of the open vnodes; path names start where the
      comments of the code say; a device added with [vfs_adddev] is found under
      its names, and adding it gives no name to two devices.  The lemmas behind
      this are proved against the contract [VnodeLaws]; devices are its
      instance, SFS is not one, because [sfs_getroot] panics when the root
      vnode cannot be loaded for lack of memory.
    - C library: [memmove] equals the reference copy for every overlap, the words
      [strtok_r] finds are the words of the string, [__vprintf] sends the text
      its format denotes, [vsnprintf] truncates it without touching another
      byte, and [atoi] reads back what %d printed.  For requests of 1 to
      2^31 - 16 bytes the heap of a user program stays a chain of disjoint blocks without adjacent free ones, keeps the
      contents of allocated blocks and detects a double free.
    - Error paths, and places where the code does not do what it means to, are
      theorems of their own.

    ** Bounds and fuel

    Thread bodies are normalised up to their next observable command with
    [LOCAL_FUEL] = 64 local statements, more than any body has between two
    observable ones; running out is [Diverge] and so excluded.  The depth of the
    recursion between [q_addtail] and [q_grow] is 2.  String functions scan with
    one round more than memory has bytes, path names with one round per
    character and one more; [malloc] searches the heap with one
    round per unit of 8 bytes.  [MAXTHREADS] = 2^26 and
    [QUEUE_LIMIT] = 2^28 keep sizes of buffers within 32 bits; the machine does
    not have the memory for more.

    ** Not modelled

    Process creation ([thread_fork] with the process table and address spaces:
    executions start with the threads already forked), the entry to user mode and
    system calls; the fault handler of the paging system; the boot sequence and the menu; device drivers other than the
    disk and the null device; the console, whose messages are recorded by the
    models that print them; user programs other than the C library.  They are I/O on hardware,
    assembly, or unfinished code that no configuration compiles. *)

From stdpp Require Export base tactics option list numbers gmap.
From Stdlib Require Export ZArith Lia.

#[global] Open Scope Z_scope.

Declare Scope os_scope.
Delimit Scope os_scope with os.

(** ** Machine integers

    The kernel is compiled for a 32-bit two's complement big-endian MIPS.
    Every C integer is a [Z]; the functions below reduce a mathematical
    result to the width of the C type that stores it. *)

Definition u8 (z : Z) : Z := z mod 2 ^ 8.

Definition u16 (z : Z) : Z := z mod 2 ^ 16.

Definition u32 (z : Z) : Z := z mod 2 ^ 32.

Definition i32 (z : Z) : Z := (z + 2 ^ 31) mod 2 ^ 32 - 2 ^ 31.

(** [DIVROUNDUP] of kern/include/lib.h, on unsigned operands. *)
Definition DIVROUNDUP (a b : Z) : Z := u32 (u32 (a + b) - 1) / b.

(** ** Outcome of running a piece of kernel code

    [Panic] is a failed [assert] or a call of [panic]; [Undef] is an access
    outside an object, through NULL or to an indeterminate value;
    [Diverge] is a loop that outlived the fuel given to it. *)

Inductive res (A : Type) : Type :=
| Ok (a : A)
| Panic
| Undef
| Diverge.

Arguments Ok {A} a.
Arguments Panic {A}.
Arguments Undef {A}.
Arguments Diverge {A}.

(** ** The kernel monad

    Kernel code of a component with state [S] is a function from a world,
    the state and the answers [kmalloc] will give, to an outcome.  The list
    [wmem] is consumed one answer per call; once it is empty every further
    [kmalloc] succeeds.  A theorem that quantifies over the whole list covers
    every pattern of allocation failures; one for runs in which memory lasts
    assumes that the list contains no [false]. *)

Record world (S : Type) : Type := World { wst : S; wmem : list bool }.

Arguments World {S} wst wmem.
Arguments wst {S} w.
Arguments wmem {S} w.

Definition K (S A : Type) : Type := world S → res (A * world S).

#[global] Instance K_ret S : MRet (K S) := λ A a w, Ok (a, w).

#[global] Instance K_bind S : MBind (K S) := λ A B f c w,
  match c w with
  | Ok (a, w') => f a w'
  | Panic => Panic
  | Undef => Undef
  | Diverge => Diverge
  end.

Definition kget {S} : K S S := λ w, Ok (wst w, w).

Definition kput {S} (s : S) : K S unit := λ w, Ok (tt, World s (wmem w)).

Definition kpanic {S A} : K S A := λ _, Panic.

Definition kundef {S A} : K S A := λ _, Undef.

Definition kdiverge {S A} : K S A := λ _, Diverge.

(** [assert(b)] of kern/include/lib.h. *)
Definition kassert {S} (b : bool) : K S unit :=
  if b then mret tt else kpanic.

(** A [kmalloc] call, reduced to the question whether it returns non-NULL. *)
Definition kmalloc_ok {S} : K S bool := λ w,
  match wmem w with
  | [] => Ok (true, w)
  | b :: m => Ok (b, World (wst w) m)
  end.

(** Access to an object that may be out of range. *)
Definition kof {S A} (o : option A) : K S A :=
  match o with Some a => mret a | None => kundef end.

(** Run the code of a sub-component on the part of the state it owns. *)
Definition zoom {S T A} (get : S → T) (put : T → S → S) (c : K T A) : K S A :=
  λ w, match c (World (get (wst w)) (wmem w)) with
       | Ok (a, w') => Ok (a, World (put (wst w') (wst w)) (wmem w'))
       | Panic => Panic
       | Undef => Undef
       | Diverge => Diverge
       end.

(** ** Loops

    [kfold n i body t] is [for (j=i; j<i+n; j++) t = body(j,t)];
    [kfind n i body t] is the same loop with a [return] in it: a body that
    answers [inr r] leaves the loop with [r].  [kwhile] is a [while] loop,
    given the number of iterations it may take. *)

Fixpoint kfold {S T} (n : nat) (i : Z) (body : Z → T → K S T) (t : T) : K S T :=
  match n with
  | O => mret t
  | Datatypes.S n' => t' ← body i t; kfold n' (i + 1) body t'
  end.

Fixpoint kfind {S T R} (n : nat) (i : Z) (body : Z → T → K S (T + R)) (t : T)
    : K S (T + R) :=
  match n with
  | O => mret (inl t)
  | Datatypes.S n' =>
      r ← body i t;
      match r with
      | inl t' => kfind n' (i + 1) body t'
      | inr x => mret (inr x)
      end
  end.

Fixpoint kwhile {S T} (fuel : nat) (cond : T → bool) (body : T → K S T) (t : T)
    : K S T :=
  if cond t then
    match fuel with
    | O => kdiverge
    | Datatypes.S fuel' => t' ← body t; kwhile fuel' cond body t'
    end
  else mret t.

(** The same [while] loop with a [return] in it. *)
Fixpoint kloop {S T R} (fuel : nat) (cond : T → bool) (body : T → K S (T + R)) (t : T)
    : K S (T + R) :=
  if cond t then
    match fuel with
    | O => kdiverge
    | Datatypes.S fuel' =>
        r ← body t;
        match r with
        | inl t' => kloop fuel' cond body t'
        | inr x => mret (inr x)
        end
    end
  else mret (inl t).

(** ** Arrays with C indices *)

Definition lget {A} (l : list A) (i : Z) : option A :=
  if decide (0 ≤ i) then l !! Z.to_nat i else None.

Definition lset {A} (l : list A) (i : Z) (x : A) : option (list A) :=
  if decide (0 ≤ i < Z.of_nat (length l)) then Some (<[Z.to_nat i := x]> l)
  else None.

(** Reading and overwriting [n] consecutive elements. *)
Definition lslice {A} (l : list A) (i n : Z) : option (list A) :=
  if decide (0 ≤ i ∧ 0 ≤ n ∧ i + n ≤ Z.of_nat (length l))
  then Some (take (Z.to_nat n) (drop (Z.to_nat i) l)) else None.

Definition splice {A} (l : list A) (i : nat) (x : list A) : list A :=
  take i l ++ x ++ drop (i + length x) l.

Definition lsplice {A} (l : list A) (i : Z) (x : list A) : option (list A) :=
  if decide (0 ≤ i ∧ i + Z.of_nat (length x) ≤ Z.of_nat (length l))
  then Some (splice l (Z.to_nat i) x) else None.

(** The string in a character array: the bytes before the first NUL. *)
Fixpoint cstr (l : list Z) : list Z :=
  match l with
  | [] => []
  | c :: l => if c =? 0 then [] else c :: cstr l
  end.

(** ** Error numbers (kern/include/kern/errno.h) *)

Definition EINVAL : Z := 1.
Definition EFAULT : Z := 2.
Definition ENAMETOOLONG : Z := 3.
Definition ENOMEM : Z := 4.
Definition EIO : Z := 5.
Definition ENOENT : Z := 6.
Definition ENOTDIR : Z := 7.
Definition EISDIR : Z := 8.
Definition EEXIST : Z := 9.
Definition EXDEV : Z := 10.
Definition EAGAIN : Z := 11.
Definition EUNIMP : Z := 13.
Definition ENXIO : Z := 14.
Definition ENODEV : Z := 15.
Definition EBUSY : Z := 16.
Definition ENOSPC : Z := 20.
Definition ENOSYS : Z := 23.
Definition ENOEXEC : Z := 24.

(** ** Weakest preconditions

    [wp c Q w]: run from [w], [c] neither panics nor touches memory it does
    not own nor exhausts its fuel, and its result and final world are in [Q].
    A [wp] is thus a total-correctness statement. *)

Definition wp {S A} (c : K S A) (Q : A → world S → Prop) (w : world S) : Prop :=
  match c w with
  | Ok (a, w') => Q a w'
  | Panic | Undef | Diverge => False
  end.

(** [panics c w]: run from [w], [c] ends in a failed assertion or a panic. *)
Definition panics {S A} (c : K S A) (w : world S) : Prop := c w = Panic.

Section wp_rules.
Context {S : Type}.
Implicit Types w : world S.

Lemma wp_ret {A} (a : A) Q w : wp (mret a : K S A) Q w = Q a w.
Proof. reflexivity. Qed.

Lemma wp_bind {A B} (c : K S A) (f : A → K S B) Q w :
  wp (c ≫= f) Q w = wp c (λ a, wp (f a) Q) w.
Proof. unfold wp, mbind, K_bind. by destruct (c w) as [[a w']| | |]. Qed.

Lemma wp_kget Q w : wp (kget : K S S) Q w = Q (wst w) w.
Proof. reflexivity. Qed.

Lemma wp_kput s Q w : wp (kput s : K S unit) Q w = Q tt (World s (wmem w)).
Proof. reflexivity. Qed.

Lemma wp_kof {A} (o : option A) a Q w :
  o = Some a → wp (kof o : K S A) Q w = Q a w.
Proof. by intros ->. Qed.

Lemma wp_kof_Some {A} (a : A) Q w : wp (kof (Some a) : K S A) Q w = Q a w.
Proof. reflexivity. Qed.

Lemma wp_kassert b Q w :
  b = true → wp (kassert b : K S unit) Q w = Q tt w.
Proof. by intros ->. Qed.

Lemma wp_mono {A} (c : K S A) (Q Q' : A → world S → Prop) w :
  wp c Q w → (∀ a w', Q a w' → Q' a w') → wp c Q' w.
Proof. unfold wp. destruct (c w) as [[a w']| | |]; eauto. Qed.

Lemma wp_and {A} (c : K S A) (Q Q' : A → world S → Prop) w :
  wp c Q w → wp c Q' w → wp c (λ a w', Q a w' ∧ Q' a w') w.
Proof. unfold wp. destruct (c w) as [[a w']| | |]; eauto. Qed.

(** The call fails only if a failure is pending, and consumes answers. *)
Lemma wp_kmalloc (Q : bool → world S → Prop) w :
  (∀ m, m `suffix_of` wmem w → Q true (World (wst w) m)) →
  (∀ m, false ∈ wmem w → m `suffix_of` wmem w → Q false (World (wst w) m)) →
  wp kmalloc_ok Q w.
Proof.
  intros Ht Hf. unfold wp, kmalloc_ok. destruct w as [s [|[] m]]; simpl in *.
  - by apply Ht.
  - apply Ht. by apply suffix_cons_r.
  - apply Hf; [by left|by apply suffix_cons_r].
Qed.

(** A [wp] determines the outcome: it is the equational form of the same fact. *)
Lemma wp_eq {A} (c : K S A) Q w :
  wp c Q w → ∃ a w', c w = Ok (a, w') ∧ Q a w'.
Proof. unfold wp. destruct (c w) as [[a w']| | |]; naive_solver. Qed.

Lemma wp_intro {A} (c : K S A) (Q : A → world S → Prop) w a w' :
  c w = Ok (a, w') → Q a w' → wp c Q w.
Proof. unfold wp. by intros ->. Qed.

Lemma wp_Ok {A} (c : K S A) w a w' :
  wp c (λ a' w'', a' = a ∧ w'' = w') w → c w = Ok (a, w').
Proof. unfold wp. destruct (c w) as [[a' w'']| | |]; naive_solver. Qed.

Lemma panics_bind {A B} (c : K S A) (f : A → K S B) w a w' :
  wp c (λ a' w'', a' = a ∧ w'' = w') w → panics (f a) w' → panics (c ≫= f) w.
Proof. intros Hc%wp_Ok Hf. unfold panics, mbind, K_bind. by rewrite Hc. Qed.

Lemma panics_first {A B} (c : K S A) (f : A → K S B) w : panics c w → panics (c ≫= f) w.
Proof. intros Hc. unfold panics, mbind, K_bind in *. by rewrite Hc. Qed.
End wp_rules.

Lemma panics_zoom {S T A} (get : S → T) (put : T → S → S) (c : K T A) w :
  panics c (World (get (wst w)) (wmem w)) → panics (zoom get put c) w.
Proof. intros Hc. unfold panics, zoom in *. by rewrite Hc. Qed.

Lemma wp_zoom {S T A} (get : S → T) (put : T → S → S) (c : K T A) Q w :
  wp (zoom get put c) Q w =
  wp c (λ a w', Q a (World (put (wst w') (wst w)) (wmem w')))
     (World (get (wst w)) (wmem w)).
Proof.
  unfold wp, zoom. by destruct (c (World (get (wst w)) (wmem w))) as [[a w']| | |].
Qed.

(** Invariant rules of the loops. *)

Lemma wp_kfold {S T} (I : Z → T → world S → Prop) n i (body : Z → T → K S T)
    t (Q : T → world S → Prop) w :
  I i t w →
  (∀ j t w, i ≤ j < i + Z.of_nat n → I j t w → wp (body j t) (I (j + 1)) w) →
  (∀ t w, I (i + Z.of_nat n) t w → Q t w) →
  wp (kfold n i body t) Q w.
Proof.
  revert i t w. induction n as [|n IH]; intros i t w HI Hbody HQ; simpl.
  { rewrite wp_ret. apply HQ. by rewrite Z.add_0_r. }
  rewrite wp_bind. eapply wp_mono; [apply Hbody; [lia|done]|].
  intros t' w' HI'. apply IH; [done| |].
  - intros. apply Hbody; [lia|done].
  - intros. apply HQ. by replace (i + Z.of_nat (Datatypes.S n))
      with (i + 1 + Z.of_nat n) by lia.
Qed.

Lemma wp_kfind {S T R} (I : Z → T → world S → Prop) n i
    (body : Z → T → K S (T + R)) t (Q : T + R → world S → Prop) w :
  I i t w →
  (∀ j t w, i ≤ j < i + Z.of_nat n → I j t w →
     wp (body j t) (λ r w', match r with
                            | inl t' => I (j + 1) t' w'
                            | inr x => Q (inr x) w'
                            end) w) →
  (∀ t w, I (i + Z.of_nat n) t w → Q (inl t) w) →
  wp (kfind n i body t) Q w.
Proof.
  revert i t w. induction n as [|n IH]; intros i t w HI Hbody HQ; simpl.
  { rewrite wp_ret. apply HQ. by rewrite Z.add_0_r. }
  rewrite wp_bind. eapply wp_mono; [apply Hbody; [lia|done]|].
  intros [t'|x] w' HI'; [|by rewrite wp_ret]. apply IH; [done| |].
  - intros. apply Hbody; [lia|done].
  - intros. apply HQ. by replace (i + Z.of_nat (Datatypes.S n))
      with (i + 1 + Z.of_nat n) by lia.
Qed.

(** A [while] loop whose variant [m] starts within the fuel terminates. *)
Lemma wp_kwhile {S T} (I : T → world S → Prop) (m : T → nat) fuel cond
    (body : T → K S T) t (Q : T → world S → Prop) w :
  (m t ≤ fuel)%nat →
  I t w →
  (∀ t w, cond t = true → I t w →
     wp (body t) (λ t' w', I t' w' ∧ (m t' < m t)%nat) w) →
  (∀ t w, cond t = false → I t w → Q t w) →
  wp (kwhile fuel cond body t) Q w.
Proof.
  revert t w. induction fuel as [|fuel IH]; intros t w Hm HI Hbody HQ; simpl;
    (destruct (cond t) eqn:Hc; [|rewrite wp_ret; by apply HQ]).
  { destruct (wp_eq _ _ _ (Hbody t w Hc HI)) as (? & ? & _ & _ & ?). lia. }
  rewrite wp_bind. eapply wp_mono; [by apply Hbody|].
  intros t' w' (HI' & Hlt). apply IH; [lia|done..].
Qed.

Lemma wp_kloop {S T R} (I : T → world S → Prop) (m : T → nat) fuel cond
    (body : T → K S (T + R)) t (Q : T + R → world S → Prop) w :
  (m t ≤ fuel)%nat →
  I t w →
  (∀ t w, cond t = true → I t w →
     wp (body t) (λ r w', match r with
                          | inl t' => I t' w' ∧ (m t' < m t)%nat
                          | inr x => Q (inr x) w' ∧ (0 < m t)%nat
                          end) w) →
  (∀ t w, cond t = false → I t w → Q (inl t) w) →
  wp (kloop fuel cond body t) Q w.
Proof.
  revert t w. induction fuel as [|fuel IH]; intros t w Hm HI Hbody HQ; simpl;
    (destruct (cond t) eqn:Hc; [|rewrite wp_ret; by apply HQ]).
  { destruct (wp_eq _ _ _ (Hbody t w Hc HI)) as ([] & ? & _ & ?); [lia|lia]. }
  rewrite wp_bind. eapply wp_mono; [by apply Hbody|].
  intros [t'|x] w' HI'; [|by rewrite wp_ret; apply HI'].
  destruct HI'. apply IH; [lia|done..].
Qed.

(** Unfolding equations, for loops with a known number of iterations. *)
Lemma wp_kloop_step {S T R} fuel cond (body : T → K S (T + R)) t Q w :
  cond t = true →
  wp (kloop (Datatypes.S fuel) cond body t) Q w =
  wp (body t) (λ r w', match r with
                       | inl t' => wp (kloop fuel cond body t') Q w'
                       | inr x => Q (inr x) w'
                       end) w.
Proof.
  intros Hc. simpl. rewrite Hc, wp_bind. unfold wp at 1 3.
  by destruct (body t w) as [[[] ?]| | |].
Qed.

Lemma wp_kloop_done {S T R} fuel cond (body : T → K S (T + R)) t Q w :
  cond t = false → wp (kloop fuel cond body t) Q w = Q (inl t) w.
Proof. intros Hc. by destruct fuel; simpl; rewrite Hc. Qed.

Lemma wp_kwhile_step {S T} fuel cond (body : T → K S T) t Q w :
  cond t = true →
  wp (kwhile (Datatypes.S fuel) cond body t) Q w =
  wp (body t) (λ t' w', wp (kwhile fuel cond body t') Q w') w.
Proof. intros Hc. simpl. by rewrite Hc, wp_bind. Qed.

Lemma wp_kwhile_done {S T} fuel cond (body : T → K S T) t Q w :
  cond t = false → wp (kwhile fuel cond body t) Q w = Q t w.
Proof. intros Hc. by destruct fuel; simpl; rewrite Hc. Qed.

Lemma kloop_unfold {S T R} fuel cond (body : T → K S (T + R)) t :
  kloop (Datatypes.S fuel) cond body t =
  if cond t then
    r ← body t;
    match r with inl t' => kloop fuel cond body t' | inr x => mret (inr x) end
  else mret (inl t).
Proof. reflexivity. Qed.

Lemma kwhile_unfold {S T} fuel cond (body : T → K S T) t :
  kwhile (Datatypes.S fuel) cond body t =
  if cond t then t' ← body t; kwhile fuel cond body t' else mret t.
Proof. reflexivity. Qed.

#[global] Arguments kfold : simpl never.
#[global] Arguments kfind : simpl never.
#[global] Arguments kwhile : simpl never.
#[global] Arguments kloop : simpl never.

Create Rewrite HintDb kwp.
#[export] Hint Rewrite @wp_ret @wp_bind @wp_kget @wp_kput @wp_kof_Some @wp_zoom : kwp.

(** [kstep] pushes a [wp] through the deterministic constructs. *)
Ltac kstep :=
  repeat (progress (autorewrite with kwp;
    cbn [wst wmem negb andb orb Z.eqb Pos.eqb EINVAL EFAULT ENAMETOOLONG ENOMEM EIO
         ENOENT ENOTDIR EISDIR EEXIST EUNIMP ENXIO ENODEV EBUSY ENOSPC])).

(** [kassert_tac] discharges an assertion whose condition [lia] decides. *)
Ltac kassert_tac :=
  rewrite wp_kassert by (repeat (apply andb_true_intro; split); lia); kstep.

(** [kof_tac a] resolves an in-range access yielding [a]. *)
Ltac kof_tac a := rewrite (wp_kof _ a) by (eauto with kwp); kstep.

(** ** Lemmas on machine integers *)

Lemma u32_id z : 0 ≤ z < 2 ^ 32 → u32 z = z.
Proof. apply Z.mod_small. Qed.

Lemma u32_range z : 0 ≤ u32 z < 2 ^ 32.
Proof. by apply Z.mod_pos_bound. Qed.

Lemma i32_id z : - 2 ^ 31 ≤ z < 2 ^ 31 → i32 z = z.
Proof. intros Hz. unfold i32. rewrite Z.mod_small; lia. Qed.

Lemma i32_range z : - 2 ^ 31 ≤ i32 z < 2 ^ 31.
Proof.
  unfold i32. pose proof (Z.mod_pos_bound (z + 2 ^ 31) (2 ^ 32)). lia.
Qed.

Lemma DIVROUNDUP_id a b :
  0 ≤ a → 0 < b → a + b < 2 ^ 32 → DIVROUNDUP a b = (a + b - 1) / b.
Proof.
  intros. unfold DIVROUNDUP. rewrite (u32_id (a + b)) by lia.
  rewrite u32_id by lia. done.
Qed.

(** ** Lemmas on arrays with C indices *)

Section arrays.
Context {A : Type}.
Implicit Types l : list A.

Lemma lget_lookup l i : 0 ≤ i → lget l i = l !! Z.to_nat i.
Proof. intros. unfold lget. by rewrite decide_True. Qed.

Lemma lget_of_nat l (i : nat) : lget l (Z.of_nat i) = l !! i.
Proof. rewrite lget_lookup by lia. by rewrite Nat2Z.id. Qed.

Lemma lget_Some_range l i x : lget l i = Some x → 0 ≤ i < Z.of_nat (length l).
Proof.
  unfold lget. case_decide; [|done]. intros ?%lookup_lt_Some. lia.
Qed.

Lemma lget_is_Some l i : 0 ≤ i < Z.of_nat (length l) → ∃ x, lget l i = Some x.
Proof.
  intros. rewrite lget_lookup by lia.
  destruct (lookup_lt_is_Some_2 l (Z.to_nat i)) as [x ?]; [lia|eauto].
Qed.

Lemma lset_Some l i x :
  0 ≤ i < Z.of_nat (length l) → lset l i x = Some (<[Z.to_nat i := x]> l).
Proof. intros. unfold lset. by rewrite decide_True by lia. Qed.

Lemma lset_inv l i x l' :
  lset l i x = Some l' →
  0 ≤ i < Z.of_nat (length l) ∧ l' = <[Z.to_nat i := x]> l.
Proof. unfold lset. case_decide; naive_solver. Qed.

Lemma lget_insert_eq l i x :
  0 ≤ i < Z.of_nat (length l) → lget (<[Z.to_nat i := x]> l) i = Some x.
Proof.
  intros. rewrite lget_lookup by lia. apply list_lookup_insert_eq. lia.
Qed.

Lemma lget_insert_ne l i j x :
  0 ≤ i → i ≠ j → lget (<[Z.to_nat i := x]> l) j = lget l j.
Proof.
  intros ? ?. unfold lget. case_decide; [|done].
  apply list_lookup_insert_ne. lia.
Qed.
End arrays.

(** Pending failures of a later world were pending before. *)
Lemma pending_suffix (m m' : list bool) :
  m `suffix_of` m' → false ∈ m → false ∈ m'.
Proof. intros [k ->] ?. apply elem_of_app. by right. Qed.

Create HintDb os.
#[export] Hint Resolve lget_Some_range lset_Some : os.
Create Rewrite HintDb len.
#[export] Hint Rewrite @length_app @length_take @length_drop @length_insert
  @length_replicate @length_fmap @length_seq @length_seqZ : len.

(** [len] solves arithmetic goals about list lengths. *)
Ltac len := autorewrite with len in *; simpl in *; lia.

(** [klset] performs an in-range array store whose bounds [lia] proves. *)
Ltac klset :=
  match goal with
  | |- wp (kof (lset ?l ?i ?x)) _ _ =>
      rewrite (wp_kof _ (<[Z.to_nat i := x]> l)) by (apply lset_Some; lia)
  end; kstep.

#[global] Arguments splice : simpl never.

(** ** Lemmas on slices *)

Section slices.
Context {A : Type}.
Implicit Types l x : list A.

Lemma lslice_Some l i n :
  0 ≤ i → 0 ≤ n → i + n ≤ Z.of_nat (length l) →
  lslice l i n = Some (take (Z.to_nat n) (drop (Z.to_nat i) l)).
Proof. intros. unfold lslice. by rewrite decide_True by lia. Qed.

Lemma lslice_inv l i n x :
  lslice l i n = Some x →
  0 ≤ i ∧ 0 ≤ n ∧ i + n ≤ Z.of_nat (length l) ∧ Z.of_nat (length x) = n ∧
  x = take (Z.to_nat n) (drop (Z.to_nat i) l).
Proof.
  unfold lslice. case_decide as H; [|done]. intros [= <-].
  rewrite length_take, length_drop. lia || (split_and!; lia || done).
Qed.

Lemma lsplice_Some l i x :
  0 ≤ i → i + Z.of_nat (length x) ≤ Z.of_nat (length l) →
  lsplice l i x = Some (splice l (Z.to_nat i) x).
Proof. intros. unfold lsplice. by rewrite decide_True by lia. Qed.

Lemma length_splice l (i : nat) x :
  (i + length x ≤ length l)%nat → length (splice l i x) = length l.
Proof. intros. unfold splice. rewrite !length_app, length_take, length_drop. lia. Qed.

Lemma lookup_splice l (i : nat) x (k : nat) :
  (i + length x ≤ length l)%nat →
  splice l i x !! k =
  if decide (i ≤ k < i + length x)%nat then x !! (k - i)%nat else l !! k.
Proof.
  intros Hle. unfold splice. case_decide as Hk.
  - rewrite lookup_app_r by (rewrite length_take; lia).
    rewrite length_take, Nat.min_l by lia. apply lookup_app_l. lia.
  - destruct (decide (k < i)%nat).
    + rewrite lookup_app_l by (rewrite length_take; lia). apply lookup_take_lt. lia.
    + rewrite lookup_app_r by (rewrite length_take; lia).
      rewrite length_take, Nat.min_l by lia. rewrite lookup_app_r by lia.
      rewrite lookup_drop. f_equal. lia.
Qed.

Lemma splice_nil l i : splice l i [] = l.
Proof. unfold splice. simpl. by rewrite Nat.add_0_r, take_drop. Qed.

(** Two overwrites side by side are one. *)
Lemma splice_splice l (i : nat) x y :
  (i + length x + length y ≤ length l)%nat →
  splice (splice l i x) (i + length x) y = splice l i (x ++ y).
Proof.
  intros Hle. apply list_eq. intros k.
  rewrite !lookup_splice; rewrite ?length_splice, ?length_app by lia; try lia.
  repeat case_decide; try lia; try done.
  - rewrite lookup_app_r by lia. f_equal. lia.
  - by rewrite lookup_app_l by lia.
Qed.

(** Reading back what was written. *)
Lemma take_drop_splice l (i : nat) x :
  (i + length x ≤ length l)%nat → take (length x) (drop i (splice l i x)) = x.
Proof.
  intros. unfold splice. rewrite drop_app_length' by (rewrite length_take; lia).
  apply take_app_length.
Qed.

(** A whole overwrite. *)
Lemma splice_all l x : length x = length l → splice l 0 x = x.
Proof.
  intros H. unfold splice. simpl. by rewrite H, drop_all, app_nil_r.
Qed.
End slices.
