(* ===== verification/Bits.v ===== *)
(** * Bit-level facts shared by the machine-dependent components

    Ranges of masked words and the decomposition of an address into page
    frame and offset. *)

From S2P Require Import Prelude.

Definition PAGE_SIZE : Z := 4096.

Definition PAGE_FRAME : Z := 0xfffff000.

(** A non-negative number without bits from [n] up is below [2^n]. *)
Lemma bits_lt x n :
  0 ≤ n → 0 ≤ x → (∀ i, n ≤ i → Z.testbit x i = false) → x < 2 ^ n.
Proof.
  intros Hn Hx Hb. destruct (decide (x < 2 ^ n)); [done|exfalso].
  assert (0 < 2 ^ n) by (apply Z.pow_pos_nonneg; lia).
  assert (n ≤ Z.log2 x) by (apply Z.log2_le_pow2; lia).
  pose proof (Z.bit_log2 x ltac:(lia)) as Hl. by rewrite Hb in Hl.
Qed.

Lemma bits_above x n i : 0 ≤ n → 0 ≤ x < 2 ^ n → n ≤ i → Z.testbit x i = false.
Proof.
  intros. destruct (decide (x = 0)) as [->|]; [apply Z.bits_0|].
  apply Z.bits_above_log2; [lia|].
  apply Z.lt_le_trans with n; [|done]. apply Z.log2_lt_pow2; lia.
Qed.

Lemma land_range x y n : 0 ≤ n → 0 ≤ x < 2 ^ n → 0 ≤ Z.land x y < 2 ^ n.
Proof.
  intros Hn Hx. assert (0 ≤ Z.land x y) by (apply Z.land_nonneg; lia).
  split; [done|]. apply bits_lt; [done..|]. intros i Hi.
  by rewrite Z.land_spec, (bits_above x n i).
Qed.

Lemma lor_range x y n :
  0 ≤ n → 0 ≤ x < 2 ^ n → 0 ≤ y < 2 ^ n → 0 ≤ Z.lor x y < 2 ^ n.
Proof.
  intros Hn Hx Hy. assert (0 ≤ Z.lor x y) by (apply Z.lor_nonneg; lia).
  split; [done|]. apply bits_lt; [done..|]. intros i Hi.
  by rewrite Z.lor_spec, (bits_above x n i), (bits_above y n i).
Qed.

Lemma testbit_u32 z i :
  0 ≤ i → Z.testbit (u32 z) i = (i <? 32) && Z.testbit z i.
Proof.
  intros. unfold u32. destruct (Z.ltb_spec i 32); simpl.
  - by apply Z.mod_pow2_bits_low.
  - by apply Z.mod_pow2_bits_high.
Qed.

(** Clearing a mask in a 32-bit word. *)
Lemma testbit_andnot x k i :
  0 ≤ x < 2 ^ 32 → 0 ≤ i →
  Z.testbit (Z.land x (u32 (Z.lnot k))) i = Z.testbit x i && negb (Z.testbit k i).
Proof.
  intros. rewrite Z.land_spec, testbit_u32, Z.lnot_spec by lia.
  destruct (Z.ltb_spec i 32); [done|].
  by rewrite (bits_above x 32 i) by lia.
Qed.

(** ** Page frame and offset of an address *)

Lemma land_offset x : Z.land x 0xfff = x mod PAGE_SIZE.
Proof. change 0xfff with (Z.ones 12). by apply Z.land_ones. Qed.

Lemma frame_testbit i :
  0 ≤ i → Z.testbit PAGE_FRAME i = (12 <=? i) && (i <? 32).
Proof.
  intros. change PAGE_FRAME with (Z.shiftl (Z.ones 20) 12).
  rewrite Z.shiftl_spec by done.
  destruct (Z.leb_spec 12 i); simpl.
  - rewrite Z.testbit_ones_nonneg by lia. lia.
  - rewrite Z.testbit_neg_r by lia. done.
Qed.

Lemma land_frame x :
  0 ≤ x < 2 ^ 32 → Z.land x PAGE_FRAME = x - x mod PAGE_SIZE.
Proof.
  intros Hx. rewrite <- land_offset. change 0xfff with (Z.ones 12).
  assert (x = Z.land x PAGE_FRAME + Z.land x (Z.ones 12)); [|lia].
  assert (Z.land (Z.land x PAGE_FRAME) (Z.land x (Z.ones 12)) = 0) as Hz.
  { apply Z.bits_inj'. intros i Hi.
    rewrite !Z.land_spec, frame_testbit, Z.testbit_ones_nonneg, Z.bits_0 by lia.
    destruct (Z.testbit x i); simpl; lia. }
  rewrite Z.add_nocarry_lxor, Z.lxor_lor by done.
  apply Z.bits_inj'. intros i Hi.
  rewrite Z.lor_spec, !Z.land_spec, frame_testbit, Z.testbit_ones_nonneg by lia.
  destruct (Z.ltb_spec i 32).
  - destruct (Z.testbit x i); simpl; lia.
  - by rewrite (bits_above x 32 i) by lia.
Qed.

Lemma lor_frame a k :
  a mod PAGE_SIZE = 0 → 0 ≤ k < PAGE_SIZE → Z.lor a k = a + k.
Proof.
  intros Ha Hk. assert (Z.land a k = 0) as Hz.
  { apply Z.bits_inj'. intros i Hi. rewrite Z.land_spec, Z.bits_0.
    destruct (decide (i < 12)).
    - replace a with (a / 2 ^ 12 * 2 ^ 12)
        by (change (2 ^ 12) with PAGE_SIZE; pose proof (Z.div_mod a PAGE_SIZE); lia).
      by rewrite Z.mul_pow2_bits_low.
    - rewrite (bits_above k 12 i); [by rewrite andb_false_r|lia| |lia].
      unfold PAGE_SIZE in *; lia. }
  by rewrite Z.add_nocarry_lxor, Z.lxor_lor.
Qed.

(** ** Single bits of a word *)

Lemma land_pow2 w j :
  0 ≤ j → Z.land w (2 ^ j) = if Z.testbit w j then 2 ^ j else 0.
Proof.
  intros Hj. apply Z.bits_inj'. intros i Hi.
  rewrite Z.land_spec, Z.pow2_bits_eqb by done.
  destruct (Z.eqb_spec j i) as [->|Hne].
  - destruct (Z.testbit w i); [by rewrite Z.pow2_bits_true|by rewrite Z.bits_0].
  - rewrite andb_false_r. destruct (Z.testbit w j); [|by rewrite Z.bits_0].
    by rewrite Z.pow2_bits_false by done.
Qed.

Lemma land_pow2_eqb w j : 0 ≤ j → (Z.land w (2 ^ j) =? 0) = negb (Z.testbit w j).
Proof.
  intros Hj. rewrite land_pow2 by done.
  assert (0 < 2 ^ j) by (apply Z.pow_pos_nonneg; lia).
  destruct (Z.testbit w j); simpl; [|done]. apply Z.eqb_neq. lia.
Qed.

Lemma u32_pow2 j : 0 ≤ j < 32 → u32 (2 ^ j) = 2 ^ j.
Proof.
  intros. apply u32_id. split; [apply Z.pow_nonneg; lia|].
  apply Z.pow_lt_mono_r; lia.
Qed.

(** A 32-bit word with every bit set. *)
Lemma word_full w :
  0 ≤ w < 2 ^ 32 → (∀ i, 0 ≤ i < 32 → Z.testbit w i = true) → w = 0xffffffff.
Proof.
  intros Hw Hb. change 0xffffffff with (Z.ones 32). apply Z.bits_inj'. intros i Hi.
  rewrite Z.testbit_ones_nonneg by lia. destruct (Z.ltb_spec i 32).
  - apply Hb. lia.
  - apply (bits_above w 32); lia.
Qed.

Lemma word_full_bit i : 0 ≤ i < 32 → Z.testbit 0xffffffff i = true.
Proof.
  intros. change 0xffffffff with (Z.ones 32). rewrite Z.testbit_ones_nonneg by lia. lia.
Qed.
