(* ===== verification/Spl.v ===== *)
(** * Interrupt priority level (kern/arch/mips/mips/spl.c)

    The processor state the C code sees through [mfc0]/[mtc0] is the status
    register; [curspl] is the kernel's own record of the level.  The file
    shows that the two agree and that a [splhigh] / [splx] bracket restores
    both, which is what every critical section of the kernel relies on. *)

From S2P Require Import Prelude Bits.

(** The status register (coprocessor 0, register 12) and [curspl]. *)
Record cpu := Cpu { c0_status : Z; curspl : Z }.

Definition CST_IEc : Z := 1.
Definition SPL_HIGH : Z := 15.

Definition interrupts_on : K cpu unit :=
  c ← kget;
  let x := Z.lor (c0_status c) CST_IEc in
  kput (Cpu x (curspl c)).

Definition interrupts_off : K cpu unit :=
  c ← kget;
  let x := Z.land (c0_status c) (u32 (Z.lnot CST_IEc)) in
  kput (Cpu x (curspl c)).

Definition interrupts_onoff : K cpu unit :=
  c ← kget;
  let x := c0_status c in
  let xon := Z.lor x CST_IEc in
  let xoff := Z.land x (u32 (Z.lnot CST_IEc)) in
  kput (Cpu xon (curspl c));;
  c ← kget;
  kput (Cpu xoff (curspl c)).

Definition splx (newspl : Z) : K cpu Z :=
  (if 0 <? newspl then interrupts_off
   else if newspl =? 0 then interrupts_on
   else mret tt);;
  c ← kget;
  let oldspl := curspl c in
  kput (Cpu (c0_status c) newspl);;
  mret oldspl.

Definition splhigh : K cpu Z := splx SPL_HIGH.

Definition spl0 : K cpu Z := splx 0.

(** The level and the interrupt-enable bit agree: the kernel is interruptible
    exactly at level 0. *)
Record cpu_ok (c : cpu) : Prop := CpuOk {
  cpu_status : 0 ≤ c0_status c < 2 ^ 32;
  cpu_level : 0 ≤ curspl c;
  cpu_agree : Z.testbit (c0_status c) 0 = (curspl c =? 0)
}.

(** The two masks on a status word. *)
Lemma status_off_bit x i :
  0 ≤ x < 2 ^ 32 → 0 ≤ i →
  Z.testbit (Z.land x (u32 (Z.lnot CST_IEc))) i =
  negb (i =? 0) && Z.testbit x i.
Proof.
  intros Hx Hi. rewrite testbit_andnot by lia.
  change CST_IEc with (2 ^ 0). rewrite Z.pow2_bits_eqb by lia.
  rewrite (Z.eqb_sym 0 i). by rewrite andb_comm.
Qed.

Lemma status_on_bit x i :
  0 ≤ i → Z.testbit (Z.lor x CST_IEc) i = (i =? 0) || Z.testbit x i.
Proof.
  intros Hi. rewrite Z.lor_spec. change CST_IEc with (2 ^ 0).
  rewrite Z.pow2_bits_eqb by lia. rewrite (Z.eqb_sym 0 i). by rewrite orb_comm.
Qed.

(** Turning the bit off and back on is the identity on a word that had it. *)
Lemma status_off_on x :
  0 ≤ x < 2 ^ 32 → Z.testbit x 0 = true →
  Z.lor (Z.land x (u32 (Z.lnot CST_IEc))) CST_IEc = x.
Proof.
  intros Hx Hb. apply Z.bits_inj'. intros i Hi.
  rewrite status_on_bit, status_off_bit by lia.
  destruct (Z.eqb_spec i 0) as [->|]; simpl; [done|done].
Qed.

Lemma status_off_off x :
  0 ≤ x < 2 ^ 32 → Z.testbit x 0 = false →
  Z.land x (u32 (Z.lnot CST_IEc)) = x.
Proof.
  intros Hx Hb. apply Z.bits_inj'. intros i Hi. rewrite status_off_bit by lia.
  destruct (Z.eqb_spec i 0) as [->|]; simpl; [done|done].
Qed.

(** The world inside a critical section entered from [c]. *)
Definition high (c : cpu) : cpu :=
  Cpu (Z.land (c0_status c) (u32 (Z.lnot CST_IEc))) SPL_HIGH.

Lemma splhigh_spec {Q : Z → world cpu → Prop} {c m} :
  Q (curspl c) (World (high c) m) → wp splhigh Q (World c m).
Proof. done. Qed.

Lemma high_ok c : cpu_ok c → cpu_ok (high c).
Proof.
  intros [Hs Hl Ha]. split; unfold high; cbn [c0_status curspl].
  - by apply land_range.
  - done.
  - by rewrite status_off_bit by lia.
Qed.

(** Leaving the section gives back the processor it was entered with. *)
Lemma splx_spec {Q : Z → world cpu → Prop} {c m} :
  cpu_ok c → Q SPL_HIGH (World c m) → wp (splx (curspl c)) Q (World (high c) m).
Proof.
  intros [Hs Hl Ha] HQ. destruct c as [x l]; cbn [c0_status curspl] in *.
  unfold splx, high. destruct (Z.ltb_spec 0 l).
  - unfold interrupts_off. kstep. cbn [c0_status curspl].
    rewrite (status_off_off (Z.land x _)).
    + rewrite status_off_off; [done|lia|]. rewrite Ha. lia.
    + by apply land_range.
    + by rewrite status_off_bit by lia.
  - replace l with 0 in * by lia. unfold interrupts_on. simpl. kstep.
    cbn [c0_status curspl]. by rewrite status_off_on by done.
Qed.

(** Every level a caller can set keeps the register and [curspl] in step. *)
Lemma splx_ok l c m :
  cpu_ok c → 0 ≤ l →
  wp (splx l) (λ old w', old = curspl c ∧ curspl (wst w') = l ∧ cpu_ok (wst w') ∧
                         wmem w' = m) (World c m).
Proof.
  intros [Hs Hl Ha] H0. unfold splx. destruct (Z.ltb_spec 0 l).
  - unfold interrupts_off. kstep. cbn [c0_status curspl].
    split_and!; try done. split; cbn [c0_status curspl]; [|lia|].
    + by apply land_range.
    + rewrite status_off_bit by lia. simpl. lia.
  - replace l with 0 by lia. unfold interrupts_on. simpl. kstep.
    cbn [c0_status curspl]. split_and!; try done.
    split; cbn [c0_status curspl]; [|lia|by rewrite status_on_bit].
    apply lor_range; [lia|done|]. unfold CST_IEc. lia.
Qed.
