(* ===== verification/Ram.v ===== *)
(** * Physical memory and kernel pages

    kern/arch/mips/mips/ram.c hands out physical memory from the bottom up;
    the page functions of kern/arch/mips/mips/dumbvm.c put it into kseg0.
    The class [KPages] is what the rest of the kernel may assume of
    [alloc_kpages] and [free_kpages]; the dumbvm instance is proved here. *)

From S2P Require Import Prelude Bits Spl.

Definition MIPS_KSEG0 : Z := 0x80000000.
Definition MIPS_KSEG1 : Z := 0xa0000000.

Definition PADDR_TO_KVADDR (paddr : Z) : Z := u32 (paddr + MIPS_KSEG0).

(** ** ram.c *)

Record ram := Ram { firstpaddr : Z; lastpaddr : Z }.

(** [mips_ramsize ()] and [firstfree] come from assembly code. *)
Definition ram_bootstrap (mips_ramsize firstfree : Z) : K ram unit :=
  let ramsize := mips_ramsize in
  let ramsize := if 508 * 1024 * 1024 <? ramsize then 508 * 1024 * 1024 else ramsize in
  r ← kget;
  kput (Ram (firstpaddr r) ramsize);;
  r ← kget;
  kput (Ram (u32 (firstfree - MIPS_KSEG0)) (lastpaddr r)).

Definition ram_stealmem (npages : Z) : K ram Z :=
  let size := u32 (npages * PAGE_SIZE) in
  r ← kget;
  if lastpaddr r <? u32 (firstpaddr r + size) then mret 0
  else
    let paddr := firstpaddr r in
    kput (Ram (u32 (firstpaddr r + size)) (lastpaddr r));;
    mret paddr.

Definition ram_getsize : K ram (Z * Z) :=
  r ← kget;
  mret (firstpaddr r, lastpaddr r).

(** ** The page functions of dumbvm.c *)

Definition getppages (npages : Z) : K (cpu * ram) Z :=
  spl ← zoom fst (λ c s, (c, s.2)) splhigh;
  addr ← zoom snd (λ r s, (s.1, r)) (ram_stealmem npages);
  zoom fst (λ c s, (c, s.2)) (splx spl);;
  mret addr.

Definition alloc_kpages (npages : Z) : K (cpu * ram) Z :=
  pa ← getppages npages;
  if pa =? 0 then mret 0 else mret (PADDR_TO_KVADDR pa).

Definition free_kpages (addr : Z) : K (cpu * ram) unit := mret tt.

(** ** The interface to the kernel heap

    [R] maps the base of every region handed out and not yet given back to
    its number of pages. *)

Definition page_region (b n : Z) : Prop :=
  b mod PAGE_SIZE = 0 ∧ 0 < n ∧ MIPS_KSEG0 ≤ b ∧ b + n * PAGE_SIZE ≤ MIPS_KSEG1.

Definition apart (b n b' n' : Z) : Prop := b + n ≤ b' ∨ b' + n' ≤ b.

(** Requests up to this many pages cannot wrap around the address space. *)
Definition MAXPAGES : Z := 2 ^ 19.

(** [kpages_max] bounds the requests an implementation answers correctly;
    [kpages_took] and [kpages_gave] are what an implementation reveals of its
    steps to clients that know it. *)

Class PageOps (V : Type) := {
  kpages_alloc : Z → K (cpu * V) Z;
  kpages_free : Z → K (cpu * V) unit
}.

Class KPages (V : Type) `{PageOps V} := {
  kpages_ok : V → gmap Z Z → Prop;
  kpages_max : Z;
  kpages_took : V → Z → Z → V → Prop;
  kpages_gave : V → Z → V → Prop;
  kpages_max_range : 0 < kpages_max ≤ MAXPAGES;
  kpages_region v R b n : kpages_ok v R → R !! b = Some n → page_region b n;
  kpages_apart v R b n b' n' :
    kpages_ok v R → R !! b = Some n → R !! b' = Some n' → b ≠ b' →
    apart b (n * PAGE_SIZE) b' (n' * PAGE_SIZE);
  kpages_alloc_ok (Q : Z → world (cpu * V) → Prop) n R c v m :
    cpu_ok c → kpages_ok v R → 0 < n ≤ kpages_max →
    (∀ v', kpages_ok v' R → kpages_took v n 0 v' → Q 0 (World (c, v') m)) →
    (∀ a v', R !! a = None → kpages_ok v' (<[a := n]> R) → kpages_took v n a v' →
       Q a (World (c, v') m)) →
    wp (kpages_alloc n) Q (World (c, v) m);
  kpages_free_ok (Q : unit → world (cpu * V) → Prop) a n R c v m :
    cpu_ok c → kpages_ok v R → R !! a = Some n →
    (∀ v', kpages_ok v' (delete a R) → kpages_gave v a v' → Q tt (World (c, v') m)) →
    wp (kpages_free a) Q (World (c, v) m)
}.

(** A critical section on one component of a pair. *)
Lemma splhigh_zoom {V} (Q : Z → world (cpu * V) → Prop) c v m :
  Q (curspl c) (World (high c, v) m) →
  wp (zoom fst (λ c s, (c, s.2)) splhigh) Q (World (c, v) m).
Proof. rewrite wp_zoom. intros HQ. by apply splhigh_spec. Qed.

Lemma splx_zoom {V} (Q : Z → world (cpu * V) → Prop) c v m :
  cpu_ok c → Q SPL_HIGH (World (c, v) m) →
  wp (zoom fst (λ c s, (c, s.2)) (splx (curspl c))) Q (World (high c, v) m).
Proof. rewrite wp_zoom. intros Hc HQ. by apply splx_spec. Qed.

(** ** The dumbvm instance *)

#[global] Instance dumbvm_ops : PageOps ram := {
  kpages_alloc := alloc_kpages;
  kpages_free := free_kpages
}.

Record ram_ok (r : ram) : Prop := RamOk {
  ram_first : 0 < firstpaddr r;
  ram_order : firstpaddr r ≤ lastpaddr r;
  ram_last : lastpaddr r ≤ 508 * 1024 * 1024;
  ram_aligned : firstpaddr r mod PAGE_SIZE = 0
}.

(** Regions handed out lie below the free memory, apart from each other. *)
Record stolen (r : ram) (R : gmap Z Z) : Prop := Stolen {
  st_ram : ram_ok r;
  st_region b n : R !! b = Some n →
    b mod PAGE_SIZE = 0 ∧ 0 < n ∧ MIPS_KSEG0 ≤ b ∧
    b + n * PAGE_SIZE ≤ MIPS_KSEG0 + firstpaddr r;
  st_apart b n b' n' : R !! b = Some n → R !! b' = Some n' → b ≠ b' →
    apart b (n * PAGE_SIZE) b' (n' * PAGE_SIZE)
}.

(** [ram_stealmem] either refuses, unchanged, or takes the lowest pages. *)
Lemma ram_stealmem_spec (Q : Z → world ram → Prop) n r m :
  ram_ok r → 0 ≤ n ≤ MAXPAGES →
  (lastpaddr r < firstpaddr r + n * PAGE_SIZE → Q 0 (World r m)) →
  (firstpaddr r + n * PAGE_SIZE ≤ lastpaddr r →
   Q (firstpaddr r) (World (Ram (firstpaddr r + n * PAGE_SIZE) (lastpaddr r)) m)) →
  wp (ram_stealmem n) Q (World r m).
Proof.
  intros [] Hn Hno Hyes. unfold MAXPAGES, PAGE_SIZE in *.
  unfold ram_stealmem, PAGE_SIZE. kstep.
  rewrite (u32_id (n * 4096)) by lia. rewrite u32_id by lia.
  destruct (Z.ltb_spec (lastpaddr r) (firstpaddr r + n * 4096)).
  - rewrite wp_ret. by apply Hno.
  - kstep. by apply Hyes.
Qed.

Lemma getppages_spec (Q : Z → world (cpu * ram) → Prop) n c r m :
  cpu_ok c → ram_ok r → 0 ≤ n ≤ MAXPAGES →
  (lastpaddr r < firstpaddr r + n * PAGE_SIZE → Q 0 (World (c, r) m)) →
  (firstpaddr r + n * PAGE_SIZE ≤ lastpaddr r →
   Q (firstpaddr r)
     (World (c, Ram (firstpaddr r + n * PAGE_SIZE) (lastpaddr r)) m)) →
  wp (getppages n) Q (World (c, r) m).
Proof.
  intros Hc Hr Hn Hno Hyes. unfold getppages.
  rewrite wp_bind. apply splhigh_zoom. rewrite wp_bind, wp_zoom. cbn [wst wmem snd].
  apply ram_stealmem_spec; [done..| |]; intros Hfit; cbn [wst wmem fst];
    rewrite wp_bind; apply splx_zoom; try done; rewrite wp_ret; eauto.
Qed.

Lemma kvaddr r :
  ram_ok r → PADDR_TO_KVADDR (firstpaddr r) = MIPS_KSEG0 + firstpaddr r.
Proof.
  intros []. unfold PADDR_TO_KVADDR, MIPS_KSEG0. rewrite u32_id; lia.
Qed.

Lemma stolen_steal r R n :
  stolen r R → 0 < n → firstpaddr r + n * PAGE_SIZE ≤ lastpaddr r →
  stolen (Ram (firstpaddr r + n * PAGE_SIZE) (lastpaddr r))
         (<[MIPS_KSEG0 + firstpaddr r := n]> R).
Proof.
  intros [[] Hreg Hap] Hn Hfit. unfold PAGE_SIZE in *.
  assert (MIPS_KSEG0 = 524288 * 4096) as HK by done.
  split.
  - split; cbn [firstpaddr lastpaddr]; try lia. by rewrite Z_mod_plus_full.
  - intros b k. cbn [firstpaddr]. rewrite lookup_insert_Some.
    unfold PAGE_SIZE. intros [(<- & <-)|(_ & Hb)]; [|apply Hreg in Hb; lia].
    split_and!; try lia. by rewrite HK, Z.add_comm, Z_mod_plus_full.
  - intros b k b' k'. rewrite !lookup_insert_Some. unfold apart, PAGE_SIZE.
    intros [(<- & <-)|(_ & Hb)] [(<- & <-)|(_ & Hb')] Hne; [done|..].
    + apply Hreg in Hb'. lia.
    + apply Hreg in Hb. lia.
    + by apply (Hap b k b' k').
Qed.

#[global] Instance dumbvm_pages : KPages ram.
Proof.
  refine {| kpages_ok := stolen; kpages_max := MAXPAGES;
            kpages_took _ _ _ _ := True; kpages_gave _ _ _ := True |}.
  - done.
  - intros v R b n [[] Hreg _] (? & ? & ? & ?)%Hreg. split_and!; try done.
    unfold MIPS_KSEG0, MIPS_KSEG1 in *. lia.
  - intros v R b n b' n' [_ _ Hap]. apply Hap.
  - intros Q n R c r m Hc Hs Hn Hno Hyes. simpl. unfold alloc_kpages.
    rewrite wp_bind. apply getppages_spec; [done|apply Hs|lia| |]; intros Hfit.
    + by apply Hno.
    + destruct Hs as [Hr Hreg Hap]. rewrite (proj2 (Z.eqb_neq _ 0)) by (destruct Hr; lia).
      rewrite wp_ret, kvaddr by done. apply Hyes; [| |done].
      * apply eq_None_not_Some. intros [k Hk%Hreg]. unfold PAGE_SIZE in *. lia.
      * by apply stolen_steal; [|lia|].
  - intros Q a n R c r m Hc [Hr Hreg Hap] Ha HQ. simpl. unfold free_kpages.
    rewrite wp_ret. apply HQ; [|done]. split; [done|..].
    + intros b k (_ & Hb)%lookup_delete_Some. by apply Hreg.
    + intros b k b' k' (_ & Hb)%lookup_delete_Some (_ & Hb')%lookup_delete_Some.
      by apply Hap.
Defined.
