(* ===== verification/Tlb.v ===== *)
(** * Fields of TLB entries and kinds of faults

    The constants of kern/arch/mips/include/tlb.h and kern/include/vm.h that the
    two virtual memory systems share. *)

From S2P Require Import Prelude.

Definition TLBLO_PPAGE : Z := 0xfffff000.
Definition TLBLO_DIRTY : Z := 0x400.
Definition TLBLO_VALID : Z := 0x200.

(** Invalid entries differ from each other and translate unmapped addresses. *)
Definition TLBHI_INVALID (entryno : Z) : Z := u32 (Z.shiftl (0x80000 + entryno) 12).
Definition TLBLO_INVALID : Z := 0.

Definition NUM_TLB : Z := 64.

Definition VM_FAULT_READ : Z := 0.
Definition VM_FAULT_WRITE : Z := 1.
Definition VM_FAULT_READONLY : Z := 2.
