(* ===== verification/KHeap.v ===== *)
(** * The kernel heap (kern/lib/kheap.c)

    The subpage allocator with its free lists threaded through memory, and
    [kmalloc]/[kfree] on top of it.  Memory is the word memory of kseg0;
    pages come from any implementation of the class [KPages].  The model is
    that of the shipped configuration: [SLOW] and [SLOWER] are undefined, so
    the calls of [checksubpage] and [checksubpages] are empty; the two checks
    themselves are modelled at the end. *)

From S2P Require Import Prelude Bits Spl Ram.

(** ** Data *)

Definition NSIZES : Z := 8.

Definition sizes : list Z := [16; 32; 64; 128; 256; 512; 1024; 2048].

Definition LARGEST_SUBPAGE_SIZE : Z := 2048.

(** A [struct pageref *] is NULL or points into the array [pagerefs]. *)
Record pageref := Pageref {
  next_samesize : option Z;
  next_all : option Z;
  pageaddr_and_blocktype : Z;
  freelist_offset : Z;
  nfree : Z
}.

Definition INVALID_OFFSET : Z := 0xffff.

Definition PR_PAGEADDR (pr : pageref) : Z :=
  Z.land (pageaddr_and_blocktype pr) PAGE_FRAME.

Definition PR_BLOCKTYPE (pr : pageref) : Z :=
  Z.land (pageaddr_and_blocktype pr) (u32 (Z.lnot PAGE_FRAME)).

Definition MKPAB (pa blk : Z) : Z :=
  Z.lor (Z.land pa PAGE_FRAME) (Z.land blk (u32 (Z.lnot PAGE_FRAME))).

Definition NPAGEREFS : Z := PAGE_SIZE / 16.

Definition INUSE_WORDS : Z := NPAGEREFS / 32.

Section kheap.
Context {V : Type} `{PageOps V}.

(** The static variables of the file, the memory, the processor and the
    state of the page allocator. *)
Record kheap := KHeap {
  pagerefs : list pageref;
  pagerefs_inuse : list Z;
  sizebases : list (option Z);
  allbase : option Z;
  kmem : gmap Z Z;
  hcpu : cpu;
  hvm : V
}.

Definition set_pagerefs (l : list pageref) (s : kheap) : kheap :=
  KHeap l (pagerefs_inuse s) (sizebases s) (allbase s) (kmem s) (hcpu s) (hvm s).
Definition set_inuse (l : list Z) (s : kheap) : kheap :=
  KHeap (pagerefs s) l (sizebases s) (allbase s) (kmem s) (hcpu s) (hvm s).
Definition set_sizebases (l : list (option Z)) (s : kheap) : kheap :=
  KHeap (pagerefs s) (pagerefs_inuse s) l (allbase s) (kmem s) (hcpu s) (hvm s).
Definition set_allbase (o : option Z) (s : kheap) : kheap :=
  KHeap (pagerefs s) (pagerefs_inuse s) (sizebases s) o (kmem s) (hcpu s) (hvm s).
Definition set_kmem (m : gmap Z Z) (s : kheap) : kheap :=
  KHeap (pagerefs s) (pagerefs_inuse s) (sizebases s) (allbase s) m (hcpu s) (hvm s).
Definition set_hcpu (c : cpu) (s : kheap) : kheap :=
  KHeap (pagerefs s) (pagerefs_inuse s) (sizebases s) (allbase s) (kmem s) c (hvm s).
Definition set_hvm (p : cpu * V) (s : kheap) : kheap :=
  KHeap (pagerefs s) (pagerefs_inuse s) (sizebases s) (allbase s) (kmem s) p.1 p.2.

(** Word access through a kernel pointer: aligned and inside kseg0, which
    NULL is not; a word nobody has written is indeterminate. *)
Definition kseg0_word (a : Z) : bool :=
  (a mod 4 =? 0) && (MIPS_KSEG0 <=? a) && (a <? MIPS_KSEG1).

Definition kload (a : Z) : K kheap Z :=
  if kseg0_word a then s ← kget; kof (kmem s !! a) else kundef.

Definition kstore (a v : Z) : K kheap unit :=
  if kseg0_word a then s ← kget; kput (set_kmem (<[a := v]> (kmem s)) s)
  else kundef.

Definition getpr (i : Z) : K kheap pageref :=
  s ← kget; kof (lget (pagerefs s) i).

Definition setpr (i : Z) (p : pageref) : K kheap unit :=
  s ← kget; l ← kof (lset (pagerefs s) i p); kput (set_pagerefs l s).

Definition hsplhigh : K kheap Z := zoom hcpu set_hcpu splhigh.

Definition hsplx (spl : Z) : K kheap Z := zoom hcpu set_hcpu (splx spl).

Definition halloc_kpages (n : Z) : K kheap Z :=
  zoom (λ s, (hcpu s, hvm s)) set_hvm (kpages_alloc n).

Definition hfree_kpages (a : Z) : K kheap unit :=
  zoom (λ s, (hcpu s, hvm s)) set_hvm (kpages_free a).

(** ** Operations *)

Definition fill_deadbeef (vptr len : Z) : K kheap unit :=
  kfold (Z.to_nat (len / 4)) 0
    (λ i _, kstore (u32 (vptr + 4 * i)) 0xdeadbeef) tt.

Definition allocpageref : K kheap (option Z) :=
  r ← kfind (Z.to_nat INUSE_WORDS) 0 (λ i _,
    s ← kget;
    w ← kof (lget (pagerefs_inuse s) i);
    if w =? 0xffffffff then mret (inl tt)
    else
      r ← kloop 32 (λ kj, negb (kj.1 =? 0)) (λ kj,
        let k := kj.1 in
        let j := kj.2 in
        s ← kget;
        w ← kof (lget (pagerefs_inuse s) i);
        if Z.land w k =? 0 then
          l ← kof (lset (pagerefs_inuse s) i (Z.lor w k));
          kput (set_inuse l s);;
          mret (inr (i * 32 + j))
        else mret (inl (u32 (Z.shiftl k 1), j + 1))) (1, 0);
      match r with
      | inr p => mret (inr p)
      | inl _ => kpanic
      end) tt;
  match r with
  | inr p => mret (Some p)
  | inl _ => mret None
  end.

Definition freepageref (p : Z) : K kheap unit :=
  let j := u32 p in
  kassert (j <? NPAGEREFS);;
  let i := j / 32 in
  let k := u32 (Z.shiftl 1 (j mod 32)) in
  s ← kget;
  w ← kof (lget (pagerefs_inuse s) i);
  kassert (negb (Z.land w k =? 0));;
  l ← kof (lset (pagerefs_inuse s) i (Z.land w (u32 (Z.lnot k))));
  kput (set_inuse l s).

(** The pointer-to-pointer [guy] that walks a list: the place that holds a
    [struct pageref *]. *)
Inductive guyptr :=
| AtSizebase (blktype : Z)
| AtNextSame (i : Z)
| AtAllbase
| AtNextAll (i : Z).

Definition guy_deref (g : guyptr) : K kheap (option Z) :=
  s ← kget;
  match g with
  | AtSizebase b => kof (lget (sizebases s) b)
  | AtNextSame i => p ← getpr i; mret (next_samesize p)
  | AtAllbase => mret (allbase s)
  | AtNextAll i => p ← getpr i; mret (next_all p)
  end.

Definition guy_assign (g : guyptr) (v : option Z) : K kheap unit :=
  s ← kget;
  match g with
  | AtSizebase b => l ← kof (lset (sizebases s) b v); kput (set_sizebases l s)
  | AtNextSame i =>
      p ← getpr i;
      setpr i (Pageref v (next_all p) (pageaddr_and_blocktype p)
                 (freelist_offset p) (nfree p))
  | AtAllbase => kput (set_allbase v s)
  | AtNextAll i =>
      p ← getpr i;
      setpr i (Pageref (next_samesize p) v (pageaddr_and_blocktype p)
                 (freelist_offset p) (nfree p))
  end.

(** One of the two loops of [remove_lists]; [next] is the place of the
    successor of a node and [succ] the successor stored in a node. *)
Definition remove_loop (next : Z → guyptr) (succ : pageref → option Z)
    (pr : Z) (guy : guyptr) : K kheap unit :=
  g ← guy_deref guy;
  kloop (Z.to_nat NPAGEREFS + 1) (λ t, bool_decide (t.2 ≠ None)) (λ t,
    i ← kof t.2;
    if i =? pr then
      p ← getpr pr;
      guy_assign t.1 (succ p);;
      mret (inr tt)
    else
      g' ← guy_deref (next i);
      mret (inl (next i, g'))) (guy, g);;
  mret tt.

Definition remove_lists (pr blktype : Z) : K kheap unit :=
  kassert ((0 <=? blktype) && (blktype <? NSIZES));;
  remove_loop AtNextSame next_samesize pr (AtSizebase blktype);;
  remove_loop AtNextAll next_all pr AtAllbase.

Definition blocktype (sz : Z) : K kheap Z :=
  r ← kfind (Z.to_nat NSIZES) 0 (λ i _,
    x ← kof (lget sizes i);
    mret (if sz <=? x then inr i else inl tt)) tt;
  match r with
  | inr i => mret i
  | inl _ => kpanic
  end.

(** The code from the label [doalloc] to the [return]. *)
Definition doalloc (pr spl : Z) : K kheap Z :=
  p ← getpr pr;
  kassert (freelist_offset p <? PAGE_SIZE);;
  let prpage := PR_PAGEADDR p in
  let fla := u32 (prpage + freelist_offset p) in
  let retptr := fla in
  fl ← kload fla;
  setpr pr (Pageref (next_samesize p) (next_all p) (pageaddr_and_blocktype p)
              (freelist_offset p) (u16 (nfree p - 1)));;
  p ← getpr pr;
  (if negb (fl =? 0) then
     kassert (0 <? nfree p);;
     let fla := fl in
     kassert (u32 (fla - prpage) <? PAGE_SIZE);;
     setpr pr (Pageref (next_samesize p) (next_all p) (pageaddr_and_blocktype p)
                 (u16 (fla - prpage)) (nfree p))
   else
     kassert (nfree p =? 0);;
     setpr pr (Pageref (next_samesize p) (next_all p) (pageaddr_and_blocktype p)
                 INVALID_OFFSET (nfree p)));;
  hsplx spl;;
  mret retptr.

(** Threading the free list through a fresh page; the result is [fl]. *)
Definition init_freelist (prpage size n : Z) : K kheap Z :=
  kstore prpage 0;;
  kfold (Z.to_nat (n - 1)) 1 (λ i _,
    let fl := u32 (prpage + i * size) in
    let next := u32 (prpage + (i - 1) * size) in
    kstore fl next;;
    kassert (negb (fl =? next));;
    mret fl) prpage.

(** Accounting for a fresh page: its free list and its place on the lists. *)
Definition setup_page (pr prpage blktype size : Z) : K kheap unit :=
  p ← getpr pr;
  setpr pr (Pageref (next_samesize p) (next_all p) (MKPAB prpage blktype)
              (freelist_offset p) (u16 (PAGE_SIZE / size)));;
  p ← getpr pr;
  fla ← init_freelist prpage size (nfree p);
  setpr pr (Pageref (next_samesize p) (next_all p) (pageaddr_and_blocktype p)
              (u16 (fla - prpage)) (nfree p));;
  p ← getpr pr;
  kassert (freelist_offset p =? (nfree p - 1) * size);;
  s ← kget;
  b ← kof (lget (sizebases s) blktype);
  setpr pr (Pageref b (next_all p) (pageaddr_and_blocktype p)
              (freelist_offset p) (nfree p));;
  guy_assign (AtSizebase blktype) (Some pr);;
  p ← getpr pr;
  s ← kget;
  setpr pr (Pageref (next_samesize p) (allbase s) (pageaddr_and_blocktype p)
              (freelist_offset p) (nfree p));;
  guy_assign AtAllbase (Some pr).

Definition subpage_kmalloc (sz : Z) : K kheap Z :=
  blktype ← blocktype sz;
  size ← kof (lget sizes blktype);
  spl ← hsplhigh;
  s ← kget;
  base ← kof (lget (sizebases s) blktype);
  r ← kloop (Z.to_nat NPAGEREFS + 1) (λ pr, bool_decide (pr ≠ None)) (λ pr,
    i ← kof pr;
    p ← getpr i;
    kassert (PR_BLOCKTYPE p =? blktype);;
    if 0 <? nfree p then mret (inr i) else mret (inl (next_samesize p))) base;
  match r with
  | inr pr => doalloc pr spl
  | inl _ =>
      o ← allocpageref;
      match o with
      | None => hsplx spl;; mret 0
      | Some pr =>
          prpage ← halloc_kpages 1;
          if prpage =? 0 then
            freepageref pr;;
            hsplx spl;;
            mret 0
          else
            setup_page pr prpage blktype size;;
            doalloc pr spl
      end
  end.

(** Freeing the block [ptr] of the page found: from the computation of
    [offset] to the release of an empty page. *)
Definition free_block (pr prpage blktype ptr : Z) : K kheap unit :=
  let offset := u32 (ptr - prpage) in
  size ← kof (lget sizes blktype);
  if (PAGE_SIZE <=? offset) || negb (offset mod size =? 0) then kpanic
  else
    fill_deadbeef ptr size;;
    let fla := u32 (prpage + offset) in
    p ← getpr pr;
    (if freelist_offset p =? INVALID_OFFSET then kstore fla 0
     else kstore fla (u32 (prpage + freelist_offset p)));;
    p ← getpr pr;
    setpr pr (Pageref (next_samesize p) (next_all p) (pageaddr_and_blocktype p)
                (u16 offset) (u16 (nfree p + 1)));;
    p ← getpr pr;
    kassert (nfree p <=? PAGE_SIZE / size);;
    (if nfree p =? PAGE_SIZE / size then
       remove_lists pr blktype;;
       hfree_kpages prpage;;
       freepageref pr
     else mret tt).

Definition subpage_kfree (ptr : Z) : K kheap Z :=
  let ptraddr := ptr in
  spl ← hsplhigh;
  s ← kget;
  r ← kloop (Z.to_nat NPAGEREFS + 1) (λ pr, bool_decide (pr ≠ None)) (λ pr,
    i ← kof pr;
    p ← getpr i;
    let prpage := PR_PAGEADDR p in
    let blktype := PR_BLOCKTYPE p in
    kassert ((0 <=? blktype) && (blktype <? NSIZES));;
    if (prpage <=? ptraddr) && (ptraddr <? u32 (prpage + PAGE_SIZE))
    then mret (inr (i, prpage, blktype))
    else mret (inl (next_all p))) (allbase s);
  match r with
  | inl _ => hsplx spl;; mret (-1)
  | inr (pr, prpage, blktype) =>
      free_block pr prpage blktype ptr;;
      hsplx spl;;
      mret 0
  end.

Definition kmalloc (sz : Z) : K kheap Z :=
  if LARGEST_SUBPAGE_SIZE <=? sz then
    let npages := u32 (u32 (sz + PAGE_SIZE) - 1) / PAGE_SIZE in
    address ← halloc_kpages (i32 npages);
    if address =? 0 then mret 0 else mret address
  else subpage_kmalloc sz.

Definition kfree (ptr : Z) : K kheap unit :=
  if ptr =? 0 then mret tt
  else
    r ← subpage_kfree ptr;
    if negb (r =? 0) then
      kassert (ptr mod PAGE_SIZE =? 0);;
      hfree_kpages ptr
    else mret tt.
(** ** The consistency checks compiled in with [SLOW] and [SLOWER] *)

Definition checksubpage (pr : Z) : K kheap unit :=
  s ← kget;
  kassert (0 <? curspl (hcpu s));;
  p ← getpr pr;
  if freelist_offset p =? INVALID_OFFSET then kassert (nfree p =? 0)
  else
    let prpage := PR_PAGEADDR p in
    let blktype := PR_BLOCKTYPE p in
    kassert (freelist_offset p <? PAGE_SIZE);;
    size ← kof (lget sizes blktype);
    kassert (freelist_offset p mod size =? 0);;
    let fla := u32 (prpage + freelist_offset p) in
    r ← kwhile (Z.to_nat NPAGEREFS) (λ t, negb (t.1 =? 0)) (λ t,
      let fla := t.1 in
      kassert ((prpage <=? fla) && (fla <? u32 (prpage + PAGE_SIZE)));;
      kassert (u32 (fla - prpage) mod size =? 0);;
      kassert (MIPS_KSEG0 <=? fla);;
      kassert (fla <? MIPS_KSEG1);;
      fl ← kload fla;
      mret (fl, t.2 + 1)) (fla, 0);
    kassert (r.2 =? nfree p).

(** One loop of [checksubpages]: check every page of a list, counting them. *)
Definition check_list (succ : pageref → option Z) (base : option Z) (count : Z) : K kheap Z :=
  r ← kwhile (Z.to_nat NPAGEREFS) (λ t, bool_decide (t.1 ≠ None)) (λ t,
    pr ← kof t.1;
    checksubpage pr;;
    kassert (t.2 <? NPAGEREFS);;
    p ← getpr pr;
    mret (succ p, t.2 + 1)) (base, count);
  mret r.2.

Definition checksubpages : K kheap unit :=
  s ← kget;
  kassert (0 <? curspl (hcpu s));;
  sc ← kfold (Z.to_nat NSIZES) 0 (λ i sc,
    s ← kget;
    base ← kof (lget (sizebases s) i);
    check_list next_samesize base sc) 0;
  s ← kget;
  ac ← check_list next_all (allbase s) 0;
  kassert (sc =? ac).
End kheap.

Arguments kheap V : clear implicits.
