(* ===== verification/KHeapInv.v ===== *)
(** * Invariant of the kernel heap

    The abstract view of the heap, page by page, and what it says of the
    static variables and the memory of KHeap.v; the specifications of the
    accounting helpers ([allocpageref], [freepageref], [remove_lists]) and of
    the free-list code. *)

From S2P Require Import Prelude Bits Spl Ram KHeap.

#[local] Ltac Zify.zify_post_hook ::= Z.div_mod_to_equations.

(** The constants of the file, evaluated. *)
Ltac hconst :=
  change NPAGEREFS with 256 in *; change INUSE_WORDS with 8 in *;
  change PAGE_SIZE with 4096 in *; change NSIZES with 8 in *.

(** ** The in-use bitmap *)

Definition wbit (ws : list Z) (i : Z) : bool :=
  match lget ws (i / 32) with Some w => Z.testbit w (i mod 32) | None => false end.

(** The bitmap [ws] records exactly the pagerefs of [I]. *)
Record inuse_ok (ws : list Z) (I : list Z) : Prop := InuseOk {
  iu_length : length ws = Z.to_nat INUSE_WORDS;
  iu_range : Forall (λ w, 0 ≤ w < 2 ^ 32) ws;
  iu_bit i : 0 ≤ i < NPAGEREFS → wbit ws i = bool_decide (i ∈ I)
}.

Lemma inuse_word ws I i :
  inuse_ok ws I → 0 ≤ i < INUSE_WORDS →
  ∃ w, lget ws i = Some w ∧ 0 ≤ w < 2 ^ 32 ∧
    ∀ j, 0 ≤ j < 32 → Z.testbit w j = bool_decide (i * 32 + j ∈ I).
Proof.
  intros [Hl Hr Hb] Hi. destruct (lget_is_Some ws i) as [w Hw].
  { rewrite Hl. lia. }
  exists w. split; [done|]. split.
  - rewrite Forall_lookup in Hr. apply (Hr (Z.to_nat i)).
    rewrite lget_lookup in Hw by lia. done.
  - intros j Hj. rewrite <- Hb by (hconst; lia).
    unfold wbit. rewrite Z.div_add_l, Z.div_small, Z.add_0_r, Hw by lia.
    by rewrite Z.add_comm, Z.mod_add, Z.mod_small by lia.
Qed.

Lemma inuse_update ws I I' i j w w' :
  inuse_ok ws I → 0 ≤ i < INUSE_WORDS → 0 ≤ j < 32 → lget ws i = Some w →
  0 ≤ w' < 2 ^ 32 →
  (∀ k, 0 ≤ k < 32 → k ≠ j → Z.testbit w' k = Z.testbit w k) →
  Z.testbit w' j = bool_decide (i * 32 + j ∈ I') →
  (∀ p, p ≠ i * 32 + j → p ∈ I' ↔ p ∈ I) →
  inuse_ok (<[Z.to_nat i := w']> ws) I'.
Proof.
  intros [Hl Hr Hb] Hi Hj Hw Hw' Hsame Hnew HI. split.
  - by rewrite length_insert.
  - by apply Forall_insert.
  - intros p Hp. unfold wbit. destruct (decide (p / 32 = i)) as [Hpi|Hpi].
    + rewrite Hpi, lget_insert_eq by (rewrite Hl; lia).
      destruct (decide (p mod 32 = j)) as [Hpj|Hpj].
      * rewrite Hpj, Hnew. by replace (i * 32 + j) with p by lia.
      * rewrite Hsame by lia. specialize (Hb p Hp). unfold wbit in Hb.
        rewrite Hpi, Hw in Hb. rewrite Hb. apply bool_decide_ext.
        symmetry. apply HI. lia.
    + rewrite lget_insert_ne by lia. specialize (Hb p Hp). unfold wbit in Hb.
      rewrite Hb. apply bool_decide_ext. symmetry. apply HI. lia.
Qed.

Section alloc.
Context {V : Type}.
Implicit Types s : kheap V.

(** The scan of one word finds its lowest clear bit. *)
Lemma allocpageref_spec (Q : option Z → world (kheap V) → Prop) I s m :
  inuse_ok (pagerefs_inuse s) I →
  ((∀ i, 0 ≤ i < NPAGEREFS → i ∈ I) → Q None (World s m)) →
  (∀ p ws, 0 ≤ p < NPAGEREFS → p ∉ I → inuse_ok ws (p :: I) →
     Q (Some p) (World (set_inuse ws s) m)) →
  wp allocpageref Q (World s m).
Proof.
  intros Hok Hnone Hsome. unfold allocpageref. rewrite wp_bind.
  apply (wp_kfind (λ i _ w, w = World s m ∧ ∀ p, 0 ≤ p < i * 32 → p ∈ I)).
  { split; [done|]. intros; lia. }
  2: { intros _ w (-> & Hall). rewrite wp_ret. apply Hnone. exact Hall. }
  intros i _ w Hi (-> & Hall). kstep.
  assert (0 ≤ i < INUSE_WORDS) as Hi' by (hconst; lia).
  destruct (inuse_word _ _ _ Hok Hi') as (w & Hw & Hwr & Hwb).
  rewrite (wp_kof _ _ _ _ Hw). destruct (Z.eqb_spec w 0xffffffff) as [->|Hfull].
  { rewrite wp_ret. split; [done|]. intros p Hp.
    destruct (decide (p < i * 32)); [apply Hall; lia|].
    specialize (Hwb (p - i * 32) ltac:(lia)).
    rewrite word_full_bit in Hwb by lia.
    replace (i * 32 + (p - i * 32)) with p in Hwb by lia.
    by apply (bool_decide_eq_true (p ∈ I)). }
  rewrite wp_bind.
  apply (wp_kloop (λ kj w', w' = World s m ∧ 0 ≤ kj.2 ≤ 32 ∧ kj.1 = u32 (2 ^ kj.2) ∧
           ∀ b, 0 ≤ b < kj.2 → Z.testbit w b = true)
         (λ kj, Z.to_nat (32 - kj.2))).
  - simpl. lia.
  - split_and!; try done. intros; simpl in *; lia.
  - intros [k j] w' Hk (-> & Hj & Hkj & Hlow); cbn [fst snd] in *; subst k.
    assert (j < 32).
    { destruct (decide (j = 32)) as [->|]; [by vm_compute in Hk|lia]. }
    rewrite u32_pow2 in * by lia. kstep. rewrite (wp_kof _ _ _ _ Hw).
    rewrite land_pow2_eqb by lia.
    destruct (Z.testbit w j) eqn:Hbit; cbn [negb].
    + rewrite wp_ret. cbn [fst snd]. split_and!; try done; try lia.
      * rewrite Z.shiftl_mul_pow2, <- Z.pow_add_r by lia. done.
      * intros b Hb. destruct (decide (b = j)) as [->|]; [done|]. apply Hlow. lia.
    + rewrite wp_bind, (wp_kof _ (<[Z.to_nat i := Z.lor w (2 ^ j)]> (pagerefs_inuse s)))
        by (apply lset_Some; eauto with os). kstep. split; [|lia].
      kstep. assert (i * 32 + j ∉ I) as Hnew.
      { intros Hin. rewrite Hwb in Hbit by lia.
        by rewrite bool_decide_eq_false in Hbit. }
      apply Hsome; [hconst; lia|done|].
      apply (inuse_update _ I _ i j w); try done; try lia.
      * apply lor_range; [lia|done|]. split; [apply Z.pow_nonneg; lia|].
        apply Z.pow_lt_mono_r; lia.
      * intros k Hk' Hne. rewrite Z.lor_spec, Z.pow2_bits_false by lia.
        apply orb_false_r.
      * rewrite Z.lor_spec, Z.pow2_bits_true, orb_true_r by lia.
        symmetry. apply bool_decide_eq_true. by left.
      * intros p Hp. rewrite elem_of_cons. naive_solver.
  - intros [k j] w' Hk (-> & Hj & Hkj & Hlow); cbn [fst snd] in *; subst k. exfalso.
    apply Hfull. apply word_full; [done|]. intros b Hb. apply Hlow.
    destruct (decide (j < 32)); [|lia]. rewrite u32_pow2 in Hk by lia.
    assert (0 < 2 ^ j) by (apply Z.pow_pos_nonneg; lia).
    apply negb_false_iff, Z.eqb_eq in Hk. lia.
Qed.

Lemma freepageref_spec (Q : unit → world (kheap V) → Prop) I I' p s m :
  inuse_ok (pagerefs_inuse s) I → 0 ≤ p < NPAGEREFS → p ∈ I → p ∉ I' →
  (∀ q, q ≠ p → q ∈ I' ↔ q ∈ I) →
  (∀ ws, inuse_ok ws I' → Q tt (World (set_inuse ws s) m)) →
  wp (freepageref p) Q (World s m).
Proof.
  intros Hok Hp Hin Hnin HI HQ. unfold freepageref.
  hconst. rewrite u32_id by lia.
  kstep. kassert_tac.
  rewrite Z.shiftl_1_l, u32_pow2 by lia.
  destruct (inuse_word _ _ (p / 32) Hok) as (w & Hw & Hwr & Hwb).
  { hconst. lia. }
  rewrite (wp_kof _ _ _ _ Hw), wp_bind.
  assert (p = p / 32 * 32 + p mod 32) as Hpeq by lia.
  assert (Z.testbit w (p mod 32) = true) as Hbit.
  { rewrite Hwb by lia. rewrite <- Hpeq. by apply bool_decide_eq_true. }
  rewrite wp_kassert by (by rewrite land_pow2_eqb, Hbit by lia).
  kstep.
  rewrite (wp_kof _ _ _ _ (lset_Some _ _ _ (lget_Some_range _ _ _ Hw))).
  rewrite wp_kput. apply HQ.
  apply (inuse_update _ I _ (p / 32) (p mod 32) w); try done; try lia.
  - hconst. lia.
  - by apply land_range.
  - intros k Hk Hne. rewrite testbit_andnot, Z.pow2_bits_false by lia.
    apply andb_true_r.
  - rewrite testbit_andnot, Z.pow2_bits_true by lia. rewrite andb_false_r.
    symmetry. apply bool_decide_eq_false. by rewrite <- Hpeq.
  - intros q Hq. apply HI. lia.
Qed.
End alloc.

(** ** Block sizes *)

Definition blksz (k : Z) : Z := 2 ^ (k + 4).

(** Blocks of type [k] in a page. *)
Definition nblk (k : Z) : Z := 2 ^ (8 - k).

Lemma sizes_lget k : 0 ≤ k < NSIZES → lget sizes k = Some (blksz k).
Proof.
  intros Hk. hconst.
  assert (k = 0 ∨ k = 1 ∨ k = 2 ∨ k = 3 ∨ k = 4 ∨ k = 5 ∨ k = 6 ∨ k = 7) as Hc by lia.
  by repeat (destruct Hc as [->|Hc]; [reflexivity|]); rewrite Hc.
Qed.

Lemma blksz_pos k : 0 ≤ k → 16 ≤ blksz k.
Proof.
  intros. unfold blksz. change 16 with (2 ^ 4). apply Z.pow_le_mono_r; lia.
Qed.

Lemma nblk_pos k : 0 ≤ k < NSIZES → 2 ≤ nblk k ≤ 256.
Proof.
  intros. hconst. unfold nblk. split.
  - apply (Z.pow_le_mono_r 2 1); lia.
  - apply (Z.pow_le_mono_r 2 _ 8); lia.
Qed.

Lemma blksz_max k : 0 ≤ k < NSIZES → blksz k ≤ LARGEST_SUBPAGE_SIZE.
Proof.
  intros. hconst. unfold blksz. change LARGEST_SUBPAGE_SIZE with (2 ^ 11).
  apply Z.pow_le_mono_r; lia.
Qed.

Lemma nblk_blksz k : 0 ≤ k < NSIZES → nblk k * blksz k = PAGE_SIZE.
Proof.
  intros. hconst. unfold nblk, blksz. rewrite <- Z.pow_add_r by lia.
  by replace (8 - k + (k + 4)) with 12 by lia.
Qed.

Lemma page_div_blksz k : 0 ≤ k < NSIZES → PAGE_SIZE / blksz k = nblk k.
Proof.
  intros Hk. rewrite <- (nblk_blksz k Hk). apply Z.div_mul.
  pose proof (blksz_pos k). lia.
Qed.

Lemma blksz_mod4 k q : 0 ≤ k → (q * blksz k) mod 4 = 0.
Proof.
  intros. unfold blksz. rewrite Z.pow_add_r by lia.
  replace (q * (2 ^ k * 2 ^ 4)) with (q * 2 ^ k * 4 * 4) by lia. apply Z_mod_mult.
Qed.

(** The offsets of the blocks in a page of type [k]. *)
Definition grid (k o : Z) : Prop := ∃ q, 0 ≤ q < nblk k ∧ o = q * blksz k.

Lemma grid_range k o :
  0 ≤ k < NSIZES → grid k o → 0 ≤ o ∧ o + blksz k ≤ PAGE_SIZE ∧ o mod 4 = 0.
Proof.
  intros Hk (q & Hq & ->). pose proof (blksz_pos k). rewrite <- (nblk_blksz k Hk).
  split_and!; [nia|nia|]. apply blksz_mod4. lia.
Qed.

Lemma grid_apart k o o' :
  0 ≤ k < NSIZES → grid k o → grid k o' → o ≠ o' → apart o (blksz k) o' (blksz k).
Proof.
  intros Hk (q & Hq & ->) (q' & Hq' & ->) Hne. pose proof (blksz_pos k).
  unfold apart. destruct (decide (q < q')); [left|right]; [nia|].
  assert (q' < q) by (destruct (decide (q = q')); [naive_solver|lia]). nia.
Qed.

Lemma grid_mod k o :
  0 ≤ k < NSIZES → 0 ≤ o < PAGE_SIZE → o mod blksz k = 0 → grid k o.
Proof.
  intros Hk Ho Hm. pose proof (blksz_pos k).
  exists (o / blksz k). pose proof (Z.div_mod o (blksz k)).
  pose proof (nblk_blksz k Hk). split; [|nia]. split.
  - apply Z.div_pos; lia.
  - apply Z.div_lt_upper_bound; lia.
Qed.

Lemma grid_mod_0 k o : 0 ≤ k → grid k o → o mod blksz k = 0.
Proof. intros ? (q & _ & ->). apply Z_mod_mult. Qed.

(** ** Pages *)

Record page := Page { pg_addr : Z; pg_type : Z; pg_free : list Z }.

Record page_ok (pg : page) : Prop := PageOk {
  pk_type : 0 ≤ pg_type pg < NSIZES;
  pk_nodup : NoDup (pg_free pg);
  pk_grid : Forall (grid (pg_type pg)) (pg_free pg)
}.

(** The free list of a page, threaded through the first words of its blocks. *)
Fixpoint flist (mem : gmap Z Z) (a : Z) (l : list Z) : Prop :=
  match l with
  | [] => True
  | o :: l' =>
      mem !! (a + o) = Some (match l' with [] => 0 | o' :: _ => a + o' end) ∧
      flist mem a l'
  end.

Lemma flist_ext mem mem' a l :
  (∀ o, o ∈ l → mem' !! (a + o) = mem !! (a + o)) →
  flist mem a l → flist mem' a l.
Proof.
  induction l as [|o l IH]; simpl; [done|]. intros He (Ho & Hl). split.
  - rewrite He; [done|by left].
  - apply IH; [|done]. intros o' ?. apply He. by right.
Qed.

(** A page of type [k] has at most [nblk k] free blocks. *)
Lemma page_free_bound pg : page_ok pg → Z.of_nat (length (pg_free pg)) ≤ nblk (pg_type pg).
Proof.
  intros [Ht Hn Hg]. pose proof (blksz_pos (pg_type pg)).
  pose proof (nblk_pos _ Ht) as Hnb.
  assert (pg_free pg ⊆ (λ q, q * blksz (pg_type pg)) <$> seqZ 0 (nblk (pg_type pg))) as Hsub.
  { intros o Ho. rewrite Forall_forall in Hg. destruct (Hg o Ho) as (q & Hq & ->).
    apply list_elem_of_fmap. exists q. split; [done|]. apply elem_of_seqZ. lia. }
  apply NoDup_submseteq in Hsub; [|done].
  apply submseteq_length in Hsub. rewrite length_fmap, length_seqZ in Hsub. lia.
Qed.

(** ** The linked lists

    [rd s g] is the pointer stored in the place [g]; [hangs s next g l] says
    that the list starting at the place [g] runs through [l]. *)

Section lists.
Context {V : Type}.
Implicit Types s : kheap V.

Definition rd s (g : guyptr) : option (option Z) :=
  match g with
  | AtSizebase b => lget (sizebases s) b
  | AtNextSame i => next_samesize <$> lget (pagerefs s) i
  | AtAllbase => Some (allbase s)
  | AtNextAll i => next_all <$> lget (pagerefs s) i
  end.

Definition wr s (g : guyptr) (v : option Z) : kheap V :=
  match g with
  | AtSizebase b => set_sizebases (<[Z.to_nat b := v]> (sizebases s)) s
  | AtNextSame i =>
      set_pagerefs (alter (λ p, Pageref v (next_all p) (pageaddr_and_blocktype p)
                                  (freelist_offset p) (nfree p))
                      (Z.to_nat i) (pagerefs s)) s
  | AtAllbase => set_allbase v s
  | AtNextAll i =>
      set_pagerefs (alter (λ p, Pageref (next_samesize p) v (pageaddr_and_blocktype p)
                                  (freelist_offset p) (nfree p))
                      (Z.to_nat i) (pagerefs s)) s
  end.

Lemma guy_deref_spec (Q : option Z → world (kheap V) → Prop) g v s m :
  rd s g = Some v → Q v (World s m) → wp (guy_deref g) Q (World s m).
Proof.
  intros Hr HQ. unfold guy_deref, getpr. kstep. destruct g; simpl in Hr.
  - by rewrite (wp_kof _ _ _ _ Hr).
  - apply fmap_Some in Hr as (p & Hp & ->). kstep. rewrite (wp_kof _ _ _ _ Hp).
    by rewrite wp_ret.
  - simplify_eq. by rewrite wp_ret.
  - apply fmap_Some in Hr as (p & Hp & ->). kstep. rewrite (wp_kof _ _ _ _ Hp).
    by rewrite wp_ret.
Qed.

Lemma alter_lget {A} (f : A → A) (l : list A) i x :
  lget l i = Some x → alter f (Z.to_nat i) l = <[Z.to_nat i := f x]> l.
Proof.
  intros Hl. pose proof (lget_Some_range _ _ _ Hl). rewrite lget_lookup in Hl by lia.
  generalize dependent (Z.to_nat i). clear. intros n. revert n.
  induction l as [|y l IH]; intros [|n] Hl; simplify_eq/=; [done|].
  f_equal. by apply IH.
Qed.

Lemma guy_assign_spec (Q : unit → world (kheap V) → Prop) g v v0 s m :
  rd s g = Some v0 → Q tt (World (wr s g v) m) → wp (guy_assign g v) Q (World s m).
Proof.
  intros Hr HQ. unfold guy_assign, getpr, setpr. kstep. destruct g; simpl in Hr, HQ.
  - rewrite wp_bind, (wp_kof _ _ _ _ (lset_Some _ _ _ (lget_Some_range _ _ _ Hr))).
    by kstep.
  - apply fmap_Some in Hr as (p & Hp & ->). kstep. rewrite (wp_kof _ _ _ _ Hp).
    kstep. rewrite (wp_kof _ _ _ _ (lset_Some _ _ _ (lget_Some_range _ _ _ Hp))).
    kstep. by erewrite alter_lget in HQ by done.
  - by kstep.
  - apply fmap_Some in Hr as (p & Hp & ->). kstep. rewrite (wp_kof _ _ _ _ Hp).
    kstep. rewrite (wp_kof _ _ _ _ (lset_Some _ _ _ (lget_Some_range _ _ _ Hp))).
    kstep. by erewrite alter_lget in HQ by done.
Qed.

Lemma rd_wr_eq s g v v0 : rd s g = Some v0 → rd (wr s g v) g = Some v.
Proof.
  intros Hr. destruct g; simpl in *.
  - apply lget_insert_eq. eauto with os.
  - apply fmap_Some in Hr as (p & Hp & ->). erewrite alter_lget by done.
    rewrite lget_insert_eq by eauto with os. done.
  - done.
  - apply fmap_Some in Hr as (p & Hp & ->). erewrite alter_lget by done.
    rewrite lget_insert_eq by eauto with os. done.
Qed.

Lemma lget_insert {A} (l : list A) i j x y :
  lget l i = Some x →
  lget (<[Z.to_nat i := y]> l) j = if decide (i = j) then Some y else lget l j.
Proof.
  intros Hl%lget_Some_range. case_decide; subst.
  - by apply lget_insert_eq.
  - by apply lget_insert_ne; [lia|].
Qed.

Lemma rd_wr_ne s g g' v v0 :
  rd s g = Some v0 → g ≠ g' → rd (wr s g v) g' = rd s g'.
Proof.
  intros Hr Hne. destruct g as [b|i| |i]; simpl in Hr; destruct g' as [b'|j| |j];
    simpl; try done;
    try (apply fmap_Some in Hr as (p & Hp & ->); erewrite alter_lget by done;
         rewrite (lget_insert _ _ _ _ _ Hp); case_decide; subst; [|done];
         by rewrite ?Hp).
  rewrite (lget_insert _ _ _ _ _ Hr). case_decide; [by subst|done].
Qed.

Fixpoint hangs s (next : Z → guyptr) (g : guyptr) (l : list Z) : Prop :=
  match l with
  | [] => rd s g = Some None
  | i :: l' => rd s g = Some (Some i) ∧ hangs s next (next i) l'
  end.

Lemma hangs_move s s' next g g' l :
  rd s' g' = rd s g → (∀ i, i ∈ l → rd s' (next i) = rd s (next i)) →
  hangs s next g l → hangs s' next g' l.
Proof.
  revert g g'. induction l as [|i l IH]; intros g g' Hg Hl; simpl.
  - by rewrite Hg.
  - rewrite Hg. intros (? & ?). split; [done|]. eapply IH; [apply Hl; by left| |done].
    intros j ?. apply Hl. by right.
Qed.

Lemma hangs_ext s s' next g l :
  rd s' g = rd s g → (∀ i, i ∈ l → rd s' (next i) = rd s (next i)) →
  hangs s next g l → hangs s' next g l.
Proof. apply hangs_move. Qed.

Lemma hangs_rd s next g l i :
  hangs s next g l → i ∈ l → is_Some (rd s (next i)).
Proof.
  revert g. induction l as [|j l IH]; intros g Hh Hi; [by apply elem_of_nil in Hi|].
  destruct Hh as (Hg & Hh). apply elem_of_cons in Hi as [->|Hi]; [|by eapply IH].
  destruct l; simpl in Hh; [eauto|destruct Hh; eauto].
Qed.

Lemma hangs_head s next g l : hangs s next g l → rd s g = Some (head l).
Proof. destruct l; simpl; [done|by intros (? & _)]. Qed.

(** The place that holds the pointer to what follows [l1]. *)
Definition holder (next : Z → guyptr) (g : guyptr) (l1 : list Z) : guyptr :=
  match last l1 with Some i => next i | None => g end.

Lemma hangs_app s next g l1 l2 :
  hangs s next g (l1 ++ l2) → hangs s next (holder next g l1) l2.
Proof.
  revert g. induction l1 as [|i l1 IH]; intros g Hh; [done|].
  destruct Hh as (_ & Hh%IH). unfold holder in *. rewrite last_cons.
  by destruct (last l1).
Qed.

Lemma holder_snoc next g l i : holder next g (l ++ [i]) = next i.
Proof. unfold holder. by rewrite last_snoc. Qed.
End lists.
