(* ===== verification/KHeapOk.v ===== *)
(** * The kernel heap keeps its invariant

    Specifications of the subpage allocator against the page-by-page view:
    allocation from a page, creation of a page, freeing, and release of an
    empty page. *)

From S2P Require Import Prelude Bits Spl Ram KHeap KHeapInv.

#[local] Ltac Zify.zify_post_hook ::= Z.div_mod_to_equations.

(** ** Unlinking a node *)

Section unlink.
Context {V : Type}.
Implicit Types s : kheap V.

Lemma hangs_wr_ne s next g g' l v v0 :
  rd s g' = Some v0 → g' ≠ g → (∀ x, x ∈ l → g' ≠ next x) →
  hangs s next g l → hangs (wr s g' v) next g l.
Proof.
  intros Hr Hg Hl. apply hangs_ext; [by eapply rd_wr_ne|].
  intros i Hi. eapply rd_wr_ne; [done|by apply Hl].
Qed.

Lemma holder_rd s next g l1 l2 :
  hangs s next g (l1 ++ l2) → rd s (holder next g l1) = Some (head l2).
Proof. intros Hh%hangs_app. by eapply hangs_head. Qed.

Lemma holder_cases next g l1 :
  holder next g l1 = g ∨ ∃ x, x ∈ l1 ∧ holder next g l1 = next x.
Proof.
  unfold holder. destruct (last l1) eqn:Hl; [right|by left].
  apply last_Some_elem_of in Hl. eauto.
Qed.

Lemma hangs_remove s next g l1 i l2 v :
  (∀ x y, next x = next y → x = y) →
  hangs s next g (l1 ++ i :: l2) → NoDup (l1 ++ i :: l2) →
  (∀ x, x ∈ l1 ++ i :: l2 → g ≠ next x) →
  rd s (next i) = Some v →
  hangs (wr s (holder next g l1) v) next g (l1 ++ l2).
Proof.
  intros Hinj. revert g. induction l1 as [|j l1 IH]; intros g Hh Hnd Hg Hv; simpl in *.
  - destruct Hh as (Hgi & Hh). pose proof (hangs_head _ _ _ _ Hh) as Hhd.
    unfold holder; simpl. destruct l2 as [|k l2]; simpl.
    + rewrite (rd_wr_eq _ _ _ _ Hgi). simpl in Hhd. congruence.
    + destruct Hh as (Hk & Hh). split; [rewrite (rd_wr_eq _ _ _ _ Hgi); congruence|].
      apply (hangs_wr_ne _ _ _ _ _ _ _ Hgi); [| |done].
      * apply Hg. by right; left.
      * intros x Hx. apply Hg. by right; right.
  - destruct Hh as (Hgj & Hh). apply NoDup_cons in Hnd as (Hj & Hnd).
    replace (holder next g (j :: l1)) with (holder next (next j) l1)
      by (unfold holder; rewrite last_cons; by destruct (last l1)).
    split.
    + rewrite (rd_wr_ne _ _ _ _ (head (i :: l2))); [done|by apply holder_rd|].
      intros <-. destruct (holder_cases next (next j) l1) as [He|(x & Hx & He)];
        rewrite He in Hg; [by eapply (Hg j); [left|]|].
      apply (Hg x); [right; apply elem_of_app; by left|done].
    + apply IH; [done..| |done]. intros x Hx ->%Hinj. done.
Qed.

Lemma remove_loop_spec next succ i g l1 l2 p (Q : unit → world (kheap V) → Prop) s m :
  hangs s next g (l1 ++ i :: l2) → i ∉ l1 → (length l1 ≤ Z.to_nat NPAGEREFS)%nat →
  lget (pagerefs s) i = Some p →
  Q tt (World (wr s (holder next g l1) (succ p)) m) →
  wp (remove_loop next succ i g) Q (World s m).
Proof.
  intros Hh Hi Hlen Hp HQ. unfold remove_loop. rewrite wp_bind.
  eapply guy_deref_spec; [by eapply hangs_head|]. rewrite wp_bind.
  assert (length l1 < Z.to_nat NPAGEREFS + 1)%nat as Hfuel by lia. clear Hlen.
  revert g Hh HQ Hi Hfuel. generalize (Z.to_nat NPAGEREFS + 1)%nat as fuel.
  induction l1 as [|j l1 IH]; intros fuel g Hh HQ Hi Hfuel; simpl in Hfuel;
    (destruct fuel as [|fuel]; [lia|]); simpl in Hh; destruct Hh as (Hg & Hh);
    rewrite wp_kloop_step by done; cbn [snd head app]; kstep.
  - rewrite Z.eqb_refl. unfold getpr. kstep. rewrite (wp_kof _ _ _ _ Hp). kstep.
    eapply guy_assign_spec; [done|]. by kstep.
  - apply not_elem_of_cons in Hi as (Hne & Hi).
    rewrite (proj2 (Z.eqb_neq j i)) by done. kstep.
    eapply guy_deref_spec; [by eapply hangs_head|]. kstep.
    apply IH; [done| |done|lia].
    replace (holder next (next j) l1) with (holder next g (j :: l1)); [done|].
    unfold holder; rewrite last_cons; by destruct (last l1).
Qed.
End unlink.

(** ** The whole heap *)

Section heap.
Context {V : Type} `{Hops : PageOps V} `{Hlaws : !KPages V}.
Implicit Types s : kheap V.
Implicit Types A : list (Z * page).

(** The accounting fields of a pageref. *)
Definition pinfo s (i : Z) : option (Z * Z * Z) :=
  (λ p, (pageaddr_and_blocktype p, freelist_offset p, nfree p)) <$>
    lget (pagerefs s) i.

(** The pagerefs of the pages of type [k], newest first. *)
Definition sameclass (k : Z) A : list Z := (filter (λ x, pg_type x.2 = k) A).*1.

Record pages_wf A (R : gmap Z Z) : Prop := PagesWf {
  pw_index : NoDup A.*1;
  pw_range : Forall (λ i, 0 ≤ i < NPAGEREFS) A.*1;
  pw_addr : NoDup (pg_addr <$> A.*2);
  pw_page i pg : (i, pg) ∈ A → page_ok pg;
  pw_region i pg : (i, pg) ∈ A → R !! pg_addr pg = Some 1
}.

(** The static variables [s] describe the pages [A]; the page allocator has
    handed out [R]. *)
Record heap_ok s A (R : gmap Z Z) : Prop := HeapOk {
  ho_len : length (pagerefs s) = Z.to_nat NPAGEREFS;
  ho_bases : length (sizebases s) = Z.to_nat NSIZES;
  ho_inuse : inuse_ok (pagerefs_inuse s) A.*1;
  ho_all : hangs s AtNextAll AtAllbase A.*1;
  ho_same k : 0 ≤ k < NSIZES →
    hangs s AtNextSame (AtSizebase k) (sameclass k A);
  ho_info i pg : (i, pg) ∈ A →
    pinfo s i = Some (pg_addr pg + pg_type pg, default INVALID_OFFSET (head (pg_free pg)),
                      Z.of_nat (length (pg_free pg)));
  ho_free i pg : (i, pg) ∈ A → flist (kmem s) (pg_addr pg) (pg_free pg);
  ho_wf : pages_wf A R;
  ho_vm : kpages_ok (hvm s) R
}.

Lemma pinfo_inv s i x :
  pinfo s i = Some x →
  ∃ p, lget (pagerefs s) i = Some p ∧
    x = (pageaddr_and_blocktype p, freelist_offset p, nfree p).
Proof. intros (p & ? & ?)%fmap_Some. eauto. Qed.

(** No two pages more than there are pagerefs. *)
Lemma pages_length A R : pages_wf A R → (length A ≤ Z.to_nat NPAGEREFS)%nat.
Proof.
  intros [Hn Hr _ _ _]. rewrite <- (length_fmap fst).
  replace (Z.to_nat NPAGEREFS) with (length (seqZ 0 NPAGEREFS)) by (by rewrite length_seqZ).
  apply submseteq_length, NoDup_submseteq; [done|]. intros i Hi.
  rewrite Forall_forall in Hr. apply elem_of_seqZ. specialize (Hr i Hi). lia.
Qed.

Lemma sameclass_length k A : (length (sameclass k A) ≤ length A)%nat.
Proof. unfold sameclass. rewrite length_fmap. apply length_filter. Qed.

(** Page addresses and their fields. *)
Lemma page_addr_range s A R i pg :
  heap_ok s A R → (i, pg) ∈ A →
  pg_addr pg mod PAGE_SIZE = 0 ∧ MIPS_KSEG0 ≤ pg_addr pg ∧
  pg_addr pg + PAGE_SIZE ≤ MIPS_KSEG1.
Proof.
  intros [] Hin. destruct (kpages_region _ _ _ _ ho_vm0 (pw_region _ _ ho_wf0 _ _ Hin))
    as (? & ? & ? & ?). split_and!; try done; lia.
Qed.

Lemma pageaddr_of a k p :
  a mod PAGE_SIZE = 0 → 0 ≤ a → a + PAGE_SIZE ≤ 2 ^ 32 → 0 ≤ k < PAGE_SIZE →
  pageaddr_and_blocktype p = a + k → PR_PAGEADDR p = a ∧ PR_BLOCKTYPE p = k.
Proof.
  intros Ha Hge Hle Hk Hp. unfold PR_PAGEADDR, PR_BLOCKTYPE. rewrite Hp.
  change (u32 (Z.lnot PAGE_FRAME)) with 0xfff. rewrite land_offset, land_frame by (hconst; lia).
  hconst. lia.
Qed.

Lemma mkpab_of a k :
  a mod PAGE_SIZE = 0 → 0 ≤ a < 2 ^ 32 → 0 ≤ k < PAGE_SIZE → MKPAB a k = a + k.
Proof.
  intros Ha Hge Hk. unfold MKPAB. change (u32 (Z.lnot PAGE_FRAME)) with 0xfff.
  rewrite land_offset, land_frame by lia. rewrite Ha, Z.sub_0_r, Z.mod_small by done.
  by apply lor_frame.
Qed.

Lemma heap_pageref s A R i pg :
  heap_ok s A R → (i, pg) ∈ A →
  ∃ p, lget (pagerefs s) i = Some p ∧ PR_PAGEADDR p = pg_addr pg ∧
    PR_BLOCKTYPE p = pg_type pg ∧ pageaddr_and_blocktype p = pg_addr pg + pg_type pg ∧
    freelist_offset p = default INVALID_OFFSET (head (pg_free pg)) ∧
    nfree p = Z.of_nat (length (pg_free pg)).
Proof.
  intros Hok Hin. destruct (page_addr_range _ _ _ _ _ Hok Hin) as (Ha & Hlo & Hhi).
  destruct (pinfo_inv _ _ _ (ho_info _ _ _ Hok _ _ Hin)) as (p & Hp & Heq).
  destruct (pw_page _ _ (ho_wf _ _ _ Hok) _ _ Hin) as [Ht _ _].
  simplify_eq. exists p. destruct (pageaddr_of (pg_addr pg) (pg_type pg) p);
    try done; unfold MIPS_KSEG0, MIPS_KSEG1 in *; hconst; try lia.
Qed.

(** ** Changing one page *)

Lemma fst_update A1 A2 i (pg pg' : page) :
  (A1 ++ (i, pg') :: A2).*1 = (A1 ++ (i, pg) :: A2).*1.
Proof. by rewrite !fmap_app. Qed.

Lemma sameclass_update k A1 A2 i pg pg' :
  pg_type pg' = pg_type pg →
  sameclass k (A1 ++ (i, pg') :: A2) = sameclass k (A1 ++ (i, pg) :: A2).
Proof.
  intros Ht. unfold sameclass. rewrite !filter_app, !filter_cons, !fmap_app. simpl.
  rewrite Ht. by case_decide.
Qed.

Lemma elem_update A1 A2 i (pg pg' : page) j q :
  NoDup (A1 ++ (i, pg) :: A2).*1 → (j, q) ∈ A1 ++ (i, pg') :: A2 →
  (j = i ∧ q = pg') ∨ (j ≠ i ∧ (j, q) ∈ A1 ++ (i, pg) :: A2).
Proof.
  rewrite fmap_app, fmap_cons. intros (Hn1 & Hd & (Hni & Hn2)%NoDup_cons)%NoDup_app.
  rewrite elem_of_app, elem_of_cons. intros [Hin|[Hin|Hin]].
  - right. split; [|apply elem_of_app; by left]. intros ->.
    apply (Hd i); [|by left]. apply list_elem_of_fmap. by exists (i, q).
  - left. by simplify_eq.
  - right. split; [|apply elem_of_app; right; by right]. intros ->.
    apply Hni. apply list_elem_of_fmap. by exists (i, q).
Qed.

(** Overwriting the accounting fields of one pageref and the free list of
    its page. *)
Lemma heap_ok_page s A1 A2 R i a k fl fl' p p' mem' :
  let pg := Page a k fl in
  let pg' := Page a k fl' in
  heap_ok s (A1 ++ (i, pg) :: A2) R →
  lget (pagerefs s) i = Some p →
  next_samesize p' = next_samesize p → next_all p' = next_all p →
  pageaddr_and_blocktype p' = pageaddr_and_blocktype p →
  freelist_offset p' = default INVALID_OFFSET (head fl') →
  nfree p' = Z.of_nat (length fl') →
  page_ok pg' → flist mem' a fl' →
  (∀ j q o, (j, q) ∈ A1 ++ (i, pg) :: A2 → j ≠ i → o ∈ pg_free q →
     mem' !! (pg_addr q + o) = kmem s !! (pg_addr q + o)) →
  heap_ok (set_kmem mem' (set_pagerefs (<[Z.to_nat i := p']> (pagerefs s)) s))
          (A1 ++ (i, pg') :: A2) R.
Proof.
  intros pg pg' [Hl Hb Hu Ha Hs Hi Hf [Hn Hr Had Hp Hrg] Hv] Hpi Hns Hna Hpab Hfo Hnf
    Hpk Hfl Hmem.
  set (s' := set_kmem _ _).
  assert (∀ g, rd s' g = rd s g) as Hrd.
  { intros [b|j| |j]; simpl; try done; rewrite (lget_insert _ _ _ _ _ Hpi);
      case_decide; subst; rewrite ?Hpi; simpl; congruence. }
  split.
  - unfold s'. simpl. by rewrite length_insert.
  - done.
  - by rewrite (fst_update A1 A2 i pg pg').
  - rewrite (fst_update A1 A2 i pg pg'). by eapply hangs_ext; [..|apply Ha].
  - intros k' Hk'. rewrite (sameclass_update k' A1 A2 i pg pg') by done.
    by eapply hangs_ext; [..|apply (Hs k' Hk')].
  - intros j q Hjq. unfold pinfo, s'. simpl. rewrite (lget_insert _ _ _ _ _ Hpi).
    apply (elem_update _ _ _ pg) in Hjq as [(-> & ->)|(Hne & Hjq)]; [| |done].
    + rewrite decide_True by done. simpl. specialize (Hi i pg).
      unfold pinfo in Hi. rewrite Hpi in Hi. simpl in Hi. rewrite Hpab, Hfo, Hnf.
      assert ((i, pg) ∈ A1 ++ (i, pg) :: A2) as Hin by (apply elem_of_app; right; by left).
      specialize (Hi Hin). congruence.
    + rewrite decide_False by done. by apply Hi.
  - intros j q Hjq.
    apply (elem_update _ _ _ pg) in Hjq as [(-> & ->)|(Hne & Hjq)]; [done| |done].
    eapply flist_ext; [|by apply (Hf j)]. intros o Ho. by eapply Hmem.
  - split.
    + by rewrite (fst_update A1 A2 i pg pg').
    + by rewrite (fst_update A1 A2 i pg pg').
    + revert Had. by rewrite !fmap_app.
    + intros j q Hjq.
      apply (elem_update _ _ _ pg) in Hjq as [(-> & ->)|(Hne & Hjq)]; [done| |done].
      by eapply Hp.
    + intros j q Hjq.
      apply (elem_update _ _ _ pg) in Hjq as [(-> & ->)|(Hne & Hjq)]; [| |done].
      * apply (Hrg i pg). apply elem_of_app; right; by left.
      * by eapply Hrg.
  - done.
Qed.

(** The processor is not part of the invariant. *)
Lemma heap_ok_cpu s A R c : heap_ok s A R → heap_ok (set_hcpu c s) A R.
Proof.
  intros []. split; try done.
  - by eapply hangs_ext; [..|done].
  - intros. by eapply hangs_ext; [..|apply ho_same0].
Qed.

Lemma hsplhigh_spec (Q : Z → world (kheap V) → Prop) s m :
  Q (curspl (hcpu s)) (World (set_hcpu (high (hcpu s)) s) m) →
  wp hsplhigh Q (World s m).
Proof. unfold hsplhigh. rewrite wp_zoom. intros HQ. by apply splhigh_spec. Qed.

Lemma hsplx_spec (Q : Z → world (kheap V) → Prop) c s m :
  cpu_ok c → hcpu s = high c → Q SPL_HIGH (World (set_hcpu c s) m) →
  wp (hsplx (curspl c)) Q (World s m).
Proof.
  unfold hsplx. rewrite wp_zoom. cbn [wst wmem]. intros Hc -> HQ. by apply splx_spec.
Qed.

(** ** Words of a page *)

Lemma page_word s A R i pg o :
  heap_ok s A R → (i, pg) ∈ A → grid (pg_type pg) o →
  kseg0_word (pg_addr pg + o) = true ∧ 0 ≤ o < PAGE_SIZE ∧
  u32 (pg_addr pg + o) = pg_addr pg + o ∧ 0 ≤ pg_addr pg + o < 2 ^ 32.
Proof.
  intros Hok Hin Hg. destruct (page_addr_range _ _ _ _ _ Hok Hin) as (Ha & Hlo & Hhi).
  destruct (pw_page _ _ (ho_wf _ _ _ Hok) _ _ Hin) as [Ht _ _].
  destruct (grid_range _ _ Ht Hg) as (Ho & Hoz & Hm). pose proof (blksz_pos (pg_type pg)).
  unfold MIPS_KSEG0, MIPS_KSEG1 in *. hconst. rewrite u32_id by lia.
  split_and!; try lia. unfold kseg0_word, MIPS_KSEG0, MIPS_KSEG1.
  repeat (apply andb_true_intro; split); lia.
Qed.

Lemma kload_spec (Q : Z → world (kheap V) → Prop) a v s m :
  kseg0_word a = true → kmem s !! a = Some v → Q v (World s m) →
  wp (kload a) Q (World s m).
Proof.
  intros Ha Hv HQ. unfold kload. rewrite Ha. kstep. by rewrite (wp_kof _ _ _ _ Hv).
Qed.

Lemma kstore_spec (Q : unit → world (kheap V) → Prop) a v s m :
  kseg0_word a = true → Q tt (World (set_kmem (<[a := v]> (kmem s)) s) m) →
  wp (kstore a v) Q (World s m).
Proof. intros Ha HQ. unfold kstore. rewrite Ha. by kstep. Qed.

Lemma getpr_spec (Q : pageref → world (kheap V) → Prop) i p s m :
  lget (pagerefs s) i = Some p → Q p (World s m) → wp (getpr i) Q (World s m).
Proof. intros Hp HQ. unfold getpr. kstep. by rewrite (wp_kof _ _ _ _ Hp). Qed.

Lemma setpr_spec (Q : unit → world (kheap V) → Prop) i p0 p s m :
  lget (pagerefs s) i = Some p0 →
  Q tt (World (set_pagerefs (<[Z.to_nat i := p]> (pagerefs s)) s) m) →
  wp (setpr i p) Q (World s m).
Proof.
  intros Hp HQ. unfold setpr. kstep.
  rewrite (wp_kof _ _ _ _ (lset_Some _ _ _ (lget_Some_range _ _ _ Hp))). by kstep.
Qed.

(** Reading back the pageref just written. *)
Lemma getpr_same (Q : pageref → world (kheap V) → Prop) i p0 p s m :
  lget (pagerefs s) i = Some p0 →
  Q p (World (set_pagerefs (<[Z.to_nat i := p]> (pagerefs s)) s) m) →
  wp (getpr i) Q (World (set_pagerefs (<[Z.to_nat i := p]> (pagerefs s)) s) m).
Proof.
  intros Hp HQ. apply (getpr_spec _ _ p); [|done]. simpl.
  apply lget_insert_eq. eauto with os.
Qed.

Lemma setpr_same (Q : unit → world (kheap V) → Prop) i p0 p p' s m :
  lget (pagerefs s) i = Some p0 →
  Q tt (World (set_pagerefs (<[Z.to_nat i := p']> (pagerefs s)) s) m) →
  wp (setpr i p') Q (World (set_pagerefs (<[Z.to_nat i := p]> (pagerefs s)) s) m).
Proof.
  intros Hp HQ. apply (setpr_spec _ _ p); simpl.
  - apply lget_insert_eq. eauto with os.
  - by rewrite list_insert_insert_eq.
Qed.

Lemma elem_mid {B} (l1 l2 : list B) x : x ∈ l1 ++ x :: l2.
Proof. apply elem_of_app. right. by left. Qed.

(** ** Taking the first block of a free list *)

Lemma doalloc_spec (Q : Z → world (kheap V) → Prop) A1 A2 R i a k o fl c s m :
  heap_ok s (A1 ++ (i, Page a k (o :: fl)) :: A2) R → cpu_ok c → hcpu s = high c →
  (∀ prs, let s' := set_hcpu c (set_pagerefs prs s) in
     heap_ok s' (A1 ++ (i, Page a k fl) :: A2) R → Q (a + o) (World s' m)) →
  wp (doalloc i (curspl c)) Q (World s m).
Proof.
  intros Hok Hc Hcpu HQ. pose proof (elem_mid A1 A2 (i, Page a k (o :: fl))) as Hin.
  destruct (heap_pageref _ _ _ _ _ Hok Hin) as (p & Hp & Hpa & Hpb & Hpab & Hpo & Hpn).
  pose proof (pw_page _ _ (ho_wf _ _ _ Hok) _ _ Hin) as Hpk.
  destruct Hpk as [Ht Hnd Hgr]. simpl in *.
  apply NoDup_cons in Hnd as (Hofl & Hnd). apply Forall_cons in Hgr as (Hgo & Hgr).
  destruct (page_word _ _ _ _ _ o Hok Hin Hgo) as (Hw & Hor & Hu & Har). simpl in *.
  destruct (ho_free _ _ _ Hok _ _ Hin) as (Hmo & Hmfl). simpl in *.
  assert (page_ok (Page a k fl)) as Hpk' by by split.
  pose proof (page_free_bound _ Hpk') as Hbound.
  pose proof (nblk_pos k Ht) as Hnb. simpl in Hbound.
  unfold doalloc. rewrite wp_bind. apply (getpr_spec _ _ p); [done|].
  rewrite wp_bind, wp_kassert by (rewrite Hpo; lia). rewrite Hpa, Hpo, Hu.
  rewrite wp_bind. eapply kload_spec; [done..|].
  rewrite wp_bind. eapply setpr_spec; [done|].
  rewrite wp_bind. eapply getpr_same; [done|]. cbn [nfree].
  replace (u16 (nfree p - 1)) with (Z.of_nat (length fl))
    by (rewrite Hpn; unfold u16; rewrite Z.mod_small; lia).
  rewrite wp_bind. destruct fl as [|o' fl].
  - cbn [Z.eqb negb]. rewrite wp_bind, wp_kassert by done.
    eapply setpr_same; [done|]. rewrite wp_bind. eapply hsplx_spec; [done|done|].
    rewrite wp_ret. apply HQ, heap_ok_cpu.
    apply (heap_ok_page _ _ _ _ _ _ _ _ _ _ _ (kmem s) Hok Hp); done.
  - apply Forall_cons in Hgr as (Hgo' & Hgr).
    destruct (page_word _ _ _ _ _ o' Hok Hin Hgo') as (Hw' & Hor' & Hu' & Har').
    cbn [pg_addr pg_type] in *.
    destruct (page_addr_range _ _ _ _ _ Hok Hin) as (_ & Hlo & _). simpl in Hlo.
    rewrite (proj2 (Z.eqb_neq (a + o') 0)) by (unfold MIPS_KSEG0 in *; lia).
    cbn [negb]. rewrite wp_bind, wp_kassert by (apply Z.ltb_lt; rewrite length_cons; lia).
    replace (a + o' - a) with o' by lia.
    rewrite wp_bind, wp_kassert by (rewrite u32_id; hconst; lia).
    eapply setpr_same; [done|]. rewrite wp_bind. eapply hsplx_spec; [done|done|].
    rewrite wp_ret. apply HQ, heap_ok_cpu.
    apply (heap_ok_page _ _ _ _ _ _ _ _ _ _ _ (kmem s) Hok Hp); try done.
    simpl. unfold u16. hconst. rewrite Z.mod_small; lia.
Qed.

(** ** Looking for a page with a free block *)

Lemma search_spec (Q : option Z + Z → world (kheap V) → Prop) k A R l g fuel s m :
  heap_ok s A R → hangs s AtNextSame g l →
  (∀ i, i ∈ l → ∃ pg, (i, pg) ∈ A ∧ pg_type pg = k) →
  (length l < fuel)%nat →
  (∀ i pg, (i, pg) ∈ A → pg_type pg = k → pg_free pg ≠ [] →
     Q (inr i) (World s m)) →
  ((∀ i, i ∈ l → ∃ pg, (i, pg) ∈ A ∧ pg_free pg = []) → Q (inl None) (World s m)) →
  wp (kloop fuel (λ pr, bool_decide (pr ≠ None)) (λ pr,
        i ← kof pr;
        p ← getpr i;
        kassert (PR_BLOCKTYPE p =? k);;
        if 0 <? nfree p then mret (inr i) else mret (inl (next_samesize p))) (head l))
     Q (World s m).
Proof.
  intros Hok. revert g fuel. induction l as [|i l IH]; intros g fuel Hh Hl Hf Hyes Hno.
  { rewrite wp_kloop_done by done. apply Hno. intros i Hi. by apply elem_of_nil in Hi. }
  destruct fuel as [|fuel]; [simpl in Hf; lia|]. destruct Hh as (Hg & Hh).
  destruct (Hl i ltac:(by left)) as (pg & Hpg & Ht).
  destruct (heap_pageref _ _ _ _ _ Hok Hpg) as (p & Hp & Hpa & Hpb & Hpab & Hpo & Hpn).
  rewrite wp_kloop_step by done. cbn [head]. kstep.
  apply (getpr_spec _ _ p); [done|]. rewrite wp_bind, wp_kassert by (rewrite Hpb; lia).
  rewrite Hpn. destruct (pg_free pg) as [|o fl] eqn:Hfl.
  - change (0 <? Z.of_nat (length [])) with false. cbn iota. rewrite wp_ret.
    pose proof (hangs_head _ _ _ _ Hh) as Hn. simpl in Hn. rewrite Hp in Hn.
    injection Hn as ->. apply (IH (AtNextSame i)); [done| |simpl in Hf; lia|done|].
    + intros j Hj. apply Hl. by right.
    + intros Hall. apply Hno. intros j [->|Hj]%elem_of_cons; [eauto|by apply Hall].
  - rewrite (proj2 (Z.ltb_lt 0 _)) by (rewrite length_cons; lia). rewrite wp_ret.
    apply (Hyes i pg); [done|done|]. by rewrite Hfl.
Qed.

Lemma sameclass_elem k A i :
  i ∈ sameclass k A → ∃ pg, (i, pg) ∈ A ∧ pg_type pg = k.
Proof.
  unfold sameclass. intros ([j pg] & -> & (Ht & Hin)%list_elem_of_filter)%list_elem_of_fmap.
  by exists pg.
Qed.

(** ** A fresh page *)

(** The offsets of [n] blocks of size [z], highest first. *)
Fixpoint offs (z : Z) (n : nat) : list Z :=
  match n with
  | O => []
  | S n' => Z.of_nat n' * z :: offs z n'
  end.

Lemma offs_elem z n o : o ∈ offs z n ↔ ∃ q, 0 ≤ q < Z.of_nat n ∧ o = q * z.
Proof.
  induction n as [|n IH]; cbn [offs].
  - rewrite elem_of_nil. split; [done|]. intros (q & ? & _). lia.
  - rewrite elem_of_cons, IH. split.
    + intros [->|(q & ? & ->)]; [exists (Z.of_nat n)|exists q]; split; lia.
    + intros (q & Hq & ->). destruct (decide (q = Z.of_nat n)) as [->|]; [by left|].
      right. exists q. split; [lia|done].
Qed.

Lemma offs_length z n : length (offs z n) = n.
Proof. induction n; simpl; congruence. Qed.

Lemma offs_nodup z n : 0 < z → NoDup (offs z n).
Proof.
  intros Hz. induction n as [|n IH]; cbn [offs]; [constructor|].
  apply NoDup_cons. split; [|done]. intros (q & ? & ?)%offs_elem. nia.
Qed.

Lemma offs_flist mem a z n :
  flist mem a (offs z (S n)) →
  flist (<[a + Z.of_nat (S n) * z := a + Z.of_nat n * z]> mem) a (offs z (S (S n))) ∨ z ≤ 0.
Proof.
  intros Hf. destruct (decide (z ≤ 0)); [by right|left].
  change (offs z (S (S n))) with (Z.of_nat (S n) * z :: offs z (S n)).
  split; [by rewrite lookup_insert_eq|].
  eapply flist_ext; [|done]. intros o (q & ? & ->)%offs_elem.
  apply lookup_insert_ne. nia.
Qed.

Lemma full_page_ok a k :
  0 ≤ k < NSIZES → page_ok (Page a k (offs (blksz k) (Z.to_nat (nblk k)))).
Proof.
  intros Hk. pose proof (blksz_pos k). split; simpl; [done|by apply offs_nodup; lia|].
  apply Forall_forall. intros o (q & Hq & ->)%offs_elem. exists q. split; [lia|done].
Qed.

Lemma init_freelist_spec (Q : Z → world (kheap V) → Prop) a k s m :
  0 ≤ k < NSIZES → page_region a 1 →
  (∀ mem', flist mem' a (offs (blksz k) (Z.to_nat (nblk k))) →
     (∀ x, ¬ (a ≤ x < a + PAGE_SIZE) → mem' !! x = kmem s !! x) →
     Q (a + (nblk k - 1) * blksz k) (World (set_kmem mem' s) m)) →
  wp (init_freelist a (blksz k) (nblk k)) Q (World s m).
Proof.
  intros Hk (Ham & _ & Hlo & Hhi) HQ. set (z := blksz k). set (n := nblk k).
  assert (16 ≤ z) by (apply blksz_pos; lia).
  assert (2 ≤ n ≤ 256) by by apply nblk_pos.
  assert (n * z = PAGE_SIZE) by by apply nblk_blksz.
  assert (∀ q, (q * z) mod 4 = 0) as Hm4 by (intros; apply blksz_mod4; lia).
  unfold MIPS_KSEG0, MIPS_KSEG1 in *. hconst.
  assert (∀ q, 0 ≤ q < n → u32 (a + q * z) = a + q * z ∧ kseg0_word (a + q * z) = true) as Hw.
  { intros q Hq. assert (0 ≤ q * z < 4096) by nia. specialize (Hm4 q).
    rewrite u32_id by lia. split; [done|].
    unfold kseg0_word, MIPS_KSEG0, MIPS_KSEG1. repeat (apply andb_true_intro; split); lia. }
  unfold init_freelist. rewrite wp_bind. apply kstore_spec.
  { destruct (Hw 0 ltac:(lia)) as (_ & Hw0). by rewrite Z.mul_0_l, Z.add_0_r in Hw0. }
  apply (wp_kfold (λ i fl w, ∃ mem', w = World (set_kmem mem' s) m ∧
     fl = a + (i - 1) * z ∧ flist mem' a (offs z (Z.to_nat i)) ∧
     ∀ x, ¬ (a ≤ x < a + 4096) → mem' !! x = kmem s !! x)).
  - exists (<[a := 0]> (kmem s)). split_and!; [done|lia| |].
    + split; [|done]. cbn. by rewrite Z.add_0_r, lookup_insert_eq.
    + intros x Hx. apply lookup_insert_ne. lia.
  - intros i fl w Hi (mem' & -> & -> & Hfl & Hout).
    destruct (Hw i ltac:(lia)) as (Hu & Hk0). rewrite Hu.
    destruct (Hw (i - 1) ltac:(lia)) as (Hu' & _). rewrite Hu'.
    rewrite wp_bind. apply kstore_spec; [done|].
    rewrite wp_bind, wp_kassert; [|apply negb_true_iff, Z.eqb_neq; nia].
    rewrite wp_ret. eexists. split_and!; [done|lia| |].
    + cbn [kmem set_kmem]. replace (Z.to_nat (i + 1)) with (S (S (Z.to_nat (i - 1)))) by lia.
      replace (Z.to_nat i) with (S (Z.to_nat (i - 1))) in Hfl by lia.
      destruct (offs_flist _ _ _ _ Hfl) as [Hr|]; [|lia].
      replace (Z.of_nat (S (Z.to_nat (i - 1)))) with i in Hr by lia.
      by replace (Z.of_nat (Z.to_nat (i - 1))) with (i - 1) in Hr by lia.
    + intros x Hx. cbn [kmem set_kmem]. rewrite lookup_insert_ne; [by apply Hout|].
      assert (0 ≤ i * z < 4096) by nia. lia.
  - intros fl w (mem' & -> & -> & Hfl & Hout).
    replace (1 + Z.of_nat (Z.to_nat (n - 1))) with n in * by lia. by apply HQ.
Qed.

(** ** Linking a page into the lists *)

Lemma sameclass_cons k A i pg :
  sameclass k ((i, pg) :: A) =
  if decide (pg_type pg = k) then i :: sameclass k A else sameclass k A.
Proof. unfold sameclass. rewrite filter_cons. simpl. by case_decide. Qed.

Lemma sameclass_fst k A i : i ∈ sameclass k A → i ∈ A.*1.
Proof.
  intros (pg & Hin & _)%sameclass_elem. apply list_elem_of_fmap. by exists (i, pg).
Qed.

Lemma heap_ok_push s A R i a k fl ws mem' v' pf p0 c :
  heap_ok s A R → page_ok (Page a k fl) → lget (pagerefs s) i = Some p0 →
  i ∉ A.*1 → 0 ≤ i < NPAGEREFS → inuse_ok ws (i :: A.*1) →
  R !! a = None → kpages_ok v' (<[a := 1]> R) →
  lget (sizebases s) k = Some (next_samesize pf) → next_all pf = allbase s →
  pageaddr_and_blocktype pf = a + k →
  freelist_offset pf = default INVALID_OFFSET (head fl) →
  nfree pf = Z.of_nat (length fl) → flist mem' a fl →
  (∀ x, ¬ (a ≤ x < a + PAGE_SIZE) → mem' !! x = kmem s !! x) →
  heap_ok (KHeap (<[Z.to_nat i := pf]> (pagerefs s)) ws
             (<[Z.to_nat k := Some i]> (sizebases s)) (Some i) mem' c v')
          ((i, Page a k fl) :: A) (<[a := 1]> R).
Proof.
  intros [Hl Hb Hu Ha Hs Hi Hf [Hn Hr Had Hp Hrg] Hv] Hpk Hp0 Hni Hir Hws HRa Hv' Hsb Hna
    Hpab Hfo Hnf Hfl Hmem.
  set (s' := KHeap _ _ _ _ _ _ _). destruct (Hpk) as [Ht _ _]. simpl in Ht.
  assert (∀ j, j ∈ A.*1 → lget (pagerefs s') j = lget (pagerefs s) j) as Hold.
  { intros j Hj. simpl. rewrite (lget_insert _ _ _ _ _ Hp0).
    by rewrite decide_False by congruence. }
  assert (lget (pagerefs s') i = Some pf) as Hnew.
  { simpl. rewrite (lget_insert _ _ _ _ _ Hp0). by rewrite decide_True. }
  assert (∀ j pg, (j, pg) ∈ A → j ∈ A.*1) as Hfst.
  { intros j pg Hj. apply list_elem_of_fmap. by exists (j, pg). }
  assert (∀ j pg, (j, pg) ∈ A → pg_addr pg ≠ a) as Hne.
  { intros j pg Hj He. apply Hrg in Hj. congruence. }
  split; try done.
  - simpl. by rewrite length_insert.
  - simpl. by rewrite length_insert.
  - rewrite fmap_cons. cbn [fst]. split; [done|]. eapply hangs_move; [| |apply Ha].
    + unfold rd. rewrite Hnew. simpl. by rewrite Hna.
    + intros j Hj. unfold rd. by rewrite Hold.
  - intros k' Hk'. rewrite sameclass_cons. simpl. case_decide as Hkk; subst.
    + split; [simpl; rewrite (lget_insert _ _ _ _ _ Hsb); by rewrite decide_True|].
      eapply hangs_move; [| |apply (Hs k' Hk')].
      * unfold rd. rewrite Hnew. by rewrite Hsb.
      * intros j Hj%sameclass_fst. unfold rd. by rewrite Hold.
    + eapply hangs_move; [| |apply (Hs k' Hk')].
      * simpl. rewrite (lget_insert _ _ _ _ _ Hsb). by rewrite decide_False.
      * intros j Hj%sameclass_fst. unfold rd. by rewrite Hold.
  - intros j pg [Hj|Hj]%elem_of_cons; unfold pinfo; simplify_eq.
    + rewrite Hnew. simpl. by rewrite Hpab, Hfo, Hnf.
    + rewrite Hold by eauto. by apply Hi.
  - intros j pg [Hj|Hj]%elem_of_cons; simplify_eq; [done|].
    eapply flist_ext; [|by eapply Hf]. intros o Ho. apply Hmem.
    destruct (Hp _ _ Hj) as [Htj _ Hgj]. rewrite Forall_forall in Hgj.
    destruct (grid_range _ _ Htj (Hgj o Ho)) as (? & ? & _).
    pose proof (blksz_pos (pg_type pg)). specialize (Hne _ _ Hj).
    destruct (kpages_apart v' (<[a:=1]> R) a 1 (pg_addr pg) 1); try done; [..|lia|lia].
    + by rewrite lookup_insert_eq.
    + rewrite lookup_insert_ne by done. by eapply Hrg.
  - split.
    + by apply NoDup_cons.
    + by constructor.
    + simpl. apply NoDup_cons. split; [|done].
      intros (pg & He & (x & -> & Hx)%list_elem_of_fmap)%list_elem_of_fmap.
      destruct x as [j pg]. simpl in He. by eapply Hne.
    + intros j pg [Hj|Hj]%elem_of_cons; simplify_eq; eauto.
    + intros j pg [Hj|Hj]%elem_of_cons; simplify_eq; simpl.
      * by rewrite lookup_insert_eq.
      * rewrite lookup_insert_ne; [by eapply Hrg|]. intros He. by eapply Hne.
Qed.

(** ** Unlinking a page *)

Lemma wr_frame s g v v0 :
  rd s g = Some v0 →
  (∀ i, pinfo (wr s g v) i = pinfo s i) ∧
  length (pagerefs (wr s g v)) = length (pagerefs s) ∧
  length (sizebases (wr s g v)) = length (sizebases s) ∧
  pagerefs_inuse (wr s g v) = pagerefs_inuse s ∧ kmem (wr s g v) = kmem s ∧
  hcpu (wr s g v) = hcpu s ∧ hvm (wr s g v) = hvm s.
Proof.
  intros Hr. unfold pinfo. destruct g as [b|i| |i]; simpl in *; split_and!; try done;
    try (by rewrite length_insert);
    apply fmap_Some in Hr as (p & Hp & _); erewrite alter_lget by done;
    try (by rewrite length_insert);
    intros j; rewrite (lget_insert _ _ _ _ _ Hp); case_decide; subst; by rewrite ?Hp.
Qed.

Lemma sameclass_mid k A1 A2 i pg :
  pg_type pg = k →
  sameclass k (A1 ++ (i, pg) :: A2) = sameclass k A1 ++ i :: sameclass k A2.
Proof.
  intros Ht. unfold sameclass. rewrite filter_app, filter_cons, fmap_app. simpl.
  by rewrite decide_True.
Qed.

Lemma sameclass_other k A1 A2 i pg :
  pg_type pg ≠ k →
  sameclass k (A1 ++ (i, pg) :: A2) = sameclass k (A1 ++ A2).
Proof.
  intros Ht. unfold sameclass. rewrite !filter_app, filter_cons. simpl.
  by rewrite decide_False.
Qed.

Lemma sameclass_app k A1 A2 : sameclass k (A1 ++ A2) = sameclass k A1 ++ sameclass k A2.
Proof. unfold sameclass. by rewrite filter_app, fmap_app. Qed.

Lemma sameclass_nodup k A : NoDup A.*1 → NoDup (sameclass k A).
Proof.
  induction A as [|[i pg] A IH]; [done|].
  rewrite fmap_cons, NoDup_cons, sameclass_cons. intros (Hi & Hn).
  case_decide; [|by apply IH]. apply NoDup_cons. split; [|by apply IH].
  by intros ?%sameclass_fst.
Qed.

(** An index belongs to one page only. *)
Lemma page_unique A R i pg pg' :
  pages_wf A R → (i, pg) ∈ A → (i, pg') ∈ A → pg = pg'.
Proof.
  intros [Hn _ _ _ _] (x & Hx)%list_elem_of_lookup (y & Hy)%list_elem_of_lookup.
  assert (x = y) as ->.
  { eapply (NoDup_lookup A.*1 _ _ i); [done|..]; rewrite list_lookup_fmap;
      [by rewrite Hx|by rewrite Hy]. }
  by simplify_eq.
Qed.

Lemma elem_drop {B} (A1 A2 : list B) x y : y ∈ A1 ++ A2 → y ∈ A1 ++ x :: A2.
Proof. rewrite !elem_of_app, elem_of_cons. tauto. Qed.

Lemma pages_wf_drop A1 A2 R i pg :
  pages_wf (A1 ++ (i, pg) :: A2) R →
  (i ∉ (A1 ++ A2).*1) ∧ (pg_addr pg ∉ (pg_addr <$> (A1 ++ A2).*2)) ∧
  pages_wf (A1 ++ A2) (delete (pg_addr pg) R).
Proof.
  intros [Hn Hr Had Hp Hrg].
  assert (A1 ++ (i, pg) :: A2 ≡ₚ (i, pg) :: A1 ++ A2) as HP
    by (symmetry; apply Permutation_middle).
  rewrite HP in Hn, Hr, Had. simpl in *.
  apply NoDup_cons in Hn as (Hi & Hn). apply NoDup_cons in Had as (Ha & Had).
  apply Forall_cons in Hr as (_ & Hr). split_and!; [done|done|]. split; try done.
  - intros j q Hj. eapply Hp. by apply elem_drop.
  - intros j q Hj. rewrite lookup_delete_ne; [eapply Hrg; by apply elem_drop|].
    intros He. apply Ha. rewrite He. apply list_elem_of_fmap. exists q. split; [done|].
    apply list_elem_of_fmap. by exists (j, q).
Qed.

Lemma remove_lists_spec (Q : unit → world (kheap V) → Prop) A1 A2 R i pg s m :
  heap_ok s (A1 ++ (i, pg) :: A2) R →
  (∀ s', kmem s' = kmem s → hcpu s' = hcpu s → hvm s' = hvm s →
     pagerefs_inuse s' = pagerefs_inuse s →
     (∀ ws c v', inuse_ok ws (A1 ++ A2).*1 → kpages_ok v' (delete (pg_addr pg) R) →
        heap_ok (set_inuse ws (set_hvm (c, v') s')) (A1 ++ A2) (delete (pg_addr pg) R)) →
     Q tt (World s' m)) →
  wp (remove_lists i (pg_type pg)) Q (World s m).
Proof.
  intros Hok HQ. set (k := pg_type pg).
  pose proof (elem_mid A1 A2 (i, pg)) as Hin.
  destruct (heap_pageref _ _ _ _ _ Hok Hin) as (p & Hp & _).
  pose proof (pages_length _ _ (ho_wf _ _ _ Hok)) as Hlen.
  destruct Hok as [Hl Hb Hu Ha Hs Hi Hf Hwf Hv].
  destruct (pages_wf_drop _ _ _ _ _ Hwf) as (Hni & _ & Hwf').
  destruct (pw_page _ _ Hwf _ _ Hin) as [Ht _ _]. fold k in Ht.
  pose proof (sameclass_nodup k _ (pw_index _ _ Hwf)) as Hnk.
  pose proof (Hs k Ht) as Hk. rewrite (sameclass_mid k) in Hk, Hnk by done.
  assert (i ∉ sameclass k A1) as Hik.
  { apply NoDup_app in Hnk as (_ & Hd & _). intros Hx. apply (Hd _ Hx). by left. }
  unfold remove_lists. rewrite wp_bind, wp_kassert by (hconst; lia).
  rewrite wp_bind. eapply remove_loop_spec; [exact Hk|done| |exact Hp|].
  { etrans; [|exact Hlen]. etrans; [apply sameclass_length|]. rewrite length_app. lia. }
  set (g1 := holder AtNextSame (AtSizebase k) (sameclass k A1)).
  assert (rd s g1 = Some (Some i)) as Hg1 by exact (holder_rd _ _ _ _ _ Hk).
  destruct (wr_frame s g1 (next_samesize p) _ Hg1) as (Hpi1 & Hl1 & Hb1 & Hu1 & Hm1 & Hc1 & Hv1).
  set (s1 := wr s g1 (next_samesize p)) in *.
  assert (∀ j, AtNextAll j ≠ g1 ∧ AtAllbase ≠ g1) as Hne1.
  { intros j. unfold g1, holder. by destruct (last _). }
  assert (hangs s1 AtNextAll AtAllbase (A1 ++ (i, pg) :: A2).*1) as Ha1.
  { eapply hangs_wr_ne; [exact Hg1| | |exact Ha]; [|intros j _];
      intros He; [by destruct (Hne1 0)|by destruct (Hne1 j)]. }
  rewrite fmap_app, fmap_cons in Ha1. simpl in Ha1.
  assert (∃ p1, lget (pagerefs s1) i = Some p1 ∧ next_all p1 = next_all p) as (p1 & Hp1 & Hn1).
  { destruct (hangs_rd _ _ _ _ i Ha1) as (x & Hx); [by apply elem_mid|].
    assert (rd s1 (AtNextAll i) = rd s (AtNextAll i)) as He
      by (eapply rd_wr_ne; [exact Hg1|]; intros He; by destruct (Hne1 i)).
    simpl in He. rewrite Hp in He. simpl in He.
    apply fmap_Some in He as (p1 & ? & ?). by exists p1. }
  eapply remove_loop_spec; [exact Ha1| | |exact Hp1|].
  { intros Hx. apply Hni. rewrite fmap_app. apply elem_of_app. by left. }
  { etrans; [|exact Hlen]. rewrite length_fmap, length_app. lia. }
  set (g2 := holder AtNextAll AtAllbase A1.*1).
  assert (rd s1 g2 = Some (Some i)) as Hg2 by exact (holder_rd _ _ _ _ _ Ha1).
  destruct (wr_frame s1 g2 (next_all p1) _ Hg2) as (Hpi2 & Hl2 & Hb2 & Hu2 & Hm2 & Hc2 & Hv2).
  set (s2 := wr s1 g2 (next_all p1)) in *.
  assert (∀ j k', AtNextSame j ≠ g2 ∧ AtSizebase k' ≠ g2) as Hne2.
  { intros j k'. unfold g2, holder. by destruct (last _). }
  apply HQ; [congruence..|]. intros ws c v' Hws Hv'. split; try done; simpl.
  - congruence.
  - congruence.
  - rewrite fmap_app. apply (hangs_ext s2); [done|done|].
    apply (hangs_remove _ _ _ _ i); [naive_solver|done| |done|by simpl; rewrite Hp1].
    pose proof (pw_index _ _ Hwf) as Hnd. by rewrite fmap_app in Hnd.
  - intros k' Hk'. apply (hangs_ext s2); [done|done|].
    eapply hangs_wr_ne; [exact Hg2| | |].
    { intros He. by destruct (Hne2 0 k'). }
    { intros j _ He. by destruct (Hne2 j 0). }
    destruct (decide (k' = k)) as [->|Hkk].
    + rewrite sameclass_app. apply (hangs_remove _ _ _ _ i); [naive_solver|done..|].
      simpl. by rewrite Hp.
    + specialize (Hs k' Hk'). rewrite (sameclass_other k') in Hs by (intros He; apply Hkk; symmetry; exact He).
      eapply hangs_wr_ne; [exact Hg1| | |exact Hs].
      * unfold g1, holder. destruct (last _); congruence.
      * intros j Hj He.
        destruct (holder_cases AtNextSame (AtSizebase k) (sameclass k A1))
          as [Hc|(x & Hx & Hc)]; fold g1 in Hc; rewrite Hc in He; [done|].
        injection He as ->. apply sameclass_elem in Hx as (q & Hq & Hqt).
        apply sameclass_elem in Hj as (q' & Hq' & Hqt').
        assert (q = q'); [|congruence]. eapply (page_unique _ _ j); [exact Hwf'| |exact Hq'].
        apply elem_of_app. by left.
  - intros j q Hj. etrans; [apply Hpi2|]. etrans; [apply Hpi1|]. apply Hi.
    by apply elem_drop.
  - intros j q Hj. rewrite Hm2, Hm1. eapply Hf. by apply elem_drop.
Qed.

(** ** Scribbling over a block *)

Lemma set_kmem_id s : set_kmem (kmem s) s = s.
Proof. by destruct s. Qed.

Lemma fill_deadbeef_spec (Q : unit → world (kheap V) → Prop) b k s m :
  0 ≤ k < NSIZES → b mod 4 = 0 → MIPS_KSEG0 ≤ b → b + blksz k ≤ MIPS_KSEG1 →
  (∀ mem', (∀ x, ¬ (b ≤ x < b + blksz k) → mem' !! x = kmem s !! x) →
     Q tt (World (set_kmem mem' s) m)) →
  wp (fill_deadbeef b (blksz k)) Q (World s m).
Proof.
  intros Hk Hb Hlo Hhi HQ. unfold fill_deadbeef.
  assert (blksz k = 4 * (blksz k / 4)) as Hz.
  { pose proof (blksz_mod4 k 1 ltac:(lia)). lia. }
  pose proof (blksz_pos k ltac:(lia)). unfold MIPS_KSEG0, MIPS_KSEG1 in *.
  apply (wp_kfold (λ i _ w, ∃ mem', w = World (set_kmem mem' s) m ∧
     ∀ x, ¬ (b ≤ x < b + blksz k) → mem' !! x = kmem s !! x)).
  - exists (kmem s). split; [by rewrite set_kmem_id|done].
  - intros i _ w Hi (mem' & -> & Hout). rewrite u32_id by lia.
    apply kstore_spec.
    { unfold kseg0_word, MIPS_KSEG0, MIPS_KSEG1. repeat (apply andb_true_intro; split); lia. }
    eexists. split; [done|]. intros x Hx. cbn [kmem set_kmem].
    rewrite lookup_insert_ne by lia. by apply Hout.
  - intros [] w (mem' & -> & Hout). by apply HQ.
Qed.
End heap.
