(* ===== verification/KHeapSpec.v ===== *)
(** * kmalloc and kfree implement an allocator

    The client's view of the kernel heap is a map from the base of every live
    block to its size.  [heap_rep s H] relates it to the static variables and
    the memory of kern/lib/kheap.c; [kmalloc] adds a block apart from all
    others, [kfree] removes one, and neither touches the contents of a block
    that stays live. *)

From S2P Require Import Prelude Bits Spl Ram KHeap KHeapInv KHeapOk.

#[local] Ltac Zify.zify_post_hook ::= Z.div_mod_to_equations.

(** Block [b] of [z] bytes belongs to the client: an allocated block of a
    subpage page, or a run of whole pages. *)
Definition live (A : list (Z * page)) (R : gmap Z Z) (b z : Z) : Prop :=
  (∃ i pg o, (i, pg) ∈ A ∧ grid (pg_type pg) o ∧ (o ∉ pg_free pg) ∧
     b = pg_addr pg + o ∧ z = blksz (pg_type pg)) ∨
  (∃ n, R !! b = Some n ∧ z = n * PAGE_SIZE ∧ (b ∉ (pg_addr <$> A.*2))).

(** A page without live blocks is given back. *)
Definition notfull (A : list (Z * page)) : Prop :=
  ∀ i pg, (i, pg) ∈ A → Z.of_nat (length (pg_free pg)) < nblk (pg_type pg).

(** Compute the fields of an updated heap. *)
Tactic Notation "hcbn" :=
  cbn [set_pagerefs set_inuse set_sizebases set_allbase set_kmem set_hcpu set_hvm fst snd
       pagerefs pagerefs_inuse sizebases allbase kmem hcpu hvm wr
       next_samesize next_all pageaddr_and_blocktype freelist_offset nfree].

Tactic Notation "hcbn" "in" hyp(H) :=
  cbn [set_pagerefs set_inuse set_sizebases set_allbase set_kmem set_hcpu set_hvm fst snd
       pagerefs pagerefs_inuse sizebases allbase kmem hcpu hvm wr
       next_samesize next_all pageaddr_and_blocktype freelist_offset nfree] in H.

Section spec.
Context {V : Type} `{Hops : PageOps V} `{Hlaws : !KPages V}.
Implicit Types s : kheap V.
Implicit Types A : list (Z * page).
Implicit Types H : gmap Z Z.

Definition heap_rep s H : Prop :=
  ∃ A R, heap_ok s A R ∧ notfull A ∧ cpu_ok (hcpu s) ∧
    ∀ b z, H !! b = Some z ↔ live A R b z.

(** What an operation leaves alone: the interrupt level and every word of the
    blocks of [H]. *)
Definition kept H s s' : Prop :=
  hcpu s' = hcpu s ∧
  ∀ b z x, H !! b = Some z → b ≤ x < b + z → kmem s' !! x = kmem s !! x.

(** ** Live blocks *)

Lemma addr_elem A i pg : (i, pg) ∈ A → pg_addr pg ∈ (pg_addr <$> A.*2).
Proof.
  intros Hin. apply list_elem_of_fmap. exists pg. split; [done|].
  apply list_elem_of_fmap. by exists (i, pg).
Qed.

Lemma addr_inj A R i pg j q :
  pages_wf A R → (i, pg) ∈ A → (j, q) ∈ A → pg_addr pg = pg_addr q → i = j ∧ pg = q.
Proof.
  intros Hwf (x & Hx)%list_elem_of_lookup (y & Hy)%list_elem_of_lookup He.
  assert (x = y) as ->; [|by simplify_eq].
  eapply (NoDup_lookup (pg_addr <$> A.*2) _ _ (pg_addr pg)); [apply Hwf|..];
    rewrite !list_lookup_fmap; [by rewrite Hx|rewrite Hy; simpl; by rewrite He].
Qed.

(** Where a live block lies: inside one region of [R]. *)
Lemma live_region s A R b z :
  heap_ok s A R → live A R b z →
  ∃ a n, R !! a = Some n ∧ a ≤ b ∧ b + z ≤ a + n * PAGE_SIZE ∧ 16 ≤ z ∧ b mod 16 = 0.
Proof.
  intros Hok Hl. pose proof Hok as [_ _ _ _ _ _ _ Hwf Hv].
  destruct Hl as [(i & pg & o & Hin & Hg & _ & -> & ->)|(n & Hb & -> & _)].
  - pose proof (pw_region _ _ Hwf _ _ Hin) as HR.
    destruct (pw_page _ _ Hwf _ _ Hin) as [Ht _ _].
    destruct (grid_range _ _ Ht Hg) as (? & ? & _).
    destruct (kpages_region _ _ _ _ Hv HR) as (Ham & _).
    pose proof (blksz_pos (pg_type pg)). exists (pg_addr pg), 1.
    split_and!; try done; try lia. destruct Hg as (q & _ & ->).
    unfold blksz in *. rewrite Z.pow_add_r by lia. hconst.
    replace (q * (2 ^ pg_type pg * 2 ^ 4)) with (q * 2 ^ pg_type pg * 16) by lia. lia.
  - destruct (kpages_region _ _ _ _ Hv Hb) as (Ham & ? & _).
    exists b, n. hconst. split_and!; try done; lia.
Qed.

Lemma live_apart s A R b z b' z' :
  heap_ok s A R → live A R b z → live A R b' z' → b ≠ b' → apart b z b' z'.
Proof.
  intros Hok Hl Hl' Hne. pose proof Hok as [_ _ _ _ _ _ _ Hwf Hv]. unfold apart.
  destruct Hl as [(i & pg & o & Hin & Hg & _ & -> & ->)|(n & Hb & -> & Hnb)];
  destruct Hl' as [(j & q & o' & Hin' & Hg' & _ & -> & ->)|(n' & Hb' & -> & Hnb')];
  try (destruct (pw_page _ _ Hwf _ _ Hin) as [Ht _ _];
       pose proof (grid_range _ _ Ht Hg) as (? & ? & _);
       pose proof (pw_region _ _ Hwf _ _ Hin) as HR);
  try (destruct (pw_page _ _ Hwf _ _ Hin') as [Ht' _ _];
       pose proof (grid_range _ _ Ht' Hg') as (? & ? & _);
       pose proof (pw_region _ _ Hwf _ _ Hin') as HR').
  - destruct (decide (pg_addr pg = pg_addr q)) as [He|He].
    + destruct (addr_inj _ _ _ _ _ _ Hwf Hin Hin' He) as (-> & ->).
      destruct (grid_apart _ o o' Ht Hg Hg'); [naive_solver|lia|lia].
    + destruct (kpages_apart _ _ _ _ _ _ Hv HR HR' He); lia.
  - destruct (kpages_apart _ _ _ _ _ _ Hv HR Hb'); [|lia|lia].
    intros <-. apply Hnb'. by eapply addr_elem.
  - destruct (kpages_apart _ _ _ _ _ _ Hv Hb HR'); [|lia|lia].
    intros ->. apply Hnb. by eapply addr_elem.
  - destruct (kpages_apart _ _ _ _ _ _ Hv Hb Hb'); [done|lia|lia].
Qed.

Lemma live_fun s A R b z z' :
  heap_ok s A R → live A R b z → live A R b z' → z = z'.
Proof.
  intros Hok Hl Hl'. pose proof Hok as [_ _ _ _ _ _ _ Hwf Hv].
  destruct Hl as [(i & pg & o & Hin & Hg & _ & -> & ->)|(n & Hb & -> & Hnb)];
  destruct Hl' as [(j & q & o' & Hin' & Hg' & _ & He' & ->)|(n' & Hb' & -> & Hnb')];
  try (destruct (pw_page _ _ Hwf _ _ Hin) as [Ht _ _];
       pose proof (grid_range _ _ Ht Hg) as (? & ? & _);
       pose proof (pw_region _ _ Hwf _ _ Hin) as HR; pose proof (blksz_pos (pg_type pg)));
  try (destruct (pw_page _ _ Hwf _ _ Hin') as [Ht' _ _];
       pose proof (grid_range _ _ Ht' Hg') as (? & ? & _);
       pose proof (pw_region _ _ Hwf _ _ Hin') as HR'; pose proof (blksz_pos (pg_type q))).
  - destruct (decide (pg_addr pg = pg_addr q)) as [He|He].
    + by destruct (addr_inj _ _ _ _ _ _ Hwf Hin Hin' He) as (-> & ->).
    + destruct (kpages_apart _ _ _ _ _ _ Hv HR HR' He); lia.
  - destruct (kpages_region _ _ _ _ Hv Hb') as (_ & ? & _).
    destruct (kpages_apart _ _ _ _ _ _ Hv HR Hb'); [|hconst; lia..].
    intros He. apply Hnb'. rewrite <- He. by eapply addr_elem.
  - destruct (kpages_region _ _ _ _ Hv Hb) as (_ & ? & _).
    destruct (kpages_apart _ _ _ _ _ _ Hv Hb HR'); [|hconst; lia..].
    intros He. apply Hnb. rewrite He. by eapply addr_elem.
  - congruence.
Qed.

(** Taking the block [o] out of a free list makes exactly it live. *)
Lemma live_take A1 A2 R i a k o fl b z :
  grid k o → o ∉ fl → NoDup (A1 ++ (i, Page a k (o :: fl)) :: A2).*1 →
  live (A1 ++ (i, Page a k fl) :: A2) R b z ↔
  live (A1 ++ (i, Page a k (o :: fl)) :: A2) R b z ∨ (b = a + o ∧ z = blksz k).
Proof.
  intros Hg Hfl Hnd. set (pg := Page a k (o :: fl)). set (pg' := Page a k fl).
  assert (pg_addr <$> (A1 ++ (i, pg') :: A2).*2 = pg_addr <$> (A1 ++ (i, pg) :: A2).*2) as Ha
    by (by rewrite !fmap_app).
  unfold live. rewrite Ha. split.
  - intros [(j & q & o' & Hin & Hg' & Hnf & -> & ->)|Hbig]; [|by left; right].
    apply (elem_update _ _ _ pg) in Hin as [(-> & ->)|(Hne & Hin)]; [| |done].
    + destruct (decide (o' = o)) as [->|Hoo]; [by right|left; left].
      exists i, pg, o'. split_and!; try done; [by apply elem_mid|].
      simpl. by apply not_elem_of_cons.
    + left; left. by exists j, q, o'.
  - intros [[(j & q & o' & Hin & Hg' & Hnf & -> & ->)|Hbig]|(-> & ->)].
    + apply (elem_update _ _ _ pg') in Hin as [(-> & ->)|(Hne & Hin)].
      * left. exists i, pg', o'. split_and!; try done; [by apply elem_mid|].
        simpl in *. by apply not_elem_of_cons in Hnf as (_ & ?).
      * left. by exists j, q, o'.
      * by rewrite (fst_update A1 A2 i pg pg').
    + by right.
    + left. exists i, pg', o. split_and!; try done. by apply elem_mid.
Qed.

(** A page all of whose blocks are free contributes nothing. *)
Lemma live_full A1 A2 R i a k fl b z :
  (∀ o, grid k o → o ∈ fl) → (a ∉ (pg_addr <$> (A1 ++ A2).*2)) →
  live (A1 ++ (i, Page a k fl) :: A2) R b z ↔ live (A1 ++ A2) (delete a R) b z.
Proof.
  intros Hall Ha. unfold live.
  assert (∀ x, x ∈ (pg_addr <$> (A1 ++ (i, Page a k fl) :: A2).*2) ↔
               x = a ∨ x ∈ (pg_addr <$> (A1 ++ A2).*2)) as Hadr.
  { intros x. rewrite !fmap_app. simpl. rewrite !elem_of_app, elem_of_cons. tauto. }
  split.
  - intros [(j & q & o & Hin & Hg & Hnf & -> & ->)|(n & Hn & -> & Hx)].
    + left. exists j, q, o. split_and!; try done.
      rewrite !elem_of_app, elem_of_cons in *. destruct Hin as [?|[?|?]]; [by left| |by right].
      simplify_eq. exfalso. apply Hnf, Hall, Hg.
    + right. rewrite Hadr in Hx. exists n.
      rewrite lookup_delete_ne by naive_solver. naive_solver.
  - intros [(j & q & o & Hin & Hg & Hnf & -> & ->)|(n & Hn & -> & Hx)].
    + left. exists j, q, o. split_and!; try done. by apply elem_drop.
    + right. apply lookup_delete_Some in Hn as (Hne & Hn). exists n.
      rewrite Hadr. naive_solver.
Qed.

Lemma free_not_live s A R i pg o z :
  heap_ok s A R → (i, pg) ∈ A → o ∈ pg_free pg → ¬ live A R (pg_addr pg + o) z.
Proof.
  intros Hok Hin Ho Hl. pose proof Hok as [_ _ _ _ _ _ _ Hwf Hv].
  destruct (pw_page _ _ Hwf _ _ Hin) as [Ht _ Hgr]. rewrite Forall_forall in Hgr.
  pose proof (grid_range _ _ Ht (Hgr o Ho)) as (? & ? & _).
  pose proof (pw_region _ _ Hwf _ _ Hin) as HR. pose proof (blksz_pos (pg_type pg)).
  destruct Hl as [(j & q & o' & Hin' & Hg' & Hnf & He' & _)|(n & Hb & _ & Hnb)].
  - destruct (pw_page _ _ Hwf _ _ Hin') as [Ht' _ _].
    pose proof (grid_range _ _ Ht' Hg') as (? & ? & _).
    pose proof (pw_region _ _ Hwf _ _ Hin') as HR'. pose proof (blksz_pos (pg_type q)).
    destruct (decide (pg_addr pg = pg_addr q)) as [He|He].
    + destruct (addr_inj _ _ _ _ _ _ Hwf Hin Hin' He) as (-> & ->).
      apply Hnf. by replace o' with o by lia.
    + destruct (kpages_apart _ _ _ _ _ _ Hv HR HR' He); lia.
  - destruct (kpages_region _ _ _ _ Hv Hb) as (_ & ? & _).
    destruct (kpages_apart _ _ _ _ _ _ Hv HR Hb); [|hconst; lia..].
    intros He. apply Hnb. rewrite <- He. by eapply addr_elem.
Qed.

(** ** Allocation *)

Lemma blocktype_spec (Q : Z → world (kheap V) → Prop) sz s m :
  0 ≤ sz ≤ 2048 →
  (∀ k, 0 ≤ k < NSIZES → sz ≤ blksz k → Q k (World s m)) →
  wp (blocktype sz) Q (World s m).
Proof.
  intros Hsz HQ. unfold blocktype. rewrite wp_bind.
  apply (wp_kfind (λ i _ w, w = World s m ∧ (7 < i → 2048 < sz))).
  - split; [done|lia].
  - intros i _ w Hi (-> & Hb). assert (0 ≤ i < NSIZES) as Hi' by (hconst; lia).
    rewrite wp_bind, (wp_kof _ _ _ _ (sizes_lget i Hi')), wp_ret.
    destruct (Z.leb_spec sz (blksz i)).
    + rewrite wp_ret. by apply HQ.
    + split; [done|]. intros. replace i with 7 in * by (hconst; lia). done.
  - intros _ w (-> & Hb). exfalso. hconst. lia.
Qed.

Lemma halloc_spec (Q : Z → world (kheap V) → Prop) n R s m :
  cpu_ok (hcpu s) → kpages_ok (hvm s) R → 0 < n ≤ kpages_max →
  (∀ v', kpages_ok v' R → kpages_took (hvm s) n 0 v' → Q 0 (World (set_hvm (hcpu s, v') s) m)) →
  (∀ a v', R !! a = None → kpages_ok v' (<[a := n]> R) → kpages_took (hvm s) n a v' →
     Q a (World (set_hvm (hcpu s, v') s) m)) →
  wp (halloc_kpages n) Q (World s m).
Proof.
  intros Hc Hv Hn Hno Hyes. unfold halloc_kpages. rewrite wp_zoom. cbn [wst wmem].
  by apply (kpages_alloc_ok _ _ R).
Qed.

Lemma hfree_spec (Q : unit → world (kheap V) → Prop) a n R s m :
  cpu_ok (hcpu s) → kpages_ok (hvm s) R → R !! a = Some n →
  (∀ v', kpages_ok v' (delete a R) → kpages_gave (hvm s) a v' →
     Q tt (World (set_hvm (hcpu s, v') s) m)) →
  wp (hfree_kpages a) Q (World s m).
Proof.
  intros Hc Hv Ha HQ. unfold hfree_kpages. rewrite wp_zoom. cbn [wst wmem].
  by eapply (kpages_free_ok _ _ n R).
Qed.

(** The lists and the memory are as before; the rest may have changed. *)
Lemma heap_ok_same s s' A R R' :
  heap_ok s A R → pagerefs s' = pagerefs s → sizebases s' = sizebases s →
  allbase s' = allbase s → kmem s' = kmem s →
  inuse_ok (pagerefs_inuse s') A.*1 → kpages_ok (hvm s') R' →
  (∀ i pg, (i, pg) ∈ A → R' !! pg_addr pg = Some 1) →
  heap_ok s' A R'.
Proof.
  intros [Hl Hb Hu Ha Hs Hi Hf [] Hv] Ep Es Ea Em Hu' Hv' HR.
  assert (∀ g, rd s' g = rd s g) as Hrd.
  { intros []; simpl; by rewrite ?Ep, ?Es, ?Ea. }
  split; try done; try (by rewrite ?Ep, ?Es).
  - by apply (hangs_ext s).
  - intros k Hk. apply (hangs_ext s); [done|done|by apply Hs].
  - intros. unfold pinfo. rewrite Ep. by apply Hi.
  - intros. rewrite Em. by eapply Hf.
Qed.

(** The block at the head of a free list becomes live. *)
Lemma heap_rep_take s s' A1 A2 R i a k o fl H :
  heap_ok s (A1 ++ (i, Page a k (o :: fl)) :: A2) R →
  heap_ok s' (A1 ++ (i, Page a k fl) :: A2) R →
  notfull (A1 ++ A2) → cpu_ok (hcpu s') →
  (∀ b z, H !! b = Some z ↔ live (A1 ++ (i, Page a k (o :: fl)) :: A2) R b z) →
  H !! (a + o) = None ∧ heap_rep s' (<[a + o := blksz k]> H).
Proof.
  intros Hok Hok' Hnf Hc HH. pose proof (elem_mid A1 A2 (i, Page a k (o :: fl))) as Hin.
  destruct (ho_wf _ _ _ Hok) as [Hnd _ _ Hpk _].
  destruct (Hpk _ _ Hin) as [Ht Hn Hg]. simpl in *.
  apply NoDup_cons in Hn as (Ho & Hn). apply Forall_cons in Hg as (Hgo & Hg).
  assert (H !! (a + o) = None) as Hnone.
  { apply eq_None_not_Some. intros (z & Hz%HH). revert Hz.
    eapply (free_not_live _ _ _ _ (Page a k (o :: fl))); [done|done|by left]. }
  split; [done|]. exists (A1 ++ (i, Page a k fl) :: A2), R. split_and!; [done| |done|].
  - intros j q Hj. rewrite elem_of_app, elem_of_cons in Hj.
    destruct Hj as [Hj|[Hj|Hj]].
    + apply (Hnf j). apply elem_of_app. by left.
    + simplify_eq/=. pose proof (page_free_bound _ (Hpk _ _ Hin)) as Hb. simpl in Hb. lia.
    + apply (Hnf j). apply elem_of_app. by right.
  - intros b z. rewrite live_take by done. rewrite lookup_insert_Some, <- HH.
    split; [naive_solver|]. intros [Hb|(-> & ->)]; [|by left].
    right. split; [|done]. intros <-. congruence.
Qed.

Lemma setup_page_spec (Q : unit → world (kheap V) → Prop) i a k p0 b prs ws sb ab mem c v m :
  lget prs i = Some p0 → 0 ≤ k < NSIZES → page_region a 1 → lget sb k = Some b →
  (∀ mem', flist mem' a (offs (blksz k) (Z.to_nat (nblk k))) →
     (∀ x, ¬ (a ≤ x < a + PAGE_SIZE) → mem' !! x = mem !! x) →
     let pf := Pageref b ab (a + k) ((nblk k - 1) * blksz k) (nblk k) in
     Q tt (World (KHeap (<[Z.to_nat i := pf]> prs) ws (<[Z.to_nat k := Some i]> sb)
                    (Some i) mem' c v) m)) →
  wp (setup_page i a k (blksz k)) Q (World (KHeap prs ws sb ab mem c v) m).
Proof.
  intros Hp Hk Ha Hb HQ. pose proof Ha as (Ham & _ & Hlo & Hhi).
  pose proof (nblk_pos k Hk). pose proof (blksz_pos k). pose proof (nblk_blksz k Hk).
  assert (∀ x, lget (<[Z.to_nat i := x]> prs) i = Some x) as Hi
    by (intros; rewrite (lget_insert _ _ _ _ _ Hp); by rewrite decide_True).
  unfold setup_page. rewrite wp_bind. eapply getpr_spec; [exact Hp|].
  rewrite wp_bind. eapply setpr_spec; [exact Hp|]. hcbn.
  rewrite wp_bind. eapply getpr_spec; [apply Hi|]. hcbn.
  assert (u16 (PAGE_SIZE / blksz k) = nblk k) as ->
    by (rewrite page_div_blksz by done; apply Z.mod_small; lia).
  rewrite wp_bind. apply init_freelist_spec; [done..|]. intros mem' Hfl Hout.
  hcbn. rewrite wp_bind. eapply setpr_spec; [apply Hi|].
  hcbn. rewrite list_insert_insert_eq.
  rewrite wp_bind. eapply getpr_spec; [apply Hi|]. hcbn.
  replace (a + (nblk k - 1) * blksz k - a) with ((nblk k - 1) * blksz k) by lia.
  assert (u16 ((nblk k - 1) * blksz k) = (nblk k - 1) * blksz k) as ->
    by (apply Z.mod_small; hconst; nia).
  rewrite wp_bind, wp_kassert by lia. kstep. rewrite (wp_kof _ _ _ _ Hb), wp_bind.
  eapply setpr_spec; [apply Hi|]. hcbn. rewrite list_insert_insert_eq.
  rewrite wp_bind. eapply guy_assign_spec; [exact Hb|]. hcbn.
  rewrite wp_bind. eapply getpr_spec; [apply Hi|]. kstep.
  eapply setpr_spec; [apply Hi|]. hcbn.
  rewrite list_insert_insert_eq. eapply guy_assign_spec; [done|].
  hcbn.
  rewrite mkpab_of; [by apply HQ|done| |hconst; lia].
  unfold MIPS_KSEG0, MIPS_KSEG1 in *. hconst. lia.
Qed.

(** The continuation of an allocation of [sz] bytes from the heap [s]. *)
Definition alloc_post (sz : Z) H s (m : list bool) (Q : Z → world (kheap V) → Prop) : Prop :=
  (∀ s', heap_rep s' H → kept H s s' → Q 0 (World s' m)) ∧
  (∀ r z s', sz ≤ z → H !! r = None → heap_rep s' (<[r := z]> H) → kept H s s' →
     Q r (World s' m)).

(** A fresh page is apart from the live blocks. *)
Lemma fresh_page_kept s A R a v' H b z x :
  heap_ok s A R → R !! a = None → kpages_ok v' (<[a := 1]> R) →
  (∀ b z, H !! b = Some z ↔ live A R b z) →
  H !! b = Some z → b ≤ x < b + z → ¬ (a ≤ x < a + PAGE_SIZE).
Proof.
  intros Hok HRa Hv' HH Hb%HH Hx.
  destruct (live_region _ _ _ _ _ Hok Hb) as (a' & n & HR & ? & ? & _).
  assert (a ≠ a') by congruence.
  destruct (kpages_apart v' (<[a:=1]> R) a 1 a' n); try done; [..|lia|lia].
  - by rewrite lookup_insert_eq.
  - by rewrite lookup_insert_ne.
Qed.

(** No page of the class has a free block: take a new page. *)
Lemma newpage_spec sz k A R H (Q : Z → world (kheap V) → Prop) prs ws sb ab mem c v m :
  let s := KHeap prs ws sb ab mem c v in
  heap_ok s A R → notfull A → cpu_ok c → 0 ≤ k < NSIZES → sz ≤ blksz k →
  (∀ b z, H !! b = Some z ↔ live A R b z) → alloc_post sz H s m Q →
  wp (o ← allocpageref;
      match o with
      | None => hsplx (curspl c);; mret 0
      | Some pr =>
          prpage ← halloc_kpages 1;
          if prpage =? 0 then
            freepageref pr;;
            hsplx (curspl c);;
            mret 0
          else
            setup_page pr prpage k (blksz k);;
            doalloc pr (curspl c)
      end) Q (World (KHeap prs ws sb ab mem (high c) v) m).
Proof.
  intros s Hok Hnf Hc Hk Hsz HH (Hno & Hyes). subst s.
  rewrite wp_bind. apply (allocpageref_spec _ A.*1).
  { apply Hok. }
  { intros _. rewrite wp_bind. eapply hsplx_spec; [done|done|]. hcbn. rewrite wp_ret.
    apply Hno; [|done]. by exists A, R. }
  intros i ws' Hi Hni Hws'. hcbn. rewrite wp_bind.
  apply (halloc_spec _ _ R); [by apply high_ok|apply Hok|pose proof kpages_max_range; lia|..].
  - intros v' Hv' _. hcbn. simpl (0 =? 0). cbn iota. rewrite wp_bind.
    eapply (freepageref_spec _ (i :: A.*1) A.*1); [done|done|by left|done| |].
    { intros q Hq. rewrite elem_of_cons. naive_solver. }
    intros ws2 Hws2. hcbn. rewrite wp_bind. eapply hsplx_spec; [done|done|]. hcbn.
    rewrite wp_ret. apply Hno; [|done]. exists A, R. split_and!; try done.
    eapply heap_ok_same; [exact Hok|done..|]. apply Hok.
  - intros a v' HRa Hv' _. hcbn.
    assert (page_region a 1) as Hreg.
    { eapply (kpages_region v' (<[a:=1]> R)); [done|by rewrite lookup_insert_eq]. }
    rewrite (proj2 (Z.eqb_neq a 0)) by (destruct Hreg as (_ & _ & ? & _);
      unfold MIPS_KSEG0 in *; lia).
    destruct (lget_is_Some prs i) as (p0 & Hp0).
    { pose proof (ho_len _ _ _ Hok) as He. hcbn in He. rewrite He. hconst. lia. }
    destruct (lget_is_Some sb k) as (b & Hb).
    { pose proof (ho_bases _ _ _ Hok) as He. hcbn in He. rewrite He. hconst. lia. }
    rewrite wp_bind. eapply setup_page_spec; [done..|]. intros mem' Hfl Hout pf.
    pose proof (full_page_ok a k Hk) as Hpk. pose proof (nblk_pos k Hk).
    set (full := offs (blksz k) (Z.to_nat (nblk k))) in *.
    assert (full = (nblk k - 1) * blksz k :: offs (blksz k) (Z.to_nat (nblk k - 1))) as Hfull.
    { unfold full. replace (Z.to_nat (nblk k)) with (S (Z.to_nat (nblk k - 1))) by lia.
      simpl. f_equal. lia. }
    assert (heap_ok (KHeap (<[Z.to_nat i:=pf]> prs) ws' (<[Z.to_nat k:=Some i]> sb)
              (Some i) mem' (high c) v') ((i, Page a k full) :: A) (<[a:=1]> R)) as Hok'.
    { eapply (heap_ok_push (KHeap prs ws sb ab mem c v)); try done.
      - unfold pf. hcbn. by rewrite Hfull.
      - unfold pf, full. hcbn. rewrite offs_length. lia. }
    destruct (pages_wf_drop [] A _ _ _ (ho_wf _ _ _ Hok')) as (_ & Hna & _). simpl in Hna.
    assert (∀ b z, H !! b = Some z ↔ live ((i, Page a k full) :: A) (<[a:=1]> R) b z) as HH'.
    { intros b' z. rewrite HH. symmetry. etrans; [apply (live_full [] A)|].
      - intros o (q & Hq & ->). apply offs_elem. exists q. split; [lia|done].
      - done.
      - by rewrite delete_insert_id. }
    rewrite Hfull in Hok', HH'.
    eapply (doalloc_spec _ [] A (<[a:=1]> R)); [exact Hok'|done|done|].
    intros prs' s' Hok''. subst s'. hcbn.
    destruct (heap_rep_take _ _ [] A _ _ _ _ _ _ H Hok' Hok'') as (Hnone & Hrep);
      [done|done|done|].
    eapply Hyes; [exact Hsz|exact Hnone|exact Hrep|]. split; [done|].
    intros b' z x Hb' Hx. hcbn. apply Hout.
    eapply fresh_page_kept; [exact Hok|exact HRa|exact Hv'|exact HH|exact Hb'|done].
Qed.

Lemma subpage_kmalloc_spec (Q : Z → world (kheap V) → Prop) sz H s m :
  heap_rep s H → 0 ≤ sz ≤ 2048 → alloc_post sz H s m Q →
  wp (subpage_kmalloc sz) Q (World s m).
Proof.
  intros (A & R & Hok & Hnf & Hc & HH) Hsz HQ. unfold subpage_kmalloc.
  rewrite wp_bind. apply blocktype_spec; [done|]. intros k Hk Hle.
  rewrite wp_bind, (wp_kof _ _ _ _ (sizes_lget k Hk)).
  rewrite wp_bind. apply hsplhigh_spec. kstep.
  set (s0 := set_hcpu (high (hcpu s)) s).
  assert (heap_ok s0 A R) as Hok0 by by apply heap_ok_cpu.
  rewrite (wp_kof _ _ _ _ (hangs_head _ _ _ _ (ho_same _ _ _ Hok0 k Hk))).
  rewrite wp_bind. eapply (search_spec _ k A R); [done|by apply Hok0|..].
  - apply sameclass_elem.
  - pose proof (sameclass_length k A). pose proof (pages_length _ _ (ho_wf _ _ _ Hok)). lia.
  - intros i [a k' fl] Hin Ht Hfl. simpl in *. subst k'.
    destruct fl as [|o fl]; [done|].
    apply list_elem_of_split in Hin as (A1 & A2 & ->).
    eapply doalloc_spec; [exact Hok0|done|done|]. intros prs s' Hok'.
    destruct (heap_rep_take _ _ _ _ _ _ _ _ _ _ H Hok0 Hok') as (Hnone & Hrep); [|done|done|].
    { intros j q Hj. eapply Hnf. by apply elem_drop. }
    destruct HQ as (_ & Hyes). eapply Hyes; [exact Hle|done|done|done].
  - intros _. destruct s as [prs ws sb ab mem c v]. by apply (newpage_spec sz k A R H).
Qed.

(** A new run of whole pages. *)
Lemma live_region_add A R a n b z :
  R !! a = None → (a ∉ (pg_addr <$> A.*2)) → ¬ live A R a z →
  (a = b ∧ n * PAGE_SIZE = z ∨ a ≠ b ∧ live A R b z) ↔ live A (<[a := n]> R) b z.
Proof.
  intros HRa Hna Hnl. split.
  - intros [(<- & <-)|(Hab & [Hsub|(k & Hk & Hz & Hb)])].
    + right. exists n. by rewrite lookup_insert_eq.
    + by left.
    + right. exists k. by rewrite lookup_insert_ne.
  - intros [Hsub|(k & Hk & Hz & Hb)].
    + right. split; [|by left]. intros <-. apply Hnl. by left.
    + apply lookup_insert_Some in Hk as [(<- & <-)|(Hab & Hk)]; [by left|].
      right. split; [done|]. right. by exists k.
Qed.

(** Requests up to this size are answered; larger ones may wrap around in the
    page count or confuse the page allocator. *)
Definition KMALLOC_MAX : Z := kpages_max * PAGE_SIZE.

(** The number of pages [kmalloc] asks for. *)
Definition pages_of (sz : Z) : Z := (sz + PAGE_SIZE - 1) / PAGE_SIZE.

(** A large request changes nothing but the state of the page allocator. *)
Lemma kmalloc_pages_spec (Q : Z → world (kheap V) → Prop) sz H s m :
  heap_rep s H → LARGEST_SUBPAGE_SIZE ≤ sz ≤ KMALLOC_MAX →
  (∀ v', heap_rep (set_hvm (hcpu s, v') s) H → kpages_took (hvm s) (pages_of sz) 0 v' →
     Q 0 (World (set_hvm (hcpu s, v') s) m)) →
  (∀ a v', H !! a = None → page_region a (pages_of sz) →
     heap_rep (set_hvm (hcpu s, v') s) (<[a := pages_of sz * PAGE_SIZE]> H) →
     kpages_took (hvm s) (pages_of sz) a v' → Q a (World (set_hvm (hcpu s, v') s) m)) →
  wp (kmalloc sz) Q (World s m).
Proof.
  intros Hrep Hsz Hno Hyes. unfold kmalloc, pages_of, LARGEST_SUBPAGE_SIZE, KMALLOC_MAX in *.
  pose proof kpages_max_range as Hmax. unfold MAXPAGES in Hmax.
  destruct (Z.leb_spec 2048 sz); [|lia].
  hconst. rewrite (u32_id (sz + 4096)) by lia. rewrite u32_id by lia.
  set (n := (sz + 4096 - 1) / 4096) in *. assert (0 < n ≤ kpages_max) as Hn by (unfold n; lia).
  rewrite i32_id by lia. destruct Hrep as (A & R & Hok & Hnf & Hc & HH). rewrite wp_bind.
  apply (halloc_spec _ _ R); [done|apply Hok|done|..].
  - intros v' Hv' Ht. simpl (0 =? 0). cbn iota. rewrite wp_ret. apply Hno; [|done].
    exists A, R. split_and!; try done.
    eapply heap_ok_same; [exact Hok|done..|apply Hok|done|apply Hok].
  - intros a v' HRa Hv' Ht.
    assert (page_region a n) as Hreg.
    { eapply (kpages_region v' (<[a:=n]> R)); [done|by rewrite lookup_insert_eq]. }
    destruct (Hreg) as (_ & _ & Hlo & _).
    rewrite (proj2 (Z.eqb_neq a 0)) by (unfold MIPS_KSEG0 in *; lia). rewrite wp_ret.
    assert (∀ i pg, (i, pg) ∈ A → pg_addr pg ≠ a) as Hne.
    { intros i pg Hin He. pose proof (pw_region _ _ (ho_wf _ _ _ Hok) _ _ Hin). congruence. }
    assert (heap_ok (set_hvm (hcpu s, v') s) A (<[a:=n]> R)) as Hok'.
    { eapply heap_ok_same; [exact Hok|done..|apply Hok|done|]. intros i pg Hin.
      rewrite lookup_insert_ne by (intros He; by eapply Hne). by eapply Hok. }
    assert (a ∉ (pg_addr <$> A.*2)) as Hna.
    { intros (pg & -> & ([i q] & -> & Hin)%list_elem_of_fmap)%list_elem_of_fmap.
      by eapply Hne. }
    assert (∀ z, ¬ live A R a z) as Hnl.
    { intros z Hz. destruct (live_region _ _ _ _ _ Hok Hz) as (a' & n' & HR & ? & ? & ? & _).
      assert (a ≠ a') by congruence.
      destruct (kpages_apart v' (<[a:=n]> R) a n a' n'); try done; [..|hconst; lia|lia].
      - by rewrite lookup_insert_eq.
      - by rewrite lookup_insert_ne. }
    apply Hyes; [|done| |done].
    + apply eq_None_not_Some. intros (z & Hz%HH). by eapply Hnl.
    + exists A, (<[a:=n]> R). split_and!; [done..|]. intros b z.
      rewrite lookup_insert_Some, HH. by apply live_region_add.
Qed.

Lemma kmalloc_spec (Q : Z → world (kheap V) → Prop) sz H s m :
  heap_rep s H → 0 ≤ sz ≤ KMALLOC_MAX → alloc_post sz H s m Q →
  wp (kmalloc sz) Q (World s m).
Proof.
  intros Hrep Hsz HQ. destruct (Z.leb_spec LARGEST_SUBPAGE_SIZE sz).
  - destruct HQ as (Hno & Hyes). eapply (kmalloc_pages_spec _ _ H); [done|lia|..].
    + intros v' Hv' _. by apply Hno.
    + intros a v' Ha _ Hrep' _. eapply Hyes; [|done|done|done].
      unfold pages_of, LARGEST_SUBPAGE_SIZE in *. hconst. lia.
  - unfold kmalloc. rewrite (proj2 (Z.leb_gt _ _)) by done.
    unfold LARGEST_SUBPAGE_SIZE in *. by apply (subpage_kmalloc_spec _ _ H); [|lia|].
Qed.

(** ** Freeing *)

(** The page that contains an address, if any, is found. *)
Lemma freesearch_spec (Q : option Z + Z * Z * Z → world (kheap V) → Prop) ptr A R l g fuel s m :
  heap_ok s A R → hangs s AtNextAll g l → (∀ i, i ∈ l → ∃ pg, (i, pg) ∈ A) →
  (length l < fuel)%nat →
  (∀ i pg, (i, pg) ∈ A → pg_addr pg ≤ ptr < pg_addr pg + PAGE_SIZE →
     Q (inr (i, pg_addr pg, pg_type pg)) (World s m)) →
  ((∀ i pg, i ∈ l → (i, pg) ∈ A → ¬ (pg_addr pg ≤ ptr < pg_addr pg + PAGE_SIZE)) →
     Q (inl None) (World s m)) →
  wp (kloop fuel (λ pr, bool_decide (pr ≠ None)) (λ pr,
        i ← kof pr;
        p ← getpr i;
        let prpage := PR_PAGEADDR p in
        let blktype := PR_BLOCKTYPE p in
        kassert ((0 <=? blktype) && (blktype <? NSIZES));;
        if (prpage <=? ptr) && (ptr <? u32 (prpage + PAGE_SIZE))
        then mret (inr (i, prpage, blktype))
        else mret (inl (next_all p))) (head l))
     Q (World s m).
Proof.
  intros Hok. revert g fuel. induction l as [|i l IH]; intros g fuel Hh Hl Hf Hyes Hno.
  { rewrite wp_kloop_done by done. apply Hno. intros i pg Hi. by apply elem_of_nil in Hi. }
  destruct fuel as [|fuel]; [simpl in Hf; lia|]. destruct Hh as (Hg & Hh).
  destruct (Hl i ltac:(by left)) as (pg & Hpg).
  destruct (heap_pageref _ _ _ _ _ Hok Hpg) as (p & Hp & Hpa & Hpb & _).
  destruct (pw_page _ _ (ho_wf _ _ _ Hok) _ _ Hpg) as [Ht _ _].
  destruct (page_addr_range _ _ _ _ _ Hok Hpg) as (_ & Hlo & Hhi).
  unfold MIPS_KSEG0, MIPS_KSEG1 in *. hconst.
  rewrite wp_kloop_step by done. cbn [head]. kstep.
  apply (getpr_spec _ _ p); [done|]. rewrite Hpa, Hpb, wp_bind. kassert_tac.
  rewrite u32_id by lia.
  destruct (decide (pg_addr pg ≤ ptr < pg_addr pg + 4096)) as [Hr|Hr].
  - replace ((pg_addr pg <=? ptr) && (ptr <? pg_addr pg + 4096)) with true by lia.
    rewrite wp_ret. by apply Hyes.
  - replace ((pg_addr pg <=? ptr) && (ptr <? pg_addr pg + 4096)) with false by lia.
    rewrite wp_ret. pose proof (hangs_head _ _ _ _ Hh) as Hn. simpl in Hn.
    rewrite Hp in Hn. injection Hn as ->.
    apply (IH (AtNextAll i)); [done| |simpl in Hf; lia|done|].
    + intros j Hj. apply Hl. by right.
    + intros Hall. apply Hno. intros j q [->|Hj]%elem_of_cons Hq; [|by eapply Hall].
      by rewrite (page_unique _ _ _ _ _ (ho_wf _ _ _ Hok) Hq Hpg).
Qed.

(** The words of free blocks lie outside every live block. *)
Lemma free_outside s A R b z j q o :
  heap_ok s A R → live A R b z → (j, q) ∈ A → o ∈ pg_free q →
  ¬ (b ≤ pg_addr q + o < b + z).
Proof.
  intros Hok Hl Hin' Ho. pose proof Hok as [_ _ _ _ _ _ _ Hwf Hv].
  destruct (pw_page _ _ Hwf _ _ Hin') as [Ht' _ Hgr]. rewrite Forall_forall in Hgr.
  pose proof (grid_range _ _ Ht' (Hgr o Ho)) as (? & ? & _).
  pose proof (pw_region _ _ Hwf _ _ Hin') as HR'. pose proof (blksz_pos (pg_type q)).
  destruct Hl as [(i & pg & o' & Hin & Hg & Hnf & -> & ->)|(n & Hb & -> & Hnb)].
  - destruct (pw_page _ _ Hwf _ _ Hin) as [Ht _ _].
    pose proof (grid_range _ _ Ht Hg) as (? & ? & _).
    pose proof (pw_region _ _ Hwf _ _ Hin) as HR.
    destruct (decide (pg_addr pg = pg_addr q)) as [He|He].
    + destruct (addr_inj _ _ _ _ _ _ Hwf Hin Hin' He) as (-> & ->).
      destruct (grid_apart _ o o' Ht (Hgr o Ho) Hg); [naive_solver|lia|lia].
    + destruct (kpages_apart _ _ _ _ _ _ Hv HR HR' He); lia.
  - destruct (kpages_apart _ _ _ _ _ _ Hv Hb HR'); [|lia|lia].
    intros ->. apply Hnb. by eapply addr_elem.
Qed.

(** A free list of full length contains every block. *)
Lemma page_full pg o :
  page_ok pg → Z.of_nat (length (pg_free pg)) = nblk (pg_type pg) →
  grid (pg_type pg) o → o ∈ pg_free pg.
Proof.
  intros [Ht Hn Hg] Hl (q & Hq & ->).
  set (all := offs (blksz (pg_type pg)) (Z.to_nat (nblk (pg_type pg)))).
  assert (pg_free pg ⊆+ all) as Hsub.
  { apply NoDup_submseteq; [done|]. intros x Hx. rewrite Forall_forall in Hg.
    destruct (Hg x Hx) as (q' & Hq' & ->). apply offs_elem. exists q'. split; [lia|done]. }
  apply submseteq_length_Permutation in Hsub.
  - rewrite Hsub. apply offs_elem. exists q. split; [lia|done].
  - unfold all. rewrite offs_length. lia.
Qed.

(** Putting a block back on its free list removes exactly it. *)
Lemma heap_rep_put s s' A1 A2 R i a k o fl H :
  heap_ok s (A1 ++ (i, Page a k fl) :: A2) R →
  heap_ok s' (A1 ++ (i, Page a k (o :: fl)) :: A2) R →
  (∀ b z, H !! b = Some z ↔ live (A1 ++ (i, Page a k fl) :: A2) R b z) →
  ∀ b z, delete (a + o) H !! b = Some z ↔ live (A1 ++ (i, Page a k (o :: fl)) :: A2) R b z.
Proof.
  intros Hok Hok' HH b z. pose proof (elem_mid A1 A2 (i, Page a k (o :: fl))) as Hin.
  destruct (ho_wf _ _ _ Hok') as [Hnd _ _ Hpk _].
  destruct (Hpk _ _ Hin) as [Ht Hn Hg]. simpl in *.
  apply NoDup_cons in Hn as (Ho & Hn). apply Forall_cons in Hg as (Hgo & Hg).
  rewrite lookup_delete_Some, HH, live_take by done. split; [naive_solver|].
  intros Hl. split; [|by left]. intros <-. revert Hl.
  eapply (free_not_live _ _ _ _ (Page a k (o :: fl))); [done|done|by left].
Qed.

(** The link stored in a freed block continues the old free list. *)
Lemma flist_push mem mem' a o fl :
  flist mem a fl → (∀ o', o' ∈ fl → mem' !! (a + o') = mem !! (a + o')) →
  mem' !! (a + o) = Some (match fl with [] => 0 | o' :: _ => a + o' end) →
  flist mem' a (o :: fl).
Proof. intros Hf Hsame Ho. split; [done|]. by eapply flist_ext. Qed.

(** The release of a page that has become empty. *)
Lemma release_spec (Q : unit → world (kheap V) → Prop) A1 A2 R i pg s m :
  heap_ok s (A1 ++ (i, pg) :: A2) R → cpu_ok (hcpu s) →
  (∀ s', heap_ok s' (A1 ++ A2) (delete (pg_addr pg) R) → kmem s' = kmem s →
     hcpu s' = hcpu s → Q tt (World s' m)) →
  wp (remove_lists i (pg_type pg);; hfree_kpages (pg_addr pg);; freepageref i)
     Q (World s m).
Proof.
  intros Hok Hc HQ. pose proof (elem_mid A1 A2 (i, pg)) as Hin.
  pose proof (ho_wf _ _ _ Hok) as Hwf.
  destruct (pages_wf_drop _ _ _ _ _ Hwf) as (Hni & _ & _).
  rewrite wp_bind. eapply remove_lists_spec; [exact Hok|].
  intros s' Hm Hcp Hv Hu Hok'. rewrite wp_bind.
  eapply (hfree_spec _ _ 1 R); [by rewrite Hcp|rewrite Hv; apply Hok|by eapply Hwf|].
  intros v' Hv' _.
  eapply (freepageref_spec _ (A1 ++ (i, pg) :: A2).*1 (A1 ++ A2).*1).
  - hcbn. rewrite Hu. apply Hok.
  - destruct Hwf as [_ Hr _ _ _]. rewrite Forall_forall in Hr. apply Hr.
    apply list_elem_of_fmap. by exists (i, pg).
  - apply list_elem_of_fmap. by exists (i, pg).
  - done.
  - intros q Hq. rewrite !fmap_app, fmap_cons, !elem_of_app, elem_of_cons. naive_solver.
  - intros ws Hws. apply HQ; [|done|done].
    apply (Hok' ws (hcpu s') v' Hws Hv').
Qed.

Lemma free_block_spec (Q : unit → world (kheap V) → Prop) A1 A2 R i a k fl o H s m :
  heap_ok s (A1 ++ (i, Page a k fl) :: A2) R → notfull (A1 ++ A2) →
  cpu_ok (hcpu s) → grid k o → o ∉ fl →
  (∀ b z, H !! b = Some z ↔ live (A1 ++ (i, Page a k fl) :: A2) R b z) →
  (∀ s', heap_rep s' (delete (a + o) H) → kept (delete (a + o) H) s s' →
     Q tt (World s' m)) →
  wp (free_block i a k (a + o)) Q (World s m).
Proof.
  intros Hok Hnf Hc Hg Ho HH HQ. set (A := A1 ++ (i, Page a k fl) :: A2) in *.
  pose proof (elem_mid A1 A2 (i, Page a k fl)) as Hin. fold A in Hin.
  destruct (heap_pageref _ _ _ _ _ Hok Hin) as (p & Hp & Hpa & Hpb & Hpab & Hpo & Hpn).
  destruct (pw_page _ _ (ho_wf _ _ _ Hok) _ _ Hin) as [Ht Hnd Hgr]. simpl in *.
  destruct (page_word _ _ _ _ _ o Hok Hin Hg) as (Hw & Hor & Hu & Har). simpl in *.
  destruct (page_addr_range _ _ _ _ _ Hok Hin) as (Ham & Hlo & Hhi). simpl in *.
  destruct (grid_range _ _ Ht Hg) as (_ & Hoz & Hom). pose proof (blksz_pos k ltac:(lia)).
  assert (live A R (a + o) (blksz k)) as Hlive.
  { left. by exists i, (Page a k fl), o. }
  assert (page_ok (Page a k (o :: fl))) as Hpk'.
  { split; simpl; [done|by apply NoDup_cons|by constructor]. }
  pose proof (page_free_bound _ Hpk') as Hbound. pose proof (nblk_pos k Ht). simpl in Hbound.
  unfold free_block. replace (a + o - a) with o by lia. rewrite (u32_id o) by (hconst; lia).
  rewrite wp_bind, (wp_kof _ _ _ _ (sizes_lget k Ht)), (grid_mod_0 k o) by (done || lia).
  replace (PAGE_SIZE <=? o) with false by lia. cbn [orb negb Z.eqb].
  rewrite wp_bind, Hu. apply fill_deadbeef_spec; [done| |lia|lia|].
  { hconst. lia. }
  intros mem1 Hmem1. rewrite wp_bind. eapply getpr_spec; [exact Hp|].
  set (link := match fl with [] => 0 | o' :: _ => a + o' end).
  assert (wp (if freelist_offset p =? INVALID_OFFSET then kstore (a + o) 0
              else kstore (a + o) (u32 (a + freelist_offset p)))
             (λ _ w, w = World (set_kmem (<[a + o := link]> mem1) s) m)
             (World (set_kmem mem1 s) m)) as Hlink.
  { rewrite Hpo. unfold link. destruct fl as [|o' fl'].
    - by apply kstore_spec.
    - apply Forall_cons in Hgr as (Hg' & _).
      destruct (page_word _ _ _ _ _ o' Hok Hin Hg') as (_ & Hor' & Hu' & _).
      cbn [pg_addr] in *. change (default INVALID_OFFSET (head (o' :: fl'))) with o'.
      unfold INVALID_OFFSET. hconst.
      rewrite (proj2 (Z.eqb_neq o' 0xffff)) by lia. rewrite Hu'. by apply kstore_spec. }
  rewrite wp_bind. eapply wp_mono; [exact Hlink|]. intros [] w ->.
  rewrite wp_bind. eapply getpr_spec; [exact Hp|].
  rewrite wp_bind. eapply setpr_spec; [exact Hp|].
  set (p' := Pageref _ _ _ _ _).
  assert (lget (<[Z.to_nat i := p']> (pagerefs s)) i = Some p') as Hp'
    by (rewrite (lget_insert _ _ _ _ _ Hp); by rewrite decide_True).
  assert (nfree p' = Z.of_nat (length (o :: fl))) as Hn'.
  { unfold p'. hcbn. rewrite Hpn. unfold u16. rewrite Z.mod_small; simpl; lia. }
  set (mem2 := <[a + o := link]> mem1) in *.
  assert (∀ x, ¬ (a + o ≤ x < a + o + blksz k) → mem2 !! x = kmem s !! x) as Hmem2.
  { intros x Hx. unfold mem2. rewrite lookup_insert_ne by lia. by apply Hmem1. }
  set (s2 := set_kmem mem2 (set_pagerefs (<[Z.to_nat i := p']> (pagerefs s)) s)).
  assert (heap_ok s2 (A1 ++ (i, Page a k (o :: fl)) :: A2) R) as Hok2.
  { apply (heap_ok_page _ _ _ _ _ _ _ _ _ _ _ mem2 Hok Hp); try done.
    - unfold p'. hcbn. hconst. change (u16 o = o). apply Z.mod_small. lia.
    - eapply flist_push; [by apply (ho_free _ _ _ Hok _ _ Hin)| |].
      + intros o' Ho'. apply Hmem2. by eapply (free_outside _ _ _ _ _ i (Page a k fl)).
      + unfold mem2. by rewrite lookup_insert_eq.
    - intros j q o' Hj _ Ho'. apply Hmem2. by eapply free_outside. }
  pose proof (heap_rep_put _ _ _ _ _ _ _ _ _ _ H Hok Hok2 HH) as HH2.
  assert (∀ s', kmem s' = mem2 → hcpu s' = hcpu s → kept (delete (a + o) H) s s') as Hkept.
  { intros s' Hm Hcp. split; [done|]. intros b z x (Hb & Hbz)%lookup_delete_Some Hx.
    rewrite Hm. apply Hmem2.
    destruct (live_apart _ _ _ _ _ _ _ Hok Hlive (proj1 (HH _ _) Hbz)); [done|lia|lia]. }
  rewrite wp_bind. eapply getpr_spec; [exact Hp'|].
  rewrite page_div_blksz, Hn' by done.
  rewrite wp_bind, wp_kassert by (apply Z.leb_le; cbn [length]; lia).
  destruct (Z.eqb_spec (Z.of_nat (length (o :: fl))) (nblk k)) as [Hfull|Hfull].
  - change a with (pg_addr (Page a k (o :: fl))) at 1.
    change k with (pg_type (Page a k (o :: fl))) at 1.
    eapply release_spec; [exact Hok2|done|]. intros s' Hok' Hm Hcp.
    apply HQ; [|by apply Hkept]. exists (A1 ++ A2), (delete a R).
    split_and!; [done|done|by rewrite Hcp|]. intros b z. rewrite HH2.
    apply live_full; [|by destruct (pages_wf_drop _ _ _ _ _ (ho_wf _ _ _ Hok2)) as (_ & ? & _)].
    intros o' Hg'. by apply (page_full (Page a k (o :: fl))).
  - rewrite wp_ret. apply HQ; [|by apply Hkept].
    exists (A1 ++ (i, Page a k (o :: fl)) :: A2), R. split_and!; try done.
    intros j q Hj. rewrite elem_of_app, elem_of_cons in Hj. destruct Hj as [Hj|[Hj|Hj]].
    + apply (Hnf j). apply elem_of_app. by left.
    + simplify_eq/=. lia.
    + apply (Hnf j). apply elem_of_app. by right.
Qed.

Lemma heap_rep_cpu s c H : heap_rep s H → cpu_ok c → heap_rep (set_hcpu c s) H.
Proof.
  intros (A & R & Hok & Hnf & _ & HH) Hc. exists A, R.
  split_and!; [by apply heap_ok_cpu|done|done|done].
Qed.

(** The page allocator may change its state as long as it keeps its regions. *)
Lemma heap_rep_hvm s v' H :
  heap_rep s H → (∀ R, kpages_ok (hvm s) R → kpages_ok v' R) →
  heap_rep (set_hvm (hcpu s, v') s) H.
Proof.
  intros (A & R & Hok & Hnf & Hc & HH) Hv. exists A, R. split_and!; [|done..].
  eapply heap_ok_same; [exact Hok|done..|apply Hok|apply Hv, Hok|apply Hok].
Qed.

(** A block of a subpage page is freed; any other pointer is refused. *)
Lemma subpage_kfree_spec (Q : Z → world (kheap V) → Prop) H A R b z s m :
  heap_ok s A R → notfull A → cpu_ok (hcpu s) →
  (∀ b z, H !! b = Some z ↔ live A R b z) → H !! b = Some z →
  (∀ s', z ≤ LARGEST_SUBPAGE_SIZE → heap_rep s' (delete b H) → kept (delete b H) s s' →
     Q 0 (World s' m)) →
  (∀ n, R !! b = Some n → (b ∉ (pg_addr <$> A.*2)) → Q (-1) (World s m)) →
  wp (subpage_kfree b) Q (World s m).
Proof.
  intros Hok Hnf Hc HH Hb Hsub Hbig. unfold subpage_kfree.
  rewrite wp_bind. apply hsplhigh_spec. kstep.
  set (s0 := set_hcpu (high (hcpu s)) s).
  assert (heap_ok s0 A R) as Hok0 by by apply heap_ok_cpu.
  pose proof (hangs_head _ _ _ _ (ho_all _ _ _ Hok0)) as Hhd. simpl in Hhd.
  injection Hhd as Hhd. change (allbase s0) with (allbase s). rewrite Hhd.
  pose proof (proj1 (HH _ _) Hb) as Hl. pose proof (ho_vm _ _ _ Hok) as Hv.
  pose proof (ho_wf _ _ _ Hok) as Hwf.
  eapply (freesearch_spec _ b A R); [done|apply Hok0|..].
  - intros i ([? pg] & -> & Hin)%list_elem_of_fmap. by exists pg.
  - rewrite length_fmap. pose proof (pages_length _ _ Hwf). lia.
  - intros i pg Hin Hr. rewrite wp_bind.
    pose proof (pw_region _ _ Hwf _ _ Hin) as HR.
    destruct Hl as [(j & q & o & Hin' & Hg & Hnof & -> & ->)|(n & HRb & -> & Hnb)].
    + pose proof (pw_region _ _ Hwf _ _ Hin') as HR'.
      destruct (pw_page _ _ Hwf _ _ Hin') as [Ht _ _].
      pose proof (grid_range _ _ Ht Hg) as (? & ? & _). pose proof (blksz_pos (pg_type q)).
      assert (pg_addr pg = pg_addr q) as He.
      { destruct (decide (pg_addr pg = pg_addr q)) as [|He]; [done|exfalso].
        destruct (kpages_apart _ _ _ _ _ _ Hv HR HR' He); hconst; lia. }
      destruct (addr_inj _ _ _ _ _ _ Hwf Hin Hin' He) as (-> & ->).
      apply list_elem_of_split in Hin' as (A1 & A2 & ->). destruct q as [a k fl].
      eapply (free_block_spec _ A1 A2 R j a k fl o H); [exact Hok0| |by apply high_ok|done..|].
      { intros i' q Hq. eapply Hnf. by apply elem_drop. }
      intros s' Hrep (Hcpu & Hmem). rewrite wp_bind.
      eapply hsplx_spec; [exact Hc|exact Hcpu|]. rewrite wp_ret.
      apply Hsub; [by apply blksz_max|by apply heap_rep_cpu|]. by split.
    + exfalso. destruct (kpages_region _ _ _ _ Hv HRb) as (_ & ? & _).
      destruct (kpages_apart _ _ _ _ _ _ Hv HR HRb); [|hconst; lia..].
      intros He. apply Hnb. rewrite <- He. by eapply addr_elem.
  - intros Hnone. rewrite wp_bind. eapply hsplx_spec; [exact Hc|done|]. rewrite wp_ret.
    replace (set_hcpu (hcpu s) s0) with s by (by destruct s).
    destruct Hl as [(j & q & o & Hin' & Hg & Hnof & -> & ->)|(n & HRb & -> & Hnb)].
    + exfalso. destruct (pw_page _ _ Hwf _ _ Hin') as [Ht _ _].
      pose proof (grid_range _ _ Ht Hg) as (? & ? & _). pose proof (blksz_pos (pg_type q)).
      eapply (Hnone j q); [|done|lia]. apply list_elem_of_fmap. by exists (j, q).
    + by eapply Hbig.
Qed.

Lemma live_region_del A R b b' z' :
  b ≠ b' → live A (delete b R) b' z' ↔ live A R b' z'.
Proof.
  intros Hne. unfold live. split; (intros [Hsub|(n & Hn & ? & ?)]; [by left|right]);
    exists n; [|by rewrite lookup_delete_ne].
  by rewrite lookup_delete_ne in Hn.
Qed.

(** A block of several pages, or of a whole one, is a region of its own. *)
Lemma kfree_split (Q : unit → world (kheap V) → Prop) H b z s m :
  heap_rep s H → H !! b = Some z →
  (∀ s', heap_rep s' (delete b H) → kept (delete b H) s s' → z ≤ LARGEST_SUBPAGE_SIZE →
     Q tt (World s' m)) →
  (∀ v', heap_rep (set_hvm (hcpu s, v') s) (delete b H) → kpages_gave (hvm s) b v' →
     Q tt (World (set_hvm (hcpu s, v') s) m)) →
  wp (kfree b) Q (World s m).
Proof.
  intros (A & R & Hok & Hnf & Hc & HH) Hb Hsub Hbig. pose proof (proj1 (HH _ _) Hb) as Hl.
  pose proof (ho_vm _ _ _ Hok) as Hv.
  destruct (live_region _ _ _ _ _ Hok Hl) as (a & n & HR & ? & ? & ? & _).
  destruct (kpages_region _ _ _ _ Hv HR) as (_ & _ & Hlo & _).
  unfold kfree. rewrite (proj2 (Z.eqb_neq b 0)) by (unfold MIPS_KSEG0 in *; lia).
  rewrite wp_bind. eapply (subpage_kfree_spec _ H A R b z); [done..| |].
  - intros s' Hle Hrep Hk. simpl (0 =? 0). cbn [negb]. rewrite wp_ret. by apply Hsub.
  - intros n' HRb Hnb. cbn [Z.eqb negb].
    destruct (kpages_region _ _ _ _ Hv HRb) as (Hbm & Hn' & _).
    rewrite wp_bind, wp_kassert by lia.
    eapply (hfree_spec _ _ n' R); [done..|]. intros v' Hv' Hgave.
    assert (∀ i pg, (i, pg) ∈ A → pg_addr pg ≠ b) as Hne.
    { intros i pg Hin He. apply Hnb. rewrite <- He. by eapply addr_elem. }
    assert (heap_ok (set_hvm (hcpu s, v') s) A (delete b R)) as Hok'.
    { eapply heap_ok_same; [exact Hok|done..|apply Hok|done|]. intros i pg Hin.
      rewrite lookup_delete_ne by (intros He; by eapply Hne). by eapply Hok. }
    apply Hbig; [|done]. exists A, (delete b R). split_and!; [done|done|done|].
    intros b' z'. rewrite lookup_delete_Some, HH. split.
    + intros (Hbb & Hl'). by apply live_region_del.
    + intros Hl'. assert (b ≠ b') as Hbb; [|by rewrite live_region_del in Hl'].
      intros <-. destruct Hl' as [(j & q & o & Hin & Hg & Hnof & He & _)|(k & Hk & _)].
      * pose proof (pw_region _ _ (ho_wf _ _ _ Hok) _ _ Hin) as HRq.
        destruct (pw_page _ _ (ho_wf _ _ _ Hok) _ _ Hin) as [Ht _ _].
        pose proof (grid_range _ _ Ht Hg) as (? & ? & _). pose proof (blksz_pos (pg_type q)).
        destruct (kpages_apart _ _ _ _ _ _ Hv HRq HRb); [by eapply Hne|hconst; lia..].
      * by rewrite lookup_delete_eq in Hk.
Qed.

Lemma kfree_spec (Q : unit → world (kheap V) → Prop) H b z s m :
  heap_rep s H → H !! b = Some z →
  (∀ s', heap_rep s' (delete b H) → kept (delete b H) s s' → Q tt (World s' m)) →
  wp (kfree b) Q (World s m).
Proof.
  intros Hrep Hb HQ. eapply kfree_split; [done..| |]; intros; by apply HQ.
Qed.

(** Freeing whole pages changes nothing but the state of the page allocator. *)
Lemma kfree_pages_spec (Q : unit → world (kheap V) → Prop) H b z s m :
  heap_rep s H → H !! b = Some z → LARGEST_SUBPAGE_SIZE < z →
  (∀ v', heap_rep (set_hvm (hcpu s, v') s) (delete b H) → kpages_gave (hvm s) b v' →
     Q tt (World (set_hvm (hcpu s, v') s) m)) →
  wp (kfree b) Q (World s m).
Proof. intros Hrep Hb Hz HQ. eapply kfree_split; [done..|lia|done]. Qed.

(** [kfree(NULL)] does nothing. *)
Lemma kfree_null (Q : unit → world (kheap V) → Prop) s m :
  Q tt (World s m) → wp (kfree 0) Q (World s m).
Proof. done. Qed.
End spec.
