(* ===== verification/KHeapProps.v ===== *)
(** * Correctness of the kernel heap

    The theorems about kern/lib/kheap.c: allocation and release as operations
    on the map of live blocks, safety of every client that keeps to its own
    blocks, absence of page leaks, the consistency checks, and the two ways in
    which the code itself can go wrong. *)

From S2P Require Import Prelude Bits Spl Ram KHeap KHeapInv KHeapOk KHeapSpec.

#[local] Ltac Zify.zify_post_hook ::= Z.div_mod_to_equations.

Section props.
Context {V : Type} `{Hops : PageOps V} `{Hlaws : !KPages V}.
Implicit Types s : kheap V.
Implicit Types H : gmap Z Z.

(** ** Facts about the live blocks of a heap *)

Lemma rep_apart s H b z b' z' :
  heap_rep s H → H !! b = Some z → H !! b' = Some z' → b ≠ b' → apart b z b' z'.
Proof.
  intros (A & R & Hok & _ & _ & HH) Hb%HH Hb'%HH. by eapply live_apart.
Qed.

Lemma rep_range s H b z :
  heap_rep s H → H !! b = Some z →
  16 ≤ z ∧ b mod 16 = 0 ∧ MIPS_KSEG0 ≤ b ∧ b + z ≤ MIPS_KSEG1.
Proof.
  intros (A & R & Hok & _ & _ & HH) Hb%HH.
  destruct (live_region _ _ _ _ _ Hok Hb) as (a & n & HR & ? & ? & ? & ?).
  destruct (kpages_region _ _ _ _ (ho_vm _ _ _ Hok) HR) as (_ & _ & ? & ?).
  split_and!; (done || lia).
Qed.

(** A block larger than any subpage block is a run of pages. *)
Lemma rep_page s H b z :
  heap_rep s H → H !! b = Some z → LARGEST_SUBPAGE_SIZE < z →
  b mod PAGE_SIZE = 0 ∧
  ∃ A R n, heap_ok s A R ∧ R !! b = Some n ∧ z = n * PAGE_SIZE.
Proof.
  intros (A & R & Hok & _ & _ & HH) Hb%HH Hz.
  destruct Hb as [(i & pg & o & Hin & _ & _ & _ & ->)|(n & HR & -> & _)].
  - destruct (pw_page _ _ (ho_wf _ _ _ Hok) _ _ Hin) as [Ht _ _].
    pose proof (blksz_max _ Ht). lia.
  - split; [|by exists A, R, n].
    by destruct (kpages_region _ _ _ _ (ho_vm _ _ _ Hok) HR) as (? & _).
Qed.

(** A client may write the words of its blocks. *)
Lemma rep_store s H b z x v :
  heap_rep s H → H !! b = Some z → b ≤ x < b + z →
  heap_rep (set_kmem (<[x := v]> (kmem s)) s) H.
Proof.
  intros (A & R & Hok & Hnf & Hc & HH) Hb Hx. exists A, R. split_and!; try done.
  pose proof Hok as [Hl Hbs Hu Ha Hs Hi Hf Hwf Hv]. split; try done.
  - by apply (hangs_ext s).
  - intros k Hk. apply (hangs_ext s); [done|done|by apply Hs].
  - intros i pg Hin. eapply flist_ext; [|by eapply Hf]. intros o Ho.
    apply lookup_insert_ne. intros He.
    eapply (free_outside _ _ _ b z); [exact Hok|by apply HH|done|done|]. by rewrite <- He.
Qed.

(** With no live block left, every page has been given back. *)
Lemma rep_empty s : heap_rep s ∅ → ∃ R, heap_ok s [] R.
Proof.
  intros (A & R & Hok & Hnf & _ & HH). exists R. destruct A as [|[i pg] A]; [done|exfalso].
  assert ((i, pg) ∈ (i, pg) :: A) as Hin by by left.
  destruct (pw_page _ _ (ho_wf _ _ _ Hok) _ _ Hin) as [Ht Hn Hg].
  specialize (Hnf i pg Hin).
  assert (¬ (offs (blksz (pg_type pg)) (Z.to_nat (nblk (pg_type pg))) ⊆ pg_free pg)) as Hex.
  { intros Hsub. apply NoDup_submseteq in Hsub;
      [|apply offs_nodup; pose proof (blksz_pos (pg_type pg)); lia].
    apply submseteq_length in Hsub. rewrite offs_length in Hsub. lia. }
  apply Hex. intros o Ho. destruct (decide (o ∈ pg_free pg)) as [|Hof]; [done|exfalso].
  apply offs_elem in Ho as (q & Hq & ->).
  assert (live ((i, pg) :: A) R (pg_addr pg + q * blksz (pg_type pg)) (blksz (pg_type pg)))
    as Hl%HH by (left; exists i, pg, (q * blksz (pg_type pg)); split_and!; try done;
                 exists q; split; [lia|done]).
  by rewrite lookup_empty in Hl.
Qed.

(** ** Clients

    A client allocates, writes words of its own blocks and frees them.  Its
    view is the blocks it holds, with the sizes it asked for, and the words it
    has written in them. *)

Inductive hop :=
| HMalloc (sz : Z)
| HStore (b off v : Z)
| HFree (b : Z).

Record client := Client { cblocks : gmap Z Z; cwords : gmap Z Z }.

Definition in_block (b sz x : Z) : Prop := b ≤ x ∧ x + 4 ≤ b + sz.

#[global] Instance in_block_dec b sz x : Decision (in_block b sz x).
Proof. unfold in_block. apply _. Defined.

Definition run_hop (c : client) (o : hop) : K (kheap V) client :=
  match o with
  | HMalloc sz =>
      r ← kmalloc sz;
      mret (if r =? 0 then c else Client (<[r := sz]> (cblocks c)) (cwords c))
  | HStore b off v =>
      match cblocks c !! b with
      | Some sz =>
          if decide (in_block b sz (b + off) ∧ off mod 4 = 0) then
            kstore (b + off) v;;
            mret (Client (cblocks c) (<[b + off := v]> (cwords c)))
          else mret c
      | None => mret c
      end
  | HFree b =>
      match cblocks c !! b with
      | Some sz =>
          kfree b;;
          mret (Client (delete b (cblocks c))
                  (filter (λ w, ¬ in_block b sz w.1) (cwords c)))
      | None => mret c
      end
  end.

Fixpoint run_hops (c : client) (os : list hop) : K (kheap V) client :=
  match os with
  | [] => mret c
  | o :: os => c' ← run_hop c o; run_hops c' os
  end.

Definition hop_ok (o : hop) : Prop :=
  match o with HMalloc sz => 0 ≤ sz ≤ KMALLOC_MAX | _ => True end.

(** The heap holds the client's blocks and, in them, the client's words. *)
Record client_ok (c : client) s : Prop := ClientOk {
  ck_rep : ∃ H, heap_rep s H ∧
    (∀ b sz, cblocks c !! b = Some sz → ∃ z, sz ≤ z ∧ H !! b = Some z) ∧
    (∀ b, cblocks c !! b = None → H !! b = None);
  ck_words x v : cwords c !! x = Some v →
    kmem s !! x = Some v ∧ ∃ b sz, cblocks c !! b = Some sz ∧ in_block b sz x
}.

Definition hop_post s (m : list bool) (c' : client) (w' : world (kheap V)) : Prop :=
  client_ok c' (wst w') ∧ hcpu (wst w') = hcpu s ∧ wmem w' = m.

Lemma run_malloc_ok c sz s m :
  client_ok c s → hop_ok (HMalloc sz) →
  wp (run_hop c (HMalloc sz)) (hop_post s m) (World s m).
Proof.
  intros Hc Ho. pose proof Hc as [(H & Hrep & Hsz & Hdom) Hw]. unfold hop_post; simpl.
  rewrite wp_bind. apply (kmalloc_spec _ _ H); [done|done|]. split.
  + intros s' Hrep' (Hcpu & Hmem). kstep. split_and!; [|done|done].
    split; [by exists H|]. intros x v Hx. destruct (Hw x v Hx) as (Hm & b & sz' & Hb & Hin).
    split; [|by exists b, sz']. destruct (Hsz b sz' Hb) as (z & ? & Hz).
    rewrite (Hmem b z x Hz); [done|]. unfold in_block in Hin. lia.
  + intros r z s' Hle Hr Hrep' (Hcpu & Hmem).
    assert (MIPS_KSEG0 ≤ r) as Hlo
      by (eapply (rep_range _ _ r z Hrep'); by rewrite lookup_insert_eq).
    rewrite wp_ret. cbn [wst wmem].
    rewrite (proj2 (Z.eqb_neq r 0)) by (unfold MIPS_KSEG0 in *; lia).
    split_and!; [|done|done].
    assert (∀ b sz', cblocks c !! b = Some sz' → b ≠ r) as Hne.
    { intros b sz' Hb ->. destruct (Hsz _ _ Hb) as (? & _ & ?). congruence. }
    split; cbn [cblocks cwords].
    * exists (<[r:=z]> H). split_and!; [done| |].
      -- intros b sz'. rewrite lookup_insert_Some. intros [(<- & <-)|(Hb & Hb')].
         ++ exists z. by rewrite lookup_insert_eq.
         ++ destruct (Hsz _ _ Hb') as (z' & ? & ?). exists z'. by rewrite lookup_insert_ne.
      -- intros b (? & ?)%lookup_insert_None. rewrite lookup_insert_ne by done. by apply Hdom.
    * intros x v Hx. destruct (Hw x v Hx) as (Hm & b & sz' & Hb & Hin). split.
      -- destruct (Hsz b sz' Hb) as (z' & ? & Hz).
         rewrite (Hmem b z' x Hz); [done|]. unfold in_block in Hin. lia.
      -- exists b, sz'. rewrite lookup_insert_ne; [done|]. intros <-. by eapply Hne.
Qed.

Lemma run_store_ok c b off v s m :
  client_ok c s → hop_ok (HStore b off v) →
  wp (run_hop c (HStore b off v)) (hop_post s m) (World s m).
Proof.
  intros Hc Ho. pose proof Hc as [(H & Hrep & Hsz & Hdom) Hw]. unfold hop_post; simpl.
  destruct (cblocks c !! b) as [sz|] eqn:Hb; [|done].
  case_decide as Hd; [|done]. destruct Hd as (Hin & Hm4).
  destruct (Hsz b sz Hb) as (z & Hle & Hz).
  destruct (rep_range _ _ _ _ Hrep Hz) as (? & ? & ? & ?).
  rewrite wp_bind. unfold in_block in Hin. apply kstore_spec.
  { unfold kseg0_word. repeat (apply andb_true_intro; split); lia. }
  kstep. split_and!; [|done|done]. split.
  + exists H. split_and!; [|done|done]. eapply rep_store; [done|done|lia].
  + cbn [cwords cblocks]. intros x v' Hx. hcbn.
    apply lookup_insert_Some in Hx as [(<- & <-)|(Hne & Hx)].
    * rewrite lookup_insert_eq. split; [done|]. by exists b, sz.
    * rewrite lookup_insert_ne by done. by apply Hw.
Qed.

Lemma run_free_ok c b s m :
  client_ok c s → hop_ok (HFree b) →
  wp (run_hop c (HFree b)) (hop_post s m) (World s m).
Proof.
  intros Hc Ho. pose proof Hc as [(H & Hrep & Hsz & Hdom) Hw]. unfold hop_post; simpl.
  destruct (cblocks c !! b) as [sz|] eqn:Hb; [|done].
  destruct (Hsz b sz Hb) as (z & Hle & Hz).
  rewrite wp_bind. eapply kfree_spec; [done|done|].
  intros s' Hrep' (Hcpu & Hmem). rewrite wp_ret. cbn [wst wmem].
  split_and!; [|done|done]. split; cbn [cblocks cwords].
  + exists (delete b H). split_and!; [done| |].
    * intros b' sz' (Hne & Hb')%lookup_delete_Some. rewrite lookup_delete_ne by done.
      by apply Hsz.
    * intros b'. rewrite !lookup_delete_None. intros [->|?]; [by left|].
      right. by apply Hdom.
  + intros x v (Hx & Hout)%map_lookup_filter_Some. simpl in Hout.
    destruct (Hw x v Hx) as (Hm & b' & sz' & Hb' & Hin).
    assert (b ≠ b') as Hne by (intros <-; simplify_eq; done). split.
    * destruct (Hsz b' sz' Hb') as (z' & ? & Hz'). unfold in_block in Hin.
      rewrite (Hmem b' z' x); [done|by rewrite lookup_delete_ne|lia].
    * exists b', sz'. by rewrite lookup_delete_ne.
Qed.

Lemma run_hop_ok c o s m :
  client_ok c s → hop_ok o → wp (run_hop c o) (hop_post s m) (World s m).
Proof.
  destruct o; [apply run_malloc_ok|apply run_store_ok|apply run_free_ok].
Qed.

Lemma run_hops_ok c os s m :
  client_ok c s → Forall hop_ok os →
  wp (run_hops c os) (λ c' w', client_ok c' (wst w') ∧ hcpu (wst w') = hcpu s) (World s m).
Proof.
  revert c s. induction os as [|o os IH]; intros c s Hc Hos; simpl; [by rewrite wp_ret|].
  apply Forall_cons in Hos as (Ho & Hos). rewrite wp_bind.
  eapply wp_mono; [by apply run_hop_ok|]. intros c' [s' m'] (Hc' & Hcpu & Hm).
  simpl in *. subst m'. eapply wp_mono; [by apply IH|]. intros c2 w2 (? & ?).
  split; [done|]. congruence.
Qed.

(** ** The consistency checks *)

Lemma checksubpage_loop (Q : Z * Z → world (kheap V) → Prop) A R i pg fl n fuel s m :
  heap_ok s A R → (i, pg) ∈ A → flist (kmem s) (pg_addr pg) fl →
  Forall (grid (pg_type pg)) fl → (length fl ≤ fuel)%nat →
  Q (0, n + Z.of_nat (length fl)) (World s m) →
  wp (kwhile fuel (λ t, negb (t.1 =? 0)) (λ t,
        let fla := t.1 in
        kassert ((pg_addr pg <=? fla) && (fla <? u32 (pg_addr pg + PAGE_SIZE)));;
        kassert (u32 (fla - pg_addr pg) mod blksz (pg_type pg) =? 0);;
        kassert (MIPS_KSEG0 <=? fla);;
        kassert (fla <? MIPS_KSEG1);;
        fl ← kload fla;
        mret (fl, t.2 + 1)) (match fl with [] => 0 | o :: _ => pg_addr pg + o end, n))
     Q (World s m).
Proof.
  intros Hok Hin. revert n fuel. induction fl as [|o fl IH]; intros n fuel Hfl Hg Hf HQ.
  { rewrite wp_kwhile_done by done. cbn [length Z.of_nat] in HQ. by rewrite Z.add_0_r in HQ. }
  destruct fuel as [|fuel]; [simpl in Hf; lia|].
  apply Forall_cons in Hg as (Hgo & Hg). destruct Hfl as (Hmo & Hfl).
  destruct (page_word _ _ _ _ _ o Hok Hin Hgo) as (Hw & Hor & Hu & Har).
  destruct (page_addr_range _ _ _ _ _ Hok Hin) as (_ & Hlo & Hhi).
  destruct (pw_page _ _ (ho_wf _ _ _ Hok) _ _ Hin) as [Ht _ _].
  unfold MIPS_KSEG0, MIPS_KSEG1 in *. hconst.
  rewrite wp_kwhile_step by (cbn [fst]; apply negb_true_iff, Z.eqb_neq; lia).
  cbn [fst snd].
  rewrite wp_bind, wp_kassert by (rewrite u32_id by lia; apply andb_true_intro; split; lia).
  replace (pg_addr pg + o - pg_addr pg) with o by lia.
  rewrite wp_bind, wp_kassert by (rewrite u32_id, grid_mod_0 by (done || lia); done).
  do 2 (rewrite wp_bind, wp_kassert by lia). rewrite wp_bind. eapply kload_spec; [done|done|]. rewrite wp_ret. cbn [fst snd].
  apply IH; [done|done|simpl in Hf; lia|].
  replace (n + 1 + Z.of_nat (length fl)) with (n + Z.of_nat (length (o :: fl)))
    by (cbn [length]; lia). done.
Qed.

Lemma checksubpage_spec (Q : unit → world (kheap V) → Prop) A R i pg s m :
  heap_ok s A R → (i, pg) ∈ A → 0 < curspl (hcpu s) → Q tt (World s m) →
  wp (checksubpage i) Q (World s m).
Proof.
  intros Hok Hin Hspl HQ.
  destruct (heap_pageref _ _ _ _ _ Hok Hin) as (p & Hp & Hpa & Hpb & _ & Hpo & Hpn).
  pose proof (pw_page _ _ (ho_wf _ _ _ Hok) _ _ Hin) as Hpk.
  pose proof (page_free_bound _ Hpk) as Hbound. destruct Hpk as [Ht Hnd Hg].
  pose proof (nblk_pos _ Ht).
  unfold checksubpage. kstep. rewrite wp_kassert by lia. rewrite wp_bind.
  eapply getpr_spec; [exact Hp|]. rewrite Hpa, Hpb, Hpo, Hpn.
  pose proof (ho_free _ _ _ Hok _ _ Hin) as Hfl.
  destruct (pg_free pg) as [|o fl] eqn:Hfree.
  - change (default INVALID_OFFSET (head [])) with INVALID_OFFSET.
    rewrite Z.eqb_refl. by rewrite wp_kassert.
  - change (default INVALID_OFFSET (head (o :: fl))) with o.
    assert (grid (pg_type pg) o) as Hgo by (by apply Forall_cons in Hg as (? & _)).
    destruct (page_word _ _ _ _ _ o Hok Hin Hgo) as (_ & Hor & Hu & _).
    unfold INVALID_OFFSET. rewrite (proj2 (Z.eqb_neq o 0xffff)) by (hconst; lia).
    rewrite wp_bind, wp_kassert by lia.
    rewrite wp_bind, (wp_kof _ _ _ _ (sizes_lget _ Ht)).
    rewrite wp_bind, wp_kassert by (rewrite grid_mod_0; [done|lia|done]).
    rewrite Hu, wp_bind.
    eapply (checksubpage_loop _ A R i pg (o :: fl) 0); [done..| |].
    + hconst. lia.
    + rewrite wp_kassert; [done|]. apply Z.eqb_refl.
Qed.

Lemma check_list_spec (Q : Z → world (kheap V) → Prop) next succ A R g l n s m :
  heap_ok s A R → hangs s next g l → 0 < curspl (hcpu s) →
  (∀ i p, lget (pagerefs s) i = Some p → rd s (next i) = Some (succ p)) →
  (∀ i, i ∈ l → ∃ pg, (i, pg) ∈ A) →
  0 ≤ n → n + Z.of_nat (length l) ≤ NPAGEREFS →
  Q (n + Z.of_nat (length l)) (World s m) →
  wp (check_list succ (head l) n) Q (World s m).
Proof.
  intros Hok Hh Hspl Hsucc Hl H0 Hn HQ. unfold check_list. rewrite wp_bind.
  assert (length l ≤ Z.to_nat NPAGEREFS)%nat as Hf by lia. revert Hf.
  generalize (Z.to_nat NPAGEREFS) as fuel. intros fuel Hf.
  revert g n fuel Hh H0 Hn HQ Hf. induction l as [|i l IH]; intros g n fuel Hh H0 Hn HQ Hf.
  { rewrite wp_kwhile_done by done. rewrite wp_ret. cbn [length] in HQ.
    by rewrite Z.add_0_r in HQ. }
  destruct fuel as [|fuel]; [simpl in Hf; lia|]. destruct Hh as (Hg & Hh).
  destruct (Hl i ltac:(by left)) as (pg & Hin).
  destruct (heap_pageref _ _ _ _ _ Hok Hin) as (p & Hp & _).
  rewrite length_cons in *.
  rewrite wp_kwhile_step by done. cbn [fst snd head]. kstep.
  eapply checksubpage_spec; [exact Hok|exact Hin|exact Hspl|].
  rewrite wp_bind, wp_kassert by lia.
  rewrite wp_bind. eapply getpr_spec; [exact Hp|]. rewrite wp_ret.
  pose proof (hangs_head _ _ _ _ Hh) as Hhd. rewrite (Hsucc _ _ Hp) in Hhd.
  injection Hhd as ->. eapply (IH _ (next i)); [exact Hh|lia|lia| |lia].
  by replace (n + 1 + Z.of_nat (length l)) with (n + Z.of_nat (S (length l))) by lia.
  Unshelve. intros j Hj. apply Hl. by right.
Qed.

(** The pages of a type below [n]. *)
Definition below (n : Z) (A : list (Z * page)) : list (Z * page) :=
  filter (λ x, (pg_type x.2 < n)%Z) A.

Lemma below_succ n A :
  Z.of_nat (length (below (n + 1) A)) =
  Z.of_nat (length (below n A)) + Z.of_nat (length (sameclass n A)).
Proof.
  unfold below, sameclass. rewrite length_fmap. induction A as [|x A IH]; [done|].
  rewrite !filter_cons. repeat case_decide; simpl length; lia.
Qed.

Lemma below_bounds A :
  Forall (λ x, 0 ≤ pg_type x.2 < NSIZES) A → below 0 A = [] ∧ below NSIZES A = A.
Proof.
  unfold below. induction 1 as [|x A Hx _ (IH & IH')]; [done|].
  rewrite !filter_cons, IH, IH'. repeat case_decide; [lia|lia|done|lia].
Qed.

Lemma below_length n A : (length (below n A) ≤ length A)%nat.
Proof. apply length_filter. Qed.

Lemma checksubpages_spec (Q : unit → world (kheap V) → Prop) A R s m :
  heap_ok s A R → 0 < curspl (hcpu s) → Q tt (World s m) →
  wp checksubpages Q (World s m).
Proof.
  intros Hok Hspl HQ. pose proof (pages_length _ _ (ho_wf _ _ _ Hok)) as Hlen.
  destruct (below_bounds A) as (Hb0 & Hb8).
  { apply Forall_forall. intros [i pg] Hin. by apply (pw_page _ _ (ho_wf _ _ _ Hok) i). }
  unfold checksubpages. kstep. rewrite wp_kassert by lia. rewrite wp_bind.
  apply (wp_kfold (λ i sc w, w = World s m ∧ sc = Z.of_nat (length (below i A)))).
  - by rewrite Hb0.
  - intros k sc w Hk (-> & ->). assert (0 ≤ k < NSIZES) as Hk' by (hconst; lia). kstep.
    pose proof (ho_same _ _ _ Hok k Hk') as Hh.
    rewrite (wp_kof _ _ _ _ (hangs_head _ _ _ _ Hh)).
    pose proof (below_succ k A) as Hsucc. pose proof (below_length (k + 1) A).
    eapply (check_list_spec _ AtNextSame _ A R); [done|exact Hh|done| | |lia|hconst; lia|].
    + intros i p Hp. simpl. by rewrite Hp.
    + intros i (pg & ? & _)%sameclass_elem. by exists pg.
    + split; [done|]. lia.
  - intros sc w (-> & ->). replace (0 + Z.of_nat (Z.to_nat NSIZES)) with NSIZES by done.
    rewrite Hb8. kstep. pose proof (ho_all _ _ _ Hok) as Hh.
    pose proof (hangs_head _ _ _ _ Hh) as Hhd. simpl in Hhd. injection Hhd as ->.
    eapply (check_list_spec _ AtNextAll _ A R); [done|exact Hh|done| | |lia| |].
    + intros i p Hp. simpl. by rewrite Hp.
    + intros i ([? pg] & -> & Hin)%list_elem_of_fmap. by exists pg.
    + rewrite length_fmap. hconst. lia.
    + rewrite length_fmap, wp_kassert by lia. done.
Qed.

(** ** Pointers into the middle of a block *)

(** The page search of [subpage_kfree] for an address inside a live block. *)
Lemma inside_page s A R b z d j q :
  heap_ok s A R → live A R b z → 0 ≤ d < z → (j, q) ∈ A →
  pg_addr q ≤ b + d < pg_addr q + PAGE_SIZE →
  ∃ o, grid (pg_type q) o ∧ b = pg_addr q + o ∧ z = blksz (pg_type q).
Proof.
  intros Hok Hl Hd Hin Hr. pose proof Hok as [_ _ _ _ _ _ _ Hwf Hv].
  pose proof (pw_region _ _ Hwf _ _ Hin) as HR.
  destruct Hl as [(i & pg & o & Hin' & Hg & Hnof & -> & ->)|(n & HRb & -> & Hnb)].
  - pose proof (pw_region _ _ Hwf _ _ Hin') as HR'.
    destruct (pw_page _ _ Hwf _ _ Hin') as [Ht _ _].
    pose proof (grid_range _ _ Ht Hg) as (? & ? & _).
    destruct (decide (pg_addr q = pg_addr pg)) as [He|He].
    + destruct (addr_inj _ _ _ _ _ _ Hwf Hin Hin' He) as (_ & ->). by exists o.
    + exfalso. destruct (kpages_apart _ _ _ _ _ _ Hv HR HR' He); hconst; lia.
  - exfalso. destruct (kpages_apart _ _ _ _ _ _ Hv HR HRb); [|hconst; lia..].
    intros He. apply Hnb. rewrite <- He. by eapply addr_elem.
Qed.

Lemma interior_mod a k o d :
  0 ≤ k → grid k o → 0 < d < blksz k → (a + o + d - a) mod blksz k ≠ 0.
Proof.
  intros Hk (q & _ & ->) Hd. replace (a + q * blksz k + d - a) with (d + q * blksz k) by lia.
  rewrite Z_mod_plus_full, Z.mod_small by lia. lia.
Qed.

Lemma free_block_panics A R i pg o d s m :
  heap_ok s A R → (i, pg) ∈ A → grid (pg_type pg) o → 0 < d < blksz (pg_type pg) →
  panics (free_block i (pg_addr pg) (pg_type pg) (pg_addr pg + o + d)) (World s m).
Proof.
  intros Hok Hin Hg Hd. destruct (pw_page _ _ (ho_wf _ _ _ Hok) _ _ Hin) as [Ht _ _].
  destruct (grid_range _ _ Ht Hg) as (? & ? & _). hconst.
  unfold free_block. eapply panics_bind.
  { rewrite (wp_kof _ _ _ _ (sizes_lget _ Ht)). by split. }
  rewrite u32_id by lia.
  replace (_ || _) with true; [done|]. symmetry. apply orb_true_intro. right.
  apply negb_true_iff, Z.eqb_neq. apply interior_mod; [lia|done|done].
Qed.

Lemma subpage_kfree_interior A R b z d s m :
  heap_ok s A R → cpu_ok (hcpu s) → live A R b z → 0 < d < z →
  panics (subpage_kfree (b + d)) (World s m) ∨
  (PAGE_SIZE ≤ z ∧ b mod PAGE_SIZE = 0 ∧
   wp (subpage_kfree (b + d)) (λ r w', r = -1 ∧ w' = World s m) (World s m)).
Proof.
  intros Hok Hc Hl Hd. set (s0 := set_hcpu (high (hcpu s)) s).
  assert (heap_ok s0 A R) as Hok0 by by apply heap_ok_cpu.
  pose proof (hangs_head _ _ _ _ (ho_all _ _ _ Hok0)) as Hhd. simpl in Hhd.
  injection Hhd as Hhd. pose proof (ho_wf _ _ _ Hok) as Hwf.
  pose proof (pages_length _ _ Hwf) as Hlen.
  destruct (decide (Exists (λ x, pg_addr x.2 ≤ b + d < pg_addr x.2 + PAGE_SIZE) A)) as [He|He].
  - left. apply Exists_exists in He as ([i pg] & Hin & Hr). simpl in Hr.
    destruct (inside_page _ _ _ _ _ d _ _ Hok Hl ltac:(lia) Hin Hr) as (o & Hg & -> & ->).
    unfold subpage_kfree. eapply panics_bind; [by apply hsplhigh_spec|].
    eapply panics_bind; [by rewrite wp_kget|]. fold s0. cbn [wst].
    change (allbase s0) with (allbase s). rewrite Hhd. eapply panics_bind.
    + eapply (freesearch_spec _ _ A R); [done|apply Hok0| |rewrite length_fmap; lia| |].
      * intros j ([? q] & -> & Hj)%list_elem_of_fmap. by exists q.
      * intros j q Hj Hrj. instantiate (1 := World s0 m).
        instantiate (1 := inr (i, pg_addr pg, pg_type pg)). split; [|done].
        assert (pg_addr q = pg_addr pg) as He.
        { destruct (decide (pg_addr q = pg_addr pg)) as [|Hne]; [done|exfalso].
          destruct (kpages_apart _ _ _ _ _ _ (ho_vm _ _ _ Hok) (pw_region _ _ Hwf _ _ Hj)
            (pw_region _ _ Hwf _ _ Hin) Hne); lia. }
        by destruct (addr_inj _ _ _ _ _ _ Hwf Hj Hin He) as (-> & ->).
      * intros Hnone. exfalso. eapply (Hnone i pg); [|done|done].
        apply list_elem_of_fmap. by exists (i, pg).
    + unfold panics, mbind, K_bind.
      by rewrite (free_block_panics A R i pg o d s0 m Hok0 Hin Hg Hd).
  - right. assert (∀ i pg, (i, pg) ∈ A → ¬ (pg_addr pg ≤ b + d < pg_addr pg + PAGE_SIZE)) as Hout.
    { intros i pg Hin Hr. apply He, Exists_exists. by exists (i, pg). }
    assert (PAGE_SIZE ≤ z ∧ b mod PAGE_SIZE = 0) as (Hz & Hb).
    { destruct Hl as [(j & q & o & Hin & Hg & _ & -> & ->)|(n & HRb & -> & _)].
      - exfalso. destruct (pw_page _ _ Hwf _ _ Hin) as [Ht _ _].
        pose proof (grid_range _ _ Ht Hg) as (? & ? & _). apply (Hout _ _ Hin). lia.
      - destruct (kpages_region _ _ _ _ (ho_vm _ _ _ Hok) HRb) as (? & ? & _).
        split; [hconst; lia|done]. }
    split_and!; [done|done|]. unfold subpage_kfree. rewrite wp_bind.
    apply hsplhigh_spec. kstep. fold s0. change (allbase s0) with (allbase s). rewrite Hhd.
    eapply (freesearch_spec _ _ A R); [done|apply Hok0| |rewrite length_fmap; lia| |].
    + intros j ([? q] & -> & Hj)%list_elem_of_fmap. by exists q.
    + intros i pg Hin Hr. by destruct (Hout _ _ Hin).
    + intros _. rewrite wp_bind. eapply hsplx_spec; [exact Hc|done|]. rewrite wp_ret.
      split; [done|]. f_equal. by destruct s.
Qed.

(** ** The heap at boot: the static variables are zero *)

Definition boot_heap (c : cpu) (v : V) : kheap V :=
  KHeap (replicate (Z.to_nat NPAGEREFS) (Pageref None None 0 0 0))
        (replicate (Z.to_nat INUSE_WORDS) 0)
        (replicate (Z.to_nat NSIZES) None) None ∅ c v.

Lemma wbit_zero n i : wbit (replicate n 0) i = false.
Proof.
  unfold wbit. destruct (lget (replicate n 0) (i / 32)) as [w|] eqn:Hw; [|done].
  unfold lget in Hw. case_decide; [|done]. apply lookup_replicate in Hw as (-> & _).
  apply Z.bits_0.
Qed.

Lemma boot_heap_rep c v : cpu_ok c → kpages_ok v ∅ → heap_rep (boot_heap c v) ∅.
Proof.
  intros Hc Hv. exists [], ∅. split_and!; [|by intros ? ? ?%elem_of_nil|done|].
  - split; try done; try (by intros ? ? ?%elem_of_nil).
    + split; [done| |].
      * apply Forall_replicate. lia.
      * intros i Hi. etrans; [apply wbit_zero|]. symmetry.
        by apply bool_decide_eq_false, not_elem_of_nil.
    + intros k Hk. cbn [sameclass filter list_filter fmap list_fmap hangs rd boot_heap sizebases]. rewrite lget_lookup by lia. apply lookup_replicate.
      split; [done|]. lia.
    + split; try (by constructor); by intros ? ? ?%elem_of_nil.
  - intros b z. rewrite lookup_empty. split; [done|].
    intros [(i & pg & o & ?%elem_of_nil & _)|(n & Hn & _)]; [done|].
    by rewrite lookup_empty in Hn.
Qed.

(** ** Theorems *)


(** C13: [kfree] of a live block removes exactly that block and leaves the
    contents of all others alone. *)
Theorem kfree_releases s H b z m (Hrep : heap_rep s H) (Hb : H !! b = Some z) :
  wp (kfree b) (λ _ w', heap_rep (wst w') (delete b H) ∧ kept (delete b H) s (wst w'))
     (World s m).
Proof. by eapply kfree_spec; [done|done|]. Qed.


(** When the last block has been freed the subpage allocator holds no page:
    its lists are empty and no pageref is in use. *)
Theorem kheap_no_leak s (Hrep : heap_rep s ∅) :
  allbase s = None ∧ sizebases s = replicate (Z.to_nat NSIZES) None ∧
  pagerefs_inuse s = replicate (Z.to_nat INUSE_WORDS) 0.
Proof.
  destruct (rep_empty s Hrep) as (R & [Hl Hb Hu Ha Hs _ _ _ _]). split_and!.
  - simpl in Ha. congruence.
  - apply list_eq_same_length with (Z.to_nat NSIZES); [by rewrite length_replicate|done|].
    intros k x y Hk Hx [-> _]%lookup_replicate. specialize (Hs (Z.of_nat k)).
    simpl in Hs. rewrite lget_of_nat, Hx in Hs. hconst. assert (Some x = Some None) by (apply Hs; lia).
    congruence.
  - destruct Hu as [Hul Hur Hub].
    apply list_eq_same_length with (Z.to_nat INUSE_WORDS); [by rewrite length_replicate|done|].
    intros k x y Hk Hx [-> _]%lookup_replicate. rewrite Forall_lookup in Hur.
    specialize (Hur k x Hx). apply Z.bits_inj'. intros j Hj. rewrite Z.bits_0.
    destruct (decide (j < 32)); [|apply (bits_above x 32); lia].
    specialize (Hub (Z.of_nat k * 32 + j)). hconst. unfold wbit in Hub.
    rewrite Z.div_add_l, Z.div_small, Z.add_0_r, lget_of_nat, Hx in Hub by lia.
    rewrite Z.add_comm, Z.mod_add, Z.mod_small in Hub by lia.
    rewrite Hub by lia. by apply bool_decide_eq_false, not_elem_of_nil.
Qed.

(** C27: The allocator's own consistency checks (compiled in with SLOWER) pass
    in every reachable state, at raised interrupt level. *)
Theorem kheap_checks_hold s H m (Hrep : heap_rep s H) (Hspl : 0 < curspl (hcpu s)) :
  wp checksubpages (λ _ w', w' = World s m) (World s m).
Proof. destruct Hrep as (A & R & Hok & _). by eapply checksubpages_spec. Qed.

(** [kfree] of a pointer into the middle of a live block panics, unless the
    pointer is page-aligned inside a block of several pages. *)
Theorem kfree_interior_panics s H b z d m (Hrep : heap_rep s H) (Hb : H !! b = Some z)
    (Hd : 0 < d < z) (Hpg : d mod PAGE_SIZE ≠ 0) :
  panics (kfree (b + d)) (World s m).
Proof.
  destruct (rep_range _ _ _ _ Hrep Hb) as (_ & _ & Hlo & _).
  destruct Hrep as (A & R & Hok & _ & Hc & HH). apply HH in Hb.
  unfold kfree. rewrite (proj2 (Z.eqb_neq (b + d) 0)) by (unfold MIPS_KSEG0 in *; lia).
  destruct (subpage_kfree_interior A R b z d s m Hok Hc Hb Hd) as [Hp|(Hz & Hb0 & Hw)].
  - unfold panics, mbind, K_bind in *. by rewrite Hp.
  - eapply panics_bind; [exact Hw|]. simpl (-1 =? 0). cbn [negb].
    unfold panics, mbind, K_bind. unfold kassert.
    rewrite (proj2 (Z.eqb_neq _ 0)); [done|]. hconst. lia.
Qed.
End props.

(** ** With dumbvm's pages *)

(** A request within a page of the top of the address space wraps around in
    the page count: [kmalloc] answers it with a pointer to the first free page
    without reserving any memory, so the next allocation gets the same page. *)
Theorem kmalloc_huge_wraps (s : kheap ram) sz m (Hc : cpu_ok (hcpu s)) (Hr : ram_ok (hvm s))
    (Hsz : 2 ^ 32 - PAGE_SIZE < sz < 2 ^ 32) :
  kmalloc sz (World s m) = Ok (MIPS_KSEG0 + firstpaddr (hvm s), World s m).
Proof.
  apply wp_Ok. unfold kmalloc, LARGEST_SUBPAGE_SIZE. hconst.
  rewrite (proj2 (Z.leb_le 2048 sz)) by lia.
  assert (u32 (sz + 4096) = sz + 4096 - 2 ^ 32) as ->.
  { unfold u32. symmetry. apply (Z.mod_unique _ _ 1); lia. }
  rewrite u32_id, Z.div_small by lia. change (i32 0) with 0.
  rewrite wp_bind. unfold halloc_kpages. rewrite wp_zoom. simpl kpages_alloc. unfold alloc_kpages.
  rewrite wp_bind. cbn [wst wmem].
  apply getppages_spec; [done|done|unfold MAXPAGES; lia| |]; intros Hfit; hconst;
    [destruct Hr; lia|].
  rewrite (proj2 (Z.eqb_neq (firstpaddr (hvm s)) 0)) by (destruct Hr; lia).
  rewrite wp_ret, kvaddr by done. cbn [wst wmem].
  rewrite (proj2 (Z.eqb_neq _ 0)) by (destruct Hr; unfold MIPS_KSEG0; lia).
  rewrite wp_ret, Z.mul_0_l, Z.add_0_r. split; [done|].
  by destruct s as [prs ws sb ab mem c [f l]].
Qed.

(** ** A concrete machine: 256k of free memory, interrupts enabled *)

Definition cpu0 : cpu := Cpu 0xff01 0.

Definition ram0 : ram := Ram 0x40000 0x80000.

Definition heap0 : kheap ram := boot_heap cpu0 ram0.

Lemma cpu0_ok : cpu_ok cpu0.
Proof. by split. Qed.

Lemma ram0_ok : ram_ok ram0.
Proof. by split. Qed.

Lemma ram0_stolen : stolen ram0 ∅.
Proof. split; [apply ram0_ok|..]; intros ? ? *; by rewrite lookup_empty. Qed.

Lemma heap0_rep : heap_rep heap0 ∅.
Proof. apply boot_heap_rep; [apply cpu0_ok|apply ram0_stolen]. Qed.

(** The heap after an allocation, and the pointer it returned. *)
Definition res_heap (s : kheap ram) (o : res (Z * world (kheap ram))) : kheap ram :=
  match o with Ok (_, w) => wst w | _ => s end.

Definition res_ptr (o : res (Z * world (kheap ram))) : Z :=
  match o with Ok (r, _) => r | _ => 0 end.

Lemma first_block s sz m :
  heap_rep s ∅ → 0 ≤ sz ≤ KMALLOC_MAX → res_ptr (kmalloc sz (World s m)) ≠ 0 →
  ∃ z, sz ≤ z ∧ heap_rep (res_heap s (kmalloc sz (World s m)))
                         {[res_ptr (kmalloc sz (World s m)) := z]}.
Proof.
  intros Hrep Hsz Hne.
  assert (wp (kmalloc sz) (λ r w', r = 0 ∨ ∃ z, sz ≤ z ∧ heap_rep (wst w') (<[r := z]> ∅))
             (World s m)) as Hwp.
  { apply (kmalloc_spec _ _ ∅); [done|done|]. split; [by left|].
    intros r z s' Hz _ Hrep' _. right. by exists z. }
  apply wp_eq in Hwp as (r & w' & Hk & Hr). rewrite Hk in *. simpl in *.
  destruct Hr as [->|Hr]; [done|exact Hr].
Qed.

(** The machine after [kmalloc(100)]. *)
Abbreviation heap1 := (res_heap heap0 (kmalloc 100 (World heap0 []))).

Abbreviation blk1 := (res_ptr (kmalloc 100 (World heap0 []))).

Lemma blk1_value : blk1 = 0x80040f80.
Proof. vm_compute. reflexivity. Qed.

Lemma heap1_rep : ∃ z, 100 ≤ z ∧ heap_rep heap1 {[blk1 := z]}.
Proof.
  apply (first_block heap0 100 [] heap0_rep).
  - unfold KMALLOC_MAX; cbn [kpages_max dumbvm_pages]; unfold MAXPAGES. hconst. lia.
  - rewrite blk1_value. lia.
Qed.


Lemma kfree_releases_witness : ∃ z,
  wp (kfree blk1) (λ _ w', heap_rep (wst w') (delete blk1 {[blk1 := z]}) ∧
    kept (delete blk1 {[blk1 := z]}) heap1 (wst w')) (World heap1 []).
Proof.
  destruct heap1_rep as (z & _ & Hrep). exists z.
  apply (kfree_releases heap1 {[blk1 := z]} blk1 z [] Hrep). apply lookup_singleton_eq.
Defined.

(** A client that fills a block, allocates another and frees the first. *)
Definition demo : list hop :=
  [HMalloc 100; HStore 0x80040f80 8 42; HMalloc 3000; HMalloc 100;
   HStore 0x80041000 0 7; HFree 0x80040f80].


Lemma kheap_no_leak_witness :
  allbase heap0 = None ∧ sizebases heap0 = replicate (Z.to_nat NSIZES) None ∧
  pagerefs_inuse heap0 = replicate (Z.to_nat INUSE_WORDS) 0.
Proof. apply (kheap_no_leak heap0 heap0_rep). Defined.

Lemma heap1_high_rep : ∃ H, heap_rep (set_hcpu (high cpu0) heap1) H.
Proof.
  destruct heap1_rep as (z & _ & Hrep). exists {[blk1 := z]}.
  apply heap_rep_cpu; [done|]. apply high_ok, cpu0_ok.
Qed.

Lemma kheap_checks_hold_witness :
  wp checksubpages (λ _ w', w' = World (set_hcpu (high cpu0) heap1) [])
    (World (set_hcpu (high cpu0) heap1) []).
Proof.
  destruct heap1_high_rep as (H & Hrep).
  apply (kheap_checks_hold (set_hcpu (high cpu0) heap1) H [] Hrep). done.
Defined.

Lemma kfree_interior_panics_witness : panics (kfree (blk1 + 4)) (World heap1 []).
Proof.
  destruct heap1_rep as (z & Hz & Hrep).
  apply (kfree_interior_panics heap1 {[blk1 := z]} blk1 z 4 [] Hrep);
    [apply lookup_singleton_eq|lia|done].
Defined.

Lemma kmalloc_huge_wraps_witness :
  kmalloc 0xfffff800 (World heap0 []) = Ok (0x80040000, World heap0 []).
Proof.
  apply (kmalloc_huge_wraps heap0 0xfffff800 [] cpu0_ok ram0_ok). hconst. lia.
Defined.
