(* ===== verification/Array.v ===== *)
(** * Resizeable array of pointers (kern/lib/array.c)

    [array V] is [struct array] with its buffer; a cell that was never
    written is [None].  [array_rep a l] relates it to the list of its visible
    cells, and the theorems show that each operation is the list operation
    array.h documents, on the success and on the out-of-memory path. *)

From S2P Require Import Prelude.

Record array (V : Type) : Type := Array {
  num : Z;
  max : Z;
  v : option (list (option V))
}.

Arguments Array {V} num max v.
Arguments num {V} a.
Arguments max {V} a.
Arguments v {V} a.

Section array.
Context {V : Type}.
Implicit Types a : array V.

Definition array_create {S} : K S (option (array V)) :=
  ok ← kmalloc_ok;
  if negb ok then mret None else mret (Some (Array 0 0 None)).

Definition array_getnum : K (array V) Z :=
  a ← kget; mret (num a).

(** [a->v[index]] for reading: NULL, out of range and indeterminate cells
    are undefined behaviour. *)
Definition cell_read (a : array V) (index : Z) : option V :=
  buf ← v a; c ← lget buf index; c.

Definition array_getguy (index : Z) : K (array V) V :=
  a ← kget;
  kassert (num a <=? max a);;
  kassert ((0 <=? index) && (index <? num a));;
  kof (cell_read a index).

(** [while (nguys > newmax) newmax = (newmax+1)*2;] *)
Definition grow_max {S} (nguys newmax : Z) : K S Z :=
  kwhile 33 (λ newmax, newmax <? nguys)
    (λ newmax, mret (i32 (i32 (newmax + 1) * 2))) newmax.

(** A fresh buffer of [n] pointers as [kmalloc(n * sizeof(void * ))] gives it. *)
Definition fresh_cells (n : Z) : list (option V) :=
  replicate (Z.to_nat (u32 (n * 4) / 4)) None.

(** One round of [newv[i] = a->v[i]]. *)
Definition copy_cell (ov : option (list (option V))) (i : Z)
    (newv : list (option V)) : option (list (option V)) :=
  buf ← ov; c ← lget buf i; lset newv i c.

Definition array_preallocate (nguys : Z) : K (array V) Z :=
  a ← kget;
  kassert ((0 <=? num a) && (num a <=? max a));;
  newmax ← grow_max nguys (max a);
  ok ← kmalloc_ok;
  if negb ok then mret ENOMEM else
  newv ← kfold (Z.to_nat (num a)) 0
           (λ i newv, kof (copy_cell (v a) i newv)) (fresh_cells newmax);
  kput (Array (num a) newmax (Some newv));;
  mret 0.

Definition array_setsize (nguys : Z) : K (array V) Z :=
  a ← kget;
  kassert ((0 <=? num a) && (num a <=? max a));;
  result ← (if max a <? nguys then array_preallocate nguys
            else if (nguys =? 0) && (16 <? max a) then
              kassert (bool_decide (is_Some (v a)));;
              kput (Array (num a) 0 None);;
              mret 0
            else mret 0);
  if negb (result =? 0) then mret result else
  a ← kget;
  kput (Array nguys (max a) (v a));;
  mret 0.

(** [a->v[index] = ptr]. *)
Definition cell_write (index : Z) (ptr : V) : K (array V) unit :=
  a ← kget;
  buf ← kof (v a);
  buf' ← kof (lset buf index (Some ptr));
  kput (Array (num a) (max a) (Some buf')).

Definition array_setguy (index : Z) (ptr : V) : K (array V) unit :=
  a ← kget;
  kassert (num a <=? max a);;
  kassert ((0 <=? index) && (index <? num a));;
  cell_write index ptr.

Definition array_add (guy : V) : K (array V) Z :=
  a ← kget;
  let ix := num a in
  result ← array_setsize (i32 (ix + 1));
  if negb (result =? 0) then mret result else
  cell_write ix guy;;
  mret 0.

(** [memmove(v+index, v+index+1, nmove*sizeof(void * ))] within one buffer. *)
Definition move_down (buf : list (option V)) (index nmove : Z)
    : option (list (option V)) :=
  if decide (0 ≤ index ∧ 0 ≤ nmove ∧ index + 1 + nmove ≤ Z.of_nat (length buf)) then
    Some (take (Z.to_nat index) buf
            ++ take (Z.to_nat nmove) (drop (Z.to_nat (index + 1)) buf)
            ++ drop (Z.to_nat (index + nmove)) buf)
  else None.

Definition array_remove (index : Z) : K (array V) unit :=
  a ← kget;
  kassert (num a <=? max a);;
  kassert ((0 <=? index) && (index <? num a));;
  let nmove := num a - (index + 1) in
  buf ← kof (v a);
  buf' ← kof (move_down buf index nmove);
  kput (Array (num a - 1) (max a) (Some buf')).

(** [array_destroy] frees the buffer and the structure; destroying an array
    that is already gone is undefined. *)
Definition array_destroy : K (option (array V)) unit :=
  o ← kget;
  _ ← kof o;
  kput None.

(** ** Representation *)

(** Sizes below this bound keep [newmax * sizeof(void * )] within a [size_t]. *)
Definition ARRAY_LIMIT : Z := 2 ^ 28.

Definition buf_of (a : array V) : list (option V) := default [] (v a).

(** [array_rep a l]: [a] is well formed and its visible cells are [l]. *)
Definition array_rep (a : array V) (l : list (option V)) : Prop :=
  num a = Z.of_nat (length l) ∧ 0 ≤ num a ≤ max a ∧ max a < 2 ^ 30 ∧
  Z.of_nat (length (buf_of a)) = max a ∧
  take (length l) (buf_of a) = l.

Lemma array_rep_create : array_rep (Array 0 0 None) [].
Proof. unfold array_rep; simpl; repeat split; lia. Qed.

Lemma array_rep_intro n m b l :
  n = Z.of_nat (length l) → n ≤ m < 2 ^ 30 → Z.of_nat (length b) = m →
  take (length l) b = l → array_rep (Array n m (Some b)) l.
Proof. unfold array_rep; simpl. intuition lia. Qed.

Lemma grow_max_spec {S} nguys m (Q : Z → world S → Prop) w :
  0 ≤ m < 2 ^ 30 → nguys ≤ ARRAY_LIMIT →
  (∀ r, nguys ≤ r → m ≤ r < 2 ^ 30 → Q r w) →
  wp (grow_max nguys m) Q w.
Proof.
  unfold ARRAY_LIMIT. intros Hm Hn HQ. unfold grow_max.
  apply (wp_kwhile (λ t w', w' = w ∧ m ≤ t < 2 ^ 30)
           (λ t, Z.to_nat (31 - Z.log2 (t + 2)))).
  - pose proof (Z.log2_nonneg (m + 2)). lia.
  - split; [done|lia].
  - intros t w' Hlt%Z.ltb_lt (-> & Ht). rewrite wp_ret.
    rewrite (i32_id (t + 1)), i32_id by lia.
    replace ((t + 1) * 2 + 2) with (2 * (t + 2)) by lia.
    assert (Z.log2 (t + 2) < 30) by (apply Z.log2_lt_pow2; lia).
    rewrite Z.log2_double by lia. split; [split; [done|]|]; lia.
  - intros t w' Hge%Z.ltb_ge (-> & Ht). apply HQ; lia.
Qed.

Lemma copy_loop_spec {S} a l newmax (Q : list (option V) → world S → Prop) w :
  array_rep a l → max a ≤ newmax < 2 ^ 30 →
  (∀ newv, Z.of_nat (length newv) = newmax → take (length l) newv = l → Q newv w) →
  wp (kfold (Z.to_nat (num a)) 0
        (λ i newv, kof (copy_cell (v a) i newv)) (fresh_cells newmax)) Q w.
Proof.
  intros (Hnum & Hle & Hlim & Hbuf & Htake) Hnew HQ.
  apply (wp_kfold (λ i newv w', w' = w ∧ Z.of_nat (length newv) = newmax ∧
           take (Z.to_nat i) newv = take (Z.to_nat i) (buf_of a))).
  - split; [done|]. unfold fresh_cells. rewrite length_replicate.
    rewrite u32_id by lia. rewrite Z.div_mul by lia. split; [lia|done].
  - intros i newv w' Hi (-> & Hlen & Heq).
    unfold buf_of in *. destruct (v a) as [buf|]; simpl in *; [|lia].
    destruct (lget_is_Some buf i) as [c Hc]; [lia|].
    rewrite (wp_kof _ (<[Z.to_nat i := c]> newv)).
    2: { unfold copy_cell; simpl. rewrite Hc; simpl. apply lset_Some. lia. }
    rewrite length_insert. do 2 (split; [done|]).
    rewrite lget_lookup in Hc by lia.
    replace (Z.to_nat (i + 1)) with (Datatypes.S (Z.to_nat i)) by lia.
    rewrite (take_S_r _ _ c) by (apply list_lookup_insert_eq; lia).
    rewrite (take_S_r buf _ c) by done.
    rewrite take_insert_ge by lia. by rewrite Heq.
  - intros newv w' (-> & Hlen & Heq). apply HQ; [done|].
    rewrite Hnum in Heq. by rewrite Z.add_0_l, !Nat2Z.id, Htake in Heq.
Qed.

(** Changing [num] within the buffer exposes a prefix of it. *)
Lemma array_rep_resize a l n :
  array_rep a l → 0 ≤ n ≤ max a →
  array_rep (Array n (max a) (v a)) (take (Z.to_nat n) (buf_of a)).
Proof.
  intros (Hnum & Hle & Hlim & Hbuf & Htake) Hn.
  unfold array_rep, buf_of in *; simpl. rewrite length_take.
  repeat split; try lia. f_equal. lia.
Qed.

Lemma array_rep_v a l : array_rep a l → 0 < max a → v a = Some (buf_of a).
Proof.
  intros (_ & _ & _ & Hbuf & _) ?. unfold buf_of in *.
  destruct (v a); simpl in *; [done|lia].
Qed.

(** Writing one visible cell. *)
Lemma cell_write_spec a l ix g Q w :
  wst w = a → array_rep a l → 0 ≤ ix < num a →
  (∀ a', array_rep a' (<[Z.to_nat ix := Some g]> l) → num a' = num a →
     max a' = max a → Q tt (World a' (wmem w))) →
  wp (cell_write ix g) Q w.
Proof.
  intros Hw Hrep Hix HQ. unfold cell_write. kstep. rewrite Hw.
  pose proof Hrep as (Hnum & Hle & Hlim & Hbuf & Htake).
  rewrite (wp_kof _ (buf_of a)) by (eapply array_rep_v; eauto; lia). kstep.
  rewrite (wp_kof _ (<[Z.to_nat ix := Some g]> (buf_of a)))
    by (apply lset_Some; lia). kstep.
  apply HQ; [|done..]. apply array_rep_intro; rewrite ?length_insert; try lia.
  by rewrite take_insert_lt, Htake by lia.
Qed.

Lemma array_preallocate_spec a l nguys Q w :
  wst w = a → array_rep a l → nguys ≤ ARRAY_LIMIT →
  (∀ m, false ∈ wmem w → m `suffix_of` wmem w → Q ENOMEM (World a m)) →
  (∀ a' m, array_rep a' l → nguys ≤ max a' → max a ≤ max a' →
     m `suffix_of` wmem w → Q 0 (World a' m)) →
  wp (array_preallocate nguys) Q w.
Proof.
  intros Hw Hrep Hn HQ1 HQ2. pose proof Hrep as (Hnum & Hle & Hlim & Hbuf & Htake).
  unfold array_preallocate. kstep. rewrite Hw. kassert_tac.
  apply grow_max_spec; [lia|done|]. intros newmax Hge Hnew. kstep.
  apply wp_kmalloc; intros m; kstep; [intros Hm|rewrite Hw; apply HQ1].
  eapply copy_loop_spec; [done|lia|]. intros newv Hlen Heq. kstep.
  apply HQ2; simpl; [|lia|lia|done]. apply array_rep_intro; [done|lia|done..].
Qed.

Lemma array_setsize_spec a l nguys Q w :
  wst w = a → array_rep a l → 0 ≤ nguys ≤ ARRAY_LIMIT →
  (∀ m, max a < nguys → false ∈ wmem w → m `suffix_of` wmem w →
     Q ENOMEM (World a m)) →
  (∀ a' l' m, array_rep a' l' → num a' = nguys →
     take (length l) l' = take (Z.to_nat nguys) l →
     m `suffix_of` wmem w → Q 0 (World a' m)) →
  wp (array_setsize nguys) Q w.
Proof.
  intros Hw Hrep Hn HQ1 HQ2. pose proof Hrep as (Hnum & Hle & Hlim & Hbuf & Htake).
  unfold array_setsize. kstep. rewrite Hw. kassert_tac.
  destruct (max a <? nguys) eqn:Hmax; kstep.
  - apply Z.ltb_lt in Hmax. apply (array_preallocate_spec a l); [done|done|lia| |].
    + intros m ? ?. kstep. by apply HQ1.
    + intros a' m Hrep' Hge Hge' Hm. kstep.
      eapply HQ2; [eapply array_rep_resize; [done|lia]|done| |done].
      destruct Hrep' as (? & ? & ? & ? & Htake').
      rewrite take_take. rewrite Nat.min_l by lia. rewrite Htake'.
      by rewrite take_ge by lia.
  - apply Z.ltb_ge in Hmax.
    destruct ((nguys =? 0) && (16 <? max a)) eqn:Hz; kstep.
    + apply andb_true_iff in Hz as [Hz ?]. apply Z.eqb_eq in Hz as ->.
      rewrite (array_rep_v a l) by (done || lia). kstep.
      eapply (HQ2 _ []); simpl; [|done|by rewrite take_nil|done].
      unfold array_rep; simpl. repeat split; lia.
    + simpl. kstep. rewrite Hw. eapply HQ2; [eapply array_rep_resize; [done|lia]|done| |done].
      rewrite take_take. rewrite <- Htake at 2. rewrite take_take.
      f_equal. lia.
Qed.

Lemma array_add_spec a l g Q w :
  wst w = a → array_rep a l → num a < ARRAY_LIMIT →
  (∀ m, num a = max a → false ∈ wmem w → m `suffix_of` wmem w →
     Q ENOMEM (World a m)) →
  (∀ a' m, array_rep a' (l ++ [Some g]) → (num a < max a → max a' = max a) →
     m `suffix_of` wmem w → Q 0 (World a' m)) →
  wp (array_add g) Q w.
Proof.
  intros Hw Hrep Hlt HQ1 HQ2. pose proof Hrep as (Hnum & Hle & Hlim & Hbuf & Htake).
  unfold ARRAY_LIMIT in *. unfold array_add. kstep. rewrite Hw.
  rewrite i32_id by lia.
  destruct (decide (num a < max a)) as [Hroom|Hfull].
  - unfold array_setsize. kstep. rewrite Hw. kassert_tac.
    rewrite (proj2 (Z.ltb_ge _ _)) by lia.
    rewrite (proj2 (Z.eqb_neq (num a + 1) 0)) by lia. simpl. kstep.
    rewrite Hw. eapply cell_write_spec;
      [done|eapply (array_rep_resize a l (num a + 1)); [done|lia]|simpl; lia|].
    intros a' Hrep' Hnum' Hmax'. simpl in *. kstep. apply HQ2; [|done|done].
    replace (l ++ [Some g]) with
      (<[Z.to_nat (num a) := Some g]> (take (Z.to_nat (num a + 1)) (buf_of a)));
      [done|].
    destruct (lget_is_Some (buf_of a) (num a)) as [c Hc]; [lia|].
    rewrite lget_lookup in Hc by lia.
    replace (Z.to_nat (num a + 1)) with (S (Z.to_nat (num a))) by lia.
    rewrite (take_S_r _ _ _ Hc). rewrite Hnum, Nat2Z.id, Htake.
    rewrite insert_app_r_alt by lia. by rewrite Nat.sub_diag.
  - apply (array_setsize_spec a l); [done|done|unfold ARRAY_LIMIT; lia| |].
    + intros m _ ? ?. kstep. apply HQ1; [lia|done..].
    + intros a' l' m Hrep' Hnum' Heq Hm. kstep.
      pose proof Hrep' as (Hn' & ? & ? & ? & ?).
      eapply cell_write_spec; [done|done|simpl; lia|].
      intros a'' Hrep'' _ _. simpl in *. kstep. apply HQ2; [|lia|done].
      replace (l ++ [Some g]) with (<[Z.to_nat (num a) := Some g]> l'); [done|].
      rewrite (take_ge l) in Heq by lia. rewrite <- Heq.
      rewrite Hnum, Nat2Z.id. destruct (nth_lookup_or_length l' (length l) None)
        as [Hc|]; [|lia].
      rewrite <- (take_drop (length l) l') at 1. rewrite (drop_S _ _ _ Hc).
      rewrite insert_app_r_alt by (rewrite length_take; lia).
      rewrite length_take, Nat.min_l, Nat.sub_diag by lia. simpl.
      rewrite drop_ge by lia. done.
Qed.

Lemma array_getguy_spec a l ix g Q w :
  wst w = a → array_rep a l → lget l ix = Some (Some g) → Q g w →
  wp (array_getguy ix) Q w.
Proof.
  intros Hw (Hnum & Hle & Hlim & Hbuf & Htake) Hg HQ.
  pose proof (lget_Some_range _ _ _ Hg).
  unfold array_getguy. kstep. rewrite Hw. do 2 kassert_tac.
  rewrite (wp_kof _ g); [done|]. unfold cell_read, buf_of in *.
  destruct (v a) as [buf|]; simpl in *; [|lia].
  rewrite lget_lookup in Hg |- * by lia. rewrite <- Htake in Hg.
  apply lookup_take_Some in Hg as [-> _]. done.
Qed.

Lemma array_remove_spec a l ix Q w :
  wst w = a → array_rep a l → 0 ≤ ix < Z.of_nat (length l) →
  (∀ a', array_rep a' (delete (Z.to_nat ix) l) → max a' = max a →
     Q tt (World a' (wmem w))) →
  wp (array_remove ix) Q w.
Proof.
  intros Hw Hrep Hix HQ. pose proof Hrep as (Hnum & Hle & Hlim & Hbuf & Htake).
  unfold array_remove. kstep. rewrite Hw. do 2 kassert_tac.
  rewrite (wp_kof _ (buf_of a)) by (eapply array_rep_v; eauto; lia). kstep.
  unfold move_down. rewrite decide_True by lia.
  rewrite (wp_kof _ _ _ _ eq_refl). kstep. apply HQ; [|done].
  assert (length (delete (Z.to_nat ix) l) = Z.to_nat (num a - 1)) as Hdel.
  { rewrite length_delete by (apply lookup_lt_is_Some_2; lia). lia. }
  apply array_rep_intro; [lia|lia|len|].
  rewrite Hdel, delete_take_drop. rewrite <- Htake at 1 2.
  rewrite take_take, take_app_ge by len. f_equal; [f_equal; lia|].
  rewrite length_take, skipn_firstn_comm.
  rewrite take_app_le by len. rewrite take_take. f_equal; [lia|f_equal; lia].
Qed.

(** A sequence of [array_add] calls and the results they return. *)
Fixpoint array_add_all (gs : list V) : K (array V) (list Z) :=
  match gs with
  | [] => mret []
  | g :: gs => r ← array_add g; rs ← array_add_all gs; mret (r :: rs)
  end.

(** Room for [n] cells is kept by additions that stay below [n]. *)
Lemma array_add_all_spec gs n a l w :
  wst w = a → array_rep a l → n ≤ max a → n ≤ ARRAY_LIMIT →
  Z.of_nat (length l + length gs) ≤ n →
  wp (array_add_all gs)
     (λ rs w', Forall (λ r, r = 0) rs ∧
               array_rep (wst w') (l ++ (Some <$> gs))) w.
Proof.
  revert a l w. induction gs as [|g gs IH]; intros a l w Hw Hrep Hmax Hlim Hroom;
    simpl in *; kstep.
  { rewrite Hw, app_nil_r. split; [constructor|done]. }
  pose proof Hrep as (Hnum & Hle & _).
  apply (array_add_spec a l); [done|done|lia|lia|].
  intros a' m Hrep' Hmax' _. kstep. specialize (Hmax' ltac:(lia)).
  eapply wp_mono; [eapply (IH a' (l ++ [Some g])); [done|done|lia|lia|len]|].
  intros rs w' [Hrs Hrep'']. kstep. split; [by constructor|].
  by rewrite <- app_assoc in Hrep''.
Qed.
End array.

(** ** Properties *)

(** [array_add] on a well-formed array appends the pointer and returns 0,
    or returns ENOMEM, which happens only when the buffer is full and a
    [kmalloc] fails, and then leaves the array exactly as it was; it never fails an assertion or writes
    outside the buffer, whatever [kmalloc] answers. *)
Theorem array_add_appends V (a : array V) l g m :
  array_rep a l → num a < ARRAY_LIMIT →
  wp (array_add g)
     (λ r w', (r = 0 ∧ array_rep (wst w') (l ++ [Some g])) ∨
              (r = ENOMEM ∧ num a = max a ∧ false ∈ m ∧ wst w' = a)) (World a m).
Proof. intros. apply (array_add_spec a l); auto. Qed.

Definition three : array Z :=
  Array 3 6 (Some [Some 10; Some 20; Some 30; None; None; None]).

Lemma three_rep : array_rep three [Some 10; Some 20; Some 30].
Proof. apply array_rep_intro; simpl; lia || reflexivity. Qed.

Lemma array_add_appends_witness :
  array_rep three [Some 10; Some 20; Some 30] ∧
  wp (array_add 40)
     (λ r w', (r = 0 ∧ array_rep (wst w') [Some 10; Some 20; Some 30; Some 40]) ∨
              (r = ENOMEM ∧ num three = max three ∧ false ∈ [false] ∧ wst w' = three))
     (World three [false]).
Proof.
  split; [exact three_rep|].
  apply (array_add_appends Z three [Some 10; Some 20; Some 30] 40 [false]);
    [exact three_rep|unfold ARRAY_LIMIT; simpl; lia].
Defined.

(** [array_remove] removes exactly the element at the index and moves the
    later ones down by one, without failing an assertion. *)
Theorem array_remove_deletes V (a : array V) l ix m :
  array_rep a l → 0 ≤ ix < Z.of_nat (length l) →
  wp (array_remove ix)
     (λ _ w', array_rep (wst w') (delete (Z.to_nat ix) l) ∧ wmem w' = m)
     (World a m).
Proof. intros. apply (array_remove_spec a l); auto. Qed.

Lemma array_remove_deletes_witness :
  array_rep three [Some 10; Some 20; Some 30] ∧
  wp (array_remove 1)
     (λ _ w', array_rep (wst w') [Some 10; Some 30] ∧ wmem w' = [])
     (World three []).
Proof.
  split; [exact three_rep|].
  apply (array_remove_deletes Z three [Some 10; Some 20; Some 30] 1 []);
    [exact three_rep|simpl; lia].
Defined.

(** once [array_preallocate n] has returned 0, [array_add] succeeds until
    the array holds [n] elements, even if every later [kmalloc] fails. *)
Theorem array_preallocate_guarantees_adds V (a : array V) l n gs m later :
  array_rep a l → n ≤ ARRAY_LIMIT → Z.of_nat (length l + length gs) ≤ n →
  wp (array_preallocate n)
     (λ r w', r = 0 →
        wp (array_add_all gs)
           (λ rs w'', Forall (λ r, r = 0) rs ∧
                      array_rep (wst w'') (l ++ (Some <$> gs)))
           (World (wst w') later)) (World a m).
Proof.
  intros Hrep Hlim Hroom. apply (array_preallocate_spec a l); [done..| |].
  - done.
  - intros a' m' Hrep' Hmax _ _ _. by apply (array_add_all_spec gs n a' l).
Qed.

Lemma array_preallocate_guarantees_adds_witness :
  wp (array_preallocate 5)
     (λ r w', r = 0 →
        wp (array_add_all [40; 50])
           (λ rs w'', Forall (λ r, r = 0) rs ∧
              array_rep (wst w'')
                [Some 10; Some 20; Some 30; Some 40; Some 50])
           (World (wst w') [false; false; false])) (World three []).
Proof.
  apply (array_preallocate_guarantees_adds Z three [Some 10; Some 20; Some 30]
           5 [40; 50] [] [false; false; false]);
    [exact three_rep|unfold ARRAY_LIMIT; lia|simpl; lia].
Defined.
