(* ===== verification/Queue.v ===== *)
(** * Queue of pointers as a ring buffer (kern/lib/queue.c)

    [queue_rep q l] relates the ring buffer to the list of its elements, oldest
    first.  [q_addtail] and [q_grow] call each other; the model gives the
    recursion a depth, and the theorems show that depth 2 is enough. *)

From S2P Require Import Prelude.

Record queue (V : Type) : Type := Queue {
  size : Z;
  nextwrite : Z;
  nextread : Z;
  data : list (option V)
}.

Arguments Queue {V} size nextwrite nextread data.
Arguments size {V} q.
Arguments nextwrite {V} q.
Arguments nextread {V} q.
Arguments data {V} q.

Section queue.
Context {V : Type}.
Implicit Types q : queue V.

(** [q->data[i]] for reading. *)
Definition slot_read (d : list (option V)) (i : Z) : option V :=
  c ← lget d i; c.

(** The buffer [kmalloc(n * sizeof(void * ))] hands back. *)
Definition fresh_slots (n : Z) : list (option V) :=
  replicate (Z.to_nat (u32 (n * 4) / 4)) None.

(** [while (nsize < targetsize) { nsize *= 2; assert(nsize > 0); }] *)
Definition grow_size {S} (targetsize nsize : Z) : K S Z :=
  kwhile 32 (λ nsize, nsize <? targetsize)
    (λ nsize, let nsize := i32 (nsize * 2) in
              kassert (0 <? nsize);; mret nsize) nsize.

(** [q_grow], given the [q_addtail] it calls. *)
Definition q_grow_with (addtail : V → K (queue V) Z) (targetsize : Z)
    : K (queue V) Z :=
  q ← kget;
  let olddata := data q in
  let onr := nextread q in
  let onw := nextwrite q in
  let osize := size q in
  nsize ← grow_size targetsize (size q);
  ok ← kmalloc_ok;
  if negb ok then mret ENOMEM else
  kput (Queue nsize 0 0 (fresh_slots nsize));;
  kwhile (Z.to_nat osize) (λ i, negb (i =? onw))
    (λ i, ptr ← kof (slot_read olddata i);
          result ← addtail ptr;
          kassert (result =? 0);;
          mret (Z.rem (i32 (i + 1)) osize)) onr;;
  mret 0.

Fixpoint q_addtail_rec (depth : nat) (ptr : V) : K (queue V) Z :=
  match depth with
  | O => kdiverge
  | S depth =>
      q ← kget;
      kassert (0 <? size q);;
      let nextnext := Z.rem (i32 (nextwrite q + 1)) (size q) in
      result ← (if nextnext =? nextread q
                then q_grow_with (q_addtail_rec depth) (i32 (size q + 1))
                else mret 0);
      if negb (result =? 0) then mret result else
      q ← kget;
      let nextnext := Z.rem (i32 (nextwrite q + 1)) (size q) in
      d ← kof (lset (data q) (nextwrite q) (Some ptr));
      kput (Queue (size q) nextnext (nextread q) d);;
      mret 0
  end.

Definition q_addtail (ptr : V) : K (queue V) Z := q_addtail_rec 2 ptr.

Definition q_grow (targetsize : Z) : K (queue V) Z :=
  q_grow_with q_addtail targetsize.

Definition q_create {S} (sz : Z) : K S (option (queue V)) :=
  ok ← kmalloc_ok;
  if negb ok then mret None else
  ok ← kmalloc_ok;
  if negb ok then mret None else
  mret (Some (Queue sz 0 0 (fresh_slots sz))).

Definition q_preallocate (sz : Z) : K (queue V) Z :=
  q ← kget;
  kassert (0 <? size q);;
  if size q <? sz then q_grow sz else mret 0.

Definition q_empty : K (queue V) bool :=
  q ← kget; mret (nextwrite q =? nextread q).

Definition q_remhead : K (queue V) V :=
  q ← kget;
  kassert (0 <? size q);;
  empty ← q_empty;
  kassert (negb empty);;
  ret ← kof (slot_read (data q) (nextread q));
  kput (Queue (size q) (nextwrite q) (Z.rem (i32 (nextread q + 1)) (size q)) (data q));;
  mret ret.

Definition get_head : K (queue V) V :=
  q ← kget;
  kassert (0 <? size q);;
  empty ← q_empty;
  kassert (negb empty);;
  kof (slot_read (data q) (nextread q)).

(** Frees the buffer and the queue, which must be empty. *)
Definition q_destroy : K (option (queue V)) unit :=
  o ← kget;
  q ← kof o;
  kassert (nextwrite q =? nextread q);;
  kput None.

Definition q_getstart : K (queue V) Z := q ← kget; mret (nextread q).

Definition q_getend : K (queue V) Z := q ← kget; mret (nextwrite q).

Definition q_getsize : K (queue V) Z := q ← kget; mret (size q).

Definition q_getguy (index : Z) : K (queue V) V :=
  q ← kget;
  kassert ((0 <=? index) && (index <? size q));;
  kof (slot_read (data q) index).

(** ** Representation *)

(** Sizes up to this bound keep the doubling and the byte count of the buffer
    within 32 bits. *)
Definition QUEUE_LIMIT : Z := 2 ^ 28.

Definition queue_rep (q : queue V) (l : list V) : Prop :=
  0 < size q ∧ Z.of_nat (length (data q)) = size q ∧
  0 ≤ nextread q < size q ∧ 0 ≤ nextwrite q < size q ∧
  Z.of_nat (length l) = (nextwrite q - nextread q) mod size q ∧
  ∀ k x, l !! k = Some x →
    lget (data q) ((nextread q + Z.of_nat k) mod size q) = Some (Some x).

Lemma mod_once x s : 0 < s → 0 ≤ x < 2 * s → x mod s = if x <? s then x else x - s.
Proof.
  intros. destruct (Z.ltb_spec x s); [apply Z.mod_small; lia|].
  symmetry. apply (Z.mod_unique _ _ 1); lia.
Qed.

Lemma sub_mod_once x y s :
  0 ≤ x < s → 0 ≤ y < s → (x - y) mod s = if y <=? x then x - y else x - y + s.
Proof.
  intros. destruct (Z.leb_spec y x); [apply Z.mod_small; lia|].
  symmetry. apply (Z.mod_unique _ _ (-1)); lia.
Qed.

(** The successor index, as the code computes it. *)
Lemma ring_next i s :
  0 ≤ i < s → s < 2 ^ 31 → Z.rem (i32 (i + 1)) s = if i + 1 =? s then 0 else i + 1.
Proof.
  intros. rewrite i32_id by lia. rewrite Z.rem_mod_nonneg by lia.
  rewrite mod_once by lia. destruct (Z.ltb_spec (i + 1) s), (Z.eqb_spec (i + 1) s); lia.
Qed.

(** Case analysis on where the ring wraps. *)
Ltac ring_cases :=
  repeat match goal with
  | H : context [_ mod _] |- _ => first [rewrite sub_mod_once in H by lia
                                        | rewrite mod_once in H by lia]
  | |- context [_ mod _] => first [rewrite sub_mod_once by lia
                                  | rewrite mod_once by lia]
  | H : context [?x <? ?y] |- _ => destruct (Z.ltb_spec x y)
  | |- context [?x <? ?y] => destruct (Z.ltb_spec x y)
  | H : context [?x <=? ?y] |- _ => destruct (Z.leb_spec x y)
  | |- context [?x <=? ?y] => destruct (Z.leb_spec x y)
  | |- context [?x =? ?y] => destruct (Z.eqb_spec x y)
  | H : context [?x =? ?y] |- _ => destruct (Z.eqb_spec x y)
  end; try lia.

Lemma queue_rep_length q l : queue_rep q l → Z.of_nat (length l) < size q.
Proof.
  intros (? & ? & ? & ? & -> & _). apply Z.mod_pos_bound. lia.
Qed.

(** The ring index of position [k] is [nextwrite] exactly at the end. *)
Lemma queue_rep_index q l k :
  queue_rep q l → 0 ≤ k ≤ Z.of_nat (length l) →
  ((nextread q + k) mod size q =? nextwrite q) = (k =? Z.of_nat (length l)).
Proof.
  intros Hrep Hk. pose proof (queue_rep_length _ _ Hrep).
  destruct Hrep as (? & ? & ? & ? & Hlen & _). ring_cases.
Qed.

Lemma queue_rep_empty q l :
  queue_rep q l → (nextwrite q =? nextread q) = bool_decide (l = []).
Proof.
  intros Hrep. pose proof (queue_rep_index q l 0 Hrep ltac:(lia)) as Hi.
  destruct Hrep as (? & ? & ? & ? & _). rewrite Z.mod_small in Hi by lia.
  rewrite Z.add_0_r in Hi. rewrite Z.eqb_sym, Hi.
  by destruct l.
Qed.

(** The queue is full, in the sense of the code, when one slot is left. *)
Lemma queue_rep_full q l :
  queue_rep q l → size q < 2 ^ 31 →
  (Z.rem (i32 (nextwrite q + 1)) (size q) =? nextread q)
  = (Z.of_nat (length l) =? size q - 1).
Proof.
  intros (? & ? & ? & ? & Hlen & _) ?. rewrite ring_next by lia. ring_cases.
Qed.

Lemma queue_rep_put q l p :
  queue_rep q l → size q < 2 ^ 31 → Z.of_nat (length l) < size q - 1 →
  queue_rep (Queue (size q) (Z.rem (i32 (nextwrite q + 1)) (size q)) (nextread q)
               (<[Z.to_nat (nextwrite q) := Some p]> (data q))) (l ++ [p]).
Proof.
  intros Hrep Hlt Hroom. pose proof Hrep as (Hs & Hd & Hr & Hw & Hlen & Hdata).
  unfold queue_rep; simpl. rewrite ring_next by lia.
  rewrite length_insert, length_app; simpl. split_and!; try lia.
  1, 2, 3: ring_cases.
  intros k x Hk. pose proof (queue_rep_index q l (Z.of_nat k) Hrep) as Hi.
  apply lookup_app_Some in Hk as [Hk|[Hge Hk]].
  - pose proof (lookup_lt_Some _ _ _ Hk) as Hlt'.
    rewrite lget_insert_ne; [by apply Hdata|lia|].
    destruct (Z.eqb_spec (Z.of_nat k) (Z.of_nat (length l))); lia.
  - apply list_lookup_singleton_Some in Hk as [Hk0 <-].
    replace ((nextread q + Z.of_nat k) mod size q) with (nextwrite q) by lia.
    rewrite lget_insert_eq; [done|lia].
Qed.

(** Adding with room to spare: no allocation, depth 1 is enough. *)
Lemma q_addtail_room d q l p Q w :
  wst w = q → queue_rep q l → size q < 2 ^ 31 → Z.of_nat (length l) < size q - 1 →
  (∀ q', queue_rep q' (l ++ [p]) → size q' = size q → Q 0 (World q' (wmem w))) →
  wp (q_addtail_rec (S d) p) Q w.
Proof.
  intros Hw Hrep Hlt Hroom HQ. pose proof Hrep as (Hs & Hd & Hr & Hwr & _).
  simpl. kstep. rewrite Hw. kassert_tac.
  rewrite (queue_rep_full q l) by done.
  rewrite (proj2 (Z.eqb_neq _ _)) by lia. kstep. rewrite Hw.
  klset.
  apply HQ; [by apply queue_rep_put|done].
Qed.

Lemma grow_size_spec {S} target n (Q : Z → world S → Prop) w :
  0 < n < 2 ^ 30 → target ≤ QUEUE_LIMIT + 1 →
  (∀ r, target ≤ r → n ≤ r < 2 ^ 30 → r ≤ Z.max n (2 * (target - 1)) → Q r w) →
  wp (grow_size target n) Q w.
Proof.
  unfold QUEUE_LIMIT. intros Hn Ht HQ. unfold grow_size.
  apply (wp_kwhile (λ t w', w' = w ∧ n ≤ t < 2 ^ 30 ∧ t ≤ Z.max n (2 * (target - 1)))
           (λ t, Z.to_nat (31 - Z.log2 t))).
  - pose proof (Z.log2_nonneg n). lia.
  - split; [done|lia].
  - intros t w' Hlt%Z.ltb_lt (-> & Hle & Hmax). kstep.
    rewrite (i32_id (t * 2)) by lia. kassert_tac.
    assert (Z.log2 t < 30) by (apply Z.log2_lt_pow2; lia).
    replace (t * 2) with (2 * t) by lia. rewrite Z.log2_double by lia.
    split; [split; [done|]|]; lia.
  - intros t w' Hge%Z.ltb_ge (-> & ? & ?). apply HQ; lia.
Qed.

Lemma queue_rep_fresh n : 0 < n < 2 ^ 30 → queue_rep (Queue n 0 0 (fresh_slots n)) [].
Proof.
  intros. unfold queue_rep, fresh_slots; simpl.
  rewrite length_replicate, u32_id, Z.div_mul by lia.
  split_and!; try lia; [by rewrite Z.mod_0_l by lia|done].
Qed.

(** Distance left to [nextwrite] after [k] steps from [nextread]. *)
Lemma queue_rep_distance q l k :
  queue_rep q l → 0 ≤ k ≤ Z.of_nat (length l) →
  (nextwrite q - (nextread q + k) mod size q) mod size q = Z.of_nat (length l) - k.
Proof.
  intros Hrep Hk. pose proof (queue_rep_length _ _ Hrep).
  destruct Hrep as (? & ? & ? & ? & Hlen & _).
  rewrite Zminus_mod_idemp_r.
  replace (nextwrite q - (nextread q + k)) with (nextwrite q - nextread q - k) by lia.
  rewrite <- Zminus_mod_idemp_l, <- Hlen. apply Z.mod_small. lia.
Qed.

Lemma q_grow_spec d q l target Q w :
  wst w = q → queue_rep q l → size q ≤ QUEUE_LIMIT →
  size q < target ≤ QUEUE_LIMIT + 1 →
  (∀ m, false ∈ wmem w → m `suffix_of` wmem w → Q ENOMEM (World q m)) →
  (∀ q' m, queue_rep q' l → target ≤ size q' < 2 ^ 30 →
     size q' ≤ Z.max (size q) (2 * (target - 1)) → m `suffix_of` wmem w →
     Q 0 (World q' m)) →
  wp (q_grow_with (q_addtail_rec (S d)) target) Q w.
Proof.
  intros Hw Hrep Hlim Htgt HQ1 HQ2. pose proof Hrep as (Hs & Hd & Hr & Hwr & Hlen & Hdata).
  pose proof (queue_rep_length _ _ Hrep) as Hll.
  unfold QUEUE_LIMIT in *. unfold q_grow_with. kstep. rewrite Hw.
  apply grow_size_spec; [lia|unfold QUEUE_LIMIT; lia|]. intros nsize Hge Hns Hmax. kstep.
  apply wp_kmalloc; intros m; kstep; [intros Hm|rewrite Hw; apply HQ1].
  apply (wp_kwhile
    (λ i w', ∃ k, (k ≤ length l)%nat ∧ i = (nextread q + Z.of_nat k) mod size q ∧
       queue_rep (wst w') (take k l) ∧ size (wst w') = nsize ∧ wmem w' = m)
    (λ i, Z.to_nat ((nextwrite q - i) mod size q))).
  - rewrite <- Hlen. lia.
  - exists 0%nat. rewrite Z.add_0_r, Z.mod_small by lia.
    split_and!; [lia|done|apply queue_rep_fresh; lia|done|done].
  - intros i w' Hi (k & Hk & -> & Hrep' & Hsz & Hm'). rewrite (queue_rep_index q l) in Hi by (done || lia).
    destruct (Z.eqb_spec (Z.of_nat k) (Z.of_nat (length l))); [done|].
    destruct (lookup_lt_is_Some_2 l k) as [x Hx]; [lia|].
    kstep. rewrite (wp_kof _ x) by (unfold slot_read; by rewrite (Hdata k x Hx)). kstep.
    eapply q_addtail_room; [done|done|lia|rewrite length_take; lia|].
    intros q' Hrep'' Hsz''. kstep. kassert_tac.
    assert (Z.rem (i32 ((nextread q + Z.of_nat k) mod size q + 1)) (size q)
            = (nextread q + Z.of_nat (S k)) mod size q) as ->.
    { pose proof (Z.mod_pos_bound (nextread q + Z.of_nat k) (size q)).
      rewrite i32_id, Z.rem_mod_nonneg by lia. rewrite Zplus_mod_idemp_l. f_equal. lia. }
    split.
    + exists (S k). split_and!; [lia|done| |lia|done]. by rewrite (take_S_r _ _ x).
    + rewrite !(queue_rep_distance q l) by (done || lia). lia.
  - intros i w' Hi (k & Hk & -> & Hrep' & Hsz & Hm'). rewrite (queue_rep_index q l) in Hi by (done || lia).
    destruct (Z.eqb_spec (Z.of_nat k) (Z.of_nat (length l))); [|done].
    rewrite take_ge in Hrep' by lia. kstep. destruct w' as [q' m']. apply HQ2; simpl in *; [done|lia|lia|by subst].
Qed.

Lemma q_addtail_spec d q l p Q w :
  wst w = q → queue_rep q l → size q ≤ QUEUE_LIMIT →
  (∀ m, Z.of_nat (length l) = size q - 1 → false ∈ wmem w →
     m `suffix_of` wmem w → Q ENOMEM (World q m)) →
  (∀ q' m, queue_rep q' (l ++ [p]) →
     (Z.of_nat (length l) < size q - 1 → size q' = size q) →
     size q' ≤ Z.max (size q) (2 * (Z.of_nat (length l) + 1)) →
     m `suffix_of` wmem w → Q 0 (World q' m)) →
  wp (q_addtail_rec (S (S d)) p) Q w.
Proof.
  intros Hw Hrep Hlim HQ1 HQ2. pose proof Hrep as (Hs & Hd & Hr & Hwr & Hlen & Hdata).
  pose proof (queue_rep_length _ _ Hrep). pose proof Hlim as Hlim'. unfold QUEUE_LIMIT in Hlim'.
  destruct (decide (Z.of_nat (length l) < size q - 1)).
  { eapply q_addtail_room; [done|done|lia|lia|].
    intros q' Hrep' Hsz. apply HQ2; [done|done|lia|done]. }
  change (q_addtail_rec (S (S d)) p) with
    (q ← kget; kassert (0 <? size q);;
     let nextnext := Z.rem (i32 (nextwrite q + 1)) (size q) in
     result ← (if nextnext =? nextread q
               then q_grow_with (q_addtail_rec (S d)) (i32 (size q + 1)) else mret 0);
     if negb (result =? 0) then mret result else
     q ← kget;
     let nextnext := Z.rem (i32 (nextwrite q + 1)) (size q) in
     d ← kof (lset (data q) (nextwrite q) (Some p));
     kput (Queue (size q) nextnext (nextread q) d);; mret 0 : K (queue V) Z).
  kstep. rewrite Hw. kassert_tac. rewrite (queue_rep_full q l) by (done || lia).
  rewrite (proj2 (Z.eqb_eq _ _)) by lia. rewrite i32_id by lia.
  eapply q_grow_spec; [done|done|done|unfold QUEUE_LIMIT; lia| |].
  - intros m ? ?. kstep. apply HQ1; [lia|done..].
  - intros q' m Hrep' Hsz Hmax Hm. kstep. pose proof Hrep' as (_ & Hd' & _ & Hw' & _). klset.
    apply HQ2; [apply queue_rep_put; [done|lia|lia]|lia|simpl; lia|done].
Qed.

Lemma q_remhead_spec q x l Q w :
  wst w = q → queue_rep q (x :: l) → size q < 2 ^ 31 →
  (∀ q', queue_rep q' l → size q' = size q → Q x (World q' (wmem w))) →
  wp q_remhead Q w.
Proof.
  intros Hw Hrep Hlt HQ. pose proof Hrep as (Hs & Hd & Hr & Hwr & Hlen & Hdata).
  unfold q_remhead, q_empty. kstep. rewrite Hw. kassert_tac.
  rewrite ?Hw, (queue_rep_empty q _ Hrep). kstep. rewrite wp_kassert by done. kstep.
  pose proof (Hdata 0%nat x eq_refl) as Hx. rewrite Z.add_0_r, Z.mod_small in Hx by lia.
  rewrite (wp_kof _ x) by (unfold slot_read; by rewrite Hx). kstep.
  apply HQ; [|done]. unfold queue_rep; simpl in *. rewrite ring_next by lia.
  split_and!; [done|done|clear Hdata Hx; ring_cases..|].
  intros k y Hy. rewrite <- (Hdata (S k) y Hy). f_equal.
  pose proof (queue_rep_length _ _ Hrep). pose proof (lookup_lt_Some _ _ _ Hy).
  clear Hdata Hx. simpl in *. ring_cases.
Qed.

Lemma get_head_spec q x l Q w :
  wst w = q → queue_rep q (x :: l) → Q x w → wp get_head Q w.
Proof.
  intros Hw Hrep HQ. pose proof Hrep as (Hs & Hd & Hr & Hwr & Hlen & Hdata).
  unfold get_head, q_empty. kstep. rewrite Hw. kassert_tac.
  rewrite ?Hw, (queue_rep_empty q _ Hrep). kstep. rewrite wp_kassert by done. kstep.
  pose proof (Hdata 0%nat x eq_refl) as Hx. rewrite Z.add_0_r, Z.mod_small in Hx by lia.
  rewrite (wp_kof _ x) by (unfold slot_read; by rewrite Hx). done.
Qed.

Lemma q_remhead_empty q w : wst w = q → queue_rep q [] → panics q_remhead w.
Proof.
  intros Hw Hrep. pose proof Hrep as (Hs & _). destruct w as [q' m]; simpl in *; subst q'.
  unfold panics, q_remhead, q_empty, kget, mbind, K_bind, kassert; simpl.
  rewrite (proj2 (Z.ltb_lt _ _)) by done. simpl. by rewrite (queue_rep_empty q _ Hrep).
Qed.

Lemma q_preallocate_spec q l n Q w :
  wst w = q → queue_rep q l → size q ≤ QUEUE_LIMIT → n ≤ QUEUE_LIMIT →
  (∀ m, size q < n → false ∈ wmem w → m `suffix_of` wmem w →
     Q ENOMEM (World q m)) →
  (∀ q' m, queue_rep q' l → n ≤ size q' → size q ≤ size q' →
     size q' ≤ Z.max (size q) (2 * (n - 1)) →
     m `suffix_of` wmem w → Q 0 (World q' m)) →
  wp (q_preallocate n) Q w.
Proof.
  intros Hw Hrep Hlim Hn HQ1 HQ2. pose proof Hrep as (Hs & _).
  unfold QUEUE_LIMIT in *. unfold q_preallocate. kstep. rewrite Hw. kassert_tac.
  destruct (size q <? n) eqn:Hc.
  - apply Z.ltb_lt in Hc. apply (q_grow_spec 1 q l); unfold QUEUE_LIMIT; [done|done|lia|lia| |].
    + intros m ? ?. by apply HQ1.
    + intros q' m Hrep' Hsz Hmax Hm. apply HQ2; [done|lia|lia|lia|done].
  - apply Z.ltb_ge in Hc. kstep. destruct w as [q' m]; simpl in *; subst q'.
    apply HQ2; [done|lia|lia|lia|done].
Qed.

Lemma q_empty_spec q l Q w :
  wst w = q → queue_rep q l →
  Q (bool_decide (l = [])) w → wp q_empty Q w.
Proof.
  intros Hw Hrep HQ. unfold q_empty. kstep. rewrite Hw, (queue_rep_empty q l Hrep).
  destruct l; by rewrite ?bool_decide_true, ?bool_decide_false in * by done.
Qed.

(** ** First-in first-out specification

    A client adds elements and removes one whenever the queue is not empty.
    [fifo l ops evs l'] is what a queue promises to such a client. *)

Inductive qop : Type := Add (x : V) | Rem.

Inductive qev : Type := Added | Full | Got (x : V) | Nothing.

Inductive fifo : list V → list qop → list qev → list V → Prop :=
| fifo_nil l : fifo l [] [] l
| fifo_add l x ops evs l' :
    fifo (l ++ [x]) ops evs l' → fifo l (Add x :: ops) (Added :: evs) l'
| fifo_full l x ops evs l' :
    fifo l ops evs l' → fifo l (Add x :: ops) (Full :: evs) l'
| fifo_rem l x ops evs l' :
    fifo l ops evs l' → fifo (x :: l) (Rem :: ops) (Got x :: evs) l'
| fifo_none ops evs l' :
    fifo [] ops evs l' → fifo [] (Rem :: ops) (Nothing :: evs) l'.

Definition run_op (o : qop) : K (queue V) qev :=
  match o with
  | Add x => r ← q_addtail x; mret (if r =? 0 then Added else Full)
  | Rem => e ← q_empty;
           if (e : bool) then mret Nothing else x ← q_remhead; mret (Got x)
  end.

Fixpoint run_ops (ops : list qop) : K (queue V) (list qev) :=
  match ops with
  | [] => mret []
  | o :: ops => e ← run_op o; es ← run_ops ops; mret (e :: es)
  end.

Lemma run_ops_fifo ops q l w :
  wst w = q → queue_rep q l → size q ≤ QUEUE_LIMIT →
  2 * Z.of_nat (length l + length ops) ≤ QUEUE_LIMIT →
  wp (run_ops ops)
     (λ evs w', ∃ l', fifo l ops evs l' ∧ queue_rep (wst w') l' ∧
                      (Full ∈ evs → false ∈ wmem w)) w.
Proof.
  revert q l w. induction ops as [|o ops IH]; intros q l w Hw Hrep Hsz Hlim; simpl in *.
  { kstep. exists l. rewrite Hw. split_and!; [constructor|done|by intros ?%elem_of_nil]. }
  destruct o as [x|]; simpl; kstep.
  - apply (q_addtail_spec 0 q l); [done..| |].
    + intros m _ Hm Hsuf. kstep. eapply wp_mono; [apply (IH q l); [done..|lia]|].
      intros evs w' (l' & ? & ? & ?). kstep. exists l'. split_and!; [by constructor|done..].
    + intros q' m Hrep' _ Hmax Hsuf. kstep.
      eapply wp_mono; [apply (IH q' (l ++ [x])); [done|done|unfold QUEUE_LIMIT in *; lia|]|].
      { rewrite length_app. simpl. lia. }
      intros evs w' (l' & ? & ? & Hf). kstep. exists l'. split_and!; [by constructor|done|].
      intros [?|?]%elem_of_cons; [done|]. by eapply pending_suffix; [|apply Hf].
  - eapply q_empty_spec; [done..|]. destruct l as [|x l].
    + rewrite bool_decide_true by done. kstep.
      eapply wp_mono; [apply (IH q []); [done..|simpl in *; lia]|].
      intros evs w' (l' & ? & ? & Hf). kstep. exists l'. split_and!; [by constructor|done|].
      intros [?|?]%elem_of_cons; [done|by apply Hf].
    + rewrite bool_decide_false by done. kstep. unfold QUEUE_LIMIT in *.
      eapply q_remhead_spec; [done|done|lia|]. intros q' Hrep' Hsz'. kstep.
      eapply wp_mono; [apply (IH q' l); unfold QUEUE_LIMIT; [done|done|lia|simpl in *; lia]|].
      intros evs w' (l' & ? & ? & Hf). kstep. exists l'. split_and!; [by constructor|done|].
      intros [?|?]%elem_of_cons; [done|by apply Hf].
Qed.

Fixpoint q_addtail_all (xs : list V) : K (queue V) (list Z) :=
  match xs with
  | [] => mret []
  | x :: xs => r ← q_addtail x; rs ← q_addtail_all xs; mret (r :: rs)
  end.

Lemma q_addtail_all_spec xs q l w :
  wst w = q → queue_rep q l → size q ≤ QUEUE_LIMIT →
  Z.of_nat (length l + length xs) < size q →
  wp (q_addtail_all xs)
     (λ rs w', Forall (λ r, r = 0) rs ∧ queue_rep (wst w') (l ++ xs)) w.
Proof.
  revert q l w. induction xs as [|x xs IH]; intros q l w Hw Hrep Hlim Hroom; simpl in *; kstep.
  { rewrite Hw, app_nil_r. by split. }
  apply (q_addtail_spec 0 q l); [done..|lia|]. intros q' m Hrep' Hsz Hle _. kstep.
  eapply wp_mono; [apply (IH q' (l ++ [x])); [done|done|lia|rewrite length_app; simpl; lia]|].
  intros rs w' (? & Hr). kstep. rewrite <- app_assoc in Hr. split; [by constructor|done].
Qed.
End queue.

Arguments qop V : clear implicits.
Arguments qev V : clear implicits.

(** ** Theorems *)

(** Three elements in a ring of four slots, wrapped around the end. *)
Definition ring : queue Z := Queue 4 1 2 [Some 30; None; Some 10; Some 20].

Lemma ring_rep : queue_rep ring [10; 20; 30].
Proof.
  unfold queue_rep; simpl. split_and!; [lia..|reflexivity|].
  intros [|[|[|k]]] x Hx; simplify_eq/=; reflexivity.
Defined.

(** C20: driven by any sequence of additions and guarded removals, the ring
    buffer behaves as a FIFO list: nothing is lost, duplicated or reordered
    across wrap-around and growth, no assertion fails, and an addition is
    refused only if a [kmalloc] failed. *)
Theorem queue_refines_fifo V (q : queue V) l ops m :
  queue_rep q l → size q ≤ QUEUE_LIMIT →
  2 * Z.of_nat (length l + length ops) ≤ QUEUE_LIMIT →
  wp (run_ops ops)
     (λ evs w', ∃ l', fifo l ops evs l' ∧ queue_rep (wst w') l' ∧
                      (Full ∈ evs → false ∈ m)) (World q m).
Proof. intros. by apply (run_ops_fifo ops q l). Qed.

Lemma queue_refines_fifo_witness :
  queue_rep ring [10; 20; 30] ∧
  wp (run_ops [Add 40; Rem; Add 50; Rem; Rem])
     (λ evs w', ∃ l', fifo [10; 20; 30] [Add 40; Rem; Add 50; Rem; Rem] evs l' ∧
                      queue_rep (wst w') l' ∧ (Full ∈ evs → false ∈ [false]))
     (World ring [false]).
Proof.
  split; [exact ring_rep|].
  apply (queue_refines_fifo Z ring [10; 20; 30] [Add 40; Rem; Add 50; Rem; Rem] [false]);
    [exact ring_rep|unfold QUEUE_LIMIT; simpl; lia..].
Defined.

(** [q_remhead] on an empty queue fails its assertion. *)
Theorem q_remhead_empty_panics V (q : queue V) m :
  queue_rep q [] → panics q_remhead (World q m).
Proof. by apply q_remhead_empty. Qed.

Lemma q_remhead_empty_panics_witness :
  panics q_remhead (World (Queue 2 1 1 [None; Some 7]) []).
Proof.
  apply (q_remhead_empty_panics Z).
  unfold queue_rep; simpl. split_and!; [lia..|reflexivity|done].
Defined.

(** After [q_preallocate n] has returned 0, additions succeed until the
    queue holds [n - 1] elements, even if every later [kmalloc] fails. *)
Theorem q_preallocate_guarantees_adds V (q : queue V) l n xs m later :
  queue_rep q l → size q ≤ QUEUE_LIMIT → 2 * n ≤ QUEUE_LIMIT →
  Z.of_nat (length l + length xs) < n →
  wp (q_preallocate n)
     (λ r w', r = 0 →
        wp (q_addtail_all xs)
           (λ rs w'', Forall (λ r, r = 0) rs ∧ queue_rep (wst w'') (l ++ xs))
           (World (wst w') later)) (World q m).
Proof.
  intros Hrep Hsz Hn Hroom. unfold QUEUE_LIMIT in *.
  apply (q_preallocate_spec q l); unfold QUEUE_LIMIT; [done|done|lia|lia|done|].
  intros q' m' Hrep' ? ? ? _ _. apply (q_addtail_all_spec xs q' l); unfold QUEUE_LIMIT; [done|done|simpl; lia..].
Qed.

Lemma q_preallocate_guarantees_adds_witness :
  wp (q_preallocate 6)
     (λ r w', r = 0 →
        wp (q_addtail_all [40; 50])
           (λ rs w'', Forall (λ r, r = 0) rs ∧ queue_rep (wst w'') [10; 20; 30; 40; 50])
           (World (wst w') [false; false])) (World ring []).
Proof.
  apply (q_preallocate_guarantees_adds Z ring [10; 20; 30] 6 [40; 50] [] [false; false]);
    [exact ring_rep|unfold QUEUE_LIMIT; simpl; lia..].
Defined.

(** the guarantee stops one element short: preallocating 4 entries in a
    queue made by [q_create 4] does not make room for a fourth element. *)
Theorem q_preallocate_one_short :
  ∃ q : queue Z,
    q_create 4 (World tt []) = Ok (Some q, World tt []) ∧
    wp (q_preallocate 4)
       (λ r w', r = 0 ∧
          wp (q_addtail_all [1; 2; 3; 4]) (λ rs _, rs = [0; 0; 0; ENOMEM])
             (World (wst w') [false])) (World q []).
Proof.
  eexists. split; [reflexivity|]. vm_compute. by split.
Qed.
