(* ===== verification/Thread.v ===== *)
(** * Kernel threads and the scheduler

    kern/thread/scheduler.c, kern/thread/hardclock.c, [md_switch] of
    kern/arch/mips/mips/pcb.c, the interrupt paths of trap.c and interrupt.c,
    and the switching, sleeping and waking part of kern/thread/thread.c (kept
    in the working copy's pristine store).  A [struct thread *] is an address;
    the fields used here are maps from it: [t_sleepaddr], the first bytes of
    [t_stack] and the saved [pcb_ininterrupt].

    The switch itself is assembly that swaps register sets.  A function that
    switches is therefore modelled up to the point where the next thread is
    current, and a second function, named [.._return], is what a thread runs
    when it is switched back in.  While no thread is runnable, [scheduler]
    idles inside [mi_switch] of the last thread that ran; the model stops there
    too ([Idle]), remembering that thread in [switching], and [idle_tick] is
    one round of the idle loop: an interrupt, and another look at the run
    queue.  Address spaces and working directories of threads are not part of
    this file. *)

From S2P Require Import Prelude Bits Spl Array Queue.

Definition NULL : Z := 0.

Record thr := Thr {
  curthread : Z;
  sleepers : array Z;
  zombies : array Z;
  numthreads : Z;
  runqueue : queue Z;
  t_sleepaddr : gmap Z Z;
  t_stack : gmap Z (list Z);
  pcb_ininterrupt : gmap Z Z;
  switching : Z;
  tcpu : cpu;
  in_interrupt : Z;
  lbolt_counter : Z
}.

Definition set_curthread (x : Z) (s : thr) : thr :=
  Thr x (sleepers s) (zombies s) (numthreads s) (runqueue s)
    (t_sleepaddr s) (t_stack s) (pcb_ininterrupt s) (switching s) (tcpu s) (in_interrupt s) (lbolt_counter s).
Definition set_sleepers (x : array Z) (s : thr) : thr :=
  Thr (curthread s) x (zombies s) (numthreads s) (runqueue s)
    (t_sleepaddr s) (t_stack s) (pcb_ininterrupt s) (switching s) (tcpu s) (in_interrupt s) (lbolt_counter s).
Definition set_zombies (x : array Z) (s : thr) : thr :=
  Thr (curthread s) (sleepers s) x (numthreads s) (runqueue s)
    (t_sleepaddr s) (t_stack s) (pcb_ininterrupt s) (switching s) (tcpu s) (in_interrupt s) (lbolt_counter s).
Definition set_numthreads (x : Z) (s : thr) : thr :=
  Thr (curthread s) (sleepers s) (zombies s) x (runqueue s)
    (t_sleepaddr s) (t_stack s) (pcb_ininterrupt s) (switching s) (tcpu s) (in_interrupt s) (lbolt_counter s).
Definition set_runqueue (x : queue Z) (s : thr) : thr :=
  Thr (curthread s) (sleepers s) (zombies s) (numthreads s) x
    (t_sleepaddr s) (t_stack s) (pcb_ininterrupt s) (switching s) (tcpu s) (in_interrupt s) (lbolt_counter s).
Definition set_sleepaddr (x : gmap Z Z) (s : thr) : thr :=
  Thr (curthread s) (sleepers s) (zombies s) (numthreads s) (runqueue s)
    x (t_stack s) (pcb_ininterrupt s) (switching s) (tcpu s) (in_interrupt s) (lbolt_counter s).
Definition set_stack (x : gmap Z (list Z)) (s : thr) : thr :=
  Thr (curthread s) (sleepers s) (zombies s) (numthreads s) (runqueue s)
    (t_sleepaddr s) x (pcb_ininterrupt s) (switching s) (tcpu s) (in_interrupt s) (lbolt_counter s).
Definition set_pcb (x : gmap Z Z) (s : thr) : thr :=
  Thr (curthread s) (sleepers s) (zombies s) (numthreads s) (runqueue s)
    (t_sleepaddr s) (t_stack s) x (switching s) (tcpu s) (in_interrupt s) (lbolt_counter s).
Definition set_switching (x : Z) (s : thr) : thr :=
  Thr (curthread s) (sleepers s) (zombies s) (numthreads s) (runqueue s)
    (t_sleepaddr s) (t_stack s) (pcb_ininterrupt s) x (tcpu s) (in_interrupt s) (lbolt_counter s).
Definition set_tcpu (x : cpu) (s : thr) : thr :=
  Thr (curthread s) (sleepers s) (zombies s) (numthreads s) (runqueue s)
    (t_sleepaddr s) (t_stack s) (pcb_ininterrupt s) (switching s) x (in_interrupt s) (lbolt_counter s).
Definition set_intr (x : Z) (s : thr) : thr :=
  Thr (curthread s) (sleepers s) (zombies s) (numthreads s) (runqueue s)
    (t_sleepaddr s) (t_stack s) (pcb_ininterrupt s) (switching s) (tcpu s) x (lbolt_counter s).
Definition set_lbolt (x : Z) (s : thr) : thr :=
  Thr (curthread s) (sleepers s) (zombies s) (numthreads s) (runqueue s)
    (t_sleepaddr s) (t_stack s) (pcb_ininterrupt s) (switching s) (tcpu s) (in_interrupt s) x.

Definition tsplhigh : K thr Z := zoom tcpu set_tcpu splhigh.

Definition tsplx (spl : Z) : K thr Z := zoom tcpu set_tcpu (splx spl).

Definition assert_spl : K thr unit := s ← kget; kassert (0 <? curspl (tcpu s)).

(** ** scheduler.c *)

Definition scheduler_bootstrap : K thr unit :=
  o ← q_create 32;
  match o with
  | None => kpanic
  | Some q => s ← kget; kput (set_runqueue q s)
  end.

Definition scheduler_preallocate (nthreads : Z) : K thr Z :=
  assert_spl;;
  zoom runqueue set_runqueue (q_preallocate nthreads).

Definition scheduler_killall : K thr unit :=
  assert_spl;;
  s ← kget;
  e ← zoom runqueue set_runqueue q_empty;
  kwhile (Z.to_nat (size (runqueue s))) negb (λ _ : bool,
    zoom runqueue set_runqueue q_remhead;;
    zoom runqueue set_runqueue q_empty) e;;
  mret tt.

(** One look at the run queue: [None] is a round of [cpu_idle]. *)
Definition scheduler : K thr (option Z) :=
  assert_spl;;
  e ← zoom runqueue set_runqueue q_empty;
  if (e : bool) then mret None
  else t ← zoom runqueue set_runqueue q_remhead; mret (Some t).

Definition make_runnable (t : Z) : K thr Z :=
  assert_spl;;
  zoom runqueue set_runqueue (q_addtail t).

(** ** thread.c *)

Inductive threadstate_t := S_RUN | S_READY | S_SLEEP | S_ZOMB.

(** How a call of [mi_switch] went: it returned at once, another thread runs
    now, or the processor idles. *)
Inductive switched := Returned | Switched | Idle.

#[export] Instance switched_eq_dec : EqDecision switched.
Proof. solve_decision. Defined.

Definition STACK_MAGIC : list Z := [0xae; 0x11; 0xda; 0x33].

(** The magic number on the bottom end of the current stack; the boot thread
    has no [t_stack]. *)
Definition check_stack : K thr unit :=
  s ← kget;
  match t_stack s !! curthread s with
  | None => mret tt
  | Some st => kassert (bool_decide (take 4 st = STACK_MAGIC))
  end.

(** pcb.c; the switch of [curkstack] and of the registers apart. *)
Definition md_switch (old nu : Z) : K thr unit :=
  if old =? nu then mret tt
  else
    s ← kget;
    kput (set_pcb (<[old := in_interrupt s]> (pcb_ininterrupt s)) s);;
    s ← kget;
    i ← kof (pcb_ininterrupt s !! nu);
    kput (set_intr i s).

(** The call of the scheduler in [mi_switch] and what follows it. *)
Definition dispatch (cur : Z) : K thr switched :=
  o ← scheduler;
  s ← kget;
  match o with
  | None => kput (set_switching cur s);; mret Idle
  | Some next =>
    kput (set_curthread next (set_switching NULL s));;
    md_switch cur next;;
    mret Switched
  end.

Definition mi_switch (nextstate : threadstate_t) : K thr switched :=
  assert_spl;;
  check_stack;;
  s ← kget;
  if curthread s =? NULL then mret Returned
  else
    let cur := curthread s in
    kput (set_curthread NULL s);;
    result ← match nextstate with
             | S_READY => make_runnable cur
             | S_SLEEP => zoom sleepers set_sleepers (array_add cur)
             | S_ZOMB => zoom zombies set_zombies (array_add cur)
             | S_RUN => kpanic
             end;
    kassert (result =? 0);;
    dispatch cur.

(** The structure and the stack of a dead thread are freed. *)
Definition thread_destroy (t : Z) : K thr unit :=
  s ← kget;
  kassert (negb (t =? curthread s));;
  kput (set_stack (delete t (t_stack s))
         (set_sleepaddr (delete t (t_sleepaddr s))
           (set_pcb (delete t (pcb_ininterrupt s)) s))).

Definition exorcise : K thr unit :=
  assert_spl;;
  n ← zoom zombies set_zombies array_getnum;
  kfold (Z.to_nat n) 0 (λ i _,
    z ← zoom zombies set_zombies (array_getguy i);
    s ← kget;
    kassert (negb (z =? curthread s));;
    thread_destroy z) tt;;
  result ← zoom zombies set_zombies (array_setsize 0);
  kassert (result =? 0).

(** What a thread runs when it is switched back in: the end of [mi_switch]. *)
Definition mi_switch_return : K thr unit := exorcise.

(** [thread_sleep] up to the switch, and from there on. *)
Definition thread_sleep (addr : Z) : K thr switched :=
  s ← kget;
  kassert (in_interrupt s =? 0);;
  (if curthread s =? NULL then kundef
   else kput (set_sleepaddr (<[curthread s := addr]> (t_sleepaddr s)) s));;
  mi_switch S_SLEEP.

Definition thread_sleep_return : K thr unit :=
  mi_switch_return;;
  s ← kget;
  kput (set_sleepaddr (<[curthread s := NULL]> (t_sleepaddr s)) s).

(** [thread_yield], with the interrupt level it saved; the thread that comes
    back from the switch restores it. *)
Definition thread_yield : K thr (Z * switched) :=
  spl ← tsplhigh;
  o ← mi_switch S_READY;
  match o with
  | Returned => tsplx spl;; mret (spl, o)
  | _ => mret (spl, o)
  end.

Definition thread_yield_return (spl : Z) : K thr unit :=
  mi_switch_return;;
  tsplx spl;;
  mret tt.

(** [thread_exit] for a thread without address space and working directory. *)
Definition thread_exit : K thr switched :=
  s ← kget;
  (if curthread s =? NULL then kundef else check_stack);;
  tsplhigh;;
  s ← kget;
  kassert (0 <? numthreads s);;
  kput (set_numthreads (numthreads s - 1) s);;
  o ← mi_switch S_ZOMB;
  if decide (o = Returned) then kpanic else mret o.

(** The index of [thread_wakeup]'s loop stays put when an element is removed
    under it. *)
Definition thread_wakeup (addr : Z) : K thr unit :=
  assert_spl;;
  n ← zoom sleepers set_sleepers array_getnum;
  kwhile (Z.to_nat n) (λ t, t.1 <? t.2) (λ t,
    let i := t.1 in
    u ← zoom sleepers set_sleepers (array_getguy i);
    s ← kget;
    i ← (if default NULL (t_sleepaddr s !! u) =? addr then
           zoom sleepers set_sleepers (array_remove i);;
           result ← make_runnable u;
           kassert (result =? 0);;
           mret (i - 1)
         else mret i);
    num ← zoom sleepers set_sleepers array_getnum;
    mret (i + 1, num)) (0, n);;
  mret tt.

Definition thread_hassleepers (addr : Z) : K thr Z :=
  assert_spl;;
  n ← zoom sleepers set_sleepers array_getnum;
  r ← kfind (Z.to_nat n) 0 (λ i _,
    u ← zoom sleepers set_sleepers (array_getguy i);
    s ← kget;
    mret (if default NULL (t_sleepaddr s !! u) =? addr then inr 1 else inl tt)) tt;
  match r with
  | inr x => mret x
  | inl _ => mret 0
  end.

Definition thread_killall : K thr unit :=
  assert_spl;;
  result ← zoom sleepers set_sleepers (array_setsize 0);
  kassert (result =? 0).

Definition thread_panic : K thr unit :=
  assert_spl;;
  thread_killall;;
  scheduler_killall.

(** A new thread, first switched to, on its way to its function; the option
    [synchprobs] is off. *)
Definition mi_threadstart : K thr unit :=
  zoom tcpu set_tcpu spl0;;
  mret tt.

(** ** hardclock.c *)

(** Clock ticks per second, with and without the option [synchprobs]. *)
Definition HZ (synchprobs : bool) : Z := if synchprobs then 10000 else 100.

Section clock.

(** [lbolt] stands for [&lbolt]. *)
Context (synchprobs : bool) (lbolt : Z).

Definition hardclock : K thr (Z * switched) :=
  s ← kget;
  kput (set_lbolt (i32 (lbolt_counter s + 1)) s);;
  s ← kget;
  (if HZ synchprobs <=? lbolt_counter s then
     kput (set_lbolt 0 s);;
     thread_wakeup lbolt
   else mret tt);;
  thread_yield.

(** [clocksleep]'s loop: [None] when it is over, otherwise how the switch
    went. *)
Definition clocksleep_loop (num_secs s : Z) : K thr (option switched) :=
  if 0 <? num_secs then o ← thread_sleep lbolt; mret (Some o)
  else tsplx s;; mret None.

Definition clocksleep (num_secs : Z) : K thr (Z * option switched) :=
  s ← tsplhigh;
  o ← clocksleep_loop num_secs s;
  mret (s, o).

Definition clocksleep_return (num_secs s : Z) : K thr (option switched) :=
  thread_sleep_return;;
  clocksleep_loop (num_secs - 1) s.

(** ** The timer interrupt *)

(** What the handlers below keep on the stack of the interrupted thread:
    [savespl] of [mips_trap] and the status register of the trap frame,
    [old_in] of [mips_interrupt] and [spl] of [thread_yield]. *)
Record irqframe := IrqFrame {
  if_savespl : Z;
  if_status : Z;
  if_old_in : Z;
  if_spl : Z
}.

(** From the exception to the switch in [hardclock]: the processor enters the
    exception with interrupts disabled, [mips_trap] raises [curspl],
    [mips_interrupt] enters the interrupt context. *)
Definition timer_interrupt : K thr (irqframe * switched) :=
  s ← kget;
  let savespl := curspl (tcpu s) in
  let status := c0_status (tcpu s) in
  kput (set_tcpu (Cpu (Z.land status (u32 (Z.lnot CST_IEc))) SPL_HIGH) s);;
  s ← kget;
  let old_in := in_interrupt s in
  kput (set_intr 1 s);;
  assert_spl;;
  p ← hardclock;
  mret (IrqFrame savespl status old_in p.1, p.2).

(** From [hardclock]'s return to the end of the exception, whose [rfe]
    restores the status register. *)
Definition interrupt_return (f : irqframe) : K thr unit :=
  s ← kget;
  kput (set_intr (if_old_in f) s);;
  tsplhigh;;
  s ← kget;
  kput (set_tcpu (Cpu (if_status f) (if_savespl f)) s).

(** A preempted thread that is switched back in. *)
Definition preempt_return (f : irqframe) : K thr unit :=
  thread_yield_return (if_spl f);;
  interrupt_return f.

(** One round of the loop in [scheduler]: [cpu_idle] opens the interrupts for
    a moment, the timer interrupt is taken, and the run queue is looked at
    again. *)
Definition idle_tick : K thr switched :=
  assert_spl;;
  s ← kget;
  let x := c0_status (tcpu s) in
  kput (set_tcpu (Cpu (Z.lor x CST_IEc) (curspl (tcpu s))) s);;
  p ← timer_interrupt;
  interrupt_return p.1;;
  s ← kget;
  kput (set_tcpu (Cpu (Z.land x (u32 (Z.lnot CST_IEc))) (curspl (tcpu s))) s);;
  s ← kget;
  dispatch (switching s).

End clock.
