(* ===== verification/ThreadSpec.v ===== *)
(** * The thread system seen from outside

    [tview] is what the rest of the kernel knows of the thread system: who
    runs, who waits for the processor and in which order, who sleeps on which
    address.  [thr_ok] relates it to the state of Thread.v, and the lemmas
    show that each operation of the thread system is an operation on views. *)

From S2P Require Import Prelude Bits Spl Array Queue Thread.

(** The running thread, if any, with its interrupt context; the threads that
    wait for the processor, in the order in which they get it, each with the
    interrupt context it was switched out in; the sleepers, each with its
    address; the exited threads not yet disposed of. *)
Record tview := TView {
  v_cur : option Z;
  v_intr : Z;
  v_run : list (Z * Z);
  v_sleep : list (Z * Z);
  v_zomb : list Z;
  v_cpu : cpu
}.

Definition all_threads (v : tview) : list Z :=
  option_list (v_cur v) ++ (v_run v).*1 ++ (v_sleep v).*1 ++ v_zomb v.

(** More threads than this cannot exist in the memory of the machine. *)
Definition MAXTHREADS : Z := 2 ^ 26.

(** The interrupt context of a thread that does not run; the thread that the
    processor idles in has [i]. *)
Definition saved_intr (i : Z) (s : thr) (t : Z) : option Z :=
  if decide (t = switching s) then Some i else pcb_ininterrupt s !! t.

(** The magic numbers are in place. *)
Definition stacks_ok (s : thr) : Prop :=
  ∀ t st, t_stack s !! t = Some st → take 4 st = STACK_MAGIC.

(** [n] is the value of [in_interrupt]; it is [v_intr v] except in a handler
    that interrupted the idle loop. *)
Record thr_ok_in (n : Z) (s : thr) (v : tview) : Prop := ThrOk {
  tk_cur : curthread s = default NULL (v_cur v);
  tk_null : NULL ∉ all_threads v;
  tk_nodup : NoDup (all_threads v);
  tk_few : Z.of_nat (length (all_threads v)) ≤ MAXTHREADS;
  tk_run : queue_rep (runqueue s) (v_run v).*1;
  tk_size : size (runqueue s) ≤ QUEUE_LIMIT;
  tk_sleep : array_rep (sleepers s) (Some <$> (v_sleep v).*1);
  tk_zomb : array_rep (zombies s) (Some <$> v_zomb v);
  tk_addr t a : (t, a) ∈ v_sleep v → t_sleepaddr s !! t = Some a;
  tk_num : numthreads s = Z.of_nat (length (option_list (v_cur v)) +
                                    length (v_run v) + length (v_sleep v));
  tk_saved_run t i : (t, i) ∈ v_run v → saved_intr (v_intr v) s t = Some i;
  tk_saved_sleep t a : (t, a) ∈ v_sleep v → saved_intr (v_intr v) s t = Some 0;
  tk_switching : is_Some (v_cur v) → switching s = NULL;
  tk_idle : v_cur v = None → switching s ≠ NULL;
  tk_stack : stacks_ok s;
  tk_cpu : tcpu s = v_cpu v;
  tk_cpuok : cpu_ok (v_cpu v);
  tk_intr : in_interrupt s = n
}.

Definition thr_ok (s : thr) (v : tview) : Prop := thr_ok_in (v_intr v) s v.

(** Memory does not run out.  The theorems on the scheduler, the synchronisation
    primitives and their clients assume this: [cv_wait] and the car threads
    ignore failures of [q_addtail]. *)
Definition mem_ok (m : list bool) : Prop := false ∉ m.

Lemma mem_ok_suffix m m' : mem_ok m → m' `suffix_of` m → mem_ok m'.
Proof. intros Hm Hs Hf. apply Hm. by eapply pending_suffix. Qed.

(** Compute the fields of an updated state or view. *)
Ltac tcbn :=
  cbn [set_curthread set_sleepers set_zombies set_numthreads set_runqueue set_sleepaddr
       set_stack set_pcb set_switching set_intr set_tcpu set_lbolt
       curthread sleepers zombies numthreads runqueue t_sleepaddr t_stack pcb_ininterrupt
       switching tcpu in_interrupt lbolt_counter
       v_cur v_intr v_run v_sleep v_zomb v_cpu wst wmem] in *.

Lemma assert_spl_spec (Q : unit → world thr → Prop) s m :
  0 < curspl (tcpu s) → Q tt (World s m) → wp assert_spl Q (World s m).
Proof. intros Hs HQ. unfold assert_spl. kstep. by rewrite wp_kassert by lia. Qed.

Lemma tsplhigh_spec (Q : Z → world thr → Prop) s m :
  Q (curspl (tcpu s)) (World (set_tcpu (high (tcpu s)) s) m) → wp tsplhigh Q (World s m).
Proof. unfold tsplhigh. rewrite wp_zoom. intros HQ. by apply splhigh_spec. Qed.

Lemma tsplx_spec (Q : Z → world thr → Prop) s cp m :
  tcpu s = high cp → cpu_ok cp →
  Q SPL_HIGH (World (set_tcpu cp s) m) → wp (tsplx (curspl cp)) Q (World s m).
Proof.
  unfold tsplx. rewrite wp_zoom. tcbn. intros -> Hok HQ. apply splx_spec; [done|]. exact HQ.
Qed.

Lemma length_all v :
  length (all_threads v) =
  (length (option_list (v_cur v)) + length (v_run v) + length (v_sleep v) +
   length (v_zomb v))%nat.
Proof. unfold all_threads. rewrite !length_app, !length_fmap. lia. Qed.

Lemma array_num {A} (a : array A) l : array_rep a l → num a = Z.of_nat (length l).
Proof. by intros (? & _). Qed.

(** ** The run queue *)

Lemma make_runnable_spec (Q : Z → world thr → Prop) t r s m :
  queue_rep (runqueue s) r → size (runqueue s) ≤ QUEUE_LIMIT →
  Z.of_nat (length r) < MAXTHREADS → 0 < curspl (tcpu s) → mem_ok m →
  (∀ q m', queue_rep q (r ++ [t]) → size q ≤ QUEUE_LIMIT → mem_ok m' →
     Q 0 (World (set_runqueue q s) m')) →
  wp (make_runnable t) Q (World s m).
Proof.
  intros Hq Hsz Hlen Hspl Hm HQ. unfold make_runnable. rewrite wp_bind.
  apply assert_spl_spec; [done|]. rewrite wp_zoom. unfold q_addtail.
  eapply q_addtail_spec; [done|exact Hq|done| |].
  - intros m' _ Hf _. by destruct (Hm Hf).
  - intros q' m' Hq' _ Hmax Hm'. apply HQ; [done| |by eapply mem_ok_suffix].
    unfold QUEUE_LIMIT, MAXTHREADS in *. cbn [wst] in *. lia.
Qed.

Lemma set_runqueue_id s : set_runqueue (runqueue s) s = s.
Proof. by destruct s. Qed.

Lemma set_sleepers_id s : set_sleepers (sleepers s) s = s.
Proof. by destruct s. Qed.

Lemma set_zombies_id s : set_zombies (zombies s) s = s.
Proof. by destruct s. Qed.

Lemma scheduler_spec (Q : option Z → world thr → Prop) r s m :
  queue_rep (runqueue s) r → size (runqueue s) ≤ QUEUE_LIMIT →
  0 < curspl (tcpu s) →
  (∀ q, queue_rep q (tail r) → size q ≤ QUEUE_LIMIT →
     Q (head r) (World (set_runqueue q s) m)) →
  wp scheduler Q (World s m).
Proof.
  intros Hq Hsz Hspl HQ. unfold scheduler. rewrite wp_bind.
  apply assert_spl_spec; [done|]. rewrite wp_bind, wp_zoom.
  eapply q_empty_spec; [done|exact Hq|]. tcbn. rewrite set_runqueue_id.
  destruct r as [|t r].
  - rewrite bool_decide_true by done. kstep. rewrite <- (set_runqueue_id s). by apply HQ.
  - rewrite bool_decide_false by done. rewrite wp_bind, wp_zoom. tcbn.
    eapply q_remhead_spec; [done|exact Hq|unfold QUEUE_LIMIT in *; cbn [wst]; lia|].
    intros q' Hq' Hsz'. kstep. apply HQ; [done|]. simpl in *. lia.
Qed.

Lemma check_stack_spec (Q : unit → world thr → Prop) s m :
  stacks_ok s → Q tt (World s m) → wp check_stack Q (World s m).
Proof.
  intros Hok HQ. unfold check_stack. kstep. destruct (t_stack s !! curthread s) eqn:E; kstep.
  - rewrite wp_kassert; [done|]. apply bool_decide_eq_true. by eapply Hok.
  - done.
Qed.

(** ** Switching *)

(** The scheduler's choice. *)
Definition pick (v : tview) : tview * switched :=
  match v_run v with
  | [] => (v, Idle)
  | (t, i) :: r => (TView (Some t) i r (v_sleep v) (v_zomb v) (v_cpu v), Switched)
  end.

Lemma md_switch_spec (Q : unit → world thr → Prop) cur t i s m :
  saved_intr (in_interrupt s) (set_switching cur s) t = Some i →
  (∀ pcb, (∀ u, u ≠ t → pcb !! u = saved_intr (in_interrupt s) (set_switching cur s) u) →
     Q tt (World (set_intr i (set_pcb pcb s)) m)) →
  wp (md_switch cur t) Q (World s m).
Proof.
  intros Ht HQ. unfold md_switch, saved_intr in *. tcbn.
  destruct (Z.eqb_spec cur t) as [->|Hne].
  - rewrite decide_True in Ht by done. injection Ht as <-. kstep.
    assert (s = set_intr (in_interrupt s) (set_pcb (pcb_ininterrupt s) s)) as Hs
      by by destruct s. rewrite Hs at 1. apply HQ. intros u Hu. by rewrite decide_False.
  - rewrite decide_False in Ht by congruence. kstep. tcbn.
    rewrite lookup_insert_ne by done. rewrite Ht. kstep. tcbn. apply HQ. intros u Hu.
    destruct (decide (u = cur)) as [->|]; [by rewrite lookup_insert_eq|].
    by rewrite lookup_insert_ne.
Qed.

Lemma dispatch_spec (Q : switched → world thr → Prop) cur s v m :
  thr_ok (set_switching cur s) v → v_cur v = None → 0 < curspl (v_cpu v) →
  (∀ s', thr_ok s' (pick v).1 → lbolt_counter s' = lbolt_counter s →
     Q (pick v).2 (World s' m)) →
  wp (dispatch cur) Q (World s m).
Proof.
  destruct v as [c0 i0 run sl z cp]. intros Hok Hc Hspl HQ. cbn [v_cur] in Hc. subst c0.
  pose proof Hok as [????????? Hnum Hsr Hss ??????].
  unfold all_threads, pick in *. tcbn.
  unfold dispatch. rewrite wp_bind. eapply scheduler_spec; [done|done|by rewrite tk_cpu0|].
  intros q Hq Hsz. kstep. destruct run as [|[t i] r].
  - kstep. apply HQ; [|done]. by split.
  - cbn [fmap list_fmap head fst tail option_list app] in *. kstep.
    apply (md_switch_spec _ _ _ i); tcbn; rewrite tk_intr0; [apply (Hsr t); by left|].
    intros pcb Hpcb. kstep. tcbn. apply NoDup_cons in tk_nodup0 as Hnd.
    assert (∀ u j, u ∈ r.*1 ++ sl.*1 ++ z → saved_intr i0 (set_switching cur s) u = Some j →
      (if decide (u = NULL) then Some i else pcb !! u) = Some j) as Hsv.
    { intros u j Hu Hj. rewrite decide_False by set_solver. rewrite Hpcb; [done|].
      intros ->. by apply Hnd. }
    apply HQ; [|done]. split; unfold all_threads; tcbn; try done.
    + intros u j Hu. apply Hsv; [|apply Hsr; by right].
      apply elem_of_app. left. apply list_elem_of_fmap. by exists (u, j).
    + intros u a Hu. apply Hsv; [|by eapply Hss].
      rewrite !elem_of_app. right; left. apply list_elem_of_fmap. by exists (u, a).
Qed.

Lemma elem_fst (l : list (Z * Z)) t x : (t, x) ∈ l → t ∈ l.*1.
Proof. intros H. apply list_elem_of_fmap. by exists (t, x). Qed.

(** The state in which the scheduler is called: the current thread [c] has
    joined one of the three lists of the new view [v']. *)
Lemma thr_ok_stash s s' c i r sl z cp r' sl' z' cp' :
  thr_ok s (TView (Some c) i r sl z cp) →
  c :: r.*1 ++ sl.*1 ++ z ≡ₚ r'.*1 ++ sl'.*1 ++ z' →
  (∀ t j, (t, j) ∈ r' → (t, j) ∈ r ∨ t = c ∧ j = i) →
  (∀ t a, (t, a) ∈ sl' → (t, a) ∈ sl ∨ t = c ∧ i = 0) →
  (∀ t a, (t, a) ∈ sl' → t_sleepaddr s' !! t = Some a) →
  curthread s' = NULL → switching s' = c → in_interrupt s' = in_interrupt s →
  pcb_ininterrupt s' = pcb_ininterrupt s → t_stack s' = t_stack s →
  tcpu s' = cp' → cpu_ok cp' →
  queue_rep (runqueue s') r'.*1 → size (runqueue s') ≤ QUEUE_LIMIT →
  array_rep (sleepers s') (Some <$> sl'.*1) → array_rep (zombies s') (Some <$> z') →
  numthreads s' = Z.of_nat (length r' + length sl') →
  thr_ok s' (TView None i r' sl' z' cp').
Proof.
  intros Hok HP Hr' Hsl' Had Hcur Hsw Hin Hpcb Hst Hcp Hcpok Hq Hqs Hsl Hz Hnum.
  destruct Hok as [? Hnull Hnd Hfew ?????? Hsr Hss Hsw0 ??? Hck Hin0].
  unfold all_threads in *. tcbn.
  change (option_list (Some c)) with [c] in *. cbn [app] in *.
  assert (∀ t, t ∈ r.*1 ++ sl.*1 ++ z → saved_intr i s' t = saved_intr i s t) as Hsv.
  { intros t Ht. unfold saved_intr. rewrite Hsw, Hpcb, Hsw0 by done.
    rewrite decide_False; [rewrite decide_False; [done|]|]; intros ->; [set_solver|].
    apply NoDup_cons in Hnd as [? _]. done. }
  assert (saved_intr i s' c = Some i) as Hc.
  { unfold saved_intr. by rewrite Hsw, decide_True. }
  split; unfold all_threads; tcbn; cbn [app option_list length]; try done.
  - by rewrite <- HP.
  - by rewrite <- HP.
  - by rewrite <- HP.
  - intros t j [Ht|[-> ->]]%Hr'; [|done]. rewrite Hsv; [by apply Hsr|].
    apply elem_of_app. left. by eapply elem_fst.
  - intros t a [Ht|[-> ->]]%Hsl'; [|done]. rewrite Hsv; [by eapply Hss|].
    rewrite !elem_of_app. right; left. by eapply elem_fst.
  - rewrite Hsw. set_solver.
  - unfold stacks_ok. by rewrite Hst.
  - by rewrite Hin.
Qed.

(** [mi_switch] up to the [result] of the list operation. *)
Lemma mi_switch_spec (Q : switched → world thr → Prop) st s m :
  curthread s ≠ NULL → 0 < curspl (tcpu s) → stacks_ok s →
  wp (result ← match st with
               | S_READY => make_runnable (curthread s)
               | S_SLEEP => zoom sleepers set_sleepers (array_add (curthread s))
               | S_ZOMB => zoom zombies set_zombies (array_add (curthread s))
               | S_RUN => kpanic
               end;
      kassert (result =? 0);;
      dispatch (curthread s)) Q (World (set_curthread NULL s) m) →
  wp (mi_switch st) Q (World s m).
Proof.
  intros Hc Hspl Hst HQ. unfold mi_switch. rewrite wp_bind. apply assert_spl_spec; [done|].
  rewrite wp_bind. apply check_stack_spec; [done|]. kstep.
  rewrite (proj2 (Z.eqb_neq _ NULL)) by done. rewrite wp_bind, wp_kput. exact HQ.
Qed.

Lemma thr_ok_cur s c i r sl z cp :
  thr_ok s (TView (Some c) i r sl z cp) →
  curthread s = c ∧ c ≠ NULL ∧
  Z.of_nat (1 + length r + length sl + length z) ≤ MAXTHREADS ∧
  numthreads s = Z.of_nat (1 + length r + length sl).
Proof.
  intros [Hcur Hnull _ Hfew _ _ _ _ _ Hnum _ _ _ _ _ _ _ _]. rewrite length_all in Hfew.
  tcbn. cbn [default option_list length] in *. split_and!; try done.
  intros ->. apply Hnull. by left.
Qed.

(** The current thread goes to sleep and the head of the run queue runs. *)
Lemma thread_sleep_spec (Q : switched → world thr → Prop) a s c r sl z cp m :
  let v' := TView None 0 r (sl ++ [(c, a)]) z cp in
  thr_ok s (TView (Some c) 0 r sl z cp) → 0 < curspl cp → mem_ok m →
  (∀ s' m', thr_ok s' (pick v').1 → mem_ok m' →
     lbolt_counter s' = lbolt_counter s → Q (pick v').2 (World s' m')) →
  wp (thread_sleep a) Q (World s m).
Proof.
  intros v' Hok Hspl Hm HQ. pose proof (thr_ok_cur _ _ _ _ _ _ _ Hok) as (Hcur & Hc & Hfew & Hn).
  pose proof Hok as [_ _ Hnd _ Hrun Hsz Hsl Hz Had _ _ _ _ _ Hst Hcp Hck Hin]. tcbn.
  unfold thread_sleep. kstep. rewrite wp_kassert by lia. kstep.
  rewrite (proj2 (Z.eqb_neq _ NULL)) by congruence. kstep. apply mi_switch_spec; tcbn.
  { congruence. }
  { by rewrite Hcp. }
  { done. }
  rewrite Hcur. rewrite wp_bind, wp_zoom. eapply array_add_spec; [done|exact Hsl|..].
  { tcbn. rewrite (array_num _ _ Hsl), !length_fmap. unfold ARRAY_LIMIT, MAXTHREADS in *. lia. }
  { intros m' _ Hf _. by destruct (Hm Hf). }
  intros a' m' Ha' _ Hm'. tcbn. rewrite wp_bind, wp_kassert by done.
  apply (dispatch_spec _ _ _ v'); [|done|done|].
  2: { intros s' Hok' Hl. apply HQ; [done|by eapply mem_ok_suffix|done]. }
  eapply thr_ok_stash; tcbn; try done; try lia.
  - rewrite fmap_app. simpl. solve_Permutation.
  - by left.
  - intros t x. rewrite elem_of_app, list_elem_of_singleton. intros [Ht|[= -> ->]]; tauto.
  - intros t x. rewrite elem_of_app, list_elem_of_singleton. intros [Ht|[= -> ->]].
    + rewrite lookup_insert_ne; [by apply Had|]. intros ->.
      apply NoDup_cons in Hnd as (Hni & _). apply Hni. tcbn. rewrite !elem_of_app.
      right; left. by eapply elem_fst.
    + apply lookup_insert_eq.
  - by rewrite !fmap_app.
  - rewrite length_app. simpl. lia.
Qed.

(** A thread that yields goes to the end of the run queue. *)
Lemma thread_yield_spec (Q : Z * switched → world thr → Prop) s c i r sl z cp m :
  let v' := TView None i (r ++ [(c, i)]) sl z (high cp) in
  thr_ok s (TView (Some c) i r sl z cp) → mem_ok m →
  (∀ s' m', thr_ok s' (pick v').1 → mem_ok m' →
     lbolt_counter s' = lbolt_counter s → Q (curspl cp, Switched) (World s' m')) →
  wp thread_yield Q (World s m).
Proof.
  intros v' Hok Hm HQ. pose proof (thr_ok_cur _ _ _ _ _ _ _ Hok) as (Hcur & Hc & Hfew & Hn).
  pose proof Hok as [_ _ Hnd _ Hrun Hsz Hsl Hz Had _ _ _ _ _ Hst Hcp Hck Hin]. tcbn.
  unfold thread_yield. rewrite wp_bind. apply tsplhigh_spec. rewrite Hcp.
  rewrite wp_bind. apply mi_switch_spec; tcbn; [congruence|done|done|].
  rewrite Hcur, wp_bind. apply (make_runnable_spec _ _ r.*1); tcbn; try done.
  { rewrite length_fmap. unfold MAXTHREADS in *. lia. }
  intros q m' Hq Hqs Hm'. rewrite wp_bind, wp_kassert by done.
  apply (dispatch_spec _ _ _ v'); [|done|done|].
  2: { intros s' Hok' Hl. assert ((pick v').2 = Switched) as ->.
    { unfold v', pick. tcbn. by destruct r as [|[]]. }
    kstep. by apply HQ. }
  eapply thr_ok_stash; tcbn; try done; try lia.
  - rewrite fmap_app. simpl. solve_Permutation.
  - intros t x. rewrite elem_of_app, list_elem_of_singleton. intros [Ht|[= -> ->]]; tauto.
  - by left.
  - by apply high_ok.
  - by rewrite fmap_app.
  - rewrite length_app. simpl. lia.
Qed.

(** A thread exits; its structure waits for [exorcise]. *)
Lemma thread_exit_spec (Q : switched → world thr → Prop) s c i r sl z cp m :
  let v' := TView None i r sl (z ++ [c]) (high cp) in
  thr_ok s (TView (Some c) i r sl z cp) → mem_ok m →
  (∀ s' m', thr_ok s' (pick v').1 → mem_ok m' →
     lbolt_counter s' = lbolt_counter s → Q (pick v').2 (World s' m')) →
  wp thread_exit Q (World s m).
Proof.
  intros v' Hok Hm HQ. pose proof (thr_ok_cur _ _ _ _ _ _ _ Hok) as (Hcur & Hc & Hfew & Hn).
  pose proof Hok as [_ _ Hnd _ Hrun Hsz Hsl Hz Had _ _ _ _ _ Hst Hcp Hck Hin]. tcbn.
  unfold thread_exit. kstep. rewrite (proj2 (Z.eqb_neq _ NULL)) by congruence.
  apply check_stack_spec; [done|]. rewrite wp_bind. apply tsplhigh_spec. rewrite Hcp.
  kstep. tcbn. rewrite wp_kassert by lia. kstep.
  apply mi_switch_spec; tcbn; [congruence|done|done|].
  rewrite Hcur, wp_bind, wp_zoom. eapply array_add_spec; [done|exact Hz|..].
  { tcbn. rewrite (array_num _ _ Hz), length_fmap. unfold ARRAY_LIMIT, MAXTHREADS in *. lia. }
  { intros m' _ Hf _. by destruct (Hm Hf). }
  intros a' m' Ha' _ Hm'. tcbn. rewrite wp_bind, wp_kassert by done.
  apply (dispatch_spec _ _ _ v'); [|done|done|].
  2: { intros s' Hok' Hl. rewrite decide_False.
    2: { unfold v', pick. tcbn. by destruct r as [|[]]. }
    kstep. apply HQ; [done|by eapply mem_ok_suffix|done]. }
  eapply thr_ok_stash; tcbn; try done; try lia.
  - solve_Permutation.
  - by left.
  - by left.
  - by apply high_ok.
  - by rewrite fmap_app.
Qed.

(** ** Coming back *)

Lemma thread_destroy_spec (Q : unit → world thr → Prop) u s c i r sl z cp m :
  thr_ok s (TView (Some c) i r sl z cp) → u ∈ z →
  (∀ s', thr_ok s' (TView (Some c) i r sl z cp) →
     lbolt_counter s' = lbolt_counter s → Q tt (World s' m)) →
  wp (thread_destroy u) Q (World s m).
Proof.
  intros Hok Hu HQ. pose proof (thr_ok_cur _ _ _ _ _ _ _ Hok) as (Hcur & _).
  pose proof Hok as [_ _ Hnd _ _ _ _ _ Had _ Hsr Hss _ _ Hst _ _ _].
  unfold all_threads in Hnd. tcbn. cbn [option_list app] in Hnd.
  apply NoDup_cons in Hnd as (Hni & (_ & Hr & (_ & Hsl & _)%NoDup_app)%NoDup_app).
  unfold thread_destroy. kstep. rewrite wp_kassert.
  2: { apply negb_true_iff, Z.eqb_neq. rewrite Hcur. intros ->. apply Hni. rewrite !elem_of_app. tauto. }
  kstep. apply HQ; [|done]. destruct Hok. split; tcbn; try done.
  - intros t a Ht. rewrite lookup_delete_ne; [by apply Had|].
    intros ->. by eapply Hsl, Hu; eapply elem_fst.
  - intros t j Ht. pose proof (Hsr t j Ht) as Hj. unfold saved_intr in *. tcbn.
    case_decide; [done|]. rewrite lookup_delete_ne; [done|]. intros ->.
    eapply Hr; [by eapply elem_fst|]. rewrite elem_of_app. tauto.
  - intros t a Ht. pose proof (Hss t a Ht) as Hj. unfold saved_intr in *. tcbn.
    case_decide; [done|]. rewrite lookup_delete_ne; [done|]. intros ->.
    by eapply Hsl, Hu; eapply elem_fst.
  - intros t st. tcbn. intros (_ & Ht)%lookup_delete_Some. by eapply Hst.
Qed.

(** Disposing of the dead. *)
Lemma exorcise_spec (Q : unit → world thr → Prop) s c i r sl z cp m :
  thr_ok s (TView (Some c) i r sl z cp) → 0 < curspl cp → mem_ok m →
  (∀ s' m', thr_ok s' (TView (Some c) i r sl [] cp) → mem_ok m' →
     lbolt_counter s' = lbolt_counter s → Q tt (World s' m')) →
  wp exorcise Q (World s m).
Proof.
  intros Hok Hspl Hm HQ. unfold exorcise. rewrite wp_bind.
  apply assert_spl_spec; [by rewrite (tk_cpu _ _ _ Hok)|]. unfold array_getnum. kstep.
  rewrite set_zombies_id, (array_num _ _ (tk_zomb _ _ _ Hok)), length_fmap. tcbn.
  apply (wp_kfold (λ _ _ w, ∃ s', w = World s' m ∧ thr_ok s' (TView (Some c) i r sl z cp) ∧
    lbolt_counter s' = lbolt_counter s)); [by exists s|..].
  - intros k _ w Hk (s' & -> & Hok' & Hl). kstep.
    destruct (lget_is_Some z k) as (t & Ht); [lia|].
    assert (t ∈ z) as Hin.
    { rewrite lget_lookup in Ht by lia. by eapply list_elem_of_lookup_2. }
    eapply array_getguy_spec; [done|exact (tk_zomb _ _ _ Hok')| |].
    { tcbn. rewrite lget_lookup by lia. rewrite list_lookup_fmap, <- lget_lookup, Ht by lia. done. }
    tcbn. rewrite set_zombies_id. kstep. rewrite wp_kassert.
    2: { apply negb_true_iff, Z.eqb_neq. rewrite (tk_cur _ _ _ Hok'). cbn. intros ->.
      pose proof (tk_nodup _ _ _ Hok') as Hnd. unfold all_threads in Hnd. tcbn.
      apply NoDup_cons in Hnd as (Hni & _). apply Hni. rewrite !elem_of_app. tauto. }
    eapply thread_destroy_spec; [done|done|]. intros s2 Hok2 Hl2. exists s2. split_and!; [done..|].
    congruence.
  - intros _ w (s' & -> & Hok' & Hl). kstep.
    eapply array_setsize_spec; [done|exact (tk_zomb _ _ _ Hok')|by unfold ARRAY_LIMIT| |].
    { intros m' _ Hf _. by destruct (Hm Hf). }
    intros a' l' m' Ha' Hn' _ Hm'. tcbn. rewrite wp_kassert by done.
    assert (l' = []) as ->.
    { pose proof (array_num _ _ Ha'). destruct l'; [done|]. simpl in *. lia. }
    apply HQ; [|by eapply mem_ok_suffix|done].
    destruct Hok' as [? Hnull Hnd Hfew ??????????????]. rewrite length_all in Hfew.
    unfold all_threads in *. tcbn.
    split; unfold all_threads; tcbn; try done.
    + intros Hx. apply Hnull. rewrite !elem_of_app in *. set_solver.
    + rewrite app_nil_r. rewrite !(assoc_L (++)) in *. by apply NoDup_app in Hnd as (? & _).
    + rewrite !length_app, !length_fmap in *. cbn [length] in *. lia.
Qed.

Lemma thread_sleep_return_spec (Q : unit → world thr → Prop) s c i r sl z cp m :
  thr_ok s (TView (Some c) i r sl z cp) → 0 < curspl cp → mem_ok m →
  (∀ s' m', thr_ok s' (TView (Some c) i r sl [] cp) → mem_ok m' →
     lbolt_counter s' = lbolt_counter s → Q tt (World s' m')) →
  wp thread_sleep_return Q (World s m).
Proof.
  intros Hok Hspl Hm HQ. unfold thread_sleep_return, mi_switch_return. rewrite wp_bind.
  eapply exorcise_spec; [done..|]. intros s' m' Hok' Hm' Hl. kstep. apply HQ; [|done|done].
  destruct Hok' as [Hcur Hnull Hnd Hfew Hrun Hsz Hsl Hz Had ?????????].
  split; tcbn; try done. intros t a Ht. rewrite lookup_insert_ne; [by apply Had|].
  rewrite Hcur. cbn. intros <-. unfold all_threads in Hnd. tcbn.
  apply NoDup_cons in Hnd as (Hni & _). apply Hni. rewrite !elem_of_app.
  right; left. by eapply elem_fst.
Qed.

Lemma thr_ok_cpu s c i r sl z cp cp' :
  thr_ok s (TView c i r sl z cp) → cpu_ok cp' →
  thr_ok (set_tcpu cp' s) (TView c i r sl z cp').
Proof. intros [] Hc. by split. Qed.

Lemma thr_ok_intr s c i i' r sl z cp :
  thr_ok s (TView (Some c) i r sl z cp) →
  thr_ok (set_intr i' s) (TView (Some c) i' r sl z cp).
Proof.
  intros [? Hnull ???????? Hsr Hss Hsw ?????]. unfold all_threads in Hnull. tcbn.
  assert (∀ t j, t ∈ r.*1 ++ sl.*1 → saved_intr i s t = Some j →
    saved_intr i' (set_intr i' s) t = Some j) as Hsv.
  { intros t j Ht. unfold saved_intr. tcbn. rewrite Hsw by done.
    assert (t ≠ NULL) by (intros ->; apply Hnull; rewrite !elem_of_app in *; tauto).
    by rewrite !decide_False. }
  split; tcbn; try done.
  - intros t j Ht. apply Hsv; [|by apply Hsr]. apply elem_of_app. left. by eapply elem_fst.
  - intros t a Ht. apply Hsv; [|by eapply Hss]. apply elem_of_app. right. by eapply elem_fst.
Qed.

Lemma thread_yield_return_spec (Q : unit → world thr → Prop) s c i r sl z cp m :
  thr_ok s (TView (Some c) i r sl z (high cp)) → cpu_ok cp → mem_ok m →
  (∀ s' m', thr_ok s' (TView (Some c) i r sl [] cp) → mem_ok m' →
     lbolt_counter s' = lbolt_counter s → Q tt (World s' m')) →
  wp (thread_yield_return (curspl cp)) Q (World s m).
Proof.
  intros Hok Hc Hm HQ. unfold thread_yield_return, mi_switch_return. rewrite wp_bind.
  eapply exorcise_spec; [done|done|done|]. intros s' m' Hok' Hm' Hl. rewrite wp_bind.
  apply tsplx_spec; [apply Hok'|done|]. kstep. apply HQ; [|done|done].
  by eapply thr_ok_cpu.
Qed.

(** ** Waking up *)

(** The threads asleep on an address, as they join the run queue. *)
Definition woken (a : Z) (sl : list (Z * Z)) : list (Z * Z) :=
  (λ x, (x.1, 0)) <$> filter (λ x, x.2 = a) sl.

Definition kept_asleep (a : Z) (sl : list (Z * Z)) : list (Z * Z) :=
  filter (λ x, x.2 ≠ a) sl.

Lemma woken_app a l1 l2 : woken a (l1 ++ l2) = woken a l1 ++ woken a l2.
Proof. unfold woken. by rewrite filter_app, fmap_app. Qed.

Lemma kept_app a l1 l2 : kept_asleep a (l1 ++ l2) = kept_asleep a l1 ++ kept_asleep a l2.
Proof. unfold kept_asleep. by rewrite filter_app. Qed.

Lemma snoc_woken a l u :
  woken a (l ++ [(u, a)]) = woken a l ++ [(u, 0)] ∧ kept_asleep a (l ++ [(u, a)]) = kept_asleep a l.
Proof.
  rewrite woken_app, kept_app. unfold woken, kept_asleep. split.
  - by rewrite (filter_cons_True _ (u, a)).
  - rewrite (filter_cons_False _ (u, a)) by (simpl; tauto). by rewrite filter_nil, app_nil_r.
Qed.

Lemma snoc_kept a l u x : x ≠ a →
  woken a (l ++ [(u, x)]) = woken a l ∧
  kept_asleep a (l ++ [(u, x)]) = kept_asleep a l ++ [(u, x)].
Proof.
  intros Hx. rewrite woken_app, kept_app. unfold woken, kept_asleep. split.
  - rewrite (filter_cons_False _ (u, x)) by done. by rewrite filter_nil, app_nil_r.
  - by rewrite (filter_cons_True _ (u, x)).
Qed.

(** The sleeper at a given place of the table. *)
Lemma getguy_sleeper (Q : Z → world thr → Prop) n s c i r k t x post z cp m :
  thr_ok_in n s (TView c i r (k ++ (t, x) :: post) z cp) →
  Q t (World s m) →
  wp (zoom sleepers set_sleepers (array_getguy (Z.of_nat (length k)))) Q (World s m).
Proof.
  intros Hok HQ. rewrite wp_zoom. eapply array_getguy_spec; [done|apply Hok| |].
  - tcbn. rewrite lget_lookup, Nat2Z.id, !list_lookup_fmap by lia.
    by rewrite list_lookup_middle.
  - cbn [wst wmem]. by replace (set_sleepers (sleepers s) s) with s by by destruct s.
Qed.

Lemma wake_one {A} (f : Z → K thr A) (Q : A → world thr → Prop) n s c i r k t x post z cp m :
  thr_ok_in n s (TView c i r (k ++ (t, x) :: post) z cp) → 0 < curspl cp → mem_ok m →
  (∀ s' m', thr_ok_in n s' (TView c i (r ++ [(t, 0)]) (k ++ post) z cp) → mem_ok m' →
     lbolt_counter s' = lbolt_counter s → wp (f 0) Q (World s' m')) →
  wp (zoom sleepers set_sleepers (array_remove (Z.of_nat (length k)));;
      result ← make_runnable t; f result) Q (World s m).
Proof.
  intros [Hcur Hnull Hnd Hfew Hrun Hsz Hsl Hz Had Hnum Hsr Hss Hsw Hid Hst Hcp Hck Hin] Hspl Hm HQ.
  rewrite length_all in Hfew. tcbn. rewrite wp_bind, wp_zoom.
  eapply array_remove_spec; [done|exact Hsl|..].
  { rewrite !length_fmap, length_app. simpl. lia. }
  intros a' Ha' _. tcbn. rewrite Nat2Z.id in Ha'.
  rewrite !length_app in *. cbn [length] in *.
  rewrite wp_bind. apply (make_runnable_spec _ _ r.*1); tcbn; try done.
  { rewrite length_fmap. unfold MAXTHREADS in *. lia. }
  { by rewrite Hcp. }
  intros q m' Hq Hqs Hm'. apply HQ; [|done|done].
  assert (all_threads (TView c i (r ++ [(t, 0)]) (k ++ post) z cp) ≡ₚ
          all_threads (TView c i r (k ++ (t, x) :: post) z cp)) as HP.
  { unfold all_threads. tcbn. rewrite !fmap_app, fmap_cons. simpl. solve_Permutation. }
  assert (∀ u a, (u, a) ∈ k ++ post → (u, a) ∈ k ++ (t, x) :: post) as Hsub by set_solver.
  split; tcbn; try done.
  - by rewrite HP.
  - by rewrite HP.
  - rewrite HP, length_all. tcbn. rewrite length_app. simpl. lia.
  - by rewrite fmap_app.
  - rewrite <- !list_fmap_compose in *. by rewrite <- list_fmap_delete, delete_middle in Ha'.
  - intros u a0 Hu. by apply Had, Hsub.
  - rewrite !length_app. simpl. lia.
  - intros u j. rewrite elem_of_app, list_elem_of_singleton. intros [Hu|[= -> ->]].
    + by apply (Hsr u j).
    + apply (Hss t x). rewrite elem_of_app. right. by left.
  - intros u a Hu. by eapply Hss, Hsub.
Qed.

(** The invariant of [thread_wakeup]'s loop: the sleepers before the index have
    been looked at, and those of them on the address moved to the run queue. *)
Definition wakeup_inv (a : Z) (c : option Z) (i : Z) (r sl : list (Z * Z)) (z : list Z) (cp : cpu)
    (n lb : Z) (t : Z * Z) (w : world thr) : Prop :=
  ∃ pre post, sl = pre ++ post ∧
    t = (Z.of_nat (length (kept_asleep a pre)),
         Z.of_nat (length (kept_asleep a pre) + length post)) ∧
    thr_ok_in n (wst w) (TView c i (r ++ woken a pre) (kept_asleep a pre ++ post) z cp) ∧
    mem_ok (wmem w) ∧ lbolt_counter (wst w) = lb.

Lemma num_sleepers n s c i r sl z cp :
  thr_ok_in n s (TView c i r sl z cp) → num (sleepers s) = Z.of_nat (length sl).
Proof. intros Hok. by rewrite (array_num _ _ (tk_sleep _ _ _ Hok)), !length_fmap. Qed.

Lemma thread_wakeup_spec (Q : unit → world thr → Prop) a n s c i r sl z cp m :
  thr_ok_in n s (TView c i r sl z cp) → 0 < curspl cp → mem_ok m →
  (∀ s' m', thr_ok_in n s' (TView c i (r ++ woken a sl) (kept_asleep a sl) z cp) → mem_ok m' →
     lbolt_counter s' = lbolt_counter s → Q tt (World s' m')) →
  wp (thread_wakeup a) Q (World s m).
Proof.
  intros Hok Hspl Hm HQ. unfold thread_wakeup. rewrite wp_bind.
  apply assert_spl_spec; [by rewrite (tk_cpu _ _ _ Hok)|]. unfold array_getnum. kstep.
  rewrite set_sleepers_id, (num_sleepers _ _ _ _ _ _ _ _ Hok).
  apply (wp_kwhile (wakeup_inv a c i r sl z cp n (lbolt_counter s))
    (λ t, Z.to_nat (t.2 - t.1))).
  - simpl. lia.
  - exists [], sl. split_and!; try done. tcbn. by rewrite app_nil_r.
  - intros t [s' m'] Hlt%Z.ltb_lt (pre & post & -> & -> & Hok' & Hm' & Hl).
    cbn [fst snd wst wmem] in *.
    destruct post as [|[u x] post]; [rewrite Nat.add_0_r in Hlt; lia|].
    rewrite wp_bind. eapply getguy_sleeper; [exact Hok'|]. kstep.
    rewrite (tk_addr _ _ _ Hok' u x) by (tcbn; apply elem_of_app; right; by left).
    cbn [default]. unfold id. destruct (Z.eqb_spec x a) as [->|Hxa].
    + eapply wake_one; [exact Hok'|done|done|]. intros s2 m2 Hok2 Hm2 Hl2.
      rewrite wp_bind, wp_kassert by done. unfold array_getnum. kstep.
      rewrite set_sleepers_id, (num_sleepers _ _ _ _ _ _ _ _ Hok2), length_app.
      split; [|cbn [fst snd length]; lia].
      exists (pre ++ [(u, a)]), post. destruct (snoc_woken a pre u) as [-> ->].
      split_and!; [by rewrite <- app_assoc|f_equal; lia| |done|cbn [wst] in *; congruence].
      by rewrite (assoc_L (++)).
    + unfold array_getnum. kstep.
      rewrite set_sleepers_id, (num_sleepers _ _ _ _ _ _ _ _ Hok'), length_app.
      split; [|cbn [fst snd length]; lia].
      exists (pre ++ [(u, x)]), post. destruct (snoc_kept a pre u x Hxa) as [-> ->].
      rewrite <- !app_assoc, length_app. split_and!; try done. f_equal; cbn [length]; lia.
  - intros t [s' m'] Hge%Z.ltb_ge (pre & post & -> & -> & Hok' & Hm' & Hl).
    cbn [fst snd wst wmem] in *.
    destruct post as [|]; [|cbn [length] in *; lia]. rewrite !app_nil_r in *. kstep.
    by apply HQ.
Qed.

Lemma thread_wakeup_ok (Q : unit → world thr → Prop) a s c i r sl z cp m :
  thr_ok s (TView c i r sl z cp) → 0 < curspl cp → mem_ok m →
  (∀ s' m', thr_ok s' (TView c i (r ++ woken a sl) (kept_asleep a sl) z cp) → mem_ok m' →
     lbolt_counter s' = lbolt_counter s → Q tt (World s' m')) →
  wp (thread_wakeup a) Q (World s m).
Proof. intros. by eapply (thread_wakeup_spec _ _ i). Qed.

(** [thread_hassleepers] looks for the address among the sleepers. *)
Lemma thread_hassleepers_spec (Q : Z → world thr → Prop) a n s c i r sl z cp m :
  thr_ok_in n s (TView c i r sl z cp) → 0 < curspl cp →
  Q (if decide (a ∈ sl.*2) then 1 else 0) (World s m) →
  wp (thread_hassleepers a) Q (World s m).
Proof.
  intros Hok Hspl HQ. unfold thread_hassleepers. rewrite wp_bind.
  apply assert_spl_spec; [by rewrite (tk_cpu _ _ _ Hok)|]. unfold array_getnum. kstep.
  rewrite set_sleepers_id, (num_sleepers _ _ _ _ _ _ _ _ Hok).
  apply (wp_kfind (λ k _ w, w = World s m ∧ a ∉ (take (Z.to_nat k) sl).*2)).
  - split; [done|]. simpl. set_solver.
  - intros k _ w Hk (-> & Hni). rewrite wp_bind.
    destruct (lookup_lt_is_Some_2 sl (Z.to_nat k)) as ([u x] & Hu); [lia|].
    pose proof (take_drop_middle _ _ _ Hu) as Hsplit.
    replace k with (Z.of_nat (length (take (Z.to_nat k) sl))) at 1 by (rewrite length_take; lia).
    eapply getguy_sleeper; [rewrite Hsplit; exact Hok|]. kstep.
    rewrite (tk_addr _ _ _ Hok u x) by (tcbn; by eapply list_elem_of_lookup_2).
    cbn [default]. unfold id. destruct (Z.eqb_spec x a) as [->|Hxa]; kstep.
    + rewrite decide_True in HQ; [done|]. apply list_elem_of_fmap. exists (u, a).
      split; [done|]. by eapply list_elem_of_lookup_2.
    + split; [done|]. replace (Z.to_nat (k + 1)) with (S (Z.to_nat k)) by lia.
      rewrite (take_S_r _ _ (u, x)) by done. rewrite fmap_app. set_solver.
  - intros _ w (-> & Hni). kstep. rewrite decide_False in HQ; [done|].
    by rewrite take_ge in Hni by lia.
Qed.

(** The loop of [scheduler_killall], with the emptiness test that precedes it. *)
Lemma killall_loop_spec l fuel (Q : unit → world thr → Prop) q s m :
  queue_rep q l → size q ≤ QUEUE_LIMIT → (length l ≤ fuel)%nat →
  (∀ q', queue_rep q' [] → size q' ≤ QUEUE_LIMIT → Q tt (World (set_runqueue q' s) m)) →
  wp (e ← zoom runqueue set_runqueue q_empty;
      kwhile fuel negb (λ _ : bool,
        zoom runqueue set_runqueue q_remhead;;
        zoom runqueue set_runqueue q_empty) e;;
      mret tt) Q (World (set_runqueue q s) m).
Proof.
  revert fuel q. induction l as [|x l IH]; intros fuel q Hq Hsz Hf HQ;
    rewrite wp_bind, wp_zoom; (eapply q_empty_spec; [done|exact Hq|]); tcbn; rewrite wp_bind.
  - rewrite bool_decide_true by done. rewrite wp_kwhile_done by done. kstep. by apply HQ.
  - rewrite bool_decide_false by done. cbn [length] in Hf.
    destruct fuel as [|fuel]; [lia|]. rewrite wp_kwhile_step by done.
    rewrite wp_bind, wp_zoom. tcbn.
    eapply q_remhead_spec; [done|exact Hq|unfold QUEUE_LIMIT in *; cbn [wst]; lia|].
    intros q' Hq' Hsz'. tcbn.
    eapply wp_mono; [|intros e w H; rewrite <- wp_bind; exact H]. rewrite <- wp_bind.
    apply (IH fuel q'); [done|lia|lia|done].
Qed.

(** [thread_panic] leaves no other thread that could run. *)
Lemma thread_panic_spec (Q : unit → world thr → Prop) n s c i r sl z cp m :
  thr_ok_in n s (TView c i r sl z cp) → 0 < curspl cp → mem_ok m →
  (∀ s' m', curthread s' = curthread s → queue_rep (runqueue s') [] →
     array_rep (sleepers s') [] → Q tt (World s' m')) →
  wp thread_panic Q (World s m).
Proof.
  intros Hok Hspl Hm HQ. pose proof Hok as [_ _ _ _ Hrun Hsz Hsl _ _ _ _ _ _ _ _ Hcp _ _]. tcbn.
  unfold thread_panic, thread_killall, scheduler_killall.
  rewrite wp_bind. apply assert_spl_spec; [by rewrite Hcp|].
  rewrite wp_bind, wp_bind. apply assert_spl_spec; [by rewrite Hcp|]. kstep.
  eapply array_setsize_spec; [done|exact Hsl|by unfold ARRAY_LIMIT| |].
  { intros m' _ Hf _. by destruct (Hm Hf). }
  intros a' l' m' Ha' Hn' _ Hm'. tcbn. rewrite wp_kassert by done.
  rewrite wp_bind. apply assert_spl_spec; [tcbn; by rewrite Hcp|].
  rewrite wp_bind, wp_kget. tcbn.
  assert (l' = []) as ->.
  { pose proof (array_num _ _ Ha'). destruct l'; [done|]. simpl in *. lia. }
  pose proof (queue_rep_length _ _ Hrun).
  rewrite <- (set_runqueue_id (set_sleepers a' s)).
  eapply (killall_loop_spec r.*1); tcbn; [done|done| |].
  { rewrite length_fmap in *. lia. }
  intros q' Hq' _. by apply HQ.
Qed.

(** ** The clock *)

Section clock_spec.
Context (synchprobs : bool) (lbolt : Z).

Definition clock_ok (s : thr) : Prop := 0 ≤ lbolt_counter s < HZ synchprobs.

(** This tick completes a second. *)
Definition fires (s : thr) : bool := HZ synchprobs <=? lbolt_counter s + 1.

(** The run queue and the sleepers after [hardclock]'s wakeup. *)
Definition clock_run (s : thr) (r sl : list (Z * Z)) : list (Z * Z) :=
  if fires s then r ++ woken lbolt sl else r.

Definition clock_sleep (s : thr) (sl : list (Z * Z)) : list (Z * Z) :=
  if fires s then kept_asleep lbolt sl else sl.

Lemma HZ_range : 0 < HZ synchprobs < 2 ^ 30.
Proof. destruct synchprobs; done. Qed.

Lemma thr_ok_lbolt n s v x : thr_ok_in n s v → thr_ok_in n (set_lbolt x s) v.
Proof. intros []. by split. Qed.

Lemma hardclock_spec (Q : Z * switched → world thr → Prop) n s c i r sl z cp m :
  thr_ok_in n s (TView c i r sl z cp) → 0 < curspl cp → clock_ok s → mem_ok m →
  (∀ s' m', thr_ok_in n s' (TView c i (clock_run s r sl) (clock_sleep s sl) z cp) →
     mem_ok m' → clock_ok s' → wp thread_yield Q (World s' m')) →
  wp (hardclock synchprobs lbolt) Q (World s m).
Proof.
  intros Hok Hspl Hc Hm HQ. unfold hardclock, clock_run, clock_sleep, fires, clock_ok in *.
  pose proof HZ_range. kstep. tcbn. rewrite i32_id by lia.
  destruct (Z.leb_spec (HZ synchprobs) (lbolt_counter s + 1)); kstep.
  - eapply thread_wakeup_spec; [by do 2 apply thr_ok_lbolt|done|done|].
    intros s' m' Hok' Hm' Hl. tcbn. apply HQ; [done|done|lia].
  - apply HQ; [by apply thr_ok_lbolt|done|]. tcbn. lia.
Qed.

Lemma high_high c : high (high c) = high c.
Proof.
  unfold high. cbn [c0_status]. by rewrite <- Z.land_assoc, Z.land_diag.
Qed.

(** The frame a thread interrupted at level [cp] keeps. *)
Definition frame_of (cp : cpu) : irqframe :=
  IrqFrame (curspl cp) (c0_status cp) 0 SPL_HIGH.

(** The timer preempts the current thread. *)
Lemma timer_interrupt_spec (Q : irqframe * switched → world thr → Prop) s c r sl z cp m :
  let v' := TView None 1 (clock_run s r sl ++ [(c, 1)]) (clock_sleep s sl) z (high cp) in
  thr_ok s (TView (Some c) 0 r sl z cp) → clock_ok s → mem_ok m →
  (∀ s' m', thr_ok s' (pick v').1 → clock_ok s' → mem_ok m' →
     Q (frame_of cp, Switched) (World s' m')) →
  wp (timer_interrupt synchprobs lbolt) Q (World s m).
Proof.
  intros v' Hok Hc Hm HQ. pose proof Hok as [_ _ _ _ _ _ _ _ _ _ _ _ _ _ _ Hcp Hck Hin]. tcbn.
  unfold timer_interrupt. kstep. rewrite Hcp. apply assert_spl_spec; [done|].
  change (Cpu _ SPL_HIGH) with (high cp).
  rewrite wp_bind. eapply (hardclock_spec _ 1 _ (Some c) 1 r sl z (high cp)); [|done|done|done|].
  { apply (thr_ok_intr _ _ 0). eapply thr_ok_cpu; [done|]. by apply high_ok. }
  intros s' m' Hok' Hm' Hc'. eapply thread_yield_spec; [exact Hok'|done|].
  intros s2 m2 Hok2 Hm2 Hl. kstep. tcbn. rewrite Hin. apply HQ; [|..|done].
  - by rewrite high_high in Hok2.
  - unfold clock_ok in *. by rewrite Hl.
Qed.

Lemma interrupt_return_spec (Q : unit → world thr → Prop) s c i r sl z cp cp' sp m :
  thr_ok s (TView (Some c) i r sl z cp') → cpu_ok cp →
  (∀ s', thr_ok s' (TView (Some c) 0 r sl z cp) → lbolt_counter s' = lbolt_counter s →
     Q tt (World s' m)) →
  wp (interrupt_return (IrqFrame (curspl cp) (c0_status cp) 0 sp)) Q (World s m).
Proof.
  intros Hok Hc HQ. unfold interrupt_return. cbn [if_old_in if_savespl if_status].
  rewrite wp_bind, wp_kget, wp_bind, wp_kput, wp_bind. apply tsplhigh_spec. kstep. tcbn. destruct cp as [x l] eqn:Ecp.
  apply HQ; [|done]. cbn [c0_status curspl]. rewrite <- Ecp in *.
  eapply (thr_ok_cpu (set_tcpu _ _)); [|done]. eapply thr_ok_cpu; [by eapply thr_ok_intr|].
  apply high_ok. rewrite (tk_cpu _ _ _ Hok). by eapply (tk_cpuok _ _ _ Hok).
Qed.

Lemma preempt_return_spec (Q : unit → world thr → Prop) s c i r sl z cp m :
  thr_ok s (TView (Some c) i r sl z (high cp)) → cpu_ok cp → mem_ok m →
  (∀ s' m', thr_ok s' (TView (Some c) 0 r sl [] cp) → mem_ok m' →
     lbolt_counter s' = lbolt_counter s → Q tt (World s' m')) →
  wp (preempt_return (frame_of cp)) Q (World s m).
Proof.
  intros Hok Hc Hm HQ. unfold preempt_return, frame_of. cbn [if_spl]. rewrite wp_bind.
  eapply (thread_yield_return_spec _ _ _ _ _ _ _ (high cp));
    [by rewrite high_high|by apply high_ok|done|].
  intros s' m' Hok' Hm' Hl. eapply interrupt_return_spec; [done|done|].
  intros s2 Hok2 Hl2. apply HQ; [done|done|congruence].
Qed.

(** A yield out of the idle loop returns at once. *)
Lemma thread_yield_idle (Q : Z * switched → world thr → Prop) n s i r sl z cp m :
  thr_ok_in n s (TView None i r sl z cp) →
  Q (curspl cp, Returned) (World s m) → wp thread_yield Q (World s m).
Proof.
  intros Hok HQ. pose proof Hok as [Hcur _ _ _ _ _ _ _ _ _ _ _ _ _ Hst Hcp Hck _]. tcbn.
  unfold thread_yield. rewrite wp_bind. apply tsplhigh_spec. rewrite Hcp.
  unfold mi_switch. rewrite wp_bind, wp_bind. apply assert_spl_spec; [done|].
  rewrite wp_bind. apply check_stack_spec; [done|]. rewrite wp_bind, wp_kget. tcbn.
  rewrite Hcur. cbn [default Z.eqb NULL]. rewrite wp_ret, wp_bind.
  apply tsplx_spec; [done|done|]. kstep.
  by replace (set_tcpu cp (set_tcpu (high cp) s)) with s by (subst cp; by destruct s).
Qed.

Lemma status_on_off x :
  0 ≤ x < 2 ^ 32 → Z.testbit x 0 = false →
  Z.land (Z.lor x CST_IEc) (u32 (Z.lnot CST_IEc)) = x.
Proof.
  intros Hx Hb. assert (0 ≤ Z.lor x CST_IEc < 2 ^ 32) as Hl.
  { apply lor_range; [lia|done|]. unfold CST_IEc. lia. }
  apply Z.bits_inj'. intros i Hi. rewrite status_off_bit, status_on_bit by lia.
  destruct (Z.eqb_spec i 0) as [->|]; simpl; [done|done].
Qed.

(** One round of the idle loop. *)
Lemma idle_tick_spec (Q : switched → world thr → Prop) s r sl z cp m :
  let v' := TView None 0 (clock_run s r sl) (clock_sleep s sl) z cp in
  thr_ok s (TView None 0 r sl z cp) → curspl cp = SPL_HIGH → clock_ok s → mem_ok m →
  (∀ s' m', thr_ok s' (pick v').1 → clock_ok s' → mem_ok m' →
     Q (pick v').2 (World s' m')) →
  wp (idle_tick synchprobs lbolt) Q (World s m).
Proof.
  intros v' Hok Hspl Hc Hm HQ.
  pose proof Hok as [_ _ _ _ _ _ _ _ _ _ _ _ _ _ _ Hcp Hck Hin]. tcbn.
  unfold idle_tick. rewrite wp_bind. apply assert_spl_spec; [by rewrite Hcp, Hspl|].
  destruct cp as [x l]. cbn [curspl c0_status] in Hspl. subst l.
  pose proof Hck as [Hx _ Hb]. cbn [c0_status curspl] in *.
  rewrite wp_bind, wp_kget, wp_bind, wp_kput. tcbn. rewrite Hcp. cbn [c0_status curspl].
  rewrite wp_bind. unfold timer_interrupt. kstep. apply assert_spl_spec; [done|]. tcbn.
  cbn [c0_status curspl]. rewrite status_on_off by done.
  rewrite wp_bind. eapply (hardclock_spec _ 1 _ None 0 r sl z (Cpu x SPL_HIGH)); [|done|done|done|].
  { destruct Hok. by split. }
  intros s' m' Hok' Hm' Hc'. eapply thread_yield_idle; [exact Hok'|]. cbn [curspl].
  rewrite wp_ret. unfold interrupt_return. cbn [fst snd if_old_in if_savespl if_status].
  rewrite wp_bind, wp_bind, wp_kget, wp_bind, wp_kput, wp_bind. apply tsplhigh_spec. kstep.
  tcbn. rewrite status_off_off by done.
  eapply (dispatch_spec _ _ _ v'); [|done|done|].
  - destruct Hok' as [?????????????????]. split; tcbn; try done.
  - intros s2 Hok2 Hl. apply HQ; [done| |done]. unfold clock_ok in *. tcbn. by rewrite Hl.
Qed.

(** ** Sleeping on the clock *)

(** One turn of [clocksleep]'s loop. *)
Lemma clocksleep_loop_spec (Q : option switched → world thr → Prop) k s c r sl z cp m :
  let v' := TView None 0 r (sl ++ [(c, lbolt)]) z (high cp) in
  thr_ok s (TView (Some c) 0 r sl z (high cp)) → cpu_ok cp → mem_ok m →
  (0 < k → ∀ s' m', thr_ok s' (pick v').1 → mem_ok m' →
     lbolt_counter s' = lbolt_counter s → Q (Some (pick v').2) (World s' m')) →
  (k ≤ 0 → ∀ s', thr_ok s' (TView (Some c) 0 r sl z cp) →
     lbolt_counter s' = lbolt_counter s → Q None (World s' m)) →
  wp (clocksleep_loop lbolt k (curspl cp)) Q (World s m).
Proof.
  intros v' Hok Hc Hm HQ1 HQ2. unfold clocksleep_loop. destruct (Z.ltb_spec 0 k); rewrite wp_bind.
  - eapply thread_sleep_spec; [done|done|done|]. intros s' m' Hok' Hm' Hl. kstep. by apply HQ1.
  - apply tsplx_spec; [apply Hok|done|]. kstep. apply HQ2; [lia| |done].
    by eapply thr_ok_cpu.
Qed.

End clock_spec.

Lemma mi_threadstart_spec (Q : unit → world thr → Prop) s c i r sl z cp m :
  thr_ok s (TView (Some c) i r sl z (high cp)) → cpu_ok cp → curspl cp = 0 →
  (∀ s', thr_ok s' (TView (Some c) i r sl z cp) →
     lbolt_counter s' = lbolt_counter s → Q tt (World s' m)) →
  wp mi_threadstart Q (World s m).
Proof.
  intros Hok Hc Hl HQ. unfold mi_threadstart, spl0. rewrite <- Hl, wp_bind.
  apply tsplx_spec; [apply Hok|done|]. kstep. apply HQ; [|done]. by eapply thr_ok_cpu.
Qed.
