(* ===== verification/Synch.v ===== *)
(** * Semaphores, locks and condition variables (kern/thread/synch.c)

    The objects live at addresses of the kernel heap; names are for debugging
    only and are represented by their allocation.  An operation that can block
    is modelled up to the context switch, and the function named [.._return] is
    the rest of it, run when the thread is switched back in.  The first
    component of a result is the level [splhigh] saved; [Some o] says that the
    thread went to sleep and how the switch went. *)

From S2P Require Import Prelude Bits Spl Array Queue Thread.

Record semaphore := Semaphore { count : Z }.

Record lock := Lock { busy : Z }.

Record cv := Cv { slept_threads : queue Z }.

(** The thread system and the synchronisation objects. *)
Record sys := Sys {
  s_thr : thr;
  s_sems : gmap Z semaphore;
  s_locks : gmap Z lock;
  s_cvs : gmap Z cv
}.

Definition set_thr (x : thr) (s : sys) : sys := Sys x (s_sems s) (s_locks s) (s_cvs s).
Definition set_sems (x : gmap Z semaphore) (s : sys) : sys :=
  Sys (s_thr s) x (s_locks s) (s_cvs s).
Definition set_locks (x : gmap Z lock) (s : sys) : sys :=
  Sys (s_thr s) (s_sems s) x (s_cvs s).
Definition set_cvs (x : gmap Z cv) (s : sys) : sys :=
  Sys (s_thr s) (s_sems s) (s_locks s) x.

Definition on_thr {A} (c : K thr A) : K sys A := zoom s_thr set_thr c.

(** Access through a pointer. *)
Definition sem_load (p : Z) : K sys semaphore := s ← kget; kof (s_sems s !! p).
Definition sem_store (p : Z) (x : semaphore) : K sys unit :=
  s ← kget; kput (set_sems (<[p := x]> (s_sems s)) s).
Definition lock_load (p : Z) : K sys lock := s ← kget; kof (s_locks s !! p).
Definition lock_store (p : Z) (x : lock) : K sys unit :=
  s ← kget; kput (set_locks (<[p := x]> (s_locks s)) s).
Definition cv_load (p : Z) : K sys cv := s ← kget; kof (s_cvs s !! p).
Definition cv_store (p : Z) (x : cv) : K sys unit :=
  s ← kget; kput (set_cvs (<[p := x]> (s_cvs s)) s).

Definition not_null (p : Z) : K sys unit := kassert (negb (p =? NULL)).

(** ** Semaphores *)

(** [addr] is the address [kmalloc] gives if it succeeds; the second
    allocation is [kstrdup]'s. *)
Definition sem_create (addr initial_count : Z) : K sys Z :=
  kassert (0 <=? initial_count);;
  ok ← kmalloc_ok;
  if negb ok then mret NULL else
  ok ← kmalloc_ok;
  if negb ok then mret NULL else
  sem_store addr (Semaphore initial_count);;
  mret addr.

Definition sem_destroy (sem : Z) : K sys unit :=
  not_null sem;;
  spl ← on_thr tsplhigh;
  n ← on_thr (thread_hassleepers sem);
  kassert (n =? 0);;
  on_thr (tsplx spl);;
  s ← kget;
  _ ← kof (s_sems s !! sem);
  kput (set_sems (delete sem (s_sems s)) s).

(** The loop of [P] and what follows it. *)
Definition P_loop (sem spl : Z) : K sys (option switched) :=
  x ← sem_load sem;
  if count x =? 0 then o ← on_thr (thread_sleep sem); mret (Some o)
  else
    kassert (0 <? count x);;
    sem_store sem (Semaphore (count x - 1));;
    on_thr (tsplx spl);;
    mret None.

Definition P (sem : Z) : K sys (Z * option switched) :=
  not_null sem;;
  s ← kget;
  kassert (in_interrupt (s_thr s) =? 0);;
  spl ← on_thr tsplhigh;
  o ← P_loop sem spl;
  mret (spl, o).

Definition P_return (sem spl : Z) : K sys (option switched) :=
  on_thr thread_sleep_return;;
  P_loop sem spl.

Definition V (sem : Z) : K sys unit :=
  not_null sem;;
  spl ← on_thr tsplhigh;
  x ← sem_load sem;
  sem_store sem (Semaphore (i32 (count x + 1)));;
  x ← sem_load sem;
  kassert (0 <? count x);;
  on_thr (thread_wakeup sem);;
  on_thr (tsplx spl);;
  mret tt.

(** ** Locks *)

Definition lock_create (addr : Z) : K sys Z :=
  ok ← kmalloc_ok;
  if negb ok then mret NULL else
  ok ← kmalloc_ok;
  if negb ok then mret NULL else
  lock_store addr (Lock 0);;
  mret addr.

Definition lock_destroy (l : Z) : K sys unit :=
  not_null l;;
  spl ← on_thr tsplhigh;
  n ← on_thr (thread_hassleepers l);
  kassert (n =? 0);;
  on_thr (tsplx spl);;
  s ← kget;
  _ ← kof (s_locks s !! l);
  kput (set_locks (delete l (s_locks s)) s).

Definition lock_acquire_loop (l spl : Z) : K sys (option switched) :=
  x ← lock_load l;
  if negb (busy x =? 0) then o ← on_thr (thread_sleep l); mret (Some o)
  else
    s ← kget;
    lock_store l (Lock (curthread (s_thr s)));;
    on_thr (tsplx spl);;
    mret None.

Definition lock_acquire (l : Z) : K sys (Z * option switched) :=
  not_null l;;
  spl ← on_thr tsplhigh;
  o ← lock_acquire_loop l spl;
  mret (spl, o).

Definition lock_acquire_return (l spl : Z) : K sys (option switched) :=
  on_thr thread_sleep_return;;
  lock_acquire_loop l spl.

Definition lock_release (l : Z) : K sys unit :=
  not_null l;;
  spl ← on_thr tsplhigh;
  _ ← lock_load l;
  lock_store l (Lock 0);;
  on_thr (thread_wakeup l);;
  on_thr (tsplx spl);;
  mret tt.

Definition lock_do_i_hold (l : Z) : K sys Z :=
  not_null l;;
  x ← lock_load l;
  s ← kget;
  mret (if busy x =? curthread (s_thr s) then 1 else 0).

(** ** Condition variables *)

(** [None] from [q_create] leaves the structure and its name allocated. *)
Definition cv_create (addr : Z) : K sys Z :=
  ok ← kmalloc_ok;
  if negb ok then mret NULL else
  ok ← kmalloc_ok;
  if negb ok then mret NULL else
  o ← q_create 10;
  match o with
  | None => mret NULL
  | Some q => cv_store addr (Cv q);; mret addr
  end.

(** A queue operation on [cv->slept_threads]. *)
Definition on_cv {A} (p : Z) (c : K (queue Z) A) : K sys A :=
  x ← cv_load p;
  zoom (λ _, slept_threads x) (λ q s, set_cvs (<[p := Cv q]> (s_cvs s)) s) c.

Definition cv_destroy (c : Z) : K sys unit :=
  not_null c;;
  x ← cv_load c;
  zoom (λ _, Some (slept_threads x)) (λ _ s, s) q_destroy;;
  s ← kget;
  kput (set_cvs (delete c (s_cvs s)) s).

Definition cv_wait (c l : Z) : K sys (Z * switched) :=
  not_null c;;
  not_null l;;
  spl ← on_thr tsplhigh;
  s ← kget;
  on_cv c (q_addtail (curthread (s_thr s)));;
  lock_release l;;
  o ← on_thr (thread_sleep (curthread (s_thr s)));
  mret (spl, o).

(** Up to the call of [lock_acquire] that ends [cv_wait]. *)
Definition cv_wait_return (spl : Z) : K sys unit :=
  on_thr thread_sleep_return;;
  on_thr (tsplx spl);;
  mret tt.

Definition cv_signal (c l : Z) : K sys unit :=
  not_null c;;
  not_null l;;
  spl ← on_thr tsplhigh;
  addr ← on_cv c q_remhead;
  on_thr (thread_wakeup addr);;
  on_thr (tsplx spl);;
  mret tt.

Definition cv_broadcast (c l : Z) : K sys unit :=
  not_null c;;
  not_null l;;
  spl ← on_thr tsplhigh;
  x ← cv_load c;
  e ← on_cv c q_empty;
  kwhile (Z.to_nat (size (slept_threads x))) negb (λ _ : bool,
    addr ← on_cv c q_remhead;
    on_thr (thread_wakeup addr);;
    on_cv c q_empty) e;;
  on_thr (tsplx spl);;
  mret tt.
