(* ===== verification/SynchSpec.v ===== *)
(** * What the operations of Synch.v do to the objects and to the view of the
    thread system

    Each lemma gives the effect of one operation, or of the part of it up to a
    context switch, for the running thread [c]. *)

From S2P Require Import Prelude Bits Spl Array Queue Thread ThreadSpec Synch.

(** Compute the fields of an updated system. *)
Ltac scbn :=
  cbn [set_thr set_sems set_locks set_cvs s_thr s_sems s_locks s_cvs count busy slept_threads
       wst wmem] in *.

Section synch_spec.
Context (S : sys) (c : Z) (r sl : list (Z * Z)) (z : list Z) (cp : cpu) (m : list bool).
Context (Hcp : cpu_ok cp) (Hm : mem_ok m).

Implicit Types (s : thr).

Lemma on_thr_spec {A} (k : K thr A) (Q : A → world sys → Prop) (X : sys) m0 :
  wp k (λ a w, Q a (World (set_thr (wst w) X) (wmem w))) (World (s_thr X) m0) →
  wp (on_thr k) Q (World X m0).
Proof. unfold on_thr. by rewrite wp_zoom. Qed.

Lemma not_null_spec (Q : unit → world sys → Prop) p w :
  p ≠ NULL → Q tt w → wp (not_null p) Q w.
Proof.
  intros Hp HQ. unfold not_null. rewrite wp_kassert; [done|]. by apply negb_true_iff, Z.eqb_neq.
Qed.

(** The views: running with interrupts as in [cp], and inside a critical
    section. *)
#[local] Notation v0 := (TView (Some c) 0 r sl z cp).
#[local] Notation vhigh := (TView (Some c) 0 r sl z (high cp)).
#[local] Notation vasleep a := (pick (TView None 0 r (sl ++ [(c, a)]) z (high cp))).
#[local] Notation vwoken a := (TView (Some c) 0 (r ++ woken a sl) (kept_asleep a sl) z cp).

Lemma high_view s : thr_ok s v0 → thr_ok (set_tcpu (high cp) s) vhigh.
Proof. intros Hok. eapply thr_ok_cpu; [exact Hok|]. by apply high_ok. Qed.

(** Entering a critical section. *)
Lemma enter_spec (Q : Z → world sys → Prop) :
  thr_ok (s_thr S) v0 →
  (∀ s', thr_ok s' vhigh → lbolt_counter s' = lbolt_counter (s_thr S) →
     curthread s' = curthread (s_thr S) → Q (curspl cp) (World (set_thr s' S) m)) →
  wp (on_thr tsplhigh) Q (World S m).
Proof.
  intros Hok HQ. apply on_thr_spec, tsplhigh_spec. scbn. rewrite (tk_cpu _ _ _ Hok).
  apply HQ; [by apply high_view|done|done].
Qed.

(** Leaving it, from whatever view the section ended with. *)
Lemma leave_spec (Q : Z → world sys → Prop) X i' r' sl' z' m' :
  thr_ok (s_thr X) (TView (Some c) i' r' sl' z' (high cp)) →
  (∀ s', thr_ok s' (TView (Some c) i' r' sl' z' cp) →
     lbolt_counter s' = lbolt_counter (s_thr X) → Q SPL_HIGH (World (set_thr s' X) m')) →
  wp (on_thr (tsplx (curspl cp))) Q (World X m').
Proof.
  intros Hok HQ. apply on_thr_spec, tsplx_spec; [apply Hok|done|]. scbn.
  apply HQ; [|done]. by eapply thr_ok_cpu.
Qed.

(** ** Semaphores *)

Lemma P_loop_spec (Q : option switched → world sys → Prop) p x :
  thr_ok (s_thr S) vhigh → s_sems S !! p = Some x → 0 ≤ count x →
  (count x = 0 → ∀ s' m', thr_ok s' (vasleep p).1 → mem_ok m' →
     lbolt_counter s' = lbolt_counter (s_thr S) →
     Q (Some (vasleep p).2) (World (set_thr s' S) m')) →
  (0 < count x → ∀ s', thr_ok s' v0 → lbolt_counter s' = lbolt_counter (s_thr S) →
     Q None (World (set_thr s' (set_sems (<[p := Semaphore (count x - 1)]> (s_sems S)) S)) m)) →
  wp (P_loop p (curspl cp)) Q (World S m).
Proof.
  intros Hok Hx H0 HQ1 HQ2. unfold P_loop, sem_load, sem_store. kstep.
  rewrite (wp_kof _ _ _ _ Hx). destruct (Z.eqb_spec (count x) 0); kstep.
  - eapply on_thr_spec, thread_sleep_spec; [done|done|done|]. intros s' m' Hok' Hm' Hl.
    kstep. by apply HQ1.
  - rewrite wp_kassert by lia. kstep. eapply leave_spec; [exact Hok|].
    intros s' Hok' Hl. kstep. apply HQ2; [lia|done|done].
Qed.

Lemma P_spec (Q : Z * option switched → world sys → Prop) p :
  thr_ok (s_thr S) v0 → p ≠ NULL →
  (∀ s', thr_ok s' vhigh → lbolt_counter s' = lbolt_counter (s_thr S) →
     wp (P_loop p (curspl cp)) (λ o w, Q (curspl cp, o) w) (World (set_thr s' S) m)) →
  wp (P p) Q (World S m).
Proof.
  intros Hok Hp HQ. unfold P. rewrite wp_bind. apply not_null_spec; [done|].
  rewrite wp_bind, wp_kget, wp_bind, wp_kassert by (scbn; by rewrite (tk_intr _ _ _ Hok)).
  rewrite wp_bind. apply enter_spec; [done|]. intros s' Hok' Hl _.
  rewrite wp_bind. eapply wp_mono; [by apply HQ|]. intros o w Ho. by rewrite wp_ret.
Qed.

Lemma V_spec (Q : unit → world sys → Prop) p x :
  thr_ok (s_thr S) v0 → s_sems S !! p = Some x → 0 ≤ count x < 2 ^ 31 - 1 → p ≠ NULL →
  (∀ s' m', thr_ok s' (vwoken p) → mem_ok m' →
     lbolt_counter s' = lbolt_counter (s_thr S) →
     Q tt (World (set_thr s' (set_sems (<[p := Semaphore (count x + 1)]> (s_sems S)) S)) m')) →
  wp (V p) Q (World S m).
Proof.
  intros Hok Hx H0 Hp HQ. unfold V, sem_load, sem_store.
  rewrite wp_bind. apply not_null_spec; [done|].
  rewrite wp_bind. apply enter_spec; [done|]. intros s1 Hok1 Hl1 _. kstep. scbn.
  rewrite (wp_kof _ _ _ _ Hx). kstep. scbn. rewrite (wp_kof _ _ _ _ (lookup_insert_eq _ _ _)).
  rewrite i32_id by lia. rewrite wp_bind, wp_kassert by (cbn; lia).
  rewrite wp_bind. eapply on_thr_spec, thread_wakeup_ok; [exact Hok1|done|done|].
  intros s2 m2 Hok2 Hm2 Hl2. scbn. rewrite wp_bind. eapply leave_spec; [exact Hok2|].
  intros s3 Hok3 Hl3. kstep. apply HQ; [done|done|]. scbn. congruence.
Qed.

(** ** Locks *)

Lemma lock_acquire_loop_spec (Q : option switched → world sys → Prop) p x :
  thr_ok (s_thr S) vhigh → s_locks S !! p = Some x →
  (busy x ≠ 0 → ∀ s' m', thr_ok s' (vasleep p).1 → mem_ok m' →
     lbolt_counter s' = lbolt_counter (s_thr S) →
     Q (Some (vasleep p).2) (World (set_thr s' S) m')) →
  (busy x = 0 → ∀ s', thr_ok s' v0 → lbolt_counter s' = lbolt_counter (s_thr S) →
     Q None (World (set_thr s' (set_locks (<[p := Lock c]> (s_locks S)) S)) m)) →
  wp (lock_acquire_loop p (curspl cp)) Q (World S m).
Proof.
  intros Hok Hx HQ1 HQ2. unfold lock_acquire_loop, lock_load, lock_store. kstep.
  rewrite (wp_kof _ _ _ _ Hx). destruct (Z.eqb_spec (busy x) 0); cbn [negb]; kstep.
  - rewrite (tk_cur _ _ _ Hok). eapply leave_spec; [exact Hok|].
    intros s' Hok' Hl. kstep. by apply HQ2.
  - eapply on_thr_spec, thread_sleep_spec; [done|done|done|]. intros s' m' Hok' Hm' Hl.
    kstep. by apply HQ1.
Qed.

Lemma lock_acquire_spec (Q : Z * option switched → world sys → Prop) p :
  thr_ok (s_thr S) v0 → p ≠ NULL →
  (∀ s', thr_ok s' vhigh → lbolt_counter s' = lbolt_counter (s_thr S) →
     wp (lock_acquire_loop p (curspl cp)) (λ o w, Q (curspl cp, o) w) (World (set_thr s' S) m)) →
  wp (lock_acquire p) Q (World S m).
Proof.
  intros Hok Hp HQ. unfold lock_acquire. rewrite wp_bind. apply not_null_spec; [done|].
  rewrite wp_bind. apply enter_spec; [done|]. intros s' Hok' Hl _.
  rewrite wp_bind. eapply wp_mono; [by apply HQ|]. intros o w Ho. by rewrite wp_ret.
Qed.

Lemma lock_release_spec (Q : unit → world sys → Prop) p x :
  thr_ok (s_thr S) v0 → s_locks S !! p = Some x → p ≠ NULL →
  (∀ s' m', thr_ok s' (vwoken p) → mem_ok m' →
     lbolt_counter s' = lbolt_counter (s_thr S) →
     Q tt (World (set_thr s' (set_locks (<[p := Lock 0]> (s_locks S)) S)) m')) →
  wp (lock_release p) Q (World S m).
Proof.
  intros Hok Hx Hp HQ. unfold lock_release, lock_load, lock_store.
  rewrite wp_bind. apply not_null_spec; [done|].
  rewrite wp_bind. apply enter_spec; [done|]. intros s1 Hok1 Hl1 _. kstep. scbn.
  rewrite (wp_kof _ _ _ _ Hx). kstep. scbn.
  eapply on_thr_spec, thread_wakeup_ok; [exact Hok1|done|done|].
  intros s2 m2 Hok2 Hm2 Hl2. scbn. rewrite wp_bind. eapply leave_spec; [exact Hok2|].
  intros s3 Hok3 Hl3. kstep. apply HQ; [done|done|]. scbn. congruence.
Qed.

End synch_spec.

(** ** Condition variables *)

Section cv_spec.
Context (S : sys) (c : Z) (r sl : list (Z * Z)) (z : list Z) (cp : cpu) (m : list bool).
Context (Hcp : cpu_ok cp) (Hm : mem_ok m).
Context (p : Z) (q : queue Z) (l : list Z).
Context (Hq : s_cvs S !! p = Some (Cv q)) (Hrep : queue_rep q l) (Hsz : size q ≤ QUEUE_LIMIT).
Context (Hp : p ≠ NULL).

Lemma on_cv_spec {A} (k : K (queue Z) A) (Q : A → world sys → Prop) X q0 m0 :
  s_cvs X !! p = Some (Cv q0) →
  wp k (λ a w, Q a (World (set_cvs (<[p := Cv (wst w)]> (s_cvs X)) X) (wmem w))) (World q0 m0) →
  wp (on_cv p k) Q (World X m0).
Proof.
  intros Hx HQ. unfold on_cv, cv_load. rewrite wp_bind, wp_bind, wp_kget. scbn.
  rewrite (wp_kof _ _ _ _ Hx), wp_zoom. exact HQ.
Qed.

Lemma cv_wait_spec (Q : Z * switched → world sys → Prop) lk x :
  let v' := TView None 0 (r ++ woken lk sl) (kept_asleep lk sl ++ [(c, c)]) z (high cp) in
  thr_ok (s_thr S) (TView (Some c) 0 r sl z cp) →
  s_locks S !! lk = Some x → lk ≠ NULL → Z.of_nat (length l) < MAXTHREADS →
  (∀ s' q' m', thr_ok s' (pick v').1 → queue_rep q' (l ++ [c]) → size q' ≤ QUEUE_LIMIT →
     mem_ok m' → lbolt_counter s' = lbolt_counter (s_thr S) →
     Q (curspl cp, (pick v').2)
       (World (set_thr s' (set_locks (<[lk := Lock 0]> (s_locks S))
                (set_cvs (<[p := Cv q']> (s_cvs S)) S))) m')) →
  wp (cv_wait p lk) Q (World S m).
Proof.
  intros v' Hok Hx Hlk Hlen HQ. unfold cv_wait.
  rewrite wp_bind. apply not_null_spec; [done|]. rewrite wp_bind. apply not_null_spec; [done|].
  rewrite wp_bind. eapply enter_spec; [done|exact Hok|]. intros s1 Hok1 Hl1 Hc1.
  rewrite wp_bind, wp_kget. scbn. rewrite wp_bind.
  eapply on_cv_spec; [exact Hq|]. unfold q_addtail.
  eapply q_addtail_spec; [done|exact Hrep|done| |].
  { intros m' _ Hf _. by destruct (Hm Hf). }
  intros q' m' Hq' _ Hmax Hm'. scbn. rewrite (tk_cur _ _ _ Hok1) in *. cbn [default] in *.
  rewrite wp_bind. eapply lock_release_spec; scbn;
    [by apply high_ok|by eapply mem_ok_suffix|exact Hok1|exact Hx|done|].
  intros s2 m2 Hok2 Hm2 Hl2. rewrite wp_bind.
  eapply on_thr_spec, thread_sleep_spec; [exact Hok2|done|done|].
  intros s3 m3 Hok3 Hm3 Hl3. kstep. scbn. apply HQ; [exact Hok3|done| |done|].
  - unfold QUEUE_LIMIT, MAXTHREADS in *. lia.
  - scbn. congruence.
Qed.

Lemma cv_signal_spec (Q : unit → world sys → Prop) lk t l' :
  thr_ok (s_thr S) (TView (Some c) 0 r sl z cp) → l = t :: l' → lk ≠ NULL →
  (∀ s' q' m', thr_ok s' (TView (Some c) 0 (r ++ woken t sl) (kept_asleep t sl) z cp) →
     queue_rep q' l' → size q' ≤ QUEUE_LIMIT → mem_ok m' →
     lbolt_counter s' = lbolt_counter (s_thr S) →
     Q tt (World (set_thr s' (set_cvs (<[p := Cv q']> (s_cvs S)) S)) m')) →
  wp (cv_signal p lk) Q (World S m).
Proof.
  intros Hok -> Hlk HQ. unfold cv_signal.
  rewrite wp_bind. apply not_null_spec; [done|]. rewrite wp_bind. apply not_null_spec; [done|].
  rewrite wp_bind. eapply enter_spec; [done|exact Hok|]. intros s1 Hok1 Hl1 _. rewrite wp_bind.
  eapply on_cv_spec; [exact Hq|].
  eapply q_remhead_spec; [done|exact Hrep|unfold QUEUE_LIMIT in *; cbn [wst]; lia|].
  intros q' Hq' Hsz'. scbn. rewrite wp_bind.
  eapply on_thr_spec, thread_wakeup_ok; [exact Hok1|done|done|].
  intros s2 m2 Hok2 Hm2 Hl2. rewrite wp_bind. scbn. eapply leave_spec; [done|exact Hok2|].
  intros s3 Hok3 Hl3. kstep. apply HQ; [done|done|lia|done|]. scbn. congruence.
Qed.

End cv_spec.

(** The threads of [l] are woken one after the other. *)
Definition wake_list (l : list Z) (v : list (Z * Z) * list (Z * Z)) :
    list (Z * Z) * list (Z * Z) :=
  foldl (λ v t, (v.1 ++ woken t v.2, kept_asleep t v.2)) v l.

Section broadcast_spec.
Context (c : Z) (z : list Z) (cp : cpu) (Hcp : cpu_ok cp).
Context (p lk : Z) (Hp : p ≠ NULL) (Hlk : lk ≠ NULL).

Lemma broadcast_loop_spec l fuel (Q : unit → world sys → Prop) S q r sl m :
  s_cvs S !! p = Some (Cv q) → queue_rep q l → size q ≤ QUEUE_LIMIT → (length l ≤ fuel)%nat →
  thr_ok (s_thr S) (TView (Some c) 0 r sl z (high cp)) → mem_ok m →
  (∀ s' q' m', thr_ok s' (TView (Some c) 0 (wake_list l (r, sl)).1 (wake_list l (r, sl)).2 z cp) →
     queue_rep q' [] → size q' ≤ QUEUE_LIMIT → mem_ok m' →
     lbolt_counter s' = lbolt_counter (s_thr S) →
     Q tt (World (set_thr s' (set_cvs (<[p := Cv q']> (s_cvs S)) S)) m')) →
  wp (e ← on_cv p q_empty;
      kwhile fuel negb (λ _ : bool,
        addr ← on_cv p q_remhead;
        on_thr (thread_wakeup addr);;
        on_cv p q_empty) e;;
      on_thr (tsplx (curspl cp));;
      mret tt) Q (World S m).
Proof.
  revert fuel S q r sl m. induction l as [|t l IH]; intros fuel S q r sl m Hq Hrep Hsz Hf Hok Hm HQ;
    rewrite wp_bind; (eapply on_cv_spec; [exact Hq|]);
    (eapply q_empty_spec; [done|exact Hrep|]); scbn; rewrite wp_bind.
  - rewrite bool_decide_true by done. rewrite wp_kwhile_done by done. rewrite wp_bind.
    eapply leave_spec; [done|exact Hok|]. intros s' Hok' Hl'. kstep. scbn.
    by apply HQ.
  - rewrite bool_decide_false by done. cbn [length] in Hf.
    destruct fuel as [|fuel]; [lia|]. rewrite wp_kwhile_step by done.
    rewrite wp_bind. eapply on_cv_spec; [apply lookup_insert_eq|].
    eapply q_remhead_spec; [done|exact Hrep|unfold QUEUE_LIMIT in *; cbn [wst]; lia|].
    intros q' Hq' Hsz'. scbn. rewrite wp_bind.
    eapply on_thr_spec, thread_wakeup_ok; [exact Hok|done|done|].
    intros s2 m2 Hok2 Hm2 Hl2. scbn.
    eapply wp_mono; [|intros e w H; rewrite <- wp_bind; exact H]. rewrite <- wp_bind.
    rewrite !insert_insert_eq.
    apply (IH fuel _ q' (r ++ woken t sl) (kept_asleep t sl)); scbn;
      [apply lookup_insert_eq|done|lia|lia|done|done|].
    intros s3 q3 m3 Hok3 Hq3 Hsz3 Hm3 Hl3. rewrite insert_insert_eq.
    apply (HQ s3 q3 m3); [done|done|done|done|congruence].
Qed.

Lemma cv_broadcast_spec (Q : unit → world sys → Prop) S q l r sl m :
  s_cvs S !! p = Some (Cv q) → queue_rep q l → size q ≤ QUEUE_LIMIT →
  thr_ok (s_thr S) (TView (Some c) 0 r sl z cp) → mem_ok m →
  (∀ s' q' m', thr_ok s' (TView (Some c) 0 (wake_list l (r, sl)).1 (wake_list l (r, sl)).2 z cp) →
     queue_rep q' [] → size q' ≤ QUEUE_LIMIT → mem_ok m' →
     lbolt_counter s' = lbolt_counter (s_thr S) →
     Q tt (World (set_thr s' (set_cvs (<[p := Cv q']> (s_cvs S)) S)) m')) →
  wp (cv_broadcast p lk) Q (World S m).
Proof.
  intros Hq Hrep Hsz Hok Hm HQ. unfold cv_broadcast.
  rewrite wp_bind. apply not_null_spec; [done|]. rewrite wp_bind. apply not_null_spec; [done|].
  rewrite wp_bind. eapply enter_spec; [done|exact Hok|]. intros s1 Hok1 Hl1 _. scbn.
  unfold cv_load. rewrite wp_bind, wp_bind, wp_kget. scbn. rewrite (wp_kof _ _ _ _ Hq).
  pose proof (queue_rep_length _ _ Hrep).
  eapply broadcast_loop_spec; scbn; [exact Hq|exact Hrep|done|lia|exact Hok1|done|].
  intros s2 q2 m2 Hok2 Hq2 Hsz2 Hm2 Hl2. apply HQ; [done|done|done|done|congruence].
Qed.

End broadcast_spec.

Lemma cv_wait_return_spec (Q : unit → world sys → Prop) S c r sl z cp m :
  cpu_ok cp → mem_ok m → thr_ok (s_thr S) (TView (Some c) 0 r sl z (high cp)) →
  (∀ s' m', thr_ok s' (TView (Some c) 0 r sl [] cp) → mem_ok m' →
     lbolt_counter s' = lbolt_counter (s_thr S) → Q tt (World (set_thr s' S) m')) →
  wp (cv_wait_return (curspl cp)) Q (World S m).
Proof.
  intros Hcp Hm Hok HQ. unfold cv_wait_return. rewrite wp_bind.
  eapply on_thr_spec, thread_sleep_return_spec; [exact Hok|done|done|].
  intros s1 m1 Hok1 Hm1 Hl1. rewrite wp_bind. eapply leave_spec; [done|exact Hok1|].
  intros s2 Hok2 Hl2. kstep. scbn. apply HQ; [done|done|congruence].
Qed.
