(* ===== verification/Machine.v ===== *)
(** * Threads that use the synchronisation primitives

    A small command language for the bodies of kernel threads, and two
    machines that run a set of such threads.  The concrete machine executes
    them on the thread system of Thread.v through the operations of Synch.v:
    one thread runs at a time, it can be preempted by the timer before every
    command, and a blocked thread really sleeps.  The abstract machine has no
    scheduler: a command of any thread may be executed as soon as it is
    enabled. *)

From S2P Require Import Prelude Bits Spl Array Queue Thread ThreadSpec Synch.

Section machine.

(** The local variables of a thread and the data the threads share. *)
Context {L G : Type}.

(** A statement that touches only local variables is [CSet], [CIf] or
    [CWhile]; [CAct] is a statement that reads or writes shared data. *)
Inductive cmd :=
| CSkip
| CSet (f : L → L)
| CSeq (c1 c2 : cmd)
| CIf (b : L → bool) (c1 c2 : cmd)
| CWhile (b : L → bool) (c : cmd)
| CAct (f : L → K G L)
| CP (sem : Z)
| CV (sem : Z)
| CAcquire (l : Z)
| CRelease (l : Z)
| CWait (cv l : Z)
| CSignal (cv l : Z)
| CBroadcast (cv l : Z)
| CClocksleep (num_secs : Z).

(** Local statements are executed up to the next one that can be observed;
    other threads cannot tell when that happens.  The fuel bounds the number
    of local statements between two observable ones. *)
Fixpoint norm (fuel : nat) (l : L) (k : list cmd) : option (L * list cmd) :=
  match fuel with
  | O => None
  | S fuel =>
    match k with
    | CSkip :: k => norm fuel l k
    | CSet f :: k => norm fuel (f l) k
    | CSeq c1 c2 :: k => norm fuel l (c1 :: c2 :: k)
    | CIf b c1 c2 :: k => norm fuel l ((if b l then c1 else c2) :: k)
    | CWhile b c :: k => if b l then norm fuel l (c :: CWhile b c :: k) else norm fuel l k
    | _ => Some (l, k)
    end
  end.

Definition LOCAL_FUEL : nat := 64.

Definition next_cmd (l : L) (k : list cmd) : option (L * list cmd) := norm LOCAL_FUEL l k.

(** Parts of a sequence of commands. *)
Fixpoint seq_drop (n : nat) (c : cmd) : cmd :=
  match n, c with
  | S n, CSeq _ c2 => seq_drop n c2
  | _, _ => c
  end.

Definition at_seq (n : nat) (c : cmd) (k : list cmd) : list cmd :=
  match seq_drop n c with
  | CSeq a b => a :: b :: k
  | a => a :: k
  end.

(** ** The concrete machine *)

(** Where a thread is: about to execute the head of [k]; asleep, or woken and
    not yet running, inside [P], [lock_acquire], [cv_wait] or [clocksleep];
    preempted; created and not yet started; exited. *)
Inductive ctl :=
| At (l : L) (k : list cmd)
| InP (sem spl : Z) (l : L) (k : list cmd)
| InAcquire (p spl : Z) (l : L) (k : list cmd)
| InWait (cv p spl : Z) (l : L) (k : list cmd)
| InClock (num_secs spl : Z) (l : L) (k : list cmd)
| Preempted (f : irqframe) (l : L) (k : list cmd)
| New (l : L) (k : list cmd)
| Exited (l : L).

Record cfg := Cfg { c_sys : sys; c_g : G; c_ctl : gmap Z ctl }.

Definition set_sys (x : sys) (c : cfg) : cfg := Cfg x (c_g c) (c_ctl c).
Definition set_g (x : G) (c : cfg) : cfg := Cfg (c_sys c) x (c_ctl c).

Definition on_sys {A} (k : K sys A) : K cfg A := zoom c_sys set_sys k.

Definition set_ctl (t : Z) (x : ctl) : K cfg unit :=
  c ← kget; kput (Cfg (c_sys c) (c_g c) (<[t := x]> (c_ctl c))).

Definition goto (t : Z) (l : L) (k : list cmd) : K cfg unit :=
  match next_cmd l k with
  | None => kdiverge
  | Some (l, k) => set_ctl t (At l k)
  end.

Section run.
Context (synchprobs : bool) (lbolt : Z).

Definition run_cmd (t : Z) (l : L) (c : cmd) (k : list cmd) : K cfg unit :=
  match c with
  | CAct f => l ← zoom c_g set_g (f l); goto t l k
  | CP sem =>
    p ← on_sys (P sem);
    match p.2 with
    | None => goto t l k
    | Some _ => set_ctl t (InP sem p.1 l k)
    end
  | CV sem => on_sys (V sem);; goto t l k
  | CAcquire q =>
    p ← on_sys (lock_acquire q);
    match p.2 with
    | None => goto t l k
    | Some _ => set_ctl t (InAcquire q p.1 l k)
    end
  | CRelease q => on_sys (lock_release q);; goto t l k
  | CWait cv q => p ← on_sys (cv_wait cv q); set_ctl t (InWait cv q p.1 l k)
  | CSignal cv q => on_sys (cv_signal cv q);; goto t l k
  | CBroadcast cv q => on_sys (cv_broadcast cv q);; goto t l k
  | CClocksleep n =>
    p ← on_sys (on_thr (clocksleep lbolt n));
    match p.2 with
    | None => goto t l k
    | Some _ => set_ctl t (InClock n p.1 l k)
    end
  | _ => goto t l (c :: k)
  end.

(** One step of the running thread; nothing happens while the processor
    idles. *)
Definition run : K cfg unit :=
  c ← kget;
  let t := curthread (s_thr (c_sys c)) in
  match c_ctl c !! t with
  | None => mret tt
  | Some (At l []) => on_sys (on_thr thread_exit);; set_ctl t (Exited l)
  | Some (At l (x :: k)) => run_cmd t l x k
  | Some (InP sem spl l k) =>
    o ← on_sys (P_return sem spl);
    match o with None => goto t l k | Some _ => set_ctl t (InP sem spl l k) end
  | Some (InAcquire q spl l k) =>
    o ← on_sys (lock_acquire_return q spl);
    match o with None => goto t l k | Some _ => set_ctl t (InAcquire q spl l k) end
  | Some (InWait cv q spl l k) =>
    on_sys (cv_wait_return spl);; set_ctl t (At l (CAcquire q :: k))
  | Some (InClock n spl l k) =>
    o ← on_sys (on_thr (clocksleep_return lbolt n spl));
    match o with None => goto t l k | Some _ => set_ctl t (InClock (n - 1) spl l k) end
  | Some (Preempted f l k) => on_sys (on_thr (preempt_return f));; set_ctl t (At l k)
  | Some (New l k) => on_sys (on_thr mi_threadstart);; set_ctl t (At l k)
  | Some (Exited _) => kpanic
  end.

(** The timer: it interrupts the idle loop, and a thread that runs with
    interrupts enabled; otherwise it has to wait. *)
Definition tick : K cfg unit :=
  c ← kget;
  let t := curthread (s_thr (c_sys c)) in
  if t =? NULL then on_sys (on_thr (idle_tick synchprobs lbolt));; mret tt
  else if Z.testbit (c0_status (tcpu (s_thr (c_sys c)))) 0 then
    match c_ctl c !! t with
    | Some (At l k) =>
      p ← on_sys (on_thr (timer_interrupt synchprobs lbolt));
      set_ctl t (Preempted p.1 l k)
    | _ => kundef
    end
  else mret tt.

Inductive event := Run | Tick.

Definition machine_step (e : event) : K cfg unit :=
  match e with Run => run | Tick => tick end.

Fixpoint machine (es : list event) : K cfg unit :=
  match es with
  | [] => mret tt
  | e :: es => machine_step e;; machine es
  end.

End run.

(** ** The abstract machine *)

(** A thread about to execute the head of [k] ([[]]: finished), waiting on a
    condition variable, or sleeping on the clock. *)
Inductive actl :=
| ARun (l : L) (k : list cmd)
| AWait (cv p : Z) (l : L) (k : list cmd)
| AClock (num_secs : Z) (l : L) (k : list cmd).

(** Counts of the semaphores, holders of the locks (0: free), queues of the
    condition variables. *)
Record astate := AState {
  a_sems : gmap Z Z;
  a_locks : gmap Z Z;
  a_cvs : gmap Z (list Z);
  a_g : G;
  a_thr : gmap Z actl
}.

Definition jump (t : Z) (l : L) (k : list cmd) (a : astate) (Q : astate → Prop) : Prop :=
  match next_cmd l k with
  | None => False
  | Some (l, k) => Q (AState (a_sems a) (a_locks a) (a_cvs a) (a_g a) (<[t := ARun l k]> (a_thr a)))
  end.

Lemma next_cmd_eq l k : next_cmd l k = norm LOCAL_FUEL l k.
Proof. done. Qed.

Lemma jump_inv t l k a Q :
  jump t l k a Q → ∃ l' k', next_cmd l k = Some (l', k') ∧
    Q (AState (a_sems a) (a_locks a) (a_cvs a) (a_g a) (<[t := ARun l' k']> (a_thr a))).
Proof. unfold jump. destruct (next_cmd l k) as [[l' k']|]; [eauto|done]. Qed.

Lemma goto_eq t l k l' k' : next_cmd l k = Some (l', k') → goto t l k = set_ctl t (At l' k').
Proof. intros H. unfold goto. by rewrite H. Qed.

Definition awaken (x : actl) : actl :=
  match x with
  | AWait _ p l k => ARun l (CAcquire p :: k)
  | _ => x
  end.

(** A thread taken off a condition variable has to get the lock again. *)
Definition awaken_all (q : list Z) (m : gmap Z actl) : gmap Z actl :=
  foldl (λ m u, alter awaken u m) m q.

Definition set_asems (x : gmap Z Z) (a : astate) : astate :=
  AState x (a_locks a) (a_cvs a) (a_g a) (a_thr a).
Definition set_alocks (x : gmap Z Z) (a : astate) : astate :=
  AState (a_sems a) x (a_cvs a) (a_g a) (a_thr a).
Definition set_acvs (x : gmap Z (list Z)) (a : astate) : astate :=
  AState (a_sems a) (a_locks a) x (a_g a) (a_thr a).
Definition set_ag (x : G) (a : astate) : astate :=
  AState (a_sems a) (a_locks a) (a_cvs a) x (a_thr a).
Definition set_athr (x : gmap Z actl) (a : astate) : astate :=
  AState (a_sems a) (a_locks a) (a_cvs a) (a_g a) x.

(** [awp t a Q]: the next command of thread [t] does not go wrong in [a], and
    if it is enabled, every state it leads to satisfies [Q]. *)
Definition awp (t : Z) (a : astate) (Q : astate → Prop) : Prop :=
  match a_thr a !! t with
  | Some (ARun l (c :: k)) =>
    match c with
    | CAct f => ∀ m, mem_ok m →
        wp (f l) (λ l' w, mem_ok (wmem w) ∧ jump t l' k (set_ag (wst w) a) Q) (World (a_g a) m)
    | CP s => ∃ n, a_sems a !! s = Some n ∧
        (0 < n → jump t l k (set_asems (<[s := n - 1]> (a_sems a)) a) Q)
    | CV s => ∃ n, a_sems a !! s = Some n ∧ n < 2 ^ 31 - 1 ∧
        jump t l k (set_asems (<[s := n + 1]> (a_sems a)) a) Q
    | CAcquire p => ∃ o, a_locks a !! p = Some o ∧
        (o = 0 → jump t l k (set_alocks (<[p := t]> (a_locks a)) a) Q)
    | CRelease p => is_Some (a_locks a !! p) ∧
        jump t l k (set_alocks (<[p := 0]> (a_locks a)) a) Q
    | CWait cv p => is_Some (a_locks a !! p) ∧ ∃ q, a_cvs a !! cv = Some q ∧
        Q (set_athr (<[t := AWait cv p l k]> (a_thr a))
            (set_acvs (<[cv := q ++ [t]]> (a_cvs a))
              (set_alocks (<[p := 0]> (a_locks a)) a)))
    | CSignal cv p => p ≠ NULL ∧ ∃ u q, a_cvs a !! cv = Some (u :: q) ∧
        jump t l k (set_athr (awaken_all [u] (a_thr a)) (set_acvs (<[cv := q]> (a_cvs a)) a)) Q
    | CBroadcast cv p => p ≠ NULL ∧ ∃ q, a_cvs a !! cv = Some q ∧
        jump t l k (set_athr (awaken_all q (a_thr a)) (set_acvs (<[cv := []]> (a_cvs a)) a)) Q
    | CClocksleep n =>
        if 0 <? n then Q (set_athr (<[t := AClock n l k]> (a_thr a)) a) else jump t l k a Q
    | _ => jump t l (c :: k) a Q
    end
  | Some (AClock n l k) =>
    if 0 <? n - 1 then Q (set_athr (<[t := AClock (n - 1) l k]> (a_thr a)) a) else jump t l k a Q
  | _ => True
  end.

(** Thread [t] has finished. *)
Definition finished (a : astate) (t : Z) : Prop :=
  ∃ l, a_thr a !! t = Some (ARun l []).

(** Thread [t] cannot go on by itself. *)
Definition blocked (a : astate) (t : Z) : Prop :=
  match a_thr a !! t with
  | Some (ARun _ (CP s :: _)) => a_sems a !! s = Some 0
  | Some (ARun _ (CAcquire p :: _)) => ∃ o, a_locks a !! p = Some o ∧ o ≠ 0
  | Some (AWait _ _ _ _) => True
  | _ => False
  end.

(** An invariant of the abstract machine: safe, and preserved by every step. *)
Definition ainv (I : astate → Prop) : Prop := ∀ a t, I a → awp t a I.

End machine.

#[global] Strategy opaque [next_cmd].

Arguments cmd : clear implicits.
Arguments ctl : clear implicits.
Arguments actl : clear implicits.
Arguments cfg : clear implicits.
Arguments astate : clear implicits.
