(* ===== verification/MachineLinks.v ===== *)
(** * The bookkeeping of the concrete machine

    What the positions of the threads of Machine.v have to do with the view of
    the thread system and with the state of the synchronisation objects, and
    how each change of the view keeps it.  In particular a thread sleeps on a
    semaphore only while its count is zero and on a lock only while it is
    held: no wakeup is lost. *)

From S2P Require Import Prelude Bits Spl Array Queue Thread ThreadSpec Synch Machine.

(** ** Views *)

Definition place (v : tview) : list Z :=
  option_list (v_cur v) ++ (v_run v).*1 ++ (v_sleep v).*1.

Definition wake (p : Z) (v : tview) : tview :=
  TView (v_cur v) (v_intr v) (v_run v ++ woken p (v_sleep v)) (kept_asleep p (v_sleep v))
    (v_zomb v) (v_cpu v).

Lemma elem_woken p sl t i : (t, i) ∈ woken p sl ↔ i = 0 ∧ (t, p) ∈ sl.
Proof.
  unfold woken. rewrite list_elem_of_fmap. split.
  - intros ([u q] & [= -> ->] & [Hq Hu]%list_elem_of_filter). simpl in Hq. by subst.
  - intros [-> Ht]. exists (t, p). split; [done|]. by apply list_elem_of_filter.
Qed.

Lemma elem_kept p sl t q : (t, q) ∈ kept_asleep p sl ↔ q ≠ p ∧ (t, q) ∈ sl.
Proof. unfold kept_asleep. by rewrite list_elem_of_filter. Qed.

Lemma woken_kept p sl : (woken p sl).*1 ++ (kept_asleep p sl).*1 ≡ₚ sl.*1.
Proof.
  induction sl as [|[t q] sl IH]; [done|]. unfold woken, kept_asleep in *.
  destruct (decide (q = p)) as [->|Hq].
  - rewrite (filter_cons_True _ (t, p)), (filter_cons_False _ (t, p)) by (simpl; tauto).
    rewrite !fmap_cons. simpl. by rewrite IH.
  - rewrite (filter_cons_False _ (t, q)), (filter_cons_True _ (t, q)) by done.
    rewrite !fmap_cons. simpl. rewrite <- IH. solve_Permutation.
Qed.

Lemma place_wake p v : place (wake p v) ≡ₚ place v.
Proof.
  unfold place, wake. tcbn. rewrite fmap_app, <- (woken_kept p (v_sleep v)). solve_Permutation.
Qed.

Lemma place_pick v : v_cur v = None → place (pick v).1 ≡ₚ place v.
Proof.
  destruct v as [c i run sl z cp]. unfold place, pick. tcbn. intros ->. by destruct run as [|[]].
Qed.

Section links.
Context {L G : Type}.
Context (lbolt : Z) (cp0 : cpu).

Implicit Types (x : ctl L G) (ctls : gmap Z (ctl L G)) (sems locks : gmap Z Z).

(** The addresses of the objects; they are all different, since [kmalloc]
    gave them out. *)
Record addrs := Addrs { D_sems : gset Z; D_locks : gset Z; D_cvs : gset Z; D_thr : gset Z }.

Record addrs_ok (D : addrs) : Prop := AddrsOk {
  ad_null : NULL ∉ D_sems D ∪ D_locks D ∪ D_cvs D ∪ D_thr D;
  ad_lbolt : lbolt ∉ D_sems D ∪ D_locks D ∪ D_thr D;
  ad_sems_locks : D_sems D ## D_locks D;
  ad_sems_thr : D_sems D ## D_thr D;
  ad_locks_thr : D_locks D ## D_thr D
}.

Context (D : addrs).

Definition intr_of x : Z := match x with Preempted _ _ _ => 1 | _ => 0 end.

(** Waiting for the processor, or asleep. *)
Definition suspended x : Prop :=
  match x with At _ _ | Exited _ => False | _ => True end.

Definition exited x : Prop := match x with Exited _ => True | _ => False end.

(** What the thread keeps to restore was saved by a thread at level 0. *)
Definition frame_ok x : Prop :=
  match x with
  | InP _ spl _ _ | InAcquire _ spl _ _ | InWait _ _ spl _ _ | InClock _ spl _ _ => spl = curspl cp0
  | Preempted f _ _ => f = frame_of cp0
  | _ => True
  end.

(** The running thread: with interrupts enabled unless it was just switched
    to. *)
Definition cur_ok x (v : tview) : Prop :=
  match x with
  | At _ _ => v_intr v = 0 ∧ v_cpu v = cp0
  | Exited _ => False
  | _ => v_intr v = intr_of x ∧ v_cpu v = high cp0
  end.

(** Thread [t] sleeps on address [p], for a reason that still holds. *)
Definition sleeps_on sems locks (t : Z) x (p : Z) : Prop :=
  match x with
  | InP s _ _ _ => p = s ∧ sems !! s = Some 0
  | InAcquire q _ _ _ => p = q ∧ ∃ o, locks !! q = Some o ∧ o ≠ 0
  | InWait _ _ _ _ _ => p = t
  | InClock _ _ _ _ => p = lbolt
  | _ => False
  end.

(** The abstract thread, given whether the concrete one is asleep. *)
Definition abs_of (asleep : bool) x : actl L G :=
  match x with
  | At l k | Preempted _ l k | New l k => ARun l k
  | InP s _ l k => ARun l (CP s :: k)
  | InAcquire p _ l k => ARun l (CAcquire p :: k)
  | InWait cv p _ l k => if asleep then AWait cv p l k else ARun l (CAcquire p :: k)
  | InClock n _ l k => AClock n l k
  | Exited l => ARun l []
  end.

Definition asleep (v : tview) (t : Z) : bool := bool_decide (t ∈ (v_sleep v).*1).

Definition abs_thr ctls (v : tview) : gmap Z (actl L G) :=
  map_imap (λ t x, Some (abs_of (asleep v t) x)) ctls.

Lemma lookup_abs ctls v t : abs_thr ctls v !! t = abs_of (asleep v t) <$> ctls !! t.
Proof. unfold abs_thr. rewrite map_lookup_imap. by destruct (ctls !! t). Qed.

Record links ctls sems locks (cvq : gmap Z (list Z)) (v : tview) : Prop := Links {
  lk_ctls : dom ctls = D_thr D;
  lk_sems : dom sems = D_sems D;
  lk_locks : dom locks = D_locks D;
  lk_cvs : dom cvq = D_cvs D;
  lk_nodup : NoDup (place v);
  lk_known t : t ∈ place v → is_Some (ctls !! t);
  lk_where t x : ctls !! t = Some x → exited x ∨ t ∈ place v;
  lk_frame t x : ctls !! t = Some x → frame_ok x;
  lk_idle : v_cur v = None → v_cpu v = high cp0 ∧ (v_run v = [] → v_intr v = 0);
  lk_run t i x : (t, i) ∈ v_run v → ctls !! t = Some x → suspended x ∧ intr_of x = i;
  lk_sleep t p x : (t, p) ∈ v_sleep v → ctls !! t = Some x → sleeps_on sems locks t x p;
  lk_cvq cv q : cvq !! cv = Some q → NoDup q ∧ ∀ t, t ∈ q → (t, t) ∈ v_sleep v ∧
    ∃ p spl l k, ctls !! t = Some (InWait cv p spl l k)
}.

(** ** Changes *)

Lemma links_pick ctls sems locks cvq v :
  links ctls sems locks cvq v → v_cur v = None →
  links ctls sems locks cvq (pick v).1 ∧
  (∀ t x, v_cur (pick v).1 = Some t → ctls !! t = Some x → cur_ok x (pick v).1).
Proof.
  intros [] Hc. pose proof (place_pick v Hc) as HP. unfold pick in *.
  destruct (v_run v) as [|[t i] r] eqn:Hr.
  { cbn [fst]. split; [by split; rewrite ?Hr in *|]. intros. congruence. }
  destruct (lk_idle0 Hc) as [Hcpu _]. cbn [fst] in *. split.
  - split; tcbn; try done.
    + by rewrite HP.
    + intros u. rewrite HP. apply lk_known0.
    + intros u x Hx. rewrite HP. by eapply lk_where0.
    + intros u j x Hu. apply lk_run0. by right.
  - intros u x [= <-] Hx. tcbn. destruct (lk_run0 t i x) as [Hs Hi]; [by left|done|].
    unfold cur_ok. tcbn. by destruct x.
Qed.

Lemma abs_pick ctls v : abs_thr ctls (pick v).1 = abs_thr ctls v.
Proof. unfold pick. by destruct (v_run v) as [|[]]. Qed.

Lemma sleeps_suspended sems locks t x p : sleeps_on sems locks t x p → suspended x ∧ intr_of x = 0.
Proof. by destruct x. Qed.

Lemma links_wake ctls sems locks cvq v p :
  links ctls sems locks cvq v → (∀ cv q, cvq !! cv = Some q → p ∉ q) →
  links ctls sems locks cvq (wake p v).
Proof.
  intros [] Hp. pose proof (place_wake p v) as HP. split; try done.
  - by rewrite HP.
  - intros u. rewrite HP. apply lk_known0.
  - intros u x Hx. rewrite HP. by eapply lk_where0.
  - intros Hc. destruct (lk_idle0 Hc) as [H1 H2]. split; [done|]. cbn. intros [Hr _]%app_nil.
    by apply H2.
  - cbn. intros t i x. rewrite elem_of_app, elem_woken. intros [Ht|[-> Ht]] Hx.
    + by eapply lk_run0.
    + by eapply sleeps_suspended, lk_sleep0.
  - cbn. intros t q x. rewrite elem_kept. intros [_ Ht]. by eapply lk_sleep0.
  - intros cv q Hq. destruct (lk_cvq0 _ _ Hq) as [Hnd Hin]. split; [done|].
    intros t Ht. destruct (Hin t Ht) as [Hs Hx]. split; [|done]. cbn. rewrite elem_kept.
    split; [|done]. intros ->. by eapply Hp.
Qed.

Lemma asleep_spec v t : asleep v t = true ↔ ∃ p, (t, p) ∈ v_sleep v.
Proof.
  unfold asleep. rewrite bool_decide_eq_true, list_elem_of_fmap. split.
  - intros ([u p] & -> & Hu). by exists p.
  - intros (p & Hp). by exists (t, p).
Qed.

Lemma asleep_ext v v' t :
  (∃ p, (t, p) ∈ v_sleep v) ↔ (∃ p, (t, p) ∈ v_sleep v') → asleep v t = asleep v' t.
Proof.
  rewrite <- !asleep_spec. destruct (asleep v t), (asleep v' t); naive_solver.
Qed.

Lemma asleep_false v t : (∀ p, (t, p) ∉ v_sleep v) → asleep v t = false.
Proof.
  intros H. destruct (asleep v t) eqn:E; [|done]. apply asleep_spec in E as (p & Hp).
  by destruct (H p).
Qed.

Lemma sleep_unique v t p q :
  NoDup (place v) → (t, p) ∈ v_sleep v → (t, q) ∈ v_sleep v → p = q.
Proof.
  intros (_ & _ & (_ & _ & Hnd)%NoDup_app)%NoDup_app Hp Hq.
  apply list_elem_of_lookup in Hp as (i & Hi). apply list_elem_of_lookup in Hq as (j & Hj).
  assert (i = j) as ->.
  { eapply NoDup_lookup; [done|..]; rewrite list_lookup_fmap; [by rewrite Hi|by rewrite Hj]. }
  congruence.
Qed.

(** Waking the sleepers of an address that is not a thread leaves the abstract
    threads as they are. *)
Lemma abs_wake_other ctls sems locks cvq v p :
  links ctls sems locks cvq v → p ∉ D_thr D → abs_thr ctls (wake p v) = abs_thr ctls v.
Proof.
  intros Hlk Hp. apply map_eq. intros t. rewrite !lookup_abs.
  destruct (ctls !! t) as [x|] eqn:Hx; [|done]. cbn. f_equal.
  destruct x; try done. cbn.
  enough (asleep (wake p v) t = asleep v t) as -> by done.
  apply asleep_ext. cbn. split; intros (q & Hq).
  - apply elem_kept in Hq as [_ Hq]. by exists q.
  - exists q. apply elem_kept. split; [|done]. pose proof (lk_sleep _ _ _ _ _ Hlk _ _ _ Hq Hx) as ->.
    intros ->. apply Hp. rewrite <- (lk_ctls _ _ _ _ _ Hlk). by eapply elem_of_dom_2.
Qed.

(** Waking all sleepers of a semaphore, a lock or the clock. *)
Lemma links_wake_object ctls sems locks cvq v p :
  links ctls sems locks cvq v → p ∉ D_thr D →
  links ctls sems locks cvq (wake p v) ∧ abs_thr ctls (wake p v) = abs_thr ctls v ∧
  ∀ u, (u, p) ∉ v_sleep (wake p v).
Proof.
  intros Hlk Hp. split_and!; [|by eapply abs_wake_other|].
  - apply links_wake; [done|]. intros cv q Hq Hin. apply Hp.
    destruct (lk_cvq _ _ _ _ _ Hlk cv q Hq) as [_ Hall].
    destruct (Hall p Hin) as [_ (? & ? & ? & ? & Hx)].
    rewrite <- (lk_ctls _ _ _ _ _ Hlk). by eapply elem_of_dom_2.
  - cbn. intros u. rewrite elem_kept. tauto.
Qed.

(** Waking a thread that waits on a condition variable. *)
Lemma abs_wake_thread ctls sems locks cvq v u cv p spl l k :
  links ctls sems locks cvq v → ctls !! u = Some (InWait cv p spl l k) → (u, u) ∈ v_sleep v →
  abs_thr ctls (wake u v) = alter awaken u (abs_thr ctls v).
Proof.
  intros Hlk Hu Hs. apply map_eq. intros t. destruct (decide (t = u)) as [->|Hne].
  - rewrite lookup_alter_eq, !lookup_abs, Hu. cbn. f_equal.
    rewrite asleep_false. 2: { cbn. intros q [Hq Hq2]%elem_kept. apply Hq.
      eapply sleep_unique; [by eapply lk_nodup|done..]. }
    by rewrite (proj2 (asleep_spec v u)) by eauto.
  - rewrite lookup_alter_ne, !lookup_abs by done. destruct (ctls !! t) as [x|] eqn:Hx; [|done].
    cbn. f_equal. destruct x; try done. cbn.
    enough (asleep (wake u v) t = asleep v t) as -> by done.
    apply asleep_ext. cbn. split; intros (q & Hq).
    + apply elem_kept in Hq as [_ Hq]. by exists q.
    + exists q. apply elem_kept. split; [|done].
      by pose proof (lk_sleep _ _ _ _ _ Hlk _ _ _ Hq Hx) as ->.
Qed.

(** An object nobody sleeps on may change. *)
Lemma links_sems ctls sems locks cvq v p n :
  links ctls sems locks cvq v → is_Some (sems !! p) → (∀ t, (t, p) ∉ v_sleep v) →
  links ctls (<[p := n]> sems) locks cvq v.
Proof.
  intros [] Hp Hno. split; try done; [by rewrite dom_insert_lookup_L|].
  intros t q x Ht Hx. specialize (lk_sleep0 t q x Ht Hx). destruct x; try done.
  cbn in *. destruct lk_sleep0 as [-> H]. split; [done|].
  rewrite lookup_insert_ne; [done|]. intros ->. by eapply Hno.
Qed.

Lemma links_locks ctls sems locks cvq v p n :
  links ctls sems locks cvq v → is_Some (locks !! p) → (∀ t, (t, p) ∉ v_sleep v) →
  links ctls sems (<[p := n]> locks) cvq v.
Proof.
  intros [] Hp Hno. split; try done; [by rewrite dom_insert_lookup_L|].
  intros t q x Ht Hx. specialize (lk_sleep0 t q x Ht Hx). destruct x; try done.
  cbn in *. destruct lk_sleep0 as [-> H]. split; [done|].
  rewrite lookup_insert_ne; [done|]. intros ->. by eapply Hno.
Qed.

(** A condition variable loses or gets a waiter. *)
Lemma links_cv ctls sems locks cvq v cv q q' :
  links ctls sems locks cvq v → cvq !! cv = Some q → NoDup q' →
  (∀ t, t ∈ q' → t ∈ q ∨ (t, t) ∈ v_sleep v ∧
     ∃ p spl l k, ctls !! t = Some (InWait cv p spl l k)) →
  links ctls sems locks (<[cv := q']> cvq) v.
Proof.
  intros [] Hq Hnd Hin. split; try done; [by rewrite dom_insert_lookup_L|].
  intros cv' q0. destruct (decide (cv' = cv)) as [->|Hne].
  - rewrite lookup_insert_eq. intros [= <-]. split; [done|]. intros t Ht.
    destruct (Hin t Ht) as [Ht'|Ht']; [|done]. by apply (lk_cvq0 cv q Hq).
  - rewrite lookup_insert_ne by done. apply lk_cvq0.
Qed.

(** The running thread moves. *)
Lemma links_move ctls sems locks cvq v v' t x' :
  links ctls sems locks cvq v → v_cur v = Some t → NoDup (place v') →
  (∀ u, u ≠ t → u ∈ place v' ↔ u ∈ place v) → exited x' ∨ t ∈ place v' → frame_ok x' →
  (v_cur v' = None → v_cpu v' = high cp0 ∧ (v_run v' = [] → v_intr v' = 0)) →
  (∀ u i, (u, i) ∈ v_run v' → (u, i) ∈ v_run v ∨ u = t ∧ suspended x' ∧ intr_of x' = i) →
  (∀ u p, (u, p) ∈ v_sleep v' → (u, p) ∈ v_sleep v ∨ u = t ∧ sleeps_on sems locks t x' p) →
  (∀ u p, (u, p) ∈ v_sleep v → (u, p) ∈ v_sleep v') →
  links (<[t := x']> ctls) sems locks cvq v'.
Proof.
  intros [] Hc Hnd Hpl Hx' Hf Hid Hr Hs Hs'.
  assert (is_Some (ctls !! t)) as Ht.
  { apply lk_known0. unfold place. rewrite Hc. by left. }
  assert (∀ p, (t, p) ∉ v_sleep v ∧ (t, p) ∉ v_run v) as Hni.
  { intros p. unfold place in lk_nodup0. rewrite Hc in lk_nodup0.
    apply NoDup_cons in lk_nodup0 as [Hni _]. split; intros H; apply Hni; rewrite elem_of_app;
      [right|left]; by eapply elem_fst. }
  split; try done.
  - by rewrite dom_insert_lookup_L.
  - intros u Hu. destruct (decide (u = t)) as [->|Hne]; [by rewrite lookup_insert_eq|].
    rewrite lookup_insert_ne by done. by apply lk_known0, Hpl.
  - intros u x. destruct (decide (u = t)) as [->|Hne].
    + rewrite lookup_insert_eq. by intros [= <-].
    + rewrite lookup_insert_ne by done. intros Hx. rewrite Hpl by done. by eapply lk_where0.
  - intros u x. destruct (decide (u = t)) as [->|Hne].
    + rewrite lookup_insert_eq. by intros [= <-].
    + rewrite lookup_insert_ne by done. apply lk_frame0.
  - intros u i x Hu. destruct (Hr u i Hu) as [H|(-> & H)].
    + rewrite lookup_insert_ne; [by apply lk_run0|]. intros ->. by destruct (Hni i).
    + rewrite lookup_insert_eq. by intros [= <-].
  - intros u p x Hu. destruct (Hs u p Hu) as [H|(-> & H)].
    + rewrite lookup_insert_ne; [by apply lk_sleep0|]. intros ->. by destruct (Hni p).
    + rewrite lookup_insert_eq. by intros [= <-].
  - intros cv q Hq. destruct (lk_cvq0 cv q Hq) as [Hq1 Hq2]. split; [done|].
    intros u Hu. destruct (Hq2 u Hu) as [H1 H2]. split; [by apply Hs'|].
    rewrite lookup_insert_ne; [done|]. intros ->. by destruct (Hni u).
Qed.

Lemma abs_move ctls v v' t x' :
  (∀ u, u ≠ t → asleep v' u = asleep v u) →
  abs_thr (<[t := x']> ctls) v' = <[t := abs_of (asleep v' t) x']> (abs_thr ctls v).
Proof.
  intros H. apply map_eq. intros u. rewrite lookup_abs. destruct (decide (u = t)) as [->|Hne].
  - by rewrite !lookup_insert_eq.
  - rewrite !lookup_insert_ne, lookup_abs by done. by rewrite H.
Qed.

Lemma cur_awake v t : NoDup (place v) → v_cur v = Some t → asleep v t = false.
Proof.
  intros Hnd Hc. unfold place in Hnd. rewrite Hc in Hnd. apply NoDup_cons in Hnd as [Hni _].
  apply asleep_false. intros p Hp. apply Hni. rewrite elem_of_app. right. by eapply elem_fst.
Qed.

(** The interrupt level and context of the running thread do not matter. *)
Lemma links_view ctls sems locks cvq v t i' z' cp' :
  links ctls sems locks cvq v → v_cur v = Some t →
  let v' := TView (Some t) i' (v_run v) (v_sleep v) z' cp' in
  links ctls sems locks cvq v' ∧ abs_thr ctls v' = abs_thr ctls v.
Proof.
  intros [] Hc v'. split; [|done].
  assert (place v' = place v) as HP by (unfold place; by rewrite Hc).
  split; rewrite ?HP; try done.
Qed.

(** Who sleeps on an address of an object is waiting for that object. *)
Lemma sleep_sem ctls sems locks cvq v t p n :
  addrs_ok D → links ctls sems locks cvq v → sems !! p = Some n → (t, p) ∈ v_sleep v → n = 0.
Proof.
  intros HD Hlk Hp Ht. pose proof (elem_of_dom_2 _ _ _ Hp) as Hd.
  rewrite (lk_sems _ _ _ _ _ Hlk) in Hd.
  destruct (lk_known _ _ _ _ _ Hlk t) as [x Hx].
  { unfold place. rewrite !elem_of_app. right; right. by eapply elem_fst. }
  pose proof (elem_of_dom_2 _ _ _ Hx) as Hdt. rewrite (lk_ctls _ _ _ _ _ Hlk) in Hdt.
  pose proof (lk_sleep _ _ _ _ _ Hlk t p x Ht Hx) as Hs. destruct HD.
  destruct x; try done; cbn in Hs.
  - destruct Hs as [<- Hs]. congruence.
  - destruct Hs as [<- (o & Ho & _)]. apply elem_of_dom_2 in Ho.
    rewrite (lk_locks _ _ _ _ _ Hlk) in Ho. set_solver.
  - set_solver.
  - set_solver.
Qed.

Lemma sleep_lock ctls sems locks cvq v t p o :
  addrs_ok D → links ctls sems locks cvq v → locks !! p = Some o → (t, p) ∈ v_sleep v → o ≠ 0.
Proof.
  intros HD Hlk Hp Ht. pose proof (elem_of_dom_2 _ _ _ Hp) as Hd.
  rewrite (lk_locks _ _ _ _ _ Hlk) in Hd.
  destruct (lk_known _ _ _ _ _ Hlk t) as [x Hx].
  { unfold place. rewrite !elem_of_app. right; right. by eapply elem_fst. }
  pose proof (elem_of_dom_2 _ _ _ Hx) as Hdt. rewrite (lk_ctls _ _ _ _ _ Hlk) in Hdt.
  pose proof (lk_sleep _ _ _ _ _ Hlk t p x Ht Hx) as Hs. destruct HD.
  destruct x; try done; cbn in Hs.
  - destruct Hs as [<- Hs]. apply elem_of_dom_2 in Hs.
    rewrite (lk_sems _ _ _ _ _ Hlk) in Hs. set_solver.
  - destruct Hs as [<- (o' & Ho & ?)]. congruence.
  - set_solver.
  - set_solver.
Qed.

(** It stays the running thread. *)
Lemma links_stay ctls sems locks cvq t i r sl z cp i' z' cp' x' :
  let v := TView (Some t) i r sl z cp in
  let v' := TView (Some t) i' r sl z' cp' in
  links ctls sems locks cvq v → frame_ok x' →
  links (<[t := x']> ctls) sems locks cvq v' ∧
  abs_thr (<[t := x']> ctls) v' = <[t := abs_of false x']> (abs_thr ctls v).
Proof.
  intros v v' Hlk Hf. split.
  - apply (links_move _ _ _ _ v); try done.
    + exact (lk_nodup _ _ _ _ _ Hlk).
    + right. by left.
    + intros; by left.
    + intros; by left.
  - rewrite (abs_move _ v) by done. do 2 f_equal. apply cur_awake; [|done].
    apply (lk_nodup _ _ _ _ _ Hlk).
Qed.

(** It goes to sleep. *)
Lemma links_sleep ctls sems locks cvq t i r sl z cp x' p :
  let v := TView (Some t) i r sl z cp in
  let v' := TView None 0 r (sl ++ [(t, p)]) z (high cp0) in
  links ctls sems locks cvq v → frame_ok x' → sleeps_on sems locks t x' p →
  links (<[t := x']> ctls) sems locks cvq v' ∧
  abs_thr (<[t := x']> ctls) v' = <[t := abs_of true x']> (abs_thr ctls v).
Proof.
  intros v v' Hlk Hf Hs.
  assert (place v' ≡ₚ place v) as HP.
  { unfold place. cbn. rewrite fmap_app. cbn. solve_Permutation. }
  split.
  - apply (links_move _ _ _ _ v); try done.
    + rewrite HP. by eapply lk_nodup.
    + intros u _. by rewrite HP.
    + right. rewrite HP. by left.
    + intros; by left.
    + cbn. intros u q. rewrite elem_of_app, list_elem_of_singleton. intros [?|[= -> ->]]; auto.
    + cbn. intros u q Hu. apply elem_of_app. by left.
  - rewrite (abs_move _ v).
    + do 2 f_equal. apply asleep_spec. exists p. cbn. apply elem_of_app. right. by left.
    + intros u Hu. apply asleep_ext. cbn. split; intros (q & Hq); exists q.
      * apply elem_of_app in Hq as [?|[= -> ->]%list_elem_of_singleton]; done.
      * apply elem_of_app. by left.
Qed.

(** It is preempted. *)
Lemma links_preempt ctls sems locks cvq t i r sl z cp l k :
  let v := TView (Some t) i r sl z cp in
  let v' := TView None 1 (r ++ [(t, 1)]) sl z (high cp0) in
  let x' := Preempted (frame_of cp0) l k in
  links ctls sems locks cvq v →
  links (<[t := x']> ctls) sems locks cvq v' ∧
  abs_thr (<[t := x']> ctls) v' = <[t := ARun l k]> (abs_thr ctls v).
Proof.
  intros v v' x' Hlk.
  assert (place v' ≡ₚ place v) as HP.
  { unfold place. cbn. rewrite fmap_app. cbn. solve_Permutation. }
  split; [|by rewrite (abs_move _ v)].
  apply (links_move _ _ _ _ v); try done.
  - rewrite HP. by eapply lk_nodup.
  - intros u _. by rewrite HP.
  - right. rewrite HP. by left.
  - intros _. split; [done|]. cbn. by intros [_ ?]%app_nil.
  - cbn. intros u q. rewrite elem_of_app, list_elem_of_singleton. intros [?|[= -> ->]]; auto.
  - intros; by left.
Qed.

(** It exits. *)
Lemma links_exit ctls sems locks cvq t r sl z z' cp l :
  let v := TView (Some t) 0 r sl z cp in
  let v' := TView None 0 r sl z' (high cp0) in
  links ctls sems locks cvq v →
  links (<[t := Exited l]> ctls) sems locks cvq v' ∧
  abs_thr (<[t := Exited l]> ctls) v' = <[t := ARun l []]> (abs_thr ctls v).
Proof.
  intros v v' Hlk. pose proof (lk_nodup _ _ _ _ _ Hlk) as Hnd.
  split; [|by rewrite (abs_move _ v)].
  apply (links_move _ _ _ _ v); try done.
  - unfold place in Hnd. by apply NoDup_cons in Hnd as [_ ?].
  - intros u Hu. unfold place. cbn. rewrite elem_of_cons. tauto.
  - by left.
  - intros; by left.
  - intros; by left.
Qed.

(** The head of the queue of a condition variable is woken. *)
Lemma links_signal ctls sems locks cvq v cv u q :
  links ctls sems locks cvq v → cvq !! cv = Some (u :: q) →
  links ctls sems locks (<[cv := q]> cvq) (wake u v) ∧
  abs_thr ctls (wake u v) = alter awaken u (abs_thr ctls v).
Proof.
  intros Hlk Hq. destruct (lk_cvq _ _ _ _ _ Hlk cv _ Hq) as [[Hu Hnd]%NoDup_cons Hin].
  destruct (Hin u) as [Hs (p & spl & l & k & Hx)]; [by left|].
  split; [|by eapply abs_wake_thread]. apply links_wake.
  - eapply links_cv; [done..|]. intros t Ht. left. by right.
  - intros cv' q' Hq'. destruct (decide (cv' = cv)) as [->|Hne].
    + rewrite lookup_insert_eq in Hq'. by injection Hq' as <-.
    + rewrite lookup_insert_ne in Hq' by done. intros Hu'.
      destruct (lk_cvq _ _ _ _ _ Hlk cv' _ Hq') as [_ Hin'].
      destruct (Hin' u Hu') as [_ (? & ? & ? & ? & ?)]. congruence.
Qed.

(** The whole queue is woken, in turn. *)
Definition wake_all (q : list Z) (v : tview) : tview := foldl (λ v u, wake u v) v q.

Lemma links_broadcast ctls sems locks cvq v cv q :
  links ctls sems locks cvq v → cvq !! cv = Some q →
  links ctls sems locks (<[cv := []]> cvq) (wake_all q v) ∧
  abs_thr ctls (wake_all q v) = awaken_all q (abs_thr ctls v).
Proof.
  revert cvq v. induction q as [|u q IH]; intros cvq v Hlk Hq.
  { split; [|done]. eapply links_cv; [done..|apply NoDup_nil_2|]. intros t []%not_elem_of_nil. }
  destruct (links_signal _ _ _ _ _ _ _ _ Hlk Hq) as [Hlk' Habs]. cbn. rewrite <- Habs.
  rewrite <- (insert_insert_eq cvq cv [] q). apply IH; [done|apply lookup_insert_eq].
Qed.

End links.
