(* ===== verification/MachineRefine.v ===== *)
(** * The concrete machine refines the abstract one

    Every step of the scheduler, of the primitives and of the timer leaves the
    concrete state related to an abstract state that satisfies the invariant
    of the client; so whatever is proved of all interleavings of the abstract
    machine holds of every execution of the real one, and the kernel code under
    it neither panics nor goes wrong. *)

From S2P Require Import Prelude Bits Spl Array Queue Thread ThreadSpec Synch SynchSpec Machine MachineLinks.

(** Compute the fields of an updated configuration or abstract state. *)
Ltac mcbn :=
  cbn [c_sys c_g c_ctl set_sys set_g a_sems a_locks a_cvs a_g a_thr set_asems set_alocks
       set_acvs set_ag set_athr set_thr set_sems set_locks set_cvs s_thr s_sems s_locks s_cvs
       count busy slept_threads wst wmem fst snd] in *.

Section refine.
Context {L G : Type}.
Context (synchprobs : bool) (lbolt : Z) (cp0 : cpu) (D : addrs).
Context (Hcp0 : cpu_ok cp0) (Hlow : curspl cp0 = 0) (HD : addrs_ok lbolt D).

Implicit Types (c : cfg L G) (a : astate L G) (v : tview) (x : ctl L G).

(** The objects and their abstract counterparts. *)
Record sysrel (S : sys) a : Prop := SysRel {
  sr_sems : a_sems a = count <$> s_sems S;
  sr_count p n : a_sems a !! p = Some n → 0 ≤ n < 2 ^ 31;
  sr_locks : a_locks a = busy <$> s_locks S;
  sr_cvs p l : a_cvs a !! p = Some l →
    ∃ q, s_cvs S !! p = Some (Cv q) ∧ queue_rep q l ∧ size q ≤ QUEUE_LIMIT
}.

Record refines0 c a v : Prop := Refines0 {
  rf_thr : thr_ok (s_thr (c_sys c)) v;
  rf_clock : clock_ok synchprobs (s_thr (c_sys c));
  rf_sys : sysrel (c_sys c) a;
  rf_g : a_g a = c_g c;
  rf_abs : a_thr a = abs_thr (c_ctl c) v;
  rf_links : links lbolt cp0 D (c_ctl c) (a_sems a) (a_locks a) (a_cvs a) v
}.

(** Between two steps: the processor idles only while no thread is runnable. *)
Record refines c a v : Prop := Refines {
  rf_base : refines0 c a v;
  rf_cur t x : v_cur v = Some t → c_ctl c !! t = Some x → cur_ok cp0 x v;
  rf_idle : v_cur v = None → v_run v = []
}.

(** The outcome of a step, for an invariant [I] of the abstract machine. *)
Definition post (I : astate L G → Prop) (_ : unit) (w : world (cfg L G)) : Prop :=
  ∃ a v, I a ∧ refines (wst w) a v ∧ mem_ok (wmem w).

#[local] Notation running t r sl z := (TView (Some t) 0 r sl z cp0).
#[local] Notation inside t r sl z := (TView (Some t) 0 r sl z (high cp0)).

Lemma set_ctl_spec (Q : unit → world (cfg L G) → Prop) t x c m :
  Q tt (World (Cfg (c_sys c) (c_g c) (<[t := x]> (c_ctl c))) m) →
  wp (set_ctl t x) Q (World c m).
Proof. intros HQ. unfold set_ctl. by kstep. Qed.

(** The relation between the objects depends only on the maps. *)
Lemma sysrel_ext S S' a a' :
  sysrel S a → a_sems a' = a_sems a → a_locks a' = a_locks a → a_cvs a' = a_cvs a →
  s_sems S' = s_sems S → s_locks S' = s_locks S → s_cvs S' = s_cvs S → sysrel S' a'.
Proof. intros [] H1 H2 H3 H4 H5 H6. by split; rewrite ?H1, ?H2, ?H3, ?H4, ?H5, ?H6. Qed.

(** The running thread goes on to its next command. *)
Lemma goto_refines I t l k c a r sl z m :
  refines0 c a (running t r sl z) → mem_ok m → jump t l k a I →
  wp (goto t l k) (post I) (World c m).
Proof.
  intros [Hok Hcl Hsr Hg Habs Hlk] Hm (l' & k' & Hn & HI)%jump_inv.
  rewrite (goto_eq _ _ _ _ _ Hn). apply set_ctl_spec.
  destruct (links_stay _ _ D _ _ _ _ t 0 r sl z cp0 0 z cp0 (At l' k') Hlk Logic.I) as [Hlk' Habs'].
  eexists _, (running t r sl z). split; [exact HI|]. split; [|done]. split.
  - split; mcbn; try done; [by eapply sysrel_ext|]. by rewrite Habs', Habs.
  - cbn. intros u x [= <-]. rewrite lookup_insert_eq. by intros [= <-].
  - done.
Qed.

(** The running thread has left the processor for the view [v']. *)
Lemma switch_refines (I : astate L G → Prop) t x' S s' m c a v' :
  I a → thr_ok s' (pick v').1 → clock_ok synchprobs s' → sysrel S a → a_g a = c_g c →
  v_cur v' = None → a_thr a = abs_thr (<[t := x']> (c_ctl c)) v' → mem_ok m →
  links lbolt cp0 D (<[t := x']> (c_ctl c)) (a_sems a) (a_locks a) (a_cvs a) v' →
  wp (set_ctl t x') (post I) (World (set_sys (set_thr s' S) c) m).
Proof.
  intros HI Hok Hcl Hsr Hg Hc Habs Hm Hlk. apply set_ctl_spec.
  destruct (links_pick _ _ _ _ _ _ _ _ Hlk Hc) as [Hlk' Hcur].
  exists a, (pick v').1. split; [done|]. split; [|done]. split; [|exact Hcur|].
  2: { unfold pick. by destruct (v_run v') as [|[]] eqn:Hr. }
  split; mcbn; try done; [by eapply sysrel_ext|]. by rewrite abs_pick.
Qed.

Lemma on_sys_spec {A} (k : K sys A) (Q : A → world (cfg L G) → Prop) c m :
  wp k (λ y w, Q y (World (set_sys (wst w) c) (wmem w))) (World (c_sys c) m) →
  wp (on_sys k) Q (World c m).
Proof. unfold on_sys. by rewrite wp_zoom. Qed.

Lemma clock_ok_eq s s' :
  clock_ok synchprobs s → lbolt_counter s' = lbolt_counter s → clock_ok synchprobs s'.
Proof. unfold clock_ok. by intros ? ->. Qed.

Lemma sem_of S a p n :
  sysrel S a → a_sems a !! p = Some n → ∃ y, s_sems S !! p = Some y ∧ count y = n ∧ 0 ≤ n < 2 ^ 31.
Proof.
  intros [Hs Hc _ _] Hp. pose proof (Hc p n Hp). rewrite Hs, lookup_fmap in Hp.
  destruct (s_sems S !! p) as [y|]; [|done]. injection Hp as <-. eauto.
Qed.

Lemma lock_of S a p o :
  sysrel S a → a_locks a !! p = Some o → ∃ y, s_locks S !! p = Some y ∧ busy y = o.
Proof.
  intros [_ _ Hl _] Hp. rewrite Hl, lookup_fmap in Hp.
  destruct (s_locks S !! p) as [y|]; [|done]. injection Hp as <-. eauto.
Qed.

(** Storing into a semaphore or a lock. *)
Lemma sysrel_sem S a p n s' :
  sysrel S a → 0 ≤ n < 2 ^ 31 →
  sysrel (set_thr s' (set_sems (<[p := Semaphore n]> (s_sems S)) S))
         (set_asems (<[p := n]> (a_sems a)) a).
Proof.
  intros [Hs Hc Hl Hq] Hn. split; mcbn; try done.
  - by rewrite Hs, fmap_insert.
  - intros q n'. destruct (decide (q = p)) as [->|].
    + rewrite lookup_insert_eq. by intros [= <-].
    + rewrite lookup_insert_ne by done. apply Hc.
Qed.

Lemma sysrel_lock S a p o s' :
  sysrel S a →
  sysrel (set_thr s' (set_locks (<[p := Lock o]> (s_locks S)) S))
         (set_alocks (<[p := o]> (a_locks a)) a).
Proof. intros [Hs Hc Hl Hq]. split; mcbn; try done. by rewrite Hl, fmap_insert. Qed.

(** ** Blocking operations *)

(** [P], from the test of the count on. *)
Lemma P_loop_refines I t p l k c a r sl z m :
  refines0 c a (inside t r sl z) → mem_ok m → I a →
  a_thr a !! t = Some (ARun l (CP p :: k)) → awp t a I →
  wp (o ← on_sys (P_loop p (curspl cp0));
      match o with None => goto t l k | Some _ => set_ctl t (InP p (curspl cp0) l k) end)
     (post I) (World c m).
Proof.
  intros [Hok Hcl Hsr Hg Habs Hlk] Hm HI Hat Hawp. unfold awp in Hawp. rewrite Hat in Hawp.
  destruct Hawp as (n & Hn & HJ). destruct (sem_of _ _ _ _ Hsr Hn) as (y & Hy & <- & Hr).
  rewrite wp_bind. apply on_sys_spec. eapply P_loop_spec; [done|done|exact Hok|exact Hy|lia|..].
  - intros H0 s' m' Hok' Hm' Hl. mcbn.
    destruct (links_sleep _ _ _ _ _ _ _ _ _ _ _ _ _ (InP p (curspl cp0) l k) p Hlk)
      as [Hlk' Habs']; [done|cbn; by rewrite Hn, H0|].
    eapply switch_refines; [done|exact Hok'|by eapply clock_ok_eq|done|done|done| |done|exact Hlk'].
    rewrite Habs'. cbn. rewrite Habs in Hat. by rewrite insert_id.
  - intros H0 s' Hok' Hl. mcbn.
    destruct (links_view _ _ _ _ _ _ _ _ t 0 z cp0 Hlk) as [Hlk' Habs']; [done|].
    eapply goto_refines; [|done|by apply HJ]. split; mcbn; try done.
    + by eapply clock_ok_eq.
    + apply sysrel_sem; [done|lia].
    + apply links_sems; [done|by eexists|]. intros u Hu.
      assert (count y = 0) by (by eapply sleep_sem). lia.
Qed.

Lemma lock_acquire_loop_refines I t p l k c a r sl z m :
  refines0 c a (inside t r sl z) → mem_ok m → I a →
  a_thr a !! t = Some (ARun l (CAcquire p :: k)) → awp t a I →
  wp (o ← on_sys (lock_acquire_loop p (curspl cp0));
      match o with None => goto t l k | Some _ => set_ctl t (InAcquire p (curspl cp0) l k) end)
     (post I) (World c m).
Proof.
  intros [Hok Hcl Hsr Hg Habs Hlk] Hm HI Hat Hawp. unfold awp in Hawp. rewrite Hat in Hawp.
  destruct Hawp as (o & Ho & HJ). destruct (lock_of _ _ _ _ Hsr Ho) as (y & Hy & <-).
  rewrite wp_bind. apply on_sys_spec. eapply lock_acquire_loop_spec; [done|done|exact Hok|exact Hy|..].
  - intros H0 s' m' Hok' Hm' Hl. mcbn.
    destruct (links_sleep _ _ _ _ _ _ _ _ _ _ _ _ _ (InAcquire p (curspl cp0) l k) p Hlk)
      as [Hlk' Habs']; [done|cbn; eauto|].
    eapply switch_refines; [done|exact Hok'|by eapply clock_ok_eq|done|done|done| |done|exact Hlk'].
    rewrite Habs'. cbn. rewrite Habs in Hat. by rewrite insert_id.
  - intros H0 s' Hok' Hl. mcbn.
    destruct (links_view _ _ _ _ _ _ _ _ t 0 z cp0 Hlk) as [Hlk' Habs']; [done|].
    eapply goto_refines; [|done|by apply HJ]. split; mcbn; try done.
    + by eapply clock_ok_eq.
    + by apply sysrel_lock.
    + apply links_locks; [done|by eexists|]. intros u Hu.
      assert (busy y ≠ 0) by (by eapply sleep_lock). done.
Qed.

(** ** The other operations *)

Lemma sem_addr c a v p n :
  refines0 c a v → a_sems a !! p = Some n → p ≠ NULL ∧ p ∉ D_thr D.
Proof.
  intros Hrf Hp. apply elem_of_dom_2 in Hp. rewrite (lk_sems _ _ _ _ _ _ _ _ (rf_links _ _ _ Hrf)) in Hp.
  destruct HD. set_solver.
Qed.

Lemma lock_addr c a v p n :
  refines0 c a v → a_locks a !! p = Some n → p ≠ NULL ∧ p ∉ D_thr D.
Proof.
  intros Hrf Hp. apply elem_of_dom_2 in Hp. rewrite (lk_locks _ _ _ _ _ _ _ _ (rf_links _ _ _ Hrf)) in Hp.
  destruct HD. set_solver.
Qed.

Lemma cv_addr c a v p q : refines0 c a v → a_cvs a !! p = Some q → p ≠ NULL.
Proof.
  intros Hrf Hp. apply elem_of_dom_2 in Hp. rewrite (lk_cvs _ _ _ _ _ _ _ _ (rf_links _ _ _ Hrf)) in Hp.
  destruct HD. set_solver.
Qed.

(** Changes of the interrupt level or context and the disposal of the dead are
    nothing the machine looks at. *)
Lemma refines0_thr c a t i r sl z cp i' z' cp' s' :
  refines0 c a (TView (Some t) i r sl z cp) → thr_ok s' (TView (Some t) i' r sl z' cp') →
  lbolt_counter s' = lbolt_counter (s_thr (c_sys c)) →
  refines0 (set_sys (set_thr s' (c_sys c)) c) a (TView (Some t) i' r sl z' cp').
Proof.
  intros [Hok Hcl Hsr Hg Habs Hlk] Hok' Hl. split; mcbn; try done.
  - by eapply clock_ok_eq.
  - by eapply sysrel_ext.
  - by destruct (links_view _ _ _ _ _ _ _ _ t i' z' cp' Hlk).
Qed.

Lemma run_act I t f l k c a r sl z m :
  refines0 c a (running t r sl z) → mem_ok m →
  a_thr a !! t = Some (ARun l (CAct f :: k)) → awp t a I →
  wp (run_cmd lbolt t l (CAct f) k) (post I) (World c m).
Proof.
  intros [Hok Hcl Hsr Hg Habs Hlk] Hm Hat Hawp. unfold awp in Hawp. rewrite Hat in Hawp.
  cbn [run_cmd]. rewrite wp_bind, wp_zoom. mcbn. rewrite <- Hg.
  eapply wp_mono; [by apply Hawp|]. intros l' [g' m'] [Hm' HJ]. mcbn.
  eapply goto_refines; [|done|exact HJ]. split; mcbn; try done. by eapply sysrel_ext.
Qed.

Lemma run_P I t p l k c a r sl z m :
  refines0 c a (running t r sl z) → mem_ok m → I a →
  a_thr a !! t = Some (ARun l (CP p :: k)) → awp t a I →
  wp (run_cmd lbolt t l (CP p) k) (post I) (World c m).
Proof.
  intros Hrf Hm HI Hat Hawp. pose proof Hawp as Hawp'. unfold awp in Hawp'. rewrite Hat in Hawp'.
  destruct Hawp' as (n & Hn & _). destruct (sem_addr _ _ _ _ _ Hrf Hn) as [Hnull _].
  pose proof Hrf as [Hok Hcl Hsr Hg Habs Hlk].
  cbn [run_cmd]. rewrite wp_bind. apply on_sys_spec. eapply P_spec; [done|exact Hok|done|].
  intros s' Hok' Hl.
  pose proof (P_loop_refines I t p l k (set_sys (set_thr s' (c_sys c)) c) a r sl z m) as HP.
  rewrite wp_bind in HP. unfold on_sys in HP. rewrite wp_zoom in HP.
  apply HP; [|done..]. by eapply refines0_thr.
Qed.

Lemma run_acquire I t p l k c a r sl z m :
  refines0 c a (running t r sl z) → mem_ok m → I a →
  a_thr a !! t = Some (ARun l (CAcquire p :: k)) → awp t a I →
  wp (run_cmd lbolt t l (CAcquire p) k) (post I) (World c m).
Proof.
  intros Hrf Hm HI Hat Hawp. pose proof Hawp as Hawp'. unfold awp in Hawp'. rewrite Hat in Hawp'.
  destruct Hawp' as (o & Ho & _). destruct (lock_addr _ _ _ _ _ Hrf Ho) as [Hnull _].
  pose proof Hrf as [Hok Hcl Hsr Hg Habs Hlk].
  cbn [run_cmd]. rewrite wp_bind. apply on_sys_spec. eapply lock_acquire_spec; [done|exact Hok|done|].
  intros s' Hok' Hl.
  pose proof (lock_acquire_loop_refines I t p l k (set_sys (set_thr s' (c_sys c)) c) a r sl z m) as HP.
  rewrite wp_bind in HP. unfold on_sys in HP. rewrite wp_zoom in HP.
  apply HP; [|done..]. by eapply refines0_thr.
Qed.

Lemma run_V I t p l k c a r sl z m :
  refines0 c a (running t r sl z) → mem_ok m →
  a_thr a !! t = Some (ARun l (CV p :: k)) → awp t a I →
  wp (run_cmd lbolt t l (CV p) k) (post I) (World c m).
Proof.
  intros Hrf Hm Hat Hawp. unfold awp in Hawp. rewrite Hat in Hawp.
  destruct Hawp as (n & Hn & Hlt & HJ). destruct (sem_addr _ _ _ _ _ Hrf Hn) as [Hnull Hthr].
  pose proof Hrf as [Hok Hcl Hsr Hg Habs Hlk].
  destruct (sem_of _ _ _ _ Hsr Hn) as (y & Hy & <- & Hr).
  destruct (links_wake_object _ _ _ _ _ _ _ _ p Hlk Hthr) as (Hlk' & Habs' & Hno).
  cbn [run_cmd]. rewrite wp_bind. apply on_sys_spec.
  eapply V_spec; [done|done|exact Hok|exact Hy|lia|done|]. intros s' m' Hok' Hm' Hl. mcbn.
  eapply goto_refines; [|done|exact HJ]. split; mcbn; try done.
  - by eapply clock_ok_eq.
  - apply sysrel_sem; [done|lia].
  - rewrite Habs. symmetry. exact Habs'.
  - apply links_sems; [exact Hlk'|by eexists|exact Hno].
Qed.

Lemma run_release I t p l k c a r sl z m :
  refines0 c a (running t r sl z) → mem_ok m →
  a_thr a !! t = Some (ARun l (CRelease p :: k)) → awp t a I →
  wp (run_cmd lbolt t l (CRelease p) k) (post I) (World c m).
Proof.
  intros Hrf Hm Hat Hawp. unfold awp in Hawp. rewrite Hat in Hawp.
  destruct Hawp as ([o Ho] & HJ). destruct (lock_addr _ _ _ _ _ Hrf Ho) as [Hnull Hthr].
  pose proof Hrf as [Hok Hcl Hsr Hg Habs Hlk].
  destruct (lock_of _ _ _ _ Hsr Ho) as (y & Hy & <-).
  destruct (links_wake_object _ _ _ _ _ _ _ _ p Hlk Hthr) as (Hlk' & Habs' & Hno).
  cbn [run_cmd]. rewrite wp_bind. apply on_sys_spec.
  eapply lock_release_spec; [done|done|exact Hok|exact Hy|done|]. intros s' m' Hok' Hm' Hl. mcbn.
  eapply goto_refines; [|done|exact HJ]. split; mcbn; try done.
  - by eapply clock_ok_eq.
  - by apply sysrel_lock.
  - rewrite Habs. symmetry. exact Habs'.
  - apply links_locks; [exact Hlk'|by eexists|exact Hno].
Qed.

(** ** Condition variables *)

Lemma sysrel_cv S a p q l :
  sysrel S a → queue_rep q l → size q ≤ QUEUE_LIMIT →
  sysrel (set_cvs (<[p := Cv q]> (s_cvs S)) S) (set_acvs (<[p := l]> (a_cvs a)) a).
Proof.
  intros [Hs Hc Hl Hq] Hrep Hsz. split; mcbn; try done.
  intros p' l'. destruct (decide (p' = p)) as [->|].
  - rewrite !lookup_insert_eq. intros [= <-]. by exists q.
  - rewrite !lookup_insert_ne by done. apply Hq.
Qed.

(** The queue of a condition variable is shorter than the table of sleepers. *)
Lemma cv_short c a t r sl z cv q :
  refines0 c a (running t r sl z) → a_cvs a !! cv = Some q →
  Z.of_nat (length q) < MAXTHREADS ∧ t ∉ q.
Proof.
  intros [Hok Hcl Hsr Hg Habs Hlk] Hq. destruct (lk_cvq _ _ _ _ _ _ _ _ Hlk cv q Hq) as [Hnd Hin].
  pose proof (thr_ok_cur _ _ _ _ _ _ _ Hok) as (_ & _ & Hfew & _). split.
  - assert (length q ≤ length sl.*1)%nat as Hle.
    { apply submseteq_length, NoDup_submseteq; [done|]. intros u Hu.
      eapply elem_fst, Hin, Hu. }
    rewrite length_fmap in Hle. lia.
  - intros Ht. pose proof (lk_nodup _ _ _ _ _ _ _ _ Hlk) as Hp. unfold place in Hp. cbn in Hp.
    apply NoDup_cons in Hp as [Hni _]. apply Hni. rewrite elem_of_app. right.
    eapply elem_fst, (Hin t Ht).
Qed.

Lemma run_wait I t cv p l k c a r sl z m :
  refines0 c a (running t r sl z) → mem_ok m →
  a_thr a !! t = Some (ARun l (CWait cv p :: k)) → awp t a I →
  wp (run_cmd lbolt t l (CWait cv p) k) (post I) (World c m).
Proof.
  intros Hrf Hm Hat Hawp. unfold awp in Hawp. rewrite Hat in Hawp.
  destruct Hawp as ([o Ho] & q & Hq & HI). destruct (lock_addr _ _ _ _ _ Hrf Ho) as [Hnull Hthr].
  pose proof (cv_addr _ _ _ _ _ Hrf Hq) as Hcv. destruct (cv_short _ _ _ _ _ _ _ _ Hrf Hq) as [Hlen Htq].
  pose proof Hrf as [Hok Hcl Hsr Hg Habs Hlk]. destruct (lk_cvq _ _ _ _ _ _ _ _ Hlk cv q Hq) as [Hnd _].
  destruct (lock_of _ _ _ _ Hsr Ho) as (y & Hy & <-).
  destruct (sr_cvs _ _ Hsr _ _ Hq) as (q0 & Hq0 & Hrep & Hsz).
  destruct (links_wake_object _ _ _ _ _ _ _ _ p Hlk Hthr) as (Hlk' & Habs' & Hno).
  eapply (links_locks _ _ _ _ _ _ _ _ p 0) in Hlk'; [|by eexists|exact Hno].
  destruct (links_sleep _ _ _ _ _ _ _ _ _ _ _ _ _ (InWait cv p (curspl cp0) l k) t Hlk')
    as [Hlk2 Habs2]; [done|done|].
  cbn [run_cmd]. rewrite wp_bind. apply on_sys_spec.
  eapply cv_wait_spec; [done|done|exact Hq0|exact Hrep|done|done|exact Hok|exact Hy|done|done|].
  intros s' q' m' Hok' Hrep' Hsz' Hm' Hl. mcbn.
  eapply (switch_refines I); [exact HI|exact Hok'|by eapply clock_ok_eq| |done|done| |done|].
  - by apply (sysrel_ext _ _ _ _ (sysrel_lock _ _ p 0 (s_thr (c_sys c))
      (sysrel_cv _ _ cv q' (q ++ [t]) Hsr Hrep' Hsz'))).
  - mcbn. rewrite Habs, <- Habs'. symmetry. exact Habs2.
  - mcbn. eapply links_cv; [exact Hlk2|done|..].
    + apply NoDup_app. split_and!; [done|set_solver|apply NoDup_singleton].
    + intros u. rewrite elem_of_app, list_elem_of_singleton.
      intros [Hu| ->]; [by left|]. right. split.
      * cbn. apply elem_of_app. right. by left.
      * rewrite lookup_insert_eq. eauto.
Qed.

Lemma wake_all_view q t r sl z :
  wake_all q (running t r sl z) =
  running t (wake_list q (r, sl)).1 (wake_list q (r, sl)).2 z.
Proof. revert r sl. induction q as [|u q IH]; intros r sl; [done|]. cbn. apply IH. Qed.

Lemma run_signal I t cv p l k c a r sl z m :
  refines0 c a (running t r sl z) → mem_ok m →
  a_thr a !! t = Some (ARun l (CSignal cv p :: k)) → awp t a I →
  wp (run_cmd lbolt t l (CSignal cv p) k) (post I) (World c m).
Proof.
  intros Hrf Hm Hat Hawp. unfold awp in Hawp. rewrite Hat in Hawp.
  destruct Hawp as (Hp & u & q & Hq & HJ). pose proof (cv_addr _ _ _ _ _ Hrf Hq) as Hcv.
  pose proof Hrf as [Hok Hcl Hsr Hg Habs Hlk].
  destruct (sr_cvs _ _ Hsr _ _ Hq) as (q0 & Hq0 & Hrep & Hsz).
  destruct (links_signal _ _ _ _ _ _ _ _ _ _ _ Hlk Hq) as [Hlk' Habs'].
  cbn [run_cmd]. rewrite wp_bind. apply on_sys_spec.
  eapply cv_signal_spec; [done|done|exact Hq0|exact Hrep|done|done|exact Hok|done|done|].
  intros s' q' m' Hok' Hrep' Hsz' Hm' Hl. mcbn.
  eapply goto_refines; [|done|exact HJ]. split; mcbn; try done.
  - by eapply clock_ok_eq.
  - eapply sysrel_ext; [eapply (sysrel_cv _ _ cv q' q); [exact Hsr|done|done]|done..].
  - cbn. rewrite Habs. symmetry. exact Habs'.
Qed.

Lemma run_broadcast I t cv p l k c a r sl z m :
  refines0 c a (running t r sl z) → mem_ok m →
  a_thr a !! t = Some (ARun l (CBroadcast cv p :: k)) → awp t a I →
  wp (run_cmd lbolt t l (CBroadcast cv p) k) (post I) (World c m).
Proof.
  intros Hrf Hm Hat Hawp. unfold awp in Hawp. rewrite Hat in Hawp.
  destruct Hawp as (Hp & q & Hq & HJ). pose proof (cv_addr _ _ _ _ _ Hrf Hq) as Hcv.
  pose proof Hrf as [Hok Hcl Hsr Hg Habs Hlk].
  destruct (sr_cvs _ _ Hsr _ _ Hq) as (q0 & Hq0 & Hrep & Hsz).
  destruct (links_broadcast _ _ _ _ _ _ _ _ _ _ Hlk Hq) as [Hlk' Habs'].
  rewrite wake_all_view in Hlk', Habs'.
  cbn [run_cmd]. rewrite wp_bind. apply on_sys_spec.
  eapply cv_broadcast_spec; [done|done|done|exact Hq0|exact Hrep|done|exact Hok|done|].
  intros s' q' m' Hok' Hrep' Hsz' Hm' Hl. mcbn.
  eapply goto_refines; [|done|exact HJ]. split; mcbn; try done.
  - by eapply clock_ok_eq.
  - eapply sysrel_ext; [eapply (sysrel_cv _ _ cv q' []); [exact Hsr|done|done]|done..].
  - rewrite Habs. symmetry. exact Habs'.
Qed.

(** ** The clock *)

Lemma clock_loop_refines I t n l k c a r sl z m :
  refines0 c a (inside t r sl z) → mem_ok m →
  (if 0 <? n then I (set_athr (<[t := AClock n l k]> (a_thr a)) a) else jump t l k a I) →
  wp (o ← on_sys (on_thr (clocksleep_loop lbolt n (curspl cp0)));
      match o with None => goto t l k | Some _ => set_ctl t (InClock n (curspl cp0) l k) end)
     (post I) (World c m).
Proof.
  intros Hrf Hm HJ. pose proof Hrf as [Hok Hcl Hsr Hg Habs Hlk].
  rewrite wp_bind. apply on_sys_spec, on_thr_spec.
  eapply clocksleep_loop_spec; [exact Hok|done|done|..].
  - intros Hn s' m' Hok' Hm' Hl. mcbn. rewrite (proj2 (Z.ltb_lt 0 n)) in HJ by done.
    destruct (links_sleep _ _ _ _ _ _ _ _ _ _ _ _ _ (InClock n (curspl cp0) l k) lbolt Hlk)
      as [Hlk' Habs']; [done|done|].
    eapply (switch_refines I);
      [exact HJ|exact Hok'|by eapply clock_ok_eq| |done|done| |done|exact Hlk'].
    + by apply (sysrel_ext _ _ _ _ Hsr).
    + mcbn. rewrite Habs. symmetry. exact Habs'.
  - intros Hn s' Hok' Hl. mcbn. rewrite (proj2 (Z.ltb_ge 0 n)) in HJ by done.
    eapply goto_refines; [|done|exact HJ]. by eapply refines0_thr.
Qed.

Lemma run_clocksleep I t n l k c a r sl z m :
  refines0 c a (running t r sl z) → mem_ok m →
  a_thr a !! t = Some (ARun l (CClocksleep n :: k)) → awp t a I →
  wp (run_cmd lbolt t l (CClocksleep n) k) (post I) (World c m).
Proof.
  intros Hrf Hm Hat Hawp. unfold awp in Hawp. rewrite Hat in Hawp.
  cbn [run_cmd]. rewrite wp_bind. apply on_sys_spec, on_thr_spec. unfold clocksleep.
  rewrite wp_bind. apply tsplhigh_spec. rewrite wp_bind.
  pose proof (rf_thr _ _ _ Hrf) as Hok. rewrite (tk_cpu _ _ _ Hok). cbn [v_cpu].
  pose proof (clock_loop_refines I t n l k
    (set_sys (set_thr (set_tcpu (high cp0) (s_thr (c_sys c))) (c_sys c)) c) a r sl z m) as HP.
  rewrite wp_bind in HP. unfold on_sys, on_thr in HP. rewrite !wp_zoom in HP.
  eapply wp_mono; [apply HP|]; [|done|done|].
  - eapply refines0_thr; [done| |done]. eapply thr_ok_cpu; [done|]. by apply high_ok.
  - intros o w H. rewrite wp_ret. exact H.
Qed.

Lemma run_cmd_refines I t (x : cmd L G) l k c a r sl z m :
  refines0 c a (running t r sl z) → mem_ok m → I a →
  a_thr a !! t = Some (ARun l (x :: k)) → awp t a I →
  wp (run_cmd lbolt t l x k) (post I) (World c m).
Proof.
  intros Hrf Hm HI Hat Hawp. destruct x;
    eauto using run_act, run_P, run_V, run_acquire, run_release, run_wait, run_signal,
      run_broadcast, run_clocksleep;
    (unfold awp in Hawp; rewrite Hat in Hawp; by eapply goto_refines).
Qed.

(** ** Threads that are switched to *)

(** The end of [thread_sleep] in a thread that was woken. *)
Lemma resume_spec {A} (k : K sys A) (Q : A → world sys → Prop) c a t r sl z m :
  refines0 c a (inside t r sl z) → mem_ok m →
  (∀ s' m', refines0 (set_sys (set_thr s' (c_sys c)) c) a (inside t r sl []) → mem_ok m' →
     wp k Q (World (set_thr s' (c_sys c)) m')) →
  wp (on_thr thread_sleep_return;; k) Q (World (c_sys c) m).
Proof.
  intros Hrf Hm HQ. rewrite wp_bind.
  eapply on_thr_spec, thread_sleep_return_spec; [exact (rf_thr _ _ _ Hrf)|done|done|].
  intros s' m' Hok' Hm' Hl. apply HQ; [|done]. by eapply refines0_thr.
Qed.

Lemma run_InP I t p l k c a r sl z m :
  refines0 c a (inside t r sl z) → mem_ok m → I a →
  a_thr a !! t = Some (ARun l (CP p :: k)) → awp t a I →
  wp (o ← on_sys (P_return p (curspl cp0));
      match o with None => goto t l k | Some _ => set_ctl t (InP p (curspl cp0) l k) end)
     (post I) (World c m).
Proof.
  intros Hrf Hm HI Hat Hawp. rewrite wp_bind. apply on_sys_spec. unfold P_return.
  eapply resume_spec; [exact Hrf|done|]. intros s' m' Hrf' Hm'.
  pose proof (P_loop_refines I t p l k _ a r sl [] m' Hrf' Hm' HI Hat Hawp) as HP.
  rewrite wp_bind in HP. unfold on_sys in HP. rewrite wp_zoom in HP. exact HP.
Qed.

Lemma run_InAcquire I t p l k c a r sl z m :
  refines0 c a (inside t r sl z) → mem_ok m → I a →
  a_thr a !! t = Some (ARun l (CAcquire p :: k)) → awp t a I →
  wp (o ← on_sys (lock_acquire_return p (curspl cp0));
      match o with None => goto t l k | Some _ => set_ctl t (InAcquire p (curspl cp0) l k) end)
     (post I) (World c m).
Proof.
  intros Hrf Hm HI Hat Hawp. rewrite wp_bind. apply on_sys_spec. unfold lock_acquire_return.
  eapply resume_spec; [exact Hrf|done|]. intros s' m' Hrf' Hm'.
  pose proof (lock_acquire_loop_refines I t p l k _ a r sl [] m' Hrf' Hm' HI Hat Hawp) as HP.
  rewrite wp_bind in HP. unfold on_sys in HP. rewrite wp_zoom in HP. exact HP.
Qed.

Lemma run_InClock I t n l k c a r sl z m :
  refines0 c a (inside t r sl z) → mem_ok m →
  a_thr a !! t = Some (AClock n l k) → awp t a I →
  wp (o ← on_sys (on_thr (clocksleep_return lbolt n (curspl cp0)));
      match o with
      | None => goto t l k
      | Some _ => set_ctl t (InClock (n - 1) (curspl cp0) l k)
      end) (post I) (World c m).
Proof.
  intros Hrf Hm Hat Hawp. unfold awp in Hawp. rewrite Hat in Hawp.
  rewrite wp_bind. apply on_sys_spec, on_thr_spec. unfold clocksleep_return. rewrite wp_bind.
  eapply thread_sleep_return_spec; [exact (rf_thr _ _ _ Hrf)|done|done|].
  intros s' m' Hok' Hm' Hl.
  pose proof (clock_loop_refines I t (n - 1) l k (set_sys (set_thr s' (c_sys c)) c) a r sl [] m') as HP.
  rewrite wp_bind in HP. unfold on_sys, on_thr in HP. rewrite !wp_zoom in HP.
  apply HP; [by eapply refines0_thr|done|done].
Qed.

(** A step that only brings the thread back to its code. *)
Lemma return_refines I t x' y c a i r sl z cp' s' m :
  refines0 c a (TView (Some t) i r sl z cp') → I a → mem_ok m →
  thr_ok s' (running t r sl y) → lbolt_counter s' = lbolt_counter (s_thr (c_sys c)) →
  frame_ok cp0 x' → cur_ok cp0 x' (running t r sl y) →
  a_thr a !! t = Some (abs_of false x') →
  wp (set_ctl t x') (post I) (World (set_sys (set_thr s' (c_sys c)) c) m).
Proof.
  intros Hrf HI Hm Hok' Hl Hf Hc Hat. pose proof (refines0_thr _ _ _ _ _ _ _ _ _ _ _ _ Hrf Hok' Hl)
    as [Hok2 Hcl Hsr Hg Habs Hlk]. apply set_ctl_spec.
  destruct (links_stay _ _ D _ _ _ _ t 0 r sl y cp0 0 y cp0 x' Hlk Hf) as [Hlk' Habs'].
  exists a, (running t r sl y). split; [done|]. split; [|done]. split.
  - split; mcbn; try done. rewrite Habs', <- Habs. by rewrite insert_id.
  - cbn. intros u x [= <-]. rewrite lookup_insert_eq. by intros [= <-].
  - done.
Qed.

(** ** Whole steps *)

Lemma cur_known c a v t :
  refines0 c a v → v_cur v = Some t → ∃ x, c_ctl c !! t = Some x ∧ frame_ok cp0 x ∧
    a_thr a !! t = Some (abs_of false x).
Proof.
  intros [_ _ _ _ Habs Hlk] Hc. destruct (lk_known _ _ _ _ _ _ _ _ Hlk t) as [x Hx].
  { unfold place. rewrite Hc. by left. }
  exists x. split_and!; [done|by eapply lk_frame|].
  rewrite Habs, lookup_abs, Hx. cbn. by rewrite cur_awake by (done || by eapply lk_nodup).
Qed.

Lemma run_exit I t l c a r sl z m :
  refines0 c a (running t r sl z) → mem_ok m → I a → a_thr a !! t = Some (ARun l []) →
  wp (on_sys (on_thr thread_exit);; set_ctl t (Exited l)) (post I) (World c m).
Proof.
  intros [Hok Hcl Hsr Hg Habs Hlk] Hm HI Hat. rewrite wp_bind.
  eapply on_sys_spec, on_thr_spec, thread_exit_spec; [exact Hok|done|].
  intros s' m' Hok' Hm' Hl. mcbn.
  destruct (links_exit _ _ _ _ _ _ _ _ _ _ _ (z ++ [t]) _ l Hlk) as [Hlk' Habs'].
  eapply (switch_refines I); [done|exact Hok'|by eapply clock_ok_eq|done|done|done| |done|exact Hlk'].
  rewrite Habs', <- Habs. by rewrite insert_id.
Qed.

Lemma run_refines I c a v m :
  ainv I → I a → refines c a v → mem_ok m → wp (run lbolt) (post I) (World c m).
Proof.
  intros HA HI [Hrf Hcur Hid] Hm. unfold run. rewrite wp_bind, wp_kget. cbn [wst].
  pose proof (rf_thr _ _ _ Hrf) as Hok. rewrite (tk_cur _ _ _ Hok).
  destruct v as [[t|] i r sl z cp]; cbn [v_cur from_option id].
  2: { assert (c_ctl c !! NULL = None) as ->; [|by exists a, (TView None i r sl z cp)].
    apply not_elem_of_dom. rewrite (lk_ctls _ _ _ _ _ _ _ _ (rf_links _ _ _ Hrf)).
    destruct HD. set_solver. }
  destruct (cur_known _ _ _ t Hrf) as (x & Hx & Hf & Hat); [done|].
  specialize (Hcur t x eq_refl Hx). rewrite Hx.
  destruct x as [l [|x k]|p spl l k|p spl l k|cv p spl l k|n spl l k|f l k|l k|l];
    cbn [cur_ok v_intr v_cpu intr_of frame_ok abs_of] in *; try destruct Hcur as [-> ->]; subst.
  - by eapply run_exit.
  - eapply run_cmd_refines; [done..|]. by apply HA.
  - eapply run_InP; [done..|]. by apply HA.
  - eapply run_InAcquire; [done..|]. by apply HA.
  - rewrite wp_bind. eapply on_sys_spec, cv_wait_return_spec; [done|done|exact Hok|].
    intros s' m' Hok' Hm' Hl. by eapply return_refines.
  - eapply run_InClock; [done..|]. by apply HA.
  - rewrite wp_bind. eapply on_sys_spec, on_thr_spec, preempt_return_spec; [exact Hok|done|done|].
    intros s' m' Hok' Hm' Hl. by eapply return_refines.
  - rewrite wp_bind. eapply on_sys_spec, on_thr_spec, mi_threadstart_spec; [exact Hok|done|done|].
    intros s' Hok' Hl. by eapply return_refines.
  - done.
Qed.

(** The idle loop wakes the clock's sleepers at most. *)
Lemma clock_links c a v s :
  refines0 c a v →
  let v' := TView (v_cur v) (v_intr v) (clock_run synchprobs lbolt s (v_run v) (v_sleep v))
              (clock_sleep synchprobs lbolt s (v_sleep v)) (v_zomb v) (v_cpu v) in
  links lbolt cp0 D (c_ctl c) (a_sems a) (a_locks a) (a_cvs a) v' ∧
  a_thr a = abs_thr (c_ctl c) v'.
Proof.
  intros [_ _ _ _ Habs Hlk] v'. unfold v', clock_run, clock_sleep.
  destruct (fires synchprobs s); [|by destruct v].
  destruct (links_wake_object _ _ _ _ _ _ _ _ lbolt Hlk) as (Hlk' & Habs' & _).
  { destruct HD. set_solver. }
  split; [exact Hlk'|]. rewrite Habs. symmetry. exact Habs'.
Qed.

Lemma tick_refines I c a v m :
  I a → refines c a v → mem_ok m → wp (tick synchprobs lbolt) (post I) (World c m).
Proof.
  intros HI Hall Hm. pose proof Hall as [Hrf Hcur Hid]. unfold tick. rewrite wp_bind, wp_kget. cbn [wst].
  pose proof Hrf as [Hok Hcl Hsr Hg Habs Hlk]. rewrite (tk_cur _ _ _ Hok), (tk_cpu _ _ _ Hok).
  pose proof (clock_links _ _ _ (s_thr (c_sys c)) Hrf) as [Hlk' Habs'].
  destruct v as [[t|] i r sl z cp]; cbn [v_cur v_intr v_run v_sleep v_zomb v_cpu from_option id] in *.
  - destruct (thr_ok_cur _ _ _ _ _ _ _ Hok) as (_ & Hnull & _).
    rewrite (proj2 (Z.eqb_neq t NULL)) by done.
    destruct (cur_known _ _ _ t Hrf) as (x & Hx & Hf & Hat); [done|].
    specialize (Hcur t x eq_refl Hx). rewrite Hx.
    rewrite (cpu_agree cp) by apply (tk_cpuok _ _ _ Hok).
    destruct x as [l k| | | | | | |]; cbn [cur_ok v_intr v_cpu] in Hcur;
      try (destruct Hcur as [-> ->]; by eexists a, _); [|done].
    destruct Hcur as [-> ->]. rewrite Hlow. cbn [Z.eqb]. rewrite wp_bind.
    eapply on_sys_spec, on_thr_spec, timer_interrupt_spec; [exact Hok|done|done|].
    intros s' m' Hok' Hcl' Hm'. mcbn.
    destruct (links_preempt _ _ _ _ _ _ _ _ _ _ _ _ _ l k Hlk') as [Hlk2 Habs2].
    eapply (switch_refines I); [done|exact Hok'|done|done|done|done| |done|exact Hlk2].
    rewrite Habs2, <- Habs'. by rewrite insert_id.
  - specialize (Hid eq_refl). subst r.
    destruct (lk_idle _ _ _ _ _ _ _ _ Hlk eq_refl) as [Hcpu Hi]. tcbn. rewrite Hi in * by done.
    subst cp. cbn [Z.eqb NULL]. rewrite wp_bind.
    eapply on_sys_spec, on_thr_spec, idle_tick_spec; [exact Hok|done|done|done|].
    intros s' m' Hok' Hcl' Hm'. rewrite wp_ret.
    destruct (links_pick _ _ _ _ _ _ _ _ Hlk' eq_refl) as [Hlk2 Hcur2].
    eexists a, _. split; [done|]. split; [|done]. split; [|exact Hcur2|].
    + split; mcbn; [exact Hok'|done|by eapply sysrel_ext|done| |exact Hlk2]. by rewrite abs_pick.
    + unfold pick. tcbn. by destruct (clock_run _ _ _ _ _) as [|[]].
Qed.

(** ** Executions *)

Lemma machine_refines I es c a v m :
  ainv I → I a → refines c a v → mem_ok m →
  wp (machine synchprobs lbolt es) (post I) (World c m).
Proof.
  intros HA. revert c a v m. induction es as [|e es IH]; intros c a v m HI Hrf Hm; cbn [machine].
  { rewrite wp_ret. by exists a, v. }
  rewrite wp_bind. eapply wp_mono.
  - destruct e; [by eapply run_refines|by eapply tick_refines].
  - intros [] [c' m'] (a' & v' & HI' & Hrf' & Hm'). by eapply IH.
Qed.

(** When the processor idles, every thread has finished, is blocked in the
    abstract machine, or sleeps on the clock. *)
Lemma idle_blocked c a v t x :
  refines c a v → curthread (s_thr (c_sys c)) = NULL → c_ctl c !! t = Some x →
  finished a t ∨ blocked a t ∨ ∃ n l k, a_thr a !! t = Some (AClock n l k).
Proof.
  intros [Hrf _ Hid] Hc Hx. pose proof Hrf as [Hok _ _ _ Habs Hlk].
  assert (v_cur v = None) as Hcur.
  { destruct v as [[u|] i r sl z cp]; [|done].
    destruct (thr_ok_cur _ _ _ _ _ _ _ Hok) as (H & Hu & _). congruence. }
  specialize (Hid Hcur). unfold finished, blocked.
  rewrite Habs, lookup_abs, Hx. cbn [fmap option_fmap option_map].
  destruct (lk_where _ _ _ _ _ _ _ _ Hlk t x Hx) as [He|Hin].
  { left. destruct x; try done. by eexists. }
  unfold place in Hin. rewrite Hcur, Hid in Hin. cbn in Hin.
  apply list_elem_of_fmap in Hin as ([u p] & -> & Hp). cbn in Hx.
  pose proof (lk_sleep _ _ _ _ _ _ _ _ Hlk u p x Hp Hx) as Hs.
  assert (asleep v u = true) as Hsl by (apply asleep_spec; eauto).
  cbn [fst]. rewrite Hsl. right. destruct x; try done; cbn in *; naive_solver.
Qed.

End refine.
