(* ===== verification/MachineStart.v ===== *)
(** * Starting the machine

    The state of the thread system in which a list of freshly forked threads
    waits for the processor and the first of them has just been switched to,
    and the fact that the concrete machine started there refines the abstract
    machine in which all of them are about to run. *)

From S2P Require Import Prelude Bits Spl Array Queue Thread ThreadSpec Synch SynchSpec Machine MachineLinks MachineRefine.

(** ** Allocation while memory does not run out *)

Lemma kmalloc_mem_ok {S} (Q : bool → world S → Prop) s m :
  mem_ok m → (∀ m', mem_ok m' → Q true (World s m')) → wp kmalloc_ok Q (World s m).
Proof.
  intros Hm HQ. apply wp_kmalloc; cbn; intros m'.
  - intros Hs. apply HQ. by eapply mem_ok_suffix.
  - intros Hf. by destruct Hm.
Qed.

Lemma q_create_spec {S} n (Q : option (queue Z) → world S → Prop) s m :
  mem_ok m → 0 < n < 2 ^ 28 →
  (∀ q m', mem_ok m' → queue_rep q [] → size q = n → Q (Some q) (World s m')) →
  wp (q_create n) Q (World s m).
Proof.
  intros Hm Hn HQ. unfold q_create. rewrite wp_bind. apply kmalloc_mem_ok; [done|].
  intros m1 Hm1. cbn [negb]. rewrite wp_bind. apply kmalloc_mem_ok; [done|].
  intros m2 Hm2. cbn [negb]. rewrite wp_ret. apply HQ; [done|apply queue_rep_fresh; lia|done].
Qed.

(** ** The thread system at the start *)

(** A ring buffer that holds [r]. *)
Definition ring_of (r : list Z) : queue Z :=
  Queue (Z.of_nat (length r) + 1) (Z.of_nat (length r)) 0 ((Some <$> r) ++ [None]).

Lemma ring_of_rep r : queue_rep (ring_of r) r.
Proof.
  unfold queue_rep, ring_of. cbn [size nextwrite nextread data].
  rewrite length_app, length_fmap. cbn [length]. split_and!; try lia.
  - rewrite Z.sub_0_r, Z.mod_small by lia. done.
  - intros k x Hk. pose proof (lookup_lt_Some _ _ _ Hk). rewrite Z.mod_small by lia.
    rewrite Z.add_0_l, lget_of_nat, lookup_app_l by (by rewrite length_fmap).
    by rewrite list_lookup_fmap, Hk.
Qed.

(** Thread [t] runs, at the level the switch leaves it in; [r] are ready. *)
Definition start_thr (cp0 : cpu) (t : Z) (r : list Z) : thr :=
  Thr t (Array 0 0 None) (Array 0 0 None) (1 + Z.of_nat (length r)) (ring_of r) ∅
    (list_to_map ((λ u, (u, STACK_MAGIC)) <$> t :: r))
    (list_to_map ((λ u, (u, 0)) <$> t :: r)) NULL (high cp0) 0 0.

Definition start_view (cp0 : cpu) (t : Z) (r : list Z) : tview :=
  TView (Some t) 0 ((λ u, (u, 0)) <$> r) [] [] (high cp0).

Lemma lookup_tabulate {A} (f : Z → A) (l : list Z) t :
  (list_to_map ((λ u, (u, f u)) <$> l) : gmap Z A) !! t = if decide (t ∈ l) then Some (f t) else None.
Proof.
  induction l as [|u l IH]; cbn; [done|]. destruct (decide (u = t)) as [->|Hne].
  - rewrite lookup_insert_eq, decide_True by (by left). done.
  - rewrite lookup_insert_ne, IH by done.
    destruct (decide (t ∈ l)) as [Hin|Hin]; [rewrite decide_True by (by right)|
      rewrite decide_False by (rewrite elem_of_cons; naive_solver)]; done.
Qed.

Lemma fst_tabulate {A} (f : Z → A) (l : list Z) : ((λ u, (u, f u)) <$> l).*1 = l.
Proof. rewrite <- list_fmap_compose. cbn. apply list_fmap_id. Qed.

Lemma start_thr_ok cp0 t r :
  cpu_ok cp0 → NoDup (t :: r) → NULL ∉ t :: r → Z.of_nat (length (t :: r)) ≤ MAXTHREADS →
  thr_ok (start_thr cp0 t r) (start_view cp0 t r).
Proof.
  intros Hcp Hnd Hnull Hlen. cbn [length] in Hlen. unfold MAXTHREADS in Hlen.
  assert (all_threads (start_view cp0 t r) = t :: r) as Hall.
  { unfold all_threads, start_view. tcbn. rewrite fst_tabulate. cbn. by rewrite !app_nil_r. }
  split; rewrite ?Hall; unfold start_thr, start_view; tcbn; try done.
  - rewrite fst_tabulate. apply ring_of_rep.
  - unfold QUEUE_LIMIT, ring_of. cbn. lia.
  - by intros u a ?%not_elem_of_nil.
  - rewrite length_fmap. cbn. lia.
  - intros u i (u' & [= -> ->] & Hu)%list_elem_of_fmap. unfold saved_intr. tcbn.
    rewrite decide_False, lookup_tabulate, decide_True; [done|by right|].
    intros ->. apply Hnull. by right.
  - by intros u a ?%not_elem_of_nil.
  - intros u st. tcbn. rewrite lookup_tabulate. case_decide; [|done]. by intros [= <-].
  - by apply high_ok.
Qed.

Section start.
Context {L G : Type} (cp0 : cpu).

Definition start_cfg (sems : gmap Z semaphore) (locks : gmap Z lock) (cvs : gmap Z cv) (g : G)
    (t : Z) (r : list Z) (body : Z → L * list (cmd L G)) : cfg L G :=
  Cfg (Sys (start_thr cp0 t r) sems locks cvs) g
    (list_to_map ((λ u, (u, New (body u).1 (body u).2)) <$> t :: r)).

Definition start_astate (sems : gmap Z semaphore) (locks : gmap Z lock) (cvs : gmap Z cv) (g : G)
    (t : Z) (r : list Z) (body : Z → L * list (cmd L G)) : astate L G :=
  AState (count <$> sems) (busy <$> locks) ((λ _, []) <$> cvs) g
    (list_to_map ((λ u, (u, ARun (body u).1 (body u).2)) <$> t :: r)).

Lemma start_links lbolt D sems locks cvs t r (body : Z → L * list (cmd L G)) :
  NoDup (t :: r) → D_thr D = list_to_set (t :: r) → dom sems = D_sems D →
  dom locks = D_locks D → dom cvs = D_cvs D → (∀ cv q, cvs !! cv = Some q → q = []) →
  links lbolt cp0 D (list_to_map ((λ u, (u, New (body u).1 (body u).2)) <$> t :: r))
    sems locks cvs (start_view cp0 t r).
Proof.
  intros Hnd HD Hs Hl Hc Hq.
  assert (place (start_view cp0 t r) = t :: r) as Hpl.
  { unfold place, start_view. tcbn. rewrite fst_tabulate. cbn. by rewrite app_nil_r. }
  split; rewrite ?Hpl; try done.
  - rewrite HD, dom_list_to_map_L, fst_tabulate. done.
  - intros u Hu. rewrite lookup_tabulate, decide_True by done. by eexists.
  - intros u x. rewrite lookup_tabulate. case_decide; [by right|done].
  - intros u x. rewrite lookup_tabulate. case_decide; [|done]. by intros [= <-].
  - intros u i x (u' & [= -> ->] & Hu)%list_elem_of_fmap. rewrite lookup_tabulate.
    case_decide; [|done]. by intros [= <-].
  - by intros u p x ?%not_elem_of_nil.
  - intros cv q ->%Hq. split; [constructor|]. by intros ? ?%not_elem_of_nil.
Qed.

Lemma start_refines synchprobs lbolt sems locks cvs g t r body :
  cpu_ok cp0 → NoDup (t :: r) → NULL ∉ t :: r → Z.of_nat (length (t :: r)) ≤ MAXTHREADS →
  (∀ p x, sems !! p = Some x → 0 ≤ count x < 2 ^ 31) →
  (∀ p x, cvs !! p = Some x → queue_rep (slept_threads x) [] ∧ size (slept_threads x) ≤ QUEUE_LIMIT) →
  refines synchprobs lbolt cp0 (Addrs (dom sems) (dom locks) (dom cvs) (list_to_set (t :: r)))
    (start_cfg sems locks cvs g t r body) (start_astate sems locks cvs g t r body)
    (start_view cp0 t r).
Proof.
  intros Hcp Hnd Hnull Hlen Hsem Hcv. split; [|intros u x [= <-]|done].
  2: { cbn [start_cfg c_ctl]. rewrite lookup_tabulate, decide_True by (by left). by intros [= <-]. }
  split; cbn [start_cfg start_astate c_sys c_g c_ctl s_thr a_sems a_locks a_cvs a_g a_thr]; try done.
  - by apply start_thr_ok.
  - unfold clock_ok, HZ. cbn. by destruct synchprobs.
  - split; cbn [a_sems a_locks a_cvs s_sems s_locks s_cvs]; try done.
    + intros p n (x & <- & Hx)%lookup_fmap_Some. by eapply Hsem.
    + intros p l (x & <- & Hx)%lookup_fmap_Some. destruct (Hcv p x Hx). destruct x. by eexists.
  - apply map_eq. intros u. rewrite lookup_abs, !lookup_tabulate. by case_decide.
  - apply start_links; rewrite ?dom_fmap_L; try done.
    by intros cv q (x & <- & _)%lookup_fmap_Some.
Qed.

(** What is proved of every interleaving of the abstract machine holds of the
    concrete one. *)
Lemma start_machine synchprobs lbolt sems locks cvs g t r body (I : astate L G → Prop) es m
    (D := Addrs (dom sems) (dom locks) (dom cvs) (list_to_set (t :: r))) :
  cpu_ok cp0 → curspl cp0 = 0 → NoDup (t :: r) → Z.of_nat (length (t :: r)) ≤ MAXTHREADS →
  addrs_ok lbolt D →
  (∀ p x, sems !! p = Some x → 0 ≤ count x < 2 ^ 31) →
  (∀ p x, cvs !! p = Some x → queue_rep (slept_threads x) [] ∧ size (slept_threads x) ≤ QUEUE_LIMIT) →
  ainv I → I (start_astate sems locks cvs g t r body) → mem_ok m →
  wp (machine synchprobs lbolt es) (post synchprobs lbolt cp0 D I)
     (World (start_cfg sems locks cvs g t r body) m).
Proof.
  intros Hcp Hlv Hnd Hlen HD Hs Hc HA HI Hm.
  eapply (machine_refines synchprobs lbolt cp0 D Hcp Hlv HD); [done|exact HI| |done].
  apply start_refines; try done. intros Hn. apply (ad_null _ _ HD). subst D.
  cbn [D_sems D_locks D_cvs D_thr]. rewrite !elem_of_union, elem_of_list_to_set. tauto.
Qed.

Lemma idle_threads synchprobs lbolt D c (a : astate L G) v :
  refines synchprobs lbolt cp0 D c a v → curthread (s_thr (c_sys c)) = NULL →
  ∀ u, u ∈ D_thr D → finished a u ∨ blocked a u ∨ ∃ n l k, a_thr a !! u = Some (AClock n l k).
Proof.
  intros Hrf Hidle u Hu. rewrite <- (lk_ctls _ _ _ _ _ _ _ _ (rf_links _ _ _ _ _ _ _ (rf_base _ _ _ _ _ _ _ Hrf))) in Hu.
  apply elem_of_dom in Hu as [x Hx]. by eapply idle_blocked.
Qed.

(** C1: as long as no [kmalloc] fails, the scheduler, the context switch, the
    timer and the synchronisation primitives implement interleaving: for
    threads written with semaphores, locks, condition variables and
    [clocksleep], an invariant of the machine that executes enabled commands
    of any threads in any order holds in every state the kernel reaches,
    whatever the timer does, and no kernel operation panics; and when the
    processor idles, every thread has finished, sleeps on the clock, or waits
    for something that is really not available: no wakeup is lost.  Without
    the condition on memory this is false: [cv_wait] ignores the result of
    [q_addtail], so a thread that could not be queued is never woken. *)
Theorem kernel_implements_interleavings synchprobs lbolt sems locks cvs g t r body
    (I : astate L G → Prop) es m :
  cpu_ok cp0 → curspl cp0 = 0 → NoDup (t :: r) → Z.of_nat (length (t :: r)) ≤ MAXTHREADS →
  addrs_ok lbolt (Addrs (dom sems) (dom locks) (dom cvs) (list_to_set (t :: r))) →
  (∀ p x, sems !! p = Some x → 0 ≤ count x < 2 ^ 31) →
  (∀ p x, cvs !! p = Some x → queue_rep (slept_threads x) [] ∧ size (slept_threads x) ≤ QUEUE_LIMIT) →
  ainv I → I (start_astate sems locks cvs g t r body) → mem_ok m →
  wp (machine synchprobs lbolt es)
     (λ _ w, ∃ a, I a ∧ a_g a = c_g (wst w) ∧ a_sems a = count <$> s_sems (c_sys (wst w)) ∧
        a_locks a = busy <$> s_locks (c_sys (wst w)) ∧
        (curthread (s_thr (c_sys (wst w))) = NULL → ∀ u, u ∈ t :: r →
           finished a u ∨ blocked a u ∨ ∃ n l k, a_thr a !! u = Some (AClock n l k)))
     (World (start_cfg sems locks cvs g t r body) m).
Proof.
  intros. eapply wp_mono; [by apply (start_machine synchprobs lbolt sems locks cvs g t r body I)|].
  intros [] [c m'] (a & v & HI & Hrf & _). exists a. cbn [wst].
  pose proof (rf_base _ _ _ _ _ _ _ Hrf) as [_ _ Hsr Hg _ _]. split_and!; [done|done|apply Hsr|apply Hsr|].
  intros Hidle u Hu. eapply idle_threads; [done..|]. by apply elem_of_list_to_set.
Qed.
End start.

(** ** A handshake *)

(** One thread waits for the other. *)
Definition waiter : list (cmd unit unit) := [CP 16].
Definition poster : list (cmd unit unit) := [CV 16].

Definition handshake_inv (a : astate unit unit) : Prop :=
  ∃ n k1 k2, a_sems a !! 16 = Some n ∧
    a_thr a = <[100 := ARun tt k1]> {[104 := ARun tt k2]} ∧
    (k1 = waiter ∧ k2 = poster ∧ n = 0 ∨ k1 = waiter ∧ k2 = [] ∧ n = 1 ∨ k1 = [] ∧ k2 = [] ∧ n = 0).

Lemma handshake_ainv : ainv handshake_inv.
Proof.
  intros a t (n & k1 & k2 & Hn & Ht & Hk). unfold awp. rewrite Ht.
  destruct (decide (t = 100)) as [->|H1]; [|destruct (decide (t = 104)) as [->|H2]].
  - rewrite lookup_insert_eq. destruct Hk as [(-> & -> & ->)|[(-> & -> & ->)|(-> & -> & ->)]]; try done.
    + exists 0. by split.
    + exists 1. split; [done|]. intros _. unfold jump. rewrite next_cmd_eq. cbn.
      eexists 0, [], []. cbn. rewrite lookup_insert_eq, Ht, insert_insert_eq. split_and!; [done..|tauto].
  - rewrite lookup_insert_ne, lookup_singleton_eq by done.
    destruct Hk as [(-> & -> & ->)|[(-> & -> & ->)|(-> & -> & ->)]]; try done.
    exists 0. split_and!; [done..|]. unfold jump. rewrite next_cmd_eq. cbn.
    eexists 1, waiter, []. cbn. rewrite lookup_insert_eq, Ht. split_and!; [done| |tauto].
    rewrite insert_insert_ne by done. f_equal.
  - by rewrite lookup_insert_ne, lookup_singleton_ne by done.
Qed.

Definition handshake (u : Z) : unit * list (cmd unit unit) := (tt, if u =? 100 then waiter else poster).

Lemma kernel_implements_interleavings_witness :
  wp (machine false 8 (replicate 20 Run))
     (λ _ w, ∃ a, handshake_inv a ∧ a_g a = c_g (wst w) ∧
        a_sems a = count <$> s_sems (c_sys (wst w)) ∧ a_locks a = busy <$> s_locks (c_sys (wst w)) ∧
        (curthread (s_thr (c_sys (wst w))) = NULL → ∀ u, u ∈ [100; 104] →
           finished a u ∨ blocked a u ∨ ∃ n l k, a_thr a !! u = Some (AClock n l k)))
     (World (start_cfg (Cpu 1 0) {[16 := Semaphore 0]} ∅ ∅ tt 100 [104] handshake) []).
Proof.
  apply (kernel_implements_interleavings (Cpu 1 0) false 8 {[16 := Semaphore 0]} ∅ ∅ tt 100 [104]
    handshake handshake_inv).
  - by split.
  - done.
  - by apply (bool_decide_unpack _).
  - by compute.
  - split; cbn; set_solver.
  - intros p x [<- <-]%lookup_singleton_Some. cbn. lia.
  - by intros p x Hx.
  - apply handshake_ainv.
  - exists 0, waiter, poster. split_and!; [done|done|tauto].
  - apply not_elem_of_nil.
Defined.

(** In this execution the waiter sleeps first and both threads finish. *)
Lemma handshake_done :
  wp (machine false 8 (replicate 20 Run))
     (λ _ w, curthread (s_thr (c_sys (wst w))) = NULL ∧
        c_ctl (wst w) = <[100 := Exited tt]> {[104 := Exited tt]})
     (World (start_cfg (Cpu 1 0) {[16 := Semaphore 0]} ∅ ∅ tt 100 [104] handshake) []).
Proof. vm_compute. done. Qed.
