(* ===== verification/SynchProps.v ===== *)
(** * Where the locks and condition variables differ from their description

    kern/include/synch.h describes the operations of kern/thread/synch.c; two
    of them behave differently outside the uses the rest of the development
    proves safe. *)

From S2P Require Import Prelude Bits Spl Array Queue Thread ThreadSpec Synch SynchSpec MachineStart.

(** [cv_signal] with nobody waiting fails the assertion of [q_remhead] and
    panics, instead of doing nothing. *)
Theorem cv_signal_empty_panics S m p lk q :
  p ≠ NULL → lk ≠ NULL → s_cvs S !! p = Some (Cv q) → queue_rep q [] →
  panics (cv_signal p lk) (World S m).
Proof.
  intros Hp Hl Hq Hrep. unfold cv_signal.
  eapply panics_bind; [by apply not_null_spec|]. eapply panics_bind; [by apply not_null_spec|].
  eapply panics_bind; [by apply on_thr_spec, tsplhigh_spec|]. apply panics_first. unfold on_cv.
  eapply panics_bind.
  - unfold cv_load. kstep. by rewrite (wp_kof _ _ _ _ Hq).
  - by apply panics_zoom, q_remhead_empty with q.
Qed.

Definition idle_sys (locks : gmap Z lock) (cvs : gmap Z cv) : sys :=
  Sys (set_tcpu (Cpu 1 0) (start_thr (Cpu 1 0) 100 [104])) ∅ locks cvs.

Lemma cv_signal_empty_panics_witness :
  panics (cv_signal 16 20) (World (idle_sys ∅ {[16 := Cv (ring_of [])]}) []).
Proof.
  apply (cv_signal_empty_panics _ _ _ _ (ring_of [])); [done..|apply ring_of_rep].
Defined.

(** [lock_release] does not look at the holder: a thread that does not hold
    the lock can free it, and the next [lock_acquire] succeeds although the
    holder has not released it. *)
Theorem lock_release_any_thread S m p o c r sl z cp :
  cpu_ok cp → thr_ok (s_thr S) (TView (Some c) 0 r sl z cp) → mem_ok m →
  p ≠ NULL → s_locks S !! p = Some (Lock o) → o ≠ c →
  wp (lock_release p;; lock_acquire p)
     (λ res w, res.2 = None ∧ s_locks (wst w) !! p = Some (Lock c)) (World S m).
Proof.
  intros Hcp Hok Hm Hp Hx Ho. rewrite wp_bind. eapply lock_release_spec; [done..|].
  intros s1 m1 Hok1 Hm1 _. eapply lock_acquire_spec; [done|exact Hok1|done|].
  intros s2 Hok2 _. eapply (lock_acquire_loop_spec _ _ _ _ _ _ _ Hcp Hm1); [exact Hok2| | |].
  - scbn. apply lookup_insert_eq.
  - by intros [].
  - intros _ s3 _ _. scbn. split; [done|]. apply lookup_insert_eq.
Qed.

(** Thread 104 holds the lock; thread 100 takes it. *)
Lemma lock_release_any_thread_witness :
  wp (lock_release 16;; lock_acquire 16)
     (λ res w, res.2 = None ∧ s_locks (wst w) !! 16 = Some (Lock 100))
     (World (idle_sys {[16 := Lock 104]} ∅) []).
Proof.
  apply (lock_release_any_thread _ _ _ 104 100 [(104, 0)] [] [] (Cpu 1 0)); try done.
  - eapply thr_ok_cpu; [apply (start_thr_ok (Cpu 1 0) 100 [104])|by split].
    + by split.
    + by apply (bool_decide_unpack _).
    + by apply (bool_decide_unpack _).
    + by compute.
  - apply not_elem_of_nil.
Defined.
