(* ===== verification/Stoplight.v ===== *)
(** * The intersection (kern/asst1/stoplight.c)

    Cars are threads; each quadrant of the intersection and the shared counters
    are guarded by a semaphore, and the cars that approach from one direction
    stand in a queue.  The bodies of the threads are commands of Machine.v.  A
    pointer to a car's number is the address of a variable on its own stack and
    stands for the car; it is represented by the thread.  The shared structure
    carries, besides the fields of [struct intersection], the messages printed
    so far, newest first. *)

From S2P Require Import Prelude Bits Spl Array Queue Thread ThreadSpec Synch Machine.

Definition NCARS : Z := 20.

Definition N_W : Z := 0.
Definition N_E : Z := 1.
Definition S_E : Z := 2.
Definition S_W : Z := 3.

(** The first parameter of [message]. *)
Inductive msg_nr := APPROACHING | REGION1 | REGION2 | REGION3 | LEAVING.

#[export] Instance msg_nr_eq_dec : EqDecision msg_nr.
Proof. solve_decision. Defined.

Record msg := Msg { m_nr : msg_nr; m_car : Z; m_from : Z; m_to : Z }.

Record intersection := Intersection {
  carnumber : Z;
  carleaving : Z;
  waitlist : list (queue Z);
  printed : list msg
}.

Definition set_carnumber (x : Z) (g : intersection) : intersection :=
  Intersection x (carleaving g) (waitlist g) (printed g).
Definition set_carleaving (x : Z) (g : intersection) : intersection :=
  Intersection (carnumber g) x (waitlist g) (printed g).
Definition set_waitlist (x : list (queue Z)) (g : intersection) : intersection :=
  Intersection (carnumber g) (carleaving g) x (printed g).
Definition set_printed (x : list msg) (g : intersection) : intersection :=
  Intersection (carnumber g) (carleaving g) (waitlist g) x.

(** The local variables of a car; [wait] is the outcome of the test at the
    entrance. *)
Record local := Local { region : Z; done : Z; wait : bool }.

Definition set_region (x : Z) (l : local) : local := Local x (done l) (wait l).
Definition set_done (x : Z) (l : local) : local := Local (region l) x (wait l).
Definition set_wait (x : bool) (l : local) : local := Local (region l) (done l) x.

(** The semaphores of [struct intersection]. *)
Record semaphores := Semaphores { NE : Z; NW : Z; SE : Z; SW : Z; staus : Z }.

Definition cmd := Machine.cmd local intersection.

Declare Scope car_scope.
Delimit Scope car_scope with car.
Notation "c1 ;+ c2" := (CSeq c1 c2) (at level 90, right associativity) : car_scope.
#[local] Open Scope car_scope.

(** A queue operation on [intersection->waitlist[d]]. *)
Definition on_waitlist {A} (d : Z) (c : K (queue Z) A) : K intersection A :=
  g ← kget;
  q ← kof (lget (waitlist g) d);
  zoom (λ _, q) (λ q' g, set_waitlist (<[Z.to_nat d := q']> (waitlist g)) g) c.

Definition message (nr : msg_nr) (car from to : Z) : cmd :=
  CAct (λ l, g ← kget; kput (set_printed (Msg nr car from to :: printed g) g);; mret l).

Definition is_in_order (d self : Z) : K intersection bool :=
  e ← on_waitlist d q_empty;
  if (e : bool) then mret true
  else
    i ← on_waitlist d q_getstart;
    x ← on_waitlist d (q_getguy i);
    mret (x =? self).

Section cars.
Context (I : semaphores).

(** The condition of the test at the entrance; [is_in_order] is only called if
    the intersection is not full. *)
Definition must_wait (d self : Z) : K intersection bool :=
  g ← kget;
  if 2 <? carnumber g then mret true
  else b ← is_in_order d self; mret (negb b).

Definition add_to_waitlist (d self : Z) : cmd :=
  CAct (λ l, on_waitlist d (q_addtail self);; mret l).

Definition test_entrance (d self : Z) : cmd :=
  CAct (λ l, b ← must_wait d self; mret (set_wait b l)).

Definition remove_from_waitlist (d : Z) : cmd :=
  CAct (λ l, on_waitlist d q_remhead;; mret l).

Definition incr_carnumber : cmd :=
  CAct (λ l, g ← kget; kput (set_carnumber (i32 (carnumber g + 1)) g);; mret l).

Definition decr_carnumber : cmd :=
  CAct (λ l, g ← kget; kput (set_carnumber (i32 (carnumber g - 1)) g);; mret l).

Definition incr_carleaving : cmd :=
  CAct (λ l, g ← kget; kput (set_carleaving (i32 (carleaving g + 1)) g);; mret l).

Definition incr_region : cmd := CSet (λ l, set_region (region l + 1) l).

(** The block for [region==0] of [gostraight] and [turnleft], with the
    quadrant's semaphore, the queue, and the destination to print. *)
Definition first_region (Q d : Z) (car self from to : Z) : cmd :=
  CP Q ;+
  CP (staus I) ;+
  test_entrance d self ;+
  CIf wait
    (CV (staus I) ;+
     CV Q)
    (remove_from_waitlist d ;+
     incr_carnumber ;+
     CV (staus I) ;+
     incr_region ;+
     message REGION1 car from to).

(** The block of a region that is left for another one ([turnleft]). *)
Definition middle_region (Q Qprev : Z) (car from to : Z) : cmd :=
  CP Q ;+
  message REGION2 car from to ;+
  CV Qprev ;+
  incr_region.

(** The block of the last region of [gostraight] and [turnleft]. *)
Definition last_region (nr : msg_nr) (Q Qprev : Z) (car from to : Z) : cmd :=
  CP Q ;+
  message nr car from to ;+
  CV Qprev ;+
  incr_region ;+
  CP (staus I) ;+
  decr_carnumber ;+
  incr_carleaving ;+
  CV (staus I) ;+
  message LEAVING car from to ;+
  CV Q.

Definition gostraight (cardirection car self : Z) : cmd :=
  CSet (set_region 0) ;+
  CP (staus I) ;+
  add_to_waitlist cardirection self ;+
  message APPROACHING car cardirection ((cardirection + 2) mod 4) ;+
  CV (staus I) ;+
  CWhile (λ l, region l <? 2)
    (CIf (λ _, cardirection =? 0)
      (CIf (λ l, region l =? 0)
        (first_region (NW I) N_W car self cardirection 2)
      (CIf (λ l, region l =? 1)
        (last_region REGION2 (SW I) (NW I) car cardirection 2) CSkip))
    (CIf (λ _, cardirection =? 1)
      (CIf (λ l, region l =? 0)
        (first_region (NE I) N_E car self cardirection 3)
      (CIf (λ l, region l =? 1)
        (last_region REGION2 (NW I) (NE I) car cardirection 3) CSkip))
    (CIf (λ _, cardirection =? 2)
      (CIf (λ l, region l =? 0)
        (first_region (SE I) S_E car self cardirection 0)
      (CIf (λ l, region l =? 1)
        (last_region REGION2 (NE I) (SE I) car cardirection 0) CSkip))
    (CIf (λ _, cardirection =? 3)
      (CIf (λ l, region l =? 0)
        (first_region (SW I) S_W car self cardirection 1)
      (CIf (λ l, region l =? 1)
        (last_region REGION2 (SE I) (SW I) car cardirection 1) CSkip))
      CSkip)))).

Definition turnleft (cardirection car self : Z) : cmd :=
  CSet (set_region 0) ;+
  CP (staus I) ;+
  add_to_waitlist cardirection self ;+
  message APPROACHING car cardirection ((cardirection + 1) mod 4) ;+
  CV (staus I) ;+
  CWhile (λ l, region l <? 3)
    (CIf (λ _, cardirection =? 0)
      (CIf (λ l, region l =? 0)
        (first_region (NW I) N_W car self cardirection 1)
      (CIf (λ l, region l =? 1)
        (middle_region (SW I) (NW I) car cardirection 1)
        (last_region REGION3 (SE I) (SW I) car cardirection 1)))
    (CIf (λ _, cardirection =? 1)
      (CIf (λ l, region l =? 0)
        (first_region (NE I) N_E car self cardirection 2)
      (CIf (λ l, region l =? 1)
        (middle_region (NW I) (NE I) car cardirection 2)
        (last_region REGION3 (SW I) (NW I) car cardirection 2)))
    (CIf (λ _, cardirection =? 2)
      (CIf (λ l, region l =? 0)
        (first_region (SE I) S_E car self cardirection 3)
      (CIf (λ l, region l =? 1)
        (middle_region (NE I) (SE I) car cardirection 3)
        (last_region REGION3 (NW I) (NE I) car cardirection 3)))
    (CIf (λ _, cardirection =? 3)
      (CIf (λ l, region l =? 0)
        (first_region (SW I) S_W car self cardirection 0)
      (CIf (λ l, region l =? 1)
        (middle_region (SE I) (SW I) car cardirection 0)
        (last_region REGION3 (NE I) (SE I) car cardirection 0)))
      CSkip)))).

(** The block of [turnright] for one direction. *)
Definition only_region (Q d : Z) (car self from to : Z) : cmd :=
  CP Q ;+
  CP (staus I) ;+
  test_entrance d self ;+
  CIf wait
    (CV (staus I) ;+
     CV Q)
    (remove_from_waitlist d ;+
     incr_carnumber ;+
     CV (staus I) ;+
     message REGION1 car from to ;+
     CP (staus I) ;+
     decr_carnumber ;+
     incr_carleaving ;+
     CV (staus I) ;+
     message LEAVING car from to ;+
     CSet (set_done 1) ;+
     CV Q).

Definition turnright (cardirection car self : Z) : cmd :=
  CSet (set_done 0) ;+
  CP (staus I) ;+
  add_to_waitlist cardirection self ;+
  message APPROACHING car cardirection ((cardirection + 3) mod 4) ;+
  CV (staus I) ;+
  CWhile (λ l, done l =? 0)
    (CIf (λ _, cardirection =? 0)
      (only_region (NW I) N_W car self cardirection 3)
    (CIf (λ _, cardirection =? 1)
      (only_region (NE I) N_E car self cardirection 0)
    (CIf (λ _, cardirection =? 2)
      (only_region (SE I) S_E car self cardirection 1)
    (CIf (λ _, cardirection =? 3)
      (only_region (SW I) S_W car self cardirection 2)
      CSkip)))).

(** [r1] and [r2] are the two answers of [random]. *)
Definition approachintersection (r1 r2 car self : Z) : cmd :=
  let cardirection := r1 mod 4 in
  let destination := r2 mod 3 in
  CIf (λ _, destination =? 0) (turnright cardirection car self)
  (CIf (λ _, destination =? 1) (turnleft cardirection car self)
  (CIf (λ _, destination =? 2) (gostraight cardirection car self)
    CSkip)).

End cars.

(** [createcars] up to the forks, for addresses [kmalloc] gives out: the five
    semaphores of the structure, the four of the unused [waitlist_lock], and
    the queues.  The code checks no result: a failed allocation is a null
    pointer that the cars use, and the model stops at once. *)
Definition create_one (p : Z) : K (cfg local intersection) unit :=
  r ← on_sys (sem_create p 1);
  if r =? NULL then kundef else mret tt.

Definition createcars_init (I : semaphores) (locks : list Z)
    : K (cfg local intersection) unit :=
  ok ← kmalloc_ok;
  if negb ok then kundef else
  create_one (NE I);;
  create_one (NW I);;
  create_one (SE I);;
  create_one (SW I);;
  create_one (staus I);;
  ok ← kmalloc_ok;
  if negb ok then kundef else
  ok ← kmalloc_ok;
  if negb ok then kundef else
  kfold (length locks) 0 (λ i _,
    p ← kof (lget locks i);
    create_one p) tt;;
  ws ← kfold 4 0 (λ i ws,
    o ← q_create NCARS;
    q ← kof o;
    mret (ws ++ [q])) [];
  c ← kget;
  kput (set_g (Intersection 0 0 ws []) c).
