(* ===== verification/StoplightInv.v ===== *)
(** * The way of a car through the intersection

    The control states of the threads of Stoplight.v as an automaton: which
    command comes next, which semaphores the car holds and what it has printed
    last.  [kont_next] shows that the code follows the automaton. *)

From S2P Require Import Prelude Bits Spl Array Queue Thread ThreadSpec Synch Machine Stoplight.

(** A car: the random numbers it draws, and its number. *)
Record car := Car { c_r1 : Z; c_r2 : Z; c_num : Z }.

Definition c_dir (c : car) : Z := c_r1 c mod 4.

(** 0: right, 1: left, 2: straight. *)
Definition c_turn (c : car) : Z := c_r2 c mod 3.

Definition c_regions (c : car) : Z :=
  if c_turn c =? 0 then 1 else if c_turn c =? 1 then 3 else 2.

Definition c_dest (c : car) : Z :=
  (c_dir c + (if c_turn c =? 0 then 3 else if c_turn c =? 1 then 1 else 2)) mod 4.

(** The quadrant of the [i]-th region of the way, counted from 0. *)
Definition quad (c : car) (i : Z) : Z := (c_dir c + 3 * i) mod 4.

(** Approaching, entering, the middle region of a left turn, leaving. *)
Inductive phase :=
| Start
| A0 | A1 | A2 | A3
| E0 | E1 | E2 | E3 | E4 | E5 | E6 | E7 | E8
| M0 | M1 | M2
| Z0 | Z1 | Z2 | Z3 | Z4 | Z5 | Z6 | Z7 | Z8
| Finished.

#[export] Instance phase_eq_dec : EqDecision phase.
Proof. solve_decision. Defined.

Section car.
Context (I : semaphores).

Definition quad_sem (q : Z) : Z :=
  if q =? 0 then NW I else if q =? 1 then NE I else if q =? 2 then SE I else SW I.

Definition sem_at (c : car) (i : Z) : Z := quad_sem (quad c i).

(** The function the car calls, its loop, and the blocks of the loop. *)
Definition trip (c : car) (t : Z) : cmd :=
  if c_turn c =? 0 then turnright I (c_dir c) (c_num c) t
  else if c_turn c =? 1 then turnleft I (c_dir c) (c_num c) t
  else gostraight I (c_dir c) (c_num c) t.

Definition loop (c : car) (t : Z) : cmd := seq_drop 5 (trip c t).

Definition entrance (c : car) (t : Z) : cmd :=
  if c_turn c =? 0
  then only_region I (sem_at c 0) (c_dir c) (c_num c) t (c_dir c) (c_dest c)
  else first_region I (sem_at c 0) (c_dir c) (c_num c) t (c_dir c) (c_dest c).

Definition branch (b : bool) (c : cmd) : cmd :=
  match seq_drop 3 c with CIf _ c1 c2 => if b then c1 else c2 | _ => CSkip end.

Definition middle (c : car) : cmd :=
  middle_region (sem_at c 1) (sem_at c 0) (c_num c) (c_dir c) (c_dest c).

Definition last_nr (c : car) : msg_nr := if c_turn c =? 1 then REGION3 else REGION2.

Definition exit_block (c : car) : cmd :=
  last_region I (last_nr c) (sem_at c (c_regions c - 1)) (sem_at c (c_regions c - 2))
    (c_num c) (c_dir c) (c_dest c).

(** The leaving part, which [turnright] has inside the entrance block. *)
Definition leaving (c : car) (t : Z) (n : nat) : list cmd :=
  if c_turn c =? 0 then at_seq (n + 4) (branch false (entrance c t)) [loop c t]
  else at_seq (n + 4) (exit_block c) [loop c t].

(** What remains to be done in a phase. *)
Definition kont (c : car) (t : Z) (ph : phase) : list cmd :=
  match ph with
  | Start => [approachintersection I (c_r1 c) (c_r2 c) (c_num c) t]
  | A0 => at_seq 1 (trip c t) []
  | A1 => at_seq 2 (trip c t) []
  | A2 => at_seq 3 (trip c t) []
  | A3 => at_seq 4 (trip c t) []
  | E0 => at_seq 0 (entrance c t) [loop c t]
  | E1 => at_seq 1 (entrance c t) [loop c t]
  | E2 => at_seq 2 (entrance c t) [loop c t]
  | E3 => at_seq 0 (branch true (entrance c t)) [loop c t]
  | E4 => at_seq 1 (branch true (entrance c t)) [loop c t]
  | E5 => at_seq 0 (branch false (entrance c t)) [loop c t]
  | E6 => at_seq 1 (branch false (entrance c t)) [loop c t]
  | E7 => at_seq 2 (branch false (entrance c t)) [loop c t]
  | E8 => at_seq (if c_turn c =? 0 then 3 else 4) (branch false (entrance c t)) [loop c t]
  | M0 => at_seq 0 (middle c) [loop c t]
  | M1 => at_seq 1 (middle c) [loop c t]
  | M2 => at_seq 2 (middle c) [loop c t]
  | Z0 => at_seq 0 (exit_block c) [loop c t]
  | Z1 => at_seq 1 (exit_block c) [loop c t]
  | Z2 => at_seq 2 (exit_block c) [loop c t]
  | Z3 => leaving c t 0
  | Z4 => leaving c t 1
  | Z5 => leaving c t 2
  | Z6 => leaving c t 3
  | Z7 => leaving c t 4
  | Z8 => if c_turn c =? 0 then CV (sem_at c 0) :: [loop c t]
          else leaving c t 5
  | Finished => []
  end.

(** The next command. *)
Definition op (c : car) (t : Z) (ph : phase) : cmd :=
  match ph with
  | Start => approachintersection I (c_r1 c) (c_r2 c) (c_num c) t
  | A0 | E1 | Z3 => CP (staus I)
  | A1 => add_to_waitlist (c_dir c) t
  | A2 => message APPROACHING (c_num c) (c_dir c) (c_dest c)
  | A3 | E3 | E7 | Z6 => CV (staus I)
  | E0 => CP (sem_at c 0)
  | E2 => test_entrance (c_dir c) t
  | E4 => CV (sem_at c 0)
  | E5 => remove_from_waitlist (c_dir c)
  | E6 => incr_carnumber
  | E8 => message REGION1 (c_num c) (c_dir c) (c_dest c)
  | M0 => CP (sem_at c 1)
  | M1 => message REGION2 (c_num c) (c_dir c) (c_dest c)
  | M2 => CV (sem_at c 0)
  | Z0 => CP (sem_at c (c_regions c - 1))
  | Z1 => message (last_nr c) (c_num c) (c_dir c) (c_dest c)
  | Z2 => CV (sem_at c (c_regions c - 2))
  | Z4 => decr_carnumber
  | Z5 => incr_carleaving
  | Z7 => message LEAVING (c_num c) (c_dir c) (c_dest c)
  | Z8 => CV (sem_at c (c_regions c - 1))
  | Finished => CSkip
  end.

(** The next phase; [b] is the outcome of the test at the entrance. *)
Definition succ (c : car) (b : bool) (ph : phase) : phase :=
  match ph with
  | Start => A0 | A0 => A1 | A1 => A2 | A2 => A3 | A3 => E0
  | E0 => E1 | E1 => E2 | E2 => if b then E3 else E5 | E3 => E4 | E4 => E0
  | E5 => E6 | E6 => E7 | E7 => E8
  | E8 => if c_turn c =? 0 then Z3 else if c_turn c =? 1 then M0 else Z0
  | M0 => M1 | M1 => M2 | M2 => Z0
  | Z0 => Z1 | Z1 => Z2 | Z2 => Z3 | Z3 => Z4 | Z4 => Z5 | Z5 => Z6 | Z6 => Z7 | Z7 => Z8
  | Z8 => Finished | Finished => Finished
  end.

(** The value of the loop variable, [region] or [done]. *)
Definition loop_var (c : car) (ph : phase) : Z :=
  if c_turn c =? 0 then match ph with Z8 | Finished => 1 | _ => 0 end
  else match ph with
       | E8 | M0 | M1 | M2 => 1
       | Z0 | Z1 | Z2 => c_regions c - 1
       | Z3 | Z4 | Z5 | Z6 | Z7 | Z8 | Finished => c_regions c
       | _ => 0
       end.

Definition local_ok (c : car) (ph : phase) (l : local) : Prop :=
  ph = Start ∨ (if c_turn c =? 0 then done l else region l) = loop_var c ph.

(** The phases a car with its turn goes through. *)
Definition on_way (c : car) (ph : phase) : Prop :=
  match ph with
  | M0 | M1 | M2 => c_turn c = 1
  | Z0 | Z1 | Z2 => c_turn c ≠ 0
  | _ => True
  end.

Lemma turn_cases c : c_turn c = 0 ∨ c_turn c = 1 ∨ c_turn c = 2.
Proof. unfold c_turn. pose proof (Z.mod_pos_bound (c_r2 c) 3). lia. Qed.

Lemma dir_cases c : c_dir c = 0 ∨ c_dir c = 1 ∨ c_dir c = 2 ∨ c_dir c = 3.
Proof. unfold c_dir. pose proof (Z.mod_pos_bound (c_r1 c) 4). lia. Qed.

Lemma kont_op c t ph : on_way c ph → ph ≠ Finished → ∃ k, kont c t ph = op c t ph :: k.
Proof.
  intros Hw Hf. unfold on_way, kont, leaving, op, exit_block, middle, entrance, trip, c_dest,
    c_regions in *.
  destruct (turn_cases c) as [E|[E|E]]; rewrite E in *; destruct ph; try done; by eexists.
Qed.

Lemma kont_next c t ph l : 
  on_way c ph → ph ≠ Finished → ph ≠ Start → local_ok c ph l →
  ∃ l', next_cmd l (tail (kont c t ph)) = Some (l', kont c t (succ c (wait l) ph)) ∧
    local_ok c (succ c (wait l) ph) l' ∧ on_way c (succ c (wait l) ph).
Proof.
  intros Hw Hf Hs [->|Hl]; [done|]. destruct l as [rg dn w]. cbn [region done wait] in *.
  rewrite next_cmd_eq.
  unfold local_ok, on_way, kont, leaving, loop, exit_block, middle, entrance, trip, c_dest,
    succ, loop_var, sem_at, quad, last_nr, c_regions in *.
  destruct (turn_cases c) as [E|[E|E]]; rewrite E in *;
    destruct (dir_cases c) as [D|[D|[D|D]]]; rewrite D in *; cbn in Hl;
    destruct ph; try done; cbn in Hl; subst; destruct w;
    (eexists; split_and!; [reflexivity|right; reflexivity|first [done|cbn; lia]]).
Qed.
Lemma kont_start c t l :
  ∃ l', next_cmd l (kont c t Start) = Some (l', kont c t A0) ∧ local_ok c A0 l'.
Proof.
  destruct l as [rg dn w]. rewrite next_cmd_eq. unfold kont, local_ok, trip, loop_var.
  destruct (turn_cases c) as [E|[E|E]]; rewrite E; unfold c_turn in E;
    unfold approachintersection; rewrite E; eexists; (split; [reflexivity|right; reflexivity]).
Qed.

(** ** Semaphores *)

(** The semaphores a car holds. *)
Definition held (c : car) (ph : phase) : list Z :=
  match ph with
  | Start | A0 | E0 | Finished => []
  | A1 | A2 | A3 => [staus I]
  | E1 | E4 | E8 | M0 => [sem_at c 0]
  | E2 | E3 | E5 | E6 | E7 => [staus I; sem_at c 0]
  | M1 | M2 => [sem_at c 1; sem_at c 0]
  | Z0 => [sem_at c (c_regions c - 2)]
  | Z1 | Z2 => [sem_at c (c_regions c - 1); sem_at c (c_regions c - 2)]
  | Z3 | Z7 | Z8 => [sem_at c (c_regions c - 1)]
  | Z4 | Z5 | Z6 => [staus I; sem_at c (c_regions c - 1)]
  end.

Context (HI : NoDup [NE I; NW I; SE I; SW I; staus I]).

Lemma quad_range c i : 0 ≤ quad c i < 4.
Proof. apply Z.mod_pos_bound. lia. Qed.

Lemma quad_sem_inj p q : 0 ≤ p < 4 → 0 ≤ q < 4 → quad_sem p = quad_sem q → p = q.
Proof.
  intros Hp Hq. rewrite !NoDup_cons, !elem_of_cons in HI.
  assert (p = 0 ∨ p = 1 ∨ p = 2 ∨ p = 3) as [->|[->|[->| ->]]] by lia;
    assert (q = 0 ∨ q = 1 ∨ q = 2 ∨ q = 3) as [->|[->|[->| ->]]] by lia;
    unfold quad_sem; cbn; naive_solver.
Qed.

Lemma quad_sem_staus q : 0 ≤ q < 4 → quad_sem q ≠ staus I.
Proof.
  intros Hq. rewrite !NoDup_cons, !elem_of_cons in HI.
  assert (q = 0 ∨ q = 1 ∨ q = 2 ∨ q = 3) as [->|[->|[->| ->]]] by lia;
    unfold quad_sem; cbn; naive_solver.
Qed.

Lemma sem_at_staus c i : sem_at c i ≠ staus I.
Proof. apply quad_sem_staus, quad_range. Qed.

(** Two steps of a way are different quadrants. *)
Lemma sem_at_ne c i j : 0 < j - i < 4 → sem_at c i ≠ sem_at c j.
Proof.
  intros Hij H. apply quad_sem_inj in H; try apply quad_range. unfold quad in H.
  assert ((c_dir c + 3 * i) mod 4 = (c_dir c + 3 * j) mod 4) as H' by done.
  clear -H' Hij. Z.div_mod_to_equations. lia.
Qed.

(** Each step changes what is held as its command says. *)
Lemma held_step c t ph b :
  on_way c ph →
  match op c t ph with
  | CP s => s ∉ held c ph ∧ ∀ x, x ∈ held c (succ c b ph) ↔ x = s ∨ x ∈ held c ph
  | CV s => s ∈ held c ph ∧ s ∉ held c (succ c b ph) ∧
      ∀ x, x ∈ held c ph ↔ x = s ∨ x ∈ held c (succ c b ph)
  | _ => ∀ x, x ∈ held c (succ c b ph) ↔ x ∈ held c ph
  end.
Proof.
  intros Hw. pose proof (sem_at_staus c 0). pose proof (sem_at_staus c 1).
  pose proof (sem_at_staus c 2). pose proof (sem_at_ne c 0 1 ltac:(lia)).
  pose proof (sem_at_ne c 1 2 ltac:(lia)). unfold on_way in Hw.
  destruct (turn_cases c) as [E|[E|E]];
    destruct ph; cbn [op held succ]; unfold c_regions; rewrite ?E in *; try done;
    change (1 - 1) with 0; change (3 - 1) with 2; change (3 - 2) with 1; change (2 - 1) with 1;
    change (2 - 2) with 0; try destruct b; cbn [Z.eqb Pos.eqb held] in *;
    unfold c_regions; rewrite ?E; change (1 - 1) with 0; change (3 - 1) with 2;
    change (3 - 2) with 1; change (2 - 1) with 1; change (2 - 2) with 0;
    cbn [Z.eqb Pos.eqb]; set_solver.
Qed.

End car.
