(* ===== verification/StoplightProof.v ===== *)
(** * The invariant of the intersection

    For a set of cars at any positions: each semaphore is free or held by one
    car, the counter counts the cars inside and never exceeds three, each
    waiting line is the queue of the cars that stand in it, and the last
    message of each car tells where it is. *)

From stdpp Require Import gmap fin_sets functions.
From S2P Require Import Prelude Bits Spl Array Queue Thread ThreadSpec Synch Machine Stoplight StoplightInv.

(** The car is counted in [carnumber]. *)
Definition counted (ph : phase) : bool :=
  match ph with
  | E7 | E8 | M0 | M1 | M2 | Z0 | Z1 | Z2 | Z3 | Z4 => true
  | _ => false
  end.

(** The car stands in the waiting line. *)
Definition queued (ph : phase) : bool :=
  match ph with A2 | A3 | E0 | E1 | E2 | E3 | E4 | E5 => true | _ => false end.

(** The messages about regions a car prints on its way, newest first. *)
Definition regions_said (c : car) : list msg_nr :=
  if c_turn c =? 0 then [REGION1; APPROACHING]
  else if c_turn c =? 1 then [REGION3; REGION2; REGION1; APPROACHING]
  else [REGION2; REGION1; APPROACHING].

(** What the car has printed, newest first. *)
Definition said (c : car) (ph : phase) : list msg_nr :=
  match ph with
  | Start | A0 | A1 | A2 => []
  | A3 | E0 | E1 | E2 | E3 | E4 | E5 | E6 | E7 | E8 => [APPROACHING]
  | M0 | M1 => [REGION1; APPROACHING]
  | M2 => [REGION2; REGION1; APPROACHING]
  | Z0 | Z1 => tail (regions_said c)
  | Z2 | Z3 | Z4 | Z5 | Z6 | Z7 => regions_said c
  | Z8 | Finished => LEAVING :: regions_said c
  end.

(** The messages of car [n]. *)
Definition told (log : list msg) (n : Z) : list msg := filter (λ m, m_car m = n) log.

Definition expected (c : car) (ph : phase) : list msg :=
  (λ nr, Msg nr (c_num c) (c_dir c) (c_dest c)) <$> said c ph.

(** The quadrant a car is in, by what it has printed last. *)
Definition position (c : car) (log : list msg) : option Z :=
  m ← head (told log (c_num c));
  match m_nr m with
  | REGION1 => Some (quad c 0)
  | REGION2 => Some (quad c 1)
  | REGION3 => Some (quad c 2)
  | _ => None
  end.

(** The cars that have printed [nr] coming from direction [d], oldest first. *)
Definition nums (nr : msg_nr) (d : Z) (log : list msg) : list Z :=
  reverse (m_car <$> filter (λ m, m_nr m = nr ∧ m_from m = d) log).

Lemma nums_cons nr d m log :
  nums nr d (m :: log) =
  nums nr d log ++ (if decide (m_nr m = nr ∧ m_from m = d) then [m_car m] else []).
Proof.
  unfold nums. rewrite filter_cons. case_decide; [by rewrite fmap_cons, reverse_cons|].
  by rewrite app_nil_r.
Qed.

(** The car is in the line and has not yet said so; the car has left the line
    and not yet said that it is in its first region. *)
Definition adding (ph : phase) : bool := bool_decide (ph = A2).
Definition at_gate (ph : phase) : bool := bool_decide (ph = E6 ∨ ph = E7 ∨ ph = E8).

(** A binary semaphore with value [n], held by the threads in [H]. *)
Definition excl (n : Z) (H : Z → Prop) : Prop :=
  (n = 1 ∧ ∀ t, ¬ H t) ∨ (n = 0 ∧ ∃ t, H t ∧ ∀ u, H u → u = t).

Lemma excl_ext n H H' : (∀ t, H' t ↔ H t) → excl n H → excl n H'.
Proof.
  intros HH [[Hn Hno]|[Hn (t & Ht & Hu)]].
  - left. split; [done|]. intros t. rewrite HH. apply Hno.
  - right. split; [done|]. exists t. rewrite HH. split; [done|]. intros u. rewrite HH. apply Hu.
Qed.

Lemma excl_take n H H' t :
  excl n H → 0 < n → (∀ u, H' u ↔ u = t ∨ H u) → excl (n - 1) H'.
Proof.
  intros [[-> Hno]|[-> _]] Hn HH; [|lia]. right. split; [done|]. exists t. split.
  - apply HH. by left.
  - intros u [Hu|Hu]%HH; [done|]. by destruct (Hno u).
Qed.

Lemma excl_give n H H' t :
  excl n H → H t → (∀ u, H' u ↔ u ≠ t ∧ H u) → excl (n + 1) H' ∧ n = 0.
Proof.
  intros [[-> Hno]|[-> (t' & Ht' & Hu)]] Ht HH; [by destruct (Hno t)|].
  split; [|done]. left. split; [done|]. intros u [Hne H1]%HH. apply Hne.
  rewrite (Hu u), (Hu t); done.
Qed.

Lemma excl_unique n H t u : excl n H → H t → H u → t = u.
Proof.
  intros [[_ Hno]|[_ (w & _ & Hw)]] Ht Hu; [by destruct (Hno t)|]. by rewrite (Hw t), (Hw u).
Qed.

Section inv.
Context (I : semaphores) (cars : gmap Z car).

Context (HI : NoDup [NE I; NW I; SE I; SW I; staus I]).
Context (Hnum : ∀ t u c c', cars !! t = Some c → cars !! u = Some c' →
  c_num c = c_num c' → t = u).
Context (Hfew : Z.of_nat (base.size cars) ≤ MAXTHREADS).

Implicit Types (phs : Z → phase) (a : astate local intersection).

Definition holds phs (s t : Z) : Prop :=
  ∃ c, cars !! t = Some c ∧ s ∈ held I c (phs t).

Definition inside_set phs : gset Z := filter (λ t, counted (phs t) = true) (dom cars).

(** The waiting line of a direction. *)
Definition line_ok phs (g : intersection) (d : Z) (l : list Z) : Prop :=
  NoDup l ∧
  (∀ t, t ∈ l ↔ ∃ c, cars !! t = Some c ∧ c_dir c = d ∧ queued (phs t) = true) ∧
  ∃ q, lget (waitlist g) d = Some q ∧ queue_rep q l ∧ size q ≤ QUEUE_LIMIT.

Definition car_ok phs (line : Z → list Z) (g : intersection) (t : Z) (c : car)
    (x : option (actl local intersection)) : Prop :=
  ∃ l, x = Some (ARun l (kont I c t (phs t))) ∧ local_ok c (phs t) l ∧ on_way c (phs t) ∧
  told (printed g) (c_num c) = expected c (phs t) ∧
  (phs t = E5 → head (line (c_dir c)) = Some t) ∧
  (phs t = E5 ∨ phs t = E6 → carnumber g ≤ 2).

Definition at_phase phs (P : phase → bool) (d u : Z) : Prop :=
  ∃ c, cars !! u = Some c ∧ c_dir c = d ∧ P (phs u) = true.

Definition number (t : Z) : Z := from_option c_num 0 (cars !! t).

(** The cars of a direction enter in the order in which they approach. *)
Definition order_ok phs (log : list msg) (d : Z) (l : list Z) : Prop :=
  ∃ pend gate : option Z,
    (∀ u, pend = Some u ↔ at_phase phs adding d u) ∧
    (∀ u, gate = Some u ↔ at_phase phs at_gate d u) ∧
    nums APPROACHING d log ++ from_option (λ u, [number u]) [] pend =
    nums REGION1 d log ++ from_option (λ u, [number u]) [] gate ++ (number <$> l).

Record stop_inv a phs (line : Z → list Z) : Prop := StopInv {
  si_cars t c : cars !! t = Some c → car_ok phs line (a_g a) t c (a_thr a !! t);
  si_dom : dom (a_thr a) = dom cars;
  si_sems s : s ∈ [NE I; NW I; SE I; SW I; staus I] →
    ∃ n, a_sems a !! s = Some n ∧ excl n (holds phs s);
  si_count : carnumber (a_g a) = Z.of_nat (base.size (inside_set phs));
  si_three : carnumber (a_g a) ≤ 3;
  si_lines d : 0 ≤ d < 4 → line_ok phs (a_g a) d (line d);
  si_order d : 0 ≤ d < 4 → order_ok phs (printed (a_g a)) d (line d)
}.

Definition stoplight_inv a : Prop := ∃ phs line, stop_inv a phs line.

(** ** One car moves *)

Lemma holds_move phs t c ph' s u :
  cars !! t = Some c →
  holds (<[t := ph']> phs) s u ↔ if decide (u = t) then s ∈ held I c ph' else holds phs s u.
Proof.
  intros Hc. unfold holds. destruct (decide (u = t)) as [->|Hne].
  - rewrite fn_lookup_insert. split; [|eauto]. intros (c' & ? & ?). by simplify_eq.
  - by rewrite fn_lookup_insert_ne.
Qed.

Lemma inside_same phs t ph' :
  counted ph' = counted (phs t) → inside_set (<[t := ph']> phs) = inside_set phs.
Proof.
  intros H. unfold inside_set. apply set_eq. intros u. rewrite !elem_of_filter.
  destruct (decide (u = t)) as [->|Hne]; [by rewrite fn_lookup_insert, H|].
  by rewrite fn_lookup_insert_ne.
Qed.

Lemma inside_enter phs t c ph' :
  cars !! t = Some c → counted (phs t) = false → counted ph' = true →
  base.size (inside_set (<[t := ph']> phs)) = S (base.size (inside_set phs)).
Proof.
  intros Hc H1 H2. assert (inside_set (<[t := ph']> phs) = {[t]} ∪ inside_set phs) as ->.
  { unfold inside_set. apply set_eq. intros u. rewrite elem_of_union, !elem_of_filter.
    rewrite elem_of_singleton. destruct (decide (u = t)) as [->|Hne].
    - rewrite fn_lookup_insert. apply elem_of_dom_2 in Hc. tauto.
    - rewrite fn_lookup_insert_ne by done. tauto. }
  rewrite size_union, size_singleton; [lia|].
  intros u ->%elem_of_singleton [Hu _]%elem_of_filter. congruence.
Qed.

Lemma inside_leave phs t c ph' :
  cars !! t = Some c → counted (phs t) = true → counted ph' = false →
  base.size (inside_set phs) = S (base.size (inside_set (<[t := ph']> phs))).
Proof.
  intros Hc H1 H2. rewrite <- (inside_enter _ t c (phs t) Hc) by (done || by rewrite fn_lookup_insert).
  f_equal. unfold inside_set. apply set_eq. intros u. rewrite !elem_of_filter.
  destruct (decide (u = t)) as [->|Hne]; [by rewrite fn_lookup_insert|].
  by rewrite !fn_lookup_insert_ne.
Qed.

(** The state after thread [t] has moved. *)
Definition moved a (sems : gmap Z Z) (g : intersection) (t : Z) (l : local) (k : list cmd) :
    astate local intersection :=
  AState sems (a_locks a) (a_cvs a) g (<[t := ARun l k]> (a_thr a)).

(** What has to be shown for a move of car [t] to [ph']. *)
Lemma move_inv a phs line t c l' ph' sems' g' line' :
  stop_inv a phs line → cars !! t = Some c → local_ok c ph' l' → on_way c ph' →
  (∀ u c', cars !! u = Some c' → u ≠ t →
     told (printed g') (c_num c') = told (printed (a_g a)) (c_num c') ∧
     (phs u = E5 → head (line (c_dir c')) = Some u → head (line' (c_dir c')) = Some u) ∧
     (phs u = E5 ∨ phs u = E6 → carnumber (a_g a) ≤ 2 → carnumber g' ≤ 2)) →
  told (printed g') (c_num c) = expected c ph' →
  (ph' = E5 → head (line' (c_dir c)) = Some t) →
  (ph' = E5 ∨ ph' = E6 → carnumber g' ≤ 2) →
  (∀ s, s ∈ [NE I; NW I; SE I; SW I; staus I] →
     ∃ n, sems' !! s = Some n ∧ excl n (holds (<[t := ph']> phs) s)) →
  carnumber g' = Z.of_nat (base.size (inside_set (<[t := ph']> phs))) →
  carnumber g' ≤ 3 →
  (∀ d, 0 ≤ d < 4 → line_ok (<[t := ph']> phs) g' d (line' d)) →
  (∀ d, 0 ≤ d < 4 → order_ok (<[t := ph']> phs) (printed g') d (line' d)) →
  stop_inv (moved a sems' g' t l' (kont I c t ph')) (<[t := ph']> phs) line'.
Proof.
  intros Hinv Hc Hl Hw Hother Hmsg H5 H56 Hs Hcnt H3 Hlines Hord. destruct Hinv as [Hcars Hdom _ _ _ _ _].
  split; try done.
  - intros u c' Hu. unfold moved, car_ok. cbn [a_thr a_g].
    destruct (decide (u = t)) as [->|Hne].
    + assert (c' = c) as -> by congruence. rewrite lookup_insert_eq, fn_lookup_insert.
      exists l'. by split_and!.
    + rewrite lookup_insert_ne, fn_lookup_insert_ne by done.
      destruct (Hcars u c' Hu) as (lu & Hx & Hlu & Hwu & Hm & Hh & Hn).
      destruct (Hother u c' Hu Hne) as (Hm' & Hh' & Hn').
      exists lu. split_and!; try done; [by rewrite Hm'|by auto|by auto].
  - cbn. rewrite dom_insert_lookup_L; [done|]. apply elem_of_dom. rewrite Hdom.
    by eapply elem_of_dom_2.
Qed.

(** The lines after a move that does not concern them. *)
Lemma lines_same a phs line t ph' g' :
  stop_inv a phs line → waitlist g' = waitlist (a_g a) → queued ph' = queued (phs t) →
  ∀ d, 0 ≤ d < 4 → line_ok (<[t := ph']> phs) g' d (line d).
Proof.
  intros Hinv Hwl Hqd d Hd. destruct (si_lines _ _ _ Hinv d Hd) as (Hnd & Hin & Hq).
  split_and!; [done| |by rewrite Hwl]. intros u. rewrite Hin. apply exist_proper. intros c'.
  destruct (decide (u = t)) as [->|Hne]; [by rewrite fn_lookup_insert, Hqd|].
  by rewrite fn_lookup_insert_ne.
Qed.

Lemma at_phase_move phs P d t c ph' u :
  cars !! t = Some c →
  at_phase (<[t := ph']> phs) P d u ↔
  if decide (u = t) then c_dir c = d ∧ P ph' = true else at_phase phs P d u.
Proof.
  intros Hc. unfold at_phase. destruct (decide (u = t)) as [->|Hne].
  - rewrite fn_lookup_insert. naive_solver.
  - by rewrite fn_lookup_insert_ne.
Qed.

Lemma at_phase_same phs P d t ph' u :
  P ph' = P (phs t) → at_phase (<[t := ph']> phs) P d u ↔ at_phase phs P d u.
Proof.
  intros HP. unfold at_phase. destruct (decide (u = t)) as [->|Hne].
  - by rewrite fn_lookup_insert, HP.
  - by rewrite fn_lookup_insert_ne.
Qed.

Lemma order_same a phs line t ph' log :
  stop_inv a phs line → adding ph' = adding (phs t) → at_gate ph' = at_gate (phs t) →
  (∀ nr d, nr = APPROACHING ∨ nr = REGION1 → nums nr d log = nums nr d (printed (a_g a))) →
  ∀ d, 0 ≤ d < 4 → order_ok (<[t := ph']> phs) log d (line d).
Proof.
  intros Hinv Ha Hg Hn d Hd. destruct (si_order _ _ _ Hinv d Hd) as (pend & gate & Hp & Hga & Heq).
  exists pend, gate. rewrite !Hn by tauto. split_and!; [..|done]; intros u;
    rewrite at_phase_same by done; [apply Hp|apply Hga].
Qed.

(** Moves that neither enter nor leave a line or the intersection. *)
Lemma quiet_move a phs line t c l' ph' sems' g' :
  stop_inv a phs line → cars !! t = Some c → local_ok c ph' l' → on_way c ph' →
  counted ph' = counted (phs t) → queued ph' = queued (phs t) →
  carnumber g' = carnumber (a_g a) → waitlist g' = waitlist (a_g a) →
  (∀ n, n ≠ c_num c → told (printed g') n = told (printed (a_g a)) n) →
  told (printed g') (c_num c) = expected c ph' →
  (ph' = E5 → head (line (c_dir c)) = Some t) →
  (ph' = E5 ∨ ph' = E6 → carnumber (a_g a) ≤ 2) →
  (∀ s, s ∈ [NE I; NW I; SE I; SW I; staus I] →
     ∃ n, sems' !! s = Some n ∧ excl n (holds (<[t := ph']> phs) s)) →
  (∀ d, 0 ≤ d < 4 → order_ok (<[t := ph']> phs) (printed g') d (line d)) →
  stop_inv (moved a sems' g' t l' (kont I c t ph')) (<[t := ph']> phs) line.
Proof.
  intros Hinv Hc Hl Hw Hcd Hqd Hcn Hwl Hlm Hmsg H5 H56 Hs Hord.
  pose proof Hinv as [_ _ _ Hcnt H3 Hlines _].
  eapply move_inv; try done.
  - intros u c' Hu Hne. split_and!; [|done|by rewrite Hcn].
    apply Hlm. intros Heq. by apply Hne, (Hnum u t c' c).
  - by rewrite Hcn.
  - by rewrite Hcn, Hcnt, inside_same.
  - by rewrite Hcn.
  - by eapply lines_same.
Qed.

(** The semaphores after a move that takes, gives back, or leaves them. *)
Lemma sems_same a phs line t c ph' :
  stop_inv a phs line → cars !! t = Some c →
  (∀ x, x ∈ held I c ph' ↔ x ∈ held I c (phs t)) →
  ∀ s, s ∈ [NE I; NW I; SE I; SW I; staus I] →
    ∃ n, a_sems a !! s = Some n ∧ excl n (holds (<[t := ph']> phs) s).
Proof.
  intros Hinv Hc Hh s Hs. destruct (si_sems _ _ _ Hinv s Hs) as (n & Hn & Hx).
  exists n. split; [done|]. eapply excl_ext; [|exact Hx]. intros u.
  rewrite (holds_move _ _ c) by done. destruct (decide (u = t)) as [->|]; [|done].
  rewrite Hh. unfold holds. split; [eauto|]. intros (c' & ? & ?). by simplify_eq.
Qed.

Lemma holds_cur phs t c s : cars !! t = Some c → holds phs s t ↔ s ∈ held I c (phs t).
Proof. intros Hc. unfold holds. split; [|eauto]. intros (c' & ? & ?). by simplify_eq. Qed.

Lemma sems_take a phs line t c ph' s0 n0 :
  stop_inv a phs line → cars !! t = Some c → a_sems a !! s0 = Some n0 → 0 < n0 →
  (∀ x, x ∈ held I c ph' ↔ x = s0 ∨ x ∈ held I c (phs t)) →
  ∀ s, s ∈ [NE I; NW I; SE I; SW I; staus I] →
    ∃ n, <[s0 := n0 - 1]> (a_sems a) !! s = Some n ∧ excl n (holds (<[t := ph']> phs) s).
Proof.
  intros Hinv Hc H0 Hpos Hh s Hs. destruct (si_sems _ _ _ Hinv s Hs) as (n & Hn & Hx).
  destruct (decide (s = s0)) as [->|Hne].
  - rewrite lookup_insert_eq. eexists. split; [done|]. simplify_eq.
    eapply excl_take; [exact Hx|done|]. intros u. rewrite (holds_move _ _ c) by done.
    destruct (decide (u = t)) as [->|]; [|naive_solver]. rewrite Hh. tauto.
  - rewrite lookup_insert_ne by done. exists n. split; [done|].
    eapply excl_ext; [|exact Hx]. intros u. rewrite (holds_move _ _ c) by done.
    destruct (decide (u = t)) as [->|]; [|done]. rewrite (holds_cur _ _ c), Hh by done. tauto.
Qed.

Lemma sems_give a phs line t c ph' s0 n0 :
  stop_inv a phs line → cars !! t = Some c → a_sems a !! s0 = Some n0 →
  s0 ∈ [NE I; NW I; SE I; SW I; staus I] → s0 ∈ held I c (phs t) → s0 ∉ held I c ph' →
  (∀ x, x ∈ held I c (phs t) ↔ x = s0 ∨ x ∈ held I c ph') →
  n0 = 0 ∧ ∀ s, s ∈ [NE I; NW I; SE I; SW I; staus I] →
    ∃ n, <[s0 := n0 + 1]> (a_sems a) !! s = Some n ∧ excl n (holds (<[t := ph']> phs) s).
Proof.
  intros Hinv Hc H0 Hin Hs0 Hs1 Hh.
  destruct (si_sems _ _ _ Hinv s0 Hin) as (n & Hn & Hx). simplify_eq.
  destruct (excl_give n0 _ (holds (<[t := ph']> phs) s0) t Hx) as [Hx' ->].
  { by apply (holds_cur _ _ c). }
  { intros u. rewrite (holds_move _ _ c) by done.
    destruct (decide (u = t)) as [->|]; naive_solver. }
  split; [done|]. intros s Hs. destruct (decide (s = s0)) as [->|Hne].
  - rewrite lookup_insert_eq. eauto.
  - rewrite lookup_insert_ne by done. destruct (si_sems _ _ _ Hinv s Hs) as (n & Hn' & Hxs).
    exists n. split; [done|]. eapply excl_ext; [|exact Hxs]. intros u.
    rewrite (holds_move _ _ c) by done. destruct (decide (u = t)) as [->|]; [|done].
    rewrite (holds_cur _ _ c), Hh by done. tauto.
Qed.

(** ** The steps of a car *)

Lemma local_ok_wait c ph l b : local_ok c ph l → local_ok c ph (set_wait b l).
Proof. by destruct l. Qed.

Lemma jump_car c t ph l a (Q : astate local intersection → Prop) :
  on_way c ph → ph ≠ Finished → ph ≠ Start → local_ok c ph l →
  (∀ l', local_ok c (succ c (wait l) ph) l' → on_way c (succ c (wait l) ph) →
     Q (moved a (a_sems a) (a_g a) t l' (kont I c t (succ c (wait l) ph)))) →
  jump t l (tail (kont I c t ph)) a Q.
Proof.
  intros Hw Hf Hs Hl HQ. destruct (kont_next I c t ph l Hw Hf Hs Hl) as (l' & Hn & Hl' & Hw').
  unfold jump. rewrite Hn. by apply HQ.
Qed.

(** The car runs the command of its phase. *)
Lemma awp_car a phs line t c Q :
  stop_inv a phs line → cars !! t = Some c → phs t ≠ Finished →
  (∀ l, local_ok c (phs t) l → on_way c (phs t) →
     awp t (set_athr (<[t := ARun l (op I c t (phs t) :: tail (kont I c t (phs t)))]> (a_thr a)) a) Q) →
  awp t a Q.
Proof.
  intros Hinv Hc Hf HQ. destruct (si_cars _ _ _ Hinv t c Hc) as (l & Hx & Hl & Hw & _).
  specialize (HQ l Hl Hw). destruct (kont_op I c t (phs t) Hw Hf) as (k & Hk).
  rewrite Hk in *. cbn [tail] in HQ. rewrite insert_id in HQ by done. by destruct a.
Qed.

Lemma sem_at_elem c i : sem_at I c i ∈ [NE I; NW I; SE I; SW I; staus I].
Proof. unfold sem_at, quad_sem. repeat case_match; set_solver. Qed.

Lemma staus_elem : staus I ∈ [NE I; NW I; SE I; SW I; staus I].
Proof. set_solver. Qed.

Definition quiet (c : car) (ph ph' : phase) : Prop :=
  counted ph' = counted ph ∧ queued ph' = queued ph ∧ said c ph' = said c ph ∧
  adding ph' = adding ph ∧ at_gate ph' = at_gate ph ∧
  ph' ≠ E5 ∧ ph' ≠ E6 ∧ ph ≠ Finished ∧ ph ≠ Start.

Lemma car_P a phs line t c s :
  stop_inv a phs line → cars !! t = Some c → op I c t (phs t) = CP s →
  s ∈ [NE I; NW I; SE I; SW I; staus I] →
  (∀ b, quiet c (phs t) (succ c b (phs t))) → awp t a stoplight_inv.
Proof.
  intros Hinv Hc Hop Hs Hq. pose proof (Hq true) as (_ & _ & _ & _ & _ & _ & _ & Hf & Hst).
  eapply awp_car; [done..|]. intros l Hl Hw. unfold awp. cbn [set_athr a_thr].
  rewrite lookup_insert_eq, Hop. destruct (si_sems _ _ _ Hinv s Hs) as (n & Hn & _).
  exists n. split; [done|]. intros Hpos. apply jump_car; [done..|]. intros l' Hl' Hw'.
  destruct (Hq (wait l)) as (Hcd & Hqd & Hln & Had & Hga & H5 & H6 & _).
  destruct (si_cars _ _ _ Hinv t c Hc) as (_ & _ & _ & _ & Hm & _).
  unfold moved. cbn [set_athr set_asems a_sems a_locks a_cvs a_g a_thr]. rewrite insert_insert_eq.
  eexists _, line. apply (quiet_move a phs line t c); try done.
  - by rewrite Hm; unfold expected; rewrite Hln.
  - tauto.
  - pose proof (held_step I HI c t (phs t) (wait l) Hw) as Hh. rewrite Hop in Hh.
    eapply sems_take; [done..|]. apply Hh.
  - by apply (order_same a).
Qed.

Lemma car_V a phs line t c s :
  stop_inv a phs line → cars !! t = Some c → op I c t (phs t) = CV s →
  s ∈ [NE I; NW I; SE I; SW I; staus I] →
  (∀ b, quiet c (phs t) (succ c b (phs t))) → awp t a stoplight_inv.
Proof.
  intros Hinv Hc Hop Hs Hq. pose proof (Hq true) as (_ & _ & _ & _ & _ & _ & _ & Hf & Hst).
  eapply awp_car; [done..|]. intros l Hl Hw. unfold awp. cbn [set_athr a_thr].
  rewrite lookup_insert_eq, Hop. destruct (si_sems _ _ _ Hinv s Hs) as (n & Hn & _).
  pose proof (held_step I HI c t (phs t) (wait l) Hw) as Hh. rewrite Hop in Hh.
  destruct Hh as (Hh1 & Hh2 & Hh3).
  destruct (sems_give a phs line t c (succ c (wait l) (phs t)) s n) as [-> Hsems]; [done..|].
  exists 0. split; [done|]. split; [done|]. apply jump_car; [done..|]. intros l' Hl' Hw'.
  destruct (Hq (wait l)) as (Hcd & Hqd & Hln & Had & Hga & H5 & H6 & _).
  destruct (si_cars _ _ _ Hinv t c Hc) as (_ & _ & _ & _ & Hm & _).
  unfold moved. cbn [set_athr set_asems a_sems a_locks a_cvs a_g a_thr]. rewrite insert_insert_eq.
  eexists _, line. apply (quiet_move a phs line t c); try done.
  - by rewrite Hm; unfold expected; rewrite Hln.
  - tauto.
  - by apply (order_same a).
Qed.

(** A statement on shared data that always succeeds. *)
Lemma car_act a phs line t c f :
  stop_inv a phs line → cars !! t = Some c → op I c t (phs t) = CAct f →
  phs t ≠ Finished → phs t ≠ Start →
  (∀ l m, local_ok c (phs t) l → on_way c (phs t) → mem_ok m →
     wp (f l) (λ l1 w, mem_ok (wmem w) ∧ local_ok c (phs t) l1 ∧
       ∀ l', local_ok c (succ c (wait l1) (phs t)) l' → on_way c (succ c (wait l1) (phs t)) →
         stoplight_inv (moved a (a_sems a) (wst w) t l' (kont I c t (succ c (wait l1) (phs t)))))
       (World (a_g a) m)) →
  awp t a stoplight_inv.
Proof.
  intros Hinv Hc Hop Hf Hs Hwp. eapply awp_car; [done..|]. intros l Hl Hw. unfold awp.
  cbn [set_athr a_thr]. rewrite lookup_insert_eq, Hop. intros m Hm. cbn [a_g].
  eapply wp_mono; [by apply (Hwp l m)|]. intros l1 [g' m'] (Hm' & Hl1 & Hinv'). split; [done|].
  apply jump_car; [done..|]. intros l' Hl' Hw'. specialize (Hinv' l' Hl' Hw').
  unfold moved in *. cbn [set_athr set_ag a_sems a_locks a_cvs a_g a_thr wst] in *.
  by rewrite insert_insert_eq.
Qed.

Lemma on_waitlist_spec {A} d (k : K (queue Z) A) (Q : A → world intersection → Prop) g m q :
  lget (waitlist g) d = Some q →
  wp k (λ x w, Q x (World (set_waitlist (<[Z.to_nat d := wst w]> (waitlist g)) g) (wmem w)))
     (World q m) →
  wp (on_waitlist d k) Q (World g m).
Proof.
  intros Hq Hk. unfold on_waitlist. rewrite wp_bind, wp_kget, wp_bind. cbn [wst].
  rewrite (wp_kof _ q) by done. by rewrite wp_zoom.
Qed.

(** Reading the queue leaves the structure as it is. *)
Lemma waitlist_same d q g :
  lget (waitlist g) d = Some q → set_waitlist (<[Z.to_nat d := q]> (waitlist g)) g = g.
Proof.
  intros Hq. pose proof (lget_Some_range _ _ _ Hq). rewrite lget_lookup in Hq by lia.
  rewrite list_insert_id by done. by destruct g.
Qed.

(** A car enters or leaves its waiting line. *)
Lemma lines_change a phs line t c ph' g' new q' :
  stop_inv a phs line → cars !! t = Some c →
  waitlist g' = <[Z.to_nat (c_dir c) := q']> (waitlist (a_g a)) →
  queue_rep q' new → size q' ≤ QUEUE_LIMIT → NoDup new →
  (∀ u, u ∈ new ↔ if decide (u = t) then queued ph' = true else u ∈ line (c_dir c)) →
  ∀ d, 0 ≤ d < 4 → line_ok (<[t := ph']> phs) g' d ((<[c_dir c := new]> line) d).
Proof.
  intros Hinv Hc Hwl Hrep Hsz Hnd Hin d Hd.
  assert (0 ≤ c_dir c < 4) as Hcd by (destruct (dir_cases c); lia).
  destruct (si_lines _ _ _ Hinv (c_dir c) Hcd) as (_ & Hin0 & q & Hq & _).
  destruct (decide (d = c_dir c)) as [->|Hne].
  - rewrite fn_lookup_insert. split_and!; [done| |].
    + intros u. rewrite Hin. destruct (decide (u = t)) as [->|Hut].
      * rewrite fn_lookup_insert. naive_solver.
      * rewrite fn_lookup_insert_ne by done. apply Hin0.
    + exists q'. rewrite Hwl. split; [|done]. by apply lget_insert_eq; eapply lget_Some_range.
  - rewrite fn_lookup_insert_ne by done.
    destruct (si_lines _ _ _ Hinv d Hd) as (Hnd1 & Hin1 & q1 & Hq1 & Hr1).
    split_and!; [done| |].
    + intros u. rewrite Hin1. destruct (decide (u = t)) as [->|Hut].
      * rewrite fn_lookup_insert. naive_solver.
      * by rewrite fn_lookup_insert_ne.
    + exists q1. rewrite Hwl, lget_insert_ne by lia. done.
Qed.

(** Only one car holds [staus]. *)
Lemma staus_unique a phs line t c u c' :
  stop_inv a phs line → cars !! t = Some c → cars !! u = Some c' →
  staus I ∈ held I c (phs t) → staus I ∈ held I c' (phs u) → t = u.
Proof.
  intros Hinv Hc Hc' Ht Hu. destruct (si_sems _ _ _ Hinv _ staus_elem) as (n & _ & Hx).
  eapply excl_unique; [exact Hx|by exists c|by exists c'].
Qed.

Lemma others_outside a phs line t c u c' :
  stop_inv a phs line → cars !! t = Some c → cars !! u = Some c' → u ≠ t →
  staus I ∈ held I c (phs t) → phs u = E5 ∨ phs u = E6 → False.
Proof.
  intros Hinv Hc Hc' Hne Ht Hu. apply Hne. symmetry. eapply staus_unique; [done..|].
  destruct Hu as [-> | ->]; cbn; set_solver.
Qed.

Lemma line_length a phs line d :
  stop_inv a phs line → 0 ≤ d < 4 → Z.of_nat (length (line d)) ≤ MAXTHREADS.
Proof.
  intros Hinv Hd. destruct (si_lines _ _ _ Hinv d Hd) as (Hnd & Hin & _).
  etrans; [|exact Hfew]. apply Nat2Z.inj_le.
  rewrite <- (size_list_to_set (C := gset Z)) by done. rewrite <- size_dom.
  apply subseteq_size. intros u (c & Hu & _)%elem_of_list_to_set%Hin. by eapply elem_of_dom_2.
Qed.

Lemma dir_range c : 0 ≤ c_dir c < 4.
Proof. destruct (dir_cases c); lia. Qed.

(** Two cars from one direction cannot be in their first quadrant together. *)
Lemma entry_unique a phs line t c u c' :
  stop_inv a phs line → cars !! t = Some c → cars !! u = Some c' → c_dir c' = c_dir c →
  sem_at I c 0 ∈ held I c (phs t) → sem_at I c' 0 ∈ held I c' (phs u) → t = u.
Proof.
  intros Hinv Hc Hc' Hdir Ht Hu.
  destruct (si_sems _ _ _ Hinv _ (sem_at_elem c 0)) as (n & _ & Hx).
  eapply excl_unique; [exact Hx|by exists c|exists c'; split; [done|]].
  unfold sem_at, quad in Hu |- *. by rewrite Hdir in Hu.
Qed.

(** ** The order of the cars of a direction *)

Lemma order_add a phs line t c :
  stop_inv a phs line → cars !! t = Some c → phs t = A1 →
  ∀ d, 0 ≤ d < 4 → order_ok (<[t := A2]> phs) (printed (a_g a)) d
    ((<[c_dir c := line (c_dir c) ++ [t]]> line) d).
Proof.
  intros Hinv Hc Hph d Hd. destruct (si_order _ _ _ Hinv d Hd) as (pend & gate & Hp & Hg & Heq).
  destruct (decide (d = c_dir c)) as [->|Hne].
  - rewrite fn_lookup_insert. destruct pend as [v|].
    { destruct (proj1 (Hp v) eq_refl) as (cv & Hv & _ & Ha). apply bool_decide_eq_true in Ha.
      assert (t = v) as ->; [|congruence].
      eapply (staus_unique a phs line t c v cv); [done..|by rewrite Hph; left|by rewrite Ha; left]. }
    exists (Some t), gate. split_and!.
    + intros u. rewrite (at_phase_move _ _ _ _ c) by done. case_decide; rewrite <- ?Hp; naive_solver.
    + intros u. rewrite Hg, at_phase_same; [done|by rewrite Hph].
    + cbn in Heq |- *. rewrite app_nil_r in Heq. rewrite Heq, fmap_app, <- !app_assoc. done.
  - rewrite fn_lookup_insert_ne by done. exists pend, gate. split_and!; [..|done]; intros u;
      rewrite (at_phase_move _ _ _ _ c) by done; case_decide; rewrite ?Hp, ?Hg; try done;
      unfold at_phase; naive_solver.
Qed.

Lemma order_remove a phs line t c rest :
  stop_inv a phs line → cars !! t = Some c → phs t = E5 → line (c_dir c) = t :: rest →
  ∀ d, 0 ≤ d < 4 → order_ok (<[t := E6]> phs) (printed (a_g a)) d ((<[c_dir c := rest]> line) d).
Proof.
  intros Hinv Hc Hph Hline d Hd.
  destruct (si_order _ _ _ Hinv d Hd) as (pend & gate & Hp & Hg & Heq).
  destruct (decide (d = c_dir c)) as [->|Hne].
  - rewrite fn_lookup_insert. destruct gate as [v|].
    { destruct (proj1 (Hg v) eq_refl) as (cv & Hv & Hdir & Ha). apply bool_decide_eq_true in Ha.
      assert (t = v) as ->; [|rewrite Hph in Ha; by destruct Ha as [|[|]]].
      eapply (entry_unique a phs line t c v cv); [done..|rewrite Hph; cbn; set_solver|].
      destruct Ha as [-> | [-> | ->]]; cbn; set_solver. }
    exists pend, (Some t). split_and!.
    + intros u. rewrite Hp, at_phase_same; [done|by rewrite Hph].
    + intros u. rewrite (at_phase_move _ _ _ _ c) by done. case_decide; rewrite <- ?Hg; naive_solver.
    + by rewrite Heq, Hline.
  - rewrite fn_lookup_insert_ne by done. exists pend, gate. split_and!; [..|done]; intros u;
      rewrite (at_phase_move _ _ _ _ c) by done; case_decide; rewrite ?Hp, ?Hg; try done;
      unfold at_phase; naive_solver.
Qed.

(** The message of a car that approaches or enters its first region. *)
Lemma order_message a phs line t c nr ph' m :
  stop_inv a phs line → cars !! t = Some c → m_nr m = nr → m_from m = c_dir c →
  m_car m = c_num c → adding ph' = false → at_gate ph' = false →
  (nr = APPROACHING ∧ phs t = A2 ∨ nr = REGION1 ∧ phs t = E8) →
  ∀ d, 0 ≤ d < 4 → order_ok (<[t := ph']> phs) (m :: printed (a_g a)) d (line d).
Proof.
  intros Hinv Hc Hnr Hfr Hcar Ha' Hg' Hcase d Hd.
  destruct (si_order _ _ _ Hinv d Hd) as (pend & gate & Hp & Hg & Heq).
  assert (number t = c_num c) as Hn by (unfold number; by rewrite Hc).
  unfold order_ok. setoid_rewrite (at_phase_move _ _ _ _ c _ _ Hc). rewrite !nums_cons, Hnr, Hfr.
  destruct (decide (d = c_dir c)) as [->|Hne].
  - destruct Hcase as [[-> Hph]|[-> Hph]].
    + assert (pend = Some t) as -> by (apply Hp; exists c; by rewrite Hph).
      exists None, gate. split_and!.
      * intros u. case_decide; rewrite <- ?Hp; [|naive_solver]. by rewrite Ha'; naive_solver.
      * intros u. rewrite Hg. case_decide; [|done]. subst u. unfold at_phase. rewrite Hg', Hph. naive_solver.
      * rewrite decide_True, decide_False by naive_solver. rewrite !app_nil_r, <- Heq, Hcar.
        cbn. by rewrite Hn.
    + assert (gate = Some t) as -> by (apply Hg; exists c; by rewrite Hph).
      exists pend, None. split_and!.
      * intros u. rewrite Hp. case_decide; [|done]. subst u. unfold at_phase. rewrite Ha', Hph. naive_solver.
      * intros u. case_decide; rewrite <- ?Hg; [|naive_solver]. by rewrite Hg'; naive_solver.
      * rewrite decide_False, decide_True by naive_solver. rewrite app_nil_r, Heq, <- app_assoc, Hcar.
        cbn. by rewrite Hn.
  - exists pend, gate. rewrite !decide_False by naive_solver. rewrite !app_nil_r.
    split_and!; [..|done]; intros u; case_decide; rewrite ?Hp, ?Hg; try done;
      unfold at_phase; naive_solver.
Qed.

(** Any other message. *)
Lemma order_later a phs line t ph' m :
  stop_inv a phs line → m_nr m ≠ APPROACHING → m_nr m ≠ REGION1 →
  adding ph' = adding (phs t) → at_gate ph' = at_gate (phs t) →
  ∀ d, 0 ≤ d < 4 → order_ok (<[t := ph']> phs) (m :: printed (a_g a)) d (line d).
Proof.
  intros Hinv H1 H2 Ha Hg. apply (order_same a); [done..|]. intros nr d Hnr.
  rewrite nums_cons, decide_False, app_nil_r by naive_solver. done.
Qed.

(** ** Statements on the shared data *)

Lemma told_cons m log n :
  told (m :: log) n = if decide (m_car m = n) then m :: told log n else told log n.
Proof. unfold told. by rewrite filter_cons. Qed.

Lemma held_act c t ph b f :
  on_way c ph → op I c t ph = CAct f → ∀ x, x ∈ held I c (succ c b ph) ↔ x ∈ held I c ph.
Proof. intros Hw Hop. pose proof (held_step I HI c t ph b Hw) as Hh. by rewrite Hop in Hh. Qed.

Lemma car_message a phs line t c nr :
  stop_inv a phs line → cars !! t = Some c →
  op I c t (phs t) = message nr (c_num c) (c_dir c) (c_dest c) →
  (∀ b, counted (succ c b (phs t)) = counted (phs t) ∧ queued (succ c b (phs t)) = queued (phs t) ∧
    said c (succ c b (phs t)) = nr :: said c (phs t) ∧ succ c b (phs t) ≠ E5 ∧ succ c b (phs t) ≠ E6) →
  (∀ b d, 0 ≤ d < 4 → order_ok (<[t := succ c b (phs t)]> phs)
    (Msg nr (c_num c) (c_dir c) (c_dest c) :: printed (a_g a)) d (line d)) →
  phs t ≠ Finished → phs t ≠ Start → awp t a stoplight_inv.
Proof.
  intros Hinv Hc Hop Hq Hord Hf Hs. eapply (car_act _ _ _ _ _ _ Hinv Hc Hop Hf Hs).
  intros l m Hl Hw Hm.
  kstep. split; [done|]. split; [done|]. intros l' Hl' Hw'.
  destruct (Hq (wait l)) as (Hcd & Hqd & Hln & H5 & H6).
  destruct (si_cars _ _ _ Hinv t c Hc) as (_ & _ & _ & _ & Hmsg & _).
  eexists _, line. apply (quiet_move a phs line t c); try done; cbn [set_printed printed].
  - intros n Hn. by rewrite told_cons, decide_False.
  - rewrite told_cons, decide_True by done. unfold expected. rewrite Hln. cbn. by f_equal.
  - tauto.
  - eapply sems_same; [done..|]. by eapply held_act.
  - by apply Hord.
Qed.

Lemma car_add a phs line t c :
  stop_inv a phs line → cars !! t = Some c → phs t = A1 → awp t a stoplight_inv.
Proof.
  intros Hinv Hc Hph. pose proof (dir_range c) as Hd.
  destruct (si_lines _ _ _ Hinv _ Hd) as (Hnd & Hin & q & Hq & Hrep & Hsz).
  pose proof (line_length _ _ _ _ Hinv Hd) as Hlen. unfold MAXTHREADS in Hlen.
  assert (op I c t (phs t) = add_to_waitlist (c_dir c) t) as Hop by (by rewrite Hph).
  refine (car_act _ _ _ _ _ _ Hinv Hc Hop _ _ _); [by rewrite Hph..|].
  intros l m Hl Hw Hm. rewrite wp_bind. eapply on_waitlist_spec; [done|].
  eapply q_addtail_spec; [done..| |]; [intros ? _ Hfl; by destruct Hm|].
  intros q' m' Hrep' _ Hsz' Hm'. kstep. split; [by eapply mem_ok_suffix|]. split; [done|].
  intros l' Hl' Hw'. rewrite Hph in *. cbn [succ] in *.
  destruct (si_cars _ _ _ Hinv t c Hc) as (_ & _ & _ & _ & Hmsg & _).
  assert (t ∉ line (c_dir c)) as Hnot.
  { intros (? & ? & _ & Hqd)%Hin. by rewrite Hph in Hqd. }
  eexists _, (<[c_dir c := line (c_dir c) ++ [t]]> line).
  apply (move_inv a phs line t c); try done; cbn [set_waitlist printed carnumber].
  - intros u c' Hu Hne. split_and!; [done| |done]. intros Hu5 Hhd. exfalso.
    eapply (others_outside a phs line t c u c'); try done; [|by left]. rewrite Hph. cbn. set_solver.
  - by rewrite Hmsg, Hph.
  - naive_solver.
  - eapply sems_same; [done..|]. by rewrite Hph.
  - rewrite inside_same; [apply Hinv|by rewrite Hph].
  - apply Hinv.
  - eapply lines_change; try done.
    + cbn [wst] in Hsz'. unfold QUEUE_LIMIT in *. lia.
    + apply NoDup_app. split_and!; [done| |apply NoDup_singleton]. set_solver.
    + intros u. rewrite elem_of_app, list_elem_of_singleton. case_decide; naive_solver.
  - by eapply order_add.
Qed.

(** The answer of [is_in_order] for a car in the line. *)
Lemma is_in_order_spec d self (Q : bool → world intersection → Prop) g m q l :
  lget (waitlist g) d = Some q → queue_rep q l → self ∈ l →
  Q (bool_decide (head l = Some self)) (World g m) → wp (is_in_order d self) Q (World g m).
Proof.
  intros Hq Hrep Hin HQ. destruct l as [|x l]; [by apply not_elem_of_nil in Hin|].
  unfold is_in_order. rewrite wp_bind. eapply on_waitlist_spec; [done|].
  eapply q_empty_spec; [done..|]. cbn [wst wmem]. rewrite waitlist_same by done.
  rewrite bool_decide_false, wp_bind by done. eapply on_waitlist_spec; [done|].
  unfold q_getstart. kstep. rewrite waitlist_same by done.
  pose proof Hrep as (Hs & Hd & Hr & _ & _ & Hdata).
  unfold q_getguy. eapply on_waitlist_spec; [done|].
  kstep. rewrite wp_kassert by (apply andb_true_intro; split; lia). kstep.
  pose proof (Hdata 0%nat x eq_refl) as Hx. rewrite Z.add_0_r, Z.mod_small in Hx by lia.
  rewrite (wp_kof _ x) by (unfold slot_read; by rewrite Hx).
  cbn [wst wmem]. rewrite waitlist_same by done. kstep.
  cbn [head] in HQ. destruct (Z.eqb_spec x self) as [->|Hne].
  - by rewrite bool_decide_true in HQ.
  - rewrite bool_decide_false in HQ by congruence. done.
Qed.

Lemma must_wait_spec d self (Q : bool → world intersection → Prop) g m q l :
  lget (waitlist g) d = Some q → queue_rep q l → self ∈ l →
  (∀ b, (b = false → head l = Some self ∧ carnumber g ≤ 2) → Q b (World g m)) →
  wp (must_wait d self) Q (World g m).
Proof.
  intros Hq Hrep Hin HQ. unfold must_wait. rewrite wp_bind, wp_kget. cbn [wst].
  destruct (Z.ltb_spec 2 (carnumber g)); [by apply HQ|]. rewrite wp_bind.
  eapply is_in_order_spec; [done..|]. kstep. apply HQ. intros Hb.
  apply negb_false_iff, bool_decide_eq_true in Hb. split; [done|lia].
Qed.

Lemma car_test a phs line t c :
  stop_inv a phs line → cars !! t = Some c → phs t = E2 → awp t a stoplight_inv.
Proof.
  intros Hinv Hc Hph. pose proof (dir_range c) as Hd.
  destruct (si_lines _ _ _ Hinv _ Hd) as (Hnd & Hin & q & Hq & Hrep & Hsz).
  assert (op I c t (phs t) = test_entrance (c_dir c) t) as Hop by (by rewrite Hph).
  refine (car_act _ _ _ _ _ _ Hinv Hc Hop _ _ _); [by rewrite Hph..|].
  intros l m Hl Hw Hm. rewrite wp_bind. eapply must_wait_spec; [done..| |].
  { apply Hin. exists c. by rewrite Hph. }
  intros b Hb. kstep. split; [done|]. split; [by apply local_ok_wait|].
  intros l' Hl' Hw'. destruct (si_cars _ _ _ Hinv t c Hc) as (_ & _ & _ & _ & Hmsg & _).
  rewrite Hph in Hl', Hw', Hmsg |- *. cbn [succ wait set_wait] in *.
  eexists _, line. apply (quiet_move a phs line t c); try done; rewrite ?Hph.
  - by destruct b.
  - by destruct b.
  - rewrite Hmsg. by destruct b.
  - by destruct b; [|intros _; apply Hb].
  - by destruct b; [intros []|intros _; apply Hb].
  - eapply sems_same; [done..|]. rewrite Hph. by destruct b.
  - apply (order_same a); rewrite ?Hph; by destruct b.
Qed.

Lemma car_remove a phs line t c :
  stop_inv a phs line → cars !! t = Some c → phs t = E5 → awp t a stoplight_inv.
Proof.
  intros Hinv Hc Hph. pose proof (dir_range c) as Hd.
  destruct (si_lines _ _ _ Hinv _ Hd) as (Hnd & Hin & q & Hq & Hrep & Hsz).
  destruct (si_cars _ _ _ Hinv t c Hc) as (_ & _ & _ & _ & Hmsg & Hhd & H2).
  specialize (Hhd Hph). specialize (H2 (or_introl Hph)).
  destruct (line (c_dir c)) as [|x rest] eqn:Hline; [done|]. cbn in Hhd. injection Hhd as ->.
  apply NoDup_cons in Hnd as [Hnot Hnd].
  assert (op I c t (phs t) = remove_from_waitlist (c_dir c)) as Hop by (by rewrite Hph).
  refine (car_act _ _ _ _ _ _ Hinv Hc Hop _ _ _); [by rewrite Hph..|].
  intros l m Hl Hw Hm. rewrite wp_bind. eapply on_waitlist_spec; [done|].
  eapply q_remhead_spec; [done..|cbn; unfold QUEUE_LIMIT in Hsz; lia|].
  intros q' Hrep' Hsz'. kstep. cbn in Hsz'. split; [done|]. split; [done|]. intros l' Hl' Hw'.
  rewrite Hph in Hl', Hw', Hmsg |- *. cbn [succ] in *.
  eexists _, (<[c_dir c := rest]> line).
  apply (move_inv a phs line t c); try done; cbn [set_waitlist printed carnumber].
  - intros u c' Hu Hne. split_and!; [done| |done]. intros Hu5 _. exfalso.
    eapply (others_outside a phs line t c u c'); try done; [|by left]. rewrite Hph. cbn. set_solver.
  - eapply sems_same; [done..|]. by rewrite Hph.
  - rewrite inside_same; [apply Hinv|by rewrite Hph].
  - apply Hinv.
  - eapply (lines_change a phs line t c); [done..|lia|done|].
    intros u. rewrite Hline. case_decide; rewrite ?elem_of_cons; naive_solver.
  - by eapply order_remove.
Qed.

Lemma car_enter a phs line t c :
  stop_inv a phs line → cars !! t = Some c → phs t = E6 → awp t a stoplight_inv.
Proof.
  intros Hinv Hc Hph. destruct (si_cars _ _ _ Hinv t c Hc) as (_ & _ & _ & _ & Hmsg & _ & H2).
  specialize (H2 (or_intror Hph)). pose proof (si_count _ _ _ Hinv) as Hcnt.
  assert (op I c t (phs t) = incr_carnumber) as Hop by (by rewrite Hph).
  refine (car_act _ _ _ _ _ _ Hinv Hc Hop _ _ _); [by rewrite Hph..|].
  intros l m Hl Hw Hm. kstep. rewrite i32_id by lia. split; [done|]. split; [done|].
  intros l' Hl' Hw'. rewrite Hph in Hl', Hw', Hmsg |- *. cbn [succ] in *. eexists _, line.
  apply (move_inv a phs line t c); try done; cbn [set_carnumber printed carnumber].
  - intros u c' Hu Hne. split_and!; [done|done|]. intros H56 _. exfalso.
    eapply (others_outside a phs line t c u c'); try done. rewrite Hph. cbn. set_solver.
  - naive_solver.
  - eapply sems_same; [done..|]. by rewrite Hph.
  - rewrite (inside_enter _ _ c); [lia|done|by rewrite Hph|done].
  - lia.
  - eapply lines_same; [done..|]. by rewrite Hph.
  - apply (order_same a); by rewrite ?Hph.
Qed.

Lemma car_leave a phs line t c :
  stop_inv a phs line → cars !! t = Some c → phs t = Z4 → awp t a stoplight_inv.
Proof.
  intros Hinv Hc Hph. destruct (si_cars _ _ _ Hinv t c Hc) as (_ & _ & _ & _ & Hmsg & _ & H2).
  pose proof (si_count _ _ _ Hinv) as Hcnt. pose proof (si_three _ _ _ Hinv) as H3.
  assert (op I c t (phs t) = decr_carnumber) as Hop by (by rewrite Hph).
  refine (car_act _ _ _ _ _ _ Hinv Hc Hop _ _ _); [by rewrite Hph..|].
  intros l m Hl Hw Hm. kstep. rewrite i32_id by lia. split; [done|]. split; [done|].
  intros l' Hl' Hw'. rewrite Hph in Hl', Hw', Hmsg |- *. cbn [succ] in *. eexists _, line.
  apply (move_inv a phs line t c); try done; cbn [set_carnumber printed carnumber].
  - intros u c' Hu Hne. split_and!; [done|done|lia].
  - naive_solver.
  - eapply sems_same; [done..|]. by rewrite Hph.
  - rewrite (inside_leave _ t c Z5) in Hcnt by (done || by rewrite Hph). lia.
  - lia.
  - eapply lines_same; [done..|]. by rewrite Hph.
  - apply (order_same a); by rewrite ?Hph.
Qed.

Lemma car_count_leaving a phs line t c :
  stop_inv a phs line → cars !! t = Some c → phs t = Z5 → awp t a stoplight_inv.
Proof.
  intros Hinv Hc Hph. destruct (si_cars _ _ _ Hinv t c Hc) as (_ & _ & _ & _ & Hmsg & _ & H2).
  assert (op I c t (phs t) = incr_carleaving) as Hop by (by rewrite Hph).
  refine (car_act _ _ _ _ _ _ Hinv Hc Hop _ _ _); [by rewrite Hph..|].
  intros l m Hl Hw Hm. kstep. split; [done|]. split; [done|].
  intros l' Hl' Hw'. rewrite Hph in Hl', Hw', Hmsg |- *. cbn [succ] in *. eexists _, line.
  apply (quiet_move a phs line t c); try done; rewrite ?Hph; try done; [naive_solver| |].
  - eapply sems_same; [done..|]. by rewrite Hph.
  - apply (order_same a); by rewrite ?Hph.
Qed.

(** The first command of the thread. *)
Lemma car_start a phs line t c :
  stop_inv a phs line → cars !! t = Some c → phs t = Start → awp t a stoplight_inv.
Proof.
  intros Hinv Hc Hph. destruct (si_cars _ _ _ Hinv t c Hc) as (l & Hx & _ & _ & Hmsg & _).
  destruct (kont_start I c t l) as (l' & Hn & Hl'). unfold awp. rewrite Hx, Hph.
  change (jump t l (kont I c t Start) a stoplight_inv). unfold jump. rewrite Hn.
  eexists _, line. apply (quiet_move a phs line t c); try done; rewrite ?Hph; try done.
  - by rewrite Hmsg, Hph.
  - naive_solver.
  - eapply sems_same; [done..|]. by rewrite Hph.
  - apply (order_same a); by rewrite ?Hph.
Qed.

(** ** The invariant is preserved by every step of every car *)

(** Close a condition on phases, by cases of the car's turn. *)
Ltac phase_tac Hph Hw :=
  intros; rewrite ?Hph; unfold quiet; cbn in Hw |- *; unfold regions_said, last_nr;
  match goal with c : car |- _ =>
    let E := fresh in
    destruct (turn_cases c) as [E|[E|E]]; rewrite ?E in Hw; rewrite ?E; cbn in Hw |- *;
    unfold said, regions_said; rewrite ?E; cbn
  end; first [done|by split_and!].

Lemma car_step a phs line t c :
  stop_inv a phs line → cars !! t = Some c → awp t a stoplight_inv.
Proof.
  intros Hinv Hc. destruct (si_cars _ _ _ Hinv t c Hc) as (l & Hx & _ & Hw & _).
  pose proof staus_elem. pose proof (sem_at_elem c).
  destruct (phs t) eqn:Hph;
    try (eapply (car_P _ _ _ _ _ _ Hinv Hc); [by rewrite Hph|done|]; phase_tac Hph Hw);
    try (eapply (car_V _ _ _ _ _ _ Hinv Hc); [by rewrite Hph|done|]; phase_tac Hph Hw).
  - by apply (car_start a phs line t c).
  - by apply (car_add a phs line t c).
  - apply (car_message a phs line t c APPROACHING); rewrite ?Hph; try done; intros; cbn.
    apply (order_message a phs line t c APPROACHING); tauto || done.
  - by apply (car_test a phs line t c).
  - by apply (car_remove a phs line t c).
  - by apply (car_enter a phs line t c).
  - apply (car_message a phs line t c REGION1); rewrite ?Hph; try done; [phase_tac Hph Hw|].
    intros. apply (order_message a phs line t c REGION1); try (tauto || done); phase_tac Hph Hw.
  - apply (car_message a phs line t c REGION2); rewrite ?Hph; try done.
    intros. by apply (order_later a); rewrite ?Hph.
  - apply (car_message a phs line t c (last_nr c)); rewrite ?Hph; try done; [phase_tac Hph Hw|].
    intros. apply (order_later a); rewrite ?Hph; try done; phase_tac Hph Hw.
  - by apply (car_leave a phs line t c).
  - by apply (car_count_leaving a phs line t c).
  - apply (car_message a phs line t c LEAVING); rewrite ?Hph; try done.
    intros. by apply (order_later a); rewrite ?Hph.
  - unfold awp. by rewrite Hx.
Qed.

Theorem stoplight_ainv : ainv stoplight_inv.
Proof.
  intros a t (phs & line & Hinv). destruct (cars !! t) as [c|] eqn:Hc; [by eapply car_step|].
  unfold awp. assert (a_thr a !! t = None) as ->; [|done].
  apply not_elem_of_dom. rewrite (si_dom _ _ _ Hinv). by apply not_elem_of_dom.
Qed.

(** ** What the invariant says *)

(** A car that says it is in a quadrant holds the quadrant's semaphore. *)
Lemma position_held c ph q :
  on_way c ph →
  (m ← head (expected c ph);
   match m_nr m with
   | REGION1 => Some (quad c 0)
   | REGION2 => Some (quad c 1)
   | REGION3 => Some (quad c 2)
   | _ => None
   end) = Some q → quad_sem I q ∈ held I c ph.
Proof.
  intros Hw. unfold expected. destruct (turn_cases c) as [E|[E|E]]; destruct ph; cbn in *;
    unfold regions_said, c_regions; rewrite ?E in Hw; rewrite ?E; cbn; try done;
    intros Hq; simplify_eq/=; first [apply list_elem_of_here|apply list_elem_of_further, list_elem_of_here].
Qed.

Lemma inv_exclusive a t u c c' q :
  stoplight_inv a → cars !! t = Some c → cars !! u = Some c' →
  position c (printed (a_g a)) = Some q → position c' (printed (a_g a)) = Some q → t = u.
Proof.
  intros (phs & line & Hinv) Hc Hc' Hp Hp'.
  destruct (si_cars _ _ _ Hinv t c Hc) as (_ & _ & _ & Hw & Hm & _).
  destruct (si_cars _ _ _ Hinv u c' Hc') as (_ & _ & _ & Hw' & Hm' & _).
  unfold position in Hp, Hp'. rewrite Hm in Hp. rewrite Hm' in Hp'.
  apply position_held in Hp, Hp'; [|done..].
  assert (quad_sem I q ∈ [NE I; NW I; SE I; SW I; staus I]) as Hin
    by (unfold quad_sem; repeat case_match; set_solver).
  destruct (si_sems _ _ _ Hinv _ Hin) as (n & _ & Hx).
  eapply excl_unique; [exact Hx|by exists c|by exists c'].
Qed.

Lemma inv_three a : stoplight_inv a → 0 ≤ carnumber (a_g a) ≤ 3.
Proof.
  intros (phs & line & Hinv). pose proof (si_three _ _ _ Hinv). pose proof (si_count _ _ _ Hinv). lia.
Qed.

(** The messages of a car are a part of those of its way, in their order. *)
Lemma inv_told a t c :
  stoplight_inv a → cars !! t = Some c →
  told (printed (a_g a)) (c_num c) `suffix_of` expected c Finished ∧
  (finished a t → told (printed (a_g a)) (c_num c) = expected c Finished).
Proof.
  intros (phs & line & Hinv) Hc. destruct (si_cars _ _ _ Hinv t c Hc) as (l & Hx & _ & Hw & Hm & _).
  rewrite Hm. split.
  - assert (said c (phs t) `suffix_of` said c Finished) as [k Hk].
    { destruct (phs t); cbn in Hw |- *; unfold regions_said;
        destruct (turn_cases c) as [E|[E|E]]; rewrite ?E in Hw; rewrite ?E; cbn; try done;
        solve_suffix. }
    unfold expected. rewrite Hk, fmap_app. by apply suffix_app_r.
  - intros (l' & Hl'). rewrite Hx in Hl'.
    destruct (decide (phs t = Finished)) as [-> | Hne]; [done|].
    destruct (kont_op I c t (phs t) Hw Hne) as (k & Hk). by rewrite Hk in Hl'.
Qed.

(** Cars of a direction enter in the order in which they approach. *)
Lemma inv_order a d :
  stoplight_inv a → 0 ≤ d < 4 →
  nums REGION1 d (printed (a_g a)) `prefix_of` nums APPROACHING d (printed (a_g a)).
Proof.
  intros (phs & line & Hinv) Hd.
  destruct (si_order _ _ _ Hinv d Hd) as (pend & gate & Hp & _ & Heq).
  destruct pend as [u|]; cbn in Heq; [|rewrite app_nil_r in Heq; rewrite Heq; by apply prefix_app_r].
  assert (u ∈ line d) as Hu.
  { destruct (proj1 (Hp u) eq_refl) as (c & Hc & Hdir & Ha). apply bool_decide_eq_true in Ha.
    apply (si_lines _ _ _ Hinv d Hd). exists c. by rewrite Ha. }
  destruct (line d) as [|x l _] using rev_ind; [by apply not_elem_of_nil in Hu|].
  rewrite fmap_app, !app_assoc in Heq. apply app_inj_tail in Heq as [Heq _].
  rewrite Heq, <- app_assoc. by apply prefix_app_r.
Qed.

(** ** No deadlock *)

Section stuck.
Context (a : astate local intersection) (phs : Z → phase) (line : Z → list Z).
Context (Hinv : stop_inv a phs line).
Context (Hall : ∀ t, t ∈ dom cars → finished a t ∨ blocked a t).

(** Where a car can be stuck, and what it waits for. *)
Lemma stuck_at t c :
  cars !! t = Some c →
  phs t = Finished ∨ ∃ s, op I c t (phs t) = CP s ∧ a_sems a !! s = Some 0.
Proof.
  intros Hc. destruct (si_cars _ _ _ Hinv t c Hc) as (l & Hx & _ & Hw & _).
  destruct (decide (phs t = Finished)) as [|Hne]; [by left|right].
  destruct (kont_op I c t (phs t) Hw Hne) as (k & Hk). rewrite Hk in Hx.
  destruct (Hall t) as [[l' Hf]|Hb]; [by eapply elem_of_dom_2|congruence|].
  unfold blocked in Hb. rewrite Hx in Hb.
  destruct (phs t); cbn in *; try done; eauto.
Qed.

(** Nobody holds [staus]: its holder would not be stuck. *)
Lemma staus_free : a_sems a !! staus I = Some 1.
Proof.
  destruct (si_sems _ _ _ Hinv _ staus_elem) as (n & Hn & [[-> _]|[-> (u & (c & Hc & Hh) & _)]]); [done|].
  exfalso. pose proof (sem_at_staus I HI c).
  destruct (stuck_at u c Hc) as [Hp|(s & Hp & _)]; destruct (phs u); cbn in *; set_solver.
Qed.

(** The holder of a quadrant waits for the next one. *)
Lemma next_quadrant q :
  0 ≤ q < 4 → a_sems a !! quad_sem I q = Some 0 →
  ∃ u, u ∈ inside_set phs ∧ (∃ c, cars !! u = Some c ∧ held I c (phs u) = [quad_sem I q]) ∧
    a_sems a !! quad_sem I ((q + 3) mod 4) = Some 0.
Proof.
  intros Hq H0.
  assert (quad_sem I q ∈ [NE I; NW I; SE I; SW I; staus I]) as Hin
    by (unfold quad_sem; repeat case_match; set_solver).
  destruct (si_sems _ _ _ Hinv _ Hin) as (n & Hn & [[-> _]|[-> (u & (c & Hc & Hh) & _)]]);
    [congruence|]. exists u.
  destruct (si_cars _ _ _ Hinv u c Hc) as (_ & _ & _ & Hw & _).
  pose proof staus_free as Hst. apply elem_of_dom_2 in Hc as Hdom.
  assert (∀ i, quad_sem I q = sem_at I c i → (q + 3) mod 4 = quad c (i + 1)) as Hnext.
  { intros i Hqi. apply (quad_sem_inj I HI) in Hqi as ->; [|done|apply quad_range].
    unfold quad. rewrite Zplus_mod_idemp_l. f_equal. lia. }
  unfold inside_set. rewrite elem_of_filter.
  destruct (stuck_at u c Hc) as [Hp|(s & Hp & Hs)]; destruct (phs u) eqn:Hph; try done;
    cbn in Hp, Hh, Hw; try (by apply not_elem_of_nil in Hh); injection Hp as <-; try congruence;
    apply list_elem_of_singleton in Hh as Hq'; (split; [done|]); (split; [exists c; by rewrite Hq'|]).
  - rewrite (Hnext _ Hq'). done.
  - rewrite (Hnext _ Hq'). rewrite <- Hs. unfold sem_at. do 3 f_equal. lia.
Qed.

(** Four cars would have to be inside. *)
Lemma no_wait_cycle q : 0 ≤ q < 4 → a_sems a !! quad_sem I q ≠ Some 0.
Proof.
  intros Hq H0.
  destruct (next_quadrant q Hq H0) as (u0 & Hi0 & (c0 & Hc0 & Hh0) & H1).
  destruct (next_quadrant _ (Z.mod_pos_bound _ 4 ltac:(lia)) H1) as (u1 & Hi1 & (c1 & Hc1 & Hh1) & H2).
  destruct (next_quadrant _ (Z.mod_pos_bound _ 4 ltac:(lia)) H2) as (u2 & Hi2 & (c2 & Hc2 & Hh2) & H3).
  destruct (next_quadrant _ (Z.mod_pos_bound _ 4 ltac:(lia)) H3) as (u3 & Hi3 & (c3 & Hc3 & Hh3) & _).
  assert (∀ u c u' c' p p', cars !! u = Some c → cars !! u' = Some c' →
    held I c (phs u) = [quad_sem I p] → held I c' (phs u') = [quad_sem I p'] →
    0 ≤ p < 4 → 0 ≤ p' < 4 → p ≠ p' → u ≠ u') as Hdist.
  { intros u c u' c' p p' Hc Hc' Hh Hh' Hp Hp' Hne ->. apply Hne, (quad_sem_inj I HI); [done..|].
    congruence. }
  assert (NoDup [u0; u1; u2; u3]) as Hnd.
  { rewrite !NoDup_cons, !not_elem_of_cons. split_and!; try apply not_elem_of_nil; try by apply NoDup_nil.
    all: eapply Hdist; try eassumption; try (apply Z.mod_pos_bound; lia);
      Z.div_mod_to_equations; lia. }
  pose proof (si_three _ _ _ Hinv) as H4. rewrite (si_count _ _ _ Hinv) in H4.
  assert ((list_to_set [u0; u1; u2; u3] : gset Z) ⊆ inside_set phs) as Hsub%subseteq_size by set_solver.
  rewrite size_list_to_set in Hsub by done. cbn in Hsub. lia.
Qed.

Lemma all_finished t : t ∈ dom cars → finished a t.
Proof.
  intros [c Hc]%elem_of_dom. destruct (si_cars _ _ _ Hinv t c Hc) as (l & Hx & _).
  destruct (stuck_at t c Hc) as [Hp|(s & Hp & Hs)]; [exists l; by rewrite Hp in Hx|exfalso].
  destruct (phs t); cbn in Hp; try done; injection Hp as <-;
    first [rewrite staus_free in Hs; done|eapply no_wait_cycle; [|exact Hs]; apply quad_range].
Qed.

End stuck.

Lemma inv_no_deadlock a :
  stoplight_inv a → (∀ t, t ∈ dom cars → finished a t ∨ blocked a t) →
  ∀ t, t ∈ dom cars → finished a t.
Proof. intros (phs & line & Hinv) Hall t Ht. by apply (all_finished a phs line). Qed.
End inv.
