(* ===== verification/StoplightProps.v ===== *)
(** * The intersection is safe and live

    The cars of Stoplight.v on the thread system, the scheduler and the
    semaphores of the kernel, under any sequence of timer interrupts.  The
    state of the intersection is the one [createcars] builds; the threads have
    been forked with any numbers from [random]. *)

From stdpp Require Import gmap fin_sets functions.
From S2P Require Import Prelude Bits Spl Array Queue Thread ThreadSpec Synch SynchSpec Machine MachineLinks MachineRefine MachineStart Stoplight StoplightInv StoplightProof.

(** ** What [createcars] builds *)

(** A new intersection: its semaphores are free and nobody waits. *)
Record fresh (I : semaphores) (sems : gmap Z semaphore) (g : intersection) : Prop := Fresh {
  fr_sems s : s ∈ [NE I; NW I; SE I; SW I; staus I] → sems !! s = Some (Semaphore 1);
  fr_counts p x : sems !! p = Some x → 0 ≤ count x < 2 ^ 31;
  fr_carnumber : carnumber g = 0;
  fr_printed : printed g = [];
  fr_waitlist d : 0 ≤ d < 4 →
    ∃ q, lget (waitlist g) d = Some q ∧ queue_rep q [] ∧ size q ≤ QUEUE_LIMIT
}.

(** The semaphores of [P] have been created, at addresses in [X]. *)
Definition made (X : gset Z) (P : list Z) (sems : gmap Z semaphore) : Prop :=
  (∀ s, s ∈ P → sems !! s = Some (Semaphore 1)) ∧ dom sems ⊆ X ∧
  (∀ p x, sems !! p = Some x → 0 ≤ count x < 2 ^ 31).

Lemma create_one_spec X P p (Q : unit → world (cfg local intersection) → Prop) c m :
  mem_ok m → p ≠ NULL → p ∈ X → made X P (s_sems (c_sys c)) →
  (∀ c' m', mem_ok m' → made X (p :: P) (s_sems (c_sys c')) → Q tt (World c' m')) →
  wp (create_one p) Q (World c m).
Proof.
  intros Hm Hp HX (HP & Hd & Hc) HQ. unfold create_one. rewrite wp_bind. apply on_sys_spec. unfold sem_create.
  rewrite wp_bind, wp_kassert, wp_bind by done. apply kmalloc_mem_ok; [done|]. intros m1 Hm1.
  cbn [negb]. rewrite wp_bind. apply kmalloc_mem_ok; [done|]. intros m2 Hm2. cbn [negb].
  unfold sem_store. kstep. destruct (Z.eqb_spec p NULL); [done|]. kstep. apply HQ; [done|].
  cbn [set_sys c_sys set_sems s_sems]. split_and!; [|set_solver|]; intros s.
  - intros Hs. destruct (decide (s = p)) as [->|Hne]; [by rewrite lookup_insert_eq|].
    rewrite lookup_insert_ne by done. apply HP. by apply elem_of_cons in Hs as [|].
  - intros x. destruct (decide (s = p)) as [->|Hne].
    + rewrite lookup_insert_eq. intros [= <-]. cbn. lia.
    + rewrite lookup_insert_ne by done. apply Hc.
Qed.

Lemma create_all_spec X P locks (Q : unit → world (cfg local intersection) → Prop) c m :
  mem_ok m → NULL ∉ locks → list_to_set locks ⊆ X → made X P (s_sems (c_sys c)) →
  (∀ c' m', mem_ok m' → made X P (s_sems (c_sys c')) → Q tt (World c' m')) →
  wp (kfold (length locks) 0 (λ i _, p ← kof (lget locks i); create_one p) tt) Q (World c m).
Proof.
  intros Hm Hnull HX HP HQ.
  apply (wp_kfold (λ _ _ w, mem_ok (wmem w) ∧ made X P (s_sems (c_sys (wst w))))); [done| |].
  - intros i [] [c' m'] Hi [Hm' HP']. cbn in Hm', HP'. destruct (lget_is_Some locks i) as [p Hp]; [lia|].
    rewrite wp_bind, (wp_kof _ p) by done. assert (p ∈ locks) as Hin.
    { rewrite lget_lookup in Hp by lia. by eapply list_elem_of_lookup_2. }
    apply (create_one_spec X P); [done|congruence|set_solver|done|].
    intros c2 m2 Hm2 [H1 H2]. split; [done|]. split; [|done]. intros s Hs. apply H1. by right.
  - intros [] [c' m'] [Hm' HP']. by apply HQ.
Qed.

(** The four queues. *)
Lemma create_queues_spec (Q : list (queue Z) → world (cfg local intersection) → Prop) c m :
  mem_ok m →
  (∀ ws m', mem_ok m' → length ws = 4%nat →
     (∀ d q, lget ws d = Some q → queue_rep q [] ∧ size q = NCARS) → Q ws (World c m')) →
  wp (kfold 4 0 (λ i ws, o ← q_create NCARS; q ← kof o; mret (ws ++ [q])) []) Q (World c m).
Proof.
  intros Hm HQ.
  apply (wp_kfold (λ i ws w, wst w = c ∧ mem_ok (wmem w) ∧ Z.of_nat (length ws) = i ∧
    Forall (λ q, queue_rep q [] ∧ size q = NCARS) ws)).
  - split_and!; [done..|constructor].
  - intros i ws [c' m'] Hi (Hc & Hm' & Hlen & Hall). cbn in Hc, Hm'. subst c'. rewrite wp_bind.
    apply q_create_spec; [done|unfold NCARS; lia|]. intros q m2 Hm2 Hq Hsz. kstep.
    split_and!; [done|done|rewrite length_app; cbn; lia|].
    apply Forall_app. split; [done|]. by apply Forall_singleton.
  - intros ws [c' m'] (Hc & Hm' & Hlen & Hall). cbn in Hc, Hm'. subst c'. apply HQ; [done|lia|].
    intros d q Hq. rewrite Forall_lookup in Hall. pose proof (lget_Some_range _ _ _ Hq).
    rewrite lget_lookup in Hq by lia. by eapply Hall.
Qed.

(** The addresses of the semaphores [createcars] creates. *)
Definition created (I : semaphores) (locks : list Z) : list Z :=
  [NE I; NW I; SE I; SW I; staus I] ++ locks.

Lemma createcars_init_spec I locks (Q : unit → world (cfg local intersection) → Prop) c m :
  mem_ok m → NULL ∉ created I locks →
  (∀ p x, s_sems (c_sys c) !! p = Some x → 0 ≤ count x < 2 ^ 31) →
  (∀ c' m', mem_ok m' → fresh I (s_sems (c_sys c')) (c_g c') →
     dom (s_sems (c_sys c')) ⊆ dom (s_sems (c_sys c)) ∪ list_to_set (created I locks) →
     Q tt (World c' m')) →
  wp (createcars_init I locks) Q (World c m).
Proof.
  intros Hm Hnull Hc HQ. unfold created in *.
  set (X := dom (s_sems (c_sys c)) ∪ list_to_set _) in HQ.
  assert (list_to_set (C := gset Z) ([NE I; NW I; SE I; SW I; staus I] ++ locks) ⊆ X) as HX by set_solver.
  assert (made X [] (s_sems (c_sys c))) as Hmade.
  { split_and!; [|set_solver|done]. by intros ? ?%not_elem_of_nil. }
  rewrite not_elem_of_app, !not_elem_of_cons in Hnull. clearbody X.
  destruct Hnull as ((H1 & H2 & H3 & H4 & H5 & _) & Hlocks). unfold createcars_init.
  rewrite wp_bind. apply kmalloc_mem_ok; [done|]. clear dependent m. intros m Hm. cbn [negb].
  do 5 (rewrite wp_bind; eapply (create_one_spec X); [done|done|set_solver|exact Hmade|];
    clear dependent m c; intros c m Hm Hmade).
  do 2 (rewrite wp_bind; apply kmalloc_mem_ok; [done|]; clear dependent m; intros m Hm; cbn [negb]).
  rewrite wp_bind. eapply create_all_spec; [done|done| |done|]; [set_solver|].
  clear dependent m c. intros c m Hm Hmade.
  rewrite wp_bind. apply create_queues_spec; [done|]. intros ws m' Hm' Hlen Hws. kstep.
  destruct Hmade as (Hs & Hd & Hr). apply HQ; [done| |done]. split; cbn [set_g c_sys c_g]; try done.
  - intros s Hin. apply Hs. set_solver.
  - intros d Hd'. destruct (lget_is_Some ws d) as [q Hq]; [lia|]. exists q.
    destruct (Hws d q Hq) as [Hrep Hsz]. split_and!; [done..|]. rewrite Hsz. by compute.
Qed.

(** ** The cars at the start *)

Section cars.
Context (I : semaphores) (t : Z) (r : list Z) (car_of : Z → car) (l0 : Z → local).

(** The thread of car [u], with any values in its variables. *)
Definition driver (u : Z) : local * list cmd :=
  (l0 u, [approachintersection I (c_r1 (car_of u)) (c_r2 (car_of u)) (c_num (car_of u)) u]).

Definition all_cars : gmap Z car := list_to_map ((λ u, (u, car_of u)) <$> t :: r).

Lemma lookup_cars u c : all_cars !! u = Some c ↔ u ∈ t :: r ∧ c = car_of u.
Proof. clear I l0. unfold all_cars. rewrite lookup_tabulate. case_decide; naive_solver. Qed.

Lemma start_inv sems g locks cvs :
  fresh I sems g → stoplight_inv I all_cars (start_astate sems locks cvs g t r driver).
Proof.
  intros [Hs Hc H0 Hp Hw].
  assert (inside_set all_cars (λ _, Start) = ∅) as Hin.
  { unfold inside_set. apply set_eq. intros u. rewrite elem_of_filter. set_solver. }
  exists (λ _, Start), (λ _, []). split; cbn [start_astate a_sems a_g a_thr].
  - intros u c [Hu ->]%lookup_cars. rewrite lookup_tabulate, decide_True by done.
    exists (l0 u). split_and!; [done|by left|done|by rewrite Hp|done|]. naive_solver.
  - unfold all_cars. by rewrite !dom_list_to_map_L, !fst_tabulate.
  - intros s Hin'. exists 1. rewrite lookup_fmap, (Hs s Hin'). split; [done|]. left. split; [done|].
    intros u (c & _ & Hh). by apply not_elem_of_nil in Hh.
  - by rewrite H0, Hin.
  - lia.
  - intros d Hd. split_and!; [constructor| |by apply Hw]. intros u. split.
    + by intros ?%not_elem_of_nil.
    + by intros (c & _ & _ & [=]).
  - intros d Hd. rewrite Hp. exists None, None. split_and!; [..|done]; intros u; split; try done;
      by intros (c & _ & _ & [=]).
Qed.
End cars.

(** ** Executions *)

(** The cars have been forked and the first of them has been switched to. *)
Definition launch (cp0 : cpu) (t : Z) (r : list Z) (body : Z → local * list cmd)
    : K (cfg local intersection) unit :=
  c ← kget; kput (start_cfg cp0 (s_sems (c_sys c)) ∅ ∅ (c_g c) t r body).

(** The structure is built, the cars start, and the processor runs through the
    events [es]. *)
Definition stoplight (synchprobs : bool) (lbolt : Z) (cp0 : cpu) (I : semaphores) (locks : list Z)
    (t : Z) (r : list Z) (car_of : Z → car) (l0 : Z → local) (es : list event)
    : K (cfg local intersection) unit :=
  createcars_init I locks;;
  launch cp0 t r (driver I car_of l0);;
  machine synchprobs lbolt es.

(** The kernel has given out different addresses, interrupts are enabled, and
    the cars have different numbers. *)
Record scenario (lbolt : Z) (cp0 : cpu) (I : semaphores) (locks : list Z) (t : Z) (r : list Z)
    (car_of : Z → car) (c : cfg local intersection) : Prop := Scenario {
  sc_cpu : cpu_ok cp0;
  sc_level : curspl cp0 = 0;
  sc_sems : NoDup [NE I; NW I; SE I; SW I; staus I];
  sc_threads : NoDup (t :: r);
  sc_few : Z.of_nat (length (t :: r)) ≤ MAXTHREADS;
  sc_numbers u v : u ∈ t :: r → v ∈ t :: r → c_num (car_of u) = c_num (car_of v) → u = v;
  sc_counts p x : s_sems (c_sys c) !! p = Some x → 0 ≤ count x < 2 ^ 31;
  sc_null p : p ∈ created I locks ++ t :: r ∨ p ∈ dom (s_sems (c_sys c)) → p ≠ NULL ∧ p ≠ lbolt;
  sc_apart p : p ∈ created I locks ∨ p ∈ dom (s_sems (c_sys c)) → p ∉ t :: r
}.

Section executions.
Context (synchprobs : bool) (lbolt : Z) (cp0 : cpu) (I : semaphores) (locks : list Z).
Context (t : Z) (r : list Z) (car_of : Z → car) (l0 : Z → local) (c : cfg local intersection).
Context (Hsc : scenario lbolt cp0 I locks t r car_of c).

Lemma cars_numbers u v cu cv :
  all_cars t r car_of !! u = Some cu → all_cars t r car_of !! v = Some cv →
  c_num cu = c_num cv → u = v.
Proof. intros [Hu ->]%lookup_cars [Hv ->]%lookup_cars. by apply (sc_numbers _ _ _ _ _ _ _ _ Hsc). Qed.

Lemma cars_few : Z.of_nat (base.size (all_cars t r car_of)) ≤ MAXTHREADS.
Proof.
  destruct Hsc. etrans; [|exact sc_few0]. apply Nat2Z.inj_le. unfold all_cars.
  rewrite <- size_dom, dom_list_to_map_L, fst_tabulate. rewrite size_list_to_set; done.
Qed.

(** Every state that is reached satisfies the invariant, and nothing goes
    wrong on the way. *)
Lemma stoplight_run (Q : unit → world (cfg local intersection) → Prop) es m :
  mem_ok m →
  (∀ D c' a v m', stoplight_inv I (all_cars t r car_of) a →
     refines synchprobs lbolt cp0 D c' a v → Q tt (World c' m')) →
  wp (stoplight synchprobs lbolt cp0 I locks t r car_of l0 es) Q (World c m).
Proof.
  intros Hm HQ. destruct Hsc as [Hcp Hlv Hnd Hth Hfew Hnums Hcnt Hnull Hap].
  unfold stoplight. rewrite wp_bind. apply createcars_init_spec; [done| |done|].
  { intros Hin. destruct (Hnull NULL) as [Hn _]; [left; apply elem_of_app; by left|done]. }
  intros c' m' Hm' Hfr Hdom. rewrite wp_bind. unfold launch. rewrite wp_bind, wp_kget, wp_kput.
  cbn [wst wmem].
  assert (∀ p, p ∈ dom (s_sems (c_sys c')) → p ≠ NULL ∧ p ≠ lbolt ∧ p ∉ t :: r) as Hp.
  { intros p [Hin|Hin%elem_of_list_to_set]%Hdom%elem_of_union.
    - destruct (Hnull p); [by right|]. split_and!; try done. apply Hap. by right.
    - destruct (Hnull p); [left; apply elem_of_app; by left|]. split_and!; try done. apply Hap. by left. }
  eapply wp_mono.
  - apply (start_machine cp0 synchprobs lbolt (s_sems (c_sys c')) ∅ ∅ (c_g c') t r
      (driver I car_of l0) (stoplight_inv I (all_cars t r car_of))); try done.
    + assert (∀ u, u ∈ t :: r → u ≠ NULL ∧ u ≠ lbolt) as Ht.
      { intros u Hu. apply Hnull. left. apply elem_of_app. by right. }
      split; cbn [D_sems D_locks D_cvs D_thr]; rewrite ?dom_empty_L;
        [| |set_solver| |set_solver].
      * rewrite !union_empty_r_L. intros [[Hn _]%Hp|Hn%elem_of_list_to_set]%elem_of_union; [done|].
        by destruct (Ht NULL Hn).
      * rewrite !union_empty_r_L. intros [(_ & Hn & _)%Hp|Hn%elem_of_list_to_set]%elem_of_union; [done|].
        by destruct (Ht lbolt Hn).
      * intros p (_ & _ & Hp1)%Hp Hp2%elem_of_list_to_set. done.
    + apply Hfr.
    + apply (stoplight_ainv I (all_cars t r car_of) Hnd cars_numbers cars_few).
    + by apply (start_inv I t r car_of l0).
  - intros [] [c2 m2] (a & v & Ha & Hrf & _). by eapply HQ.
Qed.

(** When the processor idles, each car has finished or is blocked. *)
Lemma idle_stuck D c' a v :
  stoplight_inv I (all_cars t r car_of) a → refines synchprobs lbolt cp0 D c' a v →
  curthread (s_thr (c_sys c')) = NULL →
  ∀ u, u ∈ dom (all_cars t r car_of) → finished a u ∨ blocked a u.
Proof.
  intros (phs & line & Hinv) Hrf Hidle u [cu Hu]%elem_of_dom.
  destruct (si_cars _ _ _ _ _ Hinv u cu Hu) as (l & Hx & _). pose proof Hx as Hx'.
  rewrite (rf_abs _ _ _ _ _ _ _ (rf_base _ _ _ _ _ _ _ Hrf)), lookup_abs in Hx'.
  destruct (c_ctl c' !! u) as [x|] eqn:Hc; [|done].
  destruct (idle_blocked _ _ _ _ _ _ _ _ _ Hrf Hidle Hc) as [?|[?|(n & l1 & k & ?)]];
    [by left|by right|congruence].
Qed.

(** C2: whatever the timer does, as long as no [kmalloc] fails, the cars are
    safe: no kernel operation on the way panics or goes wrong, no two cars are
    in the same quadrant of the intersection by what they have printed, and
    the counter [carnumber] that holds cars back at the entrance stays between
    0 and 3.  The counter is not the number of cars inside: a car is taken out
    of it before it leaves its last quadrant ([stoplight_four_inside]). *)
Theorem stoplight_exclusive es m :
  mem_ok m →
  wp (stoplight synchprobs lbolt cp0 I locks t r car_of l0 es)
     (λ _ w, 0 ≤ carnumber (c_g (wst w)) ≤ 3 ∧
       ∀ u v q, u ∈ t :: r → v ∈ t :: r →
         position (car_of u) (printed (c_g (wst w))) = Some q →
         position (car_of v) (printed (c_g (wst w))) = Some q → u = v) (World c m).
Proof.
  intros Hm. apply stoplight_run; [done|]. intros D c' a v m' Ha Hrf. cbn [wst].
  rewrite <- (rf_g _ _ _ _ _ _ _ (rf_base _ _ _ _ _ _ _ Hrf)). split; [by eapply inv_three|].
  intros u w q Hu Hw. eapply inv_exclusive; [apply Hsc|exact cars_numbers|exact cars_few|done|by apply lookup_cars..].
Qed.

(** C15: as long as no [kmalloc] fails, the cars that come from one direction
    enter the intersection in the order in which they approach it, and each
    car prints the messages of its way in their order, and nothing else. *)
Theorem stoplight_in_order es m :
  mem_ok m →
  wp (stoplight synchprobs lbolt cp0 I locks t r car_of l0 es)
     (λ _ w, let log := printed (c_g (wst w)) in
       (∀ d, 0 ≤ d < 4 → nums REGION1 d log `prefix_of` nums APPROACHING d log) ∧
       (∀ u, u ∈ t :: r →
          told log (c_num (car_of u)) `suffix_of` expected (car_of u) Finished)) (World c m).
Proof.
  intros Hm. apply stoplight_run; [done|]. intros D c' a v m' Ha Hrf. cbn [wst].
  rewrite <- (rf_g _ _ _ _ _ _ _ (rf_base _ _ _ _ _ _ _ Hrf)). split.
  - intros d Hd. by eapply inv_order.
  - intros u Hu. eapply inv_told; [done|by apply lookup_cars].
Qed.

(** C3: as long as no [kmalloc] fails, there is no deadlock: when the processor
    has nothing left to do, every car has passed the intersection and has
    printed all of its messages. *)
Theorem stoplight_no_deadlock es m :
  mem_ok m →
  wp (stoplight synchprobs lbolt cp0 I locks t r car_of l0 es)
     (λ _ w, curthread (s_thr (c_sys (wst w))) = NULL →
       ∀ u, u ∈ t :: r →
         told (printed (c_g (wst w))) (c_num (car_of u)) = expected (car_of u) Finished) (World c m).
Proof.
  intros Hm. apply stoplight_run; [done|]. intros D c' a v m' Ha Hrf. cbn [wst]. intros Hidle u Hu.
  rewrite <- (rf_g _ _ _ _ _ _ _ (rf_base _ _ _ _ _ _ _ Hrf)).
  eapply inv_told; [done|by apply lookup_cars|].
  eapply inv_no_deadlock; [apply Hsc|exact cars_numbers|exact cars_few|done| |].
  - by eapply idle_stuck.
  - apply elem_of_dom. eexists. by apply lookup_cars.
Qed.
End executions.

(** ** An execution *)

(** Three cars: from the north-east to the right, from the south-east to the
    left and from the south-west straight on. *)
Definition ex_sems : semaphores := Semaphores 16 20 24 28 32.
Definition ex_locks : list Z := [36; 40; 44; 48].
Definition ex_car (u : Z) : car := Car ((u - 96) / 4) ((u - 100) / 4) ((u - 100) / 4).
Definition ex_cpu : cpu := Cpu 1 0.

Definition ex_cfg : cfg local intersection :=
  Cfg (Sys (start_thr ex_cpu 4 []) ∅ ∅ ∅) (Intersection 0 0 [] []) ∅.

(** A timer interrupt after every third step, then none. *)
Definition ex_events (n : nat) : list event :=
  mjoin (replicate n [Run; Run; Run; Tick]) ++ replicate 200 Run.

Lemma ex_scenario : scenario 8 ex_cpu ex_sems ex_locks 100 [104; 108] ex_car ex_cfg.
Proof.
  split.
  - by split.
  - done.
  - by apply (bool_decide_unpack _).
  - by apply (bool_decide_unpack _).
  - by compute.
  - intros u v. rewrite !elem_of_cons, !elem_of_nil. intros Hu Hv.
    destruct Hu as [->|[->|[->|[]]]], Hv as [->|[->|[->|[]]]]; by compute.
  - done.
  - intros p [Hp|Hp]; [|set_solver]. unfold created, ex_locks, ex_sems in Hp.
    cbn [NE NW SE SW staus app] in Hp. rewrite !elem_of_cons, !elem_of_nil in Hp.
    unfold NULL. lia.
  - intros p [Hp|Hp]; [|set_solver]. unfold created, ex_locks, ex_sems in Hp.
    cbn [NE NW SE SW staus app] in Hp. rewrite !elem_of_cons, !elem_of_nil in *. lia.
Qed.

(** The execution ends with the processor idle, so that the theorems say
    something about it. *)
Lemma ex_idle :
  wp (stoplight false 8 ex_cpu ex_sems ex_locks 100 [104; 108] ex_car (λ _, Local 0 0 false) (ex_events 30))
     (λ _ w, curthread (s_thr (c_sys (wst w))) = NULL ∧ length (printed (c_g (wst w))) = 12%nat)
     (World ex_cfg []).
Proof. vm_compute. done. Qed.

#[local] Notation ex_run es :=
  (stoplight false 8 ex_cpu ex_sems ex_locks 100 [104; 108] ex_car (λ _, Local 0 0 false) es).

Lemma stoplight_exclusive_witness :
  wp (ex_run (ex_events 7))
     (λ _ w, 0 ≤ carnumber (c_g (wst w)) ≤ 3 ∧
       ∀ u v q, u ∈ [100; 104; 108] → v ∈ [100; 104; 108] →
         position (ex_car u) (printed (c_g (wst w))) = Some q →
         position (ex_car v) (printed (c_g (wst w))) = Some q → u = v) (World ex_cfg []).
Proof.
  apply (stoplight_exclusive false 8 ex_cpu ex_sems ex_locks 100 [104; 108] ex_car
    (λ _, Local 0 0 false) ex_cfg ex_scenario). apply not_elem_of_nil.
Defined.

Lemma stoplight_in_order_witness :
  wp (ex_run (ex_events 7))
     (λ _ w, let log := printed (c_g (wst w)) in
       (∀ d, 0 ≤ d < 4 → nums REGION1 d log `prefix_of` nums APPROACHING d log) ∧
       (∀ u, u ∈ [100; 104; 108] →
          told log (c_num (ex_car u)) `suffix_of` expected (ex_car u) Finished)) (World ex_cfg []).
Proof.
  apply (stoplight_in_order false 8 ex_cpu ex_sems ex_locks 100 [104; 108] ex_car
    (λ _, Local 0 0 false) ex_cfg ex_scenario). apply not_elem_of_nil.
Defined.

(** After this execution the processor does idle. *)
Lemma stoplight_no_deadlock_witness :
  wp (ex_run (ex_events 30))
     (λ _ w, curthread (s_thr (c_sys (wst w))) = NULL ∧
       ∀ u, u ∈ [100; 104; 108] →
         told (printed (c_g (wst w))) (c_num (ex_car u)) = expected (ex_car u) Finished) (World ex_cfg []).
Proof.
  eapply wp_mono; [apply wp_and; [exact ex_idle|]|].
  - apply (stoplight_no_deadlock false 8 ex_cpu ex_sems ex_locks 100 [104; 108] ex_car
      (λ _, Local 0 0 false) ex_cfg ex_scenario). apply not_elem_of_nil.
  - intros _ w [[Hidle _] H]. split; [exact Hidle|by apply H].
Defined.

(** ** Four cars inside *)

(** Four cars, one from each direction, that turn right; each is preempted
    between giving up its place in [carnumber] and printing that it leaves. *)
Definition right_car (u : Z) : car := Car ((u - 100) / 4) 0 ((u - 100) / 4).

Definition right_events : list event := mjoin (replicate 4 (replicate 17 Run ++ [Tick])).

(** The counter does not limit the cars inside to three: in this execution all
    four quadrants are taken while [carnumber] is 0. *)
Theorem stoplight_four_inside :
  wp (stoplight false 8 ex_cpu ex_sems ex_locks 100 [104; 108; 112] right_car
        (λ _, Local 0 0 false) right_events)
     (λ _ w, carnumber (c_g (wst w)) = 0 ∧
        (λ u, position (right_car u) (printed (c_g (wst w)))) <$> [100; 104; 108; 112] =
        [Some 0; Some 1; Some 2; Some 3]) (World ex_cfg []).
Proof. vm_compute. done. Qed.
