(* ===== verification/CatMouse.v ===== *)
(** * Cats and mice at the food bowls (kern/asst1/catlock.c)

    The threads of the program as commands of Machine.v.  Reads and writes of
    the shared structure are [CAct] statements; [full], [free] and [last] hold
    the outcomes of the tests.  The shared structure carries, besides the
    fields of [struct HOUSE], the messages printed so far, newest first. *)

From S2P Require Import Prelude Bits Spl Array Queue Thread ThreadSpec Synch Machine.

Definition NFOODBOWLS : Z := 2.
Definition NCATS : Z := 6.
Definition NMICE : Z := 2.

(** The first argument of [lock_eat]. *)
Inductive animal := Cat | Mouse.

#[export] Instance animal_eq_dec : EqDecision animal.
Proof. solve_decision. Defined.

(** [starts eating] and [ends eating]. *)
Record meal_msg := MealMsg {
  mm_starts : bool; mm_who : animal; mm_num : Z; mm_bowl : Z; mm_iteration : Z
}.

Record house := House {
  busycat : Z;
  busymouse : Z;
  bowls : list Z;
  said : list meal_msg
}.

Definition busy_of (w : animal) (h : house) : Z :=
  match w with Cat => busycat h | Mouse => busymouse h end.
Definition set_busy (w : animal) (x : Z) (h : house) : house :=
  match w with
  | Cat => House x (busymouse h) (bowls h) (said h)
  | Mouse => House (busycat h) x (bowls h) (said h)
  end.
Definition set_bowls (x : list Z) (h : house) : house :=
  House (busycat h) (busymouse h) x (said h).
Definition set_said (x : list meal_msg) (h : house) : house :=
  House (busycat h) (busymouse h) (bowls h) x.

Definition other (w : animal) : animal := match w with Cat => Mouse | Mouse => Cat end.

Record local := Local {
  iteration : Z; s : Z; flag : Z; full : bool; free : bool; last : bool
}.

Definition set_iteration (x : Z) (l : local) : local := Local x (s l) (flag l) (full l) (free l) (last l).
Definition set_s (x : Z) (l : local) : local := Local (iteration l) x (flag l) (full l) (free l) (last l).
Definition set_flag (x : Z) (l : local) : local := Local (iteration l) (s l) x (full l) (free l) (last l).
Definition set_full (x : bool) (l : local) : local := Local (iteration l) (s l) (flag l) x (free l) (last l).
Definition set_free (x : bool) (l : local) : local := Local (iteration l) (s l) (flag l) (full l) x (last l).
Definition set_last (x : bool) (l : local) : local := Local (iteration l) (s l) (flag l) (full l) (free l) x.

(** The lock and the condition variables of [struct HOUSE]. *)
Record spots := Spots { bowls_lock : Z; cat_spot : Z; mouse_spot : Z }.

Definition spot (H : spots) (w : animal) : Z :=
  match w with Cat => cat_spot H | Mouse => mouse_spot H end.

Definition cmd := Machine.cmd local house.

Declare Scope animal_scope.
Delimit Scope animal_scope with animal.
Notation "c1 ;+ c2" := (CSeq c1 c2) (at level 90, right associativity) : animal_scope.
#[local] Open Scope animal_scope.

(** ** Statements on the structure *)

(** The condition of the outer [while]: the other kind is present or all bowls
    are taken. *)
Definition test_full (w : animal) : cmd :=
  CAct (λ l, h ← kget;
    mret (set_full ((0 <? busy_of (other w) h) || (busy_of w h =? NFOODBOWLS)) l)).

(** [house->bowls[s] == 0] *)
Definition test_bowl : cmd :=
  CAct (λ l, h ← kget; b ← kof (lget (bowls h) (s l)); mret (set_free (b =? 0) l)).

Definition store_bowl (x : Z) : cmd :=
  CAct (λ l, h ← kget; b ← kof (lset (bowls h) (s l) x); kput (set_bowls b h);; mret l).

Definition incr_busy (w : animal) : cmd :=
  CAct (λ l, h ← kget; kput (set_busy w (i32 (busy_of w h + 1)) h);; mret l).

Definition decr_busy (w : animal) : cmd :=
  CAct (λ l, h ← kget; kput (set_busy w (i32 (busy_of w h - 1)) h);; mret l).

Definition test_last (w : animal) : cmd :=
  CAct (λ l, h ← kget; mret (set_last (busy_of w h =? 0) l)).

Definition say (starts : bool) (who : animal) (num : Z) : cmd :=
  CAct (λ l, h ← kget;
    kput (set_said (MealMsg starts who num (s l + 1) (iteration l) :: said h) h);; mret l).

Definition lock_eat (who : animal) (num : Z) : cmd :=
  say true who num ;+
  CClocksleep 1 ;+
  say false who num.

(** ** The threads *)

Section threads.
Context (H : spots).

(** The block under [if (house->bowls[s] == 0)]. *)
Definition meal (w : animal) (num : Z) : cmd :=
  CSet (set_flag 1) ;+
  store_bowl 1 ;+
  incr_busy w ;+
  CRelease (bowls_lock H) ;+
  lock_eat w num ;+
  CAcquire (bowls_lock H) ;+
  CSet (λ l, set_iteration (iteration l + 1) l) ;+
  decr_busy w ;+
  store_bowl 0 ;+
  CBroadcast (spot H w) (bowls_lock H) ;+
  test_last w ;+
  CIf last (CBroadcast (spot H (other w)) (bowls_lock H)) CSkip ;+
  CRelease (bowls_lock H).

(** The [for] loop over the bowls. *)
Definition for_bowls (w : animal) (num : Z) : cmd :=
  CWhile (λ l, (s l <? NFOODBOWLS) && (flag l =? 0))
    (test_bowl ;+
     CIf free (meal w num) CSkip ;+
     CSet (λ l, set_s (s l + 1) l)).

Definition wait_loop (w : animal) : cmd :=
  CWhile full
    (CWait (spot H w) (bowls_lock H) ;+
     test_full w).

(** The loop of [catlock] and of [mouselock]. *)
Definition eat_loop (w : animal) (num : Z) : cmd :=
  CWhile (λ l, iteration l <=? 3)
    (CAcquire (bowls_lock H) ;+
     test_full w ;+
     wait_loop w ;+
     CSet (set_s 0) ;+
     CSet (set_flag 0) ;+
     for_bowls w num).

Definition catlock (catnumber : Z) : cmd :=
  CSet (set_iteration 0) ;+ eat_loop Cat catnumber.

Definition mouselock (mousenumber : Z) : cmd :=
  CSet (set_iteration 0) ;+ eat_loop Mouse mousenumber.

End threads.

(** [catmouselock] up to the forks, for the addresses [kmalloc] gives out.  The
    results are not checked: a failed allocation is a null pointer that the
    threads use, and the model stops at once. *)
Definition catmouselock_init (H : spots) : K (cfg local house) unit :=
  ok ← kmalloc_ok;
  if negb ok then kundef else
  r ← on_sys (lock_create (bowls_lock H));
  if r =? NULL then kundef else
  r ← on_sys (cv_create (cat_spot H));
  if r =? NULL then kundef else
  r ← on_sys (cv_create (mouse_spot H));
  if r =? NULL then kundef else
  c ← kget;
  kput (set_g (House 0 0 (replicate (Z.to_nat NFOODBOWLS) 0) []) c).
