(* ===== verification/CatMouseInv.v ===== *)
(** * The way of an animal to its meals

    The control states of the threads of CatMouse.v as an automaton, with what
    each of them holds: the lock, a bowl, a place in the count of its kind. *)

From S2P Require Import Prelude Bits Spl Array Queue Thread ThreadSpec Synch Machine CatMouse.

Record beast := Beast { b_who : animal; b_num : Z }.

(** Before the lock; testing and waiting; looking for a bowl; taking bowl [i];
    eating from it; putting it back. *)
Inductive phase :=
| Start
| L0 | T0 | W0 | Wt | R0 | T1
| B0 | B1
| G0 (i : Z) | G1 (i : Z) | G2 (i : Z)
| E0 (i : Z) | E1 (i : Z) | Ec (i : Z) | E2 (i : Z)
| X0 (i : Z) | X1 (i : Z) | X2 (i : Z) | X3 (i : Z) | X4 (i : Z) | X5 (i : Z) | X6 (i : Z)
| Finished.

#[export] Instance phase_eq_dec : EqDecision phase.
Proof. solve_decision. Defined.

Section beast.
Context (H : spots).

Definition loop (b : beast) : cmd := eat_loop H (b_who b) (b_num b).

Definition loop_body (b : beast) : cmd :=
  match loop b with CWhile _ c => c | c => c end.

Definition for_body (b : beast) : cmd :=
  match for_bowls H (b_who b) (b_num b) with CWhile _ c => c | c => c end.

(** After the wait, and after the block of the meal. *)
Definition rest (b : beast) : list cmd :=
  [test_full (b_who b); wait_loop H (b_who b); seq_drop 3 (loop_body b); loop b].

Definition after (b : beast) : list cmd :=
  [seq_drop 2 (for_body b); for_bowls H (b_who b) (b_num b); loop b].

Definition bowl_meal (b : beast) (n : nat) : list cmd :=
  at_seq n (meal H (b_who b) (b_num b)) (after b).

Definition eating (b : beast) (n : nat) : list cmd :=
  at_seq n (lock_eat (b_who b) (b_num b)) (seq_drop 5 (meal H (b_who b) (b_num b)) :: after b).

(** What remains to be done in a phase. *)
Definition kont (b : beast) (ph : phase) : list cmd :=
  match ph with
  | Start => [match b_who b with Cat => catlock H (b_num b) | Mouse => mouselock H (b_num b) end]
  | L0 => at_seq 0 (loop_body b) [loop b]
  | T0 => at_seq 1 (loop_body b) [loop b]
  | W0 => CWait (spot H (b_who b)) (bowls_lock H) :: rest b
  | R0 => CAcquire (bowls_lock H) :: rest b
  | Wt | T1 => rest b
  | B0 | B1 => at_seq 0 (for_body b) [for_bowls H (b_who b) (b_num b); loop b]
  | G0 _ => bowl_meal b 1
  | G1 _ => bowl_meal b 2
  | G2 _ => bowl_meal b 3
  | E0 _ => eating b 0
  | E1 _ => eating b 1
  | Ec _ | E2 _ => eating b 2
  | X0 _ => bowl_meal b 5
  | X1 _ => bowl_meal b 7
  | X2 _ => bowl_meal b 8
  | X3 _ => bowl_meal b 9
  | X4 _ => bowl_meal b 10
  | X5 _ => CBroadcast (spot H (other (b_who b))) (bowls_lock H) :: bowl_meal b 12
  | X6 _ => bowl_meal b 12
  | Finished => []
  end.

Definition state (b : beast) (ph : phase) (l : local) : actl local house :=
  match ph with
  | Wt => AWait (spot H (b_who b)) (bowls_lock H) l (kont b ph)
  | Ec _ => AClock 1 l (kont b ph)
  | _ => ARun l (kont b ph)
  end.

(** The next command. *)
Definition op (b : beast) (ph : phase) : cmd :=
  match ph with
  | Start => match b_who b with Cat => catlock H (b_num b) | Mouse => mouselock H (b_num b) end
  | L0 | R0 | X0 _ => CAcquire (bowls_lock H)
  | T0 | T1 | Wt => test_full (b_who b)
  | W0 => CWait (spot H (b_who b)) (bowls_lock H)
  | B0 | B1 => test_bowl
  | G0 _ => store_bowl 1
  | G1 _ => incr_busy (b_who b)
  | G2 _ | X6 _ => CRelease (bowls_lock H)
  | E0 _ => say true (b_who b) (b_num b)
  | E1 _ => CClocksleep 1
  | Ec _ | E2 _ => say false (b_who b) (b_num b)
  | X1 _ => decr_busy (b_who b)
  | X2 _ => store_bowl 0
  | X3 _ => CBroadcast (spot H (b_who b)) (bowls_lock H)
  | X4 _ => test_last (b_who b)
  | X5 _ => CBroadcast (spot H (other (b_who b))) (bowls_lock H)
  | Finished => CSkip
  end.

(** The next phase, by the outcomes of the tests. *)
Definition succ (l : local) (ph : phase) : phase :=
  match ph with
  | Start => L0
  | L0 => T0
  | T0 | T1 => if full l then W0 else B0
  | W0 => Wt | Wt => R0 | R0 => T1
  | B0 => if free l then G0 0 else B1
  | B1 => G0 1
  | G0 i => G1 i | G1 i => G2 i | G2 i => E0 i
  | E0 i => E1 i | E1 i => Ec i | Ec i => E2 i | E2 i => X0 i
  | X0 i => X1 i | X1 i => X2 i | X2 i => X3 i | X3 i => X4 i
  | X4 i => if last l then X5 i else X6 i
  | X5 i => X6 i
  | X6 i => if iteration l <=? 3 then L0 else Finished
  | Finished => Finished
  end.

(** The meals a thread has behind it. *)
Definition meals (ph : phase) (l : local) : Z :=
  match ph with
  | Start => 0
  | X0 _ => iteration l + 1
  | _ => iteration l
  end.

Definition bowl_of (ph : phase) : option Z :=
  match ph with
  | G0 i | G1 i | G2 i | E0 i | E1 i | Ec i | E2 i
  | X0 i | X1 i | X2 i | X3 i | X4 i | X5 i | X6 i => Some i
  | _ => None
  end.

(** The local variables in a phase. *)
Definition local_ok (ph : phase) (l : local) : Prop :=
  match ph with
  | Start => True
  | L0 | T0 | W0 | Wt | R0 | T1 => 0 ≤ iteration l ≤ 3
  | B0 => 0 ≤ iteration l ≤ 3 ∧ s l = 0 ∧ flag l = 0
  | B1 => 0 ≤ iteration l ≤ 3 ∧ s l = 1 ∧ flag l = 0
  | G0 i | G1 i | G2 i | E0 i | E1 i | Ec i | E2 i | X0 i =>
    0 ≤ iteration l ≤ 3 ∧ s l = i ∧ flag l = 1 ∧ 0 ≤ i < 2
  | X1 i | X2 i | X3 i | X4 i | X5 i | X6 i =>
    1 ≤ iteration l ≤ 4 ∧ s l = i ∧ flag l = 1 ∧ 0 ≤ i < 2
  | Finished => iteration l = 4
  end.

Lemma meal_op b ph : ph ≠ Finished → ∃ k, kont b ph = op b ph :: k.
Proof. intros Hf. destruct b as [[] n], ph; try done; by eexists. Qed.

(** Phases whose command is followed by the next phase. *)
Definition plain (ph : phase) : bool :=
  match ph with Start | W0 | Wt | E1 _ | Ec _ | Finished => false | _ => true end.

Definition ends (ph : phase) : Z := match ph with E2 _ => 1 | _ => 0 end.

(** The local statements after the command of a phase. *)
Lemma meal_next b ph l :
  plain ph = true → local_ok ph l → (ph = B1 → free l = true) →
  ∃ l', next_cmd l (tail (kont b ph)) = Some (l', kont b (succ l ph)) ∧
    local_ok (succ l ph) l' ∧ meals (succ l ph) l' = meals ph l + ends ph.
Proof.
  intros Hp Hl Hb. rewrite next_cmd_eq. destruct b as [w n], l as [it s0 fl fu fr la].
  destruct ph; try done; cbn in Hl, Hb.
  all: try (assert (i = 0 ∨ i = 1) as [-> | ->] by lia).
  all: try (assert (fr = true) as -> by auto).
  all: try (destruct Hl as (Hl & -> & -> & _)).
  all: try (destruct Hl as (Hl & -> & ->)).
  all: try (destruct (Z.leb_spec it 3) as [Hit|Hit];
    [assert ((it <=? 3) = true) as Hit' by lia|assert ((it <=? 3) = false) as Hit' by lia]; cbn [succ iteration]; rewrite ?Hit').
  all: try (destruct fu; try destruct fr; destruct la; (eexists; split; [reflexivity|split; cbn; lia])).
  all: eexists; split; [cbn; rewrite Hit'; reflexivity|split; cbn; lia].
Qed.

Lemma meal_start b l :
  ∃ l', next_cmd l (kont b Start) = Some (l', kont b L0) ∧ local_ok L0 l' ∧ meals L0 l' = 0.
Proof.
  rewrite next_cmd_eq. destruct b as [[] n], l as [it s0 fl fu fr la];
    (eexists; split; [reflexivity|split; cbn; lia]).
Qed.

Lemma kont_clock b i l : next_cmd l (kont b (Ec i)) = Some (l, kont b (E2 i)).
Proof. rewrite next_cmd_eq. by destruct b as [[] n]. Qed.

End beast.

(** ** What a phase holds *)

(** The lock. *)
Definition locked (ph : phase) : bool :=
  match ph with
  | T0 | W0 | T1 | B0 | B1 | G0 _ | G1 _ | G2 _
  | X1 _ | X2 _ | X3 _ | X4 _ | X5 _ | X6 _ => true
  | _ => false
  end.

(** A bowl. *)
Definition uses (ph : phase) : option Z :=
  match ph with
  | G1 i | G2 i | E0 i | E1 i | Ec i | E2 i | X0 i | X1 i | X2 i => Some i
  | _ => None
  end.

(** A place in the count of its kind. *)
Definition counted (ph : phase) : bool :=
  match ph with G2 _ | E0 _ | E1 _ | Ec _ | E2 _ | X0 _ | X1 _ => true | _ => false end.

(** It has said that it eats. *)
Definition feeding (ph : phase) : option Z :=
  match ph with E1 i | Ec i | E2 i => Some (i + 1) | _ => None end.

(** It will broadcast to its own kind; to the other kind if none of its own is
    left. *)
Definition tells_own (ph : phase) : bool :=
  match ph with X2 _ | X3 _ => true | _ => false end.

Definition tells_other (ph : phase) : bool :=
  match ph with X2 _ | X3 _ | X4 _ | X5 _ => true | _ => false end.
