(* ===== verification/CatMouseProof.v ===== *)
(** * The invariant of the food bowls

    For any set of cats and mice at any positions: the lock is held by the one
    thread that is in a critical section, each bowl is free or used by one
    animal, the counters count the animals at the bowls, animals of one kind
    only are there, and an animal that waits has a reason to wait or somebody
    is about to wake it. *)

From stdpp Require Import gmap fin_sets functions.
From S2P Require Import Prelude Bits Spl Array Queue Thread ThreadSpec Synch Machine CatMouse CatMouseInv.

(** The messages of an animal; the bowl it eats from by what it said last. *)
Definition talk (log : list meal_msg) (b : beast) : list meal_msg :=
  filter (λ m, mm_who m = b_who b ∧ mm_num m = b_num b) log.

Definition eats (log : list meal_msg) (b : beast) : option Z :=
  m ← head (talk log b); if mm_starts m then Some (mm_bowl m) else None.

(** The meals an animal has finished. *)
Definition eaten (log : list meal_msg) (b : beast) : Z :=
  Z.of_nat (length (filter (λ m, mm_starts m = false) (talk log b))).

(** The condition to wait. *)
Definition is_full (w : animal) (h : house) : bool :=
  (0 <? busy_of (other w) h) || (busy_of w h =? NFOODBOWLS).

Definition phase_ok (w : animal) (ph : phase) (h : house) : Prop :=
  match ph with
  | W0 => is_full w h = true
  | B0 | G1 _ => is_full w h = false
  | B1 => is_full w h = false ∧ lget (bowls h) 0 ≠ Some 0
  | G0 i => is_full w h = false ∧ lget (bowls h) i = Some 0
  | _ => True
  end.

(** A bowl with content [x], used by the threads in [U]. *)
Definition bowl_excl (x : Z) (U : Z → Prop) : Prop :=
  (x = 0 ∧ ∀ t, ¬ U t) ∨ (x = 1 ∧ ∃ t, U t ∧ ∀ u, U u → u = t).

Lemma bowl_excl_ext x U U' : (∀ t, U' t ↔ U t) → bowl_excl x U → bowl_excl x U'.
Proof.
  intros HU [[Hx Hno]|[Hx (t & Ht & Hu)]].
  - left. split; [done|]. intros t. rewrite HU. apply Hno.
  - right. split; [done|]. exists t. rewrite HU. split; [done|]. intros u. rewrite HU. apply Hu.
Qed.

Lemma bowl_excl_unique x U t u : bowl_excl x U → U t → U u → t = u.
Proof.
  intros [[_ Hno]|[_ (w & _ & Hw)]] Ht Hu; [by destruct (Hno t)|]. by rewrite (Hw t), (Hw u).
Qed.

Section inv.
Context (H : spots) (beasts : gmap Z beast).

Context (HH : cat_spot H ≠ mouse_spot H) (Hlk : bowls_lock H ≠ NULL).
Context (Hnull : beasts !! 0 = None).
Context (Hnum : ∀ t u b b', beasts !! t = Some b → beasts !! u = Some b' →
  b_who b = b_who b' → b_num b = b_num b' → t = u).
Context (Hfew : Z.of_nat (base.size beasts) ≤ MAXTHREADS).

Implicit Types (phs : Z → phase) (a : astate local house) (h : house).

(** [t] is of kind [w] in a phase that satisfies [P]. *)
Definition in_phase phs (w : animal) (P : phase → bool) (t : Z) : Prop :=
  ∃ b, beasts !! t = Some b ∧ b_who b = w ∧ P (phs t) = true.

Definition user phs (i t : Z) : Prop := ∃ b, beasts !! t = Some b ∧ uses (phs t) = Some i.

Definition at_bowls phs (w : animal) : gset Z :=
  dom (filter (λ p, b_who p.2 = w ∧ counted (phs p.1) = true) beasts).

Definition lock_ok phs (o : Z) : Prop :=
  (o = 0 ∨ is_Some (beasts !! o)) ∧
  ∀ t b, beasts !! t = Some b → locked (phs t) = true ↔ o = t.

Definition cv_ok phs (w : animal) (q : list Z) : Prop :=
  ∀ t, t ∈ q ↔ in_phase phs w (λ ph, bool_decide (ph = Wt)) t.

Definition bowls_ok phs h : Prop :=
  length (bowls h) = 2%nat ∧
  ∀ i, 0 ≤ i < 2 → ∃ x, lget (bowls h) i = Some x ∧ bowl_excl x (user phs i).

Definition counts_ok phs h : Prop :=
  (∀ w, busy_of w h = Z.of_nat (base.size (at_bowls phs w)) ∧ busy_of w h ≤ 2) ∧
  (busycat h = 0 ∨ busymouse h = 0).

(** Somebody is about to wake the waiting animals of kind [w]. *)
Definition pending phs h (w : animal) : Prop :=
  ∃ u, in_phase phs w tells_own u ∨
       in_phase phs (other w) tells_other u ∧ busy_of (other w) h = 0.

Definition waits_ok phs h : Prop :=
  ∀ w t, in_phase phs w (λ ph, bool_decide (ph = Wt)) t → is_full w h = true ∨ pending phs h w.

Definition beast_ok phs h (t : Z) (b : beast) (x : option (actl local house)) : Prop :=
  phase_ok (b_who b) (phs t) h ∧
  ∃ l, x = Some (state H b (phs t) l) ∧ local_ok (phs t) l ∧
    eaten (said h) b = meals (phs t) l ∧ eats (said h) b = feeding (phs t).

Record house_inv a phs : Prop := HouseInv {
  hi_beasts t b : beasts !! t = Some b → beast_ok phs (a_g a) t b (a_thr a !! t);
  hi_dom : dom (a_thr a) = dom beasts;
  hi_lock : ∃ o, a_locks a !! bowls_lock H = Some o ∧ lock_ok phs o;
  hi_cvs w : ∃ q, a_cvs a !! spot H w = Some q ∧ cv_ok phs w q;
  hi_bowls : bowls_ok phs (a_g a);
  hi_counts : counts_ok phs (a_g a);
  hi_waits : waits_ok phs (a_g a)
}.

Definition catmouse_inv a : Prop := ∃ phs, house_inv a phs.

(** ** One animal moves *)

Lemma in_phase_move phs w P t b ph' u :
  beasts !! t = Some b →
  in_phase (<[t := ph']> phs) w P u ↔
  if decide (u = t) then b_who b = w ∧ P ph' = true else in_phase phs w P u.
Proof.
  intros Hb. unfold in_phase. destruct (decide (u = t)) as [->|Hne].
  - rewrite fn_lookup_insert. naive_solver.
  - by rewrite fn_lookup_insert_ne.
Qed.

Lemma in_phase_same phs w P t ph' u :
  P ph' = P (phs t) → in_phase (<[t := ph']> phs) w P u ↔ in_phase phs w P u.
Proof.
  intros HP. unfold in_phase. destruct (decide (u = t)) as [->|Hne].
  - by rewrite fn_lookup_insert, HP.
  - by rewrite fn_lookup_insert_ne.
Qed.

Lemma user_move phs i t b ph' u :
  beasts !! t = Some b →
  user (<[t := ph']> phs) i u ↔ if decide (u = t) then uses ph' = Some i else user phs i u.
Proof.
  intros Hb. unfold user. destruct (decide (u = t)) as [->|Hne].
  - rewrite fn_lookup_insert. naive_solver.
  - by rewrite fn_lookup_insert_ne.
Qed.

Lemma elem_at_bowls phs w u : u ∈ at_bowls phs w ↔ in_phase phs w counted u.
Proof.
  unfold at_bowls, in_phase. rewrite elem_of_dom. split.
  - intros (b & [Hb Hw]%map_lookup_filter_Some). naive_solver.
  - intros (b & Hb & Hw). exists b. by apply map_lookup_filter_Some.
Qed.

Lemma at_bowls_same phs w t ph' :
  counted ph' = counted (phs t) → at_bowls (<[t := ph']> phs) w = at_bowls phs w.
Proof. intros Hc. apply set_eq. intros u. rewrite !elem_at_bowls. by apply in_phase_same. Qed.

Lemma at_bowls_other phs w t b ph' :
  beasts !! t = Some b → b_who b ≠ w → at_bowls (<[t := ph']> phs) w = at_bowls phs w.
Proof.
  intros Hb Hw. apply set_eq. intros u. rewrite !elem_at_bowls, (in_phase_move _ _ _ _ b) by done.
  case_decide; [|done]. subst. unfold in_phase. naive_solver.
Qed.

Lemma at_bowls_enter phs t b ph' :
  beasts !! t = Some b → counted (phs t) = false → counted ph' = true →
  base.size (at_bowls (<[t := ph']> phs) (b_who b)) = S (base.size (at_bowls phs (b_who b))).
Proof.
  intros Hb H1 H2. assert (at_bowls (<[t := ph']> phs) (b_who b) = {[t]} ∪ at_bowls phs (b_who b)) as ->.
  { apply set_eq. intros u. rewrite elem_of_union, elem_of_singleton, !elem_at_bowls.
    rewrite (in_phase_move _ _ _ _ b) by done. case_decide; naive_solver. }
  rewrite size_union, size_singleton; [lia|].
  intros u ->%elem_of_singleton (b' & ? & _ & Hc)%elem_at_bowls. congruence.
Qed.

Lemma at_bowls_leave phs t b ph' :
  beasts !! t = Some b → counted (phs t) = true → counted ph' = false →
  base.size (at_bowls phs (b_who b)) = S (base.size (at_bowls (<[t := ph']> phs) (b_who b))).
Proof.
  intros Hb H1 H2. rewrite <- (at_bowls_enter _ t b (phs t) Hb) by (done || by rewrite fn_lookup_insert).
  f_equal. apply set_eq. intros u. rewrite !elem_at_bowls, !(in_phase_move _ _ _ _ b) by done.
  case_decide; [subst; unfold in_phase; naive_solver|]. rewrite (in_phase_move _ _ _ _ b), decide_False; done.
Qed.

(** The state after thread [t] has moved. *)
Definition moved a (locks : gmap Z Z) (cvs : gmap Z (list Z)) h (t : Z) (x : actl local house) :
    astate local house :=
  AState (a_sems a) locks cvs h (<[t := x]> (a_thr a)).

Lemma beast_move a phs t b l' ph' locks' cvs' h' :
  house_inv a phs → beasts !! t = Some b →
  local_ok ph' l' → phase_ok (b_who b) ph' h' →
  eaten (said h') b = meals ph' l' → eats (said h') b = feeding ph' →
  (∀ u b', beasts !! u = Some b' → u ≠ t → talk (said h') b' = talk (said (a_g a)) b') →
  (∀ u b', beasts !! u = Some b' → u ≠ t → phase_ok (b_who b') (phs u) (a_g a) →
     phase_ok (b_who b') (phs u) h') →
  (∃ o, locks' !! bowls_lock H = Some o ∧ lock_ok (<[t := ph']> phs) o) →
  (∀ w, ∃ q, cvs' !! spot H w = Some q ∧ cv_ok (<[t := ph']> phs) w q) →
  bowls_ok (<[t := ph']> phs) h' → counts_ok (<[t := ph']> phs) h' →
  waits_ok (<[t := ph']> phs) h' →
  house_inv (moved a locks' cvs' h' t (state H b ph' l')) (<[t := ph']> phs).
Proof.
  intros [Hbs Hdom _ _ _ _ _] Hb Hl Hp He Hf Htalk Hother Hlock Hcv Hbowl Hcnt Hwait.
  split; try done.
  - intros u b' Hu. unfold moved, beast_ok. cbn [a_thr a_g]. destruct (decide (u = t)) as [->|Hne].
    + assert (b' = b) as -> by congruence. rewrite lookup_insert_eq, fn_lookup_insert. eauto 10.
    + rewrite lookup_insert_ne, fn_lookup_insert_ne by done.
      destruct (Hbs u b' Hu) as (Hpu & lu & Hx & Hlu & Heu & Hfu). split; [by apply (Hother u b')|].
      exists lu. unfold eaten, eats in *. by rewrite (Htalk u b').
  - cbn. rewrite dom_insert_lookup_L; [done|]. apply elem_of_dom. rewrite Hdom.
    by eapply elem_of_dom_2.
Qed.

(** *** The lock *)

Lemma lock_same phs t ph' o :
  locked ph' = locked (phs t) → lock_ok phs o → lock_ok (<[t := ph']> phs) o.
Proof.
  intros Hl [Ho Hi]. split; [done|]. intros u b Hu. rewrite <- (Hi u b Hu).
  destruct (decide (u = t)) as [->|Hne]; [by rewrite fn_lookup_insert, Hl|by rewrite fn_lookup_insert_ne].
Qed.

Lemma lock_take phs t b ph' :
  beasts !! t = Some b → locked ph' = true → lock_ok phs 0 → lock_ok (<[t := ph']> phs) t.
Proof.
  intros Hb Hl [_ Hi]. split; [right; eauto|]. intros u b' Hu.
  destruct (decide (u = t)) as [->|Hne]; [by rewrite fn_lookup_insert|].
  rewrite fn_lookup_insert_ne, (Hi u b') by done. split; [|congruence]. intros <-.
  by rewrite Hnull in Hu.
Qed.

Lemma lock_give phs t b ph' o :
  beasts !! t = Some b → locked (phs t) = true → locked ph' = false → lock_ok phs o →
  lock_ok (<[t := ph']> phs) 0.
Proof.
  intros Hb Hl Hl' [_ Hi]. assert (o = t) as -> by (by apply (Hi t b)).
  split; [by left|]. intros u b' Hu.
  assert (u ≠ 0) by (intros ->; by rewrite Hnull in Hu).
  destruct (decide (u = t)) as [->|Hne]; [rewrite fn_lookup_insert, Hl'; split; [done|congruence]|].
  rewrite fn_lookup_insert_ne, (Hi u b') by done. split; congruence.
Qed.

(** Whoever holds the lock is alone in it. *)
Lemma lock_alone a phs t b u b' :
  house_inv a phs → beasts !! t = Some b → beasts !! u = Some b' →
  locked (phs t) = true → locked (phs u) = true → t = u.
Proof.
  intros Hinv Hb Hu H1 H2. destruct (hi_lock _ _ Hinv) as (o & _ & _ & Hi).
  apply (Hi t b) in H1; [|done]. apply (Hi u b') in H2; [|done]. congruence.
Qed.

Lemma phase_unlocked w ph h : locked ph = false → phase_ok w ph h.
Proof. by destruct ph. Qed.

Lemma others_unlocked a phs t b h' :
  house_inv a phs → beasts !! t = Some b → locked (phs t) = true →
  ∀ u b', beasts !! u = Some b' → u ≠ t → phase_ok (b_who b') (phs u) (a_g a) →
    phase_ok (b_who b') (phs u) h'.
Proof.
  intros Hinv Hb Hl u b' Hu Hne _. apply phase_unlocked. destruct (locked (phs u)) eqn:E; [|done].
  by destruct Hne; eapply lock_alone.
Qed.

(** *** Moves that leave the counts, the bowls and the waiting animals alone *)

Definition still (ph ph' : phase) : Prop :=
  uses ph' = uses ph ∧ counted ph' = counted ph ∧ tells_own ph' = tells_own ph ∧
  tells_other ph' = tells_other ph ∧ ph ≠ Wt ∧ ph' ≠ Wt.

Definition same_house h h' : Prop :=
  busycat h' = busycat h ∧ busymouse h' = busymouse h ∧ bowls h' = bowls h.

Lemma same_busy h h' w : same_house h h' → busy_of w h' = busy_of w h.
Proof. by intros (H1 & H2 & _); destruct w. Qed.

Lemma same_full h h' w : same_house h h' → is_full w h' = is_full w h.
Proof. intros Hs. unfold is_full. by rewrite !(same_busy h h') by done. Qed.

Lemma same_phase_ok h h' w ph : same_house h h' → phase_ok w ph h → phase_ok w ph h'.
Proof.
  intros Hs. pose proof (same_full h h' w Hs) as Hf. destruct Hs as (_ & _ & Hb).
  destruct ph; cbn; rewrite ?Hf, ?Hb; done.
Qed.

Lemma cv_same phs t ph' w q :
  phs t ≠ Wt → ph' ≠ Wt → cv_ok phs w q → cv_ok (<[t := ph']> phs) w q.
Proof.
  intros H1 H2 Hq u. rewrite (Hq u). symmetry. apply in_phase_same. by rewrite !bool_decide_eq_false_2.
Qed.

Lemma cvs_same a phs t ph' :
  house_inv a phs → phs t ≠ Wt → ph' ≠ Wt →
  ∀ w, ∃ q, a_cvs a !! spot H w = Some q ∧ cv_ok (<[t := ph']> phs) w q.
Proof.
  intros Hinv H1 H2 w. destruct (hi_cvs _ _ Hinv w) as (q & Hq & Hok). exists q.
  split; [done|]. by apply cv_same.
Qed.

Lemma bowls_same phs t ph' h h' :
  uses ph' = uses (phs t) → bowls h' = bowls h → bowls_ok phs h → bowls_ok (<[t := ph']> phs) h'.
Proof.
  intros Hu Hb [Hlen Hi]. unfold bowls_ok. rewrite Hb. split; [done|]. intros i Hi'.
  destruct (Hi i Hi') as (x & Hx & He). exists x. split; [done|].
  eapply bowl_excl_ext; [|exact He]. intros u. unfold user.
  destruct (decide (u = t)) as [->|]; [by rewrite fn_lookup_insert, Hu|by rewrite fn_lookup_insert_ne].
Qed.

Lemma counts_same phs t ph' h h' :
  counted ph' = counted (phs t) → busycat h' = busycat h → busymouse h' = busymouse h →
  counts_ok phs h → counts_ok (<[t := ph']> phs) h'.
Proof.
  intros Hc H1 H2 [Hw Hz]. unfold counts_ok. rewrite H1, H2. split; [|done]. intros w.
  rewrite at_bowls_same by done. destruct (Hw w) as [Hw1 Hw2]. destruct w; cbn in *; by rewrite ?H1, ?H2.
Qed.

Lemma waits_same phs t ph' h h' :
  tells_own ph' = tells_own (phs t) → tells_other ph' = tells_other (phs t) →
  phs t ≠ Wt → ph' ≠ Wt → busycat h' = busycat h → busymouse h' = busymouse h →
  waits_ok phs h → waits_ok (<[t := ph']> phs) h'.
Proof.
  intros H1 H2 H3 H4 Hc Hm Hw w u. rewrite in_phase_same by (by rewrite !bool_decide_eq_false_2).
  intros [Hf|(v & Hv)]%Hw.
  - left. unfold is_full, busy_of in *. by destruct w; cbn in *; rewrite Hc, Hm.
  - right. exists v. unfold pending. rewrite !in_phase_same by done.
    destruct w; cbn in *; by rewrite ?Hc, ?Hm.
Qed.

Lemma beast_quiet a phs t b l' ph' locks' h' :
  house_inv a phs → beasts !! t = Some b → still (phs t) ph' → same_house (a_g a) h' →
  local_ok ph' l' → phase_ok (b_who b) ph' h' →
  eaten (said h') b = meals ph' l' → eats (said h') b = feeding ph' →
  (∀ u b', beasts !! u = Some b' → u ≠ t → talk (said h') b' = talk (said (a_g a)) b') →
  (∃ o, locks' !! bowls_lock H = Some o ∧ lock_ok (<[t := ph']> phs) o) →
  catmouse_inv (moved a locks' (a_cvs a) h' t (state H b ph' l')).
Proof.
  intros Hinv Hb (Hu & Hc & Ho1 & Ho2 & H1 & H2) Hsame Hl Hp He Hf Htalk Hlock.
  pose proof Hsame as (Hbc & Hbm & Hbw). eexists. apply beast_move; try done.
  - intros u b' _ _. by apply same_phase_ok.
  - by apply (cvs_same a).
  - by eapply bowls_same, Hinv.
  - by eapply counts_same, Hinv.
  - by eapply waits_same, Hinv.
Qed.

(** ** The steps of an animal *)

Lemma jump_beast b t ph l a (Q : astate local house → Prop) :
  plain ph = true → local_ok ph l → (ph = B1 → free l = true) →
  (∀ l', local_ok (succ l ph) l' → meals (succ l ph) l' = meals ph l + ends ph →
     Q (moved a (a_locks a) (a_cvs a) (a_g a) t (state H b (succ l ph) l'))) →
  jump t l (tail (kont H b ph)) a Q.
Proof.
  intros Hp Hl Hb HQ. destruct (meal_next H b ph l Hp Hl Hb) as (l' & Hn & Hl' & Hm).
  unfold jump. rewrite Hn. specialize (HQ l' Hl' Hm). unfold moved in HQ.
  assert (state H b (succ l ph) l' = ARun l' (kont H b (succ l ph))) as Hs; [|by rewrite Hs in HQ].
  destruct ph; try done; cbn; by repeat case_match.
Qed.

(** The animal runs the command of its phase. *)
Lemma awp_beast a phs t b Q :
  house_inv a phs → beasts !! t = Some b → plain (phs t) = true →
  (∀ l, local_ok (phs t) l → eaten (said (a_g a)) b = meals (phs t) l →
     eats (said (a_g a)) b = feeding (phs t) → phase_ok (b_who b) (phs t) (a_g a) →
     awp t (set_athr (<[t := ARun l (op H b (phs t) :: tail (kont H b (phs t)))]> (a_thr a)) a) Q) →
  awp t a Q.
Proof.
  intros Hinv Hb Hp HQ. destruct (hi_beasts _ _ Hinv t b Hb) as (Hpo & l & Hx & Hl & He & Hf).
  specialize (HQ l Hl He Hf Hpo). destruct (meal_op H b (phs t)) as (k & Hk); [by intros E; rewrite E in Hp|].
  assert (state H b (phs t) l = ARun l (kont H b (phs t))) as Hs by (by destruct (phs t)).
  rewrite Hs in Hx. rewrite Hk in *. cbn [tail] in HQ. rewrite insert_id in HQ by done. by destruct a.
Qed.

Ltac asimpl := unfold moved in *; cbn [set_athr set_alocks set_acvs set_ag a_sems a_locks a_cvs a_g a_thr wst] in *;
  rewrite ?insert_insert_eq.

Lemma step_acquire a phs t b :
  house_inv a phs → beasts !! t = Some b → op H b (phs t) = CAcquire (bowls_lock H) →
  plain (phs t) = true → (∀ l, still (phs t) (succ l (phs t))) →
  (∀ l, locked (succ l (phs t)) = true) → (∀ l h w, phase_ok w (succ l (phs t)) h) →
  (∀ l, feeding (succ l (phs t)) = feeding (phs t)) → ends (phs t) = 0 → phs t ≠ B1 →
  awp t a catmouse_inv.
Proof.
  intros Hinv Hb Hop Hp Hst Hlo Hpo Hfe Hen HB. eapply awp_beast; [done..|].
  intros l Hl He Hf _. unfold awp. asimpl. rewrite lookup_insert_eq, Hop.
  destruct (hi_lock _ _ Hinv) as (o & Ho & Hok). exists o. split; [done|]. intros ->.
  apply jump_beast; [done..|]. intros l' Hl' Hm. asimpl.
  apply (beast_quiet a phs t b); try done.
  - by rewrite He, Hm, Hen, Z.add_0_r.
  - by rewrite Hf, Hfe.
  - exists t. rewrite lookup_insert_eq. split; [done|]. by eapply lock_take.
Qed.

Lemma step_release a phs t b :
  house_inv a phs → beasts !! t = Some b → op H b (phs t) = CRelease (bowls_lock H) →
  plain (phs t) = true → (∀ l, still (phs t) (succ l (phs t))) → locked (phs t) = true →
  (∀ l, locked (succ l (phs t)) = false) →
  (∀ l, feeding (succ l (phs t)) = feeding (phs t)) → ends (phs t) = 0 → phs t ≠ B1 →
  awp t a catmouse_inv.
Proof.
  intros Hinv Hb Hop Hp Hst Hlk' Hlo Hfe Hen HB. eapply awp_beast; [done..|].
  intros l Hl He Hf _. unfold awp. asimpl. rewrite lookup_insert_eq, Hop.
  destruct (hi_lock _ _ Hinv) as (o & Ho & Hok). split; [by eexists|].
  apply jump_beast; [done..|]. intros l' Hl' Hm. asimpl.
  apply (beast_quiet a phs t b); try done.
  - by apply phase_unlocked.
  - by rewrite He, Hm, Hen, Z.add_0_r.
  - by rewrite Hf, Hfe.
  - exists 0. rewrite lookup_insert_eq. split; [done|]. by eapply lock_give.
Qed.

(** A statement on the structure. *)
Lemma step_act a phs t b f :
  house_inv a phs → beasts !! t = Some b → op H b (phs t) = CAct f → plain (phs t) = true →
  (∀ l m, local_ok (phs t) l → eaten (said (a_g a)) b = meals (phs t) l →
     eats (said (a_g a)) b = feeding (phs t) → phase_ok (b_who b) (phs t) (a_g a) → mem_ok m →
     wp (f l) (λ l1 w, mem_ok (wmem w) ∧ local_ok (phs t) l1 ∧ meals (phs t) l1 = meals (phs t) l ∧
       (phs t = B1 → free l1 = true) ∧
       ∀ l', local_ok (succ l1 (phs t)) l' →
         meals (succ l1 (phs t)) l' = meals (phs t) l + ends (phs t) →
         catmouse_inv (moved a (a_locks a) (a_cvs a) (wst w) t (state H b (succ l1 (phs t)) l')))
       (World (a_g a) m)) →
  awp t a catmouse_inv.
Proof.
  intros Hinv Hb Hop Hp Hwp. eapply awp_beast; [done..|]. intros l Hl He Hf Hpo. unfold awp. asimpl.
  rewrite lookup_insert_eq, Hop. intros m Hm. eapply wp_mono; [by apply (Hwp l m)|].
  intros l1 [h' m'] (Hm' & Hl1 & Hme & HB & Hinv'). split; [done|]. apply jump_beast; [done..|].
  intros l' Hl' Hml. specialize (Hinv' l' Hl'). rewrite Hme in Hml. specialize (Hinv' Hml).
  by asimpl.
Qed.

(** ** Tests *)

Lemma not_full w h : is_full w h = false ↔ busy_of (other w) h ≤ 0 ∧ busy_of w h ≠ 2.
Proof. unfold is_full, NFOODBOWLS. rewrite orb_false_iff, Z.ltb_ge, Z.eqb_neq. done. Qed.

(** A user of a bowl that does not hold the lock is counted. *)
Lemma user_counted ph i : uses ph = Some i → locked ph = false → counted ph = true.
Proof. by destruct ph. Qed.

Lemma busy_member a phs w u :
  house_inv a phs → in_phase phs w counted u → 0 < busy_of w (a_g a).
Proof.
  intros Hinv Hu%elem_at_bowls. destruct (hi_counts _ _ Hinv) as [Hc _]. destruct (Hc w) as [-> _].
  assert ({[u]} ⊆ at_bowls phs w) as Hsub%subseteq_size by set_solver.
  rewrite size_singleton in Hsub. lia.
Qed.

Lemma busy_two a phs w u v :
  house_inv a phs → in_phase phs w counted u → in_phase phs w counted v → u ≠ v →
  busy_of w (a_g a) = 2.
Proof.
  intros Hinv Hu%elem_at_bowls Hv%elem_at_bowls Hne.
  destruct (hi_counts _ _ Hinv) as [Hc _]. destruct (Hc w) as [Heq Hle].
  assert (list_to_set [u; v] ⊆ at_bowls phs w) as Hsub%subseteq_size by set_solver.
  rewrite size_list_to_set in Hsub; [cbn in Hsub; lia|]. apply NoDup_cons. split; [set_solver|apply NoDup_singleton].
Qed.

(** If there is room at the bowls, one of them is free. *)
Lemma bowl_free a phs t b :
  house_inv a phs → beasts !! t = Some b → locked (phs t) = true → uses (phs t) = None →
  is_full (b_who b) (a_g a) = false → lget (bowls (a_g a)) 0 ≠ Some 0 →
  lget (bowls (a_g a)) 1 = Some 0.
Proof.
  intros Hinv Hb Hl Hu Hfull Hx0. destruct (hi_bowls _ _ Hinv) as [_ Hi].
  destruct (Hi 0 ltac:(lia)) as (x0 & E0' & [[-> _]|[-> (u0 & (b0 & Hb0 & Hu0) & _)]]); [done|].
  destruct (Hi 1 ltac:(lia)) as (x1 & E1' & [[-> _]|[-> (u1 & (b1 & Hb1 & Hu1) & _)]]); [done|].
  exfalso. apply not_full in Hfull as [Hother Hmine]. apply Hmine.
  assert (∀ u bu i, beasts !! u = Some bu → uses (phs u) = Some i →
    in_phase phs (b_who b) counted u) as Hin.
  { intros u bu i Hbu Hui. assert (locked (phs u) = false) as Hlu.
    { destruct (locked (phs u)) eqn:E; [|done]. assert (t = u) as <- by (by eapply lock_alone). congruence. }
    assert (in_phase phs (b_who bu) counted u) as Hc by (exists bu; split_and!; [done..|by eapply user_counted]).
    destruct (decide (b_who bu = b_who b)) as [<-|Hw]; [done|].
    apply (busy_member a) in Hc; [|done]. exfalso. destruct (b_who bu), (b_who b); try done; cbn in *; lia. }
  apply (busy_two a phs _ u0 u1); [done|by eapply Hin|by eapply Hin|]. intros ->. congruence.
Qed.

(** A test leaves the structure as it is. *)
Lemma step_test a phs t b f g :
  house_inv a phs → beasts !! t = Some b → op H b (phs t) = CAct f → plain (phs t) = true →
  (∀ l (Q : local → world house → Prop) m, local_ok (phs t) l →
     phase_ok (b_who b) (phs t) (a_g a) → Q (g l) (World (a_g a) m) → wp (f l) Q (World (a_g a) m)) →
  (∀ l, local_ok (phs t) l → local_ok (phs t) (g l) ∧ meals (phs t) (g l) = meals (phs t) l) →
  (∀ l, local_ok (phs t) l → phase_ok (b_who b) (phs t) (a_g a) →
     still (phs t) (succ (g l) (phs t)) ∧ locked (succ (g l) (phs t)) = locked (phs t) ∧
     feeding (succ (g l) (phs t)) = feeding (phs t) ∧
     phase_ok (b_who b) (succ (g l) (phs t)) (a_g a) ∧ (phs t = B1 → free (g l) = true)) →
  ends (phs t) = 0 → awp t a catmouse_inv.
Proof.
  intros Hinv Hb Hop Hp Hf Hg Hs Hen. eapply (step_act a phs t b f); [done..|].
  intros l m Hl He Hfe Hpo Hm. apply Hf; [done..|]. cbn [wst wmem].
  destruct (Hg l Hl) as [Hl1 Hm1]. destruct (Hs l Hl Hpo) as (Hst & Hlo & Hfd & Hpo' & HB).
  split_and!; [done..|]. intros l' Hl' Hml. apply (beast_quiet a phs t b); try done.
  - rewrite He, Hml. lia.
  - congruence.
  - destruct (hi_lock _ _ Hinv) as (o & Ho & Hok). exists o. split; [done|]. by apply lock_same.
Qed.

Lemma step_T a phs t b :
  house_inv a phs → beasts !! t = Some b → phs t = T0 ∨ phs t = T1 → awp t a catmouse_inv.
Proof.
  intros Hinv Hb Hph.
  assert (op H b (phs t) = test_full (b_who b)) as Hop by (by destruct Hph as [-> | ->]).
  apply (step_test a phs t b _ (λ l, set_full (is_full (b_who b) (a_g a)) l) Hinv Hb Hop).
  - by destruct Hph as [-> | ->].
  - intros l Q m _ _ HQ. by kstep.
  - intros l. by destruct Hph as [-> | ->].
  - intros l _ _. destruct Hph as [-> | ->]; cbn; destruct (is_full (b_who b) (a_g a)) eqn:E;
      unfold still; cbn; split_and!; done.
  - by destruct Hph as [-> | ->].
Qed.

Lemma step_B0 a phs t b :
  house_inv a phs → beasts !! t = Some b → phs t = B0 → awp t a catmouse_inv.
Proof.
  intros Hinv Hb Hph. destruct (hi_bowls _ _ Hinv) as [_ Hi].
  destruct (Hi 0 ltac:(lia)) as (x & Hx & _).
  assert (op H b (phs t) = test_bowl) as Hop by (by rewrite Hph).
  apply (step_test a phs t b _ (λ l, set_free (x =? 0) l) Hinv Hb Hop); rewrite ?Hph; try done.
  - intros l Q m (_ & Hs & _) _ HQ. kstep. rewrite Hs. by rewrite (wp_kof _ x) by done.
  - intros l _ Hfull. cbn in *. destruct (Z.eqb_spec x 0) as [->|Hne]; unfold still; cbn;
      split_and!; try done. congruence.
Qed.

Lemma step_B1 a phs t b :
  house_inv a phs → beasts !! t = Some b → phs t = B1 → awp t a catmouse_inv.
Proof.
  intros Hinv Hb Hph.
  assert (phase_ok (b_who b) (phs t) (a_g a)) as Hpo by apply (hi_beasts _ _ Hinv t b Hb).
  rewrite Hph in Hpo. destruct Hpo as [Hfull Hx0].
  assert (lget (bowls (a_g a)) 1 = Some 0) as Hx1.
  { eapply (bowl_free a phs t b); try done; by rewrite Hph. }
  assert (op H b (phs t) = test_bowl) as Hop by (by rewrite Hph).
  apply (step_test a phs t b _ (λ l, set_free true l) Hinv Hb Hop); rewrite ?Hph; try done.
  intros l Q m (_ & Hs & _) _ HQ. kstep. rewrite Hs. by rewrite (wp_kof _ 0) by done.
Qed.

(** ** Messages *)

Lemma talk_cons m log b :
  talk (m :: log) b =
  if decide (mm_who m = b_who b ∧ mm_num m = b_num b) then m :: talk log b else talk log b.
Proof. unfold talk. by rewrite filter_cons. Qed.

Lemma talk_others m log t b u b' :
  beasts !! t = Some b → beasts !! u = Some b' → u ≠ t →
  mm_who m = b_who b → mm_num m = b_num b → talk (m :: log) b' = talk log b'.
Proof.
  intros Hb Hb' Hne Hw Hn. rewrite talk_cons, decide_False; [done|]. intros [Hw' Hn'].
  apply Hne. eapply (Hnum u t b' b); congruence.
Qed.

Lemma step_say a phs t b i :
  house_inv a phs → beasts !! t = Some b → phs t = E0 i ∨ phs t = E2 i → awp t a catmouse_inv.
Proof.
  intros Hinv Hb Hph.
  assert (op H b (phs t) = say (bool_decide (phs t = E0 i)) (b_who b) (b_num b)) as Hop
    by (destruct Hph as [-> | ->]; [by rewrite bool_decide_true|by rewrite bool_decide_false]).
  apply (step_act a phs t b _ Hinv Hb Hop); [by destruct Hph as [-> | ->]|].
  intros l m Hl He Hf _ Hm. kstep. split_and!; [done..|by destruct Hph as [-> | ->]|].
  intros l' Hl' Hml. apply (beast_quiet a phs t b); try done.
  - unfold still. by destruct Hph as [-> | ->]; split_and!.
  - by destruct Hph as [-> | ->].
  - rewrite Hml, <- He. unfold eaten. cbn [said set_said]. rewrite talk_cons, decide_True by done.
    rewrite filter_cons. cbn [mm_starts]. destruct Hph as [-> | ->].
    + rewrite bool_decide_true, decide_False by done. cbn. lia.
    + rewrite bool_decide_false, decide_True by done. cbn [length ends]. lia.
  - unfold eats. cbn [said set_said]. rewrite talk_cons, decide_True by done. cbn.
    destruct Hph as [Hph|Hph]; rewrite Hph in Hl |- *; [|done]. cbn in Hl |- *.
    destruct Hl as (_ & -> & _). by rewrite bool_decide_true.
  - intros u b' Hu Hne. by apply (talk_others _ _ t b u).
  - destruct (hi_lock _ _ Hinv) as (o & Ho & Hok). exists o. split; [done|].
    apply lock_same; [|done]. by destruct Hph as [-> | ->].
Qed.

(** ** Bowls *)

Lemma bowls_change phs t b ph' h h' i x x' :
  beasts !! t = Some b → 0 ≤ i < 2 → bowls_ok phs h →
  bowls h' = <[Z.to_nat i := x']> (bowls h) → lget (bowls h) i = Some x →
  (∀ j, 0 ≤ j < 2 → j ≠ i → uses (phs t) = Some j ↔ uses ph' = Some j) →
  (bowl_excl x (user phs i) → bowl_excl x' (user (<[t := ph']> phs) i)) →
  bowls_ok (<[t := ph']> phs) h'.
Proof.
  intros Hb Hi [Hlen Hall] Hb' Hx Hj Hex. split; [by rewrite Hb', length_insert|].
  intros j Hj'. destruct (Hall j Hj') as (y & Hy & He). rewrite Hb'.
  destruct (decide (j = i)) as [->|Hne].
  - exists x'. rewrite lget_insert_eq by (rewrite Hlen; lia). split; [done|]. apply Hex.
    by assert (y = x) as -> by congruence.
  - exists y. rewrite lget_insert_ne by lia. split; [done|]. eapply bowl_excl_ext; [|exact He].
    intros u. rewrite (user_move _ _ _ b) by done. case_decide; [subst|done].
    unfold user. rewrite <- Hj by done. naive_solver.
Qed.

Lemma step_G0 a phs t b i :
  house_inv a phs → beasts !! t = Some b → phs t = G0 i → awp t a catmouse_inv.
Proof.
  intros Hinv Hb Hph. assert (op H b (phs t) = store_bowl 1) as Hop by (by rewrite Hph).
  apply (step_act a phs t b _ Hinv Hb Hop); [by rewrite Hph|]. rewrite Hph.
  intros l m (Hit & Hs & Hfl & Hi) He Hf [Hfull Hx] Hm. cbn [ends succ]. kstep. rewrite Hs.
  rewrite (wp_kof _ (<[Z.to_nat i := 1]> (bowls (a_g a)))) by (apply lset_Some; by eapply lget_Some_range).
  kstep. split_and!; try done. intros l' Hl' Hml. rewrite Z.add_0_r in Hml.
  pose proof (others_unlocked a phs t b (set_bowls (<[Z.to_nat i := 1]> (bowls (a_g a))) (a_g a)) Hinv Hb) as Hou.
  eexists. apply beast_move; try done; rewrite ?Hph; try done.
  - by rewrite Hml.
  - apply Hou. by rewrite Hph.
  - destruct (hi_lock _ _ Hinv) as (o & Ho & Hok). exists o. split; [done|].
    apply lock_same; [|done]. by rewrite Hph.
  - apply (cvs_same a); by rewrite ?Hph.
  - eapply bowls_change; [done..|apply Hinv|done|done| |].
    + intros j Hj Hne. rewrite Hph. cbn. split; congruence.
    + intros [[_ Hno]|[? _]]; [|done]. right. split; [done|]. exists t.
      rewrite (user_move _ _ _ b), decide_True by done. split; [done|]. intros u.
      rewrite (user_move _ _ _ b) by done. case_decide; [done|]. by intros ?%Hno.
  - eapply counts_same; [by rewrite Hph|done..|apply Hinv].
  - eapply waits_same; rewrite ?Hph; try done. apply Hinv.
Qed.

Lemma step_X2 a phs t b i :
  house_inv a phs → beasts !! t = Some b → phs t = X2 i → awp t a catmouse_inv.
Proof.
  intros Hinv Hb Hph. assert (op H b (phs t) = store_bowl 0) as Hop by (by rewrite Hph).
  apply (step_act a phs t b _ Hinv Hb Hop); [by rewrite Hph|]. rewrite Hph.
  intros l m (Hit & Hs & Hfl & Hi) He Hf _ Hm. cbn [ends succ]. kstep. rewrite Hs.
  destruct (hi_bowls _ _ Hinv) as [Hlen Hall]. destruct (Hall i Hi) as (x & Hx & _).
  rewrite (wp_kof _ (<[Z.to_nat i := 0]> (bowls (a_g a)))) by (apply lset_Some; by eapply lget_Some_range).
  kstep. split_and!; try done. intros l' Hl' Hml. rewrite Z.add_0_r in Hml.
  pose proof (others_unlocked a phs t b (set_bowls (<[Z.to_nat i := 0]> (bowls (a_g a))) (a_g a)) Hinv Hb) as Hou.
  eexists. apply beast_move; try done; rewrite ?Hph; try done.
  - by rewrite Hml.
  - apply Hou. by rewrite Hph.
  - destruct (hi_lock _ _ Hinv) as (o & Ho & Hok). exists o. split; [done|].
    apply lock_same; [|done]. by rewrite Hph.
  - apply (cvs_same a); by rewrite ?Hph.
  - eapply bowls_change; [done..|done|done|done| |].
    + intros j Hj Hne. rewrite Hph. cbn. split; congruence.
    + intros Hex. left. split; [done|]. intros u. rewrite (user_move _ _ _ b) by done.
      case_decide as Hut; [done|]. intros Hu. apply Hut. eapply bowl_excl_unique; [exact Hex|done|].
      exists b. by rewrite Hph.
  - eapply counts_same; [by rewrite Hph|done..|apply Hinv].
  - eapply waits_same; rewrite ?Hph; try done. apply Hinv.
Qed.

(** ** Counts *)

Lemma busy_set w x h : busy_of w (set_busy w x h) = x.
Proof. by destruct w. Qed.

Lemma busy_set_other w x h : busy_of (other w) (set_busy w x h) = busy_of (other w) h.
Proof. by destruct w. Qed.

Lemma kinds w k : k = w ∨ k = other w.
Proof. destruct w, k; auto. Qed.

Lemma other_other w : other (other w) = w.
Proof. by destruct w. Qed.

Lemma busy_bounds a phs w : house_inv a phs → 0 ≤ busy_of w (a_g a) ≤ 2.
Proof. intros Hinv. destruct (hi_counts _ _ Hinv) as [Hc _]. destruct (Hc w). lia. Qed.

(** Only the holder of the lock can be about to wake somebody. *)
Lemma no_pending a phs t b w h :
  house_inv a phs → beasts !! t = Some b → locked (phs t) = true →
  tells_own (phs t) = false → tells_other (phs t) = false → ¬ pending phs h w.
Proof.
  intros Hinv Hb Hl H1 H2 (u & [(b' & Hu & _ & Ht)|[(b' & Hu & _ & Ht) _]]).
  - assert (t = u) as <-; [|congruence]. eapply lock_alone; [done..|]. by destruct (phs u).
  - assert (t = u) as <-; [|congruence]. eapply lock_alone; [done..|]. by destruct (phs u).
Qed.

Lemma counts_intro phs h w :
  (∀ k, busy_of k h = Z.of_nat (base.size (at_bowls phs k)) ∧ busy_of k h ≤ 2) →
  busy_of w h = 0 ∨ busy_of (other w) h = 0 → counts_ok phs h.
Proof. intros H1 H2. split; [done|]. destruct w; cbn in H2; tauto. Qed.

Lemma step_G1 a phs t b i :
  house_inv a phs → beasts !! t = Some b → phs t = G1 i → awp t a catmouse_inv.
Proof.
  intros Hinv Hb Hph. assert (op H b (phs t) = incr_busy (b_who b)) as Hop by (by rewrite Hph).
  apply (step_act a phs t b _ Hinv Hb Hop); [by rewrite Hph|].
  intros l m Hl He Hf Hpo Hm. rewrite Hph in *. cbn in Hpo. apply not_full in Hpo as [Ho Hne].
  pose proof (busy_bounds a phs (b_who b) Hinv). pose proof (busy_bounds a phs (other (b_who b)) Hinv).
  cbn [ends succ]. kstep. rewrite i32_id by lia. split_and!; try done. intros l' Hl' Hml.
  rewrite Z.add_0_r in Hml. set (h' := set_busy _ _ _).
  assert (busy_of (b_who b) h' = busy_of (b_who b) (a_g a) + 1) as Hb1 by apply busy_set.
  assert (busy_of (other (b_who b)) h' = busy_of (other (b_who b)) (a_g a)) as Hb2 by apply busy_set_other.
  assert (bowls h' = bowls (a_g a) ∧ said h' = said (a_g a)) as [Hbw Hsd] by (subst h'; by destruct (b_who b)).
  destruct (hi_counts _ _ Hinv) as [Hc _].
  eexists. apply beast_move; try done; rewrite ?Hph, ?Hsd; try done.
  - by rewrite Hml.
  - apply (others_unlocked a phs t b h' Hinv Hb). by rewrite Hph.
  - destruct (hi_lock _ _ Hinv) as (o & Ho' & Hok). exists o. split; [done|].
    apply lock_same; [|done]. by rewrite Hph.
  - apply (cvs_same a); by rewrite ?Hph.
  - eapply bowls_same; [by rewrite Hph|done|apply Hinv].
  - apply (counts_intro _ _ (b_who b)); [|right; lia]. intros k. destruct (Hc k) as [Hk1 Hk2].
    destruct (kinds (b_who b) k) as [-> | ->].
    + rewrite at_bowls_enter by (done || by rewrite Hph). lia.
    + rewrite (at_bowls_other _ _ _ b) by (done || by destruct (b_who b)). lia.
  - intros k u. rewrite in_phase_same by (by rewrite Hph). intros Hu%(hi_waits _ _ Hinv).
    destruct (kinds (b_who b) k) as [-> | ->].
    + destruct Hu as [Hfull|Hp]; [|by eapply no_pending in Hp; rewrite ?Hph].
      assert (is_full (b_who b) (a_g a) = false) by (by apply not_full). congruence.
    + left. unfold is_full. rewrite other_other, Hb1.
      assert (0 <? busy_of (b_who b) (a_g a) + 1 = true) as -> by lia. done.
Qed.

Lemma step_X1 a phs t b i :
  house_inv a phs → beasts !! t = Some b → phs t = X1 i → awp t a catmouse_inv.
Proof.
  intros Hinv Hb Hph. assert (op H b (phs t) = decr_busy (b_who b)) as Hop by (by rewrite Hph).
  apply (step_act a phs t b _ Hinv Hb Hop); [by rewrite Hph|].
  intros l m Hl He Hf Hpo Hm. rewrite Hph in *. clear Hpo.
  pose proof (busy_bounds a phs (b_who b) Hinv). pose proof (busy_bounds a phs (other (b_who b)) Hinv).
  cbn [ends succ]. kstep. rewrite i32_id by lia. split_and!; try done. intros l' Hl' Hml.
  rewrite Z.add_0_r in Hml. set (h' := set_busy _ _ _).
  assert (busy_of (b_who b) h' = busy_of (b_who b) (a_g a) - 1) as Hb1 by apply busy_set.
  assert (busy_of (other (b_who b)) h' = busy_of (other (b_who b)) (a_g a)) as Hb2 by apply busy_set_other.
  assert (bowls h' = bowls (a_g a) ∧ said h' = said (a_g a)) as [Hbw Hsd] by (subst h'; by destruct (b_who b)).
  destruct (hi_counts _ _ Hinv) as [Hc Hz].
  assert (0 < busy_of (b_who b) (a_g a)) as Hpos.
  { eapply (busy_member a phs _ t); [done|]. exists b. by rewrite Hph. }
  eexists. apply beast_move; try done; rewrite ?Hph, ?Hsd; try done.
  - by rewrite Hml.
  - apply (others_unlocked a phs t b h' Hinv Hb). by rewrite Hph.
  - destruct (hi_lock _ _ Hinv) as (o & Ho' & Hok). exists o. split; [done|].
    apply lock_same; [|done]. by rewrite Hph.
  - apply (cvs_same a); by rewrite ?Hph.
  - eapply bowls_same; [by rewrite Hph|done|apply Hinv].
  - apply (counts_intro _ _ (b_who b)); [|right; destruct (b_who b); cbn in *; lia].
    intros k. destruct (Hc k) as [Hk1 Hk2]. destruct (kinds (b_who b) k) as [-> | ->].
    + rewrite (at_bowls_leave _ t b (X2 i)) in Hk1 by (done || by rewrite Hph). lia.
    + rewrite (at_bowls_other _ _ _ b) by (done || by destruct (b_who b)). lia.
  - intros k u. rewrite in_phase_same by (by rewrite Hph). intros Hu%(hi_waits _ _ Hinv).
    destruct Hu as [Hfull|Hp]; [|by eapply no_pending in Hp; rewrite ?Hph].
    destruct (kinds (b_who b) k) as [-> | ->].
    + right. exists t. left. rewrite (in_phase_move _ _ _ _ b), decide_True by done. done.
    + destruct (decide (busy_of (b_who b) h' = 0)) as [Hz'|Hz'].
      * right. exists t. right. rewrite (in_phase_move _ _ _ _ b), decide_True, other_other by done. done.
      * left. unfold is_full. rewrite other_other, Hb1.
        assert (0 <? busy_of (b_who b) (a_g a) - 1 = true) as -> by lia. done.
Qed.

(** ** Waking *)

(** A move inside the critical section that concerns the waiting animals only. *)
Lemma settle_move a phs t b l' ph' :
  house_inv a phs → beasts !! t = Some b →
  uses ph' = uses (phs t) → counted ph' = counted (phs t) → locked ph' = locked (phs t) →
  phs t ≠ Wt → ph' ≠ Wt → local_ok ph' l' → (∀ h, phase_ok (b_who b) ph' h) →
  eaten (said (a_g a)) b = meals ph' l' → eats (said (a_g a)) b = feeding ph' →
  waits_ok (<[t := ph']> phs) (a_g a) →
  catmouse_inv (moved a (a_locks a) (a_cvs a) (a_g a) t (state H b ph' l')).
Proof.
  intros Hinv Hb Hu Hc Hl H1 H2 Hlo Hpo He Hf Hw. eexists. apply beast_move; try done.
  - destruct (hi_lock _ _ Hinv) as (o & Ho & Hok). exists o. split; [done|]. by apply lock_same.
  - by apply (cvs_same a).
  - by eapply bowls_same, Hinv.
  - by eapply counts_same, Hinv.
Qed.

(** What the holder of the lock can have pending. *)
Lemma pending_holder a phs t b w h :
  house_inv a phs → beasts !! t = Some b → locked (phs t) = true → pending phs h w →
  b_who b = w ∧ tells_own (phs t) = true ∨
  b_who b = other w ∧ tells_other (phs t) = true ∧ busy_of (other w) h = 0.
Proof.
  intros Hinv Hb Hl (u & [(b' & Hu & Hw & Ht)|[(b' & Hu & Hw & Ht) Hz]]).
  - assert (t = u) as <- by (eapply lock_alone; [done..|]; by destruct (phs u)).
    left. split; [congruence|done].
  - assert (t = u) as <- by (eapply lock_alone; [done..|]; by destruct (phs u)).
    right. split; [congruence|done].
Qed.

Lemma step_X4 a phs t b i :
  house_inv a phs → beasts !! t = Some b → phs t = X4 i → awp t a catmouse_inv.
Proof.
  intros Hinv Hb Hph. assert (op H b (phs t) = test_last (b_who b)) as Hop by (by rewrite Hph).
  apply (step_act a phs t b _ Hinv Hb Hop); [by rewrite Hph|].
  intros l m Hl He Hf Hpo Hm. kstep. rewrite Hph in Hl, He, Hf |- *.
  split_and!; try done. cbn [succ last set_last ends]. intros l' Hl' Hml. rewrite Z.add_0_r in Hml.
  destruct (Z.eqb_spec (busy_of (b_who b) (a_g a)) 0) as [Hz|Hz].
  - apply (settle_move a phs t b); rewrite ?Hph; try done; [by rewrite Hml|].
    eapply waits_same; rewrite ?Hph; try done. apply Hinv.
  - apply (settle_move a phs t b); rewrite ?Hph; try done; [by rewrite Hml|].
    intros k u. rewrite in_phase_same by (by rewrite Hph). intros Hu%(hi_waits _ _ Hinv). left.
    destruct Hu as [|Hp]; [done|]. exfalso. eapply pending_holder in Hp; [|done..|by rewrite Hph].
    rewrite Hph in Hp. destruct Hp as [[_ ?]|(Hw & _ & Hz')]; [done|]. congruence.
Qed.

Lemma awaken_twice (x : actl local house) : awaken (awaken x) = awaken x.
Proof. by destruct x. Qed.

Lemma lookup_awaken_all q (m : gmap Z (actl local house)) t :
  awaken_all q m !! t = if decide (t ∈ q) then awaken <$> m !! t else m !! t.
Proof.
  unfold awaken_all. revert m. induction q as [|u q IH]; intros m; cbn [foldl].
  { rewrite decide_False; [done|]. apply not_elem_of_nil. }
  rewrite IH. destruct (decide (t = u)) as [->|Hne].
  - rewrite lookup_alter_eq, (decide_True (P := u ∈ u :: q)) by (by left).
    case_decide; [|done]. destruct (m !! u) as [x|]; [|done]. cbn. by rewrite awaken_twice.
  - rewrite lookup_alter_ne by done.
    destruct (decide (t ∈ q)) as [Hin|Hin]; [rewrite decide_True by (by right)|
      rewrite decide_False by (rewrite elem_of_cons; naive_solver)]; done.
Qed.

(** The phases after the animals of [q] have been woken. *)
Definition wake_phases (q : list Z) phs (u : Z) : phase := if decide (u ∈ q) then R0 else phs u.

Lemma wake_phases_same {A} (f : phase → A) q phs w u :
  cv_ok phs w q → f R0 = f Wt → f (wake_phases q phs u) = f (phs u).
Proof.
  intros Hq Hf. unfold wake_phases. destruct (decide (u ∈ q)) as [Hin|]; [|done].
  apply Hq in Hin as (b & _ & _ & Hph). apply bool_decide_eq_true in Hph. by rewrite Hph.
Qed.

Lemma wake_in_phase P q phs w k u :
  cv_ok phs w q → P R0 = P Wt → in_phase (wake_phases q phs) k P u ↔ in_phase phs k P u.
Proof.
  intros Hq HP. unfold in_phase. apply exist_proper. intros b.
  by rewrite (wake_phases_same P q phs w).
Qed.

Lemma wake_waiting q phs w k u :
  cv_ok phs w q →
  in_phase (wake_phases q phs) k (λ ph, bool_decide (ph = Wt)) u ↔
  in_phase phs k (λ ph, bool_decide (ph = Wt)) u ∧ k ≠ w.
Proof.
  intros Hq. unfold in_phase at 1, wake_phases. destruct (decide (u ∈ q)) as [Hin|Hin].
  - apply Hq in Hin as (b & Hb & Hw & _). split; [by intros (? & _ & _ & [=])|].
    intros [(b' & Hb' & Hk & _) Hne]. congruence.
  - rewrite (Hq u) in Hin. split; [|by intros [(b & ?) _]; exists b].
    intros Hu. split; [done|]. intros ->. by apply Hin.
Qed.

Lemma wake_inv a phs w q :
  house_inv a phs → a_cvs a !! spot H w = Some q → cv_ok phs w q →
  house_inv (set_athr (awaken_all q (a_thr a)) (set_acvs (<[spot H w := []]> (a_cvs a)) a))
    (wake_phases q phs).
Proof.
  intros [Hbs Hdom (o & Ho & Hlo) Hcv [Hlen Hbow] [Hcnt Hz] Hwait] Hq Hok.
  split; cbn [set_athr set_acvs a_locks a_cvs a_g a_thr].
  - intros t b Hb. destruct (Hbs t b Hb) as (Hpo & l & Hx & Hl & He & Hf).
    unfold beast_ok. split.
    { unfold wake_phases. by destruct (decide (t ∈ q)). }
    exists l. rewrite lookup_awaken_all, Hx. unfold wake_phases.
    destruct (decide (t ∈ q)) as [Hin|]; [|done].
    apply Hok in Hin as (b' & Hb' & Hw & Hph). apply bool_decide_eq_true in Hph.
    by rewrite Hph in Hl, He, Hf |- *.
  - rewrite <- Hdom. apply set_eq. intros t. rewrite !elem_of_dom, lookup_awaken_all.
    destruct (decide (t ∈ q)); [|done]. by rewrite fmap_is_Some.
  - exists o. split; [done|]. destruct Hlo as [H1 H2]. split; [done|]. intros t b Hb.
    by rewrite (wake_phases_same locked q phs w), (H2 t b).
  - intros k. destruct (decide (k = w)) as [->|Hne].
    + exists []. rewrite lookup_insert_eq. split; [done|]. intros u. rewrite wake_waiting by done.
      split; [by intros ?%not_elem_of_nil|tauto].
    + destruct (Hcv k) as (q' & Hq' & Hok'). exists q'. rewrite lookup_insert_ne.
      * split; [done|]. intros u. rewrite wake_waiting, (Hok' u) by done. tauto.
      * destruct w, k; try done.
  - split; [done|]. intros i Hi. destruct (Hbow i Hi) as (x & Hx & He). exists x. split; [done|].
    eapply bowl_excl_ext; [|exact He]. intros u. unfold user.
    by rewrite (wake_phases_same uses q phs w).
  - split; [|done]. intros k. assert (at_bowls (wake_phases q phs) k = at_bowls phs k) as ->; [|apply Hcnt].
    apply set_eq. intros u. rewrite !elem_at_bowls. by eapply wake_in_phase.
  - intros k u Hu. apply (wake_waiting q phs w) in Hu as [Hu Hne]; [|done]. destruct (Hwait k u Hu) as [|(v & Hv)]; [by left|].
    right. exists v. by rewrite !(wake_in_phase _ q phs w).
Qed.

(** A broadcast, and the move of the thread that makes it. *)
Lemma step_broadcast a phs t b w ph' :
  house_inv a phs → beasts !! t = Some b → plain (phs t) = true → phs t ≠ B1 →
  op H b (phs t) = CBroadcast (spot H w) (bowls_lock H) → (∀ l, succ l (phs t) = ph') →
  uses ph' = uses (phs t) → counted ph' = counted (phs t) → locked ph' = locked (phs t) →
  phs t ≠ Wt → ph' ≠ Wt → (∀ h, phase_ok (b_who b) ph' h) → feeding ph' = feeding (phs t) →
  ends (phs t) = 0 →
  (∀ q, waits_ok (wake_phases q phs) (a_g a) → (∀ u, ¬ in_phase (wake_phases q phs) w (λ ph, bool_decide (ph = Wt)) u) →
     wake_phases q phs t = phs t →
     house_inv (set_athr (awaken_all q (a_thr a)) (set_acvs (<[spot H w := []]> (a_cvs a)) a))
       (wake_phases q phs) →
     waits_ok (<[t := ph']> (wake_phases q phs)) (a_g a)) →
  awp t a catmouse_inv.
Proof.
  intros Hinv Hb Hp HB Hop Hsucc Hu Hc Hl H1 H2 Hpo Hfe Hen Hwt.
  destruct (hi_beasts _ _ Hinv t b Hb) as (_ & l & Hx & Hlo & He & Hf).
  destruct (meal_op H b (phs t)) as (k & Hk); [by intros E; rewrite E in Hp|].
  assert (state H b (phs t) l = ARun l (kont H b (phs t))) as Hs by (by destruct (phs t)).
  unfold awp. rewrite Hx, Hs, Hk, Hop. split; [done|]. destruct (hi_cvs _ _ Hinv w) as (q & Hq & Hok).
  exists q. split; [done|]. assert (k = tail (kont H b (phs t))) as -> by (by rewrite Hk).
  pose proof (wake_inv a phs w q Hinv Hq Hok) as Hinv'.
  assert (wake_phases q phs t = phs t) as Ht.
  { unfold wake_phases. rewrite decide_False; [done|]. intros (b' & _ & _ & E)%Hok.
    by apply bool_decide_eq_true in E. }
  apply jump_beast; [done..|]. intros l' Hl' Hml. rewrite Hsucc in *. rewrite Hen, Z.add_0_r in Hml.
  apply (settle_move _ (wake_phases q phs) t b); rewrite ?Ht; try done.
  - by rewrite Hml.
  - by rewrite Hfe.
  - apply Hwt; [apply Hinv'| |done|done]. intros u Hu1. by apply (wake_waiting q phs w) in Hu1 as [_ Hne].
Qed.

Lemma step_X3 a phs t b i :
  house_inv a phs → beasts !! t = Some b → phs t = X3 i → awp t a catmouse_inv.
Proof.
  intros Hinv Hb Hph. eapply (step_broadcast a phs t b (b_who b) (X4 i)); rewrite ?Hph; try done.
  intros q Hw Hno Ht Hinv' k u. rewrite in_phase_same by (by rewrite Ht).
  intros Hu. destruct (kinds (b_who b) k) as [-> | ->]; [by apply Hno in Hu|].
  destruct (Hw _ _ Hu) as [|Hp]; [by left|right].
  eapply pending_holder in Hp; [|exact Hinv'|done|by rewrite Ht].
  destruct Hp as [[Hw' _]|(Hw' & _ & Hz)]; [by destruct (b_who b)|].
  exists t. right. split; [|done]. rewrite (in_phase_move _ _ _ _ b), decide_True by done. done.
Qed.

Lemma step_X5 a phs t b i :
  house_inv a phs → beasts !! t = Some b → phs t = X5 i → awp t a catmouse_inv.
Proof.
  intros Hinv Hb Hph. eapply (step_broadcast a phs t b (other (b_who b)) (X6 i)); rewrite ?Hph; try done.
  intros q Hw Hno Ht Hinv' k u. rewrite in_phase_same by (by rewrite Ht).
  intros Hu. destruct (kinds (b_who b) k) as [-> | ->]; [|by apply Hno in Hu].
  destruct (Hw _ _ Hu) as [|Hp]; [by left|exfalso].
  eapply pending_holder in Hp; [|exact Hinv'|done|by rewrite Ht].
  rewrite Ht in Hp. destruct Hp as [[_ ?]|(Hw' & _)]; [done|by destruct (b_who b)].
Qed.

(** ** Waiting, eating, starting *)

Lemma step_W0 a phs t b :
  house_inv a phs → beasts !! t = Some b → phs t = W0 → awp t a catmouse_inv.
Proof.
  intros Hinv Hb Hph. destruct (hi_beasts _ _ Hinv t b Hb) as (Hpo & l & Hx & Hl & He & Hf).
  rewrite Hph in *. unfold awp. rewrite Hx. cbn [state kont].
  destruct (hi_lock _ _ Hinv) as (o & Ho & Hok). split; [by eexists|].
  destruct (hi_cvs _ _ Hinv (b_who b)) as (q & Hq & Hcv). exists q. split; [done|].
  eexists (<[t := Wt]> phs).
  apply (beast_move a phs t b l Wt (<[bowls_lock H := 0]> (a_locks a))
    (<[spot H (b_who b) := q ++ [t]]> (a_cvs a)) (a_g a)); try done.
  - exists 0. rewrite lookup_insert_eq. split; [done|]. eapply lock_give; try done. by rewrite Hph.
  - intros k. destruct (decide (k = b_who b)) as [->|Hne].
    + exists (q ++ [t]). rewrite lookup_insert_eq. split; [done|]. intros u.
      rewrite elem_of_app, list_elem_of_singleton, (Hcv u), (in_phase_move _ _ _ _ b) by done.
      case_decide; [|tauto]. subst. split; [|tauto]. intros _. done.
    + destruct (hi_cvs _ _ Hinv k) as (q' & Hq' & Hcv'). exists q'. rewrite lookup_insert_ne.
      * split; [done|]. intros u. rewrite (Hcv' u), (in_phase_move _ _ _ _ b) by done.
        case_decide; [|done]. subst. unfold in_phase. rewrite Hph. naive_solver.
      * destruct (b_who b), k; try done.
  - eapply bowls_same; [by rewrite Hph|done|apply Hinv].
  - eapply counts_same; [by rewrite Hph|done..|apply Hinv].
  - intros k u. rewrite (in_phase_move _ _ _ _ b) by done. case_decide.
    + intros [<- _]. by left.
    + intros [|(v & Hv)]%(hi_waits _ _ Hinv); [by left|right]. exists v.
      by rewrite !in_phase_same by (by rewrite Hph).
Qed.

Lemma step_E1 a phs t b i :
  house_inv a phs → beasts !! t = Some b → phs t = E1 i → awp t a catmouse_inv.
Proof.
  intros Hinv Hb Hph. destruct (hi_beasts _ _ Hinv t b Hb) as (Hpo & l & Hx & Hl & He & Hf).
  rewrite Hph in *. unfold awp. rewrite Hx.
  apply (beast_quiet a phs t b l (Ec i) (a_locks a) (a_g a)); rewrite ?Hph; try done.
  destruct (hi_lock _ _ Hinv) as (o & Ho & Hok). exists o. split; [done|].
  apply lock_same; [|done]. by rewrite Hph.
Qed.

Lemma step_Ec a phs t b i :
  house_inv a phs → beasts !! t = Some b → phs t = Ec i → awp t a catmouse_inv.
Proof.
  intros Hinv Hb Hph. destruct (hi_beasts _ _ Hinv t b Hb) as (Hpo & l & Hx & Hl & He & Hf).
  rewrite Hph in *. unfold awp. rewrite Hx. cbn [state].
  change (jump t l (kont H b (Ec i)) a catmouse_inv). unfold jump. rewrite kont_clock.
  apply (beast_quiet a phs t b l (E2 i) (a_locks a) (a_g a)); rewrite ?Hph; try done.
  destruct (hi_lock _ _ Hinv) as (o & Ho & Hok). exists o. split; [done|].
  apply lock_same; [|done]. by rewrite Hph.
Qed.

Lemma step_start a phs t b :
  house_inv a phs → beasts !! t = Some b → phs t = Start → awp t a catmouse_inv.
Proof.
  intros Hinv Hb Hph. destruct (hi_beasts _ _ Hinv t b Hb) as (Hpo & l & Hx & Hl & He & Hf).
  rewrite Hph in *. destruct (meal_start H b l) as (l' & Hn & Hl' & Hm).
  assert (jump t l (kont H b Start) a catmouse_inv) as Hj.
  { unfold jump. rewrite Hn.
    apply (beast_quiet a phs t b l' L0 (a_locks a) (a_g a)); rewrite ?Hph; try done; [by rewrite Hm|].
    destruct (hi_lock _ _ Hinv) as (o & Ho & Hok). exists o. split; [done|].
    apply lock_same; [|done]. by rewrite Hph. }
  unfold awp. rewrite Hx. by destruct b as [[] n].
Qed.

(** ** The invariant is preserved by every step of every animal *)

Ltac phase_tac := intros; unfold still; cbn; repeat case_match; first [done|split_and!; done].

Lemma beast_step a phs t b :
  house_inv a phs → beasts !! t = Some b → awp t a catmouse_inv.
Proof.
  intros Hinv Hb. destruct (hi_beasts _ _ Hinv t b Hb) as (_ & l & Hx & _).
  destruct (phs t) eqn:Hph;
    try (apply (step_acquire a phs t b Hinv Hb); rewrite Hph; [done|done|phase_tac..|done|done]);
    try (apply (step_release a phs t b Hinv Hb); rewrite Hph; [done|done|phase_tac|done|phase_tac..|done|done]).
  - eapply step_start; eauto.
  - eapply step_T; eauto.
  - eapply step_W0; eauto.
  - unfold awp. by rewrite Hx.
  - eapply step_T; eauto.
  - eapply step_B0; eauto.
  - eapply step_B1; eauto.
  - eapply step_G0; eauto.
  - eapply step_G1; eauto.
  - eapply step_say; eauto.
  - eapply step_E1; eauto.
  - eapply step_Ec; eauto.
  - eapply step_say; eauto.
  - eapply step_X1; eauto.
  - eapply step_X2; eauto.
  - eapply step_X3; eauto.
  - eapply step_X4; eauto.
  - eapply step_X5; eauto.
  - unfold awp. by rewrite Hx.
Qed.

Theorem catmouse_ainv : ainv catmouse_inv.
Proof.
  intros a t (phs & Hinv). destruct (beasts !! t) as [b|] eqn:Hb; [by eapply beast_step|].
  unfold awp. assert (a_thr a !! t = None) as ->; [|done].
  apply not_elem_of_dom. rewrite (hi_dom _ _ Hinv). by apply not_elem_of_dom.
Qed.

(** ** What the invariant says *)

(** Animals that eat at the same time are of one kind and eat from different
    bowls. *)
Lemma inv_peace a t u b b' i j :
  catmouse_inv a → beasts !! t = Some b → beasts !! u = Some b' → t ≠ u →
  eats (said (a_g a)) b = Some i → eats (said (a_g a)) b' = Some j →
  b_who b = b_who b' ∧ i ≠ j ∧ (i = 1 ∨ i = 2).
Proof.
  intros (phs & Hinv) Hb Hb' Hne Hi Hj.
  destruct (hi_beasts _ _ Hinv t b Hb) as (_ & l & _ & Hl & _ & Hf). rewrite Hi in Hf.
  destruct (hi_beasts _ _ Hinv u b' Hb') as (_ & l' & _ & Hl' & _ & Hf'). rewrite Hj in Hf'.
  assert (∀ ph k, feeding ph = Some k → counted ph = true ∧ uses ph = Some (k - 1)) as Hfe.
  { intros ph k. destruct ph; try done; intros [= <-]; cbn; (split; [done|f_equal; lia]). }
  destruct (Hfe _ _ (eq_sym Hf)) as [Hc1 Hu1]. destruct (Hfe _ _ (eq_sym Hf')) as [Hc2 Hu2].
  assert (1 ≤ i ≤ 2) as Hi12 by (destruct (phs t); try done; injection Hf as ->; cbn in Hl; lia).
  split_and!; [| |lia].
  - destruct (decide (b_who b = b_who b')) as [|Hw]; [done|exfalso].
    assert (0 < busy_of (b_who b) (a_g a)) by (eapply (busy_member a phs _ t); [done|by exists b]).
    assert (0 < busy_of (b_who b') (a_g a)) by (eapply (busy_member a phs _ u); [done|by exists b']).
    destruct (hi_counts _ _ Hinv) as [_ Hz]. destruct (b_who b), (b_who b'); try done; cbn in *; lia.
  - intros ->. apply Hne. destruct (hi_bowls _ _ Hinv) as [_ Hall].
    destruct (Hall (j - 1) ltac:(lia)) as (x & _ & Hex).
    eapply bowl_excl_unique; [exact Hex|by exists b|by exists b'].
Qed.

Lemma inv_busy a :
  catmouse_inv a → (busycat (a_g a) = 0 ∨ busymouse (a_g a) = 0) ∧
    0 ≤ busycat (a_g a) ≤ 2 ∧ 0 ≤ busymouse (a_g a) ≤ 2.
Proof.
  intros (phs & Hinv). split; [apply (hi_counts _ _ Hinv)|].
  split; [apply (busy_bounds a phs Cat Hinv)|apply (busy_bounds a phs Mouse Hinv)].
Qed.

Lemma inv_meals a t b :
  catmouse_inv a → beasts !! t = Some b →
  0 ≤ eaten (said (a_g a)) b ≤ 4 ∧ (finished a t → eaten (said (a_g a)) b = 4).
Proof.
  intros (phs & Hinv) Hb. destruct (hi_beasts _ _ Hinv t b Hb) as (_ & l & Hx & Hl & He & _).
  rewrite He. split.
  - destruct (phs t); cbn in *; lia.
  - intros (l' & Hf). rewrite Hx in Hf. destruct (phs t); cbn in *; try done;
      by destruct b as [[] n].
Qed.

(** ** No deadlock *)

Lemma inv_all_fed a :
  catmouse_inv a →
  (∀ t, t ∈ dom beasts → finished a t ∨ blocked a t) → ∀ t, t ∈ dom beasts → finished a t.
Proof.
  intros (phs & Hinv) Hall.
  assert (∀ t b, beasts !! t = Some b → phs t = Finished ∨ phs t = Wt ∨
    op H b (phs t) = CAcquire (bowls_lock H) ∧ ∃ o, a_locks a !! bowls_lock H = Some o ∧ o ≠ 0) as Hst.
  { intros t b Hb. destruct (hi_beasts _ _ Hinv t b Hb) as (_ & l & Hx & _).
    destruct (Hall t) as [(l' & Hf)|Hbl]; [by eapply elem_of_dom_2| |].
    - rewrite Hx in Hf. destruct (phs t); try (by left); by destruct b as [[] n].
    - unfold blocked in Hbl. rewrite Hx in Hbl.
      destruct (phs t); try (by left); try (by right; left); try (by right; right);
        by destruct b as [[] n]. }
  destruct (hi_lock _ _ Hinv) as (o & Ho & Hoo & Hok).
  assert (o = 0) as ->.
  { destruct Hoo as [|[b Hb]]; [done|]. pose proof (proj2 (Hok o b Hb) eq_refl) as Hl.
    destruct (Hst o b Hb) as [E|[E|[E _]]]; [by rewrite E in Hl|by rewrite E in Hl|].
    by destruct (phs o). }
  assert (∀ t b, beasts !! t = Some b → phs t = Finished ∨ phs t = Wt) as Hst'.
  { intros t b Hb. destruct (Hst t b Hb) as [|[|(_ & o & Ho' & Hne)]]; [by left|by right|]. congruence. }
  assert (∀ w, busy_of w (a_g a) = 0) as Hz.
  { intros w. destruct (hi_counts _ _ Hinv) as [Hc _]. destruct (Hc w) as [-> _].
    assert (at_bowls phs w = ∅) as ->; [|done]. apply set_eq. intros u. rewrite elem_at_bowls.
    split; [|by intros ?%elem_of_empty]. intros (b & Hb & _ & Hcu).
    destruct (Hst' u b Hb) as [E|E]; by rewrite E in Hcu. }
  intros t [b Hb]%elem_of_dom. destruct (hi_beasts _ _ Hinv t b Hb) as (_ & l & Hx & _).
  destruct (Hst' t b Hb) as [E|E]; [exists l; by rewrite E in Hx|exfalso].
  destruct (hi_waits _ _ Hinv (b_who b) t) as [Hf|(u & Hu)].
  - exists b. by rewrite E.
  - unfold is_full in Hf. by rewrite !Hz in Hf.
  - destruct Hu as [(b' & Hb' & _ & Ht)|[(b' & Hb' & _ & Ht) _]];
      destruct (Hst' u b' Hb') as [E'|E']; by rewrite E' in Ht.
Qed.
End inv.
