(* ===== verification/CatMouseProps.v ===== *)
(** * Cats and mice are safe and live

    The animals of CatMouse.v on the thread system, the scheduler, the lock and
    the condition variables of the kernel, under any sequence of timer
    interrupts.  The house is the one [catmouselock] builds; any number of cats
    and mice have been forked. *)

From stdpp Require Import gmap fin_sets functions.
From S2P Require Import Prelude Bits Spl Array Queue Thread ThreadSpec Synch SynchSpec Machine MachineLinks MachineRefine MachineStart CatMouse CatMouseInv CatMouseProof.

(** ** What [catmouselock] builds *)

Definition cvs_idle (cvs : gmap Z cv) : Prop :=
  ∀ p x, cvs !! p = Some x → queue_rep (slept_threads x) [] ∧ size (slept_threads x) ≤ QUEUE_LIMIT.

(** A new house: nobody holds the lock, waits or eats. *)
Record fresh_house (H : spots) (S : sys) (h : house) : Prop := FreshHouse {
  fh_lock : s_locks S !! bowls_lock H = Some (Lock 0);
  fh_cvs w : is_Some (s_cvs S !! spot H w);
  fh_idle : cvs_idle (s_cvs S);
  fh_house : h = House 0 0 [0; 0] []
}.

Lemma lock_fresh_spec p (Q : Z → world sys → Prop) S m :
  mem_ok m →
  (∀ m', mem_ok m' → Q p (World (set_locks (<[p := Lock 0]> (s_locks S)) S) m')) →
  wp (lock_create p) Q (World S m).
Proof.
  intros Hm HQ. unfold lock_create. rewrite wp_bind. apply kmalloc_mem_ok; [done|]. intros m1 Hm1.
  cbn [negb]. rewrite wp_bind. apply kmalloc_mem_ok; [done|]. intros m2 Hm2. cbn [negb].
  unfold lock_store. kstep. by apply HQ.
Qed.

Lemma cv_fresh_spec p (Q : Z → world sys → Prop) S m :
  mem_ok m →
  (∀ q m', mem_ok m' → queue_rep q [] → size q ≤ QUEUE_LIMIT →
     Q p (World (set_cvs (<[p := Cv q]> (s_cvs S)) S) m')) →
  wp (cv_create p) Q (World S m).
Proof.
  intros Hm HQ. unfold cv_create. rewrite wp_bind. apply kmalloc_mem_ok; [done|]. intros m1 Hm1.
  cbn [negb]. rewrite wp_bind. apply kmalloc_mem_ok; [done|]. intros m2 Hm2. cbn [negb].
  rewrite wp_bind. apply q_create_spec; [done|lia|]. intros q m3 Hm3 Hq Hsz.
  unfold cv_store. kstep. apply HQ; [done..|]. rewrite Hsz. by compute.
Qed.

Lemma cvs_idle_insert p q cvs :
  queue_rep q [] → size q ≤ QUEUE_LIMIT → cvs_idle cvs → cvs_idle (<[p := Cv q]> cvs).
Proof.
  intros Hq Hs Hc p' x. destruct (decide (p' = p)) as [->|Hne].
  - rewrite lookup_insert_eq. by intros [= <-].
  - rewrite lookup_insert_ne by done. apply Hc.
Qed.

Lemma catmouselock_init_spec H (Q : unit → world (cfg local house) → Prop) c m :
  mem_ok m → bowls_lock H ≠ NULL → cat_spot H ≠ NULL → mouse_spot H ≠ NULL →
  cvs_idle (s_cvs (c_sys c)) →
  (∀ c' m', mem_ok m' → fresh_house H (c_sys c') (c_g c') →
     dom (s_locks (c_sys c')) = {[bowls_lock H]} ∪ dom (s_locks (c_sys c)) →
     dom (s_cvs (c_sys c')) = {[mouse_spot H; cat_spot H]} ∪ dom (s_cvs (c_sys c)) →
     Q tt (World c' m')) →
  wp (catmouselock_init H) Q (World c m).
Proof.
  intros Hm H1 H2 H3 Hidle HQ. unfold catmouselock_init. rewrite wp_bind.
  apply kmalloc_mem_ok; [done|]. intros m1 Hm1. cbn [negb].
  rewrite wp_bind. apply on_sys_spec, lock_fresh_spec; [done|]. intros m2 Hm2.
  cbn [wst wmem]. destruct (Z.eqb_spec (bowls_lock H) NULL); [done|].
  rewrite wp_bind. apply on_sys_spec, cv_fresh_spec; [done|]. intros q1 m3 Hm3 Hq1 Hs1.
  cbn [wst wmem]. destruct (Z.eqb_spec (cat_spot H) NULL); [done|].
  rewrite wp_bind. apply on_sys_spec, cv_fresh_spec; [done|]. intros q2 m4 Hm4 Hq2 Hs2.
  cbn [wst wmem]. destruct (Z.eqb_spec (mouse_spot H) NULL); [done|]. kstep.
  apply HQ; [done| |cbn; set_solver|cbn; set_solver].
  split; cbn; [by rewrite lookup_insert_eq| |by repeat apply cvs_idle_insert|done].
  intros []; cbn; [|by rewrite lookup_insert_eq].
  destruct (decide (cat_spot H = mouse_spot H)) as [-> |]; [by rewrite lookup_insert_eq|].
  rewrite lookup_insert_ne by done. by rewrite lookup_insert_eq.
Qed.

(** ** The animals at the start *)

Section beasts.
Context (H : spots) (t : Z) (r : list Z) (beast_of : Z → beast) (l0 : Z → local).

(** The thread of animal [u], with any values in its variables. *)
Definition creature (u : Z) : local * list cmd :=
  (l0 u, [match b_who (beast_of u) with
          | Cat => catlock H (b_num (beast_of u))
          | Mouse => mouselock H (b_num (beast_of u))
          end]).

Definition all_beasts : gmap Z beast := list_to_map ((λ u, (u, beast_of u)) <$> t :: r).

Lemma lookup_beasts u b : all_beasts !! u = Some b ↔ u ∈ t :: r ∧ b = beast_of u.
Proof. clear H l0. unfold all_beasts. rewrite lookup_tabulate. case_decide; naive_solver. Qed.

Lemma start_house_inv sems S h :
  NULL ∉ t :: r → fresh_house H S h →
  catmouse_inv H all_beasts (start_astate sems (s_locks S) (s_cvs S) h t r creature).
Proof.
  intros Hnull [Hl Hc Hi ->]. exists (λ _, Start).
  assert (∀ w P u, P Start = false → ¬ in_phase all_beasts (λ _, Start) w P u) as Hno.
  { intros w P u HP (b & _ & _ & E). congruence. }
  split; cbn [start_astate a_locks a_cvs a_g a_thr].
  - intros u b [Hu ->]%lookup_beasts. split; [done|]. exists (l0 u).
    rewrite lookup_tabulate, decide_True by done. done.
  - unfold all_beasts. by rewrite !dom_list_to_map_L, !fst_tabulate.
  - exists 0. rewrite lookup_fmap, Hl. split; [done|]. split; [by left|].
    intros u b Hu. split; [done|]. intros <-. apply lookup_beasts in Hu as [Hu _]. by destruct Hnull.
  - intros w. destruct (Hc w) as [x Hx]. exists []. rewrite lookup_fmap, Hx. split; [done|].
    intros u. split; [by intros ?%not_elem_of_nil|by intros ?%Hno].
  - split; [done|]. intros i Hi'. exists 0. split.
    + by assert (i = 0 ∨ i = 1) as [-> | ->] by lia.
    + left. split; [done|]. by intros u (b & _ & [=]).
  - split; [|by left]. intros w.
    assert (at_bowls all_beasts (λ _, Start) w = ∅) as ->; [|by destruct w].
    apply set_eq. intros u. rewrite elem_at_bowls. split; [by intros ?%Hno|by intros ?%elem_of_empty].
  - intros w u Hu. by apply Hno in Hu.
Qed.
End beasts.

(** ** Executions *)

(** The house is built, the threads start, and the processor runs through the
    events [es]. *)
Definition catmouse (synchprobs : bool) (lbolt : Z) (cp0 : cpu) (H : spots)
    (t : Z) (r : list Z) (beast_of : Z → beast) (l0 : Z → local) (es : list event)
    : K (cfg local house) unit :=
  catmouselock_init H;;
  c ← kget;
  kput (start_cfg cp0 ∅ (s_locks (c_sys c)) (s_cvs (c_sys c)) (c_g c) t r (creature H beast_of l0));;
  machine synchprobs lbolt es.

(** The kernel has given out different addresses, interrupts are enabled, and
    the cats and the mice are numbered. *)
Record cat_scenario (lbolt : Z) (cp0 : cpu) (H : spots) (t : Z) (r : list Z)
    (beast_of : Z → beast) (c : cfg local house) : Prop := CatScenario {
  cs_cpu : cpu_ok cp0;
  cs_level : curspl cp0 = 0;
  cs_spots : cat_spot H ≠ mouse_spot H;
  cs_threads : NoDup (t :: r);
  cs_few : Z.of_nat (length (t :: r)) ≤ MAXTHREADS;
  cs_numbers u v : u ∈ t :: r → v ∈ t :: r → b_who (beast_of u) = b_who (beast_of v) →
    b_num (beast_of u) = b_num (beast_of v) → u = v;
  cs_idle : cvs_idle (s_cvs (c_sys c));
  cs_lock_addr p : p ∈ ({[bowls_lock H]} ∪ dom (s_locks (c_sys c)) : gset Z) →
    p ≠ NULL ∧ p ≠ lbolt ∧ p ∉ t :: r;
  cs_cv_addr p : p ∈ ({[mouse_spot H; cat_spot H]} ∪ dom (s_cvs (c_sys c)) : gset Z) → p ≠ NULL;
  cs_thread_addr p : p ∈ t :: r → p ≠ NULL ∧ p ≠ lbolt
}.

Section executions.
Context (synchprobs : bool) (lbolt : Z) (cp0 : cpu) (H : spots).
Context (t : Z) (r : list Z) (beast_of : Z → beast) (l0 : Z → local) (c : cfg local house).
Context (Hsc : cat_scenario lbolt cp0 H t r beast_of c).

Lemma beasts_numbers u v b b' :
  all_beasts t r beast_of !! u = Some b → all_beasts t r beast_of !! v = Some b' →
  b_who b = b_who b' → b_num b = b_num b' → u = v.
Proof. intros [Hu ->]%lookup_beasts [Hv ->]%lookup_beasts. by apply (cs_numbers _ _ _ _ _ _ _ Hsc). Qed.

Lemma lock_address : bowls_lock H ≠ NULL.
Proof. apply (cs_lock_addr _ _ _ _ _ _ _ Hsc). set_solver. Qed.

Lemma beasts_null : all_beasts t r beast_of !! 0 = None.
Proof.
  destruct (all_beasts t r beast_of !! 0) as [b|] eqn:E; [|done].
  apply lookup_beasts in E as [Hin _]. by destruct (cs_thread_addr _ _ _ _ _ _ _ Hsc 0 Hin).
Qed.

Lemma beasts_few : Z.of_nat (base.size (all_beasts t r beast_of)) ≤ MAXTHREADS.
Proof.
  destruct Hsc. etrans; [|exact cs_few0]. apply Nat2Z.inj_le. unfold all_beasts.
  rewrite <- size_dom, dom_list_to_map_L, fst_tabulate. rewrite size_list_to_set; done.
Qed.

(** Every state that is reached satisfies the invariant, and nothing goes
    wrong on the way. *)
Lemma catmouse_run (Q : unit → world (cfg local house) → Prop) es m :
  mem_ok m →
  (∀ D c' a v m', catmouse_inv H (all_beasts t r beast_of) a →
     refines synchprobs lbolt cp0 D c' a v → Q tt (World c' m')) →
  wp (catmouse synchprobs lbolt cp0 H t r beast_of l0 es) Q (World c m).
Proof.
  intros Hm HQ. pose proof Hsc as [Hcp Hlv Hsp Hth Hfew Hnums Hidle Hla Hca Hta].
  assert (NULL ∉ t :: r) as Hnl by (intros Hin; by destruct (Hta _ Hin)).
  unfold catmouse. rewrite wp_bind.
  apply catmouselock_init_spec; [done|exact lock_address|apply Hca; set_solver..|done|].
  intros c' m' Hm' Hfr Hdl Hdc. rewrite wp_bind, wp_kget, wp_bind, wp_kput. cbn [wst wmem].
  eapply wp_mono.
  - apply (start_machine cp0 synchprobs lbolt ∅ (s_locks (c_sys c')) (s_cvs (c_sys c')) (c_g c') t r
      (creature H beast_of l0) (catmouse_inv H (all_beasts t r beast_of))); try done.
    + split; cbn [D_sems D_locks D_cvs D_thr]; rewrite ?dom_empty_L, ?union_empty_l_L, ?Hdl, ?Hdc;
        [| |set_solver|set_solver|].
      * intros [[Hn%Hla|Hn%Hca]%elem_of_union|Hn%elem_of_list_to_set]%elem_of_union; [tauto|done|done].
      * intros [Hn%Hla|Hn%elem_of_list_to_set]%elem_of_union; [tauto|]. by destruct (Hta lbolt Hn).
      * intros p (_ & _ & Hp)%Hla Hp2%elem_of_list_to_set. done.
    + apply Hfr.
    + apply (catmouse_ainv H (all_beasts t r beast_of) Hsp lock_address beasts_null beasts_numbers beasts_few).
    + by apply (start_house_inv H t r beast_of l0).
  - intros [] [c2 m2] (a & v & Ha & Hrf & _). by eapply HQ.
Qed.

(** C6: whatever the timer does, as long as no [kmalloc] fails, the animals are
    at peace: no kernel operation on the way panics or goes wrong, cats and
    mice are never counted at the bowls together nor more than two of a kind,
    and any two animals that eat at the same time, by what they have printed,
    are of one kind and eat from different bowls. *)
Theorem catmouse_peace es m :
  mem_ok m →
  wp (catmouse synchprobs lbolt cp0 H t r beast_of l0 es)
     (λ _ w, let h := c_g (wst w) in
       (busycat h = 0 ∨ busymouse h = 0) ∧ 0 ≤ busycat h ≤ NFOODBOWLS ∧ 0 ≤ busymouse h ≤ NFOODBOWLS ∧
       ∀ u v i j, u ∈ t :: r → v ∈ t :: r → u ≠ v →
         eats (said h) (beast_of u) = Some i → eats (said h) (beast_of v) = Some j →
         b_who (beast_of u) = b_who (beast_of v) ∧ i ≠ j) (World c m).
Proof.
  intros Hm. apply catmouse_run; [done|]. intros D c' a v m' Ha Hrf. cbn [wst]. cbn zeta.
  rewrite <- (rf_g _ _ _ _ _ _ _ (rf_base _ _ _ _ _ _ _ Hrf)).
  destruct (inv_busy H _ a Ha) as (H1 & H2 & H3). do 3 (split; [done|]).
  intros u w i j Hu Hw Hne Hi Hj.
  destruct (inv_peace H (all_beasts t r beast_of) (cs_spots _ _ _ _ _ _ _ Hsc) lock_address beasts_null
    beasts_numbers beasts_few a u w (beast_of u) (beast_of w) i j) as (? & ? & _);
    try done; by apply lookup_beasts.
Qed.

(** When the processor idles, each animal has finished, is blocked or eats. *)
Lemma idle_animals D c' a v :
  catmouse_inv H (all_beasts t r beast_of) a → refines synchprobs lbolt cp0 D c' a v →
  curthread (s_thr (c_sys c')) = NULL → ∀ u, u ∈ t :: r →
  finished a u ∨ blocked a u ∨ is_Some (eats (said (a_g a)) (beast_of u)).
Proof.
  intros (phs & Hinv) Hrf Hidle u Hu.
  destruct (hi_beasts _ _ _ _ Hinv u (beast_of u)) as (_ & l & Hx & _ & _ & Hf); [by apply lookup_beasts|].
  pose proof Hx as Hx'. rewrite (rf_abs _ _ _ _ _ _ _ (rf_base _ _ _ _ _ _ _ Hrf)), lookup_abs in Hx'.
  destruct (c_ctl c' !! u) as [x|] eqn:Hc; [|done].
  destruct (idle_blocked _ _ _ _ _ _ _ _ _ Hrf Hidle Hc) as [?|[?|(n & l1 & k & Hk)]];
    [by left|by right; left|right; right].
  rewrite Hx in Hk. rewrite Hf. destruct (phs u); try done.
Qed.

(** C7: as long as no [kmalloc] fails, there is no deadlock: when the processor
    has nothing to do, an animal is eating and the clock will wake it, or
    every animal has had its four meals. *)
Theorem catmouse_no_deadlock es m :
  mem_ok m →
  wp (catmouse synchprobs lbolt cp0 H t r beast_of l0 es)
     (λ _ w, let h := c_g (wst w) in
       curthread (s_thr (c_sys (wst w))) = NULL →
       (∃ u, u ∈ t :: r ∧ is_Some (eats (said h) (beast_of u))) ∨
       ∀ u, u ∈ t :: r → eaten (said h) (beast_of u) = 4) (World c m).
Proof.
  intros Hm. apply catmouse_run; [done|]. intros D c' a v m' Ha Hrf. cbn [wst]. cbn zeta.
  rewrite <- (rf_g _ _ _ _ _ _ _ (rf_base _ _ _ _ _ _ _ Hrf)). intros Hidle.
  pose proof (idle_animals D c' a v Ha Hrf Hidle) as Hall.
  destruct (decide (Exists (λ u, is_Some (eats (said (a_g a)) (beast_of u))) (t :: r))) as [He|He].
  { left. apply Exists_exists in He as (u & Hu & He). by exists u. }
  right. intros u Hu. assert (all_beasts t r beast_of !! u = Some (beast_of u)) as Hb by (by apply lookup_beasts).
  apply (inv_meals H (all_beasts t r beast_of) a u (beast_of u) Ha Hb).
  eapply (inv_all_fed H (all_beasts t r beast_of)); [done| |by eapply elem_of_dom_2].
  intros x [b [Hin ->]%lookup_beasts]%elem_of_dom. destruct (Hall x Hin) as [|[|Hx]]; [by left|by right|].
  destruct He. apply Exists_exists. by exists x.
Qed.

(** No animal eats more than four times. *)
Theorem catmouse_meals es m :
  mem_ok m →
  wp (catmouse synchprobs lbolt cp0 H t r beast_of l0 es)
     (λ _ w, ∀ u, u ∈ t :: r → 0 ≤ eaten (said (c_g (wst w))) (beast_of u) ≤ 4) (World c m).
Proof.
  intros Hm. apply catmouse_run; [done|]. intros D c' a v m' Ha Hrf. cbn [wst].
  rewrite <- (rf_g _ _ _ _ _ _ _ (rf_base _ _ _ _ _ _ _ Hrf)). intros u Hu.
  by apply (inv_meals H (all_beasts t r beast_of) a u), lookup_beasts.
Qed.
End executions.

(** ** An execution *)

(** Two cats and a mouse. *)
Definition ex_spots : spots := Spots 16 20 24.
Definition ex_beast (u : Z) : beast :=
  if u =? 108 then Beast Mouse 0 else Beast Cat ((u - 100) / 4).

Definition ex_house_cpu : cpu := Cpu 1 0.

Definition ex_house : cfg local house :=
  Cfg (Sys (start_thr ex_house_cpu 4 []) ∅ ∅ ∅) (House 0 0 [] []) ∅.

(** Enough timer interrupts for the clock to wake every eater; each second has
    a hundred of them. *)
Definition ex_day (n : nat) : list event := mjoin (replicate n (Tick :: replicate 8 Run)).

Lemma ex_cat_scenario : cat_scenario 8 ex_house_cpu ex_spots 100 [104; 108] ex_beast ex_house.
Proof.
  split.
  - by split.
  - done.
  - done.
  - by apply (bool_decide_unpack _).
  - by compute.
  - intros u v. rewrite !elem_of_cons, !elem_of_nil. intros Hu Hv.
    destruct Hu as [->|[->|[->|[]]]], Hv as [->|[->|[->|[]]]]; by compute.
  - by intros p x Hx.
  - intros p. cbn. rewrite dom_empty_L, union_empty_r_L, elem_of_singleton. intros ->.
    rewrite !elem_of_cons, elem_of_nil. unfold NULL. lia.
  - intros p. cbn. rewrite dom_empty_L, union_empty_r_L, elem_of_union, !elem_of_singleton.
    unfold NULL. lia.
  - intros p. rewrite !elem_of_cons, elem_of_nil. unfold NULL. lia.
Qed.

#[local] Notation ex_life es :=
  (catmouse false 8 ex_house_cpu ex_spots 100 [104; 108] ex_beast (λ _, Local 0 0 0 false false false) es).

(** After fifty ticks two cats eat and the mouse waits; in the end all have
    eaten and the processor idles. *)
Lemma ex_eating :
  wp (ex_life (ex_day 50))
     (λ _ w, busycat (c_g (wst w)) = 2 ∧ curthread (s_thr (c_sys (wst w))) = NULL) (World ex_house []).
Proof. vm_compute. done. Qed.

Lemma ex_all_fed :
  wp (ex_life (ex_day 1500))
     (λ _ w, curthread (s_thr (c_sys (wst w))) = NULL ∧ length (said (c_g (wst w))) = 24%nat)
     (World ex_house []).
Proof. vm_compute. done. Qed.

(** Two cats are eating while this holds. *)
Lemma catmouse_peace_witness :
  wp (ex_life (ex_day 50))
     (λ _ w, busycat (c_g (wst w)) = 2 ∧ let h := c_g (wst w) in
       (busycat h = 0 ∨ busymouse h = 0) ∧ 0 ≤ busycat h ≤ NFOODBOWLS ∧ 0 ≤ busymouse h ≤ NFOODBOWLS ∧
       ∀ u v i j, u ∈ [100; 104; 108] → v ∈ [100; 104; 108] → u ≠ v →
         eats (said h) (ex_beast u) = Some i → eats (said h) (ex_beast v) = Some j →
         b_who (ex_beast u) = b_who (ex_beast v) ∧ i ≠ j) (World ex_house []).
Proof.
  eapply wp_mono; [apply wp_and; [exact ex_eating|]|].
  - apply (catmouse_peace false 8 ex_house_cpu ex_spots 100 [104; 108] ex_beast
      (λ _, Local 0 0 0 false false false) ex_house ex_cat_scenario). apply not_elem_of_nil.
  - intros _ w [[H1 _] H2]. split; [exact H1|exact H2].
Defined.

Lemma catmouse_no_deadlock_witness :
  wp (ex_life (ex_day 1500))
     (λ _ w, curthread (s_thr (c_sys (wst w))) = NULL ∧ let h := c_g (wst w) in
       ((∃ u, u ∈ [100; 104; 108] ∧ is_Some (eats (said h) (ex_beast u))) ∨
        ∀ u, u ∈ [100; 104; 108] → eaten (said h) (ex_beast u) = 4)) (World ex_house []).
Proof.
  eapply wp_mono; [apply wp_and; [exact ex_all_fed|]|].
  - apply (catmouse_no_deadlock false 8 ex_house_cpu ex_spots 100 [104; 108] ex_beast
      (λ _, Local 0 0 0 false false false) ex_house ex_cat_scenario). apply not_elem_of_nil.
  - intros _ w [[H1 _] H2]. split; [exact H1|by apply H2].
Defined.

Lemma catmouse_meals_witness :
  wp (ex_life (ex_day 1500))
     (λ _ w, ∀ u, u ∈ [100; 104; 108] → 0 ≤ eaten (said (c_g (wst w))) (ex_beast u) ≤ 4)
     (World ex_house []).
Proof.
  apply (catmouse_meals false 8 ex_house_cpu ex_spots 100 [104; 108] ex_beast
    (λ _, Local 0 0 0 false false false) ex_house ex_cat_scenario). apply not_elem_of_nil.
Defined.
