(* ===== verification/Bitmap.v ===== *)
(** * Arrays of bits (kern/lib/bitmap.c)

    [bitmap_rep b s] relates the byte array of a bitmap to the set [s] of the
    indices that are marked.  The bits between [nbits] and the end of the last
    byte are permanently set, so that [bitmap_alloc] never finds them. *)

From S2P Require Import Prelude.

Definition BITS_PER_WORD : Z := 8.

Definition WORD_ALLBITS : Z := 255.

Record bitmap : Type := Bitmap { nbits : Z; bv : list Z }.

Definition bitmap_create {S} (n : Z) : K S (option bitmap) :=
  let words := DIVROUNDUP n BITS_PER_WORD in
  ok ← kmalloc_ok;
  if negb ok then mret None else
  ok ← kmalloc_ok;
  if negb ok then mret None else
  let v := replicate (Z.to_nat words) 0 in
  v ← (if n / BITS_PER_WORD <? words then
         let ix := u32 (words - 1) in
         let overbits := u32 (n - u32 (ix * BITS_PER_WORD)) in
         kassert (n / BITS_PER_WORD =? u32 (words - 1));;
         kassert ((0 <? overbits) && (overbits <? BITS_PER_WORD));;
         kfold (Z.to_nat (BITS_PER_WORD - overbits)) overbits
           (λ j v, w ← kof (lget v ix);
                   kof (lset v ix (u8 (Z.lor w (Z.shiftl 1 j))))) v
       else mret v);
  mret (Some (Bitmap n v)).

Definition bitmap_getdata : K bitmap (list Z) := b ← kget; mret (bv b).

(** The error code and the index stored through the [index] pointer. *)
Definition bitmap_alloc : K bitmap (Z * option Z) :=
  b ← kget;
  let maxix := DIVROUNDUP (nbits b) BITS_PER_WORD in
  r ← kfind (Z.to_nat maxix) 0 (λ ix _,
        b ← kget;
        w ← kof (lget (bv b) ix);
        if negb (w =? WORD_ALLBITS) then
          r ← kfind (Z.to_nat BITS_PER_WORD) 0 (λ offset _,
                b ← kget;
                w ← kof (lget (bv b) ix);
                let mask := u8 (Z.shiftl 1 offset) in
                if Z.land w mask =? 0 then
                  v ← kof (lset (bv b) ix (u8 (Z.lor w mask)));
                  kput (Bitmap (nbits b) v);;
                  let index := u32 (u32 (ix * BITS_PER_WORD) + offset) in
                  kassert (index <? nbits b);;
                  mret (inr index)
                else mret (inl tt)) tt;
          match r with
          | inr index => mret (inr index)
          | inl _ => kpanic
          end
        else mret (inl tt)) tt;
  match r with
  | inr index => mret (0, Some index)
  | inl _ => mret (ENOSPC, None)
  end.

(** The byte index and the mask of a bit. *)
Definition bitmap_translate (bitno : Z) : Z * Z :=
  (bitno / BITS_PER_WORD, u8 (Z.shiftl 1 (bitno mod BITS_PER_WORD))).

Definition bitmap_mark (index : Z) : K bitmap unit :=
  b ← kget;
  kassert (index <? nbits b);;
  let '(ix, mask) := bitmap_translate index in
  w ← kof (lget (bv b) ix);
  kassert (Z.land w mask =? 0);;
  v ← kof (lset (bv b) ix (u8 (Z.lor w mask)));
  kput (Bitmap (nbits b) v).

Definition bitmap_unmark (index : Z) : K bitmap unit :=
  b ← kget;
  kassert (index <? nbits b);;
  let '(ix, mask) := bitmap_translate index in
  w ← kof (lget (bv b) ix);
  kassert (negb (Z.land w mask =? 0));;
  v ← kof (lset (bv b) ix (u8 (Z.land w (Z.lnot mask))));
  kput (Bitmap (nbits b) v).

Definition bitmap_isset (index : Z) : K bitmap Z :=
  b ← kget;
  let '(ix, mask) := bitmap_translate index in
  w ← kof (lget (bv b) ix);
  mret (Z.land w mask).

(** Frees the bytes and the bitmap. *)
Definition bitmap_destroy : K (option bitmap) unit :=
  b ← kget;
  _ ← kof b;
  kput None.

(** ** Bits of a byte array *)

Definition byte (w : Z) : Prop := 0 ≤ w < 2 ^ 8.

Definition vbit (v : list Z) (i : Z) : bool :=
  Z.testbit (default 0 (lget v (i / 8))) (i mod 8).

Lemma byte_u8 z : byte (u8 z).
Proof. by apply Z.mod_pos_bound. Qed.

Lemma testbit_u8 z i : 0 ≤ i < 8 → Z.testbit (u8 z) i = Z.testbit z i.
Proof. intros. unfold u8. by rewrite Z.mod_pow2_bits_low by lia. Qed.

Lemma testbit_mask o i :
  0 ≤ o < 8 → 0 ≤ i < 8 → Z.testbit (u8 (Z.shiftl 1 o)) i = (i =? o).
Proof.
  intros. rewrite testbit_u8, Z.shiftl_1_l, Z.pow2_bits_eqb by lia.
  apply Z.eqb_sym.
Qed.

(** [w & mask] tests the one bit of the mask. *)
Lemma land_mask w o :
  byte w → 0 ≤ o < 8 →
  (Z.land w (u8 (Z.shiftl 1 o)) =? 0) = negb (Z.testbit w o).
Proof.
  intros Hw Ho. assert (u8 (Z.shiftl 1 o) = 2 ^ o) as ->.
  { rewrite Z.shiftl_1_l. apply Z.mod_small.
    split; [lia|apply Z.pow_lt_mono_r; lia]. }
  destruct (Z.testbit w o) eqn:Hb; simpl.
  - apply Z.eqb_neq. intros H0. apply (f_equal (λ z, Z.testbit z o)) in H0.
    by rewrite Z.land_spec, Hb, Z.pow2_bits_true, Z.bits_0 in H0 by lia.
  - apply Z.eqb_eq, Z.bits_inj'. intros n Hn. rewrite Z.land_spec, Z.bits_0.
    rewrite Z.pow2_bits_eqb by lia. destruct (Z.eqb_spec o n); subst;
      [by rewrite Hb|apply andb_false_r].
Qed.

(** A byte is [0xff] exactly when its eight bits are set. *)
Lemma byte_allbits w :
  byte w → (∀ i, 0 ≤ i < 8 → Z.testbit w i = true) → w = WORD_ALLBITS.
Proof.
  intros Hw Hall. apply Z.bits_inj'. intros n Hn.
  destruct (decide (n < 8)).
  - rewrite Hall by lia. unfold WORD_ALLBITS.
    change 255 with (Z.ones 8). by rewrite Z.ones_spec_low by lia.
  - unfold WORD_ALLBITS. change 255 with (Z.ones 8).
    rewrite Z.ones_spec_high by lia. apply (Z.bits_above_log2 w); [apply Hw|].
    destruct (decide (w = 0)) as [->|]; [simpl; lia|].
    apply Z.log2_lt_pow2; [destruct Hw; lia|].
    eapply Z.lt_le_trans; [apply Hw|apply Z.pow_le_mono_r; lia].
Qed.

Lemma allbits_testbit i : 0 ≤ i < 8 → Z.testbit WORD_ALLBITS i = true.
Proof.
  intros. unfold WORD_ALLBITS. change 255 with (Z.ones 8).
  by apply Z.ones_spec_low.
Qed.

Lemma vbit_lget v i w :
  lget v (i / 8) = Some w → vbit v i = Z.testbit w (i mod 8).
Proof. unfold vbit. by intros ->. Qed.

(** Changing one byte so that only the bit [i] of it changes. *)
Lemma vbit_update v i w w' c :
  0 ≤ i → lget v (i / 8) = Some w →
  (∀ o, 0 ≤ o < 8 → Z.testbit w' o = if o =? i mod 8 then c else Z.testbit w o) →
  ∀ j, 0 ≤ j →
    vbit (<[Z.to_nat (i / 8) := w']> v) j = if j =? i then c else vbit v j.
Proof.
  intros Hi Hw Hbits j Hj. pose proof (lget_Some_range _ _ _ Hw) as Hr.
  pose proof (Z.mod_pos_bound j 8 ltac:(lia)).
  destruct (decide (j / 8 = i / 8)) as [E|E].
  - unfold vbit. rewrite E, lget_insert_eq, Hw by lia. simpl.
    rewrite Hbits by lia.
    destruct (Z.eqb_spec (j mod 8) (i mod 8)), (Z.eqb_spec j i); try done; subst; [|done].
    exfalso. pose proof (Z.div_mod i 8). pose proof (Z.div_mod j 8). lia.
  - unfold vbit. rewrite lget_insert_ne by (auto; apply Z.div_pos; lia).
    destruct (Z.eqb_spec j i); [by subst|done].
Qed.

(** ** Representation *)

(** Bitmaps of up to this many bits keep the rounding up to whole bytes within
    32 bits. *)
Definition BITMAP_LIMIT : Z := 2 ^ 32 - 8.

Definition bitmap_rep (b : bitmap) (s : gset Z) : Prop :=
  0 ≤ nbits b < BITMAP_LIMIT ∧
  Z.of_nat (length (bv b)) = (nbits b + 7) / 8 ∧
  Forall byte (bv b) ∧
  (∀ i, i ∈ s → 0 ≤ i < nbits b) ∧
  (∀ i, 0 ≤ i < 8 * Z.of_nat (length (bv b)) →
     vbit (bv b) i = bool_decide (i ∈ s) || (nbits b <=? i)).

Lemma bitmap_rep_lget b s i :
  bitmap_rep b s → 0 ≤ i < 8 * Z.of_nat (length (bv b)) →
  ∃ w, lget (bv b) (i / 8) = Some w ∧ byte w ∧
       Z.testbit w (i mod 8) = bool_decide (i ∈ s) || (nbits b <=? i).
Proof.
  intros (_ & _ & Hbytes & _ & Hbit) Hi.
  destruct (lget_is_Some (bv b) (i / 8)) as [w Hw].
  { split; [apply Z.div_pos; lia|apply Z.div_lt_upper_bound; lia]. }
  exists w. split_and!; [done| |].
  - rewrite lget_lookup in Hw by (apply Z.div_pos; lia).
    by eapply Forall_lookup_1 in Hw.
  - rewrite <- (vbit_lget (bv b)) by done. by apply Hbit.
Qed.

Lemma bitmap_rep_range b s i :
  bitmap_rep b s → 0 ≤ i < nbits b → 0 ≤ i < 8 * Z.of_nat (length (bv b)).
Proof.
  intros (Hn & Hlen & _) Hi. rewrite Hlen.
  pose proof (Z.div_mod (nbits b + 7) 8). pose proof (Z.mod_pos_bound (nbits b + 7) 8). lia.
Qed.

(** Setting or clearing a bit below [nbits]. *)
Lemma bitmap_rep_update b s i w w' c :
  bitmap_rep b s → 0 ≤ i < nbits b → lget (bv b) (i / 8) = Some w → byte w' →
  (∀ o, 0 ≤ o < 8 → Z.testbit w' o = if o =? i mod 8 then c else Z.testbit w o) →
  bitmap_rep (Bitmap (nbits b) (<[Z.to_nat (i / 8) := w']> (bv b)))
             (if c then {[i]} ∪ s else s ∖ {[i]}).
Proof.
  intros (Hn & Hlen & Hbytes & Hs & Hbit) Hi Hw Hw' Hbits.
  unfold bitmap_rep; simpl. rewrite length_insert.
  split_and!; [lia|lia|done|by apply Forall_insert| |].
  - intros j. destruct c; set_unfold; [intros [->|]|intros [? _]]; auto.
  - intros j Hj. rewrite (vbit_update (bv b) i w w' c) by (done || lia).
    destruct (Z.eqb_spec j i) as [->|].
    + rewrite (proj2 (Z.leb_gt _ _)), orb_false_r by lia.
      destruct c; symmetry; [apply bool_decide_true|apply bool_decide_false]; set_solver.
    + rewrite Hbit by lia. f_equal. apply bool_decide_ext. destruct c; set_solver.
Qed.

Lemma testbit_set_mask w o i :
  0 ≤ o < 8 → 0 ≤ i < 8 →
  Z.testbit (u8 (Z.lor w (u8 (Z.shiftl 1 o)))) i =
  if i =? o then true else Z.testbit w i.
Proof.
  intros. rewrite testbit_u8, Z.lor_spec, testbit_mask by lia.
  destruct (i =? o); [apply orb_true_r|apply orb_false_r].
Qed.

Lemma testbit_clear_mask w o i :
  0 ≤ o < 8 → 0 ≤ i < 8 →
  Z.testbit (u8 (Z.land w (Z.lnot (u8 (Z.shiftl 1 o))))) i =
  if i =? o then false else Z.testbit w i.
Proof.
  intros. rewrite testbit_u8, Z.land_spec, Z.lnot_spec, testbit_mask by lia.
  destruct (i =? o); [apply andb_false_r|apply andb_true_r].
Qed.

(** ** Operations *)

Lemma bitmap_isset_spec b s i Q w :
  wst w = b → bitmap_rep b s → 0 ≤ i < nbits b →
  (∀ r, (r ≠ 0 ↔ i ∈ s) → Q r w) → wp (bitmap_isset i) Q w.
Proof.
  intros Hw Hrep Hi HQ. unfold bitmap_isset. kstep. rewrite Hw.
  destruct (bitmap_rep_lget b s i) as (c & Hc & Hbyte & Hbit);
    [done|by eapply bitmap_rep_range|].
  unfold bitmap_translate, BITS_PER_WORD. kstep.
  rewrite (wp_kof _ c) by done. kstep. apply HQ.
  pose proof (land_mask c (i mod 8) Hbyte (Z.mod_pos_bound i 8 ltac:(lia))) as Hm.
  rewrite Hbit, (proj2 (Z.leb_gt _ _)), orb_false_r in Hm by lia.
  rewrite <- Z.eqb_neq, Hm. destruct (decide (i ∈ s)) as [?|?];
    [rewrite bool_decide_true by done|rewrite bool_decide_false by done]; naive_solver.
Qed.

Lemma bitmap_mark_spec b s i (Q : unit → world bitmap → Prop) w :
  wst w = b → bitmap_rep b s → 0 ≤ i < nbits b → i ∉ s →
  (∀ b', bitmap_rep b' ({[i]} ∪ s) → nbits b' = nbits b → Q tt (World b' (wmem w))) →
  wp (bitmap_mark i) Q w.
Proof.
  intros Hw Hrep Hi Hs HQ. unfold bitmap_mark. kstep. rewrite Hw. kassert_tac.
  destruct (bitmap_rep_lget b s i) as (c & Hc & Hbyte & Hbit);
    [done|by eapply bitmap_rep_range|].
  unfold bitmap_translate, BITS_PER_WORD. kstep. rewrite (wp_kof _ c) by done. kstep.
  pose proof (Z.mod_pos_bound i 8 ltac:(lia)).
  rewrite wp_kassert.
  2:{ rewrite land_mask, Hbit by done. rewrite bool_decide_false by done. lia. }
  kstep. pose proof (lget_Some_range _ _ _ Hc). klset. apply HQ; [|done].
  apply (bitmap_rep_update b s i c _ true); [done..|apply byte_u8|].
  intros. by apply testbit_set_mask.
Qed.

Lemma bitmap_unmark_spec b s i (Q : unit → world bitmap → Prop) w :
  wst w = b → bitmap_rep b s → i ∈ s →
  (∀ b', bitmap_rep b' (s ∖ {[i]}) → nbits b' = nbits b → Q tt (World b' (wmem w))) →
  wp (bitmap_unmark i) Q w.
Proof.
  intros Hw Hrep Hs HQ. assert (0 ≤ i < nbits b) as Hi by by apply Hrep.
  unfold bitmap_unmark. kstep. rewrite Hw. kassert_tac.
  destruct (bitmap_rep_lget b s i) as (c & Hc & Hbyte & Hbit);
    [done|by eapply bitmap_rep_range|].
  unfold bitmap_translate, BITS_PER_WORD. kstep. rewrite (wp_kof _ c) by done. kstep.
  pose proof (Z.mod_pos_bound i 8 ltac:(lia)).
  rewrite wp_kassert.
  2:{ rewrite land_mask, Hbit by done. by rewrite bool_decide_true. }
  kstep. pose proof (lget_Some_range _ _ _ Hc). klset. apply HQ; [|done].
  apply (bitmap_rep_update b s i c _ false); [done..|apply byte_u8|].
  intros. by apply testbit_clear_mask.
Qed.

(** The scan of one byte that is not full. *)
Lemma alloc_byte_spec b s ix c (Q : unit + Z → world bitmap → Prop) w :
  wst w = b → bitmap_rep b s → 0 ≤ ix → lget (bv b) ix = Some c → c ≠ WORD_ALLBITS →
  (∀ j, 0 ≤ j < 8 * ix → j ∈ s) →
  (∀ i b', (∀ j, 0 ≤ j < i → j ∈ s) → 0 ≤ i < nbits b → i ∉ s →
     bitmap_rep b' ({[i]} ∪ s) → nbits b' = nbits b → Q (inr i) (World b' (wmem w))) →
  wp (kfind (Z.to_nat BITS_PER_WORD) 0 (λ offset _,
        b ← kget;
        w ← kof (lget (bv b) ix);
        let mask := u8 (Z.shiftl 1 offset) in
        if Z.land w mask =? 0 then
          v ← kof (lset (bv b) ix (u8 (Z.lor w mask)));
          kput (Bitmap (nbits b) v);;
          let index := u32 (u32 (ix * BITS_PER_WORD) + offset) in
          kassert (index <? nbits b);;
          mret (inr index)
        else mret (inl tt)) tt) Q w.
Proof.
  intros Hw Hrep Hix Hc Hne Hlow HQ. pose proof (lget_Some_range _ _ _ Hc) as Hr.
  assert (∀ o, 0 ≤ o < 8 → Z.testbit c o = bool_decide (8 * ix + o ∈ s) || (nbits b <=? 8 * ix + o)
          ∧ byte c) as Hbits.
  { intros o Ho. destruct (bitmap_rep_lget b s (8 * ix + o)) as (c' & Hc' & ? & Hb); [done|lia|].
    replace ((8 * ix + o) / 8) with ix in Hc' by (apply Z.div_unique with o; lia).
    replace ((8 * ix + o) mod 8) with o in Hb by (apply Z.mod_unique with ix; lia).
    by simplify_eq. }
  pose proof Hrep as (Hn & Hlen & _). unfold BITMAP_LIMIT, BITS_PER_WORD in *.
  apply (wp_kfind (λ o _ w', w' = w ∧ ∀ j, 0 ≤ j < o → Z.testbit c j = true)).
  - split; [done|lia].
  - intros o _ w' Ho (-> & Hset). kstep. rewrite Hw, (wp_kof _ c) by done. kstep.
    destruct (Hbits o) as [Hb Hbyte]; [lia|]. rewrite land_mask by (done || lia).
    destruct (Z.testbit c o) eqn:Htb; kstep.
    { split; [done|]. intros j Hj. destruct (decide (j = o)); [by subst|apply Hset; lia]. }
    symmetry in Hb. apply orb_false_iff in Hb as [Hin%bool_decide_eq_false Hlt%Z.leb_gt].
    klset. rewrite (u32_id (ix * 8)), u32_id by lia. kassert_tac.
    replace (ix * 8 + o) with (8 * ix + o) by lia.
    apply HQ; [|lia|done| |done].
    + intros j Hj. destruct (decide (j < 8 * ix)); [apply Hlow; lia|].
      specialize (Hset (j - 8 * ix) ltac:(lia)). destruct (Hbits (j - 8 * ix)) as [Hb _]; [lia|].
      replace (8 * ix + (j - 8 * ix)) with j in Hb by lia. rewrite Hset in Hb.
      symmetry in Hb. apply orb_true_iff in Hb as [?%bool_decide_eq_true|?%Z.leb_le]; [done|lia].
    + replace (Z.to_nat ix) with (Z.to_nat ((8 * ix + o) / 8))
        by (f_equal; symmetry; apply Z.div_unique with o; lia).
      apply (bitmap_rep_update b s (8 * ix + o) c _ true); [done|lia| |apply byte_u8|].
      * by replace ((8 * ix + o) / 8) with ix by (apply Z.div_unique with o; lia).
      * replace ((8 * ix + o) mod 8) with o by (apply Z.mod_unique with ix; lia).
        intros. apply testbit_set_mask; lia.
  - intros [] w' (-> & Hset). exfalso. apply Hne, byte_allbits; [by apply (Hbits 0)|].
    intros. by apply Hset.
Qed.

Lemma bitmap_alloc_spec b s Q w :
  wst w = b → bitmap_rep b s →
  ((∀ j, 0 ≤ j < nbits b → j ∈ s) → Q (ENOSPC, None) w) →
  (∀ i b', (∀ j, 0 ≤ j < i → j ∈ s) → 0 ≤ i < nbits b → i ∉ s →
     bitmap_rep b' ({[i]} ∪ s) → nbits b' = nbits b →
     Q (0, Some i) (World b' (wmem w))) →
  wp bitmap_alloc Q w.
Proof.
  intros Hw Hrep HQ1 HQ2. pose proof Hrep as (Hn & Hlen & Hbytes & _ & Hbit).
  unfold bitmap_alloc. kstep. rewrite Hw. unfold BITMAP_LIMIT in *.
  rewrite DIVROUNDUP_id by (unfold BITS_PER_WORD; lia).
  replace (nbits b + BITS_PER_WORD - 1) with (nbits b + 7) by (unfold BITS_PER_WORD; lia).
  change BITS_PER_WORD with 8 at 1. rewrite <- Hlen.
  apply (wp_kfind (λ ix _ w', w' = w ∧ ∀ j, 0 ≤ j < 8 * ix → j < nbits b → j ∈ s)).
  - split; [done|lia].
  - intros ix _ w' Hix (-> & Hlow). rewrite Nat2Z.id in Hix.
    destruct (lget_is_Some (bv b) ix) as [c Hc]; [lia|].
    kstep. rewrite Hw, (wp_kof _ c) by done. kstep.
    destruct (Z.eqb_spec c WORD_ALLBITS) as [->|Hne]; kstep.
    + split; [done|]. intros j Hj Hjn. destruct (decide (j < 8 * ix)); [apply Hlow; lia|].
      specialize (Hbit j ltac:(lia)). rewrite (vbit_lget _ _ WORD_ALLBITS) in Hbit.
      2:{ by replace (j / 8) with ix by (apply Z.div_unique with (j - 8 * ix); lia). }
      rewrite allbits_testbit in Hbit by (apply Z.mod_pos_bound; lia).
      symmetry in Hbit. apply orb_true_iff in Hbit as [?%bool_decide_eq_true|?%Z.leb_le]; [done|lia].
    + eapply alloc_byte_spec; [done|done|lia|done|done| |].
      * intros j Hj. apply Hlow; [done|].
        pose proof (Z.div_mod (nbits b + 7) 8). pose proof (Z.mod_pos_bound (nbits b + 7) 8). lia.
      * intros i b' Hl Hi Hni Hrep' Hnb. kstep. by apply HQ2.
  - intros [] w' (-> & Hall). kstep. apply HQ1. intros j Hj.
    apply Hall; [|lia]. rewrite Nat2Z.id. eapply bitmap_rep_range in Hrep; [|done]. lia.
Qed.

Lemma vbit_replicate n i : vbit (replicate n 0) i = false.
Proof.
  unfold vbit, lget. case_decide; [|apply Z.bits_0].
  destruct (replicate n 0 !! _) as [z|] eqn:Hz; [|apply Z.bits_0].
  apply lookup_replicate in Hz as [-> _]. apply Z.bits_0.
Qed.

(** The loop of [bitmap_create] that marks the bits past the end. *)
Lemma overbits_spec {S} v ix o (Q : list Z → world S → Prop) w :
  0 ≤ ix → ix + 1 = Z.of_nat (length v) → 0 < o < 8 → Forall byte v →
  (∀ i, 0 ≤ i → vbit v i = false) →
  (∀ v', length v' = length v → Forall byte v' →
     (∀ i, 0 ≤ i < 8 * Z.of_nat (length v) → vbit v' i = (8 * ix + o <=? i)) → Q v' w) →
  wp (kfold (Z.to_nat (8 - o)) o
        (λ j v, w ← kof (lget v ix);
                kof (lset v ix (u8 (Z.lor w (Z.shiftl 1 j))))) v) Q w.
Proof.
  intros Hix Hlen Ho Hbytes Hzero HQ.
  apply (wp_kfold (λ j v' w', w' = w ∧ length v' = length v ∧ Forall byte v' ∧
           ∀ i, 0 ≤ i → vbit v' i = (8 * ix + o <=? i) && (i <? 8 * ix + j))).
  - split_and!; [done|done|done|]. intros i Hi. rewrite Hzero by done. lia.
  - intros j v' w' Hj (-> & Hlen' & Hb' & Hv'). destruct (lget_is_Some v' ix) as [c Hc]; [lia|].
    kstep. rewrite (wp_kof _ c) by done. rewrite lset_Some by lia. simpl. kstep.
    assert (ix = (8 * ix + j) / 8) as Hdiv by (apply Z.div_unique with j; lia).
    assert (j = (8 * ix + j) mod 8) as Hmod by (apply Z.mod_unique with ix; lia).
    split_and!; [done|by rewrite length_insert|by apply Forall_insert; [|apply byte_u8]|].
    intros i Hi. rewrite Hdiv at 1.
    rewrite (vbit_update v' (8 * ix + j) c _ true); [|lia|by rewrite <- Hdiv| |done].
    + rewrite Hv' by done. destruct (Z.eqb_spec i (8 * ix + j)); lia.
    + intros p Hp. rewrite <- Hmod, testbit_u8, Z.lor_spec by lia.
      rewrite Z.shiftl_1_l, Z.pow2_bits_eqb, Z.eqb_sym by lia.
      destruct (p =? j); [apply orb_true_r|apply orb_false_r].
  - intros v' w' (-> & Hlen' & Hb' & Hv'). apply HQ; [done|done|].
    intros i Hi. rewrite Hv' by lia.
    by rewrite (proj2 (Z.ltb_lt i _)), andb_true_r by lia.
Qed.

Lemma bitmap_create_spec {S} n (Q : option bitmap → world S → Prop) w :
  0 ≤ n < BITMAP_LIMIT →
  (∀ m, false ∈ wmem w → Q None (World (wst w) m)) →
  (∀ b m, bitmap_rep b ∅ → nbits b = n → Q (Some b) (World (wst w) m)) →
  wp (bitmap_create n) Q w.
Proof.
  intros Hn HQ1 HQ2. unfold BITMAP_LIMIT in Hn. unfold bitmap_create.
  rewrite DIVROUNDUP_id by (unfold BITS_PER_WORD; lia). kstep.
  apply wp_kmalloc; intros m1; [intros Hm1|intros ? _]; kstep; [|by apply HQ1].
  apply wp_kmalloc; intros m2; [intros _|intros Hm2 _]; kstep.
  2:{ apply HQ1. by eapply pending_suffix. }
  unfold BITS_PER_WORD. set (W := (n + 8 - 1) / 8).
  pose proof (Z.div_mod (n + 8 - 1) 8). pose proof (Z.mod_pos_bound (n + 8 - 1) 8).
  pose proof (Z.div_mod n 8). pose proof (Z.mod_pos_bound n 8).
  assert (∀ v, length v = Z.to_nat W → Forall byte v →
            (∀ i, 0 ≤ i < 8 * W → vbit v i = (n <=? i)) → bitmap_rep (Bitmap n v) ∅) as Hrep.
  { intros v Hl Hb Hv. unfold bitmap_rep; simpl. rewrite Hl. unfold BITMAP_LIMIT.
    replace (n + 7) with (n + 8 - 1) by lia. split_and!; [lia|lia|lia|done|set_solver|].
    intros i Hi. rewrite Hv by lia. by rewrite bool_decide_false by set_solver. }
  assert (Forall byte (replicate (Z.to_nat W) 0)) by (apply Forall_replicate; by split).
  destruct (n / 8 <? W) eqn:Hlt; kstep.
  - apply Z.ltb_lt in Hlt. rewrite (u32_id (W - 1)), (u32_id ((W - 1) * 8)), u32_id by lia.
    kassert_tac. kassert_tac.
    apply (overbits_spec (replicate (Z.to_nat W) 0) (W - 1));
      [lia|rewrite length_replicate; lia|lia|done|intros; apply vbit_replicate|].
    intros v' Hl' Hb' Hv'. kstep. rewrite length_replicate in *.
    apply HQ2; [|done]. apply Hrep; [done|done|]. intros i Hi. rewrite Hv' by lia. f_equal. lia.
  - apply Z.ltb_ge in Hlt. apply HQ2; [|done]. apply Hrep; [by rewrite length_replicate|done|].
    intros i Hi. rewrite vbit_replicate. lia.
Qed.

(** Marking a marked bit and unmarking a clear one fail an assertion. *)
Lemma bitmap_mark_panics b s i m :
  bitmap_rep b s → i ∈ s → panics (bitmap_mark i) (World b m).
Proof.
  intros Hrep Hs. assert (0 ≤ i < nbits b) as Hi by by apply Hrep.
  destruct (bitmap_rep_lget b s i) as (c & Hc & Hbyte & Hbit);
    [done|by eapply bitmap_rep_range|].
  unfold panics, bitmap_mark, bitmap_translate, kget, mbind, K_bind, BITS_PER_WORD; simpl.
  rewrite (proj2 (Z.ltb_lt _ _)), Hc by lia. simpl.
  rewrite land_mask by (done || apply Z.mod_pos_bound; lia).
  by rewrite Hbit, bool_decide_true.
Qed.

Lemma bitmap_unmark_panics b s i m :
  bitmap_rep b s → 0 ≤ i < nbits b → i ∉ s → panics (bitmap_unmark i) (World b m).
Proof.
  intros Hrep Hi Hs. destruct (bitmap_rep_lget b s i) as (c & Hc & Hbyte & Hbit);
    [done|by eapply bitmap_rep_range|].
  unfold panics, bitmap_unmark, bitmap_translate, kget, mbind, K_bind, BITS_PER_WORD; simpl.
  rewrite (proj2 (Z.ltb_lt _ _)), Hc by lia. simpl.
  rewrite land_mask by (done || apply Z.mod_pos_bound; lia).
  by rewrite Hbit, bool_decide_false, (proj2 (Z.leb_gt _ _)) by (done || lia).
Qed.

(** ** Set specification

    What the bitmap promises to its clients, as a deterministic machine on the
    set of marked indices; [None] is a failed assertion. *)

Inductive bop : Type := Alloc | Mark (i : Z) | Unmark (i : Z) | IsSet (i : Z).

Inductive bev : Type := Index (i : Z) | NoSpace | Done | Bit (b : bool).

Definition least_free (n : Z) (s : gset Z) : option Z :=
  snd <$> list_find (λ i, i ∉ s) (seqZ 0 n).

Definition set_step (n : Z) (s : gset Z) (o : bop) : option (bev * gset Z) :=
  match o with
  | Alloc => Some (match least_free n s with
                   | Some i => (Index i, {[i]} ∪ s)
                   | None => (NoSpace, s)
                   end)
  | Mark i => if decide (i ∈ s) then None else Some (Done, {[i]} ∪ s)
  | Unmark i => if decide (i ∈ s) then Some (Done, s ∖ {[i]}) else None
  | IsSet i => Some (Bit (bool_decide (i ∈ s)), s)
  end.

Fixpoint set_steps (n : Z) (s : gset Z) (os : list bop) : option (list bev * gset Z) :=
  match os with
  | [] => Some ([], s)
  | o :: os => '(e, s) ← set_step n s o;
               '(es, s) ← set_steps n s os;
               Some (e :: es, s)
  end.

Definition run_bop (o : bop) : K bitmap bev :=
  match o with
  | Alloc => '(r, index) ← bitmap_alloc;
             if r =? 0 then (i ← kof index; mret (Index i)) else mret NoSpace
  | Mark i => bitmap_mark i;; mret Done
  | Unmark i => bitmap_unmark i;; mret Done
  | IsSet i => r ← bitmap_isset i; mret (Bit (negb (r =? 0)))
  end.

Fixpoint run_bops (os : list bop) : K bitmap (list bev) :=
  match os with
  | [] => mret []
  | o :: os => e ← run_bop o; es ← run_bops os; mret (e :: es)
  end.

Definition bop_index (o : bop) : option Z :=
  match o with Alloc => None | Mark i | Unmark i | IsSet i => Some i end.

(** Every index a client names is below [n]. *)
Definition in_range (n : Z) (o : bop) : Prop :=
  ∀ i, bop_index o = Some i → 0 ≤ i < n.

Lemma least_free_Some n s i :
  least_free n s = Some i ↔ (0 ≤ i < n) ∧ (i ∉ s) ∧ (∀ j, 0 ≤ j < i → j ∈ s).
Proof.
  unfold least_free. rewrite fmap_Some. split.
  - intros ([k j] & (Hk & Hj & Hlt)%list_find_Some & ->). simpl in *.
    apply lookup_seqZ in Hk as [-> ?]. split_and!; [lia|lia|done|]. intros j' Hj'.
    destruct (decide (j' ∈ s)) as [|Hn]; [done|]. exfalso.
    apply (Hlt (Z.to_nat j') j'); [apply lookup_seqZ; lia|lia|done].
  - intros (Hi & Hn & Hlt). exists (Z.to_nat i, i). split; [|done].
    apply list_find_Some. split_and!; [apply lookup_seqZ; lia|done|].
    intros k j [-> ?]%lookup_seqZ Hk Hj. apply Hj, Hlt. lia.
Qed.

Lemma least_free_None n s : (∀ j, 0 ≤ j < n → j ∈ s) → least_free n s = None.
Proof.
  intros Hall. destruct (least_free n s) as [i|] eqn:Hi; [|done].
  apply least_free_Some in Hi as (? & [] & _). by apply Hall.
Qed.

Lemma run_bop_refines b s o m :
  bitmap_rep b s → in_range (nbits b) o →
  match set_step (nbits b) s o with
  | Some (e, s') => wp (run_bop o) (λ r w', r = e ∧ bitmap_rep (wst w') s' ∧
                                      nbits (wst w') = nbits b ∧ wmem w' = m) (World b m)
  | None => panics (run_bop o) (World b m)
  end.
Proof.
  intros Hrep Hin. destruct o as [|i|i|i]; simpl.
  - destruct (least_free (nbits b) s) as [i|] eqn:Hl; kstep.
    + apply least_free_Some in Hl as (Hi & Hni & Hlow).
      apply (bitmap_alloc_spec b s); [done..| |].
      * intros Hall. destruct Hni. by apply Hall.
      * intros i' b' Hlow' Hi' Hni' Hrep' Hnb. kstep.
        assert (i' = i) as ->; [|done].
        destruct (Z.lt_trichotomy i i') as [?|[?|?]]; [|done|].
        { destruct Hni. apply Hlow'. lia. } { destruct Hni'. apply Hlow. lia. }
    + apply (bitmap_alloc_spec b s); [done..| |].
      * intros _. by kstep.
      * intros i' b' Hlow' Hi' Hni' Hrep' Hnb. exfalso.
        assert (least_free (nbits b) s = Some i'); [by apply least_free_Some|congruence].
  - specialize (Hin i eq_refl). case_decide.
    + unfold panics, mbind, K_bind. by rewrite (bitmap_mark_panics b s i m).
    + kstep. apply (bitmap_mark_spec b s); [done..|]. intros. by kstep.
  - specialize (Hin i eq_refl). case_decide.
    + kstep. apply (bitmap_unmark_spec b s); [done..|]. intros. by kstep.
    + unfold panics, mbind, K_bind. by rewrite (bitmap_unmark_panics b s i m).
  - specialize (Hin i eq_refl). kstep. apply (bitmap_isset_spec b s); [done..|].
    intros r Hr. kstep. split; [|done]. f_equal.
    destruct (Z.eqb_spec r 0), (decide (i ∈ s)); simpl;
      rewrite ?bool_decide_true, ?bool_decide_false by done; naive_solver.
Qed.

Lemma run_bops_refines os b s m :
  bitmap_rep b s → Forall (in_range (nbits b)) os →
  match set_steps (nbits b) s os with
  | Some (es, s') => wp (run_bops os) (λ r w', r = es ∧ bitmap_rep (wst w') s') (World b m)
  | None => panics (run_bops os) (World b m)
  end.
Proof.
  revert b s. induction os as [|o os IH]; intros b s Hrep Hall; simpl; [by kstep|].
  inversion_clear Hall as [|? ? Hin Hall']. pose proof (run_bop_refines b s o m Hrep Hin) as Ho.
  destruct (set_step (nbits b) s o) as [[e s1]|]; simpl.
  2:{ unfold panics, mbind, K_bind. by rewrite Ho. }
  destruct (wp_eq _ _ _ Ho) as (e' & [b1 m1] & Hrun & -> & Hrep1 & Hnb & Hm). simpl in *. subst m1.
  rewrite <- Hnb in Hall'. specialize (IH b1 s1 Hrep1 Hall'). rewrite <- Hnb.
  destruct (set_steps (nbits b1) s1 os) as [[es s2]|]; simpl.
  - unfold wp, mbind, K_bind in *. rewrite Hrun.
    destruct (run_bops os (World b1 m)) as [[es' w']| | |]; [|done..]. naive_solver.
  - unfold panics, mbind, K_bind in *. by rewrite Hrun, IH.
Qed.

(** ** Theorems *)

(** C25: any sequence of allocations, marks, unmarks and queries on a bitmap
    behaves as on the set of marked indices: [bitmap_alloc] hands out the
    least clear index and fails with ENOSPC exactly when there is none, and an
    assertion fails exactly on marking a marked bit or unmarking a clear one. *)
Theorem bitmap_refines_set b s os m :
  bitmap_rep b s → Forall (in_range (nbits b)) os →
  match set_steps (nbits b) s os with
  | Some (es, s') => wp (run_bops os) (λ r w', r = es ∧ bitmap_rep (wst w') s') (World b m)
  | None => panics (run_bops os) (World b m)
  end.
Proof. apply run_bops_refines. Qed.

(** Eleven bits, the first nine of them marked. *)
Definition eleven : bitmap := Bitmap 11 [255; 249].

Lemma eleven_rep : bitmap_rep eleven (list_to_set (seqZ 0 9)).
Proof.
  unfold bitmap_rep, BITMAP_LIMIT. simpl length. split_and!; [simpl; lia..|reflexivity| | |].
  - repeat constructor; simpl; lia.
  - intros i. rewrite elem_of_list_to_set, elem_of_seqZ. simpl. lia.
  - intros i Hi. assert (i ∈ seqZ 0 16) as Hin by (apply elem_of_seqZ; lia).
    revert i Hin Hi. apply (Forall_forall (λ i, 0 ≤ i < 16 → vbit [255; 249] i =
      bool_decide (i ∈ (list_to_set (seqZ 0 9) : gset Z)) || (11 <=? i))).
    vm_compute seqZ. repeat constructor; intros _; reflexivity.
Defined.

Lemma bitmap_refines_set_witness :
  wp (run_bops [Alloc; Unmark 3; IsSet 3; Alloc; Alloc; Alloc])
     (λ r w', r = [Index 9; Done; Bit false; Index 3; Index 10; NoSpace] ∧
              bitmap_rep (wst w') (list_to_set [10; 3; 9; 0; 1; 2; 4; 5; 6; 7; 8]))
     (World eleven []).
Proof.
  apply (bitmap_refines_set eleven _ [Alloc; Unmark 3; IsSet 3; Alloc; Alloc; Alloc] []
           eleven_rep).
  repeat (apply Forall_cons_2; [intros i Hi; simplify_eq/=; lia|]). apply Forall_nil_2.
Defined.

(** [bitmap_create] makes a bitmap with no index marked, or returns NULL
    after a [kmalloc] failure; its internal assertions hold for every size. *)
Theorem bitmap_create_all_clear n m :
  0 ≤ n < BITMAP_LIMIT →
  wp (bitmap_create n)
     (λ r _, match r with
             | Some b => bitmap_rep b ∅ ∧ nbits b = n
             | None => false ∈ m
             end) (World tt m).
Proof. intros. by apply bitmap_create_spec. Qed.

Lemma bitmap_create_all_clear_witness :
  wp (bitmap_create 13)
     (λ r _, match r with
             | Some b => bitmap_rep b ∅ ∧ nbits b = 13
             | None => false ∈ []
             end) (World tt []).
Proof. apply (bitmap_create_all_clear 13 []). unfold BITMAP_LIMIT. lia. Defined.
