(* ===== verification/CopyInOut.v ===== *)
(** * Copying between the kernel and user space (kern/lib/copyinout.c)

    User memory is a finite map from addresses to bytes: an address outside it
    is one whose access faults.  [copyfail], [setjmp] and [longjmp] turn a
    fault in the middle of a copy into the return value EFAULT; the bytes
    copied before the fault stay copied.  Mappings are whole pages, so the
    word-wise loop of [memcpy] faults at the same byte as the byte-wise one. *)

From S2P Require Import Prelude.

(** [MIPS_KSEG0] of kern/arch/mips/include/vm.h. *)
Definition USERTOP : Z := 2147483648.

(** The part of a process the copy functions see: the identity of
    [curthread->t_vmspace] and its memory. *)
Record uspace : Type := USpace { t_vmspace : option Z; umem : gmap Z Z }.

(** The error code and the value stored through [stoplen]. *)
Definition copycheck (userptr len : Z) : Z * Z :=
  let bot := userptr in
  let top := u32 (u32 (bot + len) - 1) in
  if top <? bot then (EFAULT, len)
  else if USERTOP <=? bot then (EFAULT, len)
  else if USERTOP <=? top then (0, USERTOP - bot)
  else (0, len).

(** [memcpy] out of user space: the bytes copied and whether no byte faulted. *)
Fixpoint fetch (m : gmap Z Z) (src : Z) (n : nat) : list Z * bool :=
  match n with
  | O => ([], true)
  | S n => match m !! src with
           | Some c => let '(bs, ok) := fetch m (src + 1) n in (c :: bs, ok)
           | None => ([], false)
           end
  end.

(** [memcpy] into user space. *)
Fixpoint store (m : gmap Z Z) (dst : Z) (bs : list Z) : gmap Z Z * bool :=
  match bs with
  | [] => (m, true)
  | b :: bs => match m !! dst with
               | Some _ => store (<[dst := b]> m) (dst + 1) bs
               | None => (m, false)
               end
  end.

(** The error code and the bytes that reached [dest]. *)
Definition copyin (usersrc len : Z) : K uspace (Z * list Z) :=
  let '(result, stoplen) := copycheck usersrc len in
  if negb (result =? 0) then mret (result, []) else
  if negb (stoplen =? len) then mret (EFAULT, []) else
  s ← kget;
  let '(bs, ok) := fetch (umem s) usersrc (Z.to_nat len) in
  mret (if ok then 0 else EFAULT, bs).

(** [src] holds the bytes of the kernel object from the source pointer on. *)
Definition copyout (src : list Z) (userdest len : Z) : K uspace Z :=
  let '(result, stoplen) := copycheck userdest len in
  if negb (result =? 0) then mret result else
  if negb (stoplen =? len) then mret EFAULT else
  if Z.of_nat (length src) <? len then kundef else
  s ← kget;
  let '(m, ok) := store (umem s) userdest (take (Z.to_nat len) src) in
  kput (USpace (t_vmspace s) m);;
  mret (if ok then 0 else EFAULT).

(** The common loop of the string functions; [None] is a fault.  It is used
    with the source in user space and the destination in the kernel, and the
    other way round. *)
Definition copystr {S D} (get : Z → K S (option Z)) (put : Z → Z → D → K S (option D))
    (dest : D) (maxlen stoplen : Z) : K S (option (Z * option Z) * D) :=
  r ← kfind (Z.to_nat (Z.min maxlen stoplen)) 0 (λ i dest,
        c ← get i;
        match c with
        | None => mret (inr (None, dest))
        | Some c =>
            d ← put i c dest;
            match d with
            | None => mret (inr (None, dest))
            | Some dest =>
                if c =? 0 then mret (inr (Some (0, Some (i + 1)), dest))
                else mret (inl dest)
            end
        end) dest;
  match r with
  | inr x => mret x
  | inl dest =>
      mret (Some (if stoplen <? maxlen then (EFAULT, None) else (ENAMETOOLONG, None)), dest)
  end.

(** The error code, the destination buffer and the value stored through
    [actual]. *)
Definition copyinstr (usersrc : Z) (dest : list Z) (len : Z)
    : K uspace (Z * list Z * option Z) :=
  let '(result, stoplen) := copycheck usersrc len in
  if negb (result =? 0) then mret (result, dest, None) else
  '(r, dest) ← copystr (λ i, s ← kget; mret (umem s !! (usersrc + i)))
                 (λ i c d, d ← kof (lset d i c); mret (Some d)) dest len stoplen;
  mret (match r with
        | Some (result, actual) => (result, dest, actual)
        | None => (EFAULT, dest, None)
        end).

Definition copyoutstr (src : list Z) (userdest len : Z) : K uspace (Z * option Z) :=
  let '(result, stoplen) := copycheck userdest len in
  if negb (result =? 0) then mret (result, None) else
  '(r, _) ← copystr (λ i, c ← kof (lget src i); mret (Some c))
              (λ i c _, s ← kget;
                 match umem s !! (userdest + i) with
                 | None => mret None
                 | Some _ => kput (USpace (t_vmspace s) (<[userdest + i := c]> (umem s)));;
                             mret (Some tt)
                 end) tt len stoplen;
  mret (match r with
        | Some (result, actual) => (result, actual)
        | None => (EFAULT, None)
        end).

(** ** Regions of user memory *)

(** [bytes_at m a bs]: user memory holds [bs] from address [a] on. *)
Definition bytes_at (m : gmap Z Z) (a : Z) (bs : list Z) : Prop :=
  ∀ (k : nat) b, bs !! k = Some b → m !! (a + Z.of_nat k) = Some b.

(** Every address of the region can be accessed. *)
Definition mapped (m : gmap Z Z) (a n : Z) : Prop :=
  ∀ i, 0 ≤ i < n → is_Some (m !! (a + i)).

Lemma fetch_app m a n1 n2 :
  fetch m a (n1 + n2) =
  let '(b1, ok1) := fetch m a n1 in
  if ok1 then let '(b2, ok2) := fetch m (a + Z.of_nat n1) n2 in (b1 ++ b2, ok2)
  else (b1, false).
Proof.
  revert a. induction n1 as [|n1 IH]; intros a; simpl.
  { rewrite Z.add_0_r. by destruct (fetch m a n2). }
  destruct (m !! a); [|done]. rewrite IH.
  destruct (fetch m (a + 1) n1) as [b1 []]; [|done].
  replace (a + Z.of_nat (S n1)) with (a + 1 + Z.of_nat n1) by lia.
  by destruct (fetch m (a + 1 + Z.of_nat n1) n2).
Qed.

Lemma fetch_bytes_at m a bs : bytes_at m a bs → fetch m a (length bs) = (bs, true).
Proof.
  revert a. induction bs as [|b bs IH]; intros a Hat; simpl; [done|].
  pose proof (Hat 0%nat b eq_refl) as Hb. rewrite Z.add_0_r in Hb. rewrite Hb, IH; [done|].
  intros k c Hk. specialize (Hat (S k) c Hk). by replace (a + 1 + Z.of_nat k) with (a + Z.of_nat (S k)) by lia.
Qed.

Lemma fetch_length m a n : (length (fetch m a n).1 ≤ n)%nat.
Proof.
  revert a. induction n as [|n IH]; intros a; simpl; [lia|]. destruct (m !! a); simpl; [|lia].
  specialize (IH (a + 1)). destruct (fetch m (a + 1) n); simpl in *. lia.
Qed.

Lemma fetch_true m a n bs :
  fetch m a n = (bs, true) → length bs = n ∧ bytes_at m a bs.
Proof.
  revert a bs. induction n as [|n IH]; intros a bs Hf; simplify_eq/=.
  { split; [done|]. intros k b Hk. by rewrite lookup_nil in Hk. }
  destruct (m !! a) as [c|] eqn:Hc; [|done].
  destruct (fetch m (a + 1) n) as [bs' ok'] eqn:Hf'; simplify_eq.
  destruct (IH _ _ Hf') as [Hlen Hat]. split; [simpl; lia|].
  intros [|k] b Hk; simplify_eq/=; [by rewrite Z.add_0_r|].
  specialize (Hat k b Hk). by replace (a + Z.of_nat (S k)) with (a + 1 + Z.of_nat k) by lia.
Qed.

Lemma fetch_mapped m a n :
  mapped m a (Z.of_nat n) ↔ (fetch m a n).2 = true.
Proof.
  revert a. induction n as [|n IH]; intros a; simpl.
  { split; [done|]. intros _ i Hi. lia. }
  destruct (m !! a) as [c|] eqn:Hc; simpl.
  - specialize (IH (a + 1)). destruct (fetch m (a + 1) n) as [bs ok]; simpl in *.
    rewrite <- IH. split.
    + intros Hm i Hi. replace (a + 1 + i) with (a + (i + 1)) by lia. apply Hm. lia.
    + intros Hm i Hi. destruct (decide (i = 0)) as [->|]; [rewrite Z.add_0_r; eauto|].
      replace (a + i) with (a + 1 + (i - 1)) by lia. apply Hm. lia.
  - split; [|done]. intros Hm. destruct (Hm 0) as [c Hc']; [lia|].
    rewrite Z.add_0_r in Hc'. congruence.
Qed.

Lemma store_spec m a bs :
  mapped m a (Z.of_nat (length bs)) →
  ∃ m', store m a bs = (m', true) ∧ bytes_at m' a bs ∧
        (∀ i, i < a ∨ a + Z.of_nat (length bs) ≤ i → m' !! i = m !! i).
Proof.
  revert m a. induction bs as [|b bs IH]; intros m a Hm; simpl.
  { exists m. split_and!; [done| |done]. intros k b Hk. by rewrite lookup_nil in Hk. }
  destruct (Hm 0) as [c Hc]; [simpl; lia|]. rewrite Z.add_0_r in Hc. rewrite Hc.
  destruct (IH (<[a := b]> m) (a + 1)) as (m' & -> & Hat & Hframe).
  { intros i Hi. rewrite lookup_insert_ne by lia.
    replace (a + 1 + i) with (a + (i + 1)) by lia. apply Hm. simpl. lia. }
  exists m'. split_and!; [done| |].
  - intros [|k] d Hk; simplify_eq/=.
    + rewrite Z.add_0_r, Hframe by lia. by rewrite lookup_insert_eq.
    + specialize (Hat k d Hk). by replace (a + Z.of_nat (S k)) with (a + 1 + Z.of_nat k) by lia.
  - intros i Hi. rewrite Hframe by lia. apply lookup_insert_ne. lia.
Qed.

Lemma store_mapped m a bs :
  (store m a bs).2 = true ↔ mapped m a (Z.of_nat (length bs)).
Proof.
  revert m a. induction bs as [|b bs IH]; intros m a; simpl.
  { split; [|done]. intros _ i Hi. lia. }
  destruct (m !! a) as [c|] eqn:Hc; simpl.
  - rewrite IH. split; intros Hm i Hi.
    + destruct (decide (i = 0)) as [->|]; [rewrite Z.add_0_r; eauto|].
      specialize (Hm (i - 1) ltac:(lia)). rewrite lookup_insert_ne in Hm by lia.
      by replace (a + 1 + (i - 1)) with (a + i) in Hm by lia.
    + rewrite lookup_insert_ne by lia. replace (a + 1 + i) with (a + (i + 1)) by lia.
      apply Hm. lia.
  - split; [done|]. intros Hm. destruct (Hm 0) as [d Hd]; [lia|].
    rewrite Z.add_0_r in Hd. congruence.
Qed.

Lemma store_app m a bs cs :
  mapped m a (Z.of_nat (length bs)) →
  store m a (bs ++ cs) = store (store m a bs).1 (a + Z.of_nat (length bs)) cs.
Proof.
  rewrite <- store_mapped. revert m a. induction bs as [|b bs IH]; intros m a Hm; simpl in *.
  { by rewrite Z.add_0_r. }
  destruct (m !! a); [|done]. rewrite IH by done. f_equal. lia.
Qed.

(** A faulting copy writes a prefix of the data and maps nothing new. *)
Lemma store_dom m a bs : dom (store m a bs).1 = dom m.
Proof.
  revert m a. induction bs as [|b bs IH]; intros m a; simpl; [done|].
  destruct (m !! a) eqn:Hc; [|done]. rewrite IH. apply dom_insert_lookup_L. eauto.
Qed.

(** ** The region check *)

(** A non-empty region is accepted unshortened exactly if it ends below
    [USERTOP]; one that starts below and ends above is shortened. *)
Lemma copycheck_spec a n :
  0 ≤ a < 2 ^ 32 → 0 < n < 2 ^ 32 →
  copycheck a n =
  if a + n <=? USERTOP then (0, n)
  else if (a <? USERTOP) && (a + n <=? 2 ^ 32) then (0, USERTOP - a)
  else (EFAULT, n).
Proof.
  intros Ha Hn. unfold copycheck, USERTOP, u32.
  destruct (decide (a + n < 2 ^ 32)).
  - rewrite (Z.mod_small (a + n)), Z.mod_small by lia.
    destruct (Z.ltb_spec (a + n - 1) a), (Z.leb_spec (a + n) 2147483648),
      (Z.leb_spec 2147483648 a), (Z.leb_spec 2147483648 (a + n - 1)),
      (Z.ltb_spec a 2147483648), (Z.leb_spec (a + n) (2 ^ 32)); simpl; lia || done.
  - assert ((a + n) mod 2 ^ 32 = a + n - 2 ^ 32) as ->
      by (symmetry; apply Z.mod_unique with 1; lia).
    assert ((a + n - 2 ^ 32 - 1) mod 2 ^ 32 =
            if a + n =? 2 ^ 32 then 2 ^ 32 - 1 else a + n - 2 ^ 32 - 1) as ->.
    { destruct (Z.eqb_spec (a + n) (2 ^ 32)).
      - symmetry. apply Z.mod_unique with (-1); lia.
      - apply Z.mod_small. lia. }
    destruct (Z.eqb_spec (a + n) (2 ^ 32)) as [->|];
      destruct (Z.ltb_spec a 2147483648); simpl.
    + rewrite (proj2 (Z.ltb_ge _ _)), (proj2 (Z.leb_gt _ _)) by lia. done.
    + rewrite (proj2 (Z.ltb_ge _ _)), (proj2 (Z.leb_le _ _)) by lia. done.
    + rewrite (proj2 (Z.ltb_lt _ _)), !(proj2 (Z.leb_gt _ _)) by lia. done.
    + rewrite (proj2 (Z.ltb_lt _ _)), !(proj2 (Z.leb_gt _ _)) by lia. done.
Qed.

(** ** Operations *)

(** The region lies in user space and every byte of it can be accessed. *)
Definition accessible (m : gmap Z Z) (a n : Z) : Prop :=
  a + n ≤ USERTOP ∧ mapped m a n.

Lemma copycheck_full a n r stop :
  0 ≤ a < 2 ^ 32 → 0 < n < 2 ^ 32 → copycheck a n = (r, stop) →
  (r = 0 ∧ stop = n ∧ a + n ≤ USERTOP) ∨ (r = EFAULT ∧ USERTOP < a + n) ∨
  (r = 0 ∧ stop = USERTOP - a ∧ stop < n ∧ 0 < stop).
Proof.
  intros Ha Hn. rewrite copycheck_spec by done. unfold USERTOP in *.
  destruct (Z.leb_spec (a + n) 2147483648); [intros; simplify_eq; lia|].
  destruct (Z.ltb_spec a 2147483648), (Z.leb_spec (a + n) (2 ^ 32));
    intros; simplify_eq/=; lia.
Qed.

Lemma copyin_spec a n (Q : Z * list Z → world uspace → Prop) w :
  0 ≤ a < 2 ^ 32 → 0 < n < 2 ^ 32 →
  (∀ bs, Z.of_nat (length bs) = n → bytes_at (umem (wst w)) a bs → a + n ≤ USERTOP →
     Q (0, bs) w) →
  (∀ bs, Z.of_nat (length bs) ≤ n → ¬ accessible (umem (wst w)) a n → Q (EFAULT, bs) w) →
  wp (copyin a n) Q w.
Proof.
  intros Ha Hn HQ1 HQ2. unfold copyin. destruct (copycheck a n) as [r stop] eqn:Hc.
  apply copycheck_full in Hc as [(-> & -> & Htop)|[(-> & Htop)|(-> & -> & Hlt & _)]]; try done; simpl.
  - rewrite Z.eqb_refl. simpl. kstep.
    destruct (fetch (umem (wst w)) a (Z.to_nat n)) as [bs ok] eqn:Hf. kstep. destruct ok.
    + destruct (fetch_true _ _ _ _ Hf). apply HQ1; [lia|done|done].
    + apply HQ2.
      * pose proof (fetch_length (umem (wst w)) a (Z.to_nat n)) as Hlen.
        rewrite Hf in Hlen. simpl in Hlen. lia.
      * intros [_ Hm]. rewrite <- (Z2Nat.id n), fetch_mapped, Hf in Hm by lia. done.
  - kstep. apply HQ2; [simpl; lia|]. intros [? _]. lia.
  - destruct (Z.eqb_spec (USERTOP - a) n); [lia|]. simpl. kstep. apply HQ2; [simpl; lia|].
    intros [? _]. lia.
Qed.

Lemma copyout_spec src a n (Q : Z → world uspace → Prop) w :
  0 ≤ a < 2 ^ 32 → 0 < n < 2 ^ 32 → n ≤ Z.of_nat (length src) →
  (∀ m', bytes_at m' a (take (Z.to_nat n) src) → a + n ≤ USERTOP →
     (∀ i, i < a ∨ a + n ≤ i → m' !! i = umem (wst w) !! i) →
     dom m' = dom (umem (wst w)) →
     Q 0 (World (USpace (t_vmspace (wst w)) m') (wmem w))) →
  (∀ m', ¬ accessible (umem (wst w)) a n → dom m' = dom (umem (wst w)) →
     Q EFAULT (World (USpace (t_vmspace (wst w)) m') (wmem w))) →
  wp (copyout src a n) Q w.
Proof.
  intros Ha Hn Hsrc HQ1 HQ2. unfold copyout. destruct (copycheck a n) as [r stop] eqn:Hc.
  assert (¬ accessible (umem (wst w)) a n → Q EFAULT w) as HQ2'.
  { intros Hna. specialize (HQ2 (umem (wst w)) Hna eq_refl). by destruct w as [[] ?]. }
  apply copycheck_full in Hc as [(-> & -> & Htop)|[(-> & Htop)|(-> & -> & Hlt & _)]]; try done; simpl.
  - rewrite Z.eqb_refl, (proj2 (Z.ltb_ge _ _)) by lia. simpl. kstep.
    set (bs := take (Z.to_nat n) src).
    assert (Z.of_nat (length bs) = n) as Hbs by (unfold bs; rewrite length_take; lia).
    destruct (store (umem (wst w)) a bs) as [m' ok] eqn:Hst. kstep.
    pose proof (store_dom (umem (wst w)) a bs) as Hdom. rewrite Hst in Hdom. destruct ok.
    + assert (mapped (umem (wst w)) a n) as Hm by (rewrite <- Hbs, <- store_mapped, Hst; done).
      rewrite <- Hbs in Hm. destruct (store_spec _ _ _ Hm) as (m'' & Hst' & Hat & Hfr).
      rewrite Hst' in Hst. simplify_eq. apply HQ1; [done|done| |done].
      intros i Hi. apply Hfr. lia.
    + apply HQ2; [|done]. intros [_ Hm]. rewrite <- Hbs, <- store_mapped, Hst in Hm. done.
  - kstep. apply HQ2'. intros [? _]. lia.
  - destruct (Z.eqb_spec (USERTOP - a) n); [lia|]. simpl. kstep. apply HQ2'. intros [? _]. lia.
Qed.

(** On an accessible region both copies are the plain transfer. *)
Lemma copyin_ok a n (Q : Z * list Z → world uspace → Prop) w :
  0 ≤ a → 0 < n → accessible (umem (wst w)) a n →
  Q (0, (fetch (umem (wst w)) a (Z.to_nat n)).1) w → wp (copyin a n) Q w.
Proof.
  intros Ha Hn [Htop Hm] HQ. unfold USERTOP in *. unfold copyin.
  rewrite copycheck_spec by lia. unfold USERTOP. rewrite (proj2 (Z.leb_le _ _)) by lia.
  simpl. rewrite Z.eqb_refl. simpl. kstep. rewrite <- (Z2Nat.id n), fetch_mapped in Hm by lia.
  destruct (fetch (umem (wst w)) a (Z.to_nat n)) as [bs ok]. simpl in *. subst. by kstep.
Qed.

Lemma copyout_ok bs a n (Q : Z → world uspace → Prop) w :
  0 ≤ a → 0 < n → n = Z.of_nat (length bs) → accessible (umem (wst w)) a n →
  Q 0 (World (USpace (t_vmspace (wst w)) (store (umem (wst w)) a bs).1) (wmem w)) →
  wp (copyout bs a n) Q w.
Proof.
  intros Ha Hn -> [Htop Hm] HQ. unfold USERTOP in *. unfold copyout.
  rewrite copycheck_spec by lia. unfold USERTOP.
  rewrite (proj2 (Z.leb_le _ _)) by lia. simpl. rewrite Z.eqb_refl, Z.ltb_irrefl.
  simpl. kstep. rewrite Nat2Z.id, take_ge by lia. rewrite <- store_mapped in Hm.
  destruct (store (umem (wst w)) a bs) as [m' ok]. simpl in *. subst. by kstep.
Qed.

(** [copyinstr]: [s] is the string without its terminator. *)
Lemma copyinstr_spec a dest n (Q : Z * list Z * option Z → world uspace → Prop) w :
  0 ≤ a < 2 ^ 32 → 0 < n < 2 ^ 32 → n ≤ Z.of_nat (length dest) →
  (∀ s, Forall (λ c, c ≠ 0) s → Z.of_nat (length s) < n →
     bytes_at (umem (wst w)) a (s ++ [0]) → a + Z.of_nat (length s) < USERTOP →
     Q (0, s ++ [0] ++ drop (S (length s)) dest, Some (Z.of_nat (length s) + 1)) w) →
  (∀ s, Forall (λ c, c ≠ 0) s → Z.of_nat (length s) = n →
     bytes_at (umem (wst w)) a s → a + n ≤ USERTOP →
     Q (ENAMETOOLONG, s ++ drop (length s) dest, None) w) →
  (∀ s, Forall (λ c, c ≠ 0) s → Z.of_nat (length s) < n →
     bytes_at (umem (wst w)) a s →
     USERTOP ≤ a + Z.of_nat (length s) ∨ umem (wst w) !! (a + Z.of_nat (length s)) = None ∨
     2 ^ 32 < a + n → Q (EFAULT, s ++ drop (length s) dest, None) w) →
  wp (copyinstr a dest n) Q w.
Proof.
  intros Ha Hn Hdest HQ1 HQ2 HQ3. unfold copyinstr. destruct (copycheck a n) as [r stop] eqn:Hc.
  assert (bytes_at (umem (wst w)) a []) as Hnil by (intros k b Hk; by rewrite lookup_nil in Hk).
  pose proof Hc as Hc'. rewrite copycheck_spec in Hc' by done.
  destruct (decide (r = EFAULT)) as [->|].
  { simpl. kstep. apply (HQ3 []); [done|simpl; lia|done|]. simpl.
    destruct (Z.leb_spec (a + n) USERTOP); [done|].
    destruct (Z.ltb_spec a USERTOP), (Z.leb_spec (a + n) (2 ^ 32)); simplify_eq/=; unfold USERTOP in *; lia. }
  assert (r = 0 ∧ 0 < stop ≤ n ∧ (stop = n ∧ a + n ≤ USERTOP ∨ stop < n ∧ stop = USERTOP - a))
    as (-> & Hstop & Hcase).
  { apply copycheck_full in Hc as [(-> & -> & ?)|[(-> & ?)|(-> & -> & ? & ?)]]; try done; lia. }
  simpl. kstep. unfold copystr. kstep.
  apply (wp_kfind (λ i d w', w' = w ∧ ∃ s, Forall (λ c, c ≠ 0) s ∧ Z.of_nat (length s) = i ∧
           bytes_at (umem (wst w)) a s ∧ d = s ++ drop (length s) dest)).
  - split; [done|]. exists []. rewrite drop_0. done.
  - intros i d w' Hi (-> & s & Hs & Hlen & Hat & ->). kstep.
    destruct (umem (wst w) !! (a + i)) as [c|] eqn:Hu; kstep.
    2:{ apply HQ3; [done|lia|done|]. rewrite Hlen. auto. }
    assert (lset (s ++ drop (length s) dest) i c = Some (s ++ [c] ++ drop (S (length s)) dest)) as Hset.
    { rewrite lset_Some by (rewrite length_app, length_drop; lia). f_equal.
      replace (Z.to_nat i) with (length s + 0)%nat by lia.
      rewrite insert_app_r. f_equal. destruct (lookup_lt_is_Some_2 dest (length s)) as [x Hx]; [lia|].
      by rewrite (drop_S _ x) by done. }
    rewrite (wp_kof _ _ _ _ Hset). kstep.
    assert (bytes_at (umem (wst w)) a (s ++ [c])) as Hat'.
    { intros k b [Hk|[Hge Hk]]%lookup_app_Some; [by apply Hat|].
      apply list_lookup_singleton_Some in Hk as [? <-].
      by replace (a + Z.of_nat k) with (a + i) by lia. }
    destruct (Z.eqb_spec c 0) as [->|]; kstep.
    + replace (i + 1) with (Z.of_nat (length s) + 1) by lia. apply HQ1; [done|lia|done|lia].
    + split; [done|]. exists (s ++ [c]). rewrite length_app. simpl.
      split_and!; [by apply Forall_app_2; [|constructor]|lia|done|].
      rewrite <- app_assoc. simpl. by rewrite Nat.add_1_r.
  - intros d w' (-> & s & Hs & Hlen & Hat & ->). kstep. destruct (Z.ltb_spec stop n).
    + apply HQ3; [done|lia|done|lia].
    + apply HQ2; [done|lia|done|lia].
Qed.

(** ** Theorems *)

(** A page of user memory at 0x400000 holding a string. *)
Definition page : uspace :=
  USpace (Some 1) (list_to_map (imap (λ i b, (4194304 + Z.of_nat i, b)) [104; 105; 0; 7])).

(** [copyin] succeeds exactly when the whole source region lies below
    [USERTOP] and is mapped, and then delivers its bytes; otherwise it returns
    EFAULT.  It never panics and never changes user memory. *)
Theorem copyin_exact a n s m :
  0 ≤ a < 2 ^ 32 → 0 < n < 2 ^ 32 →
  wp (copyin a n)
     (λ '(r, bs) w',
        w' = World s m ∧ Z.of_nat (length bs) ≤ n ∧
        ((r = 0 ∧ accessible (umem s) a n ∧ Z.of_nat (length bs) = n ∧ bytes_at (umem s) a bs) ∨
         (r = EFAULT ∧ ¬ accessible (umem s) a n))) (World s m).
Proof.
  intros Ha Hn. apply copyin_spec; [done|done| |].
  - intros bs Hlen Hat Htop. split_and!; [done|lia|]. left. split_and!; [done| |done|done].
    split; [done|]. intros i Hi. destruct (lookup_lt_is_Some_2 bs (Z.to_nat i)) as [b Hb]; [lia|].
    exists b. rewrite <- (Hat _ _ Hb). f_equal. lia.
  - intros bs Hlen Hna. split_and!; [done|lia|]. by right.
Qed.

Lemma copyin_exact_witness :
  wp (copyin 4194304 3)
     (λ '(r, bs) w',
        w' = World page [] ∧ Z.of_nat (length bs) ≤ 3 ∧
        ((r = 0 ∧ accessible (umem page) 4194304 3 ∧ Z.of_nat (length bs) = 3 ∧
          bytes_at (umem page) 4194304 bs) ∨
         (r = EFAULT ∧ ¬ accessible (umem page) 4194304 3))) (World page []).
Proof. apply (copyin_exact 4194304 3 page []); lia. Defined.

(** what [copyout] has stored, [copyin] reads back, and no other byte of
    user memory changes. *)
Theorem copyout_copyin_roundtrip src a n s m :
  0 ≤ a < 2 ^ 32 → 0 < n < 2 ^ 32 → n ≤ Z.of_nat (length src) →
  accessible (umem s) a n →
  wp (r1 ← copyout src a n; '(r2, bs) ← copyin a n; mret (r1, r2, bs))
     (λ '(r1, r2, bs) w',
        r1 = 0 ∧ r2 = 0 ∧ bs = take (Z.to_nat n) src ∧
        ∀ i, i < a ∨ a + n ≤ i → umem (wst w') !! i = umem s !! i) (World s m).
Proof.
  intros Ha Hn Hsrc Hacc. kstep. apply copyout_spec; [done..| |done].
  intros m' Hat Htop Hfr _. kstep. apply copyin_spec; [done|done| |].
  - intros bs Hlen Hat' _. kstep. simpl in *. split_and!; [done|done| |done].
    assert (Z.of_nat (length (take (Z.to_nat n) src)) = n) by (rewrite length_take; lia).
    apply list_eq_same_length with (Z.to_nat n); [lia|lia|].
    intros k x y Hk Hx Hy. apply Hat' in Hx. apply Hat in Hy. congruence.
  - intros bs _ []. split; [done|]. simpl. intros i Hi.
    destruct (lookup_lt_is_Some_2 (take (Z.to_nat n) src) (Z.to_nat i)) as [b Hb];
      [rewrite length_take; lia|].
    exists b. rewrite <- (Hat _ _ Hb). f_equal. lia.
Qed.

Lemma copyout_copyin_roundtrip_witness :
  wp (r1 ← copyout [1; 2; 3; 4] 4194305 3; '(r2, bs) ← copyin 4194305 3; mret (r1, r2, bs))
     (λ '(r1, r2, bs) w',
        r1 = 0 ∧ r2 = 0 ∧ bs = [1; 2; 3] ∧
        ∀ i, i < 4194305 ∨ 4194305 + 3 ≤ i → umem (wst w') !! i = umem page !! i) (World page []).
Proof.
  apply (copyout_copyin_roundtrip [1; 2; 3; 4] 4194305 3 page []); [lia|lia|simpl; lia|].
  split; [unfold USERTOP; lia|]. intros i Hi.
  assert (i = 0 ∨ i = 1 ∨ i = 2) as [->|[->| ->]] by lia; eexists; reflexivity.
Defined.

(** [copyinstr] stores at most [len] bytes of the kernel buffer, whatever
    user memory holds: on success a terminated string of the reported length,
    ENAMETOOLONG if the first [len] bytes have no terminator, and EFAULT if the
    string runs into an inaccessible byte or the region wraps around. *)
Theorem copyinstr_bounded a dest n s m :
  0 ≤ a < 2 ^ 32 → 0 < n < 2 ^ 32 → n ≤ Z.of_nat (length dest) →
  wp (copyinstr a dest n)
     (λ '(r, dest', actual) w',
        w' = World s m ∧ ∃ str, Forall (λ c, c ≠ 0) str ∧ bytes_at (umem s) a str ∧
        match r with
        | 0 => Z.of_nat (length str) < n ∧ bytes_at (umem s) a (str ++ [0]) ∧
               dest' = str ++ [0] ++ drop (length str + 1) dest ∧
               actual = Some (Z.of_nat (length str) + 1)
        | _ => actual = None ∧ dest' = str ++ drop (length str) dest ∧
               ((r = ENAMETOOLONG ∧ Z.of_nat (length str) = n) ∨
                (r = EFAULT ∧ Z.of_nat (length str) < n ∧
                 (2 ^ 32 < a + n ∨ ¬ accessible (umem s) a (Z.of_nat (length str) + 1))))
        end) (World s m).
Proof.
  intros Ha Hn Hdest. apply copyinstr_spec; [done..| | |].
  - intros str Hs Hlen Hat _. split; [done|]. exists str. rewrite Nat.add_1_r.
    split_and!; try done. intros k b Hk. apply Hat. by apply lookup_app_l_Some.
  - intros str Hs Hlen Hat Htop. split; [done|]. exists str.
    split_and!; [done|done|]. split_and!; [done|done|]. left. by split.
  - intros str Hs Hlen Hat Hfault. split; [done|]. exists str.
    split_and!; [done|done|]. split_and!; [done|done|]. right. split_and!; [done|done|].
    destruct Hfault as [Htop|[Hnone|Hwrap]]; [right..|by left]; intros [Htop' Hm]; [lia|].
    destruct (Hm (Z.of_nat (length str))) as [c Hc]; [lia|simpl in *; congruence].
Qed.

Lemma copyinstr_bounded_witness :
  wp (copyinstr 4194304 [9; 9; 9; 9; 9] 5)
     (λ '(r, dest', actual) w',
        w' = World page [] ∧ ∃ str, Forall (λ c, c ≠ 0) str ∧ bytes_at (umem page) 4194304 str ∧
        match r with
        | 0 => Z.of_nat (length str) < 5 ∧ bytes_at (umem page) 4194304 (str ++ [0]) ∧
               dest' = str ++ [0] ++ drop (length str + 1) [9; 9; 9; 9; 9] ∧
               actual = Some (Z.of_nat (length str) + 1)
        | _ => actual = None ∧ dest' = str ++ drop (length str) [9; 9; 9; 9; 9] ∧
               ((r = ENAMETOOLONG ∧ Z.of_nat (length str) = 5) ∨
                (r = EFAULT ∧ Z.of_nat (length str) < 5 ∧
                 (2 ^ 32 < 4194304 + 5 ∨
                  ¬ accessible (umem page) 4194304 (Z.of_nat (length str) + 1))))
        end) (World page []).
Proof. apply (copyinstr_bounded 4194304 [9; 9; 9; 9; 9] 5 page []); simpl; lia. Defined.

(** a copy of zero bytes is refused with EFAULT at every address. *)
Theorem copyin_zero_length a s m :
  0 ≤ a < 2 ^ 32 → copyin a 0 (World s m) = Ok ((EFAULT, []), World s m).
Proof.
  intros Ha. unfold copyin, copycheck. rewrite Z.add_0_r, (u32_id a) by done.
  destruct (decide (a = 0)) as [->|]; [done|].
  rewrite u32_id by lia. by rewrite (proj2 (Z.ltb_lt _ _)) by lia.
Qed.

Lemma copyin_zero_length_witness :
  copyin 4194304 0 (World page []) = Ok ((EFAULT, []), World page []).
Proof. apply (copyin_zero_length 4194304 page []). lia. Defined.
