(* ===== verification/Uio.v ===== *)
(** * Data transfer descriptors (kern/userprog/uio.c, kern/include/uio.h)

    A [uio] names the buffer of a read or write request.  The iovec of a kernel
    request is the kernel object and the position of [iov_kbase] in it; that of
    a user request is a user address, reached through [copyin] and [copyout].
    [uio_fill] is the effect of moving data into the request and [uio_bytes]
    the data a write request holds. *)

From S2P Require Import Prelude CopyInOut.

(** The enumerations have no other values, so the default cases of the code's
    tests on them are unreachable. *)
Inductive uio_rw_t : Type := UIO_READ | UIO_WRITE.

Inductive uio_seg : Type := UIO_USERSPACE | UIO_SYSSPACE | UIO_USERISPACE.

#[global] Instance uio_rw_eq_dec : EqDecision uio_rw_t.
Proof. solve_decision. Defined.

#[global] Instance uio_seg_eq_dec : EqDecision uio_seg.
Proof. solve_decision. Defined.

Inductive iov_un : Type := Kbase (obj : list Z) (pos : Z) | Ubase (addr : Z).

Record uio : Type := Uio {
  iov_base : iov_un;
  iov_len : Z;
  uio_offset : Z;
  uio_resid : Z;
  uio_segflg : uio_seg;
  uio_rw : uio_rw_t;
  uio_space : option Z
}.

(** The updates at the end of the loop of [uiomove]. *)
Definition uio_advance (u : uio) (base : iov_un) (size : Z) : uio :=
  Uio base (iov_len u - size) (i32 (uio_offset u + size)) (u32 (uio_resid u - size))
      (uio_segflg u) (uio_rw u) (uio_space u).

(** [kbuf] is the kernel object that [ptr] points into; the result is the error
    code, the object and the [uio] afterwards. *)
Definition uiomove (kbuf : list Z) (ptr n : Z) (u : uio) : K uspace (Z * list Z * uio) :=
  s ← kget;
  kassert (match uio_segflg u with
           | UIO_SYSSPACE => bool_decide (uio_space u = None)
           | _ => bool_decide (uio_space u = t_vmspace s)
           end);;
  r ← kloop 2 (λ '(kbuf, ptr, n, u), (0 <? n) && (0 <? uio_resid u))
        (λ '(kbuf, ptr, n, u),
          let size := iov_len u in
          let size := if n <? size then n else size in
          if size =? 0 then kpanic else
          match uio_segflg u, iov_base u with
          | UIO_SYSSPACE, Kbase obj pos =>
              match uio_rw u with
              | UIO_READ =>
                  bs ← kof (lslice kbuf ptr size);
                  obj ← kof (lsplice obj pos bs);
                  mret (inl (kbuf, ptr + size, n - size, uio_advance u (Kbase obj (pos + size)) size))
              | UIO_WRITE =>
                  bs ← kof (lslice obj pos size);
                  kbuf ← kof (lsplice kbuf ptr bs);
                  mret (inl (kbuf, ptr + size, n - size, uio_advance u (Kbase obj (pos + size)) size))
              end
          | (UIO_USERSPACE | UIO_USERISPACE), Ubase a =>
              match uio_rw u with
              | UIO_READ =>
                  bs ← kof (lslice kbuf ptr size);
                  result ← copyout bs a size;
                  if negb (result =? 0) then mret (inr (result, kbuf, u)) else
                  mret (inl (kbuf, ptr + size, n - size, uio_advance u (Ubase (u32 (a + size))) size))
              | UIO_WRITE =>
                  '(result, bs) ← copyin a size;
                  kbuf ← kof (lsplice kbuf ptr bs);
                  if negb (result =? 0) then mret (inr (result, kbuf, u)) else
                  mret (inl (kbuf, ptr + size, n - size, uio_advance u (Ubase (u32 (a + size))) size))
              end
          | _, _ => kundef
          end) (kbuf, ptr, n, u);
  match r with
  | inr x => mret x
  | inl (kbuf, _, _, u) => mret (0, kbuf, u)
  end.

Definition uiomovezeros (n : Z) (u : uio) : K uspace (Z * uio) :=
  kassert (bool_decide (uio_rw u = UIO_READ));;
  r ← kloop (Z.to_nat n) (λ '(n, u), 0 <? n)
        (λ '(n, u),
          let amt := 16 in
          let amt := if n <? amt then n else amt in
          '(result, _, u) ← uiomove (replicate 16 0) 0 amt u;
          if negb (result =? 0) then mret (inr (result, u)) else
          mret (inl (n - amt, u))) (n, u);
  match r with
  | inr x => mret x
  | inl (_, u) => mret (0, u)
  end.

Definition mk_kuio (kbuf : list Z) (len pos : Z) (rw : uio_rw_t) : uio :=
  Uio (Kbase kbuf 0) len pos len UIO_SYSSPACE rw None.

(** ** Specification of a transfer *)

(** The next [k] bytes of the buffer can be accessed. *)
Definition uio_can (u : uio) (s : uspace) (k : Z) : Prop :=
  0 ≤ k ≤ iov_len u ∧ iov_len u < 2 ^ 32 ∧
  match uio_segflg u, iov_base u with
  | UIO_SYSSPACE, Kbase obj pos =>
      uio_space u = None ∧ 0 ≤ pos ∧ pos + k ≤ Z.of_nat (length obj)
  | (UIO_USERSPACE | UIO_USERISPACE), Ubase a =>
      uio_space u = t_vmspace s ∧ 0 ≤ a ∧ accessible (umem s) a k
  | _, _ => False
  end.

(** The next [k] bytes of the buffer. *)
Definition uio_bytes (u : uio) (s : uspace) (k : Z) : list Z :=
  match iov_base u with
  | Kbase obj pos => take (Z.to_nat k) (drop (Z.to_nat pos) obj)
  | Ubase a => (fetch (umem s) a (Z.to_nat k)).1
  end.

(** The buffer with its first bytes replaced by [bs]. *)
Definition fill_base (u : uio) (bs : list Z) : iov_un :=
  match iov_base u with
  | Kbase obj pos => Kbase (splice obj (Z.to_nat pos) bs) pos
  | Ubase a => Ubase a
  end.

Definition fill_space (u : uio) (s : uspace) (bs : list Z) : uspace :=
  match iov_base u with
  | Kbase obj pos => s
  | Ubase a => USpace (t_vmspace s) (store (umem s) a bs).1
  end.

Definition skip_base (b : iov_un) (n : Z) : iov_un :=
  match b with
  | Kbase obj pos => Kbase obj (pos + n)
  | Ubase a => Ubase (a + n)
  end.

(** A read request after [bs] has been moved into it, and a write request after
    [n] bytes have been taken from it. *)
Definition uio_fill (u : uio) (bs : list Z) : uio :=
  let n := Z.of_nat (length bs) in
  Uio (skip_base (fill_base u bs) n) (iov_len u - n) (uio_offset u + n) (uio_resid u - n)
      (uio_segflg u) (uio_rw u) (uio_space u).

Definition uio_skip (u : uio) (n : Z) : uio :=
  Uio (skip_base (iov_base u) n) (iov_len u - n) (uio_offset u + n) (uio_resid u - n)
      (uio_segflg u) (uio_rw u) (uio_space u).

(** The offset stays representable over the next [k] bytes. *)
Definition uio_fits (u : uio) (k : Z) : Prop :=
  0 ≤ uio_offset u ∧ uio_offset u + k < 2 ^ 31 ∧ k ≤ uio_resid u < 2 ^ 32.

Lemma uio_advance_eq u b k :
  uio_fits u k → 0 ≤ k →
  uio_advance u b k =
  Uio b (iov_len u - k) (uio_offset u + k) (uio_resid u - k) (uio_segflg u) (uio_rw u) (uio_space u).
Proof.
  intros (? & ? & ?) ?. unfold uio_advance. rewrite i32_id, u32_id by lia. done.
Qed.

Lemma uio_fill_nil u : uio_fill u [] = u.
Proof.
  unfold uio_fill, fill_base. destruct u as [[obj pos|a] ? ? ? ? ? ?]; simpl;
    by rewrite ?splice_nil, !Z.add_0_r, !Z.sub_0_r.
Qed.

Lemma uio_skip_0 u : uio_skip u 0 = u.
Proof.
  unfold uio_skip. destruct u as [[obj pos|a] ? ? ? ? ? ?]; simpl;
    by rewrite !Z.add_0_r, !Z.sub_0_r.
Qed.

Lemma fill_space_nil u s : fill_space u s [] = s.
Proof. unfold fill_space. destruct s. by destruct (iov_base u). Qed.

Lemma uio_can_assert u s k :
  uio_can u s k →
  match uio_segflg u with
  | UIO_SYSSPACE => bool_decide (uio_space u = None)
  | _ => bool_decide (uio_space u = t_vmspace s)
  end = true.
Proof.
  intros (_ & _ & H). destruct (uio_segflg u), (iov_base u); try done;
    by apply bool_decide_eq_true, H.
Qed.

(** Moving data into a read request. *)
Lemma uiomove_read kbuf ptr n u bs Q w :
  uio_rw u = UIO_READ → uio_can u (wst w) n → uio_fits u n →
  lslice kbuf ptr n = Some bs →
  Q (0, kbuf, uio_fill u bs) (World (fill_space u (wst w) bs) (wmem w)) →
  wp (uiomove kbuf ptr n u) Q w.
Proof.
  intros Hrw Hcan Hfit Hbs HQ. pose proof (lslice_inv _ _ _ _ Hbs) as (Hp & Hn & Hle & Hlen & _).
  unfold uiomove. kstep. rewrite wp_kassert by by eapply uio_can_assert. kstep.
  destruct (decide (n = 0)) as [->|].
  { destruct bs; [|done]. rewrite wp_kloop_done by done. kstep.
    rewrite uio_fill_nil, fill_space_nil in HQ. by destruct w. }
  destruct Hcan as ((_ & Hil) & Hmax & Hbase). destruct Hfit as (Hoff & Hoff' & Hres).
  rewrite wp_kloop_step by lia. rewrite Hrw. destruct w as [s m].
  replace (if n <? iov_len u then n else iov_len u) with n by (destruct (Z.ltb_spec n (iov_len u)); lia).
  rewrite (proj2 (Z.eqb_neq _ _)) by done.
  unfold fill_space, uio_fill, fill_base, skip_base in HQ. rewrite Hlen in HQ.
  destruct (uio_segflg u) eqn:Hseg, (iov_base u) as [obj pos|a]; try done; simpl in *.
  2:{ destruct Hbase as (_ & Hpos & Hend). kstep. rewrite (wp_kof _ _ _ _ Hbs). kstep.
      rewrite lsplice_Some by lia. kstep. rewrite wp_kloop_done by lia. kstep.
      rewrite uio_advance_eq, Hseg by (unfold uio_fits; lia || done). done. }
  all: destruct Hbase as (_ & Ha & Hacc); kstep; rewrite (wp_kof _ _ _ _ Hbs); kstep;
    apply copyout_ok; [done|lia|done|done|]; kstep; rewrite wp_kloop_done by lia; kstep;
    rewrite uio_advance_eq, Hseg by (unfold uio_fits; lia || done);
    destruct Hacc; rewrite u32_id by (unfold USERTOP in *; lia); done.
Qed.

(** Taking data from a write request. *)
Lemma uiomove_write kbuf ptr n u Q w :
  uio_rw u = UIO_WRITE → uio_can u (wst w) n → uio_fits u n →
  0 ≤ ptr → ptr + n ≤ Z.of_nat (length kbuf) →
  Q (0, splice kbuf (Z.to_nat ptr) (uio_bytes u (wst w) n), uio_skip u n) w →
  wp (uiomove kbuf ptr n u) Q w.
Proof.
  intros Hrw Hcan Hfit Hp Hle HQ.
  unfold uiomove. kstep. rewrite wp_kassert by by eapply uio_can_assert. kstep.
  destruct Hcan as ((Hn & Hil) & Hmax & Hbase). destruct Hfit as (Hoff & Hoff' & Hres).
  destruct (decide (n = 0)) as [->|].
  { rewrite wp_kloop_done by done. kstep. rewrite uio_skip_0 in HQ. unfold uio_bytes in HQ.
    replace (Z.to_nat 0) with 0%nat in HQ by lia.
    destruct (iov_base u); simpl in HQ; by rewrite ?take_0, splice_nil in HQ. }
  rewrite wp_kloop_step by lia. rewrite Hrw.
  replace (if n <? iov_len u then n else iov_len u) with n by (destruct (Z.ltb_spec n (iov_len u)); lia).
  rewrite (proj2 (Z.eqb_neq _ _)) by done. unfold uio_bytes, uio_skip, skip_base in HQ.
  destruct (uio_segflg u) eqn:Hseg, (iov_base u) as [obj pos|a]; try done; simpl in *.
  2:{ destruct Hbase as (_ & Hpos & Hend). kstep. rewrite lslice_Some by lia. kstep.
      rewrite lsplice_Some by (rewrite ?length_take, ?length_drop; lia). kstep.
      rewrite wp_kloop_done by lia. kstep.
      rewrite uio_advance_eq, Hseg by (unfold uio_fits; lia || done). done. }
  all: destruct Hbase as (_ & Ha & Hacc); kstep; apply copyin_ok; [done|lia|done|]; kstep;
    pose proof (fetch_length (umem (wst w)) a (Z.to_nat n));
    rewrite lsplice_Some by lia; kstep; rewrite wp_kloop_done by lia; kstep;
    rewrite uio_advance_eq, Hseg by (unfold uio_fits; lia || done);
    destruct Hacc; rewrite u32_id by (unfold USERTOP in *; lia); done.
Qed.

(** Successive transfers add up. *)

Lemma uio_fill_fill u s bs cs k :
  uio_can u s k → Z.of_nat (length bs + length cs) ≤ k →
  uio_fill (uio_fill u bs) cs = uio_fill u (bs ++ cs) ∧
  fill_space (uio_fill u bs) (fill_space u s bs) cs = fill_space u s (bs ++ cs).
Proof.
  intros (_ & _ & Hbase) Hk. unfold uio_fill, fill_space, fill_base, skip_base. rewrite length_app.
  destruct (uio_segflg u), (iov_base u) as [obj pos|a]; try done; simpl in *.
  2:{ destruct Hbase as (_ & ? & ?). split; [|done].
      f_equal; [|lia..]. f_equal; [|lia]. rewrite <- splice_splice by lia. f_equal. lia. }
  all: destruct Hbase as (_ & ? & [_ Hm]); (split; [f_equal; [f_equal; lia|lia..]|]); f_equal;
    rewrite store_app by (intros i Hi; apply Hm; lia); done.
Qed.

Lemma uio_can_fill u s bs k :
  uio_can u s k → Z.of_nat (length bs) ≤ k →
  uio_can (uio_fill u bs) (fill_space u s bs) (k - Z.of_nat (length bs)).
Proof.
  intros ((? & ?) & ? & Hbase) Hk. unfold uio_can, uio_fill, fill_space, fill_base, skip_base; simpl.
  split; [lia|]. split; [lia|].
  destruct (uio_segflg u), (iov_base u) as [obj pos|a]; try done; simpl in *.
  2:{ destruct Hbase as (? & ? & ?). rewrite length_splice by lia. split_and!; [done|lia|lia]. }
  all: destruct Hbase as (? & ? & [? Hm]); split_and!; [done|lia|]; (split; [lia|]);
    intros i Hi; apply elem_of_dom; rewrite store_dom; apply elem_of_dom;
    rewrite <- Z.add_assoc; apply Hm; lia.
Qed.

Lemma uio_can_skip u s n k :
  uio_can u s k → 0 ≤ n ≤ k → uio_can (uio_skip u n) s (k - n).
Proof.
  intros ((? & ?) & ? & Hbase) Hk. unfold uio_can, uio_skip, skip_base; simpl.
  split; [lia|]. split; [lia|].
  destruct (uio_segflg u), (iov_base u) as [obj pos|a]; try done; simpl in *.
  2:{ destruct Hbase as (? & ? & ?). split_and!; [done|lia|lia]. }
  all: destruct Hbase as (? & ? & [? Hm]); split_and!; [done|lia|]; (split; [lia|]);
    intros i Hi; rewrite <- Z.add_assoc; apply Hm; lia.
Qed.

Lemma uio_can_mono u s k j : uio_can u s k → 0 ≤ j ≤ k → uio_can u s j.
Proof.
  intros ((? & ?) & ? & Hbase) Hk. split; [lia|]. split; [done|].
  destruct (uio_segflg u), (iov_base u) as [obj pos|a]; try done; simpl in *.
  2:{ destruct Hbase as (? & ? & ?). split_and!; [done|lia|lia]. }
  all: destruct Hbase as (? & ? & [? Hm]); split_and!; [done|lia|]; (split; [lia|]);
    intros i Hi; apply Hm; lia.
Qed.

Lemma uio_skip_skip u n k : uio_skip (uio_skip u n) k = uio_skip u (n + k).
Proof.
  unfold uio_skip, skip_base. destruct (iov_base u); simpl; f_equal; try lia; f_equal; lia.
Qed.

Lemma length_uio_bytes u s k : uio_can u s k → Z.of_nat (length (uio_bytes u s k)) = k.
Proof.
  intros ((? & ?) & ? & Hbase). unfold uio_bytes.
  destruct (uio_segflg u), (iov_base u) as [obj pos|a]; try done; simpl in *.
  2:{ rewrite length_take, length_drop. lia. }
  all: destruct Hbase as (? & ? & [? Hm]);
    (replace k with (Z.of_nat (Z.to_nat k)) in Hm by lia); rewrite fetch_mapped in Hm;
    destruct (fetch (umem s) a (Z.to_nat k)) as [bs ok] eqn:Hf; simpl in *; subst;
    apply fetch_true in Hf as [? _]; lia.
Qed.

Lemma uio_bytes_app u s n k :
  uio_can u s (n + k) → 0 ≤ n → 0 ≤ k →
  uio_bytes u s (n + k) = uio_bytes u s n ++ uio_bytes (uio_skip u n) s k.
Proof.
  intros ((? & ?) & ? & Hbase) Hn Hk. unfold uio_bytes, uio_skip, skip_base; simpl.
  rewrite Z2Nat.inj_add by lia.
  destruct (uio_segflg u), (iov_base u) as [obj pos|a]; try done; simpl in *.
  2:{ rewrite <- take_take_drop, drop_drop. do 3 f_equal. lia. }
  all: destruct Hbase as (? & ? & [? Hm]); rewrite fetch_app, Z2Nat.id by lia;
    assert (mapped (umem s) a (Z.of_nat (Z.to_nat n))) as Hm1 by (intros i Hi; apply Hm; lia);
    rewrite fetch_mapped in Hm1;
    destruct (fetch (umem s) a (Z.to_nat n)) as [b1 ok1]; simpl in *; subst;
    by destruct (fetch (umem s) (a + n) (Z.to_nat k)).
Qed.

Lemma uiomovezeros_spec n u Q w :
  0 ≤ n → uio_rw u = UIO_READ → uio_can u (wst w) n → uio_fits u n →
  Q (0, uio_fill u (replicate (Z.to_nat n) 0))
    (World (fill_space u (wst w) (replicate (Z.to_nat n) 0)) (wmem w)) →
  wp (uiomovezeros n u) Q w.
Proof.
  intros Hn Hrw Hcan (Hoff & Hoff' & Hres) HQ. unfold uiomovezeros. kstep.
  rewrite wp_kassert by by apply bool_decide_eq_true. kstep.
  apply (wp_kloop (λ '(k, u') w', 0 ≤ k ≤ n ∧
           u' = uio_fill u (replicate (Z.to_nat (n - k)) 0) ∧
           w' = World (fill_space u (wst w) (replicate (Z.to_nat (n - k)) 0)) (wmem w))
         (λ '(k, _), Z.to_nat k)).
  - done.
  - rewrite Z.sub_diag, uio_fill_nil, fill_space_nil. destruct w. split_and!; [lia..|done|done].
  - intros [k u'] w' Hk (Hkn & -> & ->). set (amt := if k <? 16 then k else 16).
    assert (0 < amt ≤ k ∧ amt ≤ 16) as (Hamt & Hamt').
    { unfold amt. destruct (Z.ltb_spec k 16); lia. }
    assert (Z.of_nat (length (replicate (Z.to_nat (n - k)) 0)) = n - k) as Hl
      by (rewrite length_replicate; lia).
    kstep. eapply uiomove_read; [done| | | |].
    + eapply uio_can_mono; [apply uio_can_fill; [done|lia]|lia].
    + unfold uio_fits; simpl. lia.
    + apply lslice_Some; [lia|lia|]. rewrite length_replicate. lia.
    + kstep. rewrite drop_0, take_replicate, Nat.min_l by lia.
      destruct (uio_fill_fill u (wst w) (replicate (Z.to_nat (n - k)) 0)
                  (replicate (Z.to_nat amt) 0) n) as [-> ->].
      { done. } { rewrite !length_replicate. lia. }
      rewrite <- replicate_add, <- Z2Nat.inj_add by lia.
      replace (n - k + amt) with (n - (k - amt)) by lia. split_and!; try done; lia.
  - intros [k u'] w' Hk (Hkn & -> & ->). kstep. by replace (n - k) with n by lia.
Qed.

(** A user buffer that cannot be accessed stops the transfer. *)
Lemma uiomove_read_fault kbuf ptr n u a bs Q w :
  uio_rw u = UIO_READ → uio_segflg u = UIO_USERSPACE → iov_base u = Ubase a →
  uio_space u = t_vmspace (wst w) → 0 ≤ a < 2 ^ 32 → 0 < n ≤ iov_len u → iov_len u < 2 ^ 32 →
  0 < uio_resid u → lslice kbuf ptr n = Some bs → ¬ accessible (umem (wst w)) a n →
  (∀ m', dom m' = dom (umem (wst w)) →
     Q (EFAULT, kbuf, u) (World (USpace (t_vmspace (wst w)) m') (wmem w))) →
  wp (uiomove kbuf ptr n u) Q w.
Proof.
  intros Hrw Hseg Hb Hsp Ha Hn Hl Hres Hbs Hna HQ. unfold uiomove. kstep. rewrite Hseg.
  rewrite wp_kassert by by apply bool_decide_eq_true. kstep.
  pose proof (lslice_inv _ _ _ _ Hbs) as (_ & _ & _ & Hlen & _).
  rewrite wp_kloop_step by lia. rewrite Hrw, Hseg, Hb.
  replace (if n <? iov_len u then n else iov_len u) with n by (destruct (Z.ltb_spec n (iov_len u)); lia).
  rewrite (proj2 (Z.eqb_neq _ _)) by lia. kstep. rewrite (wp_kof _ _ _ _ Hbs). kstep.
  apply copyout_spec; [done|lia|lia| |].
  - intros m' Hat Htop Hfr Hdom. destruct Hna. split; [done|]. intros i Hi.
    apply elem_of_dom. rewrite <- Hdom. apply elem_of_dom.
    destruct (lookup_lt_is_Some_2 (take (Z.to_nat n) bs) (Z.to_nat i)) as [b Hbb];
      [rewrite length_take; lia|].
    apply Hat in Hbb. rewrite Z2Nat.id in Hbb by lia. by eexists.
  - intros m' _ Hdom. kstep. by apply HQ.
Qed.

(** ** Theorems *)

(** [uiomove] of [n] bytes for a read request stores the [n] bytes at
    [ptr] at the front of the buffer and steps the request past them; for a
    write request it stores the front of the buffer at [ptr].  Kernel and user
    buffers behave alike. *)
Theorem uiomove_transfers kbuf ptr n u s m :
  uio_can u s n → uio_fits u n → 0 ≤ ptr → ptr + n ≤ Z.of_nat (length kbuf) →
  let bs := take (Z.to_nat n) (drop (Z.to_nat ptr) kbuf) in
  uiomove kbuf ptr n u (World s m) =
  match uio_rw u with
  | UIO_READ => Ok ((0, kbuf, uio_fill u bs), World (fill_space u s bs) m)
  | UIO_WRITE => Ok ((0, splice kbuf (Z.to_nat ptr) (uio_bytes u s n), uio_skip u n), World s m)
  end.
Proof.
  intros Hcan Hfit Hp Hle bs. pose proof Hcan as ((? & _) & _).
  destruct (uio_rw u) eqn:Hrw; apply wp_Ok.
  - by apply (uiomove_read _ _ _ _ bs); [..|apply lslice_Some|].
  - by apply uiomove_write.
Qed.

(** A write request of four bytes from the middle of a kernel buffer. *)
Definition request : uio :=
  Uio (Kbase [1; 2; 3; 4; 5; 6] 1) 4 100 4 UIO_SYSSPACE UIO_WRITE None.

Lemma uiomove_transfers_witness :
  uiomove [0; 0; 0; 0; 0] 2 3 request (World (USpace None ∅) []) =
  Ok ((0, [0; 0; 2; 3; 4],
       Uio (Kbase [1; 2; 3; 4; 5; 6] 4) 1 103 1 UIO_SYSSPACE UIO_WRITE None),
      World (USpace None ∅) []).
Proof.
  apply (uiomove_transfers [0; 0; 0; 0; 0] 2 3 request (USpace None ∅) []).
  - unfold uio_can; simpl. split_and!; lia || done.
  - unfold uio_fits; simpl. lia.
  - lia.
  - simpl. lia.
Defined.

(** When a read request's user buffer is not accessible, [uiomove] returns
    EFAULT, leaves the request unadvanced and maps no new user memory. *)
Theorem uiomove_fault kbuf ptr n u a s m :
  uio_rw u = UIO_READ → uio_segflg u = UIO_USERSPACE → iov_base u = Ubase a →
  uio_space u = t_vmspace s → 0 ≤ a < 2 ^ 32 → 0 < n ≤ iov_len u → iov_len u < 2 ^ 32 →
  0 < uio_resid u → 0 ≤ ptr → ptr + n ≤ Z.of_nat (length kbuf) → ¬ accessible (umem s) a n →
  wp (uiomove kbuf ptr n u)
     (λ '(r, kbuf', u') w', r = EFAULT ∧ kbuf' = kbuf ∧ u' = u ∧
                            dom (umem (wst w')) = dom (umem s)) (World s m).
Proof.
  intros. eapply uiomove_read_fault; [done..|apply lslice_Some; lia|done|].
  intros. by split_and!.
Qed.

Lemma uiomove_fault_witness :
  wp (uiomove [7; 8; 9] 0 3 (Uio (Ubase 4194306) 3 0 3 UIO_USERSPACE UIO_READ (Some 1)))
     (λ '(r, kbuf', u') w', r = EFAULT ∧ kbuf' = [7; 8; 9] ∧
        u' = Uio (Ubase 4194306) 3 0 3 UIO_USERSPACE UIO_READ (Some 1) ∧
        dom (umem (wst w')) = dom (umem page)) (World page []).
Proof.
  apply (uiomove_fault [7; 8; 9] 0 3
           (Uio (Ubase 4194306) 3 0 3 UIO_USERSPACE UIO_READ (Some 1)) 4194306 page []);
    simpl; try done; try lia.
  intros [_ Hm]. destruct (Hm 2) as [c Hc]; [lia|]. vm_compute in Hc. done.
Defined.
