(* ===== verification/Lhd.v ===== *)
(** * The hard disk driver (kern/dev/lamebus/lhd.c)

    The disk itself is hardware: its sectors and a script of the answers it
    will give.  An answer is a status register value and the bytes a failed
    operation leaves behind; an operation beyond the script succeeds.
    The theorems on the driver and on block I/O quantify over the script, so
    that the only assumption on the hardware is that an operation that reports
    [LHD_OK] transferred its sector.  The theorems on files, directories and
    mounts assume an empty script, a disk without errors: [healthy] in
    SfsDisk.v, a part of the invariant [fs_ok].

    [P(lh_clear)] ... [V(lh_clear)] brackets one operation of one thread; the
    thread then waits in [P(lh_done)] for [lhd_irq] to save the result. *)

From S2P Require Import Prelude CopyInOut Uio.

Definition LHD_SECTSIZE : Z := 512.

Definition LHD_IDLE : Z := 0.
Definition LHD_WORKING : Z := 1.
Definition LHD_OK : Z := 4.
Definition LHD_INVSECT : Z := 12.
Definition LHD_MEDIA : Z := 20.
Definition LHD_ISWRITE : Z := 2.
Definition LHD_STATEMASK : Z := 29.

Record lhd_softc : Type := Lhd {
  lh_space : uspace;                  (* the process the driver runs for *)
  d_blocks : Z;
  lh_buf : list Z;                    (* on-card buffer *)
  lh_sectors : list (list Z);         (* the medium *)
  lh_script : list (Z * list Z)       (* answers to come *)
}.

Definition set_space (s : uspace) (h : lhd_softc) : lhd_softc :=
  Lhd s (d_blocks h) (lh_buf h) (lh_sectors h) (lh_script h).

Definition set_buf (b : list Z) (h : lhd_softc) : lhd_softc :=
  Lhd (lh_space h) (d_blocks h) b (lh_sectors h) (lh_script h).

Definition lhd_code_to_errno (code : Z) : Z :=
  let c := Z.land code LHD_STATEMASK in
  if c =? LHD_OK then 0
  else if c =? LHD_INVSECT then EINVAL
  else if c =? LHD_MEDIA then EIO
  else EAGAIN.

(** What the interrupt handler saves in [lh_result]; [None] if it does not
    report completion. *)
Definition lhd_irq (val : Z) : option Z :=
  let c := Z.land val LHD_STATEMASK in
  if (c =? LHD_IDLE) || (c =? LHD_WORKING) then None
  else if (c =? LHD_OK) || (c =? LHD_INVSECT) || (c =? LHD_MEDIA)
  then Some (lhd_code_to_errno val)
  else None.

(** Writing [LHD_REG_SECT] and [LHD_REG_STAT]: the hardware performs the
    operation and answers with a status.  Afterwards a successful read has the
    sector in the buffer and a successful write the buffer in the sector. *)
Definition lhd_operate (sector : Z) (rw : uio_rw_t) : K lhd_softc Z :=
  h ← kget;
  old ← kof (lget (lh_sectors h) sector);
  let '(status, junk, script) :=
    match lh_script h with
    | [] => (LHD_OK, [], [])
    | (status, junk) :: script => (status, junk, script)
    end in
  let good := Z.land status LHD_STATEMASK =? LHD_OK in
  match rw with
  | UIO_READ =>
      kput (Lhd (lh_space h) (d_blocks h) (if good then old else junk) (lh_sectors h) script);;
      mret status
  | UIO_WRITE =>
      ss ← kof (lset (lh_sectors h) sector (if good then lh_buf h else junk));
      kput (Lhd (lh_space h) (d_blocks h) (lh_buf h) ss script);;
      mret status
  end.

(** [uiomove] between the on-card buffer and the request. *)
Definition lhd_uiomove (u : uio) : K lhd_softc (Z * uio) :=
  h ← kget;
  '(result, buf, u) ← zoom lh_space set_space (uiomove (lh_buf h) 0 LHD_SECTSIZE u);
  h ← kget;
  kput (set_buf buf h);;
  mret (result, u).

(** One iteration of the loop of [lhd_io]: the sector and the request in, the
    error code and the request out. *)
Definition lhd_sector_io (sector : Z) (u : uio) : K lhd_softc (Z * uio) :=
  '(result, u) ← (match uio_rw u with
                  | UIO_WRITE => lhd_uiomove u
                  | UIO_READ => mret (0, u)
                  end);
  if negb (result =? 0) then mret (result, u) else
  status ← lhd_operate sector (uio_rw u);
  match lhd_irq status with
  | None => kdiverge
  | Some result =>
      if (result =? 0) && bool_decide (uio_rw u = UIO_READ)
      then lhd_uiomove u else mret (result, u)
  end.

Definition lhd_io (u : uio) : K lhd_softc (Z * uio) :=
  h ← kget;
  let sector := u32 (Z.quot (uio_offset u) LHD_SECTSIZE) in
  let sectoff := u32 (Z.rem (uio_offset u) LHD_SECTSIZE) in
  let len := uio_resid u / LHD_SECTSIZE in
  let lenoff := uio_resid u mod LHD_SECTSIZE in
  if negb (sectoff =? 0) || negb (lenoff =? 0) then mret (EINVAL, u) else
  if d_blocks h <? u32 (sector + len) then mret (EINVAL, u) else
  r ← kfind (Z.to_nat len) 0 (λ i u,
        '(result, u) ← lhd_sector_io (u32 (sector + i)) u;
        if negb (result =? 0) then mret (inr (result, u)) else mret (inl u)) u;
  match r with
  | inr x => mret x
  | inl u => mret (0, u)
  end.

Definition lhd_open (openflags : Z) : Z := 0.

Definition lhd_close : Z := 0.

Definition EIOCTL : Z := 17.

Definition lhd_ioctl (op data : Z) : Z := EIOCTL.

(** ** One-sector requests *)

(** Disks of this size keep byte offsets within [off_t]. *)
Definition LHD_LIMIT : Z := 2 ^ 22.

Definition lhd_wf (h : lhd_softc) : Prop :=
  Z.of_nat (length (lh_sectors h)) = d_blocks h ∧ d_blocks h < LHD_LIMIT ∧
  Z.of_nat (length (lh_buf h)) = LHD_SECTSIZE ∧
  Forall (λ s, Z.of_nat (length s) = LHD_SECTSIZE) (lh_sectors h) ∧
  Forall (λ a, Z.of_nat (length a.2) = LHD_SECTSIZE) (lh_script h).

(** A request for sector [b] that the driver accepts. *)
Definition sector_request (u : uio) (h : lhd_softc) (b : Z) : Prop :=
  uio_offset u = b * LHD_SECTSIZE ∧ uio_resid u = LHD_SECTSIZE ∧
  0 ≤ b < d_blocks h ∧ uio_can u (lh_space h) LHD_SECTSIZE.

Lemma lhd_wf_sector h b :
  lhd_wf h → 0 ≤ b < d_blocks h →
  ∃ s, lget (lh_sectors h) b = Some s ∧ Z.of_nat (length s) = LHD_SECTSIZE.
Proof.
  intros (Hlen & _ & _ & Hall & _) Hb. destruct (lget_is_Some (lh_sectors h) b) as [s Hs]; [lia|].
  exists s. split; [done|]. rewrite lget_lookup in Hs by lia. exact (Forall_lookup_1 _ _ _ _ Hall Hs).
Qed.

(** [lhd_io] of a one-sector request runs its loop body once. *)
Lemma lhd_io_one u b (Q : Z * uio → world lhd_softc → Prop) w :
  lhd_wf (wst w) → sector_request u (wst w) b →
  wp (lhd_sector_io b u) Q w → wp (lhd_io u) Q w.
Proof.
  intros (Hlen & Hlim & _) (Hoff & Hres & Hb & _) HQ. unfold lhd_io. kstep.
  unfold LHD_SECTSIZE, LHD_LIMIT in *. rewrite Hoff, Hres, Z.quot_mul, Z.rem_mul by lia.
  rewrite (u32_id b), (u32_id 0) by lia. change (512 / 512) with 1. change (512 mod 512) with 0. kstep.
  rewrite u32_id by lia. rewrite (proj2 (Z.ltb_ge _ _)) by lia.
  change (Z.to_nat 1) with 1%nat. kstep. unfold kfind. kstep.
  rewrite Z.add_0_r, u32_id by lia. eapply wp_mono; [done|].
  intros [r u'] w' HQ'. kstep. destruct (Z.eqb_spec r 0) as [->|]; by kstep.
Qed.

(** Requests with nothing left to transfer succeed without any I/O. *)
Lemma lhd_io_empty u b (Q : Z * uio → world lhd_softc → Prop) w :
  uio_offset u = b * LHD_SECTSIZE → uio_resid u = 0 → 0 ≤ b ≤ d_blocks (wst w) →
  d_blocks (wst w) < LHD_LIMIT → Q (0, u) w → wp (lhd_io u) Q w.
Proof.
  intros Hoff Hres Hb Hlim HQ. unfold lhd_io. kstep.
  unfold LHD_SECTSIZE, LHD_LIMIT in *. rewrite Hoff, Hres, Z.quot_mul, Z.rem_mul by lia.
  rewrite (u32_id b), (u32_id 0) by lia. change (0 / 512) with 0. change (0 mod 512) with 0. kstep.
  rewrite u32_id by lia. rewrite (proj2 (Z.ltb_ge _ _)) by lia. by kstep.
Qed.

(** The answer the hardware gives next. *)
Definition next_status (h : lhd_softc) : Z :=
  match lh_script h with [] => LHD_OK | (st, _) :: _ => st end.

Definition is_status (code st : Z) : Prop := Z.land st LHD_STATEMASK = code.

Definition after_script (h : lhd_softc) : list (Z * list Z) := tail (lh_script h).

Lemma lhd_irq_ok st : is_status LHD_OK st → lhd_irq st = Some 0.
Proof. intros Hst. unfold lhd_irq, lhd_code_to_errno. by rewrite Hst. Qed.

Lemma lhd_irq_media st : is_status LHD_MEDIA st → lhd_irq st = Some EIO.
Proof. intros Hst. unfold lhd_irq, lhd_code_to_errno. by rewrite Hst. Qed.

(** The state of the disk after an operation; [x] is what it left in the
    buffer (read) or in the sector (write). *)
Definition operated (h : lhd_softc) (b : Z) (rw : uio_rw_t) (x : list Z) : lhd_softc :=
  match rw with
  | UIO_READ => Lhd (lh_space h) (d_blocks h) x (lh_sectors h) (tail (lh_script h))
  | UIO_WRITE => Lhd (lh_space h) (d_blocks h) (lh_buf h) (<[Z.to_nat b := x]> (lh_sectors h))
                     (tail (lh_script h))
  end.

Lemma lhd_operate_spec b rw s (Q : Z → world lhd_softc → Prop) w :
  lhd_wf (wst w) → lget (lh_sectors (wst w)) b = Some s →
  (∀ x, Z.of_nat (length x) = LHD_SECTSIZE →
     (is_status LHD_OK (next_status (wst w)) →
        x = match rw with UIO_READ => s | UIO_WRITE => lh_buf (wst w) end) →
     Q (next_status (wst w)) (World (operated (wst w) b rw x) (wmem w))) →
  wp (lhd_operate b rw) Q w.
Proof.
  intros (Hlen & Hlim & Hbuf & Hsec & Hscr) Hs HQ. unfold lhd_operate. kstep.
  rewrite (wp_kof _ _ _ _ Hs). pose proof (lget_Some_range _ _ _ Hs) as Hr.
  assert (Z.of_nat (length s) = LHD_SECTSIZE) as Hls.
  { rewrite lget_lookup in Hs by lia. exact (Forall_lookup_1 _ _ _ _ Hsec Hs). }
  unfold next_status, operated, is_status in *.
  destruct (lh_script (wst w)) as [|[st junk] script]; simpl.
  - destruct rw; kstep; [by apply HQ|]. rewrite lset_Some by lia. kstep. by apply HQ.
  - apply Forall_cons in Hscr as [Hjunk _]. simpl in *.
    destruct rw; kstep.
    + apply HQ; destruct (Z.eqb_spec (Z.land st LHD_STATEMASK) LHD_OK); done.
    + rewrite lset_Some by lia. kstep. apply HQ;
        destruct (Z.eqb_spec (Z.land st LHD_STATEMASK) LHD_OK); done.
Qed.

Lemma lhd_uiomove_read u (Q : Z * uio → world lhd_softc → Prop) w :
  Z.of_nat (length (lh_buf (wst w))) = LHD_SECTSIZE → uio_rw u = UIO_READ →
  uio_can u (lh_space (wst w)) LHD_SECTSIZE → uio_fits u LHD_SECTSIZE →
  Q (0, uio_fill u (lh_buf (wst w)))
    (World (set_space (fill_space u (lh_space (wst w)) (lh_buf (wst w))) (wst w)) (wmem w)) →
  wp (lhd_uiomove u) Q w.
Proof.
  intros Hbuf Hrw Hcan Hfit HQ. unfold lhd_uiomove, LHD_SECTSIZE in *. kstep.
  eapply uiomove_read; [done|done|done|apply lslice_Some; lia|].
  rewrite drop_0, take_ge by lia. kstep. exact HQ.
Qed.

Lemma lhd_uiomove_write u (Q : Z * uio → world lhd_softc → Prop) w :
  Z.of_nat (length (lh_buf (wst w))) = LHD_SECTSIZE → uio_rw u = UIO_WRITE →
  uio_can u (lh_space (wst w)) LHD_SECTSIZE → uio_fits u LHD_SECTSIZE →
  Q (0, uio_skip u LHD_SECTSIZE)
    (World (set_buf (uio_bytes u (lh_space (wst w)) LHD_SECTSIZE) (wst w)) (wmem w)) →
  wp (lhd_uiomove u) Q w.
Proof.
  intros Hbuf Hrw Hcan Hfit HQ. unfold lhd_uiomove, LHD_SECTSIZE in *. kstep.
  eapply uiomove_write; [done|done|done|done|lia|].
  pose proof (length_uio_bytes _ _ _ Hcan). kstep.
  change (Z.to_nat 0) with 0%nat. rewrite splice_all by lia.
  destruct w as [[] m]; exact HQ.
Qed.

(** A read: on success the sector reaches the request; on a media error the
    request is as it was. *)
Lemma lhd_io_read u b s (Q : Z * uio → world lhd_softc → Prop) w :
  lhd_wf (wst w) → sector_request u (wst w) b → uio_rw u = UIO_READ →
  lget (lh_sectors (wst w)) b = Some s →
  is_status LHD_OK (next_status (wst w)) ∨ is_status LHD_MEDIA (next_status (wst w)) →
  (is_status LHD_OK (next_status (wst w)) →
   Q (0, uio_fill u s)
     (World (set_space (fill_space u (lh_space (wst w)) s) (operated (wst w) b UIO_READ s))
            (wmem w))) →
  (∀ x, is_status LHD_MEDIA (next_status (wst w)) → Z.of_nat (length x) = LHD_SECTSIZE →
     Q (EIO, u) (World (operated (wst w) b UIO_READ x) (wmem w))) →
  wp (lhd_io u) Q w.
Proof.
  intros Hwf Hreq Hrw Hs Hst HQ1 HQ2. eapply lhd_io_one; [done|done|].
  unfold lhd_sector_io. rewrite Hrw. kstep. rewrite Hrw.
  eapply lhd_operate_spec; [done|done|]. intros x Hx Hok.
  destruct Hst as [Hst|Hst]; [rewrite (lhd_irq_ok _ Hst)|rewrite (lhd_irq_media _ Hst)]; kstep.
  - specialize (Hok Hst). subst x. rewrite bool_decide_true by done. simpl.
    destruct Hreq as (Hoff & Hres & Hb & Hcan). destruct Hwf as (? & Hlim & _).
    apply lhd_uiomove_read; [exact Hx|done|exact Hcan| |by apply HQ1].
    unfold uio_fits, LHD_SECTSIZE, LHD_LIMIT in *. lia.
  - by apply HQ2.
Qed.

(** A write: the request is consumed before the outcome is known. *)
Lemma lhd_io_write u b (Q : Z * uio → world lhd_softc → Prop) w :
  let d := uio_bytes u (lh_space (wst w)) LHD_SECTSIZE in
  lhd_wf (wst w) → sector_request u (wst w) b → uio_rw u = UIO_WRITE →
  is_status LHD_OK (next_status (wst w)) ∨ is_status LHD_MEDIA (next_status (wst w)) →
  (is_status LHD_OK (next_status (wst w)) →
   Q (0, uio_skip u LHD_SECTSIZE) (World (operated (set_buf d (wst w)) b UIO_WRITE d) (wmem w))) →
  (∀ x, is_status LHD_MEDIA (next_status (wst w)) → Z.of_nat (length x) = LHD_SECTSIZE →
     Q (EIO, uio_skip u LHD_SECTSIZE)
       (World (operated (set_buf d (wst w)) b UIO_WRITE x) (wmem w))) →
  wp (lhd_io u) Q w.
Proof.
  intros d Hwf Hreq Hrw Hst HQ1 HQ2. eapply lhd_io_one; [done|done|].
  unfold lhd_sector_io. rewrite Hrw. kstep.
  destruct (lhd_wf_sector (wst w) b) as (s & Hs & _); [done|apply Hreq|].
  pose proof Hreq as (Hoff & Hres & Hb & Hcan). pose proof Hwf as (? & Hlim & Hbuf & Hsec & Hscr).
  apply lhd_uiomove_write; [done|done|done|unfold uio_fits, LHD_SECTSIZE, LHD_LIMIT in *; lia|].
  kstep. unfold uio_skip; simpl uio_rw. rewrite Hrw.
  eapply lhd_operate_spec; [|done|].
  { unfold lhd_wf; simpl. split_and!; [done|done| |done|done]. by apply length_uio_bytes. }
  intros x Hx Hok. change (next_status (wst _)) with (next_status (wst w)) in *.
  destruct Hst as [Hst|Hst]; [rewrite (lhd_irq_ok _ Hst)|rewrite (lhd_irq_media _ Hst)]; kstep.
  - specialize (Hok Hst). simpl in Hok. subst x. simpl.
    kstep. specialize (HQ1 Hst). unfold uio_skip in HQ1. by rewrite Hrw in HQ1.
  - specialize (HQ2 x Hst Hx). unfold uio_skip in HQ2. by rewrite Hrw in HQ2.
Qed.
