(* ===== verification/SfsDisk.v ===== *)
(** * SFS on-disk structures and block I/O (kern/include/kern/sfs.h, kern/fs/sfs/sfs_io.c)

    The kernel reads disk blocks straight into its structures, so a structure
    and the 512 bytes of its block are two views of the same memory.  The
    machine is big-endian.  [enc_*] and [dec_*] convert between the views. *)

From S2P Require Import Prelude CopyInOut Uio Lhd.

Definition SFS_MAGIC : Z := 2880303105.
Definition SFS_BLOCKSIZE : Z := 512.
Definition SFS_VOLNAME_SIZE : Z := 32.
Definition SFS_NDIRECT : Z := 15.
Definition SFS_DBPERIDB : Z := 128.
Definition SFS_NAMELEN : Z := 60.
Definition SFS_SB_LOCATION : Z := 0.
Definition SFS_ROOT_LOCATION : Z := 1.
Definition SFS_MAP_LOCATION : Z := 2.
Definition SFS_NOINO : Z := 0.
Definition SFS_BLOCKBITS : Z := SFS_BLOCKSIZE * 8.
Definition SFS_TYPE_INVAL : Z := 0.
Definition SFS_TYPE_FILE : Z := 1.
Definition SFS_TYPE_DIR : Z := 2.

Definition SFS_ROUNDUP (a b : Z) : Z := u32 (u32 (u32 (a + b) - 1) / b * b).

Definition SFS_BITMAPSIZE (nblocks : Z) : Z := SFS_ROUNDUP nblocks SFS_BLOCKBITS.

Definition SFS_BITBLOCKS (nblocks : Z) : Z := SFS_BITMAPSIZE nblocks / SFS_BLOCKBITS.

Record sfs_super : Type := SfsSuper {
  sp_magic : Z;
  sp_nblocks : Z;
  sp_volname : list Z;
  sp_reserved : list Z
}.

Record sfs_inode : Type := SfsInode {
  sfi_size : Z;
  sfi_type : Z;
  sfi_linkcount : Z;
  sfi_direct : list Z;
  sfi_indirect : Z;
  sfi_waste : list Z
}.

Record sfs_dir : Type := SfsDir { sfd_ino : Z; sfd_name : list Z }.

(** ** Big-endian words *)

Definition enc32 (z : Z) : list Z :=
  [z / 2 ^ 24; z / 2 ^ 16 mod 2 ^ 8; z / 2 ^ 8 mod 2 ^ 8; z mod 2 ^ 8].

Definition enc_words (ws : list Z) : list Z := mjoin (enc32 <$> ws).

(** Four bytes per word; a shorter rest is dropped. *)
Fixpoint dec_words (bs : list Z) : list Z :=
  match bs with
  | a :: b :: c :: d :: bs => (a * 2 ^ 24 + b * 2 ^ 16 + c * 2 ^ 8 + d) :: dec_words bs
  | _ => []
  end.

Definition word (ws : list Z) (i : nat) : Z := default 0 (ws !! i).

Definition enc_inode (i : sfs_inode) : list Z :=
  enc_words ([sfi_size i; sfi_type i * 2 ^ 16 + sfi_linkcount i] ++ sfi_direct i ++
             [sfi_indirect i] ++ sfi_waste i).

Definition dec_inode (b : list Z) : sfs_inode :=
  let ws := dec_words b in
  SfsInode (word ws 0) (word ws 1 / 2 ^ 16) (word ws 1 mod 2 ^ 16)
           (take 15 (drop 2 ws)) (word ws 17) (drop 18 ws).

Definition enc_super (s : sfs_super) : list Z :=
  enc_words [sp_magic s; sp_nblocks s] ++ sp_volname s ++ enc_words (sp_reserved s).

Definition dec_super (b : list Z) : sfs_super :=
  let ws := dec_words (take 8 b) in
  SfsSuper (word ws 0) (word ws 1) (take 32 (drop 8 b)) (dec_words (drop 40 b)).

Definition enc_dir (d : sfs_dir) : list Z := enc32 (sfd_ino d) ++ sfd_name d.

Definition dec_dir (b : list Z) : sfs_dir :=
  SfsDir (word (dec_words (take 4 b)) 0) (drop 4 b).

(** ** Well-formed structures: every field within its width *)

Definition is_byte (z : Z) : Prop := 0 ≤ z < 2 ^ 8.

Definition is_u32 (z : Z) : Prop := 0 ≤ z < 2 ^ 32.

Definition is_u16 (z : Z) : Prop := 0 ≤ z < 2 ^ 16.

Definition inode_wf (i : sfs_inode) : Prop :=
  is_u32 (sfi_size i) ∧ is_u16 (sfi_type i) ∧ is_u16 (sfi_linkcount i) ∧
  length (sfi_direct i) = 15%nat ∧ Forall is_u32 (sfi_direct i) ∧
  is_u32 (sfi_indirect i) ∧ length (sfi_waste i) = 110%nat ∧ Forall is_u32 (sfi_waste i).

Definition super_wf (s : sfs_super) : Prop :=
  is_u32 (sp_magic s) ∧ is_u32 (sp_nblocks s) ∧
  length (sp_volname s) = 32%nat ∧ Forall is_byte (sp_volname s) ∧
  length (sp_reserved s) = 118%nat ∧ Forall is_u32 (sp_reserved s).

Definition dir_wf (d : sfs_dir) : Prop :=
  is_u32 (sfd_ino d) ∧ length (sfd_name d) = 60%nat ∧ Forall is_byte (sfd_name d).

Definition block_wf (b : list Z) : Prop := length b = 512%nat ∧ Forall is_byte b.

(** ** Round trips *)

Lemma enc_words_cons w ws : enc_words (w :: ws) = enc32 w ++ enc_words ws.
Proof. done. Qed.

Lemma length_enc_words ws : length (enc_words ws) = (4 * length ws)%nat.
Proof.
  induction ws as [|w ws IH]; [done|]. rewrite enc_words_cons, length_app, IH. simpl. lia.
Qed.

Lemma enc_words_app ws1 ws2 : enc_words (ws1 ++ ws2) = enc_words ws1 ++ enc_words ws2.
Proof. unfold enc_words. by rewrite fmap_app, join_app. Qed.

Lemma enc32_dec z :
  is_u32 z →
  z / 2 ^ 24 * 2 ^ 24 + z / 2 ^ 16 mod 2 ^ 8 * 2 ^ 16 + z / 2 ^ 8 mod 2 ^ 8 * 2 ^ 8 + z mod 2 ^ 8 = z.
Proof.
  intros Hz. change (2 ^ 24) with (2 ^ 8 * 2 ^ 8 * 2 ^ 8). change (2 ^ 16) with (2 ^ 8 * 2 ^ 8).
  rewrite <- !Z.div_div by lia.
  pose proof (Z.div_mod z (2 ^ 8)). pose proof (Z.div_mod (z / 2 ^ 8) (2 ^ 8)).
  pose proof (Z.div_mod (z / 2 ^ 8 / 2 ^ 8) (2 ^ 8)). lia.
Qed.

Lemma enc32_bytes z : is_u32 z → Forall is_byte (enc32 z).
Proof.
  intros Hz. unfold enc32, is_byte, is_u32 in *.
  assert (0 ≤ z / 2 ^ 24 < 2 ^ 8).
  { split; [apply Z.div_pos; lia|apply Z.div_lt_upper_bound; lia]. }
  repeat (constructor; [try done; by apply Z.mod_pos_bound|]). constructor.
Qed.

Lemma dec_enc_words ws rest :
  Forall is_u32 ws → dec_words (enc_words ws ++ rest) = ws ++ dec_words rest.
Proof.
  induction 1 as [|w ws Hw Hws IH]; [done|]. rewrite enc_words_cons.
  rewrite <- app_assoc. simpl app at 1. cbn [dec_words]. simpl app in IH |- *.
  rewrite IH. f_equal. by apply enc32_dec.
Qed.

Lemma dec_enc_words_nil ws : Forall is_u32 ws → dec_words (enc_words ws) = ws.
Proof.
  intros Hws. pose proof (dec_enc_words ws [] Hws) as H.
  rewrite app_nil_r in H. simpl in H. by rewrite app_nil_r in H.
Qed.

(** A list of whole words is empty or starts with four bytes. *)
Lemma words_ind (P : list Z → Prop) :
  P [] → (∀ a b c d bs, P bs → P (a :: b :: c :: d :: bs)) →
  ∀ n bs, length bs = (4 * n)%nat → P bs.
Proof.
  intros H0 H4 n. induction n as [|n IH]; intros bs Hlen.
  { by destruct bs. }
  destruct bs as [|a [|b [|c [|d bs]]]]; simpl in Hlen; try lia. apply H4, IH. lia.
Qed.

Lemma length_dec_words n bs : length bs = (4 * n)%nat → length (dec_words bs) = n.
Proof.
  revert bs. induction n as [|n IH]; intros bs Hlen; [by destruct bs|].
  destruct bs as [|a [|b [|c [|d bs]]]]; simpl in Hlen; try lia. simpl. f_equal. apply IH. lia.
Qed.

Lemma enc32_of_bytes a b c d :
  is_byte a → is_byte b → is_byte c → is_byte d →
  enc32 (a * 2 ^ 24 + b * 2 ^ 16 + c * 2 ^ 8 + d) = [a; b; c; d].
Proof.
  unfold is_byte. intros Ha Hb Hc Hd. unfold enc32.
  assert ((a * 2 ^ 24 + b * 2 ^ 16 + c * 2 ^ 8 + d) / 2 ^ 24 = a) as ->
    by (symmetry; apply Z.div_unique with (b * 2 ^ 16 + c * 2 ^ 8 + d); lia).
  assert ((a * 2 ^ 24 + b * 2 ^ 16 + c * 2 ^ 8 + d) / 2 ^ 16 = a * 2 ^ 8 + b) as ->
    by (symmetry; apply Z.div_unique with (c * 2 ^ 8 + d); lia).
  assert ((a * 2 ^ 24 + b * 2 ^ 16 + c * 2 ^ 8 + d) / 2 ^ 8 = a * 2 ^ 16 + b * 2 ^ 8 + c) as ->
    by (symmetry; apply Z.div_unique with d; lia).
  f_equal. f_equal; [symmetry; apply Z.mod_unique with a; lia|].
  f_equal; [symmetry; apply Z.mod_unique with (a * 2 ^ 8 + b); lia|].
  f_equal. symmetry. apply Z.mod_unique with (a * 2 ^ 16 + b * 2 ^ 8 + c); lia.
Qed.

Lemma enc_dec_words n bs :
  length bs = (4 * n)%nat → Forall is_byte bs → enc_words (dec_words bs) = bs.
Proof.
  intros Hlen. revert bs Hlen. apply (words_ind (λ bs, Forall is_byte bs → _)); [done|].
  intros a b c d bs IH Hb. do 4 (apply Forall_cons in Hb as [? Hb]).
  cbn [dec_words]. rewrite enc_words_cons, enc32_of_bytes, IH by done. done.
Qed.

Lemma dec_words_u32 n bs :
  length bs = (4 * n)%nat → Forall is_byte bs → Forall is_u32 (dec_words bs).
Proof.
  intros Hlen. revert bs Hlen. apply (words_ind (λ bs, Forall is_byte bs → _)); [constructor|].
  intros a b c d bs IH Hb. do 4 (apply Forall_cons in Hb as [? Hb]).
  cbn [dec_words]. constructor; [unfold is_byte, is_u32 in *; lia|auto].
Qed.

Lemma enc_words_bytes ws : Forall is_u32 ws → Forall is_byte (enc_words ws).
Proof.
  induction 1 as [|w ws Hw Hws IH]; [constructor|]. rewrite enc_words_cons.
  apply Forall_app_2; [by apply enc32_bytes|done].
Qed.

Lemma enc_inode_block i : inode_wf i → block_wf (enc_inode i).
Proof.
  intros (? & ? & ? & Hd & ? & ? & Hw & ?). unfold enc_inode. split.
  - rewrite length_enc_words, !length_app, Hd, Hw. simpl. lia.
  - apply enc_words_bytes. unfold is_u32, is_u16 in *.
    repeat (apply Forall_app_2; [done || (repeat constructor; lia)|]). done.
Qed.

Lemma dec_enc_inode i : inode_wf i → dec_inode (enc_inode i) = i.
Proof.
  intros (? & Ht & Hl & Hd & ? & ? & Hw & ?). unfold dec_inode, enc_inode.
  rewrite dec_enc_words_nil.
  2:{ unfold is_u32, is_u16 in *.
      repeat (apply Forall_app_2; [done || (repeat constructor; lia)|]). done. }
  unfold is_u16 in *. destruct i as [sz ty lc dir ind ws]; simpl in *.
  unfold word. f_equal.
  - symmetry. apply Z.div_unique with lc; simpl; lia.
  - symmetry. apply Z.mod_unique with ty; simpl; lia.
  - cbn [app drop]. by rewrite ?drop_0, take_app_length'.
  - simpl. rewrite lookup_app_r, Hd by lia. done.
  - simpl. rewrite drop_app_ge, Hd by lia. done.
Qed.

Lemma enc_dec_inode b : block_wf b → enc_inode (dec_inode b) = b.
Proof.
  intros [Hlen Hb]. unfold enc_inode, dec_inode; simpl.
  pose proof (length_dec_words 128 b Hlen) as Hl.
  transitivity (enc_words (dec_words b)); [|by apply (enc_dec_words 128)]. f_equal.
  set (ws := dec_words b) in *. destruct ws as [|w0 [|w1 ws]]; [done|done|].
  do 16 (destruct ws as [|? ws]; [done|]). unfold word; simpl. f_equal. f_equal.
  pose proof (Z.div_mod w1 (2 ^ 16)). lia.
Qed.

Lemma dec_inode_wf b : block_wf b → inode_wf (dec_inode b).
Proof.
  intros [Hlen Hb]. pose proof (length_dec_words 128 b Hlen) as Hl.
  pose proof (dec_words_u32 128 b Hlen Hb) as Hu. unfold inode_wf, dec_inode; simpl.
  assert (∀ k, is_u32 (word (dec_words b) k)) as Hw.
  { intros k. unfold word. destruct (dec_words b !! k) as [z|] eqn:Hz; simpl.
    - exact (Forall_lookup_1 _ _ _ _ Hu Hz).
    - by unfold is_u32. }
  split_and!; [apply Hw| | |rewrite length_take, length_drop; lia| |apply Hw|
               rewrite length_drop; lia|by apply Forall_drop].
  - specialize (Hw 1%nat). unfold is_u32, is_u16 in *.
    split; [apply Z.div_pos; lia|apply Z.div_lt_upper_bound; lia].
  - by apply Z.mod_pos_bound.
  - by apply Forall_take, Forall_drop.
Qed.

Lemma dec_enc_dir d : dir_wf d → dec_dir (enc_dir d) = d.
Proof.
  intros (Hi & Hn & _). unfold dec_dir, enc_dir. destruct d as [ino name]; simpl in *.
  f_equal. unfold word. simpl. by apply enc32_dec.
Qed.

Lemma length_enc_dir d : dir_wf d → length (enc_dir d) = 64%nat.
Proof. intros (_ & Hn & _). unfold enc_dir. rewrite length_app, Hn. done. Qed.

Lemma enc_dir_bytes d : dir_wf d → Forall is_byte (enc_dir d).
Proof. intros (Hi & _ & Hb). apply Forall_app_2; [by apply enc32_bytes|done]. Qed.

Lemma dec_enc_super s : super_wf s → dec_super (enc_super s) = s.
Proof.
  intros (Hm & Hn & Hv & _ & Hr & Hr'). unfold dec_super, enc_super.
  destruct s as [mg nb vn rs]; simpl sp_magic in *; simpl sp_nblocks in *;
    simpl sp_volname in *; simpl sp_reserved in *.
  rewrite take_app_length' by (by rewrite length_enc_words).
  rewrite dec_enc_words_nil by (repeat apply Forall_cons_2; done || apply Forall_nil_2).
  rewrite drop_app_length' by (by rewrite length_enc_words).
  rewrite take_app_length' by done.
  replace 40%nat with (8 + 32)%nat by lia. rewrite <- drop_drop.
  rewrite drop_app_length' by (by rewrite length_enc_words).
  rewrite drop_app_length' by done. by rewrite dec_enc_words_nil.
Qed.

Lemma enc_super_block s : super_wf s → block_wf (enc_super s).
Proof.
  intros (Hm & Hn & Hv & Hvb & Hr & Hr'). unfold enc_super. split.
  - rewrite !length_app, !length_enc_words, Hv, Hr. simpl. lia.
  - apply Forall_app_2; [|apply Forall_app_2; [done|by apply enc_words_bytes]].
    apply enc_words_bytes. repeat apply Forall_cons_2; done || apply Forall_nil_2.
Qed.

(** ** Block I/O *)

(** The [retry] loop: at most eleven calls of [d_io]. *)
Definition sfs_rwblock (u : uio) : K lhd_softc (Z * uio) :=
  r ← kloop 11 (λ _, true) (λ '(tries, u),
        '(result, u) ← lhd_io u;
        if result =? EINVAL then kpanic else
        if result =? EIO then
          if tries =? 0 then mret (inl (tries + 1, u))
          else if tries <? 10 then mret (inl (tries + 1, u))
          else mret (inr (result, u))
        else mret (inr (result, u))) (0, u);
  match r with
  | inr x => mret x
  | inl _ => kdiverge
  end.

(** [SFSUIO] *)
Definition SFSUIO (ptr : list Z) (block : Z) (rw : uio_rw_t) : uio :=
  mk_kuio ptr SFS_BLOCKSIZE (i32 (i32 block * SFS_BLOCKSIZE)) rw.

(** The kernel object a request was set up for. *)
Definition kobj (u : uio) : list Z :=
  match iov_base u with Kbase obj _ => obj | Ubase _ => [] end.

(** The error code and the contents of [data] afterwards. *)
Definition sfs_rblock (data : list Z) (block : Z) : K lhd_softc (Z * list Z) :=
  '(result, ku) ← sfs_rwblock (SFSUIO data block UIO_READ);
  mret (result, kobj ku).

Definition sfs_wblock (data : list Z) (block : Z) : K lhd_softc Z :=
  '(result, _) ← sfs_rwblock (SFSUIO data block UIO_WRITE);
  mret result.

(** ** Block I/O on a healthy disk *)

(** The disk reports no errors.  All theorems about files assume this, through
    [fs_ok]: after a media error a written block can be lost without notice
    ([sfs_wblock_error_lost]). *)
Definition healthy (h : lhd_softc) : Prop := lhd_wf h ∧ lh_script h = [].

Definition disk_read (h : lhd_softc) (s : list Z) : lhd_softc :=
  Lhd (lh_space h) (d_blocks h) s (lh_sectors h) [].

Definition disk_write (h : lhd_softc) (b : Z) (d : list Z) : lhd_softc :=
  Lhd (lh_space h) (d_blocks h) d (<[Z.to_nat b := d]> (lh_sectors h)) [].

Lemma healthy_status h : healthy h → is_status LHD_OK (next_status h).
Proof. intros [_ Hs]. unfold next_status. by rewrite Hs. Qed.

Lemma healthy_sector h b :
  healthy h → 0 ≤ b < d_blocks h →
  ∃ s, lget (lh_sectors h) b = Some s ∧ Z.of_nat (length s) = SFS_BLOCKSIZE.
Proof. intros [Hwf _]. by apply lhd_wf_sector. Qed.

Lemma healthy_read h s :
  healthy h → Z.of_nat (length s) = SFS_BLOCKSIZE → healthy (disk_read h s).
Proof. intros [(? & ? & ? & ? & ?) _] Hs. split; [|done]. by split_and!. Qed.

Lemma healthy_write h b d :
  healthy h → Z.of_nat (length d) = SFS_BLOCKSIZE → healthy (disk_write h b d).
Proof.
  intros [(? & ? & ? & ? & ?) _] Hd. split; [|done]. unfold lhd_wf; simpl.
  rewrite length_insert. split_and!; try done. by apply Forall_insert.
Qed.

Lemma sfs_rwblock_read u b s (Q : Z * uio → world lhd_softc → Prop) w :
  healthy (wst w) → sector_request u (wst w) b → uio_rw u = UIO_READ →
  lget (lh_sectors (wst w)) b = Some s →
  Q (0, uio_fill u s)
    (World (set_space (fill_space u (lh_space (wst w)) s) (disk_read (wst w) s)) (wmem w)) →
  wp (sfs_rwblock u) Q w.
Proof.
  intros Hh Hreq Hrw Hs HQ. unfold sfs_rwblock. kstep. rewrite wp_kloop_step by done. kstep.
  pose proof (healthy_status _ Hh). destruct Hh as [Hwf Hscr].
  eapply lhd_io_read; [done|done|done|done|by left| |].
  - intros _. kstep. unfold operated, disk_read in *. rewrite Hscr. exact HQ.
  - intros x Hm _. exfalso. unfold is_status, LHD_OK, LHD_MEDIA in *. lia.
Qed.

Lemma sfs_rwblock_write u b (Q : Z * uio → world lhd_softc → Prop) w :
  healthy (wst w) → sector_request u (wst w) b → uio_rw u = UIO_WRITE →
  Q (0, uio_skip u SFS_BLOCKSIZE)
    (World (disk_write (wst w) b (uio_bytes u (lh_space (wst w)) SFS_BLOCKSIZE)) (wmem w)) →
  wp (sfs_rwblock u) Q w.
Proof.
  intros Hh Hreq Hrw HQ. unfold sfs_rwblock. kstep. rewrite wp_kloop_step by done. kstep.
  pose proof (healthy_status _ Hh). destruct Hh as [Hwf Hscr].
  eapply lhd_io_write; [done|done|done|by left| |].
  - intros _. kstep. unfold operated, disk_write in *. simpl. rewrite Hscr. exact HQ.
  - intros x Hm _. exfalso. unfold is_status, LHD_OK, LHD_MEDIA in *. lia.
Qed.

Lemma SFSUIO_request data b rw h :
  lhd_wf h → 0 ≤ b < d_blocks h → Z.of_nat (length data) = SFS_BLOCKSIZE →
  sector_request (SFSUIO data b rw) h b.
Proof.
  intros (_ & Hlim & _) Hb Hd. unfold LHD_LIMIT, SFS_BLOCKSIZE in *.
  unfold sector_request, SFSUIO, mk_kuio, LHD_SECTSIZE, SFS_BLOCKSIZE; simpl.
  rewrite (i32_id b), i32_id by lia. split_and!; [done|done|lia|lia|].
  unfold uio_can; simpl. split_and!; lia || done.
Qed.

Lemma sfs_rblock_ok data b s (Q : Z * list Z → world lhd_softc → Prop) w :
  healthy (wst w) → 0 ≤ b < d_blocks (wst w) → Z.of_nat (length data) = SFS_BLOCKSIZE →
  lget (lh_sectors (wst w)) b = Some s →
  Q (0, s) (World (disk_read (wst w) s) (wmem w)) →
  wp (sfs_rblock data b) Q w.
Proof.
  intros Hh Hb Hd Hs HQ. unfold sfs_rblock. kstep.
  destruct (healthy_sector (wst w) b) as (s' & Hs' & Hlen); [done|done|]. simplify_eq.
  eapply sfs_rwblock_read; [done|apply SFSUIO_request; [apply Hh|done|done]|done|done|].
  kstep. unfold kobj, uio_fill, fill_base, SFSUIO, mk_kuio, fill_space; simpl.
  change (Z.to_nat 0) with 0%nat. rewrite splice_all by lia. destruct w as [[] ?]. exact HQ.
Qed.

Lemma sfs_wblock_ok data b (Q : Z → world lhd_softc → Prop) w :
  healthy (wst w) → 0 ≤ b < d_blocks (wst w) → Z.of_nat (length data) = SFS_BLOCKSIZE →
  Q 0 (World (disk_write (wst w) b data) (wmem w)) →
  wp (sfs_wblock data b) Q w.
Proof.
  intros Hh Hb Hd HQ. unfold sfs_wblock. kstep.
  eapply sfs_rwblock_write; [done|apply SFSUIO_request; [apply Hh|done|done]|done|].
  kstep. unfold uio_bytes, SFSUIO, mk_kuio in *; simpl. unfold SFS_BLOCKSIZE in *.
  by rewrite drop_0, take_ge by lia.
Qed.

(** ** Block I/O on a failing disk *)

Lemma lhd_wf_operated h b rw x :
  lhd_wf h → Z.of_nat (length x) = LHD_SECTSIZE → lhd_wf (operated h b rw x).
Proof.
  intros (? & ? & ? & ? & Hscr) Hx.
  assert (Forall (λ a : Z * list Z, Z.of_nat (length a.2) = LHD_SECTSIZE) (tail (lh_script h))).
  { destruct Hscr; [constructor|done]. }
  destruct rw; unfold lhd_wf; simpl; rewrite ?length_insert; split_and!; try done.
  by apply Forall_insert.
Qed.

(** The loop of [sfs_rwblock] for a read, from its [t]-th retry on. *)
Lemma rwblock_read_retries errs : ∀ t u b s rest (Q : (Z * uio) + (Z * uio) → world lhd_softc → Prop) w,
  lhd_wf (wst w) → sector_request u (wst w) b → uio_rw u = UIO_READ →
  lget (lh_sectors (wst w)) b = Some s →
  lh_script (wst w) = errs ++ rest → Forall (λ a, is_status LHD_MEDIA a.1) errs →
  0 ≤ t → t ≤ 10 →
  (∀ w', lh_sectors (wst w') = lh_sectors (wst w) →
     (Z.of_nat (length errs) + t ≤ 10 →
      is_status LHD_OK (match rest with [] => LHD_OK | (st, _) :: _ => st end) →
      Q (inr (0, uio_fill u s)) w') ∧
     (10 < Z.of_nat (length errs) + t → Q (inr (EIO, u)) w')) →
  (Z.of_nat (length errs) + t ≤ 10 →
   is_status LHD_OK (match rest with [] => LHD_OK | (st, _) :: _ => st end)) →
  wp (kloop (Z.to_nat (11 - t)) (λ _, true) (λ '(tries, u),
        '(result, u) ← lhd_io u;
        if result =? EINVAL then kpanic else
        if result =? EIO then
          if tries =? 0 then mret (inl (tries + 1, u))
          else if tries <? 10 then mret (inl (tries + 1, u))
          else mret (inr (result, u))
        else mret (inr (result, u))) (t, u)) Q w.
Proof.
  induction errs as [|[st junk] errs IH];
    intros t u b s rest Q w Hwf Hreq Hrw Hs Hscr Hmed Ht Ht' HQ Hok; simpl in *;
    (replace (Z.to_nat (11 - t)) with (S (Z.to_nat (11 - (t + 1)))) by lia);
    rewrite wp_kloop_step by done; kstep.
  - assert (is_status LHD_OK (next_status (wst w))) as Hst.
    { unfold next_status. rewrite Hscr. apply Hok. lia. }
    eapply lhd_io_read; [done|done|done|done|by left| |].
    + intros _. kstep. apply HQ; [done|lia|by apply Hok; lia].
    + intros x Hm _. exfalso. unfold is_status, LHD_OK, LHD_MEDIA in *. lia.
  - apply Forall_cons in Hmed as [Hm Hmed]. simpl in Hm.
    assert (next_status (wst w) = st) as Hnx by (unfold next_status; by rewrite Hscr).
    eapply lhd_io_read; [done|done|done|done|right; by rewrite Hnx| |].
    + rewrite Hnx. intros Hst. exfalso. unfold is_status, LHD_OK, LHD_MEDIA in *. lia.
    + intros x _ Hx. kstep.
      destruct (Z.eqb_spec t 0), (Z.ltb_spec t 10); try lia; kstep.
      1,2: eapply (IH (t + 1) u b s rest);
        [by apply lhd_wf_operated|exact Hreq|done|exact Hs|simpl; by rewrite Hscr|done|lia|lia| |
         intros; apply Hok; lia];
        intros w' Hsec'; specialize (HQ w' Hsec'); split; intros; apply HQ; lia || done.
      apply HQ; [done|lia].
Qed.

(** ** Theorems *)

(** a block read survives up to ten media errors: if the disk then
    answers, [sfs_rblock] returns 0 with the sector's contents; after eleven
    errors it returns EIO.  The sectors never change. *)
Theorem sfs_rblock_retries data b h s errs rest m :
  lhd_wf h → 0 ≤ b < d_blocks h → Z.of_nat (length data) = SFS_BLOCKSIZE →
  lget (lh_sectors h) b = Some s →
  lh_script h = errs ++ rest → Forall (λ a, is_status LHD_MEDIA a.1) errs →
  (length errs ≤ 10)%nat ∧ is_status LHD_OK (match rest with [] => LHD_OK | a :: _ => a.1 end) ∨
  (11 ≤ length errs)%nat →
  wp (sfs_rblock data b)
     (λ '(r, data') w', lh_sectors (wst w') = lh_sectors h ∧
        if decide (length errs ≤ 10)%nat then r = 0 ∧ data' = s else r = EIO ∧ data' = data)
     (World h m).
Proof.
  intros Hwf Hb Hd Hs Hscr Hmed Hcase.
  destruct (lhd_wf_sector h b) as (s' & Hs' & Hlen); [done|done|]. simplify_eq.
  unfold sfs_rblock, sfs_rwblock. kstep.
  change 11%nat with (Z.to_nat (11 - 0)). eapply (rwblock_read_retries errs 0 _ b s rest);
    [done|by apply SFSUIO_request|done|done|done|done|lia|lia| |].
  - intros w' Hsec. split; intros; kstep; case_decide; try lia; split; try done.
    split; [done|]. unfold kobj, uio_fill, fill_base, SFSUIO, mk_kuio; simpl.
    change (Z.to_nat 0) with 0%nat. apply splice_all. unfold LHD_SECTSIZE, SFS_BLOCKSIZE in *. lia.
  - intros Hle. destruct Hcase as [[_ Hok]|]; [|lia]. by destruct rest as [|[? ?] ?].
Qed.

(** A two-sector disk; every byte of sector [i] is [i]. *)
Definition small_disk (script : list (Z * list Z)) : lhd_softc :=
  Lhd (USpace None ∅) 2 (replicate 512 9) [replicate 512 0; replicate 512 1] script.

Lemma small_disk_wf script :
  Forall (λ a, Z.of_nat (length a.2) = LHD_SECTSIZE) script → lhd_wf (small_disk script).
Proof.
  intros Hs. unfold lhd_wf, LHD_LIMIT; simpl.
  split_and!; [done|lia|done|repeat constructor|done].
Defined.

Lemma sfs_rblock_retries_witness :
  wp (sfs_rblock (replicate 512 5) 1)
     (λ '(r, data') w', lh_sectors (wst w') = [replicate 512 0; replicate 512 1] ∧
        if decide (1 ≤ 10)%nat then r = 0 ∧ data' = replicate 512 1
        else r = EIO ∧ data' = replicate 512 5)
     (World (small_disk [(LHD_MEDIA, replicate 512 7)]) []).
Proof.
  apply (sfs_rblock_retries (replicate 512 5) 1 (small_disk [(LHD_MEDIA, replicate 512 7)])
           (replicate 512 1) [(LHD_MEDIA, replicate 512 7)] [] []).
  - apply small_disk_wf. repeat constructor.
  - simpl. lia.
  - done.
  - done.
  - done.
  - repeat constructor.
  - left. split; [simpl; lia|done].
Defined.

(** a block write does not survive a media error.  The driver has consumed
    the request when the error is reported, so the retry transfers nothing
    and succeeds: [sfs_wblock] returns 0 and the sector holds whatever the
    failed operation left there. *)
Theorem sfs_wblock_error_lost data b h st junk rest m :
  lhd_wf h → 0 ≤ b < d_blocks h → Z.of_nat (length data) = SFS_BLOCKSIZE →
  lh_script h = (st, junk) :: rest → is_status LHD_MEDIA st →
  wp (sfs_wblock data b)
     (λ r w', r = 0 ∧ ∃ x, lh_sectors (wst w') = <[Z.to_nat b := x]> (lh_sectors h) ∧
                           lh_script (wst w') = rest ∧
                           Z.of_nat (length x) = SFS_BLOCKSIZE) (World h m).
Proof.
  intros Hwf Hb Hd Hscr Hst. unfold sfs_wblock, sfs_rwblock. kstep.
  assert (next_status h = st) as Hnx by (unfold next_status; by rewrite Hscr).
  rewrite wp_kloop_step by done. kstep.
  pose proof (SFSUIO_request data b UIO_WRITE h Hwf Hb Hd) as Hreq.
  pose proof Hreq as (Hoff & Hres & _).
  eapply lhd_io_write; [done|exact Hreq|done|right; simpl; by rewrite Hnx| |].
  { simpl. rewrite Hnx. intros. exfalso. unfold is_status, LHD_OK, LHD_MEDIA in *. lia. }
  intros x _ Hx. kstep. rewrite wp_kloop_step by done. kstep.
  unfold LHD_SECTSIZE, SFS_BLOCKSIZE in *.
  eapply (lhd_io_empty _ (b + 1)); unfold LHD_SECTSIZE; simpl.
  - unfold uio_skip in *; simpl in *. lia.
  - unfold uio_skip in *; simpl in *. lia.
  - lia.
  - apply Hwf.
  - kstep. split; [done|]. exists x. rewrite Hscr. done.
Qed.

Lemma sfs_wblock_error_lost_witness :
  wp (sfs_wblock (replicate 512 5) 1)
     (λ r w', r = 0 ∧ ∃ x, lh_sectors (wst w') = <[1%nat := x]> [replicate 512 0; replicate 512 1] ∧
                           lh_script (wst w') = [] ∧ Z.of_nat (length x) = SFS_BLOCKSIZE)
     (World (small_disk [(LHD_MEDIA, replicate 512 1)]) []).
Proof.
  apply (sfs_wblock_error_lost (replicate 512 5) 1 (small_disk [(LHD_MEDIA, replicate 512 1)])
           LHD_MEDIA (replicate 512 1) [] []).
  - apply small_disk_wf. repeat constructor.
  - simpl. lia.
  - done.
  - done.
  - done.
Defined.
