(* ===== verification/SfsFile.v ===== *)
(** * SFS files: space allocation, block mapping and file I/O (kern/fs/sfs/sfs_vnode.c)

    The in-memory file system is one record: the superblock, the device, the
    free-block map, the table of loaded vnodes and the heap of vnode structures
    that the table's pointers lead to.  Vnodes are shared through pointers, so
    every operation takes a pointer and reads and updates the heap.

    The static buffers of the code ([idbuf], [iobuf], [zeros]) are rewritten
    before each use, so their old contents never matter; a block of zeros
    stands for them. *)

From S2P Require Import Prelude Array Bitmap CopyInOut Uio Lhd SfsDisk.

(** The function table of a vnode. *)
Inductive vnode_ops : Type := sfs_fileops | sfs_dirops.

(** [struct sfs_vnode] with the fields of its [struct vnode]. *)
Record sfs_vnode : Type := SfsVnode {
  vn_refcount : Z;
  vn_opencount : Z;
  vn_ops : vnode_ops;
  sv_i : sfs_inode;
  sv_ino : Z;
  sv_dirty : bool
}.

Definition loc : Type := positive.

Record sfs_fs : Type := SfsFs {
  sfs_sb : sfs_super;
  sfs_superdirty : bool;
  sfs_device : lhd_softc;
  sfs_vnodes : array loc;
  sfs_freemap : bitmap;
  sfs_freemapdirty : bool;
  sfs_heap : gmap loc sfs_vnode
}.

Definition set_device (d : lhd_softc) (s : sfs_fs) : sfs_fs :=
  SfsFs (sfs_sb s) (sfs_superdirty s) d (sfs_vnodes s) (sfs_freemap s) (sfs_freemapdirty s)
        (sfs_heap s).

Definition set_freemap (b : bitmap) (s : sfs_fs) : sfs_fs :=
  SfsFs (sfs_sb s) (sfs_superdirty s) (sfs_device s) (sfs_vnodes s) b (sfs_freemapdirty s)
        (sfs_heap s).

Definition set_freemapdirty (d : bool) (s : sfs_fs) : sfs_fs :=
  SfsFs (sfs_sb s) (sfs_superdirty s) (sfs_device s) (sfs_vnodes s) (sfs_freemap s) d
        (sfs_heap s).

Definition set_heap (h : gmap loc sfs_vnode) (s : sfs_fs) : sfs_fs :=
  SfsFs (sfs_sb s) (sfs_superdirty s) (sfs_device s) (sfs_vnodes s) (sfs_freemap s)
        (sfs_freemapdirty s) h.

Definition set_vnodes (a : array loc) (s : sfs_fs) : sfs_fs :=
  SfsFs (sfs_sb s) (sfs_superdirty s) (sfs_device s) a (sfs_freemap s) (sfs_freemapdirty s)
        (sfs_heap s).

Definition on_dev {A} (c : K lhd_softc A) : K sfs_fs A := zoom sfs_device set_device c.

Definition on_map {A} (c : K bitmap A) : K sfs_fs A := zoom sfs_freemap set_freemap c.

(** Reading and writing the structure behind a vnode pointer. *)
Definition getsv (p : loc) : K sfs_fs sfs_vnode := s ← kget; kof (sfs_heap s !! p).

Definition setsv (p : loc) (v : sfs_vnode) : K sfs_fs unit :=
  s ← kget; kput (set_heap (<[p := v]> (sfs_heap s)) s).

Definition set_inode (i : sfs_inode) (v : sfs_vnode) : sfs_vnode :=
  SfsVnode (vn_refcount v) (vn_opencount v) (vn_ops v) i (sv_ino v) (sv_dirty v).

Definition set_dirty (d : bool) (v : sfs_vnode) : sfs_vnode :=
  SfsVnode (vn_refcount v) (vn_opencount v) (vn_ops v) (sv_i v) (sv_ino v) d.

Definition set_direct (k b : Z) (i : sfs_inode) : sfs_inode :=
  SfsInode (sfi_size i) (sfi_type i) (sfi_linkcount i) (<[Z.to_nat k := b]> (sfi_direct i))
           (sfi_indirect i) (sfi_waste i).

Definition set_indirect (b : Z) (i : sfs_inode) : sfs_inode :=
  SfsInode (sfi_size i) (sfi_type i) (sfi_linkcount i) (sfi_direct i) b (sfi_waste i).

Definition set_size (n : Z) (i : sfs_inode) : sfs_inode :=
  SfsInode n (sfi_type i) (sfi_linkcount i) (sfi_direct i) (sfi_indirect i) (sfi_waste i).

Definition zero_block : list Z := replicate 512 0.

Definition sfs_clearblock (block : Z) : K sfs_fs Z := on_dev (sfs_wblock zero_block block).

Definition sfs_sync_inode (p : loc) : K sfs_fs Z :=
  sv ← getsv p;
  if sv_dirty sv then
    result ← on_dev (sfs_wblock (enc_inode (sv_i sv)) (sv_ino sv));
    if negb (result =? 0) then mret result else
    sv ← getsv p;
    setsv p (set_dirty false sv);;
    mret 0
  else mret 0.

(** ** Space allocation *)

(** The error code and the block stored through [diskblock]. *)
Definition sfs_balloc : K sfs_fs (Z * option Z) :=
  '(result, diskblock) ← on_map bitmap_alloc;
  if negb (result =? 0) then mret (result, diskblock) else
  s ← kget;
  kput (set_freemapdirty true s);;
  block ← kof diskblock;
  if sp_nblocks (sfs_sb s) <=? block then kpanic else
  result ← sfs_clearblock block;
  mret (result, Some block).

Definition sfs_bfree (diskblock : Z) : K sfs_fs unit :=
  on_map (bitmap_unmark diskblock);;
  s ← kget;
  kput (set_freemapdirty true s).

Definition sfs_bused (diskblock : Z) : K sfs_fs Z :=
  s ← kget;
  if sp_nblocks (sfs_sb s) <=? diskblock then kpanic else
  on_map (bitmap_isset diskblock).

(** The check before a mapped block is handed back. *)
Definition check_used (block : Z) : K sfs_fs unit :=
  if block =? 0 then mret tt else
  used ← sfs_bused block;
  if used =? 0 then kpanic else mret tt.

(** ** Block mapping *)

(** The error code and the block stored through [diskblock], 0 if none is. *)

(** The direct blocks. *)
Definition sfs_bmap_direct (p : loc) (fileblock : Z) (doalloc : bool) : K sfs_fs (Z * Z) :=
  sv ← getsv p;
  block ← kof (lget (sfi_direct (sv_i sv)) fileblock);
  '(result, block) ←
    (if (block =? 0) && doalloc then
       '(result, nb) ← sfs_balloc;
       if negb (result =? 0) then mret (result, 0) else
       block ← kof nb;
       sv ← getsv p;
       setsv p (set_dirty true (set_inode (set_direct fileblock block (sv_i sv)) sv));;
       mret (0, block)
     else mret (0, block));
  if negb (result =? 0) then mret (result, 0) else
  check_used block;;
  mret (0, block).

(** The entry [idoff] of the indirect block [idblock], whose contents are in
    [idbuf]. *)
Definition sfs_bmap_entry (idblock : Z) (idbuf : list Z) (idoff : Z) (doalloc : bool)
    : K sfs_fs (Z * Z) :=
  block ← kof (lget (dec_words idbuf) idoff);
  '(result, block) ←
    (if (block =? 0) && doalloc then
       '(result, nb) ← sfs_balloc;
       if negb (result =? 0) then mret (result, 0) else
       block ← kof nb;
       ws ← kof (lset (dec_words idbuf) idoff block);
       result ← on_dev (sfs_wblock (enc_words ws) idblock);
       mret (result, block)
     else mret (0, block));
  if negb (result =? 0) then mret (result, 0) else
  check_used block;;
  mret (0, block).

Definition sfs_bmap (p : loc) (fileblock : Z) (doalloc : bool) : K sfs_fs (Z * Z) :=
  if fileblock <? SFS_NDIRECT then sfs_bmap_direct p fileblock doalloc else
  sv ← getsv p;
  let fileblock := u32 (fileblock - SFS_NDIRECT) in
  let idnum := fileblock / SFS_DBPERIDB in
  let idoff := fileblock mod SFS_DBPERIDB in
  if 0 <? idnum then mret (EINVAL, 0) else
  let idblock := sfi_indirect (sv_i sv) in
  if (idblock =? 0) && negb doalloc then mret (0, 0) else
  if idblock =? 0 then
    '(result, nb) ← sfs_balloc;
    if negb (result =? 0) then mret (result, 0) else
    idblock ← kof nb;
    sv ← getsv p;
    setsv p (set_dirty true (set_inode (set_indirect idblock (sv_i sv)) sv));;
    sfs_bmap_entry idblock zero_block idoff doalloc
  else
    '(result, idbuf) ← on_dev (sfs_rblock zero_block idblock);
    if negb (result =? 0) then mret (result, 0) else
    sfs_bmap_entry idblock idbuf idoff doalloc.

(** ** File I/O *)

Definition set_offset (o : Z) (u : uio) : uio :=
  Uio (iov_base u) (iov_len u) o (uio_resid u) (uio_segflg u) (uio_rw u) (uio_space u).

Definition set_resid (r : Z) (u : uio) : uio :=
  Uio (iov_base u) (iov_len u) (uio_offset u) r (uio_segflg u) (uio_rw u) (uio_space u).

Definition is_write (u : uio) : bool := bool_decide (uio_rw u = UIO_WRITE).

(** [uiomove] and [uiomovezeros] run in the address space of the caller. *)
Definition on_space {A} (c : K uspace A) : K sfs_fs A := on_dev (zoom lh_space set_space c).

(** The transfer into or out of the block buffer, and the write back. *)
Definition sfs_partialio_move (u : uio) (diskblock : Z) (iobuf : list Z) (skipstart len : Z)
    : K sfs_fs (Z * uio) :=
  '(result, iobuf, u) ← on_space (uiomove iobuf skipstart len u);
  if negb (result =? 0) then mret (result, u) else
  if is_write u then
    result ← on_dev (sfs_wblock iobuf diskblock);
    if negb (result =? 0) then mret (result, u) else mret (0, u)
  else mret (0, u).

Definition sfs_partialio (p : loc) (u : uio) (skipstart len : Z) : K sfs_fs (Z * uio) :=
  let doalloc := is_write u in
  kassert (u32 (skipstart + len) <=? SFS_BLOCKSIZE);;
  let fileblock := u32 (Z.quot (uio_offset u) SFS_BLOCKSIZE) in
  '(result, diskblock) ← sfs_bmap p fileblock doalloc;
  if negb (result =? 0) then mret (result, u) else
  if diskblock =? 0 then
    kassert (negb (is_write u));;
    sfs_partialio_move u diskblock zero_block skipstart len
  else
    '(result, iobuf) ← on_dev (sfs_rblock zero_block diskblock);
    if negb (result =? 0) then mret (result, u) else
    sfs_partialio_move u diskblock iobuf skipstart len.

Definition sfs_blockio (p : loc) (u : uio) : K sfs_fs (Z * uio) :=
  let doalloc := is_write u in
  let fileblock := u32 (Z.quot (uio_offset u) SFS_BLOCKSIZE) in
  '(result, diskblock) ← sfs_bmap p fileblock doalloc;
  if negb (result =? 0) then mret (result, u) else
  if diskblock =? 0 then
    kassert (negb (is_write u));;
    on_space (uiomovezeros SFS_BLOCKSIZE u)
  else
  let saveoff := uio_offset u in
  let diskoff := i32 (u32 (diskblock * SFS_BLOCKSIZE)) in
  let u := set_offset diskoff u in
  kassert (SFS_BLOCKSIZE <=? uio_resid u);;
  let saveres := i32 (uio_resid u) in
  let diskres := SFS_BLOCKSIZE in
  let u := set_resid (u32 diskres) u in
  '(result, u) ← on_dev (sfs_rwblock u);
  let u := set_offset (i32 (i32 (uio_offset u - diskoff) + saveoff)) u in
  let u := set_resid (u32 (u32 (uio_resid u - diskres) + saveres)) u in
  mret (result, u).

(** The whole blocks and a trailing partial block. *)
Definition sfs_io_aligned (p : loc) (u : uio) : K sfs_fs (Z * uio) :=
  if uio_resid u =? 0 then mret (0, u) else
  kassert (Z.rem (uio_offset u) SFS_BLOCKSIZE =? 0);;
  let nblocks := uio_resid u / SFS_BLOCKSIZE in
  r ← kfind (Z.to_nat nblocks) 0 (λ i u,
        '(result, u) ← sfs_blockio p u;
        if negb (result =? 0) then mret (inr (result, u)) else mret (inl u)) u;
  match r with
  | inr x => mret x
  | inl u =>
      kassert (uio_resid u <? SFS_BLOCKSIZE);;
      if 0 <? uio_resid u then sfs_partialio p u 0 (uio_resid u) else mret (0, u)
  end.

(** The transfer itself, after a leading partial block. *)
Definition sfs_io_blocks (p : loc) (u : uio) : K sfs_fs (Z * uio) :=
  let blkoff := u32 (Z.rem (uio_offset u) SFS_BLOCKSIZE) in
  '(result, u) ←
    (if blkoff =? 0 then mret (0, u) else
     let skip := blkoff in
     let len := SFS_BLOCKSIZE - blkoff in
     let len := if uio_resid u <? len then uio_resid u else len in
     sfs_partialio p u skip len);
  if negb (result =? 0) then mret (result, u) else
  sfs_io_aligned p u.

(** From the label [out] on. *)
Definition sfs_io_out (p : loc) (extraresid result : Z) (u : uio) : K sfs_fs (Z * uio) :=
  sv ← getsv p;
  (if is_write u && (i32 (sfi_size (sv_i sv)) <? uio_offset u)
   then setsv p (set_dirty true (set_inode (set_size (u32 (uio_offset u)) (sv_i sv)) sv))
   else mret tt);;
  mret (result, set_resid (u32 (uio_resid u + extraresid)) u).

Definition sfs_io (p : loc) (u : uio) : K sfs_fs (Z * uio) :=
  sv ← getsv p;
  let size := i32 (sfi_size (sv_i sv)) in
  let endpos := i32 (uio_offset u + uio_resid u) in
  if negb (is_write u) && (size <=? uio_offset u) then mret (0, u) else
  let extraresid := if negb (is_write u) && (size <? endpos) then u32 (endpos - size) else 0 in
  kassert ((extraresid =? 0) || (extraresid <? uio_resid u));;
  let u := set_resid (u32 (uio_resid u - extraresid)) u in
  '(result, u) ← sfs_io_blocks p u;
  sfs_io_out p extraresid result u.

Definition sfs_read (p : loc) (u : uio) : K sfs_fs (Z * uio) :=
  kassert (bool_decide (uio_rw u = UIO_READ));;
  sfs_io p u.

Definition sfs_write (p : loc) (u : uio) : K sfs_fs (Z * uio) :=
  kassert (bool_decide (uio_rw u = UIO_WRITE));;
  sfs_io p u.

(** ** Truncation *)

(** [DIVROUNDUP(len, SFS_BLOCKSIZE)] on the signed [len]. *)
Definition trunc_blocklen (len : Z) : Z :=
  u32 (Z.quot (i32 (len + SFS_BLOCKSIZE - 1)) SFS_BLOCKSIZE).

(** The loop over the direct blocks. *)
Definition truncate_direct (p : loc) (blocklen : Z) : K sfs_fs unit :=
  kfold (Z.to_nat SFS_NDIRECT) 0 (λ i _,
    sv ← getsv p;
    block ← kof (lget (sfi_direct (sv_i sv)) i);
    if (blocklen <=? i) && negb (block =? 0) then
      sfs_bfree block;;
      sv ← getsv p;
      setsv p (set_dirty true (set_inode (set_direct i 0 (sv_i sv)) sv))
    else mret tt) tt.

(** The loop over the indirect block; the state is [idbuf], [hasnonzero] and
    [iddirty]. *)
Definition truncate_indirect (blocklen : Z) (idbuf : list Z) : K sfs_fs (list Z * bool * bool) :=
  kfold (Z.to_nat SFS_DBPERIDB) 0 (λ j '(idbuf, hasnonzero, iddirty),
    block ← kof (lget idbuf j);
    '(idbuf, iddirty) ←
      (if (blocklen <? u32 (SFS_NDIRECT + j)) && negb (block =? 0) then
         sfs_bfree block;;
         idbuf ← kof (lset idbuf j 0);
         mret (idbuf, true)
       else mret (idbuf, iddirty));
    block ← kof (lget idbuf j);
    mret (idbuf, hasnonzero || negb (block =? 0), iddirty)) (idbuf, false, false).

Definition sfs_truncate (p : loc) (len : Z) : K sfs_fs Z :=
  let blocklen := trunc_blocklen len in
  truncate_direct p blocklen;;
  sv ← getsv p;
  let idblock := sfi_indirect (sv_i sv) in
  let highblock := SFS_NDIRECT + SFS_DBPERIDB - 1 in
  result ←
    (if (blocklen <? highblock) && negb (idblock =? 0) then
       '(result, idbuf) ← on_dev (sfs_rblock zero_block idblock);
       if negb (result =? 0) then mret result else
       '(idbuf, hasnonzero, iddirty) ← truncate_indirect blocklen (dec_words idbuf);
       if negb hasnonzero then
         sfs_bfree idblock;;
         sv ← getsv p;
         setsv p (set_dirty true (set_inode (set_indirect 0 (sv_i sv)) sv));;
         mret 0
       else if (iddirty : bool) then on_dev (sfs_wblock (enc_words idbuf) idblock)
       else mret 0
     else mret 0);
  if negb (result =? 0) then mret result else
  sv ← getsv p;
  setsv p (set_dirty true (set_inode (set_size (u32 len) (sv_i sv)) sv));;
  mret 0.
