(* ===== verification/SfsInv.v ===== *)
(** * SFS files: invariant and contents

    [fs_ok s used] is the invariant of the file system: [used] is the set of
    blocks marked in the free-block map.  [inode_ok] says that the blocks an
    inode leads to are marked, distinct and inside the file system.
    [fbyte] is the contents of a file as the disk holds it, holes being zeros.
    [fstep] is what an operation on one file may do to everything else. *)

From S2P Require Import Prelude Array Bitmap CopyInOut Uio Lhd SfsDisk SfsFile.

(** ** Contents *)

(** Largest number of blocks in a file, and its size in bytes. *)
Definition MAXBLK : Z := SFS_NDIRECT + SFS_DBPERIDB.

Definition MAXSIZE : Z := MAXBLK * SFS_BLOCKSIZE.

Definition sec (ss : list (list Z)) (b : Z) : list Z := default [] (lget ss b).

(** The disk block of block [k] of a file, 0 for a hole. *)
Definition ptr (ss : list (list Z)) (i : sfs_inode) (k : Z) : Z :=
  if k <? SFS_NDIRECT then default 0 (lget (sfi_direct i) k)
  else if sfi_indirect i =? 0 then 0
  else default 0 (lget (dec_words (sec ss (sfi_indirect i))) (k - SFS_NDIRECT)).

Definition fbyte (ss : list (list Z)) (i : sfs_inode) (pos : Z) : Z :=
  let b := ptr ss i (pos / SFS_BLOCKSIZE) in
  if b =? 0 then 0 else default 0 (lget (sec ss b) (pos mod SFS_BLOCKSIZE)).

Definition fbytes (ss : list (list Z)) (i : sfs_inode) (pos n : Z) : list Z :=
  (λ k, fbyte ss i (pos + k)) <$> seqZ 0 n.

(** The blocks an inode leads to. *)
Definition owned (ss : list (list Z)) (i : sfs_inode) (b : Z) : Prop :=
  b ≠ 0 ∧ (b = sfi_indirect i ∨ ∃ k, 0 ≤ k < MAXBLK ∧ ptr ss i k = b).

(** ** Invariant *)

Definition sectors (s : sfs_fs) : list (list Z) := lh_sectors (sfs_device s).

Definition nblocks (s : sfs_fs) : Z := sp_nblocks (sfs_sb s).

(** The disk reports no errors and its blocks are well formed, the free-block
    map represents [used], and blocks 0 and past the end count as used. *)
Definition fs_ok (s : sfs_fs) (used : gset Z) : Prop :=
  healthy (sfs_device s) ∧ Forall block_wf (sectors s) ∧
  bitmap_rep (sfs_freemap s) used ∧ 0 ∈ used ∧
  0 < nblocks s ≤ d_blocks (sfs_device s) ∧ nblocks s ≤ nbits (sfs_freemap s) ∧
  (∀ b, nblocks s ≤ b < nbits (sfs_freemap s) → b ∈ used).

(** No block is free. *)
Definition full (s : sfs_fs) (used : gset Z) : Prop := ∀ b, 0 ≤ b < nblocks s → b ∈ used.

Definition block_ok (s : sfs_fs) (used : gset Z) (b : Z) : Prop :=
  b ∈ used ∧ 0 < b < nblocks s.

Definition inode_ok (s : sfs_fs) (used : gset Z) (i : sfs_inode) : Prop :=
  inode_wf i ∧
  (∀ b, owned (sectors s) i b → block_ok s used b) ∧
  (∀ k, 0 ≤ k < MAXBLK → ptr (sectors s) i k ≠ 0 → ptr (sectors s) i k ≠ sfi_indirect i) ∧
  (∀ j k, 0 ≤ j < MAXBLK → 0 ≤ k < MAXBLK → ptr (sectors s) i j ≠ 0 →
     ptr (sectors s) i j = ptr (sectors s) i k → j = k).

(** The state after a block has been read into the card's buffer. *)
Definition touched (s : sfs_fs) (x : list Z) : sfs_fs :=
  set_device (disk_read (sfs_device s) x) s.

(** ** Sectors *)

Lemma sec_write_eq ss b d :
  0 ≤ b < Z.of_nat (length ss) → sec (<[Z.to_nat b := d]> ss) b = d.
Proof. intros. unfold sec. by rewrite lget_insert_eq. Qed.

Lemma sec_write_ne ss b c d :
  0 ≤ b → b ≠ c → sec (<[Z.to_nat b := d]> ss) c = sec ss c.
Proof. intros. unfold sec. by rewrite lget_insert_ne. Qed.

Lemma sec_wf ss b :
  Forall block_wf ss → 0 ≤ b < Z.of_nat (length ss) →
  lget ss b = Some (sec ss b) ∧ block_wf (sec ss b).
Proof.
  intros Hss Hb. unfold sec. destruct (lget_is_Some ss b) as [x Hx]; [done|].
  rewrite Hx. simpl. split; [done|]. rewrite lget_lookup in Hx by lia.
  exact (Forall_lookup_1 _ _ _ _ Hss Hx).
Qed.

Lemma fs_ok_sec s used b :
  fs_ok s used → 0 ≤ b < nblocks s →
  lget (sectors s) b = Some (sec (sectors s) b) ∧ block_wf (sec (sectors s) b).
Proof.
  intros ([[Hlen _] _] & Hss & _ & _ & Hn & _) Hb. apply sec_wf; [done|].
  unfold sectors. rewrite Hlen. lia.
Qed.

Lemma block_wf_length b : block_wf b → Z.of_nat (length b) = SFS_BLOCKSIZE.
Proof. intros [H _]. unfold SFS_BLOCKSIZE. lia. Qed.

Lemma zero_block_wf : block_wf zero_block.
Proof. split; [done|]. apply Forall_replicate. by unfold is_byte. Qed.

#[global] Hint Resolve block_wf_length zero_block_wf : os.

(** ** Frames *)

Lemma ptr_frame ss ss' i k :
  (sfi_indirect i ≠ 0 → sec ss' (sfi_indirect i) = sec ss (sfi_indirect i)) →
  ptr ss' i k = ptr ss i k.
Proof.
  intros Hs. unfold ptr. destruct (k <? SFS_NDIRECT); [done|].
  destruct (Z.eqb_spec (sfi_indirect i) 0); [done|]. by rewrite Hs.
Qed.

Lemma owned_frame ss ss' i b :
  (sfi_indirect i ≠ 0 → sec ss' (sfi_indirect i) = sec ss (sfi_indirect i)) →
  owned ss' i b ↔ owned ss i b.
Proof.
  intros Hs. unfold owned. setoid_rewrite (ptr_frame ss ss' i); [done|done].
Qed.

(** A file's contents depend only on the blocks it leads to. *)
Lemma fbyte_frame ss ss' i pos :
  0 ≤ pos < MAXSIZE →
  (∀ b, owned ss i b → sec ss' b = sec ss b) → fbyte ss' i pos = fbyte ss i pos.
Proof.
  intros Hpos Hs. unfold fbyte.
  assert (ptr ss' i (pos / SFS_BLOCKSIZE) = ptr ss i (pos / SFS_BLOCKSIZE)) as ->.
  { apply ptr_frame. intros. apply Hs. split; [done|by left]. }
  destruct (Z.eqb_spec (ptr ss i (pos / SFS_BLOCKSIZE)) 0); [done|].
  rewrite Hs; [done|]. split; [done|]. right. exists (pos / SFS_BLOCKSIZE).
  split; [|done]. unfold MAXSIZE, SFS_BLOCKSIZE in *.
  split; [apply Z.div_pos; lia|apply Z.div_lt_upper_bound; lia].
Qed.

Lemma fs_ok_touched s used x :
  fs_ok s used → Z.of_nat (length x) = SFS_BLOCKSIZE → fs_ok (touched s x) used.
Proof.
  intros (Hh & Hrest) Hx. split; [by apply healthy_read|]. exact Hrest.
Qed.

Lemma touched_touched s x y : touched (touched s x) y = touched s y.
Proof. by destruct s as [? ? [] ? ? ? ?]. Qed.

Lemma touched_self s used : fs_ok s used → touched s (lh_buf (sfs_device s)) = s.
Proof.
  intros ([_ Hscr] & _). unfold touched, disk_read, set_device.
  destruct s as [? ? [? ? ? ? scr] ? ? ? ?]; simpl in *. by subst.
Qed.

Lemma inode_ok_touched s used i x : inode_ok (touched s x) used i ↔ inode_ok s used i.
Proof. done. Qed.

(** ** Steps of one file *)

(** Everything but the device contents, the free-block map and the heap. *)
Definition same_base (s s' : sfs_fs) : Prop :=
  sfs_sb s' = sfs_sb s ∧ sfs_superdirty s' = sfs_superdirty s ∧ sfs_vnodes s' = sfs_vnodes s ∧
  d_blocks (sfs_device s') = d_blocks (sfs_device s).

Definition same_space (s s' : sfs_fs) : Prop :=
  lh_space (sfs_device s') = lh_space (sfs_device s).

(** Everything but the size, the block pointers and the dirty bit. *)
Definition same_vnode (v v' : sfs_vnode) : Prop :=
  vn_refcount v' = vn_refcount v ∧ vn_opencount v' = vn_opencount v ∧ vn_ops v' = vn_ops v ∧
  sv_ino v' = sv_ino v ∧ sfi_type (sv_i v') = sfi_type (sv_i v) ∧
  sfi_linkcount (sv_i v') = sfi_linkcount (sv_i v) ∧ sfi_waste (sv_i v') = sfi_waste (sv_i v).

Record fstep (p : loc) (v : sfs_vnode) (s : sfs_fs) (used : gset Z)
    (v' : sfs_vnode) (s' : sfs_fs) (used' : gset Z) : Prop := FStep {
  fst_ok : fs_ok s' used';
  fst_used : used ⊆ used';
  fst_base : same_base s s';
  fst_heap : sfs_heap s' = <[p := v']> (sfs_heap s);
  fst_inode : inode_ok s' used' (sv_i v');
  fst_vnode : same_vnode v v';
  fst_frame : ∀ b, b ∈ used → ¬ owned (sectors s) (sv_i v) b →
                sec (sectors s') b = sec (sectors s) b;
  fst_owned : ∀ b, owned (sectors s') (sv_i v') b →
                owned (sectors s) (sv_i v) b ∨ b ∉ used
}.

(** The file reads the same. *)
Definition same_file (s : sfs_fs) (i : sfs_inode) (s' : sfs_fs) (i' : sfs_inode) : Prop :=
  sfi_size i' = sfi_size i ∧
  ∀ pos, 0 ≤ pos < MAXSIZE → fbyte (sectors s') i' pos = fbyte (sectors s) i pos.

Lemma same_base_refl s : same_base s s.
Proof. done. Qed.

Lemma same_base_trans s1 s2 s3 : same_base s1 s2 → same_base s2 s3 → same_base s1 s3.
Proof. unfold same_base. naive_solver congruence. Qed.

Lemma same_vnode_trans v1 v2 v3 : same_vnode v1 v2 → same_vnode v2 v3 → same_vnode v1 v3.
Proof. unfold same_vnode. naive_solver congruence. Qed.

Lemma same_file_refl s i : same_file s i s i.
Proof. done. Qed.

Lemma same_file_trans s1 i1 s2 i2 s3 i3 :
  same_file s1 i1 s2 i2 → same_file s2 i2 s3 i3 → same_file s1 i1 s3 i3.
Proof. intros [? H1] [? H2]. split; [congruence|]. intros. by rewrite H2, H1. Qed.

Lemma fstep_refl p v s used :
  fs_ok s used → sfs_heap s !! p = Some v → inode_ok s used (sv_i v) →
  fstep p v s used v s used.
Proof.
  intros Hok Hp Hi. split; try done; [by rewrite insert_id|]. by left.
Qed.

Lemma fstep_trans p v1 s1 u1 v2 s2 u2 v3 s3 u3 :
  fstep p v1 s1 u1 v2 s2 u2 → fstep p v2 s2 u2 v3 s3 u3 → fstep p v1 s1 u1 v3 s3 u3.
Proof.
  intros [] []. split; [done|set_solver|by eapply same_base_trans| |done|
                        by eapply same_vnode_trans| |].
  - rewrite fst_heap1, fst_heap0. by rewrite insert_insert_eq.
  - intros b Hb Hno. rewrite fst_frame1, fst_frame0; [done|done|done|set_solver|].
    intros Hown. apply fst_owned0 in Hown as []; auto.
  - intros b Hb. apply fst_owned1 in Hb as [Hb|Hb]; [by apply fst_owned0|]. right. set_solver.
Qed.

Lemma fstep_lookup p v s used v' s' used' :
  fstep p v s used v' s' used' → sfs_heap s' !! p = Some v'.
Proof. intros []. rewrite fst_heap0. apply lookup_insert_eq. Qed.

(** Reading a block. *)
Lemma fstep_touched p v s used x :
  fs_ok s used → sfs_heap s !! p = Some v → inode_ok s used (sv_i v) →
  Z.of_nat (length x) = SFS_BLOCKSIZE → fstep p v s used v (touched s x) used.
Proof.
  intros Hok Hp Hi Hx. split; try done; [by apply fs_ok_touched|simpl; by rewrite insert_id|].
  by left.
Qed.

(** ** Effects on the device *)

Definition wrote (s : sfs_fs) (b : Z) (d : list Z) : sfs_fs :=
  set_device (disk_write (sfs_device s) b d) s.

Lemma fs_ok_wrote s used b d : fs_ok s used → block_wf d → fs_ok (wrote s b d) used.
Proof.
  intros (Hh & Hss & Hrest) Hd. split; [apply healthy_write; auto with os|].
  split; [|exact Hrest]. by apply Forall_insert.
Qed.

Lemma length_sectors s used : fs_ok s used → Z.of_nat (length (sectors s)) = d_blocks (sfs_device s).
Proof. intros ([[H _] _] & _). exact H. Qed.

(** ** Space allocation *)

Lemma sfs_clearblock_spec s used b (Q : Z → world sfs_fs → Prop) w :
  wst w = s → fs_ok s used → 0 ≤ b < nblocks s →
  Q 0 (World (wrote s b zero_block) (wmem w)) → wp (sfs_clearblock b) Q w.
Proof.
  intros Hw Hok Hb HQ. unfold sfs_clearblock, on_dev. kstep. rewrite Hw.
  destruct Hok as (Hh & _ & _ & _ & Hn & _). apply sfs_wblock_ok; [done|simpl; lia|done|exact HQ].
Qed.

Lemma sfs_balloc_spec s used (Q : Z * option Z → world sfs_fs → Prop) w :
  wst w = s → fs_ok s used →
  (full s used → Q (ENOSPC, None) w) →
  (∀ b s', b ∉ used → 0 < b < nblocks s → fs_ok s' ({[b]} ∪ used) →
     sectors s' = <[Z.to_nat b := zero_block]> (sectors s) → sfs_heap s' = sfs_heap s →
     same_base s s' → same_space s s' → Q (0, Some b) (World s' (wmem w))) →
  wp sfs_balloc Q w.
Proof.
  intros Hw Hok HQ1 HQ2. pose proof Hok as (Hh & Hss & Hbm & H0 & Hn & Hnb & Hfull).
  unfold sfs_balloc, on_map. kstep. rewrite Hw. eapply bitmap_alloc_spec; [done|done| |].
  - intros Hall. kstep. destruct w as [s0 m]; simpl in *; subst s0.
    replace (set_freemap (sfs_freemap s) s) with s by by destruct s.
    apply HQ1. intros b Hb. apply Hall. lia.
  - intros b bm Hlow Hb Hfree Hbm' Hnb'. kstep. cbn [wst] in *.
    assert (b < nblocks s) by (destruct (decide (b < nblocks s)); [done|destruct Hfree; apply Hfull; lia]).
    assert (b ≠ 0) by by intros ->.
    change (sp_nblocks (sfs_sb (set_freemap bm s))) with (nblocks s).
    rewrite (proj2 (Z.leb_gt _ _)) by lia. kstep.
    set (s1 := set_freemapdirty true (set_freemap bm s)).
    assert (fs_ok s1 ({[b]} ∪ used)) as Hok1.
    { unfold fs_ok, nblocks, sectors in *; simpl. rewrite Hnb'.
      split_and!; try done; try lia; [set_solver|].
      intros c Hc. by apply elem_of_union_r, Hfull. }
    eapply (sfs_clearblock_spec s1); [done|done|unfold nblocks in *; simpl; lia|]. kstep.
    apply HQ2; try done; [lia|]. apply fs_ok_wrote; [done|apply zero_block_wf].
Qed.

Lemma check_used_spec s used b (Q : unit → world sfs_fs → Prop) w :
  wst w = s → fs_ok s used → (b ≠ 0 → block_ok s used b) → Q tt w → wp (check_used b) Q w.
Proof.
  intros Hw Hok Hb HQ. unfold check_used. destruct (Z.eqb_spec b 0); [by kstep|].
  destruct Hb as [Hu Hb]; [done|]. unfold sfs_bused, on_map. kstep. rewrite Hw.
  change (sp_nblocks (sfs_sb s)) with (nblocks s). rewrite (proj2 (Z.leb_gt _ _)) by lia. kstep.
  pose proof Hok as (_ & _ & Hbm & _ & _ & Hnb & _).
  eapply bitmap_isset_spec; [simpl; by rewrite Hw|done|lia|]. intros r Hr. kstep.
  rewrite (proj2 (Z.eqb_neq _ _)) by by apply Hr. kstep.
  destruct w as [s0 m]; simpl in *. subst s0.
  by replace (set_freemap (sfs_freemap s) s) with s by by destruct s.
Qed.

(** ** Inodes *)

Lemma inode_ok_frame s used s' used' i :
  inode_ok s used i →
  (sfi_indirect i ≠ 0 → sec (sectors s') (sfi_indirect i) = sec (sectors s) (sfi_indirect i)) →
  used ⊆ used' → nblocks s' = nblocks s → inode_ok s' used' i.
Proof.
  intros (Hwf & Hown & Hne & Hinj) Hsec Hu Hn.
  assert (∀ k, ptr (sectors s') i k = ptr (sectors s) i k) as Hptr by (intros; by apply ptr_frame).
  split_and!; [done| | |].
  - intros b Hb. rewrite (owned_frame (sectors s)) in Hb by done. destruct (Hown b Hb).
    split; [set_solver|by rewrite Hn].
  - intros k. rewrite Hptr. auto.
  - intros j k. rewrite !Hptr. auto.
Qed.

(** A write to a block the inode does not lead to leaves the file alone. *)
Lemma inode_other_write s used i s' used' b d :
  inode_ok s used i → ¬ owned (sectors s) i b → 0 < b →
  sectors s' = <[Z.to_nat b := d]> (sectors s) → used ⊆ used' → nblocks s' = nblocks s →
  inode_ok s' used' i ∧
  (∀ k, ptr (sectors s') i k = ptr (sectors s) i k) ∧
  (∀ pos, 0 ≤ pos < MAXSIZE → fbyte (sectors s') i pos = fbyte (sectors s) i pos).
Proof.
  intros Hi Hno Hb Hss Hu Hn.
  assert (∀ c, owned (sectors s) i c → sec (sectors s') c = sec (sectors s) c) as Hsec.
  { intros c Hc. rewrite Hss. apply sec_write_ne; [lia|]. by intros ->. }
  assert (sfi_indirect i ≠ 0 → sec (sectors s') (sfi_indirect i) = sec (sectors s) (sfi_indirect i)).
  { intros. apply Hsec. split; [done|by left]. }
  split_and!; [by eapply inode_ok_frame|intros; by apply ptr_frame|].
  intros. by apply fbyte_frame.
Qed.

Lemma ptr_owned s i k :
  0 ≤ k < MAXBLK → ptr (sectors s) i k ≠ 0 → owned (sectors s) i (ptr (sectors s) i k).
Proof. intros. split; [done|]. right. by exists k. Qed.

(** Block [k] of the file, a hole so far, becomes the fresh zeroed block [b]. *)
Lemma grow_block s used i s' i' k b :
  inode_ok s used i → inode_wf i' → nblocks s' = nblocks s →
  sfi_indirect i' = sfi_indirect i → 0 ≤ k < MAXBLK → ptr (sectors s) i k = 0 →
  b ∉ used → 0 < b < nblocks s →
  (∀ j, 0 ≤ j < MAXBLK → ptr (sectors s') i' j = if j =? k then b else ptr (sectors s) i j) →
  sec (sectors s') b = zero_block →
  (∀ j, 0 ≤ j < MAXBLK → ptr (sectors s) i j ≠ 0 →
     sec (sectors s') (ptr (sectors s) i j) = sec (sectors s) (ptr (sectors s) i j)) →
  inode_ok s' ({[b]} ∪ used) i' ∧
  (∀ pos, 0 ≤ pos < MAXSIZE → fbyte (sectors s') i' pos = fbyte (sectors s) i pos) ∧
  (∀ c, owned (sectors s') i' c → owned (sectors s) i c ∨ c = b).
Proof.
  intros (Hwf & Hown & Hne & Hinj) Hwf' Hn Hind Hk Hhole Hfresh Hb Hptr Hz Hsec.
  assert (∀ j, 0 ≤ j < MAXBLK → ptr (sectors s) i j ≠ b) as Hnb.
  { intros j Hj Heq. destruct Hfresh. rewrite <- Heq. apply Hown, ptr_owned; [done|lia]. }
  assert (sfi_indirect i ≠ b) as Hib.
  { intros <-. destruct Hfresh. apply Hown. split; [lia|by left]. }
  assert (∀ c, owned (sectors s') i' c → owned (sectors s) i c ∨ c = b) as Hown'.
  { intros c (Hc0 & [->|(j & Hj & Hc)]); [left; split; [done|left; done]|].
    rewrite Hptr in Hc by done. destruct (j =? k); [by right|left; split; [done|right; eauto]]. }
  split_and!; [split_and!; [done| | |]| |done].
  - intros c Hc. destruct (Hown' c Hc) as [Hc'| ->].
    + destruct (Hown c Hc'). split; [set_solver|by rewrite Hn].
    + split; [set_solver|by rewrite Hn].
  - intros j Hj. rewrite Hptr, Hind by done. destruct (j =? k); [done|]. by apply Hne.
  - intros j j' Hj Hj'. rewrite !Hptr by done.
    destruct (Z.eqb_spec j k), (Z.eqb_spec j' k); subst; try done; intros H0 Heq.
    + by destruct (Hnb j').
    + by destruct (Hnb j).
    + by apply Hinj.
  - intros pos Hpos. unfold fbyte, MAXSIZE, SFS_BLOCKSIZE in *.
    assert (0 ≤ pos / 512 < MAXBLK) as Hp
      by (split; [apply Z.div_pos; lia|apply Z.div_lt_upper_bound; lia]).
    rewrite Hptr by done. destruct (Z.eqb_spec (pos / 512) k) as [<-|].
    + rewrite Hhole, Z.eqb_refl, (proj2 (Z.eqb_neq _ _)), Hz by lia.
      pose proof (Z.mod_pos_bound pos 512 ltac:(lia)).
      rewrite lget_lookup by lia. unfold zero_block.
      by rewrite lookup_replicate_2 by lia.
    + destruct (Z.eqb_spec (ptr (sectors s) i (pos / 512)) 0); [done|]. by rewrite Hsec.
Qed.

Lemma ptr_set_direct ss i k b j :
  length (sfi_direct i) = 15%nat → 0 ≤ k < SFS_NDIRECT → 0 ≤ j →
  ptr ss (set_direct k b i) j = if j =? k then b else ptr ss i j.
Proof.
  intros Hlen Hk Hj. unfold ptr, SFS_NDIRECT in *; simpl.
  destruct (Z.ltb_spec j 15), (Z.eqb_spec j k); subst; try lia; try done.
  - rewrite lget_insert_eq by lia. done.
  - rewrite lget_insert_ne by lia. done.
Qed.

Lemma dec_zero_block : dec_words zero_block = replicate 128 0.
Proof. reflexivity. Qed.

Lemma ptr_set_indirect ss i b j :
  sfi_indirect i = 0 → sec ss b = zero_block → 0 ≤ j < MAXBLK →
  ptr ss (set_indirect b i) j = ptr ss i j.
Proof.
  intros Hi Hz Hj. unfold ptr, MAXBLK, SFS_NDIRECT, SFS_DBPERIDB in *; simpl. rewrite Hi, Hz, dec_zero_block.
  destruct (Z.ltb_spec j 15); [done|]. rewrite Z.eqb_refl. destruct (b =? 0); [done|].
  rewrite lget_lookup by lia. by rewrite lookup_replicate_2 by lia.
Qed.

Lemma inode_wf_direct i k b : inode_wf i → is_u32 b → inode_wf (set_direct k b i).
Proof.
  intros (? & ? & ? & ? & ? & ? & ? & ?) Hb. unfold inode_wf; simpl.
  rewrite length_insert. split_and!; try done. by apply Forall_insert.
Qed.

Lemma inode_wf_indirect i b : inode_wf i → is_u32 b → inode_wf (set_indirect b i).
Proof. intros (? & ? & ? & ? & ? & ? & ? & ?) Hb. by split_and!. Qed.

Lemma inode_wf_size i n : inode_wf i → is_u32 n → inode_wf (set_size n i).
Proof. intros (? & ? & ? & ? & ? & ? & ? & ?) Hb. by split_and!. Qed.

Lemma fs_ok_limit s used : fs_ok s used → nblocks s < 2 ^ 22.
Proof. intros ([(_ & Hl & _) _] & _ & _ & _ & Hn & _). unfold LHD_LIMIT in Hl. lia. Qed.

Lemma ptr_direct_lget s used i k :
  inode_ok s used i → 0 ≤ k < SFS_NDIRECT → lget (sfi_direct i) k = Some (ptr (sectors s) i k).
Proof.
  intros ((_ & _ & _ & Hlen & _) & _) Hk. unfold ptr, SFS_NDIRECT in *.
  rewrite (proj2 (Z.ltb_lt _ _)) by lia.
  destruct (lget_is_Some (sfi_direct i) k) as [x ->]; [lia|done].
Qed.

Lemma ptr_indirect_lget s used i k :
  fs_ok s used → inode_ok s used i → sfi_indirect i ≠ 0 → SFS_NDIRECT ≤ k < MAXBLK →
  lget (dec_words (sec (sectors s) (sfi_indirect i))) (k - SFS_NDIRECT) = Some (ptr (sectors s) i k).
Proof.
  intros Hok (_ & Hown & _) Hi Hk. unfold ptr, MAXBLK, SFS_NDIRECT, SFS_DBPERIDB in *.
  rewrite (proj2 (Z.ltb_ge _ _)), (proj2 (Z.eqb_neq _ _)) by lia.
  destruct (Hown (sfi_indirect i)) as [_ Hb]; [split; [done|by left]|].
  destruct (fs_ok_sec s used (sfi_indirect i)) as [_ [Hlen _]]; [done|lia|].
  destruct (lget_is_Some (dec_words (sec (sectors s) (sfi_indirect i))) (k - 15)) as [x ->]; [|done].
  rewrite (length_dec_words 128) by done. lia.
Qed.

Lemma ptr_block_ok s used i k :
  inode_ok s used i → 0 ≤ k < MAXBLK → ptr (sectors s) i k ≠ 0 → block_ok s used (ptr (sectors s) i k).
Proof. intros (_ & Hown & _) Hk H0. by apply Hown, ptr_owned. Qed.

Lemma wp_getsv p v (Q : sfs_vnode → world sfs_fs → Prop) w :
  sfs_heap (wst w) !! p = Some v → Q v w → wp (getsv p) Q w.
Proof. intros Hp HQ. unfold getsv. kstep. by rewrite (wp_kof _ v). Qed.

(** ** Block mapping *)

Section bmap.
Context (p : loc) (v : sfs_vnode) (s : sfs_fs) (used : gset Z).
Context (Hok : fs_ok s used) (Hp : sfs_heap s !! p = Some v) (Hi : inode_ok s used (sv_i v)).

(** What [sfs_bmap] promises when it allocates: either a fresh zeroed block is
    mapped at [k], or there is no space; the file reads the same. *)
Definition bmap_grown (k : Z) (Q : Z * Z → world sfs_fs → Prop) (w : world sfs_fs) : Prop :=
  (∀ v' s' used', fstep p v s used v' s' used' → same_file s (sv_i v) s' (sv_i v') →
     same_space s s' → full s used' → Q (ENOSPC, 0) (World s' (wmem w))) ∧
  (∀ b v' s' used', fstep p v s used v' s' used' → same_file s (sv_i v) s' (sv_i v') →
     same_space s s' → b ≠ 0 → ptr (sectors s') (sv_i v') k = b →
     Q (0, b) (World s' (wmem w))).

(** Mapping the fresh block [b] at [k] is a step of the file. *)
Lemma grow_fstep b k i' s' :
  b ∉ used → 0 < b < nblocks s → 0 ≤ k < MAXBLK → ptr (sectors s) (sv_i v) k = 0 →
  inode_wf i' → sfi_indirect i' = sfi_indirect (sv_i v) → sfi_size i' = sfi_size (sv_i v) →
  same_vnode v (set_dirty true (set_inode i' v)) →
  (∀ j, 0 ≤ j < MAXBLK →
     ptr (sectors s') i' j = if j =? k then b else ptr (sectors s) (sv_i v) j) →
  sec (sectors s') b = zero_block →
  (∀ c, c ∈ used → c ≠ sfi_indirect (sv_i v) ∨ c = 0 → sec (sectors s') c = sec (sectors s) c) →
  fs_ok s' ({[b]} ∪ used) → same_base s s' →
  ∀ d, sfs_heap s' = <[p := set_dirty d (set_inode i' v)]> (sfs_heap s) →
  fstep p v s used (set_dirty d (set_inode i' v)) s' ({[b]} ∪ used) ∧
  same_file s (sv_i v) s' i'.
Proof.
  intros Hfresh Hb Hk Hhole Hwf Hind Hsz Hsame Hptr Hz Hsec Hok' Hbase d Hheap.
  destruct (grow_block s used (sv_i v) s' i' k b) as (Hi' & Hbytes & Hown); try done.
  { by unfold nblocks; rewrite (proj1 Hbase). }
  { intros j Hj H0. apply Hsec; [by apply ptr_block_ok|]. left. by apply Hi. }
  split; [|done]. split; try done; [set_solver| |].
  - intros c Hc Hno. apply Hsec; [done|]. destruct (decide (c = 0)); [by right|left].
    intros ->. destruct Hno. split; [done|by left].
  - intros c Hc. destruct (Hown c Hc) as [| ->]; auto.
Qed.

Lemma sfs_bmap_direct_spec k doalloc (Q : Z * Z → world sfs_fs → Prop) w :
  wst w = s → 0 ≤ k < SFS_NDIRECT →
  (ptr (sectors s) (sv_i v) k ≠ 0 ∨ doalloc = false → Q (0, ptr (sectors s) (sv_i v) k) w) →
  (ptr (sectors s) (sv_i v) k = 0 → doalloc = true → bmap_grown k Q w) →
  wp (sfs_bmap_direct p k doalloc) Q w.
Proof.
  intros Hw Hk HQ1 HQ2. assert (0 ≤ k < MAXBLK) as Hk' by (unfold MAXBLK, SFS_NDIRECT, SFS_DBPERIDB in *; lia).
  unfold sfs_bmap_direct. kstep. eapply wp_getsv; [by rewrite Hw|]. kstep.
  rewrite (wp_kof _ _ _ _ (ptr_direct_lget s used (sv_i v) k Hi Hk)). kstep.
  destruct (Z.eqb_spec (ptr (sectors s) (sv_i v) k) 0) as [H0|H0].
  - destruct doalloc; kstep.
    2:{ rewrite H0 in *. eapply check_used_spec; [exact Hw|exact Hok|done|]. kstep. apply HQ1. by right. }
    destruct (HQ2 H0 eq_refl) as [HQ3 HQ4]. eapply sfs_balloc_spec; [exact Hw|exact Hok| |].
    + intros Hfull. kstep. destruct w as [s0 m]; simpl in *; subst s0.
      eapply HQ3; [by apply fstep_refl|done|done|done].
    + intros b s1 Hfresh Hb Hok1 Hss Hh1 Hbase Hsp. kstep.
      eapply wp_getsv; [simpl; by rewrite Hh1|]. unfold setsv. kstep.
      pose proof (fs_ok_limit s used Hok). pose proof (length_sectors s used Hok) as Hlen.
      pose proof Hok as (_ & _ & _ & _ & Hn & _).
      assert (∀ c, c ∈ used → sec (sectors s1) c = sec (sectors s) c) as Hsec.
      { intros c Hc. rewrite Hss. apply sec_write_ne; [lia|]. by intros ->. }
      destruct (grow_fstep b k (set_direct k b (sv_i v))
                  (set_heap (<[p := set_dirty true (set_inode (set_direct k b (sv_i v)) v)]> (sfs_heap s1)) s1))
        with (d := true) as [Hst Hsf]; try done.
      { apply inode_wf_direct; [apply Hi|unfold is_u32; lia]. }
      { intros j Hj. rewrite ptr_set_direct; [|apply Hi|done|lia].
        change (sectors (set_heap _ s1)) with (sectors s1).
        destruct (Z.eqb_spec j k); [done|]. apply ptr_frame. intros. apply Hsec, Hi.
        split; [done|by left]. }
      { change (sectors (set_heap _ s1)) with (sectors s1). rewrite Hss. apply sec_write_eq. lia. }
      { intros c Hc _. by apply Hsec. }
      { simpl. by rewrite Hh1. }
      eapply check_used_spec; [done|apply Hst| |].
      { intros _. split; [set_solver|]. unfold nblocks in *; simpl. by rewrite (proj1 Hbase). }
      kstep. eapply HQ4; [exact Hst|done|exact Hsp|lia|]. simpl.
      rewrite ptr_set_direct, Z.eqb_refl; [done|apply Hi|done|lia].
  - kstep. eapply check_used_spec; [exact Hw|exact Hok|intros _; by apply ptr_block_ok|].
    kstep. apply HQ1. by left.
Qed.

(** The indirect block with entry [o] replaced. *)
Lemma entry_block ws o b :
  length ws = 128%nat → Forall is_u32 ws → is_u32 b →
  block_wf (enc_words (<[o := b]> ws)) ∧ dec_words (enc_words (<[o := b]> ws)) = <[o := b]> ws.
Proof.
  intros Hlen Hws Hb. assert (Forall is_u32 (<[o := b]> ws)) by by apply Forall_insert.
  split; [split|].
  - rewrite length_enc_words, length_insert, Hlen. done.
  - by apply enc_words_bytes.
  - by apply dec_enc_words_nil.
Qed.

Lemma sfs_bmap_entry_spec k doalloc (Q : Z * Z → world sfs_fs → Prop) w :
  let ib := sfi_indirect (sv_i v) in
  wst w = s → SFS_NDIRECT ≤ k < MAXBLK → ib ≠ 0 →
  (ptr (sectors s) (sv_i v) k ≠ 0 ∨ doalloc = false → Q (0, ptr (sectors s) (sv_i v) k) w) →
  (ptr (sectors s) (sv_i v) k = 0 → doalloc = true → bmap_grown k Q w) →
  wp (sfs_bmap_entry ib (sec (sectors s) ib) (k - SFS_NDIRECT) doalloc) Q w.
Proof.
  intros ib Hw Hk Hib HQ1 HQ2.
  assert (0 ≤ k < MAXBLK) as Hk' by (unfold MAXBLK, SFS_NDIRECT, SFS_DBPERIDB in *; lia).
  assert (block_ok s used ib) as [Hibu Hibn] by (apply Hi; split; [done|by left]).
  unfold sfs_bmap_entry. kstep. rewrite (wp_kof _ _ _ _ (ptr_indirect_lget s used (sv_i v) k Hok Hi Hib Hk)).
  kstep. destruct (Z.eqb_spec (ptr (sectors s) (sv_i v) k) 0) as [H0|H0].
  2:{ kstep. eapply check_used_spec; [exact Hw|exact Hok|intros _; by apply ptr_block_ok|].
      kstep. apply HQ1. by left. }
  destruct doalloc; kstep.
  2:{ rewrite H0 in *. eapply check_used_spec; [exact Hw|exact Hok|done|]. kstep. apply HQ1. by right. }
  destruct (HQ2 H0 eq_refl) as [HQ3 HQ4]. eapply sfs_balloc_spec; [exact Hw|exact Hok| |].
  { intros Hfull. kstep. destruct w as [s0 m]; simpl in *; subst s0.
    eapply HQ3; [by apply fstep_refl|done|done|done]. }
  intros b s1 Hfresh Hb Hok1 Hss Hh1 Hbase Hsp. kstep.
  destruct (fs_ok_sec s used ib) as [_ Hibwf]; [done|lia|]. pose proof Hibwf as [Hiblen Hibbytes].
  pose proof (length_dec_words 128 _ Hiblen) as Hwlen.
  pose proof (dec_words_u32 128 _ Hiblen Hibbytes) as Hwu.
  pose proof (fs_ok_limit s used Hok). pose proof (length_sectors s used Hok) as Hlen.
  pose proof Hok as (_ & _ & _ & _ & Hn & _).
  assert (Hoff : 0 ≤ k - SFS_NDIRECT < 128) by (unfold MAXBLK, SFS_NDIRECT, SFS_DBPERIDB in *; lia).
  rewrite lset_Some by lia. kstep.
  destruct (entry_block (dec_words (sec (sectors s) ib)) (Z.to_nat (k - SFS_NDIRECT)) b)
    as [Hewf Hedec]; [done|done|unfold is_u32; lia|].
  set (blk := enc_words _) in *. unfold on_dev. kstep.
  assert (nblocks s1 = nblocks s) as Hn1 by (unfold nblocks; by rewrite (proj1 Hbase)).
  pose proof Hok1 as (Hh & _ & _ & _ & Hn1' & _). rewrite Hn1 in Hn1'.
  apply sfs_wblock_ok; [exact Hh|cbn [wst]; lia|by apply block_wf_length|]. kstep.
  change (World (set_device _ s1) (wmem w)) with (World (wrote s1 ib blk) (wmem w)).
  assert (b ≠ ib) as Hbib by by intros ->.
  assert (sectors (wrote s1 ib blk) = <[Z.to_nat ib := blk]> (<[Z.to_nat b := zero_block]> (sectors s))) as Hss'.
  { rewrite <- Hss. done. }
  destruct (grow_fstep b k (sv_i v) (wrote s1 ib blk)) with (d := sv_dirty v) as [Hst Hsf]; try done.
  { apply Hi. }
  { intros j Hj. unfold ptr. destruct (Z.ltb_spec j SFS_NDIRECT).
    { destruct (Z.eqb_spec j k); [lia|done]. }
    rewrite (proj2 (Z.eqb_neq _ _)), Hss' by done. fold ib.
    rewrite sec_write_eq by (rewrite length_insert; lia). rewrite Hedec.
    unfold MAXBLK, SFS_NDIRECT, SFS_DBPERIDB in *. destruct (Z.eqb_spec j k) as [->|].
    - by rewrite lget_insert_eq by lia.
    - by rewrite lget_insert_ne by lia. }
  { rewrite Hss', sec_write_ne, sec_write_eq by lia. done. }
  { intros c Hc Hc'. fold ib in Hc'. rewrite Hss', sec_write_ne by lia.
    apply sec_write_ne; [lia|]. by intros ->. }
  { apply fs_ok_wrote; [done|done]. }
  { simpl. rewrite Hh1. symmetry. apply insert_id. rewrite Hp. by destruct v. }
  eapply check_used_spec; [done|apply Hst| |].
  { intros _. split; [set_solver|]. unfold nblocks in *; simpl. rewrite (proj1 Hbase). lia. }
  kstep. eapply HQ4; [exact Hst|done|exact Hsp|lia|]. simpl. unfold ptr.
  rewrite (proj2 (Z.ltb_ge _ _)), (proj2 (Z.eqb_neq _ _)), Hss' by (done || lia). fold ib.
  rewrite sec_write_eq by (rewrite length_insert; lia). by rewrite Hedec, lget_insert_eq by lia.
Qed.
End bmap.

(** A fresh zeroed block becomes the indirect block. *)
Lemma indirect_fstep p v s used b s' :
  fs_ok s used → inode_ok s used (sv_i v) → sfs_heap s !! p = Some v →
  sfi_indirect (sv_i v) = 0 → b ∉ used → 0 < b < nblocks s →
  sectors s' = <[Z.to_nat b := zero_block]> (sectors s) →
  fs_ok s' ({[b]} ∪ used) → same_base s s' →
  let v' := set_dirty true (set_inode (set_indirect b (sv_i v)) v) in
  sfs_heap s' = <[p := v']> (sfs_heap s) →
  fstep p v s used v' s' ({[b]} ∪ used) ∧ same_file s (sv_i v) s' (sv_i v').
Proof.
  intros Hok Hi Hp H0 Hfresh Hb Hss Hok' Hbase v' Hheap.
  pose proof (fs_ok_limit s used Hok). pose proof (length_sectors s used Hok) as Hlen.
  pose proof Hok as (_ & _ & _ & _ & Hn & _). pose proof Hi as (Hwf & Hown & Hne & Hinj).
  assert (∀ c, c ≠ b → sec (sectors s') c = sec (sectors s) c) as Hsec.
  { intros c Hc. rewrite Hss. apply sec_write_ne; [lia|done]. }
  assert (sec (sectors s') b = zero_block) as Hz by (rewrite Hss; apply sec_write_eq; lia).
  assert (∀ j, 0 ≤ j < MAXBLK → ptr (sectors s') (sv_i v') j = ptr (sectors s) (sv_i v) j) as Hptr.
  { intros j Hj. simpl. rewrite ptr_set_indirect by done. by apply ptr_frame. }
  assert (∀ c, owned (sectors s') (sv_i v') c → owned (sectors s) (sv_i v) c ∨ c = b) as Hown'.
  { intros c (Hc0 & [->|(j & Hj & Hc)]); [by right|left]. rewrite Hptr in Hc by done.
    split; [done|]. right. eauto. }
  assert (nblocks s' = nblocks s) as Hn' by (unfold nblocks; by rewrite (proj1 Hbase)).
  assert (∀ j, 0 ≤ j < MAXBLK → ptr (sectors s) (sv_i v) j ≠ 0 → ptr (sectors s) (sv_i v) j ≠ b) as Hpb.
  { intros j Hj Hj0 Heq. destruct Hfresh. rewrite <- Heq. by apply ptr_block_ok. }
  split.
  - split; try done; [set_solver| | |].
    + split_and!; [apply inode_wf_indirect; [done|unfold is_u32; lia]| | |].
      * intros c Hc. destruct (Hown' c Hc) as [Hc'| ->].
        -- destruct (Hown c Hc'). split; [set_solver|by rewrite Hn'].
        -- split; [set_solver|by rewrite Hn'].
      * intros j Hj. rewrite Hptr by done. simpl. by apply Hpb.
      * intros j k Hj Hk. rewrite !Hptr by done. by apply Hinj.
    + intros c Hc _. apply Hsec. by intros ->.
    + intros c Hc. destruct (Hown' c Hc) as [| ->]; auto.
  - split; [done|]. intros pos Hpos. unfold fbyte, MAXSIZE, SFS_BLOCKSIZE in *.
    assert (0 ≤ pos / 512 < MAXBLK) as Hp'
      by (split; [apply Z.div_pos; lia|apply Z.div_lt_upper_bound; lia]).
    rewrite Hptr by done. destruct (Z.eqb_spec (ptr (sectors s) (sv_i v) (pos / 512)) 0); [done|].
    rewrite Hsec; [done|]. by apply Hpb.
Qed.

Lemma bmap_grown_from p v s used v1 s1 used1 k (Q : Z * Z → world sfs_fs → Prop) w :
  fstep p v s used v1 s1 used1 → same_file s (sv_i v) s1 (sv_i v1) → same_space s s1 →
  bmap_grown p v s used k Q w → bmap_grown p v1 s1 used1 k Q (World s1 (wmem w)).
Proof.
  intros Hst Hsf Hsp [HQ1 HQ2]. split.
  - intros v' s' used' Hst' Hsf' Hsp' Hfull. eapply HQ1; [by eapply fstep_trans|by eapply same_file_trans| |].
    + unfold same_space in *. congruence.
    + unfold full, nblocks in *. by rewrite <- (proj1 (fst_base _ _ _ _ _ _ _ Hst)).
  - intros b v' s' used' Hst' Hsf' Hsp'. eapply HQ2; [by eapply fstep_trans|by eapply same_file_trans|].
    unfold same_space in *. congruence.
Qed.

Lemma sfs_bmap_spec p v s used k doalloc (Q : Z * Z → world sfs_fs → Prop) w :
  wst w = s → fs_ok s used → sfs_heap s !! p = Some v → inode_ok s used (sv_i v) →
  0 ≤ k < 2 ^ 32 →
  (MAXBLK ≤ k → Q (EINVAL, 0) w) →
  (k < MAXBLK → ptr (sectors s) (sv_i v) k ≠ 0 ∨ doalloc = false →
   ∀ x, Z.of_nat (length x) = SFS_BLOCKSIZE →
     Q (0, ptr (sectors s) (sv_i v) k) (World (touched s x) (wmem w))) →
  (k < MAXBLK → ptr (sectors s) (sv_i v) k = 0 → doalloc = true → bmap_grown p v s used k Q w) →
  wp (sfs_bmap p k doalloc) Q w.
Proof.
  intros Hw Hok Hp Hi Hk HQ1 HQ2 HQ3. unfold sfs_bmap. pose proof Hok as ([(_ & _ & Hbuf & _) _] & _).
  assert (Hself : World (touched s (lh_buf (sfs_device s))) (wmem w) = w).
  { rewrite (touched_self s used Hok), <- Hw. by destruct w. }
  destruct (Z.ltb_spec k SFS_NDIRECT) as [Hd|Hd].
  { assert (k < MAXBLK) by (unfold MAXBLK, SFS_DBPERIDB; lia).
    eapply sfs_bmap_direct_spec; [done..|lia| |auto].
    intros Hc. rewrite <- Hself. by apply HQ2. }
  kstep. eapply wp_getsv; [by rewrite Hw|]. kstep.
  assert (0 ≤ SFS_NDIRECT ∧ SFS_NDIRECT < 2 ^ 32) by (unfold SFS_NDIRECT; lia).
  rewrite (u32_id (k - SFS_NDIRECT)) by lia.
  destruct (Z.ltb_spec 0 ((k - SFS_NDIRECT) / SFS_DBPERIDB)) as [Hfar|Hnear].
  { kstep. apply HQ1. unfold MAXBLK, SFS_DBPERIDB in *.
    pose proof (Z.mul_div_le (k - SFS_NDIRECT) 128). lia. }
  assert (k < MAXBLK) as Hlt.
  { unfold MAXBLK, SFS_DBPERIDB in *. pose proof (Z.mod_pos_bound (k - SFS_NDIRECT) 128).
    pose proof (Z.div_mod (k - SFS_NDIRECT) 128). lia. }
  rewrite (Z.mod_small (k - SFS_NDIRECT)) by (unfold MAXBLK, SFS_DBPERIDB in *; lia).
  destruct (Z.eqb_spec (sfi_indirect (sv_i v)) 0) as [H0|H0].
  - assert (ptr (sectors s) (sv_i v) k = 0) as Hz.
    { unfold ptr. by rewrite (proj2 (Z.ltb_ge _ _)), H0 by done. }
    destruct doalloc; kstep.
    2:{ rewrite Hz in HQ2. rewrite <- Hself. apply HQ2; auto. }
    eapply sfs_balloc_spec; [exact Hw|exact Hok| |].
    { intros Hfull. kstep. destruct (HQ3 Hlt Hz eq_refl) as [HQ4 _]. rewrite <- Hself.
      eapply HQ4; [by apply fstep_touched|done|done|done]. }
    intros b s1 Hfresh Hb Hok1 Hss Hh1 Hbase Hsp. kstep.
    eapply wp_getsv; [simpl; by rewrite Hh1|]. unfold setsv. kstep.
    destruct (indirect_fstep p v s used b
      (set_heap (<[p := set_dirty true (set_inode (set_indirect b (sv_i v)) v)]> (sfs_heap s1)) s1))
      as [Hst Hsf]; try done.
    { simpl. by rewrite Hh1. }
    pose proof (bmap_grown_from _ _ _ _ _ _ _ k Q w Hst Hsf Hsp (HQ3 Hlt Hz eq_refl)) as Hgrown.
    pose proof (fstep_lookup _ _ _ _ _ _ _ Hst) as Hp'. destruct Hst as [Hok' _ _ _ Hi' _ _ _].
    assert (zero_block = sec (sectors s1) b) as Hzb.
    { rewrite Hss, sec_write_eq; [done|]. rewrite (length_sectors s used Hok).
      destruct Hok as (_ & _ & _ & _ & Hn & _). lia. }
    rewrite Hzb.
    match type of Hp' with sfs_heap ?s' !! _ = Some ?v' =>
      apply (sfs_bmap_entry_spec p v' s' _ Hok' Hp' Hi' k true) end; [done|lia|simpl; lia| |done].
    intros [Hc|]; [|done]. destruct Hc. simpl. unfold ptr. rewrite (proj2 (Z.ltb_ge _ _)) by done.
    simpl. rewrite (proj2 (Z.eqb_neq _ _)) by lia.
    change (sectors (set_heap _ s1)) with (sectors s1). rewrite <- Hzb, dec_zero_block.
    rewrite lget_lookup by lia.
    rewrite lookup_replicate_2 by (unfold MAXBLK, SFS_DBPERIDB in *; lia). done.
  - kstep. unfold on_dev. kstep. rewrite Hw. pose proof Hi as (_ & Hown & _).
    destruct (Hown (sfi_indirect (sv_i v))) as [_ Hib]; [split; [done|by left]|].
    destruct (fs_ok_sec s used (sfi_indirect (sv_i v))) as [Hsl Hswf]; [done|lia|].
    pose proof Hok as (Hh & _ & _ & _ & Hn & _).
    eapply sfs_rblock_ok; [exact Hh|simpl; lia|done|exact Hsl|]. kstep.
    pose proof (block_wf_length _ Hswf) as Hxl. set (x := sec (sectors s) (sfi_indirect (sv_i v))) in *.
    change (World (set_device _ s) (wmem w)) with (World (touched s x) (wmem w)).
    eapply (sfs_bmap_entry_spec p v (touched s x) used); [by apply fs_ok_touched|done|exact Hi|done|lia|done| |].
    + intros Hc. by apply HQ2.
    + intros Hc Ha. eapply bmap_grown_from; [by apply fstep_touched|done|done|]. by apply HQ3.
Qed.
