(* ===== verification/SfsIo.v ===== *)
(** * SFS files: reading and writing

    [sfs_io] against the contents of a file.  A read delivers the bytes of the
    file up to its end and changes nothing else; a write stores a prefix of the
    request, all of it unless the disk is full or the file would grow past the
    indirect block, and touches no block of any other file. *)

From S2P Require Import Prelude Array Bitmap CopyInOut Uio Lhd SfsDisk SfsFile SfsInv.

(** ** Blocks of a file *)

Definition fblock (ss : list (list Z)) (i : sfs_inode) (k : Z) : list Z :=
  if ptr ss i k =? 0 then zero_block else sec ss (ptr ss i k).

Lemma fblock_wf s used i k :
  fs_ok s used → inode_ok s used i → 0 ≤ k < MAXBLK → block_wf (fblock (sectors s) i k).
Proof.
  intros Hok Hi Hk. unfold fblock. destruct (Z.eqb_spec (ptr (sectors s) i k) 0) as [|H0].
  - apply zero_block_wf.
  - eapply fs_ok_sec; [done|]. destruct (ptr_block_ok s used i k) as [_ ?]; [done..|]. lia.
Qed.

Lemma fbyte_fblock ss i k o :
  0 ≤ o < SFS_BLOCKSIZE →
  fbyte ss i (SFS_BLOCKSIZE * k + o) = default 0 (lget (fblock ss i k) o).
Proof.
  intros Ho. unfold fbyte, fblock, SFS_BLOCKSIZE in *.
  replace ((512 * k + o) / 512) with k by (apply Z.div_unique with o; lia).
  replace ((512 * k + o) mod 512) with o by (apply Z.mod_unique with k; lia).
  destruct (ptr ss i k =? 0); [|done]. rewrite lget_lookup by lia. unfold zero_block.
  by rewrite lookup_replicate_2 by lia.
Qed.

Lemma length_fbytes ss i pos n : length (fbytes ss i pos n) = Z.to_nat n.
Proof. unfold fbytes. by rewrite length_fmap, length_seqZ. Qed.

Lemma lookup_fbytes ss i pos n k :
  0 ≤ Z.of_nat k < n → fbytes ss i pos n !! k = Some (fbyte ss i (pos + Z.of_nat k)).
Proof.
  intros Hk. unfold fbytes. rewrite list_lookup_fmap, lookup_seqZ_lt by lia. done.
Qed.

(** Bytes within one block. *)
Lemma fbytes_in_block s used i k o n :
  fs_ok s used → inode_ok s used i → 0 ≤ k < MAXBLK → 0 ≤ o → 0 ≤ n → o + n ≤ SFS_BLOCKSIZE →
  fbytes (sectors s) i (SFS_BLOCKSIZE * k + o) n =
  take (Z.to_nat n) (drop (Z.to_nat o) (fblock (sectors s) i k)).
Proof.
  intros Hok Hi Hk Ho Hn Hle. destruct (fblock_wf s used i k) as [Hlen _]; [done..|].
  unfold SFS_BLOCKSIZE in *. apply list_eq_same_length with (Z.to_nat n).
  - rewrite length_take, length_drop. lia.
  - apply length_fbytes.
  - intros j x y Hj Hx Hy. rewrite lookup_fbytes in Hx by lia.
    rewrite lookup_take_lt, lookup_drop in Hy by lia. simplify_eq.
    replace (512 * k + o + Z.of_nat j) with (512 * k + (o + Z.of_nat j)) by lia.
    change 512 with SFS_BLOCKSIZE at 1. rewrite fbyte_fblock by (unfold SFS_BLOCKSIZE; lia).
    rewrite lget_lookup by lia.
    replace (Z.to_nat (o + Z.of_nat j)) with (Z.to_nat o + j)%nat by lia. by rewrite Hy.
Qed.

Lemma fbytes_app ss i pos n m :
  0 ≤ n → 0 ≤ m → fbytes ss i pos (n + m) = fbytes ss i pos n ++ fbytes ss i (pos + n) m.
Proof.
  intros Hn Hm. apply list_eq. intros k. destruct (decide (Z.of_nat k < n + m)).
  - rewrite lookup_fbytes by lia. destruct (decide (Z.of_nat k < n)).
    + rewrite lookup_app_l by (rewrite length_fbytes; lia). by rewrite lookup_fbytes by lia.
    + rewrite lookup_app_r by (rewrite length_fbytes; lia). rewrite length_fbytes.
      rewrite lookup_fbytes by lia. f_equal. f_equal. lia.
  - rewrite !lookup_ge_None_2; [done| |]; rewrite ?length_app, !length_fbytes; lia.
Qed.

(** ** Effect of a write on a file *)

Definition wrote_file (s : sfs_fs) (i : sfs_inode) (s' : sfs_fs) (i' : sfs_inode)
    (off : Z) (d : list Z) : Prop :=
  sfi_size i' = sfi_size i ∧
  ∀ pos, 0 ≤ pos < MAXSIZE →
    fbyte (sectors s') i' pos =
    if decide (off ≤ pos < off + Z.of_nat (length d)) then default 0 (lget d (pos - off))
    else fbyte (sectors s) i pos.

Lemma wrote_file_nil s i s' i' off :
  same_file s i s' i' ↔ wrote_file s i s' i' off [].
Proof.
  split; intros [Hsz H]; (split; [done|]); intros pos Hpos; specialize (H pos Hpos).
  - rewrite decide_False by (simpl; lia). done.
  - rewrite decide_False in H by (simpl; lia). done.
Qed.

Lemma wrote_file_app s1 i1 s2 i2 s3 i3 off d1 d2 :
  wrote_file s1 i1 s2 i2 off d1 →
  wrote_file s2 i2 s3 i3 (off + Z.of_nat (length d1)) d2 →
  wrote_file s1 i1 s3 i3 off (d1 ++ d2).
Proof.
  intros [Hsz1 H1] [Hsz2 H2]. split; [congruence|]. intros pos Hpos.
  rewrite H2, H1, length_app by done. unfold lget.
  repeat case_decide; try lia; try done.
  - rewrite lookup_app_r by lia. do 2 f_equal. lia.
  - rewrite lookup_app_l by lia. done.
Qed.

Lemma same_file_wrote s1 i1 s2 i2 s3 i3 off d :
  same_file s1 i1 s2 i2 → wrote_file s2 i2 s3 i3 off d → wrote_file s1 i1 s3 i3 off d.
Proof.
  intros [Hsz1 H1] [Hsz2 H2]. split; [congruence|]. intros pos Hpos. by rewrite H2, H1.
Qed.

(** Overwriting the whole block [k] of a file with [d]. *)
Lemma data_write p v s used k d :
  fs_ok s used → sfs_heap s !! p = Some v → inode_ok s used (sv_i v) →
  0 ≤ k < MAXBLK → ptr (sectors s) (sv_i v) k ≠ 0 → block_wf d →
  let s' := wrote s (ptr (sectors s) (sv_i v) k) d in
  fstep p v s used v s' used ∧
  wrote_file s (sv_i v) s' (sv_i v) (SFS_BLOCKSIZE * k) d.
Proof.
  intros Hok Hp Hi Hk H0 Hd s'. pose proof Hi as (Hwf & Hown & Hne & Hinj).
  set (b := ptr (sectors s) (sv_i v) k) in *.
  destruct (ptr_block_ok s used (sv_i v) k) as [Hbu Hbn]; [done..|]. fold b in Hbu, Hbn.
  pose proof (length_sectors s used Hok) as Hlen. pose proof Hok as (_ & _ & _ & _ & Hn & _).
  assert (sectors s' = <[Z.to_nat b := d]> (sectors s)) as Hss by done.
  assert (sfi_indirect (sv_i v) ≠ 0 →
          sec (sectors s') (sfi_indirect (sv_i v)) = sec (sectors s) (sfi_indirect (sv_i v))) as Hind.
  { intros _. rewrite Hss. apply sec_write_ne; [lia|]. apply Hne; done. }
  assert (∀ j, ptr (sectors s') (sv_i v) j = ptr (sectors s) (sv_i v) j) as Hptr
    by (intros; by apply ptr_frame).
  split.
  - split; try done; [by apply fs_ok_wrote|simpl; by rewrite insert_id|by eapply inode_ok_frame| |].
    + intros c Hc Hno. rewrite Hss. apply sec_write_ne; [lia|]. intros <-. destruct Hno.
      by apply ptr_owned.
    + intros c Hc. left. by rewrite (owned_frame (sectors s)) in Hc.
  - split; [done|]. destruct Hd as [Hdl _]. intros pos Hpos. unfold fbyte, SFS_BLOCKSIZE, MAXSIZE in *.
    assert (0 ≤ pos / 512 < MAXBLK) as Hp'
      by (split; [apply Z.div_pos; lia|apply Z.div_lt_upper_bound; unfold SFS_BLOCKSIZE in *; lia]).
    rewrite Hptr. pose proof (Z.div_mod pos 512). pose proof (Z.mod_pos_bound pos 512).
    case_decide as Hin.
    + assert (pos / 512 = k) as -> by lia. fold b. rewrite (proj2 (Z.eqb_neq _ _)) by done.
      rewrite Hss, sec_write_eq by lia. do 2 f_equal. lia.
    + destruct (Z.eqb_spec (ptr (sectors s) (sv_i v) (pos / 512)) 0); [done|].
      rewrite Hss, sec_write_ne; [done|lia|]. intros Heq. symmetry in Heq.
      apply Hinj in Heq; [lia|done|done|done].
Qed.

(** A partial overwrite, through the block's old contents. *)
Lemma wrote_file_splice s used i s' k o d :
  fs_ok s used → inode_ok s used i → 0 ≤ k < MAXBLK → 0 ≤ o →
  o + Z.of_nat (length d) ≤ SFS_BLOCKSIZE →
  wrote_file s i s' i (SFS_BLOCKSIZE * k) (splice (fblock (sectors s) i k) (Z.to_nat o) d) →
  wrote_file s i s' i (SFS_BLOCKSIZE * k + o) d.
Proof.
  intros Hok Hi Hk Ho Hle [Hsz H]. split; [done|]. intros pos Hpos. rewrite H by done.
  destruct (fblock_wf s used i k) as [Hlen _]; [done..|]. unfold SFS_BLOCKSIZE in *.
  rewrite length_splice, Hlen by lia. change (Z.of_nat 512) with 512.
  destruct (decide (512 * k ≤ pos < 512 * k + 512)).
  2:{ rewrite decide_False by lia. done. }
  rewrite !lget_lookup by lia. rewrite lookup_splice by lia.
  repeat case_decide; try lia.
  - rewrite lget_lookup by lia. do 2 f_equal. lia.
  - replace pos with (512 * k + (pos - 512 * k)) at 2 by lia. change 512 with SFS_BLOCKSIZE at 2.
    rewrite fbyte_fblock by (unfold SFS_BLOCKSIZE; lia). by rewrite lget_lookup by lia.
Qed.

(** ** Reading *)

(** [s'] differs from [s] in the address space, now [sp], and in the contents
    of the card's buffer. *)
Definition reads_to (s s' : sfs_fs) (sp : uspace) : Prop :=
  ∃ x, Z.of_nat (length x) = SFS_BLOCKSIZE ∧
       s' = set_device (Lhd sp (d_blocks (sfs_device s)) x (sectors s) []) s.

Lemma reads_to_refl s used : fs_ok s used → reads_to s s (lh_space (sfs_device s)).
Proof.
  intros ([(_ & _ & Hb & _) Hscr] & _). exists (lh_buf (sfs_device s)). split; [exact Hb|].
  unfold set_device, sectors. destruct s as [? ? [? ? ? ? scr] ? ? ? ?]; simpl in *. by subst.
Qed.

Lemma reads_to_trans s1 s2 s3 sp2 sp3 :
  reads_to s1 s2 sp2 → reads_to s2 s3 sp3 → reads_to s1 s3 sp3.
Proof. intros (x & Hx & ->) (y & Hy & ->). by exists y. Qed.

Lemma reads_to_ok s s' sp used : fs_ok s used → reads_to s s' sp → fs_ok s' used.
Proof.
  intros ([(Hlen & Hlim & _ & Hsec & _) _] & Hrest) (x & Hx & ->).
  split; [|exact Hrest]. split; [|done]. by split_and!.
Qed.

Lemma reads_to_sectors s s' sp : reads_to s s' sp → sectors s' = sectors s.
Proof. by intros (x & _ & ->). Qed.

Lemma reads_to_space s s' sp : reads_to s s' sp → lh_space (sfs_device s') = sp.
Proof. by intros (x & _ & ->). Qed.

Lemma reads_to_heap s s' sp : reads_to s s' sp → sfs_heap s' = sfs_heap s.
Proof. by intros (x & _ & ->). Qed.

Lemma reads_to_inode s s' sp used i : reads_to s s' sp → inode_ok s used i → inode_ok s' used i.
Proof. by intros (x & _ & ->). Qed.

(** The block of the file a request starts in. *)
Lemma quot_block k o :
  0 ≤ k < 2 ^ 22 → 0 ≤ o < SFS_BLOCKSIZE → u32 (Z.quot (SFS_BLOCKSIZE * k + o) SFS_BLOCKSIZE) = k.
Proof.
  unfold SFS_BLOCKSIZE. intros Hk Ho. rewrite Z.quot_div_nonneg by lia.
  replace ((512 * k + o) / 512) with k by (apply Z.div_unique with o; lia). apply u32_id. lia.
Qed.

Section io.
Context (p : loc) (v : sfs_vnode) (s : sfs_fs) (used : gset Z).
Context (Hok : fs_ok s used) (Hp : sfs_heap s !! p = Some v) (Hi : inode_ok s used (sv_i v)).

Local Abbreviation sp := (lh_space (sfs_device s)).
Local Abbreviation bytes := (fbytes (sectors s) (sv_i v)).

Lemma sfs_partialio_read u k o n (Q : Z * uio → world sfs_fs → Prop) w :
  wst w = s → uio_rw u = UIO_READ → uio_offset u = SFS_BLOCKSIZE * k + o →
  0 ≤ o < SFS_BLOCKSIZE → 0 ≤ n → o + n ≤ SFS_BLOCKSIZE → 0 ≤ k < MAXBLK →
  uio_can u sp n → uio_fits u n →
  (∀ s', reads_to s s' (fill_space u sp (bytes (uio_offset u) n)) →
     Q (0, uio_fill u (bytes (uio_offset u) n)) (World s' (wmem w))) →
  wp (sfs_partialio p u o n) Q w.
Proof.
  intros Hw Hrw Hoff Ho Hn Hle Hk Hcan Hfit HQ. unfold sfs_partialio.
  replace (is_write u) with false by (unfold is_write; rewrite Hrw; done).
  unfold MAXBLK, SFS_NDIRECT, SFS_DBPERIDB in Hk.
  rewrite (u32_id (o + n)) by (unfold SFS_BLOCKSIZE in *; lia). kstep. kassert_tac.
  rewrite Hoff, quot_block in * by (done || lia).
  rewrite (fbytes_in_block s used (sv_i v) k o n Hok Hi) in HQ by (done || lia).
  set (blk := fblock (sectors s) (sv_i v) k) in *.
  assert (block_wf blk) as [Hbl _] by by apply (fblock_wf s used).
  eapply sfs_bmap_spec; [exact Hw|exact Hok|exact Hp|exact Hi|lia| | |done].
  { unfold MAXBLK, SFS_NDIRECT, SFS_DBPERIDB. lia. }
  intros _ _ x Hx. kstep.
  assert (∀ x' b, Z.of_nat (length x') = SFS_BLOCKSIZE →
    wp (sfs_partialio_move u b blk o n) Q (World (touched s x') (wmem w))) as Hmove.
  { intros x' b Hx'. unfold sfs_partialio_move, on_space, on_dev. kstep.
    eapply uiomove_read; [done|done|done|apply lslice_Some; unfold SFS_BLOCKSIZE in *; lia|].
    kstep. unfold is_write; simpl. rewrite Hrw. simpl. kstep. apply HQ. by exists x'. }
  unfold blk, fblock in Hmove.
  destruct (Z.eqb_spec (ptr (sectors s) (sv_i v) k) 0) as [H0|H0]; kstep.
  - rewrite wp_kassert by done. kstep. by apply Hmove.
  - unfold on_dev. kstep. destruct (ptr_block_ok s used (sv_i v) k) as [_ Hb]; [done..|].
    destruct (fs_ok_sec s used (ptr (sectors s) (sv_i v) k)) as [Hsl Hswf]; [done|lia|].
    pose proof Hok as (Hh & _ & _ & _ & Hnn & _).
    eapply sfs_rblock_ok; [by apply healthy_read|simpl; lia|done|exact Hsl|]. kstep.
    apply Hmove. by apply block_wf_length.
Qed.

(** Writing into a block that is mapped. *)
Lemma partialio_write_mapped u k o n (Q : Z * uio → world sfs_fs → Prop) w :
  wst w = s → uio_rw u = UIO_WRITE → 0 ≤ o → 0 ≤ n → o + n ≤ SFS_BLOCKSIZE →
  0 ≤ k < MAXBLK → ptr (sectors s) (sv_i v) k ≠ 0 →
  uio_can u sp n → uio_fits u n → Forall is_byte (uio_bytes u sp n) →
  (∀ s', fstep p v s used v s' used → same_space s s' →
     wrote_file s (sv_i v) s' (sv_i v) (SFS_BLOCKSIZE * k + o) (uio_bytes u sp n) →
     Q (0, uio_skip u n) (World s' (wmem w))) →
  wp ('(result, iobuf) ← on_dev (sfs_rblock zero_block (ptr (sectors s) (sv_i v) k));
      if negb (result =? 0) then mret (result, u) else
      sfs_partialio_move u (ptr (sectors s) (sv_i v) k) iobuf o n) Q w.
Proof.
  intros Hw Hrw Ho Hn Hle Hk H0 Hcan Hfit Hbytes HQ. unfold on_dev. kstep. rewrite Hw.
  pose proof (length_uio_bytes _ _ _ Hcan) as Hdl.
  destruct (ptr_block_ok s used (sv_i v) k) as [_ Hb]; [done..|].
  destruct (fs_ok_sec s used (ptr (sectors s) (sv_i v) k)) as [Hsl Hswf]; [done|lia|].
  pose proof Hok as (Hh & _ & _ & _ & Hnn & _).
  eapply sfs_rblock_ok; [exact Hh|simpl; lia|done|exact Hsl|]. kstep.
  set (b := ptr (sectors s) (sv_i v) k) in *. set (blk := sec (sectors s) b) in *.
  pose proof (block_wf_length _ Hswf) as Hbl. pose proof Hswf as [Hbl' Hbb].
  unfold sfs_partialio_move, on_space, on_dev. kstep.
  eapply uiomove_write; [done|done|done|done|lia|]. kstep. unfold is_write; simpl. rewrite Hrw. simpl. kstep.
  set (blk' := splice blk (Z.to_nat o) (uio_bytes u sp n)).
  assert (block_wf blk') as Hwf'.
  { split; [unfold blk'; rewrite length_splice; [done|unfold SFS_BLOCKSIZE in *; lia]|].
    apply Forall_app_2; [by apply Forall_take|apply Forall_app_2; [done|by apply Forall_drop]]. }
  eapply sfs_wblock_ok; [exact (healthy_read _ _ Hh Hbl)|simpl; lia|by apply block_wf_length|]. kstep.
  destruct (data_write p v s used k blk') as [Hst Hwr]; [done..|].
  apply HQ; [exact Hst|done|].
  eapply (wrote_file_splice s used); [done|done|done|done|lia|].
  unfold fblock. fold b. by rewrite (proj2 (Z.eqb_neq _ _)).
Qed.
End io.

Lemma fstep_mapped p v s used k x :
  fs_ok s used → sfs_heap s !! p = Some v → inode_ok s used (sv_i v) →
  Z.of_nat (length x) = SFS_BLOCKSIZE →
  fstep p v s used v (touched s x) used ∧ same_file s (sv_i v) (touched s x) (sv_i v) ∧
  same_space s (touched s x) ∧
  ptr (sectors (touched s x)) (sv_i v) k = ptr (sectors s) (sv_i v) k.
Proof. intros. split_and!; [by apply fstep_touched|done..]. Qed.

(** A step after which block [k] of the file is mapped. *)
Definition mapped_step (p : loc) (v : sfs_vnode) (s : sfs_fs) (used : gset Z) (k b : Z)
    (v' : sfs_vnode) (s' : sfs_fs) (used' : gset Z) : Prop :=
  fstep p v s used v' s' used' ∧ same_file s (sv_i v) s' (sv_i v') ∧ same_space s s' ∧
  ptr (sectors s') (sv_i v') k = b ∧ b ≠ 0.

(** [sfs_bmap] on behalf of a write. *)
Lemma sfs_bmap_write p v s used k (Q : Z * Z → world sfs_fs → Prop) w :
  wst w = s → fs_ok s used → sfs_heap s !! p = Some v → inode_ok s used (sv_i v) →
  0 ≤ k < 2 ^ 32 →
  (MAXBLK ≤ k → Q (EINVAL, 0) w) →
  (∀ v' s' used', k < MAXBLK → fstep p v s used v' s' used' → same_file s (sv_i v) s' (sv_i v') →
     same_space s s' → full s used' → Q (ENOSPC, 0) (World s' (wmem w))) →
  (∀ b v' s' used', k < MAXBLK → mapped_step p v s used k b v' s' used' →
     Q (0, b) (World s' (wmem w))) →
  wp (sfs_bmap p k true) Q w.
Proof.
  intros Hw Hok Hp Hi Hk HQ1 HQ2 HQ3.
  eapply sfs_bmap_spec; [exact Hw|exact Hok|exact Hp|exact Hi|done|done| |].
  - intros Hlt [H0|] x Hx; [|done]. destruct (fstep_mapped p v s used k x) as (? & ? & ? & ?); [done..|].
    apply (HQ3 _ v (touched s x) used); [done|]. by split_and!.
  - intros Hlt H0 _. split.
    + intros. by eapply HQ2.
    + intros b v' s' used' ? ? ? ? ?. apply (HQ3 _ v' s' used'); [done|]. by split_and!.
Qed.

Lemma sfs_partialio_write p v s used u k o n (Q : Z * uio → world sfs_fs → Prop) w :
  wst w = s → fs_ok s used → sfs_heap s !! p = Some v → inode_ok s used (sv_i v) →
  uio_rw u = UIO_WRITE → uio_offset u = SFS_BLOCKSIZE * k + o →
  0 ≤ o < SFS_BLOCKSIZE → 0 ≤ n → o + n ≤ SFS_BLOCKSIZE → 0 ≤ k < 2 ^ 22 →
  uio_can u (lh_space (sfs_device s)) n → uio_fits u n →
  Forall is_byte (uio_bytes u (lh_space (sfs_device s)) n) →
  (MAXBLK ≤ k → Q (EINVAL, u) w) →
  (∀ v' s' used', k < MAXBLK → fstep p v s used v' s' used' →
     same_file s (sv_i v) s' (sv_i v') → same_space s s' → full s used' →
     Q (ENOSPC, u) (World s' (wmem w))) →
  (∀ v' s' used', k < MAXBLK → fstep p v s used v' s' used' → same_space s s' →
     wrote_file s (sv_i v) s' (sv_i v') (uio_offset u) (uio_bytes u (lh_space (sfs_device s)) n) →
     Q (0, uio_skip u n) (World s' (wmem w))) →
  wp (sfs_partialio p u o n) Q w.
Proof.
  intros Hw Hok Hp Hi Hrw Hoff Ho Hn Hle Hk Hcan Hfit Hbytes HQ1 HQ2 HQ3. unfold sfs_partialio.
  assert (is_write u = true) as Hiw by (unfold is_write; by rewrite Hrw). rewrite Hiw.
  rewrite (u32_id (o + n)) by (unfold SFS_BLOCKSIZE in *; lia). kstep. kassert_tac.
  rewrite Hoff in *. rewrite quot_block by done.
  eapply sfs_bmap_write; [exact Hw|exact Hok|exact Hp|exact Hi|lia| | |].
  - intros Hfar. kstep. by apply HQ1.
  - intros v' s' used' Hlt Hst Hsf Hsp Hfull. kstep. by eapply HQ2.
  - intros b v' s' used' Hlt (Hst & Hsf & Hsp & Hptr & Hb). kstep.
    rewrite (proj2 (Z.eqb_neq _ _)) by done. pose proof Hst as [Hok' _ _ _ Hi' _ _ _].
    pose proof (fstep_lookup _ _ _ _ _ _ _ Hst) as Hp'. rewrite <- Hptr in *. unfold same_space in *.
    eapply (partialio_write_mapped p v' s' used'); [exact Hok'|exact Hp'|exact Hi'|done|done|lia|lia|lia|lia|
      done|by rewrite Hsp|done|by rewrite Hsp|].
    intros s2 Hst2 Hsp2 Hwr. rewrite Hsp in Hwr. eapply HQ3; [done|by eapply fstep_trans|congruence|].
    by eapply same_file_wrote.
Qed.

(** ** Whole blocks *)

(** The request handed to the device, with its offset and residue replaced. *)
Definition block_request (u : uio) (b : Z) : uio :=
  set_resid SFS_BLOCKSIZE (set_offset (b * SFS_BLOCKSIZE) u).

Lemma block_request_ok u b h :
  lhd_wf h → 0 ≤ b < d_blocks h → uio_can u (lh_space h) SFS_BLOCKSIZE →
  sector_request (block_request u b) h b.
Proof. intros _ Hb Hcan. split_and!; [done|done|lia|lia|exact Hcan]. Qed.

(** Restoring the request after the device has advanced it by a block. *)
Lemma block_restore u u' b :
  uio_offset u' = b * SFS_BLOCKSIZE + SFS_BLOCKSIZE → uio_resid u' = 0 →
  0 ≤ b < 2 ^ 22 → uio_fits u SFS_BLOCKSIZE → uio_resid u < 2 ^ 31 →
  set_resid (u32 (u32 (uio_resid u' - SFS_BLOCKSIZE) + i32 (uio_resid u)))
    (set_offset (i32 (i32 (uio_offset u' - b * SFS_BLOCKSIZE) + uio_offset u)) u') =
  set_resid (uio_resid u - SFS_BLOCKSIZE) (set_offset (uio_offset u + SFS_BLOCKSIZE) u').
Proof.
  intros Ho Hr Hb (Hf1 & Hf2 & Hf3) Hres. simpl. rewrite Ho, Hr. unfold SFS_BLOCKSIZE in *.
  rewrite (i32_id (uio_resid u)) by lia.
  rewrite (i32_id (b * 512 + 512 - b * 512)), i32_id by lia.
  replace (u32 (u32 (0 - 512) + uio_resid u)) with (uio_resid u - 512).
  2:{ unfold u32. rewrite Zplus_mod_idemp_l. symmetry. rewrite Z.add_comm. apply Z.mod_small. lia. }
  f_equal. f_equal. lia.
Qed.

Lemma block_filled u b x :
  Z.of_nat (length x) = SFS_BLOCKSIZE →
  set_resid (uio_resid u - SFS_BLOCKSIZE)
    (set_offset (uio_offset u + SFS_BLOCKSIZE) (uio_fill (block_request u b) x)) = uio_fill u x.
Proof. intros Hx. unfold uio_fill. by rewrite Hx. Qed.

Lemma sfs_blockio_read p v s used u k (Q : Z * uio → world sfs_fs → Prop) w :
  wst w = s → fs_ok s used → sfs_heap s !! p = Some v → inode_ok s used (sv_i v) →
  uio_rw u = UIO_READ → uio_offset u = SFS_BLOCKSIZE * k → 0 ≤ k < MAXBLK →
  uio_can u (lh_space (sfs_device s)) SFS_BLOCKSIZE → uio_fits u SFS_BLOCKSIZE →
  uio_resid u < 2 ^ 31 →
  (∀ s', let bs := fbytes (sectors s) (sv_i v) (uio_offset u) SFS_BLOCKSIZE in
     reads_to s s' (fill_space u (lh_space (sfs_device s)) bs) →
     Q (0, uio_fill u bs) (World s' (wmem w))) →
  wp (sfs_blockio p u) Q w.
Proof.
  intros Hw Hok Hp Hi Hrw Hoff Hk Hcan Hfit Hres HQ. unfold sfs_blockio.
  assert (is_write u = false) as Hiw by (unfold is_write; by rewrite Hrw). rewrite Hiw.
  assert (0 ≤ k < 2 ^ 22) as Hk2 by (unfold MAXBLK, SFS_NDIRECT, SFS_DBPERIDB in *; lia).
  rewrite Hoff in *. replace (SFS_BLOCKSIZE * k) with (SFS_BLOCKSIZE * k + 0) in * by lia.
  rewrite quot_block by (done || unfold SFS_BLOCKSIZE; lia). cbv zeta in HQ.
  rewrite (fbytes_in_block s used (sv_i v) k 0 SFS_BLOCKSIZE Hok Hi) in HQ by (unfold SFS_BLOCKSIZE; lia).
  destruct (fblock_wf s used (sv_i v) k) as [Hbl _]; [done..|].
  rewrite drop_0, take_ge in HQ by (rewrite Hbl; unfold SFS_BLOCKSIZE; lia). unfold fblock in *.
  kstep. eapply sfs_bmap_spec; [exact Hw|exact Hok|exact Hp|exact Hi|lia|lia| |done].
  intros _ _ x Hx. kstep.
  destruct (Z.eqb_spec (ptr (sectors s) (sv_i v) k) 0) as [H0|H0]; kstep.
  - rewrite wp_kassert by done. unfold on_space, on_dev. kstep.
    eapply uiomovezeros_spec; [done|done|done|done|]. apply HQ. by exists x.
  - set (b := ptr (sectors s) (sv_i v) k) in *.
    destruct (ptr_block_ok s used (sv_i v) k) as [_ Hb]; [done..|]. fold b in Hb.
    destruct (fs_ok_sec s used b) as [Hsl Hswf]; [done|lia|].
    pose proof (fs_ok_limit s used Hok). pose proof Hok as (Hh & _ & _ & _ & Hnn & _).
    assert (i32 (u32 (b * SFS_BLOCKSIZE)) = b * SFS_BLOCKSIZE) as Hdo
      by (unfold SFS_BLOCKSIZE; rewrite u32_id, i32_id by lia; done).
    rewrite Hdo. pose proof Hfit as (_ & _ & Hfr). cbn [uio_resid set_offset].
    rewrite wp_kassert by (apply Z.leb_le; lia). kstep. unfold on_dev. kstep.
    change (u32 SFS_BLOCKSIZE) with SFS_BLOCKSIZE. fold (block_request u b).
    eapply (sfs_rwblock_read (block_request u b) b); [by apply healthy_read| |done|exact Hsl|].
    { apply block_request_ok; [apply (healthy_read _ _ Hh Hx)|simpl; lia|done]. }
    kstep. pose proof (block_wf_length _ Hswf) as Hsl'. rewrite <- Hoff.
    rewrite (block_restore u); [|simpl; rewrite Hsl'; lia|simpl; rewrite Hsl'; lia|lia|done|done].
    rewrite block_filled by done. apply HQ. by exists (sec (sectors s) b).
Qed.

Lemma sfs_blockio_write p v s used u k (Q : Z * uio → world sfs_fs → Prop) w :
  wst w = s → fs_ok s used → sfs_heap s !! p = Some v → inode_ok s used (sv_i v) →
  uio_rw u = UIO_WRITE → uio_offset u = SFS_BLOCKSIZE * k → 0 ≤ k < 2 ^ 22 →
  uio_can u (lh_space (sfs_device s)) SFS_BLOCKSIZE → uio_fits u SFS_BLOCKSIZE →
  uio_resid u < 2 ^ 31 → Forall is_byte (uio_bytes u (lh_space (sfs_device s)) SFS_BLOCKSIZE) →
  (MAXBLK ≤ k → Q (EINVAL, u) w) →
  (∀ v' s' used', k < MAXBLK → fstep p v s used v' s' used' →
     same_file s (sv_i v) s' (sv_i v') → same_space s s' → full s used' →
     Q (ENOSPC, u) (World s' (wmem w))) →
  (∀ v' s' used', k < MAXBLK → fstep p v s used v' s' used' → same_space s s' →
     wrote_file s (sv_i v) s' (sv_i v') (uio_offset u)
       (uio_bytes u (lh_space (sfs_device s)) SFS_BLOCKSIZE) →
     Q (0, uio_skip u SFS_BLOCKSIZE) (World s' (wmem w))) →
  wp (sfs_blockio p u) Q w.
Proof.
  intros Hw Hok Hp Hi Hrw Hoff Hk Hcan Hfit Hres Hbytes HQ1 HQ2 HQ3. unfold sfs_blockio.
  assert (is_write u = true) as Hiw by (unfold is_write; by rewrite Hrw). rewrite Hiw.
  rewrite Hoff in *. replace (SFS_BLOCKSIZE * k) with (SFS_BLOCKSIZE * k + 0) in * by lia.
  rewrite quot_block by (done || unfold SFS_BLOCKSIZE; lia). kstep.
  eapply sfs_bmap_write; [exact Hw|exact Hok|exact Hp|exact Hi|lia| | |].
  { intros Hfar. kstep. by apply HQ1. }
  { intros v' s' used' Hlt Hst Hsf Hsp Hfull. kstep. by eapply HQ2. }
  intros b v' s' used' Hlt (Hst & Hsf & Hsp & Hptr & Hb0). kstep.
  rewrite (proj2 (Z.eqb_neq _ _)) by done. pose proof Hst as [Hok' _ _ _ Hi' _ _ _].
  pose proof (fstep_lookup _ _ _ _ _ _ _ Hst) as Hp'.
  destruct (ptr_block_ok s' used' (sv_i v') k) as [_ Hb]; [done|lia|by rewrite Hptr|]. rewrite Hptr in Hb.
  pose proof (fs_ok_limit s' used' Hok'). pose proof Hok' as (Hh & _ & _ & _ & Hnn & _).
  assert (i32 (u32 (b * SFS_BLOCKSIZE)) = b * SFS_BLOCKSIZE) as Hdo
    by (unfold SFS_BLOCKSIZE; rewrite u32_id, i32_id by lia; done).
  rewrite Hdo. pose proof Hfit as (_ & _ & Hfr). cbn [uio_resid set_offset]. kstep.
  rewrite wp_kassert by (apply Z.leb_le; lia). kstep. unfold on_dev. kstep.
  change (u32 SFS_BLOCKSIZE) with SFS_BLOCKSIZE. fold (block_request u b).
  unfold same_space in *.
  eapply (sfs_rwblock_write (block_request u b) b); [exact Hh| |done|].
  { apply block_request_ok; [apply Hh|simpl; lia|simpl; by rewrite Hsp]. }
  kstep. rewrite <- Hoff.
  rewrite (block_restore u); [|simpl; unfold SFS_BLOCKSIZE; lia|simpl; unfold SFS_BLOCKSIZE; lia|lia|done|done].
  change (uio_bytes (block_request u b)) with (uio_bytes u).
  set (d := uio_bytes u (lh_space (sfs_device s')) SFS_BLOCKSIZE).
  assert (d = uio_bytes u (lh_space (sfs_device s)) SFS_BLOCKSIZE) as Hd by (unfold d; by rewrite Hsp).
  assert (block_wf d) as Hdwf.
  { rewrite Hd. pose proof (length_uio_bytes _ _ _ Hcan). unfold SFS_BLOCKSIZE in *. split; [lia|done]. }
  destruct (data_write p v' s' used' k d) as [Hst2 Hwr]; [done|done|done|lia|by rewrite Hptr|done|].
  rewrite Hptr in Hst2, Hwr.
  apply (HQ3 v' (wrote s' b d) used'); [done|by eapply fstep_trans|exact Hsp|].
  rewrite <- Hd. replace (SFS_BLOCKSIZE * k + 0) with (SFS_BLOCKSIZE * k) by lia.
  by eapply same_file_wrote.
Qed.

(** ** Whole requests *)

Section read.
Context (p : loc) (v : sfs_vnode) (s : sfs_fs) (used : gset Z) (u : uio) (n : Z).
Context (Hok : fs_ok s used) (Hp : sfs_heap s !! p = Some v) (Hi : inode_ok s used (sv_i v)).
Context (Hrw : uio_rw u = UIO_READ) (Hn : 0 ≤ n) (Hres : uio_resid u = n) (Hn31 : n < 2 ^ 31).
Context (Hcan : uio_can u (lh_space (sfs_device s)) n).
Context (Hoff : 0 ≤ uio_offset u) (Hend : uio_offset u + n ≤ MAXSIZE).

Local Abbreviation bytes j := (fbytes (sectors s) (sv_i v) (uio_offset u) j).

(** The first [j] bytes have been delivered. *)
Definition read_upto (j : Z) (u' : uio) (s' : sfs_fs) : Prop :=
  0 ≤ j ≤ n ∧ u' = uio_fill u (bytes j) ∧
  reads_to s s' (fill_space u (lh_space (sfs_device s)) (bytes j)).

Lemma read_upto_start : read_upto 0 u s.
Proof.
  split; [lia|]. unfold fbytes. simpl. rewrite uio_fill_nil, fill_space_nil.
  split; [done|by eapply reads_to_refl].
Qed.

Lemma read_upto_facts j u' s' :
  read_upto j u' s' →
  uio_offset u' = uio_offset u + j ∧ uio_resid u' = n - j ∧ uio_rw u' = UIO_READ ∧
  uio_can u' (lh_space (sfs_device s')) (n - j) ∧ uio_fits u' (n - j) ∧
  fs_ok s' used ∧ sfs_heap s' !! p = Some v ∧ inode_ok s' used (sv_i v).
Proof.
  intros (Hj & -> & Hr). assert (Z.of_nat (length (bytes j)) = j) as Hl by (rewrite length_fbytes; lia).
  unfold MAXSIZE, MAXBLK, SFS_NDIRECT, SFS_DBPERIDB, SFS_BLOCKSIZE in *.
  split_and!; [simpl; lia|simpl; lia|done| | | | |].
  - rewrite (reads_to_space _ _ _ Hr). rewrite <- Hl at 3. apply uio_can_fill; [done|lia].
  - unfold uio_fits; simpl. lia.
  - by eapply reads_to_ok.
  - by rewrite (reads_to_heap _ _ _ Hr).
  - by eapply reads_to_inode.
Qed.

(** Delivering [m] more. *)
Lemma read_upto_more j m u' s' s'' :
  read_upto j u' s' → 0 ≤ m → j + m ≤ n →
  let bs := fbytes (sectors s') (sv_i v) (uio_offset u') m in
  reads_to s' s'' (fill_space u' (lh_space (sfs_device s')) bs) →
  read_upto (j + m) (uio_fill u' bs) s''.
Proof.
  intros Hup Hm Hjm bs Hr2. destruct (read_upto_facts _ _ _ Hup) as (Ho & _).
  destruct Hup as (Hj & -> & Hr). unfold bs in *. rewrite (reads_to_sectors _ _ _ Hr), Ho in *.
  rewrite (reads_to_space _ _ _ Hr) in Hr2.
  destruct (uio_fill_fill u (lh_space (sfs_device s)) (bytes j)
              (fbytes (sectors s) (sv_i v) (uio_offset u + j) m) n) as [Hf1 Hf2].
  { done. } { rewrite !length_fbytes. lia. }
  rewrite Hf1. rewrite Hf2 in Hr2. rewrite <- fbytes_app in Hr2 |- * by lia.
  split; [lia|]. split; [done|]. by eapply reads_to_trans.
Qed.

Lemma read_partial j u' s' k o m mem :
  read_upto j u' s' → uio_offset u + j = SFS_BLOCKSIZE * k + o → 0 ≤ o < SFS_BLOCKSIZE →
  0 ≤ m → o + m ≤ SFS_BLOCKSIZE → j + m ≤ n → 0 ≤ k < MAXBLK →
  wp (sfs_partialio p u' o m)
     (λ '(r, u'') w'', r = 0 ∧ read_upto (j + m) u'' (wst w'') ∧ wmem w'' = mem) (World s' mem).
Proof.
  intros Hup Hko Ho Hm Hom Hjm Hk.
  destruct (read_upto_facts _ _ _ Hup) as (Ho' & Hr' & Hrw' & Hcan' & (Hf1 & Hf2 & Hf3) & Hok' & Hp' & Hi').
  apply (sfs_partialio_read p v s' used Hok' Hp' Hi' u' k); [done|done|lia|done|done|done|done| | |].
  - eapply uio_can_mono; [done|lia].
  - split_and!; lia.
  - intros s'' Hr''. split_and!; [done| |done]. by eapply read_upto_more.
Qed.

Lemma read_block j u' s' k mem :
  read_upto j u' s' → uio_offset u + j = SFS_BLOCKSIZE * k → j + SFS_BLOCKSIZE ≤ n →
  wp (sfs_blockio p u')
     (λ '(r, u'') w'', r = 0 ∧ read_upto (j + SFS_BLOCKSIZE) u'' (wst w'') ∧ wmem w'' = mem)
     (World s' mem).
Proof.
  intros Hup Hko Hjm.
  destruct (read_upto_facts _ _ _ Hup) as (Ho' & Hr' & Hrw' & Hcan' & (Hf1 & Hf2 & Hf3) & Hok' & Hp' & Hi').
  destruct Hup as (Hj & Hup'). unfold MAXSIZE, SFS_BLOCKSIZE in *.
  eapply (sfs_blockio_read p v s' used _ k); [done|exact Hok'|exact Hp'|exact Hi'|done|unfold SFS_BLOCKSIZE; lia| | | |lia|].
  - lia.
  - eapply uio_can_mono; [done|unfold SFS_BLOCKSIZE; lia].
  - unfold SFS_BLOCKSIZE. split_and!; lia.
  - intros s'' bs Hr''. split_and!; [done| |done]. eapply read_upto_more; [by split|unfold SFS_BLOCKSIZE; lia..|done].
Qed.

(** The aligned part of the transfer. *)
Lemma io_aligned_read j u' s' mem :
  read_upto j u' s' → j = n ∨ (uio_offset u + j) mod 512 = 0 →
  wp (sfs_io_aligned p u')
     (λ '(r, u'') w'', r = 0 ∧ read_upto n u'' (wst w'') ∧ wmem w'' = mem) (World s' mem).
Proof.
  intros Hup Hal. destruct (read_upto_facts _ _ _ Hup) as (Ho' & Hr' & _). pose proof (proj1 Hup) as Hj.
  unfold sfs_io_aligned. rewrite Hr'. destruct (Z.eqb_spec (n - j) 0) as [E|E]; kstep.
  { split_and!; [done| |done]. by replace n with j by lia. }
  destruct Hal as [|Hal]; [lia|].
  assert (∃ k, uio_offset u + j = 512 * k) as [k Hk].
  { exists ((uio_offset u + j) / 512). pose proof (Z.div_mod (uio_offset u + j) 512). lia. }
  unfold MAXSIZE, SFS_BLOCKSIZE in *. kstep.
  rewrite wp_kassert by (rewrite Ho', Hk, Z.mul_comm, Z.rem_mul by lia; done). kstep.
  pose proof (Z.div_mod (n - j) 512). pose proof (Z.mod_pos_bound (n - j) 512).
  assert (0 ≤ (n - j) / 512) by (apply Z.div_pos; lia).
  apply (wp_kfind (λ i u2 w2, read_upto (j + 512 * i) u2 (wst w2) ∧ wmem w2 = mem)).
  - by rewrite Z.mul_0_r, Z.add_0_r.
  - intros i u2 [s2 m2] Hlt [Hup2 Hm2]. simpl in *. subst m2. kstep.
    eapply wp_mono; [apply (read_block (j + 512 * i) u2 s2 (k + i)); unfold SFS_BLOCKSIZE; [done|lia|lia]|].
    intros [r u3] w3 (-> & Hup3 & Hm3). kstep. split; [|done]. unfold SFS_BLOCKSIZE in Hup3.
    by replace (j + 512 * (i + 1)) with (j + 512 * i + 512) by lia.
  - intros u2 [s2 m2] [Hup2 Hm2]. simpl in *. subst m2. rewrite Z.add_0_l, Z2Nat.id in Hup2 by lia.
    destruct (read_upto_facts _ _ _ Hup2) as (_ & Hr2 & _). kstep. rewrite Hr2. kassert_tac.
    destruct (Z.ltb_spec 0 (n - (j + 512 * ((n - j) / 512)))); kstep.
    + eapply wp_mono; [apply (read_partial (j + 512 * ((n - j) / 512)) u2 s2 (k + (n - j) / 512) 0); unfold SFS_BLOCKSIZE;
        [done|lia|lia|lia|lia|lia|]|].
      { lia. }
      intros [r u3] w3 (-> & Hup3 & Hm3). split_and!; [done| |done].
      by replace n with (j + 512 * ((n - j) / 512) + (n - (j + 512 * ((n - j) / 512)))) at 1 by lia.
    + split_and!; [done| |done]. by replace n with (j + 512 * ((n - j) / 512)) by lia.
Qed.

Lemma sfs_io_blocks_read (Q : Z * uio → world sfs_fs → Prop) w :
  wst w = s →
  (∀ s', reads_to s s' (fill_space u (lh_space (sfs_device s)) (bytes n)) →
     Q (0, uio_fill u (bytes n)) (World s' (wmem w))) →
  wp (sfs_io_blocks p u) Q w.
Proof.
  intros Hw HQ. eapply (wp_mono _ (λ '(r, u'') w'', r = 0 ∧ read_upto n u'' (wst w'') ∧ wmem w'' = wmem w)).
  2:{ intros [r u'] [s' m'] (-> & (_ & -> & Hr) & Hm). simpl in *. subst m'. by apply HQ. }
  destruct w as [s0 mem]; simpl in *; subst s0.
  unfold sfs_io_blocks. pose proof (Z.mod_pos_bound (uio_offset u) 512 ltac:(lia)) as Hmod.
  pose proof (Z.div_mod (uio_offset u) 512 ltac:(lia)) as Hdm.
  assert (0 ≤ uio_offset u / 512) as Hd0 by (apply Z.div_pos; lia).
  assert (u32 (Z.rem (uio_offset u) SFS_BLOCKSIZE) = uio_offset u mod 512) as ->.
  { unfold SFS_BLOCKSIZE. rewrite Z.rem_mod_nonneg by lia. apply u32_id. lia. }
  set (o := uio_offset u mod 512) in *. set (k := uio_offset u / 512) in *.
  destruct (Z.eqb_spec o 0) as [E|E]; kstep.
  { eapply io_aligned_read; [apply read_upto_start|]. right. by rewrite Z.add_0_r. }
  rewrite Hres. unfold MAXSIZE, SFS_BLOCKSIZE in *.
  set (len := if n <? 512 - o then n else 512 - o).
  assert (0 ≤ len ≤ n ∧ len ≤ 512 - o ∧ (len = n ∨ len = 512 - o)) as (? & ? & Hlen).
  { unfold len. destruct (Z.ltb_spec n (512 - o)); lia. }
  eapply wp_mono; [apply (read_partial 0 u s k o len); unfold SFS_BLOCKSIZE;
    [apply read_upto_start|lia|lia|lia|lia|lia|lia]|].
  intros [r u'] [s' m'] (-> & Hup & Hm). simpl in *. subst m'. kstep.
  eapply io_aligned_read; [done|]. destruct Hlen as [->|Hlen]; [by left|right].
  replace (uio_offset u + (0 + len)) with ((k + 1) * 512) by lia. apply Z_mod_mult.
Qed.
End read.

(** The number of bytes a read at [off] of [n] bytes can deliver. *)
Definition readable (size off n : Z) : Z := Z.max 0 (Z.min n (size - off)).

Lemma set_resid_fill u x bs :
  set_resid (uio_resid u - Z.of_nat (length bs)) (uio_fill (set_resid x u) bs) = uio_fill u bs.
Proof. done. Qed.

Lemma sfs_io_read p v s used u (Q : Z * uio → world sfs_fs → Prop) w :
  wst w = s → fs_ok s used → sfs_heap s !! p = Some v → inode_ok s used (sv_i v) →
  sfi_size (sv_i v) ≤ MAXSIZE → uio_rw u = UIO_READ →
  0 ≤ uio_offset u → 0 ≤ uio_resid u → uio_offset u + uio_resid u < 2 ^ 31 →
  uio_can u (lh_space (sfs_device s)) (uio_resid u) →
  (∀ s', let bs := fbytes (sectors s) (sv_i v) (uio_offset u)
                     (readable (sfi_size (sv_i v)) (uio_offset u) (uio_resid u)) in
     reads_to s s' (fill_space u (lh_space (sfs_device s)) bs) →
     Q (0, uio_fill u bs) (World s' (wmem w))) →
  wp (sfs_io p u) Q w.
Proof.
  intros Hw Hok Hp Hi Hsz Hrw Ho Hr Hend Hcan HQ. cbv zeta in HQ. unfold sfs_io. kstep.
  eapply wp_getsv; [by rewrite Hw|]. kstep.
  assert (is_write u = false) as Hiw by (unfold is_write; by rewrite Hrw). rewrite Hiw. kstep.
  pose proof Hi as ((Hszr & _) & _). unfold is_u32 in Hszr.
  assert (MAXSIZE < 2 ^ 31) by done.
  rewrite (i32_id (sfi_size (sv_i v))), (i32_id (uio_offset u + uio_resid u)) by lia.
  set (size := sfi_size (sv_i v)) in *. set (off := uio_offset u) in *. set (n := uio_resid u) in *.
  destruct (Z.leb_spec size off).
  { kstep. replace (readable size off n) with 0 in HQ by (unfold readable; lia).
    unfold fbytes in HQ. simpl in HQ. rewrite uio_fill_nil, fill_space_nil in HQ.
    destruct w as [s0 mem]; simpl in *; subst s0. apply HQ. by eapply reads_to_refl. }
  set (N := readable size off n) in *.
  set (extra := if size <? off + n then u32 (off + n - size) else 0).
  assert (extra = n - N ∧ (extra = 0 ∨ extra < n) ∧ 0 ≤ N ≤ n ∧ off + N ≤ size) as (Hex & Hex' & HN & HNs).
  { unfold extra, N, readable. destruct (Z.ltb_spec size (off + n)); [rewrite u32_id by lia|]; lia. }
  kstep. fold extra. rewrite wp_kassert.
  2:{ destruct Hex' as [->|Hlt]; [done|]. rewrite (proj2 (Z.ltb_lt _ _)) by done. apply orb_true_r. }
  kstep. rewrite (u32_id (n - extra)) by lia. replace (n - extra) with N by lia.
  set (u1 := set_resid N u).
  eapply (sfs_io_blocks_read p v s used u1 N); try done; try lia; [eapply uio_can_mono; [exact Hcan|lia]|simpl; fold off; lia|].
  intros s' Hr'. kstep. unfold sfs_io_out. kstep.
  eapply wp_getsv; [simpl; by rewrite (reads_to_heap _ _ _ Hr')|].
  unfold is_write; simpl. rewrite Hrw. simpl. kstep.
  fold off.
  assert (Z.of_nat (length (fbytes (sectors s) (sv_i v) off N)) = N) as Hl by (rewrite length_fbytes; lia).
  rewrite Hl, Z.sub_diag, Z.add_0_l, u32_id by lia.
  replace extra with (uio_resid u - Z.of_nat (length (fbytes (sectors s) (sv_i v) off N))) by (fold n; lia).
  unfold u1. rewrite set_resid_fill. by apply HQ.
Qed.

Section write.
Context (p : loc) (v : sfs_vnode) (s : sfs_fs) (used : gset Z) (u : uio) (n : Z).
Context (Hok : fs_ok s used) (Hp : sfs_heap s !! p = Some v) (Hi : inode_ok s used (sv_i v)).
Context (Hrw : uio_rw u = UIO_WRITE) (Hn : 0 < n) (Hres : uio_resid u = n).
Context (Hcan : uio_can u (lh_space (sfs_device s)) n).
Context (Hoff : 0 ≤ uio_offset u) (Hend : uio_offset u + n < 2 ^ 31).
Context (Hbytes : Forall is_byte (uio_bytes u (lh_space (sfs_device s)) n)).

Local Abbreviation data j := (uio_bytes u (lh_space (sfs_device s)) j).

(** The first [j] bytes have been stored. *)
Definition write_upto (j : Z) (u' : uio) (v' : sfs_vnode) (s' : sfs_fs) (used' : gset Z) : Prop :=
  0 ≤ j ≤ n ∧ u' = uio_skip u j ∧ fstep p v s used v' s' used' ∧ same_space s s' ∧
  wrote_file s (sv_i v) s' (sv_i v') (uio_offset u) (data j) ∧
  (j = 0 ∨ uio_offset u + j ≤ MAXSIZE).

(** Why a write may stop early. *)
Definition write_error (r : Z) (used' : gset Z) : Prop :=
  (r = EINVAL ∧ MAXSIZE < uio_offset u + n) ∨
  (r = ENOSPC ∧ full s used' ∧ uio_offset u < MAXSIZE).

(** A failed write stops before the end of the request, at its start or at
    the start of a block. *)
Definition write_stop (j : Z) : Prop := j < n ∧ (j = 0 ∨ (uio_offset u + j) mod 512 = 0).

(** The outcome of a piece of the transfer that was to end at [j]. *)
Definition write_post (j : Z) (mem : list bool) (ru : Z * uio) (w' : world sfs_fs) : Prop :=
  wmem w' = mem ∧ ∃ v' used',
    (ru.1 = 0 ∧ write_upto j ru.2 v' (wst w') used') ∨
    (write_error ru.1 used' ∧ ∃ j', write_stop j' ∧ write_upto j' ru.2 v' (wst w') used').

Lemma write_upto_start : write_upto 0 u v s used.
Proof.
  split_and!; [lia|lia|by rewrite uio_skip_0|by apply fstep_refl|done| |by left].
  assert (data 0 = []) as ->.
  { apply nil_length_inv. pose proof (length_uio_bytes u (lh_space (sfs_device s)) 0) as H.
    rewrite <- Nat2Z.inj_iff. apply H. eapply uio_can_mono; [done|lia]. }
  by apply (wrote_file_nil s (sv_i v) s (sv_i v)).
Qed.

Lemma write_upto_facts j u' v' s' used' :
  write_upto j u' v' s' used' →
  uio_offset u' = uio_offset u + j ∧ uio_resid u' = n - j ∧ uio_rw u' = UIO_WRITE ∧
  uio_can u' (lh_space (sfs_device s')) (n - j) ∧ uio_fits u' (n - j) ∧
  fs_ok s' used' ∧ sfs_heap s' !! p = Some v' ∧ inode_ok s' used' (sv_i v').
Proof.
  intros (Hj & -> & Hst & Hsp & _).
  assert (n < 2 ^ 32) by (destruct Hcan as ((_ & ?) & ? & _); lia).
  split_and!; [done|simpl; lia|done| | |by apply Hst|by eapply fstep_lookup|by apply Hst].
  - unfold same_space in Hsp. rewrite Hsp. apply uio_can_skip; [done|lia].
  - unfold uio_fits; simpl. lia.
Qed.

(** The bytes stored next. *)
Lemma write_upto_bytes j m u' v' s' used' :
  write_upto j u' v' s' used' → 0 ≤ m → j + m ≤ n →
  data (j + m) = data j ++ uio_bytes u' (lh_space (sfs_device s')) m ∧
  Z.of_nat (length (data j)) = j ∧
  Forall is_byte (uio_bytes u' (lh_space (sfs_device s')) m).
Proof.
  intros (Hj & -> & _ & Hsp & _) Hm Hjm. unfold same_space in Hsp. rewrite Hsp.
  assert (data (j + m) = data j ++ uio_bytes (uio_skip u j) (lh_space (sfs_device s)) m) as Happ
    by (apply uio_bytes_app; [eapply uio_can_mono; [done|lia]|lia|lia]).
  split_and!; [done|apply length_uio_bytes; eapply uio_can_mono; [done|lia]|].
  assert (data n = data (j + m) ++ uio_bytes (uio_skip u (j + m)) (lh_space (sfs_device s)) (n - (j + m))) as Hall.
  { replace n with (j + m + (n - (j + m))) at 1 by lia. apply uio_bytes_app; [|lia|lia].
    by replace (j + m + (n - (j + m))) with n by lia. }
  rewrite Hall, Happ in Hbytes. apply Forall_app in Hbytes as [Hb _]. by apply Forall_app in Hb as [_ ?].
Qed.

Lemma write_upto_more j m u' v' s' used' v'' s'' used'' :
  write_upto j u' v' s' used' → 0 ≤ m → j + m ≤ n →
  uio_offset u + j + m ≤ MAXSIZE →
  fstep p v' s' used' v'' s'' used'' → same_space s' s'' →
  wrote_file s' (sv_i v') s'' (sv_i v'') (uio_offset u') (uio_bytes u' (lh_space (sfs_device s')) m) →
  write_upto (j + m) (uio_skip u' m) v'' s'' used''.
Proof.
  intros Hup Hm Hjm Hmax Hst2 Hsp2 Hwr2.
  destruct (write_upto_bytes _ m _ _ _ _ Hup Hm Hjm) as (Happ & Hl & _).
  destruct (write_upto_facts _ _ _ _ _ Hup) as (Ho & _).
  destruct Hup as (Hj & -> & Hst & Hsp & Hwr & _). unfold same_space in *.
  split_and!; [lia|lia|by rewrite uio_skip_skip|by eapply fstep_trans|congruence| |lia].
  rewrite Happ. eapply wrote_file_app; [done|]. by rewrite Hl, <- Ho.
Qed.

Lemma write_upto_same j u' v' s' used' v'' s'' used'' :
  write_upto j u' v' s' used' → fstep p v' s' used' v'' s'' used'' →
  same_file s' (sv_i v') s'' (sv_i v'') → same_space s' s'' → write_upto j u' v'' s'' used''.
Proof.
  intros (Hj & -> & Hst & Hsp & Hwr & Hmax) Hst2 Hsf Hsp2. unfold same_space in *.
  split_and!; [lia|lia|done|by eapply fstep_trans|congruence| |done].
  destruct Hwr as [Hsz Hb], Hsf as [Hsz2 Hb2]. split; [congruence|]. intros. by rewrite Hb2, Hb.
Qed.

Lemma full_step v' s' used' used'' : fstep p v s used v' s' used' → full s' used'' → full s used''.
Proof. intros Hst Hf. unfold full, nblocks in *. by rewrite <- (proj1 (fst_base _ _ _ _ _ _ _ Hst)). Qed.

Lemma write_partial j u' v' s' used' k o m mem :
  write_upto j u' v' s' used' → uio_offset u + j = SFS_BLOCKSIZE * k + o → 0 ≤ o < SFS_BLOCKSIZE →
  0 < m → o + m ≤ SFS_BLOCKSIZE → j + m ≤ n → 0 ≤ k → j = 0 ∨ o = 0 →
  wp (sfs_partialio p u' o m) (write_post (j + m) mem) (World s' mem).
Proof.
  intros Hup Hko Ho Hm Hom Hjm Hk Hjo.
  assert (write_stop j) as Hstop.
  { split; [lia|]. destruct Hjo as [->|Ho0]; [by left|right]. unfold SFS_BLOCKSIZE in *.
    rewrite Hko, Ho0, Z.add_0_r, Z.mul_comm. apply Z_mod_mult. }
  destruct (write_upto_facts _ _ _ _ _ Hup) as (Ho' & Hr' & Hrw' & Hcan' & (Hf1 & Hf2 & Hf3) & Hok' & Hp' & Hi').
  destruct (write_upto_bytes _ m _ _ _ _ Hup) as (_ & _ & Hb); [lia|lia|].
  pose proof Hup as (Hj & _ & Hst & _).
  eapply (sfs_partialio_write p v' s' used' u' k o m);
    [done|exact Hok'|exact Hp'|exact Hi'|done|lia|done|lia|done|unfold SFS_BLOCKSIZE in *; lia| | |done| | |].
  - eapply uio_can_mono; [done|lia].
  - split_and!; lia.
  - intros Hfar. split; [done|]. exists v', used'. right. split; [left; split; [done|]|by exists j; split].
    unfold MAXSIZE, SFS_BLOCKSIZE in *. lia.
  - intros v'' s'' used'' Hlt Hst2 Hsf Hsp Hfull. split; [done|]. exists v'', used''. right. split.
    + right. split_and!; [done|by eapply full_step|unfold MAXSIZE, SFS_BLOCKSIZE in *; lia].
    + exists j. split; [done|]. by eapply write_upto_same.
  - intros v'' s'' used'' Hlt Hst2 Hsp Hwr. split; [done|]. exists v'', used''. left. split; [done|].
    eapply write_upto_more; [done|lia|done|unfold MAXSIZE, SFS_BLOCKSIZE in *; lia|done|done|done].
Qed.

Lemma write_block j u' v' s' used' k mem :
  write_upto j u' v' s' used' → uio_offset u + j = SFS_BLOCKSIZE * k → j + SFS_BLOCKSIZE ≤ n →
  wp (sfs_blockio p u') (write_post (j + SFS_BLOCKSIZE) mem) (World s' mem).
Proof.
  intros Hup Hko Hjm.
  assert (write_stop j) as Hstop.
  { unfold SFS_BLOCKSIZE in *. split; [lia|right]. rewrite Hko, Z.mul_comm. apply Z_mod_mult. }
  destruct (write_upto_facts _ _ _ _ _ Hup) as (Ho' & Hr' & Hrw' & Hcan' & (Hf1 & Hf2 & Hf3) & Hok' & Hp' & Hi').
  destruct (write_upto_bytes _ SFS_BLOCKSIZE _ _ _ _ Hup) as (_ & _ & Hb); [done|lia|].
  pose proof Hup as (Hj & _ & Hst & _). assert (0 < SFS_BLOCKSIZE) by done.
  eapply (sfs_blockio_write p v' s' used' u' k);
    [done|exact Hok'|exact Hp'|exact Hi'|done|lia|unfold SFS_BLOCKSIZE in *; lia| | |lia|done| | |].
  - eapply uio_can_mono; [done|lia].
  - split_and!; lia.
  - intros Hfar. split; [done|]. exists v', used'. right. split; [left; split; [done|]|by exists j; split].
    unfold MAXSIZE, SFS_BLOCKSIZE in *. lia.
  - intros v'' s'' used'' Hlt Hst2 Hsf Hsp Hfull. split; [done|]. exists v'', used''. right. split.
    + right. split_and!; [done|by eapply full_step|unfold MAXSIZE, SFS_BLOCKSIZE in *; lia].
    + exists j. split; [done|]. by eapply write_upto_same.
  - intros v'' s'' used'' Hlt Hst2 Hsp Hwr. split; [done|]. exists v'', used''. left. split; [done|].
    eapply write_upto_more; [done|lia|done|unfold MAXSIZE, SFS_BLOCKSIZE in *; lia|done|done|done].
Qed.

Lemma write_error_nonzero r used' : write_error r used' → (r =? 0) = false.
Proof. by intros [[-> _]|[-> _]]. Qed.

(** An error ends the transfer. *)
Lemma write_post_error j j' mem r u' w' v' used' :
  write_error r used' → write_stop j' → write_upto j' u' v' (wst w') used' → wmem w' = mem →
  write_post j mem (r, u') w'.
Proof. intros He Hs Hup Hm. split; [done|]. exists v', used'. right. eauto. Qed.

Lemma io_aligned_write j u' v' s' used' mem :
  write_upto j u' v' s' used' → j = n ∨ (uio_offset u + j) mod 512 = 0 →
  wp (sfs_io_aligned p u') (write_post n mem) (World s' mem).
Proof.
  intros Hup Hal. destruct (write_upto_facts _ _ _ _ _ Hup) as (Ho' & Hr' & _). pose proof (proj1 Hup) as Hj.
  unfold sfs_io_aligned. rewrite Hr'. destruct (Z.eqb_spec (n - j) 0) as [E|E]; kstep.
  { split; [done|]. exists v', used'. left. split; [done|]. by replace n with j by lia. }
  destruct Hal as [|Hal]; [lia|].
  assert (∃ k, uio_offset u + j = 512 * k) as [k Hk].
  { exists ((uio_offset u + j) / 512). pose proof (Z.div_mod (uio_offset u + j) 512). lia. }
  unfold SFS_BLOCKSIZE in *. kstep.
  rewrite wp_kassert by (rewrite Ho', Hk, Z.mul_comm, Z.rem_mul by lia; done). kstep.
  pose proof (Z.div_mod (n - j) 512). pose proof (Z.mod_pos_bound (n - j) 512).
  assert (0 ≤ (n - j) / 512) by (apply Z.div_pos; lia).
  apply (wp_kfind (λ i u2 w2, wmem w2 = mem ∧ ∃ v2 used2, write_upto (j + 512 * i) u2 v2 (wst w2) used2)).
  - rewrite Z.mul_0_r, Z.add_0_r. split; [done|]. by exists v', used'.
  - intros i u2 [s2 m2] Hlt (Hm2 & v2 & used2 & Hup2). simpl in *. subst m2. kstep.
    eapply wp_mono; [apply (write_block (j + 512 * i) u2 v2 s2 used2 (k + i)); unfold SFS_BLOCKSIZE; [done|lia|lia]|].
    intros [r u3] w3 (Hm3 & v3 & used3 & [[Hr3 Hup3]|[He (j' & Hs3 & Hup3)]]); simpl in *.
    + subst r. kstep. split; [done|]. exists v3, used3. unfold SFS_BLOCKSIZE in Hup3.
      by replace (j + 512 * (i + 1)) with (j + 512 * i + 512) by lia.
    + rewrite (write_error_nonzero _ _ He). kstep. by eapply write_post_error.
  - intros u2 [s2 m2] (Hm2 & v2 & used2 & Hup2). simpl in *. subst m2. rewrite Z.add_0_l, Z2Nat.id in Hup2 by lia.
    destruct (write_upto_facts _ _ _ _ _ Hup2) as (_ & Hr2 & _). kstep. rewrite Hr2. kassert_tac.
    destruct (Z.ltb_spec 0 (n - (j + 512 * ((n - j) / 512)))); kstep.
    + eapply wp_mono.
      { apply (write_partial (j + 512 * ((n - j) / 512)) u2 v2 s2 used2 (k + (n - j) / 512) 0);
          unfold SFS_BLOCKSIZE; [done|lia|lia|lia|lia|lia|lia|by right]. }
      intros ru w' Hpost.
      by replace (j + 512 * ((n - j) / 512) + (n - (j + 512 * ((n - j) / 512)))) with n in Hpost by lia.
    + split; [done|]. exists v2, used2. left. split; [done|].
      by replace n with (j + 512 * ((n - j) / 512)) by lia.
Qed.

Lemma sfs_io_blocks_write mem :
  wp (sfs_io_blocks p u) (write_post n mem) (World s mem).
Proof.
  unfold sfs_io_blocks. pose proof (Z.mod_pos_bound (uio_offset u) 512 ltac:(lia)) as Hmod.
  pose proof (Z.div_mod (uio_offset u) 512 ltac:(lia)) as Hdm.
  assert (0 ≤ uio_offset u / 512) as Hd0 by (apply Z.div_pos; lia).
  assert (u32 (Z.rem (uio_offset u) SFS_BLOCKSIZE) = uio_offset u mod 512) as ->.
  { unfold SFS_BLOCKSIZE. rewrite Z.rem_mod_nonneg by lia. apply u32_id. lia. }
  set (o := uio_offset u mod 512) in *. set (k := uio_offset u / 512) in *.
  destruct (Z.eqb_spec o 0) as [E|E]; kstep.
  { eapply io_aligned_write; [apply write_upto_start|]. right. by rewrite Z.add_0_r. }
  rewrite Hres. unfold SFS_BLOCKSIZE in *.
  set (len := if n <? 512 - o then n else 512 - o).
  assert (0 ≤ len ≤ n ∧ len ≤ 512 - o ∧ (len = n ∨ len = 512 - o)) as (? & ? & Hlen).
  { unfold len. destruct (Z.ltb_spec n (512 - o)); lia. }
  eapply wp_mono; [apply (write_partial 0 u v s used k o len); unfold SFS_BLOCKSIZE;
    [apply write_upto_start|lia|lia|lia|lia|lia|lia|by left]|].
  intros [r u'] [s' m'] (Hm & v' & used' & [[Hr Hup]|[He (j' & Hs & Hup)]]); simpl in *; subst m'.
  - subst r. kstep. eapply io_aligned_write; [done|]. destruct Hlen as [->|Hlen]; [by left|right].
    replace (uio_offset u + (0 + len)) with ((k + 1) * 512) by lia. apply Z_mod_mult.
  - rewrite (write_error_nonzero _ _ He). kstep. by eapply write_post_error.
Qed.
End write.

(** Changing only the size of the file. *)
Lemma fstep_size p v s used n d s' :
  fs_ok s used → sfs_heap s !! p = Some v → inode_ok s used (sv_i v) → is_u32 n →
  let v' := set_dirty d (set_inode (set_size n (sv_i v)) v) in
  s' = set_heap (<[p := v']> (sfs_heap s)) s → fstep p v s used v' s' used.
Proof.
  intros Hok Hp Hi Hn v' ->. split; try done; [|by left].
  destruct Hi as (Hwf & Hrest). split; [by apply inode_wf_size|exact Hrest].
Qed.

(** What a write of the request [u] did: [j] bytes were stored. *)
Record write_done (p : loc) (v : sfs_vnode) (s : sfs_fs) (used : gset Z) (u : uio)
    (r : Z) (u' : uio) (s' : sfs_fs) (j : Z) (v' : sfs_vnode) (used' : gset Z) : Prop := WriteDone {
  wd_len : 0 ≤ j ≤ uio_resid u;
  wd_uio : u' = uio_skip u j;
  wd_stop : r ≠ 0 → j < uio_resid u ∧ (j = 0 ∨ (uio_offset u + j) mod 512 = 0);
  wd_result : (r = 0 ∧ j = uio_resid u) ∨
              (r = EINVAL ∧ MAXSIZE < uio_offset u + uio_resid u) ∨
              (r = ENOSPC ∧ full s used' ∧ uio_offset u < MAXSIZE);
  wd_step : fstep p v s used v' s' used';
  wd_space : same_space s s';
  wd_size : sfi_size (sv_i v') = Z.max (sfi_size (sv_i v)) (uio_offset u + j);
  wd_max : j = 0 ∨ uio_offset u + j ≤ MAXSIZE;
  wd_bytes : ∀ pos, 0 ≤ pos < MAXSIZE →
    fbyte (sectors s') (sv_i v') pos =
    if decide (uio_offset u ≤ pos < uio_offset u + j)
    then default 0 (lget (uio_bytes u (lh_space (sfs_device s)) j) (pos - uio_offset u))
    else fbyte (sectors s) (sv_i v) pos
}.

Lemma sfs_io_write p v s used u (Q : Z * uio → world sfs_fs → Prop) w :
  wst w = s → fs_ok s used → sfs_heap s !! p = Some v → inode_ok s used (sv_i v) →
  sfi_size (sv_i v) < 2 ^ 31 → uio_rw u = UIO_WRITE →
  0 ≤ uio_offset u → 0 < uio_resid u → uio_offset u + uio_resid u < 2 ^ 31 →
  uio_can u (lh_space (sfs_device s)) (uio_resid u) →
  Forall is_byte (uio_bytes u (lh_space (sfs_device s)) (uio_resid u)) →
  (∀ r u' s' j v' used', write_done p v s used u r u' s' j v' used' →
     Q (r, u') (World s' (wmem w))) →
  wp (sfs_io p u) Q w.
Proof.
  intros Hw Hok Hp Hi Hsz Hrw Ho Hr Hend Hcan Hbytes HQ. unfold sfs_io. kstep.
  eapply wp_getsv; [by rewrite Hw|]. kstep.
  assert (is_write u = true) as Hiw by (unfold is_write; by rewrite Hrw). rewrite Hiw. kstep.
  rewrite wp_kassert by done. kstep. rewrite Z.sub_0_r, u32_id by lia.
  replace (set_resid (uio_resid u) u) with u by by destruct u.
  destruct w as [s0 mem]; simpl in *; subst s0.
  eapply wp_mono; [eapply (sfs_io_blocks_write p v s used u (uio_resid u)); done|].
  intros [r u'] [s' m'] Hpost. simpl.
  assert (m' = mem ∧ ∃ j v' used', write_upto p v s used u (uio_resid u) j u' v' s' used' ∧
    (r = 0 ∧ j = uio_resid u ∨ write_error s u (uio_resid u) r used' ∧ write_stop u (uio_resid u) j))
    as (-> & j & v' & used' & Hup & Hres).
  { destruct Hpost as (Hm & v' & used' & [[Hr0 Hup]|[He (j & Hs & Hup)]]); simpl in *; split; [done| |done|]; eauto 9. }
  clear Hpost. destruct Hup as (Hj & -> & Hst & Hsp & [Hsize Hby] & Hmax).
  pose proof (fstep_lookup _ _ _ _ _ _ _ Hst) as Hp'. pose proof Hst as [Hok' _ _ _ Hi' _ _ _].
  assert (Z.of_nat (length (uio_bytes u (lh_space (sfs_device s)) j)) = j) as Hl
    by (apply length_uio_bytes; eapply uio_can_mono; [done|lia]).
  rewrite Hl in Hby. pose proof Hi as ((Hszr & _) & _). unfold is_u32 in Hszr.
  unfold sfs_io_out. kstep. eapply wp_getsv; [done|]. kstep. unfold is_write; simpl. rewrite Hrw. simpl.
  rewrite Hsize, i32_id by lia. rewrite Z.add_0_r, (u32_id (uio_resid u - j)) by lia. unfold setsv.
  destruct (Z.ltb_spec (sfi_size (sv_i v)) (uio_offset u + j)); kstep.
  - rewrite (u32_id (uio_offset u + j)) by lia.
    match goal with |- Q _ (World ?s2 _) => set (s'' := s2) end.
    assert (fstep p v' s' used' (set_dirty true (set_inode (set_size (uio_offset u + j) (sv_i v')) v')) s'' used')
      as Hst2 by (eapply fstep_size; [done|done|done|unfold is_u32; lia|done]).
    replace (set_resid (uio_resid u - j) (uio_skip u j)) with (uio_skip u j) by done.
    eapply (HQ _ _ _ j). split; [lia|done|by destruct Hres as [[]|[]]| |by eapply fstep_trans|done|simpl; lia|done|done].
    destruct Hres as [|[[[]|(? & ? & ?)] _]]; auto.
  - replace (set_resid (uio_resid u - j) (uio_skip u j)) with (uio_skip u j) by done.
    eapply (HQ _ _ _ j). split; [lia|done|by destruct Hres as [[]|[]]| |done|done|lia|done|done].
    destruct Hres as [|[[[]|(? & ? & ?)] _]]; auto.
Qed.

(** ** Theorems *)

(** An eight-block file system whose inode 3 is an empty file, loaded at 1. *)
Definition empty_inode : sfs_inode :=
  SfsInode 0 SFS_TYPE_FILE 1 (replicate 15 0) 0 (replicate 110 0).

Definition tiny_vnode : sfs_vnode := SfsVnode 1 0 sfs_fileops empty_inode 3 false.

Definition tiny_fs : sfs_fs :=
  SfsFs (SfsSuper SFS_MAGIC 8 (replicate 32 0) (replicate 118 0)) false
        (Lhd (USpace None ∅) 8 zero_block (replicate 8 zero_block) [])
        (Array 1 4 (Some [Some 1%positive; None; None; None]))
        (Bitmap 8 [15]) false {[1%positive := tiny_vnode]}.

Lemma tiny_map : bitmap_rep (Bitmap 8 [15]) {[0; 1; 2; 3]}.
Proof.
  unfold bitmap_rep, BITMAP_LIMIT. simpl length. split_and!; [simpl; lia..|reflexivity| | |].
  - repeat constructor; simpl; lia.
  - intros i. simpl. set_unfold. lia.
  - intros i Hi. assert (i = 0 ∨ i = 1 ∨ i = 2 ∨ i = 3 ∨ i = 4 ∨ i = 5 ∨ i = 6 ∨ i = 7) as Hc by (simpl in Hi; lia).
    destruct Hc as [->|[->|[->|[->|[->|[->|[->| ->]]]]]]]; vm_compute; done.
Defined.

Lemma tiny_ok : fs_ok tiny_fs {[0; 1; 2; 3]}.
Proof.
  unfold fs_ok. split_and!; [|apply Forall_replicate, zero_block_wf|exact tiny_map|set_solver|
    unfold nblocks; simpl; lia..|unfold nblocks; simpl; lia].
  split; [|done]. unfold lhd_wf, LHD_LIMIT; simpl sfs_device. split_and!; simpl; try done; try lia.
  repeat (apply Forall_cons_2; [done|]). apply Forall_nil_2.
Defined.

Lemma tiny_ptr ss k : ptr ss empty_inode k = 0.
Proof.
  unfold ptr. destruct (Z.ltb_spec k SFS_NDIRECT); [|done].
  change (sfi_direct empty_inode) with (replicate 15 0). unfold lget.
  case_decide; [|done]. destruct (replicate 15 0 !! Z.to_nat k) as [z|] eqn:Hz; [|done].
  by apply lookup_replicate in Hz as [-> _].
Qed.

Lemma tiny_inode_ok : inode_ok tiny_fs {[0; 1; 2; 3]} (sv_i tiny_vnode).
Proof.
  split_and!.
  - unfold inode_wf. split_and!; try done; apply Forall_replicate; done.
  - intros b (Hb & [->|(k & _ & Hk)]); [done|]. simpl in Hk. rewrite tiny_ptr in Hk. by subst.
  - intros k _. simpl. by rewrite tiny_ptr.
  - intros j k _ _. simpl. by rewrite tiny_ptr.
Qed.



(** C8: On a disk that reports no errors ([healthy], in [fs_ok]), with a buffer
    the process can access ([uio_can]) and a request that ends below 2^31,
    [sfs_write] stores a prefix of the request at its offset: all of it
    when it returns 0, and less only with EINVAL, when the request ends past
    the largest file, or ENOSPC, when every block of the disk is in use.  All
    other bytes of the file keep their value, the file grows to the end of
    what was stored, and no block of any other file or of the file system's
    own structures changes ([fstep]). *)
Theorem sfs_write_exact p v s used u m :
  fs_ok s used → sfs_heap s !! p = Some v → inode_ok s used (sv_i v) →
  sfi_size (sv_i v) < 2 ^ 31 → uio_rw u = UIO_WRITE →
  0 ≤ uio_offset u → 0 < uio_resid u → uio_offset u + uio_resid u < 2 ^ 31 →
  uio_can u (lh_space (sfs_device s)) (uio_resid u) →
  Forall is_byte (uio_bytes u (lh_space (sfs_device s)) (uio_resid u)) →
  wp (sfs_write p u)
     (λ '(r, u') w', ∃ j v' used', write_done p v s used u r u' (wst w') j v' used') (World s m).
Proof.
  intros Hok Hp Hi Hsz Hrw Ho Hr Hend Hcan Hb. unfold sfs_write. kstep.
  rewrite wp_kassert by by apply bool_decide_eq_true. kstep.
  eapply (sfs_io_write p v s used u); [done..|]. intros r u' s' j v' used' Hd. by exists j, v', used'.
Qed.

(** A request to write 600 bytes at offset 100. *)
Definition tiny_request : uio := mk_kuio (replicate 600 7) 600 100 UIO_WRITE.

Lemma tiny_request_ok :
  uio_can tiny_request (USpace None ∅) 600 ∧
  Forall is_byte (uio_bytes tiny_request (USpace None ∅) 600).
Proof.
  split; [unfold uio_can; simpl iov_len; split_and!; simpl; done || lia|].
  change (Forall is_byte (take 600 (replicate 600 7))). apply Forall_take, Forall_replicate.
  unfold is_byte. lia.
Defined.

Lemma sfs_write_exact_witness :
  wp (sfs_write 1%positive tiny_request)
     (λ '(r, u') w', ∃ j v' used', write_done 1%positive tiny_vnode tiny_fs {[0; 1; 2; 3]}
                                     tiny_request r u' (wst w') j v' used') (World tiny_fs []).
Proof.
  apply (sfs_write_exact 1%positive tiny_vnode tiny_fs {[0; 1; 2; 3]} tiny_request []);
    [exact tiny_ok|done|exact tiny_inode_ok|done|done|simpl; lia..|apply tiny_request_ok|apply tiny_request_ok].
Defined.

(** what [sfs_write] has stored, [sfs_read] delivers. *)
Theorem sfs_write_then_read p v s used u buf m :
  fs_ok s used → sfs_heap s !! p = Some v → inode_ok s used (sv_i v) →
  sfi_size (sv_i v) ≤ MAXSIZE → uio_rw u = UIO_WRITE →
  0 ≤ uio_offset u → 0 < uio_resid u → uio_offset u + uio_resid u < 2 ^ 31 →
  uio_can u (lh_space (sfs_device s)) (uio_resid u) →
  Forall is_byte (uio_bytes u (lh_space (sfs_device s)) (uio_resid u)) →
  Z.of_nat (length buf) = uio_resid u →
  wp (sfs_write p u)
     (λ '(r1, _) w1, r1 = 0 →
        wp (sfs_read p (mk_kuio buf (uio_resid u) (uio_offset u) UIO_READ))
           (λ '(r2, u2) _, r2 = 0 ∧ uio_resid u2 = 0 ∧
              kobj u2 = uio_bytes u (lh_space (sfs_device s)) (uio_resid u)) w1) (World s m).
Proof.
  intros Hok Hp Hi Hsz Hrw Ho Hr Hend Hcan Hb Hbuf. unfold sfs_write. kstep.
  assert (MAXSIZE < 2 ^ 31) by done.
  rewrite wp_kassert by by apply bool_decide_eq_true. kstep.
  eapply (sfs_io_write p v s used u); [done|done|done|done|lia|done..|].
  intros r u' s' j v' used' [Hj Hu _ Hres Hst Hsp Hsize Hmax Hby] Hr0. simpl.
  assert (j = uio_resid u) as Hjn by (destruct Hres as [[]|[[]|[]]]; subst; done). rewrite Hjn in *. clear Hjn.
  set (n := uio_resid u) in *. set (off := uio_offset u) in *.
  set (data := uio_bytes u (lh_space (sfs_device s)) n) in *.
  assert (Z.of_nat (length data) = n) as Hdl by by apply length_uio_bytes.
  assert (fbytes (sectors s') (sv_i v') off n = data) as Hdata.
  { apply list_eq_same_length with (Z.to_nat n); [lia|by rewrite length_fbytes|].
    intros k x y Hk Hx Hy. rewrite lookup_fbytes in Hx by lia. simplify_eq.
    rewrite Hby by lia. rewrite decide_True by lia.
    replace (off + Z.of_nat k - off) with (Z.of_nat k) by lia. by rewrite lget_of_nat, Hy. }
  unfold sfs_read. kstep. rewrite wp_kassert by by apply bool_decide_eq_true. kstep.
  eapply (sfs_io_read p v' s' used'); [done|apply Hst|by eapply fstep_lookup|apply Hst|lia|done|simpl; lia..| |].
  { unfold uio_can; simpl. destruct Hcan as ((_ & ?) & ? & _). split_and!; done || lia. }
  intros s2 bs _. unfold bs; simpl uio_offset; simpl uio_resid.
  replace (readable _ _ _) with n by (unfold readable; lia). rewrite Hdata. split_and!; [done|simpl; lia|].
  unfold kobj, uio_fill, fill_base; simpl. change (Z.to_nat 0) with 0%nat. apply splice_all. lia.
Qed.

Lemma sfs_write_then_read_witness :
  wp (sfs_write 1%positive tiny_request)
     (λ '(r1, _) w1, r1 = 0 →
        wp (sfs_read 1%positive (mk_kuio (replicate 600 0) 600 100 UIO_READ))
           (λ '(r2, u2) _, r2 = 0 ∧ uio_resid u2 = 0 ∧
              kobj u2 = uio_bytes tiny_request (USpace None ∅) 600) w1) (World tiny_fs []).
Proof.
  apply (sfs_write_then_read 1%positive tiny_vnode tiny_fs {[0; 1; 2; 3]} tiny_request
           (replicate 600 0) []);
    [exact tiny_ok|done|exact tiny_inode_ok|done|done|simpl; lia..|apply tiny_request_ok|
     apply tiny_request_ok|done].
Defined.

(** a write at an offset past the largest file fails with EINVAL, but not
    without effect: the file's size becomes the offset, larger than any file
    can be. *)
Theorem sfs_write_past_limit_extends p v s used u m :
  fs_ok s used → sfs_heap s !! p = Some v → inode_ok s used (sv_i v) →
  sfi_size (sv_i v) < uio_offset u → uio_rw u = UIO_WRITE →
  MAXSIZE < uio_offset u → 0 < uio_resid u → uio_offset u + uio_resid u < 2 ^ 31 →
  uio_can u (lh_space (sfs_device s)) (uio_resid u) →
  Forall is_byte (uio_bytes u (lh_space (sfs_device s)) (uio_resid u)) →
  wp (sfs_write p u)
     (λ '(r, u') w', r = EINVAL ∧ u' = u ∧
        ∃ v', sfs_heap (wst w') !! p = Some v' ∧ sfi_size (sv_i v') = uio_offset u) (World s m).
Proof.
  intros Hok Hp Hi Hsz Hrw Ho Hr Hend Hcan Hb. unfold sfs_write. kstep.
  assert (0 < MAXSIZE) by done.
  rewrite wp_kassert by by apply bool_decide_eq_true. kstep.
  eapply (sfs_io_write p v s used u); [done|done|done|done|lia|done|lia|done..|].
  intros r u' s' j v' used' [Hj Hu _ Hres Hst Hsp Hsize Hmax Hby]. assert (j = 0) as -> by lia.
  split_and!.
  - destruct Hres as [[]|[[]|(? & ? & ?)]]; [lia|done|lia].
  - by rewrite Hu, uio_skip_0.
  - exists v'. split; [by eapply fstep_lookup|]. lia.
Qed.

Lemma sfs_write_past_limit_extends_witness :
  let u := mk_kuio [5] 1 80000 UIO_WRITE in
  wp (sfs_write 1%positive u)
     (λ '(r, u') w', r = EINVAL ∧ u' = u ∧
        ∃ v', sfs_heap (wst w') !! 1%positive = Some v' ∧ sfi_size (sv_i v') = 80000) (World tiny_fs []).
Proof.
  apply (sfs_write_past_limit_extends 1%positive tiny_vnode tiny_fs {[0; 1; 2; 3]}
           (mk_kuio [5] 1 80000 UIO_WRITE) []);
    [exact tiny_ok|done|exact tiny_inode_ok|done|done|done|simpl; lia..| |].
  - unfold uio_can; simpl. split_and!; done || lia.
  - vm_compute. repeat constructor; done.
Defined.
