(* ===== verification/SfsTrunc.v ===== *)
(** * SFS files: truncation

    [sfs_truncate] against the block map of a file.  The blocks past the new
    end ([past_end]) are unmapped and their disk blocks freed, with one
    exception that the theorems spell out ([forgotten]): where the new end
    falls in the part of the file the indirect block maps, the first block
    past it is left mapped.  Nothing else changes. *)

From S2P Require Import Prelude Array Bitmap CopyInOut Uio Lhd SfsDisk SfsFile SfsInv SfsIo.

(** Block [k] lies past the end of a file of [bl] blocks. *)
Definition past_end (bl k : Z) : bool := bl <=? k.

(** The one block past the end that truncation to [bl] blocks misses: the first
    one, if the indirect block maps it. *)
Definition forgotten (bl k : Z) : bool := (SFS_NDIRECT <=? k) && (k =? bl).

(** Block [k] of the file is discarded when truncating to [bl] blocks. *)
Definition cut (bl k : Z) : bool := past_end bl k && negb (forgotten bl k).

(** The test of the loop over the direct blocks, and that of the loop over the
    indirect block. *)
Lemma cut_tests bl k : cut bl k = if k <? SFS_NDIRECT then bl <=? k else bl <? k.
Proof. unfold cut, past_end, forgotten. apply eq_true_iff_eq. case_match; lia. Qed.

(** Shrinking a file. *)
Record tstep (p : loc) (v : sfs_vnode) (s : sfs_fs) (used : gset Z)
    (v' : sfs_vnode) (s' : sfs_fs) (used' : gset Z) : Prop := TStep {
  ts_ok : fs_ok s' used';
  ts_base : same_base s s';
  ts_space : same_space s s';
  ts_heap : sfs_heap s' = <[p := v']> (sfs_heap s);
  ts_inode : inode_ok s' used' (sv_i v');
  ts_vnode : same_vnode v v';
  ts_owned : ∀ b, owned (sectors s') (sv_i v') b → owned (sectors s) (sv_i v) b;
  ts_used : ∀ b, b ∈ used' ↔
              b ∈ used ∧ (owned (sectors s) (sv_i v) b → owned (sectors s') (sv_i v') b);
  ts_indirect : sfi_indirect (sv_i v') = sfi_indirect (sv_i v) ∨ sfi_indirect (sv_i v') = 0;
  ts_frame : ∀ b, b ≠ 0 → b ≠ sfi_indirect (sv_i v) → sec (sectors s') b = sec (sectors s) b
}.

Lemma tstep_refl p v s used :
  fs_ok s used → sfs_heap s !! p = Some v → inode_ok s used (sv_i v) →
  tstep p v s used v s used.
Proof. intros Hok Hp Hi. split; try done; [by rewrite insert_id|naive_solver|by left]. Qed.

Lemma tstep_trans p v1 s1 u1 v2 s2 u2 v3 s3 u3 :
  tstep p v1 s1 u1 v2 s2 u2 → tstep p v2 s2 u2 v3 s3 u3 → tstep p v1 s1 u1 v3 s3 u3.
Proof.
  intros [] []. unfold same_space in *.
  split; [done|by eapply same_base_trans|congruence| |done|by eapply same_vnode_trans|auto| | |].
  - rewrite ts_heap1, ts_heap0. by rewrite insert_insert_eq.
  - intros b. rewrite ts_used1, ts_used0. naive_solver.
  - destruct ts_indirect1 as [E|E]; [|by right]. rewrite E. done.
  - intros b Hb Hne. rewrite ts_frame1, ts_frame0; [done..|]. destruct ts_indirect0 as [-> | ->]; done.
Qed.

Lemma tstep_lookup p v s used v' s' used' :
  tstep p v s used v' s' used' → sfs_heap s' !! p = Some v'.
Proof. intros []. rewrite ts_heap0. apply lookup_insert_eq. Qed.

(** The blocks freed when the blocks [C] of a file are unmapped, and its
    indirect block when that is dropped. *)
Definition shrunk_used (s : sfs_fs) (used : gset Z) (i i' : sfs_inode) (C : Z → bool)
    (used' : gset Z) : Prop :=
  ∀ b, b ∈ used' ↔
    b ∈ used ∧ ¬ (∃ k, 0 ≤ k < MAXBLK ∧ C k = true ∧ ptr (sectors s) i k = b ∧ b ≠ 0) ∧
    (b = sfi_indirect i → b ≠ 0 → sfi_indirect i' = sfi_indirect i).

Lemma shrink_inode s used i s' used' i' (C : Z → bool) :
  inode_ok s used i → inode_wf i' → nblocks s' = nblocks s →
  sfi_indirect i' = sfi_indirect i ∨ sfi_indirect i' = 0 →
  (∀ k, 0 ≤ k < MAXBLK →
     ptr (sectors s') i' k = if C k then 0 else ptr (sectors s) i k) →
  shrunk_used s used i i' C used' →
  inode_ok s' used' i' ∧
  (∀ b, owned (sectors s') i' b → owned (sectors s) i b) ∧
  (∀ b, b ∈ used' ↔ b ∈ used ∧ (owned (sectors s) i b → owned (sectors s') i' b)).
Proof.
  intros (Hwf & Hown & Hne & Hinj) Hwf' Hn Hind Hptr Hsh.
  assert (∀ b, owned (sectors s') i' b → owned (sectors s) i b) as Hsub.
  { intros b (Hb & [->|(k & Hk & Hb')]).
    - split; [done|]. left. by destruct Hind.
    - rewrite Hptr in Hb' by done. destruct (C k); [done|]. split; [done|]. right. eauto. }
  assert (∀ b, b ∈ used' ↔ b ∈ used ∧ (owned (sectors s) i b → owned (sectors s') i' b)) as Hused.
  { intros b. rewrite (Hsh b). split.
    - intros (Hb & Hno & Hib). split; [done|]. intros (H0 & [->|(k & Hk & Hbk)]); split; try done.
      + left. symmetry. auto.
      + right. exists k. split; [done|]. rewrite Hptr by done. destruct (C k) eqn:Hc; [|done].
        destruct Hno. by exists k.
    - intros [Hb Himp]. split_and!; [done| |].
      + intros (k & Hk & Hc & Hbk & H0). destruct Himp as (_ & [Hbi|(k' & Hk' & Hbk')]).
        * split; [done|]. right. eauto.
        * destruct (Hne k Hk); [congruence|]. destruct Hind; congruence.
        * rewrite Hptr in Hbk' by done. destruct (C k') eqn:Hc'; [congruence|].
          assert (k = k') by (apply Hinj; congruence). congruence.
      + intros Hbi H0. destruct Himp as (_ & [Hbi'|(k & Hk & Hbk)]); [split; [done|by left]|congruence|].
        rewrite Hptr in Hbk by done. destruct (C k); [congruence|]. destruct (Hne k Hk); congruence. }
  split; [|done]. split_and!; [done| | |].
  - intros b Hb. destruct (Hown b) as [? ?]; [auto|]. split; [|by rewrite Hn]. by apply Hused.
  - intros k Hk. rewrite Hptr by done. destruct (C k); [done|]. intros H0.
    destruct Hind as [-> | ->]; auto.
  - intros j k Hj Hk. rewrite !Hptr by done. destruct (C j); [done|].
    destruct (C k); [done|]. by apply Hinj.
Qed.

(** ** Freeing blocks *)

Lemma sfs_bfree_spec s used b (Q : unit → world sfs_fs → Prop) w :
  wst w = s → fs_ok s used → block_ok s used b →
  (∀ bm, let s' := set_freemapdirty true (set_freemap bm s) in
     fs_ok s' (used ∖ {[b]}) → Q tt (World s' (wmem w))) →
  wp (sfs_bfree b) Q w.
Proof.
  intros Hw Hok [Hu Hb] HQ. pose proof Hok as (Hh & Hss & Hbm & H0 & Hn & Hnb & Hfull).
  unfold sfs_bfree, on_map. kstep. rewrite Hw.
  eapply bitmap_unmark_spec; [done|done|done|]. intros bm Hbm' Hnb'. kstep. apply HQ.
  unfold fs_ok, nblocks, sectors in *; simpl. rewrite Hnb'.
  split_and!; try done; try lia; [set_solver by lia|].
  intros c Hc. apply elem_of_difference. split; [by apply Hfull|]. rewrite elem_of_singleton. lia.
Qed.

(** Unmapping direct block [k]. *)
Lemma drop_direct p v s used k bm :
  fs_ok s used → sfs_heap s !! p = Some v → inode_ok s used (sv_i v) →
  0 ≤ k < SFS_NDIRECT → ptr (sectors s) (sv_i v) k ≠ 0 →
  let s1 := set_freemapdirty true (set_freemap bm s) in
  fs_ok s1 (used ∖ {[ptr (sectors s) (sv_i v) k]}) →
  let v' := set_dirty true (set_inode (set_direct k 0 (sv_i v)) v) in
  let s' := set_heap (<[p := v']> (sfs_heap s1)) s1 in
  tstep p v s used v' s' (used ∖ {[ptr (sectors s) (sv_i v) k]}) ∧
  sfi_indirect (sv_i v') = sfi_indirect (sv_i v) ∧
  ∀ j, 0 ≤ j → ptr (sectors s') (sv_i v') j = if j =? k then 0 else ptr (sectors s) (sv_i v) j.
Proof.
  intros Hok Hp Hi Hk H0 s1 Hok1 v' s'. set (b := ptr (sectors s) (sv_i v) k) in *.
  pose proof Hi as (Hwf & Hown & Hne & Hinj). pose proof Hwf as (_ & _ & _ & Hlen & _).
  assert (0 ≤ k < MAXBLK) as Hk' by (unfold MAXBLK, SFS_NDIRECT, SFS_DBPERIDB in *; lia).
  assert (∀ j, 0 ≤ j → ptr (sectors s') (sv_i v') j = if j =? k then 0 else ptr (sectors s) (sv_i v) j) as Hptr.
  { intros j Hj. by apply ptr_set_direct. }
  destruct (shrink_inode s used (sv_i v) s' (used ∖ {[b]}) (sv_i v') (λ j, j =? k)) as (Hi' & Hsub & Hu); try done.
  { by apply inode_wf_direct. } { by left. } { intros j Hj. apply Hptr. lia. }
  { intros c. rewrite elem_of_difference, elem_of_singleton. split.
    - intros [Hc Hcb]. split_and!; [done| |done]. intros (j & Hj & ->%Z.eqb_eq & Hcj & _). by destruct Hcb.
    - intros (Hc & Hno & _). split; [done|]. intros ->. destruct Hno. exists k.
      split_and!; try done; try lia. }
  split; [|done]. split; try done. by left.
Qed.

(** ** The loops *)

Lemma truncate_direct_spec p v s used bl (Q : unit → world sfs_fs → Prop) w :
  wst w = s → fs_ok s used → sfs_heap s !! p = Some v → inode_ok s used (sv_i v) →
  (∀ v' s' used', tstep p v s used v' s' used' →
     sfi_indirect (sv_i v') = sfi_indirect (sv_i v) →
     (∀ k, 0 ≤ k → ptr (sectors s') (sv_i v') k =
        if (k <? SFS_NDIRECT) && (bl <=? k) then 0 else ptr (sectors s) (sv_i v) k) →
     Q tt (World s' (wmem w))) →
  wp (truncate_direct p bl) Q w.
Proof.
  intros Hw Hok Hp Hi HQ. unfold truncate_direct.
  apply (wp_kfold (λ i _ w', wmem w' = wmem w ∧ ∃ v' used', tstep p v s used v' (wst w') used' ∧
     sfi_indirect (sv_i v') = sfi_indirect (sv_i v) ∧
     ∀ k, 0 ≤ k → ptr (sectors (wst w')) (sv_i v') k =
        if (k <? i) && (bl <=? k) then 0 else ptr (sectors s) (sv_i v) k)).
  - split; [done|]. exists v, used. rewrite Hw. split_and!; [by apply tstep_refl|done|].
    intros k Hk. by rewrite (proj2 (Z.ltb_ge _ _)) by done.
  - intros i [] [s1 m1] Hr (Hm & v1 & used1 & Hst & Hind & Hptr). simpl in *. subst m1.
    assert (0 ≤ i < SFS_NDIRECT) as Hi15 by (unfold SFS_NDIRECT in *; lia).
    pose proof (tstep_lookup _ _ _ _ _ _ _ Hst) as Hp1. pose proof Hst as [Hok1 _ _ _ Hi1 _ _ _ _ _].
    kstep. eapply wp_getsv; [exact Hp1|]. kstep.
    rewrite (wp_kof _ _ _ _ (ptr_direct_lget s1 used1 (sv_i v1) i Hi1 Hi15)). kstep.
    assert (ptr (sectors s1) (sv_i v1) i = ptr (sectors s) (sv_i v) i) as Hpi.
    { rewrite Hptr by lia. by rewrite Z.ltb_irrefl. }
    destruct (Z.leb_spec bl i) as [Hbl|Hbl], (Z.eqb_spec (ptr (sectors s1) (sv_i v1) i) 0) as [H0|H0]; kstep.
    2:{ eapply sfs_bfree_spec; [done|exact Hok1|apply ptr_block_ok; [done| |done]|].
        { unfold MAXBLK, SFS_NDIRECT, SFS_DBPERIDB in *. lia. }
        intros bm s2 Hok2. kstep. eapply wp_getsv; [exact Hp1|]. unfold setsv. kstep.
        destruct (drop_direct p v1 s1 used1 i bm) as (Hst2 & Hind2 & Hptr2); [done..|].
        split; [done|]. eexists _, _. split_and!; [by eapply tstep_trans|by rewrite Hind2, Hind|].
        intros k Hk. change (wst (World ?a _)) with a. rewrite Hptr2, Hptr by lia.
        destruct (Z.eqb_spec k i); repeat case_match; try lia; done. }
    all: split; [done|]; exists v1, used1; split_and!; [done|done|]; intros k Hk; rewrite Hptr by done;
      destruct (Z.eqb_spec k i) as [->|]; repeat case_match; try lia; congruence.
  - intros [] [s1 m1] (Hm & v1 & used1 & Hst & Hind & Hptr). simpl in *. subst m1. by eapply HQ.
Qed.

(** The entries of the indirect block, for the loop that discards some. *)
Definition entries_ok (s : sfs_fs) (used : gset Z) (ws : list Z) : Prop :=
  length ws = 128%nat ∧
  (∀ j x, lget ws j = Some x → x ≠ 0 → block_ok s used x) ∧
  (∀ i j x, lget ws i = Some x → lget ws j = Some x → x ≠ 0 → i = j).

(** Entries [i < j] past the limit [bl] have been discarded. *)
Definition dropped (bl j : Z) (ws ws' : list Z) : Prop :=
  length ws' = 128%nat ∧
  ∀ i, 0 ≤ i < 128 → lget ws' i = if (i <? j) && (bl <? SFS_NDIRECT + i) then Some 0 else lget ws i.

Lemma dropped_u32 bl j ws ws' : dropped bl j ws ws' → Forall is_u32 ws → Forall is_u32 ws'.
Proof.
  intros [Hl Hdr] Hu. apply Forall_lookup. intros i x Hx. pose proof (lookup_lt_Some _ _ _ Hx).
  rewrite <- lget_of_nat, Hdr in Hx by lia. case_match; [by injection Hx as <-|].
  rewrite lget_of_nat in Hx. exact (Forall_lookup_1 _ _ _ _ Hu Hx).
Qed.

Definition freed_entries (bl j : Z) (ws : list Z) (used used' : gset Z) : Prop :=
  ∀ b, b ∈ used' ↔ b ∈ used ∧
         ¬ ∃ i, 0 ≤ i < j ∧ bl < SFS_NDIRECT + i ∧ lget ws i = Some b ∧ b ≠ 0.

(** What the loop leaves behind after [j] rounds. *)
Record drop_upto (s : sfs_fs) (used : gset Z) (bl j : Z) (ws ws' : list Z) (hn dirty : bool)
    (s' : sfs_fs) (used' : gset Z) : Prop := DropUpto {
  du_entries : dropped bl j ws ws';
  du_nonzero : hn = false ↔ ∀ i, 0 ≤ i < j → lget ws' i = Some 0;
  du_dirty : dirty = false → ws' = ws;
  du_used : freed_entries bl j ws used used';
  du_ok : fs_ok s' used';
  du_state : ∃ bm fd, s' = set_freemapdirty fd (set_freemap bm s)
}.

Lemma drop_upto_start s used bl ws :
  fs_ok s used → entries_ok s used ws → drop_upto s used bl 0 ws ws false false s used.
Proof.
  intros Hok (Hlen & _). split; try done.
  - split; [done|]. intros i Hi. by rewrite (proj2 (Z.ltb_ge _ _)) by lia.
  - split; [|done]. intros _ i Hi. lia.
  - intros b. split; [|naive_solver]. intros Hb. split; [done|]. intros (i & Hi & _). lia.
  - exists (sfs_freemap s), (sfs_freemapdirty s). by destruct s.
Qed.

(** The entry a round looks at is still the original one. *)
Lemma drop_upto_entry s used bl j ws ws' hn dirty s' used' :
  0 ≤ j < 128 → drop_upto s used bl j ws ws' hn dirty s' used' → lget ws' j = lget ws j.
Proof. intros Hj [[_ He] _ _ _ _ _]. rewrite He by done. by rewrite Z.ltb_irrefl. Qed.

Lemma drop_upto_block s used bl j ws ws' hn dirty s' used' x :
  entries_ok s used ws → 0 ≤ j < 128 → drop_upto s used bl j ws ws' hn dirty s' used' →
  lget ws j = Some x → x ≠ 0 → block_ok s' used' x.
Proof.
  intros (_ & Hblk & Hinj) Hj [_ _ _ Hused _ (bm & fd & ->)] Hx H0. destruct (Hblk j x) as [Hu Hb]; [done..|].
  split; [|exact Hb]. apply Hused. split; [done|]. intros (i & Hi & _ & Hxi & _).
  pose proof (Hinj i j x Hxi Hx H0). lia.
Qed.

(** A round that keeps its entry. *)
Lemma drop_upto_keep s used bl j ws ws' hn dirty s' used' x :
  0 ≤ j < 128 → drop_upto s used bl j ws ws' hn dirty s' used' →
  lget ws j = Some x → x = 0 ∨ SFS_NDIRECT + j ≤ bl →
  drop_upto s used bl (j + 1) ws ws' (hn || negb (x =? 0)) dirty s' used'.
Proof.
  intros Hj Hdu Hx Hkeep. pose proof (drop_upto_entry _ _ _ _ _ _ _ _ _ _ Hj Hdu) as Hej.
  destruct Hdu as [[Hlen He] Hnz Hd Hused Hok Hs]. split; try done.
  - split; [done|]. intros i Hi. rewrite He by done.
    destruct (Z.eqb_spec i j) as [->|]; repeat case_match; try lia; try done.
    rewrite Hx. destruct Hkeep; [by subst|lia].
  - rewrite orb_false_iff, Hnz, negb_false_iff, Z.eqb_eq. split.
    + intros [Hall ->] i Hi. destruct (Z.eqb_spec i j) as [->|]; [congruence|]. apply Hall. lia.
    + intros Hall. split; [intros i Hi; apply Hall; lia|]. specialize (Hall j). rewrite Hej, Hx in Hall.
      assert (Some x = Some 0) by (apply Hall; lia). congruence.
  - intros b. rewrite (Hused b). split; (intros [Hb Hno]; split; [done|]; contradict Hno).
    + destruct Hno as (i & Hi & Hbl & Hbi & Hb0). exists i. split_and!; try done; [lia|].
      destruct (Z.eqb_spec i j) as [->|]; [|lia]. rewrite Hx in Hbi. destruct Hkeep; [congruence|lia].
    + destruct Hno as (i & Hi & Hrest). exists i. split; [lia|done].
Qed.

(** A round that discards its entry. *)
Lemma drop_upto_free s used bl j ws ws' hn dirty s' used' x bm :
  entries_ok s used ws → 0 ≤ j < 128 → drop_upto s used bl j ws ws' hn dirty s' used' →
  lget ws j = Some x → x ≠ 0 → bl < SFS_NDIRECT + j →
  let s2 := set_freemapdirty true (set_freemap bm s') in
  fs_ok s2 (used' ∖ {[x]}) →
  drop_upto s used bl (j + 1) ws (<[Z.to_nat j := 0]> ws') hn true s2 (used' ∖ {[x]}).
Proof.
  intros (_ & Hblk & Hinj) Hj [[Hlen He] Hnz Hd Hused Hok (bm' & fd & ->)] Hx H0 Hbl s2 Hok2. split; try done.
  - split; [by rewrite length_insert|]. intros i Hi. destruct (Z.eqb_spec i j) as [->|].
    + rewrite lget_insert_eq by lia. repeat case_match; try lia; done.
    + rewrite lget_insert_ne, He by lia. repeat case_match; try lia; done.
  - rewrite Hnz. split; intros Hall i Hi.
    + destruct (Z.eqb_spec i j) as [->|]; [by rewrite lget_insert_eq by lia|].
      rewrite lget_insert_ne by lia. apply Hall. lia.
    + specialize (Hall i). rewrite lget_insert_ne in Hall by lia. apply Hall. lia.
  - intros b. rewrite elem_of_difference, elem_of_singleton, (Hused b). split.
    + intros [[Hb Hno] Hbx]. split; [done|]. contradict Hno. destruct Hno as (i & Hi & Hbi & Hlb & Hb0).
      exists i. split_and!; try done; [lia|]. destruct (Z.eqb_spec i j) as [->|]; [congruence|lia].
    + intros [Hb Hno]. split_and!; [done| |].
      * contradict Hno. destruct Hno as (i & Hi & Hrest). exists i. split; [lia|done].
      * intros ->. destruct Hno. exists j. split_and!; (done || lia).
  - by exists bm, true.
Qed.

Lemma truncate_indirect_spec s used bl ws (Q : list Z * bool * bool → world sfs_fs → Prop) w :
  wst w = s → fs_ok s used → entries_ok s used ws →
  (∀ ws' hn dirty s' used', drop_upto s used bl 128 ws ws' hn dirty s' used' →
     Q (ws', hn, dirty) (World s' (wmem w))) →
  wp (truncate_indirect bl ws) Q w.
Proof.
  intros Hw Hok Hws HQ. unfold truncate_indirect.
  apply (wp_kfold (λ j '(ws', hn, dirty) w', wmem w' = wmem w ∧
           ∃ used', drop_upto s used bl j ws ws' hn dirty (wst w') used')).
  - split; [done|]. exists used. rewrite Hw. by apply drop_upto_start.
  - intros j [[ws' hn] dirty] [s1 m1] Hr (Hm & used1 & Hdu). simpl in *. subst m1.
    assert (0 ≤ j < 128) as Hj by (unfold SFS_DBPERIDB in *; lia).
    destruct (lget_is_Some ws j) as [x Hx]; [rewrite (proj1 Hws); lia|].
    pose proof (drop_upto_entry _ _ _ _ _ _ _ _ _ _ Hj Hdu) as Hej. rewrite Hx in Hej.
    pose proof (proj1 (du_entries _ _ _ _ _ _ _ _ _ _ Hdu)) as Hl.
    kstep. rewrite (wp_kof _ _ _ _ Hej). kstep. rewrite u32_id by (unfold SFS_NDIRECT; lia).
    destruct (Z.ltb_spec bl (SFS_NDIRECT + j)) as [Hbl|Hbl], (Z.eqb_spec x 0) as [H0|H0]; kstep.
    2:{ eapply sfs_bfree_spec; [done|apply Hdu|by eapply (drop_upto_block s)|]. intros bm s2 Hok2. kstep.
        rewrite lset_Some by lia. kstep.
        rewrite (wp_kof _ _ _ _ (lget_insert_eq ws' j 0 ltac:(lia))). kstep.
        rewrite orb_false_r. split; [done|]. eexists. by eapply drop_upto_free. }
    all: rewrite (wp_kof _ _ _ _ Hej); kstep; split; [done|]; exists used1.
    all: eapply drop_upto_keep; [done|done|done|]; auto.
  - intros [[ws' hn] dirty] [s1 m1] (Hm & used1 & Hdu). simpl in *. subst m1. by eapply HQ.
Qed.

(** ** The indirect block *)

Section indirect.
Context (p : loc) (v : sfs_vnode) (s : sfs_fs) (used : gset Z) (bl : Z).
Context (Hok : fs_ok s used) (Hp : sfs_heap s !! p = Some v) (Hi : inode_ok s used (sv_i v)).
Local Abbreviation ib := (sfi_indirect (sv_i v)).
Context (Hib : ib ≠ 0).
Local Abbreviation ws := (dec_words (sec (sectors s) ib)).

Lemma ib_block : block_ok s used ib.
Proof. apply Hi. split; [done|by left]. Qed.

Lemma indirect_words : length ws = 128%nat ∧ Forall is_u32 ws ∧ enc_words ws = sec (sectors s) ib.
Proof.
  destruct ib_block as [_ Hb]. destruct (fs_ok_sec s used ib) as [_ [Hl Hby]]; [done|lia|].
  split_and!; [by apply length_dec_words|by apply (dec_words_u32 128)|by apply (enc_dec_words 128)].
Qed.

(** Entry [j] of the indirect block is block [15 + j] of the file. *)
Lemma indirect_entry j : 0 ≤ j < 128 → lget ws j = Some (ptr (sectors s) (sv_i v) (SFS_NDIRECT + j)).
Proof.
  intros Hj. rewrite <- (ptr_indirect_lget s used (sv_i v) (SFS_NDIRECT + j)); [|done..|].
  - f_equal. lia.
  - unfold MAXBLK, SFS_NDIRECT, SFS_DBPERIDB in *. lia.
Qed.

Lemma indirect_entries_ok : entries_ok s used ws.
Proof.
  destruct indirect_words as (Hl & _). split_and!; [done| |].
  - intros j x Hx H0. pose proof (lget_Some_range _ _ _ Hx) as Hj. rewrite Hl in Hj.
    rewrite indirect_entry in Hx by lia. injection Hx as <-.
    apply ptr_block_ok; [done| |done]. unfold MAXBLK, SFS_NDIRECT, SFS_DBPERIDB in *. lia.
  - intros i j x Hx Hy H0. pose proof (lget_Some_range _ _ _ Hx) as Hx'. pose proof (lget_Some_range _ _ _ Hy) as Hy'.
    rewrite Hl in Hx', Hy'. rewrite indirect_entry in Hx, Hy by lia. injection Hx as Hx. injection Hy as Hy.
    assert (SFS_NDIRECT + i = SFS_NDIRECT + j); [|lia]. destruct Hi as (_ & _ & _ & Hinj).
    apply Hinj; [unfold MAXBLK, SFS_NDIRECT, SFS_DBPERIDB in *; lia..|congruence|congruence].
Qed.

Definition indirect_cut (k : Z) : bool := negb (k <? SFS_NDIRECT) && (bl <? k).

(** Which blocks the loop has freed. *)
Lemma freed_indirect used1 b :
  freed_entries bl 128 ws used used1 →
  b ∈ used1 ↔ b ∈ used ∧
    ¬ (∃ k, 0 ≤ k < MAXBLK ∧ indirect_cut k = true ∧ ptr (sectors s) (sv_i v) k = b ∧ b ≠ 0).
Proof.
  intros Hf. rewrite (Hf b). split; (intros [Hb Hno]; split; [done|]; contradict Hno).
  - destruct Hno as (k & Hk & Hc & Hbk & H0). unfold indirect_cut in Hc.
    apply andb_true_iff in Hc as [Hc1%negb_true_iff%Z.ltb_ge Hc2%Z.ltb_lt]. exists (k - SFS_NDIRECT).
    unfold MAXBLK, SFS_NDIRECT, SFS_DBPERIDB in *. split_and!; [lia|lia|lia| |done].
    rewrite indirect_entry by lia. unfold SFS_NDIRECT. do 2 f_equal. rewrite <- Hbk. f_equal. lia.
  - destruct Hno as (i & Hir & Hbl & Hbi & H0). rewrite indirect_entry in Hbi by lia.
    exists (SFS_NDIRECT + i). unfold indirect_cut, MAXBLK, SFS_NDIRECT, SFS_DBPERIDB in *.
    split_and!; [lia|lia| |congruence|done].
    apply andb_true_iff. split; [apply negb_true_iff, Z.ltb_ge|apply Z.ltb_lt]; lia.
Qed.

(** The rest of the indirect block goes back to the disk. *)
Lemma drop_indirect_keep ws' used1 s' :
  dropped bl 128 ws ws' → freed_entries bl 128 ws used used1 →
  fs_ok s' used1 → same_base s s' → same_space s s' → sfs_heap s' = sfs_heap s →
  dec_words (sec (sectors s') ib) = ws' →
  (∀ b, b ≠ 0 → b ≠ ib → sec (sectors s') b = sec (sectors s) b) →
  tstep p v s used v s' used1 ∧
  ∀ k, 0 ≤ k < MAXBLK →
    ptr (sectors s') (sv_i v) k = if indirect_cut k then 0 else ptr (sectors s) (sv_i v) k.
Proof.
  intros [_ Hdr] Hf Hok' Hbase Hsp Hheap Hws' Hsec.
  assert (∀ k, 0 ≤ k < MAXBLK →
    ptr (sectors s') (sv_i v) k = if indirect_cut k then 0 else ptr (sectors s) (sv_i v) k) as Hptr.
  { intros k Hk. unfold ptr, indirect_cut. destruct (Z.ltb_spec k SFS_NDIRECT); [done|]. simpl.
    rewrite (proj2 (Z.eqb_neq _ _)), Hws' by done. rewrite Hdr.
    2:{ unfold MAXBLK, SFS_NDIRECT, SFS_DBPERIDB in *. lia. }
    rewrite (proj2 (Z.ltb_lt (k - _) 128)) by (unfold MAXBLK, SFS_NDIRECT, SFS_DBPERIDB in *; lia).
    replace (SFS_NDIRECT + (k - SFS_NDIRECT)) with k by lia. by destruct (bl <? k). }
  destruct (shrink_inode s used (sv_i v) s' used1 (sv_i v) indirect_cut) as (Hi' & Hsub & Hu); try done.
  { apply Hi. } { unfold nblocks. by rewrite (proj1 Hbase). } { by left. }
  { intros b. rewrite (freed_indirect used1 b) by done. naive_solver. }
  split; [|done]. split; try done; [by rewrite Hheap, insert_id|by left].
Qed.

(** Nothing is left in the indirect block, and it is freed too. *)
Lemma drop_indirect_free ws' used1 s1 v' s' :
  dropped bl 128 ws ws' → freed_entries bl 128 ws used used1 →
  (∀ i, 0 ≤ i < 128 → lget ws' i = Some 0) →
  fs_ok s' (used1 ∖ {[ib]}) → same_base s s' → same_space s s' → sectors s' = sectors s →
  sfs_heap s1 = sfs_heap s →
  v' = set_dirty true (set_inode (set_indirect 0 (sv_i v)) v) →
  sfs_heap s' = <[p := v']> (sfs_heap s1) →
  tstep p v s used v' s' (used1 ∖ {[ib]}) ∧
  ∀ k, 0 ≤ k < MAXBLK →
    ptr (sectors s') (sv_i v') k = if indirect_cut k then 0 else ptr (sectors s) (sv_i v) k.
Proof.
  intros [_ Hdr] Hf Hz Hok' Hbase Hsp Hss Hh1 Hv' Hheap.
  assert (∀ k, 0 ≤ k < MAXBLK →
    ptr (sectors s') (sv_i v') k = if indirect_cut k then 0 else ptr (sectors s) (sv_i v) k) as Hptr.
  { intros k Hk. rewrite Hss, Hv'. unfold indirect_cut. unfold ptr at 1; simpl.
    destruct (Z.ltb_spec k SFS_NDIRECT) as [Hd|Hd]; simpl.
    { unfold ptr. by rewrite (proj2 (Z.ltb_lt _ _)). }
    destruct (Z.ltb_spec bl k); [done|].
    assert (0 ≤ k - SFS_NDIRECT < 128) as Hkr by (unfold MAXBLK, SFS_NDIRECT, SFS_DBPERIDB in *; lia).
    specialize (Hz _ Hkr). rewrite Hdr in Hz by done.
    replace (SFS_NDIRECT + (k - SFS_NDIRECT)) with k in Hz by lia.
    rewrite (proj2 (Z.ltb_ge bl k)), andb_false_r, indirect_entry in Hz by done.
    replace (SFS_NDIRECT + (k - SFS_NDIRECT)) with k in Hz by lia. congruence. }
  assert (∀ k, ptr (sectors s) (sv_i v) k = ib → k < 0 ∨ MAXBLK ≤ k) as Hnib.
  { intros k Hk. destruct (decide (0 ≤ k < MAXBLK)) as [Hr|]; [|lia].
    destruct Hi as (_ & _ & Hne & _). destruct (Hne k Hr); congruence. }
  destruct (shrink_inode s used (sv_i v) s' (used1 ∖ {[ib]}) (sv_i v') indirect_cut) as (Hi' & Hsub & Hu); try done.
  { rewrite Hv'. apply inode_wf_indirect; [apply Hi|done]. } { unfold nblocks. by rewrite (proj1 Hbase). }
  { right. by rewrite Hv'. }
  { intros b. rewrite elem_of_difference, elem_of_singleton, (freed_indirect used1 b), Hv' by done.
    simpl. naive_solver. }
  split; [|done]. split; try done; [by rewrite Hheap, Hh1|by rewrite Hv'|right; by rewrite Hv'|].
  intros b _ _. by rewrite Hss.
Qed.
End indirect.

(** ** Truncation *)

(** The number of blocks of a file of [len] bytes. *)
Definition nblk (len : Z) : Z := (len + 511) / 512.

Lemma trunc_blocklen_nblk len : 0 ≤ len < 2 ^ 31 - 511 → trunc_blocklen len = nblk len.
Proof.
  intros Hl. unfold trunc_blocklen, nblk, SFS_BLOCKSIZE.
  rewrite i32_id, Z.quot_div_nonneg by lia. replace (len + 512 - 1) with (len + 511) by lia.
  apply u32_id. split; [apply Z.div_pos; lia|apply Z.div_lt_upper_bound; lia].
Qed.

(** An inode with an indirect block has an entry in it. *)
Definition indirect_needed (s : sfs_fs) (i : sfs_inode) : Prop :=
  sfi_indirect i ≠ 0 → ¬ (∀ k, SFS_NDIRECT ≤ k < MAXBLK → ptr (sectors s) i k = 0).

(** The outcome of truncating to [len] bytes. *)
Record trunc_done (p : loc) (v : sfs_vnode) (s : sfs_fs) (used : gset Z) (len : Z)
    (v' : sfs_vnode) (s' : sfs_fs) (used' : gset Z) : Prop := TruncDone {
  td_step : tstep p v s used v' s' used';
  td_size : sfi_size (sv_i v') = len;
  td_ptr : ∀ k, 0 ≤ k < MAXBLK →
    ptr (sectors s') (sv_i v') k = if cut (nblk len) k then 0 else ptr (sectors s) (sv_i v) k;
  td_indirect : nblk len < MAXBLK - 1 → indirect_needed s' (sv_i v')
}.

Lemma tstep_size p v s used n d :
  fs_ok s used → sfs_heap s !! p = Some v → inode_ok s used (sv_i v) → is_u32 n →
  let v' := set_dirty d (set_inode (set_size n (sv_i v)) v) in
  let s' := set_heap (<[p := v']> (sfs_heap s)) s in
  tstep p v s used v' s' used ∧ ∀ k, ptr (sectors s') (sv_i v') k = ptr (sectors s) (sv_i v) k.
Proof.
  intros Hok Hp Hi Hn v' s'. split; [|done]. split; try done; [|naive_solver|by left].
  destruct Hi as (Hwf & Hrest). split; [by apply inode_wf_size|exact Hrest].
Qed.

(** The part of [sfs_truncate] that deals with the indirect block. *)
Lemma truncate_indirect_part p v s used bl (Q : Z → world sfs_fs → Prop) w :
  wst w = s → fs_ok s used → sfs_heap s !! p = Some v → inode_ok s used (sv_i v) →
  (∀ v' s' used', tstep p v s used v' s' used' →
     (∀ k, 0 ≤ k < MAXBLK → ptr (sectors s') (sv_i v') k =
        if indirect_cut bl k then 0 else ptr (sectors s) (sv_i v) k) →
     (bl < MAXBLK - 1 → indirect_needed s' (sv_i v')) →
     Q 0 (World s' (wmem w))) →
  let idblock := sfi_indirect (sv_i v) in
  wp (if (bl <? SFS_NDIRECT + SFS_DBPERIDB - 1) && negb (idblock =? 0) then
        '(result, idbuf) ← on_dev (sfs_rblock zero_block idblock);
        if negb (result =? 0) then mret result else
        '(idbuf, hasnonzero, iddirty) ← truncate_indirect bl (dec_words idbuf);
        if negb hasnonzero then
          sfs_bfree idblock;;
          sv ← getsv p;
          setsv p (set_dirty true (set_inode (set_indirect 0 (sv_i sv)) sv));;
          mret 0
        else if (iddirty : bool) then on_dev (sfs_wblock (enc_words idbuf) idblock)
        else mret 0
      else mret 0) Q w.
Proof.
  intros Hw Hok Hp Hi HQ ib.
  assert ((∀ k, 0 ≤ k < MAXBLK → indirect_cut bl k = true → ptr (sectors s) (sv_i v) k = 0) →
          (bl < MAXBLK - 1 → ib = 0) → Q 0 w) as Hnone.
  { intros Hz Hz0. destruct w as [s0 m]; simpl in *; subst s0. apply (HQ v s used); [by apply tstep_refl| |by intros ? []; apply Hz0].
    intros k Hk. destruct (indirect_cut bl k) eqn:Hc; [by apply Hz|done]. }
  destruct (Z.ltb_spec bl (SFS_NDIRECT + SFS_DBPERIDB - 1)) as [Hbl|Hbl].
  2:{ kstep. apply Hnone; [|unfold MAXBLK; lia]. intros k Hk. unfold indirect_cut, MAXBLK in *.
      by rewrite (proj2 (Z.ltb_ge bl k)), andb_false_r by lia. }
  destruct (Z.eqb_spec ib 0) as [Hib|Hib].
  { kstep. apply Hnone; [|done]. intros k Hk. unfold indirect_cut, ptr. fold ib. rewrite Hib.
    by destruct (k <? SFS_NDIRECT). }
  kstep. unfold on_dev. kstep. rewrite Hw.
  pose proof (ib_block v s used Hi Hib) as [Hibu Hibn]. fold ib in Hibu, Hibn.
  destruct (fs_ok_sec s used ib) as [Hsl Hswf]; [done|lia|]. pose proof (block_wf_length _ Hswf) as Hxl.
  pose proof Hok as (Hh & _ & _ & _ & Hn & _).
  eapply sfs_rblock_ok; [exact Hh|simpl; lia|done|exact Hsl|]. kstep.
  set (s0 := touched s (sec (sectors s) ib)).
  assert (tstep p v s used v s0 used) as Hst0.
  { pose proof (tstep_refl p v s used Hok Hp Hi) as []. split; try done. by apply fs_ok_touched. }
  change (World (set_device _ s) (wmem w)) with (World s0 (wmem w)).
  eapply (truncate_indirect_spec s0 used bl); [done|apply Hst0| |].
  { exact (indirect_entries_ok v s used Hok Hi Hib). }
  intros ws' hn dirty s1 used1 [Hdr Hhn Hd Hf Hok1 (bm & fd & Hs1)].
  destruct hn; kstep.
  - assert (∀ s2, fs_ok s2 used1 → same_base s s2 → same_space s s2 → sfs_heap s2 = sfs_heap s →
       dec_words (sec (sectors s2) ib) = ws' →
       (∀ b, b ≠ 0 → b ≠ ib → sec (sectors s2) b = sec (sectors s) b) → Q 0 (World s2 (wmem w))) as HQ'.
    { intros s2 H1 H2 H3 H4 H5 H6.
      destruct (drop_indirect_keep p v s used bl Hok Hp Hi Hib ws' used1 s2) as [Hst Hptr]; try done.
      eapply HQ; [exact Hst|exact Hptr|]. intros _ _ Hz. assert (true = false); [|done].
      apply Hhn. intros i Hir. specialize (Hz (SFS_NDIRECT + i)). unfold ptr in Hz. fold ib in Hz.
      rewrite (proj2 (Z.ltb_ge _ _)), (proj2 (Z.eqb_neq _ _)), H5 in Hz by lia.
      replace (SFS_NDIRECT + i - SFS_NDIRECT) with i in Hz by lia.
      destruct (lget_is_Some ws' i) as [x Hx]; [rewrite (proj1 Hdr); lia|]. rewrite Hx in Hz |- *.
      f_equal. apply Hz. unfold MAXBLK, SFS_DBPERIDB. lia. }
    destruct dirty; kstep.
    + destruct (indirect_words v s used Hok Hi Hib) as (Hl & Hu32 & _). fold ib in Hl, Hu32, Hdr.
      pose proof (dropped_u32 _ _ _ _ Hdr Hu32) as Hu32'. destruct Hdr as [Hl' _].
      assert (block_wf (enc_words ws')) as Hewf by (split; [by rewrite length_enc_words, Hl'|by apply enc_words_bytes]).
      unfold on_dev. kstep.
      eapply sfs_wblock_ok; [rewrite Hs1; exact (proj1 (ts_ok _ _ _ _ _ _ _ Hst0))|rewrite Hs1; simpl; lia|by apply block_wf_length|].
      change (World (set_device _ s1) (wmem w)) with (World (wrote s1 ib (enc_words ws')) (wmem w)).
      assert (sectors (wrote s1 ib (enc_words ws')) = <[Z.to_nat ib := enc_words ws']> (sectors s)) as Hss by (by rewrite Hs1).
      apply (HQ' (wrote s1 ib (enc_words ws'))); [by apply fs_ok_wrote|by rewrite Hs1|by rewrite Hs1|by rewrite Hs1| |].
      * rewrite Hss, sec_write_eq by (rewrite (length_sectors s used Hok); lia). by apply dec_enc_words_nil.
      * intros b _ Hb. rewrite Hss. apply sec_write_ne; [lia|done].
    + apply HQ'; rewrite ?Hs1; try done; [by rewrite <- Hs1|]. rewrite Hd by done. done.
  - assert (fs_ok s1 used1 ∧ block_ok s1 used1 ib) as [_ Hibok].
    { split; [done|]. split; [|rewrite Hs1; exact Hibn].
      apply (freed_indirect v s used bl Hok Hi Hib used1 ib); [done|]. split; [done|].
      intros (k & Hk & _ & Hbk & _). destruct Hi as (_ & _ & Hne & _). destruct (Hne k Hk); fold ib; congruence. }
    eapply (sfs_bfree_spec s1 used1); [done|done|done|]. intros bm2 s2 Hok2. kstep.
    eapply wp_getsv; [subst s2; rewrite Hs1; exact Hp|]. unfold setsv. kstep.
    destruct (drop_indirect_free p v s used bl Hok Hi Hib ws' used1 s0
      (set_dirty true (set_inode (set_indirect 0 (sv_i v)) v))
      (set_heap (<[p := set_dirty true (set_inode (set_indirect 0 (sv_i v)) v)]> (sfs_heap s2)) s2)) as [Hst Hptr];
      try done; try (subst s2; rewrite Hs1; done).
    { by apply Hhn. }
    eapply HQ; [exact Hst|exact Hptr|]. by intros _ [].
Qed.

Lemma sfs_truncate_spec p v s used len (Q : Z → world sfs_fs → Prop) w :
  wst w = s → fs_ok s used → sfs_heap s !! p = Some v → inode_ok s used (sv_i v) →
  0 ≤ len < 2 ^ 31 - 511 →
  (∀ v' s' used', trunc_done p v s used len v' s' used' → Q 0 (World s' (wmem w))) →
  wp (sfs_truncate p len) Q w.
Proof.
  intros Hw Hok Hp Hi Hlen HQ. unfold sfs_truncate. rewrite trunc_blocklen_nblk by done. kstep.
  eapply truncate_direct_spec; [exact Hw|exact Hok|exact Hp|exact Hi|].
  intros v1 s1 used1 Hst1 Hind1 Hptr1. pose proof (tstep_lookup _ _ _ _ _ _ _ Hst1) as Hp1.
  kstep. eapply wp_getsv; [exact Hp1|]. kstep.
  eapply (truncate_indirect_part p v1 s1 used1 (nblk len)); [done|apply Hst1|exact Hp1|apply Hst1|].
  intros v2 s2 used2 Hst2 Hptr2 Hneed. pose proof (tstep_lookup _ _ _ _ _ _ _ Hst2) as Hp2.
  kstep. eapply wp_getsv; [exact Hp2|]. unfold setsv. kstep. rewrite u32_id by lia.
  destruct (tstep_size p v2 s2 used2 len true) as [Hst3 Hptr3];
    [apply Hst2|exact Hp2|apply Hst2|unfold is_u32; lia|].
  eapply HQ. split; [by do 2 (eapply tstep_trans; [done|])|done| |exact Hneed].
  intros k Hk. rewrite Hptr3, Hptr2, Hptr1 by (done || lia). rewrite cut_tests. unfold indirect_cut.
  destruct (k <? SFS_NDIRECT); simpl; [done|]. by destruct (nblk len <? k).
Qed.

(** The bytes of a file after truncation. *)
Lemma trunc_done_bytes p v s used len v' s' used' pos :
  inode_ok s used (sv_i v) → trunc_done p v s used len v' s' used' → 0 ≤ pos < MAXSIZE →
  fbyte (sectors s') (sv_i v') pos =
  if cut (nblk len) (pos / 512) then 0 else fbyte (sectors s) (sv_i v) pos.
Proof.
  intros (_ & _ & Hne & _) [Hst _ Hptr _] Hpos. unfold fbyte, MAXSIZE, SFS_BLOCKSIZE in *.
  assert (0 ≤ pos / 512 < MAXBLK) as Hk
    by (split; [apply Z.div_pos; lia|apply Z.div_lt_upper_bound; lia]).
  rewrite Hptr by done. destruct (cut (nblk len) (pos / 512)); [done|].
  destruct (Z.eqb_spec (ptr (sectors s) (sv_i v) (pos / 512)) 0); [done|].
  rewrite (ts_frame _ _ _ _ _ _ _ Hst); [done|done|]. by apply Hne.
Qed.

Lemma cut_before bl k : k < bl → cut bl k = false.
Proof. intros. unfold cut, past_end. rewrite (proj2 (Z.leb_gt _ _)) by lia. done. Qed.

Lemma cut_past bl k : bl ≤ k → k < SFS_NDIRECT ∨ k ≠ bl → cut bl k = true.
Proof. intros. unfold cut, past_end, forgotten. apply eq_true_iff_eq. lia. Qed.

Lemma cut_first bl : SFS_NDIRECT ≤ bl → cut bl bl = false.
Proof. intros. unfold cut, past_end, forgotten. apply not_true_iff_false. lia. Qed.

Lemma cut_inside len pos : 0 ≤ pos < len → cut (nblk len) (pos / 512) = false.
Proof.
  intros Hp. assert (pos / 512 < nblk len).
  { unfold nblk. pose proof (Z.div_mod pos 512). pose proof (Z.mod_pos_bound pos 512).
    pose proof (Z.div_mod (len + 511) 512). pose proof (Z.mod_pos_bound (len + 511) 512). lia. }
  rewrite cut_tests. case_match; [apply Z.leb_gt|apply Z.ltb_ge]; lia.
Qed.

(** Nothing is left of a file truncated to no bytes. *)
Lemma trunc_done_zero p v s used v' s' used' :
  inode_ok s used (sv_i v) → trunc_done p v s used 0 v' s' used' →
  (∀ b, ¬ owned (sectors s') (sv_i v') b) ∧
  (∀ b, b ∈ used' ↔ b ∈ used ∧ ¬ owned (sectors s) (sv_i v) b).
Proof.
  intros Hi [Hst _ Hptr Hneed].
  assert (∀ k, 0 ≤ k < MAXBLK → ptr (sectors s') (sv_i v') k = 0) as Hz.
  { intros k Hk. rewrite Hptr by done. rewrite cut_tests. unfold nblk, SFS_NDIRECT. change ((0 + 511) / 512) with 0.
    repeat case_match; try done; lia. }
  assert (∀ b, ¬ owned (sectors s') (sv_i v') b) as Hno.
  { intros b (Hb & [->|(k & Hk & Hbk)]); [|rewrite Hz in Hbk by done; congruence].
    apply Hneed; [unfold nblk, MAXBLK, SFS_NDIRECT, SFS_DBPERIDB; by vm_compute|done|].
    intros k Hk. apply Hz. unfold SFS_NDIRECT in Hk. lia. }
  split; [done|]. intros b. rewrite (ts_used _ _ _ _ _ _ _ Hst). naive_solver.
Qed.

(** ** Theorems *)

(** C14: on a disk that reports no errors, [sfs_truncate] to [len] bytes returns
    0 and sets the size, for every length from 0 to 2^31 - 512.
    The blocks of the file before the new end stay mapped where they were and
    the bytes before [len] keep their values.  Every block past the new end is
    unmapped, with one exception: if the first block past the end is mapped by
    the indirect block, it stays mapped.  The disk blocks freed are exactly
    those the file no longer leads to, no other block of the disk changes, and
    the invariants of the file system and of the file hold. *)
Theorem sfs_truncate_exact p v s used len m :
  fs_ok s used → sfs_heap s !! p = Some v → inode_ok s used (sv_i v) →
  0 ≤ len < 2 ^ 31 - 511 →
  wp (sfs_truncate p len)
     (λ r w', r = 0 ∧ ∃ v' used', trunc_done p v s used len v' (wst w') used' ∧
        let ptr0 := ptr (sectors s) (sv_i v) in
        let ptr1 := ptr (sectors (wst w')) (sv_i v') in
        (∀ k, 0 ≤ k < MAXBLK → k < nblk len → ptr1 k = ptr0 k) ∧
        (∀ k, 0 ≤ k < MAXBLK → nblk len ≤ k → k < SFS_NDIRECT ∨ k ≠ nblk len → ptr1 k = 0) ∧
        (SFS_NDIRECT ≤ nblk len < MAXBLK → ptr1 (nblk len) = ptr0 (nblk len)) ∧
        ∀ pos, 0 ≤ pos < len → pos < MAXSIZE →
          fbyte (sectors (wst w')) (sv_i v') pos = fbyte (sectors s) (sv_i v) pos) (World s m).
Proof.
  intros Hok Hp Hi Hlen. eapply (sfs_truncate_spec p v s used); [done..|].
  intros v' s' used' Hd. split; [done|]. exists v', used'. pose proof (td_ptr _ _ _ _ _ _ _ _ Hd) as Hptr.
  split; [done|]. split_and!.
  - intros k Hk Hin. rewrite Hptr, cut_before by done. done.
  - intros k Hk Hout Hne. by rewrite Hptr, cut_past by done.
  - intros Hk. rewrite Hptr, cut_first by (unfold SFS_NDIRECT in *; lia). done.
  - intros pos Hpos Hmax. rewrite (trunc_done_bytes p v s used len v' s' used') by (done || lia).
    by rewrite cut_inside by done.
Qed.

(** where the new end falls in the part of the file the indirect block
    maps, the first block past the end stays mapped and allocated, and its
    bytes are still there: they reappear when the file grows again. *)
Theorem sfs_truncate_keeps_block p v s used len m :
  fs_ok s used → sfs_heap s !! p = Some v → inode_ok s used (sv_i v) →
  0 ≤ len < 2 ^ 31 - 511 → SFS_NDIRECT ≤ nblk len < MAXBLK →
  let b := ptr (sectors s) (sv_i v) (nblk len) in
  b ≠ 0 →
  wp (sfs_truncate p len)
     (λ r w', r = 0 ∧ ∃ v' used', trunc_done p v s used len v' (wst w') used' ∧
        ptr (sectors (wst w')) (sv_i v') (nblk len) = b ∧ b ∈ used' ∧
        ∀ o, 0 ≤ o < SFS_BLOCKSIZE →
          fbyte (sectors (wst w')) (sv_i v') (SFS_BLOCKSIZE * nblk len + o) =
          fbyte (sectors s) (sv_i v) (SFS_BLOCKSIZE * nblk len + o)) (World s m).
Proof.
  intros Hok Hp Hi Hlen Hk b Hb. eapply (sfs_truncate_spec p v s used); [done..|].
  intros v' s' used' Hd. split; [done|]. exists v', used'. split; [done|].
  assert (cut (nblk len) (nblk len) = false) as Hc.
  { rewrite cut_tests. rewrite (proj2 (Z.ltb_ge _ _)) by lia. apply Z.ltb_irrefl. }
  pose proof (td_ptr _ _ _ _ _ _ _ _ Hd (nblk len)) as Hptr. rewrite Hc in Hptr.
  assert (0 ≤ nblk len < MAXBLK) as Hk' by (unfold SFS_NDIRECT in *; lia). specialize (Hptr Hk').
  split_and!; [exact Hptr| |].
  - apply (ts_used _ _ _ _ _ _ _ (td_step _ _ _ _ _ _ _ _ Hd)).
    split; [by apply ptr_block_ok|]. intros _. split; [done|]. right. eauto.
  - intros o Ho. unfold SFS_BLOCKSIZE in *.
    rewrite (trunc_done_bytes p v s used len v' s' used'); [|done..|unfold MAXSIZE, SFS_BLOCKSIZE; lia].
    replace ((512 * nblk len + o) / 512) with (nblk len) by (apply Z.div_unique with o; lia). by rewrite Hc.
Qed.

(** A file of sixteen blocks of which only the last is not a hole: block 4 is
    its indirect block, block 5 its data. *)
Definition long_inode : sfs_inode :=
  SfsInode 8192 SFS_TYPE_FILE 1 (replicate 15 0) 4 (replicate 110 0).

Definition long_vnode : sfs_vnode := SfsVnode 1 0 sfs_fileops long_inode 3 false.

Definition long_sectors : list (list Z) :=
  <[4%nat := enc_words (5 :: replicate 127 0)]> (replicate 8 zero_block).

Definition long_fs : sfs_fs :=
  SfsFs (SfsSuper SFS_MAGIC 8 (replicate 32 0) (replicate 118 0)) false
        (Lhd (USpace None ∅) 8 zero_block long_sectors [])
        (Array 1 4 (Some [Some 1%positive; None; None; None]))
        (Bitmap 8 [63]) false {[1%positive := long_vnode]}.

Definition long_used : gset Z := {[0; 1; 2; 3; 4; 5]}.

Lemma long_map : bitmap_rep (Bitmap 8 [63]) long_used.
Proof.
  unfold bitmap_rep, BITMAP_LIMIT. simpl length. split_and!; [simpl; lia..|reflexivity| | |].
  - repeat constructor; simpl; lia.
  - intros i. simpl. unfold long_used. set_unfold. lia.
  - intros i Hi. assert (i = 0 ∨ i = 1 ∨ i = 2 ∨ i = 3 ∨ i = 4 ∨ i = 5 ∨ i = 6 ∨ i = 7) as Hc by (simpl in Hi; lia).
    destruct Hc as [->|[->|[->|[->|[->|[->|[->| ->]]]]]]]; vm_compute; done.
Defined.

Lemma long_sector_wf : Forall block_wf long_sectors.
Proof.
  apply Forall_insert; [apply Forall_replicate, zero_block_wf|].
  split; [done|]. apply enc_words_bytes. apply Forall_cons_2; [done|]. by apply Forall_replicate.
Qed.

Lemma long_ok : fs_ok long_fs long_used.
Proof.
  unfold fs_ok. split_and!; [|exact long_sector_wf|exact long_map|unfold long_used; set_solver|
    unfold nblocks; simpl; lia..|unfold nblocks; simpl; lia].
  split; [|done]. unfold lhd_wf, LHD_LIMIT; simpl sfs_device. split_and!; simpl; try done; try lia.
  eapply Forall_impl; [exact long_sector_wf|]. intros b [Hb _]. unfold LHD_SECTSIZE. lia.
Qed.

Lemma long_ptr k : 0 ≤ k < MAXBLK → ptr long_sectors long_inode k = if k =? 15 then 5 else 0.
Proof.
  intros Hk. unfold ptr. change (sfi_direct long_inode) with (replicate 15 0).
  change (sfi_indirect long_inode) with 4. change (4 =? 0) with false.
  change (sec long_sectors 4) with (enc_words (5 :: replicate 127 0)).
  rewrite dec_enc_words_nil by (apply Forall_cons_2; [done|by apply Forall_replicate]).
  unfold MAXBLK, SFS_NDIRECT, SFS_DBPERIDB in *. destruct (Z.ltb_spec k 15).
  - rewrite lget_lookup, lookup_replicate_2 by lia. by rewrite (proj2 (Z.eqb_neq _ _)) by lia.
  - cbv iota. rewrite lget_lookup by lia. destruct (Z.eqb_spec k 15) as [->|]; [done|].
    destruct (Z.to_nat (k - 15)) as [|n0] eqn:Hn; [lia|].
    change ((5 :: replicate 127 0) !! S n0) with (replicate 127 0 !! n0). by rewrite lookup_replicate_2 by lia.
Qed.

Lemma long_inode_ok : inode_ok long_fs long_used (sv_i long_vnode).
Proof.
  change (sectors long_fs) with long_sectors. change (sv_i long_vnode) with long_inode.
  assert (∀ k, 0 ≤ k < MAXBLK → ptr long_sectors long_inode k ≠ 0 → k = 15) as H15.
  { intros k Hk. rewrite long_ptr by done. destruct (Z.eqb_spec k 15); done. }
  split_and!.
  - unfold inode_wf. split_and!; try done; apply Forall_replicate; done.
  - intros b (Hb & [->|(k & Hk & Hbk)]); [by split; [unfold long_used; set_solver|]|].
    rewrite long_ptr in Hbk by done. destruct (k =? 15); subst; [|done].
    by split; [unfold long_used; set_solver|].
  - intros k Hk. change (sectors long_fs) with long_sectors. rewrite long_ptr by done. by destruct (k =? 15).
  - intros j k Hj Hk Hj0 Hjk. change (sectors long_fs) with long_sectors in *.
    rewrite (H15 j) by done. rewrite (H15 k); [done|done|congruence].
Qed.

Lemma sfs_truncate_keeps_block_witness :
  wp (sfs_truncate 1%positive 7680)
     (λ r w', r = 0 ∧ ∃ v' used', trunc_done 1%positive long_vnode long_fs long_used 7680 v' (wst w') used' ∧
        ptr (sectors (wst w')) (sv_i v') 15 = 5 ∧ 5 ∈ used' ∧
        ∀ o, 0 ≤ o < SFS_BLOCKSIZE →
          fbyte (sectors (wst w')) (sv_i v') (SFS_BLOCKSIZE * 15 + o) =
          fbyte (sectors long_fs) (sv_i long_vnode) (SFS_BLOCKSIZE * 15 + o)) (World long_fs []).
Proof.
  apply (sfs_truncate_keeps_block 1%positive long_vnode long_fs long_used 7680 []);
    [exact long_ok|done|exact long_inode_ok|lia|done|done].
Defined.

(** Truncating the sixteen-block file to one block frees its last block and
    the indirect block. *)
Lemma sfs_truncate_exact_witness :
  ptr (sectors long_fs) (sv_i long_vnode) 15 = 5 ∧
  wp (sfs_truncate 1%positive 512)
     (λ r w', r = 0 ∧ ∃ v' used', trunc_done 1%positive long_vnode long_fs long_used 512 v' (wst w') used' ∧
        let ptr0 := ptr (sectors long_fs) (sv_i long_vnode) in
        let ptr1 := ptr (sectors (wst w')) (sv_i v') in
        (∀ k, 0 ≤ k < MAXBLK → k < 1 → ptr1 k = ptr0 k) ∧
        (∀ k, 0 ≤ k < MAXBLK → 1 ≤ k → k < SFS_NDIRECT ∨ k ≠ 1 → ptr1 k = 0) ∧
        (SFS_NDIRECT ≤ 1 < MAXBLK → ptr1 1 = ptr0 1) ∧
        ∀ pos, 0 ≤ pos < 512 → pos < MAXSIZE →
          fbyte (sectors (wst w')) (sv_i v') pos = fbyte (sectors long_fs) (sv_i long_vnode) pos)
     (World long_fs []).
Proof.
  split; [by rewrite long_ptr by done|].
  apply (sfs_truncate_exact 1%positive long_vnode long_fs long_used 512 []);
    [exact long_ok|done|exact long_inode_ok|lia].
Defined.
