(* ===== verification/SfsVnode.v ===== *)
(** * SFS directories and vnodes (kern/fs/sfs/sfs_vnode.c, kern/fs/vfs/vnode.c)

    Directory entries, the table of loaded vnodes, reference counts and the
    operations of the two vnode function tables.  A vnode's [vn_countlock]
    brackets its counter updates and is not state of the model; creating it
    allocates, so its allocations are.  A name is the list of its bytes,
    without the terminator. *)

From S2P Require Import Prelude Array Bitmap CopyInOut Uio Lhd SfsDisk SfsFile.

(** ** Directory entries *)

Definition SFS_DIRSIZE : Z := 64.

(** The error code and the entry. *)
Definition sfs_readdir (p : loc) (slot : Z) : K sfs_fs (Z * sfs_dir) :=
  let actualpos := i32 (u32 (slot * SFS_DIRSIZE)) in
  let ku := mk_kuio (replicate 64 0) SFS_DIRSIZE actualpos UIO_READ in
  '(result, ku) ← sfs_io p ku;
  if negb (result =? 0) then mret (result, dec_dir (kobj ku)) else
  if 0 <? uio_resid ku then kpanic else
  mret (0, dec_dir (kobj ku)).

Definition sfs_writedir (p : loc) (sd : sfs_dir) (slot : Z) : K sfs_fs Z :=
  kassert (0 <=? slot);;
  let actualpos := i32 (u32 (slot * SFS_DIRSIZE)) in
  let ku := mk_kuio (enc_dir sd) SFS_DIRSIZE actualpos UIO_WRITE in
  '(result, ku) ← sfs_io p ku;
  if negb (result =? 0) then mret result else
  if 0 <? uio_resid ku then kpanic else
  mret 0.

Definition sfs_dir_nentries (p : loc) : K sfs_fs Z :=
  sv ← getsv p;
  kassert (sfi_type (sv_i sv) =? SFS_TYPE_DIR);;
  let size := u32 (i32 (sfi_size (sv_i sv))) in
  if negb (size mod SFS_DIRSIZE =? 0) then kpanic else
  mret (i32 (size / SFS_DIRSIZE)).

(** What a scan of the directory has found: the entry's inode number and slot,
    and the last free slot. *)
Record found : Type := Found {
  f_entry : option (Z * Z);
  f_empty : option Z
}.

Definition sfs_dir_findname (p : loc) (name : list Z) : K sfs_fs (Z * found) :=
  nentries ← sfs_dir_nentries p;
  r ← kfind (Z.to_nat nentries) 0 (λ i f,
        '(result, tsd) ← sfs_readdir p i;
        if negb (result =? 0) then mret (inr (result, f)) else
        if sfd_ino tsd =? SFS_NOINO then mret (inl (Found (f_entry f) (Some i))) else
        sfd_name' ← kof (lset (sfd_name tsd) (SFS_NAMELEN - 1) 0);
        if bool_decide (cstr sfd_name' = name) then
          kassert (bool_decide (f_entry f = None));;
          mret (inl (Found (Some (sfd_ino tsd, i)) (f_empty f)))
        else mret (inl f)) (Found None None);
  match r with
  | inr x => mret x
  | inl f => mret (if bool_decide (f_entry f = None) then ENOENT else 0, f)
  end.

(** The entry [sfs_dir_link] writes. *)
Definition new_dir (name : list Z) (ino : Z) : sfs_dir :=
  SfsDir ino (name ++ replicate (60 - length name) 0).

(** The error code and the slot stored through [slot]. *)
Definition sfs_dir_link (p : loc) (name : list Z) (ino : Z) : K sfs_fs (Z * option Z) :=
  '(result, f) ← sfs_dir_findname p name;
  if negb (result =? 0) && negb (result =? ENOENT) then mret (result, None) else
  if result =? 0 then mret (EEXIST, None) else
  if SFS_NAMELEN <? Z.of_nat (length name) + 1 then mret (ENAMETOOLONG, None) else
  emptyslot ← (match f_empty f with
               | Some i => mret i
               | None => sfs_dir_nentries p
               end);
  result ← sfs_writedir p (new_dir name ino) emptyslot;
  mret (result, Some emptyslot).

Definition sfs_dir_unlink (p : loc) (slot : Z) : K sfs_fs Z :=
  sfs_writedir p (SfsDir SFS_NOINO (replicate 60 0)) slot.

(** ** Vnode bookkeeping (vnode.c) *)

Definition set_refcount (n : Z) (v : sfs_vnode) : sfs_vnode :=
  SfsVnode n (vn_opencount v) (vn_ops v) (sv_i v) (sv_ino v) (sv_dirty v).

Definition set_opencount (n : Z) (v : sfs_vnode) : sfs_vnode :=
  SfsVnode (vn_refcount v) n (vn_ops v) (sv_i v) (sv_ino v) (sv_dirty v).

(** [lock_create]: the lock and a copy of its name. *)
Definition lock_create_ok {S} : K S bool :=
  ok ← kmalloc_ok;
  if negb ok then mret false else kmalloc_ok.

(** The checks before every [VOP_*] call; the name of the operation matters
    only for a zero reference count. *)
Definition vnode_check (p : loc) (reclaim : bool) : K sfs_fs unit :=
  v ← getsv p;
  if vn_refcount v <? 0 then kpanic else
  if (vn_refcount v =? 0) && negb reclaim then kpanic else
  if vn_opencount v <? 0 then kpanic else
  mret tt.

Definition vnode_incref (p : loc) : K sfs_fs unit :=
  v ← getsv p;
  setsv p (set_refcount (i32 (vn_refcount v + 1)) v).

Definition vnode_incopen (p : loc) : K sfs_fs unit :=
  v ← getsv p;
  setsv p (set_opencount (i32 (vn_opencount v + 1)) v).

(** The error code and the initialised vnode, not yet in the heap. *)
Definition vnode_init (ops : vnode_ops) (i : sfs_inode) (ino : Z) (dirty : bool)
    : K sfs_fs (Z * option sfs_vnode) :=
  ok ← lock_create_ok;
  if negb ok then mret (ENOMEM, None) else
  mret (0, Some (SfsVnode 1 0 ops i ino dirty)).

Definition vnode_kill (v : sfs_vnode) : K sfs_fs unit :=
  kassert (vn_refcount v =? 1);;
  kassert (vn_opencount v =? 0).

(** ** The table of loaded vnodes *)

Definition on_vnodes {A} (c : K (array loc) A) : K sfs_fs A := zoom sfs_vnodes set_vnodes c.

(** An address [kmalloc] may return: one that is not in use. *)
Definition new_loc : K sfs_fs loc := s ← kget; mret (fresh (dom (sfs_heap s))).

(** The part of [sfs_loadvnode] that reads an inode that is not loaded. *)
Definition sfs_loadnew (ino forcetype : Z) : K sfs_fs (Z * option loc) :=
  ok ← kmalloc_ok;
  if negb ok then mret (ENOMEM, None) else
  p ← new_loc;
  used ← sfs_bused ino;
  if used =? 0 then kpanic else
  '(result, data) ← on_dev (sfs_rblock zero_block ino);
  if negb (result =? 0) then mret (result, None) else
  let i := dec_inode data in
  '(i, dirty) ←
    (if forcetype =? SFS_TYPE_INVAL then mret (i, false) else
     kassert (sfi_type i =? SFS_TYPE_INVAL);;
     mret (SfsInode (sfi_size i) (u16 forcetype) (sfi_linkcount i) (sfi_direct i)
                    (sfi_indirect i) (sfi_waste i), true));
  ops ← (if sfi_type i =? SFS_TYPE_FILE then mret sfs_fileops
         else if sfi_type i =? SFS_TYPE_DIR then mret sfs_dirops
         else kpanic);
  '(result, sv) ← vnode_init ops i ino dirty;
  if negb (result =? 0) then mret (result, None) else
  sv ← kof sv;
  result ← on_vnodes (array_add p);
  if negb (result =? 0) then
    vnode_kill sv;;
    mret (result, None)
  else
    setsv p sv;;
    mret (0, Some p).

Definition sfs_loadvnode (ino forcetype : Z) : K sfs_fs (Z * option loc) :=
  num ← on_vnodes array_getnum;
  r ← kfind (Z.to_nat num) 0 (λ i _,
        p ← on_vnodes (array_getguy i);
        sv ← getsv p;
        used ← sfs_bused (sv_ino sv);
        if used =? 0 then kpanic else
        if sv_ino sv =? ino then
          kassert (forcetype =? SFS_TYPE_INVAL);;
          vnode_incref p;;
          mret (inr p)
        else mret (inl tt)) tt;
  match r with
  | inr p => mret (0, Some p)
  | inl _ => sfs_loadnew ino forcetype
  end.

Definition sfs_getroot : K sfs_fs loc :=
  '(result, sv) ← sfs_loadvnode SFS_ROOT_LOCATION SFS_TYPE_INVAL;
  if negb (result =? 0) then kpanic else kof sv.

(** The error code, the vnode and the slot of its entry. *)
Definition sfs_lookonce (p : loc) (name : list Z) : K sfs_fs (Z * option loc * Z) :=
  '(result, f) ← sfs_dir_findname p name;
  if negb (result =? 0) then mret (result, None, 0) else
  '(ino, slot) ← kof (f_entry f);
  '(result, ret) ← sfs_loadvnode ino SFS_TYPE_INVAL;
  if negb (result =? 0) then mret (result, None, slot) else
  q ← kof ret;
  sv ← getsv q;
  if sfi_linkcount (sv_i sv) =? 0 then kpanic else
  mret (0, Some q, slot).

Definition sfs_makeobj (type : Z) : K sfs_fs (Z * option loc) :=
  '(result, ino) ← sfs_balloc;
  if negb (result =? 0) then mret (result, None) else
  ino ← kof ino;
  sfs_loadvnode ino type.

(** ** Releasing vnodes *)

(** [VOP_TRUNCATE]: directories have [ISDIR] in their table. *)
Definition VOP_TRUNCATE (p : loc) (len : Z) : K sfs_fs Z :=
  vnode_check p false;;
  v ← getsv p;
  match vn_ops v with
  | sfs_fileops => sfs_truncate p len
  | sfs_dirops => mret EISDIR
  end.

(** The last part of [sfs_reclaim]: out of the table, and freed. *)
Definition sfs_forget (p : loc) : K sfs_fs Z :=
  num ← on_vnodes array_getnum;
  r ← kfind (Z.to_nat num) 0 (λ i _,
        sv2 ← on_vnodes (array_getguy i);
        mret (if bool_decide (sv2 = p) then inr i else inl tt)) tt;
  match r with
  | inl _ => kpanic
  | inr ix =>
      on_vnodes (array_remove ix);;
      sv ← getsv p;
      vnode_kill sv;;
      s ← kget;
      kput (set_heap (delete p (sfs_heap s)) s);;
      mret 0
  end.

Definition sfs_reclaim (p : loc) : K sfs_fs Z :=
  v ← getsv p;
  if negb (vn_refcount v =? 1) then
    kassert (1 <? vn_refcount v);;
    setsv p (set_refcount (vn_refcount v - 1) v);;
    mret EBUSY
  else
  result ← (if sfi_linkcount (sv_i v) =? 0 then VOP_TRUNCATE p 0 else mret 0);
  if negb (result =? 0) then mret result else
  result ← sfs_sync_inode p;
  if negb (result =? 0) then mret result else
  v ← getsv p;
  (if sfi_linkcount (sv_i v) =? 0 then sfs_bfree (sv_ino v) else mret tt);;
  sfs_forget p.

(** [vnode_decref] calls [VOP_RECLAIM], whose result it only reports. *)
Definition vnode_decref (p : loc) : K sfs_fs unit :=
  v ← getsv p;
  kassert (0 <? vn_refcount v);;
  if 1 <? vn_refcount v then setsv p (set_refcount (vn_refcount v - 1) v) else
  vnode_check p true;;
  _ ← sfs_reclaim p;
  mret tt.

Definition sfs_fsync (p : loc) : K sfs_fs Z := sfs_sync_inode p.

(** [VOP_FSYNC] *)
Definition VOP_FSYNC (p : loc) : K sfs_fs Z := vnode_check p false;; sfs_fsync p.

Definition sfs_close (p : loc) : K sfs_fs Z := VOP_FSYNC p.

Definition vnode_decopen (p : loc) : K sfs_fs unit :=
  v ← getsv p;
  kassert (0 <? vn_opencount v);;
  let opencount := vn_opencount v - 1 in
  setsv p (set_opencount opencount v);;
  if 0 <? opencount then mret tt else
  vnode_check p false;;
  _ ← sfs_close p;
  mret tt.

(** ** Vnode operations *)

Definition O_RDONLY : Z := 0.

Definition O_APPEND : Z := 32.

Definition O_ACCMODE : Z := 3.

Definition sfs_open (p : loc) (openflags : Z) : K sfs_fs Z :=
  if negb (Z.land openflags O_APPEND =? 0) then mret EUNIMP else mret 0.

Definition sfs_opendir (p : loc) (openflags : Z) : K sfs_fs Z :=
  if negb (Z.land openflags O_ACCMODE =? O_RDONLY) then mret EISDIR else
  if negb (Z.land openflags O_APPEND =? 0) then mret EISDIR else
  mret 0.

Definition sfs_ioctl (p : loc) (op : Z) : K sfs_fs Z := mret EINVAL.

Definition S_IFREG : Z := 4096.

Definition S_IFDIR : Z := 8192.

(** The error code and the type. *)
Definition sfs_gettype (p : loc) : K sfs_fs (Z * Z) :=
  sv ← getsv p;
  if sfi_type (sv_i sv) =? SFS_TYPE_FILE then mret (0, S_IFREG) else
  if sfi_type (sv_i sv) =? SFS_TYPE_DIR then mret (0, S_IFDIR) else
  kpanic.

Record stat : Type := Stat { st_mode : Z; st_nlink : Z; st_size : Z; st_blocks : Z }.

Definition sfs_stat (p : loc) : K sfs_fs (Z * stat) :=
  vnode_check p false;;
  '(result, mode) ← sfs_gettype p;
  if negb (result =? 0) then mret (result, Stat mode 0 0 0) else
  sv ← getsv p;
  mret (0, Stat mode 0 (i32 (sfi_size (sv_i sv))) 0).

Definition sfs_tryseek (p : loc) (pos : Z) : K sfs_fs Z :=
  if pos <? 0 then mret EINVAL else mret 0.

Definition sfs_mmap (p : loc) : K sfs_fs Z := mret EUNIMP.

Definition sfs_namefile (p : loc) : K sfs_fs Z :=
  sv ← getsv p;
  kassert (sv_ino sv =? SFS_ROOT_LOCATION);;
  mret 0.

(** [sfi_linkcount++] and [--] on the 16-bit count, marking the inode dirty. *)
Definition set_linkcount (n : Z) (i : sfs_inode) : sfs_inode :=
  SfsInode (sfi_size i) (sfi_type i) n (sfi_direct i) (sfi_indirect i) (sfi_waste i).

Definition add_link (q : loc) (d : Z) : K sfs_fs unit :=
  v ← getsv q;
  setsv q (set_dirty true (set_inode (set_linkcount (u16 (sfi_linkcount (sv_i v) + d)) (sv_i v)) v)).

Definition sfs_creat (p : loc) (name : list Z) (excl : bool) : K sfs_fs (Z * option loc) :=
  '(result, f) ← sfs_dir_findname p name;
  if negb (result =? 0) && negb (result =? ENOENT) then mret (result, None) else
  if (result =? 0) && excl then mret (EEXIST, None) else
  if result =? 0 then
    '(ino, _) ← kof (f_entry f);
    '(result, newguy) ← sfs_loadvnode ino SFS_TYPE_INVAL;
    if negb (result =? 0) then mret (result, None) else
    mret (0, newguy)
  else
  '(result, newguy) ← sfs_makeobj SFS_TYPE_FILE;
  if negb (result =? 0) then mret (result, None) else
  q ← kof newguy;
  nv ← getsv q;
  '(result, _) ← sfs_dir_link p name (sv_ino nv);
  if negb (result =? 0) then
    vnode_decref q;;
    mret (result, None)
  else
  add_link q 1;;
  mret (0, Some q).

Definition sfs_link (dir : loc) (name : list Z) (file : loc) : K sfs_fs Z :=
  f ← getsv file;
  '(result, _) ← sfs_dir_link dir name (sv_ino f);
  if negb (result =? 0) then mret result else
  add_link file 1;;
  mret 0.

Definition sfs_remove (dir : loc) (name : list Z) : K sfs_fs Z :=
  '(result, victim, slot) ← sfs_lookonce dir name;
  if negb (result =? 0) then mret result else
  q ← kof victim;
  result ← sfs_dir_unlink dir slot;
  (if result =? 0 then
     sv ← getsv q;
     kassert (0 <? sfi_linkcount (sv_i sv));;
     add_link q (-1)
   else mret tt);;
  vnode_decref q;;
  mret result.

(** From the label [puke] on. *)
Definition rename_puke (g1 : loc) (result : Z) : K sfs_fs Z :=
  vnode_decref g1;;
  mret result.

Definition rename_puke_harder (p g1 : loc) (slot2 result : Z) : K sfs_fs Z :=
  result2 ← sfs_dir_unlink p slot2;
  if negb (result2 =? 0) then kpanic else
  v ← getsv g1;
  setsv g1 (set_inode (set_linkcount (u16 (sfi_linkcount (sv_i v) - 1)) (sv_i v)) v);;
  rename_puke g1 result.

Definition sfs_rename (d1 : loc) (n1 : list Z) (d2 : loc) (n2 : list Z) : K sfs_fs Z :=
  sv ← getsv d1;
  kassert (bool_decide (d1 = d2));;
  kassert (sv_ino sv =? SFS_ROOT_LOCATION);;
  '(result, g, slot1) ← sfs_lookonce d1 n1;
  if negb (result =? 0) then mret result else
  g1 ← kof g;
  gv ← getsv g1;
  kassert (sfi_type (sv_i gv) =? SFS_TYPE_FILE);;
  '(result, slot2) ← sfs_dir_link d1 n2 (sv_ino gv);
  if negb (result =? 0) then rename_puke g1 result else
  slot2 ← kof slot2;
  add_link g1 1;;
  result ← sfs_dir_unlink d1 slot1;
  if negb (result =? 0) then rename_puke_harder d1 g1 slot2 result else
  gv ← getsv g1;
  kassert (0 <? sfi_linkcount (sv_i gv));;
  add_link g1 (-1);;
  vnode_decref g1;;
  mret 0.

(** The error code, the directory and the string copied to [buf]. *)
Definition sfs_lookparent (p : loc) (path : list Z) (buflen : Z)
    : K sfs_fs (Z * option loc * list Z) :=
  sv ← getsv p;
  if negb (sfi_type (sv_i sv) =? SFS_TYPE_DIR) then mret (ENOTDIR, None, []) else
  if buflen <? Z.of_nat (length path) + 1 then mret (ENAMETOOLONG, None, []) else
  vnode_incref p;;
  mret (0, Some p, path).

Definition sfs_lookup (p : loc) (path : list Z) : K sfs_fs (Z * option loc) :=
  sv ← getsv p;
  if negb (sfi_type (sv_i sv) =? SFS_TYPE_DIR) then mret (ENOTDIR, None) else
  '(result, final, _) ← sfs_lookonce p path;
  if negb (result =? 0) then mret (result, None) else
  mret (0, final).
