(* ===== verification/SfsDir.v ===== *)
(** * SFS directories refine finite maps

    [dir_rep s v m]: the directory inode of [v] is well formed and its live
    entries are the finite map [m] from names to inode numbers.  Searching,
    linking and unlinking are lookup, insertion and deletion. *)

From S2P Require Import Prelude Array Bitmap CopyInOut Uio Lhd SfsDisk SfsFile SfsInv SfsIo SfsVnode.

(** ** Entries *)

Definition dirent (s : sfs_fs) (v : sfs_vnode) (k : Z) : sfs_dir :=
  dec_dir (fbytes (sectors s) (sv_i v) (SFS_DIRSIZE * k) SFS_DIRSIZE).

Definition nslots (v : sfs_vnode) : Z := sfi_size (sv_i v) / SFS_DIRSIZE.

(** The name in an entry, with the terminator the search puts at its end. *)
Definition ent_name (d : sfs_dir) : list Z := cstr (<[59%nat := 0]> (sfd_name d)).

(** Slot [k] holds [name], for inode [ino]. *)
Definition dir_has (s : sfs_fs) (v : sfs_vnode) (name : list Z) (ino k : Z) : Prop :=
  0 ≤ k < nslots v ∧ sfd_ino (dirent s v k) = ino ∧ ino ≠ SFS_NOINO ∧ ent_name (dirent s v k) = name.

Definition dir_rep (s : sfs_fs) (v : sfs_vnode) (m : gmap (list Z) Z) : Prop :=
  sfi_type (sv_i v) = SFS_TYPE_DIR ∧
  0 ≤ sfi_size (sv_i v) ≤ MAXSIZE ∧ sfi_size (sv_i v) mod SFS_DIRSIZE = 0 ∧
  (∀ name i j k l, dir_has s v name i k → dir_has s v name j l → k = l) ∧
  (∀ name ino, m !! name = Some ino ↔ ∃ k, dir_has s v name ino k).

Lemma nslots_range s v m : dir_rep s v m → sfi_size (sv_i v) = SFS_DIRSIZE * nslots v ∧ 0 ≤ nslots v ≤ 1144.
Proof.
  intros (_ & Hsz & Hmod & _). unfold nslots, MAXSIZE, MAXBLK, SFS_NDIRECT, SFS_DBPERIDB, SFS_BLOCKSIZE, SFS_DIRSIZE in *.
  pose proof (Z.div_mod (sfi_size (sv_i v)) 64). lia.
Qed.

Lemma length_dirent_name s v k : length (sfd_name (dirent s v k)) = 60%nat.
Proof. unfold dirent, dec_dir; cbn [sfd_name]. by rewrite length_drop, length_fbytes. Qed.

Lemma slot_offset k : 0 ≤ k < 2 ^ 25 → i32 (u32 (k * SFS_DIRSIZE)) = SFS_DIRSIZE * k.
Proof. intros. unfold SFS_DIRSIZE. rewrite u32_id, i32_id by lia. lia. Qed.

(** Reading leaves the directory as it is. *)
Lemma reads_to_dirent s s' sp v k : reads_to s s' sp → dirent s' v k = dirent s v k.
Proof. intros Hr. unfold dirent. by rewrite (reads_to_sectors _ _ _ Hr). Qed.

Lemma reads_to_has s s' sp v name ino k : reads_to s s' sp → dir_has s' v name ino k ↔ dir_has s v name ino k.
Proof. intros Hr. unfold dir_has. by rewrite (reads_to_dirent _ _ _ _ _ Hr). Qed.

Lemma reads_to_rep s s' sp v m : reads_to s s' sp → dir_rep s v m → dir_rep s' v m.
Proof.
  intros Hr (H1 & H2 & H3 & H4 & H5).
  split; [exact H1|split; [exact H2|split; [exact H3|split]]].
  - intros name i j k l. rewrite !(reads_to_has _ _ _ _ _ _ _ Hr). apply H4.
  - intros name ino. rewrite H5. by setoid_rewrite (reads_to_has _ _ _ _ _ _ _ Hr).
Qed.

(** ** Reading *)

Lemma sfs_readdir_spec p v s used k (Q : Z * sfs_dir → world sfs_fs → Prop) w :
  wst w = s → fs_ok s used → sfs_heap s !! p = Some v → inode_ok s used (sv_i v) →
  sfi_size (sv_i v) ≤ MAXSIZE → 0 ≤ k < nslots v →
  (∀ s', reads_to s s' (lh_space (sfs_device s)) → Q (0, dirent s v k) (World s' (wmem w))) →
  wp (sfs_readdir p k) Q w.
Proof.
  intros Hw Hok Hp Hi Hsz Hk HQ. unfold sfs_readdir.
  assert (SFS_DIRSIZE * k + SFS_DIRSIZE ≤ sfi_size (sv_i v) ∧ k < 2 ^ 25) as [Hend Hk25].
  { unfold nslots, MAXSIZE, MAXBLK, SFS_NDIRECT, SFS_DBPERIDB, SFS_BLOCKSIZE, SFS_DIRSIZE in *.
    pose proof (Z.mul_div_le (sfi_size (sv_i v)) 64). lia. }
  rewrite slot_offset by lia. kstep.
  assert (MAXSIZE < 2 ^ 31) by done. unfold SFS_DIRSIZE in *.
  eapply (sfs_io_read p v s used); [exact Hw|exact Hok|exact Hp|exact Hi|done|done|simpl; lia..| |].
  { unfold uio_can; simpl. split_and!; done || lia. }
  intros s' bs Hr. unfold bs in *; simpl uio_offset in *; simpl uio_resid in *.
  replace (readable (sfi_size (sv_i v)) (64 * k) 64) with 64 in * by (unfold readable; lia).
  set (u' := uio_fill _ _).
  assert (kobj u' = fbytes (sectors s) (sv_i v) (64 * k) 64) as Hkobj.
  { unfold u', kobj, uio_fill, fill_base; simpl iov_base. apply splice_all. by rewrite length_fbytes. }
  clearbody u'. kstep. rewrite length_fbytes. change (0 <? 64 - Z.of_nat (Z.to_nat 64)) with false.
  kstep. rewrite Hkobj. by apply HQ.
Qed.

Lemma sfs_dir_nentries_spec p v s m (Q : Z → world sfs_fs → Prop) w :
  wst w = s → sfs_heap s !! p = Some v → dir_rep s v m → Q (nslots v) w →
  wp (sfs_dir_nentries p) Q w.
Proof.
  intros Hw Hp Hd HQ. destruct (nslots_range _ _ _ Hd) as [Hsz Hn]. destruct Hd as (Hty & _ & Hmod & _).
  unfold sfs_dir_nentries. kstep. eapply wp_getsv; [by rewrite Hw|]. kstep.
  rewrite wp_kassert by by apply Z.eqb_eq. kstep. unfold nslots, SFS_DIRSIZE in *.
  assert (u32 (i32 (sfi_size (sv_i v))) = sfi_size (sv_i v)) as -> by (rewrite i32_id, u32_id by lia; done).
  rewrite Hmod. kstep. by rewrite i32_id by lia.
Qed.

(** What a search of the first [i] slots has found. *)
Definition search_upto (s : sfs_fs) (v : sfs_vnode) (name : list Z) (i : Z) (f : found) : Prop :=
  match f_entry f with
  | Some (ino, k) => k < i ∧ dir_has s v name ino k
  | None => ∀ ino k, k < i → ¬ dir_has s v name ino k
  end ∧
  match f_empty f with
  | Some k => 0 ≤ k < nslots v ∧ sfd_ino (dirent s v k) = SFS_NOINO
  | None => ∀ k, 0 ≤ k < i → sfd_ino (dirent s v k) ≠ SFS_NOINO
  end.

(** The result of a search. *)
Definition search_result (s : sfs_fs) (v : sfs_vnode) (name : list Z) (m : gmap (list Z) Z)
    (r : Z) (f : found) : Prop :=
  search_upto s v name (nslots v) f ∧
  match m !! name with
  | Some ino => r = 0 ∧ ∃ k, f_entry f = Some (ino, k) ∧ dir_has s v name ino k
  | None => r = ENOENT ∧ f_entry f = None
  end.

Lemma search_done s v m name f :
  dir_rep s v m → search_upto s v name (nslots v) f →
  search_result s v name m (if bool_decide (f_entry f = None) then ENOENT else 0) f.
Proof.
  intros (_ & _ & _ & Huniq & Hm) Hs. split; [done|]. destruct Hs as [Hs _].
  destruct (f_entry f) as [[ino k]|] eqn:Hf.
  - destruct Hs as [_ Hs]. assert (m !! name = Some ino) as -> by (apply Hm; eauto).
    split; [done|]. eauto.
  - destruct (m !! name) as [ino|] eqn:Hmn; [|done].
    apply Hm in Hmn as [k Hk]. destruct (Hs ino k); [apply Hk|done].
Qed.

(** One more slot. *)
Lemma search_step s v m name i f :
  dir_rep s v m → 0 ≤ i < nslots v → search_upto s v name i f →
  let d := dirent s v i in
  (sfd_ino d = SFS_NOINO → search_upto s v name (i + 1) (Found (f_entry f) (Some i))) ∧
  (sfd_ino d ≠ SFS_NOINO → ent_name d ≠ name → search_upto s v name (i + 1) f) ∧
  (sfd_ino d ≠ SFS_NOINO → ent_name d = name →
     f_entry f = None ∧ search_upto s v name (i + 1) (Found (Some (sfd_ino d, i)) (f_empty f))).
Proof.
  intros (_ & _ & _ & Huniq & Hm) Hi [He Hf] d. split_and!.
  - intros H0. split; [|done]. simpl. destruct (f_entry f) as [[ino k]|].
    + destruct He. split; [lia|done].
    + intros ino k Hk Hh. destruct (decide (k = i)) as [->|]; [|apply (He ino k); [lia|done]].
      destruct Hh as (_ & ? & ? & _). unfold d in *. congruence.
  - intros H0 Hne. split.
    + destruct (f_entry f) as [[ino k]|]; [destruct He; split; [lia|done]|].
      intros ino k Hk Hh. destruct (decide (k = i)) as [->|]; [|apply (He ino k); [lia|done]].
      destruct Hh as (_ & _ & _ & ?). done.
    + destruct (f_empty f); [done|]. intros k Hk. destruct (decide (k = i)) as [->|]; [done|]. apply Hf. lia.
  - intros H0 Hname. assert (dir_has s v name (sfd_ino d) i) as Hh by (split; [lia|by split_and!]).
    split; [|split].
    + destruct (f_entry f) as [[ino k]|]; [|done]. destruct He as [Hk He].
      pose proof (Huniq _ _ _ _ _ He Hh). lia.
    + simpl. split; [lia|done].
    + simpl. destruct (f_empty f); [done|]. intros k Hk. destruct (decide (k = i)) as [->|]; [done|]. apply Hf. lia.
Qed.

Lemma sfs_dir_findname_spec p v s used m name (Q : Z * found → world sfs_fs → Prop) w :
  wst w = s → fs_ok s used → sfs_heap s !! p = Some v → inode_ok s used (sv_i v) → dir_rep s v m →
  (∀ r f s', reads_to s s' (lh_space (sfs_device s)) → search_result s v name m r f →
     Q (r, f) (World s' (wmem w))) →
  wp (sfs_dir_findname p name) Q w.
Proof.
  intros Hw Hok Hp Hi Hd HQ. destruct (nslots_range _ _ _ Hd) as [Hsz Hn].
  unfold sfs_dir_findname. kstep. eapply sfs_dir_nentries_spec; [exact Hw|exact Hp|exact Hd|]. kstep.
  apply (wp_kfind (λ i f w', wmem w' = wmem w ∧ reads_to s (wst w') (lh_space (sfs_device s)) ∧
                             search_upto s v name i f)).
  - split_and!; [done|rewrite Hw; by eapply reads_to_refl|].
    split; simpl; [intros ino k Hk ((? & _) & _); lia|intros k Hk; lia].
  - intros i f [s1 m1] Hir (Hm1 & Hr & Hs). simpl in *. subst m1.
    assert (0 ≤ i < nslots v) as Hi' by lia. kstep.
    eapply (sfs_readdir_spec p v s1 used); [done|by eapply reads_to_ok|by rewrite (reads_to_heap _ _ _ Hr)|
      by eapply reads_to_inode|apply Hd|done|].
    rewrite (reads_to_space _ _ _ Hr), (reads_to_dirent _ _ _ v i Hr). intros s2 Hr2.
    assert (reads_to s s2 (lh_space (sfs_device s))) as Hr' by by eapply reads_to_trans.
    destruct (search_step s v m name i f Hd Hi' Hs) as (Hfree & Hother & Hhere).
    kstep. destruct (Z.eqb_spec (sfd_ino (dirent s v i)) SFS_NOINO) as [H0|H0]; kstep; [by auto|].
    rewrite lset_Some by (rewrite length_dirent_name; done). kstep.
    change (cstr (<[Z.to_nat (SFS_NAMELEN - 1) := 0]> (sfd_name (dirent s v i)))) with (ent_name (dirent s v i)).
    destruct (decide (ent_name (dirent s v i) = name)) as [Hname|Hname].
    + rewrite bool_decide_eq_true_2 by done. destruct Hhere as [Hnone Hh]; [done..|].
      kstep. rewrite wp_kassert by by rewrite bool_decide_eq_true_2. kstep. done.
    + rewrite bool_decide_eq_false_2 by done. kstep. auto.
  - intros f [s1 m1] (Hm1 & Hr & Hs). simpl in *. subst m1. kstep. rewrite Z2Nat.id in Hs by lia.
    apply HQ; [done|]. by apply search_done.
Qed.

(** ** Writing *)

(** Slot [k] has become [sd], the others are as before. *)
Definition slot_written (s : sfs_fs) (v : sfs_vnode) (k : Z) (sd : sfs_dir)
    (s' : sfs_fs) (v' : sfs_vnode) : Prop :=
  sfi_size (sv_i v') = SFS_DIRSIZE * Z.max (nslots v) (k + 1) ∧ sfi_size (sv_i v') ≤ MAXSIZE ∧
  ∀ j, 0 ≤ j < nslots v' → dirent s' v' j = if j =? k then sd else dirent s v j.

Definition slots_kept (s : sfs_fs) (v : sfs_vnode) (s' : sfs_fs) (v' : sfs_vnode) : Prop :=
  sfi_size (sv_i v') = sfi_size (sv_i v) ∧
  ∀ j, 0 ≤ j < nslots v' → dirent s' v' j = dirent s v j.

Lemma fbytes_eq ss i ss' i' pos n :
  (∀ k, pos ≤ k < pos + n → fbyte ss' i' k = fbyte ss i k) → fbytes ss' i' pos n = fbytes ss i pos n.
Proof.
  intros H. unfold fbytes. apply list_fmap_ext. intros j k Hk. apply lookup_seqZ in Hk as [-> ?].
  apply H. lia.
Qed.

(** The outcome of a write of one entry. *)
Definition write_outcome (s : sfs_fs) (v : sfs_vnode) (k : Z) (sd : sfs_dir) (r : Z)
    (s' : sfs_fs) (v' : sfs_vnode) (used' : gset Z) : Prop :=
  (r = 0 ∧ slot_written s v k sd s' v') ∨
  ((r = EINVAL ∧ k = 1144 ∨ r = ENOSPC ∧ full s used') ∧ slots_kept s v s' v').

Lemma write_done_outcome p v s used m sd k r u' s' j v' used' :
  dir_rep s v m → dir_wf sd → 0 ≤ k ≤ nslots v →
  write_done p v s used (mk_kuio (enc_dir sd) SFS_DIRSIZE (SFS_DIRSIZE * k) UIO_WRITE) r u' s' j v' used' →
  write_outcome s v k sd r s' v' used' ∧ (r = 0 → uio_resid u' = 0).
Proof.
  intros Hd Hwf Hk [Hj Hu Hstop Hres Hst _ Hsize Hmax Hby]. destruct (nslots_range _ _ _ Hd) as [Hsz Hn].
  simpl uio_resid in *; simpl uio_offset in *. unfold nslots, SFS_DIRSIZE in *.
  assert (MAXSIZE = 73216) as HM by done. rewrite Hsz in Hsize.
  assert (r = 0 ∧ j = 64 ∨ (r = EINVAL ∧ k = 1144 ∨ r = ENOSPC ∧ full s used') ∧ j = 0) as [[-> ->]|[Hr ->]].
  { destruct Hres as [|Hres]; [by left|right]. destruct Hstop as [Hlt Hj0].
    { by destruct Hres as [[-> _]|[-> _]]. }
    assert (j = 0) as ->.
    { destruct Hj0 as [|Hj0]; [done|]. pose proof (Z.div_mod (64 * k + j) 512). lia. }
    split; [|done]. destruct Hres as [[-> ?]|(-> & ? & _)]; [left|by right]. split; [done|lia]. }
  - split; [|by intros _; rewrite Hu]. left. split; [done|]. unfold slot_written, nslots, SFS_DIRSIZE.
    replace (64 * Z.max (sfi_size (sv_i v) / 64) (k + 1)) with (sfi_size (sv_i v')) by lia.
    assert (sfi_size (sv_i v') / 64 = Z.max (sfi_size (sv_i v) / 64) (k + 1)) as Hn'.
    { replace (sfi_size (sv_i v')) with (Z.max (sfi_size (sv_i v) / 64) (k + 1) * 64) by lia. by rewrite Z.div_mul. }
    rewrite Hn'. split_and!; [done|lia|]. intros i Hi. unfold dirent, SFS_DIRSIZE.
    destruct (Z.eqb_spec i k) as [->|].
    + rewrite <- (dec_enc_dir sd) by done. f_equal. pose proof (length_enc_dir sd Hwf) as Hl.
      apply list_eq_same_length with 64%nat; [done|by rewrite length_fbytes|].
      intros a x y Ha Hx Hy. rewrite lookup_fbytes, Hby in Hx by lia. rewrite decide_True in Hx by lia.
      replace (64 * k + Z.of_nat a - 64 * k) with (Z.of_nat a) in Hx by lia. rewrite lget_of_nat in Hx.
      change (uio_bytes _ _ 64) with (take 64 (enc_dir sd)) in Hx. rewrite lookup_take_lt, Hy in Hx by lia.
      by simplify_eq/=.
    + f_equal. apply fbytes_eq. intros a Ha. rewrite Hby by lia. by rewrite decide_False by lia.
  - split; [|by destruct Hr as [[-> _]|[-> _]]]. right. split; [done|].
    assert (sfi_size (sv_i v') = sfi_size (sv_i v)) as Hs' by lia.
    unfold slots_kept, nslots, SFS_DIRSIZE. rewrite Hs'. split; [done|]. intros i Hi.
    unfold dirent, SFS_DIRSIZE. f_equal. apply fbytes_eq. intros a Ha. rewrite Hby by lia.
    by rewrite decide_False by lia.
Qed.

Lemma sfs_writedir_spec p v s used m sd k (Q : Z → world sfs_fs → Prop) w :
  wst w = s → fs_ok s used → sfs_heap s !! p = Some v → inode_ok s used (sv_i v) → dir_rep s v m →
  dir_wf sd → 0 ≤ k ≤ nslots v →
  (∀ r v' s' used', fstep p v s used v' s' used' → same_space s s' →
     write_outcome s v k sd r s' v' used' → Q r (World s' (wmem w))) →
  wp (sfs_writedir p sd k) Q w.
Proof.
  intros Hw Hok Hp Hi Hd Hwf Hk HQ. destruct (nslots_range _ _ _ Hd) as [Hsz Hn].
  unfold sfs_writedir. kstep. kassert_tac. rewrite slot_offset by lia.
  pose proof (length_enc_dir sd Hwf) as Hl.
  eapply (sfs_io_write p v s used); [exact Hw|exact Hok|exact Hp|exact Hi|unfold SFS_DIRSIZE in *; lia|done|
    unfold SFS_DIRSIZE; simpl; lia..| | |].
  { unfold uio_can, mk_kuio, SFS_DIRSIZE; cbn [iov_len uio_segflg iov_base uio_space uio_resid].
    split_and!; done || lia. }
  { change (Forall is_byte (take (Z.to_nat 64) (drop 0 (enc_dir sd)))). apply Forall_take. by apply enc_dir_bytes. }
  intros r u' s' j v' used' Hdone. destruct (write_done_outcome p v s used m sd k r u' s' j v' used') as [Ho Hr]; [done..|].
  kstep. destruct (Z.eqb_spec r 0) as [->|]; kstep.
  - rewrite Hr by done. kstep. eapply HQ; [apply Hdone|apply Hdone|done].
  - eapply HQ; [apply Hdone|apply Hdone|done].
Qed.

(** ** Effect on the map *)

Lemma slots_kept_rep s v s' v' m :
  slots_kept s v s' v' → same_vnode v v' → dir_rep s v m → dir_rep s' v' m.
Proof.
  intros [Hsz He] (_ & _ & _ & _ & Hty & _) (H1 & H2 & H3 & H4 & H5).
  assert (∀ name ino k, dir_has s' v' name ino k ↔ dir_has s v name ino k) as Hh.
  { intros name ino k. unfold dir_has. assert (nslots v' = nslots v) as Hn by (unfold nslots; by rewrite Hsz).
    rewrite Hn. split; intros (Hk & Hrest); (split; [done|]); [rewrite <- He|rewrite He]; rewrite ?Hn; done. }
  unfold dir_rep. rewrite Hsz, Hty. split; [exact H1|split; [exact H2|split; [exact H3|split]]].
  - intros name i j k l. rewrite !Hh. apply H4.
  - intros name ino. rewrite H5. by setoid_rewrite Hh.
Qed.

(** After slot [k] has been written, other names are where they were. *)
Lemma slot_written_has s v k sd s' v' name ino j :
  0 ≤ k → 0 ≤ nslots v → slot_written s v k sd s' v' →
  nslots v' = Z.max (nslots v) (k + 1) ∧
  (k ≤ nslots v → dir_has s' v' name ino j ↔
   (j ≠ k ∧ dir_has s v name ino j) ∨
   (j = k ∧ sfd_ino sd = ino ∧ ino ≠ SFS_NOINO ∧ ent_name sd = name)).
Proof.
  intros Hk Hn (Hsz & _ & He).
  assert (nslots v' = Z.max (nslots v) (k + 1)) as Hn'.
  { unfold nslots at 1. rewrite Hsz, Z.mul_comm. by apply Z.div_mul. }
  split; [done|]. intros Hle. unfold dir_has. split.
  - intros (Hj & Hrest). rewrite He in Hrest by done. rewrite Hn' in Hj.
    destruct (Z.eqb_spec j k) as [->|]; [by right|left]. split; [done|]. split; [lia|exact Hrest].
  - intros [(Hjk & Hj & Hrest)|(-> & Hrest)]; (split; [rewrite Hn'; lia|]); rewrite He by (rewrite Hn'; lia).
    + by rewrite (proj2 (Z.eqb_neq _ _)).
    + by rewrite Z.eqb_refl.
Qed.

Lemma slot_written_insert s v k sd s' v' m name :
  dir_rep s v m → m !! name = None → 0 ≤ k ≤ nslots v →
  (k < nslots v → sfd_ino (dirent s v k) = SFS_NOINO) →
  sfd_ino sd ≠ SFS_NOINO → ent_name sd = name →
  slot_written s v k sd s' v' → same_vnode v v' → dir_rep s' v' (<[name := sfd_ino sd]> m).
Proof.
  intros Hd Hnone Hk Hfree Hino Hname Hw (_ & _ & _ & _ & Hty & _).
  destruct (nslots_range _ _ _ Hd) as [_ Hn]. destruct Hd as (H1 & H2 & H3 & Huniq & Hm).
  assert (∀ nm ino j, dir_has s' v' nm ino j ↔
            (j ≠ k ∧ dir_has s v nm ino j) ∨ (j = k ∧ sfd_ino sd = ino ∧ ino ≠ SFS_NOINO ∧ ent_name sd = nm)) as Hh.
  { intros nm ino j. destruct (slot_written_has s v k sd s' v' nm ino j) as [_ Hh]; [lia|lia|done|]. apply Hh. lia. }
  assert (∀ ino j, ¬ dir_has s v name ino j) as Hno.
  { intros ino j Hj. assert (m !! name = Some ino) by (apply Hm; eauto). congruence. }
  assert (∀ nm ino, ¬ dir_has s v nm ino k) as Hk0.
  { intros nm ino (Hkr & He & Hne & _). rewrite Hfree in He by lia. congruence. }
  destruct Hw as (Hsz & Hmax & _). split_and!; [congruence|rewrite Hsz; unfold SFS_DIRSIZE; lia|done| | |].
  - rewrite Hsz, Z.mul_comm. by apply Z_mod_mult.
  - intros nm i j a b. rewrite !Hh. intros [[_ Ha]|(-> & _ & _ & <-)] [[_ Hb]|(-> & _ & _ & Hnb)].
    + by eapply Huniq.
    + subst nm. by destruct (Hno i a); rewrite <- Hname.
    + by destruct (Hno j b); rewrite <- Hname.
    + done.
  - intros nm ino. setoid_rewrite Hh. destruct (decide (nm = name)) as [->|Hnn].
    + rewrite lookup_insert_eq. split.
      * intros [= <-]. exists k. right. done.
      * intros (j & [[_ Hj]|(_ & <- & _)]); [by destruct (Hno ino j)|done].
    + rewrite lookup_insert_ne, Hm by done. split.
      * intros (j & Hj). exists j. left. split; [|done]. intros ->. by destruct (Hk0 nm ino).
      * intros (j & [[_ Hj]|(_ & _ & _ & He)]); [eauto|congruence].
Qed.

Lemma slot_written_delete s v k sd s' v' m name ino :
  dir_rep s v m → dir_has s v name ino k → sfd_ino sd = SFS_NOINO →
  slot_written s v k sd s' v' → same_vnode v v' → dir_rep s' v' (delete name m).
Proof.
  intros Hd Hhas Hino Hw (_ & _ & _ & _ & Hty & _). pose proof Hhas as (Hk & _).
  destruct (nslots_range _ _ _ Hd) as [_ Hn]. destruct Hd as (H1 & H2 & H3 & Huniq & Hm).
  assert (∀ nm i j, dir_has s' v' nm i j ↔ j ≠ k ∧ dir_has s v nm i j) as Hh.
  { intros nm i j. destruct (slot_written_has s v k sd s' v' nm i j) as [_ Hh]; [lia|lia|done|].
    rewrite Hh by lia. split; [|by left]. intros [|(_ & He & Hne & _)]; [done|congruence]. }
  destruct Hw as (Hsz & Hmax & _). split_and!; [congruence|rewrite Hsz; unfold SFS_DIRSIZE; lia|done| | |].
  - rewrite Hsz, Z.mul_comm. by apply Z_mod_mult.
  - intros nm i j a b. rewrite !Hh. intros [_ Ha] [_ Hb]. by eapply Huniq.
  - intros nm i. setoid_rewrite Hh. destruct (decide (nm = name)) as [->|Hnn].
    + rewrite lookup_delete_eq. split; [done|]. intros (j & Hjk & Hj). destruct Hjk. by eapply Huniq.
    + rewrite lookup_delete_ne, Hm by done. split.
      * intros (j & Hj). exists j. split; [|done]. intros ->.
        destruct Hj as (_ & _ & _ & He1), Hhas as (_ & _ & _ & He2). congruence.
      * intros (j & _ & Hj). eauto.
Qed.

(** ** Names *)

(** A file name as system calls deliver it: bytes other than NUL. *)
Definition name_ok (name : list Z) : Prop := Forall (λ c, 0 < c < 2 ^ 8) name.

Lemma cstr_app_nul name rest : name_ok name → cstr (name ++ 0 :: rest) = name.
Proof.
  induction 1 as [|c name Hc _ IH]; simpl; [done|]. rewrite (proj2 (Z.eqb_neq _ _)) by lia. by rewrite IH.
Qed.

Lemma new_dir_name name ino :
  name_ok name → (length name ≤ 59)%nat → ent_name (new_dir name ino) = name.
Proof.
  intros Hok Hl. unfold ent_name, new_dir; cbn [sfd_name].
  assert (<[59%nat := 0]> (name ++ replicate (60 - length name) 0) = name ++ replicate (60 - length name) 0) as ->.
  { apply list_insert_id. rewrite lookup_app_r by lia. apply lookup_replicate_2. lia. }
  destruct (60 - length name)%nat as [|n] eqn:Hn; [lia|]. by apply cstr_app_nul.
Qed.

Lemma new_dir_wf name ino : name_ok name → (length name ≤ 59)%nat → is_u32 ino → dir_wf (new_dir name ino).
Proof.
  intros Hok Hl Hino. unfold dir_wf, new_dir; simpl. rewrite length_app, length_replicate.
  split_and!; [apply Hino..|lia|]. apply Forall_app_2; [|by apply Forall_replicate].
  eapply Forall_impl; [exact Hok|]. intros c Hc. unfold is_byte. simpl in *. lia.
Qed.

(** ** Linking and unlinking *)

Lemma reads_to_fstep p v s used s' :
  fs_ok s used → sfs_heap s !! p = Some v → inode_ok s used (sv_i v) →
  reads_to s s' (lh_space (sfs_device s)) → fstep p v s used v s' used.
Proof.
  intros Hok Hp Hi Hr. pose proof (reads_to_ok _ _ _ _ Hok Hr) as Hok'.
  pose proof (reads_to_inode _ _ _ _ _ Hr Hi) as Hi'. destruct Hr as (x & Hx & ->).
  split; try done; [simpl; by rewrite insert_id|]. by left.
Qed.

(** The state and the directory after an operation on it. *)
Definition dir_step (p : loc) (v : sfs_vnode) (s : sfs_fs) (used : gset Z) (m : gmap (list Z) Z)
    (s' : sfs_fs) : Prop :=
  ∃ v' used', fstep p v s used v' s' used' ∧ same_space s s' ∧ dir_rep s' v' m.

(** The operation stopped because no block was free. *)
Definition dir_nospace (p : loc) (v : sfs_vnode) (s : sfs_fs) (used : gset Z) (m : gmap (list Z) Z)
    (s' : sfs_fs) : Prop :=
  ∃ v' used', fstep p v s used v' s' used' ∧ same_space s s' ∧ dir_rep s' v' m ∧ full s used'.

(** The result of linking [name] to [ino] in the directory [m]. *)
Definition link_result (p : loc) (v : sfs_vnode) (s : sfs_fs) (used : gset Z)
    (m : gmap (list Z) Z) (name : list Z) (ino r : Z) (slot : option Z) (s' : sfs_fs) : Prop :=
  match m !! name with
  | Some _ => r = EEXIST ∧ dir_step p v s used m s'
  | None =>
      if decide (length name ≤ 59)%nat then
        (r = 0 ∧ ∃ k v' used', slot = Some k ∧ fstep p v s used v' s' used' ∧ same_space s s' ∧
           dir_rep s' v' (<[name := ino]> m) ∧ dir_has s' v' name ino k) ∨
        (r = EINVAL ∧ (∀ k, 0 ≤ k < 1144 → sfd_ino (dirent s v k) ≠ SFS_NOINO) ∧
         dir_step p v s used m s') ∨
        (r = ENOSPC ∧ dir_nospace p v s used m s')
      else r = ENAMETOOLONG ∧ dir_step p v s used m s'
  end.

(** Writing the new entry, once a slot is chosen. *)
Lemma link_write p v s used m name ino k s1 (Q : Z * option Z → world sfs_fs → Prop) mem :
  fs_ok s used → sfs_heap s !! p = Some v → inode_ok s used (sv_i v) → dir_rep s v m →
  m !! name = None → name_ok name → (length name ≤ 59)%nat → 0 < ino < 2 ^ 32 →
  reads_to s s1 (lh_space (sfs_device s)) → 0 ≤ k ≤ nslots v →
  (k < nslots v → sfd_ino (dirent s v k) = SFS_NOINO) →
  (k = nslots v → ∀ j, 0 ≤ j < nslots v → sfd_ino (dirent s v j) ≠ SFS_NOINO) →
  (∀ r slot s', link_result p v s used m name ino r slot s' → Q (r, slot) (World s' mem)) →
  wp (sfs_writedir p (new_dir name ino) k) (λ result, Q (result, Some k)) (World s1 mem).
Proof.
  intros Hok Hp Hi Hd Hnone Hname Hlen Hino Hr Hk Hfree Hfull HQ.
  destruct (nslots_range _ _ _ Hd) as [_ Hn].
  pose proof (reads_to_fstep p v s used s1 Hok Hp Hi Hr) as Hst1. pose proof (reads_to_rep _ _ _ _ _ Hr Hd) as Hd1.
  eapply (sfs_writedir_spec p v s1 used); [done|apply Hst1|by eapply fstep_lookup|apply Hst1|exact Hd1|
    apply new_dir_wf; [done|done|unfold is_u32; lia]|done|].
  intros r v' s' used' Hst Hsp Ho. apply HQ. unfold link_result. rewrite Hnone, decide_True by done.
  pose proof (fstep_trans _ _ _ _ _ _ _ _ _ _ Hst1 Hst) as Hst'. unfold same_space in Hsp.
  rewrite (reads_to_space _ _ _ Hr) in Hsp.
  destruct Ho as [[-> Hw]|[Hr' Hkeep]].
  - left. split; [done|]. exists k, v', used'. split; [done|split; [exact Hst'|split; [exact Hsp|split]]].
    + apply (slot_written_insert s1 v k (new_dir name ino) s' v' m name); [done|done|done| |simpl; unfold SFS_NOINO; lia|
        by apply new_dir_name|done|apply Hst]. rewrite (reads_to_dirent _ _ _ _ _ Hr). done.
    + destruct (slot_written_has s1 v k (new_dir name ino) s' v' name ino k) as [_ Hh]; [lia|lia|done|].
      apply Hh; [lia|]. right. split_and!; [done|done|unfold SFS_NOINO; lia|by apply new_dir_name].
  - right. assert (dir_rep s' v' m) as Hd' by (eapply slots_kept_rep; [exact Hkeep|apply Hst|exact Hd1]).
    destruct Hr' as [[-> ->]|[-> Hf]]; [left|right].
    + split; [done|split]; [intros j Hj; apply Hfull; lia|]. exists v', used'.
      split; [exact Hst'|split; [exact Hsp|exact Hd']].
    + split; [done|]. exists v', used'. unfold full, nblocks in *.
      rewrite (proj1 (fst_base _ _ _ _ _ _ _ Hst1)) in Hf.
      split; [exact Hst'|split; [exact Hsp|split; [exact Hd'|exact Hf]]].
Qed.

Lemma sfs_dir_link_spec p v s used m name ino (Q : Z * option Z → world sfs_fs → Prop) w :
  wst w = s → fs_ok s used → sfs_heap s !! p = Some v → inode_ok s used (sv_i v) → dir_rep s v m →
  name_ok name → 0 < ino < 2 ^ 32 →
  (∀ r slot s', link_result p v s used m name ino r slot s' → Q (r, slot) (World s' (wmem w))) →
  wp (sfs_dir_link p name ino) Q w.
Proof.
  intros Hw Hok Hp Hi Hd Hname Hino HQ. unfold sfs_dir_link. kstep.
  destruct (nslots_range _ _ _ Hd) as [_ Hn].
  eapply (sfs_dir_findname_spec p v s used m name); [exact Hw|exact Hok|exact Hp|exact Hi|exact Hd|].
  intros r f s1 Hr [[_ Hemp] Hres]. pose proof (reads_to_fstep p v s used s1 Hok Hp Hi Hr) as Hst1.
  assert (dir_step p v s used m s1) as Hds.
  { exists v, used. split_and!; [done|by apply (reads_to_space _ _ _ Hr)|by eapply reads_to_rep]. }
  destruct (m !! name) as [ino'|] eqn:Hmn; destruct Hres as [-> Hres]; kstep.
  { apply HQ. unfold link_result. by rewrite Hmn. }
  destruct (Z.ltb_spec SFS_NAMELEN (Z.of_nat (length name) + 1)) as [Hl|Hl]; kstep; unfold SFS_NAMELEN in Hl.
  { apply HQ. unfold link_result. rewrite Hmn, decide_False by lia. done. }
  assert (length name ≤ 59)%nat as Hlen by lia.
  destruct (f_empty f) as [k|]; kstep.
  - destruct Hemp as [Hk He]. eapply wp_mono; [eapply (link_write p v s used m name ino k s1 Q); try done; lia|].
    intros r' w' HQ'. by kstep.
  - eapply (sfs_dir_nentries_spec p v s1 m); [done|by eapply fstep_lookup|by eapply reads_to_rep|]. kstep.
    eapply wp_mono; [eapply (link_write p v s used m name ino (nslots v) s1 Q); try done; lia|].
    intros r' w' HQ'. by kstep.
Qed.

Lemma sfs_dir_unlink_spec p v s used m name ino k (Q : Z → world sfs_fs → Prop) w :
  wst w = s → fs_ok s used → sfs_heap s !! p = Some v → inode_ok s used (sv_i v) → dir_rep s v m →
  dir_has s v name ino k →
  (∀ r s', (r = 0 ∧ dir_step p v s used (delete name m) s') ∨
           (r = ENOSPC ∧ dir_nospace p v s used m s') →
     Q r (World s' (wmem w))) →
  wp (sfs_dir_unlink p k) Q w.
Proof.
  intros Hw Hok Hp Hi Hd Hhas HQ. destruct (nslots_range _ _ _ Hd) as [_ Hn]. pose proof Hhas as (Hk & _).
  unfold sfs_dir_unlink.
  eapply (sfs_writedir_spec p v s used m); [exact Hw|exact Hok|exact Hp|exact Hi|exact Hd| |lia|].
  { split; [done|]. split; [done|by apply Forall_replicate]. }
  intros r v' s' used' Hst Hsp [[-> Hwr]|[Hr Hkeep]]; apply HQ.
  - left. split; [done|]. exists v', used'. split_and!; [done|done|].
    eapply slot_written_delete; [done|done| |done|apply Hst]. done.
  - right. destruct Hr as [[-> ->]|[-> Hf]]; [lia|]. split; [done|].
    exists v', used'. split; [exact Hst|split; [exact Hsp|split; [|exact Hf]]].
    eapply slots_kept_rep; [done|apply Hst|done].
Qed.

(** ** Theorems *)

(** An eight-block file system whose root directory has the one entry [a] for
    inode 3, in block 4. *)
Definition dir_inode : sfs_inode :=
  SfsInode 64 SFS_TYPE_DIR 1 (4 :: replicate 14 0) 0 (replicate 110 0).

Definition dir_vnode : sfs_vnode := SfsVnode 1 0 sfs_dirops dir_inode 1 false.

Definition dir_block : list Z := enc_dir (new_dir [97] 3) ++ replicate 448 0.

Definition dir_sectors : list (list Z) := <[4%nat := dir_block]> (replicate 8 zero_block).

Definition dir_fs : sfs_fs :=
  SfsFs (SfsSuper SFS_MAGIC 8 (replicate 32 0) (replicate 118 0)) false
        (Lhd (USpace None ∅) 8 zero_block dir_sectors [])
        (Array 1 4 (Some [Some 1%positive; None; None; None]))
        (Bitmap 8 [31]) false {[1%positive := dir_vnode]}.

Definition dir_used : gset Z := {[0; 1; 2; 3; 4]}.

Lemma dir_fs_map : bitmap_rep (Bitmap 8 [31]) dir_used.
Proof.
  unfold bitmap_rep, BITMAP_LIMIT. simpl length. split_and!; [simpl; lia..|reflexivity| | |].
  - repeat constructor; simpl; lia.
  - intros i. simpl. unfold dir_used. set_unfold. lia.
  - intros i Hi. assert (i = 0 ∨ i = 1 ∨ i = 2 ∨ i = 3 ∨ i = 4 ∨ i = 5 ∨ i = 6 ∨ i = 7) as Hc by (simpl in Hi; lia).
    destruct Hc as [->|[->|[->|[->|[->|[->|[->| ->]]]]]]]; vm_compute; done.
Qed.

Lemma dir_block_wf : block_wf dir_block.
Proof.
  split; [done|]. apply Forall_app_2; [|by apply Forall_replicate].
  apply enc_dir_bytes, new_dir_wf; [repeat constructor|simpl; lia|done].
Qed.

Lemma dir_sectors_wf : Forall block_wf dir_sectors.
Proof. apply Forall_insert; [apply Forall_replicate, zero_block_wf|exact dir_block_wf]. Qed.

Lemma dir_fs_ok : fs_ok dir_fs dir_used.
Proof.
  unfold fs_ok. split_and!; [|exact dir_sectors_wf|exact dir_fs_map|unfold dir_used; set_solver|
    unfold nblocks; simpl; lia..|unfold nblocks; simpl; lia].
  split; [|done]. unfold lhd_wf, LHD_LIMIT; simpl sfs_device. split_and!; simpl; try done; try lia.
  eapply Forall_impl; [exact dir_sectors_wf|]. intros b [Hb _]. unfold LHD_SECTSIZE. lia.
Qed.

Lemma dir_ptr ss k : 0 ≤ k → ptr ss dir_inode k = if k =? 0 then 4 else 0.
Proof.
  intros Hk. unfold ptr. change (sfi_indirect dir_inode =? 0) with true.
  change (sfi_direct dir_inode) with (4 :: replicate 14 0).
  destruct (Z.eqb_spec k 0) as [->|]; [done|]. destruct (Z.ltb_spec k SFS_NDIRECT); [|done].
  unfold SFS_NDIRECT in *. rewrite lget_lookup by lia.
  destruct (Z.to_nat k) as [|n0] eqn:Hn; [lia|].
  change ((4 :: replicate 14 0) !! S n0) with (replicate 14 0 !! n0). by rewrite lookup_replicate_2 by lia.
Qed.

Lemma dir_inode_ok : inode_ok dir_fs dir_used (sv_i dir_vnode).
Proof.
  change (sv_i dir_vnode) with dir_inode. split_and!.
  - unfold inode_wf. split_and!; try done; [|by apply Forall_replicate].
    apply Forall_cons_2; [done|by apply Forall_replicate].
  - intros b (Hb & [->|(k & Hk & Hbk)]); [done|]. rewrite dir_ptr in Hbk by lia.
    destruct (k =? 0); subst; [|done]. by split; [unfold dir_used; set_solver|].
  - intros k Hk. rewrite dir_ptr by lia. by destruct (k =? 0).
  - intros j k Hj Hk. rewrite !dir_ptr by lia. destruct (Z.eqb_spec j 0), (Z.eqb_spec k 0); subst; done.
Qed.

Lemma dir_fs_entry : dirent dir_fs dir_vnode 0 = new_dir [97] 3.
Proof. vm_compute. reflexivity. Qed.

Lemma dir_fs_has name ino k :
  dir_has dir_fs dir_vnode name ino k ↔ name = [97] ∧ ino = 3 ∧ k = 0.
Proof.
  unfold dir_has. change (nslots dir_vnode) with 1. split.
  - intros (Hk & He & Hne & Hnm). assert (k = 0) as -> by lia. rewrite dir_fs_entry in *. by subst.
  - intros (-> & -> & ->). by rewrite dir_fs_entry.
Qed.

Lemma dir_fs_rep : dir_rep dir_fs dir_vnode {[ [97] := 3 ]}.
Proof.
  split_and!; [done|simpl; lia|done|done| |].
  - intros name i j k l. rewrite !dir_fs_has. lia.
  - intros name ino. setoid_rewrite dir_fs_has. rewrite lookup_singleton_Some. naive_solver.
Qed.

(** C23: On a disk that reports no errors, [sfs_dir_findname] is lookup in the
    map the directory represents: it
    returns 0 with the inode number and the slot of the name, or ENOENT when
    the name is not there, and changes nothing on the disk. *)
Theorem sfs_dir_findname_lookup p v s used m name mem :
  fs_ok s used → sfs_heap s !! p = Some v → inode_ok s used (sv_i v) → dir_rep s v m →
  wp (sfs_dir_findname p name)
     (λ '(r, f) w', reads_to s (wst w') (lh_space (sfs_device s)) ∧
        match m !! name with
        | Some ino => r = 0 ∧ ∃ k, f_entry f = Some (ino, k) ∧ dir_has s v name ino k
        | None => r = ENOENT ∧ f_entry f = None
        end) (World s mem).
Proof.
  intros Hok Hp Hi Hd. eapply sfs_dir_findname_spec; [done|exact Hok|exact Hp|exact Hi|exact Hd|].
  intros r f s' Hr [_ Hres]. by split.
Qed.

Lemma sfs_dir_findname_lookup_witness :
  wp (sfs_dir_findname 1%positive [97])
     (λ '(r, f) w', reads_to dir_fs (wst w') (USpace None ∅) ∧
        r = 0 ∧ ∃ k, f_entry f = Some (3, k) ∧ dir_has dir_fs dir_vnode [97] 3 k) (World dir_fs []).
Proof.
  exact (sfs_dir_findname_lookup 1%positive dir_vnode dir_fs dir_used {[ [97] := 3 ]} [97] []
           dir_fs_ok eq_refl dir_inode_ok dir_fs_rep).
Defined.

(** C22: On a disk that reports no errors, [sfs_dir_link] is insertion.  A name that is there already gives
    EEXIST, one of more than 59 bytes ENAMETOOLONG; otherwise the entry is
    added and everything else in the directory stays, or the directory is
    unchanged and the result is EINVAL (all 1144 slots in use) or ENOSPC. *)
Theorem sfs_dir_link_inserts p v s used m name ino mem :
  fs_ok s used → sfs_heap s !! p = Some v → inode_ok s used (sv_i v) → dir_rep s v m →
  name_ok name → 0 < ino < 2 ^ 32 →
  wp (sfs_dir_link p name ino)
     (λ '(r, slot) w', link_result p v s used m name ino r slot (wst w')) (World s mem).
Proof.
  intros Hok Hp Hi Hd Hname Hino.
  eapply (sfs_dir_link_spec p v s used m name ino); [done|exact Hok|exact Hp|exact Hi|exact Hd|done|done|].
  intros r slot s' Hres. exact Hres.
Qed.

Lemma sfs_dir_link_inserts_witness :
  wp (sfs_dir_link 1%positive [98] 5)
     (λ '(r, slot) w', link_result 1%positive dir_vnode dir_fs dir_used {[ [97] := 3 ]} [98] 5 r slot (wst w'))
     (World dir_fs []).
Proof.
  apply (sfs_dir_link_inserts 1%positive dir_vnode dir_fs dir_used {[ [97] := 3 ]} [98] 5 []
           dir_fs_ok eq_refl dir_inode_ok dir_fs_rep); [|lia].
  apply Forall_cons_2; [lia|apply Forall_nil_2].
Defined.

(** C24: On a disk that reports no errors, [sfs_dir_unlink] of the slot that
    holds a name is deletion of the name; it fails only with ENOSPC, and then the directory is unchanged. *)
Theorem sfs_dir_unlink_deletes p v s used m name ino k mem :
  fs_ok s used → sfs_heap s !! p = Some v → inode_ok s used (sv_i v) → dir_rep s v m →
  dir_has s v name ino k →
  wp (sfs_dir_unlink p k)
     (λ r w', (r = 0 ∧ dir_step p v s used (delete name m) (wst w')) ∨
              (r = ENOSPC ∧ dir_nospace p v s used m (wst w'))) (World s mem).
Proof.
  intros Hok Hp Hi Hd Hh.
  eapply (sfs_dir_unlink_spec p v s used m name ino k); [done|exact Hok|exact Hp|exact Hi|exact Hd|exact Hh|].
  intros r s' Hres. exact Hres.
Qed.

Lemma sfs_dir_unlink_deletes_witness :
  wp (sfs_dir_unlink 1%positive 0)
     (λ r w', (r = 0 ∧ dir_step 1%positive dir_vnode dir_fs dir_used (delete [97] {[ [97] := 3 ]}) (wst w')) ∨
              (r = ENOSPC ∧ dir_nospace 1%positive dir_vnode dir_fs dir_used {[ [97] := 3 ]} (wst w')))
     (World dir_fs []).
Proof.
  apply (sfs_dir_unlink_deletes 1%positive dir_vnode dir_fs dir_used {[ [97] := 3 ]} [97] 3 0 []
           dir_fs_ok eq_refl dir_inode_ok dir_fs_rep). by apply dir_fs_has.
Defined.
