(* ===== verification/SfsTable.v ===== *)
(** * SFS: the table of loaded vnodes

    [table_ok s used ps]: the table holds exactly the pointers [ps], each to
    a vnode in the heap, no two of them for the same inode, and every loaded
    inode is in an allocated block.  [sfs_loadvnode] and [sfs_reclaim] keep
    it. *)

From S2P Require Import Prelude Array Bitmap CopyInOut Uio Lhd SfsDisk SfsFile SfsInv SfsIo SfsTrunc SfsVnode.

Definition MAXREF : Z := 2 ^ 31 - 1.

Record table_ok (s : sfs_fs) (used : gset Z) (ps : list loc) : Prop := TableOk {
  tb_array : array_rep (sfs_vnodes s) (Some <$> ps);
  tb_nodup : NoDup ps;
  tb_heap : ∀ p, p ∈ ps ↔ is_Some (sfs_heap s !! p);
  tb_ino : ∀ p v, sfs_heap s !! p = Some v → block_ok s used (sv_ino v);
  tb_ref : ∀ p v, sfs_heap s !! p = Some v → 1 ≤ vn_refcount v;
  tb_open : ∀ p v, sfs_heap s !! p = Some v → 0 ≤ vn_opencount v;
  tb_unique : ∀ p q v u, sfs_heap s !! p = Some v → sfs_heap s !! q = Some u →
                sv_ino v = sv_ino u → p = q
}.

(** ** Table accesses *)

Lemma vnodes_num_spec s used ps (Q : Z → world sfs_fs → Prop) w :
  wst w = s → table_ok s used ps → Q (Z.of_nat (length ps)) w → wp (on_vnodes array_getnum) Q w.
Proof.
  intros Hw [(Hnum & _) _ _ _ _ _ _] HQ. unfold on_vnodes, array_getnum. kstep. rewrite Hw, Hnum, length_fmap.
  destruct w as [s0 m]; simpl in *; subst s0. by replace (set_vnodes (sfs_vnodes s) s) with s by by destruct s.
Qed.

Lemma vnodes_get_spec s used ps i p (Q : loc → world sfs_fs → Prop) w :
  wst w = s → table_ok s used ps → lget ps i = Some p → Q p w → wp (on_vnodes (array_getguy i)) Q w.
Proof.
  intros Hw [Ha _ _ _ _ _ _] Hi HQ. pose proof (lget_Some_range _ _ _ Hi) as Hr. unfold on_vnodes. kstep. rewrite Hw.
  eapply array_getguy_spec; [done|exact Ha| |].
  { rewrite lget_lookup in Hi by lia. rewrite lget_lookup by lia. by rewrite list_lookup_fmap, Hi. }
  destruct w as [s0 m]; simpl in *; subst s0. by replace (set_vnodes (sfs_vnodes s) s) with s by by destruct s.
Qed.

Lemma table_lookup s used ps i p :
  table_ok s used ps → lget ps i = Some p → ∃ v, sfs_heap s !! p = Some v.
Proof.
  intros Ht Hi. pose proof (lget_Some_range _ _ _ Hi). rewrite lget_lookup in Hi by lia.
  apply (tb_heap _ _ _ Ht). by eapply list_elem_of_lookup_2.
Qed.

Lemma table_index s used ps p :
  table_ok s used ps → is_Some (sfs_heap s !! p) → ∃ i, 0 ≤ i < Z.of_nat (length ps) ∧ lget ps i = Some p.
Proof.
  intros Ht Hp. apply (tb_heap _ _ _ Ht) in Hp. apply list_elem_of_lookup_1 in Hp as [i Hi].
  exists (Z.of_nat i). rewrite lget_of_nat. split; [apply lookup_lt_Some in Hi; lia|done].
Qed.

Lemma sfs_bused_spec s used b (Q : Z → world sfs_fs → Prop) w :
  wst w = s → fs_ok s used → block_ok s used b → (∀ r, r ≠ 0 → Q r w) → wp (sfs_bused b) Q w.
Proof.
  intros Hw Hok [Hu Hb] HQ. unfold sfs_bused, on_map. kstep. rewrite Hw.
  change (sp_nblocks (sfs_sb s)) with (nblocks s). rewrite (proj2 (Z.leb_gt _ _)) by lia. kstep.
  pose proof Hok as (_ & _ & Hbm & _ & _ & Hnb & _).
  eapply bitmap_isset_spec; [simpl; by rewrite Hw|done|lia|]. intros r Hr. kstep.
  destruct w as [s0 m]; simpl in *. subst s0.
  replace (set_freemap (sfs_freemap s) s) with s by by destruct s. apply HQ. by apply Hr.
Qed.

(** Replacing the structure behind a pointer, for the same inode. *)
Lemma table_set s used ps p v v' :
  table_ok s used ps → sfs_heap s !! p = Some v → sv_ino v' = sv_ino v → 1 ≤ vn_refcount v' →
  0 ≤ vn_opencount v' → table_ok (set_heap (<[p := v']> (sfs_heap s)) s) used ps.
Proof.
  intros [Ha Hnd Hh Hi Hr Ho Hu] Hp Hino Href Hopen. split; try done; simpl.
  - intros q. rewrite Hh. destruct (decide (p = q)) as [->|].
    + rewrite lookup_insert_eq, Hp. split; by eexists.
    + by rewrite lookup_insert_ne.
  - intros q u. destruct (decide (p = q)) as [->|].
    + rewrite lookup_insert_eq. intros [= <-]. rewrite Hino. by eapply Hi.
    + rewrite lookup_insert_ne by done. apply Hi.
  - intros q u. destruct (decide (p = q)) as [->|].
    + rewrite lookup_insert_eq. by intros [= <-].
    + rewrite lookup_insert_ne by done. apply Hr.
  - intros q u. destruct (decide (p = q)) as [->|].
    + rewrite lookup_insert_eq. by intros [= <-].
    + rewrite lookup_insert_ne by done. apply Ho.
  - intros a b x y. rewrite !lookup_insert_Some.
    intros [[<- <-]|[? Hx]] [[<- <-]|[? Hy]] He; try done; [| |by eapply Hu].
    + eapply Hu; [exact Hp|exact Hy|congruence].
    + eapply Hu; [exact Hx|exact Hp|congruence].
Qed.

(** ** Loading *)

(** The inode of a block on the disk, with the type a creation forces. *)
Definition disk_inode (s : sfs_fs) (ino forcetype : Z) : sfs_inode :=
  let i := dec_inode (sec (sectors s) ino) in
  if forcetype =? SFS_TYPE_INVAL then i else
  SfsInode (sfi_size i) (u16 forcetype) (sfi_linkcount i) (sfi_direct i) (sfi_indirect i) (sfi_waste i).

(** The inode can be loaded: creation finds a block that holds no object. *)
Definition loadable (s : sfs_fs) (ino forcetype : Z) : Prop :=
  (forcetype = SFS_TYPE_INVAL ∨ sfi_type (dec_inode (sec (sectors s) ino)) = SFS_TYPE_INVAL) ∧
  (sfi_type (disk_inode s ino forcetype) = SFS_TYPE_FILE ∨ sfi_type (disk_inode s ino forcetype) = SFS_TYPE_DIR).

(** The vnode [sfs_loadvnode] builds. *)
Definition loaded_vnode (s : sfs_fs) (ino forcetype : Z) : sfs_vnode :=
  let i := disk_inode s ino forcetype in
  SfsVnode 1 0 (if sfi_type i =? SFS_TYPE_FILE then sfs_fileops else sfs_dirops) i ino
           (negb (forcetype =? SFS_TYPE_INVAL)).

Definition not_loaded (s : sfs_fs) (ino : Z) : Prop :=
  ∀ p v, sfs_heap s !! p = Some v → sv_ino v ≠ ino.

(** The state after loading at [p]. *)
Definition load_state (s : sfs_fs) (ino forcetype : Z) (p : loc) (a : array loc) : sfs_fs :=
  set_heap (<[p := loaded_vnode s ino forcetype]> (sfs_heap s))
           (set_vnodes a (touched s (sec (sectors s) ino))).

Lemma table_load s used ps ino forcetype p a :
  table_ok s used ps → block_ok s used ino → not_loaded s ino → sfs_heap s !! p = None →
  array_rep a ((Some <$> ps) ++ [Some p]) →
  table_ok (load_state s ino forcetype p a) used (ps ++ [p]).
Proof.
  intros [Ha Hnd Hh Hi Hr Ho Hu] Hb Hnl Hp Ha'. split; simpl.
  - by rewrite fmap_app.
  - apply NoDup_app. split_and!; [done| |apply NoDup_singleton]. intros q Hq Hq'%list_elem_of_singleton. subst q.
    apply Hh in Hq. rewrite Hp in Hq. by destruct Hq.
  - intros q. rewrite elem_of_app, list_elem_of_singleton, Hh. destruct (decide (p = q)) as [->|].
    + rewrite lookup_insert_eq. split; [by eexists|by right].
    + rewrite lookup_insert_ne by done. naive_solver.
  - intros q u. rewrite lookup_insert_Some. intros [[_ <-]|[_ Hq]]; [done|by eapply Hi].
  - intros q u. rewrite lookup_insert_Some. intros [[_ <-]|[_ Hq]]; [done|by eapply Hr].
  - intros q u. rewrite lookup_insert_Some. intros [[_ <-]|[_ Hq]]; [done|by eapply Ho].
  - intros x y u1 u2. rewrite !lookup_insert_Some. intros [[<- <-]|[_ Hx]] [[<- <-]|[_ Hy]] He; [done| | |by eapply Hu].
    + by destruct (Hnl _ _ Hy).
    + by destruct (Hnl _ _ Hx).
Qed.

Lemma lock_create_spec {S} (Q : bool → world S → Prop) w :
  (∀ m, m `suffix_of` wmem w → false ∈ wmem w → Q false (World (wst w) m)) →
  (∀ m, m `suffix_of` wmem w → Q true (World (wst w) m)) →
  wp lock_create_ok Q w.
Proof.
  intros HQ1 HQ2. unfold lock_create_ok. kstep. apply wp_kmalloc; [intros m Hm|intros m Hf Hm]; kstep.
  - apply wp_kmalloc; [intros m' Hm'|intros m' Hf Hm']; simpl in *.
    + apply HQ2. by etrans.
    + apply HQ1; [by etrans|]. by eapply pending_suffix.
  - by apply HQ1.
Qed.

Lemma sfs_loadnew_spec s used ps ino ft (Q : Z * option loc → world sfs_fs → Prop) w :
  wst w = s → fs_ok s used → table_ok s used ps → block_ok s used ino → not_loaded s ino →
  Z.of_nat (length ps) < ARRAY_LIMIT → loadable s ino ft →
  (∀ x m, false ∈ wmem w → Z.of_nat (length x) = SFS_BLOCKSIZE →
     Q (ENOMEM, None) (World (touched s x) m)) →
  (∀ p a m, sfs_heap s !! p = None →
     let s' := load_state s ino ft p a in
     table_ok s' used (ps ++ [p]) → Q (0, Some p) (World s' m)) →
  wp (sfs_loadnew ino ft) Q w.
Proof.
  intros Hw Hok Ht Hb Hnl Hlen [Hfree Hty] HQ1 HQ2. unfold sfs_loadnew. kstep.
  pose proof Hok as (Hh & _ & _ & _ & Hn & _). pose proof Hh as [(_ & _ & Hbuf & _) _].
  apply wp_kmalloc; [intros m1 Hm1|intros m1 Hf1 Hm1]; rewrite Hw; kstep.
  2:{ rewrite <- (touched_self s used Hok). by apply HQ1. }
  unfold new_loc. kstep. set (p := fresh (dom (sfs_heap s))).
  assert (sfs_heap s !! p = None) as Hp by (apply not_elem_of_dom, is_fresh).
  eapply (sfs_bused_spec s used); [done|exact Hok|exact Hb|]. intros r Hr. kstep.
  rewrite (proj2 (Z.eqb_neq _ _)) by done. kstep. unfold on_dev. kstep. destruct Hb as [Hbu Hb].
  destruct (fs_ok_sec s used ino) as [Hsl Hswf]; [done|lia|]. pose proof (block_wf_length _ Hswf) as Hxl.
  eapply sfs_rblock_ok; [exact Hh|simpl; lia|done|exact Hsl|]. kstep.
  change (World (set_device _ s) m1) with (World (touched s (sec (sectors s) ino)) m1).
  set (s1 := touched s (sec (sectors s) ino)). set (i := dec_inode (sec (sectors s) ino)).
  eapply (wp_mono _ (λ a w', a = (disk_inode s ino ft, negb (ft =? SFS_TYPE_INVAL)) ∧ w' = World s1 m1)).
  { unfold disk_inode. fold i. destruct (Z.eqb_spec ft SFS_TYPE_INVAL); kstep; [done|].
    destruct Hfree as [|Hfree]; [done|]. rewrite wp_kassert by by apply Z.eqb_eq. by kstep. }
  intros a w' [-> ->]. kstep.
  eapply (wp_mono _ (λ o w', o = vn_ops (loaded_vnode s ino ft) ∧ w' = World s1 m1)).
  { unfold loaded_vnode; simpl. destruct (Z.eqb_spec (sfi_type (disk_inode s ino ft)) SFS_TYPE_FILE); kstep; [done|].
    destruct Hty as [|Hty]; [done|]. rewrite Hty. by kstep. }
  intros o w' [-> ->]. unfold vnode_init. kstep.
  apply lock_create_spec; [intros m2 Hm2 Hf2|intros m2 Hm2]; kstep; simpl in *.
  { apply HQ1; [by eapply pending_suffix|done]. }
  change (SfsVnode 1 0 _ _ ino _) with (loaded_vnode s ino ft).
  unfold on_vnodes. kstep. destruct Ht as [Ha Hnd Hhp Hi Hr' Ho Hu].
  eapply array_add_spec; [done|exact Ha| | |].
  { destruct Ha as (Hnum & _). simpl. rewrite Hnum, length_fmap. lia. }
  - intros m3 _ Hf3 _. unfold vnode_kill. kstep. rewrite wp_kassert by done. kstep. rewrite wp_kassert by done. kstep.
    replace (set_vnodes (sfs_vnodes s1) s1) with s1 by done.
    apply HQ1; [by eapply pending_suffix; [exact Hm1|]; eapply pending_suffix|done].
  - intros a m3 Ha' _ _. kstep. unfold setsv. kstep.
    apply (HQ2 p a m3 Hp). apply table_load; [by split|by split|done|done|done].
Qed.

(** One probe of the table. *)
Lemma load_probe s used ps ino ft i (Q : unit + loc → world sfs_fs → Prop) w :
  wst w = s → fs_ok s used → table_ok s used ps → 0 ≤ i < Z.of_nat (length ps) →
  (∀ p v, sfs_heap s !! p = Some v → sv_ino v = ino → ft = SFS_TYPE_INVAL ∧ vn_refcount v < MAXREF) →
  (∀ p v, lget ps i = Some p → sfs_heap s !! p = Some v → sv_ino v ≠ ino → Q (inl tt) w) →
  (∀ p v, sfs_heap s !! p = Some v → sv_ino v = ino →
     Q (inr p) (World (set_heap (<[p := set_refcount (vn_refcount v + 1) v]> (sfs_heap s)) s) (wmem w))) →
  wp (p ← on_vnodes (array_getguy i);
      sv ← getsv p;
      used ← sfs_bused (sv_ino sv);
      if used =? 0 then kpanic else
      if sv_ino sv =? ino then
        kassert (ft =? SFS_TYPE_INVAL);;
        vnode_incref p;;
        mret (inr p)
      else mret (inl tt)) Q w.
Proof.
  intros Hw Hok Ht Hi Href HQ1 HQ2. kstep. destruct (lget_is_Some ps i Hi) as [p Hp].
  destruct (table_lookup _ _ _ _ _ Ht Hp) as [v Hv].
  eapply (vnodes_get_spec s used ps i p); [done|done|done|]. kstep. eapply wp_getsv; [by rewrite Hw|]. kstep.
  eapply (sfs_bused_spec s used); [done|done|by eapply tb_ino|]. intros r Hr. kstep.
  rewrite (proj2 (Z.eqb_neq _ _)) by done.
  destruct (Z.eqb_spec (sv_ino v) ino) as [He|He]; kstep; [|by eapply HQ1].
  destruct (Href p v Hv He) as [-> Hlt]. rewrite wp_kassert by done. kstep.
  unfold vnode_incref, setsv. kstep. eapply wp_getsv; [by rewrite Hw|]. kstep.
  pose proof (tb_ref _ _ _ Ht p v Hv). unfold MAXREF in Hlt. rewrite i32_id by lia. rewrite Hw. by apply HQ2.
Qed.

Lemma sfs_loadvnode_spec s used ps ino ft (Q : Z * option loc → world sfs_fs → Prop) w :
  wst w = s → fs_ok s used → table_ok s used ps → block_ok s used ino →
  Z.of_nat (length ps) < ARRAY_LIMIT →
  (∀ p v, sfs_heap s !! p = Some v → sv_ino v = ino → ft = SFS_TYPE_INVAL ∧ vn_refcount v < MAXREF) →
  (not_loaded s ino → loadable s ino ft) →
  (∀ p v, sfs_heap s !! p = Some v → sv_ino v = ino →
     Q (0, Some p) (World (set_heap (<[p := set_refcount (vn_refcount v + 1) v]> (sfs_heap s)) s) (wmem w))) →
  (∀ x m, not_loaded s ino → false ∈ wmem w → Z.of_nat (length x) = SFS_BLOCKSIZE →
     Q (ENOMEM, None) (World (touched s x) m)) →
  (∀ p a m, not_loaded s ino → sfs_heap s !! p = None →
     let s' := load_state s ino ft p a in
     table_ok s' used (ps ++ [p]) → Q (0, Some p) (World s' m)) →
  wp (sfs_loadvnode ino ft) Q w.
Proof.
  intros Hw Hok Ht Hb Hlen Href Hload HQ1 HQ2 HQ3. unfold sfs_loadvnode. kstep.
  eapply (vnodes_num_spec s used ps); [done|done|]. kstep. rewrite Nat2Z.id.
  apply (wp_kfind (λ i _ w', w' = w ∧ ∀ j p v, 0 ≤ j < i → lget ps j = Some p → sfs_heap s !! p = Some v →
                               sv_ino v ≠ ino)).
  - split; [done|]. intros; lia.
  - intros i [] w' Hir [-> Hprev].
    eapply (load_probe s used ps ino ft i); [done|done|done|lia|done| |].
    + intros p v Hp Hv Hne. split; [done|]. intros j q u Hj Hq Hu.
      destruct (decide (j = i)) as [->|]; [by simplify_eq|]. eapply Hprev; [|done|done]. lia.
    + intros p v Hv He. kstep. by apply HQ1.
  - intros [] w' [-> Hall]. kstep.
    assert (not_loaded s ino) as Hnl.
    { intros p v Hv. destruct (table_index _ _ _ p Ht) as (i & Hi & Hpi); [by eexists|].
      eapply Hall; [|done|done]. lia. }
    eapply (sfs_loadnew_spec s used ps); [done|done|done|done|done|done|by apply Hload| |].
    + intros x m Hf Hx. by apply HQ2.
    + intros p a m Hp s' Ht'. by apply HQ3.
Qed.

(** ** Releasing *)

(** The vnode leaves the table and its structure is freed. *)
Lemma sfs_forget_spec s used used' ps p v (Q : Z → world sfs_fs → Prop) w :
  wst w = s → table_ok s used ps → sfs_heap s !! p = Some v →
  vn_refcount v = 1 → vn_opencount v = 0 →
  (∀ q u, q ≠ p → sfs_heap s !! q = Some u → sv_ino u ∈ used → sv_ino u ∈ used') →
  (∀ a ps', let s' := set_heap (delete p (sfs_heap s)) (set_vnodes a s) in
     table_ok s' used' ps' → (∀ q, q ∈ ps' ↔ q ∈ ps ∧ q ≠ p) → Q 0 (World s' (wmem w))) →
  wp (sfs_forget p) Q w.
Proof.
  intros Hw Ht Hp Hr Ho Hused HQ. unfold sfs_forget. kstep.
  eapply (vnodes_num_spec s used ps); [done|done|]. kstep. rewrite Nat2Z.id.
  apply (wp_kfind (λ i _ w', w' = w ∧ ∀ j, 0 ≤ j < i → lget ps j ≠ Some p)).
  - split; [done|]. intros; lia.
  - intros i [] w' Hir [-> Hprev]. destruct (lget_is_Some ps i) as [q Hq]; [lia|]. kstep.
    eapply (vnodes_get_spec s used ps i q); [done|done|done|]. kstep.
    destruct (decide (q = p)) as [->|Hne].
    + rewrite bool_decide_eq_true_2 by done. kstep. unfold on_vnodes. kstep. rewrite Hw.
      destruct Ht as [Ha Hnd Hhp Hi Hrf Hop Hu].
      eapply array_remove_spec; [done|exact Ha|rewrite length_fmap; lia|]. intros a Ha' _. kstep.
      eapply wp_getsv; [exact Hp|]. unfold vnode_kill. kstep.
      rewrite wp_kassert by by apply Z.eqb_eq. kstep. rewrite wp_kassert by by apply Z.eqb_eq. kstep.
      rewrite lget_lookup in Hq by lia. pose proof (delete_Permutation _ _ _ Hq) as Hperm.
      assert (∀ r, r ∈ delete (Z.to_nat i) ps ↔ r ∈ ps ∧ r ≠ p) as Hin.
      { intros r. rewrite Hperm in Hnd. apply NoDup_cons in Hnd as [Hnp _]. rewrite Hperm at 2.
        rewrite elem_of_cons. naive_solver. }
      eapply (HQ a (delete (Z.to_nat i) ps)); [|done]. split; simpl.
      * by rewrite list_fmap_delete.
      * rewrite Hperm in Hnd. by apply NoDup_cons in Hnd as [_ ?].
      * intros r. rewrite Hin, Hhp, lookup_delete_is_Some. naive_solver.
      * intros r u [Hrp Hru]%lookup_delete_Some. destruct (Hi _ _ Hru). split; [|done]. by eapply Hused.
      * intros r u [_ Hru]%lookup_delete_Some. by eapply Hrf.
      * intros r u [_ Hru]%lookup_delete_Some. by eapply Hop.
      * intros x y u1 u2 [_ Hx]%lookup_delete_Some [_ Hy]%lookup_delete_Some. by eapply Hu.
    + rewrite bool_decide_eq_false_2 by done. kstep. split; [done|]. intros j Hj.
      destruct (decide (j = i)) as [->|]; [congruence|]. apply Hprev. lia.
  - intros [] w' [-> Hall]. destruct (table_index _ _ _ p Ht) as (i & Hi & Hpi); [by eexists|].
    by destruct (Hall i Hi).
Qed.

(** Writing an inode back. *)
Definition synced (s : sfs_fs) (p : loc) (v : sfs_vnode) : sfs_fs :=
  if sv_dirty v then
    set_heap (<[p := set_dirty false v]> (sfs_heap s)) (wrote s (sv_ino v) (enc_inode (sv_i v)))
  else s.

Lemma sfs_sync_inode_spec s used p v (Q : Z → world sfs_fs → Prop) w :
  wst w = s → fs_ok s used → sfs_heap s !! p = Some v → inode_wf (sv_i v) → block_ok s used (sv_ino v) →
  Q 0 (World (synced s p v) (wmem w)) → wp (sfs_sync_inode p) Q w.
Proof.
  intros Hw Hok Hp Hwf [_ Hb] HQ. unfold sfs_sync_inode, synced in *. kstep.
  eapply wp_getsv; [by rewrite Hw|]. kstep.
  destruct (sv_dirty v); kstep; [|destruct w; simpl in *; by subst].
  unfold on_dev. kstep. rewrite Hw. pose proof Hok as (Hh & _ & _ & _ & Hn & _).
  apply sfs_wblock_ok; [done|simpl; lia|by apply block_wf_length, enc_inode_block|]. kstep.
  eapply wp_getsv; [exact Hp|]. unfold setsv. kstep. exact HQ.
Qed.

Lemma fs_ok_heap s used h : fs_ok s used → fs_ok (set_heap h s) used.
Proof. intros H. exact H. Qed.

Lemma synced_ok s used p v : fs_ok s used → inode_wf (sv_i v) → fs_ok (synced s p v) used.
Proof.
  intros Hok Hwf. unfold synced. destruct (sv_dirty v); [|done].
  apply fs_ok_heap, fs_ok_wrote; [done|by apply enc_inode_block].
Qed.

Lemma synced_heap s p v :
  sfs_heap s !! p = Some v → sfs_heap (synced s p v) = <[p := set_dirty false v]> (sfs_heap s).
Proof.
  intros Hp. unfold synced. destruct (sv_dirty v) eqn:Hd; [done|]. symmetry. apply insert_id.
  rewrite Hp. f_equal. destruct v. simpl in *. by subst.
Qed.

Lemma synced_base s p v : same_base s (synced s p v) ∧ sfs_freemap (synced s p v) = sfs_freemap s ∧
  sfs_freemapdirty (synced s p v) = sfs_freemapdirty s ∧ same_space s (synced s p v).
Proof. unfold synced. by destruct (sv_dirty v). Qed.

Lemma synced_sec s used p v b :
  fs_ok s used → block_ok s used (sv_ino v) → b ≠ sv_ino v → sec (sectors (synced s p v)) b = sec (sectors s) b.
Proof.
  intros Hok [_ Hi] Hb. unfold synced. destruct (sv_dirty v); [|done].
  change (sectors (set_heap ?h ?x)) with (sectors x). unfold wrote, sectors; simpl.
  apply sec_write_ne; [lia|done].
Qed.

(** The inode on the disk is the one in memory. *)
Lemma synced_inode s used p v :
  fs_ok s used → block_ok s used (sv_ino v) → inode_wf (sv_i v) →
  (sv_dirty v = false → dec_inode (sec (sectors s) (sv_ino v)) = sv_i v) →
  dec_inode (sec (sectors (synced s p v)) (sv_ino v)) = sv_i v.
Proof.
  intros Hok [_ Hb] Hwf Hclean. unfold synced. destruct (sv_dirty v); [|by apply Hclean].
  change (sectors (set_heap ?h ?x)) with (sectors x). unfold wrote, sectors; simpl.
  rewrite sec_write_eq; [by apply dec_enc_inode|].
  change (lh_sectors (sfs_device s)) with (sectors s). rewrite (length_sectors s used Hok).
  destruct Hok as (_ & _ & _ & _ & Hn & _). lia.
Qed.

Lemma synced_table s used ps p v :
  table_ok s used ps → sfs_heap s !! p = Some v → table_ok (synced s p v) used ps.
Proof.
  intros Ht Hp. unfold synced. destruct (sv_dirty v); [|done].
  destruct (table_set s used ps p v (set_dirty false v) Ht Hp eq_refl (tb_ref _ _ _ Ht p v Hp)
              (tb_open _ _ _ Ht p v Hp)).
  by split.
Qed.

Lemma vnode_check_spec s p v b (Q : unit → world sfs_fs → Prop) w :
  wst w = s → sfs_heap s !! p = Some v → 1 ≤ vn_refcount v → 0 ≤ vn_opencount v → Q tt w →
  wp (vnode_check p b) Q w.
Proof.
  intros Hw Hp Hr Ho HQ. unfold vnode_check. kstep. eapply wp_getsv; [by rewrite Hw|]. kstep.
  rewrite (proj2 (Z.ltb_ge _ _)), (proj2 (Z.eqb_neq _ _)), (proj2 (Z.ltb_ge (vn_opencount v) 0)) by lia.
  simpl. by kstep.
Qed.

(** A file that still has a name is written back and forgotten. *)
Lemma sfs_reclaim_linked s used ps p v (Q : Z → world sfs_fs → Prop) w :
  wst w = s → fs_ok s used → table_ok s used ps → sfs_heap s !! p = Some v → inode_wf (sv_i v) →
  vn_refcount v = 1 → vn_opencount v = 0 → sfi_linkcount (sv_i v) ≠ 0 →
  (∀ a ps', let s' := set_heap (delete p (sfs_heap s)) (set_vnodes a (synced s p v)) in
     fs_ok s' used → table_ok s' used ps' → (∀ q, q ∈ ps' ↔ q ∈ ps ∧ q ≠ p) →
     Q 0 (World s' (wmem w))) →
  wp (sfs_reclaim p) Q w.
Proof.
  intros Hw Hok Ht Hp Hwf Hr Ho Hl HQ. unfold sfs_reclaim. kstep. eapply wp_getsv; [by rewrite Hw|]. kstep.
  rewrite Hr. kstep. rewrite (proj2 (Z.eqb_neq _ _)) by done. kstep.
  eapply (sfs_sync_inode_spec s used p v); [done|done|done|done|by eapply tb_ino|]. kstep.
  pose proof (synced_heap s p v Hp) as Hh.
  eapply wp_getsv; [simpl; by rewrite Hh, lookup_insert_eq|]. kstep.
  change (sfi_linkcount (sv_i (set_dirty false v))) with (sfi_linkcount (sv_i v)).
  rewrite (proj2 (Z.eqb_neq _ _)) by done. kstep.
  eapply (sfs_forget_spec (synced s p v) used used ps p (set_dirty false v)); [done|by apply synced_table|
    by rewrite Hh, lookup_insert_eq|done|done|done|].
  intros a ps' s' Ht' Hin.
  assert (s' = set_heap (delete p (sfs_heap s)) (set_vnodes a (synced s p v))) as ->.
  { unfold s'. by rewrite Hh, delete_insert_eq. }
  apply (HQ a ps'); [|done|done]. exact (synced_ok s used p v Hok Hwf).
Qed.

(** No block of the file is the inode block of a loaded vnode. *)
Definition apart (s : sfs_fs) (v : sfs_vnode) : Prop :=
  ∀ q u, sfs_heap s !! q = Some u → ¬ owned (sectors s) (sv_i v) (sv_ino u).

(** The table through a truncation. *)
Lemma tstep_table s used ps p v v' s' used' :
  table_ok s used ps → sfs_heap s !! p = Some v → apart s v →
  tstep p v s used v' s' used' → table_ok s' used' ps.
Proof.
  intros Ht Hp Hap [Hok Hbase _ Hheap _ Hv _ Hused _ _].
  pose proof (table_set s used ps p v v' Ht Hp) as Ht'.
  destruct Hv as (Hrc & Hoc & _ & Hino & _). destruct Ht' as [Ha Hnd Hh Hi Hr Ho Hu]; [done| | |].
  { rewrite Hrc. by eapply tb_ref. } { rewrite Hoc. by eapply tb_open. }
  destruct Hbase as (Hsb & _ & Hvn & _).
  split; rewrite ?Hvn, ?Hheap; try done.
  intros q u Hq. destruct (Hi q u Hq) as [Hin Hb]. split; [|unfold nblocks in *; by rewrite Hsb].
  apply Hused. split; [done|]. intros Hown. exfalso.
  destruct (decide (q = p)) as [->|].
  - simpl in Hq. rewrite lookup_insert_eq in Hq. injection Hq as <-. rewrite Hino in Hown.
    by apply (Hap p v Hp).
  - simpl in Hq. rewrite lookup_insert_ne in Hq by done. by apply (Hap q u Hq).
Qed.

(** A file with no name left is erased: its blocks, its inode and its vnode. *)
Lemma sfs_reclaim_unlinked s used ps p v (Q : Z → world sfs_fs → Prop) w :
  wst w = s → fs_ok s used → table_ok s used ps → sfs_heap s !! p = Some v → inode_ok s used (sv_i v) →
  vn_ops v = sfs_fileops → vn_refcount v = 1 → vn_opencount v = 0 → sfi_linkcount (sv_i v) = 0 → apart s v →
  (∀ s' used' ps', fs_ok s' used' → table_ok s' used' ps' → (∀ q, q ∈ ps' ↔ q ∈ ps ∧ q ≠ p) →
     sfs_heap s' = delete p (sfs_heap s) →
     (∀ b, b ∈ used' ↔ b ∈ used ∧ b ≠ sv_ino v ∧ ¬ owned (sectors s) (sv_i v) b) →
     (∀ b, b ∈ used' → b ≠ 0 → sec (sectors s') b = sec (sectors s) b) →
     Q 0 (World s' (wmem w))) →
  wp (sfs_reclaim p) Q w.
Proof.
  intros Hw Hok Ht Hp Hi Hops Hr Ho Hl Hap HQ. unfold sfs_reclaim. kstep. eapply wp_getsv; [by rewrite Hw|]. kstep.
  rewrite Hr, Hl. kstep. unfold VOP_TRUNCATE. kstep.
  eapply (vnode_check_spec s p v); [done|done|lia|lia|]. kstep. eapply wp_getsv; [by rewrite Hw|]. kstep.
  rewrite Hops. eapply (sfs_truncate_spec p v s used 0); [done|done|done|done|lia|].
  intros v1 s1 used1 Hd. destruct (trunc_done_zero _ _ _ _ _ _ _ Hi Hd) as [_ Hu1].
  pose proof (td_step _ _ _ _ _ _ _ _ Hd) as Hst. pose proof (tstep_lookup _ _ _ _ _ _ _ Hst) as Hp1.
  pose proof (tstep_table s used ps p v v1 s1 used1 Ht Hp Hap Hst) as Ht1.
  pose proof Hst as [Hok1 Hbase1 _ Hheap1 Hi1 (Hv1 & Hv2 & Hv3 & Hv4 & Hv5 & Hv6 & Hv7) _ _ _ Hfr1]. kstep.
  pose proof (tb_ino _ _ _ Ht1 p v1 Hp1) as Hino1.
  eapply (sfs_sync_inode_spec s1 used1 p v1); [done|done|done|apply Hi1|done|]. kstep.
  pose proof (synced_heap s1 p v1 Hp1) as Hh2. set (s2 := synced s1 p v1) in *.
  eapply wp_getsv; [simpl; by rewrite Hh2, lookup_insert_eq|]. kstep.
  change (sfi_linkcount (sv_i (set_dirty false v1))) with (sfi_linkcount (sv_i v1)). rewrite Hv6, Hl. kstep.
  assert (fs_ok s2 used1) as Hok2 by (apply synced_ok; [done|apply Hi1]).
  assert (table_ok s2 used1 ps) as Ht2 by by apply synced_table.
  destruct (synced_base s1 p v1) as ((Hsb2 & _) & _). fold s2 in Hsb2.
  eapply (sfs_bfree_spec s2 used1); [done|done| |].
  { change (sv_ino (set_dirty false v1)) with (sv_ino v1). unfold block_ok, nblocks in *. by rewrite Hsb2. }
  intros bm s3 Hok3. kstep. change (sv_ino (set_dirty false v1)) with (sv_ino v1) in *. rewrite Hv4 in *.
  eapply (sfs_forget_spec s3 used1 (used1 ∖ {[sv_ino v]}) ps p (set_dirty false v1)).
  { done. } { destruct Ht2. by split. } { simpl. by rewrite Hh2, lookup_insert_eq. }
  { simpl. congruence. } { simpl. congruence. }
  { intros q u Hqp Hq Hin. apply elem_of_difference. split; [done|]. rewrite elem_of_singleton. intros He.
    destruct Hqp. eapply (tb_unique _ _ _ Ht2 q p u (set_dirty false v1)); [exact Hq|by rewrite Hh2, lookup_insert_eq|].
    simpl. congruence. }
  intros a ps' s' Ht' Hin. eapply (HQ s' (used1 ∖ {[sv_ino v]}) ps'); [exact Hok3|done|done| | |].
  - unfold s'; simpl. by rewrite Hh2, Hheap1, insert_insert_eq, delete_insert_eq.
  - intros b. rewrite elem_of_difference, elem_of_singleton, Hu1. naive_solver.
  - intros b [Hb1 Hb2]%elem_of_difference Hb0. rewrite elem_of_singleton in Hb2.
    change (sectors s') with (sectors s2). unfold s2. rewrite (synced_sec s1 used1) by congruence.
    apply Hfr1; [done|]. intros ->. apply Hu1 in Hb1 as [_ Hno]. apply Hno. split; [done|by left].
Qed.

(** ** Theorems *)

(** C34: On a disk that reports no errors, [sfs_loadvnode] of an allocated
    inode keeps the table consistent and hands back the one vnode for that
    inode: the loaded one with one more reference, or a new one holding the
    inode that is on the disk.  It fails only with ENOMEM, after a [kmalloc]
    failure, and then changes nothing. *)
Theorem sfs_loadvnode_unique s used ps ino mem :
  fs_ok s used → table_ok s used ps → block_ok s used ino → Z.of_nat (length ps) < ARRAY_LIMIT →
  (∀ p v, sfs_heap s !! p = Some v → vn_refcount v < MAXREF) →
  (not_loaded s ino → loadable s ino SFS_TYPE_INVAL) →
  wp (sfs_loadvnode ino SFS_TYPE_INVAL)
     (λ '(r, o) w', ∃ ps', table_ok (wst w') used ps' ∧ fs_ok (wst w') used ∧
        sectors (wst w') = sectors s ∧
        ((r = ENOMEM ∧ o = None ∧ false ∈ mem ∧ sfs_heap (wst w') = sfs_heap s) ∨
         (r = 0 ∧ ∃ p v', o = Some p ∧ sfs_heap (wst w') = <[p := v']> (sfs_heap s) ∧ sv_ino v' = ino ∧
            match sfs_heap s !! p with
            | Some v => sv_ino v = ino ∧ v' = set_refcount (vn_refcount v + 1) v
            | None => not_loaded s ino ∧ v' = loaded_vnode s ino SFS_TYPE_INVAL
            end))) (World s mem).
Proof.
  intros Hok Ht Hb Hlen Href Hload.
  eapply (sfs_loadvnode_spec s used ps ino SFS_TYPE_INVAL); [done|done|done|done|done|by eauto|done| | |].
  - intros p v Hp He. exists ps. split; [|split; [exact Hok|split; [done|right]]].
    + apply (table_set s used ps p v); [done|done|done| |exact (tb_open _ _ _ Ht p v Hp)].
      pose proof (tb_ref _ _ _ Ht p v Hp). simpl. lia.
    + split; [done|]. exists p, (set_refcount (vn_refcount v + 1) v). simpl. by rewrite Hp.
  - intros x m Hnl Hf Hx. exists ps. split; [destruct Ht; by split|].
    split; [by apply fs_ok_touched|split; [done|left]]. done.
  - intros p a m Hnl Hp s' Ht'. exists (ps ++ [p]). split; [done|].
    split; [|split; [done|right]].
    + destruct (fs_ok_sec s used ino) as [_ Hwf]; [done|destruct Hb; lia|].
      exact (fs_ok_touched s used _ Hok (block_wf_length _ Hwf)).
    + split; [done|]. exists p, (loaded_vnode s ino SFS_TYPE_INVAL). by rewrite Hp.
Qed.

(** A table with one vnode. *)
Lemma single_heap (v0 : sfs_vnode) p v :
  ({[1%positive := v0]} : gmap loc sfs_vnode) !! p = Some v → p = 1%positive ∧ v = v0.
Proof. by intros [<- <-]%lookup_singleton_Some. Qed.

Lemma single_table s used v0 :
  sfs_vnodes s = Array 1 4 (Some [Some 1%positive; None; None; None]) →
  sfs_heap s = {[1%positive := v0]} → block_ok s used (sv_ino v0) → 1 ≤ vn_refcount v0 → 0 ≤ vn_opencount v0 →
  table_ok s used [1%positive].
Proof.
  intros Ha Hh Hb Hr Ho. split; rewrite ?Ha, ?Hh.
  - apply array_rep_intro; simpl; lia || done.
  - apply NoDup_singleton.
  - intros p. rewrite list_elem_of_singleton. split; [intros ->; by eexists|].
    intros [v Hv]. by apply single_heap in Hv as [-> _].
  - by intros p v [_ ->]%single_heap.
  - by intros p v [_ ->]%single_heap.
  - by intros p v [_ ->]%single_heap.
  - intros p q v u [-> _]%single_heap [-> _]%single_heap. done.
Qed.

Lemma tiny_table : table_ok tiny_fs {[0; 1; 2; 3]} [1%positive].
Proof. by apply (single_table _ _ tiny_vnode); [| |split; [set_solver|]| |]. Qed.

Lemma sfs_loadvnode_unique_witness :
  wp (sfs_loadvnode 3 SFS_TYPE_INVAL)
     (λ '(r, o) w', ∃ ps', table_ok (wst w') {[0; 1; 2; 3]} ps' ∧ fs_ok (wst w') {[0; 1; 2; 3]} ∧
        sectors (wst w') = sectors tiny_fs ∧
        ((r = ENOMEM ∧ o = None ∧ false ∈ [] ∧ sfs_heap (wst w') = sfs_heap tiny_fs) ∨
         (r = 0 ∧ ∃ p v', o = Some p ∧ sfs_heap (wst w') = <[p := v']> (sfs_heap tiny_fs) ∧ sv_ino v' = 3 ∧
            match sfs_heap tiny_fs !! p with
            | Some v => sv_ino v = 3 ∧ v' = set_refcount (vn_refcount v + 1) v
            | None => not_loaded tiny_fs 3 ∧ v' = loaded_vnode tiny_fs 3 SFS_TYPE_INVAL
            end))) (World tiny_fs []).
Proof.
  apply (sfs_loadvnode_unique tiny_fs {[0; 1; 2; 3]} [1%positive] 3 []);
    [exact tiny_ok|exact tiny_table|split; [set_solver|done]|done| |].
  - by intros p v [_ ->]%single_heap.
  - intros Hnl. by destruct (Hnl 1%positive tiny_vnode).
Defined.

(** when the last reference to a file with no name left goes,
    [sfs_reclaim] frees exactly the file's blocks and its inode, and nothing
    else; the vnode leaves the table, which stays consistent. *)
Theorem sfs_reclaim_erases s used ps p v mem :
  fs_ok s used → table_ok s used ps → sfs_heap s !! p = Some v → inode_ok s used (sv_i v) →
  vn_ops v = sfs_fileops → vn_refcount v = 1 → vn_opencount v = 0 → sfi_linkcount (sv_i v) = 0 → apart s v →
  wp (sfs_reclaim p)
     (λ r w', r = 0 ∧ ∃ used' ps', fs_ok (wst w') used' ∧ table_ok (wst w') used' ps' ∧
        (∀ q, q ∈ ps' ↔ q ∈ ps ∧ q ≠ p) ∧
        (∀ b, b ∈ used' ↔ b ∈ used ∧ b ≠ sv_ino v ∧ ¬ owned (sectors s) (sv_i v) b) ∧
        (∀ b, b ∈ used' → b ≠ 0 → sec (sectors (wst w')) b = sec (sectors s) b)) (World s mem).
Proof.
  intros Hok Ht Hp Hi Hops Hr Ho Hl Hap.
  eapply (sfs_reclaim_unlinked s used ps p v); [done..|].
  intros s' used' ps' Hok' Ht' Hin _ Hu Hsec. split; [done|]. exists used', ps'. by split_and!.
Qed.

(** The sixteen-block file, with its last name gone. *)
Definition gone_vnode : sfs_vnode := set_inode (set_linkcount 0 long_inode) long_vnode.

Definition gone_fs : sfs_fs := set_heap {[1%positive := gone_vnode]} long_fs.

Lemma gone_table : table_ok gone_fs long_used [1%positive].
Proof. by apply (single_table _ _ gone_vnode); [| |split; [unfold long_used; set_solver|]| |]. Qed.

Lemma gone_inode_ok : inode_ok gone_fs long_used (sv_i gone_vnode).
Proof.
  destruct long_inode_ok as ((? & ? & _ & ? & ? & ? & ? & ?) & Hrest). split; [|exact Hrest]. by split_and!.
Qed.

Lemma gone_apart : apart gone_fs gone_vnode.
Proof.
  intros q u [_ ->]%single_heap. intros (_ & [H|(k & Hk & Hb)]); [done|].
  change (ptr (sectors gone_fs) (sv_i gone_vnode) k) with (ptr long_sectors long_inode k) in Hb.
  rewrite long_ptr in Hb by done. by destruct (k =? 15).
Qed.

Lemma sfs_reclaim_erases_witness :
  wp (sfs_reclaim 1%positive)
     (λ r w', r = 0 ∧ ∃ used' ps', fs_ok (wst w') used' ∧ table_ok (wst w') used' ps' ∧
        (∀ q, q ∈ ps' ↔ q ∈ [1%positive] ∧ q ≠ 1%positive) ∧
        (∀ b, b ∈ used' ↔ b ∈ long_used ∧ b ≠ 3 ∧ ¬ owned (sectors gone_fs) (sv_i gone_vnode) b) ∧
        (∀ b, b ∈ used' → b ≠ 0 → sec (sectors (wst w')) b = sec (sectors gone_fs) b)) (World gone_fs []).
Proof.
  apply (sfs_reclaim_erases gone_fs long_used [1%positive] 1%positive gone_vnode []);
    [exact long_ok|exact gone_table|done|exact gone_inode_ok|done..|exact gone_apart].
Defined.

(** a file that still has a name survives losing its vnode: after
    [sfs_reclaim], [sfs_loadvnode] brings back the same inode (or fails for
    lack of memory), whether or not it had been written to disk before. *)
Theorem sfs_reclaim_load_roundtrip s used ps p v mem :
  fs_ok s used → table_ok s used ps → sfs_heap s !! p = Some v → inode_wf (sv_i v) →
  vn_refcount v = 1 → vn_opencount v = 0 → sfi_linkcount (sv_i v) ≠ 0 →
  sfi_type (sv_i v) = SFS_TYPE_FILE ∨ sfi_type (sv_i v) = SFS_TYPE_DIR →
  (sv_dirty v = false → dec_inode (sec (sectors s) (sv_ino v)) = sv_i v) →
  Z.of_nat (length ps) < ARRAY_LIMIT →
  wp (sfs_reclaim p)
     (λ r w', r = 0 ∧
        wp (sfs_loadvnode (sv_ino v) SFS_TYPE_INVAL)
           (λ '(r', o) w'', (r' = ENOMEM ∧ false ∈ wmem w') ∨
              (r' = 0 ∧ ∃ q v', o = Some q ∧ sfs_heap (wst w'') !! q = Some v' ∧
                 sv_i v' = sv_i v ∧ sv_ino v' = sv_ino v)) w') (World s mem).
Proof.
  intros Hok Ht Hp Hwf Hr Ho Hl Hty Hclean Hlen.
  eapply (sfs_reclaim_linked s used ps p v); [done..|]. intros a ps' s' Hok' Ht' Hin. split; [done|].
  pose proof (tb_ino _ _ _ Ht p v Hp) as Hb. destruct (synced_base s p v) as ((Hsb & _) & _).
  assert (dec_inode (sec (sectors s') (sv_ino v)) = sv_i v) as Hdisk by exact (synced_inode s used p v Hok Hb Hwf Hclean).
  assert (not_loaded s' (sv_ino v)) as Hnl.
  { intros q u Hq He. change (delete p (sfs_heap s) !! q = Some u) in Hq. apply lookup_delete_Some in Hq as [Hne Hq]. destruct Hne. symmetry. by eapply (tb_unique _ _ _ Ht). }
  assert (NoDup ps' ∧ (length ps' ≤ length ps)%nat) as [_ Hlen'].
  { split; [apply Ht'|]. apply submseteq_length, NoDup_submseteq; [apply Ht'|]. intros q Hq. by apply Hin. }
  eapply (sfs_loadvnode_spec s' used ps' (sv_ino v)); [done|done|done| |lia| | | | |].
  - unfold block_ok, nblocks in *. simpl. by rewrite Hsb.
  - intros q u Hq He. by destruct (Hnl q u Hq).
  - intros _. split; [by left|]. change (disk_inode s' (sv_ino v) SFS_TYPE_INVAL) with (dec_inode (sec (sectors s') (sv_ino v))). by rewrite Hdisk.
  - intros q u Hq He. by destruct (Hnl q u Hq).
  - intros x m _ Hf _. left. split; [done|]. exact Hf.
  - intros q a' m _ Hq s'' _. right. split; [done|]. exists q, (loaded_vnode s' (sv_ino v) SFS_TYPE_INVAL).
    split; [done|]. split; [apply lookup_insert_eq|]. split; [exact Hdisk|done].
Qed.

Lemma sfs_reclaim_load_roundtrip_witness :
  let v := set_dirty true tiny_vnode in
  let s := set_heap {[1%positive := v]} tiny_fs in
  wp (sfs_reclaim 1%positive)
     (λ r w', r = 0 ∧
        wp (sfs_loadvnode 3 SFS_TYPE_INVAL)
           (λ '(r', o) w'', (r' = ENOMEM ∧ false ∈ wmem w') ∨
              (r' = 0 ∧ ∃ q v', o = Some q ∧ sfs_heap (wst w'') !! q = Some v' ∧
                 sv_i v' = empty_inode ∧ sv_ino v' = 3)) w') (World s []).
Proof.
  apply (sfs_reclaim_load_roundtrip (set_heap {[1%positive := set_dirty true tiny_vnode]} tiny_fs)
           {[0; 1; 2; 3]} [1%positive] 1%positive (set_dirty true tiny_vnode) []);
    [exact tiny_ok| |done|apply tiny_inode_ok|done|done|done|by left|done|done].
  apply (table_set tiny_fs {[0; 1; 2; 3]} [1%positive] 1%positive tiny_vnode); [exact tiny_table|done..].
Defined.
