(* ===== verification/SfsFs.v ===== *)
(** * SFS file systems: mount, sync and unmount (kern/fs/sfs/sfs_fs.c) *)

From S2P Require Import Prelude Array Bitmap CopyInOut Uio Lhd SfsDisk SfsFile SfsVnode.

Definition set_super (b : sfs_super) (s : sfs_fs) : sfs_fs :=
  SfsFs b (sfs_superdirty s) (sfs_device s) (sfs_vnodes s) (sfs_freemap s) (sfs_freemapdirty s)
        (sfs_heap s).

Definition set_superdirty (d : bool) (s : sfs_fs) : sfs_fs :=
  SfsFs (sfs_sb s) d (sfs_device s) (sfs_vnodes s) (sfs_freemap s) (sfs_freemapdirty s)
        (sfs_heap s).

Definition SFS_FS_BITMAPSIZE (s : sfs_fs) : Z := SFS_BITMAPSIZE (sp_nblocks (sfs_sb s)).

Definition SFS_FS_BITBLOCKS (s : sfs_fs) : Z := SFS_BITBLOCKS (sp_nblocks (sfs_sb s)).

(** One sector of the free-block map; [ptr] points into the map's own bytes. *)
Definition sfs_mapio_sector (rw : uio_rw_t) (j : Z) : K sfs_fs Z :=
  bitdata ← on_map bitmap_getdata;
  ptr ← kof (lslice bitdata (j * SFS_BLOCKSIZE) SFS_BLOCKSIZE);
  if bool_decide (rw = UIO_READ) then
    '(result, data) ← on_dev (sfs_rblock ptr (u32 (SFS_MAP_LOCATION + j)));
    bits ← kof (lsplice bitdata (j * SFS_BLOCKSIZE) data);
    s ← kget;
    kput (set_freemap (Bitmap (nbits (sfs_freemap s)) bits) s);;
    mret result
  else on_dev (sfs_wblock ptr (u32 (SFS_MAP_LOCATION + j))).

Definition sfs_mapio (rw : uio_rw_t) : K sfs_fs Z :=
  s ← kget;
  let mapsize := SFS_FS_BITBLOCKS s in
  r ← kfind (Z.to_nat mapsize) 0 (λ j _,
        result ← sfs_mapio_sector rw j;
        mret (if negb (result =? 0) then inr result else inl tt)) tt;
  mret (match r with inr result => result | inl _ => 0 end).

(** The loop over the table of loaded vnodes; errors are ignored. *)
Definition sfs_sync_vnodes : K sfs_fs unit :=
  num ← on_vnodes array_getnum;
  kfold (Z.to_nat num) 0 (λ i _,
    p ← on_vnodes (array_getguy i);
    _ ← VOP_FSYNC p;
    mret tt) tt.

Definition sfs_sync : K sfs_fs Z :=
  sfs_sync_vnodes;;
  s ← kget;
  result ← (if sfs_freemapdirty s then
              result ← sfs_mapio UIO_WRITE;
              if negb (result =? 0) then mret result else
              s ← kget;
              kput (set_freemapdirty false s);;
              mret 0
            else mret 0);
  if negb (result =? 0) then mret result else
  s ← kget;
  if sfs_superdirty s then
    result ← on_dev (sfs_wblock (enc_super (sfs_sb s)) SFS_SB_LOCATION);
    if negb (result =? 0) then mret result else
    s ← kget;
    kput (set_superdirty false s);;
    mret 0
  else mret 0.

(** The name is a C string in [sp_volname]. *)
Definition sfs_getvolname : K sfs_fs (list Z) :=
  s ← kget; mret (cstr (sp_volname (sfs_sb s))).

(** On success the table, the map and the file system itself are freed; the
    state after that is no longer meaningful. *)
Definition sfs_unmount : K sfs_fs Z :=
  num ← on_vnodes array_getnum;
  if 0 <? num then mret EBUSY else
  s ← kget;
  kassert (negb (sfs_superdirty s));;
  kassert (negb (sfs_freemapdirty s));;
  mret 0.

(** [sfs_domount] fills in the [struct sfs_fs] it has allocated: the state is
    that structure, with [sfs_device] the device to mount and indeterminate
    other fields.  Unless the result is 0 the structure is freed again.  The
    two assertions on the sizes of the on-disk structures are the length of
    the block each is read from. *)
Definition sfs_domount (d_blocksize : Z) : K sfs_fs Z :=
  kassert (SFS_BLOCKSIZE mod SFS_DIRSIZE =? 0);;
  if negb (d_blocksize =? SFS_BLOCKSIZE) then mret ENXIO else
  ok ← kmalloc_ok;
  if negb ok then mret ENOMEM else
  a ← array_create;
  match a with
  | None => mret ENOMEM
  | Some a =>
      s ← kget;
      kput (set_vnodes a (set_heap ∅ s));;
      '(result, data) ← on_dev (sfs_rblock zero_block SFS_SB_LOCATION);
      if negb (result =? 0) then mret result else
      let sb := dec_super data in
      if negb (sp_magic sb =? SFS_MAGIC) then mret EINVAL else
      volname ← kof (lset (sp_volname sb) (SFS_VOLNAME_SIZE - 1) 0);
      s ← kget;
      kput (set_super (SfsSuper (sp_magic sb) (sp_nblocks sb) volname (sp_reserved sb)) s);;
      s ← kget;
      fm ← bitmap_create (SFS_FS_BITMAPSIZE s);
      match fm with
      | None => mret ENOMEM
      | Some fm =>
          kput (set_freemap fm s);;
          result ← sfs_mapio UIO_READ;
          if negb (result =? 0) then mret result else
          s ← kget;
          kput (set_superdirty false (set_freemapdirty false s));;
          mret 0
      end
  end.
