(* ===== verification/SfsMount.v ===== *)
(** * SFS: syncing and mounting are inverse

    After [sfs_sync] the disk holds the file system: the superblock, the
    free-block map and every loaded inode.  [sfs_domount] reads back what is
    there. *)

From S2P Require Import Prelude Array Bitmap CopyInOut Uio Lhd SfsDisk SfsFile SfsInv SfsIo SfsTrunc.
From S2P Require Import SfsVnode SfsTable SfsFs.

(** ** Layout *)

(** Sector [i] of the free-block map. *)
Definition map_sector (bits : list Z) (i : Z) : list Z :=
  take 512 (drop (Z.to_nat (i * SFS_BLOCKSIZE)) bits).

Definition nmap (s : sfs_fs) : Z := SFS_FS_BITBLOCKS s.

(** The map covers the file system and its sectors fit on the disk. *)
Definition layout_ok (s : sfs_fs) : Prop :=
  nbits (sfs_freemap s) = SFS_FS_BITMAPSIZE s ∧ SFS_MAP_LOCATION + nmap s ≤ d_blocks (sfs_device s).

(** Sizes of file systems on disks the driver supports. *)
Lemma bitmap_size n : 0 < n < 2 ^ 22 →
  SFS_BITMAPSIZE n = 4096 * SFS_BITBLOCKS n ∧ n ≤ SFS_BITMAPSIZE n ∧ 0 < SFS_BITBLOCKS n ≤ 1024.
Proof.
  intros Hn. unfold SFS_BITBLOCKS, SFS_BITMAPSIZE, SFS_ROUNDUP, SFS_BLOCKBITS, SFS_BLOCKSIZE.
  change (512 * 8) with 4096. rewrite (u32_id (n + 4096)), (u32_id (n + 4096 - 1)) by lia.
  pose proof (Z.div_mod (n + 4096 - 1) 4096). pose proof (Z.mod_pos_bound (n + 4096 - 1) 4096).
  assert (1 ≤ (n + 4096 - 1) / 4096) by (apply Z.div_le_lower_bound; lia).
  assert ((n + 4096 - 1) / 4096 < 1025) by (apply Z.div_lt_upper_bound; lia).
  rewrite u32_id by lia. rewrite Z.div_mul by lia. lia.
Qed.

Lemma layout_bits s used :
  fs_ok s used → layout_ok s → 0 < nmap s ≤ 1024 ∧ Z.of_nat (length (bv (sfs_freemap s))) = 512 * nmap s.
Proof.
  intros Hok [Hbits _]. pose proof (fs_ok_limit s used Hok) as Hlim.
  destruct Hok as (_ & _ & (_ & Hlen & _) & _ & Hn & _).
  destruct (bitmap_size (nblocks s)) as (H1 & H2 & H3); [lia|].
  change (SFS_FS_BITMAPSIZE s) with (SFS_BITMAPSIZE (nblocks s)) in Hbits.
  change (nmap s) with (SFS_BITBLOCKS (nblocks s)) in *. split; [done|].
  rewrite Hlen, Hbits, H1. symmetry. apply Z.div_unique with 7; lia.
Qed.

Lemma map_sector_wf bits n i :
  Forall is_byte bits → Z.of_nat (length bits) = 512 * n → 0 ≤ i < n → block_wf (map_sector bits i).
Proof.
  intros Hb Hl Hi. unfold map_sector, SFS_BLOCKSIZE. split.
  - rewrite length_take, length_drop. lia.
  - by apply Forall_take, Forall_drop.
Qed.

(** A map is determined by its sectors. *)
Lemma map_sectors_eq bits bits' n :
  Z.of_nat (length bits) = 512 * n → Z.of_nat (length bits') = 512 * n →
  (∀ i, 0 ≤ i < n → map_sector bits i = map_sector bits' i) → bits = bits'.
Proof.
  intros Hl Hl' H. apply list_eq_same_length with (length bits); [lia|done|].
  intros k x y Hk Hx Hy. set (i := Z.of_nat k / 512).
  pose proof (Z.div_mod (Z.of_nat k) 512). pose proof (Z.mod_pos_bound (Z.of_nat k) 512).
  assert (0 ≤ i) by (apply Z.div_pos; lia). specialize (H i). unfold map_sector, SFS_BLOCKSIZE in H.
  assert (∀ l : list Z, take 512 (drop (Z.to_nat (i * 512)) l) !! (k - Z.to_nat (i * 512))%nat = l !! k) as Hlk.
  { intros l. rewrite lookup_take_lt, lookup_drop by lia. f_equal. lia. }
  pose proof (Hlk bits) as Ha. pose proof (Hlk bits') as Hb. rewrite H in Ha by lia. congruence.
Qed.

(** ** The free-block map *)

(** [sfs_mapio] for writing. *)
Lemma sfs_mapio_write_spec s used (Q : Z → world sfs_fs → Prop) w :
  wst w = s → fs_ok s used → layout_ok s →
  (∀ s', fs_ok s' used → (∃ d, s' = set_device d s) → same_space s s' →
     d_blocks (sfs_device s') = d_blocks (sfs_device s) →
     (∀ i, 0 ≤ i < nmap s → sec (sectors s') (SFS_MAP_LOCATION + i) = map_sector (bv (sfs_freemap s)) i) →
     (∀ b, 0 ≤ b → b < SFS_MAP_LOCATION ∨ SFS_MAP_LOCATION + nmap s ≤ b → sec (sectors s') b = sec (sectors s) b) →
     Q 0 (World s' (wmem w))) →
  wp (sfs_mapio UIO_WRITE) Q w.
Proof.
  intros Hw Hok Hlay HQ. destruct (layout_bits s used Hok Hlay) as [Hn Hl]. destruct Hlay as [_ Hfit].
  pose proof Hok as ((_ & Hscr) & _ & (_ & _ & Hby & _) & _).
  unfold sfs_mapio. kstep. rewrite Hw. change (SFS_FS_BITBLOCKS s) with (nmap s).
  apply (wp_kfind (λ j _ w', wmem w' = wmem w ∧ fs_ok (wst w') used ∧ (∃ d, wst w' = set_device d s) ∧
     same_space s (wst w') ∧ d_blocks (sfs_device (wst w')) = d_blocks (sfs_device s) ∧
     (∀ i, 0 ≤ i < j → sec (sectors (wst w')) (SFS_MAP_LOCATION + i) = map_sector (bv (sfs_freemap s)) i) ∧
     (∀ b, 0 ≤ b → b < SFS_MAP_LOCATION ∨ SFS_MAP_LOCATION + nmap s ≤ b →
        sec (sectors (wst w')) b = sec (sectors s) b))).
  - rewrite Hw. split_and!; try done; [exists (sfs_device s); by destruct s|intros; lia].
  - intros j [] [s1 m1] Hj (Hm & Hok1 & [d Hd] & Hsp & Hdb & Hdone & Hrest). simpl in Hm. subst m1. kstep.
    cbn [wst] in *. unfold sfs_mapio_sector, on_map, bitmap_getdata. kstep. rewrite Hd. cbn [sfs_freemap set_device].
    unfold SFS_MAP_LOCATION, SFS_BLOCKSIZE in *. rewrite lslice_Some by lia. kstep.
    change (take _ _) with (map_sector (bv (sfs_freemap s)) j). rewrite bool_decide_eq_false_2 by done.
    unfold on_dev. kstep. rewrite u32_id by lia.
    replace (set_freemap (sfs_freemap s) (set_device d s)) with s1 by (rewrite Hd; by destruct s).
    destruct (map_sector_wf (bv (sfs_freemap s)) (nmap s) j) as [Hbl Hbb]; [done|done|lia|].
    eapply sfs_wblock_ok; [apply Hok1|simpl; lia|unfold SFS_BLOCKSIZE; lia|]. kstep.
    change (set_device _ s1) with (wrote s1 (2 + j) (map_sector (bv (sfs_freemap s)) j)).
    assert (sectors (wrote s1 (2 + j) (map_sector (bv (sfs_freemap s)) j)) =
            <[Z.to_nat (2 + j) := map_sector (bv (sfs_freemap s)) j]> (sectors s1)) as Hss by done.
    split_and!; [done|apply fs_ok_wrote; [done|by split]|rewrite Hd; by eexists|exact Hsp|exact Hdb| |].
    + intros i Hi. rewrite Hss. destruct (decide (i = j)) as [->|].
      * rewrite sec_write_eq; [done|]. rewrite (length_sectors s1 used Hok1), Hdb. lia.
      * rewrite sec_write_ne by lia. apply Hdone. lia.
    + intros b Hb Hout. rewrite Hss, sec_write_ne by lia. by apply Hrest.
  - intros [] [s1 m1] (Hm & Hok1 & Hd & Hsp & Hdb & Hdone & Hrest). simpl in *. subst m1. kstep.
    apply HQ; try done. intros i Hi. apply Hdone. lia.
Qed.

(** [s'] is [s] after reads into the map's bytes. *)
Definition map_read (s s' : sfs_fs) (bits : list Z) : Prop :=
  ∃ d, s' = set_freemap (Bitmap (nbits (sfs_freemap s)) bits) (set_device d s) ∧ healthy d ∧
       lh_sectors d = sectors s ∧ d_blocks d = d_blocks (sfs_device s) ∧
       lh_space d = lh_space (sfs_device s).

Lemma map_sector_splice bits x n i j :
  Z.of_nat (length bits) = 512 * n → length x = 512%nat → 0 ≤ i < n → 0 ≤ j < n →
  map_sector (splice bits (Z.to_nat (j * 512)) x) i = if decide (i = j) then x else map_sector bits i.
Proof.
  intros Hl Hx Hi Hj. unfold map_sector, SFS_BLOCKSIZE. apply list_eq. intros k.
  destruct (decide (k < 512)%nat).
  2:{ rewrite !lookup_ge_None_2; [done| |]; [case_decide; [lia|]|]; rewrite length_take; lia. }
  rewrite lookup_take_lt, lookup_drop, lookup_splice by lia.
  case_decide; case_decide; try lia.
  - f_equal. lia.
  - by rewrite lookup_take_lt, lookup_drop by lia.
Qed.

Lemma sfs_mapio_read_spec s (Q : Z → world sfs_fs → Prop) w :
  wst w = s → healthy (sfs_device s) → Forall block_wf (sectors s) →
  0 < nmap s ≤ 1024 → Z.of_nat (length (bv (sfs_freemap s))) = 512 * nmap s →
  SFS_MAP_LOCATION + nmap s ≤ d_blocks (sfs_device s) →
  (∀ s' bits, map_read s s' bits → Z.of_nat (length bits) = 512 * nmap s →
     (∀ i, 0 ≤ i < nmap s → map_sector bits i = sec (sectors s) (SFS_MAP_LOCATION + i)) →
     Q 0 (World s' (wmem w))) →
  wp (sfs_mapio UIO_READ) Q w.
Proof.
  intros Hw Hh Hss Hn Hl Hfit HQ. unfold sfs_mapio. kstep. rewrite Hw. change (SFS_FS_BITBLOCKS s) with (nmap s).
  apply (wp_kfind (λ j _ w', wmem w' = wmem w ∧ ∃ bits, map_read s (wst w') bits ∧
     Z.of_nat (length bits) = 512 * nmap s ∧
     ∀ i, 0 ≤ i < j → map_sector bits i = sec (sectors s) (SFS_MAP_LOCATION + i))).
  - split; [done|]. exists (bv (sfs_freemap s)). split_and!; [|done|intros; lia].
    rewrite Hw. exists (sfs_device s). split_and!; try done. by destruct s as [? ? ? ? [] ? ?].
  - intros j [] [s1 m1] Hj (Hm & bits & (d & Hs1 & Hhd & Hsd & Hdb & Hsp) & Hlb & Hdone).
    simpl in Hm, Hs1. subst m1 s1. kstep.
    unfold sfs_mapio_sector, on_map, bitmap_getdata. kstep. cbn [sfs_freemap set_freemap bv].
    unfold SFS_MAP_LOCATION, SFS_BLOCKSIZE in *. rewrite lslice_Some by lia. kstep.
    change (bool_decide (UIO_READ = UIO_READ)) with true. unfold on_dev. kstep. rewrite u32_id by lia.
    cbn [sfs_device set_freemap set_device].
    destruct (sec_wf (sectors s) (2 + j)) as [Hsl [Hswl Hswb]].
    { done. } { unfold sectors. rewrite (proj1 (proj1 Hh)). lia. }
    eapply sfs_rblock_ok; [done|simpl; lia| |simpl; rewrite Hsd; exact Hsl|].
    { rewrite length_take, length_drop. unfold SFS_BLOCKSIZE. lia. }
    kstep. rewrite lsplice_Some by lia. kstep. split; [done|].
    exists (splice bits (Z.to_nat (j * 512)) (sec (sectors s) (2 + j))).
    split_and!; [|rewrite length_splice; lia|].
    + exists (disk_read d (sec (sectors s) (2 + j))). split_and!; try done.
      apply healthy_read; [done|]. unfold SFS_BLOCKSIZE. lia.
    + intros i Hi. rewrite (map_sector_splice bits _ (nmap s)) by lia. case_decide; [by subst|].
      apply Hdone. lia.
  - intros [] [s1 m1] (Hm & bits & Hmr & Hlb & Hdone). simpl in *. subst m1. kstep.
    apply (HQ s1 bits); [done|done|]. intros i Hi. apply Hdone. lia.
Qed.

(** ** Syncing *)

(** The in-memory and on-disk copies of every loaded inode agree unless the
    inode is marked dirty. *)
Definition clean_inodes (s : sfs_fs) : Prop :=
  ∀ p v, sfs_heap s !! p = Some v → sv_dirty v = false → dec_inode (sec (sectors s) (sv_ino v)) = sv_i v.

Definition inodes_wf (s : sfs_fs) : Prop := ∀ p v, sfs_heap s !! p = Some v → inode_wf (sv_i v).

(** The loop over the table, after the first [i] vnodes. *)
Record sync_upto (s : sfs_fs) (used : gset Z) (ps : list loc) (i : Z) (s' : sfs_fs) : Prop := SyncUpto {
  su_ok : fs_ok s' used;
  su_table : table_ok s' used ps;
  su_base : same_base s s' ∧ sfs_freemap s' = sfs_freemap s ∧ sfs_freemapdirty s' = sfs_freemapdirty s ∧
            same_space s s';
  su_heap : ∀ p, sfs_heap s' !! p = sfs_heap s !! p ∨
              sfs_heap s' !! p = set_dirty false <$> sfs_heap s !! p;
  su_clean : clean_inodes s';
  su_done : ∀ j p v, 0 ≤ j < i → lget ps j = Some p → sfs_heap s' !! p = Some v → sv_dirty v = false;
  su_frame : ∀ b, (∀ p v, sfs_heap s !! p = Some v → sv_ino v ≠ b) → sec (sectors s') b = sec (sectors s) b
}.

Lemma sync_upto_vnode s used ps i s' p v' :
  sync_upto s used ps i s' → sfs_heap s' !! p = Some v' →
  ∃ v, sfs_heap s !! p = Some v ∧ sv_i v' = sv_i v ∧ sv_ino v' = sv_ino v.
Proof.
  intros Hu Hp. destruct (su_heap _ _ _ _ _ Hu p) as [He|He]; rewrite Hp in He.
  - by exists v'.
  - symmetry in He. apply fmap_Some in He as (v & Hv & ->). by exists v.
Qed.

(** One more vnode. *)
Lemma sync_upto_step s used ps i s' p v :
  inodes_wf s → sync_upto s used ps i s' → 0 ≤ i → lget ps i = Some p → sfs_heap s' !! p = Some v →
  sync_upto s used ps (i + 1) (synced s' p v).
Proof.
  intros Hwf Hu Hi Hpi Hp. destruct (sync_upto_vnode _ _ _ _ _ _ _ Hu Hp) as (v0 & Hv0 & Hvi & Hvn).
  assert (inode_wf (sv_i v)) as Hwfv by (rewrite Hvi; by eapply Hwf).
  pose proof (synced_heap s' p v Hp) as Hh. destruct (synced_base s' p v) as (Hb1 & Hb2 & Hb3 & Hb4).
  destruct Hu as [Hok Ht (Hba & Hfm & Hfd & Hsp) Hheap Hclean Hdone Hfr]. pose proof (tb_ino _ _ _ Ht p v Hp) as Hino.
  split.
  - by apply synced_ok.
  - by apply synced_table.
  - unfold same_space in *. split_and!; [by eapply same_base_trans|congruence..].
  - intros q. rewrite Hh. destruct (decide (p = q)) as [<-|]; [|by rewrite lookup_insert_ne].
    rewrite lookup_insert_eq. right. destruct (Hheap p) as [He|He]; rewrite Hp in He; rewrite <- He; [done|].
    symmetry in He. apply fmap_Some in He as (v1 & Hv1 & ->). done.
  - intros q u. rewrite Hh. destruct (decide (p = q)) as [<-|Hpq].
    + rewrite lookup_insert_eq. intros [= <-] _. apply (synced_inode s' used p v Hok Hino Hwfv). by apply (Hclean p v).
    + rewrite lookup_insert_ne by done. intros Hq Hd. rewrite (synced_sec s' used p v) by
        (try done; intros He; destruct Hpq; by eapply (tb_unique _ _ _ Ht)). by eapply Hclean.
  - intros j q u Hj Hq. rewrite Hh. destruct (decide (p = q)) as [<-|Hpq].
    + rewrite lookup_insert_eq. by intros [= <-].
    + rewrite lookup_insert_ne by done. destruct (decide (j = i)) as [->|]; [congruence|].
      intros Hu'. eapply Hdone; [|done|done]. lia.
  - intros b Hb. rewrite (synced_sec s' used p v); [by apply Hfr|done|done|].
    rewrite Hvn. apply not_eq_sym. by eapply Hb.
Qed.

Lemma sfs_sync_vnodes_spec s used ps (Q : unit → world sfs_fs → Prop) w :
  wst w = s → fs_ok s used → table_ok s used ps → clean_inodes s → inodes_wf s →
  (∀ s', sync_upto s used ps (Z.of_nat (length ps)) s' → Q tt (World s' (wmem w))) →
  wp sfs_sync_vnodes Q w.
Proof.
  intros Hw Hok Ht Hcl Hwf HQ. unfold sfs_sync_vnodes. kstep.
  eapply (vnodes_num_spec s used ps); [done|done|]. kstep. rewrite Nat2Z.id.
  apply (wp_kfold (λ i _ w', wmem w' = wmem w ∧ sync_upto s used ps i (wst w'))).
  - rewrite Hw. split; [done|]. split; try done; [|intros; lia]. intros p. by left.
  - intros i [] [s1 m1] Hi (Hm & Hu). simpl in *. subst m1. pose proof (su_table _ _ _ _ _ Hu) as Ht1. kstep.
    destruct (lget_is_Some ps i) as [p Hp]; [lia|]. destruct (table_lookup _ _ _ _ _ Ht1 Hp) as [v Hv].
    eapply (vnodes_get_spec s1 used ps i p); [done|done|done|]. kstep. unfold VOP_FSYNC, sfs_fsync. kstep.
    eapply (vnode_check_spec s1 p v); [done|done|by eapply tb_ref|by eapply tb_open|]. kstep.
    destruct (sync_upto_vnode _ _ _ _ _ _ _ Hu Hv) as (v0 & Hv0 & Hvi & _).
    eapply (sfs_sync_inode_spec s1 used p v); [done|apply Hu|done|rewrite Hvi; by eapply Hwf|by eapply tb_ino|].
    kstep. split; [done|]. apply sync_upto_step; try done. lia.
  - intros [] [s1 m1] (Hm & Hu). simpl in *. subst m1. by apply HQ.
Qed.

(** What the disk holds of the file system in memory. *)
Definition super_on_disk (s : sfs_fs) : Prop := dec_super (sec (sectors s) SFS_SB_LOCATION) = sfs_sb s.

Definition map_on_disk (s : sfs_fs) : Prop :=
  ∀ i, 0 ≤ i < nmap s → sec (sectors s) (SFS_MAP_LOCATION + i) = map_sector (bv (sfs_freemap s)) i.

Definition inodes_on_disk (s : sfs_fs) : Prop :=
  ∀ p v, sfs_heap s !! p = Some v → dec_inode (sec (sectors s) (sv_ino v)) = sv_i v.

(** No loaded inode lies in the superblock or in the map. *)
Definition inodes_outside (s : sfs_fs) : Prop :=
  ∀ p v, sfs_heap s !! p = Some v → sv_ino v = SFS_ROOT_LOCATION ∨ SFS_MAP_LOCATION + nmap s ≤ sv_ino v.

(** The dirty flags tell the truth. *)
Definition flags_ok (s : sfs_fs) : Prop :=
  (sfs_superdirty s = false → super_on_disk s) ∧ (sfs_freemapdirty s = false → map_on_disk s) ∧ clean_inodes s.

(** A file system that can be synced. *)
Definition syncable (s : sfs_fs) (used : gset Z) (ps : list loc) : Prop :=
  fs_ok s used ∧ table_ok s used ps ∧ layout_ok s ∧ flags_ok s ∧ inodes_wf s ∧ inodes_outside s ∧
  super_wf (sfs_sb s).

Lemma sync_upto_all s used ps s' :
  table_ok s used ps → sync_upto s used ps (Z.of_nat (length ps)) s' → inodes_on_disk s'.
Proof.
  intros Ht Hu p v Hp. pose proof (su_table _ _ _ _ _ Hu) as Ht'.
  destruct (table_index _ _ _ p Ht') as (i & Hi & Hpi); [by eexists|].
  apply (su_clean _ _ _ _ _ Hu p v Hp). eapply (su_done _ _ _ _ _ Hu); done.
Qed.

(** The map part of [sfs_sync]. *)
Lemma sync_map_part s used (Q : Z → world sfs_fs → Prop) w :
  wst w = s → fs_ok s used → layout_ok s → (sfs_freemapdirty s = false → map_on_disk s) →
  (∀ d, let s' := set_freemapdirty false (set_device d s) in
     fs_ok s' used → same_space s s' → d_blocks d = d_blocks (sfs_device s) → map_on_disk s' →
     (∀ b, 0 ≤ b → b < SFS_MAP_LOCATION ∨ SFS_MAP_LOCATION + nmap s ≤ b → sec (sectors s') b = sec (sectors s) b) →
     Q 0 (World s' (wmem w))) →
  wp (if sfs_freemapdirty s then
        result ← sfs_mapio UIO_WRITE;
        if negb (result =? 0) then mret result else
        s ← kget;
        kput (set_freemapdirty false s);;
        mret 0
      else mret 0) Q w.
Proof.
  intros Hw Hok Hlay Hcl HQ. destruct (sfs_freemapdirty s) eqn:Hd; kstep.
  - eapply (sfs_mapio_write_spec s used); [done|done|done|].
    intros s' Hok' [d ->] Hsp Hdb Hmap Hrest. kstep. apply HQ; done.
  - specialize (HQ (sfs_device s)). replace (set_freemapdirty false (set_device (sfs_device s) s)) with s in HQ
      by (destruct s; simpl in *; by subst).
    destruct w as [s0 m]; simpl in *; subst s0. apply HQ; auto. done.
Qed.

Lemma sfs_sync_spec s used ps (Q : Z → world sfs_fs → Prop) w :
  wst w = s → syncable s used ps →
  (∀ s', fs_ok s' used → table_ok s' used ps → layout_ok s' →
     super_on_disk s' → map_on_disk s' → inodes_on_disk s' →
     sfs_sb s' = sfs_sb s → sfs_freemap s' = sfs_freemap s → sfs_superdirty s' = false → sfs_freemapdirty s' = false →
     (∀ p, sfs_heap s' !! p = sfs_heap s !! p ∨ sfs_heap s' !! p = set_dirty false <$> sfs_heap s !! p) →
     Q 0 (World s' (wmem w))) →
  wp sfs_sync Q w.
Proof.
  intros Hw (Hok & Ht & Hlay & (Hsup & Hmap & Hcl) & Hwf & Hout & Hsw) HQ. unfold sfs_sync. kstep.
  eapply (sfs_sync_vnodes_spec s used ps); [done..|]. intros s1 Hu. kstep.
  pose proof (sync_upto_all s used ps s1 Ht Hu) as Hin1.
  destruct Hu as [Hok1 Ht1 ((Hsb1 & Hsd1 & Hvn1 & Hdb1) & Hfm1 & Hfd1 & Hsp1) Hheap1 _ _ Hfr1].
  destruct (layout_bits s used Hok Hlay) as [Hn _].
  assert (nmap s1 = nmap s) as Hnm by (unfold nmap, SFS_FS_BITBLOCKS; by rewrite Hsb1).
  assert (∀ p v, sfs_heap s1 !! p = Some v → sv_ino v = SFS_ROOT_LOCATION ∨ SFS_MAP_LOCATION + nmap s ≤ sv_ino v) as Hout1.
  { intros p v Hp. destruct (Hheap1 p) as [He|He]; rewrite Hp in He; symmetry in He; [by eapply Hout|].
    apply fmap_Some in He as (v0 & Hv0 & ->). by apply (Hout p v0). }
  assert (∀ b, b = 0 ∨ SFS_MAP_LOCATION ≤ b < SFS_MAP_LOCATION + nmap s → sec (sectors s1) b = sec (sectors s) b) as Hmeta1.
  { intros b Hb. apply Hfr1. intros p v Hp. destruct (Hout p v Hp); unfold SFS_ROOT_LOCATION, SFS_MAP_LOCATION in *; lia. }
  assert (layout_ok s1) as Hlay1.
  { unfold layout_ok, SFS_FS_BITMAPSIZE in *. by rewrite Hnm, Hfm1, Hsb1, Hdb1. }
  eapply (sync_map_part s1 used); [done|done|done| |].
  { intros Hd. unfold map_on_disk. rewrite Hnm, Hfm1. intros i Hi. rewrite Hmeta1 by lia.
    apply Hmap; [congruence|done]. }
  intros d s2 Hok2 Hsp2 Hdb2 Hmap2 Hrest2. kstep.
  assert (inodes_on_disk s2) as Hin2.
  { intros p v Hp. rewrite Hrest2; rewrite ?Hnm.
    - by apply (Hin1 p v).
    - destruct (tb_ino _ _ _ Ht1 p v Hp). lia.
    - destruct (Hout1 p v Hp); unfold SFS_ROOT_LOCATION, SFS_MAP_LOCATION in *; lia. }
  assert (table_ok s2 used ps) as Ht2 by (destruct Ht1; by split).
  assert (layout_ok s2) as Hlay2 by (destruct Hlay1; split; [done|]; simpl; by rewrite Hdb2).
  change (sfs_superdirty s2) with (sfs_superdirty s1). rewrite Hsd1.
  destruct (sfs_superdirty s) eqn:Hsdirty; kstep.
  - unfold on_dev. kstep. pose proof Hok2 as (Hh2 & _ & _ & _ & Hn2 & _).
    assert (super_wf (sfs_sb s2)) as Hsw2 by (simpl; by rewrite Hsb1).
    eapply sfs_wblock_ok; [done|cbn [wst]; unfold SFS_SB_LOCATION; lia|by apply block_wf_length, enc_super_block|]. kstep.
    change (set_device _ s2) with (wrote s2 0 (enc_super (sfs_sb s2))).
    set (s3 := wrote s2 0 (enc_super (sfs_sb s2))).
    assert (sectors s3 = <[0%nat := enc_super (sfs_sb s2)]> (sectors s2)) as Hss3 by done.
    assert (∀ b, 0 < b → sec (sectors s3) b = sec (sectors s2) b) as Hsec3.
    { intros b Hb. rewrite Hss3. apply (sec_write_ne (sectors s2) 0); lia. }
    apply HQ; simpl; try done.
    + apply (fs_ok_wrote s2 used 0); [done|by apply enc_super_block].
    + destruct Ht2. by split.
    + unfold super_on_disk. change (sectors (set_superdirty _ s3)) with (sectors s3). rewrite Hss3.
      rewrite (sec_write_eq (sectors s2) 0); [by apply dec_enc_super|]. rewrite (length_sectors s2 used Hok2). lia.
    + intros i Hi. change (sectors (set_superdirty _ s3)) with (sectors s3).
      rewrite Hsec3 by (unfold SFS_MAP_LOCATION; lia). by apply Hmap2.
    + intros p v Hp. change (sectors (set_superdirty _ s3)) with (sectors s3).
      destruct (tb_ino _ _ _ Ht2 p v Hp). rewrite Hsec3 by lia. by apply (Hin2 p v).
  - apply HQ; try done. unfold super_on_disk. rewrite Hrest2; [|done|by left].
    rewrite Hmeta1 by by left. simpl. rewrite Hsb1. by apply Hsup.
Qed.

(** ** Mounting *)

(** A device with a file system on it: the superblock [sb] and the map [bits]. *)
Record volume (d : lhd_softc) (sb : sfs_super) (bits : list Z) : Prop := Volume {
  vol_healthy : healthy d;
  vol_sectors : Forall block_wf (lh_sectors d);
  vol_super : dec_super (sec (lh_sectors d) SFS_SB_LOCATION) = sb;
  vol_magic : sp_magic sb = SFS_MAGIC;
  vol_name : lget (sp_volname sb) (SFS_VOLNAME_SIZE - 1) = Some 0;
  vol_size : 0 < sp_nblocks sb < 2 ^ 22;
  vol_fits : SFS_MAP_LOCATION + SFS_BITBLOCKS (sp_nblocks sb) ≤ d_blocks d;
  vol_bits : Z.of_nat (length bits) = 512 * SFS_BITBLOCKS (sp_nblocks sb);
  vol_map : ∀ i, 0 ≤ i < SFS_BITBLOCKS (sp_nblocks sb) →
              sec (lh_sectors d) (SFS_MAP_LOCATION + i) = map_sector bits i
}.

(** The file system [sfs_domount] builds. *)
Definition mounted (s : sfs_fs) (d : lhd_softc) (sb : sfs_super) (bits : list Z) : Prop :=
  sfs_sb s = sb ∧ sfs_freemap s = Bitmap (SFS_BITMAPSIZE (sp_nblocks sb)) bits ∧
  sfs_superdirty s = false ∧ sfs_freemapdirty s = false ∧
  sfs_vnodes s = Array 0 0 None ∧ sfs_heap s = ∅ ∧
  healthy (sfs_device s) ∧ sectors s = lh_sectors d ∧ d_blocks (sfs_device s) = d_blocks d ∧
  lh_space (sfs_device s) = lh_space d.

Lemma sfs_domount_spec s0 sb bits (Q : Z → world sfs_fs → Prop) w :
  wst w = s0 → volume (sfs_device s0) sb bits →
  (∀ s m, false ∈ wmem w → Q ENOMEM (World s m)) →
  (∀ s m, mounted s (sfs_device s0) sb bits → Q 0 (World s m)) →
  wp (sfs_domount SFS_BLOCKSIZE) Q w.
Proof.
  intros Hw [Hh Hss Hsup Hmg Hnm Hsz Hfit Hbl Hmap] HQ1 HQ2. unfold sfs_domount. kstep.
  rewrite wp_kassert by done. kstep. change (SFS_BLOCKSIZE =? SFS_BLOCKSIZE) with true. kstep.
  apply wp_kmalloc; [intros m1 Hm1|intros m1 Hf1 _]; kstep; [|by apply HQ1]. unfold array_create. kstep.
  apply wp_kmalloc; [intros m2 Hm2|intros m2 Hf2 _]; kstep; cbn [wst wmem] in *.
  2:{ apply HQ1. by eapply pending_suffix. }
  rewrite Hw. unfold on_dev. kstep. cbn [sfs_device set_vnodes set_heap].
  assert (0 < d_blocks (sfs_device s0)) as Hd0.
  { destruct (bitmap_size (sp_nblocks sb)) as (_ & _ & ?); [done|]. unfold SFS_MAP_LOCATION in *. lia. }
  destruct (sec_wf (lh_sectors (sfs_device s0)) SFS_SB_LOCATION) as [Hsl [Hsl' _]]; [done| |].
  { rewrite (proj1 (proj1 Hh)). unfold SFS_SB_LOCATION. lia. }
  eapply sfs_rblock_ok; [done|simpl; unfold SFS_SB_LOCATION; lia|done|exact Hsl|]. kstep.
  rewrite Hsup, Hmg. change (SFS_MAGIC =? SFS_MAGIC) with true. kstep.
  pose proof (lget_Some_range _ _ _ Hnm) as Hvr.
  rewrite lset_Some by done. kstep.
  assert (<[Z.to_nat (SFS_VOLNAME_SIZE - 1) := 0]> (sp_volname sb) = sp_volname sb) as ->.
  { apply list_insert_id. by rewrite lget_lookup in Hnm. }
  rewrite <- Hmg. replace (SfsSuper (sp_magic sb) (sp_nblocks sb) (sp_volname sb) (sp_reserved sb)) with sb by by destruct sb.
  destruct (bitmap_size (sp_nblocks sb)) as (Hbs & Hle & Hbb); [done|].
  set (s1 := set_super sb _). change (SFS_FS_BITMAPSIZE s1) with (SFS_BITMAPSIZE (sp_nblocks sb)).
  eapply bitmap_create_spec; [unfold BITMAP_LIMIT; lia| |].
  { intros m3 Hf3. kstep. apply HQ1. eapply pending_suffix; [exact Hm1|]. by eapply pending_suffix. }
  intros fm m3 (_ & Hfl & _) Hfn. kstep. set (s2 := set_freemap fm s1).
  eapply (sfs_mapio_read_spec s2); [done|apply healthy_read; [done|unfold SFS_BLOCKSIZE; lia]|done|exact Hbb| |exact Hfit|].
  { simpl. rewrite Hfl, Hfn, Hbs. change (nmap s2) with (SFS_BITBLOCKS (sp_nblocks sb)).
    symmetry. apply Z.div_unique with 7; lia. }
  intros s' bits' (d & -> & Hhd & Hsd & Hdb & Hspd) Hl' Hsec. kstep. apply HQ2.
  assert (bits' = bits) as ->.
  { apply (map_sectors_eq _ _ (SFS_BITBLOCKS (sp_nblocks sb))); [exact Hl'|done|].
    intros i Hi. rewrite (Hsec i Hi). exact (Hmap i Hi). }
  unfold mounted, sectors; simpl. by rewrite Hfn, Hsd.
Qed.

(** ** Theorems *)

(** [sfs_sync] brings the disk up to date.  It returns 0; the superblock,
    the whole free-block map and every loaded inode are on the disk, nothing
    is marked dirty, and in memory only dirty flags have changed. *)
Theorem sfs_sync_complete s used ps mem :
  syncable s used ps →
  wp sfs_sync
     (λ r w', r = 0 ∧ super_on_disk (wst w') ∧ map_on_disk (wst w') ∧ inodes_on_disk (wst w') ∧
        sfs_superdirty (wst w') = false ∧ sfs_freemapdirty (wst w') = false ∧
        sfs_sb (wst w') = sfs_sb s ∧ sfs_freemap (wst w') = sfs_freemap s ∧
        (∀ p, sfs_heap (wst w') !! p = sfs_heap s !! p ∨
              sfs_heap (wst w') !! p = set_dirty false <$> sfs_heap s !! p)) (World s mem).
Proof.
  intros Hs. eapply (sfs_sync_spec s used ps); [done|done|]. intros s'. by intros; split_and!.
Qed.

(** C30: a file system that has been synced can be mounted again from its
    device.  [sfs_domount] into a fresh structure either fails for lack of
    memory or returns 0 with the same superblock and the same set of blocks
    in use, no vnodes loaded, and the file system invariant; loading any
    inode that had a vnode in memory then yields what was there at the time
    of the sync.  The disk reports no errors. *)
Theorem sfs_sync_mount_roundtrip s used ps s0 mem :
  syncable s used ps → sp_magic (sfs_sb s) = SFS_MAGIC →
  lget (sp_volname (sfs_sb s)) (SFS_VOLNAME_SIZE - 1) = Some 0 →
  wp sfs_sync
     (λ r w', r = 0 ∧
        wp (sfs_domount SFS_BLOCKSIZE)
           (λ r' w'', (r' = ENOMEM ∧ false ∈ wmem w') ∨
              (r' = 0 ∧ fs_ok (wst w'') used ∧ table_ok (wst w'') used [] ∧
               sfs_sb (wst w'') = sfs_sb s ∧
               ∀ p v, sfs_heap s !! p = Some v → disk_inode (wst w'') (sv_ino v) SFS_TYPE_INVAL = sv_i v))
           (World (set_device (sfs_device (wst w')) s0) (wmem w'))) (World s mem).
Proof.
  intros Hs Hmg Hnm. eapply (sfs_sync_spec s used ps); [done|done|].
  intros s' Hok Ht Hlay Hsup Hmap Hin Hsb Hfm _ _ Hheap. split; [done|].
  destruct (layout_bits s' used Hok Hlay) as [_ Hlen]. pose proof (fs_ok_limit s' used Hok) as Hlim.
  pose proof Hok as (Hh & Hss & Hbm & H0 & Hn & Hnb & Hfull). pose proof Hlay as [Hbits Hfit].
  eapply (sfs_domount_spec _ (sfs_sb s') (bv (sfs_freemap s'))); [done| | |].
  - split; simpl; try done; [by rewrite Hsb|by rewrite Hsb|unfold nblocks in *; lia].
  - intros s1 m1 Hf. by left.
  - intros s1 m1 (E1 & E2 & _ & _ & E5 & E6 & E7 & E8 & E9 & _). right. split; [done|]. cbn [wst].
    assert (sfs_freemap s1 = sfs_freemap s') as Hfm1.
    { rewrite E2. destruct (sfs_freemap s') as [n b] eqn:Hb. simpl in *. f_equal. rewrite Hbits. done. }
    split_and!.
    + unfold fs_ok, nblocks in *. rewrite E1, E8, Hfm1, E9. cbn [sfs_device set_device]. exact (conj E7 (conj Hss (conj Hbm (conj H0 (conj Hn (conj Hnb Hfull)))))).
    + split; rewrite ?E5, ?E6; try done; [constructor|].
      intros p. rewrite lookup_empty. split; [by intros ?%not_elem_of_nil|by intros []].
    + congruence.
    + intros p v Hp. unfold disk_inode. rewrite E8. simpl. destruct (Hheap p) as [He|He]; rewrite Hp in He.
      * exact (Hin p v He).
      * exact (Hin p (set_dirty false v) He).
Qed.

(** A file system of eight blocks with its map in block 2 and an empty file
    in block 3; nothing of it is on the disk yet. *)
Definition vol_used : gset Z := {[0; 1; 2; 3]} ∪ list_to_set (seqZ 8 4088).

Definition vol_bytes : list Z := 15 :: replicate 511 255.

Definition vol_fs : sfs_fs :=
  SfsFs (SfsSuper SFS_MAGIC 8 (replicate 32 0) (replicate 118 0)) true
        (Lhd (USpace None ∅) 8 zero_block (replicate 8 zero_block) [])
        (Array 1 4 (Some [Some 1%positive; None; None; None]))
        (Bitmap 4096 vol_bytes) true {[1%positive := set_dirty true tiny_vnode]}.

Lemma vol_used_spec i : i ∈ vol_used ↔ 0 ≤ i < 4 ∨ 8 ≤ i < 4096.
Proof.
  unfold vol_used. rewrite elem_of_union, elem_of_list_to_set, elem_of_seqZ.
  rewrite !elem_of_union, !elem_of_singleton. lia.
Qed.

#[local] Opaque vol_used.

Lemma vol_rep : bitmap_rep (Bitmap 4096 vol_bytes) vol_used.
Proof.
  unfold bitmap_rep, BITMAP_LIMIT. split_and!; [simpl; lia..|reflexivity| | |].
  - apply Forall_cons_2; [by unfold byte|]. apply Forall_replicate. by unfold byte.
  - intros i Hi%vol_used_spec. simpl. lia.
  - change (8 * Z.of_nat (length (bv (Bitmap 4096 vol_bytes)))) with 4096. intros i Hi. cbn [nbits bv].
    replace (4096 <=? i) with false by lia. rewrite orb_false_r. destruct (decide (i < 8)).
    + assert (i = 0 ∨ i = 1 ∨ i = 2 ∨ i = 3 ∨ i = 4 ∨ i = 5 ∨ i = 6 ∨ i = 7) as Hc by lia.
      destruct Hc as [->|[->|[->|[->|[->|[->|[->| ->]]]]]]];
        (rewrite bool_decide_eq_true_2 by (apply vol_used_spec; lia)) ||
        (rewrite bool_decide_eq_false_2 by (rewrite vol_used_spec; lia)); done.
    + rewrite bool_decide_eq_true_2 by (apply vol_used_spec; lia). unfold vbit.
      pose proof (Z.mod_pos_bound i 8 ltac:(lia)) as Hm. pose proof (Z.div_mod i 8 ltac:(lia)).
      assert (lget vol_bytes (i / 8) = Some 255) as ->.
      { unfold vol_bytes. rewrite lget_lookup by lia. destruct (Z.to_nat (i / 8)) as [|k] eqn:Hk; [lia|].
        change ((15 :: replicate 511 255) !! S k) with (replicate 511 255 !! k). apply lookup_replicate_2. lia. }
      set (r := i mod 8) in *. clearbody r.
      assert (r = 0 ∨ r = 1 ∨ r = 2 ∨ r = 3 ∨ r = 4 ∨ r = 5 ∨ r = 6 ∨ r = 7) as Hc by lia.
      by destruct Hc as [->|[->|[->|[->|[->|[->|[->| ->]]]]]]].
Qed.

Lemma vol_ok : fs_ok vol_fs vol_used.
Proof.
  unfold fs_ok, nblocks. split_and!; [|apply Forall_replicate, zero_block_wf|exact vol_rep|
    apply vol_used_spec; lia|simpl; lia..|intros b Hb; apply vol_used_spec; simpl in Hb; lia].
  exact (proj1 tiny_ok).
Qed.

Lemma vol_syncable : syncable vol_fs vol_used [1%positive].
Proof.
  unfold syncable. split; [exact vol_ok|]. split.
  { apply (single_table _ _ (set_dirty true tiny_vnode)); [done|done| |done|done].
    split; [apply vol_used_spec; simpl; lia|done]. }
  split; [split; [done|]; vm_compute; done|]. split.
  { split; [done|]. split; [done|]. by intros p v [_ ->]%single_heap. }
  split; [intros p v [_ ->]%single_heap; apply tiny_inode_ok|]. split.
  { intros p v [_ ->]%single_heap. right. vm_compute. done. }
  unfold super_wf, vol_fs. cbn [sfs_sb sp_magic sp_nblocks sp_volname sp_reserved].
  repeat (split; [done|]). split; [by apply Forall_replicate|]. split; [done|by apply Forall_replicate].
Qed.

Lemma sfs_sync_complete_witness :
  wp sfs_sync
     (λ r w', r = 0 ∧ super_on_disk (wst w') ∧ map_on_disk (wst w') ∧ inodes_on_disk (wst w') ∧
        sfs_superdirty (wst w') = false ∧ sfs_freemapdirty (wst w') = false ∧
        sfs_sb (wst w') = sfs_sb vol_fs ∧ sfs_freemap (wst w') = sfs_freemap vol_fs ∧
        (∀ p, sfs_heap (wst w') !! p = sfs_heap vol_fs !! p ∨
              sfs_heap (wst w') !! p = set_dirty false <$> sfs_heap vol_fs !! p)) (World vol_fs []).
Proof. apply (sfs_sync_complete vol_fs vol_used [1%positive] []). exact vol_syncable. Defined.

Lemma sfs_sync_mount_roundtrip_witness :
  wp sfs_sync
     (λ r w', r = 0 ∧
        wp (sfs_domount SFS_BLOCKSIZE)
           (λ r' w'', (r' = ENOMEM ∧ false ∈ wmem w') ∨
              (r' = 0 ∧ fs_ok (wst w'') vol_used ∧ table_ok (wst w'') vol_used [] ∧
               sfs_sb (wst w'') = sfs_sb vol_fs ∧
               ∀ p v, sfs_heap vol_fs !! p = Some v → disk_inode (wst w'') (sv_ino v) SFS_TYPE_INVAL = sv_i v))
           (World (set_device (sfs_device (wst w')) tiny_fs) (wmem w'))) (World vol_fs []).
Proof.
  apply (sfs_sync_mount_roundtrip vol_fs vol_used [1%positive] tiny_fs []); [exact vol_syncable|done|done].
Defined.
