(* ===== verification/Coremap.v ===== *)
(** * Physical frames (kern/arch/mips/mips/coremap.c, the page functions of vm.c)

    The coremap has an entry for every frame of physical memory that is left
    when the VM system starts.  The working copy has only the pristine text of
    coremap.c and vm.c.  Until [vm_bootstrap] has run, pages come from
    [ram_stealmem]; from then on from [allocate_frame]. *)

From S2P Require Import Prelude Bits Spl Ram KHeap.

Record frame_info := FrameInfo {
  status : Z;
  shared : Z;
  protection : Z;
  alloc_size : Z;
  page_list : Z
}.

Definition SIZEOF_FRAME_INFO : Z := 8.

Definition UNALLOCATED : Z := 0.
Definition KERNEL_ALLOCATED : Z := 1.

(** An entry that was filled with zeros. *)
Definition frame0 : frame_info := FrameInfo 0 0 0 0 0.

(** The static variables of coremap.c, and those of ram.c. *)
Record vmst := Vmst {
  COREMAP_SIZE : Z;
  FRAME0_ADDR : Z;
  UNALLOCATED_FRAME : Z;
  KERNEL_FRAME : Z;
  USER_FRAME : Z;
  coremap : list frame_info;
  VM_INITIALIZED : Z;
  vram : ram
}.

Definition set_coremap (l : list frame_info) (v : vmst) : vmst :=
  Vmst (COREMAP_SIZE v) (FRAME0_ADDR v) (UNALLOCATED_FRAME v) (KERNEL_FRAME v)
       (USER_FRAME v) l (VM_INITIALIZED v) (vram v).
Definition set_counts (u k : Z) (v : vmst) : vmst :=
  Vmst (COREMAP_SIZE v) (FRAME0_ADDR v) u k (USER_FRAME v) (coremap v)
       (VM_INITIALIZED v) (vram v).
Definition set_vram (r : ram) (v : vmst) : vmst :=
  Vmst (COREMAP_SIZE v) (FRAME0_ADDR v) (UNALLOCATED_FRAME v) (KERNEL_FRAME v)
       (USER_FRAME v) (coremap v) (VM_INITIALIZED v) r.

Definition getframe (i : Z) : K vmst frame_info :=
  v ← kget; kof (lget (coremap v) i).

Definition setframe (i : Z) (f : frame_info) : K vmst unit :=
  v ← kget; l ← kof (lset (coremap v) i f); kput (set_coremap l v).

(** The processor and the coremap, as [alloc_kpages] sees them. *)
Definition vsplhigh {V} : K (cpu * V) Z := zoom fst (λ c s, (c, s.2)) splhigh.
Definition vsplx {V} (spl : Z) : K (cpu * V) Z := zoom fst (λ c s, (c, s.2)) (splx spl).
Definition vzoom {V A} (c : K V A) : K (cpu * V) A := zoom snd (λ v s, (s.1, v)) c.

(** ** coremap.c *)

(** The inner loop of the search: the first [j] below [n] whose frame is in
    use, or [n]. *)
Definition frame_run (i n : Z) : K vmst Z :=
  r ← kfind (Z.to_nat n) 0 (λ j _,
        f ← getframe (i + j);
        mret (if negb (status f =? 0) then inr j else inl tt)) tt;
  mret (match r with inr j => j | inl _ => Z.max 0 n end).

(** The outer loop: the start of the first run of [n] frames. *)
Definition frame_search (n : Z) : K vmst (option Z) :=
  v ← kget;
  let bound := COREMAP_SIZE v - (n - 1) in
  r ← kloop (Z.to_nat bound) (λ i, i <? bound) (λ i,
        j ← frame_run i n;
        mret (if j =? n then inr i else inl (i + (j + 1)))) 0;
  mret (match r with inr i => Some i | inl _ => None end).

Definition frame_mark (index n : Z) : K vmst unit :=
  kfold (Z.to_nat n) index (λ k allocation_size,
    f ← getframe k;
    setframe k (FrameInfo KERNEL_ALLOCATED (shared f) (protection f)
                  (u8 allocation_size) (page_list f));;
    mret (allocation_size - 1)) n;;
  mret tt.

Definition allocate_frame (n : Z) : K (cpu * vmst) Z :=
  spl ← vsplhigh;
  s ← kget;
  if UNALLOCATED_FRAME s.2 <? n then vsplx spl;; mret 0 else
  found ← vzoom (frame_search n);
  match found with
  | Some index =>
      vzoom (frame_mark index n;;
             v ← kget;
             kput (set_counts (i32 (UNALLOCATED_FRAME v - n)) (i32 (KERNEL_FRAME v + n)) v));;
      s ← kget;
      vsplx spl;;
      mret (u32 (FRAME0_ADDR s.2 + index * PAGE_SIZE))
  | None => vsplx spl;; mret 0
  end.

(** The loop of [free_frame]: clears entries up to the last of the block and
    counts them. *)
Definition frame_clear (frame_index : Z) : K vmst Z :=
  v ← kget;
  r ← kloop (Z.to_nat (COREMAP_SIZE v - frame_index)) (λ t, t.1 <? COREMAP_SIZE v) (λ t,
        let '(frame_index, n) := t in
        let n := n + 1 in
        f ← getframe frame_index;
        setframe frame_index frame0;;
        mret (if alloc_size f =? 1 then inr n else inl (frame_index + 1, n)))
        (frame_index, 0);
  mret (match r with inr n => n | inl t => t.2 end).

Definition free_frame (addr : Z) : K (cpu * vmst) Z :=
  spl ← vsplhigh;
  let address := u32 (addr - MIPS_KSEG0) in
  s ← kget;
  let frame_index := u32 (address - FRAME0_ADDR s.2) / PAGE_SIZE in
  n ← vzoom (frame_clear frame_index);
  vzoom (v ← kget;
         kput (set_counts (i32 (UNALLOCATED_FRAME v + n)) (i32 (KERNEL_FRAME v - n)) v));;
  vsplx spl;;
  mret 0.

Definition frame_index (frameaddr : Z) (v : vmst) : Z :=
  u32 (frameaddr - FRAME0_ADDR v) / PAGE_SIZE.

Definition increfcount (frameaddr : Z) : K vmst unit :=
  v ← kget;
  let index := frame_index frameaddr v in
  f ← getframe index;
  setframe index (FrameInfo (status f) (u8 (shared f + 1)) (protection f)
                    (alloc_size f) (page_list f)).

Definition decrefcount (frameaddr : Z) : K vmst unit :=
  v ← kget;
  let index := frame_index frameaddr v in
  f ← getframe index;
  setframe index (FrameInfo (status f) (u8 (shared f - 1)) (protection f)
                    (alloc_size f) (page_list f)).

Definition isShared (frameaddr : Z) : K vmst Z :=
  v ← kget;
  f ← getframe (frame_index frameaddr v);
  mret (shared f).

(** ** The page functions of vm.c *)

Definition vm_getppages (npages : Z) : K (cpu * vmst) Z :=
  spl ← vsplhigh;
  s ← kget;
  addr ← (if VM_INITIALIZED s.2 =? 0
          then vzoom (zoom vram set_vram (ram_stealmem npages))
          else allocate_frame (i32 npages));
  vsplx spl;;
  mret addr.

Definition vm_alloc_kpages (npages : Z) : K (cpu * vmst) Z :=
  pa ← vm_getppages (u32 npages);
  if pa =? 0 then mret 0 else mret (PADDR_TO_KVADDR pa).

Definition vm_free_kpages (addr : Z) : K (cpu * vmst) unit :=
  s ← kget;
  if negb (VM_INITIALIZED s.2 =? 0) then free_frame addr;; mret tt else mret tt.

#[global] Instance vm_ops : PageOps vmst := {
  kpages_alloc := vm_alloc_kpages;
  kpages_free := vm_free_kpages
}.

(** ** Starting the VM system *)

(** The memory of the coremap itself is the block [kmalloc] returns; its
    entries are kept in [coremap].  [bzero] through a NULL pointer faults. *)
Definition coremap_initialization : K (kheap vmst) unit :=
  s ← kget;
  let v := hvm s in
  kput (set_hvm (hcpu s, Vmst (COREMAP_SIZE v) (FRAME0_ADDR v) 0 0 0 (coremap v)
                           (VM_INITIALIZED v) (vram v)) s);;
  '(lo, hi) ← zoom (λ s, vram (hvm s)) (λ r s, set_hvm (hcpu s, set_vram r (hvm s)) s)
                ram_getsize;
  let hi := u32 (hi - PAGE_SIZE) in
  let free_frames_num := i32 (u32 (hi - lo) / PAGE_SIZE + 1) in
  let size := u32 (i32 (free_frames_num * PAGE_SIZE)) / (PAGE_SIZE + SIZEOF_FRAME_INFO) in
  let npages := i32 (u32 (size * SIZEOF_FRAME_INFO) / PAGE_SIZE + 1) in
  p ← kmalloc (u32 (npages * PAGE_SIZE));
  if p =? 0 then kundef else
  '(lo, hi) ← zoom (λ s, vram (hvm s)) (λ r s, set_hvm (hcpu s, set_vram r (hvm s)) s)
                ram_getsize;
  s ← kget;
  kput (set_hvm (hcpu s, Vmst size lo size 0 0 (replicate (Z.to_nat size) frame0) 1
                           (vram (hvm s))) s).

Definition vm_bootstrap : K (kheap vmst) unit := coremap_initialization.
