(* ===== verification/CoremapSpec.v ===== *)
(** * The coremap implements the page allocator the kernel heap needs

    Every frame is free or belongs to exactly one region handed out; the
    counters agree with the entries.  The search of [allocate_frame] is exact,
    [free_frame] clears exactly one region, and both together are an instance
    of [KPages], before and after [vm_bootstrap]. *)

From S2P Require Import Prelude Bits Spl Ram KHeap KHeapInv Coremap.

#[local] Ltac Zify.zify_post_hook ::= Z.div_mod_to_equations.

(** ** Free frames *)

Definition frame_free (l : list frame_info) (k : Z) : Prop :=
  ∃ f, lget l k = Some f ∧ status f = 0.

Definition frame_busy (l : list frame_info) (k : Z) : Prop :=
  ∃ f, lget l k = Some f ∧ status f ≠ 0.

Lemma free_not_busy l k : frame_free l k → frame_busy l k → False.
Proof. intros (f & Hf & ?) (g & Hg & ?). congruence. Qed.

(** [n] free frames from [i] on. *)
Definition run (l : list frame_info) (i n : Z) : Prop :=
  0 ≤ i ∧ i + n ≤ Z.of_nat (length l) ∧ ∀ k, i ≤ k < i + n → frame_free l k.

Definition nfree_frames (l : list frame_info) : Z :=
  Z.of_nat (length (filter (λ f, status f = 0) l)).

(** [i] is the lowest run of [n] frames. *)
Definition first_run (l : list frame_info) (n : Z) (o : option Z) : Prop :=
  match o with
  | Some i => run l i n ∧ ∀ i', i' < i → ¬ run l i' n
  | None => ∀ i, ¬ run l i n
  end.

(** ** Effects on the coremap *)

(** Nothing but the entries and the two counters changes. *)
Definition same_geometry (v v' : vmst) : Prop :=
  COREMAP_SIZE v' = COREMAP_SIZE v ∧ FRAME0_ADDR v' = FRAME0_ADDR v ∧
  USER_FRAME v' = USER_FRAME v ∧ VM_INITIALIZED v' = VM_INITIALIZED v ∧ vram v' = vram v.

(** The frames [i] to [i + n - 1] are changed by [g], the others are kept. *)
Record changed (g : Z → frame_info → frame_info) (l l' : list frame_info) (i n : Z) : Prop :=
  Changed {
  ch_len : length l' = length l;
  ch_in k f : i ≤ k < i + n → lget l k = Some f → lget l' k = Some (g k f);
  ch_out k : ¬ (i ≤ k < i + n) → lget l' k = lget l k
}.

Definition marked (i n k : Z) (f : frame_info) : frame_info :=
  FrameInfo KERNEL_ALLOCATED (shared f) (protection f) (u8 (n - (k - i))) (page_list f).

Definition cleared (k : Z) (f : frame_info) : frame_info := frame0.

Lemma changed_refl g l i : changed g l l i 0.
Proof. split; [done| |done]. intros. lia. Qed.

(** One more entry. *)
Lemma changed_step g l l' i n f :
  changed g l l' i n → 0 ≤ i → 0 ≤ n → lget l (i + n) = Some f →
  changed g l (<[Z.to_nat (i + n) := g (i + n) f]> l') i (n + 1).
Proof.
  intros [Hl Hin Hout] Hi Hn Hf. pose proof (lget_Some_range _ _ _ Hf).
  split.
  - by rewrite length_insert.
  - intros k f' Hk Hf'. destruct (decide (k = i + n)) as [->|].
    + rewrite Hf in Hf'. injection Hf' as <-. apply lget_insert_eq. rewrite Hl. lia.
    + rewrite lget_insert_ne by lia. apply Hin; [lia|done].
  - intros k Hk. rewrite lget_insert_ne by lia. apply Hout. lia.
Qed.

Lemma nfree_insert l k f g :
  l !! k = Some f →
  nfree_frames (<[k := g]> l) =
  nfree_frames l + (if decide (status g = 0) then 1 else 0) -
  (if decide (status f = 0) then 1 else 0).
Proof.
  intros Hf. pose proof (lookup_lt_Some _ _ _ Hf).
  unfold nfree_frames. rewrite insert_take_drop by done.
  assert (filter (λ f, status f = 0) l =
          filter (λ f, status f = 0) (take k l ++ f :: drop (S k) l)) as ->.
  { by rewrite take_drop_middle. }
  rewrite !filter_app, !length_app, !filter_cons.
  repeat case_decide; simpl; lia.
Qed.

(** ** The search *)

Lemma getframe_wp i f v m (Q : frame_info → world vmst → Prop) :
  lget (coremap v) i = Some f → Q f (World v m) → wp (getframe i) Q (World v m).
Proof.
  intros Hf HQ. unfold getframe. rewrite wp_bind, wp_kget. cbn [wst].
  by rewrite (wp_kof _ _ _ _ Hf).
Qed.

Lemma setframe_wp i f v m (Q : unit → world vmst → Prop) :
  0 ≤ i < Z.of_nat (length (coremap v)) →
  Q tt (World (set_coremap (<[Z.to_nat i := f]> (coremap v)) v) m) →
  wp (setframe i f) Q (World v m).
Proof.
  intros Hi HQ. unfold setframe. rewrite wp_bind, wp_kget. cbn [wst].
  by rewrite wp_bind, (wp_kof _ _ _ _ (lset_Some _ _ f Hi)), wp_kput.
Qed.

Lemma frame_run_spec i n v m (Q : Z → world vmst → Prop) :
  0 ≤ i → 0 ≤ n → i + n ≤ Z.of_nat (length (coremap v)) →
  (∀ j, 0 ≤ j ≤ n → (∀ k, i ≤ k < i + j → frame_free (coremap v) k) →
     (j < n → frame_busy (coremap v) (i + j)) → Q j (World v m)) →
  wp (frame_run i n) Q (World v m).
Proof.
  intros Hi Hn Hle HQ. unfold frame_run. rewrite wp_bind.
  apply (wp_kfind (λ j _ w, w = World v m ∧
           ∀ k, i ≤ k < i + j → frame_free (coremap v) k)).
  - split; [done|]. intros. lia.
  - intros j _ w Hj (-> & Hfree). rewrite wp_bind.
    destruct (lget_is_Some (coremap v) (i + j)) as (f & Hf); [lia|].
    apply (getframe_wp _ f); [done|]. rewrite wp_ret.
    destruct (Z.eqb_spec (status f) 0) as [H0|H0]; cbn [negb].
    + split; [done|]. intros k Hk. destruct (decide (k = i + j)) as [->|]; [by exists f|].
      apply Hfree. lia.
    + rewrite wp_ret. apply HQ; [lia|done|]. intros _. by exists f.
  - intros _ w (-> & Hfree). rewrite wp_ret. rewrite Z.max_r by lia. apply HQ; [lia| |lia].
    intros k Hk. apply Hfree. lia.
Qed.

Lemma frame_search_spec n v m (Q : option Z → world vmst → Prop) :
  0 < n → Z.of_nat (length (coremap v)) = COREMAP_SIZE v →
  (∀ o, first_run (coremap v) n o → Q o (World v m)) →
  wp (frame_search n) Q (World v m).
Proof.
  intros Hn Hlen HQ. unfold frame_search. rewrite wp_bind, wp_kget. cbn [wst]. rewrite wp_bind.
  apply (wp_kloop (λ i w, w = World v m ∧ 0 ≤ i ∧ ∀ i', i' < i → ¬ run (coremap v) i' n)
           (λ i, Z.to_nat (COREMAP_SIZE v - (n - 1) - i))).
  - lia.
  - split_and!; [done|done|]. intros i' Hi' (? & _). lia.
  - intros i w Hi (-> & Hi0 & Hno). apply Z.ltb_lt in Hi. rewrite wp_bind.
    apply frame_run_spec; [lia..|]. intros j Hj Hfree Hbusy. rewrite wp_ret.
    destruct (Z.eqb_spec j n) as [->|Hjn].
    + rewrite wp_ret. split; [|lia]. apply HQ. split; [|done]. split_and!; [done|lia|done].
    + split; [|lia]. split_and!; [done|lia|]. intros i' Hi' Hrun.
      destruct (decide (i' < i)); [by eapply Hno|]. destruct Hrun as (_ & _ & Hrun).
      destruct (decide (i' ≤ i + j < i' + n)); [|lia].
      eapply free_not_busy; [by apply Hrun|]. apply Hbusy. lia.
  - intros i w Hi (-> & Hi0 & Hno). apply Z.ltb_ge in Hi. rewrite wp_ret. apply HQ.
    intros i' Hrun. apply (Hno i'); [|done]. destruct Hrun as (? & ? & _). lia.
Qed.

(** ** Marking and clearing *)

Lemma set_coremap_id v : set_coremap (coremap v) v = v.
Proof. by destruct v. Qed.

Lemma frame_mark_spec i n v m (Q : unit → world vmst → Prop) :
  0 < n → run (coremap v) i n →
  (∀ l', changed (marked i n) (coremap v) l' i n →
     nfree_frames l' = nfree_frames (coremap v) - n → Q tt (World (set_coremap l' v) m)) →
  wp (frame_mark i n) Q (World v m).
Proof.
  intros Hn (Hi & Hle & Hrun) HQ. unfold frame_mark. rewrite wp_bind.
  apply (wp_kfold (λ k a w, ∃ l', w = World (set_coremap l' v) m ∧ a = n - (k - i) ∧
           i ≤ k ∧ changed (marked i n) (coremap v) l' i (k - i) ∧
           nfree_frames l' = nfree_frames (coremap v) - (k - i))).
  - exists (coremap v). rewrite set_coremap_id, Z.sub_diag. split_and!; [done|lia|lia| |lia].
    apply changed_refl.
  - intros k a w Hk (l' & -> & -> & Hik & Hch & Hc).
    destruct (Hrun k) as (f & Hf & H0); [lia|].
    assert (lget l' k = Some f) as Hf' by (rewrite (ch_out _ _ _ _ _ Hch); [done|lia]).
    rewrite wp_bind. apply (getframe_wp _ f); [done|].
    rewrite wp_bind. apply setframe_wp.
    { cbn [coremap set_coremap]. rewrite (ch_len _ _ _ _ _ Hch). lia. }
    rewrite wp_ret. eexists. split; [done|]. split_and!; [lia|lia| |].
    + replace (k + 1 - i) with (k - i + 1) by lia.
      replace k with (i + (k - i)) in Hf by lia.
      pose proof (changed_step _ _ _ _ _ f Hch Hi ltac:(lia) Hf) as Hs.
      replace (i + (k - i)) with k in Hs by lia. exact Hs.
    + cbn [coremap set_coremap].
      rewrite lget_lookup in Hf' by lia. rewrite (nfree_insert _ _ f) by done.
      cbn [status]. rewrite decide_False by done. rewrite decide_True by done. lia.
  - intros a w (l' & -> & _ & _ & Hch & Hc). rewrite wp_ret.
    replace (i + Z.of_nat (Z.to_nat n) - i) with n in * by lia. by apply HQ.
Qed.

(** The entries of a region of [n] frames count down to 1, modulo 256. *)
Definition region_entries (v : vmst) (i n : Z) : Prop :=
  0 ≤ i ∧ 0 < n ∧ i + n ≤ COREMAP_SIZE v ∧
  ∀ k, i ≤ k < i + n → ∃ f, lget (coremap v) k = Some f ∧
    status f = KERNEL_ALLOCATED ∧ alloc_size f = u8 (n - (k - i)).

(** Where [free_frame] stops: at the first entry with the value 1. *)
Definition span (n : Z) : Z := (n - 1) mod 256 + 1.

Lemma span_le n : 0 < n → 0 < span n ≤ n.
Proof. unfold span. lia. Qed.

Lemma span_id n : 0 < n ≤ 256 → span n = n.
Proof. unfold span. lia. Qed.

Lemma span_stop n c : 0 ≤ c < span n → u8 (n - c) = 1 ↔ c + 1 = span n.
Proof. unfold u8, span. change (2 ^ 8) with 256. lia. Qed.

Lemma frame_clear_spec i n v m (Q : Z → world vmst → Prop) :
  Z.of_nat (length (coremap v)) = COREMAP_SIZE v → region_entries v i n →
  (∀ l', changed cleared (coremap v) l' i (span n) →
     nfree_frames l' = nfree_frames (coremap v) + span n →
     Q (span n) (World (set_coremap l' v) m)) →
  wp (frame_clear i) Q (World v m).
Proof.
  intros Hlen (Hi & Hn & Hle & Hown) HQ. unfold frame_clear.
  pose proof (span_le n Hn) as Hspan.
  rewrite wp_bind, wp_kget. cbn [wst]. rewrite wp_bind.
  apply (wp_kloop (λ t w, ∃ l', w = World (set_coremap l' v) m ∧ t.1 = i + t.2 ∧
           0 ≤ t.2 < span n ∧ changed cleared (coremap v) l' i t.2 ∧
           nfree_frames l' = nfree_frames (coremap v) + t.2)
           (λ t, Z.to_nat (COREMAP_SIZE v - t.1))).
  - done.
  - exists (coremap v). rewrite set_coremap_id. split_and!; simpl; try lia; [done|].
    apply changed_refl.
  - intros [k c] w Hk (l' & -> & Ht & Hc & Hch & Hcnt). simpl in Ht, Hc, Hch, Hcnt. subst k.
    destruct (Hown (i + c)) as (f & Hf & Hst & Hsz); [lia|].
    assert (lget l' (i + c) = Some f) as Hf' by (rewrite (ch_out _ _ _ _ _ Hch); [done|lia]).
    rewrite wp_bind. apply (getframe_wp _ f); [done|].
    rewrite wp_bind. apply setframe_wp.
    { cbn [coremap set_coremap]. rewrite (ch_len _ _ _ _ _ Hch). lia. }
    rewrite wp_ret. cbn [coremap set_coremap].
    pose proof (changed_step _ _ _ _ _ f Hch Hi ltac:(lia) Hf) as Hs.
    assert (nfree_frames (<[Z.to_nat (i + c) := cleared (i + c) f]> l') =
            nfree_frames (coremap v) + (c + 1)) as Hcnt'.
    { rewrite lget_lookup in Hf' by lia. rewrite (nfree_insert _ _ f) by done. cbn [status cleared frame0].
      rewrite decide_True by done. rewrite decide_False by (rewrite Hst; done). lia. }
    rewrite Hsz. replace (n - (i + c - i)) with (n - c) by lia.
    destruct (Z.eqb_spec (u8 (n - c)) 1) as [H1|H1]; rewrite span_stop in H1 by lia.
    + rewrite wp_ret. split; [|simpl; lia]. rewrite H1 in Hs, Hcnt' |- *. by apply HQ.
    + split; [|simpl; lia]. cbn [fst snd]. eexists.
      split; [done|]. split_and!; [lia|lia|lia|done|done].
  - intros [k c] w Hk (l' & -> & Ht & Hc & _ & _). simpl in *. apply Z.ltb_ge in Hk. lia.
Qed.

(** A region small enough for the counters. *)
Definition owned (v : vmst) (i n : Z) : Prop := region_entries v i n ∧ n ≤ 256.

(** A pointer below the managed frames is ignored. *)
Lemma frame_clear_outside i v m (Q : Z → world vmst → Prop) :
  COREMAP_SIZE v ≤ i → Q 0 (World v m) → wp (frame_clear i) Q (World v m).
Proof.
  intros Hi HQ. unfold frame_clear. rewrite wp_bind, wp_kget. cbn [wst].
  rewrite wp_bind, wp_kloop_done by (simpl; lia). by rewrite wp_ret.
Qed.

(** ** The invariant *)

(** The kernel address of frame [i]. *)
Definition frame_kvaddr (v : vmst) (i : Z) : Z := MIPS_KSEG0 + FRAME0_ADDR v + i * PAGE_SIZE.

(** A region taken from [ram_stealmem] before the coremap existed. *)
Definition below (v : vmst) (b n : Z) : Prop :=
  b mod PAGE_SIZE = 0 ∧ 0 < n ∧ MIPS_KSEG0 ≤ b ∧ b + n * PAGE_SIZE ≤ MIPS_KSEG0 + FRAME0_ADDR v.

Record cm_ok (v : vmst) (R : gmap Z Z) : Prop := CmOk {
  cm_len : Z.of_nat (length (coremap v)) = COREMAP_SIZE v;
  cm_base : 0 < FRAME0_ADDR v;
  cm_aligned : FRAME0_ADDR v mod PAGE_SIZE = 0;
  cm_top : FRAME0_ADDR v + COREMAP_SIZE v * PAGE_SIZE ≤ MIPS_KSEG1 - MIPS_KSEG0;
  cm_unalloc : UNALLOCATED_FRAME v = nfree_frames (coremap v);
  cm_kernel : KERNEL_FRAME v = COREMAP_SIZE v - nfree_frames (coremap v);
  cm_zero k f : lget (coremap v) k = Some f → status f = 0 → f = frame0;
  cm_region b n : R !! b = Some n →
    below v b n ∨ ∃ i, owned v i n ∧ b = frame_kvaddr v i;
  cm_apart b n b' n' : R !! b = Some n → R !! b' = Some n' → b ≠ b' →
    apart b (n * PAGE_SIZE) b' (n' * PAGE_SIZE);
  cm_cover k : frame_busy (coremap v) k →
    ∃ i n, R !! frame_kvaddr v i = Some n ∧ i ≤ k < i + n
}.

Definition vm_pages_ok (v : vmst) (R : gmap Z Z) : Prop :=
  (VM_INITIALIZED v = 0 ∧ stolen (vram v) R) ∨ (VM_INITIALIZED v ≠ 0 ∧ cm_ok v R).

Lemma nfree_range l : 0 ≤ nfree_frames l ≤ Z.of_nat (length l).
Proof. unfold nfree_frames. pose proof (length_filter (λ f, status f = 0) l). lia. Qed.

Lemma filter_id {A} (P : A → Prop) `{∀ x, Decision (P x)} l : Forall P l → filter P l = l.
Proof. induction 1; [done|]. rewrite filter_cons_True by done. by f_equal. Qed.

(** A run of [n] free frames needs [n] free frames. *)
Lemma run_nfree l i n : run l i n → n ≤ nfree_frames l.
Proof.
  intros (Hi & Hle & Hrun). destruct (decide (0 < n)); [|pose proof (nfree_range l); lia].
  assert (Forall (λ f, status f = 0) (take (Z.to_nat n) (drop (Z.to_nat i) l))) as Hall.
  { apply Forall_lookup. intros k f (Hk & Hlt)%lookup_take_Some.
    rewrite lookup_drop in Hk. destruct (Hrun (i + Z.of_nat k)) as (f' & Hf & H0); [lia|].
    rewrite lget_lookup in Hf by lia.
    replace (Z.to_nat (i + Z.of_nat k)) with (Z.to_nat i + k)%nat in Hf by lia. congruence. }
  unfold nfree_frames. rewrite <- (take_drop (Z.to_nat i) l).
  rewrite <- (take_drop (Z.to_nat n) (drop (Z.to_nat i) l)).
  rewrite !filter_app, !length_app, (filter_id _ (take (Z.to_nat n) _)) by done.
  rewrite length_take, length_drop. lia.
Qed.

Lemma owned_region v i n :
  0 < FRAME0_ADDR v → FRAME0_ADDR v mod PAGE_SIZE = 0 →
  FRAME0_ADDR v + COREMAP_SIZE v * PAGE_SIZE ≤ MIPS_KSEG1 - MIPS_KSEG0 →
  owned v i n → page_region (frame_kvaddr v i) n.
Proof.
  intros Hb Ha Ht ((Hi & Hn & Hle & _) & _). unfold frame_kvaddr, page_region.
  unfold MIPS_KSEG0, MIPS_KSEG1, PAGE_SIZE in *. lia.
Qed.

Lemma cm_page_region v R b n : cm_ok v R → R !! b = Some n → page_region b n.
Proof.
  intros Hok Hb. destruct (cm_region _ _ Hok _ _ Hb) as [(? & ? & ? & ?)|(i & Hown & ->)].
  - pose proof (cm_top _ _ Hok). pose proof (cm_len _ _ Hok). unfold page_region.
    unfold MIPS_KSEG0, MIPS_KSEG1, PAGE_SIZE in *. lia.
  - apply owned_region; [apply Hok..|done].
Qed.

Lemma kvaddr_inj v i j : frame_kvaddr v i = frame_kvaddr v j → i = j.
Proof. unfold frame_kvaddr, PAGE_SIZE. lia. Qed.

(** Regions in the coremap that are apart share no frame. *)
Lemma apart_frames v i n j k :
  apart (frame_kvaddr v i) (n * PAGE_SIZE) (frame_kvaddr v j) (k * PAGE_SIZE) →
  i + n ≤ j ∨ j + k ≤ i.
Proof. unfold apart, frame_kvaddr, PAGE_SIZE. lia. Qed.

(** ** The invariant is preserved *)

Lemma owned_kept v v' i n :
  same_geometry v v' → owned v i n →
  (∀ k, i ≤ k < i + n → lget (coremap v') k = lget (coremap v) k) → owned v' i n.
Proof.
  intros (Hsz & _) ((Hi & Hn & Hle & Hown) & Hmax) Heq. split; [|done].
  split_and!; [done|lia|lia|].
  intros k Hk. rewrite Heq by done. by apply Hown.
Qed.

Lemma below_kept v v' b n : same_geometry v v' → below v b n → below v' b n.
Proof. intros (_ & Hf & _). unfold below. by rewrite Hf. Qed.

Lemma busy_range l k : frame_busy l k → 0 ≤ k < Z.of_nat (length l).
Proof. intros (f & Hf & _). by eapply lget_Some_range. Qed.

Lemma owned_busy v i n k : owned v i n → i ≤ k < i + n → frame_busy (coremap v) k.
Proof.
  intros ((_ & _ & _ & Hown) & _) Hk. destruct (Hown k Hk) as (f & Hf & Hs & _).
  exists f. split; [done|]. by rewrite Hs.
Qed.

Lemma cm_alloc v R i n l' :
  cm_ok v R → 0 < n ≤ 256 → run (coremap v) i n →
  changed (marked i n) (coremap v) l' i n →
  nfree_frames l' = nfree_frames (coremap v) - n →
  let v' := set_counts (UNALLOCATED_FRAME v - n) (KERNEL_FRAME v + n) (set_coremap l' v) in
  R !! frame_kvaddr v i = None ∧ cm_ok v' (<[frame_kvaddr v i := n]> R).
Proof.
  intros Hok Hn Hrun Hch Hcnt v'. destruct (Hrun) as (Hi & Hle & Hfree).
  pose proof (cm_len _ _ Hok) as Hlen.
  assert (same_geometry v v') as Hgeo by done.
  assert (owned v' i n) as Hnew.
  { split; [|lia]. split_and!; [done|lia|cbn; lia|]. intros k Hk. destruct (Hfree k Hk) as (f & Hf & _).
    eexists. split; [by apply Hch|]. done. }
  assert (∀ j k, owned v j k → i + n ≤ j ∨ j + k ≤ i) as Hdisj.
  { intros j k Hown. destruct (decide (i + n ≤ j ∨ j + k ≤ i)); [done|exfalso].
    destruct (Hown) as ((? & ? & _) & _).
    apply (free_not_busy (coremap v) (Z.max i j)); [apply Hfree; lia|].
    eapply owned_busy; [done|lia]. }
  assert (∀ b k, R !! b = Some k →
    apart (frame_kvaddr v i) (n * PAGE_SIZE) b (k * PAGE_SIZE)) as Hap.
  { intros b k Hb. destruct (cm_region _ _ Hok _ _ Hb) as [(? & ? & ? & ?)|(j & Hown & ->)].
    - right. unfold frame_kvaddr, PAGE_SIZE in *. lia.
    - destruct (Hdisj _ _ Hown); [left|right]; unfold frame_kvaddr, PAGE_SIZE; lia. }
  split.
  { apply eq_None_not_Some. intros (k & Hk). destruct (cm_page_region _ _ _ _ Hok Hk) as (_ & ? & _).
    destruct (Hap _ _ Hk); unfold PAGE_SIZE in *; lia. }
  destruct Hok as [_ Hb Ha Ht Hu Hk Hz Hreg Hapart Hcov]. split; try done.
  - cbn. rewrite (ch_len _ _ _ _ _ Hch). done.
  - cbn. lia.
  - cbn. lia.
  - cbn. intros k f Hf Hs. destruct (decide (i ≤ k < i + n)) as [Hk'|Hk'].
    + destruct (Hfree k Hk') as (g & Hg & _). rewrite (ch_in _ _ _ _ _ Hch _ g Hk' Hg) in Hf.
      injection Hf as <-. done.
    + rewrite (ch_out _ _ _ _ _ Hch) in Hf by done. by eapply Hz.
  - intros b k. rewrite lookup_insert_Some. intros [(<- & <-)|(_ & Hbk)].
    + right. by exists i.
    + destruct (Hreg _ _ Hbk) as [?|(j & Hown & ->)]; [left; by eapply below_kept|right].
      exists j. split; [|done]. eapply owned_kept; [done|done|]. intros x Hx. cbn.
      apply Hch. destruct (Hdisj _ _ Hown); lia.
  - intros b k b' k'. rewrite !lookup_insert_Some.
    intros [(<- & <-)|(_ & Hbk)] [(<- & <-)|(_ & Hbk')] Hne; [done|by apply Hap| |by eapply Hapart].
    destruct (Hap _ _ Hbk); [by right|by left].
  - intros k Hbusy. destruct (decide (i ≤ k < i + n)) as [Hin|Hin].
    + exists i, n. cbn. by rewrite lookup_insert_eq.
    + destruct (Hcov k) as (j & p & Hj & Hjk).
      { destruct Hbusy as (f & Hf & Hs). exists f. split; [|done].
        rewrite <- (ch_out _ _ _ _ _ Hch k Hin). exact Hf. }
      exists j, p. split; [|done]. change (frame_kvaddr v' j) with (frame_kvaddr v j).
      rewrite lookup_insert_ne; [done|]. intros E%kvaddr_inj. subst j.
      destruct (Hreg _ _ Hj) as [(_ & ? & _ & ?)|(j & Hown & E%kvaddr_inj)].
      * unfold frame_kvaddr, PAGE_SIZE in *. lia.
      * subst j. destruct (Hdisj _ _ Hown); destruct (Hown) as ((_ & ? & _) & _); lia.
Qed.

Lemma cm_free v R i n l' :
  cm_ok v R → R !! frame_kvaddr v i = Some n → owned v i n →
  changed cleared (coremap v) l' i n →
  nfree_frames l' = nfree_frames (coremap v) + n →
  cm_ok (set_counts (UNALLOCATED_FRAME v + n) (KERNEL_FRAME v - n) (set_coremap l' v))
        (delete (frame_kvaddr v i) R).
Proof.
  intros Hok HR Hown Hch Hcnt. set (v' := set_counts _ _ _).
  assert (same_geometry v v') as Hgeo by done.
  assert (∀ j k, R !! frame_kvaddr v j = Some k → j ≠ i → i + n ≤ j ∨ j + k ≤ i) as Hdisj.
  { intros j k Hj Hne. apply (apart_frames v). eapply (cm_apart _ _ Hok); [done|done|].
    intros E%kvaddr_inj. congruence. }
  destruct Hok as [Hlen Hb Ha Ht Hu Hk Hz Hreg Hapart Hcov]. split; try done.
  - cbn. rewrite (ch_len _ _ _ _ _ Hch). done.
  - cbn. lia.
  - cbn. lia.
  - cbn. intros k f Hf Hs. destruct (decide (i ≤ k < i + n)) as [Hk'|Hk'].
    + destruct Hown as ((_ & _ & _ & Hown) & _). destruct (Hown k Hk') as (g & Hg & _).
      rewrite (ch_in _ _ _ _ _ Hch _ g Hk' Hg) in Hf. by injection Hf as <-.
    + rewrite (ch_out _ _ _ _ _ Hch) in Hf by done. by eapply Hz.
  - intros b k (Hne & Hbk)%lookup_delete_Some.
    destruct (Hreg _ _ Hbk) as [?|(j & Hown' & ->)]; [left; by eapply below_kept|right].
    exists j. split; [|done]. eapply owned_kept; [done|done|]. intros x Hx. cbn. apply Hch.
    destruct (Hdisj _ _ Hbk); [congruence|lia..].
  - intros b k b' k' (_ & Hbk)%lookup_delete_Some (_ & Hbk')%lookup_delete_Some.
    by eapply Hapart.
  - intros k (f & Hf & Hs). cbn in Hf. destruct (decide (i ≤ k < i + n)) as [Hk'|Hk'].
    + exfalso. destruct Hown as ((_ & _ & _ & Hown) & _). destruct (Hown k Hk') as (g & Hg & _).
      rewrite (ch_in _ _ _ _ _ Hch _ g Hk' Hg) in Hf. injection Hf as <-. by apply Hs.
    + rewrite (ch_out _ _ _ _ _ Hch) in Hf by done.
      destruct (Hcov k) as (j & p & Hj & Hjk); [by exists f|].
      exists j, p. split; [|done]. change (frame_kvaddr v' j) with (frame_kvaddr v j).
      apply lookup_delete_Some. split; [|done]. intros E%kvaddr_inj. subst j. rewrite HR in Hj. injection Hj as <-. done.
Qed.

(** ** The operations *)

(** A request that was refused, or the frames it took. *)
Definition frames_took (v : vmst) (n a : Z) (v' : vmst) : Prop :=
  (a = 0 ∧ v' = v ∧ ∀ i, ¬ run (coremap v) i n) ∨
  (∃ i l', a = frame_kvaddr v i ∧ first_run (coremap v) n (Some i) ∧
     changed (marked i n) (coremap v) l' i n ∧
     v' = set_counts (UNALLOCATED_FRAME v - n) (KERNEL_FRAME v + n) (set_coremap l' v)).

(** The same before the coremap exists. *)
Definition ram_took (v : vmst) (n a : Z) (v' : vmst) : Prop :=
  (a = 0 ∧ v' = v ∧ lastpaddr (vram v) < firstpaddr (vram v) + n * PAGE_SIZE) ∨
  (a = MIPS_KSEG0 + firstpaddr (vram v) ∧
   firstpaddr (vram v) + n * PAGE_SIZE ≤ lastpaddr (vram v) ∧
   v' = set_vram (Ram (firstpaddr (vram v) + n * PAGE_SIZE) (lastpaddr (vram v))) v).

Definition vm_took (v : vmst) (n a : Z) (v' : vmst) : Prop :=
  (VM_INITIALIZED v = 0 ∧ ram_took v n a v') ∨ (VM_INITIALIZED v ≠ 0 ∧ frames_took v n a v').

(** The frames of the region at [a] were cleared, or nothing happened. *)
Definition frames_gave (v : vmst) (a : Z) (v' : vmst) : Prop :=
  v' = v ∨
  (∃ i n l', a = frame_kvaddr v i ∧ owned v i n ∧ changed cleared (coremap v) l' i n ∧
     v' = set_counts (UNALLOCATED_FRAME v + n) (KERNEL_FRAME v - n) (set_coremap l' v)).

Lemma vsplhigh_wp {V} (Q : Z → world (cpu * V) → Prop) c v m :
  Q (curspl c) (World (high c, v) m) → wp vsplhigh Q (World (c, v) m).
Proof. apply splhigh_zoom. Qed.

Lemma vsplx_wp {V} (Q : Z → world (cpu * V) → Prop) c v m :
  cpu_ok c → Q SPL_HIGH (World (c, v) m) → wp (vsplx (curspl c)) Q (World (high c, v) m).
Proof. apply splx_zoom. Qed.

Lemma allocate_frame_spec n R c v m (Q : Z → world (cpu * vmst) → Prop) :
  cpu_ok c → cm_ok v R → 0 < n ≤ 256 →
  ((∀ i, ¬ run (coremap v) i n) → Q 0 (World (c, v) m)) →
  (∀ i l', first_run (coremap v) n (Some i) → changed (marked i n) (coremap v) l' i n →
     let v' := set_counts (UNALLOCATED_FRAME v - n) (KERNEL_FRAME v + n) (set_coremap l' v) in
     R !! frame_kvaddr v i = None → cm_ok v' (<[frame_kvaddr v i := n]> R) →
     Q (FRAME0_ADDR v + i * PAGE_SIZE) (World (c, v') m)) →
  wp (allocate_frame n) Q (World (c, v) m).
Proof.
  intros Hc Hok Hn Hno Hyes. unfold allocate_frame. rewrite wp_bind. apply vsplhigh_wp.
  rewrite wp_bind, wp_kget. cbn [wst snd].
  destruct (Z.ltb_spec (UNALLOCATED_FRAME v) n) as [Hlt|Hle].
  { rewrite wp_bind. apply vsplx_wp; [done|]. rewrite wp_ret. apply Hno.
    intros i Hrun%run_nfree. rewrite (cm_unalloc _ _ Hok) in Hlt. lia. }
  rewrite wp_bind. unfold vzoom. rewrite wp_zoom. cbn [wst wmem snd fst].
  pose proof (cm_len _ _ Hok) as Hlen. pose proof (nfree_range (coremap v)) as Hnf.
  apply frame_search_spec; [lia|done|]. intros [i|] Hfirst.
  - destruct (Hfirst) as (Hrun & _). rewrite wp_bind, wp_zoom. cbn [wst wmem snd fst].
    rewrite wp_bind. apply frame_mark_spec; [lia|done|]. intros l' Hch Hcnt.
    destruct (cm_alloc v R i n l' Hok Hn Hrun Hch Hcnt) as (HR & Hok').
    rewrite wp_bind, wp_kget, wp_kput. cbn [wst wmem snd fst]. rewrite wp_bind, wp_kget.
    cbn [wst snd]. rewrite wp_bind. apply vsplx_wp; [done|]. rewrite wp_ret.
    pose proof (cm_base _ _ Hok). pose proof (cm_top _ _ Hok). destruct (Hrun) as (? & ? & _).
    cbn [FRAME0_ADDR set_counts set_coremap UNALLOCATED_FRAME KERNEL_FRAME].
    rewrite (cm_unalloc _ _ Hok), (cm_kernel _ _ Hok) in *.
    rewrite u32_id by (unfold MIPS_KSEG0, MIPS_KSEG1, PAGE_SIZE in *; lia).
    rewrite !i32_id by (unfold MIPS_KSEG0, MIPS_KSEG1, PAGE_SIZE in *; lia).
    by apply (Hyes i l').
  - rewrite wp_bind. apply vsplx_wp; [done|]. rewrite wp_ret. by apply Hno.
Qed.

Lemma free_index v i :
  0 < FRAME0_ADDR v → 0 ≤ i < COREMAP_SIZE v →
  FRAME0_ADDR v + COREMAP_SIZE v * PAGE_SIZE ≤ MIPS_KSEG1 - MIPS_KSEG0 →
  u32 (u32 (frame_kvaddr v i - MIPS_KSEG0) - FRAME0_ADDR v) / PAGE_SIZE = i.
Proof.
  intros Hb Hi Ht. unfold frame_kvaddr, PAGE_SIZE, MIPS_KSEG0, MIPS_KSEG1 in *.
  rewrite (u32_id (_ - 2147483648)) by lia. rewrite u32_id by lia. lia.
Qed.

Lemma below_index v b n :
  0 < FRAME0_ADDR v → 0 ≤ COREMAP_SIZE v → below v b n →
  FRAME0_ADDR v + COREMAP_SIZE v * PAGE_SIZE ≤ MIPS_KSEG1 - MIPS_KSEG0 →
  COREMAP_SIZE v ≤ u32 (u32 (b - MIPS_KSEG0) - FRAME0_ADDR v) / PAGE_SIZE.
Proof.
  intros Hf Hs (Hm & Hn & Hlo & Hhi) Ht. unfold PAGE_SIZE, MIPS_KSEG0, MIPS_KSEG1 in *.
  rewrite (u32_id (b - 2147483648)) by lia.
  assert (u32 (b - 2147483648 - FRAME0_ADDR v) = b - 2147483648 - FRAME0_ADDR v + 2 ^ 32) as ->.
  { unfold u32. symmetry. apply (Z.mod_unique _ _ (-1)); lia. }
  lia.
Qed.

Lemma free_frame_spec b n R c v m (Q : Z → world (cpu * vmst) → Prop) :
  cpu_ok c → cm_ok v R → R !! b = Some n →
  (∀ v', cm_ok v' (delete b R) → VM_INITIALIZED v' = VM_INITIALIZED v → frames_gave v b v' →
     Q 0 (World (c, v') m)) →
  wp (free_frame b) Q (World (c, v) m).
Proof.
  intros Hc Hok HR HQ. unfold free_frame. rewrite wp_bind. apply vsplhigh_wp.
  rewrite wp_bind, wp_kget. cbn [wst snd]. rewrite wp_bind. unfold vzoom. rewrite wp_zoom.
  cbn [wst wmem snd fst].
  pose proof (cm_base _ _ Hok) as Hb. pose proof (cm_top _ _ Hok) as Ht.
  pose proof (cm_len _ _ Hok) as Hlen. pose proof (nfree_range (coremap v)) as Hnf.
  destruct (cm_region _ _ Hok _ _ HR) as [Hbel|(i & Hown & ->)].
  - apply frame_clear_outside; [apply (below_index _ _ n); (done || lia)|].
    rewrite wp_bind, wp_zoom. cbn [wst wmem snd fst]. rewrite wp_bind, wp_kget, wp_kput.
    cbn [wst wmem snd fst]. rewrite wp_bind. apply vsplx_wp; [done|]. rewrite wp_ret.
    rewrite (cm_unalloc _ _ Hok), (cm_kernel _ _ Hok), !i32_id, Z.add_0_r, Z.sub_0_r
      by (unfold MIPS_KSEG0, MIPS_KSEG1, PAGE_SIZE in *; lia).
    rewrite <- (cm_unalloc _ _ Hok) at 1. rewrite <- (cm_kernel _ _ Hok).
    replace (set_counts (UNALLOCATED_FRAME v) (KERNEL_FRAME v) v) with v by (by destruct v).
    apply HQ; [|done|by left].
    destruct Hok as [? ? ? ? ? ? ? Hreg Hap Hcov]. split; try done.
    + intros b' k (_ & Hk)%lookup_delete_Some. by apply Hreg.
    + intros b1 k1 b2 k2 (_ & H1)%lookup_delete_Some (_ & H2)%lookup_delete_Some. by apply Hap.
    + intros k Hk. destruct (Hcov k Hk) as (j & p & Hj & Hr). exists j, p. split; [|done].
      apply lookup_delete_Some. split; [|done]. intros ->. destruct Hbel as (_ & ? & _ & ?).
      assert (0 ≤ j).
      { destruct (Hreg _ _ Hj) as [?|(j' & ((? & _) & _) & E%kvaddr_inj)]; [|lia].
        unfold below, frame_kvaddr, PAGE_SIZE in *. apply busy_range in Hk. lia. }
      unfold frame_kvaddr, PAGE_SIZE in *. lia.
  - destruct (Hown) as (Hent & Hmax). destruct (Hent) as (? & ? & ? & _).
    rewrite free_index by (done || lia). apply (frame_clear_spec i n); [done|done|].
    rewrite span_id by lia. intros l' Hch Hcnt.
    rewrite wp_bind, wp_zoom. cbn [wst wmem snd fst]. rewrite wp_bind, wp_kget, wp_kput.
    cbn [wst wmem snd fst]. rewrite wp_bind. apply vsplx_wp; [done|]. rewrite wp_ret.
    pose proof (nfree_range l') as Hnf'. rewrite (ch_len _ _ _ _ _ Hch) in Hnf'.
    cbn [UNALLOCATED_FRAME KERNEL_FRAME set_coremap].
    pose proof (cm_free v R i n l' Hok HR Hown Hch Hcnt) as Hok'.
    rewrite !i32_id
      by (rewrite ?(cm_unalloc _ _ Hok), ?(cm_kernel _ _ Hok);
          unfold MIPS_KSEG0, MIPS_KSEG1, PAGE_SIZE in *; lia).
    apply HQ; [done|done|]. right. by exists i, n, l'.
Qed.

(** ** The interface to the kernel heap *)

Lemma vm_getppages_boot n c v m (Q : Z → world (cpu * vmst) → Prop) :
  cpu_ok c → VM_INITIALIZED v = 0 → ram_ok (vram v) → 0 ≤ n ≤ MAXPAGES →
  (lastpaddr (vram v) < firstpaddr (vram v) + n * PAGE_SIZE → Q 0 (World (c, v) m)) →
  (firstpaddr (vram v) + n * PAGE_SIZE ≤ lastpaddr (vram v) →
   Q (firstpaddr (vram v))
     (World (c, set_vram (Ram (firstpaddr (vram v) + n * PAGE_SIZE) (lastpaddr (vram v))) v) m)) →
  wp (vm_getppages n) Q (World (c, v) m).
Proof.
  intros Hc H0 Hr Hn Hno Hyes. unfold vm_getppages. rewrite wp_bind. apply vsplhigh_wp.
  rewrite wp_bind, wp_kget. cbn [wst snd]. rewrite H0. cbn [Z.eqb].
  rewrite wp_bind. unfold vzoom. rewrite !wp_zoom. cbn [wst wmem snd fst].
  assert (set_vram (vram v) v = v) as E by (by destruct v).
  apply ram_stealmem_spec; [done|done|..]; intros Hfit; cbn [wst wmem snd fst];
    rewrite wp_bind; apply vsplx_wp; try done; rewrite wp_ret; [rewrite E|]; eauto.
Qed.

Lemma vm_getppages_frames n R c v m (Q : Z → world (cpu * vmst) → Prop) :
  cpu_ok c → VM_INITIALIZED v ≠ 0 → cm_ok v R → 0 < n ≤ 256 →
  ((∀ i, ¬ run (coremap v) i n) → Q 0 (World (c, v) m)) →
  (∀ i l', first_run (coremap v) n (Some i) → changed (marked i n) (coremap v) l' i n →
     let v' := set_counts (UNALLOCATED_FRAME v - n) (KERNEL_FRAME v + n) (set_coremap l' v) in
     R !! frame_kvaddr v i = None → cm_ok v' (<[frame_kvaddr v i := n]> R) →
     Q (FRAME0_ADDR v + i * PAGE_SIZE) (World (c, v') m)) →
  wp (vm_getppages n) Q (World (c, v) m).
Proof.
  intros Hc H1 Hok Hn Hno Hyes. unfold vm_getppages. rewrite wp_bind. apply vsplhigh_wp.
  rewrite wp_bind, wp_kget. cbn [wst snd]. rewrite (proj2 (Z.eqb_neq _ _) H1).
  rewrite wp_bind, i32_id by lia.
  apply (allocate_frame_spec _ R); [by apply high_ok|done|done| |].
  - intros Hnone. rewrite wp_bind. apply vsplx_wp; [done|]. rewrite wp_ret. by apply Hno.
  - intros i l' Hfirst Hch v' HR Hok'. rewrite wp_bind. apply vsplx_wp; [done|]. rewrite wp_ret.
    by apply Hyes.
Qed.

#[global] Instance vm_pages : KPages vmst.
Proof.
  refine {| kpages_ok := vm_pages_ok; kpages_max := 256;
            kpages_took := vm_took;
            kpages_gave v a v' := VM_INITIALIZED v ≠ 0 → frames_gave v a v' |}.
  - done.
  - intros v R b n [(_ & Hs)|(_ & Hok)] Hb; [|by eapply cm_page_region].
    by eapply (@kpages_region ram _ dumbvm_pages).
  - intros v R b n b' n' [(_ & Hs)|(_ & Hok)]; [|by eapply cm_apart].
    by eapply (@kpages_apart ram _ dumbvm_pages).
  - intros Q n R c v m Hc Hv Hn Hno Hyes. simpl. unfold vm_alloc_kpages.
    rewrite wp_bind, u32_id by lia. destruct Hv as [(H0 & Hs)|(H1 & Hok)].
    + apply vm_getppages_boot; [done|done|apply Hs|unfold MAXPAGES; lia|..]; intros Hfit.
      * cbn [Z.eqb]. rewrite wp_ret. apply Hno; [by left|]. left. split; [done|]. by left.
      * destruct Hs as [Hr Hreg Hap]. rewrite (proj2 (Z.eqb_neq _ 0)) by (destruct Hr; lia).
        rewrite wp_ret, kvaddr by done. apply Hyes.
        -- apply eq_None_not_Some. intros [k Hk%Hreg]. unfold PAGE_SIZE in *. lia.
        -- left. split; [done|]. by apply stolen_steal; [|lia|].
        -- left. split; [done|]. by right.
    + pose proof (cm_base _ _ Hok). pose proof (cm_top _ _ Hok). pose proof (cm_len _ _ Hok).
      apply (vm_getppages_frames _ R); [done..| |].
      * intros Hnone. cbn [Z.eqb]. rewrite wp_ret. apply Hno; [by right|]. right. split; [done|]. by left.
      * intros i l' Hfirst Hch v' HR Hok'. destruct (Hfirst) as ((? & ? & _) & _).
        rewrite (proj2 (Z.eqb_neq _ 0)) by (unfold PAGE_SIZE; lia). rewrite wp_ret.
        assert (PADDR_TO_KVADDR (FRAME0_ADDR v + i * PAGE_SIZE) = frame_kvaddr v i) as ->.
        { unfold PADDR_TO_KVADDR, frame_kvaddr, PAGE_SIZE, MIPS_KSEG0, MIPS_KSEG1 in *.
          rewrite u32_id by lia. lia. }
        apply Hyes; [done|by right|]. right. split; [done|]. right. by exists i, l'.
  - intros Q a n R c v m Hc Hv HR HQ. simpl. unfold vm_free_kpages.
    rewrite wp_bind, wp_kget. cbn [wst snd]. destruct Hv as [(H0 & Hs)|(H1 & Hok)].
    + rewrite H0. cbn [Z.eqb negb]. rewrite wp_ret. apply HQ; [left|by rewrite H0].
      split; [done|]. destruct Hs as [Hr Hreg Hap]. split; [done|..].
      * intros b k (_ & Hb)%lookup_delete_Some. by apply Hreg.
      * intros b k b' k' (_ & Hb)%lookup_delete_Some (_ & Hb')%lookup_delete_Some.
        by apply Hap.
    + rewrite (proj2 (Z.eqb_neq _ _) H1). cbn [negb]. rewrite wp_bind.
      eapply (free_frame_spec _ n R); [done..|]. intros v' Hok' Hi Hg. rewrite wp_ret.
      apply HQ; [|done]. right. by rewrite Hi.
Defined.
