(* ===== verification/CoremapProps.v ===== *)
(** * Properties of the coremap

    Starting the VM system, the search for frames, and the limits of the 8-bit
    fields of an entry. *)

From S2P Require Import Prelude Bits Spl Ram KHeap KHeapInv KHeapOk KHeapSpec KHeapProps Coremap CoremapSpec.

#[local] Ltac Zify.zify_post_hook ::= Z.div_mod_to_equations.

(** ** Starting the VM system *)

(** The number of free frames, of entries, and of pages for the entries. *)
Definition free_frames (r : ram) : Z := (lastpaddr r - firstpaddr r) / PAGE_SIZE.
Definition entries (F : Z) : Z := F * PAGE_SIZE / (PAGE_SIZE + SIZEOF_FRAME_INFO).
Definition entry_pages (F : Z) : Z := entries F * SIZEOF_FRAME_INFO / PAGE_SIZE + 1.

(** Every frame is used; if 513 divides the number, one frame too many. *)
Lemma entries_total F :
  1 ≤ F → 0 ≤ entries F ∧ 1 ≤ entry_pages F ≤ F ∧
  entry_pages F + entries F = F + (if F mod 513 =? 0 then 1 else 0).
Proof.
  intros HF. unfold entry_pages, entries, PAGE_SIZE, SIZEOF_FRAME_INFO.
  destruct (Z.eqb_spec (F mod 513) 0); lia.
Qed.

Lemma nfree_replicate n : nfree_frames (replicate n frame0) = Z.of_nat n.
Proof.
  unfold nfree_frames. rewrite filter_id by (by apply Forall_replicate).
  by rewrite length_replicate.
Qed.

(** The coremap right after it was set up. *)
Definition booted (size : Z) (r : ram) : vmst :=
  Vmst size (firstpaddr r) size 0 0 (replicate (Z.to_nat size) frame0) 1 r.

Lemma cm_boot size r R :
  stolen r R → 0 ≤ size → firstpaddr r + size * PAGE_SIZE ≤ MIPS_KSEG1 - MIPS_KSEG0 →
  cm_ok (booted size r) R.
Proof.
  intros [[] Hreg Hap] Hs Ht. split; cbn [booted COREMAP_SIZE FRAME0_ADDR coremap
    UNALLOCATED_FRAME KERNEL_FRAME]; try done.
  - rewrite length_replicate. lia.
  - rewrite nfree_replicate. lia.
  - rewrite nfree_replicate. lia.
  - intros k f Hf _. unfold lget in Hf. case_decide; [|done].
    by apply lookup_replicate in Hf as (-> & _).
  - intros b n Hb. left. by apply Hreg.
  - intros k (f & Hf & Hn). exfalso. unfold lget in Hf. case_decide; [|done].
    apply lookup_replicate in Hf as (-> & _). by apply Hn.
Qed.

Lemma vm_bootstrap_spec s H m (Q : unit → world (kheap vmst) → Prop) :
  heap_rep s H → VM_INITIALIZED (hvm s) = 0 → 1 ≤ free_frames (vram (hvm s)) →
  let F := free_frames (vram (hvm s)) in
  (∀ b s', H !! b = None → heap_rep s' (<[b := entry_pages F * PAGE_SIZE]> H) → kept H s s' →
     hvm s' = booted (entries F)
       (Ram (firstpaddr (vram (hvm s)) + entry_pages F * PAGE_SIZE) (lastpaddr (vram (hvm s)))) →
     Q tt (World s' m)) →
  wp vm_bootstrap Q (World s m).
Proof.
  intros Hrep H0 HF F HQ. unfold vm_bootstrap, coremap_initialization.
  pose proof (entries_total F HF) as (He & Hp & Htot).
  assert (∃ R, stolen (vram (hvm s)) R) as (R0 & Hst).
  { destruct Hrep as (A & R & Hok & _). exists R.
    destruct (ho_vm _ _ _ Hok) as [(_ & ?)|(? & _)]; done. }
  destruct (st_ram _ _ Hst) as [Hfirst Horder Hlast Halign].
  rewrite wp_bind, wp_kget, wp_bind, wp_kput. cbn [wst wmem].
  set (v := hvm s) in *. set (v1 := Vmst _ _ 0 0 0 _ _ _).
  rewrite wp_bind, wp_zoom. unfold ram_getsize at 1. rewrite wp_bind, wp_kget, wp_ret.
  cbn [wst wmem hvm hcpu set_hvm fst snd set_vram v1 vram].
  unfold F, free_frames in *. fold v in HF, HQ, He, Hp, Htot. set (r := vram v) in *.
  assert (u32 (u32 (lastpaddr r - PAGE_SIZE) - firstpaddr r) / PAGE_SIZE + 1 =
          (lastpaddr r - firstpaddr r) / PAGE_SIZE) as ->.
  { unfold PAGE_SIZE in *. rewrite (u32_id (_ - 4096)) by lia. rewrite u32_id by lia. lia. }
  set (G := (lastpaddr r - firstpaddr r) / PAGE_SIZE) in *.
  assert (1 ≤ G ≤ 130048) as HG by (unfold G, PAGE_SIZE in *; lia).
  rewrite (i32_id G) by lia.
  rewrite (i32_id (G * PAGE_SIZE)), (u32_id (G * PAGE_SIZE)) by (unfold PAGE_SIZE; lia).
  change (G * PAGE_SIZE / (PAGE_SIZE + SIZEOF_FRAME_INFO)) with (entries G).
  assert (entries G ≤ 130048) by (destruct (G mod 513 =? 0); lia).
  rewrite (u32_id (entries G * _)) by (unfold SIZEOF_FRAME_INFO; lia).
  change (entries G * SIZEOF_FRAME_INFO / PAGE_SIZE + 1) with (entry_pages G).
  assert (entry_pages G ≤ 256) by (unfold entry_pages, SIZEOF_FRAME_INFO, PAGE_SIZE; lia).
  rewrite (i32_id (entry_pages G)), u32_id by (unfold PAGE_SIZE; lia).
  rewrite wp_bind. set (s1 := set_hvm _ _).
  assert (pages_of (entry_pages G * PAGE_SIZE) = entry_pages G) as Hpo
    by (unfold pages_of, PAGE_SIZE; lia).
  assert (heap_rep s1 H) as Hrep1.
  { apply (heap_rep_hvm s (set_vram r v1)); [done|].
    intros R [(_ & HR)|(? & _)]; [by left|done]. }
  apply (kmalloc_pages_spec _ _ H); [done| |..].
  { unfold KMALLOC_MAX, LARGEST_SUBPAGE_SIZE, PAGE_SIZE. cbn [kpages_max vm_pages]. lia. }
  - rewrite Hpo. intros v' _ [(_ & [(_ & _ & Hno)|(E & _)])|(Hi & _)]; exfalso; [..|by apply Hi].
    + change (vram (hvm s1)) with r in Hno. unfold G, PAGE_SIZE in *. lia.
    + change (vram (hvm s1)) with r in E. unfold MIPS_KSEG0 in E. lia.
  - rewrite Hpo.
    intros a v' Ha (_ & _ & Hlo & _) Hrep' [(_ & [(E & _)|(_ & Hfit & ->)])|(Hi & _)];
      [exfalso; unfold MIPS_KSEG0 in *; lia| |by exfalso; apply Hi].
    change (vram (hvm s1)) with r in *.
    rewrite (proj2 (Z.eqb_neq a 0)) by (unfold MIPS_KSEG0 in *; lia).
    rewrite wp_bind, wp_zoom. unfold ram_getsize. rewrite wp_bind, wp_kget, wp_ret.
    rewrite wp_bind, wp_kget, wp_kput.
    cbn [wst wmem hvm hcpu set_hvm fst snd set_vram vram firstpaddr lastpaddr].
    apply (HQ a); [done| |done|done].
    apply (heap_rep_hvm _ (booted (entries G)
      (Ram (firstpaddr r + entry_pages G * PAGE_SIZE) (lastpaddr r)))) in Hrep'; [exact Hrep'|].
    intros R [(_ & HR)|(Hi & _)]; [|by exfalso; apply Hi]. right. split; [done|].
    apply cm_boot; [exact HR|done|]. cbn [firstpaddr].
    unfold G, MIPS_KSEG0, MIPS_KSEG1, PAGE_SIZE in *. destruct (_ mod 513 =? 0); lia.
Qed.

(** C29: [vm_bootstrap] on a machine with at least one free page succeeds and
    keeps the kernel heap intact: the blocks allocated before stay allocated
    with their contents, and can be freed later.  All frames of the coremap are
    free, and they lie inside physical memory exactly if the number of free
    pages is not a multiple of 513; if it is, the last one lies outside. *)
Theorem vm_bootstrap_keeps_heap s H m (Hrep : heap_rep s H)
    (H0 : VM_INITIALIZED (hvm s) = 0) (HF : 1 ≤ free_frames (vram (hvm s))) :
  wp vm_bootstrap (λ _ w', let v' := hvm (wst w') in
      (∃ b z, H !! b = None ∧ heap_rep (wst w') (<[b := z]> H)) ∧ kept H s (wst w') ∧
      VM_INITIALIZED v' = 1 ∧ UNALLOCATED_FRAME v' = COREMAP_SIZE v' ∧
      (FRAME0_ADDR v' + COREMAP_SIZE v' * PAGE_SIZE ≤ lastpaddr (vram (hvm s)) ↔
       free_frames (vram (hvm s)) mod 513 ≠ 0)) (World s m).
Proof.
  apply (vm_bootstrap_spec s H); [done..|]. intros b s' Hb Hrep' Hk Hv. cbn [wst].
  rewrite Hv. cbn [booted VM_INITIALIZED UNALLOCATED_FRAME COREMAP_SIZE FRAME0_ADDR firstpaddr].
  split_and!; [by eauto|done|done|done|].
  set (F := free_frames (vram (hvm s))) in *.
  pose proof (entries_total F HF) as (_ & _ & Htot).
  assert (firstpaddr (vram (hvm s)) + (F + 1) * PAGE_SIZE > lastpaddr (vram (hvm s)) ∧
          firstpaddr (vram (hvm s)) + F * PAGE_SIZE ≤ lastpaddr (vram (hvm s)))
    by (unfold F, free_frames, PAGE_SIZE; lia).
  unfold PAGE_SIZE in *. destruct (Z.eqb_spec (F mod 513) 0); split; intros; lia.
Qed.

(** ** Allocation *)

(** C18: [allocate_frame(n)], whose search skips ahead by the length of the run
    it has just seen, finds the lowest run of [n] free frames, exactly like a
    search that tries every position; it answers 0 only if there is none, and
    leaves the entries and counters as they were then. *)
Theorem allocate_frame_first_fit n R c v m (Hc : cpu_ok c) (Hok : cm_ok v R)
    (Hn : 0 < n ≤ 256) :
  wp (allocate_frame n) (λ a w', (wst w').1 = c ∧
      ((a = 0 ∧ first_run (coremap v) n None ∧ (wst w').2 = v) ∨
       ∃ i, a = FRAME0_ADDR v + i * PAGE_SIZE ∧ first_run (coremap v) n (Some i) ∧
         cm_ok (wst w').2 (<[frame_kvaddr v i := n]> R) ∧
         UNALLOCATED_FRAME (wst w').2 = UNALLOCATED_FRAME v - n)) (World (c, v) m).
Proof.
  apply (allocate_frame_spec _ R); [done..| |].
  - intros Hno. split; [done|]. by left.
  - intros i l' Hf Hch v' _ Hok'. split; [done|]. right. by exists i.
Qed.

(** Once no region of the coremap is handed out, all frames are free again. *)
Theorem coremap_no_leak v R :
  cm_ok v R → (∀ b n, R !! b = Some n → below v b n) →
  UNALLOCATED_FRAME v = COREMAP_SIZE v ∧ KERNEL_FRAME v = 0.
Proof.
  intros Hok Hb. assert (nfree_frames (coremap v) = COREMAP_SIZE v) as E.
  { rewrite <- (cm_len _ _ Hok). unfold nfree_frames. rewrite filter_id; [done|].
    apply Forall_lookup. intros k f Hf. destruct (decide (status f = 0)) as [|Hne]; [done|exfalso].
    assert (frame_busy (coremap v) (Z.of_nat k)) as Hbusy.
    { exists f. by rewrite lget_of_nat. }
    destruct (cm_cover _ _ Hok _ Hbusy) as (i & n & Hi & Hk).
    destruct (Hb _ _ Hi) as (_ & ? & _ & ?).
    unfold frame_kvaddr, PAGE_SIZE in *. lia. }
  rewrite (cm_unalloc _ _ Hok), (cm_kernel _ _ Hok). lia.
Qed.

(** C36: The size of a block is kept in eight bits: [free_frame] of a block of [n]
    frames gives back only ((n - 1) mod 256) + 1 of them.  A block of 257
    frames gives back one. *)
Theorem free_frame_large_leaks i n c v m (Hc : cpu_ok c)
    (Hlen : Z.of_nat (length (coremap v)) = COREMAP_SIZE v) (Hb : 0 < FRAME0_ADDR v)
    (Ht : FRAME0_ADDR v + COREMAP_SIZE v * PAGE_SIZE ≤ MIPS_KSEG1 - MIPS_KSEG0)
    (He : region_entries v i n) :
  wp (free_frame (frame_kvaddr v i)) (λ _ w',
      nfree_frames (coremap (wst w').2) = nfree_frames (coremap v) + ((n - 1) mod 256 + 1))
     (World (c, v) m).
Proof.
  unfold free_frame. rewrite wp_bind. apply vsplhigh_wp.
  rewrite wp_bind, wp_kget. cbn [wst snd]. rewrite wp_bind. unfold vzoom. rewrite wp_zoom.
  cbn [wst wmem snd fst]. destruct (He) as (? & ? & ? & _). rewrite free_index by (done || lia).
  apply (frame_clear_spec i n); [done|done|]. intros l' Hch Hcnt.
  rewrite wp_bind, wp_zoom. cbn [wst wmem snd fst]. rewrite wp_bind, wp_kget, wp_kput.
  cbn [wst wmem snd fst]. rewrite wp_bind. apply vsplx_wp; [done|]. by rewrite wp_ret.
Qed.

(** ** A machine with 256k of free memory *)

Definition vm0 : vmst := Vmst 0 0 0 0 0 [] 0 ram0.

Definition vmheap0 : kheap vmst := boot_heap cpu0 vm0.

Lemma vmheap0_rep : heap_rep vmheap0 ∅.
Proof. apply boot_heap_rep; [apply cpu0_ok|]. left. split; [done|apply ram0_stolen]. Qed.

Lemma vm_bootstrap_keeps_heap_witness :
  wp vm_bootstrap (λ _ w', let v' := hvm (wst w') in
      (∃ b z, (∅ : gmap Z Z) !! b = None ∧ heap_rep (wst w') (<[b := z]> ∅)) ∧
      kept ∅ vmheap0 (wst w') ∧
      VM_INITIALIZED v' = 1 ∧ UNALLOCATED_FRAME v' = COREMAP_SIZE v' ∧
      (FRAME0_ADDR v' + COREMAP_SIZE v' * PAGE_SIZE ≤ lastpaddr (vram (hvm vmheap0)) ↔
       free_frames (vram (hvm vmheap0)) mod 513 ≠ 0)) (World vmheap0 []).
Proof. apply (vm_bootstrap_keeps_heap vmheap0 ∅ [] vmheap0_rep); [done|by vm_compute]. Defined.

Definition cm0 : vmst := booted 63 (Ram 0x41000 0x80000).

Lemma cm0_ok : cm_ok cm0 ∅.
Proof.
  apply cm_boot; [|done|done]. split; [by split|..]; intros ? ? *; by rewrite lookup_empty.
Qed.

Lemma allocate_frame_first_fit_witness :
  wp (allocate_frame 3) (λ a w', (wst w').1 = cpu0 ∧
      ((a = 0 ∧ first_run (coremap cm0) 3 None ∧ (wst w').2 = cm0) ∨
       ∃ i, a = FRAME0_ADDR cm0 + i * PAGE_SIZE ∧ first_run (coremap cm0) 3 (Some i) ∧
         cm_ok (wst w').2 (<[frame_kvaddr cm0 i := 3]> ∅) ∧
         UNALLOCATED_FRAME (wst w').2 = UNALLOCATED_FRAME cm0 - 3)) (World (cpu0, cm0) []).
Proof. apply (allocate_frame_first_fit 3 ∅ cpu0 cm0 [] cpu0_ok cm0_ok). lia. Defined.

(** A coremap with one block of 257 frames. *)
Definition cm257 : vmst :=
  Vmst 257 0x41000 0 257 0
    ((λ k, FrameInfo KERNEL_ALLOCATED 0 0 (u8 (257 - k)) 0) <$> seqZ 0 257) 1 ram0.

Lemma cm257_entries : region_entries cm257 0 257.
Proof.
  split_and!; [done..|]. intros k Hk. exists (FrameInfo KERNEL_ALLOCATED 0 0 (u8 (257 - k)) 0).
  split; [|by rewrite Z.sub_0_r].
  rewrite lget_lookup by lia. cbn [coremap cm257]. rewrite list_lookup_fmap, lookup_seqZ_lt by lia.
  cbn [fmap option_fmap option_map]. do 3 f_equal. lia.
Qed.

Lemma free_frame_large_leaks_witness :
  wp (free_frame (frame_kvaddr cm257 0)) (λ _ w',
      nfree_frames (coremap (wst w').2) = nfree_frames (coremap cm257) + ((257 - 1) mod 256 + 1))
     (World (cpu0, cm257) []).
Proof.
  apply (free_frame_large_leaks 0 257 cpu0 cm257 [] cpu0_ok); [by vm_compute..|].
  apply cm257_entries.
Defined.
