(* ===== verification/PageTable.v ===== *)
(** * Two-level page tables with copy-on-write (kern/vm/page_table.c)

    The working copy has only the pristine text of page_table.c.  A page table
    is a page of 1024 words; entry [i] is 0 or the physical address of a second
    page of 1024 words, whose entries are the low words of TLB entries.  Both
    levels and the frames of user programs are blocks of the kernel heap, and
    the words are those of its memory. *)

From S2P Require Import Prelude Bits Spl Ram KHeap Tlb Coremap.

Definition SECOND_INDEX : Z := 0x3ff.
Definition PTE_READONLY : Z := 0x1.

(** The answers of [pt_lookup]. *)
Definition PTE_FOUND : Z := 0.
Definition WRITE_PERMITTED : Z := 1.
Definition WRITE_NOT_PERMITTED : Z := 2.
Definition NO_SECOND_LEVEL_PT : Z := 3.
Definition INVALID : Z := 4.

(** The flag of a writable segment (kern/include/elf.h). *)
Definition PF_W : Z := 2.

Definition KVADDR_TO_PADDR (vaddr : Z) : Z := u32 (vaddr - MIPS_KSEG0).

(** [x & ~m] on 32-bit words. *)
Definition andnot (x m : Z) : Z := Z.land x (u32 (Z.lnot m)).

Definition bit_set (x m : Z) : bool := negb (Z.land x m =? 0).

(** The kernel with its heap on top of the coremap. *)
Abbreviation KV := (K (kheap vmst)).

Definition on_coremap {A} (c : K vmst A) : KV A :=
  zoom hvm (λ v s, set_hvm (hcpu s, v) s) c.

(** [bzero] and [memmove] on whole words of kernel memory. *)
Definition kbzero (a len : Z) : KV unit :=
  kfold (Z.to_nat (len / 4)) 0 (λ j _, kstore (u32 (a + 4 * j)) 0) tt.

Definition kmemmove (dst src len : Z) : KV unit :=
  let copy j := w ← kload (u32 (src + 4 * j)); kstore (u32 (dst + 4 * j)) w in
  if dst <? src then kfold (Z.to_nat (len / 4)) 0 (λ j _, copy j) tt
  else kfold (Z.to_nat (len / 4)) 0 (λ j _, copy (len / 4 - 1 - j)) tt.

(** The element [i] of an array of words. *)
Definition elem (a i : Z) : Z := u32 (a + 4 * i).

Definition pt_create : KV Z :=
  addr ← kmalloc 4096;
  if negb (addr =? 0) then kbzero addr 4096;; mret addr else mret 0.

(** The error code and the value of the pointer behind [new_pt]. *)
Definition pt_copy (old_pt : Z) : KV (Z * Z) :=
  new_pt ← kmalloc 4096;
  if new_pt =? 0 then mret (ENOMEM, 0) else
  kbzero new_pt 4096;;
  r ← kfind 1024 0 (λ i _,
    e ← kload (elem old_pt i);
    if negb (e =? 0) then
      let old_second_pt := PADDR_TO_KVADDR e in
      new_second_pt ← kmalloc 4096;
      kbzero new_second_pt 4096;;
      if new_second_pt =? 0 then mret (inr ENOMEM) else
      kstore (elem new_pt i) (KVADDR_TO_PADDR new_second_pt);;
      kmemmove new_second_pt old_second_pt PAGE_SIZE;;
      mret (inl tt)
    else mret (inl tt)) tt;
  mret (match r with inr e => e | inl _ => 0 end, new_pt).

(** The answer and the value of [*entrylo]. *)
Definition pt_lookup (page_table faultaddress faulttype entrylo : Z) : KV (Z * Z) :=
  let index_1 := Z.shiftr faultaddress 22 in
  psecond_pt ← kload (elem page_table index_1);
  if psecond_pt =? 0 then mret (NO_SECOND_LEVEL_PT, entrylo) else
  let second_pt := PADDR_TO_KVADDR psecond_pt in
  let index_2 := Z.land (Z.shiftr faultaddress 12) SECOND_INDEX in
  w ← kload (elem second_pt index_2);
  if bit_set w TLBLO_VALID then
    if faulttype =? VM_FAULT_READONLY then
      mret (if bit_set w TLBLO_DIRTY then WRITE_PERMITTED else WRITE_NOT_PERMITTED,
            andnot w PTE_READONLY)
    else
      mret (PTE_FOUND, if bit_set w PTE_READONLY then andnot w TLBLO_DIRTY else w)
  else mret (INVALID, entrylo).

Definition update_first_pt_entry (page_table faultaddress second_pt : Z) : KV unit :=
  let index_1 := Z.shiftr faultaddress 22 in
  let frameaddress := KVADDR_TO_PADDR second_pt in
  kstore (elem page_table index_1) 0;;
  kstore (elem page_table index_1) frameaddress.

(** Answers [*entrylo]. *)
Definition update_second_pt_entry (page_table faultaddress frameaddress flags : Z) : KV Z :=
  let index_1 := Z.shiftr faultaddress 22 in
  psecond_pt ← kload (elem page_table index_1);
  let second_pt := PADDR_TO_KVADDR psecond_pt in
  let index_2 := Z.land (Z.shiftr faultaddress 12) SECOND_INDEX in
  let frameaddress := KVADDR_TO_PADDR frameaddress in
  kstore (elem second_pt index_2) 0;;
  kstore (elem second_pt index_2) frameaddress;;
  w ← kload (elem second_pt index_2);
  kstore (elem second_pt index_2) (Z.lor w TLBLO_VALID);;
  (if bit_set flags PF_W then
     w ← kload (elem second_pt index_2);
     kstore (elem second_pt index_2) (Z.lor w TLBLO_DIRTY)
   else mret tt);;
  kload (elem second_pt index_2).

(** The first [if] has an empty branch: without [coremap_update] nothing is
    done. *)
Definition make_readonly (page_table coremap_update : Z) : KV unit :=
  kfold 1024 0 (λ i _,
    e ← kload (elem page_table i);
    if negb (e =? 0) then
      let second_pt := PADDR_TO_KVADDR e in
      kfold 1024 0 (λ j _,
        w ← kload (elem second_pt j);
        if bit_set w TLBLO_VALID then
          (if coremap_update =? 0 then mret tt
           else kstore (elem second_pt j) (Z.lor w PTE_READONLY));;
          (if negb (coremap_update =? 0) then
             w ← kload (elem second_pt j);
             on_coremap (increfcount (Z.land w TLBLO_PPAGE))
           else mret tt)
        else mret tt) tt
    else mret tt) tt.

(** The error code and [*entrylo]. *)
Definition pt_copy_on_write (page_table faultaddress entrylo : Z) : KV (Z * Z) :=
  let index_1 := Z.shiftr faultaddress 22 in
  psecond_pt ← kload (elem page_table index_1);
  let second_pt := PADDR_TO_KVADDR psecond_pt in
  let index_2 := Z.land (Z.shiftr faultaddress 12) SECOND_INDEX in
  w ← kload (elem second_pt index_2);
  let frameaddr := Z.land w TLBLO_PPAGE in
  sh ← on_coremap (isShared frameaddr);
  if negb (sh =? 0) then
    on_coremap (decrefcount frameaddr);;
    newframeaddr ← kmalloc PAGE_SIZE;
    if newframeaddr =? 0 then mret (ENOMEM, entrylo) else
    kmemmove newframeaddr (PADDR_TO_KVADDR frameaddr) PAGE_SIZE;;
    kstore (elem second_pt index_2)
      (Z.lor (Z.lor (KVADDR_TO_PADDR newframeaddr) TLBLO_DIRTY) TLBLO_VALID);;
    w ← kload (elem second_pt index_2);
    mret (0, w)
  else
    w ← kload (elem second_pt index_2);
    kstore (elem second_pt index_2) (andnot w PTE_READONLY);;
    w ← kload (elem second_pt index_2);
    mret (0, w).

Definition pt_deep_destroy (page_table : Z) : KV unit :=
  kassert (negb (page_table =? 0));;
  kfold 1024 0 (λ i _,
    e ← kload (elem page_table i);
    if negb (e =? 0) then
      let second_pt := PADDR_TO_KVADDR e in
      kfold 1024 0 (λ j _,
        w ← kload (elem second_pt j);
        if bit_set w TLBLO_VALID then
          let frameaddr := Z.land w TLBLO_PPAGE in
          sh ← on_coremap (isShared frameaddr);
          if negb (sh =? 0) then on_coremap (decrefcount frameaddr)
          else kfree (PADDR_TO_KVADDR frameaddr)
        else mret tt) tt;;
      kfree second_pt
    else mret tt) tt;;
  kfree page_table.

Definition pt_destroy (page_table : Z) : KV unit :=
  kfold 1024 0 (λ i _,
    e ← kload (elem page_table i);
    if negb (e =? 0) then kfree (PADDR_TO_KVADDR e) else mret tt) tt;;
  kfree page_table.

(** ** Pieces of [vm_fault] (kern/arch/mips/mips/vm.c) that build a table *)

(** A new second-level table for the fault address; answers an error code. *)
Definition new_second_pt (page_table faultaddress : Z) : KV Z :=
  second_pt ← kmalloc PAGE_SIZE;
  if second_pt =? 0 then mret ENOMEM else
  kbzero second_pt PAGE_SIZE;;
  update_first_pt_entry page_table faultaddress second_pt;;
  mret 0.

(** A frame of zeros, or NULL. *)
Definition new_zero_frame : KV Z :=
  newframe ← kmalloc PAGE_SIZE;
  if newframe =? 0 then mret 0 else
  kbzero newframe PAGE_SIZE;;
  mret newframe.
