(* ===== verification/PageTableInv.v ===== *)
(** * Ownership of page tables and frames

    Every page the VM system holds has one role: a page table, a second-level
    table, a frame mapped by user programs, or a block that belongs to
    somebody else.  [cow_ok] relates the roles, the entries of all page tables
    and the reference counts of the coremap to the memory of the kernel. *)

From S2P Require Import Prelude Bits Spl Ram KHeap KHeapInv KHeapOk KHeapSpec KHeapProps Tlb Coremap CoremapSpec CoremapProps PageTable.

#[local] Ltac Zify.zify_post_hook ::= Z.div_mod_to_equations.

(** ** Words of a page table *)

Lemma bit_set_testbit x k : 0 ≤ k → bit_set x (2 ^ k) = Z.testbit x k.
Proof.
  intros Hk. unfold bit_set. destruct (Z.testbit x k) eqn:Hb.
  - apply negb_true_iff, Z.eqb_neq. intros E.
    assert (Z.testbit (Z.land x (2 ^ k)) k = true) as Ht
      by (by rewrite Z.land_spec, Hb, Z.pow2_bits_true).
    by rewrite E, Z.bits_0 in Ht.
  - apply negb_false_iff, Z.eqb_eq, Z.bits_inj'. intros i Hi.
    rewrite Z.land_spec, Z.bits_0, Z.pow2_bits_eqb by done.
    destruct (Z.eqb_spec k i) as [<-|]; [by rewrite Hb|by rewrite andb_false_r].
Qed.

Lemma valid_testbit x : bit_set x TLBLO_VALID = Z.testbit x 9.
Proof. by apply (bit_set_testbit x 9). Qed.
Lemma dirty_testbit x : bit_set x TLBLO_DIRTY = Z.testbit x 10.
Proof. by apply (bit_set_testbit x 10). Qed.
Lemma readonly_testbit x : bit_set x PTE_READONLY = Z.testbit x 0.
Proof. by apply (bit_set_testbit x 0). Qed.

(** The kernel address of the frame an entry names. *)
Definition pframe (w : Z) : Z := MIPS_KSEG0 + (w - w mod PAGE_SIZE).

Record pte_ok (w : Z) : Prop := PteOk {
  pte_range : 0 ≤ w < MIPS_KSEG1 - MIPS_KSEG0;
  pte_valid : bit_set w TLBLO_VALID = true
}.

(** Marking an entry read-only and back. *)
Definition ro (w : Z) : Z := Z.lor w PTE_READONLY.
Definition rw (w : Z) : Z := andnot w PTE_READONLY.

(** Changing bits of the offset part keeps the frame. *)
Lemma same_page_range w w' :
  w' / PAGE_SIZE = w / PAGE_SIZE → 0 ≤ w < MIPS_KSEG1 - MIPS_KSEG0 →
  0 ≤ w' < MIPS_KSEG1 - MIPS_KSEG0.
Proof. unfold PAGE_SIZE, MIPS_KSEG0, MIPS_KSEG1. lia. Qed.

Lemma same_page_pframe w w' : w' / PAGE_SIZE = w / PAGE_SIZE → pframe w' = pframe w.
Proof. unfold pframe, PAGE_SIZE. lia. Qed.

Lemma ro_page w : ro w / PAGE_SIZE = w / PAGE_SIZE.
Proof.
  unfold ro, PAGE_SIZE, PTE_READONLY. change 4096 with (2 ^ 12).
  rewrite <- !Z.shiftr_div_pow2 by done. rewrite Z.shiftr_lor.
  change (Z.shiftr 1 12) with 0. apply Z.lor_0_r.
Qed.

Lemma rw_testbit w i :
  0 ≤ w < 2 ^ 32 → 0 ≤ i → Z.testbit (rw w) i = Z.testbit w i && negb (i =? 0).
Proof.
  intros Hw Hi. unfold rw, andnot. rewrite testbit_andnot by done.
  change PTE_READONLY with (2 ^ 0). rewrite Z.pow2_bits_eqb by done. by rewrite Z.eqb_sym.
Qed.

Lemma rw_page w : 0 ≤ w < 2 ^ 32 → rw w / PAGE_SIZE = w / PAGE_SIZE.
Proof.
  intros Hw. unfold PAGE_SIZE. change 4096 with (2 ^ 12).
  rewrite <- !Z.shiftr_div_pow2 by done. apply Z.bits_inj'. intros i Hi.
  rewrite !Z.shiftr_spec, rw_testbit by lia. rewrite (proj2 (Z.eqb_neq _ _)) by lia.
  apply andb_true_r.
Qed.

Lemma ro_ok w : pte_ok w → pte_ok (ro w).
Proof.
  intros [Hr Hv]. split; [by eapply same_page_range; [apply ro_page|]|].
  rewrite valid_testbit in *. unfold ro. by rewrite Z.lor_spec, Hv.
Qed.

Lemma rw_ok w : pte_ok w → pte_ok (rw w).
Proof.
  intros [Hr Hv]. assert (0 ≤ w < 2 ^ 32) by (unfold MIPS_KSEG0, MIPS_KSEG1 in *; lia).
  split; [by eapply same_page_range; [apply rw_page|]|].
  rewrite valid_testbit in *. by rewrite rw_testbit, Hv.
Qed.

Lemma pframe_ro w : pframe (ro w) = pframe w.
Proof. apply same_page_pframe, ro_page. Qed.

Lemma pframe_rw w : pte_ok w → pframe (rw w) = pframe w.
Proof.
  intros [Hr _]. apply same_page_pframe, rw_page. unfold MIPS_KSEG0, MIPS_KSEG1 in *. lia.
Qed.

(** The two directions between an entry and its frame in the code. *)
Lemma ppage_kvaddr w : pte_ok w → PADDR_TO_KVADDR (Z.land w TLBLO_PPAGE) = pframe w.
Proof.
  intros [Hr _]. change TLBLO_PPAGE with PAGE_FRAME.
  unfold MIPS_KSEG0, MIPS_KSEG1 in *. rewrite land_frame by lia.
  unfold PADDR_TO_KVADDR, pframe, MIPS_KSEG0, PAGE_SIZE. rewrite u32_id by lia. lia.
Qed.

Lemma ppage_pframe w : pte_ok w → Z.land w TLBLO_PPAGE = pframe w - MIPS_KSEG0.
Proof.
  intros [Hr _]. change TLBLO_PPAGE with PAGE_FRAME.
  unfold MIPS_KSEG0, MIPS_KSEG1 in *. rewrite land_frame by lia. unfold pframe, MIPS_KSEG0. lia.
Qed.

(** The word [update_second_pt_entry] and [pt_copy_on_write] build. *)
Definition mkpte (f : Z) (writable : bool) : Z :=
  f - MIPS_KSEG0 + TLBLO_VALID + (if writable then TLBLO_DIRTY else 0).

Lemma mkpte_frame f wr :
  f mod PAGE_SIZE = 0 → MIPS_KSEG0 ≤ f → f + PAGE_SIZE ≤ MIPS_KSEG1 → pframe (mkpte f wr) = f.
Proof.
  intros Hf Hlo Hhi. unfold pframe, mkpte, TLBLO_VALID, TLBLO_DIRTY, PAGE_SIZE in *.
  unfold MIPS_KSEG0 in *. destruct wr; lia.
Qed.

Lemma mkpte_lor f wr :
  f mod PAGE_SIZE = 0 →
  mkpte f wr = Z.lor (f - MIPS_KSEG0) (TLBLO_VALID + (if wr then TLBLO_DIRTY else 0)).
Proof.
  intros Hf. rewrite lor_frame; [unfold mkpte; lia| |].
  - unfold PAGE_SIZE, MIPS_KSEG0 in *. lia.
  - unfold TLBLO_VALID, TLBLO_DIRTY, PAGE_SIZE. destruct wr; lia.
Qed.

Lemma mkpte_ok f wr :
  f mod PAGE_SIZE = 0 → MIPS_KSEG0 ≤ f → f + PAGE_SIZE ≤ MIPS_KSEG1 → pte_ok (mkpte f wr).
Proof.
  intros Hf Hlo Hhi. split.
  - unfold mkpte, TLBLO_VALID, TLBLO_DIRTY, PAGE_SIZE, MIPS_KSEG0, MIPS_KSEG1 in *.
    destruct wr; lia.
  - rewrite valid_testbit, mkpte_lor by done. rewrite Z.lor_spec. apply orb_true_iff. right.
    by destruct wr.
Qed.

Lemma mkpte_dirty f wr : f mod PAGE_SIZE = 0 → bit_set (mkpte f wr) TLBLO_DIRTY = wr.
Proof.
  intros Hf. rewrite dirty_testbit, mkpte_lor, Z.lor_spec by done.
  assert (Z.testbit (f - MIPS_KSEG0) 10 = false) as ->.
  { change (f - MIPS_KSEG0) with (f - 2 ^ 31). replace (f - 2 ^ 31) with ((f / 2 ^ 12 - 2 ^ 19) * 2 ^ 12)
      by (unfold PAGE_SIZE in Hf; lia). by apply Z.mul_pow2_bits_low. }
  by destruct wr.
Qed.

Lemma mkpte_readonly f wr : f mod PAGE_SIZE = 0 → bit_set (mkpte f wr) PTE_READONLY = false.
Proof.
  intros Hf. rewrite readonly_testbit, Z.bit0_odd, Zodd_mod. apply Z.eqb_neq.
  unfold mkpte, TLBLO_VALID, TLBLO_DIRTY, PAGE_SIZE, MIPS_KSEG0 in *. destruct wr; lia.
Qed.

(** ** Words of a page *)

Lemma page_word_ne b b' j j' :
  b mod PAGE_SIZE = 0 → b' mod PAGE_SIZE = 0 → 0 ≤ j < 1024 → 0 ≤ j' < 1024 →
  b ≠ b' ∨ j ≠ j' → b + 4 * j ≠ b' + 4 * j'.
Proof. unfold PAGE_SIZE. lia. Qed.

Section pages.
Implicit Types s : kheap vmst.
Implicit Types H : gmap Z Z.

Lemma page_elem s H b j :
  heap_rep s H → H !! b = Some PAGE_SIZE → 0 ≤ j < 1024 →
  elem b j = b + 4 * j ∧ kseg0_word (b + 4 * j) = true.
Proof.
  intros Hrep Hb Hj. destruct (rep_range _ _ _ _ Hrep Hb) as (_ & Hm & Hlo & Hhi).
  unfold elem, kseg0_word, PAGE_SIZE, MIPS_KSEG0, MIPS_KSEG1 in *. rewrite u32_id by lia.
  split; [done|]. rewrite !andb_true_iff. lia.
Qed.

Lemma page_aligned s H b : heap_rep s H → H !! b = Some PAGE_SIZE → b mod PAGE_SIZE = 0.
Proof. intros Hrep Hb. by destruct (rep_page _ _ _ _ Hrep Hb) as (? & _). Qed.

Lemma kload_page s H b j w m (Q : Z → world (kheap vmst) → Prop) :
  heap_rep s H → H !! b = Some PAGE_SIZE → 0 ≤ j < 1024 → kmem s !! (b + 4 * j) = Some w →
  Q w (World s m) → wp (kload (elem b j)) Q (World s m).
Proof.
  intros Hrep Hb Hj Hw HQ. destruct (page_elem _ _ _ _ Hrep Hb Hj) as (-> & Hk).
  by eapply kload_spec.
Qed.

(** The memory with the word [j] of page [b] replaced. *)
Definition put_word (b j w : Z) (s : kheap vmst) : kheap vmst :=
  set_kmem (<[b + 4 * j := w]> (kmem s)) s.

Lemma kstore_page s H b j w m (Q : unit → world (kheap vmst) → Prop) :
  heap_rep s H → H !! b = Some PAGE_SIZE → 0 ≤ j < 1024 →
  (heap_rep (put_word b j w s) H → Q tt (World (put_word b j w s) m)) →
  wp (kstore (elem b j) w) Q (World s m).
Proof.
  intros Hrep Hb Hj HQ. destruct (page_elem _ _ _ _ Hrep Hb Hj) as (-> & Hk).
  apply kstore_spec; [done|]. apply HQ. eapply rep_store; [done|done|].
  unfold PAGE_SIZE. lia.
Qed.

Lemma put_word_eq s b j w : kmem (put_word b j w s) !! (b + 4 * j) = Some w.
Proof. apply lookup_insert_eq. Qed.

Lemma put_word_ne s b j w b' j' :
  b mod PAGE_SIZE = 0 → b' mod PAGE_SIZE = 0 → 0 ≤ j < 1024 → 0 ≤ j' < 1024 →
  b ≠ b' ∨ j ≠ j' → kmem (put_word b j w s) !! (b' + 4 * j') = kmem s !! (b' + 4 * j').
Proof. intros. apply lookup_insert_ne. by apply page_word_ne. Qed.

(** Everything but the page [b] is as before. *)
Definition only_page (b : Z) (s s' : kheap vmst) : Prop :=
  hcpu s' = hcpu s ∧ hvm s' = hvm s ∧
  ∀ b' j, b' mod PAGE_SIZE = 0 → 0 ≤ j < 1024 → b' ≠ b →
    kmem s' !! (b' + 4 * j) = kmem s !! (b' + 4 * j).

Lemma only_page_refl b s : only_page b s s.
Proof. done. Qed.

Lemma only_page_put b j w s s' :
  b mod PAGE_SIZE = 0 → 0 ≤ j < 1024 → only_page b s s' → only_page b s (put_word b j w s').
Proof.
  intros Hb Hj (Hc & Hv & Hm). split_and!; [done|done|]. intros b' j' Hb' Hj' Hne.
  rewrite put_word_ne by (done || lia || by left). by apply Hm.
Qed.

Lemma kbzero_page s H b m (Q : unit → world (kheap vmst) → Prop) :
  heap_rep s H → H !! b = Some PAGE_SIZE →
  (∀ s', heap_rep s' H → only_page b s s' →
     (∀ j, 0 ≤ j < 1024 → kmem s' !! (b + 4 * j) = Some 0) → Q tt (World s' m)) →
  wp (kbzero b 4096) Q (World s m).
Proof.
  intros Hrep Hb HQ. pose proof (page_aligned _ _ _ Hrep Hb) as Ha. unfold kbzero.
  change (Z.to_nat (4096 / 4)) with 1024%nat.
  apply (wp_kfold (λ i _ w, ∃ s', w = World s' m ∧ heap_rep s' H ∧ only_page b s s' ∧
           ∀ j, 0 ≤ j < i → kmem s' !! (b + 4 * j) = Some 0)).
  - exists s. split_and!; [done|done|done|]. intros. lia.
  - intros i _ w Hi (s' & -> & Hrep' & Ho & Hz). change (u32 (b + 4 * i)) with (elem b i).
    apply (kstore_page _ H); [done|done|lia|]. intros Hrep2. eexists. split_and!; [done|done|..].
    + apply only_page_put; [done|lia|done].
    + intros j Hj. destruct (decide (j = i)) as [->|]; [apply put_word_eq|].
      rewrite put_word_ne by (done || lia). apply Hz. lia.
  - intros [] w (s' & -> & Hrep' & Ho & Hz). apply HQ; [done|done|]. intros j Hj. apply Hz. lia.
Qed.

Lemma kmemmove_page s H b c m (Q : unit → world (kheap vmst) → Prop) :
  heap_rep s H → H !! b = Some PAGE_SIZE → H !! c = Some PAGE_SIZE → b ≠ c →
  (∀ j, 0 ≤ j < 1024 → is_Some (kmem s !! (c + 4 * j))) →
  (∀ s', heap_rep s' H → only_page b s s' →
     (∀ j, 0 ≤ j < 1024 → kmem s' !! (b + 4 * j) = kmem s !! (c + 4 * j)) → Q tt (World s' m)) →
  wp (kmemmove b c PAGE_SIZE) Q (World s m).
Proof.
  intros Hrep Hb Hc Hne Hdef HQ. pose proof (page_aligned _ _ _ Hrep Hb) as Hba.
  pose proof (page_aligned _ _ _ Hrep Hc) as Hca. unfold kmemmove.
  change (PAGE_SIZE / 4) with 1024. change (Z.to_nat 1024) with 1024%nat.
  assert (∀ (g : Z → Z), (∀ i, 0 ≤ i < 1024 → 0 ≤ g i < 1024) →
    (∀ j, 0 ≤ j < 1024 → ∃ i, 0 ≤ i < 1024 ∧ g i = j) →
    wp (kfold 1024 0 (λ j _, w ← kload (u32 (c + 4 * g j)); kstore (u32 (b + 4 * g j)) w) tt)
       Q (World s m)) as Hgen.
  { intros g Hg Hsurj.
    apply (wp_kfold (λ i _ w, ∃ s', w = World s' m ∧ heap_rep s' H ∧ only_page b s s' ∧
             ∀ k, 0 ≤ k < i → kmem s' !! (b + 4 * g k) = kmem s !! (c + 4 * g k))).
    - exists s. split_and!; [done|done|done|]. intros. lia.
    - intros i _ w Hi (s' & -> & Hrep' & Ho & Hz). specialize (Hg i ltac:(lia)) as Hgi.
      destruct (Hdef (g i) Hgi) as (x & Hx). rewrite wp_bind.
      change (u32 (c + 4 * g i)) with (elem c (g i)).
      change (u32 (b + 4 * g i)) with (elem b (g i)).
      apply (kload_page _ H _ _ x); [done|done|done| |].
      { destruct Ho as (_ & _ & Ho). rewrite Ho by (done || congruence). done. }
      apply (kstore_page _ H); [done|done|done|]. intros Hrep2. eexists.
      split_and!; [done|done|by apply only_page_put|].
      intros k Hk. destruct (decide (g k = g i)) as [->|]; [by rewrite put_word_eq|].
      rewrite put_word_ne by (done || (apply Hg; lia) || by right; congruence).
      apply Hz. destruct (decide (k = i)) as [->|]; [done|lia].
    - intros [] w (s' & -> & Hrep' & Ho & Hz). apply HQ; [done|done|]. intros j Hj.
      destruct (Hsurj j Hj) as (i & Hi & <-). apply Hz. lia. }
  destruct (Z.ltb_spec b c).
  - apply (Hgen (λ j, j)); [done|]. intros j Hj. by exists j.
  - apply (Hgen (λ j, 1024 - 1 - j)); [lia|]. intros j Hj. exists (1024 - 1 - j). lia.
Qed.
End pages.

(** ** Reference counts in the coremap *)

(** The entry of the frame at kernel address [f]. *)
Definition frame_no (v : vmst) (f : Z) : Z := (f - MIPS_KSEG0 - FRAME0_ADDR v) / PAGE_SIZE.

Definition shared_at (v : vmst) (f : Z) : option Z := shared <$> lget (coremap v) (frame_no v f).

Definition managed (v : vmst) (f : Z) : Prop := ∃ i, 0 ≤ i ∧ f = frame_kvaddr v i.

(** What never changes once the VM system is running. *)
Definition same_frames (v v' : vmst) : Prop :=
  FRAME0_ADDR v' = FRAME0_ADDR v ∧ VM_INITIALIZED v' = VM_INITIALIZED v.

Lemma frame_no_kvaddr v i : frame_no v (frame_kvaddr v i) = i.
Proof. unfold frame_no, frame_kvaddr, PAGE_SIZE. lia. Qed.

Lemma managed_same v v' f : same_frames v v' → managed v f → managed v' f.
Proof. intros (E & _) (i & Hi & ->). exists i. split; [done|]. unfold frame_kvaddr. by rewrite E. Qed.

Lemma frame_no_same v v' f : same_frames v v' → frame_no v' f = frame_no v f.
Proof. intros (E & _). unfold frame_no. by rewrite E. Qed.

(** The coremap with the count of frame [f] replaced. *)
Definition set_shared (f x : Z) (v : vmst) : vmst :=
  let i := Z.to_nat (frame_no v f) in
  match coremap v !! i with
  | Some e => set_coremap (<[i := FrameInfo (status e) x (protection e) (alloc_size e)
                                    (page_list e)]> (coremap v)) v
  | None => v
  end.

Lemma set_shared_same f x v : same_frames v (set_shared f x v).
Proof. unfold set_shared. by destruct (_ !! _). Qed.

Lemma shared_at_set v f x :
  managed v f → is_Some (shared_at v f) → shared_at (set_shared f x v) f = Some x.
Proof.
  intros (i & Hi & ->) (y & Hy). unfold shared_at, set_shared in *.
  rewrite frame_no_kvaddr, lget_lookup in * by done.
  destruct (coremap v !! Z.to_nat i) as [e|] eqn:He; [|done].
  unfold frame_no, frame_kvaddr. cbn [FRAME0_ADDR set_coremap coremap].
  replace (_ / PAGE_SIZE) with i by (unfold PAGE_SIZE; lia). rewrite lget_lookup by done.
  by rewrite list_lookup_insert_eq by (by eapply lookup_lt_Some).
Qed.

Lemma shared_at_set_ne v f g x :
  managed v f → managed v g → g ≠ f → shared_at (set_shared f x v) g = shared_at v g.
Proof.
  intros (i & Hi & ->) (j & Hj & ->) Hne. unfold shared_at.
  rewrite (frame_no_same v) by apply set_shared_same. unfold set_shared.
  rewrite !frame_no_kvaddr, !lget_lookup by done.
  destruct (coremap v !! Z.to_nat i) as [e|] eqn:He; [|done]. cbn [coremap set_coremap].
  rewrite list_lookup_insert_ne; [done|]. intros ?. assert (i = j) by lia. by subst.
Qed.

Lemma cm_set_shared v R f x :
  cm_ok v R → managed v f → frame_busy (coremap v) (frame_no v f) → cm_ok (set_shared f x v) R.
Proof.
  intros Hok (i & Hi & ->) (e & He & Hs). unfold set_shared in *.
  rewrite frame_no_kvaddr in *. rewrite lget_lookup in He by done. rewrite He.
  set (e' := FrameInfo _ _ _ _ _).
  assert (∀ k, lget (<[Z.to_nat i := e']> (coremap v)) k = if decide (k = i) then Some e' else lget (coremap v) k) as Hl.
  { intros k. case_decide as Hk.
    - subst. apply lget_insert_eq. apply lookup_lt_Some in He. lia.
    - by apply lget_insert_ne. }
  assert (nfree_frames (<[Z.to_nat i := e']> (coremap v)) = nfree_frames (coremap v)) as Hn.
  { rewrite (nfree_insert _ _ e) by done. cbn [status e']. rewrite decide_False by done. lia. }
  rewrite <- (lget_lookup (coremap v) i Hi) in He.
  assert (∀ j n, owned v j n → owned (set_coremap (<[Z.to_nat i := e']> (coremap v)) v) j n) as Hown.
  { intros j n ((? & ? & ? & Hent) & Hmax). split; [|done]. split_and!; [done..|].
    intros k Hk. cbn [coremap set_coremap]. rewrite Hl. destruct (Hent k Hk) as (g & Hg & Hgs & Hga).
    case_decide as Hki; [|by exists g]. subst. rewrite He in Hg. injection Hg as <-. by exists e'. }
  destruct Hok as [Hlen Hb Ha Ht Hu Hk Hz Hreg Hap Hcov]. split; try done;
    cbn [coremap set_coremap COREMAP_SIZE FRAME0_ADDR UNALLOCATED_FRAME KERNEL_FRAME].
  - by rewrite length_insert.
  - by rewrite Hn.
  - by rewrite Hn.
  - intros k g. rewrite Hl. case_decide; [|by apply Hz]. intros [= <-] Hs'. done.
  - intros b n Hbn. destruct (Hreg b n Hbn) as [|(j & Hj & ->)]; [by left|right].
    exists j. split; [by apply Hown|done].
  - intros k (g & Hg & Hgs). cbn [coremap set_coremap] in Hg. rewrite Hl in Hg.
    apply Hcov. case_decide; [subst; by exists e|by exists g].
Qed.

Section counts.
Implicit Types s : kheap vmst.
Implicit Types H : gmap Z Z.

(** The state of the coremap of a running system. *)
Lemma rep_coremap s H :
  heap_rep s H → VM_INITIALIZED (hvm s) ≠ 0 → ∃ R, cm_ok (hvm s) R.
Proof.
  intros (A & R & Hok & _) Hi. exists R. by destruct (ho_vm _ _ _ Hok) as [(? & _)|(_ & ?)].
Qed.

(** A page of the heap that is managed by the coremap is a region of one frame. *)
Lemma rep_frame s H f :
  heap_rep s H → VM_INITIALIZED (hvm s) ≠ 0 → H !! f = Some PAGE_SIZE → managed (hvm s) f →
  owned (hvm s) (frame_no (hvm s) f) 1.
Proof.
  intros Hrep Hi Hf (i & Hi0 & ->). rewrite frame_no_kvaddr.
  destruct (rep_page _ _ _ _ Hrep Hf) as (_ & A & R & n & Hok & HR & Hn); [done|].
  assert (n = 1) as -> by (unfold PAGE_SIZE in *; lia).
  destruct (ho_vm _ _ _ Hok) as [(? & _)|(_ & Hcm)]; [done|].
  destruct (cm_region _ _ Hcm _ _ HR) as [(_ & _ & _ & ?)|(j & Hj & ->%kvaddr_inj)]; [|done].
  unfold frame_kvaddr, PAGE_SIZE in *. lia.
Qed.

Lemma rep_shared s H f :
  heap_rep s H → VM_INITIALIZED (hvm s) ≠ 0 → H !! f = Some PAGE_SIZE → managed (hvm s) f →
  is_Some (shared_at (hvm s) f).
Proof.
  intros Hrep Hi Hf Hm. pose proof (rep_frame _ _ _ Hrep Hi Hf Hm) as Ho.
  destruct (Ho) as ((_ & _ & _ & Hent) & _). destruct (Hent (frame_no (hvm s) f)) as (e & He & _); [lia|].
  unfold shared_at. rewrite He. by eexists.
Qed.

(** Replacing the count of a frame in use. *)
Definition put_shared (f x : Z) (s : kheap vmst) : kheap vmst :=
  set_hvm (hcpu s, set_shared f x (hvm s)) s.

Lemma rep_put_shared s H f x :
  heap_rep s H → VM_INITIALIZED (hvm s) ≠ 0 → H !! f = Some PAGE_SIZE → managed (hvm s) f →
  heap_rep (put_shared f x s) H.
Proof.
  intros Hrep Hi Hf Hm. pose proof (rep_frame _ _ _ Hrep Hi Hf Hm) as Ho.
  apply heap_rep_hvm; [done|]. intros R [(? & _)|(_ & Hcm)]; [done|]. right.
  split; [by rewrite (proj2 (set_shared_same f x (hvm s)))|].
  apply cm_set_shared; [done|done|]. eapply owned_busy; [done|lia].
Qed.

(** The index the code computes from a physical address. *)
Lemma code_index s H f :
  heap_rep s H → VM_INITIALIZED (hvm s) ≠ 0 → H !! f = Some PAGE_SIZE → managed (hvm s) f →
  frame_index (f - MIPS_KSEG0) (hvm s) = frame_no (hvm s) f.
Proof.
  intros Hrep Hi Hf (i & Hi0 & ->). destruct (rep_range _ _ _ _ Hrep Hf) as (_ & _ & Hlo & Hhi).
  destruct (rep_coremap _ _ Hrep Hi) as (R & Hcm). pose proof (cm_base _ _ Hcm).
  rewrite frame_no_kvaddr. unfold frame_index, frame_kvaddr, PAGE_SIZE, MIPS_KSEG0, MIPS_KSEG1 in *.
  rewrite u32_id by lia. lia.
Qed.

Section at_frame.
Context s H f y (m : list bool) (Hrep : heap_rep s H) (Hi : VM_INITIALIZED (hvm s) ≠ 0)
  (Hf : H !! f = Some PAGE_SIZE) (Hm : managed (hvm s) f) (Hy : shared_at (hvm s) f = Some y).

Lemma frame_entry : ∃ e, lget (coremap (hvm s)) (frame_no (hvm s) f) = Some e ∧ shared e = y.
Proof.
  unfold shared_at in Hy. destruct (lget _ _) as [e|]; [|done]. exists e. by injection Hy as <-.
Qed.

(** [increfcount] and [decrefcount] replace the count. *)
Lemma update_count_wp x (Q : unit → world (kheap vmst) → Prop) (g : frame_info → frame_info) :
  (∀ e, shared e = y → g e = FrameInfo (status e) x (protection e) (alloc_size e) (page_list e)) →
  Q tt (World (put_shared f x s) m) →
  wp (on_coremap (v ← kget; let index := frame_index (f - MIPS_KSEG0) v in
                  e ← getframe index; setframe index (g e))) Q (World s m).
Proof.
  intros Hg HQ. destruct frame_entry as (e & He & Hey). unfold on_coremap.
  rewrite wp_zoom. cbn [wst wmem]. rewrite wp_bind, wp_kget. cbn [wst].
  rewrite (code_index _ _ _ Hrep Hi Hf Hm). rewrite wp_bind. apply (getframe_wp _ e); [done|].
  pose proof (lget_Some_range _ _ _ He). apply setframe_wp; [done|]. cbn [wst wmem].
  rewrite (Hg _ Hey). unfold put_shared, set_shared in HQ.
  rewrite lget_lookup in He by lia. rewrite He in HQ. exact HQ.
Qed.

Lemma increfcount_wp (Q : unit → world (kheap vmst) → Prop) :
  Q tt (World (put_shared f (u8 (y + 1)) s) m) →
  wp (on_coremap (increfcount (f - MIPS_KSEG0))) Q (World s m).
Proof. intros HQ. eapply update_count_wp; [|done]. by intros e ->. Qed.

Lemma decrefcount_wp (Q : unit → world (kheap vmst) → Prop) :
  Q tt (World (put_shared f (u8 (y - 1)) s) m) →
  wp (on_coremap (decrefcount (f - MIPS_KSEG0))) Q (World s m).
Proof. intros HQ. eapply update_count_wp; [|done]. by intros e ->. Qed.

Lemma isShared_wp (Q : Z → world (kheap vmst) → Prop) :
  Q y (World s m) → wp (on_coremap (isShared (f - MIPS_KSEG0))) Q (World s m).
Proof.
  intros HQ. destruct frame_entry as (e & He & Hey). unfold on_coremap, isShared.
  rewrite wp_zoom. cbn [wst wmem]. rewrite wp_bind, wp_kget. cbn [wst].
  rewrite (code_index _ _ _ Hrep Hi Hf Hm). rewrite wp_bind. apply (getframe_wp _ e); [done|].
  rewrite wp_ret, Hey. cbn [wst wmem].
  replace (set_hvm (hcpu s, hvm s) s) with s by (by destruct s). done.
Qed.
End at_frame.

(** ** Allocating and freeing pages *)

Lemma no_run_full l : (∀ i, ¬ run l i 1) → nfree_frames l = 0.
Proof.
  intros Hno. unfold nfree_frames. destruct (filter _ l) as [|f fs] eqn:E; [done|exfalso].
  assert (f ∈ filter (λ f, status f = 0) l) as (H0 & Hin)%list_elem_of_filter
    by (rewrite E; by left).
  apply list_elem_of_lookup in Hin as (k & Hk). apply (Hno (Z.of_nat k)).
  pose proof (lookup_lt_Some _ _ _ Hk). split_and!; [lia|lia|]. intros x Hx.
  replace x with (Z.of_nat k) by lia. exists f. by rewrite lget_of_nat.
Qed.

Lemma shared_changed g v l' i f u k :
  managed v f → f ≠ frame_kvaddr v i → changed g (coremap v) l' i 1 →
  shared_at (set_counts u k (set_coremap l' v)) f = shared_at v f.
Proof.
  intros (j & Hj & ->) Hne Hch. unfold shared_at.
  rewrite (frame_no_same v) by done. rewrite frame_no_kvaddr. cbn [coremap set_counts set_coremap].
  rewrite (ch_out _ _ _ _ _ Hch); [done|]. intros ?. assert (j = i) by lia. by subst.
Qed.

Lemma kmalloc_page s H m (Q : Z → world (kheap vmst) → Prop) :
  heap_rep s H → VM_INITIALIZED (hvm s) ≠ 0 →
  (UNALLOCATED_FRAME (hvm s) = 0 → Q 0 (World s m)) →
  (∀ a v', let s' := set_hvm (hcpu s, v') s in
     H !! a = None → a ≠ 0 → heap_rep s' (<[a := PAGE_SIZE]> H) → same_frames (hvm s) v' →
     managed v' a → shared_at v' a = Some 0 →
     (∀ f, f ≠ a → managed v' f → shared_at v' f = shared_at (hvm s) f) →
     UNALLOCATED_FRAME v' = UNALLOCATED_FRAME (hvm s) - 1 → Q a (World s' m)) →
  wp (kmalloc 4096) Q (World s m).
Proof.
  intros Hrep Hi Hno Hyes. destruct (rep_coremap _ _ Hrep Hi) as (R & Hcm).
  assert (pages_of 4096 = 1) as E1 by done.
  apply (kmalloc_pages_spec _ _ H); [done|done|..]; rewrite E1.
  - intros v' _ [(? & _)|(_ & [(_ & -> & Hnone)|(i & l' & E & ((? & _) & _) & _)])]; [done|..].
    + replace (set_hvm (hcpu s, hvm s) s) with s by (by destruct s). apply Hno.
      rewrite (cm_unalloc _ _ Hcm). by apply no_run_full.
    + exfalso. pose proof (cm_base _ _ Hcm).
      unfold frame_kvaddr, PAGE_SIZE, MIPS_KSEG0 in E. lia.
  - intros a v' Ha (_ & _ & Hlo & _) Hrep'
      [(? & _)|(_ & [(-> & _)|(i & l' & -> & ((Hrun & _) & Hch & ->))])];
      [done|by unfold MIPS_KSEG0 in Hlo|].
    destruct (Hrun) as (Hi0 & Hle & Hfree). apply Hyes.
    + done.
    + pose proof (cm_base _ _ Hcm). unfold frame_kvaddr, PAGE_SIZE, MIPS_KSEG0. lia.
    + exact Hrep'.
    + done.
    + by exists i.
    + unfold shared_at. rewrite (frame_no_same (hvm s)) by done. rewrite frame_no_kvaddr.
      cbn [coremap set_counts set_coremap]. destruct (Hfree i) as (e & He & Hs); [lia|].
      rewrite (ch_in _ _ _ _ _ Hch _ e) by (done || lia).
      by rewrite (cm_zero _ _ Hcm _ _ He Hs).
    + intros f Hne Hm. by eapply shared_changed.
    + done.
Qed.

Lemma kfree_page s H a m (Q : unit → world (kheap vmst) → Prop) :
  heap_rep s H → VM_INITIALIZED (hvm s) ≠ 0 → H !! a = Some PAGE_SIZE →
  (∀ v', let s' := set_hvm (hcpu s, v') s in
     heap_rep s' (delete a H) → same_frames (hvm s) v' →
     (∀ f, f ≠ a → managed v' f → shared_at v' f = shared_at (hvm s) f) →
     Q tt (World s' m)) →
  wp (kfree a) Q (World s m).
Proof.
  intros Hrep Hi Ha HQ. apply (kfree_pages_spec _ H a PAGE_SIZE); [done|done|done|].
  intros v' Hrep' Hgave. destruct (Hgave Hi) as [->|(i & n & l' & -> & Hown & Hch & ->)].
  - by apply HQ.
  - assert (0 ≤ i ∧ n = 1) as (Hi0 & ->).
    { destruct (Hown) as ((Hi0 & Hn & _ & Hent) & Hmax). split; [done|].
      pose proof (rep_frame _ _ (frame_kvaddr (hvm s) i) Hrep Hi Ha) as Ho.
      rewrite frame_no_kvaddr in Ho. destruct Ho as ((_ & _ & _ & Hent') & _); [by exists i|].
      destruct (Hent i) as (e & He & _ & Hz); [lia|].
      destruct (Hent' i) as (e' & He' & _ & Hz'); [lia|].
      rewrite He in He'. injection He' as <-. rewrite Z.sub_diag, Z.sub_0_r in *.
      rewrite Hz in Hz'. unfold u8 in Hz'. change (2 ^ 8) with 256 in Hz'. lia. }
    apply HQ; [done|done|]. intros f Hne Hm. by eapply shared_changed.
Qed.
End counts.
