(* ===== verification/PageTableSpec.v ===== *)
(** * What the page table operations do

    [cow_ok] is the invariant of the VM system; each operation of
    kern/vm/page_table.c is shown to be an operation on the roles of pages
    ([O]), the directories ([D]) and the entries ([P]) of all page tables. *)

From S2P Require Import Prelude Bits Spl Ram KHeap KHeapInv KHeapOk KHeapSpec KHeapProps Tlb Coremap CoremapSpec CoremapProps PageTable PageTableInv.

#[local] Ltac Zify.zify_post_hook ::= Z.div_mod_to_equations.

(** ** Roles and references *)

Inductive role :=
| RTable
| RSecond (pt i : Z)
| RFrame
| RExt (size : Z).

#[global] Instance role_eq_dec : EqDecision role.
Proof. solve_decision. Defined.

Definition rsize (r : role) : Z := match r with RExt z => z | _ => PAGE_SIZE end.

Definition internal (r : role) : Prop := match r with RExt _ => False | _ => True end.

Definition ntables (O : gmap Z role) : Z :=
  Z.of_nat (size (filter (λ kr : Z * role, kr.2 = RTable) O)).

(** The entries that name frame [f], among those counted by [c]. *)
Definition counted (c : Z * Z → bool) (f : Z) (kw : (Z * Z) * Z) : Prop :=
  c kw.1 = true ∧ pframe kw.2 = f.

#[global] Instance counted_dec c f kw : Decision (counted c f kw).
Proof. apply _. Defined.

Definition refs (c : Z * Z → bool) (P : gmap (Z * Z) Z) (f : Z) : Z :=
  Z.of_nat (size (filter (counted c f) P)).

Definition all_counted (k : Z * Z) : bool := true.

Definition dir_word (o : option Z) : Z :=
  match o with Some b => b - MIPS_KSEG0 | None => 0 end.

Lemma refs_insert c P k w f :
  P !! k = None →
  refs c (<[k := w]> P) f = refs c P f + if decide (counted c f (k, w)) then 1 else 0.
Proof.
  intros Hk. unfold refs. rewrite map_filter_insert. case_decide.
  - rewrite map_size_insert_None; [lia|]. apply map_lookup_filter_None. by left.
  - rewrite delete_id by done. lia.
Qed.

Lemma refs_delete c P k w f :
  P !! k = Some w →
  refs c (delete k P) f = refs c P f - if decide (counted c f (k, w)) then 1 else 0.
Proof.
  intros Hk. unfold refs. rewrite map_filter_delete. case_decide as Hc.
  - assert (filter (counted c f) P !! k = Some w) as Hf by (by apply map_lookup_filter_Some).
    rewrite map_size_delete_Some by (by eexists).
    assert (size (filter (counted c f) P) ≠ 0%nat); [|lia].
    intros E%map_size_empty_inv. rewrite E in Hf. by rewrite lookup_empty in Hf.
  - rewrite delete_id; [lia|]. apply map_lookup_filter_None. right. intros x Hx.
    congruence.
Qed.

Lemma refs_update c P k w w' f :
  P !! k = Some w →
  refs c (<[k := w']> P) f = refs c P f - (if decide (counted c f (k, w)) then 1 else 0) +
    (if decide (counted c f (k, w')) then 1 else 0).
Proof.
  intros Hk. rewrite <- insert_delete_eq, refs_insert by (by rewrite lookup_delete_eq).
  by rewrite (refs_delete _ _ _ w).
Qed.

Lemma refs_pos c P k w : P !! k = Some w → c k = true → 1 ≤ refs c P (pframe w).
Proof.
  intros Hk Hc. unfold refs.
  assert (size (filter (counted c (pframe w)) P) ≠ 0%nat); [|lia].
  intros E%map_size_empty_inv.
  assert (filter (counted c (pframe w)) P !! k = Some w) as Hf by (by apply map_lookup_filter_Some).
  rewrite E in Hf. by rewrite lookup_empty in Hf.
Qed.

Lemma refs_inv c P f : 1 ≤ refs c P f → ∃ k w, P !! k = Some w ∧ c k = true ∧ pframe w = f.
Proof.
  unfold refs. intros Hr. destruct (decide (filter (counted c f) P = ∅)) as [E|Hne].
  { rewrite E, map_size_empty in Hr. lia. }
  apply map_choose in Hne as (k & w & Hkw%map_lookup_filter_Some).
  destruct Hkw as (? & ? & ?). by exists k, w.
Qed.

Lemma refs_ext c c' P f :
  (∀ k w, P !! k = Some w → c' k = c k) → refs c' P f = refs c P f.
Proof.
  intros Hc. unfold refs. do 2 f_equal. apply map_filter_ext. intros k w Hk. unfold counted.
  simpl. by rewrite (Hc k w Hk).
Qed.

(** Counting one more entry. *)
Lemma refs_count c c' P k w f :
  P !! k = Some w → c k = false → c' k = true → (∀ k', k' ≠ k → c' k' = c k') →
  refs c' P f = refs c P f + if decide (pframe w = f) then 1 else 0.
Proof.
  intros Hk H0 H1 Hc.
  assert (refs c' (delete k P) f = refs c (delete k P) f) as E.
  { apply refs_ext. intros k' w' (? & _)%lookup_delete_Some. by apply Hc. }
  rewrite !(refs_delete _ _ _ w) in E by done.
  destruct (decide (counted c f (k, w))) as [(? & _)|]; [simpl in *; congruence|].
  destruct (decide (counted c' f (k, w))) as [(_ & ?)|Hn]; destruct (decide (pframe w = f));
    [lia|done| |lia].
  exfalso. by apply Hn.
Qed.

Lemma ntables_ext O O' :
  (∀ x, O' !! x = Some RTable ↔ O !! x = Some RTable) → ntables O' = ntables O.
Proof.
  intros Hx. unfold ntables. do 2 f_equal. apply map_eq. intros x. apply option_eq. intros r.
  rewrite !map_lookup_filter_Some. simpl. split; intros (? & ->); split; try done; by apply Hx.
Qed.

Lemma ntables_insert O a :
  O !! a ≠ Some RTable → ntables (<[a := RTable]> O) = ntables O + 1.
Proof.
  intros Ha. unfold ntables. rewrite map_filter_insert_True by done.
  rewrite map_size_insert_None; [lia|]. apply map_lookup_filter_None. right.
  intros r Hr E. simpl in E. congruence.
Qed.

Lemma ntables_delete O a :
  O !! a = Some RTable → ntables (delete a O) = ntables O - 1.
Proof.
  intros Ha. unfold ntables. rewrite map_filter_delete.
  assert (filter (λ kr : Z * role, kr.2 = RTable) O !! a = Some RTable) as Hf
    by (by apply map_lookup_filter_Some).
  rewrite map_size_delete_Some by (by eexists).
  assert (size (filter (λ kr : Z * role, kr.2 = RTable) O) ≠ 0%nat); [|lia].
  intros E%map_size_empty_inv. rewrite E in Hf. by rewrite lookup_empty in Hf.
Qed.

(** ** The invariant

    [X] is a table under destruction, whose words in memory are stale; [c]
    tells which entries the coremap counts (all, but in the middle of a
    fork). *)

Record cow_ok (X : option Z) (c : Z * Z → bool) (s : kheap vmst)
    (O : gmap Z role) (D P : gmap (Z * Z) Z) : Prop := CowOk {
  co_heap : heap_rep s (rsize <$> O);
  co_init : VM_INITIALIZED (hvm s) ≠ 0;
  co_managed a r : O !! a = Some r → internal r → managed (hvm s) a;
  co_dir pt i b : D !! (pt, i) = Some b ↔ O !! b = Some (RSecond pt i);
  co_range pt i b : D !! (pt, i) = Some b → O !! pt = Some RTable ∧ 0 ≤ i < 1024;
  co_frame f : O !! f = Some RFrame ↔ ∃ k w, P !! k = Some w ∧ pframe w = f;
  co_pte k w : P !! k = Some w → pte_ok w;
  co_closed pt n w : P !! (pt, n) = Some w → is_Some (D !! (pt, n / 1024));
  co_same k k' w w' : P !! k = Some w → P !! k' = Some w' → pframe w = pframe w' → k.2 = k'.2;
  co_count f : O !! f = Some RFrame →
    1 ≤ refs c P f ∧ shared_at (hvm s) f = Some (refs c P f - 1);
  co_few : ntables O ≤ 256;
  co_top pt i : O !! pt = Some RTable → X ≠ Some pt → 0 ≤ i < 1024 →
    kmem s !! (pt + 4 * i) = Some (dir_word (D !! (pt, i)));
  co_second pt i b j : D !! (pt, i) = Some b → X ≠ Some pt → 0 ≤ j < 1024 →
    kmem s !! (b + 4 * j) = Some (default 0 (P !! (pt, 1024 * i + j)));
  co_data f j : O !! f = Some RFrame → 0 ≤ j < 1024 → is_Some (kmem s !! (f + 4 * j))
}.

(** Prove the invariant of a new state from that of an old one, clause by
    clause. *)
Ltac cow_split Hok :=
  let Hheap := fresh "Hheap" in
  destruct Hok as [Hheap Hi Hman Hdir Hran Hfr Hpte Hcl Hsame Hcnt Hfew Htop Hsec Hdat];
  split; try done.

Section cow.
Implicit Types s : kheap vmst.
Implicit Types O : gmap Z role.
Implicit Types D P : gmap (Z * Z) Z.

Lemma role_block O a r : O !! a = Some r → internal r → (rsize <$> O) !! a = Some PAGE_SIZE.
Proof. intros Ha Hr. rewrite lookup_fmap, Ha. by destruct r. Qed.

Lemma ext_block O a : O !! a = Some (RExt PAGE_SIZE) → (rsize <$> O) !! a = Some PAGE_SIZE.
Proof. intros Ha. by rewrite lookup_fmap, Ha. Qed.

Lemma role_aligned X c s O D P a r :
  cow_ok X c s O D P → O !! a = Some r → internal r → a mod PAGE_SIZE = 0.
Proof.
  intros Hok Ha Hr. eapply page_aligned; [apply Hok|]. by eapply role_block.
Qed.

(** A frame is referred to at most once by every table. *)
Lemma refs_few X c s O D P f c' : cow_ok X c s O D P → refs c' P f ≤ 256.
Proof.
  intros Hok. transitivity (ntables O); [|apply Hok]. unfold refs, ntables.
  set (F := filter (counted c' f) P). set (T := filter (λ kr : Z * role, kr.2 = RTable) O).
  assert (∀ k w, F !! k = Some w → P !! k = Some w ∧ pframe w = f) as HF.
  { intros k w (? & ? & ?)%map_lookup_filter_Some. done. }
  assert (NoDup ((map_to_list F).*1).*1) as Hnd.
  { apply NoDup_fmap_2_strong; [|apply NoDup_fst_map_to_list].
    intros x y ([k w] & -> & Hk%elem_of_map_to_list)%list_elem_of_fmap
      ([k' w'] & -> & Hk'%elem_of_map_to_list)%list_elem_of_fmap E.
    simpl in *. destruct (HF _ _ Hk), (HF _ _ Hk').
    assert (k.2 = k'.2) by (eapply (co_same _ _ _ _ _ _ Hok); [done|done|congruence]).
    destruct k, k'. simpl in *. congruence. }
  assert (((map_to_list F).*1).*1 ⊆ (map_to_list T).*1) as Hsub.
  { intros p (k & -> & ([k' w] & -> & Hk%elem_of_map_to_list)%list_elem_of_fmap)%list_elem_of_fmap.
    destruct (HF _ _ Hk) as (HP & _). destruct k' as [p n]. simpl.
    destruct (co_closed _ _ _ _ _ _ Hok _ _ _ HP) as (b & Hb).
    destruct (co_range _ _ _ _ _ _ Hok _ _ _ Hb) as (HT & _).
    apply list_elem_of_fmap. exists (p, RTable). split; [done|].
    apply elem_of_map_to_list. by apply map_lookup_filter_Some. }
  apply NoDup_submseteq in Hsub; [|done]. apply submseteq_length in Hsub.
  rewrite !length_fmap, !length_map_to_list in Hsub. lia.
Qed.

(** A change of a page that belongs to somebody else. *)
Lemma cow_ext X c s s' O D P b z :
  cow_ok X c s O D P → O !! b = Some (RExt z) → heap_rep s' (rsize <$> O) → only_page b s s' →
  cow_ok X c s' O D P.
Proof.
  intros Hok Hb Hrep (_ & Hv & Hm).
  assert (∀ a r j, O !! a = Some r → internal r → 0 ≤ j < 1024 →
    kmem s' !! (a + 4 * j) = kmem s !! (a + 4 * j)) as Hk.
  { intros a r j Ha Hr Hj. apply Hm; [by eapply role_aligned|done|]. intros ->.
    rewrite Hb in Ha. by injection Ha as <-. }
  destruct Hok as [_ Hi Hman Hdir Hran Hfr Hpte Hcl Hsame Hcnt Hfew Htop Hsec Hdat].
  split; rewrite ?Hv; try done.
  - intros pt i HT HX Hi'. rewrite (Hk pt RTable) by done. by apply Htop.
  - intros pt i b' j HD HX Hj. rewrite (Hk b' (RSecond pt i)); [by apply Hsec|by apply Hdir|done|done].
  - intros f j Hf Hj. rewrite (Hk f RFrame) by done. by apply Hdat.
Qed.

(** A change of the coremap and of the pages of others. *)
Lemma cow_vm X c s v' O O' D P :
  cow_ok X c s O D P → heap_rep (set_hvm (hcpu s, v') s) (rsize <$> O') →
  (∀ x r, internal r → O' !! x = Some r ↔ O !! x = Some r) → same_frames (hvm s) v' →
  (∀ f, O !! f = Some RFrame → shared_at v' f = shared_at (hvm s) f) →
  cow_ok X c (set_hvm (hcpu s, v') s) O' D P.
Proof.
  intros Hok Hrep HO Hsf Hsh.
  destruct Hok as [_ Hi Hman Hdir Hran Hfr Hpte Hcl Hsame Hcnt Hfew Htop Hsec Hdat].
  assert (∀ x, O' !! x = Some RTable ↔ O !! x = Some RTable) as HOt by (intros; by apply HO).
  assert (∀ x, O' !! x = Some RFrame ↔ O !! x = Some RFrame) as HOf by (intros; by apply HO).
  split; cbn [hvm set_hvm snd kmem]; try done.
  - by rewrite (proj2 Hsf).
  - intros a r Ha Hr. apply (managed_same (hvm s)); [done|]. eapply Hman; [by apply HO|done].
  - intros. rewrite HO by done. apply Hdir.
  - intros. rewrite HOt. by eapply Hran.
  - intros. rewrite HOf. apply Hfr.
  - intros f Hf%HOf. rewrite Hsh by done. by apply Hcnt.
  - by rewrite (ntables_ext O O').
  - intros pt i Hpt%HOt. by apply Htop.
  - intros f j Hf%HOf. by apply Hdat.
Qed.

(** ** Pages for others *)

Lemma kmalloc_cow X c s O D P m (Q : Z → world (kheap vmst) → Prop) :
  cow_ok X c s O D P →
  (UNALLOCATED_FRAME (hvm s) = 0 → Q 0 (World s m)) →
  (∀ a s', O !! a = None → a ≠ 0 → cow_ok X c s' (<[a := RExt PAGE_SIZE]> O) D P →
     kmem s' = kmem s → hcpu s' = hcpu s → managed (hvm s') a → shared_at (hvm s') a = Some 0 →
     same_frames (hvm s) (hvm s') →
     UNALLOCATED_FRAME (hvm s') = UNALLOCATED_FRAME (hvm s) - 1 → Q a (World s' m)) →
  wp (kmalloc 4096) Q (World s m).
Proof.
  intros Hok Hno Hyes. eapply kmalloc_page; [apply Hok|apply Hok|done|].
  intros a v' s' Ha Ha0 Hrep Hsf Hm Hs0 Hsh Hun.
  assert (O !! a = None) as HOa.
  { rewrite lookup_fmap in Ha. by destruct (O !! a). }
  apply Hyes; try done. eapply cow_vm; [done| | |done|].
  - by rewrite fmap_insert.
  - intros x r Hr. rewrite lookup_insert_Some. split.
    + intros [(<- & <-)|(_ & ?)]; done.
    + intros Hx. right. split; [|done]. intros <-. congruence.
  - intros f Hf. apply Hsh; [intros ->; congruence|].
    eapply managed_same; [done|]. by eapply co_managed.
Qed.

Lemma kfree_cow X c s O D P a m (Q : unit → world (kheap vmst) → Prop) :
  cow_ok X c s O D P → O !! a = Some (RExt PAGE_SIZE) →
  (∀ s', cow_ok X c s' (delete a O) D P → kmem s' = kmem s → hcpu s' = hcpu s →
     same_frames (hvm s) (hvm s') → Q tt (World s' m)) →
  wp (kfree a) Q (World s m).
Proof.
  intros Hok Ha HQ. eapply kfree_page; [apply Hok|apply Hok|by apply ext_block|].
  intros v' s' Hrep Hsf Hsh. apply HQ; try done. eapply cow_vm; [done| | |done|].
  - by rewrite fmap_delete.
  - intros x r Hr. rewrite lookup_delete_Some. split; [by intros (_ & ?)|].
    intros Hx. split; [|done]. intros <-. rewrite Ha in Hx. by injection Hx as <-.
  - intros f Hf. apply Hsh; [intros ->; congruence|].
    eapply managed_same; [done|]. by eapply co_managed.
Qed.

(** ** Pages change their roles *)

Lemma rsize_insert O a r :
  O !! a = Some (RExt PAGE_SIZE) → internal r → rsize <$> <[a := r]> O = rsize <$> O.
Proof.
  intros Ha Hr. rewrite fmap_insert. apply insert_id. rewrite lookup_fmap, Ha. by destruct r.
Qed.

Lemma rsize_release O a r :
  O !! a = Some r → internal r → rsize <$> <[a := RExt PAGE_SIZE]> O = rsize <$> O.
Proof.
  intros Ha Hr. rewrite fmap_insert. apply insert_id. rewrite lookup_fmap, Ha. by destruct r.
Qed.

(** A role other than those of [a] before and after. *)
Lemma role_other O a r r' x :
  (∀ q, O !! a = Some q → q ≠ r') → r ≠ r' → <[a := r]> O !! x = Some r' ↔ O !! x = Some r'.
Proof.
  intros Ha Hr. rewrite lookup_insert_Some. split.
  - intros [(_ & ?)|(_ & ?)]; done.
  - intros Hx. right. split; [|done]. intros <-. by apply (Ha r').
Qed.

Lemma ext_other O a r : O !! a = Some (RExt PAGE_SIZE) → internal r → ∀ q, O !! a = Some q → q ≠ r.
Proof. intros Ha Hr q Hq. rewrite Ha in Hq. injection Hq as <-. by intros <-. Qed.

(** A page of zeros becomes a page table. *)
Lemma cow_new_table X c s O D P a :
  cow_ok X c s O D P → O !! a = Some (RExt PAGE_SIZE) → managed (hvm s) a → ntables O < 256 →
  (∀ i, 0 ≤ i < 1024 → kmem s !! (a + 4 * i) = Some 0) →
  cow_ok X c s (<[a := RTable]> O) D P.
Proof.
  intros Hok Ha Hm Hn Hz.
  assert (∀ i, D !! (a, i) = None) as HDa.
  { intros i. apply eq_None_not_Some. intros (b & Hb).
    destruct (co_range _ _ _ _ _ _ Hok _ _ _ Hb). congruence. }
  pose proof (ext_other O a) as Hne. cow_split Hok.
  - by rewrite rsize_insert.
  - intros x r. rewrite lookup_insert_Some. intros [(<- & <-)|(_ & Hx)]; [done|by apply Hman].
  - intros pt i b. rewrite Hdir. symmetry. apply role_other; [by apply Hne|done].
  - intros pt i b HD. destruct (Hran _ _ _ HD) as (HT & ?). split; [|done].
    apply lookup_insert_Some. right. split; [intros <-; congruence|done].
  - intros f. rewrite role_other; [apply Hfr|by apply Hne|done].
  - intros f. rewrite role_other; [apply Hcnt|by apply Hne|done].
  - rewrite ntables_insert by (rewrite Ha; done). lia.
  - intros pt i. rewrite lookup_insert_Some. intros [(<- & _)|(_ & HT)] HX Hi'.
    + by rewrite HDa, Hz.
    + by apply Htop.
  - intros f j. rewrite role_other; [apply Hdat|by apply Hne|done].
Qed.

(** A page of zeros becomes a second-level table: the directory is updated. *)
Lemma cow_new_second X c s O D P pt i b :
  cow_ok X c s O D P → O !! b = Some (RExt PAGE_SIZE) → managed (hvm s) b →
  O !! pt = Some RTable → 0 ≤ i < 1024 → D !! (pt, i) = None →
  (∀ j, 0 ≤ j < 1024 → kmem s !! (b + 4 * j) = Some 0) →
  heap_rep (put_word pt i (b - MIPS_KSEG0) s) (rsize <$> O) →
  cow_ok X c (put_word pt i (b - MIPS_KSEG0) s) (<[b := RSecond pt i]> O)
         (<[(pt, i) := b]> D) P.
Proof.
  intros Hok Hb Hm Hpt Hi0 HD Hz Hrep.
  pose proof (ext_other O b) as Hne.
  assert (pt mod PAGE_SIZE = 0) as Hpa by (by eapply role_aligned).
  assert (b mod PAGE_SIZE = 0) as Hba by (by eapply page_aligned, ext_block).
  assert (∀ x r, O !! x = Some r → internal r → x mod PAGE_SIZE = 0) as Hal
    by (intros; by eapply role_aligned).
  assert (∀ k, D !! k ≠ Some b) as HDb.
  { intros [pt' i'] E%(co_dir _ _ _ _ _ _ Hok). congruence. }
  cow_split Hok.
  - by rewrite rsize_insert.
  - intros x r. rewrite lookup_insert_Some. intros [(<- & <-)|(_ & Hx)]; [done|by apply Hman].
  - intros pt' i' b'. rewrite lookup_insert_Some, lookup_insert_Some. split.
    + intros [(E & <-)|(E & HD')]; [left; split; [done|congruence]|].
      right. split; [|by apply Hdir]. intros <-. by apply (HDb (pt', i')).
    + intros [(<- & [= -> ->])|(E & HO')]; [by left|]. apply Hdir in HO'.
      right. split; [|done]. intros [= -> ->]. congruence.
  - intros pt' i' b'. rewrite lookup_insert_Some. intros [([= <- <-] & <-)|(_ & HD')].
    + split; [|done]. apply lookup_insert_Some. right. split; [intros <-; congruence|done].
    + destruct (Hran _ _ _ HD') as (HT & ?). split; [|done].
      apply lookup_insert_Some. right. split; [intros <-; congruence|done].
  - intros f. rewrite role_other; [apply Hfr|by apply Hne|done].
  - intros pt' n w HP. destruct (Hcl _ _ _ HP) as (b' & Hb').
    destruct (decide ((pt, i) = (pt', n / 1024))) as [E|]; [by rewrite E, lookup_insert_eq|].
    rewrite lookup_insert_ne by done. by exists b'.
  - intros f. rewrite role_other; [apply Hcnt|by apply Hne|done].
  - rewrite (ntables_ext O); [done|]. intros x. apply role_other; [by apply Hne|done].
  - intros pt' i'. rewrite role_other by (done || by apply Hne). intros HT HX Hi'.
    destruct (decide ((pt, i) = (pt', i'))) as [[= <- <-]|Hk].
    + by rewrite lookup_insert_eq, put_word_eq.
    + rewrite lookup_insert_ne by done.
      rewrite put_word_ne; [by apply Htop|done|by eapply Hal|done|done|].
      destruct (decide (pt = pt')) as [->|]; [right; congruence|by left].
  - intros pt' i' b' j. rewrite lookup_insert_Some. intros [([= <- <-] & <-)|(Hk & HD')] HX Hj.
    + rewrite put_word_ne, Hz by (done || left; congruence).
      destruct (P !! (pt, 1024 * i + j)) as [w|] eqn:HP; [exfalso|done].
      destruct (Hcl _ _ _ HP) as (b' & Hb'). replace ((1024 * i + j) / 1024) with i in Hb' by lia.
      congruence.
    + assert (O !! b' = Some (RSecond pt' i')) by by apply Hdir.
      rewrite put_word_ne; [by apply Hsec|done|by eapply Hal|done|done|left; congruence].
  - intros f j. rewrite role_other by (done || by apply Hne). intros Hf Hj.
    rewrite put_word_ne; [by apply Hdat|done|by eapply Hal|done|done|left; congruence].
Qed.

(** The words of the second-level tables when one entry is replaced. *)
Lemma second_update X c s O D P pt b n w :
  cow_ok X c s O D P → D !! (pt, n / 1024) = Some b →
  let s' := put_word b (n mod 1024) w s in
  ∀ pt' i' b' j, D !! (pt', i') = Some b' → X ≠ Some pt' → 0 ≤ j < 1024 →
    kmem s' !! (b' + 4 * j) = Some (default 0 (<[(pt, n) := w]> P !! (pt', 1024 * i' + j))).
Proof.
  intros Hok HD s' pt' i' b' j HD' HX Hj.
  pose proof (proj1 (co_dir _ _ _ _ _ _ Hok _ _ _) HD) as Hb.
  pose proof (proj1 (co_dir _ _ _ _ _ _ Hok _ _ _) HD') as Hb'.
  destruct (decide ((pt, n) = (pt', 1024 * i' + j))) as [[= <- E]|Hk].
  - assert (i' = n / 1024 ∧ j = n mod 1024) as (-> & ->) by lia.
    rewrite HD in HD'. injection HD' as <-. unfold s'. rewrite put_word_eq.
    rewrite <- E. by rewrite lookup_insert_eq.
  - rewrite lookup_insert_ne by done.
    unfold s'. rewrite put_word_ne; [by eapply co_second|by eapply role_aligned|
      by eapply role_aligned|lia|done|].
    destruct (decide (b = b')) as [<-|]; [right|by left]. intros E. apply Hk.
    rewrite Hb in Hb'. injection Hb' as <- <-. f_equal. lia.
Qed.

(** A write to a second-level table leaves directories and frames alone. *)
Lemma top_kept X c s O D P pt i b j w :
  cow_ok X c s O D P → D !! (pt, i) = Some b → 0 ≤ j < 1024 →
  ∀ a r k, O !! a = Some r → internal r → r ≠ RSecond pt i → 0 ≤ k < 1024 →
    kmem (put_word b j w s) !! (a + 4 * k) = kmem s !! (a + 4 * k).
Proof.
  intros Hok HD Hj a r k Ha Hr Hne Hk.
  pose proof (proj1 (co_dir _ _ _ _ _ _ Hok _ _ _) HD) as Hb.
  apply put_word_ne; [by eapply role_aligned|by eapply role_aligned|done|done|].
  left. intros <-. congruence.
Qed.

(** A frame nobody maps yet is entered into a page table. *)
Lemma cow_map X c s O D P pt b n f w :
  cow_ok X c s O D P → O !! f = Some (RExt PAGE_SIZE) → managed (hvm s) f →
  shared_at (hvm s) f = Some 0 → (∀ j, 0 ≤ j < 1024 → is_Some (kmem s !! (f + 4 * j))) →
  D !! (pt, n / 1024) = Some b → P !! (pt, n) = None → c (pt, n) = true →
  pte_ok w → pframe w = f →
  heap_rep (put_word b (n mod 1024) w s) (rsize <$> O) →
  cow_ok X c (put_word b (n mod 1024) w s) (<[f := RFrame]> O) D (<[(pt, n) := w]> P).
Proof.
  intros Hok Hf Hm Hs0 Hdef HD HP Hc Hw Hwf Hrep.
  pose proof (ext_other O f) as Hne.
  assert (∀ k w', P !! k = Some w' → pframe w' ≠ f) as Hnew.
  { intros k w' HPk E. assert (O !! f = Some RFrame) by (apply (co_frame _ _ _ _ _ _ Hok); by exists k, w').
    congruence. }
  assert (refs c P f = 0) as Hr0.
  { destruct (decide (1 ≤ refs c P f)) as [(k & w' & HPk & _ & E)%refs_inv|];
      [by exfalso; eapply Hnew|unfold refs in *; lia]. }
  pose proof (second_update _ _ _ _ _ _ pt b n w Hok HD) as Hsu.
  pose proof (top_kept _ _ _ _ _ _ pt (n / 1024) b (n mod 1024) w Hok HD ltac:(lia)) as Htk.
  assert (∀ j, 0 ≤ j < 1024 → kmem (put_word b (n mod 1024) w s) !! (f + 4 * j) = kmem s !! (f + 4 * j)) as Hfk.
  { intros j Hj. pose proof (proj1 (co_dir _ _ _ _ _ _ Hok _ _ _) HD) as Hb.
    apply put_word_ne; [by eapply role_aligned| |lia|done|left; congruence].
    eapply page_aligned; [apply Hok|by apply ext_block]. }
  cow_split Hok.
  - by rewrite rsize_insert.
  - intros x r. rewrite lookup_insert_Some. intros [(<- & <-)|(_ & Hx)]; [done|by apply Hman].
  - intros. rewrite Hdir. symmetry. apply role_other; [by apply Hne|done].
  - intros pt' i' b' HD'. destruct (Hran _ _ _ HD') as (HT & ?). split; [|done].
    apply lookup_insert_Some. right. split; [intros <-; congruence|done].
  - intros f'. rewrite lookup_insert_Some. split.
    + intros [(<- & _)|(_ & Hf'%Hfr)].
      * exists (pt, n), w. by rewrite lookup_insert_eq.
      * destruct Hf' as (k & w' & HPk & E). exists k, w'.
        rewrite lookup_insert_ne; [done|]. intros <-. congruence.
    + intros (k & w' & [(<- & <-)|(_ & HPk)]%lookup_insert_Some & E);
        [left; split; congruence|].
      right. split; [|apply Hfr; by exists k, w']. intros <-. by eapply Hnew.
  - intros k w' [(_ & <-)|(_ & HPk)]%lookup_insert_Some; [done|by eapply Hpte].
  - intros pt' n' w' [([= <- <-] & _)|(_ & HPk)]%lookup_insert_Some; [by exists b|by eapply Hcl].
  - intros k k' w1 w2 [(<- & <-)|(_ & H1)]%lookup_insert_Some
      [(<- & <-)|(_ & H2)]%lookup_insert_Some E; [done| | |by eapply Hsame].
    + exfalso. eapply Hnew; [exact H2|congruence].
    + exfalso. eapply Hnew; [exact H1|congruence].
  - intros f'. rewrite lookup_insert_Some, refs_insert by done. cbn [hvm set_kmem put_word].
    intros [(<- & _)|(Hff & Hf')].
    + rewrite decide_True by done. rewrite Hr0, Hs0. done.
    + rewrite decide_False; [rewrite Z.add_0_r; by apply Hcnt|]. intros (_ & E). simpl in E. congruence.
  - rewrite (ntables_ext O); [done|]. intros x. apply role_other; [by apply Hne|done].
  - intros pt' i'. rewrite role_other by (done || by apply Hne). intros HT HX Hi'.
    rewrite (Htk _ RTable) by done. by apply Htop.
  - intros f' j. rewrite lookup_insert_Some. intros [(<- & _)|(_ & Hf')] Hj.
    + rewrite Hfk by done. by apply Hdef.
    + rewrite (Htk _ RFrame) by done. by apply Hdat.
Qed.

(** An entry gets other flags. *)
Lemma cow_rewrite X c s O D P pt b n w w' :
  cow_ok X c s O D P → D !! (pt, n / 1024) = Some b → P !! (pt, n) = Some w →
  pte_ok w' → pframe w' = pframe w →
  heap_rep (put_word b (n mod 1024) w' s) (rsize <$> O) →
  cow_ok X c (put_word b (n mod 1024) w' s) O D (<[(pt, n) := w']> P).
Proof.
  intros Hok HD HP Hw' Hwf Hrep.
  pose proof (second_update _ _ _ _ _ _ pt b n w' Hok HD) as Hsu.
  pose proof (top_kept _ _ _ _ _ _ pt (n / 1024) b (n mod 1024) w' Hok HD ltac:(lia)) as Htk.
  cow_split Hok.
  - intros f. rewrite Hfr. split.
    + intros (k & x & HPk & E). destruct (decide (k = (pt, n))) as [->|].
      * exists (pt, n), w'. rewrite lookup_insert_eq. split; [done|congruence].
      * exists k, x. by rewrite lookup_insert_ne.
    + intros (k & x & [(<- & <-)|(_ & HPk)]%lookup_insert_Some & E); [|by exists k, x].
      exists (pt, n), w. split; [done|congruence].
  - intros k x [(_ & <-)|(_ & HPk)]%lookup_insert_Some; [done|by eapply Hpte].
  - intros pt' n' x [([= <- <-] & _)|(_ & HPk)]%lookup_insert_Some; [by eapply Hcl|by eapply Hcl].
  - intros k k' x y [(<- & <-)|(_ & H1)]%lookup_insert_Some
      [(<- & <-)|(_ & H2)]%lookup_insert_Some E; [done|..|by eapply Hsame].
    + eapply (Hsame (pt, n) k' w y); [done|done|congruence].
    + eapply (Hsame k (pt, n) x w); [done|done|congruence].
  - intros f Hf. rewrite (refs_update _ _ _ w) by done. cbn [hvm set_kmem put_word].
    destruct (Hcnt f Hf) as (? & Hs). rewrite Hs.
    destruct (decide (counted c f ((pt, n), w))) as [(? & ?)|Hn1];
      destruct (decide (counted c f ((pt, n), w'))) as [(? & ?)|Hn2]; try (split; [lia|f_equal; lia]).
    + exfalso. apply Hn2. split; [done|]. simpl in *. congruence.
    + exfalso. apply Hn1. split; [done|]. simpl in *. congruence.
  - intros pt' i' HT HX Hi'. rewrite (Htk _ RTable) by done. by apply Htop.
  - intros f' j Hf' Hj. rewrite (Htk _ RFrame) by done. by apply Hdat.
Qed.

End cow.
