(* ===== verification/PageTableCount.v ===== *)
(** * Counting references

    The steps in which an entry gains or loses a reference, a frame is
    remapped, and the parts of a page table are given up. *)

From S2P Require Import Prelude Bits Spl Ram KHeap KHeapInv KHeapOk KHeapSpec KHeapProps Tlb Coremap CoremapSpec CoremapProps PageTable PageTableInv PageTableSpec.

#[local] Ltac Zify.zify_post_hook ::= Z.div_mod_to_equations.

Section count.
Implicit Types s : kheap vmst.
Implicit Types O : gmap Z role.
Implicit Types D P : gmap (Z * Z) Z.

(** [c'] counts the entry [k] with value [x] and is [c] elsewhere. *)
Definition count_set (c : Z * Z → bool) (k : Z * Z) (x : bool) (k' : Z * Z) : bool :=
  if decide (k' = k) then x else c k'.

Lemma count_set_eq c k x : count_set c k x k = x.
Proof. unfold count_set. by rewrite decide_True. Qed.

Lemma count_set_ne c k x k' : k' ≠ k → count_set c k x k' = c k'.
Proof. intros. unfold count_set. by rewrite decide_False. Qed.

(** The frame an entry names. *)
Lemma cow_frame X c s O D P k w :
  cow_ok X c s O D P → P !! k = Some w →
  O !! pframe w = Some RFrame ∧ managed (hvm s) (pframe w) ∧
  (rsize <$> O) !! pframe w = Some PAGE_SIZE.
Proof.
  intros Hok HP. assert (O !! pframe w = Some RFrame) as Hf
    by (apply (co_frame _ _ _ _ _ _ Hok); by exists k, w).
  split_and!; [done|by eapply co_managed|by eapply role_block].
Qed.

(** Only the counts of the coremap change. *)
Lemma cow_counts X c c' s O D P f x :
  cow_ok X c s O D P → O !! f = Some RFrame →
  (∀ g, O !! g = Some RFrame → g ≠ f → refs c' P g = refs c P g) →
  1 ≤ refs c' P f → x = refs c' P f - 1 →
  cow_ok X c' (put_shared f x s) O D P.
Proof.
  intros Hok Hf Hoth Hpos Hx.
  pose proof (co_managed _ _ _ _ _ _ Hok _ _ Hf I) as Hm.
  pose proof (role_block _ _ _ Hf I) as Hb.
  pose proof (rep_put_shared _ _ f x (co_heap _ _ _ _ _ _ Hok) (co_init _ _ _ _ _ _ Hok) Hb Hm) as Hrep.
  pose proof (rep_shared _ _ f (co_heap _ _ _ _ _ _ Hok) (co_init _ _ _ _ _ _ Hok) Hb Hm) as Hs.
  pose proof (set_shared_same f x (hvm s)) as Hsf.
  cow_split Hok; cbn [put_shared hvm set_hvm snd kmem].
  - by rewrite (proj2 Hsf).
  - intros a r Ha Hr. eapply managed_same; [done|by eapply Hman].
  - intros g Hg. destruct (decide (g = f)) as [->|Hne].
    + rewrite shared_at_set by done. by rewrite Hx.
    + rewrite shared_at_set_ne; [|done|by eapply Hman|done].
      rewrite Hoth by done. by apply Hcnt.
Qed.

(** [increfcount] for an entry that was not counted. *)
Lemma cow_incref X c s O D P k w :
  cow_ok X c s O D P → P !! k = Some w → c k = false →
  u8 (refs c P (pframe w) - 1 + 1) = refs c P (pframe w) ∧
  cow_ok X (count_set c k true) (put_shared (pframe w) (refs c P (pframe w)) s) O D P.
Proof.
  intros Hok HP Hk. destruct (cow_frame _ _ _ _ _ _ _ _ Hok HP) as (Hf & _ & _).
  assert (∀ f, refs (count_set c k true) P f = refs c P f + if decide (pframe w = f) then 1 else 0) as Hr.
  { intros f. apply (refs_count _ _ _ k); [done|done|apply count_set_eq|].
    intros. by apply count_set_ne. }
  pose proof (refs_few _ _ _ _ _ _ (pframe w) (count_set c k true) Hok) as Hfew.
  destruct (co_count _ _ _ _ _ _ Hok _ Hf) as (Hpos & _).
  rewrite Hr, decide_True in Hfew by done. split.
  - unfold u8. rewrite Z.mod_small; lia.
  - eapply cow_counts; [done|done|..].
    + intros g _ Hne. rewrite Hr, decide_False by congruence. lia.
    + rewrite Hr. case_decide; lia.
    + rewrite Hr, decide_True by done. lia.
Qed.

(** [decrefcount] for a counted entry of a shared frame. *)
Lemma cow_decref X c s O D P k w :
  cow_ok X c s O D P → P !! k = Some w → c k = true → 2 ≤ refs c P (pframe w) →
  u8 (refs c P (pframe w) - 1 - 1) = refs c P (pframe w) - 2 ∧
  cow_ok X (count_set c k false) (put_shared (pframe w) (refs c P (pframe w) - 2) s) O D P.
Proof.
  intros Hok HP Hk H2. destruct (cow_frame _ _ _ _ _ _ _ _ Hok HP) as (Hf & _ & _).
  assert (∀ f, refs c P f = refs (count_set c k false) P f + if decide (pframe w = f) then 1 else 0) as Hr.
  { intros f. apply (refs_count _ _ _ k); [done|apply count_set_eq|done|].
    intros. symmetry. by apply count_set_ne. }
  pose proof (refs_few _ _ _ _ _ _ (pframe w) c Hok) as Hfew. split.
  - unfold u8. rewrite Z.mod_small; lia.
  - pose proof (Hr (pframe w)) as Hrf. rewrite decide_True in Hrf by done.
    eapply cow_counts; [done|done|..].
    + intros g _ Hne. rewrite (Hr g), decide_False by congruence. lia.
    + lia.
    + lia.
Qed.

Lemma refs_delete_uncounted c P k f : c k = false → refs c (delete k P) f = refs c P f.
Proof.
  intros Hk. destruct (P !! k) as [w|] eqn:HP; [|by rewrite delete_id].
  rewrite (refs_delete _ _ _ w) by done. rewrite decide_False; [lia|].
  intros (E & _). simpl in E. congruence.
Qed.

(** The table under destruction gives up an entry that is not counted. *)
Lemma cow_drop pt c s O D P n :
  cow_ok (Some pt) c s O D P → c (pt, n) = false → cow_ok (Some pt) c s O D (delete (pt, n) P).
Proof.
  intros Hok Hc. assert (∀ f, refs c (delete (pt, n) P) f = refs c P f) as Hr
    by (intros; by apply refs_delete_uncounted).
  cow_split Hok.
  - intros f. rewrite Hfr. split.
    + intros Hf. destruct (Hcnt f) as (Hpos & _); [by apply Hfr|].
      apply refs_inv in Hpos as (k & w & HPk & Hck & E). exists k, w.
      rewrite lookup_delete_ne; [done|]. intros <-. congruence.
    + intros (k & w & (_ & HPk)%lookup_delete_Some & E). by exists k, w.
  - intros k w (_ & HPk)%lookup_delete_Some. by eapply Hpte.
  - intros pt' n' w (_ & HPk)%lookup_delete_Some. by eapply Hcl.
  - intros k k' w w' (_ & H1)%lookup_delete_Some (_ & H2)%lookup_delete_Some. by eapply Hsame.
  - intros f. rewrite Hr. apply Hcnt.
  - intros pt' i b j HD HX Hj. rewrite lookup_delete_ne by congruence. by apply Hsec.
Qed.

(** It gives up the only entry of a frame: the frame is nobody's. *)
Lemma cow_drop_last pt s O D P n w :
  cow_ok (Some pt) all_counted s O D P → P !! (pt, n) = Some w →
  refs all_counted P (pframe w) = 1 →
  cow_ok (Some pt) all_counted s (<[pframe w := RExt PAGE_SIZE]> O) D (delete (pt, n) P).
Proof.
  intros Hok HP H1. destruct (cow_frame _ _ _ _ _ _ _ _ Hok HP) as (Hf & _ & _).
  assert (∀ f, refs all_counted (delete (pt, n) P) f =
    refs all_counted P f - if decide (pframe w = f) then 1 else 0) as Hr.
  { intros f. rewrite (refs_delete _ _ _ w) by done.
    destruct (decide (counted all_counted f ((pt, n), w))) as [(_ & E)|Hn]; simpl in *.
    - by rewrite decide_True.
    - rewrite decide_False; [done|]. intros E. by apply Hn. }
  assert (∀ k x, delete (pt, n) P !! k = Some x → pframe x ≠ pframe w) as Hno.
  { intros k x Hk E. pose proof (refs_pos all_counted _ _ _ Hk eq_refl) as Hpos.
    rewrite E, Hr, decide_True in Hpos by done. lia. }
  assert (∀ r, internal r → r ≠ RFrame → ∀ q, O !! pframe w = Some q → q ≠ r) as Hne.
  { intros r _ Hr' q Hq. rewrite Hf in Hq. injection Hq as <-. congruence. }
  cow_split Hok.
  - by rewrite (rsize_release _ _ RFrame).
  - intros x r. rewrite lookup_insert_Some. intros [(<- & <-)|(_ & Hx)]; [done|by apply Hman].
  - intros. rewrite Hdir. symmetry. apply role_other; [by apply Hne|done].
  - intros pt' i' b' HD'. destruct (Hran _ _ _ HD') as (HT & ?). split; [|done].
    apply lookup_insert_Some. right. split; [intros <-; congruence|done].
  - intros f. rewrite lookup_insert_Some. split.
    + intros [(_ & ?)|(Hn & (k & x & HPk & E)%Hfr)]; [done|]. exists k, x. split; [|done].
      apply lookup_delete_Some. split; [intros <-; congruence|done].
    + intros (k & x & Hk & E). right. split; [intros <-; by eapply Hno|].
      apply lookup_delete_Some in Hk as (_ & HPk). apply Hfr. by exists k, x.
  - intros k x (_ & HPk)%lookup_delete_Some. by eapply Hpte.
  - intros pt' n' x (_ & HPk)%lookup_delete_Some. by eapply Hcl.
  - intros k k' x y (_ & Hx)%lookup_delete_Some (_ & Hy)%lookup_delete_Some. by eapply Hsame.
  - intros f. rewrite lookup_insert_Some, Hr. intros [(_ & ?)|(Hn & Hf')]; [done|].
    rewrite decide_False by done. rewrite Z.sub_0_r. by apply Hcnt.
  - rewrite (ntables_ext O); [done|]. intros x. apply role_other; [by apply Hne|done].
  - intros pt' i'. rewrite role_other by (done || by apply Hne). apply Htop.
  - intros pt' i b j HD HX Hj. rewrite lookup_delete_ne by congruence. by apply Hsec.
  - intros f j [(_ & ?)|(_ & Hf')]%lookup_insert_Some; [done|by apply Hdat].
Qed.

(** It gives up a second-level table without entries. *)
Lemma cow_drop_second pt c s O D P i b :
  cow_ok (Some pt) c s O D P → D !! (pt, i) = Some b →
  (∀ n, n / 1024 = i → P !! (pt, n) = None) →
  cow_ok (Some pt) c s (<[b := RExt PAGE_SIZE]> O) (delete (pt, i) D) P.
Proof.
  intros Hok HD Hnone. pose proof (proj1 (co_dir _ _ _ _ _ _ Hok _ _ _) HD) as Hb.
  assert (∀ r, r ≠ RSecond pt i → ∀ q, O !! b = Some q → q ≠ r) as Hne.
  { intros r Hr q Hq. rewrite Hb in Hq. injection Hq as <-. congruence. }
  cow_split Hok.
  - by rewrite (rsize_release _ _ (RSecond pt i)).
  - intros x r. rewrite lookup_insert_Some. intros [(<- & <-)|(_ & Hx)]; [done|by apply Hman].
  - intros pt' i' b'. rewrite lookup_delete_Some, Hdir, lookup_insert_Some. split.
    + intros (Hk & HO'). right. split; [|done]. intros <-. rewrite Hb in HO'. congruence.
    + intros [(_ & ?)|(Hn & HO')]; [done|]. split; [|done]. intros [= <- <-].
      apply Hdir in HO'. congruence.
  - intros pt' i' b' (_ & HD')%lookup_delete_Some. destruct (Hran _ _ _ HD') as (HT & ?).
    split; [|done]. apply lookup_insert_Some. right. split; [intros <-; congruence|done].
  - intros f. rewrite role_other; [apply Hfr|by apply Hne|done].
  - intros pt' n' w HP. destruct (Hcl _ _ _ HP) as (b' & Hb'). exists b'.
    rewrite lookup_delete_ne; [done|]. intros [= <- E]. rewrite Hnone in HP; done.
  - intros f. rewrite role_other; [apply Hcnt|by apply Hne|done].
  - rewrite (ntables_ext O); [done|]. intros x. apply role_other; [by apply Hne|done].
  - intros pt' i' HT HX Hi'. rewrite role_other in HT by (done || by apply Hne).
    rewrite lookup_delete_ne by congruence. by apply Htop.
  - intros pt' i' b' j (_ & HD')%lookup_delete_Some. by apply Hsec.
  - intros f j. rewrite role_other; [apply Hdat|by apply Hne|done].
Qed.

(** It gives up the top level, once the directory is empty. *)
Lemma cow_drop_table pt c s O D P :
  cow_ok (Some pt) c s O D P → O !! pt = Some RTable → (∀ i, D !! (pt, i) = None) →
  cow_ok None c s (<[pt := RExt PAGE_SIZE]> O) D P.
Proof.
  intros Hok Hpt Hnone.
  assert (∀ r, r ≠ RTable → ∀ q, O !! pt = Some q → q ≠ r) as Hne.
  { intros r Hr q Hq. rewrite Hpt in Hq. injection Hq as <-. congruence. }
  assert (∀ pt' i b, D !! (pt', i) = Some b → pt' ≠ pt) as HDn.
  { intros pt' i b HD ->. by rewrite Hnone in HD. }
  cow_split Hok.
  - by rewrite (rsize_release _ _ RTable).
  - intros x r. rewrite lookup_insert_Some. intros [(<- & <-)|(_ & Hx)]; [done|by apply Hman].
  - intros. rewrite Hdir. symmetry. apply role_other; [by apply Hne|done].
  - intros pt' i' b' HD'. destruct (Hran _ _ _ HD') as (HT & ?).
    split; [|done]. apply lookup_insert_Some. right. split; [|done].
    intros <-. by eapply HDn.
  - intros f. rewrite role_other; [apply Hfr|by apply Hne|done].
  - intros f. rewrite role_other; [apply Hcnt|by apply Hne|done].
  - assert (ntables (<[pt:=RExt PAGE_SIZE]> O) = ntables (delete pt O)) as ->.
    { apply ntables_ext. intros x. rewrite lookup_insert_Some, lookup_delete_Some. naive_solver. }
    rewrite ntables_delete by done. lia.
  - intros pt' i' HT _ Hi'. apply lookup_insert_Some in HT as [(_ & ?)|(Hn & HT)]; [done|].
    apply Htop; [done|congruence|done].
  - intros pt' i' b' j HD' _ Hj. apply Hsec; [done| |done]. intros [= <-]. by eapply HDn.
  - intros f j. rewrite role_other; [apply Hdat|by apply Hne|done].
Qed.

(** An entry that is not counted is redirected to a frame of its own. *)
Lemma cow_remap X c s O D P pt b n f w w' :
  cow_ok X c s O D P → O !! f = Some (RExt PAGE_SIZE) → managed (hvm s) f →
  shared_at (hvm s) f = Some 0 → (∀ j, 0 ≤ j < 1024 → is_Some (kmem s !! (f + 4 * j))) →
  D !! (pt, n / 1024) = Some b → P !! (pt, n) = Some w → c (pt, n) = false →
  X ≠ Some pt → pte_ok w' → pframe w' = f →
  heap_rep (put_word b (n mod 1024) w' s) (rsize <$> O) →
  cow_ok X (count_set c (pt, n) true) (put_word b (n mod 1024) w' s) (<[f := RFrame]> O) D
         (<[(pt, n) := w']> P).
Proof.
  intros Hok Hf Hm Hs0 Hdef HD HP Hc HX Hw Hwf Hrep.
  rewrite <- (insert_delete_eq P (pt, n) w').
  pose proof (ext_other O f) as Hne.
  assert (∀ k w', P !! k = Some w' → pframe w' ≠ f) as Hnew.
  { intros k x HPk E. assert (O !! f = Some RFrame) by (apply (co_frame _ _ _ _ _ _ Hok); by exists k, x).
    congruence. }
  assert (∀ g, refs (count_set c (pt, n) true) (<[(pt, n) := w']> (delete (pt, n) P)) g =
    refs c P g + if decide (f = g) then 1 else 0) as Hr.
  { intros g. rewrite refs_insert by (by rewrite lookup_delete_eq).
    rewrite (refs_ext c) by (intros k x (? & _)%lookup_delete_Some; by apply count_set_ne).
    rewrite refs_delete_uncounted by done. f_equal.
    destruct (decide (f = g)) as [E|Hn].
    - rewrite decide_True; [done|]. split; [apply count_set_eq|simpl; congruence].
    - rewrite decide_False; [done|]. intros (_ & E). simpl in E. congruence. }
  assert (refs c P f = 0) as Hr0.
  { destruct (decide (1 ≤ refs c P f)) as [(k & x & HPk & _ & E)%refs_inv|];
      [by exfalso; eapply Hnew|unfold refs in *; lia]. }
  pose proof (second_update _ _ _ _ _ _ pt b n w' Hok HD) as Hsu.
  pose proof (top_kept _ _ _ _ _ _ pt (n / 1024) b (n mod 1024) w' Hok HD ltac:(lia)) as Htk.
  assert (∀ j, 0 ≤ j < 1024 → kmem (put_word b (n mod 1024) w' s) !! (f + 4 * j) = kmem s !! (f + 4 * j)) as Hfk.
  { intros j Hj. pose proof (proj1 (co_dir _ _ _ _ _ _ Hok _ _ _) HD) as Hb.
    apply put_word_ne; [by eapply role_aligned| |lia|done|left; congruence].
    eapply page_aligned; [apply Hok|by apply ext_block]. }
  cow_split Hok.
  - by rewrite rsize_insert.
  - intros x r. rewrite lookup_insert_Some. intros [(<- & <-)|(_ & Hx)]; [done|by apply Hman].
  - intros. rewrite Hdir. symmetry. apply role_other; [by apply Hne|done].
  - intros pt' i' b' HD'. destruct (Hran _ _ _ HD') as (HT & ?). split; [|done].
    apply lookup_insert_Some. right. split; [intros <-; congruence|done].
  - intros f'. rewrite lookup_insert_Some. split.
    + intros [(<- & _)|(Hn & Hf')].
      * exists (pt, n), w'. by rewrite lookup_insert_eq.
      * destruct (Hcnt f' Hf') as (Hpos & _).
        apply refs_inv in Hpos as (k & x & HPk & Hck & E). exists k, x. split; [|done].
        assert (k ≠ (pt, n)) by congruence.
        by rewrite lookup_insert_ne, lookup_delete_ne.
    + intros (k & x & [(<- & <-)|(_ & (_ & HPk)%lookup_delete_Some)]%lookup_insert_Some & E);
        [left; split; congruence|].
      right. split; [|apply Hfr; by exists k, x]. intros <-. by eapply Hnew.
  - intros k x [(_ & <-)|(_ & (_ & HPk)%lookup_delete_Some)]%lookup_insert_Some;
      [done|by eapply Hpte].
  - intros pt' n' x [([= <- <-] & _)|(_ & (_ & HPk)%lookup_delete_Some)]%lookup_insert_Some;
      [by exists b|by eapply Hcl].
  - intros k k' x y [(<- & <-)|(_ & (_ & H1)%lookup_delete_Some)]%lookup_insert_Some
      [(<- & <-)|(_ & (_ & H2)%lookup_delete_Some)]%lookup_insert_Some E;
      [done| | |by eapply Hsame].
    + exfalso. eapply Hnew; [exact H2|congruence].
    + exfalso. eapply Hnew; [exact H1|congruence].
  - intros f'. rewrite lookup_insert_Some, Hr. cbn [hvm set_kmem put_word].
    intros [(<- & _)|(Hff & Hf')].
    + rewrite decide_True by done. rewrite Hr0, Hs0. done.
    + rewrite decide_False by done. rewrite Z.add_0_r. by apply Hcnt.
  - rewrite (ntables_ext O); [done|]. intros x. apply role_other; [by apply Hne|done].
  - intros pt' i'. rewrite role_other by (done || by apply Hne). intros HT HX' Hi'.
    rewrite (Htk _ RTable) by done. by apply Htop.
  - intros pt' i' b' j HD' HX' Hj. rewrite insert_delete_eq. by apply Hsu.
  - intros f' j. rewrite lookup_insert_Some. intros [(<- & _)|(_ & Hf')] Hj.
    + rewrite Hfk by done. by apply Hdef.
    + rewrite (Htk _ RFrame) by done. by apply Hdat.
Qed.
End count.
