(* ===== verification/PageTableOps.v ===== *)
(** * The functions of kern/vm/page_table.c as operations on the invariant *)

From S2P Require Import Prelude Bits Spl Ram KHeap KHeapInv KHeapOk KHeapSpec KHeapProps Tlb Coremap CoremapSpec CoremapProps PageTable PageTableInv PageTableSpec PageTableCount.

#[local] Ltac Zify.zify_post_hook ::= Z.div_mod_to_equations.

(** ** Addresses *)

Definition vpn (va : Z) : Z := va / PAGE_SIZE.

Lemma index_1_vpn va : 0 ≤ va < 2 ^ 32 → Z.shiftr va 22 = vpn va / 1024 ∧ 0 ≤ vpn va / 1024 < 1024.
Proof.
  intros Hva. rewrite Z.shiftr_div_pow2 by done. unfold vpn, PAGE_SIZE.
  change (2 ^ 22) with 4194304. lia.
Qed.

Lemma index_2_vpn va : Z.land (Z.shiftr va 12) SECOND_INDEX = vpn va mod 1024.
Proof.
  change SECOND_INDEX with (Z.ones 10). rewrite Z.land_ones by done.
  by rewrite Z.shiftr_div_pow2 by done.
Qed.

Lemma put_word_put b j x y s : put_word b j y (put_word b j x s) = put_word b j y s.
Proof. unfold put_word. destruct s; cbn. by rewrite insert_insert_eq. Qed.

(** The words of the frames are kept. *)
Definition data_kept (O : gmap Z role) (s s' : kheap vmst) : Prop :=
  ∀ f j, O !! f = Some RFrame → 0 ≤ j < 1024 → kmem s' !! (f + 4 * j) = kmem s !! (f + 4 * j).

Lemma data_kept_trans O s s1 s2 : data_kept O s s1 → data_kept O s1 s2 → data_kept O s s2.
Proof. intros H1 H2 f j Hf Hj. rewrite H2 by done. by apply H1. Qed.

Section ops.
Implicit Types s : kheap vmst.
Implicit Types O : gmap Z role.
Implicit Types D P : gmap (Z * Z) Z.

Lemma cow_recount X c c' s O D P :
  cow_ok X c s O D P → (∀ k w, P !! k = Some w → c' k = c k) → cow_ok X c' s O D P.
Proof.
  intros Hok Hc. assert (∀ f, refs c' P f = refs c P f) as Hr by (intros; by apply refs_ext).
  cow_split Hok. intros f. rewrite Hr. apply Hcnt.
Qed.

(** A second-level table is reached through its physical address. *)
Lemma dir_kvaddr X c s O D P pt i b :
  cow_ok X c s O D P → D !! (pt, i) = Some b →
  b - MIPS_KSEG0 ≠ 0 ∧ PADDR_TO_KVADDR (b - MIPS_KSEG0) = b ∧
  KVADDR_TO_PADDR b = b - MIPS_KSEG0 ∧ (rsize <$> O) !! b = Some PAGE_SIZE.
Proof.
  intros Hok HD. pose proof (proj1 (co_dir _ _ _ _ _ _ Hok _ _ _) HD) as Hb.
  assert ((rsize <$> O) !! b = Some PAGE_SIZE) as Hbl by (by eapply role_block).
  destruct (co_managed _ _ _ _ _ _ Hok _ _ Hb I) as (k & Hk & E).
  destruct (rep_coremap _ _ (co_heap _ _ _ _ _ _ Hok) (co_init _ _ _ _ _ _ Hok)) as (R & Hcm).
  pose proof (cm_base _ _ Hcm).
  destruct (rep_range _ _ _ _ (co_heap _ _ _ _ _ _ Hok) Hbl) as (_ & _ & ? & ?).
  split_and!; [|..|done].
  - unfold frame_kvaddr, PAGE_SIZE in E. lia.
  - unfold PADDR_TO_KVADDR, MIPS_KSEG0, MIPS_KSEG1, PAGE_SIZE in *. rewrite u32_id; lia.
  - unfold KVADDR_TO_PADDR, MIPS_KSEG0, MIPS_KSEG1, PAGE_SIZE in *. rewrite u32_id; lia.
Qed.

Lemma ext_paddr X c s O D P a :
  cow_ok X c s O D P → (rsize <$> O) !! a = Some PAGE_SIZE →
  KVADDR_TO_PADDR a = a - MIPS_KSEG0 ∧ MIPS_KSEG0 ≤ a ∧ a + PAGE_SIZE ≤ MIPS_KSEG1 ∧
  a mod PAGE_SIZE = 0.
Proof.
  intros Hok Ha. destruct (rep_range _ _ _ _ (co_heap _ _ _ _ _ _ Hok) Ha) as (_ & _ & ? & ?).
  pose proof (page_aligned _ _ _ (co_heap _ _ _ _ _ _ Hok) Ha).
  split_and!; [|done..]. unfold KVADDR_TO_PADDR, MIPS_KSEG0, MIPS_KSEG1, PAGE_SIZE in *.
  rewrite u32_id; lia.
Qed.

(** Reading an entry of the first level. *)
Lemma load_top X c s O D P pt i m (Q : Z → world (kheap vmst) → Prop) :
  cow_ok X c s O D P → O !! pt = Some RTable → X ≠ Some pt → 0 ≤ i < 1024 →
  Q (dir_word (D !! (pt, i))) (World s m) → wp (kload (elem pt i)) Q (World s m).
Proof.
  intros Hok Hpt HX Hi HQ. eapply kload_page; [apply Hok|by eapply role_block|done| |exact HQ].
  by eapply co_top.
Qed.

(** Reading an entry of the second level. *)
Lemma load_second X c s O D P pt b n m (Q : Z → world (kheap vmst) → Prop) :
  cow_ok X c s O D P → D !! (pt, n / 1024) = Some b → X ≠ Some pt →
  Q (default 0 (P !! (pt, n))) (World s m) → wp (kload (elem b (n mod 1024))) Q (World s m).
Proof.
  intros Hok HD HX HQ. destruct (dir_kvaddr _ _ _ _ _ _ _ _ _ Hok HD) as (_ & _ & _ & Hb).
  eapply kload_page; [apply Hok|done|lia| |exact HQ].
  rewrite (co_second _ _ _ _ _ _ Hok pt (n / 1024)) by (done || lia).
  do 4 f_equal. lia.
Qed.

(** ** Lookup *)

(** What [pt_lookup] should answer. *)
Definition lookup_ref D P (pt va ft e : Z) : Z * Z :=
  match D !! (pt, vpn va / 1024) with
  | None => (NO_SECOND_LEVEL_PT, e)
  | Some _ =>
      match P !! (pt, vpn va) with
      | None => (INVALID, e)
      | Some w =>
          if ft =? VM_FAULT_READONLY
          then (if bit_set w TLBLO_DIRTY then WRITE_PERMITTED else WRITE_NOT_PERMITTED, rw w)
          else (PTE_FOUND, if bit_set w PTE_READONLY then andnot w TLBLO_DIRTY else w)
      end
  end.

Lemma pt_lookup_spec X c s O D P pt va ft e m (Q : Z * Z → world (kheap vmst) → Prop) :
  cow_ok X c s O D P → O !! pt = Some RTable → X ≠ Some pt → 0 ≤ va < 2 ^ 32 →
  Q (lookup_ref D P pt va ft e) (World s m) → wp (pt_lookup pt va ft e) Q (World s m).
Proof.
  intros Hok Hpt HX Hva HQ. unfold pt_lookup. destruct (index_1_vpn va Hva) as (-> & Hi).
  rewrite index_2_vpn, wp_bind. eapply load_top; [done..|].
  unfold lookup_ref in HQ. destruct (D !! (pt, vpn va / 1024)) as [b|] eqn:HD; [|exact HQ].
  destruct (dir_kvaddr _ _ _ _ _ _ _ _ _ Hok HD) as (Hnz & Hkv & _ & _). cbn [dir_word].
  rewrite (proj2 (Z.eqb_neq _ _) Hnz), Hkv, wp_bind. eapply load_second; [done..|].
  destruct (P !! (pt, vpn va)) as [w|] eqn:HP; [|exact HQ]. cbn [default from_option id].
  rewrite (pte_valid _ (co_pte _ _ _ _ _ _ Hok _ _ HP)).
  destruct (ft =? VM_FAULT_READONLY); exact HQ.
Qed.

(** ** New tables and entries *)

Lemma pt_create_spec s O D P m (Q : Z → world (kheap vmst) → Prop) :
  cow_ok None all_counted s O D P → ntables O < 256 →
  (UNALLOCATED_FRAME (hvm s) = 0 → Q 0 (World s m)) →
  (∀ a s', O !! a = None → a ≠ 0 → cow_ok None all_counted s' (<[a := RTable]> O) D P →
     data_kept O s s' → hcpu s' = hcpu s → Q a (World s' m)) →
  wp pt_create Q (World s m).
Proof.
  intros Hok Hn Hno Hyes. unfold pt_create. rewrite wp_bind. eapply kmalloc_cow; [done|exact Hno|].
  intros a s' Ha Ha0 Hok' Hk Hc Hm Hs0 Hsf _. rewrite (proj2 (Z.eqb_neq a 0) Ha0). cbn [negb].
  rewrite wp_bind. eapply kbzero_page; [apply Hok'|apply ext_block, lookup_insert_eq|].
  intros s2 Hrep2 Hop Hz. rewrite wp_ret. destruct (Hop) as (Hc2 & Hv2 & Hm2).
  assert (cow_ok None all_counted s2 (<[a:=RExt PAGE_SIZE]> O) D P) as Hok2
    by (eapply cow_ext; [done|apply lookup_insert_eq|done|done]).
  apply Hyes; [done|done|..].
  - rewrite <- (insert_insert_eq O a RTable (RExt PAGE_SIZE)).
    apply cow_new_table; [done|apply lookup_insert_eq|by rewrite Hv2| |done].
    rewrite (ntables_ext O); [done|]. intros x. apply role_other; [|done]. by rewrite Ha.
  - intros f j Hf Hj. rewrite Hm2; [by rewrite Hk|exact (role_aligned _ _ _ _ _ _ _ _ Hok Hf I)|done|congruence].
  - by rewrite Hc2.
Qed.

(** [update_first_pt_entry] with a page of zeros. *)
Lemma update_first_spec X c s O D P pt va b m (Q : unit → world (kheap vmst) → Prop) :
  cow_ok X c s O D P → O !! b = Some (RExt PAGE_SIZE) → managed (hvm s) b →
  O !! pt = Some RTable → 0 ≤ va < 2 ^ 32 → D !! (pt, vpn va / 1024) = None →
  (∀ j, 0 ≤ j < 1024 → kmem s !! (b + 4 * j) = Some 0) →
  (∀ s', s' = put_word pt (vpn va / 1024) (b - MIPS_KSEG0) s →
     cow_ok X c s' (<[b := RSecond pt (vpn va / 1024)]> O) (<[(pt, vpn va / 1024) := b]> D) P →
     Q tt (World s' m)) →
  wp (update_first_pt_entry pt va b) Q (World s m).
Proof.
  intros Hok Hb Hm Hpt Hva HD Hz HQ. unfold update_first_pt_entry.
  destruct (index_1_vpn va Hva) as (-> & Hi).
  destruct (ext_paddr _ _ _ _ _ _ b Hok (ext_block _ _ Hb)) as (-> & _).
  pose proof (role_block _ _ _ Hpt I) as Hptb.
  rewrite wp_bind. eapply kstore_page; [apply Hok|done|done|]. intros Hrep1.
  eapply kstore_page; [done|done|done|]. rewrite put_word_put. intros Hrep2.
  apply HQ; [done|]. by apply cow_new_second.
Qed.

(** The word [update_second_pt_entry] stores. *)
Lemma mkpte_code f flags :
  f mod PAGE_SIZE = 0 →
  (if bit_set flags PF_W then Z.lor (Z.lor (f - MIPS_KSEG0) TLBLO_VALID) TLBLO_DIRTY
   else Z.lor (f - MIPS_KSEG0) TLBLO_VALID) = mkpte f (bit_set flags PF_W).
Proof.
  intros Hf. rewrite mkpte_lor by done. destruct (bit_set flags PF_W); [|done].
  by rewrite <- Z.lor_assoc.
Qed.

Lemma update_second_spec X c s O D P pt b va f flags m (Q : Z → world (kheap vmst) → Prop) :
  cow_ok X c s O D P → O !! f = Some (RExt PAGE_SIZE) → managed (hvm s) f →
  shared_at (hvm s) f = Some 0 → (∀ j, 0 ≤ j < 1024 → is_Some (kmem s !! (f + 4 * j))) →
  0 ≤ va < 2 ^ 32 → X ≠ Some pt → D !! (pt, vpn va / 1024) = Some b → P !! (pt, vpn va) = None →
  c (pt, vpn va) = true →
  (∀ s', let w := mkpte f (bit_set flags PF_W) in
     s' = put_word b (vpn va mod 1024) w s →
     cow_ok X c s' (<[f := RFrame]> O) D (<[(pt, vpn va) := w]> P) → Q w (World s' m)) →
  wp (update_second_pt_entry pt va f flags) Q (World s m).
Proof.
  intros Hok Hf Hm Hs0 Hdef Hva HX HD HP Hc HQ. unfold update_second_pt_entry.
  destruct (index_1_vpn va Hva) as (-> & Hi). rewrite index_2_vpn.
  destruct (co_range _ _ _ _ _ _ Hok _ _ _ HD) as (Hpt & _).
  destruct (ext_paddr _ _ _ _ _ _ f Hok (ext_block _ _ Hf)) as (-> & Hlo & Hhi & Ha).
  destruct (dir_kvaddr _ _ _ _ _ _ _ _ _ Hok HD) as (_ & Hkv & _ & Hb).
  rewrite wp_bind. eapply load_top; [done..|]. rewrite HD. cbn [dir_word]. rewrite Hkv.
  set (j := vpn va mod 1024). assert (0 ≤ j < 1024) as Hj by lia.
  rewrite wp_bind. eapply kstore_page; [apply Hok|done|done|]. intros Hrep1.
  rewrite wp_bind. eapply kstore_page; [done|done|done|]. rewrite put_word_put. intros Hrep2.
  rewrite wp_bind. eapply kload_page; [done|done|done|apply put_word_eq|].
  rewrite wp_bind. eapply kstore_page; [done|done|done|]. rewrite put_word_put. intros Hrep3.
  rewrite wp_bind. pose proof (mkpte_code f flags Ha) as Hcode.
  assert (∀ s', s' = put_word b j (mkpte f (bit_set flags PF_W)) s → heap_rep s' (rsize <$> O) →
    wp (kload (elem b j)) Q (World s' m)) as Hend.
  { intros s' -> Hrep. eapply kload_page; [done|done|done|apply put_word_eq|].
    apply HQ; [done|]. apply cow_map; try done; [by apply mkpte_ok|by apply mkpte_frame]. }
  destruct (bit_set flags PF_W) eqn:Hw.
  - rewrite wp_bind. eapply kload_page; [done|done|done|apply put_word_eq|].
    eapply kstore_page; [done|done|done|]. rewrite put_word_put, Hcode. intros Hrep4.
    by apply Hend.
  - rewrite wp_ret. rewrite Hcode in *. by apply Hend.
Qed.

Lemma new_second_pt_spec s O D P pt va m (Q : Z → world (kheap vmst) → Prop) :
  cow_ok None all_counted s O D P → O !! pt = Some RTable → 0 ≤ va < 2 ^ 32 →
  D !! (pt, vpn va / 1024) = None →
  (UNALLOCATED_FRAME (hvm s) = 0 → Q ENOMEM (World s m)) →
  (∀ b s', O !! b = None →
     cow_ok None all_counted s' (<[b := RSecond pt (vpn va / 1024)]> O) (<[(pt, vpn va / 1024) := b]> D) P →
     data_kept O s s' → hcpu s' = hcpu s →
     UNALLOCATED_FRAME (hvm s') = UNALLOCATED_FRAME (hvm s) - 1 → Q 0 (World s' m)) →
  wp (new_second_pt pt va) Q (World s m).
Proof.
  intros Hok Hpt Hva HD Hno Hyes. unfold new_second_pt. rewrite wp_bind.
  eapply kmalloc_cow; [done|intros E; cbn [Z.eqb]; rewrite wp_ret; by apply Hno|].
  intros b s' Hb Hb0 Hok' Hk Hc Hm Hs0 Hsf Hun. rewrite (proj2 (Z.eqb_neq b 0) Hb0), wp_bind.
  eapply kbzero_page; [apply Hok'|apply ext_block, lookup_insert_eq|].
  intros s2 Hrep2 (Hc2 & Hv2 & Hm2) Hz. rewrite wp_bind.
  assert (cow_ok None all_counted s2 (<[b:=RExt PAGE_SIZE]> O) D P) as Hok2
    by (eapply cow_ext; [done|apply lookup_insert_eq|done|done]).
  assert (b ≠ pt) by congruence.
  eapply update_first_spec; [exact Hok2|apply lookup_insert_eq|by rewrite Hv2|
    by rewrite lookup_insert_ne|done..|].
  intros s3 E Hok3. rewrite insert_insert_eq in Hok3. rewrite wp_ret.
  assert (∀ x r, O !! x = Some r → internal r → x mod PAGE_SIZE = 0) as Hal
    by (intros x r Hx Hr; exact (role_aligned _ _ _ _ _ _ _ _ Hok Hx Hr)).
  eapply Hyes; [done|done|..]; rewrite E.
  - intros f j Hf Hj. rewrite put_word_ne; [|by eapply Hal|by eapply Hal|by apply index_1_vpn|done|
      left; congruence].
    rewrite Hm2; [by rewrite Hk|by eapply Hal|done|congruence].
  - by rewrite <- Hc, <- Hc2.
  - cbn [put_word set_kmem hvm]. by rewrite Hv2.
Qed.

Lemma new_zero_frame_spec X c s O D P m (Q : Z → world (kheap vmst) → Prop) :
  cow_ok X c s O D P →
  (UNALLOCATED_FRAME (hvm s) = 0 → Q 0 (World s m)) →
  (∀ f s', O !! f = None → f ≠ 0 → cow_ok X c s' (<[f := RExt PAGE_SIZE]> O) D P →
     managed (hvm s') f → shared_at (hvm s') f = Some 0 →
     (∀ j, 0 ≤ j < 1024 → kmem s' !! (f + 4 * j) = Some 0) →
     data_kept O s s' → hcpu s' = hcpu s →
     UNALLOCATED_FRAME (hvm s') = UNALLOCATED_FRAME (hvm s) - 1 → Q f (World s' m)) →
  wp new_zero_frame Q (World s m).
Proof.
  intros Hok Hno Hyes. unfold new_zero_frame. rewrite wp_bind.
  eapply kmalloc_cow; [done|intros E; cbn [Z.eqb]; rewrite wp_ret; by apply Hno|].
  intros f s' Hf Hf0 Hok' Hk Hc Hm Hs0 Hsf Hun. rewrite (proj2 (Z.eqb_neq f 0) Hf0), wp_bind.
  eapply kbzero_page; [apply Hok'|apply ext_block, lookup_insert_eq|].
  intros s2 Hrep2 (Hc2 & Hv2 & Hm2) Hz. rewrite wp_ret.
  apply Hyes; try done; try by rewrite Hv2.
  - eapply cow_ext; [done|apply lookup_insert_eq|done|done].
  - intros g j Hg Hj. rewrite Hm2; [by rewrite Hk|
      exact (role_aligned _ _ _ _ _ _ _ _ Hok Hg I)|done|congruence].
  - by rewrite Hc2.
Qed.
End ops.
