(* ===== verification/PageTableFork.v ===== *)
(** * Copy-on-write, fork and destruction of page tables *)

From S2P Require Import Prelude Bits Spl Ram KHeap KHeapInv KHeapOk KHeapSpec KHeapProps Tlb Coremap CoremapSpec CoremapProps PageTable PageTableInv PageTableSpec PageTableCount PageTableOps.

#[local] Ltac Zify.zify_post_hook ::= Z.div_mod_to_equations.

Section fork.
Implicit Types s : kheap vmst.
Implicit Types O : gmap Z role.
Implicit Types D P : gmap (Z * Z) Z.

(** ** Copy-on-write *)

Lemma cow_lor f :
  f mod PAGE_SIZE = 0 →
  Z.lor (Z.lor (f - MIPS_KSEG0) TLBLO_DIRTY) TLBLO_VALID = mkpte f true.
Proof. intros Hf. rewrite mkpte_lor by done. by rewrite <- Z.lor_assoc. Qed.

(** The three outcomes: a private frame just becomes writable; a shared frame
    is copied; without memory for the copy the count has already been lowered. *)
Lemma pt_copy_on_write_spec s O D P pt va e w m (Q : Z * Z → world (kheap vmst) → Prop) :
  cow_ok None all_counted s O D P → P !! (pt, vpn va) = Some w → 0 ≤ va < 2 ^ 32 →
  (∀ s', refs all_counted P (pframe w) = 1 →
     cow_ok None all_counted s' O D (<[(pt, vpn va) := rw w]> P) → data_kept O s s' →
     Q (0, rw w) (World s' m)) →
  (∀ f s', 2 ≤ refs all_counted P (pframe w) → O !! f = None →
     cow_ok None all_counted s' (<[f := RFrame]> O) D (<[(pt, vpn va) := mkpte f true]> P) →
     data_kept O s s' → pframe (mkpte f true) = f →
     (∀ j, 0 ≤ j < 1024 → kmem s' !! (f + 4 * j) = kmem s !! (pframe w + 4 * j)) →
     Q (0, mkpte f true) (World s' m)) →
  (∀ s', 2 ≤ refs all_counted P (pframe w) → UNALLOCATED_FRAME (hvm s) = 0 →
     cow_ok None (count_set all_counted (pt, vpn va) false) s' O D P →
     Q (ENOMEM, e) (World s' m)) →
  wp (pt_copy_on_write pt va e) Q (World s m).
Proof.
  intros Hok HP Hva Hone Hcopy Hfail. unfold pt_copy_on_write.
  destruct (index_1_vpn va Hva) as (-> & Hi). rewrite index_2_vpn.
  destruct (co_closed _ _ _ _ _ _ Hok _ _ _ HP) as (b & HD).
  destruct (co_range _ _ _ _ _ _ Hok _ _ _ HD) as (Hpt & _).
  destruct (dir_kvaddr _ _ _ _ _ _ _ _ _ Hok HD) as (_ & Hkv & _ & Hb).
  pose proof (co_pte _ _ _ _ _ _ Hok _ _ HP) as Hw.
  rewrite wp_bind. eapply load_top; [done..|]. rewrite HD. cbn [dir_word]. rewrite Hkv.
  rewrite wp_bind. eapply load_second; [done..|]. rewrite HP. cbn [default from_option id].
  rewrite (ppage_pframe _ Hw).
  destruct (cow_frame _ _ _ _ _ _ _ _ Hok HP) as (Hf & Hm & Hfb).
  destruct (co_count _ _ _ _ _ _ Hok _ Hf) as (Hpos & Hsh).
  set (k := (pt, vpn va)) in *. set (j := vpn va mod 1024). assert (0 ≤ j < 1024) as Hj by lia.
  rewrite wp_bind. eapply isShared_wp; [apply Hok|apply Hok|done..|].
  destruct (Z.eqb_spec (refs all_counted P (pframe w) - 1) 0) as [E|E]; cbn [negb].
  - assert (refs all_counted P (pframe w) = 1) as H1 by lia.
    rewrite wp_bind. eapply load_second; [done..|]. fold k. rewrite HP. cbn [default from_option id].
    rewrite wp_bind. eapply kstore_page; [apply Hok|done|done|]. intros Hrep.
    rewrite wp_bind. eapply kload_page; [done|done|done|apply put_word_eq|]. rewrite wp_ret.
    fold (rw w) in *. apply Hone; [done| |].
    + eapply cow_rewrite; [done|done|done|by apply rw_ok|by apply pframe_rw|done].
    + intros f j' Hf' Hj'. by eapply (top_kept _ _ _ _ _ _ _ _ _ _ _ Hok HD Hj _ RFrame).
  - assert (2 ≤ refs all_counted P (pframe w)) as H2 by lia.
    destruct (cow_decref _ _ _ _ _ _ k w Hok HP eq_refl H2) as (Hu8 & Hok1).
    rewrite wp_bind. eapply decrefcount_wp; [apply Hok|apply Hok|done..|]. rewrite Hu8.
    set (s1 := put_shared _ _ _) in *. rewrite wp_bind. change PAGE_SIZE with 4096 at 1.
    eapply kmalloc_cow; [exact Hok1| |].
    + intros Hun. cbn [Z.eqb]. rewrite wp_ret. apply Hfail; [done| |done].
      unfold s1, put_shared, set_shared in Hun. cbn [hvm set_hvm snd] in Hun.
      by destruct (coremap (hvm s) !! Z.to_nat (frame_no (hvm s) (pframe w))).
    + intros f s2 Hf0 Hfz Hok2 Hk2 _ Hm2 Hs2 Hsf2 _. rewrite (proj2 (Z.eqb_neq f 0) Hfz).
      rewrite <- (ppage_pframe _ Hw), (ppage_kvaddr _ Hw).
      assert (f ≠ pframe w) as Hne by congruence.
      set (O2 := <[f := RExt PAGE_SIZE]> O) in *.
      assert (O2 !! f = Some (RExt PAGE_SIZE)) as Hf2 by apply lookup_insert_eq.
      assert (O2 !! pframe w = Some RFrame) as Hw2 by (unfold O2; by rewrite lookup_insert_ne).
      destruct (ext_paddr _ _ _ _ _ _ f Hok2 (ext_block _ _ Hf2)) as (Hpa & Hlo & Hhi & Ha).
      rewrite wp_bind. eapply (kmemmove_page _ (rsize <$> O2));
        [apply Hok2|by apply ext_block|by eapply role_block|done| |].
      { intros j' Hj'. by eapply co_data. }
      intros s3 Hrep3 Hop Hcp. pose proof (cow_ext _ _ _ _ _ _ _ _ _ Hok2 Hf2 Hrep3 Hop) as Hok3.
      destruct (Hop) as (_ & Hv3 & Hm3). rewrite Hpa, cow_lor by done.
      destruct (dir_kvaddr _ _ _ _ _ _ _ _ _ Hok3 HD) as (_ & _ & _ & Hb3).
      rewrite wp_bind. eapply kstore_page; [done|done|done|]. intros Hrep4.
      rewrite wp_bind. eapply kload_page; [done|done|done|apply put_word_eq|]. rewrite wp_ret.
      assert (b ≠ f) as Hbf.
      { intros ->. pose proof (proj1 (co_dir _ _ _ _ _ _ Hok _ _ _) HD). congruence. }
      assert (∀ x r q, O !! x = Some r → internal r → r ≠ RSecond pt (vpn va / 1024) →
        0 ≤ q < 1024 → kmem (put_word b j (mkpte f true) s3) !! (x + 4 * q) = kmem s !! (x + 4 * q)) as Hkeep.
      { intros x r q Hx Hr Hns Hq. assert (x ≠ f) by congruence.
        rewrite (top_kept _ _ _ _ _ _ _ _ _ _ _ Hok3 HD Hj x r q); [|
          unfold O2; by rewrite lookup_insert_ne|done..].
        rewrite Hm3; [by rewrite Hk2|exact (role_aligned _ _ _ _ _ _ _ _ Hok Hx Hr)|done|done]. }
      apply Hcopy; [done|done| | | |].
      * rewrite <- (insert_insert_eq O f RFrame (RExt PAGE_SIZE)). fold O2.
        eapply cow_recount; [eapply (cow_remap _ _ _ _ _ _ _ _ _ f w); try done|].
        -- by rewrite Hv3.
        -- by rewrite Hv3.
        -- intros j' Hj'. rewrite Hcp by done. by eapply co_data.
        -- apply count_set_eq.
        -- by apply mkpte_ok.
        -- by apply mkpte_frame.
        -- intros k' w' _. unfold count_set. by repeat case_decide.
      * intros f' j' Hf' Hj'. by apply (Hkeep f' RFrame).
      * by apply mkpte_frame.
      * intros j' Hj'. rewrite put_word_ne; [|by eapply page_aligned|done|done|done|by left].
        rewrite Hcp by done. by rewrite Hk2.
Qed.

(** ** Marking entries read-only *)

Lemma load_entry X c s O D P pt i b j m (Q : Z → world (kheap vmst) → Prop) :
  cow_ok X c s O D P → D !! (pt, i) = Some b → X ≠ Some pt → 0 ≤ j < 1024 →
  Q (default 0 (P !! (pt, 1024 * i + j))) (World s m) → wp (kload (elem b j)) Q (World s m).
Proof.
  intros Hok HD HX Hj HQ. destruct (dir_kvaddr _ _ _ _ _ _ _ _ _ Hok HD) as (_ & _ & _ & Hb).
  eapply kload_page; [apply Hok|done|done| |exact HQ]. by eapply co_second.
Qed.

(** Without [coremap_update] nothing happens. *)
Lemma make_readonly_parent X c s O D P pt m (Q : unit → world (kheap vmst) → Prop) :
  cow_ok X c s O D P → O !! pt = Some RTable → X ≠ Some pt → Q tt (World s m) →
  wp (make_readonly pt 0) Q (World s m).
Proof.
  intros Hok Hpt HX HQ. unfold make_readonly. cbn [Z.eqb negb].
  apply (wp_kfold (λ _ _ w, w = World s m)); [done| |by intros [] w ->].
  intros i _ w Hi ->. rewrite wp_bind. eapply load_top; [done..|].
  destruct (D !! (pt, i)) as [b|] eqn:HD; [|done]. cbn [dir_word].
  destruct (dir_kvaddr _ _ _ _ _ _ _ _ _ Hok HD) as (Hnz & Hkv & _ & _).
  rewrite (proj2 (Z.eqb_neq _ _) Hnz), Hkv. cbn [negb].
  apply (wp_kfold (λ _ _ w, w = World s m)); [done| |by intros [] w ->].
  intros j _ w Hj ->. rewrite wp_bind. eapply load_entry; [done..|].
  by destruct (bit_set _ _).
Qed.

(** The entries of [pt] below [N] are read-only. *)
Definition ro_upto (P P' : gmap (Z * Z) Z) (pt N : Z) : Prop :=
  ∀ k, P' !! k = if decide (k.1 = pt ∧ k.2 < N) then ro <$> P !! k else P !! k.

Definition cnt_upto (pt N : Z) (k : Z * Z) : bool := negb (k.1 =? pt) || (k.2 <? N).

Lemma ro_upto_skip P P' pt N N' :
  ro_upto P P' pt N → N ≤ N' → (∀ n, N ≤ n < N' → P !! (pt, n) = None) → ro_upto P P' pt N'.
Proof.
  intros Hro HN Hno [p n]. rewrite Hro. cbn [fst snd]. repeat case_decide; try done.
  - naive_solver lia.
  - destruct (decide (p = pt)) as [->|]; [|naive_solver]. rewrite Hno by lia. done.
Qed.

Lemma cow_skip X s O D P pt N N' :
  cow_ok X (cnt_upto pt N) s O D P → N ≤ N' → (∀ n, N ≤ n < N' → P !! (pt, n) = None) →
  cow_ok X (cnt_upto pt N') s O D P.
Proof.
  intros Hok HN Hno. eapply cow_recount; [done|]. intros [p n] w HP. unfold cnt_upto. cbn [fst snd].
  destruct (Z.eqb_spec p pt) as [->|]; [|done]. cbn [negb orb].
  destruct (decide (N ≤ n < N')); [by rewrite Hno in HP|]. lia.
Qed.

(** One entry of the child. *)
Lemma make_readonly_entry s O D P P' pt i b j m (Q : unit → world (kheap vmst) → Prop) :
  let N := 1024 * i + j in
  cow_ok None (cnt_upto pt N) s O D P' → ro_upto P P' pt N →
  D !! (pt, i) = Some b → 0 ≤ j < 1024 →
  (∀ s' P'', cow_ok None (cnt_upto pt (N + 1)) s' O D P'' → ro_upto P P'' pt (N + 1) →
     data_kept O s s' → hcpu s' = hcpu s → Q tt (World s' m)) →
  wp (w ← kload (elem b j);
      if bit_set w TLBLO_VALID then
        kstore (elem b j) (Z.lor w PTE_READONLY);;
        (w ← kload (elem b j); on_coremap (increfcount (Z.land w TLBLO_PPAGE)))
      else mret tt) Q (World s m).
Proof.
  intros N Hok Hro HD Hj HQ. rewrite wp_bind. eapply load_entry; [done..|]. fold N.
  pose proof (Hro (pt, N)) as HN. rewrite decide_False in HN by (simpl; lia).
  destruct (P' !! (pt, N)) as [w|] eqn:HP; cbn [default from_option id].
  - pose proof (co_pte _ _ _ _ _ _ Hok _ _ HP) as Hw. rewrite (pte_valid _ Hw).
    destruct (dir_kvaddr _ _ _ _ _ _ _ _ _ Hok HD) as (_ & _ & _ & Hb).
    rewrite wp_bind. eapply kstore_page; [apply Hok|done|done|]. fold (ro w). intros Hrep.
    rewrite wp_bind. eapply kload_page; [done|done|done|apply put_word_eq|].
    assert (cow_ok None (cnt_upto pt N) (put_word b j (ro w) s) O D (<[(pt, N) := ro w]> P')) as Hok1.
    { replace j with (N mod 1024) by lia. eapply cow_rewrite; [done| |done|by apply ro_ok|apply pframe_ro|].
      - replace (N / 1024) with i by lia. done.
      - by replace (N mod 1024) with j by lia. }
    assert (<[(pt, N) := ro w]> P' !! (pt, N) = Some (ro w)) as HP1 by apply lookup_insert_eq.
    assert (cnt_upto pt N (pt, N) = false) as Hc0.
    { unfold cnt_upto. cbn [fst snd]. rewrite Z.eqb_refl, Z.ltb_irrefl. done. }
    destruct (cow_incref _ _ _ _ _ _ _ _ Hok1 HP1 Hc0) as (Hu8 & Hok2).
    destruct (cow_frame _ _ _ _ _ _ _ _ Hok1 HP1) as (Hf & Hm & Hfb).
    destruct (co_count _ _ _ _ _ _ Hok1 _ Hf) as (_ & Hsh).
    rewrite (ppage_pframe _ (ro_ok _ Hw)).
    eapply increfcount_wp; [apply Hok1|apply Hok1|done..|]. rewrite Hu8.
    eapply HQ; [eapply cow_recount; [exact Hok2|]|..].
    + intros [p n] x _. unfold count_set, cnt_upto. cbn [fst snd].
      case_decide as E; [injection E as -> ->; rewrite Z.eqb_refl; cbn [negb orb]; lia|].
      destruct (Z.eqb_spec p pt) as [->|]; [|done]. cbn [negb orb].
      destruct (decide (n = N)) as [->|]; [done|]. lia.
    + intros [p n]. rewrite lookup_insert. case_decide as E.
      * injection E as <- <-. cbn [fst snd]. rewrite decide_True by lia. by rewrite <- HN.
      * rewrite Hro. cbn [fst snd]. repeat case_decide; try done; [naive_solver lia|].
        destruct (decide (n = N)) as [->|]; [naive_solver|naive_solver lia].
    + intros f j' Hf' Hj'. by eapply (top_kept _ _ _ _ _ _ _ _ _ _ _ Hok HD Hj _ RFrame).
    + done.
  - change (bit_set 0 TLBLO_VALID) with false. cbn iota. rewrite wp_ret. eapply HQ; [eapply cow_skip; [done|lia|]|eapply ro_upto_skip; [done|lia|]|done|done].
    + intros n Hn. by replace n with N by lia.
    + intros n Hn. replace n with N by lia. by rewrite <- HN.
Qed.

Lemma make_readonly_child s O D P pt m (Q : unit → world (kheap vmst) → Prop) :
  cow_ok None (cnt_upto pt 0) s O D P → O !! pt = Some RTable →
  (∀ s' P', cow_ok None all_counted s' O D P' →
     (∀ k, P' !! k = if decide (k.1 = pt) then ro <$> P !! k else P !! k) →
     data_kept O s s' → hcpu s' = hcpu s → Q tt (World s' m)) →
  wp (make_readonly pt 1) Q (World s m).
Proof.
  intros Hok Hpt HQ. unfold make_readonly. cbn [Z.eqb negb].
  set (I N w := ∃ s' P', w = World s' m ∧ cow_ok None (cnt_upto pt N) s' O D P' ∧
         ro_upto P P' pt N ∧ data_kept O s s' ∧ hcpu s' = hcpu s).
  apply (wp_kfold (λ i (_ : unit) w, I (1024 * i) w)).
  - exists s, P. split_and!; try done. intros [p n]. case_decide as E; [|done].
    cbn [fst snd] in E. destruct E as (-> & Hn).
    destruct (P !! (pt, n)) as [w|] eqn:HP; [exfalso|done].
    destruct (co_closed _ _ _ _ _ _ Hok _ _ _ HP) as (b & Hb).
    destruct (co_range _ _ _ _ _ _ Hok _ _ _ Hb) as (_ & ?). lia.
  - intros i _ w Hi (s1 & P1 & -> & Hok1 & Hro1 & Hd1 & Hc1).
    rewrite wp_bind. eapply load_top; [done..|].
    destruct (D !! (pt, i)) as [b|] eqn:HD; cbn [dir_word].
    + destruct (dir_kvaddr _ _ _ _ _ _ _ _ _ Hok1 HD) as (Hnz & Hkv & _ & _).
      rewrite (proj2 (Z.eqb_neq _ _) Hnz), Hkv. cbn [negb].
      apply (wp_kfold (λ j (_ : unit) w, I (1024 * i + j) w)).
      * rewrite Z.add_0_r. by exists s1, P1.
      * intros j _ w Hj (s2 & P2 & -> & Hok2 & Hro2 & Hd2 & Hc2).
        eapply make_readonly_entry; [exact Hok2|exact Hro2|done|lia|].
        intros s3 P3 Hok3 Hro3 Hd3 Hc3. exists s3, P3.
        replace (1024 * i + (j + 1)) with (1024 * i + j + 1) by lia.
        split_and!; [done|done|done|by eapply data_kept_trans|congruence].
      * intros [] w (s2 & P2 & -> & Hok2 & Hro2 & Hd2 & Hc2). exists s2, P2.
        by replace (1024 * (i + 1)) with (1024 * i + (0 + Z.of_nat 1024)) by lia.
    + cbn [Z.eqb negb]. rewrite wp_ret.
      assert (∀ n, 1024 * i ≤ n < 1024 * (i + 1) → P1 !! (pt, n) = None) as Hno.
      { intros n Hn. apply eq_None_not_Some. intros (w & HP).
        destruct (co_closed _ _ _ _ _ _ Hok1 _ _ _ HP) as (b & Hb).
        replace (n / 1024) with i in Hb by lia. congruence. }
      exists s1, P1. split_and!; [done|eapply cow_skip; [done|lia|done]|
        eapply ro_upto_skip; [done|lia|]|done|done].
      intros n Hn. pose proof (Hro1 (pt, n)) as E. rewrite decide_False in E by (simpl; lia).
      rewrite <- E. by apply Hno.
  - intros [] w (s1 & P1 & -> & Hok1 & Hro1 & Hd1 & Hc1).
    assert (∀ n w, P1 !! (pt, n) = Some w → n < 1024 * (0 + Z.of_nat 1024)) as Hb.
    { intros n x HP. destruct (co_closed _ _ _ _ _ _ Hok1 _ _ _ HP) as (b & Hb).
      destruct (co_range _ _ _ _ _ _ Hok1 _ _ _ Hb) as (_ & ?). lia. }
    eapply HQ; [eapply cow_recount; [exact Hok1|]| |done|done].
    + intros [p n] x HP. unfold cnt_upto, all_counted. cbn [fst snd].
      destruct (Z.eqb_spec p pt) as [->|]; [|done]. cbn [negb orb]. symmetry.
      apply Z.ltb_lt. by eapply Hb.
    + intros [p n]. cbn [fst]. pose proof (Hro1 (p, n)) as E. cbn [fst snd] in E.
      destruct (decide (p = pt)) as [->|Hp]; [|by rewrite decide_False in E by (by intros (? & _))].
      destruct (decide (n < 1024 * (0 + Z.of_nat 1024))); [by rewrite decide_True in E|].
      rewrite decide_False in E by (intros (_ & ?); lia). rewrite E.
      destruct (P !! (pt, n)) as [x|] eqn:HP; [exfalso|done]. apply Hb in E. lia.
Qed.
End fork.
