(* ===== verification/PageTableLife.v ===== *)
(** * Copying and destroying page tables

    [pt_copy] gives the child the same entries as its parent, not yet counted;
    [pt_deep_destroy] gives back every page of a table and every frame that
    nobody else maps. *)

From S2P Require Import Prelude Bits Spl Ram KHeap KHeapInv KHeapOk KHeapSpec KHeapProps Tlb Coremap CoremapSpec CoremapProps PageTable PageTableInv PageTableSpec PageTableCount PageTableOps PageTableFork.

#[local] Ltac Zify.zify_post_hook ::= Z.div_mod_to_equations.

Section life.
Implicit Types s : kheap vmst.
Implicit Types O : gmap Z role.
Implicit Types D P : gmap (Z * Z) Z.

(** ** Copying *)

(** The entries of block [i] of [old], entered for [new]. *)
Definition copy_block P (old new i : Z) : gmap (Z * Z) Z :=
  foldr (λ j P', match P !! (old, 1024 * i + j) with
                 | Some w => <[(new, 1024 * i + j) := w]> P'
                 | None => P'
                 end) P (seqZ 0 1024).

Lemma copy_block_lookup P old new i k :
  (∀ n, n / 1024 = i → P !! (new, n) = None) →
  copy_block P old new i !! k =
  if decide (k.1 = new ∧ k.2 / 1024 = i) then P !! (old, k.2) else P !! k.
Proof.
  intros Hno. unfold copy_block.
  assert (∀ l, (∀ j, j ∈ l → 0 ≤ j < 1024) →
    foldr (λ j P', match P !! (old, 1024 * i + j) with
                   | Some w => <[(new, 1024 * i + j) := w]> P' | None => P' end) P l !! k =
    if decide (k.1 = new ∧ k.2 - 1024 * i ∈ l) then P !! (old, k.2) else P !! k) as Hl.
  { induction l as [|j l IH]; intros Hr; simpl.
    - rewrite decide_False; [done|]. intros (_ & ?%elem_of_nil). done.
    - specialize (IH (λ j Hj, Hr j ltac:(by right))). specialize (Hr j ltac:(by left)).
      destruct k as [p n]. cbn [fst snd] in *.
      destruct (decide (p = new ∧ n = 1024 * i + j)) as [(-> & ->)|Hk].
      + rewrite (decide_True (P := _ ∧ _ ∈ j :: l))
          by (split; [done|]; apply elem_of_cons; left; lia).
        destruct (P !! (old, 1024 * i + j)) eqn:E; [by rewrite lookup_insert_eq|].
        rewrite IH. case_decide; [done|]. apply Hno. lia.
      + assert (match P !! (old, 1024 * i + j) with
                | Some w => <[(new, 1024 * i + j):=w]>
                    (foldr (λ (j0 : Z) (P' : gmap (Z * Z) Z),
                       match P !! (old, 1024 * i + j0) with
                       | Some w0 => <[(new, 1024 * i + j0):=w0]> P' | None => P' end) P l)
                | None => foldr (λ (j0 : Z) (P' : gmap (Z * Z) Z),
                       match P !! (old, 1024 * i + j0) with
                       | Some w0 => <[(new, 1024 * i + j0):=w0]> P' | None => P' end) P l
                end !! (p, n) =
                if decide (p = new ∧ n - 1024 * i ∈ l) then P !! (old, n) else P !! (p, n)) as ->.
        { rewrite <- IH. destruct (P !! (old, 1024 * i + j)); [|done].
          apply lookup_insert_ne. intros [= <- <-]. by apply Hk. }
        apply decide_ext. rewrite elem_of_cons. split; [naive_solver|].
        intros (-> & [E|?]); [exfalso; apply Hk; split; [done|lia]|done]. }
  rewrite Hl by (intros j Hj%elem_of_seqZ; lia).
  apply decide_ext. rewrite elem_of_seqZ. split; intros (? & ?); (split; [done|lia]).
Qed.

(** A second-level table of zeros is filled with the words of another. *)
Lemma cow_fill c s s' O D P old new i a b :
  cow_ok None c s O D P → D !! (new, i) = Some a → D !! (old, i) = Some b → old ≠ new →
  (∀ n, n / 1024 = i → P !! (new, n) = None) → (∀ n, n / 1024 = i → c (new, n) = false) →
  heap_rep s' (rsize <$> O) → only_page a s s' →
  (∀ j, 0 ≤ j < 1024 → kmem s' !! (a + 4 * j) = kmem s !! (b + 4 * j)) →
  cow_ok None c s' O D (copy_block P old new i).
Proof.
  intros Hok Ha Hb Hne Hno Hc Hrep (_ & Hv & Hm) Hcp.
  pose proof (λ k, copy_block_lookup P old new i k Hno) as Hl.
  assert (∀ k w, copy_block P old new i !! k = Some w →
    (k.1 = new ∧ k.2 / 1024 = i ∧ P !! (old, k.2) = Some w) ∨ P !! k = Some w) as Hinv.
  { intros k w. rewrite Hl. case_decide; [naive_solver|by right]. }
  assert (∀ k w, P !! k = Some w → copy_block P old new i !! k = Some w) as Hext.
  { intros [p n] w HP. rewrite Hl. case_decide as E; [|done]. cbn [fst snd] in E.
    destruct E as (-> & E). by rewrite Hno in HP. }
  assert (∀ f, refs c (copy_block P old new i) f = refs c P f) as Hr.
  { intros f. unfold refs. do 2 f_equal. apply map_eq. intros k. apply option_eq. intros w.
    rewrite !map_lookup_filter_Some. split; intros (Hk & Hcnt); (split; [|done]); [|by apply Hext].
    destruct (Hinv k w Hk) as [(E & Ei & _)|]; [exfalso|done]. destruct Hcnt as (E' & _).
    destruct k as [p n]. cbn [fst snd] in *. subst p. by rewrite Hc in E'. }
  pose proof (proj1 (co_dir _ _ _ _ _ _ Hok _ _ _) Ha) as HOa.
  assert (∀ x r j, O !! x = Some r → internal r → x ≠ a → 0 ≤ j < 1024 →
    kmem s' !! (x + 4 * j) = kmem s !! (x + 4 * j)) as Hk.
  { intros x r j Hx Hr' Hxa Hj. apply Hm; [by eapply role_aligned|done|done]. }
  cow_split Hok; rewrite ?Hv; try done.
  - intros f. rewrite Hfr. split; intros (k & w & HP & E).
    + exists k, w. split; [by apply Hext|done].
    + destruct (Hinv k w HP) as [(_ & _ & HP')|HP']; [by exists (old, k.2), w|by exists k, w].
  - intros k w HP. destruct (Hinv k w HP) as [(_ & _ & HP')|HP']; by eapply Hpte.
  - intros p n w HP. destruct (Hinv _ w HP) as [(E & E' & HP')|HP']; [|by eapply Hcl].
    cbn [fst snd] in *. subst. by exists a.
  - intros k k' w w' HP HP' E.
    destruct (Hinv k w HP) as [(_ & _ & H1)|H1]; destruct (Hinv k' w' HP') as [(_ & _ & H2)|H2].
    + apply (Hsame (old, k.2) (old, k'.2) w w' H1 H2 E).
    + apply (Hsame (old, k.2) k' w w' H1 H2 E).
    + apply (Hsame k (old, k'.2) w w' H1 H2 E).
    + by eapply Hsame.
  - intros f. rewrite Hr. apply Hcnt.
  - intros pt i' HT HX Hi'. rewrite (Hk pt RTable); [by apply Htop|done|done|congruence|done].
  - intros pt i' b' j HD' HX Hj. rewrite Hl. cbn [fst snd].
    replace ((1024 * i' + j) / 1024) with i' by lia.
    destruct (decide (b' = a)) as [->|Hba].
    + pose proof (proj1 (Hdir _ _ _) HD') as E. rewrite HOa in E. injection E as <- <-.
      rewrite decide_True, Hcp by done. by apply Hsec.
    + rewrite decide_False by (intros (-> & ->); congruence).
      rewrite (Hk b' (RSecond pt i')); [by apply Hsec|by apply Hdir|done|done|done].
  - intros f j Hf Hj. rewrite (Hk f RFrame); [by apply Hdat|done|done|congruence|done].
Qed.

(** The number of second-level tables among the first [i] entries. *)
Definition dirs_upto D (pt i : Z) : Z :=
  Z.of_nat (length (filter (λ i', is_Some (D !! (pt, i'))) (seqZ 0 i))).

Lemma dirs_upto_S D pt i :
  0 ≤ i → dirs_upto D pt (i + 1) =
  dirs_upto D pt i + (match D !! (pt, i) with Some _ => 1 | None => 0 end).
Proof.
  intros Hi. unfold dirs_upto. rewrite seqZ_app by lia. rewrite filter_app, length_app.
  rewrite Z.add_0_l, (seqZ_cons i 1) by lia. rewrite (seqZ_nil _ (Z.pred 1)) by lia.
  rewrite filter_cons, filter_nil. destruct (D !! (pt, i)) eqn:E.
  - rewrite decide_True by (by eexists). simpl. lia.
  - rewrite decide_False by (by intros (? & ?)). simpl. lia.
Qed.

Lemma dirs_upto_mono D pt i j : 0 ≤ i ≤ j → dirs_upto D pt i ≤ dirs_upto D pt j.
Proof.
  intros Hij. unfold dirs_upto. replace j with (i + (j - i)) by lia.
  rewrite seqZ_app by lia. rewrite filter_app, length_app. lia.
Qed.

(** A copy of the first [i] second-level tables of [old]. *)
Record copied (O O' : gmap Z role) (D D' P P' : gmap (Z * Z) Z) (old new i : Z) : Prop := Copied {
  cp_roles x r : O !! x = Some r → O' !! x = Some r;
  cp_ext x z : O' !! x = Some (RExt z) → O !! x = Some (RExt z);
  cp_frames x : O' !! x = Some RFrame → O !! x = Some RFrame;
  cp_new : O' !! new = Some RTable;
  cp_tables : ntables O' = ntables O + 1;
  cp_dirs pt j : pt ≠ new → D' !! (pt, j) = D !! (pt, j);
  cp_dir j : is_Some (D' !! (new, j)) ↔ j < i ∧ is_Some (D !! (old, j));
  cp_ptes k : P' !! k =
    if decide (k.1 = new ∧ k.2 < 1024 * i) then P !! (old, k.2) else P !! k
}.

Lemma pt_copy_step s s' O O' D D' P P' old new i m (Q : unit + Z → world (kheap vmst) → Prop) :
  cow_ok None (cnt_upto new 0) s' O' D' P' → copied O O' D D' P P' old new i →
  old ≠ new → O !! old = Some RTable → 0 ≤ i < 1024 → (∀ n, P !! (new, n) = None) →
  (is_Some (D !! (old, i)) → UNALLOCATED_FRAME (hvm s') ≠ 0) →
  data_kept O s s' →
  (∀ s2 O2 D2 P2, cow_ok None (cnt_upto new 0) s2 O2 D2 P2 →
     copied O O2 D D2 P P2 old new (i + 1) → data_kept O s s2 → hcpu s2 = hcpu s' →
     UNALLOCATED_FRAME (hvm s2) = UNALLOCATED_FRAME (hvm s') -
       (match D !! (old, i) with Some _ => 1 | None => 0 end) →
     Q (inl tt) (World s2 m)) →
  wp (e ← kload (elem old i);
      if negb (e =? 0) then
        let old_second_pt := PADDR_TO_KVADDR e in
        new_second_pt ← kmalloc 4096;
        kbzero new_second_pt 4096;;
        if new_second_pt =? 0 then mret (inr ENOMEM) else
        kstore (elem new i) (KVADDR_TO_PADDR new_second_pt);;
        kmemmove new_second_pt old_second_pt PAGE_SIZE;;
        mret (inl tt)
      else mret (inl tt)) Q (World s' m).
Proof.
  intros Hok Hcp Hne Hold Hi HPn Hmem Hdk HQ. pose proof Hcp as [Hro Hex Hfr Hnew Hnt Hdo Hd Hpp].
  rewrite wp_bind. eapply load_top; [done|by apply Hro|done|done|].
  rewrite (Hdo old i Hne). destruct (D !! (old, i)) as [b|] eqn:HD; cbn [dir_word].
  2:{ cbn [Z.eqb negb]. rewrite wp_ret. apply (HQ s' O' D' P'); [done| |done|done|lia].
      split; try done.
      - intros j. rewrite Hd. destruct (decide (j = i)) as [->|]; [|naive_solver lia].
        rewrite HD. split; [lia|by intros (_ & [? ?])].
      - intros [p n]. rewrite Hpp. cbn [fst snd]. repeat case_decide; try done.
        + exfalso. naive_solver lia.
        + destruct (decide (p = new)) as [->|]; [|naive_solver].
          rewrite HPn. destruct (P !! (old, n)) as [w|] eqn:HP; [exfalso|done].
          assert (P' !! (old, n) = Some w) as HP'.
          { rewrite Hpp. cbn [fst snd]. by rewrite decide_False by naive_solver. }
          destruct (co_closed _ _ _ _ _ _ Hok _ _ _ HP') as (b & Hb). rewrite Hdo in Hb by done.
          replace (n / 1024) with i in Hb by lia. congruence. }
  assert (D' !! (old, i) = Some b) as HD' by (by rewrite Hdo).
  destruct (dir_kvaddr _ _ _ _ _ _ _ _ _ Hok HD') as (Hnz & Hkv & _ & _).
  rewrite (proj2 (Z.eqb_neq _ _) Hnz), Hkv. cbn [negb]. cbv zeta.
  rewrite wp_bind. eapply kmalloc_cow; [done|intros; exfalso; by apply Hmem|].
  intros a s2 Ha Ha0 Hok2 Hk2 Hc2 Hm2 Hs2 Hsf2 Hun2.
  set (O2 := <[a := RExt PAGE_SIZE]> O') in *.
  assert (O2 !! a = Some (RExt PAGE_SIZE)) as HOa by apply lookup_insert_eq.
  rewrite wp_bind. eapply kbzero_page; [apply Hok2|by apply ext_block|].
  intros s3 Hrep3 Hop3 Hz3. pose proof (cow_ext _ _ _ _ _ _ _ _ _ Hok2 HOa Hrep3 Hop3) as Hok3.
  destruct (Hop3) as (Hc3 & Hv3 & Hm3).
  rewrite (proj2 (Z.eqb_neq a 0) Ha0).
  destruct (ext_paddr _ _ _ _ _ _ a Hok3 (ext_block _ _ HOa)) as (Hpa & _ & _ & Haa). rewrite Hpa.
  assert (O2 !! new = Some RTable) as HOn
    by (unfold O2; rewrite lookup_insert_ne; [done|congruence]).
  assert (D' !! (new, i) = None) as HDn.
  { apply eq_None_not_Some. rewrite Hd. lia. }
  rewrite wp_bind. eapply kstore_page; [done|by eapply role_block|done|]. intros Hrep4.
  assert (cow_ok None (cnt_upto new 0) (put_word new i (a - MIPS_KSEG0) s3)
            (<[a := RSecond new i]> O2) (<[(new, i) := a]> D') P') as Hok4.
  { apply cow_new_second; try done. by rewrite Hv3. }
  set (s4 := put_word _ _ _ _) in *. set (O4 := <[a := RSecond new i]> O2) in *.
  assert (O4 = <[a := RSecond new i]> O') as EO4 by (unfold O4, O2; by rewrite insert_insert_eq).
  set (D4 := <[(new, i) := a]> D') in *.
  assert (D4 !! (new, i) = Some a) as HD4n by apply lookup_insert_eq.
  assert (D4 !! (old, i) = Some b) as HD4o by (unfold D4; rewrite lookup_insert_ne; [done|congruence]).
  pose proof (proj1 (co_dir _ _ _ _ _ _ Hok4 _ _ _) HD4n) as HO4a.
  pose proof (proj1 (co_dir _ _ _ _ _ _ Hok4 _ _ _) HD4o) as HO4b.
  assert (a ≠ b) as Hab by (intros ->; congruence).
  rewrite wp_bind. eapply (kmemmove_page _ (rsize <$> O4));
    [apply Hok4|by eapply role_block|by eapply role_block|done| |].
  { intros j Hj. rewrite (co_second _ _ _ _ _ _ Hok4 old i b j) by done. by eexists. }
  intros s5 Hrep5 Hop5 Hcp5. rewrite wp_ret.
  assert (∀ n, n / 1024 = i → P' !! (new, n) = None) as HPno.
  { intros n Hn. rewrite Hpp. cbn [fst snd]. rewrite decide_False by lia. apply HPn. }
  assert (cow_ok None (cnt_upto new 0) s5 O4 D4 (copy_block P' old new i)) as Hok5.
  { eapply cow_fill; [exact Hok4|done..| |done|done|done]. intros n Hn. unfold cnt_upto.
    cbn [fst snd]. rewrite Z.eqb_refl. cbn [negb orb]. lia. }
  destruct (Hop5) as (Hc5 & Hv5 & Hm5).
  assert (∀ x r, O !! x = Some r → x ≠ a) as Hxa.
  { intros x r Hx ->. apply Hro in Hx. congruence. }
  apply (HQ s5 O4 D4 (copy_block P' old new i)); [done| | | |].
  - rewrite EO4. split.
    + intros x r Hx. rewrite lookup_insert_ne; [by apply Hro|]. intros ->. by eapply Hxa.
    + intros x z. rewrite lookup_insert_Some. intros [(_ & ?)|(_ & ?)]; [done|by apply Hex].
    + intros x. rewrite lookup_insert_Some. intros [(_ & ?)|(_ & ?)]; [done|by apply Hfr].
    + rewrite lookup_insert_ne; [done|]. intros ->. congruence.
    + rewrite (ntables_ext O'); [done|]. intros x. apply role_other; [|done]. by rewrite Ha.
    + intros pt j Hpt. unfold D4. rewrite lookup_insert_ne; [by apply Hdo|congruence].
    + intros j. unfold D4. destruct (decide (j = i)) as [->|Hj].
      * rewrite lookup_insert_eq, HD. split; [|by eexists]. split; [lia|by eexists].
      * rewrite lookup_insert_ne by congruence. rewrite Hd. naive_solver lia.
    + intros [p n]. rewrite copy_block_lookup by done. cbn [fst snd]. rewrite !Hpp. cbn [fst snd].
      destruct (decide (p = new)) as [->|]; [|by rewrite !decide_False by naive_solver].
      destruct (decide (n / 1024 = i)) as [E|].
      * rewrite (decide_True (P := _ ∧ n / 1024 = i)) by done.
        rewrite (decide_False (P := old = new ∧ _)) by naive_solver.
        by rewrite decide_True by lia.
      * rewrite (decide_False (P := _ ∧ n / 1024 = i)) by naive_solver.
        destruct (decide (n < 1024 * i)).
        -- by rewrite !decide_True by lia.
        -- by rewrite !decide_False by lia.
  - intros f j Hf Hj. pose proof (Hro _ _ Hf) as Hf'.
    pose proof (role_aligned _ _ _ _ _ _ _ _ Hok Hf' I) as Hfa.
    rewrite Hm5; [|done|done|by eapply Hxa]. unfold s4.
    rewrite put_word_ne; [|exact (role_aligned _ _ _ _ _ _ _ _ Hok Hnew I)|done|done|done|left; congruence].
    rewrite Hm3; [|done|done|by eapply Hxa]. rewrite Hk2. by apply Hdk.
  - rewrite Hc5. unfold s4. cbn [hcpu put_word set_kmem]. congruence.
  - rewrite Hv5. unfold s4. cbn [hvm put_word set_kmem]. rewrite Hv3. lia.
Qed.

Lemma pt_copy_spec s O D P old m (Q : Z * Z → world (kheap vmst) → Prop) :
  cow_ok None all_counted s O D P → O !! old = Some RTable → ntables O < 256 →
  1 + dirs_upto D old 1024 ≤ UNALLOCATED_FRAME (hvm s) →
  (∀ new s' O' D' P', O !! new = None → new ≠ 0 →
     cow_ok None (cnt_upto new 0) s' O' D' P' → copied O O' D D' P P' old new 1024 →
     data_kept O s s' → hcpu s' = hcpu s → Q (0, new) (World s' m)) →
  wp (pt_copy old) Q (World s m).
Proof.
  intros Hok Hold Hnt Hmem HQ. unfold pt_copy.
  pose proof (dirs_upto_mono D old 0 1024 ltac:(lia)) as Hd0.
  assert (dirs_upto D old 0 = 0) as E0 by done.
  rewrite wp_bind. eapply kmalloc_cow; [done|intros; exfalso; lia|].
  intros new s1 Hn0 Hnz Hok1 Hk1 Hc1 Hm1 Hs1 Hsf1 Hun1. rewrite (proj2 (Z.eqb_neq new 0) Hnz).
  set (O1 := <[new := RExt PAGE_SIZE]> O) in *.
  assert (O1 !! new = Some (RExt PAGE_SIZE)) as HO1 by apply lookup_insert_eq.
  rewrite wp_bind. eapply kbzero_page; [apply Hok1|by apply ext_block|].
  intros s2 Hrep2 Hop2 Hz2. pose proof (cow_ext _ _ _ _ _ _ _ _ _ Hok1 HO1 Hrep2 Hop2) as Hok2.
  destruct (Hop2) as (Hc2 & Hv2 & Hm2).
  assert (ntables O1 = ntables O) as En.
  { apply ntables_ext. intros x. apply role_other; [|done]. by rewrite Hn0. }
  assert (∀ j, D !! (new, j) = None) as HDn.
  { intros j. apply eq_None_not_Some. intros (b & Hb).
    destruct (co_range _ _ _ _ _ _ Hok _ _ _ Hb). congruence. }
  assert (∀ n, P !! (new, n) = None) as HPn.
  { intros n. apply eq_None_not_Some. intros (w & HP).
    destruct (co_closed _ _ _ _ _ _ Hok _ _ _ HP) as (b & Hb). by rewrite HDn in Hb. }
  assert (cow_ok None (cnt_upto new 0) s2 (<[new := RTable]> O) D P) as Hok3.
  { rewrite <- (insert_insert_eq O new RTable (RExt PAGE_SIZE)). fold O1.
    eapply cow_recount; [apply cow_new_table; [exact Hok2|done|by rewrite Hv2|lia|done]|].
    intros [p n] w HP. unfold cnt_upto, all_counted. cbn [fst snd].
    destruct (Z.eqb_spec p new) as [->|]; [by rewrite HPn in HP|done]. }
  assert (old ≠ new) as Hne by congruence.
  rewrite wp_bind.
  apply (wp_kfind (λ i (_ : unit) w, ∃ s' O' D' P', w = World s' m ∧
    cow_ok None (cnt_upto new 0) s' O' D' P' ∧ copied O O' D D' P P' old new i ∧
    data_kept O s s' ∧ hcpu s' = hcpu s ∧
    UNALLOCATED_FRAME (hvm s') = UNALLOCATED_FRAME (hvm s) - 1 - dirs_upto D old i)).
  - exists s2, (<[new := RTable]> O), D, P. split_and!; [done|done| | | |].
    + split; try done.
      * intros x r Hx. rewrite lookup_insert_ne; [done|congruence].
      * intros x z. rewrite lookup_insert_Some. by intros [(_ & ?)|(_ & ?)].
      * intros x. rewrite lookup_insert_Some. by intros [(_ & ?)|(_ & ?)].
      * by rewrite lookup_insert_eq.
      * rewrite ntables_insert; [done|by rewrite Hn0].
      * intros j. rewrite HDn. split; [by intros (? & ?)|].
        intros (Hj & (b & Hb)). destruct (co_range _ _ _ _ _ _ Hok _ _ _ Hb) as (_ & ?). lia.
      * intros [p n]. cbn [fst snd]. case_decide as E; [|done]. destruct E as (-> & E).
        rewrite HPn. symmetry. apply eq_None_not_Some. intros (w & HP).
        destruct (co_closed _ _ _ _ _ _ Hok _ _ _ HP) as (b & Hb).
        destruct (co_range _ _ _ _ _ _ Hok _ _ _ Hb) as (_ & ?). lia.
    + intros f j Hf Hj. rewrite Hm2; [by rewrite Hk1| |done|congruence].
      exact (role_aligned _ _ _ _ _ _ _ _ Hok Hf I).
    + congruence.
    + rewrite Hv2, E0. lia.
  - intros i [] w Hi (s' & O' & D' & P' & -> & Hok' & Hcp & Hdk & Hc' & Hun).
    pose proof (dirs_upto_S D old i ltac:(lia)) as ES.
    pose proof (dirs_upto_mono D old (i + 1) 1024 ltac:(lia)) as Hmono.
    eapply pt_copy_step; [exact Hok'|exact Hcp|done|done|lia|done| |done|].
    + intros (b & Hb). rewrite Hb in ES. lia.
    + intros s3 O3 D3 P3 Hok4 Hcp4 Hdk4 Hc4 Hun4. exists s3, O3, D3, P3.
      split_and!; [done|done|done|done|congruence|]. rewrite Hun4, Hun, ES. lia.
  - intros [] w (s' & O' & D' & P' & -> & Hok' & Hcp & Hdk & Hc' & _). rewrite wp_ret.
    by apply (HQ new s' O' D' P').
Qed.

(** ** Destroying *)

(** From here on the words of [pt] may become stale. *)
Lemma cow_exempt c s O D P pt : cow_ok None c s O D P → cow_ok (Some pt) c s O D P.
Proof.
  intros Hok. cow_split Hok.
  - intros pt' i HT _. by apply Htop.
  - intros pt' i b j HD _. by apply Hsec.
Qed.

(** The table [pt] without its first [i] second-level tables and without the
    entries below [N]; the pages of others are untouched. *)
Record emptied (O O' : gmap Z role) (D D' P P' : gmap (Z * Z) Z) (pt i N : Z) : Prop := Emptied {
  em_ext x z : O' !! x = Some (RExt z) ↔ O !! x = Some (RExt z);
  em_roles x r : O' !! x = Some r → O !! x = Some r;
  em_table : O' !! pt = Some RTable;
  em_tables x : O !! x = Some RTable → O' !! x = Some RTable;
  em_dirs k : D' !! k = if decide (k.1 = pt ∧ k.2 < i) then None else D !! k;
  em_ptes k : P' !! k = if decide (k.1 = pt ∧ k.2 < N) then None else P !! k
}.

Lemma emptied_skip O O' D D' P P' pt i N N' :
  emptied O O' D D' P P' pt i N → N ≤ N' → (∀ n, N ≤ n < N' → P !! (pt, n) = None) →
  emptied O O' D D' P P' pt i N'.
Proof.
  intros [He Hr Ht Htb Hd Hp] HN Hno. split; try done. intros [p n]. rewrite Hp. cbn [fst snd].
  repeat case_decide; try done; [naive_solver lia|].
  destruct (decide (p = pt)) as [->|]; [apply Hno; lia|naive_solver].
Qed.

Lemma delete_key P P' pt N :
  (∀ k, P' !! k = if decide (k.1 = pt ∧ k.2 < N) then None else P !! k) →
  ∀ k, delete (pt, N) P' !! k = if decide (k.1 = pt ∧ k.2 < N + 1) then None else P !! k.
Proof.
  intros Hp [p n]. cbn [fst snd]. destruct (decide ((pt, N) = (p, n))) as [[= <- <-]|Hk].
  - rewrite lookup_delete_eq, decide_True by lia. done.
  - rewrite lookup_delete_ne, Hp by done. cbn [fst snd]. apply decide_ext.
    split; [naive_solver lia|]. intros (-> & ?). split; [done|].
    assert (n ≠ N) by congruence. lia.
Qed.

(** One entry. *)
Lemma destroy_entry s s' O O' D D' P P' pt i b j m (Q : unit → world (kheap vmst) → Prop) :
  let N := 1024 * i + j in
  cow_ok None all_counted s O D P → cow_ok (Some pt) all_counted s' O' D' P' →
  emptied O O' D D' P P' pt i N → kmem s' = kmem s → D !! (pt, i) = Some b → 0 ≤ j < 1024 →
  (∀ s2 O2 P2, cow_ok (Some pt) all_counted s2 O2 D' P2 → emptied O O2 D D' P P2 pt i (N + 1) →
     kmem s2 = kmem s → hcpu s2 = hcpu s' → Q tt (World s2 m)) →
  wp (w ← kload (elem b j);
      if bit_set w TLBLO_VALID then
        let frameaddr := Z.land w TLBLO_PPAGE in
        sh ← on_coremap (isShared frameaddr);
        if negb (sh =? 0) then on_coremap (decrefcount frameaddr)
        else kfree (PADDR_TO_KVADDR frameaddr)
      else mret tt) Q (World s' m).
Proof.
  intros N Hok0 Hok Hem Hk HD Hj HQ. pose proof Hem as [He Hr Ht Htb Hd Hp].
  assert (D' !! (pt, i) = Some b) as HD' by (rewrite Hd, decide_False by (simpl; lia); done).
  destruct (dir_kvaddr _ _ _ _ _ _ _ _ _ Hok HD') as (_ & _ & _ & Hb).
  rewrite wp_bind. eapply kload_page; [apply Hok|done|done|
    rewrite Hk; by apply (co_second _ _ _ _ _ _ Hok0 pt i b j)|]. fold N.
  pose proof (Hp (pt, N)) as EN. rewrite decide_False in EN by (simpl; lia).
  destruct (P !! (pt, N)) as [w|] eqn:HP; cbn [default from_option id].
  2:{ change (bit_set 0 TLBLO_VALID) with false. cbn iota. rewrite wp_ret.
      apply (HQ s' O' P'); [done| |done|done]. eapply emptied_skip; [done|lia|].
      intros n Hn. by replace n with N by lia. }
  pose proof (co_pte _ _ _ _ _ _ Hok _ _ EN) as Hw. rewrite (pte_valid _ Hw). cbv zeta.
  rewrite (ppage_kvaddr _ Hw), (ppage_pframe _ Hw).
  destruct (cow_frame _ _ _ _ _ _ _ _ Hok EN) as (Hf & Hm & Hfb).
  destruct (co_count _ _ _ _ _ _ Hok _ Hf) as (Hpos & Hsh).
  rewrite wp_bind. eapply isShared_wp; [apply Hok|apply Hok|done..|].
  destruct (Z.eqb_spec (refs all_counted P' (pframe w) - 1) 0) as [E|E]; cbn [negb].
  - pose proof (cow_drop_last _ _ _ _ _ _ _ Hok EN ltac:(lia)) as Hok1.
    eapply kfree_cow; [exact Hok1|apply lookup_insert_eq|]. rewrite delete_insert_eq.
    intros s2 Hok2 Hk2 Hc2 _. eapply HQ; [exact Hok2| |congruence|done]. split.
    + intros x z. rewrite lookup_delete_Some, He. split; [by intros (_ & ?)|].
      intros Hx. split; [|done]. intros <-. apply He in Hx. congruence.
    + intros x r (_ & Hx)%lookup_delete_Some. by apply Hr.
    + apply lookup_delete_Some. split; [congruence|done].
    + intros x Hx%Htb. apply lookup_delete_Some. split; [congruence|done].
    + done.
    + by apply delete_key.
  - destruct (cow_decref _ _ _ _ _ _ (pt, N) w Hok EN eq_refl ltac:(lia)) as (Hu8 & Hok1).
    eapply decrefcount_wp; [apply Hok|apply Hok|done..|]. rewrite Hu8.
    pose proof (cow_drop _ _ _ _ _ _ N Hok1 (count_set_eq _ _ _)) as Hok2.
    eapply HQ; [eapply cow_recount; [exact Hok2|]| |done|done].
    + intros k x (Hne & _)%lookup_delete_Some. by rewrite count_set_ne.
    + split; try done. by apply delete_key.
Qed.

(** One entry of the directory: the second-level table and its frames. *)
Lemma destroy_dir s s' O O' D D' P P' pt i m (Q : unit → world (kheap vmst) → Prop) :
  cow_ok None all_counted s O D P → cow_ok (Some pt) all_counted s' O' D' P' →
  emptied O O' D D' P P' pt i (1024 * i) → kmem s' = kmem s → 0 ≤ i < 1024 →
  (∀ s2 O2 D2 P2, cow_ok (Some pt) all_counted s2 O2 D2 P2 →
     emptied O O2 D D2 P P2 pt (i + 1) (1024 * (i + 1)) →
     kmem s2 = kmem s → hcpu s2 = hcpu s' → Q tt (World s2 m)) →
  wp (e ← kload (elem pt i);
      if negb (e =? 0) then
        let second_pt := PADDR_TO_KVADDR e in
        kfold 1024 0 (λ j _,
          w ← kload (elem second_pt j);
          if bit_set w TLBLO_VALID then
            let frameaddr := Z.land w TLBLO_PPAGE in
            sh ← on_coremap (isShared frameaddr);
            if negb (sh =? 0) then on_coremap (decrefcount frameaddr)
            else kfree (PADDR_TO_KVADDR frameaddr)
          else mret tt) tt;;
        kfree second_pt
      else mret tt) Q (World s' m).
Proof.
  intros Hok0 Hok Hem Hk Hi HQ. pose proof (em_table _ _ _ _ _ _ _ _ _ Hem) as Ht.
  pose proof (em_roles _ _ _ _ _ _ _ _ _ Hem _ _ Ht) as Ht0.
  rewrite wp_bind. eapply kload_page; [apply Hok|by eapply role_block|done|
    rewrite Hk; by apply (co_top _ _ _ _ _ _ Hok0)|].
  destruct (D !! (pt, i)) as [b|] eqn:HD; cbn [dir_word].
  2:{ cbn [Z.eqb negb]. rewrite wp_ret. apply (HQ s' O' D' P'); [done| |done|done].
      assert (emptied O O' D D' P P' pt i (1024 * (i + 1))) as [He Hr _ Htb Hd Hp].
      { eapply emptied_skip; [done|lia|]. intros n Hn. apply eq_None_not_Some. intros (w & HP).
        destruct (co_closed _ _ _ _ _ _ Hok0 _ _ _ HP) as (b & Hb).
        replace (n / 1024) with i in Hb by lia. congruence. }
      split; try done. intros [p j]. rewrite Hd. cbn [fst snd].
      repeat case_decide; try done; [naive_solver lia|].
      destruct (decide (p = pt)) as [->|]; [|naive_solver]. by replace j with i by lia. }
  destruct (dir_kvaddr _ _ _ _ _ _ _ _ _ Hok0 HD) as (Hnz & Hkv & _ & _).
  rewrite (proj2 (Z.eqb_neq _ _) Hnz), Hkv. cbn [negb]. cbv zeta. rewrite wp_bind.
  apply (wp_kfold (λ j (_ : unit) w, ∃ s2 O2 P2, w = World s2 m ∧
    cow_ok (Some pt) all_counted s2 O2 D' P2 ∧ emptied O O2 D D' P P2 pt i (1024 * i + j) ∧
    kmem s2 = kmem s ∧ hcpu s2 = hcpu s')).
  - exists s', O', P'. by rewrite Z.add_0_r.
  - intros j _ w Hj (s2 & O2 & P2 & -> & Hok2 & Hem2 & Hk2 & Hc2).
    eapply destroy_entry; [exact Hok0|exact Hok2|exact Hem2|done|done|lia|].
    intros s3 O3 P3 Hok3 Hem3 Hk3 Hc3. exists s3, O3, P3.
    replace (1024 * i + (j + 1)) with (1024 * i + j + 1) by lia.
    split_and!; [done|done|done|done|congruence].
  - intros [] w (s2 & O2 & P2 & -> & Hok2 & Hem2 & Hk2 & Hc2).
    replace (1024 * i + (0 + Z.of_nat 1024)) with (1024 * (i + 1)) in Hem2 by lia.
    destruct (Hem2) as [He Hr Ht2 Htb Hd Hp].
    assert (D' !! (pt, i) = Some b) as HD' by (rewrite Hd, decide_False by (simpl; lia); done).
    pose proof (proj1 (co_dir _ _ _ _ _ _ Hok2 _ _ _) HD') as Hb2.
    assert (cow_ok (Some pt) all_counted s2 (<[b := RExt PAGE_SIZE]> O2) (delete (pt, i) D') P2) as Hok3.
    { eapply cow_drop_second; [done|done|]. intros n Hn. rewrite Hp. cbn [fst snd].
      by rewrite decide_True by lia. }
    eapply kfree_cow; [exact Hok3|apply lookup_insert_eq|]. rewrite delete_insert_eq.
    intros s3 Hok4 Hk4 Hc4 _. eapply HQ; [exact Hok4| |congruence|congruence]. split.
    + intros x z. rewrite lookup_delete_Some, He. split; [by intros (_ & ?)|].
      intros Hx. split; [|done]. intros <-. apply He in Hx. congruence.
    + intros x r (_ & Hx)%lookup_delete_Some. by apply Hr.
    + apply lookup_delete_Some. split; [congruence|done].
    + intros x Hx%Htb. apply lookup_delete_Some. split; [congruence|done].
    + by apply delete_key.
    + done.
Qed.

Lemma pt_deep_destroy_spec s O D P pt m (Q : unit → world (kheap vmst) → Prop) :
  cow_ok None all_counted s O D P → O !! pt = Some RTable →
  (∀ s' O' D' P', cow_ok None all_counted s' O' D' P' →
     (∀ x z, O' !! x = Some (RExt z) ↔ O !! x = Some (RExt z)) →
     (∀ x r, O' !! x = Some r → O !! x = Some r ∧ x ≠ pt) →
     (∀ x, O !! x = Some RTable → x ≠ pt → O' !! x = Some RTable) →
     (∀ k, D' !! k = if decide (k.1 = pt) then None else D !! k) →
     (∀ k, P' !! k = if decide (k.1 = pt) then None else P !! k) →
     kmem s' = kmem s → hcpu s' = hcpu s → Q tt (World s' m)) →
  wp (pt_deep_destroy pt) Q (World s m).
Proof.
  intros Hok Hpt HQ. unfold pt_deep_destroy.
  pose proof (role_block _ _ _ Hpt I) as Hb.
  destruct (ext_paddr _ _ _ _ _ _ pt Hok Hb) as (_ & Hlo & _).
  assert (pt ≠ 0) as Hz by (unfold MIPS_KSEG0 in Hlo; lia).
  rewrite wp_bind, wp_kassert by (by rewrite (proj2 (Z.eqb_neq pt 0) Hz)). rewrite wp_bind.
  apply (wp_kfold (λ i (_ : unit) w, ∃ s' O' D' P', w = World s' m ∧
    cow_ok (Some pt) all_counted s' O' D' P' ∧ emptied O O' D D' P P' pt i (1024 * i) ∧
    kmem s' = kmem s ∧ hcpu s' = hcpu s)).
  - exists s, O, D, P. split_and!; [done|by apply cow_exempt| |done|done]. split; try done.
    + intros [p i]. case_decide as E; [|done]. cbn [fst snd] in E. destruct E as (-> & E).
      apply eq_None_not_Some. intros (b & HD).
      destruct (co_range _ _ _ _ _ _ Hok _ _ _ HD) as (_ & ?). lia.
    + intros [p n]. case_decide as E; [|done]. cbn [fst snd] in E. destruct E as (-> & E).
      apply eq_None_not_Some. intros (w & HP).
      destruct (co_closed _ _ _ _ _ _ Hok _ _ _ HP) as (b & HD).
      destruct (co_range _ _ _ _ _ _ Hok _ _ _ HD) as (_ & ?). lia.
  - intros i _ w Hi (s' & O' & D' & P' & -> & Hok' & Hem & Hk & Hc).
    eapply destroy_dir; [exact Hok|exact Hok'|exact Hem|done|lia|].
    intros s2 O2 D2 P2 Hok2 Hem2 Hk2 Hc2. exists s2, O2, D2, P2.
    split_and!; [done|done|done|done|congruence].
  - intros [] w (s' & O' & D' & P' & -> & Hok' & [He Hr Ht Htb Hd Hp] & Hk & Hc).
    assert (∀ i, D' !! (pt, i) = None) as HDn.
    { intros i. rewrite Hd. cbn [fst snd]. case_decide as E; [done|].
      apply eq_None_not_Some. intros (b & HD).
      destruct (co_range _ _ _ _ _ _ Hok _ _ _ HD) as (_ & ?). apply E. split; [done|lia]. }
    pose proof (cow_drop_table _ _ _ _ _ _ Hok' Ht HDn) as Hok1.
    eapply kfree_cow; [exact Hok1|apply lookup_insert_eq|]. rewrite delete_insert_eq.
    intros s2 Hok2 Hk2 Hc2 _. eapply HQ; [exact Hok2|..]; try congruence.
    + intros x z. rewrite lookup_delete_Some, He. split; [by intros (_ & ?)|].
      intros Hx. split; [|done]. intros <-. apply He in Hx. congruence.
    + intros x r (Hx & Hxr)%lookup_delete_Some. split; [by apply Hr|congruence].
    + intros x Hx Hne. apply lookup_delete_Some. split; [congruence|by apply Htb].
    + intros [p i]. cbn [fst]. destruct (decide (p = pt)) as [->|]; [apply HDn|].
      rewrite Hd. by rewrite decide_False by naive_solver.
    + intros [p n]. cbn [fst]. destruct (decide (p = pt)) as [->|].
      * apply eq_None_not_Some. intros (w & HP).
        destruct (co_closed _ _ _ _ _ _ Hok' _ _ _ HP) as (b & HD). by rewrite HDn in HD.
      * rewrite Hp. by rewrite decide_False by naive_solver.
Qed.
End life.
