(* ===== verification/PageTableProps.v ===== *)
(** * Properties of the page tables

    Fork, copy-on-write and destruction of page tables on a machine whose
    kernel heap sits on the coremap. *)

From S2P Require Import Prelude Bits Spl Ram KHeap KHeapInv KHeapOk KHeapSpec KHeapProps Tlb Coremap CoremapSpec CoremapProps PageTable PageTableInv PageTableSpec PageTableCount PageTableOps PageTableFork PageTableLife.

#[local] Ltac Zify.zify_post_hook ::= Z.div_mod_to_equations.

(** What a fork does with the page tables in memory: the copy [as_copy] makes
    and the two calls of [make_readonly] in [sys_fork].  The theorems are about
    forks that do not run out of memory; the clean-up of [as_copy] after a
    failed copy, and [as_make_readonly], which only changes the entries of the
    TLB, are not part of it. *)
Definition fork_tables (parent : Z) : KV (Z * Z) :=
  '(result, child) ← pt_copy parent;
  if negb (result =? 0) then mret (result, child) else
  make_readonly parent 0;;
  make_readonly child 1;;
  mret (0, child).

Section helpers.
Implicit Types s : kheap vmst.
Implicit Types O : gmap Z role.
Implicit Types D P : gmap (Z * Z) Z.

(** Entries belong to tables and have a page number below 2^20. *)
Lemma entry_table X c s O D P pt n w :
  cow_ok X c s O D P → P !! (pt, n) = Some w → O !! pt = Some RTable ∧ 0 ≤ n < 1024 * 1024.
Proof.
  intros Hok HP. destruct (co_closed _ _ _ _ _ _ Hok _ _ _ HP) as (b & HD).
  destruct (co_range _ _ _ _ _ _ Hok _ _ _ HD) as (? & ?). split; [done|lia].
Qed.

Lemma lookup_found X c s O D P pt va ft e w :
  cow_ok X c s O D P → P !! (pt, vpn va) = Some w → ft =? VM_FAULT_READONLY = false →
  lookup_ref D P pt va ft e =
  (PTE_FOUND, if bit_set w PTE_READONLY then andnot w TLBLO_DIRTY else w).
Proof.
  intros Hok HP Hft. unfold lookup_ref.
  destruct (co_closed _ _ _ _ _ _ Hok _ _ _ HP) as (b & ->). by rewrite HP, Hft.
Qed.

Lemma lookup_readonly X c s O D P pt va e w :
  cow_ok X c s O D P → P !! (pt, vpn va) = Some w →
  lookup_ref D P pt va VM_FAULT_READONLY e =
  (if bit_set w TLBLO_DIRTY then WRITE_PERMITTED else WRITE_NOT_PERMITTED, rw w).
Proof.
  intros Hok HP. unfold lookup_ref.
  destruct (co_closed _ _ _ _ _ _ Hok _ _ _ HP) as (b & ->). by rewrite HP.
Qed.

Lemma ro_readonly w : bit_set (ro w) PTE_READONLY = true.
Proof.
  rewrite readonly_testbit. unfold ro. rewrite Z.lor_spec. apply orb_true_r.
Qed.

(** An entry without its permission to write. *)
Lemma clean_testbit w i :
  pte_ok w → 0 ≤ i → Z.testbit (andnot w TLBLO_DIRTY) i = Z.testbit w i && negb (i =? 10).
Proof.
  intros [Hr _] Hi. unfold andnot. rewrite testbit_andnot by (unfold MIPS_KSEG0, MIPS_KSEG1 in *; lia).
  change TLBLO_DIRTY with (2 ^ 10). rewrite Z.pow2_bits_eqb by done. by rewrite Z.eqb_sym.
Qed.

Lemma clean_dirty w : pte_ok w → bit_set (andnot w TLBLO_DIRTY) TLBLO_DIRTY = false.
Proof. intros Hw. rewrite dirty_testbit, clean_testbit by done. apply andb_false_r. Qed.

Lemma clean_pframe w : pte_ok w → pframe (andnot w TLBLO_DIRTY) = pframe w.
Proof.
  intros Hw. apply same_page_pframe. unfold PAGE_SIZE. change 4096 with (2 ^ 12).
  rewrite <- !Z.shiftr_div_pow2 by done. apply Z.bits_inj'. intros i Hi.
  rewrite !Z.shiftr_spec, clean_testbit by (done || lia).
  rewrite (proj2 (Z.eqb_neq _ _)) by lia. apply andb_true_r.
Qed.

Lemma fork_tables_spec s O D P parent m (Q : Z * Z → world (kheap vmst) → Prop) :
  cow_ok None all_counted s O D P → O !! parent = Some RTable → ntables O < 256 →
  1 + dirs_upto D parent 1024 ≤ UNALLOCATED_FRAME (hvm s) →
  (∀ child s' O' D' P', O !! child = None → child ≠ 0 → cow_ok None all_counted s' O' D' P' →
     O' !! child = Some RTable → (∀ x r, O !! x = Some r → O' !! x = Some r) →
     (∀ n, P' !! (child, n) = ro <$> P !! (parent, n)) →
     (∀ k, k.1 ≠ child → P' !! k = P !! k) →
     data_kept O s s' → hcpu s' = hcpu s → Q (0, child) (World s' m)) →
  wp (fork_tables parent) Q (World s m).
Proof.
  intros Hok Hp Hn Hroom HQ. unfold fork_tables. rewrite wp_bind. eapply pt_copy_spec; [done..|].
  intros child s1 O1 D1 P1 Hc Hc0 Hok1 [Hr He Hf Hnew Htab Hd Hdir Hpt] Hk1 Hcpu1.
  cbn [Z.eqb negb]. rewrite wp_bind.
  eapply make_readonly_parent; [exact Hok1|by apply Hr|done|]. rewrite wp_bind.
  eapply make_readonly_child; [exact Hok1|done|]. intros s2 P2 Hok2 HP2 Hk2 Hcpu2.
  rewrite wp_ret. eapply HQ; try done; [..|congruence].
  - intros n. rewrite HP2, Hpt. cbn [fst snd]. rewrite decide_True by done. f_equal.
    destruct (decide (child = child ∧ n < 1024 * 1024)) as [|Hge]; [done|].
    assert (∀ pt, P !! (pt, n) = None ∨ O !! pt = Some RTable ∧ n < 1024 * 1024) as Hno.
    { intros pt. destruct (P !! (pt, n)) as [w|] eqn:HPn; [right|by left].
      destruct (entry_table _ _ _ _ _ _ _ _ _ Hok HPn). lia. }
    destruct (Hno child) as [->|(? & _)]; [|congruence]. destruct (Hno parent) as [->|(_ & ?)]; [done|].
    exfalso. by apply Hge.
  - intros [p n] Hne. cbn [fst] in Hne. rewrite HP2, Hpt. cbn [fst snd].
    by rewrite !decide_False by naive_solver.
  - intros f j Hfr Hj. rewrite Hk2; [by apply Hk1|by apply Hr|done].
Qed.
End helpers.

(** ** Fork *)

(** C10: With memory for the new tables, a fork gives the child an entry for each
    entry of its parent, naming the same frame and marked read-only; every
    entry of every other table is as before, each frame is counted once per
    entry that names it, and no word of a frame changes. *)
Theorem fork_shares_frames s O D P parent m (Hok : cow_ok None all_counted s O D P)
    (Hp : O !! parent = Some RTable) (Hn : ntables O < 256)
    (Hroom : 1 + dirs_upto D parent 1024 ≤ UNALLOCATED_FRAME (hvm s)) :
  wp (fork_tables parent) (λ '(result, child) w', result = 0 ∧ O !! child = None ∧
      ∃ O' D' P', cow_ok None all_counted (wst w') O' D' P' ∧ O' !! child = Some RTable ∧
        (∀ x r, O !! x = Some r → O' !! x = Some r) ∧
        (∀ n, P' !! (child, n) = ro <$> P !! (parent, n)) ∧
        (∀ k, k.1 ≠ child → P' !! k = P !! k) ∧
        data_kept O s (wst w')) (World s m).
Proof.
  eapply fork_tables_spec; [done..|]. intros child s' O' D' P' **.
  split_and!; [done|done|]. by exists O', D', P'.
Qed.

(** C35: After a fork the parent keeps write access to a frame it shares with the
    child: looking up one of its writable pages for a write still answers an
    entry with the permission to write, although the child's entry names the
    same frame.  ([make_readonly] without [coremap_update] does nothing.) *)
Theorem fork_parent_keeps_write s O D P parent va w m (Hok : cow_ok None all_counted s O D P)
    (Hp : O !! parent = Some RTable) (Hn : ntables O < 256)
    (Hroom : 1 + dirs_upto D parent 1024 ≤ UNALLOCATED_FRAME (hvm s))
    (Hva : 0 ≤ va < 2 ^ 32) (Hw : P !! (parent, vpn va) = Some w)
    (Hdirty : bit_set w TLBLO_DIRTY = true) (Hro : bit_set w PTE_READONLY = false) :
  wp ('(_, child) ← fork_tables parent;
      '(r, e) ← pt_lookup parent va VM_FAULT_WRITE 0;
      '(r', e') ← pt_lookup child va VM_FAULT_WRITE 0;
      mret (r, e, r', e'))
     (λ '(r, e, r', e') w', r = PTE_FOUND ∧ r' = PTE_FOUND ∧ bit_set e TLBLO_DIRTY = true ∧
        bit_set e' TLBLO_DIRTY = false ∧ pframe e = pframe e') (World s m).
Proof.
  rewrite wp_bind. eapply fork_tables_spec; [done..|].
  intros child s2 O2 D2 P2 Hc Hc0 Hok2 Hnew Hr HPc HPo Hk Hcpu.
  assert (P2 !! (parent, vpn va) = Some w) as H1 by (rewrite HPo; [done|cbn [fst]; congruence]).
  assert (P2 !! (child, vpn va) = Some (ro w)) as H2 by (by rewrite HPc, Hw).
  rewrite wp_bind. eapply pt_lookup_spec; [exact Hok2|by apply Hr|done|done|].
  rewrite (lookup_found _ _ _ _ _ _ _ _ VM_FAULT_WRITE _ _ Hok2 H1 eq_refl), wp_bind.
  eapply pt_lookup_spec; [exact Hok2|done|done|done|].
  rewrite (lookup_found _ _ _ _ _ _ _ _ VM_FAULT_WRITE _ _ Hok2 H2 eq_refl), wp_ret, Hro, ro_readonly.
  pose proof (co_pte _ _ _ _ _ _ Hok _ _ Hw) as Hwok.
  split_and!; [done|done|done|by apply clean_dirty, ro_ok|].
  rewrite clean_pframe by (by apply ro_ok). by rewrite pframe_ro.
Qed.

(** ** Copy-on-write *)

(** C11: If [pt_copy_on_write] succeeds, the page of the fault address has a
    writable frame that no other entry names, with the same words as before;
    all other entries and the words of all other frames are kept, and the
    invariant holds.  If it fails, it was for lack of memory, and the coremap
    counts one entry less for the frame than there are. *)
Theorem copy_on_write_private s O D P pt va e w m (Hok : cow_ok None all_counted s O D P)
    (Hva : 0 ≤ va < 2 ^ 32) (Hw : P !! (pt, vpn va) = Some w)
    (Hdirty : bit_set w TLBLO_DIRTY = true) :
  wp (pt_copy_on_write pt va e) (λ '(result, e') w',
      (result = 0 ∧ bit_set e' TLBLO_DIRTY = true ∧ bit_set e' PTE_READONLY = false ∧
       ∃ O', let P' := <[(pt, vpn va) := e']> P in
         cow_ok None all_counted (wst w') O' D P' ∧ refs all_counted P' (pframe e') = 1 ∧
         (∀ j, 0 ≤ j < 1024 →
            kmem (wst w') !! (pframe e' + 4 * j) = kmem s !! (pframe w + 4 * j)) ∧
         data_kept O s (wst w')) ∨
      (result = ENOMEM ∧ e' = e ∧ UNALLOCATED_FRAME (hvm s) = 0 ∧
       2 ≤ refs all_counted P (pframe w) ∧
       shared_at (hvm (wst w')) (pframe w) = Some (refs all_counted P (pframe w) - 2)))
     (World s m).
Proof.
  pose proof (co_pte _ _ _ _ _ _ Hok _ _ Hw) as Hwok.
  destruct (cow_frame _ _ _ _ _ _ _ _ Hok Hw) as (Hfr & _ & _).
  eapply pt_copy_on_write_spec; [done..| | |].
  - intros s' H1 Hok' Hk. left. cbn [wst].
    rewrite dirty_testbit in Hdirty. destruct (Hwok) as [Hran _].
    assert (0 ≤ w < 2 ^ 32) by (unfold MIPS_KSEG0, MIPS_KSEG1 in *; lia).
    rewrite dirty_testbit, readonly_testbit, !rw_testbit, Hdirty by done.
    split_and!; [done|done|apply andb_false_r|]. exists O. rewrite pframe_rw by done.
    split_and!; [done| |by auto|done].
    rewrite (refs_update _ _ _ w) by done. rewrite !decide_True; [lia| |done].
    by split; [|apply pframe_rw].
  - intros f s' H2 Hf Hok' Hk Hpf Hsame. left. cbn [wst].
    assert (f mod PAGE_SIZE = 0)
      by (eapply role_aligned; [exact Hok'|apply lookup_insert_eq|done]).
    rewrite mkpte_dirty, mkpte_readonly by done. split_and!; [done..|].
    exists (<[f := RFrame]> O). rewrite Hpf. split_and!; [done| |done|done].
    rewrite (refs_update _ _ _ w) by done.
    assert (refs all_counted P f = 0) as ->.
    { destruct (decide (1 ≤ refs all_counted P f)) as [(k & x & HPk & _ & E)%refs_inv|]; [|unfold refs in *; lia].
      assert (O !! f = Some RFrame) by (apply (co_frame _ _ _ _ _ _ Hok); by exists k, x). congruence. }
    rewrite decide_False, decide_True; [lia|done|]. intros (_ & E). cbn [snd] in E. congruence.
  - intros s' H2 H0 Hok'. right. cbn [wst]. split_and!; [done..|].
    destruct (co_count _ _ _ _ _ _ Hok' _ Hfr) as (_ & ->). f_equal.
    rewrite (refs_count (count_set all_counted (pt, vpn va) false) all_counted P (pt, vpn va) w); [|done|
      apply count_set_eq|done|intros; by rewrite count_set_ne]. rewrite decide_True by done. lia.
Qed.

(** ** New pages and destruction *)

(** C28: Entering a fresh page of zeros for an address and looking the address up
    are inverse: the lookup for a read or write answers the word that was
    entered, which names a private frame of zeros and permits writing exactly
    if the flags do. *)
Theorem map_lookup_roundtrip s O D P pt va ft flags m (Hok : cow_ok None all_counted s O D P)
    (Hp : O !! pt = Some RTable) (Hva : 0 ≤ va < 2 ^ 32) (Hno : D !! (pt, vpn va / 1024) = None)
    (Hft : ft ≠ VM_FAULT_READONLY) (Hroom : 2 ≤ UNALLOCATED_FRAME (hvm s)) :
  wp (r ← new_second_pt pt va;
      newframe ← new_zero_frame;
      e ← update_second_pt_entry pt va newframe flags;
      found ← pt_lookup pt va ft 0;
      mret (r, newframe, e, found))
     (λ '(r, newframe, e, found) w', r = 0 ∧ found = (PTE_FOUND, e) ∧ pframe e = newframe ∧
        O !! newframe = None ∧ bit_set e TLBLO_DIRTY = bit_set flags PF_W ∧
        ∃ O' D', let P' := <[(pt, vpn va) := e]> P in
          cow_ok None all_counted (wst w') O' D' P' ∧ data_kept O s (wst w') ∧
          ∀ j, 0 ≤ j < 1024 → kmem (wst w') !! (newframe + 4 * j) = Some 0) (World s m).
Proof.
  rewrite wp_bind. eapply new_second_pt_spec; [done..|lia|].
  intros b s1 Hb Hok1 Hk1 _ Hun1. rewrite wp_bind.
  eapply new_zero_frame_spec; [exact Hok1|lia|].
  intros f s2 Hf Hf0 Hok2 Hm Hs0 Hz Hk2 _ _. rewrite wp_bind.
  assert (P !! (pt, vpn va) = None) as HP.
  { apply eq_None_not_Some. intros (x & HP). destruct (co_closed _ _ _ _ _ _ Hok _ _ _ HP). congruence. }
  apply lookup_insert_None in Hf as (Hfo & Hfb).
  eapply update_second_spec; [exact Hok2|apply lookup_insert_eq|done|done| |done|done|
    apply lookup_insert_eq|done|done|].
  { intros j Hj. by rewrite Hz. }
  set (O3 := <[f := RFrame]> _). intros s3 w E Hok3. rewrite wp_bind.
  assert (pt ≠ f ∧ pt ≠ b) as (Hpf & Hpb) by (split; congruence).
  assert (O3 !! f = Some RFrame) as Hff by apply lookup_insert_eq.
  pose proof (role_aligned _ _ _ _ _ _ _ _ Hok3 Hff I) as Hal.
  assert (O3 !! pt = Some RTable) as Hpt3 by (unfold O3; by rewrite !lookup_insert_ne).
  eapply pt_lookup_spec; [exact Hok3|done|done|done|]. rewrite wp_ret.
  rewrite (lookup_found _ _ _ _ _ _ _ _ _ _ w Hok3) by
    (apply lookup_insert_eq || by apply Z.eqb_neq).
  assert (bit_set w PTE_READONLY = false) as -> by (by apply mkpte_readonly).
  destruct (ext_paddr _ _ _ _ _ _ f Hok3 (role_block _ _ _ Hff I)) as (_ & Hlo & Hhi & _).
  split_and!; [done|done|by apply mkpte_frame|done|by apply mkpte_dirty|].
  exists O3, (<[(pt, vpn va / 1024):=b]> D). cbn [wst].
  assert (∀ x j, x mod PAGE_SIZE = 0 → x ≠ b → 0 ≤ j < 1024 →
            kmem s3 !! (x + 4 * j) = kmem s2 !! (x + 4 * j)) as Hput.
  { intros x j Hx Hne Hj. rewrite E. apply put_word_ne; [|done|lia|done|by left].
    assert (O3 !! b = Some (RSecond pt (vpn va / 1024))) as Hbb
      by (unfold O3; rewrite !lookup_insert_ne by done; apply lookup_insert_eq).
    exact (role_aligned _ _ _ _ _ _ _ _ Hok3 Hbb I). }
  split_and!; [done| |].
  - intros g j Hg Hj. rewrite Hput; [|exact (role_aligned _ _ _ _ _ _ _ _ Hok Hg I)|congruence|done].
    rewrite Hk2; [by apply Hk1| |done]. by rewrite lookup_insert_ne by congruence.
  - intros j Hj. by rewrite Hput; [apply Hz|..].
Qed.

(** C17: [pt_deep_destroy] gives back the pages of the table and the frames that
    no other table maps, and nothing else: blocks of others stay allocated, all
    other tables keep their entries, which are then counted correctly, and no
    word of memory changes. *)
Theorem deep_destroy_exact s O D P pt m (Hok : cow_ok None all_counted s O D P)
    (Hp : O !! pt = Some RTable) :
  wp (pt_deep_destroy pt) (λ _ w', ∃ O' D' P',
      cow_ok None all_counted (wst w') O' D' P' ∧ kmem (wst w') = kmem s ∧
      (∀ k, P' !! k = if decide (k.1 = pt) then None else P !! k) ∧
      (∀ x, is_Some (O' !! x) ↔
         match O !! x with
         | None => False
         | Some RTable => x ≠ pt
         | Some (RSecond pt' _) => pt' ≠ pt
         | Some RFrame => ∃ k w, P !! k = Some w ∧ pframe w = x ∧ k.1 ≠ pt
         | Some (RExt _) => True
         end)) (World s m).
Proof.
  eapply pt_deep_destroy_spec; [done..|]. intros s' O' D' P' Hok' He Hr Ht HD HP Hk _.
  exists O', D', P'. cbn [wst]. split_and!; [done..|]. intros x. split.
  - intros (r & Hx). destruct (Hr _ _ Hx) as (HO & Hne). rewrite HO. destruct r as [|pt' i| |z]; try done.
    + intros ->. apply (co_dir _ _ _ _ _ _ Hok') in Hx. by rewrite HD, decide_True in Hx.
    + apply (co_frame _ _ _ _ _ _ Hok') in Hx as (k & w & Hw & E). exists k, w.
      rewrite HP in Hw. by case_decide.
  - destruct (O !! x) as [[|pt' i| |z]|] eqn:HO; [| | | |done].
    + intros Hne. by rewrite (Ht x HO Hne).
    + intros Hne. apply (co_dir _ _ _ _ _ _ Hok) in HO.
      eexists. apply (co_dir _ _ _ _ _ _ Hok' pt' i). by rewrite HD, decide_False.
    + intros (k & w & Hw & E & Hne). eexists. apply (co_frame _ _ _ _ _ _ Hok').
      exists k, w. by rewrite HP, decide_False.
    + intros _. eexists. by apply He.
Qed.

(** ** A machine with one process *)

(** The state after [c], started in [s]. *)
Definition after {S A} (c : K S A) (s : S) : S :=
  match c (World s []) with Ok (_, w) => wst w | _ => s end.

Lemma wp_after {S A} (c : K S A) Q s :
  wp c Q (World s []) → ∃ x m, c (World s []) = Ok (x, World (after c s) m) ∧ Q x (World (after c s) m).
Proof.
  unfold wp, after. destruct (c _) as [[x [s' m]]| | |]; [|done..]. intros HQ. by exists x, m.
Qed.

#[global] Opaque after.

(** Memory set up; a page table; one writable page of zeros at 0x400000. *)
Definition pt_heap0 : kheap vmst := after vm_bootstrap vmheap0.
Definition pt_heap1 : kheap vmst := after pt_create pt_heap0.
Definition pt_a : Z := 0x80041000.
Definition pt_map : KV Z :=
  r ← new_second_pt pt_a 0x400000;
  newframe ← new_zero_frame;
  update_second_pt_entry pt_a 0x400000 newframe PF_W.
Definition pt_heap2 : kheap vmst := after pt_map pt_heap1.

Lemma pt_heap0_eq : pt_heap0 = after vm_bootstrap vmheap0.
Proof. reflexivity. Qed.
Lemma pt_heap1_eq : pt_heap1 = after pt_create pt_heap0.
Proof. reflexivity. Qed.
Lemma pt_heap2_eq : pt_heap2 = after pt_map pt_heap1.
Proof. reflexivity. Qed.

#[global] Opaque pt_heap0 pt_heap1 pt_heap2.

Lemma pt_heap_room :
  UNALLOCATED_FRAME (hvm pt_heap0) = 63 ∧ UNALLOCATED_FRAME (hvm pt_heap1) = 62 ∧
  UNALLOCATED_FRAME (hvm pt_heap2) = 60.
Proof. by vm_compute. Qed.

Lemma ntables_none O : (∀ x, O !! x ≠ Some RTable) → ntables O = 0.
Proof.
  intros Hno. rewrite (ntables_ext ∅ O); [done|]. intros x. rewrite lookup_empty.
  split; [|done]. intros Hx. by destruct (Hno x).
Qed.

Lemma cow_start s H :
  heap_rep s H → VM_INITIALIZED (hvm s) ≠ 0 → cow_ok None all_counted s (RExt <$> H) ∅ ∅.
Proof.
  intros Hrep Hi. assert (∀ x r, (RExt <$> H) !! x = Some r → ¬ internal r) as Hx.
  { intros x r. rewrite lookup_fmap. destruct (H !! x); [|done]. intros [= <-]. by auto. }
  split; try done.
  - rewrite <- map_fmap_compose. by rewrite map_fmap_id.
  - intros a r Ha Hr. by destruct (Hx _ _ Ha).
  - intros pt i b. rewrite lookup_empty. split; [done|]. intros Hb. by destruct (Hx _ _ Hb).
  - intros f. split; [intros Hb; by destruct (Hx _ _ Hb)|]. intros (k & w & Hk & _).
    by rewrite lookup_empty in Hk.
  - intros f Hb. by destruct (Hx _ _ Hb).
  - rewrite ntables_none; [done|]. intros x Hr. by destruct (Hx _ _ Hr).
  - intros pt i Hb. by destruct (Hx _ _ Hb).
  - intros f j Hb. by destruct (Hx _ _ Hb).
Qed.

Lemma pt_heap0_ok : ∃ O, cow_ok None all_counted pt_heap0 O ∅ ∅ ∧ ntables O = 0.
Proof.
  rewrite pt_heap0_eq.
  destruct (wp_after vm_bootstrap (λ _ w, ∃ H, heap_rep (wst w) H ∧ VM_INITIALIZED (hvm (wst w)) ≠ 0) vmheap0)
    as (x & m & _ & H & Hrep & Hi).
  - apply (vm_bootstrap_spec vmheap0 ∅); [apply vmheap0_rep|done|by vm_compute|].
    intros b s' _ Hrep _ Hv. eexists. split; [done|]. cbn [wst]. by rewrite Hv.
  - exists (RExt <$> H). split; [by apply cow_start|]. apply ntables_none. intros y.
    rewrite lookup_fmap. by destruct (H !! y).
Qed.

Lemma pt_heap1_ok :
  ∃ O, cow_ok None all_counted pt_heap1 O ∅ ∅ ∧ O !! pt_a = Some RTable ∧ ntables O = 1.
Proof.
  rewrite pt_heap1_eq. destruct pt_heap0_ok as (O & Hok & Hn). destruct pt_heap_room as (Hr & _).
  destruct (wp_after pt_create (λ a w, ∃ O, cow_ok None all_counted (wst w) O ∅ ∅ ∧
    O !! a = Some RTable ∧ ntables O = 1) pt_heap0) as (a & m & Hrun & HQ).
  - eapply pt_create_spec; [exact Hok|lia|lia|]. intros a s' Ha _ Hok' _ _.
    exists (<[a := RTable]> O). split_and!; [done|apply lookup_insert_eq|].
    rewrite ntables_insert by congruence. lia.
  - assert (a = pt_a) as ->; [|exact HQ].
    apply (f_equal (λ r, match r with Ok (x, _) => x | _ => 0 end)) in Hrun.
    rewrite <- Hrun. by vm_compute.
Qed.

(** The entry of the page. *)
Definition pte_a : Z := 0x43600.

Lemma pt_map_spec s O :
  cow_ok None all_counted s O ∅ ∅ → O !! pt_a = Some RTable → 2 ≤ UNALLOCATED_FRAME (hvm s) →
  wp pt_map (λ e w, ∃ O' b, cow_ok None all_counted (wst w) O'
    {[(pt_a, 1) := b]} {[(pt_a, 0x400) := e]} ∧ O' !! pt_a = Some RTable ∧ ntables O' = ntables O)
    (World s []).
Proof.
  intros Hok Hp Hr. unfold pt_map. rewrite wp_bind.
  eapply new_second_pt_spec; [exact Hok|done|done|done|lia|].
  intros b s1 Hb Hok1 Hk1 _ Hun1. rewrite wp_bind.
  eapply new_zero_frame_spec; [exact Hok1|lia|].
  intros f s2 Hf Hf0 Hok2 Hm Hs0 Hz Hk2 _ _.
  apply lookup_insert_None in Hf as (Hfo & Hfb).
  eapply update_second_spec; [exact Hok2|apply lookup_insert_eq|done|done| |done|done|
    apply lookup_insert_eq|done|done|].
  { intros j Hj. by rewrite Hz. }
  rewrite insert_insert_eq. intros s3 w E Hok3. eexists _, b. cbn [wst]. split_and!; [exact Hok3|..].
  - by rewrite !lookup_insert_ne by congruence.
  - apply ntables_ext. intros x. rewrite !lookup_insert_Some. naive_solver congruence.
Qed.

Lemma pt_heap2_ok :
  ∃ O b, cow_ok None all_counted pt_heap2 O {[(pt_a, 1) := b]} {[(pt_a, 0x400) := pte_a]} ∧
    O !! pt_a = Some RTable ∧ ntables O = 1.
Proof.
  rewrite pt_heap2_eq. destruct pt_heap1_ok as (O & Hok & Hp & Hn). destruct pt_heap_room as (_ & Hr & _).
  destruct (wp_after _ _ _ (pt_map_spec _ _ Hok Hp ltac:(lia))) as (e & m & Hrun & HQ).
  assert (e = pte_a) as ->; [|by rewrite Hn in HQ].
  apply (f_equal (λ r, match r with Ok (x, _) => x | _ => 0 end)) in Hrun.
  rewrite <- Hrun. by vm_compute.
Qed.

Lemma pt_heap2_dirs b : dirs_upto {[(pt_a, 1) := b]} pt_a 1024 = 1.
Proof. by vm_compute. Qed.

Lemma fork_shares_frames_witness :
  ∃ O D P, cow_ok None all_counted pt_heap2 O D P ∧ P !! (pt_a, 0x400) = Some pte_a ∧
  wp (fork_tables pt_a) (λ '(result, child) w', result = 0 ∧ O !! child = None ∧
      ∃ O' D' P', cow_ok None all_counted (wst w') O' D' P' ∧ O' !! child = Some RTable ∧
        (∀ x r, O !! x = Some r → O' !! x = Some r) ∧
        (∀ n, P' !! (child, n) = ro <$> P !! (pt_a, n)) ∧
        (∀ k, k.1 ≠ child → P' !! k = P !! k) ∧
        data_kept O pt_heap2 (wst w')) (World pt_heap2 []).
Proof.
  destruct pt_heap2_ok as (O & b & Hok & Hp & Hn). eexists O, _, _.
  split_and!; [exact Hok|done|].
  apply (fork_shares_frames _ _ _ _ _ _ Hok Hp); [lia|]. rewrite pt_heap2_dirs. by destruct pt_heap_room as (_ & _ & ->).
Defined.

Lemma fork_parent_keeps_write_witness :
  wp ('(_, child) ← fork_tables pt_a;
      '(r, e) ← pt_lookup pt_a 0x400000 VM_FAULT_WRITE 0;
      '(r', e') ← pt_lookup child 0x400000 VM_FAULT_WRITE 0;
      mret (r, e, r', e'))
     (λ '(r, e, r', e') w', r = PTE_FOUND ∧ r' = PTE_FOUND ∧ bit_set e TLBLO_DIRTY = true ∧
        bit_set e' TLBLO_DIRTY = false ∧ pframe e = pframe e') (World pt_heap2 []).
Proof.
  destruct pt_heap2_ok as (O & b & Hok & Hp & Hn).
  apply (fork_parent_keeps_write _ _ _ _ _ _ pte_a _ Hok Hp); [lia| |done|done|done|done].
  rewrite pt_heap2_dirs. by destruct pt_heap_room as (_ & _ & ->).
Defined.

Lemma copy_on_write_private_witness :
  ∃ O D P, wp (pt_copy_on_write pt_a 0x400000 0) (λ '(result, e') w',
      (result = 0 ∧ bit_set e' TLBLO_DIRTY = true ∧ bit_set e' PTE_READONLY = false ∧
       ∃ O', let P' := <[(pt_a, vpn 0x400000) := e']> P in
         cow_ok None all_counted (wst w') O' D P' ∧ refs all_counted P' (pframe e') = 1 ∧
         (∀ j, 0 ≤ j < 1024 →
            kmem (wst w') !! (pframe e' + 4 * j) = kmem pt_heap2 !! (pframe pte_a + 4 * j)) ∧
         data_kept O pt_heap2 (wst w')) ∨
      (result = ENOMEM ∧ e' = 0 ∧ UNALLOCATED_FRAME (hvm pt_heap2) = 0 ∧
       2 ≤ refs all_counted P (pframe pte_a) ∧
       shared_at (hvm (wst w')) (pframe pte_a) = Some (refs all_counted P (pframe pte_a) - 2)))
     (World pt_heap2 []).
Proof.
  destruct pt_heap2_ok as (O & b & Hok & Hp & Hn). eexists O, _, _.
  apply (copy_on_write_private _ _ _ _ pt_a 0x400000 0 pte_a [] Hok); done.
Defined.

Lemma map_lookup_roundtrip_witness :
  ∃ (O : gmap Z role) (P : gmap (Z * Z) Z), wp (r ← new_second_pt pt_a 0x800000;
      newframe ← new_zero_frame;
      e ← update_second_pt_entry pt_a 0x800000 newframe PF_W;
      found ← pt_lookup pt_a 0x800000 VM_FAULT_WRITE 0;
      mret (r, newframe, e, found))
     (λ '(r, newframe, e, found) w', r = 0 ∧ found = (PTE_FOUND, e) ∧ pframe e = newframe ∧
        O !! newframe = None ∧ bit_set e TLBLO_DIRTY = bit_set PF_W PF_W ∧
        ∃ O' D', let P' := <[(pt_a, vpn 0x800000) := e]> P in
          cow_ok None all_counted (wst w') O' D' P' ∧ data_kept O pt_heap2 (wst w') ∧
          ∀ j, 0 ≤ j < 1024 → kmem (wst w') !! (newframe + 4 * j) = Some 0) (World pt_heap2 []).
Proof.
  destruct pt_heap2_ok as (O & b & Hok & Hp & Hn). eexists O, _.
  apply (map_lookup_roundtrip _ _ _ _ pt_a 0x800000 VM_FAULT_WRITE PF_W [] Hok Hp);
    [done..|]. by destruct pt_heap_room as (_ & _ & ->).
Defined.

Lemma deep_destroy_exact_witness :
  ∃ (O : gmap Z role) (P : gmap (Z * Z) Z), wp (pt_deep_destroy pt_a) (λ _ w', ∃ O' D' P',
      cow_ok None all_counted (wst w') O' D' P' ∧ kmem (wst w') = kmem pt_heap2 ∧
      (∀ k, P' !! k = if decide (k.1 = pt_a) then None else P !! k) ∧
      (∀ x, is_Some (O' !! x) ↔
         match O !! x with
         | None => False
         | Some RTable => x ≠ pt_a
         | Some (RSecond pt' _) => pt' ≠ pt_a
         | Some RFrame => ∃ k w, P !! k = Some w ∧ pframe w = x ∧ k.1 ≠ pt_a
         | Some (RExt _) => True
         end)) (World pt_heap2 []).
Proof.
  destruct pt_heap2_ok as (O & b & Hok & Hp & Hn). eexists O, _.
  exact (deep_destroy_exact _ _ _ _ _ [] Hok Hp).
Defined.
