(* ===== verification/Vfs.v ===== *)
(** * The virtual file system layer (kern/fs/vfs)

    vfslist.c (the table of named devices), vfslookup.c (path names and the
    boot file system), vfscwd.c (the current directory) and vfspath.c (the
    operations on path names).  The layer calls file systems and devices only
    through their tables of operations: those calls, and the reference counts
    of vnode.c, are the operations of the class [Vnodes], on a state [F].
    Strings are lists of characters without the terminating NUL.  Seen from
    one thread a lock is free or held; acquiring a lock it holds itself puts a
    thread to sleep for ever. *)

From S2P Require Import Prelude Array Bitmap CopyInOut Uio Lhd SfsDisk SfsFile SfsVnode.

(** ** What the layer calls (kern/include/vnode.h, fs.h, dev.h) *)

Class Vnodes (F : Type) : Type := {
  vn_fs : F → loc → option Z;
  vop_incref : loc → K F unit;
  vop_decref : loc → K F unit;
  vop_incopen : loc → K F unit;
  vop_decopen : loc → K F unit;
  vop_open : loc → Z → K F Z;
  vop_gettype : loc → K F (Z * Z);
  vop_truncate : loc → Z → K F Z;
  vop_namefile : loc → uio → K F (Z * uio);
  vop_readlink : loc → uio → K F (Z * uio);
  vop_creat : loc → list Z → bool → K F (Z * option loc);
  vop_symlink : loc → list Z → list Z → K F Z;
  vop_mkdir : loc → list Z → K F Z;
  vop_rmdir : loc → list Z → K F Z;
  vop_remove : loc → list Z → K F Z;
  vop_link : loc → list Z → loc → K F Z;
  vop_rename : loc → list Z → loc → list Z → K F Z;
  vop_lookup : loc → list Z → K F (Z * option loc);
  vop_lookparent : loc → list Z → Z → K F (Z * option loc * list Z);
  fs_sync : Z → K F Z;
  fs_getvolname : Z → K F (option (list Z));
  fs_getroot : Z → K F loc;
  fs_unmount : Z → K F Z;
  (** Creating a vnode for a device, and freeing one that was never used. *)
  dev_vnode : option Z → K F (option loc);
  dev_vnode_free : loc → K F unit;
  (** The memory of processes, for [uiomove]. *)
  vn_space : F → uspace;
  vn_set_space : uspace → F → F
}.

(** ** State *)

Record knowndev : Type := KnownDev {
  kd_name : list Z;
  kd_rawname : option (list Z);
  kd_device : option Z;
  kd_vnode : loc;
  kd_fs : option Z
}.

(** [knowndevs] is the array of pointers, [kd_heap] what they point to. *)
Record vfs (F : Type) : Type := Vfs {
  knowndevs : array loc;
  kd_heap : gmap loc knowndev;
  knowndevs_lock : bool;
  bootfs_vnode : option loc;
  bootfs_lock : bool;
  t_cwd : option loc;
  vfs_state : F
}.

Arguments Vfs {F} _ _ _ _ _ _ _.
Arguments knowndevs {F} v.
Arguments kd_heap {F} v.
Arguments knowndevs_lock {F} v.
Arguments bootfs_vnode {F} v.
Arguments bootfs_lock {F} v.
Arguments t_cwd {F} v.
Arguments vfs_state {F} v.

Definition NAME_MAX : Z := 255.

Definition COLON : Z := 58.
Definition SLASH : Z := 47.

Definition O_WRONLY : Z := 1.
Definition O_RDWR : Z := 2.
Definition O_CREAT : Z := 4.
Definition O_EXCL : Z := 8.
Definition O_TRUNC : Z := 16.
Definition S_IFMT : Z := 28672.

Definition S_ISDIR (mode : Z) : bool := Z.land mode S_IFMT =? S_IFDIR.

(** [strcmp] answers 0. *)
Definition streq (a b : list Z) : bool := bool_decide (a = b).

Definition isnull {A} (o : option A) : bool := match o with None => true | Some _ => false end.

Section vfs.
Context {F : Type} `{!Vnodes F}.

Implicit Types s : vfs F.

Definition set_knowndevs (a : array loc) (s : vfs F) : vfs F :=
  Vfs a (kd_heap s) (knowndevs_lock s) (bootfs_vnode s) (bootfs_lock s) (t_cwd s) (vfs_state s).
Definition set_kd_heap (h : gmap loc knowndev) (s : vfs F) : vfs F :=
  Vfs (knowndevs s) h (knowndevs_lock s) (bootfs_vnode s) (bootfs_lock s) (t_cwd s) (vfs_state s).
Definition set_kd_lock (b : bool) (s : vfs F) : vfs F :=
  Vfs (knowndevs s) (kd_heap s) b (bootfs_vnode s) (bootfs_lock s) (t_cwd s) (vfs_state s).
Definition set_bootfs (o : option loc) (s : vfs F) : vfs F :=
  Vfs (knowndevs s) (kd_heap s) (knowndevs_lock s) o (bootfs_lock s) (t_cwd s) (vfs_state s).
Definition set_boot_lock (b : bool) (s : vfs F) : vfs F :=
  Vfs (knowndevs s) (kd_heap s) (knowndevs_lock s) (bootfs_vnode s) b (t_cwd s) (vfs_state s).
Definition set_cwd (o : option loc) (s : vfs F) : vfs F :=
  Vfs (knowndevs s) (kd_heap s) (knowndevs_lock s) (bootfs_vnode s) (bootfs_lock s) o (vfs_state s).
Definition set_state (f : F) (s : vfs F) : vfs F :=
  Vfs (knowndevs s) (kd_heap s) (knowndevs_lock s) (bootfs_vnode s) (bootfs_lock s) (t_cwd s) f.

Definition on_devs {A} (c : K (array loc) A) : K (vfs F) A := zoom knowndevs set_knowndevs c.
Definition on_fs {A} (c : K F A) : K (vfs F) A := zoom vfs_state set_state c.
Definition on_uspace {A} (c : K uspace A) : K (vfs F) A := on_fs (zoom vn_space vn_set_space c).

Definition getkd (p : loc) : K (vfs F) knowndev := s ← kget; kof (kd_heap s !! p).
Definition setkd (p : loc) (kd : knowndev) : K (vfs F) unit :=
  s ← kget; kput (set_kd_heap (<[p := kd]> (kd_heap s)) s).

(** [lock_acquire] and [lock_release] of the two locks. *)
Definition kd_acquire : K (vfs F) unit :=
  s ← kget; if knowndevs_lock s then kdiverge else kput (set_kd_lock true s).
Definition kd_release : K (vfs F) unit := s ← kget; kput (set_kd_lock false s).
Definition boot_acquire : K (vfs F) unit :=
  s ← kget; if bootfs_lock s then kdiverge else kput (set_boot_lock true s).
Definition boot_release : K (vfs F) unit := s ← kget; kput (set_boot_lock false s).

(** The loop over the table: [body] answers the result of a [goto out], or
    goes on to the next device. *)
Definition each_dev {R} (body : loc → K (vfs F) (unit + R)) : K (vfs F) (unit + R) :=
  num ← on_devs array_getnum;
  kfind (Z.to_nat num) 0 (λ i _, p ← on_devs (array_getguy i); body p) tt.

(** ** The table of devices (vfslist.c) *)

Definition vfs_sync : K (vfs F) Z :=
  kd_acquire;;
  each_dev (R := unit) (λ p,
    dev ← getkd p;
    match kd_fs dev with
    | Some fs => _ ← on_fs (fs_sync fs); mret (inl tt)
    | None => mret (inl tt)
    end);;
  kd_release;;
  mret 0.

(** One round of the loop of [vfs_getroot]: the error code and the vnode, or on
    to the next device. *)
Definition getroot_body (devname : list Z) (p : loc) : K (vfs F) (unit + Z * option loc) :=
  kd ← getkd p;
  r ← match kd_fs kd with
      | Some fs =>
          volname ← on_fs (fs_getvolname fs);
          if streq (kd_name kd) devname
             || match volname with Some v => streq v devname | None => false end
          then root ← on_fs (fs_getroot fs); mret (inr (0, Some root))
          else mret (inl tt)
      | None =>
          if negb (isnull (kd_rawname kd)) && streq (kd_name kd) devname
          then mret (inr (ENXIO, None)) else mret (inl tt)
      end;
  match r with
  | inr x => mret (inr x)
  | inl _ =>
      if streq (kd_name kd) devname then
        kassert (isnull (kd_fs kd));;
        kassert (isnull (kd_rawname kd));;
        kassert (negb (isnull (kd_device kd)));;
        on_fs (vop_incref (kd_vnode kd));;
        mret (inr (0, Some (kd_vnode kd)))
      else
      if match kd_rawname kd with Some n => streq n devname | None => false end then
        kassert (negb (isnull (kd_device kd)));;
        on_fs (vop_incref (kd_vnode kd));;
        mret (inr (0, Some (kd_vnode kd)))
      else mret (inl tt)
  end.

Definition vfs_getroot (devname : list Z) : K (vfs F) (Z * option loc) :=
  kd_acquire;;
  r ← each_dev (getroot_body devname);
  kd_release;;
  mret (match r with inr x => x | inl _ => (ENODEV, None) end).

Definition vfs_getdevname (fs : Z) : K (vfs F) (option (list Z)) :=
  kd_acquire;;
  r ← each_dev (λ p,
    kd ← getkd p;
    mret (if bool_decide (kd_fs kd = Some fs) then inr (kd_name kd) else inl tt));
  kd_release;;
  mret (match r with inr n => Some n | inl _ => None end).

Definition RAW : list Z := [114; 97; 119].

Definition mkrawname (name : list Z) : K (vfs F) (option (list Z)) :=
  ok ← kmalloc_ok;
  mret (if (ok : bool) then Some (name ++ RAW) else None).

Definition samestring (a b : option (list Z)) : bool :=
  match a, b with Some a, Some b => streq a b | _, _ => false end.

Definition samestring3 (a b c d : option (list Z)) : bool :=
  samestring a b || samestring a c || samestring a d.

Definition badnames (n1 n2 n3 : option (list Z)) : K (vfs F) bool :=
  s ← kget;
  kassert (knowndevs_lock s);;
  r ← each_dev (λ p,
    kd ← getkd p;
    bad ← match kd_fs kd with
          | Some fs => volname ← on_fs (fs_getvolname fs); mret (samestring3 volname n1 n2 n3)
          | None => mret false
          end;
    if (bad : bool) then mret (inr tt) else
    if samestring3 (kd_rawname kd) n1 n2 n3 || samestring3 (Some (kd_name kd)) n1 n2 n3
    then mret (inr tt) else mret (inl tt));
  mret (match r with inr _ => true | inl _ => false end).

(** The label [puke] frees the vnode if there is one. *)
Definition doadd_puke (vnode : option loc) : K (vfs F) Z :=
  match vnode with Some v => on_fs (dev_vnode_free v) | None => mret tt end;;
  mret ENOMEM.

Definition vfs_doadd (dname : list Z) (mountable : bool) (dev fs : option Z) : K (vfs F) Z :=
  ok ← kmalloc_ok;
  if negb ok then doadd_puke None else
  let name := dname in
  rawname ← (if mountable then mkrawname name else mret None);
  if mountable && isnull rawname then doadd_puke None else
  vnode ← on_fs (dev_vnode dev);
  match vnode with
  | None => doadd_puke None
  | Some vn =>
      ok ← kmalloc_ok;
      if negb ok then doadd_puke vnode else
      s ← kget;
      let p := fresh (dom (kd_heap s)) in
      setkd p (KnownDev name rawname dev vn fs);;
      volname ← match fs with Some fs => on_fs (fs_getvolname fs) | None => mret None end;
      kd_acquire;;
      bad ← badnames (Some name) rawname volname;
      err ← (if (bad : bool) then mret EEXIST else on_devs (array_add p));
      kd_release;;
      mret err
  end.

Definition vfs_adddev (devname : list Z) (dev : Z) (mountable : bool) : K (vfs F) Z :=
  vfs_doadd devname mountable (Some dev) None.

Definition vfs_addfs (devname : list Z) (fs : Z) : K (vfs F) Z :=
  vfs_doadd devname false None (Some fs).

(** The error code and the device. *)
Definition findmount (devname : list Z) : K (vfs F) (Z * option loc) :=
  s ← kget;
  kassert (knowndevs_lock s);;
  r ← each_dev (λ p,
    dev ← getkd p;
    mret (if isnull (kd_rawname dev) then inl tt
          else if streq devname (kd_name dev) then inr p else inl tt));
  mret (match r with inr p => (0, Some p) | inl _ => (ENODEV, None) end).

Definition set_kd_fs (fs : option Z) (kd : knowndev) : knowndev :=
  KnownDev (kd_name kd) (kd_rawname kd) (kd_device kd) (kd_vnode kd) fs.

(** [mountfunc] with its [data] argument. *)
Definition vfs_mount (devname : list Z) (mountfunc : option Z → K F (Z * option Z)) : K (vfs F) Z :=
  kd_acquire;;
  '(result, o) ← findmount devname;
  result ← (if negb (result =? 0) then mret result else
    p ← kof o;
    kd ← getkd p;
    if negb (isnull (kd_fs kd)) then mret EBUSY else
    kassert (negb (isnull (kd_rawname kd)));;
    kassert (negb (isnull (kd_device kd)));;
    '(result, fs) ← on_fs (mountfunc (kd_device kd));
    if negb (result =? 0) then mret result else
    kassert (negb (isnull fs));;
    setkd p (set_kd_fs fs kd);;
    fs ← kof fs;
    _ ← on_fs (fs_getvolname fs);
    kassert (result =? 0);;
    mret result);
  kd_release;;
  mret result.

Definition vfs_unmount (devname : list Z) : K (vfs F) Z :=
  kd_acquire;;
  '(result, o) ← findmount devname;
  result ← (if negb (result =? 0) then mret result else
    p ← kof o;
    kd ← getkd p;
    match kd_fs kd with
    | None => mret EINVAL
    | Some fs =>
        kassert (negb (isnull (kd_rawname kd)));;
        kassert (negb (isnull (kd_device kd)));;
        result ← on_fs (fs_sync fs);
        if negb (result =? 0) then mret result else
        result ← on_fs (fs_unmount fs);
        if negb (result =? 0) then mret result else
        setkd p (set_kd_fs None kd);;
        kassert (result =? 0);;
        mret result
    end);
  kd_release;;
  mret result.

Definition vfs_unmountall : K (vfs F) Z :=
  kd_acquire;;
  each_dev (R := unit) (λ p,
    dev ← getkd p;
    if isnull (kd_rawname dev) then mret (inl tt) else
    match kd_fs dev with
    | None => mret (inl tt)
    | Some fs =>
        result ← on_fs (fs_sync fs);
        result ← (if negb (result =? 0) then on_fs (fs_sync fs) else mret 0);
        if negb (result =? 0) then mret (inl tt) else
        result ← on_fs (fs_unmount fs);
        if result =? EBUSY then mret (inl tt) else
        if negb (result =? 0) then mret (inl tt) else
        setkd p (set_kd_fs None dev);;
        mret (inl tt)
    end);;
  kd_release;;
  mret 0.

(** ** The current directory, by vnode (vfscwd.c) *)

Definition vfs_getcurdir : K (vfs F) (Z * option loc) :=
  s ← kget;
  match t_cwd s with
  | Some v => on_fs (vop_incref v);; mret (0, Some v)
  | None => mret (ENOENT, None)
  end.

Definition vfs_setcurdir (dir : loc) : K (vfs F) Z :=
  '(result, vtype) ← on_fs (vop_gettype dir);
  if negb (result =? 0) then mret result else
  if negb (S_ISDIR vtype) then mret ENOTDIR else
  on_fs (vop_incref dir);;
  s ← kget;
  let old := t_cwd s in
  kput (set_cwd (Some dir) s);;
  match old with Some v => on_fs (vop_decref v) | None => mret tt end;;
  mret 0.

Definition vfs_clearcurdir : K (vfs F) Z :=
  s ← kget;
  let old := t_cwd s in
  kput (set_cwd None s);;
  match old with Some v => on_fs (vop_decref v) | None => mret tt end;;
  mret 0.

(** ** Path names (vfslookup.c) *)

(** [path[i]], where the string ends in a NUL. *)
Definition char_at (path : list Z) (i : Z) : Z := default 0 (lget path i).

(** The first loop of [getdevice]: [colon] and [slash]. *)
Definition find_colon_slash (path : list Z) : K (vfs F) (Z * Z) :=
  r ← kloop (S (length path)) (λ i, negb (char_at path i =? 0))
        (λ i, mret (if char_at path i =? COLON then inr (i, -1)
                    else if char_at path i =? SLASH then inr (-1, i) else inl (i + 1))) 0;
  mret (match r with inr x => x | inl _ => (-1, -1) end).

(** [while (path[i+1]=='/') i++;] *)
Definition skip_slashes (path : list Z) (i : Z) : K (vfs F) Z :=
  kwhile (S (length path)) (λ i, char_at path (i + 1) =? SLASH) (λ i, mret (i + 1)) i.

Definition suffix_at (path : list Z) (i : Z) : list Z := drop (Z.to_nat i) path.

(** The error code, [*subpath] and [*startvn]. *)
Definition getdevice (path : list Z) : K (vfs F) (Z * list Z * option loc) :=
  '(colon, slash) ← find_colon_slash path;
  if (colon <? 0) && negb (slash =? 0) then
    '(result, vn) ← vfs_getcurdir;
    mret (result, path, vn)
  else if 0 <? colon then
    let devname := take (Z.to_nat colon) path in
    colon ← skip_slashes path colon;
    let subpath := suffix_at path (colon + 1) in
    '(result, vn) ← vfs_getroot devname;
    if negb (result =? 0) then mret (result, subpath, None) else
    mret (0, subpath, vn)
  else
    kassert ((colon =? 0) || (slash =? 0));;
    '(result, vn) ← (if char_at path 0 =? SLASH then
        boot_acquire;;
        s ← kget;
        match bootfs_vnode s with
        | None => boot_release;; mret (ENOENT, None)
        | Some v => on_fs (vop_incref v);; boot_release;; mret (0, Some v)
        end
      else
        kassert (char_at path 0 =? COLON);;
        '(result, vn) ← vfs_getcurdir;
        if negb (result =? 0) then mret (result, None) else
        vn ← kof vn;
        s ← kget;
        kassert (negb (isnull (vn_fs (vfs_state s) vn)));;
        fs ← kof (vn_fs (vfs_state s) vn);
        root ← on_fs (fs_getroot fs);
        on_fs (vop_decref vn);;
        mret (0, Some root));
    if negb (result =? 0) then mret (result, path, None) else
    i ← skip_slashes path 0;
    mret (0, suffix_at path (i + 1), vn).

(** The error code, the directory and the name. *)
Definition vfs_lookparent (path : list Z) (buflen : Z) : K (vfs F) (Z * option loc * list Z) :=
  '(result, path, startvn) ← getdevice path;
  if negb (result =? 0) then mret (result, None, []) else
  startvn ← kof startvn;
  '(result, vn, name) ← (if Z.of_nat (length path) =? 0 then mret (EINVAL, None, [])
                         else on_fs (vop_lookparent startvn path buflen));
  on_fs (vop_decref startvn);;
  mret (result, vn, name).

Definition vfs_lookup (path : list Z) : K (vfs F) (Z * option loc) :=
  '(result, path, startvn) ← getdevice path;
  if negb (result =? 0) then mret (result, None) else
  startvn ← kof startvn;
  if Z.of_nat (length path) =? 0 then mret (0, Some startvn) else
  '(result, vn) ← on_fs (vop_lookup startvn path);
  on_fs (vop_decref startvn);;
  mret (result, vn).

Definition vfs_chdir (path : list Z) : K (vfs F) Z :=
  '(result, vn) ← vfs_lookup path;
  if negb (result =? 0) then mret result else
  vn ← kof vn;
  result ← vfs_setcurdir vn;
  on_fs (vop_decref vn);;
  mret result.

Definition change_bootfs (newguy : option loc) : K (vfs F) unit :=
  boot_acquire;;
  s ← kget;
  let oldguy := bootfs_vnode s in
  kput (set_bootfs newguy s);;
  boot_release;;
  match oldguy with Some v => on_fs (vop_decref v) | None => mret tt end.

(** [strchr(tmp, ':')]: the string from the first colon on. *)
Definition strchr_colon (tmp : list Z) : option (list Z) :=
  match list_find (λ c, c = COLON) tmp with
  | Some (i, _) => Some (drop i tmp)
  | None => None
  end.

(** [snprintf] leaves room for one more character. *)
Definition vfs_setbootfs (fsname : list Z) : K (vfs F) Z :=
  let tmp := take 254 fsname in
  let s := strchr_colon tmp in
  if match s with Some s => 0 <? Z.of_nat (length s) | None => false end then mret EINVAL else
  let tmp := match s with Some _ => tmp | None => tmp ++ [COLON] end in
  result ← vfs_chdir tmp;
  if negb (result =? 0) then mret result else
  '(result, newguy) ← vfs_getcurdir;
  if negb (result =? 0) then mret result else
  change_bootfs newguy;;
  mret 0.

Definition vfs_clearbootfs : K (vfs F) unit := change_bootfs None.

(** The error code and the request. *)
Definition vfs_getcwd (u : uio) : K (vfs F) (Z * uio) :=
  kassert (bool_decide (uio_rw u = UIO_READ));;
  '(result, cwd) ← vfs_getcurdir;
  if negb (result =? 0) then mret (result, u) else
  cwd ← kof cwd;
  s ← kget;
  kassert (negb (isnull (vn_fs (vfs_state s) cwd)));;
  fs ← kof (vn_fs (vfs_state s) cwd);
  name ← on_fs (fs_getvolname fs);
  name ← (if isnull name then vfs_getdevname fs else mret name);
  kassert (negb (isnull name));;
  name ← kof name;
  '(result, _, u) ← on_uspace (uiomove name 0 (Z.of_nat (length name)) u);
  '(result, u) ← (if negb (result =? 0) then mret (result, u) else
    '(result, _, u) ← on_uspace (uiomove [COLON] 0 1 u);
    if negb (result =? 0) then mret (result, u) else
    on_fs (vop_namefile cwd u));
  on_fs (vop_decref cwd);;
  mret (result, u).

(** ** Operations on path names (vfspath.c) *)

(** The first part of [vfs_open]: find or create the file. *)
Definition open_vnode (path : list Z) (openflags : Z) : K (vfs F) (Z * option loc) :=
  if negb (Z.land openflags O_CREAT =? 0) then
    let excl := negb (Z.land openflags O_EXCL =? 0) in
    '(result, dir, name) ← vfs_lookparent path (NAME_MAX + 1);
    if negb (result =? 0) then mret (result, None) else
    dir ← kof dir;
    '(result, vn) ← on_fs (vop_creat dir name excl);
    on_fs (vop_decref dir);;
    mret (result, vn)
  else vfs_lookup path.

Definition vfs_open (path : list Z) (openflags : Z) : K (vfs F) (Z * option loc) :=
  let how := Z.land openflags O_ACCMODE in
  let canwrite := if how =? O_RDONLY then Some false
                  else if (how =? O_WRONLY) || (how =? O_RDWR) then Some true else None in
  match canwrite with
  | None => mret (EINVAL, None)
  | Some canwrite =>
      '(result, vn) ← open_vnode path openflags;
      if negb (result =? 0) then mret (result, None) else
      kassert (negb (isnull vn));;
      vn ← kof vn;
      result ← on_fs (vop_open vn openflags);
      if negb (result =? 0) then on_fs (vop_decref vn);; mret (result, None) else
      on_fs (vop_incopen vn);;
      result ← (if negb (Z.land openflags O_TRUNC =? 0) then
                  if negb canwrite then mret EINVAL else on_fs (vop_truncate vn 0)
                else mret 0);
      if negb (result =? 0) then
        on_fs (vop_decopen vn);;
        on_fs (vop_decref vn);;
        mret (result, None)
      else mret (0, Some vn)
  end.

Definition vfs_close (vn : loc) : K (vfs F) unit :=
  on_fs (vop_decopen vn);;
  on_fs (vop_decref vn).

Definition vfs_remove (path : list Z) : K (vfs F) Z :=
  '(result, dir, name) ← vfs_lookparent path (NAME_MAX + 1);
  if negb (result =? 0) then mret result else
  dir ← kof dir;
  result ← on_fs (vop_remove dir name);
  on_fs (vop_decref dir);;
  mret result.

(** The two vnodes are on the same file system. *)
Definition same_fs (a b : loc) : K (vfs F) bool :=
  s ← kget;
  mret (negb (isnull (vn_fs (vfs_state s) a) || isnull (vn_fs (vfs_state s) b)
              || negb (bool_decide (vn_fs (vfs_state s) a = vn_fs (vfs_state s) b)))).

Definition vfs_rename (oldpath newpath : list Z) : K (vfs F) Z :=
  '(result, olddir, oldname) ← vfs_lookparent oldpath (NAME_MAX + 1);
  if negb (result =? 0) then mret result else
  olddir ← kof olddir;
  '(result, newdir, newname) ← vfs_lookparent newpath (NAME_MAX + 1);
  if negb (result =? 0) then on_fs (vop_decref olddir);; mret result else
  newdir ← kof newdir;
  same ← same_fs olddir newdir;
  if negb same then on_fs (vop_decref newdir);; on_fs (vop_decref olddir);; mret EXDEV else
  result ← on_fs (vop_rename olddir oldname newdir newname);
  on_fs (vop_decref newdir);;
  on_fs (vop_decref olddir);;
  mret result.

Definition vfs_link (oldpath newpath : list Z) : K (vfs F) Z :=
  '(result, oldfile) ← vfs_lookup oldpath;
  if negb (result =? 0) then mret result else
  oldfile ← kof oldfile;
  '(result, newdir, newname) ← vfs_lookparent newpath (NAME_MAX + 1);
  if negb (result =? 0) then on_fs (vop_decref oldfile);; mret result else
  newdir ← kof newdir;
  same ← same_fs oldfile newdir;
  if negb same then on_fs (vop_decref newdir);; on_fs (vop_decref oldfile);; mret EXDEV else
  result ← on_fs (vop_link newdir newname oldfile);
  on_fs (vop_decref newdir);;
  on_fs (vop_decref oldfile);;
  mret result.

(** The macro is called with the name first. *)
Definition vfs_symlink (contents path : list Z) : K (vfs F) Z :=
  '(result, newdir, newname) ← vfs_lookparent path (NAME_MAX + 1);
  if negb (result =? 0) then mret result else
  newdir ← kof newdir;
  result ← on_fs (vop_symlink newdir newname contents);
  on_fs (vop_decref newdir);;
  mret result.

Definition vfs_readlink (path : list Z) (u : uio) : K (vfs F) (Z * uio) :=
  '(result, vn) ← vfs_lookup path;
  if negb (result =? 0) then mret (result, u) else
  vn ← kof vn;
  '(result, u) ← on_fs (vop_readlink vn u);
  on_fs (vop_decref vn);;
  mret (result, u).

Definition vfs_mkdir (path : list Z) : K (vfs F) Z :=
  '(result, parent, name) ← vfs_lookparent path (NAME_MAX + 1);
  if negb (result =? 0) then mret result else
  parent ← kof parent;
  result ← on_fs (vop_mkdir parent name);
  on_fs (vop_decref parent);;
  mret result.

Definition vfs_rmdir (path : list Z) : K (vfs F) Z :=
  '(result, parent, name) ← vfs_lookparent path (NAME_MAX + 1);
  if negb (result =? 0) then mret result else
  parent ← kof parent;
  result ← on_fs (vop_rmdir parent name);
  on_fs (vop_decref parent);;
  mret result.
End vfs.
