(* ===== verification/VfsSpec.v ===== *)
(** * The contract of file systems and what the VFS layer does under it

    [VnodeLaws] states what kern/include/vnode.h, fs.h and dev.h document of
    the operations the layer calls: which of them hand back a new reference,
    and that the others change no count.  Under these laws every operation of
    the layer is shown to change the counts of references and of opens by
    exactly what it answers.

    The laws also say that the operations do not panic, whatever memory there
    is.  Device vnodes meet them (DeviceProps.v), and those have no file
    systems.  SFS does not meet [law_getroot]: [sfs_getroot] panics when the
    root vnode cannot be loaded for lack of memory, so this contract is not
    instantiated with SFS. *)

From S2P Require Import Prelude Array Bitmap CopyInOut Uio Lhd SfsDisk SfsFile SfsVnode SfsTable Vfs.

(** ** Changes of counts *)

Definition zero (x : loc) : Z := 0.
Definition one (v x : loc) : Z := if decide (x = v) then 1 else 0.
Definition less (v x : loc) : Z := - one v x.

Lemma one_eq v : one v v = 1.
Proof. unfold one. by rewrite decide_True. Qed.

Lemma one_range v x : 0 ≤ one v x ≤ 1.
Proof. unfold one. case_decide; lia. Qed.

(** ** The contract *)

Class VnodeLaws (F : Type) `{!Vnodes F} : Type := {
  refs : F → loc → Z;
  opens : F → loc → Z;
  fs_live : F → Z → Prop;
  volname : F → Z → option (list Z);
  vinv : F → Prop;
  step (f f' : F) (d o : loc → Z) : Prop :=
    vinv f' ∧ (∀ x, refs f' x = refs f x + d x ∧ opens f' x = opens f x + o x) ∧
    (∀ x, 1 ≤ refs f x → 1 ≤ refs f' x → vn_fs f' x = vn_fs f x) ∧
    (∀ fs, fs_live f fs → fs_live f' fs ∧ volname f' fs = volname f fs);
  law_nonneg f x : vinv f → 0 ≤ opens f x ≤ refs f x;
  law_live f x fs : vinv f → 1 ≤ refs f x → vn_fs f x = Some fs → fs_live f fs;
  law_incref f v m : vinv f → 1 ≤ refs f v < MAXREF →
    wp (vop_incref v) (λ _ w, step f (wst w) (one v) zero) (World f m);
  law_decref f v m : vinv f → opens f v < refs f v →
    wp (vop_decref v) (λ _ w, step f (wst w) (less v) zero) (World f m);
  law_incopen f v m : vinv f → opens f v < refs f v < MAXREF →
    wp (vop_incopen v) (λ _ w, step f (wst w) zero (one v)) (World f m);
  law_decopen f v m : vinv f → 1 ≤ opens f v →
    wp (vop_decopen v) (λ _ w, step f (wst w) zero (less v)) (World f m);
  law_open f v flags m : vinv f → 1 ≤ refs f v →
    wp (vop_open v flags) (λ _ w, step f (wst w) zero zero) (World f m);
  (** Only file systems have directories. *)
  law_gettype f v m : vinv f → 1 ≤ refs f v →
    wp (vop_gettype v) (λ '(r, t) w, step f (wst w) zero zero ∧
      (r = 0 → S_ISDIR t = true → vn_fs f v ≠ None)) (World f m);
  law_truncate f v m : vinv f → 1 ≤ refs f v →
    wp (vop_truncate v 0) (λ _ w, step f (wst w) zero zero) (World f m);
  law_remove f v n m : vinv f → 1 ≤ refs f v →
    wp (vop_remove v n) (λ _ w, step f (wst w) zero zero) (World f m);
  law_mkdir f v n m : vinv f → 1 ≤ refs f v →
    wp (vop_mkdir v n) (λ _ w, step f (wst w) zero zero) (World f m);
  law_rmdir f v n m : vinv f → 1 ≤ refs f v →
    wp (vop_rmdir v n) (λ _ w, step f (wst w) zero zero) (World f m);
  law_symlink f v n c m : vinv f → 1 ≤ refs f v →
    wp (vop_symlink v n c) (λ _ w, step f (wst w) zero zero) (World f m);
  law_link f v n u m : vinv f → 1 ≤ refs f v → 1 ≤ refs f u → vn_fs f v = vn_fs f u →
    wp (vop_link v n u) (λ _ w, step f (wst w) zero zero) (World f m);
  law_rename f v n u n' m : vinv f → 1 ≤ refs f v → 1 ≤ refs f u → vn_fs f v = vn_fs f u →
    wp (vop_rename v n u n') (λ _ w, step f (wst w) zero zero) (World f m);
  (** "Should increment refcount on vnode handed back." *)
  law_creat f v n excl m : vinv f → 1 ≤ refs f v → (∀ x, refs f x < MAXREF) →
    wp (vop_creat v n excl) (λ '(r, o) w,
      if r =? 0 then ∃ u, o = Some u ∧ step f (wst w) (one u) zero
      else step f (wst w) zero zero) (World f m);
  law_lookup f v path m : vinv f → 1 ≤ refs f v → (∀ x, refs f x < MAXREF) →
    wp (vop_lookup v path) (λ '(r, o) w,
      if r =? 0 then ∃ u, o = Some u ∧ step f (wst w) (one u) zero
      else step f (wst w) zero zero) (World f m);
  law_lookparent f v path len m : vinv f → 1 ≤ refs f v → (∀ x, refs f x < MAXREF) →
    wp (vop_lookparent v path len) (λ '(r, o, _) w,
      if r =? 0 then ∃ u, o = Some u ∧ step f (wst w) (one u) zero
      else step f (wst w) zero zero) (World f m);
  law_getroot f fs m : vinv f → fs_live f fs → (∀ x, refs f x < MAXREF) →
    wp (fs_getroot fs) (λ v w, step f (wst w) (one v) zero ∧ vn_fs (wst w) v = Some fs) (World f m);
  law_getvolname f fs m : vinv f → fs_live f fs →
    wp (fs_getvolname fs) (λ n w, n = volname f fs ∧ wst w = f ∧ wmem w `suffix_of` m) (World f m);
  law_sync f fs m : vinv f → fs_live f fs →
    wp (fs_sync fs) (λ _ w, step f (wst w) zero zero) (World f m);
  (** After a successful unmount the file system is gone. *)
  law_unmount f fs m : vinv f → fs_live f fs →
    wp (fs_unmount fs) (λ r w, vinv (wst w) ∧
      (∀ x, refs (wst w) x = refs f x ∧ opens (wst w) x = opens f x) ∧
      (∀ x, 1 ≤ refs f x → vn_fs (wst w) x = vn_fs f x) ∧
      (∀ fs', fs_live f fs' → r ≠ 0 ∨ fs' ≠ fs →
         fs_live (wst w) fs' ∧ volname (wst w) fs' = volname f fs')) (World f m);
  dev_valid : F → Z → Prop;
  (** The vnode of a device is new; its creation panics without memory for
      the lock. *)
  law_dev_vnode f d m : vinv f → dev_valid f d → false ∉ m →
    wp (dev_vnode (Some d)) (λ o w, false ∉ wmem w ∧
      ∃ v, o = Some v ∧ refs f v = 0 ∧ step f (wst w) (one v) zero) (World f m)
}.

Lemma in_option_list {A} (o : option A) x : x ∈ option_list o ↔ o = Some x.
Proof. destruct o; cbn; rewrite ?list_elem_of_singleton, ?elem_of_nil; naive_solver. Qed.

Section spec.
Context {F : Type} `{!Vnodes F, !VnodeLaws F}.
Implicit Types s : vfs F.
Implicit Types f : F.

(** ** Steps of the whole layer *)

(** The table and the two directories stay, the counts change by [d], [o]. *)
Record vstep (s s' : vfs F) (d o : loc → Z) : Prop := VStep {
  vs_step : step (vfs_state s) (vfs_state s') d o;
  vs_devs : knowndevs s' = knowndevs s;
  vs_heap : kd_heap s' = kd_heap s;
  vs_kl : knowndevs_lock s' = knowndevs_lock s;
  vs_boot : bootfs_vnode s' = bootfs_vnode s;
  vs_bl : bootfs_lock s' = bootfs_lock s;
  vs_cwd : t_cwd s' = t_cwd s
}.

Abbreviation vrefs s := (refs (vfs_state s)).
Abbreviation vopens s := (opens (vfs_state s)).

Lemma step_refl f : vinv f → step f f zero zero.
Proof. intros Hi. unfold step, zero. split_and!; auto with lia. Qed.

Lemma step_trans f f1 f2 d1 o1 d2 o2 d o :
  step f f1 d1 o1 → step f1 f2 d2 o2 → (∀ x, 0 ≤ d1 x) →
  (∀ x, d x = d1 x + d2 x) → (∀ x, o x = o1 x + o2 x) → step f f2 d o.
Proof.
  intros (Hi1 & Hc1 & Hf1 & Hl1) (Hi2 & Hc2 & Hf2 & Hl2) Hd1 Hd Ho. unfold step.
  split_and!; [done|..].
  - intros x. destruct (Hc1 x), (Hc2 x). rewrite Hd, Ho. lia.
  - intros x H1 H2. destruct (Hc1 x). specialize (Hd1 x). rewrite Hf2, Hf1; lia || done.
  - intros fs Hfs. destruct (Hl1 _ Hfs) as (H1 & E1). destruct (Hl2 _ H1) as (H2 & E2).
    split; congruence.
Qed.

Lemma vstep_refl s : vinv (vfs_state s) → vstep s s zero zero.
Proof. intros. split; try done. by apply step_refl. Qed.

Lemma vstep_trans s s1 s2 d1 o1 d2 o2 d o :
  vstep s s1 d1 o1 → vstep s1 s2 d2 o2 → (∀ x, 0 ≤ d1 x) →
  (∀ x, d x = d1 x + d2 x) → (∀ x, o x = o1 x + o2 x) → vstep s s2 d o.
Proof.
  intros [] []. intros. split; try congruence. by eapply step_trans.
Qed.

Lemma vstep_refs s s' d o x : vstep s s' d o → vrefs s' x = vrefs s x + d x.
Proof. intros [(_ & Hc & _) _ _ _ _ _ _]. apply Hc. Qed.

Lemma vstep_opens s s' d o x : vstep s s' d o → vopens s' x = vopens s x + o x.
Proof. intros [(_ & Hc & _) _ _ _ _ _ _]. apply Hc. Qed.

Lemma vstep_inv s s' d o : vstep s s' d o → vinv (vfs_state s').
Proof. by intros [(? & _) _ _ _ _ _ _]. Qed.

Lemma vstep_set s f d o : step (vfs_state s) f d o → vstep s (set_state f s) d o.
Proof. intros. by split. Qed.

(** ** Well-formed states *)

Record kd_ok (f : F) (kd : knowndev) : Prop := KdOk {
  kd_fs_ok fs : kd_fs kd = Some fs → fs_live f fs;
  kd_raw_ok : kd_rawname kd ≠ None → kd_device kd ≠ None;
  kd_plain_ok : kd_rawname kd = None → kd_fs kd = None → kd_device kd ≠ None
}.

Definition ocount (o : option loc) (x : loc) : Z := match o with Some v => one v x | None => 0 end.

(** The references the layer holds itself: the current directory, the boot file
    system and one for every device. *)
Fixpoint devs_own (h : gmap loc knowndev) (ps : list loc) (x : loc) : Z :=
  match ps with
  | [] => 0
  | p :: ps => ocount (kd_vnode <$> h !! p) x + devs_own h ps x
  end.

Definition own (s : vfs F) (ps : list loc) (x : loc) : Z :=
  ocount (t_cwd s) x + ocount (bootfs_vnode s) x + devs_own (kd_heap s) ps x.

Lemma ocount_range o x : 0 ≤ ocount o x ≤ 1.
Proof. destruct o; [apply one_range|done]. Qed.

Lemma devs_own_nonneg h ps x : 0 ≤ devs_own h ps x.
Proof.
  induction ps as [|p ps IH]; cbn; [done|]. pose proof (ocount_range (kd_vnode <$> h !! p) x). lia.
Qed.

Lemma devs_own_in h ps p kd : p ∈ ps → h !! p = Some kd → 1 ≤ devs_own h ps (kd_vnode kd).
Proof.
  intros Hp Hkd. induction ps as [|q ps IH]; [by apply not_elem_of_nil in Hp|]. cbn.
  apply elem_of_cons in Hp as [<-|Hp].
  - rewrite Hkd. cbn. rewrite one_eq. pose proof (devs_own_nonneg h ps (kd_vnode kd)). lia.
  - pose proof (ocount_range (kd_vnode <$> h !! q) (kd_vnode kd)). specialize (IH Hp). lia.
Qed.

Record good (s : vfs F) (ps : list loc) : Prop := Good {
  gd_inv : vinv (vfs_state s);
  gd_kl : knowndevs_lock s = false;
  gd_bl : bootfs_lock s = false;
  gd_array : array_rep (knowndevs s) (Some <$> ps);
  gd_in p : p ∈ ps → is_Some (kd_heap s !! p);
  gd_kd p kd : p ∈ ps → kd_heap s !! p = Some kd → kd_ok (vfs_state s) kd;
  gd_own x : vopens s x + own s ps x ≤ vrefs s x;
  gd_cwd v : t_cwd s = Some v → vn_fs (vfs_state s) v ≠ None;
  gd_apart p q kd kd' fs : p ∈ ps → q ∈ ps → kd_heap s !! p = Some kd → kd_heap s !! q = Some kd' →
    kd_fs kd = Some fs → kd_fs kd' = Some fs → p = q
}.

Lemma good_alive s ps x : good s ps → 1 ≤ own s ps x → 1 ≤ vrefs s x.
Proof. intros Hg Ho. pose proof (gd_own _ _ Hg x). pose proof (law_nonneg _ x (gd_inv _ _ Hg)). lia. Qed.

Lemma own_cwd s ps v : t_cwd s = Some v → 1 ≤ own s ps v.
Proof.
  intros Hv. unfold own. rewrite Hv. cbn. rewrite one_eq.
  pose proof (ocount_range (bootfs_vnode s) v). pose proof (devs_own_nonneg (kd_heap s) ps v). lia.
Qed.

Lemma own_boot s ps v : bootfs_vnode s = Some v → 1 ≤ own s ps v.
Proof.
  intros Hv. unfold own. rewrite Hv. cbn. rewrite one_eq.
  pose proof (ocount_range (t_cwd s) v). pose proof (devs_own_nonneg (kd_heap s) ps v). lia.
Qed.

Lemma own_kd s ps p kd : p ∈ ps → kd_heap s !! p = Some kd → 1 ≤ own s ps (kd_vnode kd).
Proof.
  intros Hp Hkd. unfold own. pose proof (devs_own_in _ _ _ _ Hp Hkd).
  pose proof (ocount_range (t_cwd s) (kd_vnode kd)).
  pose proof (ocount_range (bootfs_vnode s) (kd_vnode kd)). lia.
Qed.

Lemma kd_ok_step f f' d o kd : step f f' d o → kd_ok f kd → kd_ok f' kd.
Proof. intros (_ & _ & _ & Hl) [Hf Hr Hp]. split; [|done..]. intros fs Hfs. by apply Hl, Hf. Qed.

Lemma vstep_own s s' d o ps x : vstep s s' d o → own s' ps x = own s ps x.
Proof. intros [_ _ Hh _ Hb _ Hc]. unfold own. by rewrite Hh, Hb, Hc. Qed.

Lemma good_step s s' d o ps : good s ps → vstep s s' d o → (∀ x, 0 ≤ d x ∧ o x ≤ d x) → good s' ps.
Proof.
  intros Hg Hv Hd. pose proof Hg as [Hi Hk Hb Ha Hin Hkd Ho Hc Hap].
  pose proof Hv as [(Hi' & Hcnt & Hfs & Hl) E1 E2 E3 E4 E5 E6].
  split; [done|congruence|congruence|by rewrite E1|by rewrite E2|..].
  - rewrite E2. intros p kd Hp Hkp. eapply kd_ok_step; [|by eapply Hkd]. by apply Hv.
  - intros x. rewrite (vstep_own _ _ _ _ _ _ Hv). destruct (Hcnt x). specialize (Ho x). specialize (Hd x). lia.
  - rewrite E6. intros v Hv'. rewrite Hfs; [by apply Hc|..].
    + by eapply good_alive, own_cwd.
    + destruct (Hcnt v). specialize (Hd v). pose proof (good_alive _ _ v Hg (own_cwd _ _ _ Hv')). lia.
  - by rewrite E2.
Qed.

(** ** Calls into file systems *)

Lemma on_fs_wp {A} (c : K F A) s m (Q : A → world (vfs F) → Prop) (R : A → world F → Prop) :
  wp c R (World (vfs_state s) m) →
  (∀ a f m', R a (World f m') → Q a (World (set_state f s) m')) → wp (on_fs c) Q (World s m).
Proof.
  intros Hc HQ. unfold on_fs. rewrite wp_zoom. eapply wp_mono; [exact Hc|].
  intros a [f m'] HR. by apply HQ.
Qed.

Lemma incref_spec s v m (Q : unit → world (vfs F) → Prop) :
  vinv (vfs_state s) → 1 ≤ vrefs s v < MAXREF →
  (∀ s' m', vstep s s' (one v) zero → Q tt (World s' m')) →
  wp (on_fs (vop_incref v)) Q (World s m).
Proof.
  intros Hi Hv HQ. eapply on_fs_wp; [by apply (law_incref _ v)|].
  intros [] f m' Hs. by apply HQ, vstep_set.
Qed.

(** A temporary reference, taken since [s0], is dropped. *)
Lemma decref_spec s0 s v d m (Q : unit → world (vfs F) → Prop) :
  vinv (vfs_state s0) → vstep s0 s d zero → (∀ x, one v x ≤ d x) →
  (∀ s' m', vstep s0 s' (λ x, d x - one v x) zero → Q tt (World s' m')) →
  wp (on_fs (vop_decref v)) Q (World s m).
Proof.
  intros Hi Hs Hd HQ. eapply on_fs_wp.
  - apply (law_decref _ v); [by eapply vstep_inv|].
    rewrite (vstep_refs _ _ _ _ _ Hs), (vstep_opens _ _ _ _ _ Hs).
    pose proof (law_nonneg _ v Hi). specialize (Hd v). rewrite one_eq in Hd. unfold zero. lia.
  - intros [] f m' Hst. apply HQ. eapply vstep_trans; [done|by apply vstep_set|..].
    + intros x. specialize (Hd x). pose proof (one_range v x). lia.
    + intros x. unfold less. lia.
    + done.
Qed.

(** ** The table of devices *)

Lemma set_knowndevs_id s : set_knowndevs (knowndevs s) s = s.
Proof. by destruct s. Qed.

Lemma getnum_spec s ps m (Q : Z → world (vfs F) → Prop) :
  array_rep (knowndevs s) (Some <$> ps) → Q (Z.of_nat (length ps)) (World s m) →
  wp (on_devs array_getnum) Q (World s m).
Proof.
  intros (Hnum & _) HQ. unfold on_devs, array_getnum. rewrite wp_zoom, wp_bind, wp_kget, wp_ret.
  cbn [wst wmem]. by rewrite set_knowndevs_id, Hnum, length_fmap.
Qed.

Lemma getguy_spec s ps i p m (Q : loc → world (vfs F) → Prop) :
  array_rep (knowndevs s) (Some <$> ps) → lget ps i = Some p → Q p (World s m) →
  wp (on_devs (array_getguy i)) Q (World s m).
Proof.
  intros Ha Hi HQ. pose proof (lget_Some_range _ _ _ Hi) as Hr. unfold on_devs. rewrite wp_zoom.
  eapply array_getguy_spec; [done|exact Ha| |].
  - rewrite lget_lookup in Hi by lia. rewrite lget_lookup by lia. by rewrite list_lookup_fmap, Hi.
  - cbn [wst wmem]. by rewrite set_knowndevs_id.
Qed.

Lemma each_dev_world {R} (I : nat → world (vfs F) → Prop) (body : loc → K (vfs F) (unit + R)) ps w
    (Q : unit + R → world (vfs F) → Prop) :
  (∀ i w', I i w' → array_rep (knowndevs (wst w')) (Some <$> ps)) →
  I 0%nat w →
  (∀ i p w', ps !! i = Some p → I i w' →
     wp (body p) (λ r w, match r with inl _ => I (S i) w | inr x => Q (inr x) w end) w') →
  (∀ w', I (length ps) w' → Q (inl tt) w') →
  wp (each_dev body) Q w.
Proof.
  intros HI H0 Hstep Hend. unfold each_dev. rewrite wp_bind. destruct w as [s m].
  eapply getnum_spec; [exact (HI _ _ H0)|]. rewrite Nat2Z.id.
  apply (wp_kfind (λ i _ w, ∃ n, i = Z.of_nat n ∧ (n ≤ length ps)%nat ∧ I n w)).
  - exists 0%nat. split_and!; [done|lia|done].
  - intros i [] [s' m'] Hi (n & -> & Hn & HIn).
    destruct (lookup_lt_is_Some_2 ps n) as (p & Hp); [lia|].
    rewrite wp_bind. eapply getguy_spec; [exact (HI _ _ HIn)|by rewrite lget_of_nat|].
    eapply wp_mono; [by eapply Hstep|]. intros [[]|x] w HQ; [|done].
    exists (S n). split_and!; [lia|lia|done].
  - intros [] w (n & En & Hn & HIn). apply Hend. replace (length ps) with n by lia. done.
Qed.

Lemma each_dev_spec {R} (I : nat → vfs F → Prop) (body : loc → K (vfs F) (unit + R)) ps s m
    (Q : unit + R → world (vfs F) → Prop) :
  (∀ i s', I i s' → array_rep (knowndevs s') (Some <$> ps)) →
  I 0%nat s →
  (∀ i p s' m', ps !! i = Some p → I i s' →
     wp (body p) (λ r w, match r with inl _ => I (S i) (wst w) | inr x => Q (inr x) w end)
        (World s' m')) →
  (∀ s' m', I (length ps) s' → Q (inl tt) (World s' m')) →
  wp (each_dev body) Q (World s m).
Proof.
  intros HI H0 Hstep Hend. apply (each_dev_world (λ i w, I i (wst w)) _ ps); [by intros; eapply HI|done|..].
  - intros i p [s' m']. apply Hstep.
  - intros [s' m']. apply Hend.
Qed.

(** All names of a device. *)
Definition kd_names (f : F) (kd : knowndev) : list (list Z) :=
  kd_name kd :: option_list (kd_rawname kd) ++
  match kd_fs kd with Some fs => option_list (volname f fs) | None => [] end.

(** What naming a device answers: its file system, the device itself, or that
    nothing is mounted. *)
Inductive answer : Type := ARoot (fs : Z) | ADevice (v : loc) | ANotMounted.

Definition kd_answer (kd : knowndev) (f : F) (n : list Z) : option answer :=
  match kd_fs kd with
  | Some fs =>
      if decide (kd_name kd = n ∨ volname f fs = Some n) then Some (ARoot fs)
      else if decide (kd_rawname kd = Some n) then Some (ADevice (kd_vnode kd)) else None
  | None =>
      if decide (kd_name kd = n) then
        Some (match kd_rawname kd with Some _ => ANotMounted | None => ADevice (kd_vnode kd) end)
      else if decide (kd_rawname kd = Some n) then Some (ADevice (kd_vnode kd)) else None
  end.

Lemma kd_answer_names kd f n : is_Some (kd_answer kd f n) ↔ n ∈ kd_names f kd.
Proof.
  unfold kd_answer, kd_names. rewrite elem_of_cons, elem_of_app, in_option_list.
  destruct (kd_fs kd) as [fs|]; [rewrite in_option_list|rewrite elem_of_nil];
    repeat case_decide; unfold is_Some; naive_solver.
Qed.

(** The answer of the first device with the name. *)
Definition names_answer (f : F) (kds : list knowndev) (n : list Z) : option answer :=
  head (omap (λ kd, kd_answer kd f n) kds).

Lemma kd_acquire_spec s m (Q : unit → world (vfs F) → Prop) :
  knowndevs_lock s = false → Q tt (World (set_kd_lock true s) m) → wp kd_acquire Q (World s m).
Proof. intros Hl HQ. unfold kd_acquire. rewrite wp_bind, wp_kget. cbn [wst]. by rewrite Hl, wp_kput. Qed.

Lemma kd_release_spec s m (Q : unit → world (vfs F) → Prop) :
  Q tt (World (set_kd_lock false s) m) → wp kd_release Q (World s m).
Proof. intros HQ. unfold kd_release. by rewrite wp_bind, wp_kget, wp_kput. Qed.

Lemma getkd_spec s p kd m (Q : knowndev → world (vfs F) → Prop) :
  kd_heap s !! p = Some kd → Q kd (World s m) → wp (getkd p) Q (World s m).
Proof. intros Hp HQ. unfold getkd. rewrite wp_bind, wp_kget. cbn [wst]. by rewrite Hp, wp_kof_Some. Qed.

(** The devices behind the pointers. *)
Definition devs_at (s : vfs F) (ps : list loc) (kds : list knowndev) : Prop :=
  Forall2 (λ p kd, kd_heap s !! p = Some kd) ps kds.

Lemma good_devs s ps : good s ps → ∃ kds, devs_at s ps kds.
Proof.
  intros Hg. assert (∀ p, p ∈ ps → ∃ kd, kd_heap s !! p = Some kd) as Hin by apply Hg.
  clear Hg. induction ps as [|p ps IH]; [exists []; constructor|].
  destruct (Hin p) as (kd & Hkd); [by left|]. destruct IH as (kds & Hkds); [intros; apply Hin; by right|].
  exists (kd :: kds). by constructor.
Qed.

Lemma getvolname_spec s fs m (Q : option (list Z) → world (vfs F) → Prop) :
  vinv (vfs_state s) → fs_live (vfs_state s) fs →
  (∀ m', m' `suffix_of` m → Q (volname (vfs_state s) fs) (World s m')) →
  wp (on_fs (fs_getvolname fs)) Q (World s m).
Proof.
  intros Hi Hl HQ. eapply on_fs_wp; [by apply law_getvolname|]. intros n f m' (-> & Hf & Hm).
  cbn [wst] in Hf. subst f. replace (set_state (vfs_state s) s) with s by (by destruct s). by apply HQ.
Qed.

(** What [vfs_getroot] does with an answer. *)
Definition hit (s : vfs F) (a : answer) (Q : Z * option loc → world (vfs F) → Prop) : Prop :=
  match a with
  | ARoot fs => ∀ v f m, step (vfs_state s) f (one v) zero → vn_fs f v = Some fs →
                  Q (0, Some v) (World (set_state f s) m)
  | ADevice v => ∀ f m, step (vfs_state s) f (one v) zero → Q (0, Some v) (World (set_state f s) m)
  | ANotMounted => ∀ m, Q (ENXIO, None) (World s m)
  end.

Lemma streq_spec a b : streq a b = true ↔ a = b.
Proof. apply bool_decide_eq_true. Qed.

Lemma streq_false a b : a ≠ b → streq a b = false.
Proof. apply bool_decide_eq_false_2. Qed.

Lemma streq_refl a : streq a a = true.
Proof. by apply streq_spec. Qed.

Lemma hit_device s kd m (Q : unit + Z * option loc → world (vfs F) → Prop) :
  vinv (vfs_state s) → (∀ x, vrefs s x < MAXREF) → 1 ≤ vrefs s (kd_vnode kd) → kd_device kd ≠ None →
  hit s (ADevice (kd_vnode kd)) (λ x, Q (inr x)) →
  wp (kassert (negb (isnull (kd_device kd)));;
      on_fs (vop_incref (kd_vnode kd));;
      mret (inr (0, Some (kd_vnode kd)))) Q (World s m).
Proof.
  intros Hi Hm Hk Hd HQ. rewrite wp_bind, wp_kassert by (by destruct (kd_device kd)).
  rewrite wp_bind. eapply on_fs_wp; [by apply law_incref|].
  intros [] f m' Hs. rewrite wp_ret. by apply HQ.
Qed.

Lemma getroot_body_spec s p kd n m (Q : unit + Z * option loc → world (vfs F) → Prop) :
  vinv (vfs_state s) → (∀ x, vrefs s x < MAXREF) → kd_heap s !! p = Some kd → kd_ok (vfs_state s) kd →
  1 ≤ vrefs s (kd_vnode kd) →
  match kd_answer kd (vfs_state s) n with
  | None => ∀ m', Q (inl tt) (World s m')
  | Some a => hit s a (λ x, Q (inr x))
  end →
  wp (getroot_body n p) Q (World s m).
Proof.
  intros Hi Hm Hp Hk Hal HQ. unfold getroot_body. rewrite wp_bind. eapply getkd_spec; [done|].
  unfold kd_answer in HQ. rewrite wp_bind. destruct (kd_fs kd) as [fs|] eqn:Hfs.
  - pose proof (kd_fs_ok _ _ Hk _ Hfs) as Hl. rewrite wp_bind. apply getvolname_spec; [done|done|].
    intros m1 _. set (vol := volname (vfs_state s) fs) in *.
    assert (streq (kd_name kd) n || match vol with Some v => streq v n | None => false end
            = bool_decide (kd_name kd = n ∨ vol = Some n)) as ->.
    { apply eq_true_iff_eq. rewrite orb_true_iff, streq_spec, bool_decide_eq_true.
      destruct vol; [rewrite streq_spec|]; naive_solver. }
    destruct (decide (kd_name kd = n ∨ vol = Some n)) as [Hn|Hn].
    + rewrite bool_decide_eq_true_2 by done. rewrite wp_bind.
      eapply on_fs_wp; [by apply law_getroot|]. intros v f m2 (Hs & Hv). rewrite !wp_ret. by apply HQ.
    + rewrite bool_decide_eq_false_2 by done. rewrite wp_ret.
      rewrite streq_false by naive_solver. destruct (kd_rawname kd) as [r|] eqn:Hr.
      * destruct (decide (Some r = Some n)) as [[= ->]|Hrn].
        -- rewrite streq_refl. apply hit_device; [done..| |done]. apply (kd_raw_ok _ _ Hk). congruence.
        -- rewrite streq_false by congruence. by rewrite wp_ret.
      * rewrite decide_False in HQ by done. by rewrite wp_ret.
  - destruct (decide (kd_name kd = n)) as [->|Hn].
    + rewrite streq_refl, andb_true_r. destruct (kd_rawname kd) as [r|] eqn:Hr; cbn [isnull negb].
      * rewrite !wp_ret. by apply HQ.
      * rewrite wp_ret. do 2 rewrite wp_bind, wp_kassert by done.
        apply hit_device; [done..| |done]. by apply (kd_plain_ok _ _ Hk).
    + rewrite streq_false, andb_false_r, wp_ret by done. destruct (kd_rawname kd) as [r|] eqn:Hr.
      * destruct (decide (Some r = Some n)) as [[= ->]|Hrn].
        -- rewrite streq_refl. apply hit_device; [done..| |done]. apply (kd_raw_ok _ _ Hk). congruence.
        -- rewrite streq_false by congruence. by rewrite wp_ret.
      * rewrite decide_False in HQ by done. by rewrite wp_ret.
Qed.

(** The loop stops at the first device with the name. *)
Lemma vfs_getroot_spec s ps kds n m (Q : Z * option loc → world (vfs F) → Prop) :
  good s ps → devs_at s ps kds → (∀ x, vrefs s x < MAXREF) →
  match names_answer (vfs_state s) kds n with
  | None => ∀ m', Q (ENODEV, None) (World s m')
  | Some a => hit s a Q
  end →
  wp (vfs_getroot n) Q (World s m).
Proof.
  intros Hg Hd Hm HQ. unfold vfs_getroot. rewrite wp_bind. apply kd_acquire_spec; [apply Hg|].
  rewrite wp_bind. set (s1 := set_kd_lock true s).
  assert (∀ f, set_kd_lock false (set_state f s1) = set_state f s) as Hrel.
  { intros f. pose proof (gd_kl _ _ Hg) as Hkl. destruct s; cbn in *. by subst. }
  apply (each_dev_spec (λ i s', s' = s1 ∧ names_answer (vfs_state s) (take i kds) n = None) _ ps).
  - intros i s' (-> & _). apply Hg.
  - by split.
  - intros i p s' m' Hp (-> & Hno).
    destruct (Forall2_lookup_l _ _ _ _ _ Hd Hp) as (kd & Hi & Hkd).
    assert (names_answer (vfs_state s) (take (S i) kds) n =
            match kd_answer kd (vfs_state s) n with Some a => Some a | None => None end) as Hnext.
    { unfold names_answer in *. rewrite (take_S_r _ _ _ Hi), omap_app. cbn [omap list_omap].
      destruct (omap _ (take i kds)); [|done]. cbn [app]. by destruct (kd_answer kd _ n). }
    assert (∀ a, kd_answer kd (vfs_state s) n = Some a → names_answer (vfs_state s) kds n = Some a) as Hfound.
    { intros a Ha. rewrite Ha in Hnext. unfold names_answer in *.
      rewrite <- (take_drop (S i) kds), omap_app. destruct (omap _ (take (S i) kds)); [done|].
      by injection Hnext as ->. }
    apply list_elem_of_lookup_2 in Hp.
    apply (getroot_body_spec _ _ kd); [apply Hg|done|done|by eapply (gd_kd _ _ Hg)| |].
    + by eapply (good_alive s), own_kd.
    + change (vfs_state s1) with (vfs_state s).
      destruct (kd_answer kd (vfs_state s) n) as [a|] eqn:Ha; [|by intros; split].
      rewrite (Hfound _ eq_refl) in HQ. destruct a as [fs|v|]; cbn [hit] in *; intros;
        rewrite wp_bind; apply kd_release_spec; rewrite wp_ret; rewrite ?Hrel; try by apply HQ.
      replace (set_kd_lock false s1) with s; [apply HQ|].
      pose proof (gd_kl _ _ Hg) as Hkl. destruct s; cbn in *. by subst.
  - intros s' m' (-> & Hno). rewrite wp_bind. apply kd_release_spec. rewrite wp_ret.
    rewrite firstn_all2 in Hno by (by rewrite (Forall2_length _ _ _ Hd)). rewrite Hno in HQ.
    replace (set_kd_lock false s1) with s; [apply HQ|].
    pose proof (gd_kl _ _ Hg) as Hkl. destruct s; cbn in *. by subst.
Qed.
End spec.
