(* ===== verification/VfsPath.v ===== *)
(** * Path names and the operations on them

    [parse] says what a path name means: relative to the current directory, to
    a named device, to the boot file system or to the root of the current file
    system.  [getdevice] computes it with its two loops; on top of it every
    operation of vfslookup.c, vfscwd.c and vfspath.c is shown to change the
    counts of references and opens by exactly what it hands back. *)

From S2P Require Import Prelude Array Bitmap CopyInOut Uio Lhd SfsDisk SfsFile SfsVnode SfsTable Vfs VfsSpec.

(** ** Parsing *)

Inductive parsed : Type :=
| PRel
| PDev (dev rest : list Z)
| PBoot (rest : list Z)
| PCur (rest : list Z).

(** The text before the first colon or slash, that character, and the rest. *)
Fixpoint split_mark (l : list Z) : option (list Z * Z * list Z) :=
  match l with
  | [] => None
  | c :: l =>
      if (c =? COLON) || (c =? SLASH) then Some ([], c, l)
      else match split_mark l with
           | Some (dev, m, rest) => Some (c :: dev, m, rest)
           | None => None
           end
  end.

Fixpoint drop_slashes (l : list Z) : list Z :=
  match l with
  | c :: l' => if c =? SLASH then drop_slashes l' else l
  | [] => []
  end.

Definition parse (path : list Z) : parsed :=
  match split_mark path with
  | Some ([], m, rest) => (if m =? COLON then PCur else PBoot) (drop_slashes rest)
  | Some (dev, m, rest) => if m =? COLON then PDev dev (drop_slashes rest) else PRel
  | None => PRel
  end.

(** A C string: no character is NUL. *)
Definition nonul (l : list Z) : Prop := Forall (λ c, c ≠ 0) l.

Lemma char_at_app l l' : char_at (l ++ l') (Z.of_nat (length l)) = default 0 (head l').
Proof.
  unfold char_at. rewrite lget_of_nat, lookup_app_r, Nat.sub_diag by lia. by destruct l'.
Qed.

Lemma snoc_middle (pre : list Z) c rest : pre ++ c :: rest = (pre ++ [c]) ++ rest.
Proof. by rewrite <- app_assoc. Qed.

Section path.
Context {F : Type} `{!Vnodes F}.

(** The scan, from any position on. *)
Lemma scan_spec (w : world (vfs F)) rest : ∀ pre fuel,
  (length rest < fuel)%nat → nonul rest →
  kloop fuel (λ i, negb (char_at (pre ++ rest) i =? 0))
    (λ i, mret (if char_at (pre ++ rest) i =? COLON then inr (i, -1)
                else if char_at (pre ++ rest) i =? SLASH then inr (-1, i) else inl (i + 1)))
    (Z.of_nat (length pre)) w =
  Ok (match split_mark rest with
      | Some (dev, m, _) =>
          inr (if m =? COLON then (Z.of_nat (length pre + length dev), -1)
               else (-1, Z.of_nat (length pre + length dev)))
      | None => inl (Z.of_nat (length pre + length rest))
      end, w).
Proof.
  induction rest as [|c rest IH]; intros pre fuel Hf Hn; (destruct fuel as [|fuel]; [cbn in Hf; lia|]);
    rewrite kloop_unfold, char_at_app; cbn [head default from_option id].
  - cbn. by rewrite Nat.add_0_r.
  - apply Forall_cons in Hn as (Hc & Hn). rewrite (proj2 (Z.eqb_neq c 0) Hc). cbn [negb split_mark].
    unfold mbind, K_bind at 1. cbn [mret K_ret].
    destruct (Z.eqb_spec c COLON) as [->|Hcol]; [by cbn; rewrite Nat.add_0_r|].
    destruct (Z.eqb_spec c SLASH) as [->|Hsl]; [by cbn; rewrite Nat.add_0_r|]. cbn [orb].
    specialize (IH (pre ++ [c]) fuel). rewrite <- app_assoc, length_app in IH. cbn [app length] in IH.
    replace (Z.of_nat (length pre) + 1) with (Z.of_nat (length pre + 1)) by lia.
    rewrite IH by (done || cbn in Hf; lia).
    destruct (split_mark rest) as [[[dev m] r]|]; cbn [length]; by rewrite <- Nat.add_assoc.
Qed.

Lemma find_colon_slash_eq (w : world (vfs F)) path :
  nonul path →
  find_colon_slash path w =
  Ok (match split_mark path with
      | Some (dev, m, _) => if m =? COLON then (Z.of_nat (length dev), -1) else (-1, Z.of_nat (length dev))
      | None => (-1, -1)
      end, w).
Proof.
  intros Hn. unfold find_colon_slash, mbind, K_bind.
  pose proof (scan_spec w path [] (S (length path)) ltac:(lia) Hn) as E.
  cbn [app length plus] in E. change (Z.of_nat 0) with 0 in E.
  rewrite E. by destruct (split_mark path) as [[[dev m] r]|].
Qed.

Lemma skip_slashes_spec (w : world (vfs F)) rest : ∀ pre c fuel,
  (length rest < fuel)%nat →
  ∃ k, kwhile fuel (λ i, char_at (pre ++ c :: rest) (i + 1) =? SLASH) (λ i, mret (i + 1))
         (Z.of_nat (length pre)) w = Ok (k, w) ∧
       suffix_at (pre ++ c :: rest) (k + 1) = drop_slashes rest.
Proof.
  induction rest as [|c' rest IH]; intros pre c fuel Hf; (destruct fuel as [|fuel]; [cbn in Hf; lia|]);
    rewrite kwhile_unfold; cbv beta; rewrite (snoc_middle pre c);
    assert (Z.of_nat (length pre) + 1 = Z.of_nat (length (pre ++ [c]))) as ->
      by (rewrite length_app; cbn; lia);
    rewrite char_at_app; cbn [head default from_option id].
  - eexists. split; [done|]. unfold suffix_at. rewrite app_nil_r.
    apply drop_ge. rewrite length_app. cbn. lia.
  - destruct (Z.eqb_spec c' SLASH) as [->|Hne].
    + cbn [drop_slashes]. cbn [length] in Hf. apply (IH (pre ++ [c]) SLASH fuel). lia.
    + eexists. split; [done|]. unfold suffix_at.
      replace (Z.to_nat _) with (length (pre ++ [c])) by (rewrite length_app; cbn; lia).
      rewrite drop_app_length. cbn. by rewrite (proj2 (Z.eqb_neq _ _) Hne).
Qed.

(** ** Where a lookup starts *)

(** The vnode for a path name and the name to look up from there. *)
Definition start_of (path : list Z) (p : parsed) : K (vfs F) (Z * list Z * option loc) :=
  match p with
  | PRel => '(result, vn) ← vfs_getcurdir; mret (result, path, vn)
  | PDev dev rest =>
      '(result, vn) ← vfs_getroot dev;
      if negb (result =? 0) then mret (result, rest, None) else mret (0, rest, vn)
  | PBoot rest =>
      boot_acquire;;
      s ← kget;
      match bootfs_vnode s with
      | None => boot_release;; mret (ENOENT, path, None)
      | Some v => on_fs (vop_incref v);; boot_release;; mret (0, rest, Some v)
      end
  | PCur rest =>
      '(result, vn) ← vfs_getcurdir;
      if negb (result =? 0) then mret (result, path, None) else
      vn ← kof vn;
      s ← kget;
      kassert (negb (isnull (vn_fs (vfs_state s) vn)));;
      fs ← kof (vn_fs (vfs_state s) vn);
      root ← on_fs (fs_getroot fs);
      on_fs (vop_decref vn);;
      mret (0, rest, Some root)
  end.

Lemma split_mark_eq path dev m rest :
  split_mark path = Some (dev, m, rest) → path = dev ++ m :: rest ∧ (m = COLON ∨ m = SLASH).
Proof.
  revert dev. induction path as [|c path IH]; intros dev; [done|]. cbn [split_mark].
  destruct (Z.eqb_spec c COLON) as [->|]; [intros [= <- <- <-]; cbn; auto|].
  destruct (Z.eqb_spec c SLASH) as [->|]; [intros [= <- <- <-]; cbn; auto|]. cbn [orb].
  destruct (split_mark path) as [[[dev' m'] rest']|]; [|done]. intros [= <- <- <-].
  destruct (IH _ eq_refl) as (-> & ?). by split.
Qed.

(** Two programs with the same outcome from every world satisfy the same
    specifications. *)
Lemma wp_same {S A} (c c' : K S A) Q w : c w = c' w → wp c' Q w → wp c Q w.
Proof. unfold wp. by intros ->. Qed.

Lemma bind_ext {S A B} (c : K S A) (f g : A → K S B) w :
  (∀ a w', f a w' = g a w') → (c ≫= f) w = (c ≫= g) w.
Proof. intros Hfg. unfold mbind, K_bind. destruct (c w) as [[a w']| | |]; auto. Qed.

Lemma bind_assoc {S A B C} (c : K S A) (f : A → K S B) (g : B → K S C) w :
  ((c ≫= f) ≫= g) w = (c ≫= λ a, f a ≫= g) w.
Proof. unfold mbind, K_bind. by destruct (c w) as [[a w']| | |]. Qed.

Lemma bind_pure {S A B} (c : K S A) (f : A → K S B) w a w' : c w = Ok (a, w') → (c ≫= f) w = f a w'.
Proof. intros Hc. unfold mbind, K_bind. by rewrite Hc. Qed.

Lemma getdevice_eq path (w : world (vfs F)) :
  nonul path → getdevice path w = start_of path (parse path) w.
Proof.
  intros Hn. unfold getdevice. rewrite (bind_pure _ _ _ _ _ (find_colon_slash_eq w path Hn)).
  unfold parse. destruct (split_mark path) as [[[dev m] rest]|] eqn:E; [|done].
  destruct (split_mark_eq _ _ _ _ E) as (-> & Hm). destruct dev as [|c dev].
  - cbn [app length]. change (Z.of_nat 0) with 0.
    set (G := λ '(result, vn), if negb (result =? 0) then _ else _).
    assert (∀ vn (w' : world (vfs F)), G (0, vn) w' = Ok ((0, drop_slashes rest, vn), w')) as HG.
    { intros vn w'. unfold G. cbn [Z.eqb negb].
      destruct (skip_slashes_spec w' rest [] m (S (length (m :: rest)))) as (k & Hk & Hs); [cbn; lia|].
      rewrite (bind_pure _ _ _ _ _ Hk). unfold app in Hs. by rewrite Hs. }
    destruct Hm as [-> | ->].
    + change (COLON =? COLON) with true. cbn [Z.ltb Z.compare negb andb Z.eqb orb kassert].
      change (char_at (COLON :: rest) 0) with COLON. change (COLON =? SLASH) with false.
      change (COLON =? COLON) with true. cbn [start_of].
      rewrite !(bind_pure _ _ w tt w) by done. rewrite bind_assoc.
      rewrite !(bind_pure _ _ w tt w) by done. rewrite bind_assoc. apply bind_ext. intros [r vn] w1.
      destruct (r =? 0) eqn:Hr; cbn [negb].
      * rewrite bind_assoc. apply bind_ext. intros v w2. rewrite bind_assoc. apply bind_ext. intros s w3.
        rewrite bind_assoc. apply bind_ext. intros [] w4. rewrite bind_assoc. apply bind_ext. intros fs w5.
        rewrite bind_assoc. apply bind_ext. intros root w6. rewrite bind_assoc. apply bind_ext. intros [] w7.
        apply HG.
      * unfold mbind, K_bind, mret, K_ret, G. by rewrite Hr.
    + change (SLASH =? COLON) with false. cbn [Z.ltb Z.compare negb andb Z.eqb orb kassert].
      change (char_at (SLASH :: rest) 0) with SLASH. change (SLASH =? SLASH) with true.
      cbn [start_of]. rewrite !(bind_pure _ _ w tt w) by done. rewrite bind_assoc. apply bind_ext.
      intros [] w1. rewrite bind_assoc. apply bind_ext. intros s w2.
      destruct (bootfs_vnode s) as [v|].
      * rewrite bind_assoc. apply bind_ext. intros [] w3. rewrite bind_assoc. apply bind_ext. intros [] w4.
        apply HG.
      * rewrite bind_assoc. apply bind_ext. by intros [] w3.
  - destruct Hm as [-> | ->].
    + change (COLON =? COLON) with true. cbn iota.
      replace (Z.of_nat (length (c :: dev)) <? 0) with false by (symmetry; apply Z.ltb_ge; lia).
      replace (0 <? Z.of_nat (length (c :: dev))) with true by (symmetry; apply Z.ltb_lt; cbn; lia).
      cbn [andb]. rewrite Nat2Z.id, take_app_length.
      destruct (skip_slashes_spec w rest (c :: dev) COLON (S (length ((c :: dev) ++ COLON :: rest))))
        as (k & Hk & Hs); [rewrite length_app; cbn; lia|].
      rewrite (bind_pure _ _ _ _ _ Hk), Hs. done.
    + change (SLASH =? COLON) with false. cbn iota. change (-1 <? 0) with true.
      replace (Z.of_nat (length (c :: dev)) =? 0) with false by (symmetry; apply Z.eqb_neq; cbn; lia).
      done.
Qed.
End path.

(** ** Counting references *)

(** Decide the test of an error code that is a constant. *)
Ltac zcode :=
  repeat match goal with
  | |- context [?e =? 0] =>
      let b := eval vm_compute in (e =? 0) in
      match b with true => idtac | false => idtac end; change (e =? 0) with b
  end; cbn [negb].

(** Equations and bounds between changes of counts. *)
Ltac counts :=
  let x := fresh "x" in
  intros x; cbv beta; unfold zero, less;
  repeat match goal with
  | |- context [one ?v x] =>
      lazymatch goal with _ : 0 ≤ one v x ≤ 1 |- _ => fail | _ => pose proof (one_range v x) end
  end; lia.

Section count.
Context {F : Type} `{!Vnodes F, !VnodeLaws F}.
Implicit Types s : vfs F.

Abbreviation vrefs s := (refs (vfs_state s)).
Abbreviation vopens s := (opens (vfs_state s)).

(** [k] more references can be counted. *)
Definition room (s : vfs F) (k : Z) : Prop := ∀ x, vrefs s x + k ≤ MAXREF.

Lemma room_step s s' d o k j :
  room s k → vstep s s' d o → (∀ x, d x + j ≤ k) → room s' j.
Proof. intros Hr Hs Hd x. rewrite (vstep_refs _ _ _ _ _ Hs). specialize (Hr x). specialize (Hd x). lia. Qed.

Lemma getcurdir_spec s ps m (Q : Z * option loc → world (vfs F) → Prop) :
  good s ps → room s 1 →
  (t_cwd s = None → Q (ENOENT, None) (World s m)) →
  (∀ v s' m', t_cwd s = Some v → vstep s s' (one v) zero → Q (0, Some v) (World s' m')) →
  wp vfs_getcurdir Q (World s m).
Proof.
  intros Hg Hr Hno Hyes. unfold vfs_getcurdir. rewrite wp_bind, wp_kget. cbn [wst].
  destruct (t_cwd s) as [v|] eqn:Hc; [|rewrite wp_ret; by apply Hno]. rewrite wp_bind.
  pose proof (good_alive _ _ v Hg (own_cwd _ _ _ Hc)) as Hv.
  apply incref_spec; [apply Hg|specialize (Hr v); lia|].
  intros s' m' Hs. rewrite wp_ret. by apply Hyes.
Qed.

Lemma zero_nonneg x : 0 ≤ zero x.
Proof. done. Qed.

Lemma one_nonneg v x : 0 ≤ one v x.
Proof. apply one_range. Qed.

Lemma getdevice_spec s ps path m (Q : Z * list Z * option loc → world (vfs F) → Prop) :
  good s ps → room s 2 → nonul path →
  (∀ e sub o s' m', e ≠ 0 → vstep s s' zero zero → Q (e, sub, o) (World s' m')) →
  (∀ sub v s' m', vstep s s' (one v) zero → Q (0, sub, Some v) (World s' m')) →
  wp (getdevice path) Q (World s m).
Proof.
  intros Hg Hr Hn Hno Hyes. eapply wp_same; [by apply getdevice_eq|].
  assert (room s 1) as Hr1 by (intros x; specialize (Hr x); lia).
  assert (vstep s s zero zero) as Hrefl by (apply vstep_refl, Hg).
  destruct (parse path) as [|dev rest|rest|rest]; cbn [start_of].
  - rewrite wp_bind. eapply getcurdir_spec; [done|done|..].
    + intros _. rewrite wp_ret. by apply Hno.
    + intros v s' m' _ Hs. rewrite wp_ret. by apply Hyes.
  - rewrite wp_bind. destruct (good_devs _ _ Hg) as (kds & Hd).
    eapply vfs_getroot_spec; [done|done|intros x; specialize (Hr x); lia|].
    destruct (names_answer _ kds dev) as [[fs|v|]|]; cbn [hit]; intros;
zcode; rewrite wp_ret;
      (by apply Hno) || (by apply Hyes, vstep_set).
  - rewrite wp_bind. unfold boot_acquire. rewrite wp_bind, wp_kget. cbn [wst].
    rewrite (gd_bl _ _ Hg), wp_kput, wp_bind, wp_kget. cbn [wst wmem].
    set (s1 := set_boot_lock true s).
    assert (∀ f, set_boot_lock false (set_state f s1) = set_state f s) as Hrel.
    { intros f. destruct Hg as [_ _ Hbl _ _ _ _ _]. destruct s; cbn in *. by subst. }
    change (bootfs_vnode s1) with (bootfs_vnode s). unfold boot_release.
    destruct (bootfs_vnode s) as [v|] eqn:Hb.
    + rewrite wp_bind. pose proof (good_alive _ _ v Hg (own_boot _ _ _ Hb)) as Hv. eapply on_fs_wp.
      { apply (law_incref _ v); [apply Hg|]. specialize (Hr v). cbn [vfs_state s1 set_boot_lock]. lia. }
      intros [] f m' Hs. rewrite wp_bind, wp_bind, wp_kget, wp_kput, wp_ret. cbn [wst wmem].
      rewrite Hrel. by apply Hyes, vstep_set.
    + rewrite wp_bind, wp_bind, wp_kget, wp_kput, wp_ret. cbn [wst wmem].
      apply Hno; [done|]. destruct Hg as [_ _ Hbl _ _ _ _ _], s; cbn in *. by subst.
  - rewrite wp_bind. eapply getcurdir_spec; [done|done|..].
    + intros _. zcode. rewrite wp_ret. by apply Hno.
    + intros v s1 m1 Hc Hs1. zcode. rewrite wp_bind, wp_kof_Some, wp_bind, wp_kget. cbn [wst].
      assert (good s1 ps) as Hg1 by (eapply good_step; [done|done|counts]).
      assert (t_cwd s1 = Some v) as Hc1 by (by rewrite (vs_cwd _ _ _ _ Hs1)).
      pose proof (gd_cwd _ _ Hg1 v Hc1) as Hfs. pose proof (good_alive _ _ v Hg1 (own_cwd _ _ _ Hc1)) as Hv.
      destruct (vn_fs (vfs_state s1) v) as [fs|] eqn:Efs; [|done].
      rewrite wp_bind, wp_kassert by done. rewrite wp_bind, wp_kof_Some, wp_bind.
      eapply on_fs_wp.
      { apply law_getroot; [apply Hg1|by eapply law_live; [apply Hg1|..]|].
        intros x. rewrite (vstep_refs _ _ _ _ _ Hs1). specialize (Hr x). pose proof (one_range v x). lia. }
      intros root f2 m2 (Hs2 & _). cbn [wst] in Hs2. rewrite wp_bind.
      eapply (decref_spec s _ v (λ x, one v x + one root x)); [apply Hg|..].
      * eapply vstep_trans; [exact Hs1|by apply vstep_set|apply one_nonneg|done|done].
      * counts.
      * intros s3 m3 Hs3. rewrite wp_ret. apply Hyes.
        eapply vstep_trans; [exact Hrefl|exact Hs3|apply zero_nonneg|counts..].
Qed.

Lemma vstep_ext s s' d o d' o' :
  vstep s s' d o → (∀ x, d' x = d x) → (∀ x, o' x = o x) → vstep s s' d' o'.
Proof.
  intros [Hs ? ? ? ? ? ?] Hd Ho. split; try done. destruct Hs as (Hi & Hc & Hr).
  split; [done|]. split; [|done]. intros x. rewrite Hd, Ho. apply Hc.
Qed.

Lemma vstep_alive s s' d o v :
  vinv (vfs_state s) → vstep s s' d o → (∀ x, one v x ≤ d x) → 1 ≤ vrefs s' v.
Proof.
  intros Hi Hs Hd. rewrite (vstep_refs _ _ _ _ _ Hs). pose proof (law_nonneg _ v Hi).
  specialize (Hd v). rewrite one_eq in Hd. lia.
Qed.

(** A call that changes no count, with a reference to [v] in hand. *)
Lemma neutral_spec {A} (c : K F A) s0 s d o m (R : A → F → Prop) (Q : A → world (vfs F) → Prop) :
  vstep s0 s d o → (∀ x, 0 ≤ d x) →
  wp c (λ a w, step (vfs_state s) (wst w) zero zero ∧ R a (wst w)) (World (vfs_state s) m) →
  (∀ a s' m', vstep s0 s' d o → R a (vfs_state s') → Q a (World s' m')) →
  wp (on_fs c) Q (World s m).
Proof.
  intros Hs Hd Hc HQ. eapply on_fs_wp; [exact Hc|]. intros a f m' (Hst & HR). cbn [wst] in *.
  apply HQ; [|done]. eapply vstep_trans; [exact Hs|by apply vstep_set|done|counts..].
Qed.

(** A call that hands back a reference if it succeeds. *)
Lemma handback_spec {A} (c : K F A) (code : A → Z) (ans : A → option loc) s0 s d m
    (Q : A → world (vfs F) → Prop) :
  vstep s0 s d zero → (∀ x, 0 ≤ d x) →
  wp c (λ a w, if code a =? 0 then ∃ u, ans a = Some u ∧ step (vfs_state s) (wst w) (one u) zero
               else step (vfs_state s) (wst w) zero zero) (World (vfs_state s) m) →
  (∀ a s' m', code a ≠ 0 → vstep s0 s' d zero → Q a (World s' m')) →
  (∀ a u s' m', code a = 0 → ans a = Some u → vstep s0 s' (λ x, d x + one u x) zero →
     Q a (World s' m')) →
  wp (on_fs c) Q (World s m).
Proof.
  intros Hs Hd Hc Hno Hyes. eapply on_fs_wp; [exact Hc|]. intros a f m' Ha. cbn [wst] in Ha.
  destruct (Z.eqb_spec (code a) 0) as [E|E].
  - destruct Ha as (u & Hu & Hst). eapply Hyes; [done|done|].
    eapply vstep_trans; [exact Hs|by apply vstep_set|done|done|done].
  - apply Hno; [done|]. eapply vstep_trans; [exact Hs|by apply vstep_set|done|counts..].
Qed.

Lemma lookparent_spec s ps path len m (Q : Z * option loc * list Z → world (vfs F) → Prop) :
  good s ps → room s 3 → nonul path →
  (∀ e o n s' m', e ≠ 0 → vstep s s' zero zero → Q (e, o, n) (World s' m')) →
  (∀ u n s' m', vstep s s' (one u) zero → Q (0, Some u, n) (World s' m')) →
  wp (vfs_lookparent path len) Q (World s m).
Proof.
  intros Hg Hr Hn Hno Hyes. unfold vfs_lookparent. rewrite wp_bind.
  eapply getdevice_spec; [done|intros x; specialize (Hr x); lia|done|..].
  { intros e sub o s' m' He Hs. rewrite (proj2 (Z.eqb_neq e 0) He). cbn [negb]. rewrite wp_ret. by apply Hno. }
  intros sub v s1 m1 Hs1. zcode. rewrite wp_bind, wp_kof_Some, wp_bind.
  pose proof (gd_inv _ _ Hg) as Hi.
  assert (∀ e o n s2 m2, e ≠ 0 → vstep s s2 (one v) zero →
    wp (on_fs (vop_decref v);; mret (e, o, n)) Q (World s2 m2)) as Hfail.
  { intros e o n s2 m2 He Hs2. rewrite wp_bind. eapply decref_spec; [exact Hi|exact Hs2|done|].
    intros s3 m3 Hs3. rewrite wp_ret. apply Hno; [done|]. eapply vstep_ext; [done|counts..]. }
  destruct (Z.of_nat (length sub) =? 0); [rewrite wp_ret; by apply Hfail|].
  eapply (handback_spec _ (λ a, a.1.1) (λ a, a.1.2)); [exact Hs1|apply one_nonneg|..].
  - eapply wp_mono; [apply law_lookparent|by intros [[]]].
    + by eapply vstep_inv.
    + by eapply (vstep_alive s).
    + intros x. rewrite (vstep_refs _ _ _ _ _ Hs1). specialize (Hr x). pose proof (one_range v x). lia.
  - intros [[e o] n] s2 m2 He Hs2. by apply Hfail.
  - intros [[e o] n] u s2 m2 He Hu Hs2. cbn [fst snd] in He, Hu. subst. rewrite wp_bind.
    eapply decref_spec; [exact Hi|exact Hs2|counts|].
    intros s3 m3 Hs3. rewrite wp_ret. apply Hyes. eapply vstep_ext; [done|counts..].
Qed.

Lemma lookup_spec s ps path m (Q : Z * option loc → world (vfs F) → Prop) :
  good s ps → room s 3 → nonul path →
  (∀ e o s' m', e ≠ 0 → vstep s s' zero zero → Q (e, o) (World s' m')) →
  (∀ u s' m', vstep s s' (one u) zero → Q (0, Some u) (World s' m')) →
  wp (vfs_lookup path) Q (World s m).
Proof.
  intros Hg Hr Hn Hno Hyes. unfold vfs_lookup. rewrite wp_bind.
  eapply getdevice_spec; [done|intros x; specialize (Hr x); lia|done|..].
  { intros e sub o s' m' He Hs. rewrite (proj2 (Z.eqb_neq e 0) He). cbn [negb]. rewrite wp_ret. by apply Hno. }
  intros sub v s1 m1 Hs1. zcode. rewrite wp_bind, wp_kof_Some.
  pose proof (gd_inv _ _ Hg) as Hi.
  destruct (Z.of_nat (length sub) =? 0); [rewrite wp_ret; by apply Hyes|]. rewrite wp_bind.
  eapply (handback_spec _ fst snd); [exact Hs1|apply one_nonneg|..].
  - eapply wp_mono; [apply law_lookup|by intros []].
    + by eapply vstep_inv.
    + by eapply (vstep_alive s).
    + intros x. rewrite (vstep_refs _ _ _ _ _ Hs1). specialize (Hr x). pose proof (one_range v x). lia.
  - intros [e o] s2 m2 He Hs2. rewrite wp_bind. eapply decref_spec; [exact Hi|exact Hs2|done|].
    intros s3 m3 Hs3. rewrite wp_ret. apply Hno; [done|]. eapply vstep_ext; [done|counts..].
  - intros [e o] u s2 m2 He Hu Hs2. cbn [fst snd] in He, Hu. subst. rewrite wp_bind.
    eapply decref_spec; [exact Hi|exact Hs2|counts|].
    intros s3 m3 Hs3. rewrite wp_ret. apply Hyes. eapply vstep_ext; [done|counts..].
Qed.
End count.
