(* ===== verification/VfsOps.v ===== *)
(** * What the operations on path names do to reference counts

    The references to a vnode are those of the layer itself ([own]) and those
    of its callers; [moved] says how an operation changes the latter.  Every
    operation answers with exactly the references it should, on every path
    through it, and keeps the layer well formed. *)

From S2P Require Import Prelude Array Bitmap CopyInOut Uio Lhd SfsDisk SfsFile SfsVnode SfsTable Vfs VfsSpec VfsPath.

Section ops.
Context {F : Type} `{!Vnodes F, !VnodeLaws F}.
Implicit Types s : vfs F.
Implicit Types ps : list loc.

Abbreviation vrefs s := (refs (vfs_state s)).
Abbreviation vopens s := (opens (vfs_state s)).

(** The references callers hold. *)
Definition ext s ps (x : loc) : Z := vrefs s x - own s ps x.

Record moved s s' ps (d o : loc → Z) : Prop := Moved {
  mv_good : good s' ps;
  mv_ext x : ext s' ps x = ext s ps x + d x;
  mv_opens x : vopens s' x = vopens s x + o x
}.

(** A caller holds a reference to [v] beyond those of its opens. *)
Definition held s ps (v : loc) : Prop := vopens s v < ext s ps v.

(** [k] more references of callers can be counted. *)
Definition roomy s ps (k : Z) : Prop := ∀ x, ext s ps x + (Z.of_nat (length ps) + 2 + k) ≤ MAXREF.

Lemma devs_own_le h ps x : devs_own h ps x ≤ Z.of_nat (length ps).
Proof.
  induction ps as [|p ps IH]; cbn; [done|]. pose proof (ocount_range (kd_vnode <$> h !! p) x). lia.
Qed.

Lemma own_le s ps x : 0 ≤ own s ps x ≤ Z.of_nat (length ps) + 2.
Proof.
  unfold own. pose proof (devs_own_le (kd_heap s) ps x). pose proof (devs_own_nonneg (kd_heap s) ps x).
  pose proof (ocount_range (t_cwd s) x). pose proof (ocount_range (bootfs_vnode s) x). lia.
Qed.

Lemma roomy_room s ps k : roomy s ps k → room s k.
Proof. intros Hr x. specialize (Hr x). unfold ext in Hr. pose proof (own_le s ps x). lia. Qed.

Lemma moved_refl s ps : good s ps → moved s s ps zero zero.
Proof. intros Hg. split; [done|..]; intros x; unfold zero; lia. Qed.

Lemma moved_trans s s1 s2 ps d1 o1 d2 o2 d o :
  moved s s1 ps d1 o1 → moved s1 s2 ps d2 o2 →
  (∀ x, d x = d1 x + d2 x) → (∀ x, o x = o1 x + o2 x) → moved s s2 ps d o.
Proof.
  intros [_ He1 Ho1] [Hg He2 Ho2] Hd Ho. split; [done|..]; intros x.
  - rewrite He2, He1, Hd. lia.
  - rewrite Ho2, Ho1, Ho. lia.
Qed.

Lemma vstep_moved s s' ps d o :
  good s ps → vstep s s' d o → (∀ x, 0 ≤ d x ∧ o x ≤ d x) → moved s s' ps d o.
Proof.
  intros Hg Hs Hd. split; [by eapply good_step|..]; intros x.
  - unfold ext. rewrite (vstep_refs _ _ _ _ _ Hs), (vstep_own _ _ _ _ _ _ Hs). lia.
  - by eapply vstep_opens.
Qed.

Lemma good_ext s ps x : good s ps → 0 ≤ vopens s x ≤ ext s ps x.
Proof.
  intros Hg. pose proof (gd_own _ _ Hg x). pose proof (law_nonneg _ x (gd_inv _ _ Hg)). unfold ext. lia.
Qed.

Lemma moved_held s s' ps d o v : good s ps → moved s s' ps d o → o v < d v → held s' ps v.
Proof.
  intros Hg Hm Hv. unfold held. rewrite (mv_ext _ _ _ _ _ Hm), (mv_opens _ _ _ _ _ Hm).
  pose proof (good_ext _ _ v Hg). lia.
Qed.

Lemma moved_roomy s s' ps d o k j :
  roomy s ps k → moved s s' ps d o → (∀ x, d x + j ≤ k) → roomy s' ps j.
Proof. intros Hr Hm Hd x. rewrite (mv_ext _ _ _ _ _ Hm). specialize (Hr x). specialize (Hd x). lia. Qed.

Lemma held_alive s ps v : good s ps → held s ps v → 1 ≤ vrefs s v.
Proof.
  unfold held, ext. intros Hg Hv. pose proof (own_le s ps v).
  pose proof (law_nonneg _ v (gd_inv _ _ Hg)). lia.
Qed.

(** ** Calls with a reference in hand *)

Lemma drop_spec s ps v m (Q : unit → world (vfs F) → Prop) :
  good s ps → held s ps v → (∀ s' m', moved s s' ps (less v) zero → Q tt (World s' m')) →
  wp (on_fs (vop_decref v)) Q (World s m).
Proof.
  intros Hg Hv HQ. unfold held, ext in Hv. pose proof (own_le s ps v).
  eapply on_fs_wp; [apply (law_decref _ v); [apply Hg|lia]|].
  intros [] f m' (Hi & Hc & Hfs & Hl). cbn [wst] in *. apply HQ.
  assert (∀ x, vopens s x + own s ps x ≤ refs f x) as Hown.
  { intros x. destruct (Hc x) as (-> & _). pose proof (gd_own _ _ Hg x). unfold less, one. case_decide; subst; lia. }
  assert (∀ x, own (set_state f s) ps x = own s ps x) as Ho by done.
  destruct (Hg) as [_ Hk Hb Ha Hin Hkd _ Hcw]. split; [split|..]; cbn [set_state vfs_state]; try done.
  - intros p kd Hp Hkp. destruct (Hkd p kd Hp Hkp) as [H1 H2 H3]. split; [|done..].
    intros fs Hf. by apply Hl, H1.
  - intros x. rewrite Ho. destruct (Hc x) as (_ & ->). specialize (Hown x). unfold zero. lia.
  - intros u Hu. rewrite Hfs; [by apply Hcw|by eapply (good_alive s), (own_cwd s)|].
    specialize (Hown u). pose proof (own_cwd s ps u Hu). pose proof (law_nonneg _ u (gd_inv _ _ Hg)). lia.
  - intros x. unfold ext. rewrite Ho. destruct (Hc x) as (E & _). change (vfs_state (set_state f s)) with f. lia.
  - intros x. by destruct (Hc x) as (_ & ->).
Qed.

(** A call that changes no count. *)
Lemma neutral_moved {A} (c : K F A) s ps m (Q : A → world (vfs F) → Prop) :
  good s ps → wp c (λ _ w, step (vfs_state s) (wst w) zero zero) (World (vfs_state s) m) →
  (∀ a s' m', moved s s' ps zero zero → Q a (World s' m')) → wp (on_fs c) Q (World s m).
Proof.
  intros Hg Hc HQ. eapply on_fs_wp; [exact Hc|]. intros a f m' Hst. cbn [wst] in Hst.
  apply HQ. eapply vstep_moved; [done|by apply vstep_set|done].
Qed.

Lemma lookparent_moved s ps path len m (Q : Z * option loc * list Z → world (vfs F) → Prop) :
  good s ps → roomy s ps 3 → nonul path →
  (∀ e o n s' m', e ≠ 0 → moved s s' ps zero zero → Q (e, o, n) (World s' m')) →
  (∀ u n s' m', moved s s' ps (one u) zero → Q (0, Some u, n) (World s' m')) →
  wp (vfs_lookparent path len) Q (World s m).
Proof.
  intros Hg Hr Hn Hno Hyes. eapply lookparent_spec; [done|by eapply roomy_room|done|..].
  - intros e o n s' m' He Hs. apply Hno; [done|]. by eapply vstep_moved.
  - intros u n s' m' Hs. apply Hyes. eapply vstep_moved; [done|done|counts].
Qed.

Lemma lookup_moved s ps path m (Q : Z * option loc → world (vfs F) → Prop) :
  good s ps → roomy s ps 3 → nonul path →
  (∀ e o s' m', e ≠ 0 → moved s s' ps zero zero → Q (e, o) (World s' m')) →
  (∀ u s' m', moved s s' ps (one u) zero → Q (0, Some u) (World s' m')) →
  wp (vfs_lookup path) Q (World s m).
Proof.
  intros Hg Hr Hn Hno Hyes. eapply lookup_spec; [done|by eapply roomy_room|done|..].
  - intros e o s' m' He Hs. apply Hno; [done|]. by eapply vstep_moved.
  - intros u s' m' Hs. apply Hyes. eapply vstep_moved; [done|done|counts].
Qed.

(** ** Operations with one directory *)

(** Look up the parent of a path name, call the file system, drop it again. *)
Definition with_parent {A} (fail : Z → A) (path : list Z) (c : loc → list Z → K F A) : K (vfs F) A :=
  '(result, dir, name) ← vfs_lookparent path (NAME_MAX + 1);
  if negb (result =? 0) then mret (fail result) else
  dir ← kof dir;
  r ← on_fs (c dir name);
  on_fs (vop_decref dir);;
  mret r.

Lemma with_parent_spec {A} (fail : Z → A) path (c : loc → list Z → K F A) s ps m
    (Q : A → world (vfs F) → Prop) :
  good s ps → roomy s ps 3 → nonul path →
  (∀ f dir n m', vinv f → 1 ≤ refs f dir →
     wp (c dir n) (λ _ w, step f (wst w) zero zero) (World f m')) →
  (∀ r s' m', moved s s' ps zero zero → Q r (World s' m')) →
  wp (with_parent fail path c) Q (World s m).
Proof.
  intros Hg Hr Hn Hc HQ. unfold with_parent. rewrite wp_bind.
  eapply lookparent_moved; [done..| |].
  { intros e o n s' m' He Hm. rewrite (proj2 (Z.eqb_neq e 0) He). cbn [negb]. rewrite wp_ret. by apply HQ. }
  intros dir n s1 m1 Hm1. zcode. rewrite wp_bind, wp_kof_Some, wp_bind.
  assert (held s1 ps dir) as Hh1 by (eapply (moved_held s); [done|done|rewrite one_eq; done]).
  pose proof (mv_good _ _ _ _ _ Hm1) as Hg1.
  eapply neutral_moved; [done|apply Hc; [apply Hg1|by eapply held_alive]|].
  intros r s2 m2 Hm2. rewrite wp_bind. pose proof (mv_good _ _ _ _ _ Hm2) as Hg2.
  assert (moved s s2 ps (one dir) zero) as Hm12 by (eapply moved_trans; [done|done|counts..]).
  eapply drop_spec; [done|eapply (moved_held s); [done|exact Hm12|rewrite one_eq; done]|].
  intros s3 m3 Hm3. rewrite wp_ret. apply HQ. eapply moved_trans; [exact Hm12|done|counts..].
Qed.

(** ** Operations with two vnodes *)

Lemma drop2_spec {A} (r : A) s s2 ps a b m (Q : A → world (vfs F) → Prop) :
  good s ps → moved s s2 ps (λ x, one a x + one b x) zero →
  (∀ s' m', moved s s' ps zero zero → Q r (World s' m')) →
  wp (on_fs (vop_decref b);; on_fs (vop_decref a);; mret r) Q (World s2 m).
Proof.
  intros Hg Hm HQ. rewrite wp_bind. pose proof (mv_good _ _ _ _ _ Hm) as Hg2.
  eapply drop_spec; [done|eapply (moved_held s); [done|exact Hm|]|].
  { cbv beta. rewrite one_eq. pose proof (one_range a b). unfold zero. lia. }
  intros s3 m3 Hm3. rewrite wp_bind. pose proof (mv_good _ _ _ _ _ Hm3) as Hg3.
  assert (moved s s3 ps (one a) zero) as Hm13 by (eapply moved_trans; [exact Hm|exact Hm3|counts..]).
  eapply drop_spec; [done|eapply (moved_held s); [done|exact Hm13|by rewrite one_eq]|].
  intros s4 m4 Hm4. rewrite wp_ret. apply HQ. eapply moved_trans; [exact Hm13|exact Hm4|counts..].
Qed.

Lemma drop1_spec {A} (r : A) s s2 ps a m (Q : A → world (vfs F) → Prop) :
  good s ps → moved s s2 ps (one a) zero →
  (∀ s' m', moved s s' ps zero zero → Q r (World s' m')) →
  wp (on_fs (vop_decref a);; mret r) Q (World s2 m).
Proof.
  intros Hg Hm HQ. rewrite wp_bind. pose proof (mv_good _ _ _ _ _ Hm) as Hg2.
  eapply drop_spec; [done|eapply (moved_held s); [done|exact Hm|by rewrite one_eq]|].
  intros s3 m3 Hm3. rewrite wp_ret. apply HQ. eapply moved_trans; [exact Hm|exact Hm3|counts..].
Qed.

(** The second half of [vfs_rename] and [vfs_link], with a vnode in hand. *)
Lemma onto_spec s s1 ps a newpath (c : loc → list Z → K F Z) m (Q : Z → world (vfs F) → Prop) :
  good s ps → roomy s ps 4 → nonul newpath → moved s s1 ps (one a) zero →
  (∀ f b n m', vinv f → 1 ≤ refs f a → 1 ≤ refs f b → vn_fs f a = vn_fs f b →
     wp (c b n) (λ _ w, step f (wst w) zero zero) (World f m')) →
  (∀ r s' m', moved s s' ps zero zero → Q r (World s' m')) →
  wp ('(result, newdir, newname) ← vfs_lookparent newpath (NAME_MAX + 1);
      if negb (result =? 0) then on_fs (vop_decref a);; mret result else
      newdir ← kof newdir;
      same ← same_fs a newdir;
      if negb same then on_fs (vop_decref newdir);; on_fs (vop_decref a);; mret EXDEV else
      result ← on_fs (c newdir newname);
      on_fs (vop_decref newdir);;
      on_fs (vop_decref a);;
      mret result) Q (World s1 m).
Proof.
  intros Hg Hr Hn Hm1 Hc HQ. pose proof (mv_good _ _ _ _ _ Hm1) as Hg1. rewrite wp_bind.
  eapply lookparent_moved; [exact Hg1|eapply moved_roomy; [exact Hr|exact Hm1|counts]|done|..].
  { intros e o n s2 m2 He Hm2. rewrite (proj2 (Z.eqb_neq e 0) He). cbn [negb].
    eapply (drop1_spec _ s); [done|eapply moved_trans; [exact Hm1|exact Hm2|counts..]|by eauto]. }
  intros b n s2 m2 Hm2. zcode. rewrite wp_bind, wp_kof_Some, wp_bind.
  assert (moved s s2 ps (λ x, one a x + one b x) zero) as Hm12
    by (eapply moved_trans; [exact Hm1|exact Hm2|counts..]).
  pose proof (mv_good _ _ _ _ _ Hm12) as Hg2.
  unfold same_fs. rewrite wp_bind, wp_kget, wp_ret. cbn [wst].
  rewrite negb_involutive. destruct (isnull _ || isnull _ || negb _) eqn:Hsame.
  - eapply drop2_spec; [exact Hg|exact Hm12|by intros; apply HQ].
  - rewrite wp_bind. apply orb_false_iff in Hsame as (_ & Hsame).
    apply negb_false_iff, bool_decide_eq_true in Hsame.
    eapply neutral_moved; [done|apply Hc; [apply Hg2|..|done]|].
    + eapply held_alive; [done|]. eapply (moved_held s); [done|exact Hm12|].
      cbv beta. rewrite one_eq. pose proof (one_range b a). unfold zero. lia.
    + eapply held_alive; [done|]. eapply (moved_held s); [done|exact Hm12|].
      cbv beta. rewrite one_eq. pose proof (one_range a b). unfold zero. lia.
    + intros r s3 m3 Hm3. eapply drop2_spec; [exact Hg| |by intros; apply HQ].
      eapply moved_trans; [exact Hm12|exact Hm3|counts..].
Qed.

Lemma rename_spec s ps p1 p2 m (Q : Z → world (vfs F) → Prop) :
  good s ps → roomy s ps 4 → nonul p1 → nonul p2 →
  (∀ r s' m', moved s s' ps zero zero → Q r (World s' m')) →
  wp (vfs_rename p1 p2) Q (World s m).
Proof.
  intros Hg Hr Hn1 Hn2 HQ. unfold vfs_rename. rewrite wp_bind.
  eapply lookparent_moved; [done|intros x; specialize (Hr x); lia|done|..].
  { intros e o n s' m' He Hm. rewrite (proj2 (Z.eqb_neq e 0) He). cbn [negb]. rewrite wp_ret. by apply HQ. }
  intros a n s1 m1 Hm1. zcode. rewrite wp_bind, wp_kof_Some.
  apply (onto_spec s s1 ps a p2 (λ b n', vop_rename a n b n')); [done..| |done].
  intros f b n' m' Hi Ha Hb E. by apply law_rename.
Qed.

Lemma link_spec s ps p1 p2 m (Q : Z → world (vfs F) → Prop) :
  good s ps → roomy s ps 4 → nonul p1 → nonul p2 →
  (∀ r s' m', moved s s' ps zero zero → Q r (World s' m')) →
  wp (vfs_link p1 p2) Q (World s m).
Proof.
  intros Hg Hr Hn1 Hn2 HQ. unfold vfs_link. rewrite wp_bind.
  eapply lookup_moved; [done|intros x; specialize (Hr x); lia|done|..].
  { intros e o s' m' He Hm. rewrite (proj2 (Z.eqb_neq e 0) He). cbn [negb]. rewrite wp_ret. by apply HQ. }
  intros a s1 m1 Hm1. zcode. rewrite wp_bind, wp_kof_Some.
  apply (onto_spec s s1 ps a p2 (λ b n', vop_link b n' a)); [done..| |done].
  intros f b n' m' Hi Ha Hb E. by apply law_link.
Qed.

(** ** Opening and closing *)

Lemma incopen_spec s ps v m (Q : unit → world (vfs F) → Prop) :
  good s ps → held s ps v → vrefs s v < MAXREF →
  (∀ s' m', moved s s' ps zero (one v) → Q tt (World s' m')) →
  wp (on_fs (vop_incopen v)) Q (World s m).
Proof.
  intros Hg Hv Hm HQ. unfold held, ext in Hv. pose proof (own_le s ps v).
  eapply on_fs_wp; [apply (law_incopen _ v); [apply Hg|lia]|].
  intros [] f m' (Hi & Hc & Hfs & Hl). cbn [wst] in *. apply HQ.
  destruct (Hg) as [_ Hk Hb Ha Hin Hkd Ho Hcw].
  assert (∀ x, refs f x = vrefs s x) as Hrf by (intros x; destruct (Hc x); unfold zero in *; lia).
  split; [split|..]; cbn [set_state vfs_state]; try done.
  - intros p kd Hp Hkp. destruct (Hkd p kd Hp Hkp) as [H1 H2 H3]. split; [|done..].
    intros fs Hf. by apply Hl, H1.
  - intros x. change (own _ ps x) with (own s ps x). destruct (Hc x) as (_ & ->). rewrite Hrf.
    specialize (Ho x). unfold one. case_decide; subst; lia.
  - intros u Hu. rewrite Hfs; [by apply Hcw|by eapply (good_alive s), (own_cwd s)|].
    rewrite Hrf. by eapply (good_alive s), (own_cwd s).
  - intros x. unfold ext. change (own (set_state f s) ps x) with (own s ps x).
    change (vfs_state (set_state f s)) with f. rewrite Hrf. unfold zero. lia.
  - intros x. by destruct (Hc x) as (_ & ->).
Qed.

Lemma decopen_spec s ps v m (Q : unit → world (vfs F) → Prop) :
  good s ps → 1 ≤ vopens s v →
  (∀ s' m', moved s s' ps zero (less v) → Q tt (World s' m')) →
  wp (on_fs (vop_decopen v)) Q (World s m).
Proof.
  intros Hg Hv HQ. eapply on_fs_wp; [apply (law_decopen _ v); [apply Hg|done]|].
  intros [] f m' Hs. apply HQ. eapply vstep_moved; [done|by apply vstep_set|counts].
Qed.

Lemma close_spec s ps v m (Q : unit → world (vfs F) → Prop) :
  good s ps → 1 ≤ vopens s v →
  (∀ s' m', moved s s' ps (less v) (less v) → Q tt (World s' m')) →
  wp (vfs_close v) Q (World s m).
Proof.
  intros Hg Hv HQ. unfold vfs_close. rewrite wp_bind. eapply decopen_spec; [done..|].
  intros s1 m1 Hm1. pose proof (mv_good _ _ _ _ _ Hm1) as Hg1.
  eapply drop_spec; [done| |].
  - unfold held. rewrite (mv_ext _ _ _ _ _ Hm1), (mv_opens _ _ _ _ _ Hm1).
    pose proof (good_ext _ _ v Hg). unfold less, zero. rewrite one_eq. lia.
  - intros s2 m2 Hm2. apply HQ. eapply moved_trans; [exact Hm1|exact Hm2|counts..].
Qed.

(** The end of [vfs_open], with a reference to the vnode. *)
Lemma open_tail_spec s s1 ps vn flags (canwrite : bool) m (Q : Z * option loc → world (vfs F) → Prop) :
  good s ps → roomy s ps 3 → moved s s1 ps (one vn) zero →
  (∀ e s' m', e ≠ 0 → moved s s' ps zero zero → Q (e, None) (World s' m')) →
  (∀ s' m', moved s s' ps (one vn) (one vn) → Q (0, Some vn) (World s' m')) →
  wp (result ← on_fs (vop_open vn flags);
      if negb (result =? 0) then on_fs (vop_decref vn);; mret (result, None) else
      on_fs (vop_incopen vn);;
      result ← (if negb (Z.land flags O_TRUNC =? 0) then
                  if negb canwrite then mret EINVAL else on_fs (vop_truncate vn 0)
                else mret 0);
      if negb (result =? 0) then
        on_fs (vop_decopen vn);;
        on_fs (vop_decref vn);;
        mret (result, None)
      else mret (0, Some vn)) Q (World s1 m).
Proof.
  intros Hg Hr Hm1 Hno Hyes. pose proof (mv_good _ _ _ _ _ Hm1) as Hg1.
  assert (held s1 ps vn) as Hh1 by (eapply (moved_held s); [done|exact Hm1|by rewrite one_eq]).
  rewrite wp_bind. eapply neutral_moved; [done|apply law_open; [apply Hg1|by eapply held_alive]|].
  intros e s2 m2 Hm2.
  assert (moved s s2 ps (one vn) zero) as Hm12 by (eapply moved_trans; [exact Hm1|exact Hm2|counts..]).
  pose proof (mv_good _ _ _ _ _ Hm12) as Hg2.
  destruct (Z.eqb_spec e 0) as [->|He]; cbn [negb];
    [|eapply (drop1_spec _ s); [done|exact Hm12|by intros; apply Hno]].
  rewrite wp_bind.
  assert (held s2 ps vn) as Hh2 by (eapply (moved_held s); [done|exact Hm12|by rewrite one_eq]).
  eapply incopen_spec; [done|done| |].
  { assert (roomy s2 ps 2) as Hr2 by (eapply moved_roomy; [exact Hr|exact Hm12|counts]).
    pose proof (roomy_room _ _ _ Hr2 vn). lia. }
  intros s3 m3 Hm3.
  assert (moved s s3 ps (one vn) (one vn)) as Hm13 by (eapply moved_trans; [exact Hm12|exact Hm3|counts..]).
  pose proof (mv_good _ _ _ _ _ Hm13) as Hg3.
  assert (∀ e s4 m4, moved s s4 ps (one vn) (one vn) →
    wp (if negb (e =? 0) then on_fs (vop_decopen vn);; on_fs (vop_decref vn);; mret (e, None)
        else mret (0, Some vn)) Q (World s4 m4)) as Hend.
  { intros e s4 m4 Hm4. destruct (Z.eqb_spec e 0) as [->|He]; cbn [negb]; [rewrite wp_ret; by apply Hyes|].
    pose proof (mv_good _ _ _ _ _ Hm4) as Hg4. rewrite wp_bind. eapply decopen_spec; [done| |].
    - rewrite (mv_opens _ _ _ _ _ Hm4), one_eq. pose proof (good_ext _ _ vn Hg). lia.
    - intros s5 m5 Hm5. eapply (drop1_spec _ s); [done| |by intros; apply Hno].
      eapply moved_trans; [exact Hm4|exact Hm5|counts..]. }
  rewrite wp_bind. destruct (negb (Z.land flags O_TRUNC =? 0)); [|rewrite wp_ret; by apply Hend].
  destruct canwrite; cbn [negb]; [|rewrite wp_ret; by apply Hend].
  eapply neutral_moved; [done|apply law_truncate; [apply Hg3|]|].
  - pose proof (law_nonneg _ vn (gd_inv _ _ Hg3)) as Hnn. revert Hnn.
    rewrite (mv_opens _ _ _ _ _ Hm13), one_eq. pose proof (good_ext _ _ vn Hg). lia.
  - intros e s4 m4 Hm4. apply Hend. eapply moved_trans; [exact Hm13|exact Hm4|counts..].
Qed.

Lemma open_vnode_spec s ps path flags m (Q : Z * option loc → world (vfs F) → Prop) :
  good s ps → roomy s ps 3 → nonul path →
  (∀ e o s' m', e ≠ 0 → moved s s' ps zero zero → Q (e, o) (World s' m')) →
  (∀ vn s' m', moved s s' ps (one vn) zero → Q (0, Some vn) (World s' m')) →
  wp (open_vnode path flags) Q (World s m).
Proof.
  intros Hg Hr Hn Hno Hyes. unfold open_vnode.
  destruct (negb (Z.land flags O_CREAT =? 0)); [|by eapply lookup_moved].
  rewrite wp_bind. eapply lookparent_moved; [done..| |].
  { intros e o n s' m' He Hm. rewrite (proj2 (Z.eqb_neq e 0) He). cbn [negb]. rewrite wp_ret. by apply Hno. }
  intros dir n s1 m1 Hm1. zcode. rewrite wp_bind, wp_kof_Some, wp_bind.
  pose proof (mv_good _ _ _ _ _ Hm1) as Hg1.
  assert (held s1 ps dir) as Hh1 by (eapply (moved_held s); [done|exact Hm1|by rewrite one_eq]).
  eapply (handback_spec _ fst snd s1); [apply vstep_refl, Hg1|done|..].
  - eapply wp_mono; [apply law_creat|by intros []]; [apply Hg1|by eapply held_alive|].
    assert (roomy s1 ps 2) as Hr1 by (eapply moved_roomy; [exact Hr|exact Hm1|counts]).
    intros x. pose proof (roomy_room _ _ _ Hr1 x). lia.
  - intros [e o] s2 m2 He Hs2. cbn [fst] in He.
    assert (moved s1 s2 ps zero zero) as Hm2 by (by eapply vstep_moved).
    eapply (drop1_spec _ s); [done|eapply moved_trans; [exact Hm1|exact Hm2|counts..]|].
    intros; by apply Hno.
  - intros [e o] vn s2 m2 He Ho Hs2. cbn [fst snd] in He, Ho. subst.
    assert (moved s1 s2 ps (one vn) zero) as Hm2
      by (eapply vstep_moved; [done|eapply vstep_ext; [exact Hs2|counts..]|counts]).
    assert (moved s s2 ps (λ x, one vn x + one dir x) zero) as Hm12
      by (eapply moved_trans; [exact Hm1|exact Hm2|counts..]).
    rewrite wp_bind. eapply drop_spec; [apply Hm2|eapply (moved_held s); [done|exact Hm12|]|].
    { cbv beta. rewrite one_eq. pose proof (one_range vn dir). unfold zero. lia. }
    intros s3 m3 Hm3. rewrite wp_ret. apply Hyes. eapply moved_trans; [exact Hm12|exact Hm3|counts..].
Qed.

Lemma open_spec s ps path flags m (Q : Z * option loc → world (vfs F) → Prop) :
  good s ps → roomy s ps 3 → nonul path →
  (∀ e s' m', e ≠ 0 → moved s s' ps zero zero → Q (e, None) (World s' m')) →
  (∀ vn s' m', moved s s' ps (one vn) (one vn) → Q (0, Some vn) (World s' m')) →
  wp (vfs_open path flags) Q (World s m).
Proof.
  intros Hg Hr Hn Hno Hyes. unfold vfs_open.
  set (cw := if _ =? O_RDONLY then _ else _). destruct cw as [canwrite|];
    [|rewrite wp_ret; apply Hno; [done|by apply moved_refl]].
  rewrite wp_bind. eapply open_vnode_spec; [done..| |].
  - intros e o s' m' He Hm. rewrite (proj2 (Z.eqb_neq e 0) He). cbn [negb]. rewrite wp_ret. by apply Hno.
  - intros vn s1 m1 Hm1. zcode. rewrite wp_bind, wp_kassert by done. rewrite wp_bind, wp_kof_Some.
    eapply open_tail_spec; [exact Hg|exact Hr|exact Hm1|done|by apply Hyes].
Qed.

(** ** Directories *)

Lemma set_cwd_own s o ps x : own (set_cwd o s) ps x = own s ps x - ocount (t_cwd s) x + ocount o x.
Proof. unfold own. cbn. lia. Qed.

Lemma set_bootfs_own s o ps x :
  own (set_bootfs o s) ps x = own s ps x - ocount (bootfs_vnode s) x + ocount o x.
Proof. unfold own. cbn. lia. Qed.

(** A reference of the caller becomes the current directory, and the old one
    is handed to the caller. *)
Lemma good_set_cwd s ps o :
  good s ps → (∀ x, ocount o x ≤ ext s ps x + ocount (t_cwd s) x - vopens s x) →
  (∀ v, o = Some v → vn_fs (vfs_state s) v ≠ None) →
  moved s (set_cwd o s) ps (λ x, ocount (t_cwd s) x - ocount o x) zero.
Proof.
  intros Hg Ho Hfs. destruct (Hg) as [Hi Hk Hb Ha Hin Hkd Hown Hcw Hap].
  split; [split|..]; cbn [set_cwd vfs_state]; try done.
  - intros x. rewrite set_cwd_own. specialize (Ho x). unfold ext in Ho. cbn [vfs_state]. lia.
  - intros x. unfold ext. rewrite set_cwd_own. cbn [set_cwd vfs_state]. lia.
  - intros x. unfold zero. lia.
Qed.

Lemma good_set_boot s ps o :
  good s ps → (∀ x, ocount o x ≤ ext s ps x + ocount (bootfs_vnode s) x - vopens s x) →
  moved s (set_bootfs o s) ps (λ x, ocount (bootfs_vnode s) x - ocount o x) zero.
Proof.
  intros Hg Ho. destruct (Hg) as [Hi Hk Hb Ha Hin Hkd Hown Hcw Hap].
  split; [split|..]; cbn [set_bootfs vfs_state]; try done.
  - intros x. rewrite set_bootfs_own. specialize (Ho x). unfold ext in Ho. cbn [vfs_state]. lia.
  - intros x. unfold ext. rewrite set_bootfs_own. cbn [set_bootfs vfs_state]. lia.
  - intros x. unfold zero. lia.
Qed.

(** Drop a reference that may be NULL. *)
Lemma drop_opt_spec s s1 ps o d m (Q : unit → world (vfs F) → Prop) :
  good s ps → moved s s1 ps d zero → (∀ x, ocount o x ≤ d x) →
  (∀ s' m', moved s s' ps (λ x, d x - ocount o x) zero → Q tt (World s' m')) →
  wp (match o with Some v => on_fs (vop_decref v) | None => mret tt end) Q (World s1 m).
Proof.
  intros Hg Hm Hd HQ. destruct o as [v|]; cbn [ocount] in *.
  - eapply drop_spec; [apply Hm|eapply (moved_held s); [done|exact Hm|]|].
    + specialize (Hd v). rewrite one_eq in Hd. unfold zero. lia.
    + intros s2 m2 Hm2. apply HQ. eapply moved_trans; [exact Hm|exact Hm2|counts..].
  - rewrite wp_ret. apply HQ. eapply moved_trans; [exact Hm|by apply moved_refl, Hm|counts..].
Qed.

Lemma setcurdir_spec s ps dir m (Q : Z → world (vfs F) → Prop) :
  good s ps → held s ps dir → vrefs s dir < MAXREF →
  (∀ r s' m', moved s s' ps zero zero → Q r (World s' m')) →
  wp (vfs_setcurdir dir) Q (World s m).
Proof.
  intros Hg Hh Hmax HQ. pose proof (held_alive _ _ _ Hg Hh) as Hal. unfold vfs_setcurdir. rewrite wp_bind.
  eapply on_fs_wp; [apply law_gettype; [apply Hg|done]|]. intros [r t] f1 m1 (Hs1 & Hdir). cbn [wst] in Hs1.
  set (s1 := set_state f1 s).
  assert (vstep s s1 zero zero) as Hv1 by (by apply vstep_set).
  assert (moved s s1 ps zero zero) as Hm1 by (by eapply vstep_moved).
  destruct (Z.eqb_spec r 0) as [->|Hr]; cbn [negb]; [|rewrite wp_ret; by apply HQ].
  destruct (S_ISDIR t) eqn:Ht; cbn [negb]; [|rewrite wp_ret; by apply HQ].
  specialize (Hdir eq_refl eq_refl).
  assert (∀ x, vrefs s1 x = vrefs s x) as Hr1
    by (intros x; rewrite (vstep_refs _ _ _ _ _ Hv1); unfold zero; lia).
  rewrite wp_bind. apply incref_spec; [apply Hm1|rewrite Hr1; lia|]. intros s2 m2 Hv2.
  assert (vn_fs (vfs_state s2) dir ≠ None) as Hfs2.
  { destruct Hv2 as [(_ & Hc2 & Hf2 & _) _ _ _ _ _ _]. destruct Hs1 as (_ & _ & Hf1 & _).
    rewrite Hf2; [|by rewrite Hr1|destruct (Hc2 dir) as (-> & _); rewrite Hr1, one_eq; lia].
    change (vfs_state s1) with f1 in *. rewrite Hf1; [done|done|by rewrite Hr1]. }
  assert (moved s s2 ps (one dir) zero) as Hm2.
  { eapply moved_trans; [exact Hm1|eapply vstep_moved; [apply Hm1|exact Hv2|counts]|counts..]. }
  rewrite wp_bind, wp_kget. cbn [wst]. rewrite wp_bind, wp_kput. cbn [wmem].
  assert (moved s2 (set_cwd (Some dir) s2) ps (λ x, ocount (t_cwd s2) x - ocount (Some dir) x) zero) as Hm3.
  { apply good_set_cwd; [apply Hm2| |by intros v [= <-]]. intros x. cbn [ocount].
    rewrite (mv_ext _ _ _ _ _ Hm2), (mv_opens _ _ _ _ _ Hm2). pose proof (good_ext _ _ x Hg).
    pose proof (ocount_range (t_cwd s2) x). unfold zero. lia. }
  rewrite wp_bind. eapply (drop_opt_spec s _ ps (t_cwd s2) (ocount (t_cwd s2))); [done| |done|].
  - eapply moved_trans; [exact Hm2|exact Hm3| |done]. intros x. cbn [ocount]. lia.
  - intros s4 m4 Hm4. rewrite wp_ret. apply HQ.
    eapply moved_trans; [apply (moved_refl s ps Hg)|exact Hm4|counts..].
Qed.

Lemma clearcurdir_spec s ps m (Q : Z → world (vfs F) → Prop) :
  good s ps → (∀ s' m', moved s s' ps zero zero → Q 0 (World s' m')) →
  wp vfs_clearcurdir Q (World s m).
Proof.
  intros Hg HQ. unfold vfs_clearcurdir. rewrite wp_bind, wp_kget. cbn [wst]. rewrite wp_bind, wp_kput, wp_bind.
  eapply (drop_opt_spec s _ ps (t_cwd s) (ocount (t_cwd s))); [done| |done|].
  - eapply moved_trans; [by apply moved_refl|apply (good_set_cwd s ps None); [done| |done]|..].
    + intros x. pose proof (good_ext _ _ x Hg). pose proof (ocount_range (t_cwd s) x). cbn [ocount]. lia.
    + intros x. cbn [ocount]. unfold zero. lia.
    + done.
  - intros s2 m2 Hm2. rewrite wp_ret. apply HQ.
    eapply moved_trans; [apply (moved_refl s ps Hg)|exact Hm2|counts..].
Qed.

Lemma chdir_spec s ps path m (Q : Z → world (vfs F) → Prop) :
  good s ps → roomy s ps 3 → nonul path →
  (∀ r s' m', moved s s' ps zero zero → Q r (World s' m')) →
  wp (vfs_chdir path) Q (World s m).
Proof.
  intros Hg Hr Hn HQ. unfold vfs_chdir. rewrite wp_bind. eapply lookup_moved; [done..| |].
  { intros e o s' m' He Hm. rewrite (proj2 (Z.eqb_neq e 0) He). cbn [negb]. rewrite wp_ret. by apply HQ. }
  intros v s1 m1 Hm1. zcode. rewrite wp_bind, wp_kof_Some, wp_bind.
  eapply setcurdir_spec; [apply Hm1|eapply (moved_held s); [done|exact Hm1|by rewrite one_eq]|..].
  { assert (roomy s1 ps 2) as Hr1 by (eapply moved_roomy; [exact Hr|exact Hm1|counts]).
    pose proof (roomy_room _ _ _ Hr1 v). lia. }
  intros r s2 m2 Hm2. eapply (drop1_spec _ s); [done| |by intros; apply HQ].
  eapply moved_trans; [exact Hm1|exact Hm2|counts..].
Qed.

(** The caller's reference to [newguy] goes to the boot file system. *)
Lemma change_bootfs_spec s s1 ps o m (Q : unit → world (vfs F) → Prop) :
  good s ps → moved s s1 ps (ocount o) zero →
  (∀ s' m', moved s s' ps zero zero → Q tt (World s' m')) →
  wp (change_bootfs o) Q (World s1 m).
Proof.
  intros Hg Hm1 HQ. pose proof (mv_good _ _ _ _ _ Hm1) as Hg1. unfold change_bootfs, boot_acquire, boot_release.
  rewrite wp_bind, wp_bind, wp_kget. cbn [wst]. rewrite (gd_bl _ _ Hg1), wp_kput. cbn [wmem].
  rewrite wp_bind, wp_kget. cbn [wst]. rewrite wp_bind, wp_kput, wp_bind, wp_bind, wp_kget, wp_kput.
  cbn [wst wmem].
  set (s2 := set_boot_lock false _).
  assert (s2 = set_bootfs o s1) as E
    by (pose proof (gd_bl _ _ Hg1) as Hbl; unfold s2; destruct s1; cbn in *; by subst).
  rewrite E. change (bootfs_vnode (set_boot_lock true s1)) with (bootfs_vnode s1).
  eapply (drop_opt_spec s _ ps (bootfs_vnode s1) (ocount (bootfs_vnode s1))); [done| |done|].
  - eapply moved_trans; [exact Hm1|apply (good_set_boot s1 ps o Hg1)|..].
    + intros x. rewrite (mv_ext _ _ _ _ _ Hm1), (mv_opens _ _ _ _ _ Hm1). pose proof (good_ext _ _ x Hg).
      pose proof (ocount_range (bootfs_vnode s1) x). unfold zero. lia.
    + intros x. cbv beta. lia.
    + done.
  - intros s3 m3 Hm3. apply HQ. eapply moved_trans; [apply (moved_refl s ps Hg)|exact Hm3|counts..].
Qed.

Lemma setbootfs_spec s ps name m (Q : Z → world (vfs F) → Prop) :
  good s ps → roomy s ps 3 → nonul name →
  (∀ r s' m', moved s s' ps zero zero → Q r (World s' m')) →
  wp (vfs_setbootfs name) Q (World s m).
Proof.
  intros Hg Hr Hn HQ. unfold vfs_setbootfs.
  set (c := strchr_colon _). destruct (match c with Some _ => _ | None => _ end);
    [rewrite wp_ret; by apply HQ, moved_refl|]. rewrite wp_bind.
  eapply chdir_spec; [done|done| |].
  { unfold nonul. destruct c; [by apply Forall_take|]. apply Forall_app. split; [by apply Forall_take|by constructor]. }
  intros r s1 m1 Hm1. destruct (Z.eqb_spec r 0) as [->|He]; cbn [negb]; [|rewrite wp_ret; by apply HQ].
  rewrite wp_bind. eapply getcurdir_spec; [apply Hm1|..].
  { eapply roomy_room, moved_roomy; [exact Hr|exact Hm1|counts]. }
  - intros _. zcode. rewrite wp_ret. by apply HQ.
  - intros v s2 m2 _ Hs2. zcode. rewrite wp_bind. eapply (change_bootfs_spec s _ ps (Some v)); [done| |].
    + eapply moved_trans; [exact Hm1|eapply vstep_moved; [apply Hm1|exact Hs2|counts]|intros x; cbn [ocount]; unfold zero; lia|counts].
    + intros. rewrite wp_ret. by apply HQ.
Qed.

Lemma clearbootfs_spec s ps m (Q : unit → world (vfs F) → Prop) :
  good s ps → (∀ s' m', moved s s' ps zero zero → Q tt (World s' m')) →
  wp vfs_clearbootfs Q (World s m).
Proof.
  intros Hg HQ. unfold vfs_clearbootfs. apply (change_bootfs_spec s s ps None); [done| |done].
  by apply moved_refl.
Qed.
End ops.
