(* ===== verification/VfsTable.v ===== *)
(** * The table of devices and mounted file systems

    What adding a device, mounting and unmounting do to the table of
    kern/fs/vfs/vfslist.c, under the contract of VfsSpec.v. *)

From S2P Require Import Prelude Array Bitmap CopyInOut Uio Lhd SfsDisk SfsFile SfsVnode SfsTable Vfs VfsSpec VfsPath VfsOps.

Section table.
Context {F : Type} `{!Vnodes F, !VnodeLaws F}.
Implicit Types s : vfs F.
Implicit Types ps : list loc.
Implicit Types kds : list knowndev.

Abbreviation vrefs s := (refs (vfs_state s)).
Abbreviation vopens s := (opens (vfs_state s)).

Lemma moved_quiet s s1 s2 ps : moved s s1 ps zero zero → moved s1 s2 ps zero zero → moved s s2 ps zero zero.
Proof. intros H1 H2. eapply moved_trans; [exact H1|exact H2|counts|counts]. Qed.

(** [s'] is a state with the table locked, and [moved] holds without the lock. *)
Definition locked s ps s' : Prop := ∃ s0, s' = set_kd_lock true s0 ∧ moved s s0 ps zero zero.

Lemma locked_start s ps : good s ps → locked s ps (set_kd_lock true s).
Proof. intros. exists s. split; [done|]. by apply moved_refl. Qed.

Lemma locked_array s ps s' : locked s ps s' → array_rep (knowndevs s') (Some <$> ps).
Proof. intros (s0 & -> & Hm). exact (gd_array _ _ (mv_good _ _ _ _ _ Hm)). Qed.

Lemma unlock_spec s ps s' m (Q : unit → world (vfs F) → Prop) :
  locked s ps s' → (∀ s0, moved s s0 ps zero zero → Q tt (World s0 m)) → wp kd_release Q (World s' m).
Proof.
  intros (s0 & -> & Hm) HQ. apply kd_release_spec.
  replace (set_kd_lock false (set_kd_lock true s0)) with s0; [by apply HQ|].
  destruct Hm as [[] _ _]. destruct s0; cbn in *. by subst.
Qed.

(** A call into a file system that changes no count. *)
Lemma locked_fs {A} (c : K F A) s ps s' m (R : A → F → Prop) (Q : A → world (vfs F) → Prop) :
  locked s ps s' →
  wp c (λ a w, step (vfs_state s') (wst w) zero zero ∧ R a (wst w)) (World (vfs_state s') m) →
  (∀ a f m', step (vfs_state s') f zero zero → R a f → locked s ps (set_state f s') →
     Q a (World (set_state f s') m')) →
  wp (on_fs c) Q (World s' m).
Proof.
  intros (s0 & -> & Hm) Hc HQ. eapply on_fs_wp; [exact Hc|]. cbn [wst]. intros a f m' (Hs & HR).
  apply HQ; [done|done|]. exists (set_state f s0). split; [done|].
  eapply moved_quiet; [exact Hm|]. eapply vstep_moved; [apply Hm|by apply vstep_set|counts].
Qed.

(** ** Synchronising *)

Lemma locked_kd s ps s' p : locked s ps s' → p ∈ ps →
  ∃ kd, kd_heap s' !! p = Some kd ∧ kd_ok (vfs_state s') kd.
Proof.
  intros (s0 & -> & Hm) Hp. destruct (gd_in _ _ (mv_good _ _ _ _ _ Hm) p Hp) as (kd & Hkd).
  exists kd. split; [done|]. by eapply (gd_kd _ _ (mv_good _ _ _ _ _ Hm)).
Qed.

Lemma locked_inv s ps s' : locked s ps s' → vinv (vfs_state s').
Proof. intros (s0 & -> & Hm). apply (gd_inv _ _ (mv_good _ _ _ _ _ Hm)). Qed.

Lemma sync_one s ps s' fs m (Q : Z → world (vfs F) → Prop) :
  locked s ps s' → fs_live (vfs_state s') fs →
  (∀ r f m', step (vfs_state s') f zero zero → locked s ps (set_state f s') →
     Q r (World (set_state f s') m')) →
  wp (on_fs (fs_sync fs)) Q (World s' m).
Proof.
  intros Hl Hfs HQ. eapply (locked_fs _ s ps s' m (λ _ _, True)); [done| |by auto].
  eapply wp_mono; [apply law_sync; [by eapply locked_inv|done]|]. done.
Qed.

Lemma sync_spec s ps m (Q : Z → world (vfs F) → Prop) :
  good s ps → (∀ s' m', moved s s' ps zero zero → Q 0 (World s' m')) → wp vfs_sync Q (World s m).
Proof.
  intros Hg HQ. unfold vfs_sync. rewrite wp_bind. apply kd_acquire_spec; [apply Hg|]. rewrite wp_bind.
  apply (each_dev_spec (λ _, locked s ps) _ ps); [by intros; eapply locked_array|by apply locked_start|..].
  - intros i p s' m' Hp Hl. apply list_elem_of_lookup_2 in Hp.
    destruct (locked_kd _ _ _ _ Hl Hp) as (kd & Hkd & Hok). rewrite wp_bind. eapply getkd_spec; [done|].
    destruct (kd_fs kd) as [fs|] eqn:Hfs; [|by rewrite wp_ret].
    rewrite wp_bind. eapply sync_one; [done|by eapply kd_fs_ok|]. intros. by rewrite wp_ret.
  - intros s' m' Hl. rewrite wp_bind. eapply unlock_spec; [done|]. intros. rewrite wp_ret. by apply HQ.
Qed.

(** ** Mounting and unmounting *)

Lemma devs_own_same (h h' : gmap loc knowndev) ps x :
  (∀ q, q ∈ ps → kd_vnode <$> h' !! q = kd_vnode <$> h !! q) → devs_own h' ps x = devs_own h ps x.
Proof.
  induction ps as [|p ps IH]; intros Hq; cbn; [done|]. rewrite Hq by (by left).
  rewrite IH; [done|]. intros. apply Hq. by right.
Qed.

(** The counts and the vnodes stay; file systems other than those of [gone]
    stay. *)
Definition kept (f f' : F) (gone : Z → Prop) : Prop :=
  vinv f' ∧ (∀ x, refs f' x = refs f x ∧ opens f' x = opens f x) ∧
  (∀ x, 1 ≤ refs f x → vn_fs f' x = vn_fs f x) ∧
  (∀ fs, fs_live f fs → ¬ gone fs → fs_live f' fs).

(** The file system of one device is replaced. *)
Lemma good_set_fs s ps p kd f o :
  good s ps → p ∈ ps → kd_heap s !! p = Some kd → kd_rawname kd ≠ None →
  kept (vfs_state s) f (λ fs, kd_fs kd = Some fs ∧ o = None) →
  (∀ fs, o = Some fs → fs_live f fs ∧ ¬ fs_live (vfs_state s) fs) →
  moved s (set_kd_heap (<[p := set_kd_fs o kd]> (kd_heap s)) (set_state f s)) ps zero zero.
Proof.
  intros Hg Hp Hkd Hraw (Hi & Hc & Hf & Hl) Ho. pose proof Hg as [Hi0 Hk Hb Ha Hin Hkdok Hown Hcw Hap].
  set (h' := <[p := set_kd_fs o kd]> (kd_heap s)). set (s' := set_kd_heap _ _).
  assert (∀ x, own s' ps x = own s ps x) as Ew.
  { intros x. unfold own. cbn. f_equal. apply devs_own_same. intros q _. unfold h'.
    destruct (decide (q = p)) as [->|]; [by rewrite lookup_insert_eq, Hkd|by rewrite lookup_insert_ne]. }
  assert (∀ q kd', q ∈ ps → q ≠ p → kd_heap s !! q = Some kd' → ∀ fs, kd_fs kd' = Some fs →
            fs_live (vfs_state s) fs ∧ fs_live f fs) as Hother.
  { intros q kd' Hq Hne Hkq fs Hfs. assert (fs_live (vfs_state s) fs) by by apply (kd_fs_ok _ _ (Hkdok q kd' Hq Hkq)).
    split; [done|]. apply Hl; [done|]. intros (Hfp & _). by apply Hne, (Hap q p kd' kd fs). }
  split; [split|..]; cbn [s' set_kd_heap set_state vfs_state knowndevs kd_heap knowndevs_lock bootfs_lock t_cwd];
    try done.
  - intros q Hq. unfold h'. destruct (decide (q = p)) as [->|];
      [rewrite lookup_insert_eq; eauto|rewrite lookup_insert_ne by done; by apply Hin].
  - intros q kd' Hq. unfold h'. destruct (decide (q = p)) as [->|Hne].
    + rewrite lookup_insert_eq. intros [= <-]. split; cbn; [by intros; apply Ho| |done].
      apply (kd_raw_ok _ _ (Hkdok p kd Hp Hkd)).
    + rewrite lookup_insert_ne by done. intros Hkq. destruct (Hkdok q kd' Hq Hkq) as [H1 H2 H3].
      split; [|done..]. intros fs Hfs. by eapply Hother.
  - intros x. rewrite Ew. destruct (Hc x) as [-> ->]. apply Hown.
  - intros v Hv. rewrite Hf; [by apply Hcw|]. by eapply good_alive, own_cwd.
  - intros q1 q2 k1 k2 fs Hq1 Hq2. unfold h'.
    destruct (decide (q1 = p)) as [->|N1], (decide (q2 = p)) as [->|N2];
      rewrite ?lookup_insert_eq, ?lookup_insert_ne by done; [done|..].
    + intros [= <-] Hk2 Ef1 Ef2. cbn in Ef1. destruct (Ho fs Ef1) as (_ & []). by apply (Hother q2 k2).
    + intros Hk1 [= <-] Ef1 Ef2. cbn in Ef2. destruct (Ho fs Ef2) as (_ & []). by apply (Hother q1 k1).
    + intros. by eapply Hap.
  - intros x. unfold ext. rewrite Ew. cbn. destruct (Hc x) as [-> _]. unfold zero. lia.
  - intros x. cbn. destruct (Hc x) as [_ ->]. unfold zero. lia.
Qed.

Lemma locked_set_fs s ps s' p kd f o :
  locked s ps s' → p ∈ ps → kd_heap s' !! p = Some kd → kd_rawname kd ≠ None →
  kept (vfs_state s') f (λ fs, kd_fs kd = Some fs ∧ o = None) →
  (∀ fs, o = Some fs → fs_live f fs ∧ ¬ fs_live (vfs_state s') fs) →
  locked s ps (set_kd_heap (<[p := set_kd_fs o kd]> (kd_heap s')) (set_state f s')).
Proof.
  intros (s0 & -> & Hm) Hp Hkd Hraw Hk Ho. eexists. split; [|eapply moved_quiet; [exact Hm|]].
  2:{ eapply good_set_fs; [apply Hm|done..]. }
  done.
Qed.

Lemma step_kept f f' gone : step f f' zero zero → kept f f' gone.
Proof.
  intros (Hi & Hc & Hf & Hl). split_and!; [done|..].
  - intros x. destruct (Hc x). unfold zero in *. lia.
  - intros x Hx. apply Hf; [done|]. destruct (Hc x). unfold zero in *. lia.
  - intros fs Hfs _. by apply Hl.
Qed.

Lemma unmount_one s ps s' p kd fs m (Q : Z → world (vfs F) → Prop) :
  locked s ps s' → p ∈ ps → kd_heap s' !! p = Some kd → kd_fs kd = Some fs → kd_rawname kd ≠ None →
  (∀ r f m', r ≠ 0 → locked s ps (set_state f s') → Q r (World (set_state f s') m')) →
  (∀ f m', locked s ps (set_kd_heap (<[p := set_kd_fs None kd]> (kd_heap s')) (set_state f s')) →
     Q 0 (World (set_state f s') m')) →
  wp (on_fs (fs_unmount fs)) Q (World s' m).
Proof.
  intros Hl Hp Hkd Hfs Hraw Hno Hyes. destruct (locked_kd _ _ _ _ Hl Hp) as (kd' & Hkd' & Hok).
  rewrite Hkd in Hkd'. injection Hkd' as <-.
  eapply on_fs_wp; [apply law_unmount; [by eapply locked_inv|by eapply kd_fs_ok]|]. cbn [wst].
  intros r f m' (Hi & Hc & Hf & Hlive). destruct (decide (r = 0)) as [->|Hr].
  - apply Hyes. eapply locked_set_fs; try done. split_and!; try done.
    intros fs' Hfs' Hg. apply Hlive; [done|]. right. intros ->. by apply Hg.
  - apply Hno; [done|]. assert (step (vfs_state s') f zero zero) as Hst.
    { split_and!; [done|..].
      - intros x. destruct (Hc x). unfold zero. lia.
      - intros x Hx _. by apply Hf.
      - intros fs' Hfs'. by apply Hlive; [|left]. }
    destruct Hl as (s0 & -> & Hm). exists (set_state f s0). split; [done|].
    eapply moved_quiet; [exact Hm|]. eapply vstep_moved; [apply Hm|by apply vstep_set|counts].
Qed.

(** The devices a name may be mounted on. *)
Definition mountable_as (n : list Z) (kd : knowndev) : Prop := kd_name kd = n ∧ kd_rawname kd ≠ None.

Lemma findmount_spec s ps s' n m (Q : Z * option loc → world (vfs F) → Prop) :
  locked s ps s' →
  (∀ m', (∀ p kd, p ∈ ps → kd_heap s' !! p = Some kd → ¬ mountable_as n kd) → Q (ENODEV, None) (World s' m')) →
  (∀ p kd m', p ∈ ps → kd_heap s' !! p = Some kd → mountable_as n kd → Q (0, Some p) (World s' m')) →
  wp (findmount n) Q (World s' m).
Proof.
  intros Hl Hno Hyes. unfold findmount. rewrite wp_bind, wp_kget. cbn [wst].
  rewrite wp_bind, wp_kassert by (by destruct Hl as (? & -> & ?)). rewrite wp_bind.
  apply (each_dev_spec (λ i s1, s1 = s' ∧ ∀ p kd, p ∈ take i ps → kd_heap s' !! p = Some kd →
           ¬ mountable_as n kd) _ ps); [by intros ? ? (-> & _); eapply locked_array|..].
  - split; [done|]. by intros ? ? ?%not_elem_of_nil.
  - intros i p s1 m1 Hp (-> & Hbefore). pose proof (list_elem_of_lookup_2 _ _ _ Hp) as Hin.
    destruct (locked_kd _ _ _ _ Hl Hin) as (kd & Hkd & Hok). rewrite wp_bind. eapply getkd_spec; [done|].
    rewrite wp_ret.
    assert (¬ mountable_as n kd → ∀ q kq, q ∈ take (S i) ps → kd_heap s' !! q = Some kq → ¬ mountable_as n kq) as Hnext.
    { intros Hn q kq. rewrite (take_S_r _ _ _ Hp), elem_of_app, list_elem_of_singleton.
      intros [Hq| ->] Hkq; [by eapply Hbefore|]. rewrite Hkd in Hkq. by injection Hkq as <-. }
    destruct (kd_rawname kd) as [raw|] eqn:Hraw; cbn [isnull].
    + destruct (streq n (kd_name kd)) eqn:E.
      * rewrite wp_ret. apply streq_spec in E. eapply Hyes; [done..|]. split; [done|by rewrite Hraw].
      * split; [done|]. apply Hnext. intros (En & _). cbn [wst].
        rewrite <- En, (proj2 (streq_spec _ _)) in E; done.
    + split; [done|]. apply Hnext. intros (_ & []). done.
  - intros s1 m1 (-> & Hall). rewrite wp_ret. apply Hno. by rewrite firstn_all in Hall.
Qed.

(** The device named [n] in the table has the file system [o]. *)
Definition mounted s ps (n : list Z) (o : option Z) : Prop :=
  ∃ p kd, p ∈ ps ∧ kd_heap s !! p = Some kd ∧ mountable_as n kd ∧ kd_fs kd = o.

Lemma unlock_mounted s ps s' m (Q : unit → world (vfs F) → Prop) :
  locked s ps s' →
  (∀ s0, moved s s0 ps zero zero → (∀ n o, mounted s' ps n o → mounted s0 ps n o) → Q tt (World s0 m)) →
  wp kd_release Q (World s' m).
Proof.
  intros (s0 & -> & Hm) HQ. apply kd_release_spec.
  replace (set_kd_lock false (set_kd_lock true s0)) with s0; [by apply HQ|].
  destruct Hm as [[] _ _]. destruct s0; cbn in *. by subst.
Qed.

Lemma mounted_set s p kd n o ps :
  p ∈ ps → mountable_as n kd → mounted (set_kd_heap (<[p := set_kd_fs o kd]> (kd_heap s)) s) ps n o.
Proof. intros Hp Hn. exists p, (set_kd_fs o kd). cbn. by rewrite lookup_insert_eq. Qed.

Lemma setkd_spec s p kd m (Q : unit → world (vfs F) → Prop) :
  Q tt (World (set_kd_heap (<[p := kd]> (kd_heap s)) s) m) → wp (setkd p kd) Q (World s m).
Proof. intros HQ. unfold setkd. by rewrite wp_bind, wp_kget, wp_kput. Qed.

(** What the part of [vfs_unmount] and [vfs_mount] under the lock leaves. *)
Lemma locked_end s ps s' n r (o : option Z) m (Q : Z → world (vfs F) → Prop) :
  locked s ps s' → (r = 0 → mounted s' ps n o) →
  (∀ s0 m0, moved s s0 ps zero zero → (r = 0 → mounted s0 ps n o) → Q r (World s0 m0)) →
  wp (kd_release;; mret r) Q (World s' m).
Proof.
  intros Hl Hm HQ. rewrite wp_bind. eapply unlock_mounted; [done|]. intros s0 Hm0 Hmo.
  rewrite wp_ret. apply HQ; [done|]. intros. by apply Hmo, Hm.
Qed.

Lemma unmount_spec s ps n m (Q : Z → world (vfs F) → Prop) :
  good s ps →
  (∀ r s' m', moved s s' ps zero zero → (r = 0 → mounted s' ps n None) → Q r (World s' m')) →
  wp (vfs_unmount n) Q (World s m).
Proof.
  intros Hg HQ. unfold vfs_unmount. rewrite wp_bind. apply kd_acquire_spec; [apply Hg|].
  pose proof (locked_start _ _ Hg) as Hl. set (s1 := set_kd_lock true s) in *. rewrite wp_bind.
  eapply findmount_spec; [done|..].
  - intros m' _. rewrite wp_bind. zcode. rewrite wp_ret. eapply (locked_end s ps s1 n _ None); [done|done|apply HQ].
  - intros p kd m' Hp Hkd Hn. zcode. rewrite !wp_bind, wp_kof_Some, wp_bind. eapply getkd_spec; [done|].
    destruct (kd_fs kd) as [fs|] eqn:Hfs; [|rewrite wp_ret; eapply (locked_end s ps s1 n _ None); [done|done|apply HQ]].
    pose proof Hn as (_ & Hraw). destruct (locked_kd _ _ _ _ Hl Hp) as (kd' & Hkd' & Hok).
    rewrite Hkd in Hkd'. injection Hkd' as <-.
    rewrite wp_bind, wp_kassert by (by destruct (kd_rawname kd)).
    rewrite wp_bind, wp_kassert by (pose proof (kd_raw_ok _ _ Hok Hraw); by destruct (kd_device kd)).
    rewrite wp_bind. eapply sync_one; [done|by eapply kd_fs_ok|]. intros r f m1 Hst Hl1.
    destruct (Z.eqb_spec r 0) as [->|Hr]; cbn [negb].
    2:{ rewrite wp_ret. eapply (locked_end s ps _ n _ None); [done|done|apply HQ]. }
    rewrite wp_bind. eapply (unmount_one s ps _ p kd fs); [done..| |].
    + intros r f' m2 Hr Hl2. rewrite (proj2 (Z.eqb_neq r 0)) by done. cbn [negb]. rewrite wp_ret.
      eapply (locked_end s ps _ n _ None); [done|done|apply HQ].
    + intros f' m2 Hl2. cbn [Z.eqb negb]. rewrite wp_bind. apply setkd_spec.
      rewrite wp_bind, wp_kassert, wp_ret by done.
      eapply (locked_end s ps _ n _ None); [done| |apply HQ]. intros _. by apply mounted_set.
Qed.

(** A mount function answers a file system that was not there before. *)
Definition mounts (mountfunc : option Z → K F (Z * option Z)) : Prop :=
  ∀ f dev m, vinv f → dev ≠ None →
    wp (mountfunc dev) (λ '(r, o) w, step f (wst w) zero zero ∧
      (r = 0 → ∃ fs, o = Some fs ∧ fs_live (wst w) fs ∧ ¬ fs_live f fs)) (World f m).

Lemma mount_spec s ps n mf m (Q : Z → world (vfs F) → Prop) :
  good s ps → mounts mf →
  (∀ r s' m', moved s s' ps zero zero → (r = 0 → ∃ fs, mounted s' ps n (Some fs)) → Q r (World s' m')) →
  wp (vfs_mount n mf) Q (World s m).
Proof.
  intros Hg Hmf HQ. unfold vfs_mount. rewrite wp_bind. apply kd_acquire_spec; [apply Hg|].
  pose proof (locked_start _ _ Hg) as Hl. set (s1 := set_kd_lock true s) in *. rewrite wp_bind.
  assert (∀ r s' m', locked s ps s' → r ≠ 0 → wp (kd_release;; mret r) Q (World s' m')) as Hfail.
  { intros r s' m' Hl' Hr. eapply (locked_end s ps s' n _ None); [done|done|].
    intros s0 m0 Hm0 _. by apply HQ. }
  eapply findmount_spec; [done|..].
  - intros m' _. rewrite wp_bind. zcode. rewrite wp_ret. by apply Hfail.
  - intros p kd m' Hp Hkd Hn. zcode. rewrite !wp_bind, wp_kof_Some, wp_bind. eapply getkd_spec; [done|].
    destruct (kd_fs kd) as [fs|] eqn:Hfs; cbn [isnull negb]; [rewrite wp_ret; by apply Hfail|].
    pose proof Hn as (_ & Hraw). destruct (locked_kd _ _ _ _ Hl Hp) as (kd' & Hkd' & Hok).
    rewrite Hkd in Hkd'. injection Hkd' as <-. pose proof (kd_raw_ok _ _ Hok Hraw) as Hdev.
    rewrite wp_bind, wp_kassert by (by destruct (kd_rawname kd)).
    rewrite wp_bind, wp_kassert by (by destruct (kd_device kd)). rewrite wp_bind.
    eapply (locked_fs _ s ps s1 m' (λ a f, fst a = 0 → ∃ fs, snd a = Some fs ∧ fs_live f fs ∧ ¬ fs_live (vfs_state s1) fs));
      [done| |].
    { eapply wp_mono; [apply Hmf; [by eapply locked_inv|done]|]. by intros [r o] w. }
    intros [r o] f m1 Hst Hr Hl1. cbn [fst snd] in Hr.
    destruct (Z.eqb_spec r 0) as [->|Hr0]; cbn [negb]; [|rewrite wp_ret; by apply Hfail].
    destruct (Hr eq_refl) as (fs & -> & Hlive & Hnew).
    rewrite wp_bind, wp_kassert by done. rewrite wp_bind. apply setkd_spec.
    rewrite wp_bind, wp_kof_Some, wp_bind.
    assert (locked s ps (set_kd_heap (<[p := set_kd_fs (Some fs) kd]> (kd_heap s1)) (set_state f s1))) as Hl2.
    { apply locked_set_fs; try done; [by apply step_kept|]. by intros ? [= <-]. }
    eapply getvolname_spec; [by eapply locked_inv|done|]. intros m2 _.
    rewrite wp_bind, wp_kassert, wp_ret by done.
    eapply (locked_end s ps _ n _ (Some fs)); [exact Hl2|intros _; by apply (mounted_set (set_state f s1))|].
    intros s0 m0 Hm0 Hmo. apply HQ; [done|]. eauto.
Qed.

Lemma unmountall_spec s ps m (Q : Z → world (vfs F) → Prop) :
  good s ps → (∀ s' m', moved s s' ps zero zero → Q 0 (World s' m')) → wp vfs_unmountall Q (World s m).
Proof.
  intros Hg HQ. unfold vfs_unmountall. rewrite wp_bind. apply kd_acquire_spec; [apply Hg|]. rewrite wp_bind.
  apply (each_dev_spec (λ _, locked s ps) _ ps); [by intros; eapply locked_array|by apply locked_start|..].
  2:{ intros s' m' Hl. rewrite wp_bind. eapply unlock_spec; [done|]. intros. rewrite wp_ret. by apply HQ. }
  intros i p s' m' Hp Hl. apply list_elem_of_lookup_2 in Hp.
  destruct (locked_kd _ _ _ _ Hl Hp) as (kd & Hkd & Hok). rewrite wp_bind. eapply getkd_spec; [done|].
  destruct (kd_rawname kd) as [raw|] eqn:Hraw; cbn [isnull]; [|by rewrite wp_ret].
  destruct (kd_fs kd) as [fs|] eqn:Hfs; [|by rewrite wp_ret].
  rewrite wp_bind. eapply sync_one; [done|by eapply kd_fs_ok|]. intros r f m1 Hst Hl1.
  assert (fs_live f fs) as Hlive by by apply Hst, (kd_fs_ok _ _ Hok).
  assert (∀ f2 m2, locked s ps (set_state f2 s') → wp
    (result ← on_fs (fs_unmount fs);
        if result =? EBUSY then mret (inl tt) else
        if negb (result =? 0) then mret (inl tt) else
        setkd p (set_kd_fs None kd);;
        mret (inl tt))
    (λ (r : unit + unit) w, match r with inl _ => locked s ps (wst w) | inr _ => wp (kd_release;; mret 0) Q w end)
    (World (set_state f2 s') m2)) as Hum.
  { intros f2 m2 Hl2. rewrite wp_bind. eapply (unmount_one s ps _ p kd fs); [done..|by rewrite Hraw| |].
    - intros r' f3 m3 Hr' Hl3. destruct (r' =? EBUSY); [by rewrite wp_ret|].
      rewrite (proj2 (Z.eqb_neq r' 0)) by done. cbn [negb]. by rewrite wp_ret.
    - intros f3 m3 Hl3. change (0 =? EBUSY) with false. cbn [Z.eqb negb]. rewrite wp_bind. apply setkd_spec.
      by rewrite wp_ret. }
  destruct (negb (r =? 0)).
  - rewrite wp_bind. eapply sync_one; [done|done|]. intros r2 f2 m2 Hst2 Hl2.
    destruct (negb (r2 =? 0)); [by rewrite wp_ret|]. by apply Hum.
  - rewrite wp_bind, wp_ret. cbn [Z.eqb negb]. by apply Hum.
Qed.

(** ** Adding devices *)

Lemma samestring_spec a n : samestring a (Some n) = true ↔ a = Some n.
Proof. destruct a as [a|]; cbn; [rewrite streq_spec; naive_solver|done]. Qed.

Lemma samestring3_spec a n1 n2 n3 :
  samestring3 a n1 n2 n3 = true ↔
  ∃ n, a = Some n ∧ (n1 = Some n ∨ n2 = Some n ∨ n3 = Some n).
Proof.
  assert (∀ a b, samestring a b = true ↔ ∃ n, a = Some n ∧ b = Some n) as Hss.
  { intros [x|] [y|]; cbn; rewrite ?streq_spec; naive_solver. }
  unfold samestring3. rewrite !orb_true_iff, !Hss. naive_solver.
Qed.

(** The names are claimed by no device. *)
Definition unclaimed (f : F) kds (ns : list (list Z)) : Prop :=
  ∀ kd n, kd ∈ kds → n ∈ ns → n ∉ kd_names f kd.

Definition opts (n1 n2 n3 : option (list Z)) : list (list Z) :=
  option_list n1 ++ option_list n2 ++ option_list n3.

Lemma elem_of_opts n n1 n2 n3 : n ∈ opts n1 n2 n3 ↔ n1 = Some n ∨ n2 = Some n ∨ n3 = Some n.
Proof. unfold opts. rewrite !elem_of_app, !in_option_list. done. Qed.

(** The tests of one round of [badnames]. *)
Lemma badname_kd f kd n1 n2 n3 :
  (match kd_fs kd with Some fs => samestring3 (volname f fs) n1 n2 n3 | None => false end
   || (samestring3 (kd_rawname kd) n1 n2 n3 || samestring3 (Some (kd_name kd)) n1 n2 n3)) = true ↔
  ∃ n, n ∈ opts n1 n2 n3 ∧ n ∈ kd_names f kd.
Proof.
  rewrite !orb_true_iff, !samestring3_spec. unfold kd_names.
  setoid_rewrite elem_of_opts. setoid_rewrite elem_of_cons. setoid_rewrite elem_of_app.
  destruct (kd_fs kd) as [fs|]; cbv iota;
    rewrite ?samestring3_spec; repeat setoid_rewrite in_option_list; repeat setoid_rewrite elem_of_nil; naive_solver.
Qed.

Lemma badnames_spec s kds ps n1 n2 n3 m (Q : bool → world (vfs F) → Prop) :
  good s ps → devs_at s ps kds →
  (∀ b m', m' `suffix_of` m → (b = false ↔ unclaimed (vfs_state s) kds (opts n1 n2 n3)) →
     Q b (World (set_kd_lock true s) m')) →
  wp (badnames n1 n2 n3) Q (World (set_kd_lock true s) m).
Proof.
  intros Hg Hd HQ. set (s1 := set_kd_lock true s) in *. unfold badnames.
  rewrite wp_bind, wp_kget. cbn [wst]. rewrite wp_bind, wp_kassert by done. rewrite wp_bind.
  apply (each_dev_world (λ i w, wst w = s1 ∧ wmem w `suffix_of` m ∧
           unclaimed (vfs_state s) (take i kds) (opts n1 n2 n3)) _ ps).
  - intros i w (-> & _). apply Hg.
  - split_and!; [done..|]. by intros ? ? ?%not_elem_of_nil.
  - intros i p [s' m'] Hp (Hs & Hm & Hbefore). cbn [wst wmem] in Hs, Hm. subst s'. destruct (Forall2_lookup_l _ _ _ _ _ Hd Hp) as (kd & Hi & Hkd).
    pose proof (gd_kd _ _ Hg p kd (list_elem_of_lookup_2 _ _ _ Hp) Hkd) as Hok.
    rewrite wp_bind. eapply getkd_spec; [exact Hkd|]. rewrite wp_bind.
    pose proof (badname_kd (vfs_state s) kd n1 n2 n3) as Hb.
    set (v := match kd_fs kd with Some fs => samestring3 _ n1 n2 n3 | None => false end) in Hb.
    set (b := samestring3 (kd_rawname kd) n1 n2 n3 || samestring3 (Some (kd_name kd)) n1 n2 n3) in *.
    assert (∀ m2, m2 `suffix_of` m → wp (if v then mret (inr tt) else if b then mret (inr tt) else mret (inl tt))
      (λ r w, match r with
              | inl _ => wst w = s1 ∧ wmem w `suffix_of` m ∧ unclaimed (vfs_state s) (take (S i) kds) (opts n1 n2 n3)
              | inr _ => wp (mret true) Q w end) (World s1 m2)) as Hrest.
    { intros m2 Hm2. destruct (v || b) eqn:E.
      - destruct (proj1 Hb eq_refl) as (n & Hn & Hkn).
        assert (Q true (World s1 m2)) as Ht.
        { apply HQ; [done|]. split; [done|]. intros Hu. by destruct (Hu kd n (list_elem_of_lookup_2 _ _ _ Hi) Hn). }
        destruct v; [by rewrite !wp_ret|]. destruct b; [by rewrite !wp_ret|done].
      - apply orb_false_iff in E as (-> & ->). rewrite wp_ret. split_and!; [done..|].
        intros kd' n. rewrite (take_S_r _ _ _ Hi), elem_of_app, list_elem_of_singleton.
        intros [Hk| ->] Hn; [by eapply Hbefore|]. intros Hkn.
        assert (false || false = true) by (apply Hb; eauto). done. }
    unfold v. destruct (kd_fs kd) as [fs|] eqn:Hfs.
    + rewrite wp_bind. eapply getvolname_spec; [apply Hg|by eapply kd_fs_ok|]. intros m2 Hm2. rewrite wp_ret.
      apply Hrest. by etrans.
    + rewrite wp_ret. by apply Hrest.
  - intros [s' m'] (Hs & Hm & Hall). cbn [wst wmem] in Hs, Hm. subst s'. rewrite wp_ret.
    apply HQ; [done|]. split; [|done]. intros _.
    by rewrite (Forall2_length _ _ _ Hd), firstn_all in Hall.
Qed.

Lemma kd_names_step f f' d o kd : step f f' d o → kd_ok f kd → kd_names f' kd = kd_names f kd.
Proof.
  intros (_ & _ & _ & Hl) Hok. unfold kd_names. destruct (kd_fs kd) as [fs|] eqn:Hfs; [|done].
  by destruct (Hl fs (kd_fs_ok _ _ Hok fs Hfs)) as (_ & ->).
Qed.

Lemma devs_own_app h ps qs x : devs_own h (ps ++ qs) x = devs_own h ps x + devs_own h qs x.
Proof. induction ps as [|p ps IH]; cbn; lia. Qed.

(** A device that is not in the table yet. *)
Lemma good_new_kd s ps p kd :
  good s ps → kd_heap s !! p = None → good (set_kd_heap (<[p := kd]> (kd_heap s)) s) ps.
Proof.
  intros Hg Hp. pose proof Hg as [Hi Hk Hb Ha Hin Hkd Hown Hcw Hap].
  assert (∀ q, q ∈ ps → <[p := kd]> (kd_heap s) !! q = kd_heap s !! q) as Hsame.
  { intros q Hq. apply lookup_insert_ne. intros <-. destruct (Hin p Hq). congruence. }
  split; cbn [set_kd_heap vfs_state knowndevs kd_heap knowndevs_lock bootfs_lock t_cwd]; try done.
  - intros q Hq. rewrite Hsame by done. by apply Hin.
  - intros q kq Hq. rewrite Hsame by done. by apply Hkd.
  - intros x. unfold own. cbn. rewrite (devs_own_same (kd_heap s)); [apply Hown|].
    intros q Hq. by rewrite Hsame.
  - intros q1 q2 k1 k2 fs H1 H2. rewrite !Hsame by done. by apply Hap.
Qed.

Lemma good_add s ps p kd a :
  good s ps → kd_heap s !! p = Some kd → kd_ok (vfs_state s) kd → kd_fs kd = None →
  array_rep a (Some <$> ps ++ [p]) → held s ps (kd_vnode kd) → good (set_knowndevs a s) (ps ++ [p]).
Proof.
  intros Hg Hp Hok Hfs Ha Hh. pose proof Hg as [Hi Hk Hb _ Hin Hkd Hown Hcw Hap].
  assert (∀ q, q ∈ ps ++ [p] → q ∈ ps ∨ q = p) as Hcase.
  { intros q. rewrite elem_of_app, list_elem_of_singleton. done. }
  split; cbn [set_knowndevs vfs_state knowndevs kd_heap knowndevs_lock bootfs_lock t_cwd]; try done.
  - intros q [Hq| ->]%Hcase; [by apply Hin|by rewrite Hp].
  - intros q kq [Hq| ->]%Hcase; [by apply Hkd|]. rewrite Hp. by intros [= <-].
  - intros x. unfold own. cbn. rewrite devs_own_app. cbn. rewrite Hp. cbn. unfold held, ext in Hh.
    specialize (Hown x). unfold own in *. unfold one. case_decide; [subst x|]; lia.
  - intros q1 q2 k1 k2 fs [H1| ->]%Hcase [H2| ->]%Hcase; [by apply Hap|..]; rewrite ?Hp; congruence.
Qed.

(** The table with the names of its devices. *)
Definition names_kept (f f' : F) kds : Prop := ∀ kd, kd ∈ kds → kd_names f' kd = kd_names f kd.

Lemma devs_at_ok s ps kds kd : good s ps → devs_at s ps kds → kd ∈ kds → kd_ok (vfs_state s) kd.
Proof.
  intros Hg Hd (i & Hi)%list_elem_of_lookup_1. destruct (Forall2_lookup_r _ _ _ _ _ Hd Hi) as (p & Hp & Hkd).
  eapply gd_kd; [done| |done]. by eapply list_elem_of_lookup_2.
Qed.

(** The entry [vfs_adddev] makes. *)
Definition new_kd (name : list Z) (mountable : bool) (dev : Z) (v : loc) : knowndev :=
  KnownDev name (if mountable then Some (name ++ RAW) else None) (Some dev) v None.

Lemma new_kd_ok f name mountable dev v : kd_ok f (new_kd name mountable dev v).
Proof. by split. Qed.

Lemma new_kd_names f name mountable dev v :
  kd_names f (new_kd name mountable dev v) =
  opts (Some name) (if mountable then Some (name ++ RAW) else None) None.
Proof. unfold kd_names, opts. cbn. by destruct mountable. Qed.

(** The second half of [vfs_doadd], for a device. *)
Lemma doadd_insert s ps kds p kd m (Q : Z → world (vfs F) → Prop) :
  good s ps → devs_at s ps kds → Z.of_nat (length ps) < ARRAY_LIMIT → false ∉ m →
  kd_heap s !! p = Some kd → kd_ok (vfs_state s) kd → kd_fs kd = None → held s ps (kd_vnode kd) →
  (∀ m', ¬ unclaimed (vfs_state s) kds (kd_names (vfs_state s) kd) → Q EEXIST (World s m')) →
  (∀ a m', unclaimed (vfs_state s) kds (kd_names (vfs_state s) kd) →
     good (set_knowndevs a s) (ps ++ [p]) → Q 0 (World (set_knowndevs a s) m')) →
  wp (kd_acquire;;
      bad ← badnames (Some (kd_name kd)) (kd_rawname kd) None;
      err ← (if (bad : bool) then mret EEXIST else on_devs (array_add p));
      kd_release;;
      mret err) Q (World s m).
Proof.
  intros Hg Hd Hlen Hmem Hp Hok Hfs Hh Hno Hyes. rewrite wp_bind. apply kd_acquire_spec; [apply Hg|].
  assert (opts (Some (kd_name kd)) (kd_rawname kd) None = kd_names (vfs_state s) kd) as En.
  { unfold opts, kd_names. rewrite Hfs. done. }
  rewrite wp_bind. eapply badnames_spec; [done..|]. rewrite En. intros b m' Hm' Hb.
  assert (set_kd_lock false (set_kd_lock true s) = s) as Hrel.
  { pose proof (gd_kl _ _ Hg). destruct s; cbn in *. by subst. }
  assert (∀ a, set_kd_lock false (set_knowndevs a (set_kd_lock true s)) = set_knowndevs a s) as Hrel'.
  { intros a. pose proof (gd_kl _ _ Hg). destruct s; cbn in *. by subst. }
  destruct b.
  - rewrite wp_bind, wp_ret, wp_bind. apply kd_release_spec. rewrite Hrel, wp_ret. apply Hno.
    intros Hu. by apply Hb in Hu.
  - assert (unclaimed (vfs_state s) kds (kd_names (vfs_state s) kd)) as Hu by by apply Hb.
    rewrite wp_bind. unfold on_devs. rewrite wp_zoom. pose proof (gd_array _ _ Hg) as Ha.
    eapply (array_add_spec (knowndevs s) (Some <$> ps)); [done|done| | |].
    + destruct Ha as (-> & _). by rewrite length_fmap.
    + intros m1 _ Hf _. destruct Hmem. by eapply pending_suffix.
    + intros a m1 Ha' _ _. cbn [wst wmem]. rewrite wp_bind. apply kd_release_spec. rewrite Hrel', wp_ret.
      apply Hyes; [done|]. eapply good_add; try done. by rewrite fmap_app.
Qed.

Lemma adddev_spec s ps kds name dev mountable m (Q : Z → world (vfs F) → Prop) :
  good s ps → devs_at s ps kds → dev_valid (vfs_state s) dev → false ∉ m →
  Z.of_nat (length ps) < ARRAY_LIMIT →
  let ns := kd_names (vfs_state s) (new_kd name mountable dev 1%positive) in
  (∀ s' m', ¬ unclaimed (vfs_state s) kds ns →
     good s' ps → devs_at s' ps kds → names_kept (vfs_state s) (vfs_state s') kds → Q EEXIST (World s' m')) →
  (∀ p v s' m', unclaimed (vfs_state s) kds ns → vrefs s v = 0 →
     good s' (ps ++ [p]) → devs_at s' (ps ++ [p]) (kds ++ [new_kd name mountable dev v]) →
     (∀ x, vrefs s' x = vrefs s x + one v x ∧ vopens s' x = vopens s x) →
     t_cwd s' = t_cwd s → bootfs_vnode s' = bootfs_vnode s →
     names_kept (vfs_state s) (vfs_state s') kds → Q 0 (World s' m')) →
  wp (vfs_adddev name dev mountable) Q (World s m).
Proof.
  intros Hg Hd Hdev Hm Hlen ns Hno Hyes. unfold vfs_adddev, vfs_doadd.
  rewrite wp_bind. apply wp_kmalloc; [|done]. cbn [wst wmem negb]. intros m1 Hm1.
  assert (∀ m, false ∉ m → wp (if mountable then mkrawname name else mret None)
    (λ o w, o = (if mountable then Some (name ++ RAW) else None) ∧ wst w = s ∧ false ∉ wmem w) (World s m)) as Hraw.
  { intros m' Hm'. destruct mountable; [|by rewrite wp_ret]. unfold mkrawname. rewrite wp_bind.
    apply wp_kmalloc; [|done]. cbn [wst wmem]. intros m2 Hm2. rewrite wp_ret. split_and!; [done..|].
    by intros ?%(pending_suffix _ _ Hm2). }
  rewrite wp_bind. eapply wp_mono; [apply Hraw; by intros ?%(pending_suffix _ _ Hm1)|].
  intros raw [s' m2] (-> & Hs & Hm2). cbn [wst wmem] in Hs, Hm2. subst s'.
  replace (mountable && isnull _) with false by by destruct mountable.
  rewrite wp_bind. eapply on_fs_wp; [by apply (law_dev_vnode _ dev), Hm2; [apply Hg|]|].
  intros o f m3 (Hm3 & v & -> & Hv0 & Hst). cbn [wst wmem] in Hst, Hm3.
  rewrite wp_bind. apply wp_kmalloc; [|done]. cbn [wst wmem negb]. intros m4 Hm4.
  rewrite wp_bind, wp_kget. cbn [wst]. set (s1 := set_state f s). set (p := fresh _).
  assert (kd_heap s !! p = None) as Hp by apply not_elem_of_dom, (is_fresh (dom (kd_heap s))).
  rewrite wp_bind. apply setkd_spec. rewrite wp_bind, wp_ret.
  change (KnownDev name _ (Some dev) v None) with (new_kd name mountable dev v).
  set (kd := new_kd name mountable dev v). set (s2 := set_kd_heap _ _).
  assert (vstep s s1 (one v) zero) as Hvs by by apply vstep_set.
  assert (good s1 ps) as Hg1 by (eapply good_step; [exact Hg|exact Hvs|counts]).
  assert (good s2 ps) as Hg2 by by apply good_new_kd.
  assert (devs_at s2 ps kds) as Hd2.
  { eapply Forall2_impl; [exact Hd|]. cbn. intros q kq Hkq. rewrite lookup_insert_ne; [done|]. congruence. }
  assert (names_kept (vfs_state s) f kds) as Hkept.
  { intros kq Hkq. eapply kd_names_step; [exact Hst|]. by eapply devs_at_ok. }
  assert (unclaimed (vfs_state s2) kds (kd_names (vfs_state s2) kd) ↔ unclaimed (vfs_state s) kds ns) as Hun.
  { unfold unclaimed, kd, ns. rewrite !new_kd_names. cbn [s2 s1 set_kd_heap set_state vfs_state].
    split; intros H kq n Hkq Hn; specialize (H kq n Hkq Hn); by rewrite Hkept in *. }
  assert (held s2 ps v) as Hheld.
  { unfold held, ext. assert (own s2 ps v = own s ps v) as ->.
    { unfold own. cbn. f_equal. apply devs_own_same. intros q Hq. rewrite lookup_insert_ne; [done|].
      intros <-. destruct (gd_in _ _ Hg p Hq). congruence. }
    pose proof (gd_own _ _ Hg v). change (vrefs s2 v) with (refs f v). change (vopens s2 v) with (opens f v).
    destruct Hst as (_ & Hc & _). destruct (Hc v) as [-> ->]. rewrite one_eq. unfold zero. lia. }
  eapply (doadd_insert s2 ps kds p kd); [done..| |by cbn; rewrite lookup_insert_eq|apply new_kd_ok|done|done| |].
  - by intros ?%(pending_suffix _ _ Hm4).
  - intros m5 Hu. apply Hno; [|done..]. by rewrite <- Hun.
  - intros a m5 Hu Hga. apply (Hyes p v); [by apply Hun|done|done| | |done..].
    + apply Forall2_app; [exact Hd2|]. constructor; [|done]. cbn. by rewrite lookup_insert_eq.
    + intros x. destruct Hst as (_ & Hc & _). destruct (Hc x) as [Hr Ho]. unfold zero in Ho. split; [done|].
      cbn. lia.
Qed.
End table.
