(* ===== verification/Device.v ===== *)
(** * Devices as vnodes (kern/fs/vfs/device.c, devnull.c)

    A vnode of a device hands every operation on to its driver or refuses it.
    The functions of the drivers are the class [DeviceOps] on a state [D]; the
    null device is one instance. *)

From S2P Require Import Prelude Array Bitmap CopyInOut Uio Lhd SfsDisk SfsFile SfsVnode Vfs.

Definition ESPIPE : Z := 12.
Definition S_IFCHR : Z := 16384.
Definition S_IFBLK : Z := 20480.

(** [d_open], [d_close], [d_io] and [d_ioctl] of a driver. *)
Class DeviceOps (D : Type) : Type := {
  d_open : Z → Z → K D Z;
  d_close : Z → K D Z;
  d_io : Z → uio → K D (Z * uio);
  d_ioctl : Z → Z → Z → K D Z
}.

Record device : Type := Device { d_blocks : Z; d_blocksize : Z }.

(** A vnode whose [vn_data] is a pointer to a device. *)
Record dvnode : Type := DVnode { dv_refcount : Z; dv_opencount : Z; dv_data : option Z }.

(** Vnodes, devices, and the state of the drivers. *)
Record devs (D : Type) : Type := Devs {
  dv_heap : gmap loc dvnode;
  dv_devices : gmap Z device;
  dv_drivers : D;
  dv_space : uspace
}.

Arguments Devs {D} _ _ _ _.
Arguments dv_heap {D} d.
Arguments dv_devices {D} d.
Arguments dv_drivers {D} d.
Arguments dv_space {D} d.

Section device.
Context {D : Type} `{!DeviceOps D}.

Definition set_dv_heap (h : gmap loc dvnode) (s : devs D) : devs D :=
  Devs h (dv_devices s) (dv_drivers s) (dv_space s).
Definition set_dv_devices (t : gmap Z device) (s : devs D) : devs D :=
  Devs (dv_heap s) t (dv_drivers s) (dv_space s).
Definition set_dv_drivers (d : D) (s : devs D) : devs D :=
  Devs (dv_heap s) (dv_devices s) d (dv_space s).
Definition set_dv_space (u : uspace) (s : devs D) : devs D :=
  Devs (dv_heap s) (dv_devices s) (dv_drivers s) u.

Definition on_driver {A} (c : K D A) : K (devs D) A := zoom dv_drivers set_dv_drivers c.

Definition getdv (v : loc) : K (devs D) dvnode := s ← kget; kof (dv_heap s !! v).
Definition setdv (v : loc) (x : dvnode) : K (devs D) unit :=
  s ← kget; kput (set_dv_heap (<[v := x]> (dv_heap s)) s).

(** [v->vn_data], and the structure it points to. *)
Definition vdata (v : loc) : K (devs D) Z := x ← getdv v; kof (dv_data x).
Definition vdevice (v : loc) : K (devs D) device :=
  d ← vdata v; s ← kget; kof (dv_devices s !! d).

(** ** Operations of the table [dev_vnode_ops] *)

Definition dev_open (v : loc) (flags : Z) : K (devs D) Z :=
  if negb (Z.land flags (Z.lor (Z.lor (Z.lor O_CREAT O_TRUNC) O_EXCL) O_APPEND) =? 0)
  then mret EINVAL
  else d ← vdata v; on_driver (d_open d flags).

Definition dev_close (v : loc) : K (devs D) Z := d ← vdata v; on_driver (d_close d).

Definition dev_reclaim (v : loc) : K (devs D) Z := mret 0.

Definition dev_read (v : loc) (u : uio) : K (devs D) (Z * uio) :=
  d ← vdata v;
  kassert (bool_decide (uio_rw u = UIO_READ));;
  on_driver (d_io d u).

Definition null_io (v : loc) (u : uio) : K (devs D) (Z * uio) := mret (EINVAL, u).

Definition dev_write (v : loc) (u : uio) : K (devs D) (Z * uio) :=
  d ← vdata v;
  kassert (bool_decide (uio_rw u = UIO_WRITE));;
  on_driver (d_io d u).

Definition dev_ioctl (v : loc) (op data : Z) : K (devs D) Z :=
  d ← vdata v; on_driver (d_ioctl d op data).

(** The error code and the type. *)
Definition dev_gettype (v : loc) : K (devs D) (Z * Z) :=
  d ← vdevice v;
  mret (0, if 0 <? d_blocks d then S_IFBLK else S_IFCHR).

Definition dev_stat (v : loc) : K (devs D) (Z * stat) :=
  '(result, mode) ← dev_gettype v;
  if negb (result =? 0) then mret (result, Stat mode 0 0 0) else
  d ← vdevice v;
  mret (0, Stat mode 1 (if 0 <? d_blocks d then i32 (u32 (d_blocks d * d_blocksize d)) else 0)
             (d_blocks d)).

(** The position is converted to unsigned for the remainder and the quotient. *)
Definition dev_tryseek (v : loc) (pos : Z) : K (devs D) Z :=
  d ← vdevice v;
  if 0 <? d_blocks d then
    if d_blocksize d =? 0 then kundef else
    if negb (u32 pos mod d_blocksize d =? 0) then mret EINVAL else
    if pos <? 0 then mret EINVAL else
    if d_blocks d <=? u32 pos / d_blocksize d then mret EINVAL else
    mret 0
  else mret ESPIPE.

Definition null_fsync (v : loc) : K (devs D) Z := mret 0.

Definition dev_mmap (v : loc) : K (devs D) Z := mret EUNIMP.

Definition dev_truncate (v : loc) (len : Z) : K (devs D) Z :=
  d ← vdevice v;
  if (0 <? d_blocks d) && (i32 (u32 (d_blocks d * d_blocksize d)) =? len) then mret 0
  else mret EINVAL.

Definition dev_namefile (v : loc) (u : uio) : K (devs D) (Z * uio) := mret (0, u).

Definition null_creat (v : loc) (name : list Z) (excl : bool) : K (devs D) (Z * option loc) :=
  mret (ENOTDIR, None).

Definition null_symlink (v : loc) (contents name : list Z) : K (devs D) Z := mret ENOTDIR.

Definition null_nameop (v : loc) (name : list Z) : K (devs D) Z := mret ENOTDIR.

Definition null_link (v : loc) (name : list Z) (file : loc) : K (devs D) Z := mret ENOTDIR.

Definition null_rename (v : loc) (n1 : list Z) (v2 : loc) (n2 : list Z) : K (devs D) Z := mret ENOTDIR.

(** ** Reference counts (vnode.c) of these vnodes *)

Definition dvnode_incref (v : loc) : K (devs D) unit :=
  x ← getdv v; setdv v (DVnode (i32 (dv_refcount x + 1)) (dv_opencount x) (dv_data x)).

Definition dvnode_decref (v : loc) : K (devs D) unit :=
  x ← getdv v;
  kassert (0 <? dv_refcount x);;
  if 1 <? dv_refcount x then setdv v (DVnode (dv_refcount x - 1) (dv_opencount x) (dv_data x))
  else _ ← dev_reclaim v; mret tt.

Definition dvnode_incopen (v : loc) : K (devs D) unit :=
  x ← getdv v; setdv v (DVnode (dv_refcount x) (i32 (dv_opencount x + 1)) (dv_data x)).

Definition dvnode_decopen (v : loc) : K (devs D) unit :=
  x ← getdv v;
  kassert (0 <? dv_opencount x);;
  let opencount := dv_opencount x - 1 in
  setdv v (DVnode (dv_refcount x) opencount (dv_data x));;
  if 0 <? opencount then mret tt else _ ← dev_close v; mret tt.

(** ** Name lookup *)

Definition dev_lookup (dir : loc) (pathname : list Z) : K (devs D) (Z * option loc) :=
  if 0 <? Z.of_nat (length pathname) then mret (ENOENT, None) else
  dvnode_incref dir;;
  mret (0, Some dir).

Definition dev_lookparent (dir : loc) (pathname : list Z) (buflen : Z)
    : K (devs D) (Z * option loc * list Z) := mret (ENOTDIR, None, []).

(** [VOP_INIT] takes memory for the lock. *)
Definition dev_create_vnode (dev : option Z) : K (devs D) (option loc) :=
  ok ← kmalloc_ok;
  if negb ok then mret None else
  ok ← lock_create_ok;
  if negb ok then kpanic else
  s ← kget;
  let v := fresh (dom (dv_heap s)) in
  setdv v (DVnode 1 0 dev);;
  mret (Some v).
End device.

(** ** The null device (devnull.c) *)

Definition nullopen (dev openflags : Z) : K unit Z := mret 0.

Definition nullclose (dev : Z) : K unit Z := mret 0.

Definition nullio (dev : Z) (u : uio) : K unit (Z * uio) :=
  if bool_decide (uio_rw u = UIO_WRITE) then mret (0, set_resid 0 u) else mret (0, u).

Definition nullioctl (dev op data : Z) : K unit Z := mret EINVAL.

#[export] Instance null_device : DeviceOps unit := {|
  d_open := nullopen;
  d_close := nullclose;
  d_io := nullio;
  d_ioctl := nullioctl
|}.
