(* ===== verification/DeviceProps.v ===== *)
(** * Device vnodes meet the contract of the VFS layer

    The state of the contract is that of Device.v and the number of references
    handed out to each vnode; the two agree while there are any (a device vnode
    keeps the count 1 when its last reference is dropped). *)

From S2P Require Import Prelude Array Bitmap CopyInOut Uio Lhd SfsDisk SfsFile SfsVnode SfsTable Vfs VfsSpec Device.

(** The functions of a driver that are called without a request return. *)
Class DeviceTotal (D : Type) `{!DeviceOps D} : Prop := {
  d_open_total d flags w : wp (d_open d flags) (λ _ _, True) w;
  d_close_total d w : wp (d_close d) (λ _ _, True) w
}.

#[export] Instance null_total : DeviceTotal unit.
Proof. split; intros; done. Qed.

(** ** Seeking *)

(** [dev_tryseek] accepts exactly the positions that are inside the device
    and at the start of a block; a device without blocks refuses every seek. *)
Theorem dev_tryseek_exact {D} `{!DeviceOps D} (s : devs D) v x d dev pos m
    (Hv : dv_heap s !! v = Some x) (Hd : dv_data x = Some d) (Hdev : dv_devices s !! d = Some dev)
    (Hb : 0 ≤ d_blocks dev) (Hsz : 0 < d_blocksize dev) (Hpos : - 2 ^ 31 ≤ pos < 2 ^ 31) :
  wp (dev_tryseek v pos) (λ r w', wst w' = s ∧
      (r = 0 ↔ 0 < d_blocks dev ∧ ∃ k, 0 ≤ k < d_blocks dev ∧ pos = k * d_blocksize dev)) (World s m).
Proof.
  unfold dev_tryseek, vdevice, vdata, getdv. rewrite !wp_bind, wp_kget. cbn [wst].
  rewrite Hv, wp_kof_Some, Hd, wp_kof_Some, wp_bind, wp_kget. cbn [wst]. rewrite Hdev, wp_kof_Some.
  destruct (Z.ltb_spec 0 (d_blocks dev)) as [Hpos'|Hneg].
  2:{ rewrite wp_ret. split; [done|]. split; [done|lia]. }
  rewrite (proj2 (Z.eqb_neq (d_blocksize dev) 0)) by lia.
  destruct (Z.ltb_spec pos 0) as [Hn|Hn].
  - assert (∀ k, 0 ≤ k < d_blocks dev → pos ≠ k * d_blocksize dev) as Hno by nia.
    destruct (negb _); rewrite wp_ret; (split; [done|]); (split; [done|]); intros (_ & k & Hk & E);
      by destruct (Hno k Hk).
  - assert (u32 pos = pos) as -> by (apply u32_id; lia).
    destruct (Z.eqb_spec (pos mod d_blocksize dev) 0) as [Ha|Ha]; cbn [negb].
    + destruct (Z.leb_spec (d_blocks dev) (pos / d_blocksize dev)) as [Hb'|Hb']; rewrite wp_ret;
        (split; [done|]); (split; [|]).
      * done.
      * intros (_ & k & Hk & ->). rewrite Z.div_mul in Hb' by lia. lia.
      * intros _. split; [done|]. exists (pos / d_blocksize dev). split; [split; [apply Z.div_pos; lia|done]|].
        rewrite Z.mul_comm. apply Z_div_exact_full_2; lia.
      * done.
    + rewrite wp_ret. split; [done|]. split; [done|]. intros (_ & k & Hk & ->).
      by rewrite Z.mod_mul in Ha by lia.
Qed.

Definition disk_devs : devs unit :=
  Devs {[1%positive := DVnode 1 0 (Some 7)]} {[7 := Device 64 512]} tt (USpace None ∅).

Lemma dev_tryseek_exact_witness :
  wp (dev_tryseek 1%positive 1024) (λ r w', wst w' = disk_devs ∧
      (r = 0 ↔ 0 < 64 ∧ ∃ k, 0 ≤ k < 64 ∧ 1024 = k * 512)) (World disk_devs []).
Proof.
  apply (dev_tryseek_exact disk_devs 1%positive (DVnode 1 0 (Some 7)) 7 (Device 64 512) 1024 []);
    done || cbn; lia.
Defined.

(** ** The contract *)

Record dvs (D : Type) : Type := Dvs { dvs_devs : devs D; dvs_held : gmap loc Z }.

Arguments Dvs {D} _ _.
Arguments dvs_devs {D} d.
Arguments dvs_held {D} d.

Section contract.
Context {D : Type} `{!DeviceOps D, !DeviceTotal D}.

Definition set_dvs_devs (d : devs D) (s : dvs D) : dvs D := Dvs d (dvs_held s).

Definition lift {A} (c : K (devs D) A) : K (dvs D) A := zoom dvs_devs set_dvs_devs c.

Definition held_of (s : dvs D) (v : loc) : Z := default 0 (dvs_held s !! v).

(** Note a reference handed out or given back. *)
Definition note (v : loc) (d : Z) : K (dvs D) unit :=
  s ← kget; kput (Dvs (dvs_devs s) (<[v := held_of s v + d]> (dvs_held s))).

Definition no_fs {A} : K (dvs D) A := kundef.

#[export] Instance dev_vnodes : Vnodes (dvs D) := {|
  vn_fs _ _ := None;
  vop_incref v := lift (dvnode_incref v);; note v 1;
  vop_decref v := lift (dvnode_decref v);; note v (-1);
  vop_incopen v := lift (dvnode_incopen v);
  vop_decopen v := lift (dvnode_decopen v);
  vop_open v flags := lift (dev_open v flags);
  vop_gettype v := lift (dev_gettype v);
  vop_truncate v len := lift (dev_truncate v len);
  vop_namefile v u := lift (dev_namefile v u);
  vop_readlink v u := lift (null_io v u);
  vop_creat v n excl := lift (null_creat v n excl);
  vop_symlink v c n := lift (null_symlink v c n);
  vop_mkdir v n := lift (null_nameop v n);
  vop_rmdir v n := lift (null_nameop v n);
  vop_remove v n := lift (null_nameop v n);
  vop_link v n f := lift (null_link v n f);
  vop_rename v n v' n' := lift (null_rename v n v' n');
  vop_lookup v path :=
    r ← lift (dev_lookup v path);
    if fst r =? 0 then note v 1;; mret r else mret r;
  vop_lookparent v path len := lift (dev_lookparent v path len);
  fs_sync _ := no_fs;
  fs_getvolname _ := no_fs;
  fs_getroot _ := no_fs;
  fs_unmount _ := no_fs;
  dev_vnode dev :=
    o ← lift (dev_create_vnode dev);
    match o with Some v => note v 1;; mret o | None => mret o end;
  dev_vnode_free v := s ← kget; kput (Dvs (set_dv_heap (delete v (dv_heap (dvs_devs s))) (dvs_devs s))
                                        (delete v (dvs_held s)));
  vn_space s := dv_space (dvs_devs s);
  vn_set_space u s := set_dvs_devs (set_dv_space u (dvs_devs s)) s
|}.

Record dv_ok (s : dvs D) : Prop := DvOk {
  dk_alive v : 1 ≤ held_of s v → is_Some (dv_heap (dvs_devs s) !! v);
  dk_new v : dv_heap (dvs_devs s) !! v = None → dvs_held s !! v = None;
  dk_count v x : dv_heap (dvs_devs s) !! v = Some x → 1 ≤ held_of s v → dv_refcount x = held_of s v;
  dk_open v x : dv_heap (dvs_devs s) !! v = Some x → 0 ≤ dv_opencount x ≤ held_of s v;
  dk_data v x : dv_heap (dvs_devs s) !! v = Some x →
    ∃ d, dv_data x = Some d ∧ is_Some (dv_devices (dvs_devs s) !! d)
}.

Definition opens_of (s : dvs D) (v : loc) : Z :=
  match dv_heap (dvs_devs s) !! v with Some x => dv_opencount x | None => 0 end.

Definition dstep (s s' : dvs D) (d o : loc → Z) : Prop :=
  dv_ok s' ∧ ∀ x, held_of s' x = held_of s x + d x ∧ opens_of s' x = opens_of s x + o x.

(** A step that changes one vnode. *)
Record changes (s s' : dvs D) (v : loc) (x' : dvnode) : Prop := Changes {
  ch_heap : dv_heap (dvs_devs s') = <[v := x']> (dv_heap (dvs_devs s));
  ch_devices : dv_devices (dvs_devs s') = dv_devices (dvs_devs s);
  ch_held y : y ≠ v → dvs_held s' !! y = dvs_held s !! y
}.

Lemma changes_ok s s' v x' :
  dv_ok s → changes s s' v x' →
  (∃ d, dv_data x' = Some d ∧ is_Some (dv_devices (dvs_devs s) !! d)) →
  (1 ≤ held_of s' v → dv_refcount x' = held_of s' v) →
  0 ≤ dv_opencount x' ≤ held_of s' v → dv_ok s'.
Proof.
  intros Hok [Hh Hd Hg] Hdat Hr Ho.
  assert (∀ y, y ≠ v → held_of s' y = held_of s y) as Hg'.
  { intros y Hy. unfold held_of. by rewrite Hg. }
  split; rewrite Hh, ?Hd; intros y; destruct (decide (y = v)) as [->|Hy];
    rewrite ?lookup_insert_eq, ?lookup_insert_ne, ?Hg' by done; rewrite ?Hg by done.
  - eauto.
  - apply Hok.
  - done.
  - apply Hok.
  - by intros ? [= <-].
  - apply Hok.
  - by intros ? [= <-].
  - apply Hok.
  - by intros ? [= <-].
  - apply Hok.
Qed.

Lemma changes_step s s' v x x' d o :
  dv_ok s → dv_heap (dvs_devs s) !! v = Some x → changes s s' v x' → dv_data x' = dv_data x →
  held_of s' v = held_of s v + d v → dv_opencount x' = dv_opencount x + o v →
  (∀ y, y ≠ v → d y = 0 ∧ o y = 0) →
  (1 ≤ held_of s' v → dv_refcount x' = held_of s' v) →
  0 ≤ dv_opencount x' ≤ held_of s' v → dstep s s' d o.
Proof.
  intros Hok Hx Hch Hdat Hv Ho Hne Hr Hoc. split.
  - eapply changes_ok; [done..| |done|done]. rewrite Hdat. by eapply dk_data.
  - intros y. destruct Hch as [Hh Hd Hg]. unfold opens_of. rewrite Hh.
    destruct (decide (y = v)) as [->|Hy].
    + rewrite lookup_insert_eq, Hx. done.
    + rewrite lookup_insert_ne by done. unfold held_of. rewrite Hg by done.
      destruct (Hne y Hy). lia.
Qed.

Lemma dstep_refl s : dv_ok s → dstep s s zero zero.
Proof. intros. split; [done|]. unfold zero. intros. lia. Qed.

(** A step of the drivers. *)
Lemma dstep_drivers s d : dv_ok s → dstep s (set_dvs_devs (set_dv_drivers d (dvs_devs s)) s) zero zero.
Proof. intros [? ? ? ? ?]. split; [by split|]. intros. unfold zero, opens_of, held_of. cbn. lia. Qed.

Lemma wp_lift {A} (c : K (devs D) A) Q s m :
  wp c (λ a w, Q a (World (set_dvs_devs (wst w) s) (wmem w))) (World (dvs_devs s) m) →
  wp (lift c) Q (World s m).
Proof. intros H. unfold lift. by rewrite wp_zoom. Qed.

Lemma wp_on_driver {A} (c : K D A) (s : devs D) m :
  (∀ w, wp c (λ _ _, True) w) →
  wp (on_driver c) (λ _ w, ∃ d, wst w = set_dv_drivers d s) (World s m).
Proof.
  intros H. unfold on_driver. rewrite wp_zoom. eapply wp_mono; [apply H|]. cbn. eauto.
Qed.

Lemma wp_getdv (s : devs D) v x Q m :
  dv_heap s !! v = Some x → Q x (World s m) → wp (getdv v) Q (World s m).
Proof. intros Hx HQ. unfold getdv. rewrite wp_bind, wp_kget. cbn [wst]. by rewrite Hx, wp_kof_Some. Qed.

Lemma wp_note s v d Q m :
  Q tt (World (Dvs (dvs_devs s) (<[v := held_of s v + d]> (dvs_held s))) m) → wp (note v d) Q (World s m).
Proof. intros HQ. unfold note. by rewrite wp_bind, wp_kget, wp_kput. Qed.

Lemma alive s v : dv_ok s → 1 ≤ held_of s v →
  ∃ x d, dv_heap (dvs_devs s) !! v = Some x ∧ dv_refcount x = held_of s v ∧
    0 ≤ dv_opencount x ≤ held_of s v ∧ dv_data x = Some d ∧ is_Some (dv_devices (dvs_devs s) !! d) ∧
    opens_of s v = dv_opencount x.
Proof.
  intros Hok Hv. destruct (dk_alive s Hok v Hv) as [x Hx]. destruct (dk_data s Hok v x Hx) as (d & Hd & Hdev).
  exists x, d. unfold opens_of. rewrite Hx. split_and!; try done; by eapply dk_count || by eapply dk_open.
Qed.

(** The vnode [v] has been replaced and its references noted. *)
Definition put_back (s : dvs D) (v : loc) (x : dvnode) (n : Z) : dvs D :=
  Dvs (set_dv_heap (<[v := x]> (dv_heap (dvs_devs s))) (dvs_devs s)) (<[v := n]> (dvs_held s)).

Lemma put_back_step s v x x' n d o :
  dv_ok s → dv_heap (dvs_devs s) !! v = Some x → dv_data x' = dv_data x →
  n = held_of s v + d v → dv_opencount x' = dv_opencount x + o v →
  (∀ y, y ≠ v → d y = 0 ∧ o y = 0) → (1 ≤ n → dv_refcount x' = n) → 0 ≤ dv_opencount x' ≤ n →
  dstep s (put_back s v x' n) d o.
Proof.
  intros. assert (held_of (put_back s v x' n) v = n) as E.
  { unfold held_of. cbn. by rewrite lookup_insert_eq. }
  eapply changes_step; rewrite ?E; try done. split; try done. intros. cbn. by rewrite lookup_insert_ne.
Qed.

Lemma dv_incref s v m : dv_ok s → 1 ≤ held_of s v < MAXREF →
  wp (lift (dvnode_incref v);; note v 1) (λ _ w, dstep s (wst w) (one v) zero) (World s m).
Proof.
  intros Hok Hv. destruct (alive s v Hok) as (x & d & Hx & Hr & Ho & Hd & _); [lia|].
  rewrite wp_bind. apply wp_lift. unfold dvnode_incref. rewrite wp_bind. eapply wp_getdv; [done|].
  unfold setdv. rewrite wp_bind, wp_kget, wp_kput. apply wp_note. cbn [wst wmem].
  change (held_of (set_dvs_devs _ s) v) with (held_of s v).
  eapply (put_back_step s v x); unfold one, zero; cbn; try done; try lia.
  - rewrite decide_True by done. lia.
  - intros y Hy. by rewrite decide_False by done.
  - intros _. rewrite Hr. apply i32_id. unfold MAXREF in Hv. lia.
Qed.

Lemma opens_nonneg s v : dv_ok s → 0 ≤ opens_of s v ≤ held_of s v.
Proof.
  intros Hok. unfold opens_of. destruct (dv_heap (dvs_devs s) !! v) as [x|] eqn:Hx.
  - by eapply dk_open.
  - unfold held_of. by rewrite (dk_new s Hok v Hx).
Qed.

Lemma dv_decref s v m : dv_ok s → opens_of s v < held_of s v →
  wp (lift (dvnode_decref v);; note v (-1)) (λ _ w, dstep s (wst w) (less v) zero) (World s m).
Proof.
  intros Hok Hv. pose proof (opens_nonneg s v Hok).
  destruct (alive s v Hok) as (x & d & Hx & Hr & Ho & Hd & _ & Hop); [lia|].
  rewrite wp_bind. apply wp_lift. unfold dvnode_decref. rewrite wp_bind. eapply wp_getdv; [done|].
  rewrite wp_bind, wp_kassert by (apply Z.ltb_lt; lia).
  assert (∀ x', dv_data x' = dv_data x → dv_opencount x' = dv_opencount x →
    (1 ≤ held_of s v - 1 → dv_refcount x' = held_of s v - 1) →
    dstep s (put_back s v x' (held_of s v + -1)) (less v) zero) as Hput.
  { intros x' Ed Eo Er. eapply (put_back_step s v x); unfold less, one, zero; try done; try lia.
    - rewrite decide_True by done. lia.
    - intros y Hy. by rewrite decide_False by done. }
  destruct (Z.ltb_spec 1 (dv_refcount x)).
  - unfold setdv. rewrite wp_bind, wp_kget, wp_kput. apply wp_note. cbn [wst wmem].
    apply Hput; cbn; lia || done.
  - unfold dev_reclaim. rewrite wp_bind, !wp_ret. apply wp_note. cbn [wst wmem].
    replace (Dvs _ _) with (put_back s v x (held_of s v + -1)); [apply Hput; lia || done|].
    unfold put_back, set_dvs_devs. cbn. rewrite insert_id by done. by destruct s as [[] ?].
Qed.

(** The vnode [v] has been replaced, its references kept. *)
Lemma replaced_step s v x x' d o st :
  dv_ok s → dv_heap (dvs_devs s) !! v = Some x → dv_data x' = dv_data x →
  dv_heap st = <[v := x']> (dv_heap (dvs_devs s)) → dv_devices st = dv_devices (dvs_devs s) →
  d v = 0 → dv_opencount x' = dv_opencount x + o v →
  (∀ y, y ≠ v → d y = 0 ∧ o y = 0) → (1 ≤ held_of s v → dv_refcount x' = held_of s v) →
  0 ≤ dv_opencount x' ≤ held_of s v → dstep s (set_dvs_devs st s) d o.
Proof.
  intros. eapply changes_step; try done. change (held_of (set_dvs_devs st s) v) with (held_of s v). lia.
Qed.

Lemma dv_incopen s v m : dv_ok s → opens_of s v < held_of s v < MAXREF →
  wp (lift (dvnode_incopen v)) (λ _ w, dstep s (wst w) zero (one v)) (World s m).
Proof.
  intros Hok Hv. pose proof (opens_nonneg s v Hok).
  destruct (alive s v Hok) as (x & d & Hx & Hr & Ho & Hd & _ & Hop); [lia|].
  apply wp_lift. unfold dvnode_incopen. rewrite wp_bind. eapply wp_getdv; [done|].
  unfold setdv. rewrite wp_bind, wp_kget, wp_kput. cbn [wst wmem].
  assert (i32 (dv_opencount x + 1) = dv_opencount x + 1) as E.
  { apply i32_id. unfold MAXREF in Hv. lia. }
  set (x' := DVnode _ _ _).
  eapply (replaced_step s v x x'); unfold one, zero; cbn [x' dv_opencount dv_refcount]; try done; rewrite ?E; try lia.
  - by rewrite decide_True.
  - intros y Hy. by rewrite decide_False by done.
Qed.

Lemma wp_vdata (s : dvs D) v x d Q m :
  dv_heap (dvs_devs s) !! v = Some x → dv_data x = Some d → Q d (World (dvs_devs s) m) →
  wp (vdata v) Q (World (dvs_devs s) m).
Proof. intros Hx Hd HQ. unfold vdata. rewrite wp_bind. eapply wp_getdv; [done|]. by rewrite Hd, wp_kof_Some. Qed.

Lemma wp_vdevice (s : dvs D) v Q m :
  dv_ok s → 1 ≤ held_of s v → (∀ dev, Q dev (World (dvs_devs s) m)) →
  wp (vdevice v) Q (World (dvs_devs s) m).
Proof.
  intros Hok Hv HQ. destruct (alive s v Hok Hv) as (x & d & Hx & Hr & Ho & Hd & [dev Hdev] & Hop).
  unfold vdevice. rewrite wp_bind. eapply wp_vdata; [done..|].
  rewrite wp_bind, wp_kget. cbn [wst]. rewrite Hdev, wp_kof_Some. apply HQ.
Qed.

Lemma dv_open s v flags m : dv_ok s → 1 ≤ held_of s v →
  wp (lift (dev_open v flags)) (λ _ w, dstep s (wst w) zero zero) (World s m).
Proof.
  intros Hok Hv. destruct (alive s v Hok Hv) as (x & d & Hx & Hr & Ho & Hd & _ & Hop).
  apply wp_lift. unfold dev_open. destruct (negb _).
  - rewrite wp_ret. cbn. replace (set_dvs_devs _ s) with s by by destruct s. by apply dstep_refl.
  - rewrite wp_bind. eapply wp_vdata; [done..|]. eapply wp_mono; [apply wp_on_driver, d_open_total|].
    cbn. intros _ w (d' & ->). by apply dstep_drivers.
Qed.

Lemma dv_decopen s v m : dv_ok s → 1 ≤ opens_of s v →
  wp (lift (dvnode_decopen v)) (λ _ w, dstep s (wst w) zero (less v)) (World s m).
Proof.
  intros Hok Hv. pose proof (opens_nonneg s v Hok).
  destruct (alive s v Hok) as (x & d & Hx & Hr & Ho & Hd & _ & Hop); [lia|].
  apply wp_lift. unfold dvnode_decopen. rewrite wp_bind. eapply wp_getdv; [done|].
  rewrite wp_bind, wp_kassert by (apply Z.ltb_lt; lia).
  unfold setdv. rewrite !wp_bind, wp_kget, wp_kput. cbn [wst wmem].
  set (x' := DVnode _ _ _). set (s1 := set_dv_heap _ _).
  assert (∀ d', dstep s (set_dvs_devs (set_dv_drivers d' s1) s) zero (less v)) as Hstep.
  { intros d'. eapply (replaced_step s v x x'); unfold less, one, zero; cbn [dv_opencount dv_refcount x']; try done; try lia.
    - rewrite decide_True by done. lia.
    - intros y Hy. by rewrite decide_False by done. }
  destruct (0 <? _).
  - rewrite wp_ret. exact (Hstep (dv_drivers s1)).
  - unfold dev_close. rewrite !wp_bind. change s1 with (dvs_devs (set_dvs_devs s1 s)).
    eapply wp_vdata; [cbn; apply lookup_insert_eq|done|].
    eapply wp_mono; [apply wp_on_driver, d_close_total|].
    intros _ w (d' & Hw). rewrite wp_ret, Hw. apply Hstep.
Qed.

Lemma same s : set_dvs_devs (dvs_devs s) s = s.
Proof. by destruct s. Qed.

(** An operation that leaves the state. *)
Lemma dv_still {A} (c : K (devs D) A) (R : A → Prop) s m :
  dv_ok s → wp c (λ a w, wst w = dvs_devs s ∧ R a) (World (dvs_devs s) m) →
  wp (lift c) (λ a w, dstep s (wst w) zero zero ∧ R a) (World s m).
Proof.
  intros Hok H. apply wp_lift. eapply wp_mono; [exact H|]. cbn. intros a w (-> & Ha).
  rewrite same. split; [by apply dstep_refl|done].
Qed.

Lemma dv_lookup s v path m : dv_ok s → 1 ≤ held_of s v → (∀ x, held_of s x < MAXREF) →
  wp (r ← lift (dev_lookup v path); if fst r =? 0 then note v 1;; mret r else mret r)
    (λ '(r, o) w, if r =? 0 then ∃ u, o = Some u ∧ dstep s (wst w) (one u) zero
                  else dstep s (wst w) zero zero) (World s m).
Proof.
  intros Hok Hv Hroom. unfold dev_lookup. destruct (0 <? _).
  - rewrite wp_bind. apply wp_lift. rewrite wp_ret. cbn [fst wst wmem]. rewrite same.
    change (ENOENT =? 0) with false. cbv iota. rewrite wp_ret. change (ENOENT =? 0) with false.
    by apply dstep_refl.
  - pose proof (dv_incref s v m Hok (conj Hv (Hroom v))) as H.
    unfold lift in *. rewrite wp_bind, wp_zoom in H. rewrite wp_bind, wp_zoom, wp_bind.
    eapply wp_mono; [exact H|]. cbn [wst wmem]. intros ? w Hw. rewrite wp_ret. cbn [fst].
    change (0 =? 0) with true. cbv iota. rewrite wp_bind. eapply wp_mono; [exact Hw|].
    intros ? w' Hw'. rewrite wp_ret. cbn. eauto.
Qed.

(** A new vnode with one reference. *)
Lemma new_step s v d :
  dv_ok s → dv_heap (dvs_devs s) !! v = None → is_Some (dv_devices (dvs_devs s) !! d) →
  dstep s (put_back s v (DVnode 1 0 (Some d)) 1) (one v) zero.
Proof.
  intros Hok Hv Hd. set (s' := put_back _ _ _ _).
  assert (held_of s' v = 1) as E by (unfold held_of; cbn; by rewrite lookup_insert_eq).
  assert (∀ y, y ≠ v → dvs_held s' !! y = dvs_held s !! y) as Hne by (intros; cbn; by rewrite lookup_insert_ne).
  split.
  - by apply (changes_ok s s' v (DVnode 1 0 (Some d))); rewrite ?E; [|split|exists d| |].
  - intros y. unfold opens_of, one, zero. cbn [s' put_back dvs_devs dv_heap set_dv_heap].
    destruct (decide (y = v)) as [->|Hy].
    + rewrite lookup_insert_eq, Hv, E. unfold held_of. rewrite (dk_new s Hok v Hv). done.
    + rewrite lookup_insert_ne by done. unfold held_of. rewrite Hne by done. lia.
Qed.

Lemma dv_create s d m : dv_ok s → is_Some (dv_devices (dvs_devs s) !! d) → false ∉ m →
  wp (o ← lift (dev_create_vnode (Some d));
      match o with Some v => note v 1;; mret o | None => mret o end)
    (λ o w, false ∉ wmem w ∧ ∃ v, o = Some v ∧ held_of s v = 0 ∧ dstep s (wst w) (one v) zero) (World s m).
Proof.
  intros Hok [dev Hdev] Hm. rewrite wp_bind. apply wp_lift. unfold dev_create_vnode, lock_create_ok.
  rewrite wp_bind. apply wp_kmalloc; [|by intros]. cbn [wst wmem negb]. intros m1 Hm1.
  rewrite !wp_bind. apply wp_kmalloc; cbn [wst wmem negb]; [|by intros ? ?%(pending_suffix _ _ Hm1)].
  intros m2 Hm2. apply wp_kmalloc; cbn [wst wmem negb]; [|by intros ? ?%(pending_suffix _ _ Hm2)%(pending_suffix _ _ Hm1)].
  intros m3 Hm3. rewrite wp_bind, wp_kget. cbn [wst]. set (v := fresh _).
  assert (dv_heap (dvs_devs s) !! v = None) as Hv by apply not_elem_of_dom, is_fresh.
  assert (held_of s v = 0) as H0 by (unfold held_of; by rewrite (dk_new s Hok v Hv)).
  rewrite !wp_bind. unfold setdv. rewrite wp_bind, wp_kget, wp_kput, wp_ret. cbn [wst wmem].
  rewrite wp_bind. apply wp_note. rewrite wp_ret. cbn [wst wmem].
  split; [by intros ?%(pending_suffix _ _ Hm3)%(pending_suffix _ _ Hm2)%(pending_suffix _ _ Hm1)|].
  exists v. split_and!; [done..|]. 
  match goal with |- dstep _ (Dvs _ (<[_ := ?n]> _)) _ _ => assert (n = 1) as -> end.
  { change (held_of s v + 1 = 1). lia. }
  apply (new_step s v d); done || eauto.
Qed.

Lemma dv_gettype s v m : dv_ok s → 1 ≤ held_of s v →
  wp (lift (dev_gettype v)) (λ a w, dstep s (wst w) zero zero ∧ S_ISDIR (snd a) = false) (World s m).
Proof.
  intros Hok Hv. apply dv_still; [done|]. unfold dev_gettype. rewrite wp_bind.
  apply wp_vdevice; [done..|]. intros dev. rewrite wp_ret. split; [done|]. by destruct (0 <? _).
Qed.

Lemma dv_truncate s v len m : dv_ok s → 1 ≤ held_of s v →
  wp (lift (dev_truncate v len)) (λ a w, dstep s (wst w) zero zero ∧ True) (World s m).
Proof.
  intros Hok Hv. apply dv_still; [done|]. unfold dev_truncate. rewrite wp_bind.
  apply wp_vdevice; [done..|]. intros dev. by destruct (_ && _); rewrite wp_ret.
Qed.

Lemma dv_const {A} (a : A) s m : dv_ok s → wp (lift (mret a)) (λ b w, dstep s (wst w) zero zero ∧ b = a) (World s m).
Proof. intros Hok. apply dv_still; [done|]. by rewrite wp_ret. Qed.

Lemma dstep_full s s' d o : dstep s s' d o →
  dv_ok s' ∧ (∀ x, held_of s' x = held_of s x + d x ∧ opens_of s' x = opens_of s x + o x) ∧
  (∀ x, 1 ≤ held_of s x → 1 ≤ held_of s' x → @None Z = None) ∧
  (∀ fs : Z, False → False ∧ @None (list Z) = None).
Proof. intros (Hok & Hc). done. Qed.

#[export] Program Instance dev_laws : VnodeLaws (dvs D) := {|
  refs := held_of;
  opens := opens_of;
  fs_live _ _ := False;
  volname _ _ := None;
  vinv := dv_ok;
  dev_valid s d := is_Some (dv_devices (dvs_devs s) !! d)
|}.
Next Obligation. intros. by apply opens_nonneg. Qed.
Next Obligation. done. Qed.
Next Obligation. intros. eapply wp_mono; [by apply dv_incref|]. intros. by apply dstep_full. Qed.
Next Obligation. intros. eapply wp_mono; [by apply dv_decref|]. intros. by apply dstep_full. Qed.
Next Obligation. intros. eapply wp_mono; [by apply dv_incopen|]. intros. by apply dstep_full. Qed.
Next Obligation. intros. eapply wp_mono; [by apply dv_decopen|]. intros. by apply dstep_full. Qed.
Next Obligation. intros. eapply wp_mono; [by apply dv_open|]. intros. by apply dstep_full. Qed.
Next Obligation.
  intros. eapply wp_mono; [by apply dv_gettype|]. intros [r t] w (Hs & Ht). cbn in Ht.
  split; [by apply dstep_full|]. intros _. by rewrite Ht.
Qed.
Next Obligation. intros. eapply wp_mono; [by apply dv_truncate|]. intros ?? []. by apply dstep_full. Qed.
Next Obligation. intros. eapply wp_mono; [by apply dv_const|]. intros ?? []. by apply dstep_full. Qed.
Next Obligation. intros. eapply wp_mono; [by apply dv_const|]. intros ?? []. by apply dstep_full. Qed.
Next Obligation. intros. eapply wp_mono; [by apply dv_const|]. intros ?? []. by apply dstep_full. Qed.
Next Obligation. intros. eapply wp_mono; [by apply dv_const|]. intros ?? []. by apply dstep_full. Qed.
Next Obligation. intros. eapply wp_mono; [by apply dv_const|]. intros ?? []. by apply dstep_full. Qed.
Next Obligation. intros. eapply wp_mono; [by apply dv_const|]. intros ?? []. by apply dstep_full. Qed.
Next Obligation. intros. eapply wp_mono; [by apply dv_const|]. intros ?? (? & ->). by apply dstep_full. Qed.
Next Obligation.
  intros. eapply wp_mono; [by apply dv_lookup|]. cbv beta. intros [r o] w Hr. destruct (r =? 0).
  - destruct Hr as (u & -> & Hu). exists u. split; [done|]. by apply dstep_full.
  - by apply dstep_full.
Qed.
Next Obligation. intros. eapply wp_mono; [by apply dv_const|]. intros ?? (? & ->). by apply dstep_full. Qed.
Next Obligation. done. Qed.
Next Obligation. done. Qed.
Next Obligation. done. Qed.
Next Obligation. done. Qed.
Next Obligation.
  intros. eapply wp_mono; [by apply dv_create|]. intros o w (Hm & v & -> & Hv & Hs).
  split; [done|]. exists v. do 2 (split; [done|]). by apply dstep_full.
Qed.
End contract.
