(* ===== verification/DeviceBoot.v ===== *)
(** * Starting the VFS layer (vfs_bootstrap, vfs_initbootfs, devnull_create)

    The layer is started over the null device: the table, the two locks, and
    the entry "null:". *)

From S2P Require Import Prelude Array Bitmap CopyInOut Uio Lhd SfsDisk SfsFile SfsVnode SfsTable Vfs VfsSpec VfsPath VfsOps VfsTable Device DeviceProps.

Abbreviation kernel := (vfs (dvs unit)).

Definition vfs_initbootfs : K kernel unit :=
  ok ← lock_create_ok;
  if negb ok then kpanic else
  s ← kget; kput (set_boot_lock false s).

Definition NULLNAME : list Z := [110; 117; 108; 108].

(** Memory for the structure, and a pointer to it. *)
Definition new_device (d : device) : K (devs unit) Z :=
  s ← kget;
  let p := fresh (dom (dv_devices s)) in
  kput (set_dv_devices (<[p := d]> (dv_devices s)) s);;
  mret p.

Definition devnull_create : K kernel unit :=
  ok ← kmalloc_ok;
  if negb ok then kpanic else
  dev ← on_fs (lift (new_device (Device 0 1)));
  result ← vfs_adddev NULLNAME dev false;
  if negb (result =? 0) then kpanic else mret tt.

Definition vfs_bootstrap : K kernel unit :=
  a ← array_create;
  match a with
  | None => kpanic
  | Some a =>
      s ← kget; kput (set_knowndevs a s);;
      ok ← lock_create_ok;
      if negb ok then kpanic else
      s ← kget; kput (set_kd_lock false s);;
      vfs_initbootfs;;
      devnull_create
  end.

(** Before the start: no vnodes, no devices, no directories. *)
Definition cold (space : uspace) : kernel :=
  Vfs (Array 0 0 None) ∅ true None true None (Dvs (Devs ∅ ∅ tt space) ∅).

Lemma wp_lock_create {S} (s : S) m (Q : bool → world S → Prop) :
  false ∉ m → (∀ m', m' `suffix_of` m → Q true (World s m')) → wp lock_create_ok Q (World s m).
Proof.
  intros Hm HQ. unfold lock_create_ok. rewrite wp_bind. apply wp_kmalloc; [|done]. cbn [wst wmem negb].
  intros m1 Hm1. apply wp_kmalloc; cbn [wst wmem].
  - intros m2 Hm2. apply HQ. by etrans.
  - by intros ? ?%(pending_suffix _ _ Hm1).
Qed.

(** The state after the two locks are made. *)
Definition warm (space : uspace) : kernel :=
  Vfs (Array 0 0 None) ∅ false None false None (Dvs (Devs ∅ ∅ tt space) ∅).

Lemma warm_ok space d : dv_ok (Dvs (Devs ∅ {[d := Device 0 1]} tt space) ∅ : dvs unit).
Proof.
  split; cbn.
  - intros v. unfold held_of. cbn. rewrite lookup_empty. cbn. lia.
  - intros v _. apply lookup_empty.
  - intros v x. by rewrite lookup_empty.
  - intros v x. by rewrite lookup_empty.
  - intros v x. by rewrite lookup_empty.
Qed.

(** The layer has one device, and nobody else holds a reference. *)
Definition started (s : kernel) (p : loc) : Prop :=
  good s [p] ∧ (∃ dev v, devs_at s [p] [new_kd NULLNAME false dev v]) ∧
  ∀ x, ext s [p] x = 0 ∧ opens (vfs_state s) x = 0.

Lemma devnull_create_spec space m :
  false ∉ m →
  wp devnull_create (λ _ w, ∃ p, started (wst w) p) (World (warm space) m).
Proof.
  intros Hm. unfold devnull_create. rewrite wp_bind. apply wp_kmalloc; [|done]. cbn [wst wmem negb].
  intros m1 Hm1. rewrite wp_bind. unfold on_fs. rewrite wp_zoom. apply wp_lift.
  unfold new_device. rewrite wp_bind, wp_kget. cbn [wst]. set (d := fresh _).
  rewrite wp_bind, wp_kput, wp_ret. cbn [wst wmem]. rewrite wp_bind.
  match goal with |- wp _ _ (World ?s' _) => set (s := s') end.
  assert (vfs_state s = Dvs (Devs ∅ {[d := Device 0 1]} tt space) ∅) as Est by done.
  assert (good s []) as Hg.
  { split.
    - rewrite Est. by apply warm_ok.
    - done.
    - done.
    - done.
    - by intros p Hp%not_elem_of_nil.
    - by intros p kd Hp%not_elem_of_nil.
    - done.
    - done.
    - by intros p q kd kd' fs Hp%not_elem_of_nil. }
  eapply (adddev_spec s [] []); [done|constructor| | |done| |].
  - rewrite Est. cbn. rewrite lookup_singleton_eq. eauto.
  - by intros ?%(pending_suffix _ _ Hm1).
  - intros s' m' []. by intros ? ? ?%not_elem_of_nil.
  - intros p v s' m' _ _ Hg' Hd Hc Ecw Ebo _. cbn [Z.eqb negb]. rewrite wp_ret. exists p. cbn [wst].
    split_and!; [done|eauto|]. intros x. destruct (Hc x) as [Hr Ho]. unfold ext, own.
    rewrite Hr, Ho, Ecw, Ebo. cbn [app] in *. apply Forall2_cons_1 in Hd as [Hkd _].
    cbn [devs_own]. rewrite Hkd, Est.
    change (held_of (Dvs (Devs ∅ {[d := Device 0 1]} tt space) ∅) x + one v x -
      (0 + 0 + (one v x + 0)) = 0 ∧ 0 = 0).
    unfold held_of. cbn [dvs_held]. rewrite lookup_empty. cbn [default from_option]. lia.
Qed.

Lemma bootstrap_spec space m :
  false ∉ m → wp vfs_bootstrap (λ _ w, ∃ p, started (wst w) p) (World (cold space) m).
Proof.
  intros Hm. unfold vfs_bootstrap, array_create. rewrite !wp_bind. apply wp_kmalloc; [|done].
  cbn [wst wmem negb]. intros m1 Hm1. assert (false ∉ m1) by by intros ?%(pending_suffix _ _ Hm1).
  rewrite wp_ret, wp_bind, wp_kget, wp_bind, wp_kput, wp_bind. apply wp_lock_create; [done|].
  intros m2 Hm2. assert (false ∉ m2) by by intros ?%(pending_suffix _ _ Hm2). cbn [negb].
  rewrite wp_bind, wp_kget, wp_bind, wp_kput, wp_bind. unfold vfs_initbootfs. rewrite wp_bind.
  apply wp_lock_create; [done|]. intros m3 Hm3. assert (false ∉ m3) by by intros ?%(pending_suffix _ _ Hm3).
  cbn [negb wst]. rewrite wp_bind, wp_kget, wp_kput. by apply (devnull_create_spec space).
Qed.
