(* ===== verification/VfsProps.v ===== *)
(** * Properties of the VFS layer

    Sequences of requests keep the table and the reference counts in order;
    path names start where the documented syntax says; names of devices stay
    apart and lead to the device they were added for.  The witnesses run the
    layer on the null device. *)

From S2P Require Import Prelude Array Bitmap CopyInOut Uio Lhd SfsDisk SfsFile SfsVnode SfsTable Vfs VfsSpec VfsPath VfsOps VfsTable Device DeviceProps DeviceBoot.

(** ** Sequences of requests *)

Inductive vfs_req (F : Type) : Type :=
  | ROpen (path : list Z) (flags : Z)
  | RClose (k : nat)
  | RRemove (path : list Z)
  | RRename (p q : list Z)
  | RLink (p q : list Z)
  | RSymlink (contents path : list Z)
  | RMkdir (path : list Z)
  | RRmdir (path : list Z)
  | RChdir (path : list Z)
  | RSetboot (name : list Z)
  | RClearboot
  | RClearcwd
  | RSync
  | RMount (name : list Z) (mountfunc : option Z → K F (Z * option Z))
  | RUnmount (name : list Z)
  | RUnmountall.

Arguments ROpen {F} _ _.
Arguments RClose {F} _.
Arguments RRemove {F} _.
Arguments RRename {F} _ _.
Arguments RLink {F} _ _.
Arguments RSymlink {F} _ _.
Arguments RMkdir {F} _.
Arguments RRmdir {F} _.
Arguments RChdir {F} _.
Arguments RSetboot {F} _.
Arguments RClearboot {F}.
Arguments RClearcwd {F}.
Arguments RSync {F}.
Arguments RMount {F} _ _.
Arguments RUnmount {F} _.
Arguments RUnmountall {F}.

(** How often a vnode is among the open ones. *)
Fixpoint handles (hs : list loc) (x : loc) : Z :=
  match hs with [] => 0 | v :: hs => one v x + handles hs x end.

Lemma handles_nonneg hs x : 0 ≤ handles hs x.
Proof. induction hs as [|v hs IH]; cbn; [done|]. pose proof (one_range v x). lia. Qed.

Lemma handles_le hs x : handles hs x ≤ Z.of_nat (length hs).
Proof. induction hs as [|v hs IH]; cbn [handles length]; [done|]. pose proof (one_range v x). lia. Qed.

Lemma handles_delete hs k v x : hs !! k = Some v → handles (delete k hs) x = handles hs x - one v x.
Proof.
  revert k. induction hs as [|u hs IH]; intros [|k] Hk; try done.
  - injection Hk as ->. change (delete 0%nat (v :: hs)) with hs. cbn [handles]. lia.
  - change (delete (S k) (u :: hs)) with (u :: delete k hs). cbn [handles]. rewrite (IH k Hk). lia.
Qed.

Section props.
Context {F : Type} `{!Vnodes F, !VnodeLaws F}.
Implicit Types s : vfs F.
Implicit Types ps : list loc.

Abbreviation vrefs s := (refs (vfs_state s)).
Abbreviation vopens s := (opens (vfs_state s)).

(** Serve a request; the list holds the vnodes that are open. *)
Definition serve (hs : list loc) (r : vfs_req F) : K (vfs F) (list loc) :=
  match r with
  | ROpen path flags =>
      '(result, vn) ← vfs_open path flags;
      mret (match vn with Some v => if result =? 0 then v :: hs else hs | None => hs end)
  | RClose k =>
      match hs !! k with Some v => vfs_close v;; mret (delete k hs) | None => mret hs end
  | RRemove path => _ ← vfs_remove path; mret hs
  | RRename p q => _ ← vfs_rename p q; mret hs
  | RLink p q => _ ← vfs_link p q; mret hs
  | RSymlink c p => _ ← vfs_symlink c p; mret hs
  | RMkdir p => _ ← vfs_mkdir p; mret hs
  | RRmdir p => _ ← vfs_rmdir p; mret hs
  | RChdir p => _ ← vfs_chdir p; mret hs
  | RSetboot n => _ ← vfs_setbootfs n; mret hs
  | RClearboot => vfs_clearbootfs;; mret hs
  | RClearcwd => _ ← vfs_clearcurdir; mret hs
  | RSync => _ ← vfs_sync; mret hs
  | RMount n mf => _ ← vfs_mount n mf; mret hs
  | RUnmount n => _ ← vfs_unmount n; mret hs
  | RUnmountall => _ ← vfs_unmountall; mret hs
  end.

Fixpoint serve_all (hs : list loc) (rs : list (vfs_req F)) : K (vfs F) (list loc) :=
  match rs with
  | [] => mret hs
  | r :: rs => hs ← serve hs r; serve_all hs rs
  end.

(** Path names are strings, and mount functions make new file systems. *)
Definition valid_req (r : vfs_req F) : Prop :=
  match r with
  | ROpen p _ | RRemove p | RSymlink _ p | RMkdir p | RRmdir p | RChdir p | RSetboot p => nonul p
  | RRename p q | RLink p q => nonul p ∧ nonul q
  | RMount _ mf => mounts mf
  | _ => True
  end.

(** The callers hold the open vnodes and [e], [o] besides. *)
Record balanced s ps (e o : loc → Z) (hs : list loc) : Prop := Balanced {
  bal_good : good s ps;
  bal_ext x : ext s ps x = e x + handles hs x;
  bal_opens x : vopens s x = o x + handles hs x
}.

Lemma balanced_moved s s' ps e o hs hs' d :
  balanced s ps e o hs → moved s s' ps d d → (∀ x, handles hs' x = handles hs x + d x) →
  balanced s' ps e o hs'.
Proof.
  intros [_ He Ho] [Hg He' Ho'] Hd. split; [done|..]; intros x.
  - rewrite He', He, Hd. lia.
  - rewrite Ho', Ho, Hd. lia.
Qed.

Lemma balanced_quiet s s' ps e o hs : balanced s ps e o hs → moved s s' ps zero zero → balanced s' ps e o hs.
Proof. intros. eapply balanced_moved; [done..|]. unfold zero. lia. Qed.

(** A request that leaves the open vnodes. *)
Lemma serve_quiet {A} (c : K (vfs F) A) s ps e o hs m :
  balanced s ps e o hs →
  wp c (λ _ w, moved s (wst w) ps zero zero) (World s m) →
  wp (_ ← c; mret hs) (λ hs' w, balanced (wst w) ps e o hs' ∧ (length hs' ≤ S (length hs))%nat) (World s m).
Proof.
  intros Hb Hc. rewrite wp_bind. eapply wp_mono; [exact Hc|]. cbv beta. intros _ w Hw. rewrite wp_ret.
  split; [by eapply balanced_quiet|lia].
Qed.

Lemma serve_spec s ps e o hs r m :
  balanced s ps e o hs → valid_req r → (∀ x, 0 ≤ o x) →
  (∀ x, e x + Z.of_nat (length hs) + Z.of_nat (length ps) + 6 ≤ MAXREF) →
  wp (serve hs r) (λ hs' w, balanced (wst w) ps e o hs' ∧ (length hs' ≤ S (length hs))%nat) (World s m).
Proof.
  intros Hb Hv Ho Hroom. pose proof (bal_good _ _ _ _ _ Hb) as Hg.
  assert (roomy s ps 4) as H4.
  { intros x. rewrite (bal_ext _ _ _ _ _ Hb). pose proof (handles_le hs x). specialize (Hroom x). lia. }
  assert (roomy s ps 3) as H3 by (intros x; specialize (H4 x); lia).
  destruct r; cbn [serve valid_req] in *.
  - rewrite wp_bind. eapply open_spec; [done..| |].
    + intros er s' m' Her Hm. rewrite wp_ret. cbn. split; [by eapply balanced_quiet|lia].
    + intros vn s' m' Hm. rewrite wp_ret. cbn. split; [|lia]. eapply balanced_moved; [done..|]. intros x. cbn. lia.
  - destruct (hs !! k) as [v|] eqn:Hk; [|rewrite wp_ret; split; [done|lia]].
    rewrite wp_bind. eapply close_spec; [done| |].
    + rewrite (bal_opens _ _ _ _ _ Hb). pose proof (handles_delete _ _ _ v Hk) as Hd. rewrite one_eq in Hd.
      pose proof (handles_nonneg (delete k hs) v). specialize (Ho v). lia.
    + intros s' m' Hm. rewrite wp_ret. split.
      * eapply balanced_moved; [done..|]. intros x. rewrite (handles_delete _ _ _ _ Hk). unfold less. lia.
      * pose proof (length_delete hs k). rewrite H; [lia|eauto].
  - apply serve_quiet; [done|]. apply (with_parent_spec id path vop_remove s ps); auto. intros. by apply law_remove.
  - destruct Hv. apply serve_quiet; [done|]. eapply rename_spec; eauto.
  - destruct Hv. apply serve_quiet; [done|]. eapply link_spec; eauto.
  - apply serve_quiet; [done|]. apply (with_parent_spec id path (λ d n, vop_symlink d n contents) s ps); auto. intros. by apply law_symlink.
  - apply serve_quiet; [done|]. apply (with_parent_spec id path vop_mkdir s ps); auto. intros. by apply law_mkdir.
  - apply serve_quiet; [done|]. apply (with_parent_spec id path vop_rmdir s ps); auto. intros. by apply law_rmdir.
  - apply serve_quiet; [done|]. eapply chdir_spec; eauto.
  - apply serve_quiet; [done|]. eapply setbootfs_spec; eauto.
  - apply serve_quiet; [done|]. eapply clearbootfs_spec; eauto.
  - apply serve_quiet; [done|]. eapply clearcurdir_spec; eauto.
  - apply serve_quiet; [done|]. eapply sync_spec; eauto.
  - apply serve_quiet; [done|]. eapply mount_spec; eauto.
  - apply serve_quiet; [done|]. eapply unmount_spec; eauto.
  - apply serve_quiet; [done|]. eapply unmountall_spec; eauto.
Qed.

Lemma serve_all_spec rs : ∀ s ps e o hs m,
  balanced s ps e o hs → Forall valid_req rs → (∀ x, 0 ≤ o x) →
  (∀ x, e x + Z.of_nat (length rs) + Z.of_nat (length hs) + Z.of_nat (length ps) + 6 ≤ MAXREF) →
  wp (serve_all hs rs) (λ hs' w, balanced (wst w) ps e o hs') (World s m).
Proof.
  induction rs as [|r rs IH]; intros s ps e o hs m Hb Hv Ho Hroom; cbn [serve_all].
  - by rewrite wp_ret.
  - inversion Hv as [|? ? Hr Hrs]; subst. cbn [length] in Hroom. rewrite wp_bind. eapply wp_mono.
    { apply (serve_spec s ps e o hs r m); [done..|]. intros x. specialize (Hroom x). lia. }
    intros hs' [s' m'] (Hb' & Hlen). apply IH; [done..|]. intros x. specialize (Hroom x). lia.
Qed.

(** ** Names of devices *)

(** No two devices have a name in common. *)
Definition apart (f : F) (kds : list knowndev) : Prop :=
  ∀ i j kd kd' n, kds !! i = Some kd → kds !! j = Some kd' → n ∈ kd_names f kd → n ∈ kd_names f kd' → i = j.

Lemma apart_kept f f' kds : names_kept f f' kds → apart f kds → apart f' kds.
Proof.
  intros Hk Ha i j kd kd' n Hi Hj.
  rewrite !Hk by (by eapply list_elem_of_lookup_2). by apply Ha.
Qed.

Lemma apart_snoc f kds kd : apart f kds → unclaimed f kds (kd_names f kd) → apart f (kds ++ [kd]).
Proof.
  intros Ha Hu i j k1 k2 n. rewrite !lookup_snoc_Some.
  intros [[Hi E1]|[-> <-]] [[Hj E2]|[-> <-]] H1 H2; [by eapply Ha|..|done].
  - by destruct (Hu k1 n (list_elem_of_lookup_2 _ _ _ E1)).
  - by destruct (Hu k2 n (list_elem_of_lookup_2 _ _ _ E2)).
Qed.

Lemma unclaimed_kept f f' kds ns : names_kept f f' kds → unclaimed f kds ns → unclaimed f' kds ns.
Proof. intros Hk Hu kd n Hkd Hn. rewrite Hk by done. by apply Hu. Qed.

(** A new device answers to its names. *)
Lemma answer_snoc f kds kd n :
  n ∈ kd_names f kd → unclaimed f kds (kd_names f kd) →
  names_answer f (kds ++ [kd]) n = kd_answer kd f n.
Proof.
  intros Hn Hu. unfold names_answer. rewrite omap_app.
  assert (omap (λ kd, kd_answer kd f n) kds = []) as ->.
  { clear -Hn Hu. induction kds as [|k kds IH]; [done|]. cbn.
    destruct (kd_answer k f n) eqn:E.
    - destruct (Hu k n (list_elem_of_here _ _) Hn). apply kd_answer_names. by rewrite E.
    - apply IH. intros k' n' Hk'. apply Hu. by right. }
  cbn. by destruct (kd_answer kd f n).
Qed.
End props.

(** ** Properties *)

(** A layer with the null device. *)
Definition null_dvs : dvs unit :=
  Dvs (Devs {[1%positive := DVnode 1 0 (Some 7)]} {[7 := Device 0 1]} tt (USpace None ∅)) {[1%positive := 1]}.

Definition null_layer : vfs (dvs unit) :=
  Vfs (Array 1 1 (Some [Some 1%positive])) {[1%positive := new_kd NULLNAME false 7 1%positive]}
    false None false None null_dvs.

Lemma null_held v : held_of null_dvs v = one 1%positive v.
Proof.
  unfold held_of, one, null_dvs. cbn [dvs_held].
  destruct (decide (v = 1%positive)) as [->|]; [by rewrite lookup_singleton_eq|by rewrite lookup_singleton_ne].
Qed.

Lemma null_ok : dv_ok null_dvs.
Proof.
  assert (∀ v x, dv_heap (dvs_devs null_dvs) !! v = Some x → v = 1%positive ∧ x = DVnode 1 0 (Some 7)) as Hx.
  { intros v x. unfold null_dvs. cbn [dvs_devs dv_heap]. by intros [<- <-]%lookup_singleton_Some. }
  split.
  - intros v. rewrite null_held. unfold one. case_decide; [subst v|lia]. intros _. by eexists.
  - intros v. unfold null_dvs. cbn [dvs_devs dv_heap dvs_held].
    rewrite !lookup_singleton_None. done.
  - intros v x (-> & ->)%Hx. by rewrite null_held, one_eq.
  - intros v x (-> & ->)%Hx. rewrite null_held, one_eq. cbn. lia.
  - intros v x (-> & ->)%Hx. exists 7. split; [done|by eexists].
Qed.

Lemma null_opens x : opens_of null_dvs x = 0.
Proof.
  unfold opens_of, null_dvs. cbn [dvs_devs dv_heap]. destruct ({[1%positive := _]} !! x) as [y|] eqn:E; [|done].
  by apply lookup_singleton_Some in E as [<- <-].
Qed.

Lemma null_own x : own null_layer [1%positive] x = one 1%positive x.
Proof. change (0 + 0 + (one 1%positive x + 0) = one 1%positive x). lia. Qed.

Lemma null_good : good null_layer [1%positive].
Proof.
  assert (∀ p kd, kd_heap null_layer !! p = Some kd → kd = new_kd NULLNAME false 7 1%positive) as Hx.
  { intros p kd. unfold null_layer. cbn [kd_heap]. by intros [<- <-]%lookup_singleton_Some. }
  split; try done.
  - exact null_ok.
  - intros p ->%list_elem_of_singleton. by eexists.
  - intros p kd _ ->%Hx. apply new_kd_ok.
  - intros x. rewrite null_own. change (opens_of null_dvs x + one 1%positive x ≤ held_of null_dvs x).
    rewrite null_opens, null_held. lia.
  - intros p q kd kd' fs _ _ ->%Hx. done.
Qed.

(** Open "null:", try to make a directory in it, change to it, and so on. *)
Definition null_requests : list (vfs_req (dvs unit)) :=
  [ROpen (NULLNAME ++ [COLON]) 2; RMkdir (NULLNAME ++ [COLON; 120]); RChdir (NULLNAME ++ [COLON]);
   RSync; RRemove [120]; RClose 0; RUnmountall].

Lemma null_requests_valid : Forall valid_req null_requests.
Proof. repeat constructor; done. Qed.

(** C38: From a cold start, as long as no allocation fails, [vfs_bootstrap] makes a layer on the null device in which any sequence of
    requests (open, close, remove, rename, link, symlink, mkdir, rmdir, chdir,
    setting and clearing the boot file system and the current directory, sync,
    mount, unmount) is served without a panic, and in the end the callers hold
    exactly the vnodes that are still open, each once per open.  Devices are
    the only vnodes of this layer: its mount functions refuse. *)
Theorem boot_then_requests space rs m (Hm : false ∉ m) (Hv : Forall valid_req rs)
    (Hlen : Z.of_nat (length rs) + 7 ≤ MAXREF) :
  wp (vfs_bootstrap;; serve_all [] rs) (λ hs w, ∃ p, good (wst w) [p] ∧
      ∀ x, ext (wst w) [p] x = handles hs x ∧ opens (vfs_state (wst w)) x = handles hs x)
    (World (cold space) m).
Proof.
  rewrite wp_bind. eapply wp_mono; [by apply bootstrap_spec|].
  intros _ [s m'] (p & Hg & _ & Hz). cbn [wst] in *. eapply wp_mono.
  - apply (serve_all_spec rs s [p] zero zero [] m'); [|done|done|].
    + split; [done|..]; intros x; destruct (Hz x); unfold zero; cbn [handles]; lia.
    + intros x. unfold zero. cbn [length]. lia.
  - intros hs w [Hg' He Ho]. exists p. split; [done|]. intros x. rewrite He, Ho. unfold zero. lia.
Qed.

Lemma boot_then_requests_witness :
  wp (vfs_bootstrap;; serve_all [] null_requests) (λ hs w, ∃ p, good (wst w) [p] ∧
      ∀ x, ext (wst w) [p] x = handles hs x ∧ opens (vfs_state (wst w)) x = handles hs x)
    (World (cold (USpace None ∅)) [true; true; true]).
Proof.
  apply (boot_then_requests (USpace None ∅) null_requests [true; true; true]).
  - rewrite !not_elem_of_cons. split_and!; [done..|]. apply not_elem_of_nil.
  - exact null_requests_valid.
  - unfold MAXREF. cbn. lia.
Defined.

(** ** Adding and finding devices *)

(** The two queries after a device was added. *)
Definition add_and_find {F} `{!Vnodes F} (name : list Z) (dev : Z) (mountable : bool)
    : K (vfs F) (Z * (Z * option loc) * (Z * option loc)) :=
  r ← vfs_adddev name dev mountable;
  if negb (r =? 0) then mret (r, (r, None), (r, None)) else
  q ← vfs_getroot name;
  q' ← vfs_getroot (name ++ RAW);
  mret (r, q, q').

Section find.
Context {F : Type} `{!Vnodes F, !VnodeLaws F}.
Implicit Types s : vfs F.

Lemma room_weaken s k j : room s k → j ≤ k → room s j.
Proof. intros Hr Hj x. specialize (Hr x). lia. Qed.

(** Naming a device answers its vnode. *)
Lemma getroot_device s ps kds n v m (Q : Z * option loc → world (vfs F) → Prop) :
  good s ps → devs_at s ps kds → room s 1 → names_answer (vfs_state s) kds n = Some (ADevice v) →
  (∀ s' m', vstep s s' (one v) zero → Q (0, Some v) (World s' m')) → wp (vfs_getroot n) Q (World s m).
Proof.
  intros Hg Hd Hr Ha HQ. eapply vfs_getroot_spec; [done|done| |].
  - intros x. specialize (Hr x). lia.
  - rewrite Ha. cbn. intros f m' Hs. by apply HQ, vstep_set.
Qed.

Lemma getroot_unmounted s ps kds n m (Q : Z * option loc → world (vfs F) → Prop) :
  good s ps → devs_at s ps kds → room s 1 → names_answer (vfs_state s) kds n = Some ANotMounted →
  (∀ m', Q (ENXIO, None) (World s m')) → wp (vfs_getroot n) Q (World s m).
Proof.
  intros Hg Hd Hr Ha HQ. eapply vfs_getroot_spec; [done|done| |].
  - intros x. specialize (Hr x). lia.
  - rewrite Ha. exact HQ.
Qed.

(** Naming anything is safe. *)
Lemma getroot_safe s ps n m : good s ps → room s 1 → wp (vfs_getroot n) (λ _ _, True) (World s m).
Proof.
  intros Hg Hr. destruct (good_devs _ _ Hg) as (kds & Hd).
  eapply vfs_getroot_spec; [done|done|intros x; specialize (Hr x); lia|].
  destruct (names_answer _ kds n) as [[]|]; done.
Qed.

Lemma new_answer f kds name mountable dev v n :
  let kd := new_kd name mountable dev v in
  n ∈ kd_names f kd → unclaimed f kds (kd_names f kd) →
  names_answer f (kds ++ [kd]) n =
    Some (if mountable then if decide (name = n) then ANotMounted else ADevice v else ADevice v).
Proof.
  intros kd Hn Hu. rewrite answer_snoc by done. unfold kd_answer, kd in *. rewrite new_kd_names, elem_of_opts in Hn.
  cbn [kd_fs new_kd kd_name kd_rawname kd_vnode]. destruct mountable.
  - case_decide; [done|]. rewrite decide_True; [done|]. naive_solver.
  - rewrite decide_True; [done|]. naive_solver.
Qed.
End find.

(** C21: [vfs_adddev] either refuses a name that is taken with EEXIST, or makes
    the device reachable: afterwards [vfs_getroot] of the name answers the new
    vnode of a plain device, and for a mountable one ENXIO (nothing is mounted)
    while the name with "raw" appended answers the device. *)
Theorem adddev_getroot {F} `{!Vnodes F, !VnodeLaws F} (s : vfs F) ps kds name dev mountable m
    (Hg : good s ps) (Hd : devs_at s ps kds) (Hdev : dev_valid (vfs_state s) dev) (Hm : false ∉ m)
    (Hlen : Z.of_nat (length ps) < ARRAY_LIMIT) (Hroom : room s 4) :
  wp (add_and_find name dev mountable) (λ '(r, q, q') _,
      let free := unclaimed (vfs_state s) kds (kd_names (vfs_state s) (new_kd name mountable dev 1%positive)) in
      (r = EEXIST ∧ ¬ free) ∨
      (r = 0 ∧ free ∧ ∃ v, refs (vfs_state s) v = 0 ∧
         if mountable then q = (ENXIO, None) ∧ q' = (0, Some v) else q = (0, Some v))) (World s m).
Proof.
  unfold add_and_find. rewrite wp_bind. eapply adddev_spec; [done..| |].
  - intros s' m' Hno _ _ _. zcode. rewrite wp_ret. by left.
  - intros p v s' m' Hu Hv0 Hg' Hd' Hc _ _ Hk. zcode.
    set (kd := new_kd name mountable dev v) in *.
    assert (room s' 3) as Hr.
    { intros x. destruct (Hc x) as [-> _]. specialize (Hroom x). pose proof (one_range v x). lia. }
    assert (unclaimed (vfs_state s') kds (kd_names (vfs_state s') kd)) as Hu'.
    { apply (unclaimed_kept _ _ _ _ Hk). unfold kd. by rewrite new_kd_names in *. }
    assert (∀ n, n ∈ kd_names (vfs_state s') kd → _) as Hans
      by exact (λ n Hn, new_answer (vfs_state s') kds name mountable dev v n Hn Hu').
    assert (name ∈ kd_names (vfs_state s') kd) as Hn1 by by left.
    rewrite wp_bind. destruct mountable.
    + assert (name ++ RAW ∈ kd_names (vfs_state s') kd) as Hn2 by (right; by left).
      pose proof (Hans _ Hn1) as A1. rewrite decide_True in A1 by done.
      pose proof (Hans _ Hn2) as A2. rewrite decide_False in A2.
      2:{ intros E%(f_equal length). rewrite length_app in E. cbn in E. lia. }
      eapply getroot_unmounted; [done..|by eapply room_weaken|done|]. intros m1. rewrite wp_bind.
      eapply getroot_device; [done..|by eapply room_weaken|done|]. intros s2 m2 _. rewrite wp_ret.
      right. eauto 8.
    + eapply getroot_device; [done..|by eapply room_weaken|by apply Hans|]. intros s1 m1 Hs. rewrite wp_bind.
      assert (good s1 (ps ++ [p])) as Hg1 by (eapply good_step; [exact Hg'|exact Hs|counts]).
      eapply wp_mono; [eapply (getroot_safe s1); [exact Hg1|]|].
      { eapply room_step; [exact Hr|exact Hs|counts]. }
      intros q w _. rewrite wp_ret. right. eauto 8.
Qed.

Definition LHD0 : list Z := [108; 104; 100; 48].

Lemma null_devs : devs_at null_layer [1%positive] [new_kd NULLNAME false 7 1%positive].
Proof. by repeat constructor. Qed.

Lemma null_room k : k < 1000 → room null_layer k.
Proof.
  intros Hk x. change (held_of null_dvs x + k ≤ MAXREF). rewrite null_held. pose proof (one_range 1%positive x).
  unfold MAXREF. lia.
Qed.

Lemma adddev_getroot_witness :
  wp (add_and_find LHD0 7 true) (λ '(r, q, q') _,
      let free := unclaimed (vfs_state null_layer) [new_kd NULLNAME false 7 1%positive]
                    (kd_names (vfs_state null_layer) (new_kd LHD0 true 7 1%positive)) in
      (r = EEXIST ∧ ¬ free) ∨
      (r = 0 ∧ free ∧ ∃ v, refs (vfs_state null_layer) v = 0 ∧
         (q = (ENXIO, None) ∧ q' = (0, Some v)))) (World null_layer []).
Proof.
  apply (adddev_getroot null_layer [1%positive] [new_kd NULLNAME false 7 1%positive] LHD0 7 true []).
  - exact null_good.
  - exact null_devs.
  - by eexists.
  - apply not_elem_of_nil.
  - unfold ARRAY_LIMIT. cbn. lia.
  - by apply null_room.
Defined.

(** C39: [vfs_adddev] keeps the names apart, as long as no allocation fails:
    if no name leads to two entries of the table, none does afterwards; the
    call either refuses a name that is taken with EEXIST and leaves the table,
    or appends the new device.  This is about [vfs_adddev] only: [vfs_mount]
    does not compare the name of the volume it mounts with the table. *)
Theorem adddev_names_apart {F} `{!Vnodes F, !VnodeLaws F} (s : vfs F) ps kds name dev mountable m
    (Hg : good s ps) (Hd : devs_at s ps kds) (Ha : apart (vfs_state s) kds)
    (Hdev : dev_valid (vfs_state s) dev) (Hm : false ∉ m) (Hlen : Z.of_nat (length ps) < ARRAY_LIMIT) :
  wp (vfs_adddev name dev mountable) (λ r w, ∃ ps' kds',
      good (wst w) ps' ∧ devs_at (wst w) ps' kds' ∧ apart (vfs_state (wst w)) kds' ∧
      (r = EEXIST ∧ kds' = kds ∨ r = 0 ∧ ∃ v, kds' = kds ++ [new_kd name mountable dev v])) (World s m).
Proof.
  eapply adddev_spec; [done..| |].
  - intros s' m' _ Hg' Hd' Hk. exists ps, kds. split_and!; [done|done|by eapply apart_kept|by left].
  - intros p v s' m' Hu _ Hg' Hd' _ _ _ Hk. eexists _, _. split_and!; [done|done| |right; eauto].
    apply apart_snoc; [by eapply apart_kept|]. apply (unclaimed_kept _ _ _ _ Hk).
    by rewrite new_kd_names in *.
Qed.

(** Adding a mountable device to the layer succeeds. *)
Lemma add_lhd0 : wp (vfs_adddev LHD0 7 true) (λ r w, r = 0) (World null_layer [true]).
Proof. by vm_compute. Qed.

Lemma adddev_names_apart_witness :
  wp (vfs_adddev LHD0 7 true) (λ r w, r = 0 ∧ ∃ ps' kds',
      good (wst w) ps' ∧ devs_at (wst w) ps' kds' ∧ apart (vfs_state (wst w)) kds' ∧
      (r = EEXIST ∧ kds' = [new_kd NULLNAME false 7 1%positive] ∨
       r = 0 ∧ ∃ v, kds' = [new_kd NULLNAME false 7 1%positive; new_kd LHD0 true 7 v]))
    (World null_layer [true]).
Proof.
  apply wp_and; [exact add_lhd0|].
  apply (adddev_names_apart null_layer [1%positive] [new_kd NULLNAME false 7 1%positive] LHD0 7 true [true]).
  - exact null_good.
  - exact null_devs.
  - intros i j kd kd' n ?%list_lookup_singleton_Some ?%list_lookup_singleton_Some. naive_solver.
  - by eexists.
  - rewrite not_elem_of_cons. split; [done|apply not_elem_of_nil].
  - unfold ARRAY_LIMIT. cbn. lia.
Defined.

(** ** Path names *)

(** C40: [getdevice] with its scanning loops agrees, on every string, with the
    syntax of path names that its comments describe: "dev:path" starts at the
    device, "/path" at the boot file system, ":path" at the root of the current
    file system, any other path at the current directory, and the slashes after
    the mark are skipped. *)
Theorem getdevice_syntax {F} `{!Vnodes F} path (w : world (vfs F)) (Hn : nonul path) :
  getdevice path w = start_of path (parse path) w.
Proof. by apply getdevice_eq. Qed.

Lemma getdevice_syntax_witness :
  getdevice (NULLNAME ++ [COLON; SLASH; SLASH; 120]) (World null_layer []) =
  start_of (NULLNAME ++ [COLON; SLASH; SLASH; 120]) (parse (NULLNAME ++ [COLON; SLASH; SLASH; 120]))
    (World null_layer []) ∧
  parse (NULLNAME ++ [COLON; SLASH; SLASH; 120]) = PDev NULLNAME [120].
Proof.
  split; [|reflexivity].
  apply (getdevice_syntax (NULLNAME ++ [COLON; SLASH; SLASH; 120]) (World null_layer [])).
  repeat constructor; done.
Defined.

(** [vfs_setbootfs] refuses every name with a colon, also the form "lhd0:"
    its comment allows: the test whether anything follows the colon looks at
    the colon itself. *)
Theorem setbootfs_refuses_colon {F} `{!Vnodes F} a b (w : world (vfs F)) (Ha : (length a < 254)%nat) :
  vfs_setbootfs (a ++ COLON :: b) w = Ok (EINVAL, w).
Proof.
  unfold vfs_setbootfs, strchr_colon.
  assert (∃ l, take 254 (a ++ COLON :: b) = a ++ COLON :: l) as (l & ->).
  { exists (take (254 - length a - 1) b). rewrite take_app, take_ge by lia. f_equal.
    by destruct (254 - length a)%nat as [|k] eqn:E; [lia|cbn; rewrite Nat.sub_0_r]. }
  destruct (list_find (λ c, c = COLON) (a ++ COLON :: l)) as [[i y]|] eqn:E.
  - apply list_find_Some in E as (Hi & _ & _). apply lookup_lt_Some in Hi.
    assert (0 < Z.of_nat (length (drop i (a ++ COLON :: l)))) as ->%Z.ltb_lt; [|done].
    rewrite length_drop. lia.
  - apply list_find_None in E. rewrite Forall_forall in E. destruct (E COLON); [|done].
    apply elem_of_app. right. by left.
Qed.

Lemma setbootfs_refuses_colon_witness :
  vfs_setbootfs (LHD0 ++ COLON :: []) (World null_layer []) = Ok (EINVAL, World null_layer []).
Proof. apply (setbootfs_refuses_colon LHD0 [] (World null_layer [])). cbn. lia. Defined.
