(* ===== verification/LibMem.v ===== *)
(** * Block operations of the C library

    [memcpy], [memmove], [bzero], [memset] and [memcmp] (lib/libc), on a byte
    memory.  The first three work a word at a time when the pointers and the
    length are aligned; the theorems relate them to one definition of a copied
    block, whichever path is taken and however the blocks overlap. *)

From S2P Require Import Prelude.

#[local] Ltac Zify.zify_post_hook ::= Z.div_mod_to_equations.

(** ** Byte memory *)

Abbreviation bmem := (gmap Z Z).

Definition bload (a : Z) : K bmem Z := m ← kget; kof (m !! a).

Definition bstore (a v : Z) : K bmem unit :=
  m ← kget;
  if bool_decide (is_Some (m !! a)) then kput (<[a := u8 v]> m) else kundef.

(** [sizeof(long)] *)
Definition SIZEOF_LONG : Z := 4.

(** Words are big-endian, and must be aligned. *)
Definition lload (a : Z) : K bmem Z :=
  if negb (a mod SIZEOF_LONG =? 0) then kundef else
  b0 ← bload a;
  b1 ← bload (a + 1);
  b2 ← bload (a + 2);
  b3 ← bload (a + 3);
  mret (b0 * 2 ^ 24 + b1 * 2 ^ 16 + b2 * 2 ^ 8 + b3).

Definition lstore (a v : Z) : K bmem unit :=
  if negb (a mod SIZEOF_LONG =? 0) then kundef else
  bstore a (v / 2 ^ 24);;
  bstore (a + 1) (v / 2 ^ 16);;
  bstore (a + 2) (v / 2 ^ 8);;
  bstore (a + 3) v.

(** ** The functions *)

Definition memcpy (dst src len : Z) : K bmem Z :=
  (if (dst mod SIZEOF_LONG =? 0) && (src mod SIZEOF_LONG =? 0) && (len mod SIZEOF_LONG =? 0) then
     kfold (Z.to_nat (len / SIZEOF_LONG)) 0
       (λ i _, v ← lload (u32 (src + SIZEOF_LONG * i)); lstore (u32 (dst + SIZEOF_LONG * i)) v) tt
   else
     kfold (Z.to_nat len) 0
       (λ i _, v ← bload (u32 (src + i)); bstore (u32 (dst + i)) v) tt);;
  mret dst.

Definition memmove (dst src len : Z) : K bmem Z :=
  if dst <? src then memcpy dst src len else
  (if (dst mod SIZEOF_LONG =? 0) && (src mod SIZEOF_LONG =? 0) && (len mod SIZEOF_LONG =? 0) then
     kwhile (Z.to_nat (len / SIZEOF_LONG)) (λ i, 0 <? i)
       (λ i, v ← lload (u32 (src + SIZEOF_LONG * (i - 1)));
             lstore (u32 (dst + SIZEOF_LONG * (i - 1))) v;;
             mret (i - 1)) (len / SIZEOF_LONG)
   else
     kwhile (Z.to_nat len) (λ i, 0 <? i)
       (λ i, v ← bload (u32 (src + (i - 1)));
             bstore (u32 (dst + (i - 1))) v;;
             mret (i - 1)) len);;
  mret dst.

Definition bzero (block len : Z) : K bmem unit :=
  if (block mod SIZEOF_LONG =? 0) && (len mod SIZEOF_LONG =? 0) then
    kfold (Z.to_nat (len / SIZEOF_LONG)) 0
      (λ i _, lstore (u32 (block + SIZEOF_LONG * i)) 0) tt
  else
    kfold (Z.to_nat len) 0 (λ i _, bstore (u32 (block + i)) 0) tt.

Definition memset (ptr ch len : Z) : K bmem Z :=
  kfold (Z.to_nat len) 0 (λ i _, bstore (u32 (ptr + i)) ch) tt;;
  mret ptr.

Definition memcmp (a b len : Z) : K bmem Z :=
  r ← kfind (Z.to_nat len) 0
        (λ i _, x ← bload (u32 (a + i));
                y ← bload (u32 (b + i));
                mret (if negb (x =? y) then inr (i32 (x - y)) else inl tt)) tt;
  mret (match r with inl _ => 0 | inr d => d end).

(** ** Specifications *)

(** Every address of the block is mapped and holds a byte. *)
Definition block (m : bmem) (a n : Z) : Prop :=
  ∀ x, a ≤ x < a + n → ∃ v, m !! x = Some v ∧ 0 ≤ v < 2 ^ 8.

(** [m'] is [m] with the bytes of [m] at [src + lo] up to [src + hi] at the
    same offsets from [dst]. *)
Definition copied (m m' : bmem) (dst src lo hi : Z) : Prop :=
  ∀ x, m' !! x = if decide (dst + lo ≤ x < dst + hi) then m !! (x - dst + src) else m !! x.

(** [m'] is [m] with [n] bytes [v] at [a]. *)
Definition filled (m m' : bmem) (a n v : Z) : Prop :=
  ∀ x, m' !! x = if decide (a ≤ x < a + n) then Some v else m !! x.

(** ** Rules *)

Lemma wp_bload a v Q m o :
  m !! a = Some v → wp (bload a) Q (World m o) = Q v (World m o).
Proof. intros Hv. unfold bload. rewrite wp_bind, wp_kget. by apply wp_kof. Qed.

Lemma wp_bstore a v v' Q m o :
  m !! a = Some v' → wp (bstore a v) Q (World m o) = Q tt (World (<[a := u8 v]> m) o).
Proof.
  intros Hv. unfold bstore. rewrite wp_bind, wp_kget. cbn [wst].
  by rewrite bool_decide_eq_true_2 by by rewrite Hv.
Qed.

Lemma wp_lload a v0 v1 v2 v3 Q m o :
  a mod 4 = 0 → m !! a = Some v0 → m !! (a + 1) = Some v1 → m !! (a + 2) = Some v2 →
  m !! (a + 3) = Some v3 →
  wp (lload a) Q (World m o) = Q (v0 * 2 ^ 24 + v1 * 2 ^ 16 + v2 * 2 ^ 8 + v3) (World m o).
Proof.
  intros Ha H0 H1 H2 H3. unfold lload, SIZEOF_LONG. rewrite (proj2 (Z.eqb_eq _ _) Ha). simpl negb. cbn iota.
  rewrite wp_bind, (wp_bload _ v0) by done. rewrite wp_bind, (wp_bload _ v1) by done.
  rewrite wp_bind, (wp_bload _ v2) by done. rewrite wp_bind, (wp_bload _ v3) by done. done.
Qed.

Definition store4 (m : bmem) (a v0 v1 v2 v3 : Z) : bmem :=
  <[a + 3 := v3]> (<[a + 2 := v2]> (<[a + 1 := v1]> (<[a := v0]> m))).

Lemma wp_lstore a v v0 v1 v2 v3 Q m o :
  a mod 4 = 0 → block m a 4 →
  v = v0 * 2 ^ 24 + v1 * 2 ^ 16 + v2 * 2 ^ 8 + v3 →
  0 ≤ v0 < 2 ^ 8 → 0 ≤ v1 < 2 ^ 8 → 0 ≤ v2 < 2 ^ 8 → 0 ≤ v3 < 2 ^ 8 →
  wp (lstore a v) Q (World m o) = Q tt (World (store4 m a v0 v1 v2 v3) o).
Proof.
  intros Ha Hm -> H0 H1 H2 H3. unfold lstore, SIZEOF_LONG. rewrite (proj2 (Z.eqb_eq _ _) Ha).
  simpl negb. cbn iota.
  destruct (Hm a) as (? & Hw0 & _); [lia|]. destruct (Hm (a + 1)) as (? & Hw1 & _); [lia|].
  destruct (Hm (a + 2)) as (? & Hw2 & _); [lia|]. destruct (Hm (a + 3)) as (? & Hw3 & _); [lia|].
  rewrite wp_bind. erewrite wp_bstore by exact Hw0.
  rewrite wp_bind. erewrite wp_bstore; [|by rewrite !lookup_insert_ne by lia].
  rewrite wp_bind. erewrite wp_bstore; [|by rewrite !lookup_insert_ne by lia].
  erewrite wp_bstore; [|by rewrite !lookup_insert_ne by lia].
  unfold store4, u8. do 2 f_equal.
  repeat match goal with |- <[_ := ?x]> _ = <[_ := ?y]> _ => replace x with y by lia; f_equal end.
Qed.

Lemma store4_lookup m a v0 v1 v2 v3 x :
  store4 m a v0 v1 v2 v3 !! x =
  if decide (x = a) then Some v0 else if decide (x = a + 1) then Some v1 else
  if decide (x = a + 2) then Some v2 else if decide (x = a + 3) then Some v3 else m !! x.
Proof.
  unfold store4. repeat case_decide; subst;
    rewrite ?lookup_insert_ne by lia; rewrite ?lookup_insert_eq; (done || lia).
Qed.

(** Two bindings in a row, as one computation and its continuation. *)
Lemma bind_assoc_wp {S A B C} (c : K S A) (f : A → K S B) (g : B → K S C) Q w :
  wp ((c ≫= f) ≫= g) Q w = wp (a ← c; f a ≫= g) Q w.
Proof.
  unfold wp, mbind, K_bind. by destruct (c w) as [[a w']| | |]; [destruct (f a w')|..].
Qed.

(** ** One step of a copy

    In a step at offset [j] the source bytes are still those of the memory [m]
    the copy started from. *)

Lemma copied_none m dst src lo : copied m m dst src lo lo.
Proof. intros x. by rewrite decide_False by lia. Qed.

Section step.
Context (m m1 : bmem) (dst src len lo hi : Z) (o : list bool).
Context (Hs : block m src len) (Hd : block m dst len).
Context (Hs32 : 0 ≤ src ∧ src + len ≤ 2 ^ 32) (Hd32 : 0 ≤ dst ∧ dst + len ≤ 2 ^ 32).
Context (Hlo : 0 ≤ lo) (Hhi : hi ≤ len) (Hc : copied m m1 dst src lo hi).

Lemma copied_block j n : 0 ≤ j → j + n ≤ len → block m1 (dst + j) n.
Proof using Hs Hd Hlo Hhi Hc.
  intros Hj Hn x Hx. rewrite Hc. case_decide; [apply Hs|apply Hd]; lia.
Qed.

Lemma source_kept j :
  0 ≤ j < len → ¬ (dst + lo ≤ src + j < dst + hi) → ∃ v, m1 !! (src + j) = Some v ∧
  m !! (src + j) = Some v ∧ 0 ≤ v < 2 ^ 8.
Proof using Hs Hc.
  intros Hj Hout. destruct (Hs (src + j)) as (v & Hv & Hr); [lia|]. exists v.
  by rewrite Hc, decide_False.
Qed.

Lemma byte_step j lo' hi' (Q : unit → world bmem → Prop) :
  0 ≤ j < len → ¬ (dst + lo ≤ src + j < dst + hi) →
  j = hi ∧ lo' = lo ∧ hi' = hi + 1 ∧ lo ≤ hi ∨ j = lo - 1 ∧ lo' = j ∧ hi' = hi ∧ lo ≤ hi →
  (∀ m2, copied m m2 dst src lo' hi' → Q tt (World m2 o)) →
  wp (v ← bload (u32 (src + j)); bstore (u32 (dst + j)) v) Q (World m1 o).
Proof using Hs Hd Hs32 Hd32 Hlo Hhi Hc.
  intros Hj Hout Hdir HQ. destruct (source_kept j Hj Hout) as (v & Hv1 & Hv & Hr).
  rewrite !u32_id by lia. rewrite wp_bind, (wp_bload _ v) by done.
  destruct (copied_block j 1 ltac:(lia) ltac:(lia) (dst + j)) as (w & Hw & _); [lia|].
  rewrite (wp_bstore _ _ w) by done. apply HQ. unfold u8. rewrite Z.mod_small by lia.
  intros x. destruct (decide (x = dst + j)) as [->|Hne].
  - rewrite lookup_insert_eq, decide_True by lia. rewrite <- Hv. f_equal. lia.
  - rewrite lookup_insert_ne, Hc by done. repeat case_decide; (done || lia).
Qed.

Lemma word_step j lo' hi' (Q : unit → world bmem → Prop) :
  dst mod 4 = 0 → src mod 4 = 0 → j mod 4 = 0 →
  0 ≤ j → j + 4 ≤ len → (∀ k, 0 ≤ k < 4 → ¬ (dst + lo ≤ src + (j + k) < dst + hi)) →
  j = hi ∧ lo' = lo ∧ hi' = hi + 4 ∧ lo ≤ hi ∨ j = lo - 4 ∧ lo' = j ∧ hi' = hi ∧ lo ≤ hi →
  (∀ m2, copied m m2 dst src lo' hi' → Q tt (World m2 o)) →
  wp (v ← lload (u32 (src + j)); lstore (u32 (dst + j)) v) Q (World m1 o).
Proof using Hs Hd Hs32 Hd32 Hlo Hhi Hc.
  intros Had Has Haj Hj Hj4 Hout Hdir HQ.
  destruct (source_kept (j + 0)) as (v0 & Hm0 & Hv0 & ?); [lia|apply Hout; lia|].
  destruct (source_kept (j + 1)) as (v1 & Hm1 & Hv1 & ?); [lia|apply Hout; lia|].
  destruct (source_kept (j + 2)) as (v2 & Hm2 & Hv2 & ?); [lia|apply Hout; lia|].
  destruct (source_kept (j + 3)) as (v3 & Hm3 & Hv3 & ?); [lia|apply Hout; lia|].
  rewrite Z.add_0_r in *. rewrite !Z.add_assoc in *.
  rewrite !u32_id by lia. rewrite wp_bind, (wp_lload _ v0 v1 v2 v3) by (done || lia).
  rewrite (wp_lstore _ _ v0 v1 v2 v3) by (done || lia || (apply copied_block; lia)).
  apply HQ. intros x. rewrite store4_lookup, Hc.
  destruct (decide (dst + j ≤ x < dst + j + 4)) as [Hx|Hx].
  - rewrite (decide_True (P := dst + lo' ≤ x < dst + hi')) by lia.
    repeat case_decide; subst; try lia.
    + by replace (dst + j - dst + src) with (src + j) by lia.
    + by replace (dst + j + 1 - dst + src) with (src + j + 1) by lia.
    + by replace (dst + j + 2 - dst + src) with (src + j + 2) by lia.
    + by replace (dst + j + 3 - dst + src) with (src + j + 3) by lia.
  - rewrite !decide_False by lia. repeat case_decide; (done || lia).
Qed.
End step.

(** ** Whole copies *)

Section copy.
Context (m : bmem) (dst src len : Z) (o : list bool) (Hlen : 0 ≤ len).
Context (Hs : block m src len) (Hd : block m dst len).
Context (Hs32 : 0 ≤ src ∧ src + len ≤ 2 ^ 32) (Hd32 : 0 ≤ dst ∧ dst + len ≤ 2 ^ 32).

Lemma memcpy_spec (Q : Z → world bmem → Prop) :
  dst ≤ src ∨ src + len ≤ dst →
  (∀ m', copied m m' dst src 0 len → Q dst (World m' o)) →
  wp (memcpy dst src len) Q (World m o).
Proof using Hlen Hs Hd Hs32 Hd32.
  intros Hdir HQ. unfold memcpy, SIZEOF_LONG. rewrite wp_bind. destruct (_ && _ && _) eqn:E.
  - rewrite !andb_true_iff, !Z.eqb_eq in E. destruct E as [[Ed Es] El].
    eapply (wp_kfold (λ i _ w, ∃ m1, w = World m1 o ∧ copied m m1 dst src 0 (4 * i))).
    + exists m. split; [done|]. apply copied_none.
    + intros i [] w Hi (m1 & -> & Hc).
      apply (word_step m m1 dst src len 0 (4 * i)) with (lo' := 0) (hi' := 4 * i + 4);
        try (done || lia || (intros; lia)).
      intros m2 Hc2. exists m2. split; [done|]. by replace (4 * (i + 1)) with (4 * i + 4) by lia.
    + intros [] w (m1 & -> & Hc). apply HQ.
      by replace (4 * (0 + Z.of_nat (Z.to_nat (len / 4)))) with len in Hc by lia.
  - clear E. eapply (wp_kfold (λ i _ w, ∃ m1, w = World m1 o ∧ copied m m1 dst src 0 i)).
    + exists m. split; [done|]. apply copied_none.
    + intros i [] w Hi (m1 & -> & Hc).
      apply (byte_step m m1 dst src len 0 i) with (lo' := 0) (hi' := i + 1); try (done || lia).
      intros m2 Hc2. by exists m2.
    + intros [] w (m1 & -> & Hc). apply HQ.
      by replace (0 + Z.of_nat (Z.to_nat len)) with len in Hc by lia.
Qed.

Lemma memmove_spec (Q : Z → world bmem → Prop) :
  (∀ m', copied m m' dst src 0 len → Q dst (World m' o)) →
  wp (memmove dst src len) Q (World m o).
Proof using Hlen Hs Hd Hs32 Hd32.
  intros HQ. unfold memmove. destruct (Z.ltb_spec dst src); [apply memcpy_spec; [lia|done]|].
  unfold SIZEOF_LONG. rewrite wp_bind. destruct (_ && _ && _) eqn:E.
  - rewrite !andb_true_iff, !Z.eqb_eq in E. destruct E as [[Ed Es] El].
    apply (wp_kwhile (λ i w, ∃ m1, w = World m1 o ∧ 0 ≤ 4 * i ≤ len ∧ copied m m1 dst src (4 * i) len)
             Z.to_nat).
    + lia.
    + exists m. split_and!; [done|lia|lia|]. replace (4 * (len / 4)) with len by lia. apply copied_none.
    + intros i w Hi (m1 & -> & Hr & Hc). rewrite <- bind_assoc_wp, wp_bind.
      apply (word_step m m1 dst src len (4 * i) len) with (lo' := 4 * (i - 1)) (hi' := len);
        try (done || lia || (intros; lia)).
      intros m2 Hc2. kstep. split; [|lia]. exists m2. split_and!; (done || lia).
    + intros i w Hi (m1 & -> & Hr & Hc). apply HQ. by replace (4 * i) with 0 in Hc by lia.
  - clear E.
    apply (wp_kwhile (λ i w, ∃ m1, w = World m1 o ∧ 0 ≤ i ≤ len ∧ copied m m1 dst src i len) Z.to_nat).
    + lia.
    + exists m. split_and!; [done|lia|lia|]. apply copied_none.
    + intros i w Hi (m1 & -> & Hr & Hc). rewrite <- bind_assoc_wp, wp_bind.
      apply (byte_step m m1 dst src len i len) with (lo' := i - 1) (hi' := len); try (done || lia).
      intros m2 Hc2. kstep. split; [|lia]. exists m2. split_and!; (done || lia).
    + intros i w Hi (m1 & -> & Hr & Hc). apply HQ. by replace i with 0 in Hc by lia.
Qed.
End copy.

(** ** Fills *)

Section fill.
Context (m : bmem) (a len : Z) (o : list bool) (Hlen : 0 ≤ len).
Context (Hm : block m a len) (H32 : 0 ≤ a ∧ a + len ≤ 2 ^ 32).

Lemma filled_block m1 n v j : filled m m1 a n v → 0 ≤ v < 2 ^ 8 → n ≤ len → 0 ≤ j →
  ∀ k, j + k ≤ len → block m1 (a + j) k.
Proof using Hm.
  intros Hf Hv Hn Hj k Hk x Hx. rewrite Hf. case_decide; [by exists v|apply Hm; lia].
Qed.

Lemma fill_bytes ch v (Q : unit → world bmem → Prop) :
  u8 ch = v →
  (∀ m', filled m m' a len v → Q tt (World m' o)) →
  wp (kfold (Z.to_nat len) 0 (λ i _, bstore (u32 (a + i)) ch) tt) Q (World m o).
Proof using Hlen Hm H32.
  intros Hv HQ. assert (0 ≤ v < 2 ^ 8) as Hr by (subst; unfold u8; lia).
  apply (wp_kfold (λ i _ w, ∃ m1, w = World m1 o ∧ filled m m1 a i v)).
  - exists m. split; [done|]. intros x. by rewrite decide_False by lia.
  - intros i [] w Hi (m1 & -> & Hf). rewrite u32_id by lia.
    destruct (filled_block _ _ _ i Hf Hr ltac:(lia) ltac:(lia) 1 ltac:(lia) (a + i)) as (w & Hw & _); [lia|].
    rewrite (wp_bstore _ _ w) by done. exists (<[a + i := u8 ch]> m1). split; [done|]. intros x.
    destruct (decide (x = a + i)) as [->|Hne].
    + by rewrite lookup_insert_eq, decide_True by lia; subst.
    + rewrite lookup_insert_ne, Hf by done. repeat case_decide; (done || lia).
  - intros [] w (m1 & -> & Hf). apply HQ. by replace (0 + Z.of_nat (Z.to_nat len)) with len in Hf by lia.
Qed.

Lemma memset_spec ch (Q : Z → world bmem → Prop) :
  (∀ m', filled m m' a len (u8 ch) → Q a (World m' o)) → wp (memset a ch len) Q (World m o).
Proof using Hlen Hm H32.
  intros HQ. unfold memset. rewrite wp_bind. apply (fill_bytes ch (u8 ch)); [done|].
  intros m' Hf. by apply HQ.
Qed.

Lemma bzero_spec (Q : unit → world bmem → Prop) :
  (∀ m', filled m m' a len 0 → Q tt (World m' o)) → wp (bzero a len) Q (World m o).
Proof using Hlen Hm H32.
  intros HQ. unfold bzero, SIZEOF_LONG. destruct (_ && _) eqn:E; [|by apply (fill_bytes 0 0)].
  rewrite !andb_true_iff, !Z.eqb_eq in E. destruct E as [Ea El].
  apply (wp_kfold (λ i _ w, ∃ m1, w = World m1 o ∧ filled m m1 a (4 * i) 0)).
  - exists m. split; [done|]. intros x. by rewrite decide_False by lia.
  - intros i [] w Hi (m1 & -> & Hf). rewrite u32_id by lia.
    rewrite (wp_lstore _ _ 0 0 0 0); try lia.
    2: { eapply filled_block; [done|lia..]. }
    exists (store4 m1 (a + 4 * i) 0 0 0 0). split; [done|]. intros x. rewrite store4_lookup, Hf.
    repeat case_decide; (done || lia).
  - intros [] w (m1 & -> & Hf). apply HQ.
    by replace (4 * (0 + Z.of_nat (Z.to_nat (len / 4)))) with len in Hf by lia.
Qed.
End fill.

(** ** Reference definitions *)

(** The first [n] bytes of [m0] at [src], placed at [dst] in [m]. *)
Fixpoint copy_ref (m0 m : bmem) (dst src : Z) (n : nat) : bmem :=
  match n with
  | O => m
  | S n => partial_alter (λ _, m0 !! (src + Z.of_nat n)) (dst + Z.of_nat n) (copy_ref m0 m dst src n)
  end.

Fixpoint fill_ref (m : bmem) (a v : Z) (n : nat) : bmem :=
  match n with O => m | S n => <[a + Z.of_nat n := v]> (fill_ref m a v n) end.

Lemma copy_ref_copied m dst src n : copied m (copy_ref m m dst src n) dst src 0 (Z.of_nat n).
Proof.
  induction n as [|n IH]; intros x; simpl; [by rewrite decide_False by lia|].
  destruct (decide (x = dst + Z.of_nat n)) as [->|Hne].
  - rewrite lookup_partial_alter_eq, decide_True by lia. f_equal. lia.
  - rewrite lookup_partial_alter_ne, IH by done. repeat case_decide; (done || lia).
Qed.

Lemma fill_ref_filled m a v n : filled m (fill_ref m a v n) a (Z.of_nat n) v.
Proof.
  induction n as [|n IH]; intros x; simpl; [by rewrite decide_False by lia|].
  destruct (decide (x = a + Z.of_nat n)) as [->|Hne].
  - by rewrite lookup_insert_eq, decide_True by lia.
  - rewrite lookup_insert_ne, IH by done. repeat case_decide; (done || lia).
Qed.

Lemma copied_unique m m1 m2 dst src lo hi :
  copied m m1 dst src lo hi → copied m m2 dst src lo hi → m1 = m2.
Proof. intros H1 H2. apply map_eq. intros x. by rewrite H1, H2. Qed.

Lemma filled_unique m m1 m2 a n v : filled m m1 a n v → filled m m2 a n v → m1 = m2.
Proof. intros H1 H2. apply map_eq. intros x. by rewrite H1, H2. Qed.

(** ** Theorems *)

(** C26: On mapped blocks that do not run over the end of the address space,
    however they overlap and whether or not they are aligned, [memmove] is the
    reference copy of the bytes the source held before, and returns its
    destination. *)
Theorem memmove_is_copy m dst src len o :
  0 ≤ len → block m src len → block m dst len →
  0 ≤ src ∧ src + len ≤ 2 ^ 32 → 0 ≤ dst ∧ dst + len ≤ 2 ^ 32 →
  memmove dst src len (World m o) = Ok (dst, World (copy_ref m m dst src (Z.to_nat len)) o).
Proof.
  intros. apply wp_Ok, memmove_spec; try done. intros m' Hc. split; [done|]. f_equal.
  eapply copied_unique; [done|]. pose proof (copy_ref_copied m dst src (Z.to_nat len)) as Hr.
  by rewrite Z2Nat.id in Hr.
Qed.

(** The optimised [memcpy] is the reference copy when the destination starts
    below the source or behind its end. *)
Theorem memcpy_is_copy m dst src len o :
  0 ≤ len → block m src len → block m dst len →
  0 ≤ src ∧ src + len ≤ 2 ^ 32 → 0 ≤ dst ∧ dst + len ≤ 2 ^ 32 →
  dst ≤ src ∨ src + len ≤ dst →
  memcpy dst src len (World m o) = Ok (dst, World (copy_ref m m dst src (Z.to_nat len)) o).
Proof.
  intros. apply wp_Ok, memcpy_spec; try done. intros m' Hc. split; [done|]. f_equal.
  eapply copied_unique; [done|]. pose proof (copy_ref_copied m dst src (Z.to_nat len)) as Hr.
  by rewrite Z2Nat.id in Hr.
Qed.

(** [bzero], by words or by bytes, and [memset] with a zero character have
    the same effect: the block is zero and nothing else changes. *)
Theorem bzero_is_memset m a len o :
  0 ≤ len → block m a len → 0 ≤ a ∧ a + len ≤ 2 ^ 32 →
  bzero a len (World m o) = Ok (tt, World (fill_ref m a 0 (Z.to_nat len)) o) ∧
  memset a 0 len (World m o) = Ok (a, World (fill_ref m a 0 (Z.to_nat len)) o).
Proof.
  intros. pose proof (fill_ref_filled m a 0 (Z.to_nat len)) as Hr. rewrite Z2Nat.id in Hr by done.
  split; apply wp_Ok; [apply bzero_spec|apply memset_spec]; try done; intros m' Hf;
    (split; [done|]); f_equal; by eapply filled_unique.
Qed.

(** Blocks compare by their first difference, as unsigned bytes. *)
Lemma memcmp_spec m a b len o :
  0 ≤ len → block m a len → block m b len →
  0 ≤ a ∧ a + len ≤ 2 ^ 32 → 0 ≤ b ∧ b + len ≤ 2 ^ 32 →
  wp (memcmp a b len) (λ r w', w' = World m o ∧
      ((∀ i, 0 ≤ i < len → m !! (a + i) = m !! (b + i)) ∧ r = 0 ∨
       ∃ i x y, 0 ≤ i < len ∧ (∀ j, 0 ≤ j < i → m !! (a + j) = m !! (b + j)) ∧
         m !! (a + i) = Some x ∧ m !! (b + i) = Some y ∧ x ≠ y ∧ r = x - y)) (World m o).
Proof.
  intros Hlen Ha Hb Ha32 Hb32. unfold memcmp. rewrite wp_bind.
  apply (wp_kfind (λ i _ w, w = World m o ∧ ∀ j, 0 ≤ j < i → m !! (a + j) = m !! (b + j))).
  - split; [done|]. lia.
  - intros i [] w Hi (-> & Heq). rewrite !u32_id by lia.
    destruct (Ha (a + i)) as (x & Hx & ?); [lia|]. destruct (Hb (b + i)) as (y & Hy & ?); [lia|].
    rewrite wp_bind, (wp_bload _ x) by done. rewrite wp_bind, (wp_bload _ y) by done. rewrite wp_ret.
    destruct (Z.eqb_spec x y) as [<-|Hne]; simpl.
    + split; [done|]. intros j Hj. destruct (decide (j = i)) as [->|]; [by rewrite Hx, Hy|apply Heq; lia].
    + kstep. split; [done|right]. exists i, x, y. rewrite i32_id by lia. split_and!; (done || lia).
  - intros [] w (-> & Heq). kstep. split; [done|left]. split; [|done]. intros i Hi. apply Heq. lia.
Qed.

(** ** Witnesses *)

Definition ex_bytes (a : Z) (l : list Z) : bmem := list_to_map (zip (seqZ a (Z.of_nat (length l))) l).

Lemma ex_block a l : (∀ v, v ∈ l → 0 ≤ v < 2 ^ 8) → ∀ b n, a ≤ b → b + n ≤ a + Z.of_nat (length l) →
  block (ex_bytes a l) b n.
Proof.
  intros Hl b n Hb Hn x Hx. destruct (lookup_lt_is_Some_2 l (Z.to_nat (x - a))) as [v Hv]; [lia|].
  exists v. split; [|by apply Hl, list_elem_of_lookup; eauto].
  apply elem_of_list_to_map_1.
  - rewrite fst_zip; [apply NoDup_seqZ|rewrite length_seqZ; lia].
  - apply list_elem_of_lookup. exists (Z.to_nat (x - a)). apply lookup_zip_Some. split; [|done].
    rewrite lookup_seqZ_lt by lia. f_equal. lia.
Qed.

Definition ex_mem : bmem := ex_bytes 100 [1; 2; 3; 4; 5; 6; 7; 8; 9; 10; 11; 12].

Lemma ex_mem_block b n : 100 ≤ b → b + n ≤ 112 → block ex_mem b n.
Proof.
  intros. apply ex_block; [|done|done]. intros v Hv.
  repeat (apply elem_of_cons in Hv as [->|Hv]; [lia|]). by apply not_elem_of_nil in Hv.
Qed.

Lemma memmove_is_copy_witness :
  memmove 104 100 8 (World ex_mem []) = Ok (104, World (copy_ref ex_mem ex_mem 104 100 8) []) ∧
  copy_ref ex_mem ex_mem 104 100 8 = ex_bytes 100 [1; 2; 3; 4; 1; 2; 3; 4; 5; 6; 7; 8].
Proof.
  split; [|reflexivity]. apply (memmove_is_copy ex_mem 104 100 8 []); try lia; apply ex_mem_block; lia.
Defined.

Lemma memcpy_is_copy_witness :
  memcpy 101 103 5 (World ex_mem []) = Ok (101, World (copy_ref ex_mem ex_mem 101 103 5) []).
Proof. apply (memcpy_is_copy ex_mem 101 103 5 []); try lia; apply ex_mem_block; lia. Defined.

Lemma bzero_is_memset_witness :
  bzero 104 8 (World ex_mem []) = Ok (tt, World (fill_ref ex_mem 104 0 8) []) ∧
  memset 104 0 8 (World ex_mem []) = Ok (104, World (fill_ref ex_mem 104 0 8) []).
Proof. apply (bzero_is_memset ex_mem 104 8 []); try lia; apply ex_mem_block; lia. Defined.
