(* ===== verification/DumbVm.v ===== *)
(** * Address spaces and the TLB (kern/arch/mips/mips/dumbvm.c)

    An address space has two regions and a stack, each mapped to consecutive
    physical pages.  The TLB is the list of its entries; memory is the bytes of
    kernel space, in which physical memory appears at [MIPS_KSEG0]. *)

From S2P Require Import Prelude Bits Spl Ram Tlb LibMem.

Definition DUMBVM_STACKPAGES : Z := 12.
Definition USERSTACK : Z := MIPS_KSEG0.
(** The fields dumbvm uses. *)
Record addrspace : Type := AddrSpace {
  as_vbase1 : Z;
  as_pbase1 : Z;
  as_npages1 : Z;
  as_vbase2 : Z;
  as_pbase2 : Z;
  as_npages2 : Z;
  as_stackpbase : Z
}.

(** Pointers to address spaces. *)
Abbreviation asptr := positive.

(** [vm_space] is [curthread->t_vmspace]. *)
Record vmstate : Type := VmState {
  vm_cpu : cpu;
  vm_ram : ram;
  vm_tlb : list (Z * Z);
  vm_mem : bmem;
  vm_heap : gmap asptr addrspace;
  vm_space : option asptr
}.

Definition set_pages (p : cpu * ram) (s : vmstate) : vmstate :=
  VmState p.1 p.2 (vm_tlb s) (vm_mem s) (vm_heap s) (vm_space s).
Definition set_vcpu (c : cpu) (s : vmstate) : vmstate :=
  VmState c (vm_ram s) (vm_tlb s) (vm_mem s) (vm_heap s) (vm_space s).
Definition set_tlb (t : list (Z * Z)) (s : vmstate) : vmstate :=
  VmState (vm_cpu s) (vm_ram s) t (vm_mem s) (vm_heap s) (vm_space s).
Definition set_vmem (m : bmem) (s : vmstate) : vmstate :=
  VmState (vm_cpu s) (vm_ram s) (vm_tlb s) m (vm_heap s) (vm_space s).
Definition set_vheap (h : gmap asptr addrspace) (s : vmstate) : vmstate :=
  VmState (vm_cpu s) (vm_ram s) (vm_tlb s) (vm_mem s) h (vm_space s).
Definition set_space (o : option asptr) (s : vmstate) : vmstate :=
  VmState (vm_cpu s) (vm_ram s) (vm_tlb s) (vm_mem s) (vm_heap s) o.

Definition on_cpu {A} (c : K cpu A) : K vmstate A := zoom vm_cpu set_vcpu c.
Definition on_pages {A} (c : K (cpu * ram) A) : K vmstate A :=
  zoom (λ s, (vm_cpu s, vm_ram s)) set_pages c.
Definition on_mem {A} (c : K bmem A) : K vmstate A := zoom vm_mem set_vmem c.

Definition getas (p : asptr) : K vmstate addrspace := s ← kget; kof (vm_heap s !! p).
Definition setas (p : asptr) (a : addrspace) : K vmstate unit :=
  s ← kget; kput (set_vheap (<[p := a]> (vm_heap s)) s).

(** ** TLB *)

Definition TLB_Read (index : Z) : K vmstate (Z * Z) := s ← kget; kof (lget (vm_tlb s) index).

Definition TLB_Write (entryhi entrylo index : Z) : K vmstate unit :=
  s ← kget;
  if (0 <=? index) && (index <? Z.of_nat (length (vm_tlb s)))
  then kput (set_tlb (<[Z.to_nat index := (entryhi, entrylo)]> (vm_tlb s)) s)
  else kundef.

(** ** Faults *)

(** The assertions about the address space. *)
Definition as_checks (a : addrspace) : list bool :=
  [negb (as_vbase1 a =? 0); negb (as_pbase1 a =? 0); negb (as_npages1 a =? 0);
   negb (as_vbase2 a =? 0); negb (as_pbase2 a =? 0); negb (as_npages2 a =? 0);
   negb (as_stackpbase a =? 0);
   Z.land (as_vbase1 a) PAGE_FRAME =? as_vbase1 a; Z.land (as_pbase1 a) PAGE_FRAME =? as_pbase1 a;
   Z.land (as_vbase2 a) PAGE_FRAME =? as_vbase2 a; Z.land (as_pbase2 a) PAGE_FRAME =? as_pbase2 a;
   Z.land (as_stackpbase a) PAGE_FRAME =? as_stackpbase a].

(** The comparisons with the three ranges. *)
Definition fault_paddr (a : addrspace) (faultaddress : Z) : option Z :=
  let vbase1 := as_vbase1 a in
  let vtop1 := u32 (vbase1 + as_npages1 a * PAGE_SIZE) in
  let vbase2 := as_vbase2 a in
  let vtop2 := u32 (vbase2 + as_npages2 a * PAGE_SIZE) in
  let stackbase := USERSTACK - DUMBVM_STACKPAGES * PAGE_SIZE in
  let stacktop := USERSTACK in
  if (vbase1 <=? faultaddress) && (faultaddress <? vtop1)
  then Some (u32 (faultaddress - vbase1 + as_pbase1 a))
  else if (vbase2 <=? faultaddress) && (faultaddress <? vtop2)
  then Some (u32 (faultaddress - vbase2 + as_pbase2 a))
  else if (stackbase <=? faultaddress) && (faultaddress <? stacktop)
  then Some (u32 (faultaddress - stackbase + as_stackpbase a))
  else None.

(** The loop over the TLB: enter the page in the first invalid slot. *)
Definition tlb_enter (faultaddress paddr : Z) : K vmstate (unit + unit) :=
  kfind (Z.to_nat NUM_TLB) 0
    (λ i _, '(ehi, elo) ← TLB_Read i;
            if negb (Z.land elo TLBLO_VALID =? 0) then mret (inl tt) else
            TLB_Write faultaddress (Z.lor (Z.lor paddr TLBLO_DIRTY) TLBLO_VALID) i;;
            mret (inr tt)) tt.

Definition vm_fault (faulttype faultaddress : Z) : K vmstate Z :=
  spl ← on_cpu splhigh;
  let faultaddress := Z.land faultaddress PAGE_FRAME in
  if faulttype =? VM_FAULT_READONLY then kpanic else
  if negb ((faulttype =? VM_FAULT_READ) || (faulttype =? VM_FAULT_WRITE))
  then on_cpu (splx spl);; mret EINVAL else
  s ← kget;
  match vm_space s with
  | None => mret EFAULT
  | Some p =>
      a ← getas p;
      kassert (forallb id (as_checks a));;
      match fault_paddr a faultaddress with
      | None => on_cpu (splx spl);; mret EFAULT
      | Some paddr =>
          kassert (Z.land paddr PAGE_FRAME =? paddr);;
          r ← tlb_enter faultaddress paddr;
          on_cpu (splx spl);;
          mret (match r with inr _ => 0 | inl _ => EFAULT end)
      end
  end.

(** ** Address spaces *)

Definition as_create : K vmstate (option asptr) :=
  ok ← kmalloc_ok;
  if negb ok then mret None else
  s ← kget;
  let p := fresh (dom (vm_heap s)) in
  setas p (AddrSpace 0 0 0 0 0 0 0);;
  mret (Some p).

Definition as_destroy (p : asptr) : K vmstate unit :=
  _ ← getas p;
  s ← kget; kput (set_vheap (delete p (vm_heap s)) s).

Definition as_activate : K vmstate unit :=
  spl ← on_cpu splhigh;
  kfold (Z.to_nat NUM_TLB) 0 (λ i _, TLB_Write (TLBHI_INVALID i) TLBLO_INVALID i) tt;;
  _ ← on_cpu (splx spl);
  mret tt.

Definition set_region1 (v n : Z) (a : addrspace) : addrspace :=
  AddrSpace v (as_pbase1 a) n (as_vbase2 a) (as_pbase2 a) (as_npages2 a) (as_stackpbase a).
Definition set_region2 (v n : Z) (a : addrspace) : addrspace :=
  AddrSpace (as_vbase1 a) (as_pbase1 a) (as_npages1 a) v (as_pbase2 a) n (as_stackpbase a).
Definition set_pbase1 (p : Z) (a : addrspace) : addrspace :=
  AddrSpace (as_vbase1 a) p (as_npages1 a) (as_vbase2 a) (as_pbase2 a) (as_npages2 a) (as_stackpbase a).
Definition set_pbase2 (p : Z) (a : addrspace) : addrspace :=
  AddrSpace (as_vbase1 a) (as_pbase1 a) (as_npages1 a) (as_vbase2 a) p (as_npages2 a) (as_stackpbase a).
Definition set_stackpbase (p : Z) (a : addrspace) : addrspace :=
  AddrSpace (as_vbase1 a) (as_pbase1 a) (as_npages1 a) (as_vbase2 a) (as_pbase2 a) (as_npages2 a) p.

Definition as_define_region (p : asptr) (vaddr sz : Z) : K vmstate Z :=
  let sz := u32 (sz + Z.land vaddr (u32 (Z.lnot PAGE_FRAME))) in
  let vaddr := Z.land vaddr PAGE_FRAME in
  let sz := Z.land (u32 (sz + PAGE_SIZE - 1)) PAGE_FRAME in
  let npages := sz / PAGE_SIZE in
  a ← getas p;
  if as_vbase1 a =? 0 then setas p (set_region1 vaddr npages a);; mret 0 else
  if as_vbase2 a =? 0 then setas p (set_region2 vaddr npages a);; mret 0 else
  mret EUNIMP.

Definition as_prepare_load (p : asptr) : K vmstate Z :=
  a ← getas p;
  kassert (as_pbase1 a =? 0);;
  kassert (as_pbase2 a =? 0);;
  kassert (as_stackpbase a =? 0);;
  pa ← on_pages (getppages (as_npages1 a));
  setas p (set_pbase1 pa a);;
  if pa =? 0 then mret ENOMEM else
  a ← getas p;
  pa ← on_pages (getppages (as_npages2 a));
  setas p (set_pbase2 pa a);;
  if pa =? 0 then mret ENOMEM else
  a ← getas p;
  pa ← on_pages (getppages DUMBVM_STACKPAGES);
  setas p (set_stackpbase pa a);;
  if pa =? 0 then mret ENOMEM else mret 0.

Definition as_complete_load (p : asptr) : K vmstate Z := mret 0.

(** The error code and [*stackptr]. *)
Definition as_define_stack (p : asptr) : K vmstate (Z * Z) :=
  a ← getas p;
  kassert (negb (as_stackpbase a =? 0));;
  mret (0, USERSTACK).

(** The four fields that are copied. *)
Definition copy_shape (old new : addrspace) : addrspace :=
  AddrSpace (as_vbase1 old) (as_pbase1 new) (as_npages1 old) (as_vbase2 old) (as_pbase2 new)
    (as_npages2 old) (as_stackpbase new).

Definition as_copy (oldp : asptr) : K vmstate (Z * option asptr) :=
  o ← as_create;
  match o with
  | None => mret (ENOMEM, None)
  | Some newp =>
      old ← getas oldp;
      new ← getas newp;
      setas newp (copy_shape old new);;
      r ← as_prepare_load newp;
      if negb (r =? 0) then as_destroy newp;; mret (ENOMEM, None) else
      old ← getas oldp;
      new ← getas newp;
      kassert (negb (as_pbase1 new =? 0));;
      kassert (negb (as_pbase2 new =? 0));;
      kassert (negb (as_stackpbase new =? 0));;
      _ ← on_mem (memmove (PADDR_TO_KVADDR (as_pbase1 new)) (PADDR_TO_KVADDR (as_pbase1 old))
                    (u32 (as_npages1 old * PAGE_SIZE)));
      _ ← on_mem (memmove (PADDR_TO_KVADDR (as_pbase2 new)) (PADDR_TO_KVADDR (as_pbase2 old))
                    (u32 (as_npages2 old * PAGE_SIZE)));
      _ ← on_mem (memmove (PADDR_TO_KVADDR (as_stackpbase new)) (PADDR_TO_KVADDR (as_stackpbase old))
                    (DUMBVM_STACKPAGES * PAGE_SIZE));
      mret (0, Some newp)
  end.
