(* ===== verification/DumbVmSpec.v ===== *)
(** * What address spaces map, and the TLB as a record of faults

    [as_map] is the translation an address space stands for.  After
    [as_activate] the TLB holds exactly the pages that faulted since, in order;
    [vm_fault] adds one.  [user_paddr] is an access by a user program: the
    processor's lookup in the TLB, with a fault and another try on a miss. *)

From S2P Require Import Prelude Bits Spl Ram Tlb LibMem DumbVm.

#[local] Ltac Zify.zify_post_hook ::= Z.div_mod_to_equations.

(** ** Translation *)

Definition page_of (va : Z) : Z := va - va mod PAGE_SIZE.

Lemma page_frame_of va : 0 ≤ va < 2 ^ 32 → Z.land va PAGE_FRAME = page_of va.
Proof. apply land_frame. Qed.

(** A region: where it starts, its number of pages, where its frames start. *)
Definition region : Type := Z * Z * Z.

Definition regions (a : addrspace) : list region :=
  [(as_vbase1 a, as_npages1 a, as_pbase1 a); (as_vbase2 a, as_npages2 a, as_pbase2 a);
   (USERSTACK - DUMBVM_STACKPAGES * PAGE_SIZE, DUMBVM_STACKPAGES, as_stackpbase a)].

Definition region_ok (top : Z) (r : region) : Prop :=
  let '(vb, n, pb) := r in
  0 < vb ∧ vb mod PAGE_SIZE = 0 ∧ 0 < n ∧ vb + n * PAGE_SIZE ≤ USERSTACK ∧
  0 < pb ∧ pb mod PAGE_SIZE = 0 ∧ pb + n * PAGE_SIZE ≤ top.

(** All regions are there and their frames lie below [top]. *)
Definition loaded (top : Z) (a : addrspace) : Prop := Forall (region_ok top) (regions a).

Definition in_region (va : Z) (r : region) : bool :=
  let '(vb, n, pb) := r in (vb <=? va) && (va <? vb + n * PAGE_SIZE).

Definition region_pa (va : Z) (r : region) : Z := let '(vb, n, pb) := r in va - vb + pb.

(** The first region with the address translates it. *)
Definition as_map (a : addrspace) (va : Z) : option Z :=
  match filter (λ r, in_region va r = true) (regions a) with
  | [] => None
  | r :: _ => Some (region_pa va r)
  end.

Lemma as_map_Some a va p :
  as_map a va = Some p → ∃ r, r ∈ regions a ∧ in_region va r = true ∧ p = region_pa va r.
Proof.
  unfold as_map. destruct (filter _ _) as [|r l] eqn:E; [done|]. intros [= <-]. exists r.
  assert (r ∈ filter (λ r, in_region va r = true) (regions a)) as Hr by (rewrite E; by left).
  apply list_elem_of_filter in Hr as [? ?]. done.
Qed.

Lemma loaded_in top a r : loaded top a → r ∈ regions a → region_ok top r.
Proof. unfold loaded. rewrite Forall_forall. auto. Qed.

Lemma in_region_spec va vb n pb : in_region va (vb, n, pb) = true ↔ vb ≤ va < vb + n * PAGE_SIZE.
Proof. cbn. rewrite andb_true_iff, Z.leb_le, Z.ltb_lt. done. Qed.

Lemma in_region_page top va r : region_ok top r → in_region (page_of va) r = in_region va r.
Proof.
  destruct r as [[vb n] pb]. intros (H1 & H2 & H3 & H4 & H5 & H6 & H7). unfold page_of, PAGE_SIZE in *.
  apply eq_true_iff_eq. rewrite !in_region_spec. unfold PAGE_SIZE. lia.
Qed.

Lemma as_map_user top a va p : loaded top a → as_map a va = Some p →
  0 < va < USERSTACK ∧ 0 < p < top.
Proof.
  intros Hl ([[vb n] pb] & Hr & Hin & ->)%as_map_Some. apply in_region_spec in Hin. cbn.
  destruct (loaded_in _ _ _ Hl Hr) as (? & ? & ? & ? & ? & ? & ?). unfold PAGE_SIZE in *. lia.
Qed.

(** Pages are translated as a whole. *)
Lemma as_map_page top a va : loaded top a →
  as_map a va = (λ p, p + va mod PAGE_SIZE) <$> as_map a (page_of va).
Proof.
  intros Hl. unfold as_map.
  assert (filter (λ r, in_region (page_of va) r = true) (regions a) =
          filter (λ r, in_region va r = true) (regions a)) as ->.
  { assert (∀ l : list region, (∀ r, r ∈ l → region_ok top r) →
      filter (λ r, in_region (page_of va) r = true) l = filter (λ r, in_region va r = true) l) as H.
    { induction l as [|r l IH]; intros Hok; [done|]. rewrite !filter_cons.
      rewrite (in_region_page top) by (apply Hok; by left). rewrite IH; [done|].
      intros. apply Hok. by right. }
    apply H. intros. by eapply loaded_in. }
  destruct (filter _ _) as [|[[vb n] pb] l]; [done|]. cbn. f_equal. unfold page_of. lia.
Qed.

Lemma page_of_idem va : page_of (page_of va) = page_of va.
Proof. unfold page_of, PAGE_SIZE. lia. Qed.

Lemma as_map_aligned top a va p : loaded top a → as_map a (page_of va) = Some p → p mod PAGE_SIZE = 0.
Proof.
  intros Hl ([[vb n] pb] & Hr & Hin & ->)%as_map_Some. cbn.
  destruct (loaded_in _ _ _ Hl Hr) as (? & ? & ? & ? & ? & ? & ?). unfold page_of, PAGE_SIZE in *. lia.
Qed.

(** The comparisons of [vm_fault] compute the translation. *)
Lemma fault_paddr_map top a va : loaded top a → top ≤ 508 * 1024 * 1024 → fault_paddr a va = as_map a va.
Proof.
  intros Hl Htop. unfold loaded, regions in Hl.
  apply Forall_cons in Hl as (H1 & Hl). apply Forall_cons in Hl as (H2 & Hl). apply Forall_cons in Hl as (H3 & _).
  destruct H1 as (? & ? & ? & ? & ? & ? & ?), H2 as (? & ? & ? & ? & ? & ? & ?), H3 as (? & ? & ? & ? & ? & ? & ?).
  unfold as_map, regions, fault_paddr. unfold USERSTACK, MIPS_KSEG0, DUMBVM_STACKPAGES, PAGE_SIZE in *.
  rewrite !filter_cons, filter_nil. cbn [in_region].
  change PAGE_SIZE with 4096.
  rewrite (u32_id (as_vbase1 a + as_npages1 a * 4096)), (u32_id (as_vbase2 a + as_npages2 a * 4096)) by lia.
  destruct (Z.leb_spec (as_vbase1 a) va), (Z.ltb_spec va (as_vbase1 a + as_npages1 a * 4096)); cbn [andb];
    [rewrite decide_True by done; cbn; f_equal; apply u32_id; lia|rewrite decide_False by done..];
  (destruct (Z.leb_spec (as_vbase2 a) va), (Z.ltb_spec va (as_vbase2 a + as_npages2 a * 4096)); cbn [andb];
    [rewrite decide_True by done; cbn; f_equal; apply u32_id; lia|rewrite decide_False by done..]);
  (destruct (_ && _) eqn:E; [rewrite decide_True by done|rewrite decide_False by done; done]);
  rewrite andb_true_iff, Z.leb_le, Z.ltb_lt in E; cbn; f_equal; apply u32_id; lia.
Qed.

Lemma frame_fixed x : 0 ≤ x < 2 ^ 32 → x mod PAGE_SIZE = 0 → (Z.land x PAGE_FRAME =? x) = true.
Proof. intros Hx Hm. apply Z.eqb_eq. rewrite land_frame by done. lia. Qed.

Lemma region_checks top vb n pb :
  region_ok top (vb, n, pb) → top ≤ 508 * 1024 * 1024 →
  negb (vb =? 0) = true ∧ negb (pb =? 0) = true ∧ negb (n =? 0) = true ∧
  (Z.land vb PAGE_FRAME =? vb) = true ∧ (Z.land pb PAGE_FRAME =? pb) = true.
Proof.
  intros (? & ? & ? & ? & ? & ? & ?) Ht. unfold USERSTACK, MIPS_KSEG0, PAGE_SIZE in *.
  split_and!; [by apply negb_true_iff, Z.eqb_neq; lia..| |]; apply frame_fixed; unfold PAGE_SIZE; lia.
Qed.

Lemma loaded_checks top a : loaded top a → top ≤ 508 * 1024 * 1024 → forallb id (as_checks a) = true.
Proof.
  intros Hl Ht. unfold loaded, regions in Hl.
  apply Forall_cons in Hl as (H1 & Hl). apply Forall_cons in Hl as (H2 & Hl). apply Forall_cons in Hl as (H3 & _).
  apply region_checks in H1 as (? & ? & ? & ? & ?), H2 as (? & ? & ? & ? & ?), H3 as (? & ? & ? & ? & ?); [|done..].
  unfold as_checks. cbn [forallb]. unfold id. repeat (apply andb_true_iff; split); done.
Qed.

(** ** Entries of the TLB *)

Definition tlb_entry (a : addrspace) (vp : Z) : Z * Z :=
  (vp, Z.lor (Z.lor (default 0 (as_map a vp)) TLBLO_DIRTY) TLBLO_VALID).

Lemma entry_lo pa : pa mod PAGE_SIZE = 0 → Z.lor (Z.lor pa TLBLO_DIRTY) TLBLO_VALID = pa + 0x600.
Proof.
  intros Hp. rewrite <- Z.lor_assoc. change (Z.lor TLBLO_DIRTY TLBLO_VALID) with 0x600.
  by apply lor_frame.
Qed.

Lemma entry_bits pa :
  0 ≤ pa < 2 ^ 31 → pa mod PAGE_SIZE = 0 →
  Z.land (pa + 0x600) TLBLO_VALID ≠ 0 ∧ Z.land (pa + 0x600) TLBLO_DIRTY ≠ 0 ∧
  Z.land (pa + 0x600) TLBLO_PPAGE = pa.
Proof.
  intros Hr Hp. change TLBLO_PPAGE with PAGE_FRAME. rewrite <- entry_lo by done.
  assert (∀ k, 0 ≤ k → Z.testbit (Z.lor (Z.lor pa TLBLO_DIRTY) TLBLO_VALID) k = true →
            Z.land (Z.lor (Z.lor pa TLBLO_DIRTY) TLBLO_VALID) (2 ^ k) ≠ 0) as Hbit.
  { intros k Hk Hb E. apply (f_equal (λ z, Z.testbit z k)) in E.
    rewrite Z.land_spec, Hb, Z.pow2_bits_true, Z.bits_0 in E; done. }
  split_and!.
  - apply (Hbit 9); [done|]. rewrite !Z.lor_spec. change (Z.testbit TLBLO_VALID 9) with true. apply orb_true_r.
  - apply (Hbit 10); [done|]. rewrite !Z.lor_spec. change (Z.testbit TLBLO_DIRTY 10) with true.
    by rewrite orb_true_r.
  - rewrite entry_lo by done. rewrite land_frame by lia. unfold PAGE_SIZE in *. lia.
Qed.

(** The TLB after these pages have faulted. *)
Definition tlb_of (a : addrspace) (touched : list Z) : list (Z * Z) :=
  (tlb_entry a <$> touched) ++
  ((λ i, (TLBHI_INVALID i, TLBLO_INVALID)) <$> seqZ (Z.of_nat (length touched)) (NUM_TLB - Z.of_nat (length touched))).

Record touched_ok (a : addrspace) (touched : list Z) : Prop := TouchedOk {
  to_len : Z.of_nat (length touched) ≤ NUM_TLB;
  to_nodup : NoDup touched;
  to_map vp : vp ∈ touched → page_of vp = vp ∧ is_Some (as_map a vp)
}.

Lemma tlb_of_length a touched : Z.of_nat (length touched) ≤ NUM_TLB → length (tlb_of a touched) = 64%nat.
Proof. intros H. unfold tlb_of, NUM_TLB in *. rewrite length_app, !length_fmap, length_seqZ. lia. Qed.

Lemma tlb_of_snoc a touched vp :
  Z.of_nat (length touched) < NUM_TLB →
  <[length touched := tlb_entry a vp]> (tlb_of a touched) = tlb_of a (touched ++ [vp]).
Proof.
  intros Hlt. unfold tlb_of. rewrite insert_app_r_alt by (by rewrite length_fmap).
  rewrite length_fmap, Nat.sub_diag, seqZ_cons by lia. cbn [fmap list_fmap].
  rewrite fmap_app, length_app. cbn [fmap list_fmap length]. rewrite <- app_assoc.
  change (<[0%nat := ?x]> (?y :: ?l)) with (x :: l). cbn [app].
  replace (Z.of_nat (length touched + 1)) with (Z.succ (Z.of_nat (length touched))) by lia.
  by replace (NUM_TLB - Z.succ (Z.of_nat (length touched))) with (Z.pred (NUM_TLB - Z.of_nat (length touched))) by lia.
Qed.

Lemma tlb_of_touched a touched i vp :
  touched !! i = Some vp → tlb_of a touched !! i = Some (tlb_entry a vp).
Proof.
  intros Hi. unfold tlb_of. rewrite lookup_app_l.
  - by rewrite list_lookup_fmap, Hi.
  - rewrite length_fmap. by eapply lookup_lt_Some.
Qed.

Lemma tlb_of_free a touched i :
  (length touched ≤ i)%nat → Z.of_nat i < NUM_TLB →
  tlb_of a touched !! i = Some (TLBHI_INVALID (Z.of_nat i), TLBLO_INVALID).
Proof.
  intros H1 H2. unfold tlb_of. rewrite lookup_app_r by (by rewrite length_fmap).
  rewrite length_fmap, list_lookup_fmap.
  rewrite (proj2 (lookup_seqZ _ _ (i - length touched)%nat (Z.of_nat i))); [done|]. lia.
Qed.

Lemma invalid_hi i : 0 ≤ i < NUM_TLB → USERSTACK ≤ TLBHI_INVALID i.
Proof.
  intros Hi. unfold TLBHI_INVALID, NUM_TLB, USERSTACK, MIPS_KSEG0 in *. rewrite Z.shiftl_mul_pow2 by done.
  rewrite u32_id by lia. lia.
Qed.

(** ** The processor's lookup *)

(** The kind of fault, or the physical address. *)
Definition hw (tlb : list (Z * Z)) (write : bool) (va : Z) : Z + Z :=
  let miss := if write then VM_FAULT_WRITE else VM_FAULT_READ in
  match list_find (λ e, e.1 = page_of va) tlb with
  | Some (_, (_, lo)) =>
      if Z.land lo TLBLO_VALID =? 0 then inl miss
      else if write && (Z.land lo TLBLO_DIRTY =? 0) then inl VM_FAULT_READONLY
      else inr (Z.land lo TLBLO_PPAGE + va mod PAGE_SIZE)
  | None => inl miss
  end.

Section lookup.
Context (top : Z) (a : addrspace) (touched : list Z).
Context (Hl : loaded top a) (Htop : top ≤ 508 * 1024 * 1024) (Ht : touched_ok a touched).

Lemma hw_hit write va p :
  page_of va ∈ touched → as_map a va = Some p → hw (tlb_of a touched) write va = inr p.
Proof using All.
  intros Hin Hp. unfold hw.
  destruct (list_find (λ e, e.1 = page_of va) (tlb_of a touched)) as [[i [hi lo]]|] eqn:E.
  - apply list_find_Some in E as (Hi & Hhi & _). cbn in Hhi.
    destruct (decide (i < length touched)%nat) as [Hlt|Hge].
    + destruct (lookup_lt_is_Some_2 touched i Hlt) as (vp & Hvp).
      rewrite (tlb_of_touched _ _ _ _ Hvp) in Hi. injection Hi as <- <-. subst vp.
      rewrite (as_map_page top) in Hp by done. destruct (as_map a (page_of va)) as [q|] eqn:Hq; [|done].
      injection Hp as <-. cbn [default from_option id].
      pose proof (as_map_aligned _ _ _ _ Hl Hq) as Hal. pose proof (as_map_user _ _ _ _ Hl Hq) as [_ Hr].
      rewrite entry_lo by done. destruct (entry_bits q) as (Hv & Hd & ->); [lia|done|].
      rewrite (proj2 (Z.eqb_neq _ 0)) by done. rewrite (proj2 (Z.eqb_neq _ 0)) by done. by rewrite andb_false_r.
    + assert (Z.of_nat i < NUM_TLB) as Hi64.
      { apply lookup_lt_Some in Hi. rewrite tlb_of_length in Hi by apply Ht. unfold NUM_TLB. lia. }
      rewrite tlb_of_free in Hi by lia. injection Hi as <- <-.
      pose proof (invalid_hi (Z.of_nat i)). pose proof (as_map_user _ _ _ _ Hl Hp).
      unfold page_of, PAGE_SIZE in *. lia.
  - apply list_find_None in E. rewrite Forall_forall in E.
    destruct (E (tlb_entry a (page_of va))); [|done]. unfold tlb_of. apply elem_of_app. left.
    apply list_elem_of_fmap. eauto.
Qed.

Lemma hw_miss write va :
  page_of va ∉ touched → va < USERSTACK →
  hw (tlb_of a touched) write va = inl (if write then VM_FAULT_WRITE else VM_FAULT_READ).
Proof using All.
  intros Hno Hva. unfold hw.
  destruct (list_find (λ e, e.1 = page_of va) (tlb_of a touched)) as [[i [hi lo]]|] eqn:E; [|done].
  apply list_find_Some in E as (Hi & Hhi & _). cbn in Hhi. destruct Hno.
  destruct (decide (i < length touched)%nat) as [Hlt|Hge].
  - destruct (lookup_lt_is_Some_2 touched i Hlt) as (vp & Hvp).
    rewrite (tlb_of_touched _ _ _ _ Hvp) in Hi. injection Hi as <- <-. rewrite <- Hhi. by eapply list_elem_of_lookup_2.
  - assert (Z.of_nat i < NUM_TLB) as Hi64.
    { apply lookup_lt_Some in Hi. rewrite tlb_of_length in Hi by apply Ht. unfold NUM_TLB. lia. }
    rewrite tlb_of_free in Hi by lia. injection Hi as <- <-.
    pose proof (invalid_hi (Z.of_nat i)). unfold page_of, PAGE_SIZE in *. lia.
Qed.
End lookup.

(** ** Faults *)

Lemma on_cpu_splhigh s m (Q : Z → world vmstate → Prop) :
  Q (curspl (vm_cpu s)) (World (set_vcpu (high (vm_cpu s)) s) m) → wp (on_cpu splhigh) Q (World s m).
Proof. intros HQ. unfold on_cpu. rewrite wp_zoom. by apply splhigh_spec. Qed.

Lemma on_cpu_splx c s m (Q : Z → world vmstate → Prop) :
  cpu_ok c → Q SPL_HIGH (World (set_vcpu c s) m) →
  wp (on_cpu (splx (curspl c))) Q (World (set_vcpu (high c) s) m).
Proof. intros Hc HQ. unfold on_cpu. rewrite wp_zoom. by apply splx_spec. Qed.

Lemma set_vcpu_id s : set_vcpu (vm_cpu s) s = s.
Proof. by destruct s. Qed.

Lemma wp_TLB_Read s i e m (Q : Z * Z → world vmstate → Prop) :
  vm_tlb s !! i = Some e → Q e (World s m) → wp (TLB_Read (Z.of_nat i)) Q (World s m).
Proof.
  intros Hi HQ. unfold TLB_Read. rewrite wp_bind, wp_kget. cbn [wst]. by rewrite lget_of_nat, Hi, wp_kof_Some.
Qed.

Lemma wp_TLB_Write s i hi lo m (Q : unit → world vmstate → Prop) :
  (i < length (vm_tlb s))%nat → Q tt (World (set_tlb (<[i := (hi, lo)]> (vm_tlb s)) s) m) →
  wp (TLB_Write hi lo (Z.of_nat i)) Q (World s m).
Proof.
  intros Hi HQ. unfold TLB_Write. rewrite wp_bind, wp_kget. cbn [wst].
  rewrite (proj2 (Z.leb_le 0 (Z.of_nat i))) by lia.
  rewrite (proj2 (Z.ltb_lt _ _)) by lia. cbn [andb]. by rewrite wp_kput, Nat2Z.id.
Qed.

Lemma as_activate_spec s m (Q : unit → world vmstate → Prop) :
  cpu_ok (vm_cpu s) → length (vm_tlb s) = 64%nat →
  (∀ a, Q tt (World (set_tlb (tlb_of a []) s) m)) → wp as_activate Q (World s m).
Proof.
  intros Hc Hlen HQ. unfold as_activate. rewrite wp_bind. apply on_cpu_splhigh. rewrite wp_bind.
  set (inv := λ i, (TLBHI_INVALID i, TLBLO_INVALID)). set (s1 := set_vcpu _ s).
  apply (wp_kfold (λ i _ w, ∃ n, i = Z.of_nat n ∧ (n ≤ 64)%nat ∧
           w = World (set_tlb ((inv <$> seqZ 0 i) ++ drop n (vm_tlb s)) s1) m)).
  - exists 0%nat. split_and!; [done|lia|]. cbn. by destruct s.
  - intros i [] w Hi (n & -> & Hn & ->). unfold NUM_TLB in Hi.
    destruct (lookup_lt_is_Some_2 (vm_tlb s) n) as (e & He); [lia|].
    apply wp_TLB_Write; [cbn; rewrite length_app, length_fmap, length_seqZ, length_drop; lia|].
    exists (S n). split_and!; [lia|lia|]. f_equal. unfold set_tlb. cbn. f_equal.
    rewrite insert_app_r_alt by (rewrite length_fmap, length_seqZ; lia).
    rewrite length_fmap, length_seqZ, Nat2Z.id, Nat.sub_diag, (drop_S _ _ _ He).
    change (<[0%nat := ?x]> (?y :: ?l)) with (x :: l).
    replace (Z.of_nat n + 1) with (Z.of_nat n + Z.of_nat 1) by lia. rewrite seqZ_app, fmap_app by lia.
    rewrite <- app_assoc. done.
  - intros [] w (n & En & Hn & ->). unfold NUM_TLB in En.
    replace (0 + Z.of_nat (Z.to_nat 64)) with 64 in * by lia. assert (n = 64%nat) as -> by lia.
    rewrite drop_ge, app_nil_r by lia. rewrite wp_bind.
    change (set_tlb ?t s1) with (set_vcpu (high (vm_cpu s)) (set_tlb t s)).
    apply on_cpu_splx; [done|]. rewrite wp_ret.
    change (set_vcpu (vm_cpu s) (set_tlb ?t s)) with (set_tlb t (set_vcpu (vm_cpu s) s)).
    rewrite set_vcpu_id. apply (HQ (AddrSpace 0 0 0 0 0 0 0)).
Qed.

(** What a fault may rely on: a loaded address space and a TLB that holds the
    pages that faulted before. *)
Record fault_ok (s : vmstate) (p : asptr) (a : addrspace) (touched : list Z) : Prop := FaultOk {
  fo_cpu : cpu_ok (vm_cpu s);
  fo_top : firstpaddr (vm_ram s) ≤ 508 * 1024 * 1024;
  fo_space : vm_space s = Some p;
  fo_as : vm_heap s !! p = Some a;
  fo_loaded : loaded (firstpaddr (vm_ram s)) a;
  fo_tlb : vm_tlb s = tlb_of a touched;
  fo_touched : touched_ok a touched
}.

Lemma tlb_enter_spec s a touched vp pa m (Q : unit + unit → world vmstate → Prop) :
  vm_tlb s = tlb_of a touched → touched_ok a touched → as_map a vp = Some pa →
  (∀ vp, vp ∈ touched → ∀ q, as_map a vp = Some q → q mod PAGE_SIZE = 0 ∧ 0 ≤ q < 2 ^ 31) →
  (Z.of_nat (length touched) = NUM_TLB → Q (inl tt) (World s m)) →
  (Z.of_nat (length touched) < NUM_TLB → Q (inr tt) (World (set_tlb (tlb_of a (touched ++ [vp])) s) m)) →
  wp (tlb_enter vp pa) Q (World s m).
Proof.
  intros Htlb Ht Hpa Hbits Hfull Hfree. unfold tlb_enter.
  apply (wp_kfind (λ i _ w, ∃ n, i = Z.of_nat n ∧ (n ≤ length touched)%nat ∧ w = World s m)).
  - exists 0%nat. split_and!; [done|lia|done].
  - intros i [] w Hi (n & -> & Hn & ->). rewrite wp_bind.
    destruct (decide (n < length touched)%nat) as [Hlt|Hge].
    + destruct (lookup_lt_is_Some_2 touched n Hlt) as (v & Hv).
      eapply wp_TLB_Read; [by rewrite Htlb, (tlb_of_touched _ _ _ _ Hv)|]. unfold tlb_entry.
      pose proof (list_elem_of_lookup_2 _ _ _ Hv) as Hin.
      destruct (to_map _ _ Ht v Hin) as (_ & q & Hq). rewrite Hq. cbn [default from_option id].
      destruct (Hbits v Hin q Hq) as (Hal & Hr). rewrite entry_lo by done.
      destruct (entry_bits q) as (Hva & _ & _); [done..|]. rewrite (proj2 (Z.eqb_neq _ 0)) by done.
      cbn [negb]. rewrite wp_ret. exists (S n). split_and!; [lia|lia|done].
    + assert (n = length touched) as -> by lia. unfold NUM_TLB in Hi.
      eapply wp_TLB_Read; [rewrite Htlb; apply tlb_of_free; [lia|unfold NUM_TLB; lia]|].
      cbv beta iota. change (negb (Z.land TLBLO_INVALID TLBLO_VALID =? 0)) with false. cbv iota. rewrite wp_bind.
      apply wp_TLB_Write; [rewrite Htlb, tlb_of_length by apply Ht; lia|]. rewrite wp_ret.
      assert (Z.of_nat (length touched) < NUM_TLB) as Hlt by (unfold NUM_TLB; lia).
      specialize (Hfree Hlt). rewrite <- tlb_of_snoc in Hfree by done. rewrite Htlb.
      unfold tlb_entry in Hfree. rewrite Hpa in Hfree. exact Hfree.
  - intros [] w (n & En & Hn & ->). apply Hfull. pose proof (to_len _ _ Ht). unfold NUM_TLB in *. lia.
Qed.

Lemma vm_fault_spec s p a touched write va m (Q : Z → world vmstate → Prop) :
  fault_ok s p a touched → 0 ≤ va < USERSTACK →
  (as_map a va = None → Q EFAULT (World s m)) →
  (is_Some (as_map a va) → Z.of_nat (length touched) = NUM_TLB → Q EFAULT (World s m)) →
  (is_Some (as_map a va) → Z.of_nat (length touched) < NUM_TLB →
     Q 0 (World (set_tlb (tlb_of a (touched ++ [page_of va])) s) m)) →
  wp (vm_fault (if (write : bool) then VM_FAULT_WRITE else VM_FAULT_READ) va) Q (World s m).
Proof.
  intros [Hc Htop Hsp Has Hl Htlb Ht] Hva Hno Hfull Hok. unfold vm_fault. rewrite wp_bind.
  apply on_cpu_splhigh. rewrite page_frame_of by (unfold USERSTACK, MIPS_KSEG0 in *; lia).
  replace (_ =? VM_FAULT_READONLY) with false by by destruct write.
  replace (negb _) with false by by destruct write. cbv iota.
  rewrite wp_bind, wp_kget. cbn [wst set_vcpu vm_space]. rewrite Hsp. cbv iota beta. rewrite wp_bind. unfold getas.
  rewrite wp_bind, wp_kget. cbn [wst set_vcpu vm_heap]. rewrite Has, wp_kof_Some.
  rewrite wp_bind, wp_kassert by by eapply loaded_checks. rewrite (fault_paddr_map _ _ _ Hl Htop).
  assert (∀ c f t, set_vcpu c (set_tlb t (set_vcpu f s)) = set_tlb t (set_vcpu c s)) as Hset by done.
  pose proof (as_map_page _ _ va Hl) as Epage. destruct (as_map a (page_of va)) as [pa|] eqn:Hpa.
  2:{ rewrite wp_bind. apply on_cpu_splx; [done|]. rewrite wp_ret, set_vcpu_id. by apply Hno. }
  pose proof (as_map_aligned _ _ _ _ Hl Hpa) as Hal. pose proof (as_map_user _ _ _ _ Hl Hpa) as [_ Hr].
  rewrite wp_bind, wp_kassert by (apply frame_fixed; [lia|done]). rewrite wp_bind.
  assert (is_Some (as_map a va)) as Hsome by by rewrite Epage.
  eapply (tlb_enter_spec _ a touched); [exact Htlb|done|exact Hpa| | |].
  - intros vp Hvp q Hq. destruct (to_map _ _ Ht vp Hvp) as (Epg & _). rewrite <- Epg in Hq.
    pose proof (as_map_aligned _ _ _ _ Hl Hq). pose proof (as_map_user _ _ _ _ Hl Hq). lia.
  - intros Hlen. rewrite wp_bind. apply on_cpu_splx; [done|]. rewrite wp_ret, set_vcpu_id. by apply Hfull.
  - intros Hlen. rewrite wp_bind.
    change (set_tlb ?t (set_vcpu ?c s)) with (set_vcpu c (set_tlb t s)).
    apply on_cpu_splx; [done|]. rewrite wp_ret.
    change (set_vcpu ?c (set_tlb ?t s)) with (set_tlb t (set_vcpu c s)). rewrite set_vcpu_id. by apply Hok.
Qed.
