(* ===== verification/DumbVmSys.v ===== *)
(** * User programs on address spaces

    A system of address spaces, one of them active, serves loads and stores of
    user programs, switches and forks.  The specification gives every program a
    flat memory of its own and remembers which pages were touched since the
    last switch, because the TLB has room for 64. *)

From S2P Require Import Prelude Bits Spl Ram Tlb LibMem DumbVm DumbVmSpec.

#[local] Ltac Zify.zify_post_hook ::= Z.div_mod_to_equations.

(** ** Accesses *)

(** The physical address, or the code of a fault that kills the program.  User
    mode cannot address the upper half of memory. *)
Definition user_paddr (write : bool) (va : Z) : K vmstate (Z + Z) :=
  if negb ((0 <=? va) && (va <? USERSTACK)) then mret (inl EFAULT) else
  s ← kget;
  match hw (vm_tlb s) write va with
  | inr pa => mret (inr pa)
  | inl faulttype =>
      r ← vm_fault faulttype va;
      if negb (r =? 0) then mret (inl r) else
      s ← kget;
      match hw (vm_tlb s) write va with
      | inr pa => mret (inr pa)
      | inl _ => kdiverge
      end
  end.

Definition user_load (va : Z) : K vmstate (option Z) :=
  r ← user_paddr false va;
  match r with
  | inl _ => mret None
  | inr pa => b ← on_mem (bload (PADDR_TO_KVADDR pa)); mret (Some b)
  end.

Definition user_store (va b : Z) : K vmstate bool :=
  r ← user_paddr true va;
  match r with
  | inl _ => mret false
  | inr pa => on_mem (bstore (PADDR_TO_KVADDR pa) b);; mret true
  end.

(** The pages in the TLB after an access that succeeds. *)
Definition touch (touched : list Z) (va : Z) : option (list Z) :=
  if decide (page_of va ∈ touched) then Some touched
  else if Z.of_nat (length touched) <? NUM_TLB then Some (touched ++ [page_of va]) else None.

Lemma touch_ok a touched va t' top :
  loaded top a → touched_ok a touched → is_Some (as_map a va) → touch touched va = Some t' → touched_ok a t'.
Proof.
  intros Hl [Hlen Hnd Hm] Hva. unfold touch. case_decide as Hin; [by intros [= <-]|].
  destruct (Z.ltb_spec (Z.of_nat (length touched)) NUM_TLB); [|done]. intros [= <-]. split.
  - rewrite length_app. cbn. lia.
  - apply NoDup_app. split_and!; [done| |apply NoDup_singleton].
    intros x Hx ->%list_elem_of_singleton. done.
  - intros vp. rewrite elem_of_app, list_elem_of_singleton. intros [Hvp| ->]; [by apply Hm|].
    split; [apply page_of_idem|]. rewrite (as_map_page top) in Hva by done.
    destruct (as_map a (page_of va)); [done|]. by destruct Hva.
Qed.

Lemma user_paddr_spec s p a touched write va m (Q : Z + Z → world vmstate → Prop) :
  fault_ok s p a touched →
  (∀ e, as_map a va = None → Q (inl e) (World s m)) →
  (∀ e, is_Some (as_map a va) → touch touched va = None → Q (inl e) (World s m)) →
  (∀ pa t', as_map a va = Some pa → touch touched va = Some t' →
     Q (inr pa) (World (set_tlb (tlb_of a t') s) m)) →
  wp (user_paddr write va) Q (World s m).
Proof.
  intros Hf Hno Hfull Hok. pose proof Hf as [Hc Htop Hsp Has Hl Htlb Ht]. unfold user_paddr.
  destruct (_ && _) eqn:E; cbn [negb].
  2:{ rewrite wp_ret. apply Hno. destruct (as_map a va) as [pa|] eqn:Hpa; [|done].
      pose proof (as_map_user _ _ _ _ Hl Hpa). rewrite andb_false_iff, Z.leb_nle, Z.ltb_nlt in E. lia. }
  rewrite andb_true_iff, Z.leb_le, Z.ltb_lt in E. rewrite wp_bind, wp_kget. cbn [wst]. rewrite Htlb.
  unfold touch in *. destruct (decide (page_of va ∈ touched)) as [Hin|Hin].
  - destruct (to_map _ _ Ht _ Hin) as (_ & q & Hq). pose proof (as_map_page _ _ va Hl) as Ep. rewrite Hq in Ep.
    cbn in Ep. rewrite (hw_hit _ _ _ Hl Htop Ht write va _ Hin Ep), wp_ret. specialize (Hok _ touched Ep eq_refl).
    rewrite <- Htlb in Hok. by destruct s.
  - rewrite (hw_miss _ _ _ Hl Htop Ht write va Hin) by lia. rewrite wp_bind.
    eapply vm_fault_spec; [done|lia|..].
    + intros Hn. change (negb (EFAULT =? 0)) with true. cbv iota. rewrite wp_ret. by apply Hno.
    + intros Hs Hlen. change (negb (EFAULT =? 0)) with true. cbv iota. rewrite wp_ret. apply Hfull; [done|].
      destruct (Z.ltb_spec (Z.of_nat (length touched)) NUM_TLB); [lia|done].
    + intros [pa Hpa] Hlen. cbn [Z.eqb negb]. rewrite wp_bind, wp_kget. cbn [wst set_tlb vm_tlb].
      rewrite (proj2 (Z.ltb_lt _ _)) in Hok, Hfull by done.
      assert (touched_ok a (touched ++ [page_of va])) as Ht'.
      { eapply (touch_ok a touched va); [done..|by eexists|]. unfold touch. rewrite decide_False by done.
        by rewrite (proj2 (Z.ltb_lt _ _)). }
      rewrite (hw_hit _ _ _ Hl Htop Ht' write va pa); [|apply elem_of_app; right; by left|done].
      rewrite wp_ret. by apply Hok.
Qed.

(** ** Loading *)

Lemma getas_spec s p a m (Q : addrspace → world vmstate → Prop) :
  vm_heap s !! p = Some a → Q a (World s m) → wp (getas p) Q (World s m).
Proof. intros Hp HQ. unfold getas. rewrite wp_bind, wp_kget. cbn [wst]. by rewrite Hp, wp_kof_Some. Qed.

Lemma setas_spec s p a m (Q : unit → world vmstate → Prop) :
  Q tt (World (set_vheap (<[p := a]> (vm_heap s)) s) m) → wp (setas p a) Q (World s m).
Proof. intros HQ. unfold setas. by rewrite wp_bind, wp_kget, wp_kput. Qed.

Definition set_vram (r : ram) (s : vmstate) : vmstate :=
  VmState (vm_cpu s) r (vm_tlb s) (vm_mem s) (vm_heap s) (vm_space s).

Lemma on_pages_spec s n m (Q : Z → world vmstate → Prop) :
  cpu_ok (vm_cpu s) → ram_ok (vm_ram s) → 0 ≤ n ≤ MAXPAGES →
  Q 0 (World s m) →
  (firstpaddr (vm_ram s) + n * PAGE_SIZE ≤ lastpaddr (vm_ram s) →
   Q (firstpaddr (vm_ram s))
     (World (set_vram (Ram (firstpaddr (vm_ram s) + n * PAGE_SIZE) (lastpaddr (vm_ram s))) s) m)) →
  wp (on_pages (getppages n)) Q (World s m).
Proof.
  intros Hc Hr Hn Hno Hyes. unfold on_pages. rewrite wp_zoom. cbn [wst wmem].
  apply getppages_spec; [done..| |]; cbn [wst wmem]; intros Hfit.
  - by destruct s.
  - by apply Hyes.
Qed.

Lemma ram_ok_steal r n : ram_ok r → 0 ≤ n → firstpaddr r + n * PAGE_SIZE ≤ lastpaddr r →
  ram_ok (Ram (firstpaddr r + n * PAGE_SIZE) (lastpaddr r)).
Proof. intros [] Hn Hfit. unfold PAGE_SIZE in *. split; cbn [firstpaddr lastpaddr]; unfold PAGE_SIZE; lia. Qed.

(** The shape of an address space without frames. *)
Record bare (a : addrspace) : Prop := Bare {
  ba_1 : as_pbase1 a = 0;
  ba_2 : as_pbase2 a = 0;
  ba_3 : as_stackpbase a = 0;
  ba_n1 : 0 ≤ as_npages1 a ≤ MAXPAGES;
  ba_n2 : 0 ≤ as_npages2 a ≤ MAXPAGES
}.

(** The frames come one after the other. *)
Definition with_frames (f : Z) (a : addrspace) : addrspace :=
  AddrSpace (as_vbase1 a) f (as_npages1 a) (as_vbase2 a) (f + as_npages1 a * PAGE_SIZE) (as_npages2 a)
    (f + as_npages1 a * PAGE_SIZE + as_npages2 a * PAGE_SIZE).

Definition total (a : addrspace) : Z :=
  (as_npages1 a + as_npages2 a + DUMBVM_STACKPAGES) * PAGE_SIZE.

Lemma prepare_load_spec s p a m (Q : Z → world vmstate → Prop) :
  cpu_ok (vm_cpu s) → ram_ok (vm_ram s) → vm_heap s !! p = Some a → bare a →
  (∀ r a', ram_ok r → firstpaddr (vm_ram s) ≤ firstpaddr r → lastpaddr r = lastpaddr (vm_ram s) →
     Q ENOMEM (World (set_vram r (set_vheap (<[p := a']> (vm_heap s)) s)) m)) →
  (let f := firstpaddr (vm_ram s) in
   let r := Ram (f + total a) (lastpaddr (vm_ram s)) in
   ram_ok r → Q 0 (World (set_vram r (set_vheap (<[p := with_frames f a]> (vm_heap s)) s)) m)) →
  wp (as_prepare_load p) Q (World s m).
Proof.
  intros Hc Hr Hp [E1 E2 E3 Hn1 Hn2] Hno Hyes. unfold as_prepare_load.
  assert (∀ f l, ram_ok (Ram f l) → (f =? 0) = false) as Hnz.
  { intros f l [Hf _ _ _]. apply Z.eqb_neq. cbn in Hf. lia. }
  rewrite wp_bind. eapply getas_spec; [done|].
  rewrite wp_bind, wp_kassert by (by rewrite E1). rewrite wp_bind, wp_kassert by (by rewrite E2).
  rewrite wp_bind, wp_kassert by (by rewrite E3). rewrite wp_bind.
  apply on_pages_spec; [done..| |].
  { rewrite wp_bind. apply setas_spec. cbn [Z.eqb]. rewrite wp_ret.
    specialize (Hno (vm_ram s) (set_pbase1 0 a) Hr (Z.le_refl _) eq_refl). by destruct s. }
  intros Hfit. pose proof (ram_ok_steal _ _ Hr (proj1 Hn1) Hfit) as Hr1.
  rewrite wp_bind. apply setas_spec.
  rewrite (Hnz _ (lastpaddr (vm_ram s))) by (by destruct (vm_ram s)). rewrite wp_bind.
  eapply getas_spec; [cbn; apply lookup_insert_eq|]. cbn [as_npages2 set_pbase1]. rewrite wp_bind.
  apply on_pages_spec; [done..| |]; cbn [vm_ram set_vram set_vheap vm_heap].
  { rewrite wp_bind. apply setas_spec. cbn [Z.eqb]. rewrite wp_ret. cbn [vm_heap set_vram set_vheap].
    rewrite insert_insert_eq. refine (Hno _ _ Hr1 _ eq_refl). cbn. unfold PAGE_SIZE. lia. }
  intros Hfit2. pose proof (ram_ok_steal _ _ Hr1 (proj1 Hn2) Hfit2) as Hr2. cbn [firstpaddr lastpaddr] in *.
  rewrite wp_bind. apply setas_spec. rewrite (Hnz _ _ Hr1). rewrite wp_bind.
  eapply getas_spec; [cbn; apply lookup_insert_eq|]. rewrite wp_bind. cbn [vm_heap set_vram set_vheap].
  apply on_pages_spec; [done|done|unfold DUMBVM_STACKPAGES, MAXPAGES; lia| |];
    cbn [vm_ram set_vram set_vheap vm_heap firstpaddr lastpaddr].
  { rewrite wp_bind. apply setas_spec. cbn [Z.eqb]. rewrite wp_ret. cbn [vm_heap set_vram set_vheap].
    rewrite !insert_insert_eq. refine (Hno _ _ Hr2 _ eq_refl). cbn. unfold PAGE_SIZE. lia. }
  intros Hfit3. pose proof (ram_ok_steal _ DUMBVM_STACKPAGES Hr2 ltac:(done) Hfit3) as Hr3.
  cbn [firstpaddr lastpaddr] in *. rewrite wp_bind. apply setas_spec. rewrite (Hnz _ _ Hr2), wp_ret.
  cbn [vm_heap set_vram set_vheap]. rewrite !insert_insert_eq.
  assert (Ram (firstpaddr (vm_ram s) + as_npages1 a * PAGE_SIZE + as_npages2 a * PAGE_SIZE +
            DUMBVM_STACKPAGES * PAGE_SIZE) (lastpaddr (vm_ram s)) =
          Ram (firstpaddr (vm_ram s) + total a) (lastpaddr (vm_ram s))) as Er.
  { f_equal. unfold total. lia. }
  cbn zeta in Hyes. rewrite Er in Hr3. specialize (Hyes Hr3). rewrite <- Er in Hyes. exact Hyes.
Qed.

(** ** Copying *)

Lemma kvaddr_add pa : 0 ≤ pa < 2 ^ 31 → PADDR_TO_KVADDR pa = MIPS_KSEG0 + pa.
Proof. intros H. unfold PADDR_TO_KVADDR, MIPS_KSEG0. rewrite u32_id; lia. Qed.

Lemma block_part m a n b k : block m a n → a ≤ b → b + k ≤ a + n → block m b k.
Proof. intros H H1 H2 x Hx. apply H. lia. Qed.

Lemma block_copied m m' a n dst src len :
  block m a n → copied m m' dst src 0 len → a ≤ src → src + len ≤ a + n → block m' a n.
Proof.
  intros Hb Hc H1 H2 x Hx. rewrite Hc. case_decide; apply Hb; lia.
Qed.

(** One [memmove] of frames. *)
Lemma move_frames s L to from len m (Q : Z → world vmstate → Prop) :
  block (vm_mem s) MIPS_KSEG0 L → L ≤ 508 * 1024 * 1024 → 0 ≤ len → 0 ≤ to → to + len ≤ L → 0 ≤ from → from + len ≤ L →
  (∀ r m', copied (vm_mem s) m' (MIPS_KSEG0 + to) (MIPS_KSEG0 + from) 0 len → block m' MIPS_KSEG0 L →
     Q r (World (set_vmem m' s) m)) →
  wp (on_mem (memmove (PADDR_TO_KVADDR to) (PADDR_TO_KVADDR from) len)) Q (World s m).
Proof.
  intros Hb HL Hlen Ht1 Ht2 Hf1 Hf2 HQ. unfold on_mem. rewrite wp_zoom. cbn [wst wmem].
  rewrite !kvaddr_add by lia. unfold MIPS_KSEG0 in *. apply memmove_spec; cbn [wst wmem]; try lia.
  - eapply block_part; [exact Hb|lia|lia].
  - eapply block_part; [exact Hb|lia|lia].
  - intros m' Hc. apply HQ; [done|]. eapply block_copied; [exact Hb|exact Hc|lia|lia].
Qed.

(** [mem'] is [mem] with the frames of [a] copied to [f] and on. *)
Definition forked (mem mem' : bmem) (a : addrspace) (f : Z) : Prop :=
  (∀ x, x < MIPS_KSEG0 + f ∨ MIPS_KSEG0 + f + total a ≤ x → mem' !! x = mem !! x) ∧
  (∀ k vb n pb pb', regions a !! k = Some (vb, n, pb) → regions (with_frames f a) !! k = Some (vb, n, pb') →
     ∀ x, 0 ≤ x < n * PAGE_SIZE → mem' !! (MIPS_KSEG0 + pb' + x) = mem !! (MIPS_KSEG0 + pb + x)).

Lemma forked_moves m0 m1 m2 m3 a f :
  loaded f a →
  copied m0 m1 (MIPS_KSEG0 + f) (MIPS_KSEG0 + as_pbase1 a) 0 (as_npages1 a * PAGE_SIZE) →
  copied m1 m2 (MIPS_KSEG0 + (f + as_npages1 a * PAGE_SIZE)) (MIPS_KSEG0 + as_pbase2 a) 0 (as_npages2 a * PAGE_SIZE) →
  copied m2 m3 (MIPS_KSEG0 + (f + as_npages1 a * PAGE_SIZE + as_npages2 a * PAGE_SIZE))
    (MIPS_KSEG0 + as_stackpbase a) 0 (DUMBVM_STACKPAGES * PAGE_SIZE) →
  forked m0 m3 a f.
Proof.
  intros Hl C1 C2 C3. unfold loaded, regions in Hl.
  apply Forall_cons in Hl as (H1 & Hl). apply Forall_cons in Hl as (H2 & Hl). apply Forall_cons in Hl as (H3 & _).
  destruct H1 as (? & ? & ? & ? & ? & ? & ?), H2 as (? & ? & ? & ? & ? & ? & ?), H3 as (? & ? & ? & ? & ? & ? & ?).
  unfold PAGE_SIZE in *. split.
  - intros x Hx. unfold total, DUMBVM_STACKPAGES, PAGE_SIZE in *.
    rewrite C3, decide_False, C2, decide_False, C1, decide_False by lia. done.
  - intros k vb n pb pb'. unfold regions. cbn [with_frames as_vbase1 as_npages1 as_pbase1 as_vbase2 as_npages2 as_pbase2 as_stackpbase].
    unfold DUMBVM_STACKPAGES, PAGE_SIZE in *.
    destruct k as [|[|[|k]]]; cbn; [intros [= <- <- <-] [= <-] x Hx..|done].
    + rewrite C3, decide_False, C2, decide_False, C1, decide_True by lia. f_equal. lia.
    + rewrite C3, decide_False, C2, decide_True, C1, decide_False by lia. f_equal. lia.
    + rewrite C3, decide_True, C2, decide_False, C1, decide_False by lia. f_equal. lia.
Qed.

Lemma loaded_bare top a : loaded top a → bare (copy_shape a (AddrSpace 0 0 0 0 0 0 0)).
Proof.
  intros Hl. unfold loaded, regions in Hl.
  apply Forall_cons in Hl as (H1 & Hl). apply Forall_cons in Hl as (H2 & _).
  destruct H1 as (? & ? & ? & ? & _), H2 as (? & ? & ? & ? & _).
  unfold USERSTACK, MIPS_KSEG0, MAXPAGES, PAGE_SIZE in *. split; cbn; unfold MAXPAGES; lia.
Qed.

Lemma as_copy_spec s p a m (Q : Z * option asptr → world vmstate → Prop) :
  cpu_ok (vm_cpu s) → ram_ok (vm_ram s) → vm_heap s !! p = Some a →
  loaded (firstpaddr (vm_ram s)) a → block (vm_mem s) MIPS_KSEG0 (lastpaddr (vm_ram s)) →
  (∀ r m', ram_ok r → firstpaddr (vm_ram s) ≤ firstpaddr r → lastpaddr r = lastpaddr (vm_ram s) →
     Q (ENOMEM, None) (World (set_vram r s) m')) →
  (∀ q mem' m', vm_heap s !! q = None → let f := firstpaddr (vm_ram s) in
     let r := Ram (f + total a) (lastpaddr (vm_ram s)) in
     ram_ok r → forked (vm_mem s) mem' a f → block mem' MIPS_KSEG0 (lastpaddr (vm_ram s)) →
     Q (0, Some q) (World (set_vram r (set_vmem mem' (set_vheap (<[q := with_frames f a]> (vm_heap s)) s))) m')) →
  wp (as_copy p) Q (World s m).
Proof.
  intros Hc Hr Hp Hl Hb Hno Hyes. unfold as_copy, as_create. rewrite !wp_bind. apply wp_kmalloc; cbn [wst wmem negb].
  2:{ intros m' _ _. rewrite !wp_ret. specialize (Hno (vm_ram s) m' Hr (Z.le_refl _) eq_refl). by destruct s. }
  intros m1 _. rewrite wp_bind, wp_kget. cbn [wst]. set (q := fresh _).
  assert (vm_heap s !! q = None) as Hq by apply not_elem_of_dom, (is_fresh (dom (vm_heap s))).
  assert (q ≠ p) as Hqp by (intros ->; congruence).
  rewrite wp_bind. apply setas_spec. rewrite wp_ret. rewrite wp_bind.
  eapply getas_spec; [cbn; by rewrite lookup_insert_ne|]. rewrite wp_bind.
  eapply getas_spec; [cbn; apply lookup_insert_eq|]. rewrite wp_bind. apply setas_spec. cbn [vm_heap set_vheap].
  rewrite insert_insert_eq. set (a0 := copy_shape _ _). rewrite wp_bind.
  eapply (prepare_load_spec _ q a0); [done|done|cbn; apply lookup_insert_eq|by eapply loaded_bare|..];
    cbn [vm_heap set_vheap vm_ram].
  { intros r a' Hr' Hf El. change (negb (ENOMEM =? 0)) with true. cbv iota. rewrite wp_bind. unfold as_destroy.
    rewrite wp_bind. eapply getas_spec; [cbn; apply lookup_insert_eq|]. rewrite wp_bind, wp_kget, wp_kput, wp_ret.
    cbn [wst wmem vm_heap set_vram set_vheap]. rewrite insert_insert_eq, delete_insert_id by done.
    specialize (Hno r m1 Hr' Hf El). by destruct s. }
  intros Hr'. cbn [Z.eqb negb]. rewrite insert_insert_eq.
  change (with_frames (firstpaddr (vm_ram s)) a0) with (with_frames (firstpaddr (vm_ram s)) a) in *.
  change (total a0) with (total a) in *. set (f := firstpaddr (vm_ram s)) in *.
  pose proof (ram_first _ Hr) as Hf0. fold f in Hf0.
  rewrite wp_bind. eapply getas_spec; [cbn; by rewrite lookup_insert_ne|].
  rewrite wp_bind. eapply getas_spec; [cbn; apply lookup_insert_eq|].
  pose proof Hl as Hl'. unfold loaded, regions in Hl'.
  apply Forall_cons in Hl' as (H1 & Hl'). apply Forall_cons in Hl' as (H2 & Hl'). apply Forall_cons in Hl' as (H3 & _).
  destruct H1 as (? & ? & ? & ? & ? & ? & ?), H2 as (? & ? & ? & ? & ? & ? & ?), H3 as (? & ? & ? & ? & ? & ? & ?).
  pose proof (ram_order _ Hr') as Hord. pose proof (ram_last _ Hr') as Hlast. pose proof (ram_order _ Hr) as Hord0.
  cbn [firstpaddr lastpaddr] in Hord, Hlast. fold f in Hord0.
  unfold total in Hord. unfold USERSTACK, MIPS_KSEG0, DUMBVM_STACKPAGES, PAGE_SIZE in *.
  cbn [with_frames as_pbase1 as_pbase2 as_stackpbase]. unfold PAGE_SIZE.
  do 3 rewrite wp_bind, wp_kassert by (apply negb_true_iff, Z.eqb_neq; lia).
  rewrite (u32_id (as_npages1 a * 4096)), (u32_id (as_npages2 a * 4096)) by lia.
  rewrite wp_bind. eapply move_frames; [exact Hb|lia..|]. intros _ mm1 C1 B1. cbn [vm_mem set_vram set_vheap] in C1.
  rewrite wp_bind. eapply move_frames; [exact B1|lia..|]. intros _ mm2 C2 B2. cbn [vm_mem set_vmem] in C2.
  rewrite wp_bind. eapply move_frames; [exact B2|lia..|]. intros _ mm3 C3 B3. cbn [vm_mem set_vmem] in C3.
  rewrite wp_ret. refine (Hyes q mm3 m1 Hq Hr' _ B3). by eapply forked_moves.
Qed.

(** ** The system *)

(** A program loads or stores a byte, another one is switched to, or the
    current one forks. *)
Inductive event : Type :=
  | ELoad (va : Z)
  | EStore (va b : Z)
  | ESwitch (i : nat)
  | EFork.

Inductive obs : Type :=
  | OByte (b : Z)
  | OStored
  | OFault
  | OSwitched
  | OForked (r : Z).

(** The address spaces are listed in the order of their creation. *)
Definition run_event (ps : list asptr) (e : event) : K vmstate (list asptr * obs) :=
  match e with
  | ELoad va =>
      r ← user_load va;
      mret (ps, match r with Some b => OByte b | None => OFault end)
  | EStore va b =>
      r ← user_store va b;
      mret (ps, if (r : bool) then OStored else OFault)
  | ESwitch i =>
      match ps !! i with
      | Some p => s ← kget; kput (set_space (Some p) s);; as_activate;; mret (ps, OSwitched)
      | None => mret (ps, OSwitched)
      end
  | EFork =>
      s ← kget;
      p ← kof (vm_space s);
      '(r, o) ← as_copy p;
      mret (match o with Some q => ps ++ [q] | None => ps end, OForked r)
  end.

Fixpoint run_events (ps : list asptr) (es : list event) : K vmstate (list asptr * list obs) :=
  match es with
  | [] => mret (ps, [])
  | e :: es =>
      '(ps, o) ← run_event ps e;
      '(ps, os) ← run_events ps es;
      mret (ps, o :: os)
  end.

(** The specification: a flat memory for every program, which one runs, and
    the pages it has touched since. *)
Record flats : Type := Flats {
  fl_mems : list (gmap Z Z);
  fl_cur : nat;
  fl_touched : list Z
}.

Inductive flat_step (x : flats) : event → obs → flats → Prop :=
  | fs_load va f b t :
      fl_mems x !! fl_cur x = Some f → f !! va = Some b → touch (fl_touched x) va = Some t →
      flat_step x (ELoad va) (OByte b) (Flats (fl_mems x) (fl_cur x) t)
  | fs_store va b f b0 t :
      fl_mems x !! fl_cur x = Some f → f !! va = Some b0 → touch (fl_touched x) va = Some t →
      flat_step x (EStore va b) OStored
        (Flats (<[fl_cur x := <[va := u8 b]> f]> (fl_mems x)) (fl_cur x) t)
  | fs_fault va e f :
      e = ELoad va ∨ (∃ b, e = EStore va b) →
      fl_mems x !! fl_cur x = Some f → f !! va = None ∨ touch (fl_touched x) va = None →
      flat_step x e OFault x
  | fs_switch i :
      (i < length (fl_mems x))%nat → flat_step x (ESwitch i) OSwitched (Flats (fl_mems x) i [])
  | fs_nobody i :
      (length (fl_mems x) ≤ i)%nat → flat_step x (ESwitch i) OSwitched x
  | fs_fork f :
      fl_mems x !! fl_cur x = Some f →
      flat_step x EFork (OForked 0) (Flats (fl_mems x ++ [f]) (fl_cur x) (fl_touched x))
  | fs_nofork : flat_step x EFork (OForked ENOMEM) x.

Inductive flat_steps : flats → list event → list obs → flats → Prop :=
  | fs_nil x : flat_steps x [] [] x
  | fs_cons x y z e o es os : flat_step x e o y → flat_steps y es os z → flat_steps x (e :: es) (o :: os) z.

(** A flat memory is what an address space shows of physical memory. *)
Definition shows (mem : bmem) (a : addrspace) (f : gmap Z Z) : Prop :=
  ∀ va, f !! va = as_map a va ≫= λ pa, mem !! (MIPS_KSEG0 + pa).

(** Different regions, of one or of two address spaces, have different frames. *)
Definition frames_apart (sps : list addrspace) : Prop :=
  ∀ i j a a' k l vb n pb vb' n' pb',
    sps !! i = Some a → sps !! j = Some a' → regions a !! k = Some (vb, n, pb) →
    regions a' !! l = Some (vb', n', pb') → (i, k) ≠ (j, l) →
    apart pb (n * PAGE_SIZE) pb' (n' * PAGE_SIZE).

Record sys (s : vmstate) (ps : list asptr) (sps : list addrspace) (x : flats) : Prop := Sys {
  sy_cpu : cpu_ok (vm_cpu s);
  sy_ram : ram_ok (vm_ram s);
  sy_mem : block (vm_mem s) MIPS_KSEG0 (lastpaddr (vm_ram s));
  sy_as : Forall2 (λ p a, vm_heap s !! p = Some a) ps sps;
  sy_loaded : Forall (loaded (firstpaddr (vm_ram s))) sps;
  sy_apart : frames_apart sps;
  sy_shows : Forall2 (shows (vm_mem s)) sps (fl_mems x);
  sy_cur : ∃ p a, ps !! fl_cur x = Some p ∧ sps !! fl_cur x = Some a ∧ fault_ok s p a (fl_touched x)
}.

Lemma as_map_region a va p : as_map a va = Some p →
  ∃ k vb n pb, regions a !! k = Some (vb, n, pb) ∧ vb ≤ va < vb + n * PAGE_SIZE ∧ p = va - vb + pb.
Proof.
  intros ([[vb n] pb] & (k & Hk)%list_elem_of_lookup_1 & Hin & ->)%as_map_Some. apply in_region_spec in Hin.
  by exists k, vb, n, pb.
Qed.

(** No two addresses of programs share a byte. *)
Lemma frames_inj sps i j a a' va va' pa :
  frames_apart sps → sps !! i = Some a → sps !! j = Some a' →
  as_map a va = Some pa → as_map a' va' = Some pa → i = j ∧ va = va'.
Proof.
  intros Hap Hi Hj (k & vb & n & pb & Hk & Hin & E)%as_map_region (l & vb' & n' & pb' & Hl & Hin' & E')%as_map_region.
  destruct (decide ((i, k) = (j, l))) as [[= -> ->]|Hne].
  - split; [done|]. assert (a' = a) as -> by congruence. rewrite Hl in Hk. injection Hk as -> -> ->. lia.
  - specialize (Hap _ _ _ _ _ _ _ _ _ _ _ _ Hi Hj Hk Hl Hne). unfold apart in Hap. lia.
Qed.

Lemma fault_ok_touch s p a touched va t' :
  fault_ok s p a touched → is_Some (as_map a va) → touch touched va = Some t' →
  fault_ok (set_tlb (tlb_of a t') s) p a t'.
Proof. intros [] Hs Ht. split; try done. by eapply touch_ok. Qed.

(** A state with another TLB and the same memory. *)
Lemma sys_tlb s ps sps x p a t' :
  sys s ps sps x → ps !! fl_cur x = Some p → sps !! fl_cur x = Some a →
  fault_ok (set_tlb (tlb_of a t') s) p a t' →
  sys (set_tlb (tlb_of a t') s) ps sps (Flats (fl_mems x) (fl_cur x) t').
Proof. intros [] Hp Ha Hf. split; try done. by exists p, a. Qed.

Lemma sys_shown s ps sps x i a f va :
  sys s ps sps x → sps !! i = Some a → fl_mems x !! i = Some f →
  match as_map a va with
  | Some pa => ∃ b, f !! va = Some b ∧ vm_mem s !! (MIPS_KSEG0 + pa) = Some b ∧ PADDR_TO_KVADDR pa = MIPS_KSEG0 + pa
  | None => f !! va = None
  end.
Proof.
  intros Hs Ha Hf. destruct (Forall2_lookup_l _ _ _ _ _ (sy_shows _ _ _ _ Hs) Ha) as (f' & Hf' & Hsh).
  rewrite Hf in Hf'. injection Hf' as <-. pose proof (proj1 (Forall_lookup _ _) (sy_loaded _ _ _ _ Hs) _ _ Ha) as Hl.
  pose proof (Hsh va) as E. destruct (as_map a va) as [pa|] eqn:Hpa; [|done]. cbn in E.
  pose proof (as_map_user _ _ _ _ Hl Hpa) as [_ Hr]. destruct (sy_ram _ _ _ _ Hs) as [H1 H2 H3 _].
  destruct (sy_mem _ _ _ _ Hs (MIPS_KSEG0 + pa)) as (b & Hb & _); [lia|].
  exists b. split_and!; [congruence|done|]. apply kvaddr_add. lia.
Qed.

Lemma sys_flat s ps sps x : sys s ps sps x → ∃ f, fl_mems x !! fl_cur x = Some f.
Proof.
  intros Hs. destruct (sy_cur _ _ _ _ Hs) as (p & a & _ & Ha & _).
  destruct (Forall2_lookup_l _ _ _ _ _ (sy_shows _ _ _ _ Hs) Ha) as (f & Hf & _). eauto.
Qed.

Definition simulated (ps : list asptr) (x : flats) (e : event) (r : list asptr * obs) (w : world vmstate) : Prop :=
  ∃ y sps', flat_step x e r.2 y ∧ sys (wst w) r.1 sps' y.

Lemma load_simulated s ps sps x va m :
  sys s ps sps x → wp (run_event ps (ELoad va)) (simulated ps x (ELoad va)) (World s m).
Proof.
  intros Hs. destruct (sys_flat _ _ _ _ Hs) as (f & Hf).
  destruct (sy_cur _ _ _ _ Hs) as (p & a & Hp & Ha & Hfo). pose proof (sys_shown _ _ _ _ _ _ _ va Hs Ha Hf) as Hsh.
  cbn [run_event]. unfold user_load. rewrite !wp_bind. eapply user_paddr_spec; [done|..].
  - intros e Hn. rewrite !wp_ret. exists x, sps. split; [|done]. rewrite Hn in Hsh.
    eapply fs_fault; [by left|done|by left].
  - intros e Hsome Ht. rewrite !wp_ret. exists x, sps. split; [|done]. eapply fs_fault; [by left|done|by right].
  - intros pa t' Hpa Ht. rewrite Hpa in Hsh. destruct Hsh as (b & Hfb & Hmb & ->).
    rewrite wp_bind. unfold on_mem. rewrite wp_zoom. cbn [wst wmem set_tlb vm_mem].
    rewrite (wp_bload _ b) by done. rewrite !wp_ret. cbn [wst wmem]. eexists _, sps. split.
    + by eapply fs_load.
    + cbn [fst]. replace (set_vmem _ _) with (set_tlb (tlb_of a t') s) by done.
      eapply sys_tlb; [done..|]. by eapply fault_ok_touch.
Qed.

(** Writing a byte changes one flat memory at one address. *)
Lemma shows_store mem sps fs i a f va pa b :
  frames_apart sps → Forall2 (shows mem) sps fs → sps !! i = Some a → fs !! i = Some f → as_map a va = Some pa →
  Forall2 (shows (<[MIPS_KSEG0 + pa := b]> mem)) sps (<[i := <[va := b]> f]> fs).
Proof.
  intros Hap Hsh Ha Hf Hpa. apply Forall2_same_length_lookup. split.
  { rewrite length_insert. by eapply Forall2_length. }
  intros j a' f' Ha'. rewrite list_lookup_insert_Some. intros Hcase va'.
  destruct (as_map a' va') as [pa'|] eqn:Hpa'; cbn.
  - destruct (decide (pa' = pa)) as [->|Hne].
    + destruct (frames_inj _ _ _ _ _ _ _ _ Hap Ha Ha' Hpa Hpa') as [-> ->].
      rewrite lookup_insert_eq. destruct Hcase as [(_ & <- & _)|[? _]]; [|done]. by rewrite lookup_insert_eq.
    + rewrite lookup_insert_ne by lia. destruct Hcase as [(-> & <- & _)|[Hij Hf']].
      * assert (a' = a) as -> by congruence. rewrite lookup_insert_ne by congruence.
        destruct (Forall2_lookup_l _ _ _ _ _ Hsh Ha) as (f0 & Hf0 & Hs0). rewrite Hf in Hf0. injection Hf0 as <-.
        rewrite Hs0, Hpa'. done.
      * destruct (Forall2_lookup_l _ _ _ _ _ Hsh Ha') as (f0 & Hf0 & Hs0). rewrite Hf' in Hf0. injection Hf0 as <-.
        rewrite Hs0, Hpa'. done.
  - destruct Hcase as [(-> & <- & _)|[Hij Hf']].
    + assert (a' = a) as -> by congruence. rewrite lookup_insert_ne by congruence.
      destruct (Forall2_lookup_l _ _ _ _ _ Hsh Ha) as (f0 & Hf0 & Hs0). rewrite Hf in Hf0. injection Hf0 as <-.
      by rewrite Hs0, Hpa'.
    + destruct (Forall2_lookup_l _ _ _ _ _ Hsh Ha') as (f0 & Hf0 & Hs0). rewrite Hf' in Hf0. injection Hf0 as <-.
      by rewrite Hs0, Hpa'.
Qed.

Lemma block_store m a n x v : block m a n → block (<[x := u8 v]> m) a n.
Proof.
  intros Hb y Hy. destruct (decide (y = x)) as [->|Hne].
  - rewrite lookup_insert_eq. exists (u8 v). split; [done|]. unfold u8; lia.
  - rewrite lookup_insert_ne by done. by apply Hb.
Qed.

Lemma store_simulated s ps sps x va b m :
  sys s ps sps x → wp (run_event ps (EStore va b)) (simulated ps x (EStore va b)) (World s m).
Proof.
  intros Hs. destruct (sys_flat _ _ _ _ Hs) as (f & Hf).
  destruct (sy_cur _ _ _ _ Hs) as (p & a & Hp & Ha & Hfo). pose proof (sys_shown _ _ _ _ _ _ _ va Hs Ha Hf) as Hsh.
  cbn [run_event]. unfold user_store. rewrite !wp_bind. eapply user_paddr_spec; [done|..].
  - intros e Hn. rewrite !wp_ret. exists x, sps. split; [|done]. rewrite Hn in Hsh.
    eapply fs_fault; [by right; eexists|done|by left].
  - intros e Hsome Ht. rewrite !wp_ret. exists x, sps. split; [|done].
    eapply fs_fault; [by right; eexists|done|by right].
  - intros pa t' Hpa Ht. rewrite Hpa in Hsh. destruct Hsh as (b0 & Hfb & Hmb & ->).
    rewrite wp_bind. unfold on_mem. rewrite wp_zoom. cbn [wst wmem set_tlb vm_mem].
    rewrite (wp_bstore _ _ b0) by done. rewrite !wp_ret. cbn [wst wmem]. eexists _, sps. split.
    + by eapply fs_store.
    + assert (fault_ok (set_tlb (tlb_of a t') s) p a t') as [] by by eapply fault_ok_touch.
      destruct Hs. split; cbn [fst fl_mems fl_cur fl_touched set_vmem vm_mem set_tlb vm_cpu vm_ram vm_heap]; try done.
      * by apply block_store.
      * by eapply shows_store.
      * exists p, a. split_and!; done.
Qed.

Lemma switch_simulated s ps sps x i m :
  sys s ps sps x → wp (run_event ps (ESwitch i)) (simulated ps x (ESwitch i)) (World s m).
Proof.
  intros Hs. cbn [run_event].
  pose proof (Forall2_length _ _ _ (sy_as _ _ _ _ Hs)) as L1. pose proof (Forall2_length _ _ _ (sy_shows _ _ _ _ Hs)) as L2.
  destruct (ps !! i) as [p|] eqn:Hp.
  2:{ rewrite wp_ret. exists x, sps. split; [|done]. apply fs_nobody. apply lookup_ge_None in Hp. lia. }
  destruct (Forall2_lookup_l _ _ _ _ _ (sy_as _ _ _ _ Hs) Hp) as (a & Ha & Hh).
  destruct (sy_cur _ _ _ _ Hs) as (p0 & a0 & _ & _ & [F1 F2 F3 F4 F5 F6 F7]).
  rewrite wp_bind, wp_kget, wp_bind, wp_kput, wp_bind. cbn [wst].
  apply as_activate_spec; [done|cbn; rewrite F6; apply tlb_of_length, F7|]. intros a1. rewrite wp_ret.
  exists (Flats (fl_mems x) i []), sps. split; [apply fs_switch; apply lookup_lt_Some in Hp; lia|].
  destruct Hs. split; try done. exists p, a. split_and!; [done..|]. split; try done.
  - by eapply (proj1 (Forall_lookup _ _) sy_loaded0).
  - split; [done|apply NoDup_nil_2|]. by intros vp Hvp%not_elem_of_nil.
Qed.

(** ** Forks *)

Lemma as_map_if a va :
  as_map a va =
    if in_region va (as_vbase1 a, as_npages1 a, as_pbase1 a) then Some (va - as_vbase1 a + as_pbase1 a)
    else if in_region va (as_vbase2 a, as_npages2 a, as_pbase2 a) then Some (va - as_vbase2 a + as_pbase2 a)
    else if in_region va (USERSTACK - DUMBVM_STACKPAGES * PAGE_SIZE, DUMBVM_STACKPAGES, as_stackpbase a)
    then Some (va - (USERSTACK - DUMBVM_STACKPAGES * PAGE_SIZE) + as_stackpbase a) else None.
Proof.
  unfold as_map, regions. rewrite !filter_cons, filter_nil.
  destruct (in_region va (as_vbase1 a, _, _)); [done|]. rewrite decide_False by done.
  destruct (in_region va (as_vbase2 a, _, _)); [done|]. rewrite decide_False by done.
  by destruct (in_region va (_, DUMBVM_STACKPAGES, _)).
Qed.

Lemma loaded_mono top top' a : loaded top a → top ≤ top' → loaded top' a.
Proof.
  intros Hl Ht. eapply Forall_impl; [exact Hl|]. intros [[vb n] pb] (? & ? & ? & ? & ? & ? & ?).
  split_and!; try done. lia.
Qed.

Lemma loaded_frames f a : loaded f a → 0 < f → f mod PAGE_SIZE = 0 → loaded (f + total a) (with_frames f a).
Proof.
  intros Hl Hf Ha. unfold loaded, regions, with_frames in *. cbn [as_vbase1 as_npages1 as_pbase1 as_vbase2 as_npages2 as_pbase2 as_stackpbase].
  apply Forall_cons in Hl as (H1 & Hl). apply Forall_cons in Hl as (H2 & Hl). apply Forall_cons in Hl as (H3 & _).
  destruct H1 as (? & ? & ? & ? & ? & ? & ?), H2 as (? & ? & ? & ? & ? & ? & ?), H3 as (? & ? & ? & ? & ? & ? & ?).
  unfold total, DUMBVM_STACKPAGES, PAGE_SIZE in *.
  repeat constructor; unfold DUMBVM_STACKPAGES, PAGE_SIZE in *; lia.
Qed.

(** The frames of the copy lie between the old and the new bound, apart. *)
Lemma frames_new f a k vb n pb :
  loaded f a → regions (with_frames f a) !! k = Some (vb, n, pb) →
  f ≤ pb ∧ pb + n * PAGE_SIZE ≤ f + total a ∧ 0 < n.
Proof.
  intros Hl. unfold loaded, regions, with_frames in *. cbn [as_vbase1 as_npages1 as_pbase1 as_vbase2 as_npages2 as_pbase2 as_stackpbase].
  apply Forall_cons in Hl as (H1 & Hl). apply Forall_cons in Hl as (H2 & _).
  destruct H1 as (_ & _ & ? & _), H2 as (_ & _ & ? & _).
  unfold total, DUMBVM_STACKPAGES, PAGE_SIZE in *. destruct k as [|[|[|k]]]; cbn; intros [= <- <- <-]; lia.
Qed.

Lemma frames_new_apart f a k l vb n pb vb' n' pb' :
  0 < as_npages1 a → 0 < as_npages2 a → regions (with_frames f a) !! k = Some (vb, n, pb) →
  regions (with_frames f a) !! l = Some (vb', n', pb') → k ≠ l → apart pb (n * PAGE_SIZE) pb' (n' * PAGE_SIZE).
Proof.
  intros H1 H2. unfold regions, with_frames. cbn [as_vbase1 as_npages1 as_pbase1 as_vbase2 as_npages2 as_pbase2 as_stackpbase].
  unfold apart, DUMBVM_STACKPAGES, PAGE_SIZE in *.
  destruct k as [|[|[|k]]], l as [|[|[|l]]]; cbn; intros [= <- <- <-] [= <- <- <-] Hne; done || lia.
Qed.

Lemma loaded_pages top a : loaded top a → 0 < as_npages1 a ∧ 0 < as_npages2 a.
Proof.
  intros Hl. unfold loaded, regions in Hl.
  apply Forall_cons in Hl as (H1 & Hl). apply Forall_cons in Hl as (H2 & _).
  by destruct H1 as (_ & _ & ? & _), H2 as (_ & _ & ? & _).
Qed.

Lemma frames_apart_snoc sps f a :
  frames_apart sps → Forall (loaded f) sps → loaded f a → frames_apart (sps ++ [with_frames f a]).
Proof.
  intros Hap Hl Ha.
  assert (∀ i a0 k vb n pb, sps !! i = Some a0 → regions a0 !! k = Some (vb, n, pb) → pb + n * PAGE_SIZE ≤ f) as Hold.
  { intros i a0 k vb n pb Hi Hk. pose proof (proj1 (Forall_lookup _ _) Hl _ _ Hi) as H0.
    destruct (loaded_in _ _ _ H0 (list_elem_of_lookup_2 _ _ _ Hk)) as (_ & _ & _ & _ & _ & _ & ?). done. }
  intros i j a1 a2 k l vb n pb vb' n' pb'. rewrite !lookup_snoc_Some.
  intros [[Hi E1]|[-> <-]] [[Hj E2]|[-> <-]] Hk Hl' Hne.
  - exact (Hap _ _ _ _ _ _ _ _ _ _ _ _ E1 E2 Hk Hl' Hne).
  - pose proof (Hold _ _ _ _ _ _ E1 Hk). pose proof (frames_new _ _ _ _ _ _ Ha Hl'). left. lia.
  - pose proof (Hold _ _ _ _ _ _ E2 Hl'). pose proof (frames_new _ _ _ _ _ _ Ha Hk). right. lia.
  - destruct (loaded_pages _ _ Ha). eapply frames_new_apart; [done..|]. congruence.
Qed.

Lemma shows_old mem mem' a f0 a0 f : forked mem mem' a f → loaded f a0 → shows mem a0 f0 → shows mem' a0 f0.
Proof.
  intros (Hk & _) Hl Hs va. rewrite Hs. destruct (as_map a0 va) as [pa|] eqn:Hpa; [|done]. cbn.
  pose proof (as_map_user _ _ _ _ Hl Hpa). rewrite Hk; [done|]. lia.
Qed.

Lemma shows_new mem mem' a f0 f : forked mem mem' a f → loaded f a → shows mem a f0 → shows mem' (with_frames f a) f0.
Proof.
  intros (_ & Hc) Hl Hs va. rewrite Hs, !as_map_if.
  cbn [with_frames as_vbase1 as_npages1 as_pbase1 as_vbase2 as_npages2 as_pbase2 as_stackpbase].
  assert (∀ k vb n pb pb', regions a !! k = Some (vb, n, pb) → regions (with_frames f a) !! k = Some (vb, n, pb') →
    in_region va (vb, n, pb) = true →
    mem !! (MIPS_KSEG0 + (va - vb + pb)) = mem' !! (MIPS_KSEG0 + (va - vb + pb'))) as Hat.
  { intros k vb n pb pb' Hk Hk' Hin%in_region_spec. specialize (Hc _ _ _ _ _ Hk Hk' (va - vb)).
    replace (MIPS_KSEG0 + (va - vb + pb)) with (MIPS_KSEG0 + pb + (va - vb)) by lia.
    replace (MIPS_KSEG0 + (va - vb + pb')) with (MIPS_KSEG0 + pb' + (va - vb)) by lia. symmetry. apply Hc. lia. }
  change (in_region va (?v, ?n, f)) with (in_region va (v, n, as_pbase1 a)).
  change (in_region va (as_vbase2 a, as_npages2 a, f + as_npages1 a * PAGE_SIZE))
    with (in_region va (as_vbase2 a, as_npages2 a, as_pbase2 a)).
  change (in_region va (?v, DUMBVM_STACKPAGES, f + as_npages1 a * PAGE_SIZE + as_npages2 a * PAGE_SIZE))
    with (in_region va (v, DUMBVM_STACKPAGES, as_stackpbase a)).
  destruct (in_region va (as_vbase1 a, _, _)) eqn:E1; [by eapply (Hat 0%nat)|].
  destruct (in_region va (as_vbase2 a, _, _)) eqn:E2; [by eapply (Hat 1%nat)|].
  destruct (in_region va (_, DUMBVM_STACKPAGES, _)) eqn:E3; [by eapply (Hat 2%nat)|done].
Qed.

Lemma fork_simulated s ps sps x m :
  sys s ps sps x → wp (run_event ps EFork) (simulated ps x EFork) (World s m).
Proof.
  intros Hs. destruct (sys_flat _ _ _ _ Hs) as (f0 & Hf0).
  destruct (sy_cur _ _ _ _ Hs) as (p & a & Hp & Ha & Hfo). pose proof Hfo as [F1 F2 F3 F4 F5 F6 F7].
  destruct (Forall2_lookup_l _ _ _ _ _ (sy_shows _ _ _ _ Hs) Ha) as (f0' & Hf0' & Hsh0).
  rewrite Hf0 in Hf0'. injection Hf0' as <-.
  destruct Hs as [Hc Hr Hm Has Hl Hap Hsh Hcur]. cbn [run_event]. rewrite wp_bind, wp_kget. cbn [wst].
  rewrite F3, wp_bind, wp_kof_Some, wp_bind. eapply as_copy_spec; [done..| |].
  - intros r m' Hr' Hf El. rewrite wp_ret. exists x, sps. split; [apply fs_nofork|].
    assert (∀ a, loaded (firstpaddr (vm_ram s)) a → loaded (firstpaddr r) a) as Hmono by (intros; by eapply loaded_mono).
    split; cbn [fst wst vm_cpu vm_ram vm_mem vm_heap set_vram]; try done.
    + by rewrite El.
    + eapply Forall_impl; [exact Hl|auto].
    + exists p, a. split_and!; [done..|]. split; cbn; try done; [|by apply Hmono].
      destruct Hr'. lia.
  - cbv zeta. intros q mem' m' Hq Hr' Hfk Hb. rewrite wp_ret. set (f := firstpaddr (vm_ram s)) in *.
    pose proof (ram_order _ Hr') as Ho. pose proof (ram_last _ Hr') as Hla. cbn [firstpaddr lastpaddr] in Ho, Hla.
    assert (0 ≤ total a) as Htot.
    { destruct (frames_new f a 2 _ _ _ F5 eq_refl) as (? & ? & ?). unfold PAGE_SIZE in *. lia. }
    exists (Flats (fl_mems x ++ [f0]) (fl_cur x) (fl_touched x)), (sps ++ [with_frames f a]).
    split; [by apply fs_fork|].
    assert (∀ p' a', vm_heap s !! p' = Some a' → <[q := with_frames f a]> (vm_heap s) !! p' = Some a') as Hkeep.
    { intros p' a' Hp'. rewrite lookup_insert_ne; [done|]. intros ->. congruence. }
    split; cbn [fst wst vm_cpu vm_ram vm_mem vm_heap set_vram set_vmem set_vheap firstpaddr lastpaddr fl_mems fl_cur fl_touched]; try done.
    + apply Forall2_app; [eapply Forall2_impl; [exact Has|auto]|]. constructor; [apply lookup_insert_eq|constructor].
    + apply Forall_app. split.
      * eapply Forall_impl; [exact Hl|]. intros a' H'. eapply loaded_mono; [exact H'|lia].
      * constructor; [|constructor]. destruct Hr. by apply loaded_frames.
    + by apply frames_apart_snoc.
    + apply Forall2_app.
      * apply Forall2_same_length_lookup. split; [by eapply Forall2_length|]. intros i a' f' Hi Hf'.
        eapply shows_old; [done|by eapply (proj1 (Forall_lookup _ _) Hl)|].
        destruct (Forall2_lookup_l _ _ _ _ _ Hsh Hi) as (f'' & Hf'' & ?). congruence.
      * constructor; [|constructor]. by eapply shows_new.
    + exists p, a. split_and!; [by apply lookup_app_l_Some..|]. split; cbn; try done; [lia|by apply Hkeep|].
      eapply loaded_mono; [done|lia].
Qed.

Lemma event_simulated s ps sps x e m :
  sys s ps sps x → wp (run_event ps e) (simulated ps x e) (World s m).
Proof.
  destruct e; [apply load_simulated|apply store_simulated|apply switch_simulated|apply fork_simulated].
Qed.

Lemma events_simulated es : ∀ s ps sps x m,
  sys s ps sps x →
  wp (run_events ps es) (λ r w, ∃ y sps', flat_steps x es r.2 y ∧ sys (wst w) r.1 sps' y) (World s m).
Proof.
  induction es as [|e es IH]; intros s ps sps x m Hs; cbn [run_events].
  - rewrite wp_ret. exists x, sps. split; [constructor|done].
  - rewrite wp_bind. eapply wp_mono; [by eapply event_simulated|].
    intros [ps1 o] [s1 m1] (y & sps1 & Hst & Hs1). cbn [fst snd wst] in *. rewrite wp_bind.
    eapply wp_mono; [by eapply IH|]. intros [ps2 os] w (z & sps2 & Hsts & Hs2). rewrite wp_ret.
    exists z, sps2. cbn [fst snd] in *. split; [by econstructor|done].
Qed.
