(* ===== verification/DumbVmProps.v ===== *)
(** * Properties of address spaces

    Loading a program makes an address space that covers its segments; from
    then on programs run as if each had a flat memory of its own, forks
    included, as long as 64 pages suffice between two switches. *)

From S2P Require Import Prelude Bits Spl Ram Tlb LibMem DumbVm DumbVmSpec DumbVmSys.

#[local] Ltac Zify.zify_post_hook ::= Z.div_mod_to_equations.

(** ** What an address space shows *)

Definition visible (mem : bmem) (a : addrspace) (va : Z) : option (Z * Z) :=
  (λ b, (va, b)) <$> (as_map a va ≫= λ pa, mem !! (MIPS_KSEG0 + pa)).

Definition view (mem : bmem) (a : addrspace) : gmap Z Z :=
  list_to_map (omap (visible mem a) (seqZ 0 USERSTACK)).

Lemma visible_Some mem a va va' b :
  visible mem a va = Some (va', b) ↔ va' = va ∧ as_map a va ≫= (λ pa, mem !! (MIPS_KSEG0 + pa)) = Some b.
Proof.
  unfold visible. destruct (as_map a va ≫= _) as [b'|]; cbn; [|naive_solver]. split; [by intros [= -> ->]|].
  by intros [-> [= ->]].
Qed.

Lemma visible_NoDup mem a l : NoDup l → NoDup (omap (visible mem a) l).*1.
Proof.
  induction 1 as [|va l Hni Hnd IH]; cbn; [constructor|].
  destruct (visible mem a va) as [[va' b]|] eqn:E; [|done]. apply visible_Some in E as [-> _]. cbn.
  constructor; [|done]. rewrite list_elem_of_fmap. intros ([va' b'] & Hva & Hin). cbn in Hva. subst va'.
  apply list_elem_of_omap in Hin as (va'' & Hin & [-> _]%visible_Some). done.
Qed.

Lemma view_shows top mem a : loaded top a → shows mem a (view mem a).
Proof.
  intros Hl va. unfold view. apply option_eq. intros b.
  rewrite <- elem_of_list_to_map by apply visible_NoDup, NoDup_seqZ.
  rewrite list_elem_of_omap. split.
  - intros (va' & _ & [-> Hb]%visible_Some). done.
  - intros Hb. exists va. rewrite elem_of_seqZ, visible_Some. split; [|done].
    destruct (as_map a va) as [pa|] eqn:Hpa; [|done]. pose proof (as_map_user _ _ _ _ Hl Hpa). lia.
Qed.

#[global] Opaque view.

(** ** Programs *)

(** C5: User programs on dumbvm behave as if each had a flat memory of its own:
    for any interleaving of loads, stores, switches and forks the bytes they
    read are those of the flat memories, a fork copies the memory of the
    current program and nothing else, and an access fails exactly if the
    address is not mapped or 64 other pages were touched since the last
    switch. *)
Theorem programs_have_flat_memories s ps sps x es m (Hs : sys s ps sps x) :
  wp (run_events ps es)
     (λ r w, ∃ y sps', flat_steps x es r.2 y ∧ sys (wst w) r.1 sps' y) (World s m).
Proof. by eapply events_simulated. Qed.

(** ** Loading *)

(** What loading a program with two segments does to its address space. *)
Definition exec_space (v1 sz1 v2 sz2 : Z) : K vmstate (Z * option asptr) :=
  o ← as_create;
  match o with
  | None => mret (ENOMEM, None)
  | Some p =>
      s ← kget;
      kput (set_space (Some p) s);;
      as_activate;;
      r ← as_define_region p v1 sz1;
      if negb (r =? 0) then mret (r, None) else
      r ← as_define_region p v2 sz2;
      if negb (r =? 0) then mret (r, None) else
      r ← as_prepare_load p;
      if negb (r =? 0) then mret (r, None) else
      r ← as_complete_load p;
      if negb (r =? 0) then mret (r, None) else
      '(r, stackptr) ← as_define_stack p;
      mret (r, Some p)
  end.

(** A segment in the lower half of memory that does not start in page 0. *)
Definition segment (v sz : Z) : Prop := PAGE_SIZE ≤ v ∧ 0 < sz ∧ v + sz ≤ USERSTACK.

(** The pages of a segment. *)
Definition seg_pages (v sz : Z) : Z := (v mod PAGE_SIZE + sz + PAGE_SIZE - 1) / PAGE_SIZE.

Lemma define_region_args v sz :
  segment v sz →
  Z.land v PAGE_FRAME = page_of v ∧
  Z.land (u32 (u32 (sz + Z.land v (u32 (Z.lnot PAGE_FRAME))) + PAGE_SIZE - 1)) PAGE_FRAME / PAGE_SIZE = seg_pages v sz.
Proof.
  intros (Hv & Hsz & Hend). unfold USERSTACK, MIPS_KSEG0 in *.
  change (u32 (Z.lnot PAGE_FRAME)) with 0xfff. rewrite land_offset. unfold PAGE_SIZE in *.
  split; [apply page_frame_of; lia|]. rewrite (u32_id (sz + v mod 4096)), u32_id by lia.
  rewrite land_frame by lia. unfold seg_pages, PAGE_SIZE. lia.
Qed.

Lemma seg_pages_cover v sz : segment v sz →
  0 < page_of v ∧ page_of v mod PAGE_SIZE = 0 ∧ 0 < seg_pages v sz ≤ MAXPAGES ∧
  page_of v + seg_pages v sz * PAGE_SIZE ≤ USERSTACK ∧
  page_of v ≤ v ∧ v + sz ≤ page_of v + seg_pages v sz * PAGE_SIZE.
Proof.
  intros (Hv & Hsz & Hend). unfold page_of, seg_pages, MAXPAGES, USERSTACK, MIPS_KSEG0, PAGE_SIZE in *. lia.
Qed.

(** The address space after the two regions are defined. *)
Definition two_regions (v1 sz1 v2 sz2 : Z) : addrspace :=
  AddrSpace (page_of v1) 0 (seg_pages v1 sz1) (page_of v2) 0 (seg_pages v2 sz2) 0.

Lemma define_regions_spec s p v1 sz1 v2 sz2 m (Q : Z * option asptr → world vmstate → Prop) (k : K vmstate (Z * option asptr)) :
  segment v1 sz1 → segment v2 sz2 → vm_heap s !! p = Some (AddrSpace 0 0 0 0 0 0 0) →
  wp k Q (World (set_vheap (<[p := two_regions v1 sz1 v2 sz2]> (vm_heap s)) s) m) →
  wp (r ← as_define_region p v1 sz1;
      if negb (r =? 0) then mret (r, None) else
      r ← as_define_region p v2 sz2;
      if negb (r =? 0) then mret (r, None) else k) Q (World s m).
Proof.
  intros H1 H2 Hp Hk. unfold as_define_region.
  destruct (define_region_args _ _ H1) as [-> ->], (define_region_args _ _ H2) as [-> ->].
  rewrite !wp_bind. eapply getas_spec; [done|]. cbn [as_vbase1 Z.eqb]. rewrite wp_bind. apply setas_spec.
  rewrite wp_ret. cbn [Z.eqb negb]. rewrite !wp_bind. eapply getas_spec; [cbn; apply lookup_insert_eq|].
  unfold set_region1. cbn [as_vbase1 as_vbase2 as_pbase1 as_pbase2 as_npages2 as_stackpbase].
  destruct (seg_pages_cover _ _ H1) as (Hpos & _). rewrite (proj2 (Z.eqb_neq (page_of v1) 0)) by lia.
  cbn [Z.eqb]. rewrite wp_bind. apply setas_spec. rewrite wp_ret. cbn [Z.eqb negb vm_heap set_vheap].
  rewrite insert_insert_eq. exact Hk.
Qed.

(** A kernel without programs. *)
Record idle (s : vmstate) : Prop := Idle {
  id_cpu : cpu_ok (vm_cpu s);
  id_ram : ram_ok (vm_ram s);
  id_mem : block (vm_mem s) MIPS_KSEG0 (lastpaddr (vm_ram s));
  id_tlb : length (vm_tlb s) = 64%nat
}.

Lemma two_regions_loaded f v1 sz1 v2 sz2 :
  segment v1 sz1 → segment v2 sz2 → 0 < f → f mod PAGE_SIZE = 0 →
  let a := two_regions v1 sz1 v2 sz2 in loaded (f + total a) (with_frames f a).
Proof.
  intros H1 H2 Hf Hal. destruct (seg_pages_cover _ _ H1) as (? & ? & ? & ? & ? & ?).
  destruct (seg_pages_cover _ _ H2) as (? & ? & ? & ? & ? & ?).
  unfold loaded, regions, with_frames, two_regions, total. cbn [as_vbase1 as_npages1 as_pbase1 as_vbase2 as_npages2 as_pbase2 as_stackpbase].
  unfold DUMBVM_STACKPAGES, USERSTACK, MIPS_KSEG0, PAGE_SIZE in *.
  repeat constructor; unfold DUMBVM_STACKPAGES, USERSTACK, MIPS_KSEG0, PAGE_SIZE in *; lia.
Qed.

Lemma one_program_apart f a : 0 < as_npages1 a → 0 < as_npages2 a → frames_apart [with_frames f a].
Proof.
  intros H1 H2 i j a1 a2 k l vb n pb vb' n' pb' [-> <-]%list_lookup_singleton_Some [-> <-]%list_lookup_singleton_Some
    Hk Hl Hne. eapply frames_new_apart; [done..|]. congruence.
Qed.

(** The addresses of a segment are mapped. *)
Lemma region_mapped a k vb n pb va :
  regions a !! k = Some (vb, n, pb) → vb ≤ va < vb + n * PAGE_SIZE → is_Some (as_map a va).
Proof.
  intros Hk Hva. unfold as_map.
  destruct (filter (λ r, in_region va r = true) (regions a)) as [|r l] eqn:E; [|done].
  assert ((vb, n, pb) ∈ filter (λ r, in_region va r = true) (regions a)) as Hin.
  { apply list_elem_of_filter. split; [by apply in_region_spec|by eapply list_elem_of_lookup_2]. }
  rewrite E in Hin. by apply not_elem_of_nil in Hin.
Qed.

(** The state after the load. *)
Definition loaded_state (s : vmstate) (p : asptr) (a : addrspace) : vmstate :=
  let f := firstpaddr (vm_ram s) in
  set_vram (Ram (f + total a) (lastpaddr (vm_ram s)))
    (set_vheap (<[p := with_frames f a]> (vm_heap s)) (set_tlb (tlb_of (with_frames f a) []) (set_space (Some p) s))).

Lemma exec_sys s v1 sz1 v2 sz2 p :
  idle s → segment v1 sz1 → segment v2 sz2 →
  let a := two_regions v1 sz1 v2 sz2 in
  let f := firstpaddr (vm_ram s) in
  ram_ok (Ram (f + total a) (lastpaddr (vm_ram s))) →
  sys (loaded_state s p a) [p] [with_frames f a] (Flats [view (vm_mem s) (with_frames f a)] 0 []).
Proof.
  intros [Hc Hr Hm _] H1 H2 a0 f Hr'. destruct (seg_pages_cover _ _ H1) as (_ & _ & [? _] & _).
  destruct (seg_pages_cover _ _ H2) as (_ & _ & [? _] & _).
  set (a := with_frames f _). destruct Hr as [R1 R2 R3 R4].
  assert (loaded (f + total a0) a) as Hl by by apply two_regions_loaded.
  unfold loaded_state. fold f.
  split; cbn [wst vm_cpu vm_ram vm_mem vm_heap set_vram set_vheap set_tlb set_space fl_mems fl_cur fl_touched]; try done.
  - constructor; [apply lookup_insert_eq|constructor].
  - by constructor.
  - by apply one_program_apart.
  - constructor; [by eapply view_shows|constructor].
  - exists p, a. split_and!; [done..|]. split; try done.
    + destruct Hr'. cbn in *. lia.
    + cbn. apply lookup_insert_eq.
    + split; [done|apply NoDup_nil_2|]. by intros vp Hvp%not_elem_of_nil.
Qed.

Lemma exec_mapped f v1 sz1 v2 sz2 va :
  segment v1 sz1 → segment v2 sz2 →
  v1 ≤ va < v1 + sz1 ∨ v2 ≤ va < v2 + sz2 ∨ USERSTACK - DUMBVM_STACKPAGES * PAGE_SIZE ≤ va < USERSTACK →
  is_Some (as_map (with_frames f (two_regions v1 sz1 v2 sz2)) va).
Proof.
  intros H1 H2. destruct (seg_pages_cover _ _ H1) as (_ & _ & _ & _ & ? & ?).
  destruct (seg_pages_cover _ _ H2) as (_ & _ & _ & _ & ? & ?). set (a := with_frames f _).
  intros [Hva|[Hva|Hva]].
  - apply (region_mapped a 0 (page_of v1) (seg_pages v1 sz1) (as_pbase1 a)); [done|]. lia.
  - apply (region_mapped a 1 (page_of v2) (seg_pages v2 sz2) (as_pbase2 a)); [done|]. lia.
  - apply (region_mapped a 2 (USERSTACK - DUMBVM_STACKPAGES * PAGE_SIZE) DUMBVM_STACKPAGES (as_stackpbase a)); [done|].
    unfold USERSTACK, DUMBVM_STACKPAGES, MIPS_KSEG0, PAGE_SIZE in *. lia.
Qed.

(** C37: Loading a program with two segments either fails with ENOMEM or ends with
    an address space that the fault handler accepts, in which every byte of both
    segments and of the stack is mapped to memory of its own; afterwards the
    program runs on its flat memory, whatever it does. *)
Theorem exec_then_run s v1 sz1 v2 sz2 es m (Hi : idle s) (H1 : segment v1 sz1) (H2 : segment v2 sz2) :
  wp ('(r, o) ← exec_space v1 sz1 v2 sz2;
      match o with
      | Some p => '(_, os) ← run_events [p] es; mret (r, Some os)
      | None => mret (r, None)
      end)
     (λ '(r, o) _, match o with
                   | None => r = ENOMEM
                   | Some os => r = 0 ∧ ∃ f y, flat_steps (Flats [f] 0 []) es os y ∧
                       ∀ va, v1 ≤ va < v1 + sz1 ∨ v2 ≤ va < v2 + sz2 ∨
                             USERSTACK - DUMBVM_STACKPAGES * PAGE_SIZE ≤ va < USERSTACK → is_Some (f !! va)
                   end) (World s m).
Proof.
  pose proof Hi as [Hc Hr Hm Ht]. unfold exec_space, as_create. rewrite !wp_bind.
  apply wp_kmalloc; cbn [wst wmem negb]; [|by intros m' _ _; rewrite !wp_ret].
  intros m1 _. rewrite wp_bind, wp_kget. cbn [wst]. set (p := fresh _).
  rewrite wp_bind. apply setas_spec. rewrite wp_ret, wp_bind, wp_kget, wp_bind, wp_kput, wp_bind. cbn [wst].
  apply as_activate_spec; [done|done|]. intros a1.
  apply define_regions_spec; [done|done|cbn; apply lookup_insert_eq|].
  cbn [vm_heap set_tlb set_space set_vheap]. rewrite insert_insert_eq. set (a := two_regions v1 sz1 v2 sz2).
  destruct (seg_pages_cover _ _ H1) as (_ & _ & B1 & _). destruct (seg_pages_cover _ _ H2) as (_ & _ & B2 & _).
  rewrite wp_bind. eapply (prepare_load_spec _ p a); [done|done|cbn; apply lookup_insert_eq|split; cbn; done || lia|..].
  { intros r a' _ _ _. change (negb (ENOMEM =? 0)) with true. cbv iota. by rewrite !wp_ret. }
  cbn zeta. intros Hr'. cbn [Z.eqb negb vm_heap set_vheap]. rewrite insert_insert_eq.
  unfold as_complete_load. rewrite wp_bind, wp_ret. cbn [Z.eqb negb]. rewrite wp_bind. unfold as_define_stack.
  rewrite wp_bind. eapply getas_spec; [cbn; apply lookup_insert_eq|].
  rewrite wp_bind, wp_kassert.
  2:{ cbn. apply negb_true_iff, Z.eqb_neq. destruct Hr. unfold seg_pages, PAGE_SIZE in *. lia. }
  rewrite !wp_ret, wp_bind.
  pose proof (exec_sys s v1 sz1 v2 sz2 p Hi H1 H2 Hr') as Hsys. cbv zeta in Hsys.
  eapply wp_mono; [eapply events_simulated; exact Hsys|].
  intros [ps' os] w (y & sps' & Hst & _). rewrite wp_ret. split; [done|]. eexists _, y. split; [exact Hst|].
  intros va Hva. destruct (exec_mapped (firstpaddr (vm_ram s)) v1 sz1 v2 sz2 va H1 H2 Hva) as [pa Hpa].
  pose proof (sys_shown _ _ _ _ 0 _ _ va Hsys eq_refl eq_refl) as Hsh.
  rewrite Hpa in Hsh. destruct Hsh as (b & Hb & _). eauto.
Qed.

(** ** Examples *)

Definition zeros : bmem := gset_to_gmap 0 (list_to_set (seqZ MIPS_KSEG0 0x40000)).

Lemma zeros_block : block zeros MIPS_KSEG0 0x40000.
Proof.
  intros x Hx. exists 0. split; [|lia]. apply lookup_gset_to_gmap_Some. split; [|done].
  apply elem_of_list_to_set, elem_of_seqZ. lia.
Qed.

#[global] Opaque zeros.

(** 64 pages of memory, of which 16 are taken. *)
Definition idle_vm : vmstate :=
  VmState (Cpu 1 0) (Ram 0x10000 0x40000) (replicate 64 (0, 0)) zeros ∅ None.

Lemma idle_vm_ok : idle idle_vm.
Proof. split; [by split|by split|exact zeros_block|done]. Qed.

Definition two_programs : list event :=
  [EStore 0x400010 7; EFork; EStore 0x400010 8; ESwitch 1; ELoad 0x400010; ELoad 0x500000].

Lemma segments : segment 0x400000 100 ∧ segment 0x10000000 5000.
Proof. done. Qed.

Lemma programs_have_flat_memories_witness :
  let a := two_regions 0x400000 100 0x10000000 5000 in
  wp (run_events [1%positive] two_programs)
     (λ r w, ∃ y sps', flat_steps (Flats [view zeros (with_frames 0x10000 a)] 0 []) two_programs r.2 y ∧
                       sys (wst w) r.1 sps' y) (World (loaded_state idle_vm 1 a) []).
Proof.
  intros a.
  apply (programs_have_flat_memories (loaded_state idle_vm 1 a) [1%positive] [with_frames 0x10000 a]
           (Flats [view zeros (with_frames 0x10000 a)] 0 []) two_programs []).
  apply (exec_sys idle_vm 0x400000 100 0x10000000 5000 1%positive idle_vm_ok (proj1 segments) (proj2 segments)).
  by split.
Defined.

Lemma exec_then_run_witness :
  wp ('(r, o) ← exec_space 0x400000 100 0x10000000 5000;
      match o with
      | Some p => '(_, os) ← run_events [p] two_programs; mret (r, Some os)
      | None => mret (r, None)
      end)
     (λ '(r, o) _, match o with
                   | None => r = ENOMEM
                   | Some os => r = 0 ∧ ∃ f y, flat_steps (Flats [f] 0 []) two_programs os y ∧
                       ∀ va, 0x400000 ≤ va < 0x400000 + 100 ∨ 0x10000000 ≤ va < 0x10000000 + 5000 ∨
                             USERSTACK - DUMBVM_STACKPAGES * PAGE_SIZE ≤ va < USERSTACK → is_Some (f !! va)
                   end) (World idle_vm []).
Proof.
  exact (exec_then_run idle_vm 0x400000 100 0x10000000 5000 two_programs [] idle_vm_ok (proj1 segments) (proj2 segments)).
Defined.
