(* ===== verification/LibStr.v ===== *)
(** * String operations of the C library

    [strlen], [strcpy], [strcat], [strcmp], [strchr], [strrchr], [strtok_r] and
    [atoi] (lib/libc) on strings in a byte memory. *)

From S2P Require Import Prelude LibMem.

#[local] Ltac Zify.zify_post_hook ::= Z.div_mod_to_equations.

(** ** Loops that end by themselves

    A scan for the end of a string reads one address after the other, all of
    them mapped, so that it takes no more rounds than memory has bytes. *)

Fixpoint kuntil {S T R} (fuel : nat) (body : T → K S (T + R)) (t : T) : K S R :=
  match fuel with
  | O => kdiverge
  | Datatypes.S fuel =>
      r ← body t;
      match r with
      | inl t' => kuntil fuel body t'
      | inr x => mret x
      end
  end.

Lemma wp_kuntil {S T R} (I : T → world S → Prop) (v : T → nat) fuel
    (body : T → K S (T + R)) t (Q : R → world S → Prop) w :
  (v t < fuel)%nat → I t w →
  (∀ t w, I t w → wp (body t) (λ r w', match r with
     | inl t' => I t' w' ∧ (v t' < v t)%nat
     | inr x => Q x w'
     end) w) →
  wp (kuntil fuel body t) Q w.
Proof.
  revert t w. induction fuel as [|fuel IH]; intros t w Hv HI Hbody; [lia|]. simpl.
  rewrite wp_bind. eapply wp_mono; [by apply Hbody|]. intros [t'|x] w'; [|done].
  intros [HI' Hlt]. apply IH; [lia|done..].
Qed.

Lemma wp_kuntil_step {S T R} fuel (body : T → K S (T + R)) t Q w :
  wp (kuntil (Datatypes.S fuel) body t) Q w =
  wp (body t) (λ r w', match r with
                       | inl t' => wp (kuntil fuel body t') Q w'
                       | inr x => Q x w'
                       end) w.
Proof. simpl. rewrite wp_bind. unfold wp at 1 3. by destruct (body t w) as [[[] ?]| | |]. Qed.

#[global] Arguments kuntil : simpl never.

Definition scan_fuel (m : bmem) : nat := Datatypes.S (base.size m).

(** ** Characters: [char] is signed on the MIPS *)

Definition schar (b : Z) : Z := if b <? 128 then b else b - 256.

Definition cload (a : Z) : K bmem Z := b ← bload (u32 a); mret (schar b).

(** ** The functions *)

Definition strlen (s : Z) : K bmem Z :=
  m ← kget;
  kuntil (scan_fuel m)
    (λ ret, c ← cload (s + ret); mret (if c =? 0 then inr ret else inl (u32 (ret + 1)))) 0.

Definition strcpy (dest src : Z) : K bmem Z :=
  m ← kget;
  i ← kuntil (scan_fuel m)
        (λ i, c ← cload (src + i);
              if c =? 0 then mret (inr i) else
              bstore (u32 (dest + i)) c;; mret (inl (u32 (i + 1)))) 0;
  bstore (u32 (dest + i)) 0;;
  mret dest.

Definition strcat (dest src : Z) : K bmem Z :=
  offset ← strlen dest;
  strcpy (u32 (dest + offset)) src;;
  mret dest.

Definition strcmp (a b : Z) : K bmem Z :=
  m ← kget;
  i ← kuntil (scan_fuel m)
        (λ i, x ← cload (a + i);
              if x =? 0 then mret (inr i) else
              y ← cload (b + i);
              mret (if x =? y then inl (u32 (i + 1)) else inr i)) 0;
  x ← cload (a + i);
  y ← cload (b + i);
  mret (if y <? x then 1 else if x =? y then 0 else -1).

Definition strchr (s ch : Z) : K bmem Z :=
  m ← kget;
  kuntil (scan_fuel m)
    (λ s, c ← cload s;
          mret (if c =? 0 then inr (if c =? ch then s else 0)
                else if c =? ch then inr s else inl (u32 (s + 1)))) s.

Definition strrchr (s ch : Z) : K bmem Z :=
  n ← strlen s;
  kuntil (Z.to_nat (n + 2))
    (λ i, if 0 <? i then
            c ← cload (s + (i - 1));
            mret (if c =? ch then inr (u32 (s + (i - 1))) else inl (i - 1))
          else mret (inr 0)) (u32 (n + 1)).

(** The result and the new value of the context. *)
Definition strtok_r (string seps context : Z) : K bmem (Z * Z) :=
  let context := if negb (string =? 0) then string else context in
  if context =? 0 then mret (0, context) else
  m ← kget;
  head ← kuntil (scan_fuel m)
           (λ head, c ← cload head;
                    if c =? 0 then mret (inr head) else
                    w ← strchr seps c;
                    mret (if negb (w =? 0) then inl (u32 (head + 1)) else inr head)) context;
  c ← cload head;
  if c =? 0 then mret (0, 0) else
  tail ← kuntil (scan_fuel m)
           (λ tail, c ← cload tail;
                    if c =? 0 then mret (inr tail) else
                    w ← strchr seps c;
                    mret (if w =? 0 then inl (u32 (tail + 1)) else inr tail)) head;
  c ← cload tail;
  if c =? 0 then mret (head, 0) else
  bstore tail 0;;
  mret (head, u32 (tail + 1)).

(** [strchr] on a constant string: the offset of the character, which may be the
    terminator. *)
Fixpoint strchr_const (l : list Z) (ch : Z) : option Z :=
  match l with
  | [] => if ch =? 0 then Some 0 else None
  | c :: l => if c =? ch then Some 0 else i ← strchr_const l ch; Some (i + 1)
  end.

Definition digits : list Z := [48; 49; 50; 51; 52; 53; 54; 55; 56; 57].

Definition atoi_space (c : Z) : bool := (c =? 32) || (c =? 9).

(** The body of the loop over the digits. *)
Definition atoi_digit (t : Z * Z) : K bmem (Z * Z + Z) :=
  let '(s, val) := t in
  c ← cload s;
  if c =? 0 then mret (inr val) else
  match strchr_const digits c with
  | None => mret (inr val)
  | Some digit => mret (inl (u32 (s + 1), u32 (val * 10 + digit)))
  end.

Definition atoi (s : Z) : K bmem Z :=
  m ← kget;
  s ← kuntil (scan_fuel m)
        (λ s, c ← cload s; mret (if atoi_space c then inl (u32 (s + 1)) else inr s)) s;
  c ← cload s;
  let neg := c =? 45 in
  let s := if neg || (c =? 43) then u32 (s + 1) else s in
  val ← kuntil (scan_fuel m) atoi_digit (s, 0);
  mret (i32 (if neg then - val else val)).

(** ** Strings in memory *)

Record str_at (m : bmem) (a : Z) (s : list Z) : Prop := StrAt {
  sa_char i c : s !! i = Some c → m !! (a + Z.of_nat i) = Some c ∧ 0 < c < 256;
  sa_end : m !! (a + Z.of_nat (length s)) = Some 0;
  sa_range : 0 < a ∧ a + Z.of_nat (length s) < 2 ^ 32
}.

(** The character at an index, the terminator included. *)
Definition chr (s : list Z) (i : Z) : Z := nth (Z.to_nat i) s 0.

Lemma schar_inj x y : 0 ≤ x < 256 → 0 ≤ y < 256 → schar x = schar y → x = y.
Proof. unfold schar. intros. destruct (Z.ltb_spec x 128), (Z.ltb_spec y 128); lia. Qed.

Lemma schar_zero x : 0 ≤ x < 256 → (schar x =? 0) = (x =? 0).
Proof.
  intros Hx. unfold schar. destruct (Z.ltb_spec x 128); [done|].
  rewrite !(proj2 (Z.eqb_neq _ _)); (done || lia).
Qed.

Lemma u8_schar x : 0 ≤ x < 256 → u8 (schar x) = x.
Proof. unfold u8, schar. destruct (Z.ltb_spec x 128); lia. Qed.

Lemma str_bytes m a s : str_at m a s → ∀ c, c ∈ s → 0 < c < 256.
Proof. intros Hs c (i & Hi)%list_elem_of_lookup. by apply (sa_char _ _ _ Hs i). Qed.

Section string.
Context (m : bmem) (a : Z) (s : list Z) (o : list bool) (Hs : str_at m a s).

Lemma str_chr i : 0 ≤ i ≤ Z.of_nat (length s) → m !! (a + i) = Some (chr s i) ∧ 0 ≤ chr s i < 256.
Proof using Hs.
  intros Hi. unfold chr. destruct (s !! Z.to_nat i) as [c|] eqn:E.
  - erewrite nth_lookup_Some by exact E. apply (sa_char _ _ _ Hs) in E as [E ?].
    rewrite Z2Nat.id in E by lia. split; [done|lia].
  - apply lookup_ge_None in E. rewrite nth_overflow by lia.
    replace i with (Z.of_nat (length s)) by lia. split; [exact (sa_end _ _ _ Hs)|lia].
Qed.

Lemma chr_zero i : 0 ≤ i ≤ Z.of_nat (length s) → chr s i = 0 ↔ i = Z.of_nat (length s).
Proof using Hs.
  intros Hi. unfold chr. destruct (s !! Z.to_nat i) as [c|] eqn:E.
  - erewrite nth_lookup_Some by exact E. pose proof (lookup_lt_Some _ _ _ E).
    apply (sa_char _ _ _ Hs) in E as [_ ?]. lia.
  - apply lookup_ge_None in E. rewrite nth_overflow by lia. lia.
Qed.

Lemma wp_cload i Q :
  0 ≤ i ≤ Z.of_nat (length s) →
  wp (cload (a + i)) Q (World m o) = Q (schar (chr s i)) (World m o).
Proof using Hs.
  intros Hi. unfold cload. rewrite u32_id by (pose proof (sa_range _ _ _ Hs); lia).
  destruct (str_chr i Hi) as [Hc _]. by rewrite wp_bind, (wp_bload _ _ _ _ _ Hc).
Qed.

Lemma eqb_end i :
  0 ≤ i ≤ Z.of_nat (length s) → (schar (chr s i) =? 0) = (i =? Z.of_nat (length s)).
Proof using Hs.
  intros Hi. rewrite schar_zero by by apply str_chr. pose proof (chr_zero i Hi). lia.
Qed.

Lemma str_fuel : (length s < base.size m)%nat.
Proof using Hs.
  assert (list_to_set ((λ i, a + Z.of_nat i) <$> seq 0 (Datatypes.S (length s))) ⊆ dom m) as Hsub.
  { intros x. rewrite elem_of_list_to_set, list_elem_of_fmap. intros (i & -> & Hi%elem_of_seq).
    apply elem_of_dom. rewrite (proj1 (str_chr (Z.of_nat i) ltac:(lia))). eauto. }
  apply subseteq_size in Hsub. rewrite size_list_to_set in Hsub.
  - rewrite length_fmap, length_seq, size_dom in Hsub. lia.
  - apply NoDup_fmap_2; [intros ???; lia|apply NoDup_seq].
Qed.

Lemma str_tail i : 0 ≤ i ≤ Z.of_nat (length s) → str_at m (a + i) (drop (Z.to_nat i) s).
Proof using Hs.
  intros Hi. split.
  - intros j c Hj. rewrite lookup_drop in Hj. apply (sa_char _ _ _ Hs) in Hj as [Hj ?].
    split; [|done]. rewrite <- Hj. f_equal. lia.
  - rewrite length_drop. rewrite <- (sa_end _ _ _ Hs). f_equal. lia.
  - rewrite length_drop. pose proof (sa_range _ _ _ Hs). lia.
Qed.

(** ** strlen *)

Lemma strlen_spec (Q : Z → world bmem → Prop) :
  Q (Z.of_nat (length s)) (World m o) → wp (strlen a) Q (World m o).
Proof using Hs.
  intros HQ. unfold strlen. rewrite wp_bind, wp_kget. cbn [wst].
  apply (wp_kuntil (λ i w, w = World m o ∧ 0 ≤ i ≤ Z.of_nat (length s))
           (λ i, length s - Z.to_nat i)%nat).
  - pose proof str_fuel. unfold scan_fuel. lia.
  - split; [done|lia].
  - intros i w [-> Hi]. rewrite wp_bind, wp_cload, wp_ret, eqb_end by done.
    destruct (Z.eqb_spec i (Z.of_nat (length s))) as [->|]; [done|].
    rewrite u32_id by (pose proof (sa_range _ _ _ Hs); lia). split; [split; [done|]|]; lia.
Qed.

(** ** strchr *)

(** The address of the first occurrence, or NULL. *)
Definition chr_addr (l : list Z) (ch b : Z) : Z :=
  match strchr_const (schar <$> l) ch with Some i => b + i | None => 0 end.

End string.

Lemma strchr_spec m o ch (Q : Z → world bmem → Prop) s : ∀ a,
  str_at m a s → Q (chr_addr s ch a) (World m o) → wp (strchr a ch) Q (World m o).
Proof.
  intros a Hs HQ. unfold strchr. rewrite wp_bind, wp_kget. cbn [wst].
  apply (wp_kuntil (λ p w, w = World m o ∧ ∃ i, p = a + i ∧ 0 ≤ i ≤ Z.of_nat (length s) ∧
           chr_addr s ch a = chr_addr (drop (Z.to_nat i) s) ch p)
           (λ p, length s - Z.to_nat (p - a))%nat).
  - pose proof (str_fuel _ _ _ Hs). unfold scan_fuel. lia.
  - split; [done|]. exists 0. split_and!; [lia|lia|lia|done].
  - intros p w [-> (i & -> & Hi & Heq)]. rewrite wp_bind, (wp_cload _ _ _ _ Hs), wp_ret by done.
    rewrite (eqb_end _ _ _ Hs) by done. pose proof (sa_range _ _ _ Hs).
    destruct (Z.eqb_spec i (Z.of_nat (length s))) as [->|Hne].
    + rewrite drop_ge in Heq by lia. unfold chr_addr in Heq at 2. simpl in Heq.
      rewrite (proj2 (chr_zero _ _ _ Hs _ Hi) eq_refl). change (schar 0) with 0.
      rewrite (Z.eqb_sym 0). rewrite Heq in HQ. destruct (ch =? 0); [|done]. by rewrite Z.add_0_r in HQ.
    + destruct (lookup_lt_is_Some_2 s (Z.to_nat i)) as [c Hc]; [lia|].
      rewrite (drop_S _ _ _ Hc) in Heq. unfold chr_addr in Heq at 2. simpl in Heq.
      unfold chr. erewrite nth_lookup_Some by exact Hc.
      destruct (schar c =? ch).
      * rewrite Heq in HQ. by rewrite Z.add_0_r in HQ.
      * rewrite u32_id by lia. split; [|lia]. split; [done|]. exists (i + 1).
        split_and!; [lia..|]. rewrite Heq. replace (Z.to_nat (i + 1)) with (Datatypes.S (Z.to_nat i)) by lia.
        unfold chr_addr. destruct (strchr_const _ ch); simpl; [lia|done].
Qed.

(** [strchr] answers NULL exactly for characters that do not occur. *)
Lemma chr_addr_zero m a s c :
  str_at m a s → 0 < c < 256 → chr_addr s (schar c) a = 0 ↔ c ∉ s.
Proof.
  intros Hs Hc. pose proof (sa_range _ _ _ Hs) as [Ha _]. unfold chr_addr.
  assert (∀ l, (∀ x, x ∈ l → 0 < x < 256) →
    match strchr_const (schar <$> l) (schar c) with Some i => 0 ≤ i ∧ c ∈ l | None => c ∉ l end) as Hidx.
  { induction l as [|x l IH]; csimpl; intros Hl.
    - rewrite schar_zero, (proj2 (Z.eqb_neq _ _)) by lia. by apply not_elem_of_nil.
    - destruct (Z.eqb_spec (schar x) (schar c)) as [He|Hne].
      + apply schar_inj in He; [subst; split; [lia|by left]| |lia]. pose proof (Hl x ltac:(by left)). lia.
      + specialize (IH ltac:(intros y Hy; apply Hl; by right)).
        revert IH. destruct (strchr_const (schar <$> l) (schar c)); simpl; intros IH.
        * destruct IH. split; [lia|by right].
        * rewrite elem_of_cons. intros [->|]; done. }
  specialize (Hidx s (str_bytes _ _ _ Hs)). revert Hidx. destruct (strchr_const _ _); intros Hidx.
  - destruct Hidx. split; [lia|done].
  - done.
Qed.

(** ** strcpy and strcat *)

(** [m'] is [m] with the bytes [l] at [d]. *)
Definition placed (m m' : bmem) (d : Z) (l : list Z) : Prop :=
  ∀ x, m' !! x = if decide (d ≤ x < d + Z.of_nat (length l)) then l !! Z.to_nat (x - d) else m !! x.

Lemma placed_nil m d : placed m m d [].
Proof. intros x. simpl. by rewrite decide_False by lia. Qed.

Lemma placed_snoc m m1 d l v :
  placed m m1 d l → placed m (<[d + Z.of_nat (length l) := v]> m1) d (l ++ [v]).
Proof.
  intros Hp x. rewrite length_app. simpl. destruct (decide (x = d + Z.of_nat (length l))) as [->|Hne].
  - rewrite lookup_insert_eq, decide_True by lia.
    replace (Z.to_nat _) with (length l) by lia. by rewrite list_lookup_middle.
  - rewrite lookup_insert_ne, Hp by done. repeat case_decide; try lia; [|done].
    by rewrite lookup_app_l by lia.
Qed.

Lemma placed_str m m' d s :
  placed m m' d (s ++ [0]) → (∀ c, c ∈ s → 0 < c < 256) → 0 < d → d + Z.of_nat (length s) < 2 ^ 32 →
  str_at m' d s.
Proof.
  intros Hp Hc Hd Hr. unfold placed in Hp. rewrite length_app in Hp. simpl in Hp. split.
  - intros i c Hi. pose proof (lookup_lt_Some _ _ _ Hi).
    rewrite Hp, decide_True by lia. replace (Z.to_nat _) with i by lia.
    rewrite lookup_app_l by done. split; [done|]. apply Hc. by eapply list_elem_of_lookup_2.
  - rewrite Hp, decide_True by lia. replace (Z.to_nat _) with (length s) by lia. by rewrite list_lookup_middle.
  - lia.
Qed.

(** A string outside the changed addresses is kept. *)
Lemma placed_keeps m m' d l a s :
  placed m m' d l → str_at m a s →
  a + Z.of_nat (length s) < d ∨ d + Z.of_nat (length l) ≤ a → str_at m' a s.
Proof.
  intros Hp [Hc He Hr] Hd. split; [|by rewrite Hp, decide_False by lia|done].
  intros i c Hi. pose proof (lookup_lt_Some _ _ _ Hi). rewrite Hp, decide_False by lia. by apply Hc.
Qed.

Definition no_overlap (a n b k : Z) : Prop := a + n ≤ b ∨ b + k ≤ a.

Lemma strcpy_spec m d a s o (Q : Z → world bmem → Prop) :
  str_at m a s → block m d (Z.of_nat (length s) + 1) →
  0 ≤ d → d + Z.of_nat (length s) < 2 ^ 32 →
  no_overlap a (Z.of_nat (length s) + 1) d (Z.of_nat (length s) + 1) →
  (∀ m', placed m m' d (s ++ [0]) → Q d (World m' o)) →
  wp (strcpy d a) Q (World m o).
Proof.
  intros Hs Hd Hd0 Hd32 Hap HQ. unfold strcpy. rewrite wp_bind, wp_kget. cbn [wst]. rewrite wp_bind.
  apply (wp_kuntil (λ i w, ∃ m1, w = World m1 o ∧ 0 ≤ i ≤ Z.of_nat (length s) ∧
           placed m m1 d (take (Z.to_nat i) s)) (λ i, length s - Z.to_nat i)%nat).
  { pose proof (str_fuel _ _ _ Hs). unfold scan_fuel. lia. }
  { exists m. split_and!; [done|lia|lia|]. apply placed_nil. }
  intros i w (m1 & -> & Hi & Hp). unfold no_overlap in Hap.
  assert (length (take (Z.to_nat i) s) = Z.to_nat i) as Hlen by (rewrite length_take; lia).
  assert (str_at m1 a s) as Hs1 by (eapply placed_keeps; [done|done|lia]).
  rewrite wp_bind, (wp_cload _ _ _ _ Hs1), (eqb_end _ _ _ Hs1) by done.
  destruct (Hd (d + i)) as (v & Hv & _); [lia|].
  assert (m1 !! (d + i) = Some v) as Hv1 by (rewrite Hp, decide_False by lia; done).
  destruct (Z.eqb_spec i (Z.of_nat (length s))) as [->|Hne].
  - rewrite wp_ret, u32_id, wp_bind, (wp_bstore _ _ v) by (done || lia). kstep. apply HQ.
    rewrite take_ge in Hp by lia. by apply placed_snoc.
  - rewrite (u32_id (d + i)), wp_bind, (wp_bstore _ _ v) by (done || lia). kstep.
    rewrite u32_id by lia. split; [|lia].
    destruct (lookup_lt_is_Some_2 s (Z.to_nat i)) as [c Hc]; [lia|].
    eexists. split_and!; [done|lia|lia|]. replace (Z.to_nat (i + 1)) with (Datatypes.S (Z.to_nat i)) by lia.
    rewrite (take_S_r _ _ _ Hc). replace i with (Z.of_nat (length (take (Z.to_nat i) s))) at 1 by lia.
    unfold chr. erewrite nth_lookup_Some by exact Hc.
    rewrite u8_schar by (apply (sa_char _ _ _ Hs) in Hc; lia). by apply placed_snoc.
Qed.

Lemma strcat_spec m d s1 a s2 o (Q : Z → world bmem → Prop) (e := d + Z.of_nat (length s1)) :
  str_at m d s1 → str_at m a s2 → block m e (Z.of_nat (length s2) + 1) →
  e + Z.of_nat (length s2) < 2 ^ 32 →
  no_overlap a (Z.of_nat (length s2) + 1) e (Z.of_nat (length s2) + 1) →
  (∀ m', placed m m' e (s2 ++ [0]) → Q d (World m' o)) →
  wp (strcat d a) Q (World m o).
Proof.
  intros Hs1 Hs2 Hd Hd32 Hap HQ. pose proof (sa_range _ _ _ Hs1). unfold strcat. rewrite wp_bind.
  apply (strlen_spec _ _ _ _ Hs1). rewrite u32_id by lia. rewrite wp_bind.
  apply (strcpy_spec _ _ _ s2); [done|done|lia|lia|done|]. intros m' Hp. by apply HQ.
Qed.

(** ** strcmp *)

(** The order of the first characters that differ, the terminators included. *)
Fixpoint strcmp_ref (s1 s2 : list Z) : Z :=
  match s1, s2 with
  | [], [] => 0
  | [], y :: _ => if schar y <? 0 then 1 else -1
  | x :: _, [] => if 0 <? schar x then 1 else -1
  | x :: s1, y :: s2 => if x =? y then strcmp_ref s1 s2 else if schar y <? schar x then 1 else -1
  end.

Lemma strcmp_spec m a s1 b s2 o (Q : Z → world bmem → Prop) :
  str_at m a s1 → str_at m b s2 →
  Q (strcmp_ref s1 s2) (World m o) → wp (strcmp a b) Q (World m o).
Proof.
  intros H1 H2 HQ. unfold strcmp. rewrite wp_bind, wp_kget. cbn [wst]. rewrite wp_bind.
  pose proof (sa_range _ _ _ H1). pose proof (sa_range _ _ _ H2).
  apply (wp_kuntil (λ i w, w = World m o ∧
           0 ≤ i ≤ Z.of_nat (length s1) ∧ i ≤ Z.of_nat (length s2) ∧
           strcmp_ref s1 s2 = strcmp_ref (drop (Z.to_nat i) s1) (drop (Z.to_nat i) s2))
           (λ i, length s1 - Z.to_nat i)%nat).
  { pose proof (str_fuel _ _ _ H1). unfold scan_fuel. lia. }
  { split_and!; try done; lia. }
  intros i w (-> & Hi1 & Hi2 & Heq). rewrite Heq in HQ.
  destruct (str_chr _ _ _ H1 i) as [_ Hx]; [lia|]. destruct (str_chr _ _ _ H2 i) as [_ Hy]; [lia|].
  assert (∀ s, 0 ≤ i < Z.of_nat (length s) → drop (Z.to_nat i) s = chr s i :: drop (Z.to_nat (i + 1)) s) as Hdrop.
  { intros s Hi. destruct (lookup_lt_is_Some_2 s (Z.to_nat i)) as [c Hc]; [lia|].
    rewrite (drop_S _ _ _ Hc). unfold chr. erewrite nth_lookup_Some by exact Hc.
    by replace (Z.to_nat (i + 1)) with (Datatypes.S (Z.to_nat i)) by lia. }
  assert (Hend : wp (x ← cload (a + i); y ← cload (b + i);
      mret (if y <? x then 1 else if x =? y then 0 else -1)) (λ r w', r =
        (if schar (chr s2 i) <? schar (chr s1 i) then 1 else
         if chr s1 i =? chr s2 i then 0 else -1) ∧ w' = World m o) (World m o)).
  { rewrite wp_bind, (wp_cload _ _ _ _ H1), wp_bind, (wp_cload _ _ _ _ H2), wp_ret by lia.
    split; [|done]. destruct (Z.eqb_spec (chr s1 i) (chr s2 i)) as [->|Hne]; [by rewrite Z.eqb_refl|].
    rewrite (proj2 (Z.eqb_neq (schar _) _)); [done|]. intros He. by apply schar_inj in He. }
  rewrite wp_bind, (wp_cload _ _ _ _ H1), (eqb_end _ _ _ H1) by lia.
  pose proof (chr_zero _ _ _ H1 i Hi1) as Hz1. pose proof (chr_zero _ _ _ H2 i ltac:(lia)) as Hz2.
  destruct (Z.eqb_spec i (Z.of_nat (length s1))) as [Hi|Hi].
  - rewrite wp_ret. eapply wp_mono; [exact Hend|]. intros r w' [-> ->].
    rewrite (drop_ge s1) in HQ by lia. apply Hz1 in Hi as Hc. rewrite Hc in *.
    change (schar 0) with 0. destruct (decide (i = Z.of_nat (length s2))) as [He|He].
    + rewrite (drop_ge s2) in HQ by lia. apply Hz2 in He as ->. exact HQ.
    + rewrite (Hdrop s2) in HQ by lia. simpl in HQ. assert (chr s2 i ≠ 0) as Hne by (intros ?; apply He; tauto).
      destruct (Z.ltb_spec (schar (chr s2 i)) 0); [done|]. rewrite (proj2 (Z.eqb_neq _ _)) by done. done.
  - rewrite wp_bind, (wp_cload _ _ _ _ H2), wp_ret by lia. rewrite (Hdrop s1) in HQ, Heq by lia.
    destruct (Z.eqb_spec (schar (chr s1 i)) (schar (chr s2 i))) as [He|Hne].
    + apply schar_inj in He; [|done|done]. rewrite u32_id by lia. split; [|lia].
      assert (i ≠ Z.of_nat (length s2)) by (intros ?; apply Hi, Hz1; rewrite He; tauto).
      rewrite (Hdrop s2) in Heq by lia. simpl in Heq. rewrite He, Z.eqb_refl in Heq.
      split_and!; (done || lia).
    + eapply wp_mono; [exact Hend|]. intros r w' [-> ->].
      assert (chr s1 i ≠ chr s2 i) as Hne' by congruence. rewrite (proj2 (Z.eqb_neq (chr s1 i) _)) by done.
      destruct (decide (i = Z.of_nat (length s2))) as [Hi'|Hi'].
      * rewrite (drop_ge s2) in HQ by lia. simpl in HQ. apply Hz2 in Hi' as ->. exact HQ.
      * rewrite (Hdrop s2) in HQ by lia. simpl in HQ. by rewrite (proj2 (Z.eqb_neq (chr s1 i) _)) in HQ by done.
Qed.

(** ** strrchr *)

Lemma strrchr_spec m a s ch o :
  str_at m a s →
  wp (strrchr a ch) (λ r w', w' = World m o ∧
      ((∃ i, 0 ≤ i ≤ Z.of_nat (length s) ∧ schar (chr s i) = ch ∧ r = a + i ∧
             ∀ j, i < j ≤ Z.of_nat (length s) → schar (chr s j) ≠ ch) ∨
       r = 0 ∧ ∀ j, 0 ≤ j ≤ Z.of_nat (length s) → schar (chr s j) ≠ ch)) (World m o).
Proof.
  intros Hs. unfold strrchr. rewrite wp_bind. apply (strlen_spec _ _ _ _ Hs).
  pose proof (sa_range _ _ _ Hs). rewrite u32_id by lia.
  apply (wp_kuntil (λ i w, w = World m o ∧ 0 ≤ i ≤ Z.of_nat (length s) + 1 ∧
           ∀ j, i ≤ j ≤ Z.of_nat (length s) → schar (chr s j) ≠ ch) Z.to_nat); [lia| |].
  { split_and!; [done|lia|lia|]. intros j Hj. lia. }
  intros i w (-> & Hi & Hno). destruct (Z.ltb_spec 0 i).
  - rewrite wp_bind, (wp_cload _ _ _ _ Hs), wp_ret by lia.
    destruct (Z.eqb_spec (schar (chr s (i - 1))) ch) as [He|Hne].
    + rewrite u32_id by lia. split; [done|left]. exists (i - 1). split_and!; try (done || lia).
      intros j Hj. apply Hno. lia.
    + split; [|lia]. split_and!; [done|lia|lia|]. intros j Hj.
      destruct (decide (j = i - 1)) as [->|]; [done|]. apply Hno. lia.
  - rewrite wp_ret. split; [done|right]. split; [done|]. intros j Hj. apply Hno. lia.
Qed.

(** ** atoi *)

Definition is_digit (c : Z) : Prop := 48 ≤ c ≤ 57.

(** The value of a string of digits. *)
Definition dec (ds : list Z) : Z := foldl (λ v c, v * 10 + (c - 48)) 0 ds.

Lemma digit_const c : strchr_const digits c =
  if decide (is_digit c) then Some (c - 48) else if decide (c = 0) then Some 10 else None.
Proof.
  unfold is_digit. destruct (decide (48 ≤ c ≤ 57)) as [Hd|Hd].
  - assert (c = 48 ∨ c = 49 ∨ c = 50 ∨ c = 51 ∨ c = 52 ∨ c = 53 ∨ c = 54 ∨ c = 55 ∨ c = 56 ∨ c = 57)
      as Hc by lia. repeat (destruct Hc as [->|Hc]; [done|]). by subst.
  - unfold digits. cbn [strchr_const].
    repeat match goal with |- context [?k =? c] => destruct (Z.eqb_spec k c); [lia|] end.
    destruct (Z.eqb_spec c 0); simpl; case_decide; (done || lia).
Qed.

Lemma schar_digit c : 0 ≤ c < 256 → is_digit (schar c) → schar c = c.
Proof. unfold is_digit, schar. intros ??. destruct (Z.ltb_spec c 128); lia. Qed.

Lemma dec_snoc ds c : dec (ds ++ [c]) = dec ds * 10 + (c - 48).
Proof. unfold dec. by rewrite foldl_snoc. Qed.

(** The digit loop from the start of [ds], a maximal run of digits. *)
Lemma atoi_digits m a ds rest o fuel (Q : Z → world bmem → Prop) :
  str_at m a (ds ++ rest) → Forall is_digit ds → (∀ c, head rest = Some c → ¬ is_digit (schar c)) →
  (length (ds ++ rest) < fuel)%nat →
  Q (u32 (dec ds)) (World m o) →
  wp (kuntil fuel atoi_digit (a, 0)) Q (World m o).
Proof.
  intros Hs Hds Hrest Hf HQ. pose proof (sa_range _ _ _ Hs) as Hr. rewrite length_app in *.
  apply (wp_kuntil (λ t w, w = World m o ∧ ∃ i : nat, (i ≤ length ds)%nat ∧
           t = (a + Z.of_nat i, u32 (dec (take i ds))))
           (λ t, length ds - Z.to_nat (t.1 - a))%nat).
  { simpl. lia. }
  { split; [done|]. exists 0%nat. split; [lia|]. by rewrite Z.add_0_r. }
  intros t w (-> & i & Hi & ->). unfold atoi_digit.
  rewrite wp_bind, (wp_cload _ _ _ _ Hs) by (rewrite length_app; lia).
  unfold chr. rewrite Nat2Z.id.
  destruct (decide (i = length ds)) as [->|Hne].
  - rewrite take_ge by lia. rewrite app_nth2, Nat.sub_diag by lia.
    destruct rest as [|c rest]; simpl nth; [change (schar 0) with 0; simpl; kstep; done|].
    destruct (sa_char _ _ _ Hs (length ds) c) as [_ Hc]; [by rewrite list_lookup_middle|].
    rewrite schar_zero, (proj2 (Z.eqb_neq _ _)) by lia. rewrite digit_const.
    rewrite decide_False by (apply Hrest; done).
    rewrite decide_False; [by kstep|]. intros He%Z.eqb_eq. rewrite schar_zero in He by lia. lia.
  - destruct (lookup_lt_is_Some_2 ds i) as [c Hc]; [lia|]. rewrite app_nth1 by lia.
    erewrite nth_lookup_Some by exact Hc.
    pose proof (proj1 (Forall_lookup _ _) Hds _ _ Hc) as Hd. unfold is_digit in Hd.
    assert (schar c = c) as -> by (unfold schar; destruct (Z.ltb_spec c 128); lia).
    rewrite (proj2 (Z.eqb_neq _ _)), digit_const, decide_True by (unfold is_digit; lia). rewrite wp_ret.
    simpl. rewrite u32_id by lia. split; [|lia]. split; [done|]. exists (Datatypes.S i). split; [lia|].
    f_equal; [lia|]. rewrite (take_S_r _ _ _ Hc), dec_snoc. unfold u32.
    rewrite Z.add_mod, Z.mul_mod_idemp_l, <- Z.add_mod by lia. done.
Qed.

(** The sign character, if any. *)
Inductive sign_of : list Z → bool → Prop :=
| sign_none : sign_of [] false
| sign_plus : sign_of [43] false
| sign_minus : sign_of [45] true.

Lemma atoi_spec m a sp sg neg ds rest o (Q : Z → world bmem → Prop) :
  str_at m a (sp ++ sg ++ ds ++ rest) →
  Forall (λ c, c = 32 ∨ c = 9) sp → sign_of sg neg → Forall is_digit ds → ds ≠ [] →
  (∀ c, head rest = Some c → ¬ is_digit (schar c)) →
  Q (i32 (if neg then - dec ds else dec ds)) (World m o) → wp (atoi a) Q (World m o).
Proof.
  intros Hs Hsp Hsg Hds Hne Hrest HQ. unfold atoi. rewrite wp_bind, wp_kget. cbn [wst]. rewrite wp_bind.
  pose proof (sa_range _ _ _ Hs) as Hr. pose proof (str_fuel _ _ _ Hs) as Hf. rewrite !length_app in Hr, Hf.
  apply (wp_kuntil (λ p w, w = World m o ∧ ∃ i : nat, (i ≤ length sp)%nat ∧ p = a + Z.of_nat i)
           (λ p, length sp - Z.to_nat (p - a))%nat).
  { unfold scan_fuel. lia. }
  { split; [done|]. exists 0%nat. lia. }
  intros p w (-> & i & Hi & ->).
  rewrite wp_bind, (wp_cload _ _ _ _ Hs), wp_ret by (rewrite !length_app; lia).
  unfold chr. rewrite Nat2Z.id. destruct (decide (i = length sp)) as [->|Hne'].
  2: { destruct (lookup_lt_is_Some_2 sp i) as [c Hc]; [lia|]. rewrite app_nth1 by lia.
       erewrite nth_lookup_Some by exact Hc.
       pose proof (proj1 (Forall_lookup _ _) Hsp _ _ Hc) as Hd. unfold atoi_space.
       assert ((schar c =? 32) || (schar c =? 9) = true) as -> by (destruct Hd as [-> | ->]; done).
       rewrite u32_id by lia. split; [|lia]. split; [done|]. exists (Datatypes.S i). lia. }
  rewrite app_nth2, Nat.sub_diag by lia.
  pose proof (str_tail _ _ _ Hs (Z.of_nat (length sp)) ltac:(rewrite !length_app; lia)) as Ht.
  rewrite Nat2Z.id, drop_app_length in Ht.
  destruct ds as [|d ds]; [done|]. pose proof (proj1 (Forall_cons _ _ _) Hds) as [Hd _].
  unfold is_digit in Hd.
  assert (schar d = d) as Hsd by (unfold schar; destruct (Z.ltb_spec d 128); lia).
  assert (∀ b : bool, Q (i32 (if b then - dec (d :: ds) else dec (d :: ds))) (World m o) →
     ∀ p, str_at m p ((d :: ds) ++ rest) →
     wp (val ← kuntil (scan_fuel m) atoi_digit (p, 0); mret (i32 (if b then - val else val))) Q (World m o)) as Hend.
  { intros b Hb p Hp. rewrite wp_bind. apply (atoi_digits _ _ (d :: ds) rest); try done.
    - pose proof (str_fuel _ _ _ Hp). unfold scan_fuel. lia.
    - rewrite wp_ret. replace (i32 _) with (i32 (if b then - dec (d :: ds) else dec (d :: ds))); [done|].
      unfold i32, u32. destruct b; lia. }
  assert (atoi_space (schar (nth 0 (sg ++ (d :: ds) ++ rest) 0)) = false) as ->.
  { destruct Hsg; simpl; try done. rewrite Hsd. unfold atoi_space. lia. }
  rewrite wp_bind. replace (Z.of_nat (length sp)) with (Z.of_nat (length sp) + 0) by lia.
  rewrite Z.add_assoc. erewrite (wp_cload _ _ _ _ Ht) by lia. rewrite Z.add_0_r. unfold chr. simpl Z.to_nat.
  destruct Hsg; simpl nth; simpl in Hr.
  - rewrite Hsd, (proj2 (Z.eqb_neq d 45)), (proj2 (Z.eqb_neq d 43)) by lia. by apply (Hend false).
  - change (schar 43) with 43. simpl. rewrite (u32_id (_ + 1)) by lia. apply (Hend false); [done|].
    apply (str_tail _ _ _ Ht 1). simpl. lia.
  - change (schar 45) with 45. simpl. rewrite (u32_id (_ + 1)) by lia. apply (Hend true); [done|].
    apply (str_tail _ _ _ Ht 1). simpl. lia.
Qed.

(** ** strtok_r *)

(** The words of a string: its maximal runs of characters that are not
    separators; [cur] is the word being read, reversed. *)
Fixpoint words (seps cur l : list Z) : list (list Z) :=
  match l with
  | [] => match cur with [] => [] | _ => [reverse cur] end
  | c :: l =>
      if decide (c ∈ seps) then
        match cur with [] => words seps [] l | _ => reverse cur :: words seps [] l end
      else words seps (c :: cur) l
  end.

Section strtok.
Context (m : bmem) (p : Z) (seps : list Z) (a : Z) (s : list Z) (o : list bool).
Context (Hp : str_at m p seps) (Hs : str_at m a s).

(** One test of a character against the separators. *)
Lemma wp_strchr_sep i (Q : Z → world bmem → Prop) :
  0 ≤ i < Z.of_nat (length s) →
  (chr s i ∈ seps → ∀ w, w ≠ 0 → Q w (World m o)) → (chr s i ∉ seps → Q 0 (World m o)) →
  wp (strchr p (schar (chr s i))) Q (World m o).
Proof using Hp Hs.
  intros Hi H1 H2. destruct (str_chr _ _ _ Hs i) as [_ Hr]; [lia|].
  pose proof (chr_zero _ _ _ Hs i ltac:(lia)) as Hz.
  pose proof (chr_addr_zero _ _ _ (chr s i) Hp ltac:(lia)) as Haddr.
  apply (strchr_spec _ _ _ _ seps); [done|].
  destruct (decide (chr s i ∈ seps)) as [Hin|Hout].
  - apply H1; [done|]. rewrite Haddr. tauto.
  - rewrite (proj2 Haddr Hout). by apply H2.
Qed.

Lemma drop_chr i :
  0 ≤ i < Z.of_nat (length s) → drop (Z.to_nat i) s = chr s i :: drop (Z.to_nat (i + 1)) s.
Proof using.
  intros Hi. destruct (lookup_lt_is_Some_2 s (Z.to_nat i)) as [c Hc]; [lia|].
  rewrite (drop_S _ _ _ Hc). unfold chr. erewrite nth_lookup_Some by exact Hc.
  by replace (Z.to_nat (i + 1)) with (Datatypes.S (Z.to_nat i)) by lia.
Qed.

(** Skipping the leading separators. *)
Lemma strtok_head (Q : Z → world bmem → Prop) :
  (∀ i, 0 ≤ i ≤ Z.of_nat (length s) → words seps [] s = words seps [] (drop (Z.to_nat i) s) →
     (i < Z.of_nat (length s) → chr s i ∉ seps) → Q (a + i) (World m o)) →
  wp (kuntil (scan_fuel m)
        (λ head, c ← cload head;
                 if c =? 0 then mret (inr head) else
                 w ← strchr p c;
                 mret (if negb (w =? 0) then inl (u32 (head + 1)) else inr head)) a) Q (World m o).
Proof using Hp Hs.
  intros HQ. pose proof (sa_range _ _ _ Hs) as Hr.
  apply (wp_kuntil (λ h w, w = World m o ∧ ∃ i, h = a + i ∧ 0 ≤ i ≤ Z.of_nat (length s) ∧
           words seps [] s = words seps [] (drop (Z.to_nat i) s))
           (λ h, length s - Z.to_nat (h - a))%nat).
  { pose proof (str_fuel _ _ _ Hs). unfold scan_fuel. lia. }
  { split; [done|]. exists 0. split_and!; (done || lia). }
  intros h w (-> & i & -> & Hi & Hw). rewrite wp_bind, (wp_cload _ _ _ _ Hs), (eqb_end _ _ _ Hs) by done.
  destruct (Z.eqb_spec i (Z.of_nat (length s))) as [He|He].
  - rewrite wp_ret. apply HQ; (done || lia).
  - rewrite wp_bind. apply wp_strchr_sep; [lia| |].
    + intros Hin x Hx. rewrite wp_ret, (proj2 (Z.eqb_neq _ _)) by done. simpl. rewrite u32_id by lia.
      split; [|lia]. split; [done|]. exists (i + 1). split_and!; try lia.
      rewrite Hw, drop_chr by lia. simpl. by rewrite decide_True.
    + intros Hout. rewrite wp_ret. simpl. apply HQ; done.
Qed.

(** The word that starts at offset [i]: its end, and the words of the string. *)
Lemma strtok_tail i (Q : Z → world bmem → Prop) :
  0 ≤ i < Z.of_nat (length s) → chr s i ∉ seps →
  (∀ j, i < j ≤ Z.of_nat (length s) →
     words seps [] (drop (Z.to_nat i) s) =
       take (Z.to_nat (j - i)) (drop (Z.to_nat i) s) :: words seps [] (drop (Z.to_nat (j + 1)) s) →
     Q (a + j) (World m o)) →
  wp (kuntil (scan_fuel m)
        (λ tail, c ← cload tail;
                 if c =? 0 then mret (inr tail) else
                 w ← strchr p c;
                 mret (if w =? 0 then inl (u32 (tail + 1)) else inr tail)) (a + i)) Q (World m o).
Proof using Hp Hs.
  intros Hi Hci HQ. pose proof (sa_range _ _ _ Hs) as Hr.
  apply (wp_kuntil (λ t w, w = World m o ∧ ∃ j, t = a + j ∧ i ≤ j ≤ Z.of_nat (length s) ∧
           words seps [] (drop (Z.to_nat i) s) =
           words seps (reverse (take (Z.to_nat (j - i)) (drop (Z.to_nat i) s))) (drop (Z.to_nat j) s))
           (λ t, length s - Z.to_nat (t - a))%nat).
  { pose proof (str_fuel _ _ _ Hs). unfold scan_fuel. lia. }
  { split; [done|]. exists i. split_and!; try lia. by rewrite Z.sub_diag. }
  intros t w (-> & j & -> & Hj & Hw). rewrite wp_bind, (wp_cload _ _ _ _ Hs), (eqb_end _ _ _ Hs) by lia.
  assert (i < j → ∃ c cs, reverse (take (Z.to_nat (j - i)) (drop (Z.to_nat i) s)) = c :: cs) as Hcur.
  { intros Hlt. destruct (reverse _) as [|c cs] eqn:E; [|eauto].
    apply (f_equal length) in E. rewrite length_reverse, length_take, length_drop in E. simpl in E. lia. }
  destruct (Z.eqb_spec j (Z.of_nat (length s))) as [He|He].
  - rewrite wp_ret. apply HQ; [lia|]. rewrite Hw, (drop_ge s (Z.to_nat j)), (drop_ge s (Z.to_nat (j + 1))) by lia. simpl.
    destruct Hcur as (c & cs & E); [lia|]. rewrite E, <- E. by rewrite reverse_involutive.
  - rewrite wp_bind. apply wp_strchr_sep; [lia| |].
    + intros Hin x Hx. rewrite wp_ret, (proj2 (Z.eqb_neq _ _)) by done.
      assert (i < j) by (destruct (decide (i = j)) as [->|]; [done|lia]).
      apply HQ; [lia|]. rewrite Hw, (drop_chr j) by lia. simpl. rewrite decide_True by done.
      destruct Hcur as (c & cs & E); [lia|]. rewrite E, <- E. by rewrite reverse_involutive.
    + intros Hout. rewrite wp_ret. simpl. rewrite u32_id by lia. split; [|lia]. split; [done|].
      exists (j + 1). split_and!; try lia. rewrite Hw, (drop_chr j) by lia. simpl.
      rewrite decide_False by done. f_equal.
      replace (Z.to_nat (j + 1 - i)) with (Datatypes.S (Z.to_nat (j - i))) by lia.
      rewrite (take_S_r _ _ (chr s j)); [by rewrite reverse_snoc|].
      rewrite lookup_drop. replace (Z.to_nat i + Z.to_nat (j - i))%nat with (Z.to_nat j) by lia.
      unfold chr. destruct (lookup_lt_is_Some_2 s (Z.to_nat j)) as [c Hc]; [lia|].
      by erewrite nth_lookup_Some by exact Hc.
Qed.

(** One call: the first word, and a context from which the other words follow. *)
Lemma strtok_step string ctx (Q : Z * Z → world bmem → Prop) :
  (string = a ∨ string = 0 ∧ ctx = a) →
  (words seps [] s = [] → Q (0, 0) (World m o)) →
  (∀ i j, 0 ≤ i < j → j ≤ Z.of_nat (length s) →
     words seps [] s =
       take (Z.to_nat (j - i)) (drop (Z.to_nat i) s) :: words seps [] (drop (Z.to_nat (j + 1)) s) →
     if decide (j = Z.of_nat (length s)) then Q (a + i, 0) (World m o)
     else Q (a + i, a + j + 1) (World (<[a + j := 0]> m) o)) →
  wp (strtok_r string p ctx) Q (World m o).
Proof using Hp Hs.
  intros Hstr HQ0 HQ1. pose proof (sa_range _ _ _ Hs) as Hr. unfold strtok_r.
  replace (if negb (string =? 0) then string else ctx) with a.
  2: { destruct Hstr as [-> |[-> ->]]; simpl; [|done]. by rewrite (proj2 (Z.eqb_neq _ _)) by lia. }
  cbv zeta. rewrite (proj2 (Z.eqb_neq a 0)) by lia. rewrite wp_bind, wp_kget. cbn [wst]. rewrite wp_bind.
  apply strtok_head. intros i Hi Hw Hci.
  rewrite wp_bind, (wp_cload _ _ _ _ Hs), (eqb_end _ _ _ Hs) by done.
  destruct (Z.eqb_spec i (Z.of_nat (length s))) as [He|He].
  { rewrite wp_ret. apply HQ0. by rewrite Hw, drop_ge by lia. }
  rewrite wp_bind. apply strtok_tail; [lia|apply Hci; lia|]. intros j Hj Hw'.
  rewrite wp_bind, (wp_cload _ _ _ _ Hs), (eqb_end _ _ _ Hs) by lia.
  specialize (HQ1 i j ltac:(lia) ltac:(lia) ltac:(congruence)).
  destruct (Z.eqb_spec j (Z.of_nat (length s))); case_decide; try done.
  destruct (str_chr _ _ _ Hs j) as [Hc _]; [lia|].
  rewrite wp_bind, (wp_bstore _ _ _ _ _ _ Hc). kstep. by rewrite u32_id by lia.
Qed.
End strtok.

(** A client that calls [strtok_r] until it answers NULL: the addresses of the
    words. *)
Fixpoint strtok_all (n : nat) (string seps context : Z) : K bmem (list Z) :=
  match n with
  | O => kdiverge
  | Datatypes.S n =>
      '(word, context) ← strtok_r string seps context;
      if word =? 0 then mret [] else
      rest ← strtok_all n 0 seps context;
      mret (word :: rest)
  end.

(** A terminator written in the middle of a string. *)
Lemma str_cut m a s i j :
  str_at m a s → 0 ≤ i < j → j < Z.of_nat (length s) →
  str_at (<[a + j := 0]> m) (a + i) (take (Z.to_nat (j - i)) (drop (Z.to_nat i) s)).
Proof.
  intros Hs Hi Hj. pose proof (sa_range _ _ _ Hs).
  assert (length (take (Z.to_nat (j - i)) (drop (Z.to_nat i) s)) = Z.to_nat (j - i)) as Hlen
    by (rewrite length_take, length_drop; lia). split.
  - intros k c Hk. pose proof (lookup_lt_Some _ _ _ Hk).
    rewrite lookup_take_lt, lookup_drop in Hk by lia. rewrite lookup_insert_ne by lia.
    apply (sa_char _ _ _ Hs) in Hk as [Hk ?]. split; [|done]. rewrite <- Hk. f_equal. lia.
  - rewrite Hlen. replace (a + i + Z.of_nat (Z.to_nat (j - i))) with (a + j) by lia. apply lookup_insert_eq.
  - lia.
Qed.

Lemma str_insert_keeps m a s x v :
  str_at m a s → x < a ∨ a + Z.of_nat (length s) < x → str_at (<[x := v]> m) a s.
Proof.
  intros [Hc He Hr] Hx. split; [|by rewrite lookup_insert_ne by lia|done].
  intros i c Hi. pose proof (lookup_lt_Some _ _ _ Hi). rewrite lookup_insert_ne by lia. by apply Hc.
Qed.

Lemma strtok_all_spec n : ∀ m p seps a s o string ctx (Q : list Z → world bmem → Prop),
  str_at m p seps → str_at m a s →
  no_overlap a (Z.of_nat (length s) + 1) p (Z.of_nat (length seps) + 1) →
  (string = a ∨ string = 0 ∧ ctx = a) → (length s < n)%nat →
  (∀ l m', Forall2 (str_at m') l (words seps [] s) →
     (∀ x, x < a ∨ a + Z.of_nat (length s) ≤ x → m' !! x = m !! x) → Q l (World m' o)) →
  wp (strtok_all n string p ctx) Q (World m o).
Proof.
  induction n as [|n IH]; intros m p seps a s o string ctx Q Hp Hs Hov Hstr Hn HQ; [lia|].
  pose proof (sa_range _ _ _ Hs) as Hr. simpl. rewrite wp_bind.
  apply (strtok_step _ _ seps a s); [done|done|done| |].
  { intros Hw. simpl. kstep. rewrite Hw in HQ. by apply HQ; [constructor|]. }
  intros i j Hi Hj Hw. case_decide as He.
  - rewrite (proj2 (Z.eqb_neq _ _)) by lia. destruct n as [|n]; [lia|]. rewrite wp_bind.
    simpl. unfold strtok_r. simpl. kstep. rewrite Hw in HQ. apply HQ; [|done].
    rewrite (drop_ge s (Z.to_nat (j + 1))) by lia. simpl. constructor; [|constructor].
    rewrite take_ge by (rewrite length_drop; lia). apply str_tail; [done|lia].
  - rewrite (proj2 (Z.eqb_neq _ _)) by lia. rewrite wp_bind. unfold no_overlap in Hov.
    pose proof (str_tail _ _ _ Hs (j + 1) ltac:(lia)) as Ht. rewrite Z.add_assoc in Ht.
    eapply (IH _ p seps (a + j + 1) (drop (Z.to_nat (j + 1)) s)).
    + apply str_insert_keeps; [done|lia].
    + apply str_insert_keeps; [done|lia].
    + rewrite length_drop. unfold no_overlap. lia.
    + by right.
    + rewrite length_drop. lia.
    + intros l m' Hl Hkeep. kstep. rewrite Hw in HQ. rewrite length_drop in Hkeep. apply HQ.
      * constructor; [|done]. pose proof (str_cut _ _ _ i j Hs ltac:(lia) ltac:(lia)) as Hcut.
        destruct Hcut as [Hc He' Hr'].
        assert (length (take (Z.to_nat (j - i)) (drop (Z.to_nat i) s)) = Z.to_nat (j - i)) as Hlen
          by (rewrite length_take, length_drop; lia).
        split; [|by rewrite Hkeep by lia|done]. intros k c Hk. pose proof (lookup_lt_Some _ _ _ Hk).
        rewrite Hkeep by lia. by apply Hc.
      * intros x Hx. rewrite Hkeep by lia. by rewrite lookup_insert_ne by lia.
Qed.

(** ** Theorems *)

(** Dictionary order. *)
Inductive before : list Z → list Z → Prop :=
| before_end y s2 : before [] (y :: s2)
| before_char x y s1 s2 : x < y → before (x :: s1) (y :: s2)
| before_next x s1 s2 : before s1 s2 → before (x :: s1) (x :: s2).

Lemma strcmp_ref_order s1 : ∀ s2,
  Forall (λ c, 0 < c < 128) s1 → Forall (λ c, 0 < c < 128) s2 →
  s1 = s2 ∧ strcmp_ref s1 s2 = 0 ∨ before s1 s2 ∧ strcmp_ref s1 s2 = -1 ∨
  before s2 s1 ∧ strcmp_ref s1 s2 = 1.
Proof.
  assert (∀ c, 0 < c < 128 → schar c = c) as Hch
    by (intros c Hc; unfold schar; destruct (Z.ltb_spec c 128); lia).
  induction s1 as [|x s1 IH]; intros [|y s2] H1 H2; simpl.
  - by left.
  - apply Forall_cons in H2 as [Hy _]. rewrite Hch, (proj2 (Z.ltb_ge _ _)) by lia.
    right; left. split; [constructor|done].
  - apply Forall_cons in H1 as [Hx _]. rewrite Hch, (proj2 (Z.ltb_lt _ _)) by lia.
    right; right. split; [constructor|done].
  - apply Forall_cons in H1 as [Hx H1]. apply Forall_cons in H2 as [Hy H2].
    destruct (Z.eqb_spec x y) as [<-|Hne].
    + destruct (IH s2 H1 H2) as [[-> ->]|[[? ->]|[? ->]]]; [by left|right; left|right; right];
        (split; [by constructor|done]).
    + rewrite !Hch by done. destruct (Z.ltb_spec y x); [right; right|right; left];
        (split; [constructor; lia|done]).
Qed.

(** On strings of 7-bit characters [strcmp] answers 0 for equal strings, -1
    if the first is before the second in dictionary order and 1 if it is after
    it; it does not change memory. *)
Theorem strcmp_dictionary_order m a s1 b s2 o :
  str_at m a s1 → str_at m b s2 → Forall (λ c, 0 < c < 128) s1 → Forall (λ c, 0 < c < 128) s2 →
  wp (strcmp a b) (λ r w', w' = World m o ∧
      (s1 = s2 ∧ r = 0 ∨ before s1 s2 ∧ r = -1 ∨ before s2 s1 ∧ r = 1)) (World m o).
Proof.
  intros H1 H2 Hs1 Hs2. apply (strcmp_spec _ _ s1 _ s2); [done|done|]. split; [done|].
  by apply strcmp_ref_order.
Qed.

(** [strcat] leaves at its destination the concatenation of the two strings,
    keeps the source, and changes nothing outside the bytes behind the first
    string. *)
Theorem strcat_concatenates m d s1 a s2 o :
  str_at m d s1 → str_at m a s2 →
  block m (d + Z.of_nat (length s1)) (Z.of_nat (length s2) + 1) →
  d + Z.of_nat (length s1) + Z.of_nat (length s2) < 2 ^ 32 →
  no_overlap a (Z.of_nat (length s2) + 1) d (Z.of_nat (length s1) + Z.of_nat (length s2) + 1) →
  wp (strcat d a) (λ r w', r = d ∧ str_at (wst w') d (s1 ++ s2) ∧ str_at (wst w') a s2 ∧
      (∀ x, ¬ (d + Z.of_nat (length s1) ≤ x ≤ d + Z.of_nat (length s1) + Z.of_nat (length s2)) →
         wst w' !! x = m !! x)) (World m o).
Proof.
  intros H1 H2 Hb H32 Hov. unfold no_overlap in Hov. pose proof (sa_range _ _ _ H1).
  apply (strcat_spec _ _ s1 _ s2); try done; [unfold no_overlap; lia|]. intros m' Hp. simpl.
  assert (length (s2 ++ [0]) = Datatypes.S (length s2)) as Hlen by (rewrite length_app; simpl; lia).
  split_and!; [done| |by eapply placed_keeps; [done|done|lia]|].
  - pose proof (placed_str _ _ _ _ Hp (str_bytes _ _ _ H2) ltac:(lia) ltac:(lia)) as [Hc He Hr].
    split.
    + intros i c Hi. apply lookup_app_Some in Hi as [Hi|[Hge Hi]].
      * pose proof (lookup_lt_Some _ _ _ Hi). rewrite Hp, decide_False by lia. by apply (sa_char _ _ _ H1).
      * destruct (Hc _ _ Hi) as [Hc' ?]. split; [|done]. rewrite <- Hc'. f_equal. lia.
    + rewrite length_app, <- He. f_equal. lia.
    + rewrite length_app. lia.
  - intros x Hx. rewrite Hp, decide_False by lia. done.
Qed.

(** C33: Calling [strtok_r] with a string and then with NULL until it answers
    NULL visits the words of the string in order, each left as a string of its
    own in memory: the maximal runs of characters that are not separators.
    Nothing outside the string changes. *)
Theorem strtok_r_visits_words m p seps a s o :
  str_at m p seps → str_at m a s →
  no_overlap a (Z.of_nat (length s) + 1) p (Z.of_nat (length seps) + 1) →
  wp (strtok_all (Datatypes.S (length s)) a p 0) (λ l w',
      Forall2 (str_at (wst w')) l (words seps [] s) ∧
      (∀ x, x < a ∨ a + Z.of_nat (length s) ≤ x → wst w' !! x = m !! x)) (World m o).
Proof.
  intros Hp Hs Hov. apply (strtok_all_spec _ _ _ seps a s); [done|done|done|by left|lia|].
  intros l m' Hl Hkeep. by split.
Qed.

(** ** Witnesses *)

(** "ls -l" at 16, " " at 64. *)
Definition ex_text : bmem := ex_bytes 16 [108; 115; 32; 45; 108; 0] ∪ ex_bytes 64 [32; 0].

Lemma ex_text_at : str_at ex_text 16 [108; 115; 32; 45; 108] ∧ str_at ex_text 64 [32].
Proof.
  split; (split; [|reflexivity|simpl; lia]).
  - intros [|[|[|[|[|i]]]]] c [= <-]; (split; [reflexivity|lia]).
  - intros [|i] c [= <-]. split; [reflexivity|lia].
Qed.

Lemma strcmp_dictionary_order_witness :
  wp (strcmp 16 64) (λ r w', w' = World ex_text [] ∧
      ([108; 115; 32; 45; 108] = [32] ∧ r = 0 ∨ before [108; 115; 32; 45; 108] [32] ∧ r = -1 ∨
       before [32] [108; 115; 32; 45; 108] ∧ r = 1)) (World ex_text []).
Proof.
  destruct ex_text_at as [H1 H2].
  apply (strcmp_dictionary_order ex_text 16 _ 64 _ [] H1 H2); repeat constructor; lia.
Defined.

Lemma strtok_r_visits_words_witness :
  words [32] [] [108; 115; 32; 45; 108] = [[108; 115]; [45; 108]] ∧
  wp (strtok_all 6 16 64 0) (λ l w', Forall2 (str_at (wst w')) l [[108; 115]; [45; 108]] ∧
      (∀ x, x < 16 ∨ 16 + 5 ≤ x → wst w' !! x = ex_text !! x)) (World ex_text []).
Proof.
  split; [reflexivity|]. destruct ex_text_at as [H1 H2].
  apply (strtok_r_visits_words ex_text 64 [32] 16 [108; 115; 32; 45; 108] [] H2 H1). left. simpl. lia.
Defined.

(** "a" at 16 with room behind it, "b" at 32. *)
Definition ex_room : bmem := ex_bytes 16 [97; 0; 7; 7] ∪ ex_bytes 32 [98; 0].

Lemma strcat_concatenates_witness :
  wp (strcat 16 32) (λ r w', r = 16 ∧ str_at (wst w') 16 [97; 98] ∧ str_at (wst w') 32 [98] ∧
      (∀ x, ¬ (17 ≤ x ≤ 18) → wst w' !! x = ex_room !! x)) (World ex_room []).
Proof.
  apply (strcat_concatenates ex_room 16 [97] 32 [98] []); simpl; try lia.
  - split; [|reflexivity|simpl; lia]. intros [|i] c [= <-]. split; [reflexivity|lia].
  - split; [|reflexivity|simpl; lia]. intros [|i] c [= <-]. split; [reflexivity|lia].
  - intros x Hx. assert (x = 17 ∨ x = 18) as [-> | ->] by lia.
    + exists 0. split; [reflexivity|lia].
    + exists 7. split; [reflexivity|lia].
  - right. simpl. lia.
Defined.
