(* ===== verification/Printf.v ===== *)
(** * Formatted output

    The guts of [printf] (lib/libc/__printf.c), shared by the C library and the
    kernel, and [snprintf] (lib/libc/snprintf.c).  The function that receives
    the text is a parameter, as in the code. *)

From S2P Require Import Prelude LibStr.

(** ** State *)

(** An argument of a variadic call: a 32-bit word (int, long, unsigned or
    pointer) or a string, which may be NULL. *)
Inductive varg :=
| ArgWord (z : Z)
| ArgStr (s : option (list Z)).

Inductive intsize := INTSZ | LONGSZ.

(** The members of [PF] that describe the current %-field. *)
Record field := Field {
  in_pct : Z;
  size : intsize;
  num : Z;
  sign : Z;
  spacing : Z;
  rightspc : Z;
  fillchar : Z;
  base : Z;
  baseprefix : Z;
  altformat : Z
}.

Record PF (C : Type) := Pf {
  clientdata : C;
  ap : list varg;
  charcount : Z;
  fld : field
}.

Arguments Pf {C} _ _ _ _.
Arguments clientdata {C} _.
Arguments ap {C} _.
Arguments charcount {C} _.
Arguments fld {C} _.

(** The values [__pf_endfield] sets. *)
Definition field0 : field := Field 0 INTSZ 0 0 0 0 32 0 0 0.

(** "#-ql0123456789" and "doupx" *)
Definition MODIFIERS : list Z := [35; 45; 113; 108; 48; 49; 50; 51; 52; 53; 54; 55; 56; 57].
Definition INTTYPES : list Z := [100; 111; 117; 112; 120].

(** "0123456789abcdef" *)
Definition hexdigits : list Z := digits ++ [97; 98; 99; 100; 101; 102].

Definition NUMBER_BUF_SIZE : Z := 4 * 8 / 3 + 2.

(** "(null)" *)
Definition null_text : list Z := [40; 110; 117; 108; 108; 41].

Section printf.
Context {C : Type} (sendfunc : list Z → K C unit).

Definition setfld (f : field → field) : K (PF C) unit :=
  pf ← kget; kput (Pf (clientdata pf) (ap pf) (charcount pf) (f (fld pf))).

Definition getfld {A} (f : field → A) : K (PF C) A := pf ← kget; mret (f (fld pf)).

Definition va_arg : K (PF C) varg :=
  pf ← kget;
  match ap pf with
  | [] => kundef
  | x :: l => kput (Pf (clientdata pf) l (charcount pf) (fld pf));; mret x
  end.

(** ** Functions *)

Definition __pf_print (txt : list Z) : K (PF C) unit :=
  zoom clientdata (λ c pf, Pf c (ap pf) (charcount pf) (fld pf)) (sendfunc txt);;
  pf ← kget;
  kput (Pf (clientdata pf) (ap pf) (i32 (charcount pf + Z.of_nat (length txt))) (fld pf)).

Definition __pf_endfield : K (PF C) unit := setfld (λ _, field0).

Definition set_spacing (v : Z) (f : field) : field :=
  Field (in_pct f) (size f) (num f) (sign f) v (rightspc f) (fillchar f) (base f)
    (baseprefix f) (altformat f).

Definition __pf_modifier (ch : Z) : K (PF C) unit :=
  if ch =? 35 then
    setfld (λ f, Field (in_pct f) (size f) (num f) (sign f) (spacing f) (rightspc f) (fillchar f)
                   (base f) (baseprefix f) 1)
  else if ch =? 45 then
    setfld (λ f, Field (in_pct f) (size f) (num f) (sign f) (spacing f) 1 (fillchar f)
                   (base f) (baseprefix f) (altformat f))
  else if (ch =? 108) || (ch =? 113) then
    setfld (λ f, Field (in_pct f) LONGSZ (num f) (sign f) (spacing f) (rightspc f) (fillchar f)
                   (base f) (baseprefix f) (altformat f))
  else if ch =? 48 then
    spc ← getfld spacing;
    if 0 <? spc then setfld (set_spacing (i32 (spc * 10)))
    else setfld (λ f, Field (in_pct f) (size f) (num f) (sign f) (spacing f) (rightspc f) 48
                        (base f) (baseprefix f) (altformat f))
  else
    kassert ((48 <? ch) && (ch <=? 57));;
    spc ← getfld spacing;
    setfld (set_spacing (i32 (spc * 10 + (ch - 48)))).

Definition set_num (n s : Z) (f : field) : field :=
  Field (in_pct f) (size f) n s (spacing f) (rightspc f) (fillchar f) (base f) (baseprefix f)
    (altformat f).

(** [int], [long] and pointers have 32 bits, so that the sizes differ in name
    only. *)
Definition __pf_getnum (ch : Z) : K (PF C) unit :=
  a ← va_arg;
  match a with
  | ArgStr _ => kundef
  | ArgWord z =>
      sgn ← getfld sign;
      if ch =? 112 then setfld (set_num (u32 z) sgn)
      else if ch =? 100 then
        let signednum := i32 z in
        if signednum <? 0 then setfld (set_num (u32 (- signednum)) (-1))
        else setfld (set_num (u32 signednum) sgn)
      else setfld (set_num (u32 z) sgn)
  end.

Definition set_base (b p : Z) (f : field) : field :=
  Field (in_pct f) (size f) (num f) (sign f) (spacing f) (rightspc f) (fillchar f) b p
    (altformat f).

Definition __pf_setbase (ch : Z) : K (PF C) unit :=
  f ← getfld id;
  let b := if (ch =? 100) || (ch =? 117) then 10
           else if (ch =? 120) || (ch =? 112) then 16
           else if ch =? 111 then 8 else base f in
  let p := if negb (altformat f =? 0) || (ch =? 112) then 1 else baseprefix f in
  setfld (set_base b p).

Definition __pf_fill (spc : Z) : K (PF C) unit :=
  f ← getfld fillchar;
  kfold (Z.to_nat spc) 0 (λ _ _, __pf_print [u8 f]) tt.

Definition __pf_printstuff (prefix prefix2 stuff : list Z) : K (PF C) unit :=
  let len := i32 (Z.of_nat (length prefix) + Z.of_nat (length prefix2) + Z.of_nat (length stuff)) in
  f ← getfld id;
  let spc := if len <? spacing f then spacing f - len else 0 in
  (if (0 <? spc) && (rightspc f =? 0) && negb (fillchar f =? 48) then __pf_fill spc else mret tt);;
  __pf_print prefix;;
  __pf_print prefix2;;
  (if (0 <? spc) && (rightspc f =? 0) && (fillchar f =? 48) then __pf_fill spc else mret tt);;
  __pf_print stuff;;
  (if (0 <? spc) && negb (rightspc f =? 0) then __pf_fill spc else mret tt).

(** One digit: the buffer, the position and the rest of the number; at the end
    the buffer and the position of the text. *)
Definition printnum_digit (b : Z) (t : list Z * Z * Z) : K (PF C) (list Z * Z * Z + list Z * Z) :=
  let '(buf, x, xnum) := t in
  if b =? 0 then kundef else
  d ← kof (lget hexdigits (xnum mod b));
  buf ← kof (lset buf x d);
  let x := x - 1 in
  let xnum := xnum / b in
  mret (if 0 <? xnum then inl (buf, x, xnum) else inr (buf, x + 1)).

(** The contents of a local array are indeterminate; here they are zero, and are
    not read.  The number of rounds is bounded by the size of the buffer. *)
Definition __pf_printnum : K (PF C) unit :=
  f ← getfld id;
  let buf := replicate (Z.to_nat NUMBER_BUF_SIZE) 0 in
  let x := NUMBER_BUF_SIZE - 1 in
  buf ← kof (lset buf x 0);
  let x := x - 1 in
  '(buf, x) ← kuntil (Z.to_nat NUMBER_BUF_SIZE) (printnum_digit (base f)) (buf, x, num f);
  let bprefix := if negb (baseprefix f =? 0) && (base f =? 16) then [48; 120]
                 else if negb (baseprefix f =? 0) && (base f =? 8) then [48] else [] in
  let sprefix := if negb (sign f =? 0) then [45] else [] in
  __pf_printstuff sprefix bprefix (cstr (drop (Z.to_nat x) buf)).

Definition is_Some_b {A} (o : option A) : bool := match o with Some _ => true | None => false end.

Definition __pf_send (ch : Z) : K (PF C) unit :=
  kassert (negb (ch =? 0));;
  pct ← getfld in_pct;
  if (pct =? 0) && negb (ch =? 37) then __pf_print [u8 ch]
  else if pct =? 0 then
    setfld (λ f, Field 1 (size f) (num f) (sign f) (spacing f) (rightspc f) (fillchar f)
                   (base f) (baseprefix f) (altformat f))
  else if is_Some_b (strchr_const MODIFIERS ch) then __pf_modifier ch
  else if is_Some_b (strchr_const INTTYPES ch) then
    __pf_getnum ch;; __pf_setbase ch;; __pf_printnum;; __pf_endfield
  else if ch =? 115 then
    a ← va_arg;
    match a with
    | ArgWord _ => kundef
    | ArgStr s =>
        __pf_printstuff [] [] (match s with None => null_text | Some s => s end);;
        __pf_endfield
    end
  else
    x ← (if ch =? 99 then
           a ← va_arg;
           match a with ArgWord z => mret (u8 z) | ArgStr _ => kundef end
         else mret (u8 ch));
    __pf_printstuff [] [] (cstr [x; 0]);;
    __pf_endfield.

(** The characters of the format up to its terminator. *)
Fixpoint pf_chars (format : list Z) : K (PF C) unit :=
  match format with
  | [] => mret tt
  | c :: format => __pf_send (schar c);; pf_chars format
  end.

(** Returns the count and the final state of the client. *)
Definition __vprintf (format : list Z) (args : list varg) : K C Z :=
  zoom (λ c, Pf c args 0 field0) (λ pf _, clientdata pf)
    (pf_chars format;; pf ← kget; mret (charcount pf)).

End printf.

(** ** snprintf *)

(** The buffer of the caller, and the members of [SNP]. *)
Record SNP := Snp { buf : list Z; buflen : Z; bufpos : Z }.

Definition __snprintf_send (data : list Z) : K SNP unit :=
  kfold (length data) 0 (λ i _,
    snp ← kget;
    if bufpos snp <? buflen snp then
      c ← kof (lget data i);
      b ← kof (lset (buf snp) (bufpos snp) c);
      kput (Snp b (buflen snp) (u32 (bufpos snp + 1)))
    else mret tt) tt.

(** Returns the count; the state is the caller's buffer. *)
Definition vsnprintf (len : Z) (fmt : list Z) (args : list varg) : K (list Z) Z :=
  '(chars, pos) ← zoom (λ b, Snp b (if len =? 0 then 0 else len - 1) 0) (λ snp _, buf snp)
    (chars ← __vprintf __snprintf_send fmt args; snp ← kget; mret (chars, bufpos snp));
  (if 0 <? len then
     b ← kget; b ← kof (lset b pos 0); kput b
   else mret tt);;
  mret chars.
