(* ===== verification/PrintfSpec.v ===== *)
(** * What printf prints

    A format is a sequence of literal characters and conversions with their
    flags; the text of a conversion is the text of its argument, padded.  The
    lemmas show that lib/libc/__printf.c, which goes through the format one
    character at a time, sends that text, whatever function receives it. *)

From S2P Require Import Prelude LibStr Printf.

#[local] Ltac Zify.zify_post_hook ::= Z.div_mod_to_equations.

(** ** Formats *)

Record flags := Flags { width : Z; left_align : bool; zero_fill : bool; alt : bool }.

Inductive item :=
| Lit (c : Z)
| Conv (f : flags) (c : Z).

Definition no_flags : flags := Flags 0 false false false.

Definition is_modifier (c : Z) : bool :=
  (c =? 35) || (c =? 45) || (c =? 113) || (c =? 108) || ((48 <=? c) && (c <=? 57)).

Definition add_flag (f : flags) (c : Z) : flags :=
  if c =? 35 then Flags (width f) (left_align f) (zero_fill f) true
  else if c =? 45 then Flags (width f) true (zero_fill f) (alt f)
  else if (c =? 108) || (c =? 113) then f
  else if (c =? 48) && (width f <=? 0) then Flags (width f) (left_align f) true (alt f)
  else Flags (i32 (width f * 10 + (c - 48))) (left_align f) (zero_fill f) (alt f).

(** A conversion that the format does not finish prints nothing. *)
Fixpoint parse (cur : option flags) (l : list Z) : list item :=
  match l, cur with
  | [], _ => []
  | c :: l, None => if c =? 37 then parse (Some no_flags) l else Lit c :: parse None l
  | c :: l, Some f => if is_modifier c then parse (Some (add_flag f c)) l else Conv f c :: parse None l
  end.

(** ** Texts *)

Definition digit_char (d : Z) : Z := if d <? 10 then 48 + d else 87 + d.

(** The digits of [n] in base [b] in front of [acc]. *)
Fixpoint num_acc (k : nat) (b n : Z) (acc : list Z) : list Z :=
  match k with
  | O => acc
  | S k =>
      if 0 <? n / b then num_acc k b (n / b) (digit_char (n mod b) :: acc)
      else digit_char (n mod b) :: acc
  end.

(** A 32-bit number has no more than eleven digits in base 8 or above. *)
Definition num_text (b n : Z) : list Z := num_acc 11 b n [].

(** A text with its sign and base prefix in a field: zeros go behind the
    prefixes, spaces in front of them. *)
Definition pad (f : flags) (prefix body : list Z) : list Z :=
  let n := Z.to_nat (width f - Z.of_nat (length prefix + length body)) in
  let fill := if zero_fill f then 48 else 32 in
  if left_align f then prefix ++ body ++ replicate n fill
  else if zero_fill f then prefix ++ replicate n fill ++ body
  else replicate n fill ++ prefix ++ body.

Definition conv_base (c : Z) : Z :=
  if (c =? 100) || (c =? 117) then 10 else if (c =? 120) || (c =? 112) then 16 else 8.

Definition base_prefix (f : flags) (c : Z) : list Z :=
  if alt f || (c =? 112) then
    if conv_base c =? 16 then [48; 120] else if conv_base c =? 8 then [48] else []
  else [].

Definition is_inttype (c : Z) : bool :=
  (c =? 100) || (c =? 111) || (c =? 117) || (c =? 112) || (c =? 120).

Definition num_item (f : flags) (c z : Z) : list Z :=
  let neg := (c =? 100) && (i32 z <? 0) in
  pad f ((if neg then [45] else []) ++ base_prefix f c)
    (num_text (conv_base c) (if neg then - i32 z else u32 z)).

(** The text of an item and the arguments that are left. *)
Definition render_item (it : item) (args : list varg) : option (list Z * list varg) :=
  match it with
  | Lit c => Some ([c], args)
  | Conv f c =>
      if is_inttype c then
        match args with ArgWord z :: args => Some (num_item f c z, args) | _ => None end
      else if c =? 115 then
        match args with
        | ArgStr s :: args =>
            Some (pad f [] (match s with None => null_text | Some s => s end), args)
        | _ => None
        end
      else if c =? 99 then
        match args with ArgWord z :: args => Some (pad f [] (cstr [u8 z]), args) | _ => None end
      else Some (pad f [] [c], args)
  end.

Fixpoint render (its : list item) (args : list varg) : option (list Z) :=
  match its with
  | [] => Some []
  | it :: its => '(t, args) ← render_item it args; l ← render its args; Some (t ++ l)
  end.

(** The text of a whole format, if its arguments have the right types. *)
Definition format_text (fmt : list Z) (args : list varg) : option (list Z) :=
  render (parse None fmt) args.

(** ** Digits *)

Lemma digit_lookup d : 0 ≤ d < 16 → lget hexdigits d = Some (digit_char d).
Proof.
  intros Hd.
  assert (d = 0 ∨ d = 1 ∨ d = 2 ∨ d = 3 ∨ d = 4 ∨ d = 5 ∨ d = 6 ∨ d = 7 ∨ d = 8 ∨ d = 9 ∨
          d = 10 ∨ d = 11 ∨ d = 12 ∨ d = 13 ∨ d = 14 ∨ d = 15) as H by lia.
  repeat (destruct H as [->|H]; [done|]). by subst.
Qed.

Lemma digit_nonzero d : 0 ≤ d < 16 → 0 < digit_char d < 256.
Proof. unfold digit_char. intros. destruct (Z.ltb_spec d 10); lia. Qed.

Lemma num_acc_nonzero k b n acc :
  0 < b ≤ 16 → 0 ≤ n → Forall (λ c, 0 < c < 256) acc → Forall (λ c, 0 < c < 256) (num_acc k b n acc).
Proof.
  intros Hb. revert n acc. induction k as [|k IH]; intros n acc Hn Hacc; simpl; [done|].
  assert (Forall (λ c, 0 < c < 256) (digit_char (n mod b) :: acc)).
  { constructor; [|done]. apply digit_nonzero. pose proof (Z.mod_pos_bound n b). lia. }
  destruct (0 <? n / b); [|done]. apply IH; [|done]. apply Z.div_pos; lia.
Qed.

Lemma cstr_app l r : Forall (λ c, 0 < c < 256) l → cstr (l ++ 0 :: r) = l.
Proof.
  induction 1 as [|c l Hc Hl IH]; simpl; [done|]. rewrite (proj2 (Z.eqb_neq _ _)) by lia. by rewrite IH.
Qed.

(** The digits are those of the number: read back in base 10 they give it. *)
Lemma num_acc_dec k n acc :
  (0 < k)%nat → 0 ≤ n < 10 ^ Z.of_nat k →
  ∃ ds, num_acc k 10 n acc = ds ++ acc ∧ Forall is_digit ds ∧ dec ds = n ∧ ds ≠ [].
Proof.
  revert n acc. induction k as [|k IH]; intros n acc Hk Hn; [lia|]. simpl num_acc.
  assert (digit_char (n mod 10) = 48 + n mod 10) as ->
    by (unfold digit_char; destruct (Z.ltb_spec (n mod 10) 10); lia).
  destruct (Z.ltb_spec 0 (n / 10)) as [Hd|Hd].
  - rewrite Nat2Z.inj_succ, Z.pow_succ_r in Hn by lia.
    destruct k as [|k]; [simpl in Hn; lia|].
    destruct (IH (n / 10) (48 + n mod 10 :: acc)) as (ds & -> & Hds & Hv & Hne); [lia|lia|].
    exists (ds ++ [48 + n mod 10]). rewrite <- app_assoc. split_and!; [done| | |by destruct ds].
    + apply Forall_app. split; [done|]. repeat constructor; lia.
    + rewrite dec_snoc, Hv. lia.
  - exists [48 + n mod 10]. split_and!; [done| |unfold dec; simpl; lia|done].
    repeat constructor; lia.
Qed.

Lemma length_num_acc k b n acc : (length (num_acc k b n acc) ≤ k + length acc)%nat.
Proof.
  revert n acc. induction k as [|k IH]; intros n acc; simpl; [done|].
  destruct (0 <? n / b); simpl; [|lia]. etrans; [apply IH|]. simpl. lia.
Qed.

(** More room than the number has digits makes no difference. *)
Lemma num_acc_fuel k b n acc :
  (0 < k)%nat → 1 < b → 0 ≤ n < b ^ Z.of_nat k → num_acc (S k) b n acc = num_acc k b n acc.
Proof.
  intros Hk Hb. revert n acc. induction k as [|k IH]; intros n acc Hn; [lia|].
  change (num_acc (S (S k)) b n acc) with
    (if 0 <? n / b then num_acc (S k) b (n / b) (digit_char (n mod b) :: acc) else digit_char (n mod b) :: acc).
  change (num_acc (S k) b n acc) with
    (if 0 <? n / b then num_acc k b (n / b) (digit_char (n mod b) :: acc) else digit_char (n mod b) :: acc).
  destruct (Z.ltb_spec 0 (n / b)) as [Hd|Hd]; [|done].
  assert (0 ≤ n / b < b ^ Z.of_nat k) as Hn'.
  { split; [lia|]. apply Z.div_lt_upper_bound; [lia|].
    rewrite Nat2Z.inj_succ, Z.pow_succ_r in Hn by lia. lia. }
  destruct k as [|k]; [simpl in Hn'; lia|]. apply IH; [lia|done].
Qed.

(** ** Characters of the format *)

Lemma schar_eqb c k : 0 < c < 256 → 0 < k < 128 → (schar c =? k) = (c =? k).
Proof. intros. unfold schar. destruct (Z.ltb_spec c 128); lia. Qed.

Lemma strchr_const_exists l ch :
  is_Some_b (strchr_const l ch) = existsb (λ k, ch =? k) l || (ch =? 0).
Proof.
  induction l as [|c l IH]; simpl; [by destruct (ch =? 0)|]. rewrite (Z.eqb_sym c ch).
  destruct (ch =? c); simpl; [done|]. rewrite <- IH. by destruct (strchr_const l ch).
Qed.

Lemma modifier_char c : 0 < c < 256 → is_Some_b (strchr_const MODIFIERS (schar c)) = is_modifier c.
Proof.
  intros Hc. rewrite strchr_const_exists, schar_zero by lia. simpl.
  rewrite !schar_eqb by lia. unfold is_modifier. lia.
Qed.

Lemma inttype_char c : 0 < c < 256 → is_Some_b (strchr_const INTTYPES (schar c)) = is_inttype c.
Proof.
  intros Hc. rewrite strchr_const_exists, schar_zero by lia. simpl.
  rewrite !schar_eqb by lia. unfold is_inttype. lia.
Qed.

Lemma schar_small c : 0 ≤ c < 128 → schar c = c.
Proof. intros. unfold schar. by rewrite (proj2 (Z.ltb_lt _ _)) by lia. Qed.

Lemma modifier_small c : is_modifier c = true → 0 ≤ c < 128.
Proof. unfold is_modifier. lia. Qed.

Lemma inttype_small c : is_inttype c = true → 0 ≤ c < 128.
Proof. unfold is_inttype. lia. Qed.

(** String arguments have lengths that fit in an [int]. *)
Definition short_arg (a : varg) : Prop :=
  match a with ArgStr (Some s) => Z.of_nat (length s) < 2 ^ 31 | _ => True end.

Lemma render_item_short it args txt args' :
  render_item it args = Some (txt, args') → Forall short_arg args → Forall short_arg args'.
Proof.
  intros Hr Hsh. destruct it as [c|f c]; simpl in Hr; [by simplify_eq|].
  repeat case_match; simplify_eq; try done; by apply Forall_cons in Hsh as [_ Hsh].
Qed.

(** ** The machine *)

Section machine.
Context {C : Type} (sendfunc : list Z → K C unit).

(** [R t c]: the client state after the text [t] was sent. *)
Context (R : list Z → C → Prop).
Context (Hsend : ∀ t c l o, R t c →
  wp (sendfunc l) (λ _ w', R (t ++ l) (wst w') ∧ wmem w' = o) (World c o)).
Context (o : list bool).

(** The text sent so far, the arguments left and the current field. *)
Definition sent (t : list Z) (args : list varg) (f : field) (w : world (PF C)) : Prop :=
  ∃ c, w = World (Pf c args (i32 (Z.of_nat (length t))) f) o ∧ R t c.

Lemma i32_add a b : i32 (i32 a + b) = i32 (a + b).
Proof. unfold i32. lia. Qed.

Lemma print_spec l t args f (Q : unit → world (PF C) → Prop) w :
  sent t args f w → (∀ w', sent (t ++ l) args f w' → Q tt w') → wp (__pf_print sendfunc l) Q w.
Proof using Hsend.
  intros (c & -> & Hc) HQ. unfold __pf_print. rewrite wp_bind, wp_zoom. cbn [wst wmem clientdata].
  eapply wp_mono; [apply (Hsend t c l o Hc)|]. intros [] [c' o'] [HR Ho]. simpl in *. subst. kstep.
  apply HQ. exists c'. split; [|done]. simpl. rewrite i32_add, length_app, Nat2Z.inj_add. done.
Qed.

Lemma getfld_spec {A} (g : field → A) t args f (Q : A → world (PF C) → Prop) w :
  sent t args f w → Q (g f) w → wp (getfld g) Q w.
Proof using. by intros (c & -> & _) HQ. Qed.

Lemma setfld_spec g t args f (Q : unit → world (PF C) → Prop) w :
  sent t args f w → (∀ w', sent t args (g f) w' → Q tt w') → wp (setfld g) Q w.
Proof using. intros (c & -> & Hc) HQ. unfold setfld. kstep. apply HQ. by exists c. Qed.

Lemma va_arg_spec x t args f (Q : varg → world (PF C) → Prop) w :
  sent t (x :: args) f w → (∀ w', sent t args f w' → Q x w') → wp va_arg Q w.
Proof using. intros (c & -> & Hc) HQ. unfold va_arg. kstep. simpl. kstep. apply HQ. by exists c. Qed.

Lemma fill_spec n t args f (Q : unit → world (PF C) → Prop) w :
  sent t args f w → 0 ≤ fillchar f < 256 →
  (∀ w', sent (t ++ replicate (Z.to_nat n) (fillchar f)) args f w' → Q tt w') →
  wp (__pf_fill sendfunc n) Q w.
Proof using Hsend.
  intros Hw Hf HQ. unfold __pf_fill. rewrite wp_bind. apply (getfld_spec _ t args f); [done|].
  apply (wp_kfold (λ i _ w, sent (t ++ replicate (Z.to_nat i) (fillchar f)) args f w)).
  - by rewrite app_nil_r.
  - intros i [] w' Hi Hw'. eapply (print_spec _ _ args f); [done|]. intros w'' Hw''.
    unfold u8 in Hw''. rewrite Z.mod_small in Hw'' by lia.
    replace (Z.to_nat (i + 1)) with (Z.to_nat i + 1)%nat by lia. by rewrite replicate_add, app_assoc.
  - intros [] w' Hw'. apply HQ. by replace (Z.to_nat n) with (Z.to_nat (0 + Z.of_nat (Z.to_nat n))) by lia.
Qed.

(** The fields of the machine for the flags of a conversion. *)
Definition of_flags (fl : flags) (f : field) : Prop :=
  spacing f = width fl ∧ rightspc f = Z.b2z (left_align fl) ∧
  fillchar f = (if zero_fill fl then 48 else 32) ∧ altformat f = Z.b2z (alt fl).

Lemma printstuff_spec fl p1 p2 s t args f (Q : unit → world (PF C) → Prop) w :
  sent t args f w → of_flags fl f →
  Z.of_nat (length p1 + length p2 + length s) < 2 ^ 31 →
  (∀ w', sent (t ++ pad fl (p1 ++ p2) s) args f w' → Q tt w') →
  wp (__pf_printstuff sendfunc p1 p2 s) Q w.
Proof using Hsend.
  intros Hw (Hsp & Hri & Hfi & Hal) Hlen HQ. unfold __pf_printstuff.
  rewrite wp_bind. apply (getfld_spec _ t args f); [done|]. unfold id.
  rewrite i32_id by lia. unfold pad in HQ. rewrite length_app in HQ.
  set (len := Z.of_nat (length p1) + Z.of_nat (length p2) + Z.of_nat (length s)).
  set (spc := if len <? spacing f then spacing f - len else 0).
  assert (Z.to_nat (width fl - Z.of_nat (length p1 + length p2 + length s)) = Z.to_nat spc) as Hn.
  { unfold spc, len. destruct (Z.ltb_spec (Z.of_nat (length p1) + Z.of_nat (length p2) + Z.of_nat (length s))
      (spacing f)); lia. }
  rewrite Hn in HQ. clear Hn.
  assert (0 ≤ fillchar f < 256) as Hfr by (rewrite Hfi; destruct (zero_fill fl); lia).
  assert (∀ b t (Q : unit → world (PF C) → Prop) w, sent t args f w →
    (∀ w', sent (t ++ (if (0 <? spc) && b then replicate (Z.to_nat spc) (fillchar f) else [])) args f w' → Q tt w') →
    wp (if (0 <? spc) && b then __pf_fill sendfunc spc else mret tt) Q w) as Hpad.
  { intros b t' Q' w' Hw' HQ'. destruct ((0 <? spc) && b).
    - by apply (fill_spec spc t' args f).
    - rewrite wp_ret. apply HQ'. by rewrite app_nil_r. }
  rewrite <- !andb_assoc, wp_bind. apply (Hpad _ t); [done|]. intros w1 Hw1.
  rewrite wp_bind. eapply (print_spec p1 _ args f); [exact Hw1|]. intros w2 Hw2.
  rewrite wp_bind. eapply (print_spec p2 _ args f); [exact Hw2|]. intros w3 Hw3.
  rewrite wp_bind. eapply (Hpad _ _ _ w3 Hw3). intros w4 Hw4.
  rewrite wp_bind. eapply (print_spec s _ args f); [exact Hw4|]. intros w5 Hw5.
  eapply (Hpad _ _ _ w5 Hw5). intros w6 Hw6. apply HQ.
  rewrite Hri, Hfi in Hw6. clear -Hw6.
  destruct (Z.ltb_spec 0 spc) as [Hs|Hs].
  - destruct (left_align fl), (zero_fill fl); simpl in Hw6;
      by rewrite ?app_nil_r, <- ?app_assoc in *.
  - replace (Z.to_nat spc) with 0%nat by lia. simpl in *.
    destruct (left_align fl), (zero_fill fl); by rewrite ?app_nil_r, <- ?app_assoc in *.
Qed.
(** The loop over the digits, with room for [k + 1] more of them. *)
Lemma digits_loop b (k : nat) : 8 ≤ b ≤ 16 → ∀ fuel buf n ds w (Q : list Z * Z → world (PF C) → Prop),
  (k < fuel)%nat → (k < length buf)%nat → 0 ≤ n < b ^ (Z.of_nat k + 1) →
  drop (S k) buf = ds ++ [0] →
  (∀ buf' x, drop (Z.to_nat x) buf' = num_acc (S k) b n ds ++ [0] → Q (buf', x) w) →
  wp (kuntil fuel (printnum_digit b) (buf, Z.of_nat k, n)) Q w.
Proof using.
  intros Hb. induction k as [|k IH]; intros fuel buf n ds w Q Hf Hlen Hn Hdrop HQ;
    (destruct fuel as [|fuel]; [lia|]); rewrite wp_kuntil_step; unfold printnum_digit at 1;
    rewrite (proj2 (Z.eqb_neq _ _)) by lia;
    pose proof (Z.mod_pos_bound n b ltac:(lia));
    rewrite wp_bind, (wp_kof _ _ _ _ (digit_lookup (n mod b) ltac:(lia)));
    rewrite wp_bind; (erewrite wp_kof; [|apply lset_Some; lia]); rewrite wp_ret, Nat2Z.id.
  - rewrite Z.pow_1_r in Hn. simpl num_acc in HQ. rewrite (Z.div_small n b) in * by lia. simpl in *.
    kstep. apply HQ. simpl. destruct buf as [|c buf]; [simpl in Hlen; lia|]. simpl in *. rewrite drop_0 in Hdrop. by rewrite Hdrop.
  - assert (drop (S k) (<[S k := digit_char (n mod b)]> buf) = (digit_char (n mod b) :: ds) ++ [0]) as Hd.
    { rewrite (drop_S _ (digit_char (n mod b))) by by apply list_lookup_insert_eq.
      rewrite drop_insert_lt by lia. by rewrite Hdrop. }
    change (num_acc (S (S k)) b n ds) with
      (if 0 <? n / b then num_acc (S k) b (n / b) (digit_char (n mod b) :: ds) else digit_char (n mod b) :: ds)
      in HQ.
    destruct (0 <? n / b) eqn:E.
    + replace (Z.of_nat (S k) - 1) with (Z.of_nat k) by lia.
      apply (IH _ _ _ (digit_char (n mod b) :: ds)); [lia|rewrite length_insert; lia| |done|done].
      split; [apply Z.div_pos; lia|]. apply Z.div_lt_upper_bound; [lia|].
      replace (Z.of_nat (S k) + 1) with (Z.succ (Z.of_nat k + 1)) in Hn by lia.
      rewrite Z.pow_succ_r in Hn by lia. lia.
    + kstep. apply HQ. replace (Z.to_nat (Z.of_nat (S k) - 1 + 1)) with (S k) by lia. done.
Qed.

Lemma printnum_spec fl b n p neg t args f (Q : unit → world (PF C) → Prop) w :
  sent t args f w → of_flags fl f → base f = b → b = 8 ∨ b = 10 ∨ b = 16 →
  num f = n → 0 ≤ n < 2 ^ 32 →
  p = (if negb (baseprefix f =? 0) then if b =? 16 then [48; 120] else if b =? 8 then [48] else []
       else []) →
  neg = negb (sign f =? 0) →
  (∀ w', sent (t ++ pad fl ((if neg then [45] else []) ++ p) (num_text b n)) args f w' → Q tt w') →
  wp (__pf_printnum sendfunc) Q w.
Proof using Hsend.
  intros Hw Hfl Hbase Hb Hnum Hn Hp Hneg HQ. unfold __pf_printnum.
  rewrite wp_bind. apply (getfld_spec _ t args f); [done|]. unfold id. rewrite Hbase, Hnum.
  change (Z.to_nat NUMBER_BUF_SIZE) with 12%nat. change (NUMBER_BUF_SIZE - 1) with 11.
  rewrite wp_bind, (wp_kof _ (replicate 12 0)) by reflexivity. rewrite wp_bind.
  change (11 - 1) with (Z.of_nat 10).
  apply (digits_loop b 10) with (ds := []); [lia|lia|simpl; lia| |done|].
  { split; [lia|]. destruct Hb as [->|[->| ->]]; simpl; lia. }
  intros buf' x Hx. fold (num_text b n) in Hx. rewrite Hx.
  assert (Forall (λ c, 0 < c < 256) (num_text b n)) as Hnz by (apply num_acc_nonzero; [lia|lia|constructor]).
  rewrite (cstr_app _ [] Hnz).
  replace (if negb (baseprefix f =? 0) && (b =? 16) then [48; 120] else
           if negb (baseprefix f =? 0) && (b =? 8) then [48] else []) with p.
  2: { rewrite Hp. destruct (negb (baseprefix f =? 0)); done. }
  rewrite <- Hneg. apply (printstuff_spec fl _ _ _ t args f); [done|done| |].
  - assert (length (num_text b n) ≤ 11)%nat by apply (length_num_acc 11 b n []).
    assert (length p ≤ 2)%nat.
    { rewrite Hp. destruct (negb _), (b =? 16), (b =? 8); simpl; lia. }
    assert (length (if neg then [45%Z] else []) ≤ 1)%nat by (destruct neg; simpl; lia).
    lia.
  - done.
Qed.

(** The fields inside a conversion with the flags read so far. *)
Definition in_conv (fl : flags) (f : field) : Prop :=
  in_pct f = 1 ∧ of_flags fl f ∧ sign f = 0 ∧ baseprefix f = 0.

Lemma modifier_spec fl c t args f (Q : unit → world (PF C) → Prop) w :
  sent t args f w → in_conv fl f → is_modifier c = true →
  (∀ w' f', sent t args f' w' → in_conv (add_flag fl c) f' → Q tt w') →
  wp (__pf_modifier (schar c)) Q w.
Proof using.
  intros Hw (Hpct & (Hsp & Hri & Hfi & Hal) & Hsg & Hbp) Hm HQ.
  rewrite schar_small by by apply modifier_small. unfold __pf_modifier, add_flag in *.
  unfold in_conv, of_flags in HQ. unfold is_modifier in Hm.
  destruct (Z.eqb_spec c 35) as [->|H35]; [eapply setfld_spec; [done|]; intros; by eapply HQ|].
  destruct (Z.eqb_spec c 45) as [->|H45]; [eapply setfld_spec; [done|]; intros; by eapply HQ|].
  destruct ((c =? 108) || (c =? 113)) eqn:El;
    [eapply setfld_spec; [done|]; intros; by eapply HQ|].
  destruct (Z.eqb_spec c 48) as [->|H48].
  - rewrite wp_bind. eapply getfld_spec; [done|]. rewrite Hsp. simpl in HQ.
    destruct (Z.ltb_spec 0 (width fl)), (Z.leb_spec (width fl) 0); try lia;
      (eapply setfld_spec; [done|]; intros; eapply HQ; [done|]; simpl; split_and!; try done).
    by rewrite Z.add_0_r.
  - simpl in HQ. rewrite wp_bind, wp_kassert by lia. rewrite wp_bind. eapply getfld_spec; [done|].
    eapply setfld_spec; [done|]. intros. eapply HQ; [done|]. simpl. rewrite Hsp. done.
Qed.

Lemma endfield_spec t args f (Q : unit → world (PF C) → Prop) w :
  sent t args f w → (∀ w', sent t args field0 w' → Q tt w') → wp __pf_endfield Q w.
Proof using. intros Hw HQ. by eapply setfld_spec. Qed.

Lemma inttype_spec fl c z t args f (Q : unit → world (PF C) → Prop) w :
  sent t (ArgWord z :: args) f w → in_conv fl f → is_inttype c = true →
  (∀ w', sent (t ++ num_item fl c z) args field0 w' → Q tt w') →
  wp (__pf_getnum (schar c);; __pf_setbase (schar c);; __pf_printnum sendfunc;; __pf_endfield) Q w.
Proof using Hsend.
  intros Hw (Hpct & (Hsp & Hri & Hfi & Hal) & Hsg & Hbp) Hc HQ.
  rewrite schar_small by by apply inttype_small. unfold num_item in HQ. unfold is_inttype in Hc.
  set (neg := (c =? 100) && (i32 z <? 0)) in *.
  set (n := if neg then - i32 z else u32 z) in *.
  assert (0 ≤ n < 2 ^ 32) as Hn.
  { unfold n, neg. pose proof (i32_range z). pose proof (u32_range z).
    destruct (c =? 100), (Z.ltb_spec (i32 z) 0); simpl; lia. }
  assert (∀ (Q : unit → world (PF C) → Prop),
    (∀ w', sent t args (set_num n (if neg then -1 else 0) f) w' → Q tt w') → wp (__pf_getnum c) Q w) as Hget.
  { intros Q' HQ'. unfold __pf_getnum. rewrite wp_bind. eapply va_arg_spec; [done|]. intros w1 Hw1.
    cbn beta iota. rewrite wp_bind. eapply getfld_spec; [done|]. rewrite Hsg. unfold n, neg in *.
    destruct (Z.eqb_spec c 112) as [->|Hp]; [by eapply setfld_spec|].
    destruct (Z.eqb_spec c 100) as [->|Hd]; simpl in *; [|by eapply setfld_spec].
    destruct (Z.ltb_spec (i32 z) 0); (eapply setfld_spec; [done|]); intros w' Hw'; apply HQ'.
    - by rewrite u32_id in Hw' by lia.
    - replace (u32 (i32 z)) with (u32 z) in Hw' by (unfold u32, i32; lia). done. }
  rewrite wp_bind. apply Hget. intros w1 Hw1. clear Hget Hw. rewrite wp_bind. unfold __pf_setbase.
  rewrite wp_bind. eapply getfld_spec; [done|]. unfold id. simpl.
  eapply setfld_spec; [done|]. clear Hw1 w1. intros w1 Hw1. rewrite wp_bind.
  eapply (printnum_spec fl (conv_base c) n (base_prefix fl c) neg); [done|done|..].
  - simpl. unfold conv_base. destruct ((c =? 100) || (c =? 117)) eqn:E0; [done|].
    destruct ((c =? 120) || (c =? 112)) eqn:E; [done|].
    by rewrite (proj2 (Z.eqb_eq c 111)) by lia.
  - unfold conv_base. destruct ((c =? 100) || (c =? 117)), ((c =? 120) || (c =? 112)); lia.
  - done.
  - done.
  - simpl. unfold base_prefix. rewrite Hal, Hbp. by destruct (alt fl), (c =? 112).
  - simpl. by destruct neg.
  - intros w2 Hw2. eapply endfield_spec; [done|]. exact HQ.
Qed.

Lemma conv_spec fl c txt t args args' f (Q : unit → world (PF C) → Prop) w :
  sent t args f w → in_conv fl f → 0 < c < 256 → is_modifier c = false →
  Forall short_arg args → render_item (Conv fl c) args = Some (txt, args') →
  (∀ w', sent (t ++ txt) args' field0 w' → Q tt w') →
  wp (__pf_send sendfunc (schar c)) Q w.
Proof using Hsend.
  intros Hw Hin Hc Hm Hsh Hr HQ. pose proof Hin as (Hpct & Hfl & _). unfold __pf_send.
  rewrite wp_bind, wp_kassert by (rewrite schar_zero by lia; lia).
  rewrite wp_bind. eapply getfld_spec; [done|]. rewrite Hpct.
  change (1 =? 0) with false. cbn beta iota delta [andb]. rewrite modifier_char, Hm, inttype_char by done. simpl in Hr.
  destruct (is_inttype c) eqn:Ei.
  { destruct args as [|[z|s] args]; simplify_eq. by eapply inttype_spec. }
  rewrite !schar_eqb by lia. destruct (Z.eqb_spec c 115) as [->|H115].
  { destruct args as [|[z|s] args]; simplify_eq. rewrite wp_bind. eapply va_arg_spec; [done|].
    intros w1 Hw1. cbn beta iota. rewrite wp_bind. apply Forall_cons in Hsh as [Hs _].
    eapply (printstuff_spec fl [] []); [done|done| |].
    - destruct s; simpl in *; lia.
    - intros w2 Hw2. by eapply endfield_spec. }
  rewrite wp_bind. destruct (Z.eqb_spec c 99) as [->|H99].
  - destruct args as [|[z|s] args]; simplify_eq. rewrite wp_bind. eapply va_arg_spec; [done|].
    intros w1 Hw1. cbn beta iota. rewrite wp_ret, wp_bind.
    assert (cstr [u8 z; 0] = cstr [u8 z]) as -> by (simpl; by destruct (u8 z =? 0)).
    eapply (printstuff_spec fl [] []); [done|done| |].
    + simpl. destruct (u8 z =? 0); simpl; lia.
    + intros w2 Hw2. by eapply endfield_spec.
  - simplify_eq. rewrite wp_ret, wp_bind, u8_schar by lia.
    assert (cstr [c; 0] = [c]) as -> by (simpl; by rewrite (proj2 (Z.eqb_neq _ _)) by lia).
    eapply (printstuff_spec fl [] []); [done|done|simpl; lia|].
    intros w2 Hw2. by eapply endfield_spec.
Qed.

Definition at_format (cur : option flags) (f : field) : Prop :=
  match cur with None => f = field0 | Some fl => in_conv fl f end.

Lemma chars_spec fmt : ∀ cur out t args f (Q : unit → world (PF C) → Prop) w,
  sent t args f w → at_format cur f → Forall (λ c, 0 < c < 256) fmt → Forall short_arg args →
  render (parse cur fmt) args = Some out →
  (∀ w' args' f', sent (t ++ out) args' f' w' → Q tt w') →
  wp (pf_chars sendfunc fmt) Q w.
Proof using Hsend.
  induction fmt as [|c fmt IH]; intros cur out t args f Q w Hw Hat Hfmt Hsh Hr HQ; simpl.
  { destruct cur; simplify_eq/=; rewrite wp_ret; eapply HQ; by rewrite app_nil_r. }
  apply Forall_cons in Hfmt as [Hc Hfmt]. rewrite wp_bind. simpl in Hr. destruct cur as [fl|].
  - destruct (is_modifier c) eqn:Hm.
    + unfold __pf_send. pose proof Hat as (Hpct & _).
      rewrite wp_bind, wp_kassert by (rewrite schar_zero by lia; lia).
      rewrite wp_bind. eapply getfld_spec; [done|]. rewrite Hpct.
      change (1 =? 0) with false. cbn beta iota delta [andb]. rewrite modifier_char, Hm by done. eapply modifier_spec; [done|done|done|].
      intros w' f' Hw' Hin'. by eapply (IH (Some (add_flag fl c))).
    + cbn [render] in Hr. destruct (render_item (Conv fl c) args) as [[txt args']|] eqn:Ei; [|done].
      simpl in Hr. destruct (render (parse None fmt) args') as [l|] eqn:El; [|done].
      injection Hr as <-.
      eapply conv_spec; [done|done|done|done|done|exact Ei|]. intros w' Hw'.
      eapply (IH None l); [exact Hw'|done|done| |done|].
      * eapply render_item_short; [exact Ei|done].
      * intros. eapply HQ. by rewrite app_assoc.
  - simpl in Hat. subst f. unfold __pf_send.
    rewrite wp_bind, wp_kassert by (rewrite schar_zero by lia; lia).
    rewrite wp_bind. eapply getfld_spec; [done|]. change (in_pct field0 =? 0) with true.
    rewrite schar_eqb by lia. destruct (Z.eqb_spec c 37) as [->|Hne]; cbn beta iota delta [andb negb].
    + eapply setfld_spec; [done|]. intros w' Hw'. by eapply (IH (Some no_flags)).
    + rewrite u8_schar by lia. cbn [render render_item] in Hr. simpl in Hr.
      destruct (render (parse None fmt) args) as [l|] eqn:El; simplify_eq/=.
      eapply print_spec; [done|]. intros w' Hw'. eapply (IH None l); [exact Hw'|done|done|done|done|].
      intros. eapply HQ. by rewrite <- app_assoc in *.
Qed.

Lemma vprintf_spec fmt args out c (Q : Z → world C → Prop) :
  R [] c → Forall (λ c, 0 < c < 256) fmt → Forall short_arg args →
  format_text fmt args = Some out →
  (∀ c', R out c' → Q (i32 (Z.of_nat (length out))) (World c' o)) →
  wp (__vprintf sendfunc fmt args) Q (World c o).
Proof using Hsend.
  intros HR Hfmt Hsh Hout HQ. unfold __vprintf. rewrite wp_zoom. cbn [wst wmem]. rewrite wp_bind.
  eapply (chars_spec fmt None out [] args); [|done|done|done|exact Hout|].
  - by exists c.
  - intros w' args' f' (c' & -> & HR'). kstep. simpl. by apply HQ.
Qed.

End machine.
