(* ===== verification/PrintfProps.v ===== *)
(** * Correctness of formatted output

    The theorems about lib/libc/__printf.c and snprintf.c: the text that is sent
    and its length, truncation to a buffer, and numbers read back by [atoi]. *)

From S2P Require Import Prelude LibMem LibStr Printf PrintfSpec.

#[local] Ltac Zify.zify_post_hook ::= Z.div_mod_to_equations.

(** ** Receivers *)

(** A receiver that keeps everything. *)
Definition collect (l : list Z) : K (list Z) unit := t ← kget; kput (t ++ l).

Lemma collect_spec t c l o :
  c = t → wp (collect l) (λ _ w', wst w' = t ++ l ∧ wmem w' = o) (World c o).
Proof. by intros ->. Qed.

(** The buffer [b] of [snprintf] with room for [L] characters, after [t]. *)
Definition snp_after (b : list Z) (L : Z) (t : list Z) (s : SNP) : Prop :=
  buflen s = L ∧ bufpos s = Z.min L (Z.of_nat (length t)) ∧
  buf s = take (Z.to_nat L) t ++ drop (Nat.min (Z.to_nat L) (length t)) b.

Lemma snp_send_char b L t s c :
  snp_after b L t s → 0 ≤ L < Z.of_nat (length b) → Z.of_nat (length b) < 2 ^ 32 →
  if bufpos s <? buflen s
  then ∃ b', lset (buf s) (bufpos s) c = Some b' ∧
             snp_after b L (t ++ [c]) (Snp b' (buflen s) (u32 (bufpos s + 1)))
  else snp_after b L (t ++ [c]) s.
Proof.
  intros (Hl & Hp & Hb) HL Hlen. rewrite Hl, Hp. destruct (Z.ltb_spec (Z.min L (Z.of_nat (length t))) L) as [Hlt|Hge].
  - assert (Z.min L (Z.of_nat (length t)) = Z.of_nat (length t)) as Hm by lia. rewrite Hm in *.
    assert (Nat.min (Z.to_nat L) (length t) = length t) as Hm' by lia. rewrite Hm' in Hb.
    rewrite take_ge in Hb by lia.
    destruct (lookup_lt_is_Some_2 b (length t)) as [x Hx]; [lia|]. rewrite (drop_S _ _ _ Hx) in Hb.
    eexists. split.
    + rewrite lset_Some; [done|]. rewrite Hb, length_app. simpl. rewrite length_drop. lia.
    + unfold snp_after. simpl. rewrite length_app. simpl. split_and!; [lia|rewrite u32_id by lia; lia|].
      rewrite Nat2Z.id, Hb. rewrite take_ge by (rewrite length_app; simpl; lia).
      replace (length t) with (length t + 0)%nat at 1 by lia. rewrite insert_app_r. simpl.
      rewrite <- app_assoc. simpl. do 3 f_equal. lia.
  - unfold snp_after. rewrite length_app. simpl. split_and!; [done|lia|]. rewrite Hb.
    rewrite take_app_le by lia. do 2 f_equal. lia.
Qed.

Lemma snprintf_send_spec b L t s l o :
  0 ≤ L < Z.of_nat (length b) → Z.of_nat (length b) < 2 ^ 32 →
  snp_after b L t s →
  wp (__snprintf_send l) (λ _ w', snp_after b L (t ++ l) (wst w') ∧ wmem w' = o) (World s o).
Proof.
  intros HL Hlen Hs. unfold __snprintf_send.
  apply (wp_kfold (λ i _ w, ∃ s', w = World s' o ∧ snp_after b L (t ++ take (Z.to_nat i) l) s')).
  - exists s. split; [done|]. by rewrite app_nil_r.
  - intros i [] w Hi (s' & -> & Hs'). rewrite wp_bind, wp_kget. cbn [wst].
    destruct (lookup_lt_is_Some_2 l (Z.to_nat i)) as [c Hc]; [lia|].
    assert (take (Z.to_nat (i + 1)) l = take (Z.to_nat i) l ++ [c]) as Ht.
    { replace (Z.to_nat (i + 1)) with (S (Z.to_nat i)) by lia. by apply take_S_r. }
    pose proof (snp_send_char _ _ _ _ c Hs' HL Hlen) as Hstep. rewrite <- app_assoc, <- Ht in Hstep.
    destruct (bufpos s' <? buflen s').
    + destruct Hstep as (b' & Hb' & Hstep). rewrite wp_bind, (wp_kof _ c) by (rewrite lget_lookup by lia; done).
      rewrite wp_bind, (wp_kof _ _ _ _ Hb'), wp_kput. by eexists.
    + rewrite wp_ret. by exists s'.
  - intros [] w (s' & -> & Hs'). split; [|done].
    by replace (Z.to_nat (0 + Z.of_nat (length l))) with (length l) in Hs' by lia; rewrite firstn_all in Hs'.
Qed.

(** An empty buffer receives nothing. *)
Lemma snprintf_send_none b s l o :
  buflen s = 0 ∧ buf s = b ∧ bufpos s = 0 →
  wp (__snprintf_send l) (λ _ w', (buflen (wst w') = 0 ∧ buf (wst w') = b ∧ bufpos (wst w') = 0) ∧
      wmem w' = o) (World s o).
Proof.
  intros Hs. unfold __snprintf_send.
  apply (wp_kfold (λ i _ w, w = World s o)); [done| |by intros [] w ->].
  intros i [] w Hi ->. rewrite wp_bind, wp_kget. cbn [wst]. destruct Hs as (-> & _ & ->). done.
Qed.

Lemma vsnprintf_spec len fmt args out b o :
  Forall (λ c, 0 < c < 256) fmt → Forall short_arg args → format_text fmt args = Some out →
  0 ≤ len ≤ Z.of_nat (length b) → Z.of_nat (length b) < 2 ^ 32 →
  wp (vsnprintf len fmt args) (λ n w', n = i32 (Z.of_nat (length out)) ∧
      wst w' = (if len =? 0 then b
                else take (Z.to_nat (len - 1)) out ++ 0 ::
                     drop (S (Nat.min (Z.to_nat (len - 1)) (length out))) b)) (World b o).
Proof.
  intros Hfmt Hsh Hout Hlen Hb. unfold vsnprintf. rewrite wp_bind, wp_zoom. cbn [wst wmem]. rewrite wp_bind.
  destruct (Z.eqb_spec len 0) as [->|Hne].
  - eapply (vprintf_spec __snprintf_send (λ _ s, buflen s = 0 ∧ buf s = b ∧ bufpos s = 0));
      [intros; by apply snprintf_send_none|done|done|done|exact Hout|].
    intros s' (_ & Hb' & _). kstep. simpl. kstep. done.
  - eapply (vprintf_spec __snprintf_send (snp_after b (len - 1)));
      [intros; apply snprintf_send_spec; (done || lia)| |done|done|exact Hout|].
    { split_and!; [done|simpl; lia|]. simpl. by rewrite take_nil, Nat.min_0_r. }
    intros s' (_ & Hp & Hb'). kstep. simpl. rewrite (proj2 (Z.ltb_lt _ _)) by lia. kstep. rewrite Hb', Hp.
    set (k := Nat.min (Z.to_nat (len - 1)) (length out)).
    assert (length (take (Z.to_nat (len - 1)) out) = k) as Hk by (rewrite length_take; lia).
    erewrite wp_kof; [|apply lset_Some; rewrite length_app, length_drop, Hk; lia]. kstep. split; [done|].
    replace (Z.to_nat (Z.min (len - 1) (Z.of_nat (length out)))) with (k + 0)%nat by lia.
    rewrite <- Hk at 1. rewrite insert_app_r.
    destruct (lookup_lt_is_Some_2 b k) as [x Hx]; [lia|]. by rewrite (drop_S _ _ _ Hx).
Qed.

(** ** Theorems *)

(** C19: For a format whose conversions have arguments of the right types,
    [__vprintf] sends exactly the text of the format, in order, and returns its
    length: it never overruns the buffer for the digits of a number, and its
    assertions hold. *)
Theorem vprintf_sends_text fmt args out o :
  Forall (λ c, 0 < c < 256) fmt → Forall short_arg args → format_text fmt args = Some out →
  wp (__vprintf collect fmt args) (λ n w', wst w' = out ∧ n = i32 (Z.of_nat (length out))) (World [] o).
Proof.
  intros Hfmt Hsh Hout. eapply (vprintf_spec collect (λ t c, c = t));
    [intros; by apply collect_spec|done|done|done|exact Hout|]. by intros c' ->.
Qed.

(** C31: [vsnprintf] leaves in the first [len] bytes of the buffer the longest
    prefix of the text that fits, with a terminator, changes no other byte, and
    returns the length of the whole text; with [len] zero the buffer is
    untouched. *)
Theorem vsnprintf_truncates len fmt args out b o :
  Forall (λ c, 0 < c < 256) fmt → Forall short_arg args → format_text fmt args = Some out →
  0 ≤ len ≤ Z.of_nat (length b) → Z.of_nat (length b) < 2 ^ 32 →
  wp (vsnprintf len fmt args) (λ n w', n = i32 (Z.of_nat (length out)) ∧
      wst w' = (if len =? 0 then b
                else take (Z.to_nat (len - 1)) out ++ 0 ::
                     drop (S (Nat.min (Z.to_nat (len - 1)) (length out))) b)) (World b o).
Proof. apply vsnprintf_spec. Qed.

(** A string at the start of bytes in memory. *)
Lemma placed_prefix m m' a s rest :
  placed m m' a (s ++ 0 :: rest) → Forall (λ c, 0 < c < 256) s → 0 < a →
  a + Z.of_nat (length s) < 2 ^ 32 → str_at m' a s.
Proof.
  intros Hp Hs Ha Hr. unfold placed in Hp. rewrite length_app in Hp. simpl in Hp. split; [| |done].
  - intros i c Hi. pose proof (lookup_lt_Some _ _ _ Hi). rewrite Hp, decide_True by lia.
    replace (Z.to_nat _) with i by lia. rewrite lookup_app_l by done. split; [done|].
    by apply (proj1 (Forall_lookup _ _) Hs i).
  - rewrite Hp, decide_True by lia. replace (Z.to_nat _) with (length s) by lia. by rewrite list_lookup_middle.
Qed.

(** "%d" *)
Definition fmt_d : list Z := [37; 100].

Lemma decimal_text z :
  - 2 ^ 31 ≤ z < 2 ^ 31 →
  ∃ sg neg ds, format_text fmt_d [ArgWord z] = Some (sg ++ ds) ∧ sign_of sg neg ∧
    Forall is_digit ds ∧ ds ≠ [] ∧ (length ds ≤ 10)%nat ∧ (if neg then - dec ds else dec ds) = z.
Proof.
  intros Hz. set (neg := z <? 0). set (n := if neg then - z else z).
  assert (0 ≤ n < 10 ^ 10) as Hn by (unfold n, neg; destruct (Z.ltb_spec z 0); lia).
  assert (num_text 10 n = num_acc 10 10 n []) as Hnt by (apply (num_acc_fuel 10 10 n []); lia).
  destruct (num_acc_dec 10 n [] ltac:(lia) Hn) as (ds & Hds & Hdig & Hdec & Hne). rewrite app_nil_r in Hds.
  exists (if neg then [45] else []), neg, ds. split_and!; [| |done|done| |].
  - unfold format_text. change (parse None fmt_d) with [Conv no_flags 100]. cbn [render render_item].
    change (is_inttype 100) with true. cbn beta iota. simpl. rewrite app_nil_r. f_equal.
    unfold num_item. change (conv_base 100) with 10. change (base_prefix no_flags 100) with (@nil Z).
    rewrite i32_id by lia. change (100 =? 100) with true. cbn [andb]. fold neg. rewrite app_nil_r.
    replace (if neg then - z else u32 z) with n
      by (unfold n, neg; destruct (Z.ltb_spec z 0); [done|by rewrite u32_id by lia]).
    rewrite Hnt, Hds. unfold pad. simpl. replace (Z.to_nat _) with 0%nat by lia. done.
  - unfold neg. destruct (z <? 0); constructor.
  - rewrite <- Hds. apply (length_num_acc 10 10 n []).
  - rewrite Hdec. unfold n. by destruct neg; lia.
Qed.

(** C32: An [int] printed with %d into a buffer of at least twelve bytes is read
    back by [atoi] as the same number, wherever in memory the buffer lies. *)
Theorem printf_atoi_roundtrip z b m a o :
  - 2 ^ 31 ≤ z < 2 ^ 31 → 12 ≤ Z.of_nat (length b) < 2 ^ 31 →
  0 < a → a + Z.of_nat (length b) < 2 ^ 32 →
  wp (vsnprintf (Z.of_nat (length b)) fmt_d [ArgWord z])
     (λ _ w', ∀ m', placed m m' a (wst w') →
        wp (atoi a) (λ r w'', r = z ∧ w'' = World m' o) (World m' o)) (World b o).
Proof.
  intros Hz Hb Ha Hr. destruct (decimal_text z Hz) as (sg & neg & ds & Hout & Hsg & Hdig & Hne & Hlen & Hval).
  eapply wp_mono; [eapply vsnprintf_spec; [|by repeat constructor|exact Hout|lia|lia]|].
  { repeat constructor; lia. }
  intros n [b' o'] [_ Hb'] m' Hp. simpl in *. subst b'.
  assert (length (sg ++ ds) ≤ 11)%nat as Hl by (rewrite length_app; destruct Hsg; simpl; lia).
  rewrite (proj2 (Z.eqb_neq _ _)), take_ge in Hp by lia.
  assert (Forall (λ c, 0 < c < 256) (sg ++ ds)) as Hnz.
  { apply Forall_app. split; [destruct Hsg; repeat constructor; lia|].
    eapply Forall_impl; [done|]. unfold is_digit. lia. }
  apply placed_prefix in Hp; [|done|done|lia].
  apply (atoi_spec m' a [] sg neg ds []); [by rewrite app_nil_r|constructor|done|done|done|done|].
  rewrite Hval, i32_id by lia. done.
Qed.

(** A conversion with a field width prints at least that many characters,
    and exactly that many if its text is not longer. *)
Theorem conversion_fills_width f c args txt args' :
  render_item (Conv f c) args = Some (txt, args') → 0 ≤ width f →
  ∃ prefix body, txt = pad f prefix body ∧
    Z.of_nat (length txt) = Z.max (width f) (Z.of_nat (length prefix + length body)).
Proof.
  intros Hr Hw.
  assert (∀ p l, Z.of_nat (length (pad f p l)) = Z.max (width f) (Z.of_nat (length p + length l))) as Hpad.
  { intros p l. unfold pad. destruct (left_align f), (zero_fill f);
      rewrite !length_app, length_replicate; lia. }
  simpl in Hr. unfold num_item in Hr. repeat case_match; simplify_eq; eauto.
Qed.

(** The manual documents %X; the code does not know it: the letter itself is
    printed and the argument stays for the next conversion.  With the - flag a
    leading zero pads on the right, which changes the number. *)
Theorem printf_surprises :
  __vprintf collect [37; 88; 37; 117] [ArgWord 255] (World [] []) =
    Ok (4, World [88; 50; 53; 53] []) ∧
  __vprintf collect [37; 45; 48; 53; 100] [ArgWord 42] (World [] []) =
    Ok (5, World [52; 50; 48; 48; 48] []).
Proof. split; vm_compute; reflexivity. Qed.

(** ** Witnesses *)

(** "[%#06x|%-4s]" *)
Definition ex_fmt : list Z := [91; 37; 35; 48; 54; 120; 124; 37; 45; 52; 115; 93].

Lemma ex_fmt_ok : Forall (λ c, 0 < c < 256) ex_fmt ∧ Forall short_arg [ArgWord 171; ArgStr (Some [97])].
Proof. split; repeat constructor; simpl; lia. Qed.

Definition ex_out : list Z := [91; 48; 120; 48; 48; 97; 98; 124; 97; 32; 32; 32; 93].

Lemma ex_out_ok : format_text ex_fmt [ArgWord 171; ArgStr (Some [97])] = Some ex_out.
Proof. vm_compute. reflexivity. Qed.

Lemma vprintf_sends_text_witness :
  wp (__vprintf collect ex_fmt [ArgWord 171; ArgStr (Some [97])])
     (λ n w', wst w' = ex_out ∧ n = 13) (World [] []).
Proof.
  eapply wp_mono.
  - exact (vprintf_sends_text ex_fmt [ArgWord 171; ArgStr (Some [97])] ex_out []
             (proj1 ex_fmt_ok) (proj2 ex_fmt_ok) ex_out_ok).
  - intros n w' [-> ->]. split; reflexivity.
Defined.

Lemma vsnprintf_truncates_witness :
  wp (vsnprintf 8 ex_fmt [ArgWord 171; ArgStr (Some [97])])
     (λ n w', n = 13 ∧ wst w' = [91; 48; 120; 48; 48; 97; 98; 0; 7; 7]) (World (replicate 10 7) []).
Proof.
  eapply wp_mono.
  - refine (vsnprintf_truncates 8 ex_fmt [ArgWord 171; ArgStr (Some [97])] ex_out (replicate 10 7) []
              (proj1 ex_fmt_ok) (proj2 ex_fmt_ok) ex_out_ok _ _); simpl; lia.
  - intros n w' [-> ->]. split; reflexivity.
Defined.

Lemma printf_atoi_roundtrip_witness :
  wp (vsnprintf 12 fmt_d [ArgWord (-2147483648)])
     (λ _ w', ∀ m', placed ∅ m' 64 (wst w') →
        wp (atoi 64) (λ r w'', r = -2147483648 ∧ w'' = World m' []) (World m' []))
     (World (replicate 12 0) []).
Proof.
  refine (printf_atoi_roundtrip (-2147483648) (replicate 12 0) ∅ 64 [] _ _ _ _); [lia| |lia|];
    (rewrite length_replicate; lia).
Defined.
