(* ===== verification/UMalloc.v ===== *)
(** * User-level malloc and free

    The allocator of the C library (lib/libc/malloc.c): a first-fit heap of
    adjacent blocks, each with an 8-byte header of bit-fields in memory.  The
    system call [sbrk] is an interface, with its manual page
    (man/syscall/sbrk.html) as laws.  [errx] and [err] end the process and are
    the outcome [Panic]. *)

From S2P Require Import Prelude.

(** ** The process

    [umem] is the mapped memory of the process, a 32-bit word per word address;
    [usys] is what the kernel keeps for the process. *)

Record uproc (X : Type) : Type := UProc {
  uheapbase : Z;
  uheaptop : Z;
  umem : gmap Z Z;
  usys : X
}.

Arguments UProc {X} _ _ _ _.
Arguments uheapbase {X} _.
Arguments uheaptop {X} _.
Arguments umem {X} _.
Arguments usys {X} _.

(** The pointer -1 that [sbrk] answers on failure. *)
Definition SBRK_FAILED : Z := 0xffffffff.

(** [sbrk amount] answers an address and may change the mapped memory; [brk] is
    the end of the heap region. *)
Class Sbrk (X : Type) := {
  sbrk : Z → gmap Z Z → X → Z * gmap Z Z * X;
  brk : X → Z
}.

(** User addresses are below [USER_END], the start of kernel memory. *)
Definition USER_END : Z := 0x80000000.

(** A successful call moves the break up, answers the old one and keeps the
    contents of memory; a failing call changes nothing; [sbrk 0] answers the
    break. *)
Class SbrkLaws (X : Type) `{Sbrk X} : Prop := {
  sbrk_law n m x r m' x' :
    brk x ≤ USER_END → 0 ≤ n < 2 ^ 31 → sbrk n m x = (r, m', x') →
    r = SBRK_FAILED ∧ m' = m ∧ brk x' = brk x ∨
    r = brk x ∧ brk x' = brk x + n ∧ brk x + n ≤ USER_END ∧ m ⊆ m' ∧
    (∀ a, a mod 4 = 0 → brk x ≤ a → a + 4 ≤ brk x + n →
          ∃ v, m' !! a = Some v ∧ 0 ≤ v < 2 ^ 32);
  sbrk_zero m x : brk x ≤ USER_END → ∃ x', sbrk 0 m x = (brk x, m, x') ∧ brk x' = brk x
}.

(** ** Bit-fields

    Fields are allocated from the most significant bit, as the big-endian MIPS
    compiler does. *)

Definition bf_get (lo width w : Z) : Z := (w / 2 ^ lo) mod 2 ^ width.

Definition bf_set (lo width v w : Z) : Z :=
  w + (v mod 2 ^ width - bf_get lo width w) * 2 ^ lo.

Definition MBLOCKSIZE : Z := 8.
Definition MBLOCKSHIFT : Z := 3.
Definition MMAGIC : Z := 2.

Section malloc.
Context {X : Type} `{Sbrk X}.

(** ** Memory *)

Definition uload (a : Z) : K (uproc X) Z :=
  s ← kget;
  if a mod 4 =? 0 then kof (umem s !! a) else kundef.

Definition ustore (a v : Z) : K (uproc X) unit :=
  s ← kget;
  if (a mod 4 =? 0) && bool_decide (is_Some (umem s !! a)) then
    kput (UProc (uheapbase s) (uheaptop s) (<[a := v]> (umem s)) (usys s))
  else kundef.

Definition usbrk (amount : Z) : K (uproc X) Z :=
  s ← kget;
  let '(r, m, x) := sbrk amount (umem s) (usys s) in
  kput (UProc (uheapbase s) (uheaptop s) m x);;
  mret r.

Definition set_heap (base top : Z) : K (uproc X) unit :=
  s ← kget; kput (UProc base top (umem s) (usys s)).

(** ** struct mheader *)

Definition mh_prevblock (mh : Z) : K (uproc X) Z := w ← uload mh; mret (bf_get 3 29 w).
Definition mh_magic1 (mh : Z) : K (uproc X) Z := w ← uload mh; mret (bf_get 0 2 w).
Definition mh_nextblock (mh : Z) : K (uproc X) Z :=
  w ← uload (u32 (mh + 4)); mret (bf_get 3 29 w).
Definition mh_inuse (mh : Z) : K (uproc X) Z :=
  w ← uload (u32 (mh + 4)); mret (bf_get 2 1 w).
Definition mh_magic2 (mh : Z) : K (uproc X) Z :=
  w ← uload (u32 (mh + 4)); mret (bf_get 0 2 w).

Definition mh_set (a lo width v : Z) : K (uproc X) unit :=
  w ← uload a; ustore a (bf_set lo width v w).

Definition set_prevblock (mh v : Z) : K (uproc X) unit := mh_set mh 3 29 v.
Definition set_pad (mh v : Z) : K (uproc X) unit := mh_set mh 2 1 v.
Definition set_magic1 (mh v : Z) : K (uproc X) unit := mh_set mh 0 2 v.
Definition set_nextblock (mh v : Z) : K (uproc X) unit := mh_set (u32 (mh + 4)) 3 29 v.
Definition set_inuse (mh v : Z) : K (uproc X) unit := mh_set (u32 (mh + 4)) 2 1 v.
Definition set_magic2 (mh v : Z) : K (uproc X) unit := mh_set (u32 (mh + 4)) 0 2 v.

Definition M_NEXTOFF (mh : Z) : K (uproc X) Z :=
  n ← mh_nextblock mh; mret (u32 (Z.shiftl n MBLOCKSHIFT)).
Definition M_PREVOFF (mh : Z) : K (uproc X) Z :=
  n ← mh_prevblock mh; mret (u32 (Z.shiftl n MBLOCKSHIFT)).
Definition M_NEXT (mh : Z) : K (uproc X) Z := o ← M_NEXTOFF mh; mret (u32 (mh + o)).
Definition M_PREV (mh : Z) : K (uproc X) Z := o ← M_PREVOFF mh; mret (u32 (mh - o)).
Definition M_DATA (mh : Z) : Z := u32 (mh + MBLOCKSIZE).
Definition M_SIZE (mh : Z) : K (uproc X) Z :=
  o ← M_NEXTOFF mh; mret (u32 (o - MBLOCKSIZE)).
Definition M_OK (mh : Z) : K (uproc X) bool :=
  m1 ← mh_magic1 mh;
  if m1 =? MMAGIC then m2 ← mh_magic2 mh; mret (m2 =? MMAGIC) else mret false.
Definition M_MKFIELD (off : Z) : Z := Z.shiftr off MBLOCKSHIFT.

(** ** Setting up

    The three checks of the sizes of types at the start of the C function are
    decided by the compiler. *)

Definition __malloc_init : K (uproc X) unit :=
  s ← kget;
  if negb (uheapbase s =? 0) || negb (uheaptop s =? 0) then kpanic else
  x ← usbrk 0;
  if x =? SBRK_FAILED then kpanic else
  if x =? 0 then kpanic else
  set_heap x x;;
  if negb (x mod MBLOCKSIZE =? 0) then
    let adjust := MBLOCKSIZE - x mod MBLOCKSIZE in
    y ← usbrk adjust;
    if y =? SBRK_FAILED then kpanic else
    if negb (y =? x) then kpanic else
    set_heap (u32 (x + adjust)) (u32 (x + adjust))
  else mret tt.

(** [sbrk] takes a signed amount. *)
Definition __malloc_sbrk (size : Z) : K (uproc X) Z :=
  x ← usbrk (i32 size);
  if x =? SBRK_FAILED then mret 0 else
  s ← kget;
  if negb (x =? uheaptop s) then kpanic else
  set_heap (uheapbase s) (u32 (uheaptop s + size));;
  mret x.

(** ** Allocation *)

Definition __malloc_split (mh size : Z) : K (uproc X) unit :=
  if negb (size mod MBLOCKSIZE =? 0) then kpanic else
  msize ← M_SIZE mh;
  if u32 (msize - size) <? 2 * MBLOCKSIZE then mret tt else
  mhnext ← M_NEXT mh;
  oldsize ← M_SIZE mh;
  set_nextblock mh (M_MKFIELD (u32 (size + MBLOCKSIZE)));;
  mhnew ← M_NEXT mh;
  if mhnew =? mhnext then kpanic else
  set_prevblock mhnew (M_MKFIELD (u32 (size + MBLOCKSIZE)));;
  set_pad mhnew 0;;
  set_magic1 mhnew MMAGIC;;
  set_nextblock mhnew (M_MKFIELD (u32 (oldsize - size)));;
  set_inuse mhnew 0;;
  set_magic2 mhnew MMAGIC;;
  s ← kget;
  if negb (mhnext =? uheaptop s) then
    n ← mh_nextblock mhnew; set_prevblock mhnext n
  else mret tt.

(** The body of the search for a free block: the next position, or the data
    pointer of the block allocated. *)
Definition malloc_search (size : Z) (t : Z * Z) : K (uproc X) (Z * Z + Z) :=
  let '(mh, rightprevblock) := t in
  ok ← M_OK mh;
  if negb ok then kpanic else
  prev ← mh_prevblock mh;
  if negb (prev =? rightprevblock) then kpanic else
  rightprevblock ← mh_nextblock mh;
  inuse ← mh_inuse mh;
  if negb (inuse =? 0) then
    o ← M_NEXTOFF mh; mret (inl (u32 (mh + o), rightprevblock))
  else
  msize ← M_SIZE mh;
  if msize <? size then
    o ← M_NEXTOFF mh; mret (inl (u32 (mh + o), rightprevblock))
  else
  __malloc_split mh size;;
  set_inuse mh 1;;
  mret (inr (M_DATA mh)).

(** Blocks are at least [MBLOCKSIZE] long, which bounds the rounds. *)
Definition malloc_fuel (base top : Z) : nat := Z.to_nat ((top - base) / MBLOCKSIZE).

Definition malloc (size : Z) : K (uproc X) Z :=
  s ← kget;
  (if uheapbase s =? 0 then __malloc_init else mret tt);;
  s ← kget;
  if (uheapbase s =? 0) || (uheaptop s =? 0) || (uheaptop s <? uheapbase s) then kpanic else
  let size := Z.land (u32 (size + MBLOCKSIZE - 1)) (u32 (Z.lnot (MBLOCKSIZE - 1))) in
  r ← kloop (malloc_fuel (uheapbase s) (uheaptop s)) (λ t, t.1 <? uheaptop s)
        (malloc_search size) (uheapbase s, 0);
  match r with
  | inr x => mret x
  | inl (i, rightprevblock) =>
      if negb (i =? uheaptop s) then kpanic else
      mh ← __malloc_sbrk (u32 (size + MBLOCKSIZE));
      if mh =? 0 then mret 0 else
      set_prevblock mh rightprevblock;;
      set_magic1 mh MMAGIC;;
      set_magic2 mh MMAGIC;;
      set_pad mh 0;;
      set_inuse mh 1;;
      set_nextblock mh (M_MKFIELD (u32 (size + MBLOCKSIZE)));;
      mret (M_DATA mh)
  end.

(** ** Release *)

Definition __malloc_deadbeef (ptr size : Z) : K (uproc X) unit :=
  kfold (Z.to_nat (size / 4)) 0 (λ i _, ustore (u32 (ptr + 4 * i)) 0xdeadbeef) tt.

Definition __malloc_trymerge (mh mhnext : Z) : K (uproc X) unit :=
  n ← mh_nextblock mh;
  p ← mh_prevblock mhnext;
  if negb (n =? p) then kpanic else
  u ← mh_inuse mh;
  unext ← (if u =? 0 then mh_inuse mhnext else mret 1);
  if negb (unext =? 0) then mret tt else
  mhnextnext ← M_NEXT mhnext;
  sz ← M_SIZE mh;
  sznext ← M_SIZE mhnext;
  set_nextblock mh (M_MKFIELD (u32 (MBLOCKSIZE + sz + MBLOCKSIZE + sznext)));;
  s ← kget;
  (if negb (mhnextnext =? uheaptop s) then
     n ← mh_nextblock mh; set_prevblock mhnextnext n
   else mret tt);;
  __malloc_deadbeef mhnext MBLOCKSIZE.

Definition free (x : Z) : K (uproc X) unit :=
  if x =? 0 then mret tt else
  s ← kget;
  if (uheapbase s =? 0) || (uheaptop s =? 0) || (uheaptop s <? uheapbase s) then kpanic else
  if (x <? uheapbase s) || (uheaptop s <=? x) then kpanic else
  let mh := u32 (x - MBLOCKSIZE) in
  ok ← M_OK mh;
  if negb ok then kpanic else
  u ← mh_inuse mh;
  if u =? 0 then kpanic else
  set_inuse mh 0;;
  size ← M_SIZE mh;
  __malloc_deadbeef (M_DATA mh) size;;
  mhnext ← M_NEXT mh;
  s ← kget;
  (if negb (mhnext =? uheaptop s) then __malloc_trymerge mh mhnext else mret tt);;
  s ← kget;
  if negb (mh =? uheapbase s) then
    mhprev ← M_PREV mh; __malloc_trymerge mhprev mh
  else mret tt.

End malloc.
