(* ===== verification/UMallocInv.v ===== *)
(** * The user heap as a list of blocks

    The abstract view of the heap of lib/libc/malloc.c, the list of its blocks
    with their lengths, what memory must hold for such a list, and the rules of
    the operations on block headers. *)

From S2P Require Import Prelude UMalloc.

#[local] Ltac Zify.zify_post_hook ::= Z.div_mod_to_equations.

(** ** Lists of blocks

    A block is its length in units of [MBLOCKSIZE] bytes, header included, and
    whether it is in use. *)

Abbreviation blk := (Z * bool)%type.

Fixpoint units (l : list blk) : Z :=
  match l with [] => 0 | b :: l => b.1 + units l end.

(** The length of the last block of [l], or [p]. *)
Fixpoint lastn (p : Z) (l : list blk) : Z :=
  match l with [] => p | b :: l => lastn b.1 l end.

Definition sized (l : list blk) : Prop := Forall (λ b, 1 ≤ b.1) l.

(** [x] is in the data of a block in use of the list [l] placed at [a]. *)
Fixpoint live_word (a : Z) (l : list blk) (x : Z) : Prop :=
  match l with
  | [] => False
  | (n, u) :: l => u = true ∧ a + 8 ≤ x < a + 8 * n ∨ live_word (a + 8 * n) l x
  end.

(** Free blocks are never adjacent. *)
Fixpoint coalesced (l : list blk) : Prop :=
  match l with
  | (_, u) :: ((_, u') :: _) as l' => (u = true ∨ u' = true) ∧ coalesced l'
  | _ => True
  end.

Lemma units_app l1 l2 : units (l1 ++ l2) = units l1 + units l2.
Proof. induction l1 as [|b l1 IH]; simpl; lia. Qed.

Lemma lastn_app p l1 l2 : lastn p (l1 ++ l2) = lastn (lastn p l1) l2.
Proof. revert p. induction l1; simpl; auto. Qed.

Lemma units_length l : sized l → Z.of_nat (length l) ≤ units l.
Proof. induction 1; simpl; lia. Qed.

Lemma units_nonneg l : sized l → 0 ≤ units l.
Proof. intros Hl%units_length. lia. Qed.

Lemma lastn_le p l : sized l → l ≠ [] → 1 ≤ lastn p l ≤ units l.
Proof.
  intros Hl. revert p. induction Hl as [|[n u] l Hn Hl IH]; intros p Hne; [done|]. simpl in *.
  destruct l as [|b l]; [simpl; lia|]. pose proof (IH n ltac:(done)).
  pose proof (units_nonneg _ Hl). simpl in *. lia.
Qed.

Lemma live_word_app a l1 l2 x :
  live_word a (l1 ++ l2) x ↔ live_word a l1 x ∨ live_word (a + 8 * units l1) l2 x.
Proof.
  revert a. induction l1 as [|[n u] l1 IH]; intros a; simpl.
  - replace (a + 8 * 0) with a by lia. tauto.
  - rewrite IH. replace (a + 8 * n + 8 * units l1) with (a + 8 * (n + units l1)) by lia. tauto.
Qed.

Lemma live_word_range a l x : sized l → live_word a l x → a + 8 ≤ x < a + 8 * units l.
Proof.
  intros Hl. revert a. induction Hl as [|[n u] l Hn Hl IH]; intros a; simpl in *; [done|].
  pose proof (units_nonneg _ Hl). intros [[_ ?]|Hx]; [lia|]. apply IH in Hx. lia.
Qed.

(** ** Memory *)

Definition pack (p b m : Z) : Z := 8 * p + 4 * b + m.

Lemma pack_all w : 0 ≤ w < 2 ^ 32 → ∃ p b m, w = pack p b m ∧ 0 ≤ p < 2 ^ 29 ∧ 0 ≤ b < 2 ∧ 0 ≤ m < 4.
Proof.
  intros Hw. exists (w / 8), ((w / 4) mod 2), (w mod 4). unfold pack. lia.
Qed.

Section pack.
Context (p b m : Z) (Hp : 0 ≤ p < 2 ^ 29) (Hb : 0 ≤ b < 2) (Hm : 0 ≤ m < 4).

Lemma get_high : bf_get 3 29 (pack p b m) = p.
Proof using Hp Hb Hm. unfold bf_get, pack. lia. Qed.

Lemma get_flag : bf_get 2 1 (pack p b m) = b.
Proof using Hp Hb Hm. unfold bf_get, pack. lia. Qed.

Lemma get_low : bf_get 0 2 (pack p b m) = m.
Proof using Hp Hb Hm. unfold bf_get, pack. lia. Qed.

Lemma set_high v : 0 ≤ v < 2 ^ 29 → bf_set 3 29 v (pack p b m) = pack v b m.
Proof using Hp Hb Hm. intros. unfold bf_set. rewrite get_high. unfold pack. lia. Qed.

Lemma set_flag v : 0 ≤ v < 2 → bf_set 2 1 v (pack p b m) = pack p v m.
Proof using Hp Hb Hm. intros. unfold bf_set. rewrite get_flag. unfold pack. lia. Qed.

Lemma set_low v : 0 ≤ v < 4 → bf_set 0 2 v (pack p b m) = pack p b v.
Proof using Hp Hb Hm. intros. unfold bf_set. rewrite get_low. unfold pack. lia. Qed.
End pack.

Definition hdr1 (p : Z) : Z := pack p 0 MMAGIC.
Definition hdr2 (n : Z) (u : bool) : Z := pack n (Z.b2z u) MMAGIC.

(** The headers of the blocks [l] from address [a] on; [p] is the length of the
    block below [a]. *)
Fixpoint hdrs (m : gmap Z Z) (a p : Z) (l : list blk) : Prop :=
  match l with
  | [] => True
  | (n, u) :: l =>
      m !! a = Some (hdr1 p) ∧ m !! (a + 4) = Some (hdr2 n u) ∧ hdrs m (a + 8 * n) n l
  end.

Lemma hdrs_app m a p l1 l2 :
  hdrs m a p (l1 ++ l2) ↔ hdrs m a p l1 ∧ hdrs m (a + 8 * units l1) (lastn p l1) l2.
Proof.
  revert a p. induction l1 as [|[n u] l1 IH]; intros a p; simpl.
  - replace (a + 8 * 0) with a by lia. tauto.
  - rewrite IH. replace (a + 8 * n + 8 * units l1) with (a + 8 * (n + units l1)) by lia. tauto.
Qed.

Lemma hdrs_frame m m' a p l :
  sized l → (∀ x, a ≤ x < a + 8 * units l → m' !! x = m !! x) →
  hdrs m a p l → hdrs m' a p l.
Proof.
  intros Hl. revert a p. induction Hl as [|[n u] l Hn Hl IH]; intros a p Hm; simpl in *; [done|].
  pose proof (units_nonneg _ Hl). intros (H1 & H2 & H3).
  rewrite !Hm by lia. split_and!; [done|done|]. apply IH; [|done]. intros x Hx. apply Hm. lia.
Qed.

(** Rewriting the link of the first header. *)
Lemma hdrs_prev m a p p' l :
  sized l → hdrs m a p l → l ≠ [] → hdrs (<[a := hdr1 p']> m) a p' l.
Proof.
  intros Hl Hh Hne. destruct Hl as [|[n u] l Hn Hl]; [done|]. simpl in *.
  destruct Hh as (H1 & H2 & H3). split_and!.
  - by rewrite lookup_insert_eq.
  - rewrite lookup_insert_ne by lia. done.
  - eapply hdrs_frame; [done| |done]. intros x Hx. rewrite lookup_insert_ne by lia. done.
Qed.

(** Every word between two addresses is mapped and holds 32 bits. *)
Definition mapped (m : gmap Z Z) (a b : Z) : Prop :=
  ∀ x, x mod 4 = 0 → a ≤ x < b → ∃ v, m !! x = Some v ∧ 0 ≤ v < 2 ^ 32.

Lemma mapped_insert m a b x v : mapped m a b → 0 ≤ v < 2 ^ 32 → mapped (<[x := v]> m) a b.
Proof.
  intros Hm Hv y Hy Hr. destruct (decide (x = y)) as [->|Hne].
  - exists v. by rewrite lookup_insert_eq.
  - rewrite lookup_insert_ne by done. by apply Hm.
Qed.

Lemma hdr1_range p : 0 ≤ p < 2 ^ 29 → 0 ≤ hdr1 p < 2 ^ 32.
Proof. unfold hdr1, pack, MMAGIC. lia. Qed.

Lemma hdr2_range n u : 0 ≤ n < 2 ^ 29 → 0 ≤ hdr2 n u < 2 ^ 32.
Proof. unfold hdr2, pack, MMAGIC. destruct u; simpl; lia. Qed.

#[export] Hint Resolve mapped_insert hdr1_range hdr2_range : os.

(** ** The rules of loads, stores and fields *)

Section rules.
Context {X : Type} `{Sbrk X}.
Implicit Types (x : X) (m : gmap Z Z) (o : list bool).

Lemma wp_uload a v Q b t m x o :
  a mod 4 = 0 → m !! a = Some v →
  wp (uload a) Q (World (UProc b t m x) o) = Q v (World (UProc b t m x) o).
Proof.
  intros Ha Hv. unfold uload. rewrite wp_bind, wp_kget. cbn [wst umem].
  rewrite (proj2 (Z.eqb_eq _ _) Ha). by apply wp_kof.
Qed.

Lemma wp_ustore a v v' Q b t m x o :
  a mod 4 = 0 → m !! a = Some v' →
  wp (ustore a v) Q (World (UProc b t m x) o) = Q tt (World (UProc b t (<[a := v]> m) x) o).
Proof.
  intros Ha Hv. unfold ustore. rewrite wp_bind, wp_kget. cbn [wst umem].
  rewrite (proj2 (Z.eqb_eq _ _) Ha). rewrite bool_decide_eq_true_2 by by rewrite Hv. done.
Qed.

Lemma wp_mh_set a lo width v w Q b t m x o :
  a mod 4 = 0 → m !! a = Some w →
  wp (mh_set a lo width v) Q (World (UProc b t m x) o) =
  Q tt (World (UProc b t (<[a := bf_set lo width v w]> m) x) o).
Proof.
  intros Ha Hv. unfold mh_set. kstep. rewrite (wp_uload _ w) by done. kstep.
  by rewrite (wp_ustore _ _ w) by done.
Qed.

(** A header in memory: the length of the block below, its own length and flag. *)
Definition hdr m a (p n : Z) (u : bool) : Prop :=
  (a mod 8 = 0 ∧ 0 ≤ a ∧ a + 8 ≤ 2 ^ 31) ∧ (0 ≤ p < 2 ^ 29 ∧ 1 ≤ n < 2 ^ 29) ∧
  m !! a = Some (hdr1 p) ∧ m !! (a + 4) = Some (hdr2 n u).

Section header.
Context m a p n u (Hh : hdr m a p n u).
Context (b t : Z) x o.

#[local] Ltac field get :=
  destruct Hh as ((? & ? & ?) & (? & ?) & H1 & H2); kstep;
  rewrite ?(u32_id (a + 4)) by lia;
  first [erewrite wp_uload; [|lia|exact H1]|erewrite wp_uload; [|lia|exact H2]]; kstep; unfold hdr1, hdr2; rewrite get by (unfold MMAGIC; destruct u; simpl; lia); done.

Lemma wp_mh_prevblock Q :
  wp (mh_prevblock a) Q (World (UProc b t m x) o) = Q p (World (UProc b t m x) o).
Proof using Hh. unfold mh_prevblock. field get_high. Qed.

Lemma wp_mh_nextblock Q :
  wp (mh_nextblock a) Q (World (UProc b t m x) o) = Q n (World (UProc b t m x) o).
Proof using Hh. unfold mh_nextblock. field get_high. Qed.

Lemma wp_mh_inuse Q :
  wp (mh_inuse a) Q (World (UProc b t m x) o) = Q (Z.b2z u) (World (UProc b t m x) o).
Proof using Hh. unfold mh_inuse. field get_flag. Qed.

Lemma wp_mh_magic1 Q :
  wp (mh_magic1 a) Q (World (UProc b t m x) o) = Q MMAGIC (World (UProc b t m x) o).
Proof using Hh. unfold mh_magic1. field get_low. Qed.

Lemma wp_mh_magic2 Q :
  wp (mh_magic2 a) Q (World (UProc b t m x) o) = Q MMAGIC (World (UProc b t m x) o).
Proof using Hh. unfold mh_magic2. field get_low. Qed.

Lemma wp_M_OK Q :
  wp (M_OK a) Q (World (UProc b t m x) o) = Q true (World (UProc b t m x) o).
Proof using Hh. unfold M_OK. kstep. rewrite wp_mh_magic1. simpl. kstep. by rewrite wp_mh_magic2. Qed.

Lemma shift_field k : 0 ≤ k < 2 ^ 29 → u32 (Z.shiftl k MBLOCKSHIFT) = 8 * k.
Proof. intros. unfold MBLOCKSHIFT. rewrite Z.shiftl_mul_pow2 by lia. rewrite u32_id; lia. Qed.

Lemma wp_M_NEXTOFF Q :
  wp (M_NEXTOFF a) Q (World (UProc b t m x) o) = Q (8 * n) (World (UProc b t m x) o).
Proof using Hh.
  unfold M_NEXTOFF. kstep. rewrite wp_mh_nextblock. kstep. rewrite shift_field; [done|].
  destruct Hh as (_ & (_ & ?) & _). lia.
Qed.

Lemma wp_M_NEXT Q :
  a + 8 * n < 2 ^ 32 →
  wp (M_NEXT a) Q (World (UProc b t m x) o) = Q (a + 8 * n) (World (UProc b t m x) o).
Proof using Hh.
  intros. unfold M_NEXT. kstep. rewrite wp_M_NEXTOFF. kstep. rewrite u32_id; [done|].
  destruct Hh as (? & (_ & ?) & _). lia.
Qed.

Lemma wp_M_PREV Q :
  8 * p ≤ a →
  wp (M_PREV a) Q (World (UProc b t m x) o) = Q (a - 8 * p) (World (UProc b t m x) o).
Proof using Hh.
  intros. unfold M_PREV, M_PREVOFF. kstep. rewrite wp_mh_prevblock. kstep.
  destruct Hh as (? & (? & ?) & _). rewrite shift_field by lia. by rewrite u32_id by lia.
Qed.

Lemma wp_M_SIZE Q :
  wp (M_SIZE a) Q (World (UProc b t m x) o) = Q (8 * (n - 1)) (World (UProc b t m x) o).
Proof using Hh.
  unfold M_SIZE. kstep. rewrite wp_M_NEXTOFF. kstep. unfold MBLOCKSIZE.
  destruct Hh as (? & (? & ?) & _). rewrite u32_id by lia. by replace (8 * n - 8) with (8 * (n - 1)) by lia.
Qed.

Lemma wp_set_nextblock v Q :
  0 ≤ v < 2 ^ 29 →
  wp (set_nextblock a v) Q (World (UProc b t m x) o) =
  Q tt (World (UProc b t (<[a + 4 := hdr2 v u]> m) x) o).
Proof using Hh.
  intros Hv. destruct Hh as (? & (? & ?) & H1 & H2). unfold set_nextblock.
  rewrite u32_id by lia. erewrite wp_mh_set; [|lia|exact H2].
  unfold hdr2. rewrite set_high; [done| | |done|done]; (unfold MMAGIC; destruct u; simpl; lia).
Qed.

Lemma wp_set_prevblock v Q :
  0 ≤ v < 2 ^ 29 →
  wp (set_prevblock a v) Q (World (UProc b t m x) o) =
  Q tt (World (UProc b t (<[a := hdr1 v]> m) x) o).
Proof using Hh.
  intros Hv. destruct Hh as (? & (? & ?) & H1 & H2). unfold set_prevblock.
  erewrite wp_mh_set; [|lia|exact H1].
  unfold hdr1. rewrite set_high; [done| | |done|done]; (unfold MMAGIC; lia).
Qed.

Lemma wp_set_inuse (v : bool) Q :
  wp (set_inuse a (Z.b2z v)) Q (World (UProc b t m x) o) =
  Q tt (World (UProc b t (<[a + 4 := hdr2 n v]> m) x) o).
Proof using Hh.
  destruct Hh as (? & (? & ?) & H1 & H2). unfold set_inuse.
  rewrite u32_id by lia. erewrite wp_mh_set; [|lia|exact H2].
  unfold hdr2. rewrite set_flag; [done|lia| | |]; (unfold MMAGIC; destruct u, v; simpl; lia).
Qed.
End header.

End rules.
