(* ===== verification/UMallocSpec.v ===== *)
(** * The operations of the user heap on lists of blocks

    First-fit allocation and coalescing release as functions on the list of
    blocks, and the lemmas that [malloc] and [free] of lib/libc/malloc.c
    implement them. *)

From S2P Require Import Prelude Bits UMalloc UMallocInv.

#[local] Ltac Zify.zify_post_hook ::= Z.div_mod_to_equations.

(** ** The abstract operations *)

(** The first free block of at least [k] units: the blocks before it, its
    length and the blocks after it. *)
Fixpoint first_fit (k : Z) (l : list blk) : option (list blk * Z * list blk) :=
  match l with
  | [] => None
  | (n, u) :: l' =>
      if negb u && (k <=? n) then Some ([], n, l')
      else '(l1, n', l2) ← first_fit k l'; Some ((n, u) :: l1, n', l2)
  end.

(** A free block of [n] units of which [k] are taken; a rest of a single unit
    is not split off. *)
Definition carve (k n : Z) : list blk :=
  if n - k <? 2 then [(n, true)] else [(k, true); (n - k, false)].

(** A free block of [n] units in front of [l2]. *)
Definition join (n : Z) (l2 : list blk) : list blk :=
  match l2 with
  | (n', false) :: l2' => (n + n', false) :: l2'
  | _ => (n, false) :: l2
  end.

(** The blocks [l1] in front of a list that starts with a free block. *)
Fixpoint glue (l1 l2 : list blk) : list blk :=
  match l1 with
  | [] => l2
  | [(n, false)] => match l2 with (n', _) :: l2' => (n + n', false) :: l2' | [] => l1 end
  | b :: l1' => b :: glue l1' l2
  end.

(** Release of the block of [n] units between [l1] and [l2]. *)
Definition release (l1 : list blk) (n : Z) (l2 : list blk) : list blk := glue l1 (join n l2).

Lemma first_fit_Some k l l1 n l2 :
  first_fit k l = Some (l1, n, l2) → l = l1 ++ (n, false) :: l2 ∧ k ≤ n.
Proof.
  revert l1. induction l as [|[n' u] l IH]; intros l1; simpl; [done|].
  destruct u, (Z.leb_spec k n') as [Hk|Hk]; simpl.
  3: by intros [= <- <- <-].
  all: destruct (first_fit k l) as [[[l1' n''] l2']|]; simpl; [|done];
    intros [= <- -> ->]; destruct (IH _ eq_refl) as [-> ?]; done.
Qed.

Lemma glue_nil l2 : glue [] l2 = l2.
Proof. done. Qed.

Lemma glue_used l1 n l2 : glue (l1 ++ [(n, true)]) l2 = l1 ++ (n, true) :: l2.
Proof.
  induction l1 as [|[n' u] l1 IH]; [done|]. simpl. rewrite IH. destruct u; [done|].
  by destruct l1.
Qed.

Lemma glue_free l1 n n' u l2 :
  glue (l1 ++ [(n, false)]) ((n', u) :: l2) = l1 ++ (n + n', false) :: l2.
Proof.
  induction l1 as [|[n'' u''] l1 IH]; [done|]. simpl. rewrite IH. destruct u''; [done|].
  by destruct l1.
Qed.

(** ** The heap in memory *)

Section spec.
Context {X : Type} `{Hsbrk : Sbrk X} `{Hlaws : !SbrkLaws X}.
Implicit Types (x : X) (m : gmap Z Z) (o : list bool).

Record heap_ok (b t : Z) m x (l : list blk) : Prop := HeapOk {
  hk_base : 0 < b ∧ b mod 8 = 0;
  hk_top : t = b + 8 * units l ∧ t ≤ USER_END;
  hk_brk : brk x = t;
  hk_sized : sized l;
  hk_mapped : mapped m b t;
  hk_hdrs : hdrs m b 0 l
}.

(** Before the first allocation the two static variables are zero. *)
Definition heap_rep (s : uproc X) (l : list blk) : Prop :=
  uheapbase s = 0 ∧ uheaptop s = 0 ∧ l = [] ∧ 0 < brk (usys s) ≤ USER_END ∧ brk (usys s) mod 8 = 0 ∨
  heap_ok (uheapbase s) (uheaptop s) (umem s) (usys s) l.

Lemma heap_hdr b t m x l1 n u l2 :
  heap_ok b t m x (l1 ++ (n, u) :: l2) →
  hdr m (b + 8 * units l1) (lastn 0 l1) n u.
Proof.
  intros [[Hb Hb8] [Ht Hu] _ Hs _ Hh]. unfold USER_END in *. apply Forall_app in Hs as [Hs1 Hs2].
  apply Forall_cons in Hs2 as [Hn Hs2]. rewrite units_app in Ht. simpl in *.
  apply hdrs_app in Hh as [_ (H1 & H2 & _)].
  pose proof (units_nonneg _ Hs1). pose proof (units_nonneg _ Hs2).
  assert (0 ≤ lastn 0 l1 ≤ units l1).
  { destruct l1 as [|b' l1]; [simpl; lia|]. pose proof (lastn_le 0 (b' :: l1) Hs1 ltac:(done)). lia. }
  unfold hdr. split_and!; (done || lia).
Qed.

Lemma heap_bounds b t m x l1 n u l2 :
  heap_ok b t m x (l1 ++ (n, u) :: l2) →
  0 < b ∧ 0 ≤ units l1 ∧ 1 ≤ n ∧ b + 8 * units l1 + 8 * n ≤ t ≤ 2 ^ 31.
Proof.
  intros [[Hb _] [Ht Hu] _ Hs _ _]. unfold USER_END in *. apply Forall_app in Hs as [Hs1 Hs2].
  apply Forall_cons in Hs2 as [Hn Hs2]. rewrite units_app in Ht. simpl in *.
  pose proof (units_nonneg _ Hs1). pose proof (units_nonneg _ Hs2). lia.
Qed.

(** The header above the one at the end of [l1], if there is one. *)
Lemma heap_hdr_next b t m x l1 n u l2 :
  heap_ok b t m x (l1 ++ (n, u) :: l2) →
  l2 = [] ∧ b + 8 * units l1 + 8 * n = t ∨
  b + 8 * units l1 + 8 * n < t ∧
  ∃ n' u' l2', l2 = (n', u') :: l2' ∧ hdr m (b + 8 * units l1 + 8 * n) n n' u'.
Proof.
  intros Hok. pose proof Hok as [_ [Ht _] _ Hs _ _]. rewrite units_app in Ht. simpl in Ht.
  destruct l2 as [|[n' u'] l2']; [left; simpl in Ht; split; [done|lia]|right].
  apply Forall_app in Hs as [_ Hs]. apply Forall_cons in Hs as [_ [Hn' Hs]%Forall_cons].
  pose proof (units_nonneg _ Hs). simpl in *. split; [lia|].
  exists n', u', l2'. split; [done|].
  rewrite cons_middle, app_assoc in Hok. apply heap_hdr in Hok.
  rewrite units_app, lastn_app in Hok. simpl in Hok.
  by replace (b + 8 * units l1 + 8 * n) with (b + 8 * (units l1 + (n + 0))) by lia.
Qed.

(** ** Setting up a header field by field *)

Definition put_hdr m a (p n : Z) (u : bool) : gmap Z Z :=
  <[a + 4 := hdr2 n u]> (<[a := hdr1 p]> m).

Section fields.
Context (a p f k b t : Z) m x o (Ha : a mod 4 = 0) (Hw : m !! a = Some (pack p f k)).
Context (Hp : 0 ≤ p < 2 ^ 29) (Hf : 0 ≤ f < 2) (Hk : 0 ≤ k < 4).

Lemma wp_set_high v Q :
  0 ≤ v < 2 ^ 29 →
  wp (mh_set a 3 29 v) Q (World (UProc b t m x) o) =
  Q tt (World (UProc b t (<[a := pack v f k]> m) x) o).
Proof using Ha Hw Hp Hf Hk. intros. by rewrite (wp_mh_set _ _ _ _ _ _ _ _ _ _ _ Ha Hw), set_high by done. Qed.

Lemma wp_set_flag v Q :
  0 ≤ v < 2 →
  wp (mh_set a 2 1 v) Q (World (UProc b t m x) o) =
  Q tt (World (UProc b t (<[a := pack p v k]> m) x) o).
Proof using Ha Hw Hp Hf Hk. intros. by rewrite (wp_mh_set _ _ _ _ _ _ _ _ _ _ _ Ha Hw), set_flag by done. Qed.

Lemma wp_set_low v Q :
  0 ≤ v < 4 →
  wp (mh_set a 0 2 v) Q (World (UProc b t m x) o) =
  Q tt (World (UProc b t (<[a := pack p f v]> m) x) o).
Proof using Ha Hw Hp Hf Hk. intros. by rewrite (wp_mh_set _ _ _ _ _ _ _ _ _ _ _ Ha Hw), set_low by done. Qed.
End fields.

#[local] Ltac fld :=
  kstep;
  first [erewrite wp_set_high|erewrite wp_set_flag|erewrite wp_set_low];
  [|lia|rewrite ?lookup_insert_ne by lia; rewrite ?lookup_insert_eq; eassumption || reflexivity
   |unfold MMAGIC; lia..].

(** The order in which [__malloc_split] sets up the header of the rest. *)
Lemma wp_split_hdr {A} (c : K (uproc X) A) a p n b t m x o Q :
  a mod 8 = 0 → 0 ≤ a → a + 8 ≤ 2 ^ 31 → mapped m a (a + 8) →
  0 ≤ p < 2 ^ 29 → 0 ≤ n < 2 ^ 29 →
  wp (set_prevblock a p;; set_pad a 0;; set_magic1 a MMAGIC;;
      set_nextblock a n;; set_inuse a 0;; set_magic2 a MMAGIC;; c) Q (World (UProc b t m x) o) =
  wp c Q (World (UProc b t (put_hdr m a p n false) x) o).
Proof.
  intros Ha Ha0 Ha8 Hm Hp Hn.
  destruct (Hm a) as (w1 & Hw1 & (p1 & f1 & k1 & -> & ? & ? & ?)%pack_all); [lia|lia|].
  destruct (Hm (a + 4)) as (w2 & Hw2 & (p2 & f2 & k2 & -> & ? & ? & ?)%pack_all); [lia|lia|].
  unfold set_prevblock, set_pad, set_magic1, set_nextblock, set_inuse, set_magic2.
  rewrite u32_id by lia. do 6 fld. by rewrite !insert_insert_eq.
Qed.

(** The order in which [malloc] sets up the header of a new block. *)
Lemma wp_malloc_hdr {A} (c : K (uproc X) A) a p n b t m x o Q :
  a mod 8 = 0 → 0 ≤ a → a + 8 ≤ 2 ^ 31 → mapped m a (a + 8) →
  0 ≤ p < 2 ^ 29 → 0 ≤ n < 2 ^ 29 →
  wp (set_prevblock a p;; set_magic1 a MMAGIC;; set_magic2 a MMAGIC;;
      set_pad a 0;; set_inuse a 1;; set_nextblock a n;; c) Q (World (UProc b t m x) o) =
  wp c Q (World (UProc b t (put_hdr m a p n true) x) o).
Proof.
  intros Ha Ha0 Ha8 Hm Hp Hn.
  destruct (Hm a) as (w1 & Hw1 & (p1 & f1 & k1 & -> & ? & ? & ?)%pack_all); [lia|lia|].
  destruct (Hm (a + 4)) as (w2 & Hw2 & (p2 & f2 & k2 & -> & ? & ? & ?)%pack_all); [lia|lia|].
  unfold set_prevblock, set_pad, set_magic1, set_nextblock, set_inuse, set_magic2.
  rewrite u32_id by lia. do 6 fld.
  rewrite !insert_insert_eq, (insert_insert_ne _ a (a + 4)) by lia.
  by rewrite !insert_insert_eq.
Qed.

(** ** Changing headers *)

Lemma hdr_set_next m a p n u v u' :
  hdr m a p n u → 1 ≤ v < 2 ^ 29 → hdr (<[a + 4 := hdr2 v u']> m) a p v u'.
Proof.
  intros (? & (? & ?) & Hw1 & Hw2) ?. split_and!; try lia.
  - by rewrite lookup_insert_ne by lia.
  - by rewrite lookup_insert_eq.
Qed.

Lemma hdr_set_prev m a p n u v :
  hdr m a p n u → 0 ≤ v < 2 ^ 29 → hdr (<[a := hdr1 v]> m) a v n u.
Proof.
  intros (? & (? & ?) & Hw1 & Hw2) ?. split_and!; try lia.
  - by rewrite lookup_insert_eq.
  - by rewrite lookup_insert_ne by lia.
Qed.

Lemma hdr_put m a p n u :
  a mod 8 = 0 → 0 ≤ a → a + 8 ≤ 2 ^ 31 → 0 ≤ p < 2 ^ 29 → 1 ≤ n < 2 ^ 29 →
  hdr (put_hdr m a p n u) a p n u.
Proof.
  intros. unfold put_hdr. split_and!; try lia.
  - by rewrite lookup_insert_ne, lookup_insert_eq by lia.
  - by rewrite lookup_insert_eq.
Qed.

Lemma hdr_frame m m' a p n u :
  (∀ y, a ≤ y < a + 8 → m' !! y = m !! y) → hdr m a p n u → hdr m' a p n u.
Proof. intros Hm (? & (? & ?) & Hw1 & Hw2). split_and!; try lia; by rewrite Hm by lia. Qed.

Lemma put_hdr_ne m a p n u y : ¬ (a ≤ y < a + 8) → put_hdr m a p n u !! y = m !! y.
Proof. intros. unfold put_hdr. by rewrite !lookup_insert_ne by lia. Qed.

Lemma mapped_put m a p n u b t :
  mapped m b t → 0 ≤ p < 2 ^ 29 → 0 ≤ n < 2 ^ 29 → mapped (put_hdr m a p n u) b t.
Proof. intros. unfold put_hdr. auto with os. Qed.

(** Replacing the blocks in the middle of the heap. *)
Lemma heap_change b t m m' x l1 mid mid' l2 :
  heap_ok b t m x (l1 ++ mid ++ l2) →
  sized mid' → units mid' = units mid → mapped m' b t →
  (∀ y, b ≤ y < b + 8 * units l1 → m' !! y = m !! y) →
  hdrs m' (b + 8 * units l1) (lastn 0 l1) (mid' ++ l2) →
  heap_ok b t m' x (l1 ++ mid' ++ l2).
Proof.
  intros [Hb Ht Hx Hs Hm Hh] Hs' Hu Hm' Hlow Hmid.
  apply Forall_app in Hs as [Hs1 [_ Hs2]%Forall_app].
  split; try done.
  - rewrite !units_app in *. lia.
  - apply Forall_app. split; [done|]. by apply Forall_app.
  - apply hdrs_app. split; [|done]. apply hdrs_app in Hh as [Hh _].
    by eapply hdrs_frame.
Qed.

Lemma mkfield z k : 0 ≤ k < 2 ^ 29 → z = 8 * k → M_MKFIELD (u32 z) = k.
Proof.
  intros ? ->. unfold M_MKFIELD, MBLOCKSHIFT. rewrite u32_id by lia.
  rewrite Z.shiftr_div_pow2 by lia. lia.
Qed.

(** ** Splitting a free block *)

Definition split_mem (t a k n : Z) m : gmap Z Z :=
  let m2 := put_hdr (<[a + 4 := hdr2 k false]> m) (a + 8 * k) k (n - k) false in
  if a + 8 * n =? t then m2 else <[a + 8 * n := hdr1 (n - k)]> m2.

Lemma split_spec b t m x o l1 n l2 k Q :
  heap_ok b t m x (l1 ++ (n, false) :: l2) → 1 ≤ k ≤ n →
  Q tt (World (UProc b t (if n - k <? 2 then m
                          else split_mem t (b + 8 * units l1) k n m) x) o) →
  wp (__malloc_split (b + 8 * units l1) (8 * (k - 1))) Q (World (UProc b t m x) o).
Proof.
  intros Hok Hk HQ. pose proof (heap_hdr _ _ _ _ _ _ _ _ Hok) as Hh.
  pose proof (heap_hdr_next _ _ _ _ _ _ _ _ Hok) as Hn.
  destruct (heap_bounds _ _ _ _ _ _ _ _ Hok) as (Hb & Hu & _ & Htop & Hend).
  set (a := b + 8 * units l1) in *.
  pose proof Hh as ((? & ? & ?) & (? & ?) & _).
  unfold __malloc_split. replace (8 * (k - 1) mod MBLOCKSIZE) with 0 by (unfold MBLOCKSIZE; lia).
  simpl negb. cbn iota. rewrite wp_bind, (wp_M_SIZE _ _ _ _ _ Hh).
  unfold MBLOCKSIZE. rewrite u32_id by lia.
  replace (8 * (n - 1) - 8 * (k - 1) <? 2 * 8) with (n - k <? 2) by lia.
  destruct (Z.ltb_spec (n - k) 2) as [Hs|Hs]; [by kstep|].
  rewrite wp_bind, (wp_M_NEXT _ _ _ _ _ Hh) by lia.
  rewrite wp_bind, (wp_M_SIZE _ _ _ _ _ Hh).
  rewrite (mkfield (8 * (k - 1) + 8) k), (mkfield (8 * (n - 1) - 8 * (k - 1)) (n - k)) by lia.
  rewrite wp_bind, (wp_set_nextblock _ _ _ _ _ Hh) by lia.
  pose proof (hdr_set_next _ _ _ _ _ k false Hh ltac:(lia)) as Hh'.
  rewrite wp_bind, (wp_M_NEXT _ _ _ _ _ Hh') by lia.
  rewrite (proj2 (Z.eqb_neq _ _)) by lia.
  rewrite wp_split_hdr; [|lia..| |lia|lia].
  2: { apply mapped_insert; [|apply hdr2_range; lia]. intros y Hy Hr.
       apply (hk_mapped _ _ _ _ _ Hok); lia. }
  kstep. cbn [wst uheaptop]. unfold split_mem in HQ.
  destruct (Z.eqb_spec (a + 8 * n) t); simpl; kstep; [done|].
  destruct Hn as [[-> ?]|[_ (n' & u' & l2' & -> & Hn)]]; [lia|].
  rewrite (wp_mh_nextblock _ _ k (n - k) false) by (apply hdr_put; lia). kstep.
  rewrite (wp_set_prevblock _ _ n n' u'); [done| |lia].
  eapply hdr_frame; [|exact Hn]. intros y Hy.
  rewrite put_hdr_ne, lookup_insert_ne by lia. done.
Qed.

(** ** Allocating in a free block *)

Definition alloc_mem (t a k n : Z) m : gmap Z Z :=
  if n - k <? 2 then <[a + 4 := hdr2 n true]> m
  else <[a + 4 := hdr2 k true]> (split_mem t a k n m).

Lemma split_mem_ne t a k n m y :
  1 ≤ k → y ≠ a + 4 → ¬ (a + 8 * k ≤ y < a + 8 * k + 8) → y ≠ a + 8 * n →
  split_mem t a k n m !! y = m !! y.
Proof.
  intros. unfold split_mem. destruct (_ =? _);
    rewrite ?(lookup_insert_ne _ (a + 8 * n)) by lia;
    rewrite put_hdr_ne, lookup_insert_ne by lia; done.
Qed.

Lemma split_mem_mapped b t a k n m :
  mapped m b t → 1 ≤ k → 2 ≤ n - k → n < 2 ^ 29 → mapped (split_mem t a k n m) b t.
Proof.
  intros. unfold split_mem. destruct (_ =? _); [|apply mapped_insert; [|apply hdr1_range; lia]];
    (apply mapped_put; [apply mapped_insert; [done|apply hdr2_range; lia]|lia|lia]).
Qed.

Lemma alloc_mem_ne t a k n m y :
  1 ≤ k ≤ n → y < a ∨ a + 8 * n < y → alloc_mem t a k n m !! y = m !! y.
Proof.
  intros. unfold alloc_mem.
  destruct (Z.ltb_spec (n - k) 2); rewrite lookup_insert_ne by lia; [done|].
  apply split_mem_ne; lia.
Qed.

Lemma alloc_hdrs t a k n m p l2 :
  hdr m a p n false → sized l2 → hdrs m (a + 8 * n) n l2 → 1 ≤ k ≤ n →
  a + 8 * n + 8 * units l2 = t → t ≤ 2 ^ 31 →
  hdrs (alloc_mem t a k n m) a p (carve k n ++ l2).
Proof.
  intros (? & (? & ?) & Hw1 & Hw2) Hs Hh Hk Ht Hend. unfold alloc_mem, carve.
  pose proof (units_nonneg _ Hs).
  destruct (Z.ltb_spec (n - k) 2) as [Hc|Hc]; simpl.
  - rewrite lookup_insert_ne, lookup_insert_eq by lia. split_and!; [done|done|].
    eapply hdrs_frame; [done| |done]. intros y Hy. by rewrite lookup_insert_ne by lia.
  - rewrite lookup_insert_ne, lookup_insert_eq, split_mem_ne by lia.
    rewrite !lookup_insert_ne by lia. replace (a + 8 * k + 8 * (n - k)) with (a + 8 * n) by lia.
    unfold split_mem. destruct (Z.eqb_spec (a + 8 * n) t) as [He|He].
    + assert (l2 = []) as ->.
      { destruct Hs as [|[n' u'] l2 Hn' Hs]; [done|]. pose proof (units_nonneg _ Hs).
        simpl in *. lia. }
      destruct (hdr_put (<[a + 4 := hdr2 k false]> m) (a + 8 * k) k (n - k) false)
        as (_ & _ & Hp1 & Hp2); try lia. done.
    + assert (l2 ≠ []) as Hne by (intros ->; simpl in *; lia).
      destruct (hdr_put (<[a + 4 := hdr2 k false]> m) (a + 8 * k) k (n - k) false)
        as (_ & _ & Hp1 & Hp2); try lia.
      rewrite !(lookup_insert_ne _ (a + 8 * n)) by lia. split_and!; try done.
      rewrite insert_insert_ne by lia. eapply hdrs_prev; [done| |done].
      eapply hdrs_frame; [done| |exact Hh]. intros y Hy.
      rewrite lookup_insert_ne, put_hdr_ne, lookup_insert_ne by lia. done.
Qed.

Lemma alloc_heap b t m x l1 n l2 k :
  heap_ok b t m x (l1 ++ (n, false) :: l2) → 1 ≤ k ≤ n →
  heap_ok b t (alloc_mem t (b + 8 * units l1) k n m) x (l1 ++ carve k n ++ l2).
Proof.
  intros Hok Hk. pose proof (heap_hdr _ _ _ _ _ _ _ _ Hok) as Hh.
  destruct (heap_bounds _ _ _ _ _ _ _ _ Hok) as (Hb & Hu & Hn & Htop & Hend).
  pose proof Hok as [_ [Ht _] _ Hs Hm Hhs]. pose proof Hh as (_ & (_ & ?) & _).
  apply Forall_app in Hs as [Hs1 [_ Hs2]%Forall_cons].
  apply (heap_change b t m _ x l1 [(n, false)]); [done| | | | |].
  - unfold carve. destruct (Z.ltb_spec (n - k) 2); repeat constructor; simpl; lia.
  - unfold carve. destruct (Z.ltb_spec (n - k) 2); simpl; lia.
  - unfold alloc_mem. destruct (Z.ltb_spec (n - k) 2); apply mapped_insert;
      try (apply hdr2_range; lia); [done|]. apply split_mem_mapped; (done || lia).
  - intros y Hy. apply alloc_mem_ne; lia.
  - apply hdrs_app in Hhs as [_ (_ & _ & Hhs)]. rewrite units_app in Ht. simpl in Ht.
    apply alloc_hdrs; [done|done|done|done|lia|lia].
Qed.

Lemma alloc_live b t m x l1 n l2 k y :
  heap_ok b t m x (l1 ++ (n, false) :: l2) → 1 ≤ k ≤ n →
  live_word b (l1 ++ (n, false) :: l2) y →
  alloc_mem t (b + 8 * units l1) k n m !! y = m !! y.
Proof.
  intros Hok Hk. pose proof Hok as [_ _ _ Hs _ _].
  apply Forall_app in Hs as [Hs1 [_ Hs2]%Forall_cons].
  rewrite live_word_app. intros [Hl|[[? _]|Hl]]; [|done|];
    apply live_word_range in Hl; try done; apply alloc_mem_ne; lia.
Qed.

(** ** The search for a free block

    [l] is the part of the heap still to be searched, [l1] the part in which
    nothing fits. *)

Lemma search_free b t m x o l1 n l2 k Q :
  heap_ok b t m x (l1 ++ (n, false) :: l2) → 1 ≤ k ≤ n →
  Q (inr (b + 8 * units l1 + 8))
    (World (UProc b t (alloc_mem t (b + 8 * units l1) k n m) x) o) →
  wp (malloc_search (8 * (k - 1)) (b + 8 * units l1, lastn 0 l1)) Q (World (UProc b t m x) o).
Proof.
  intros Hok Hk HQ. pose proof (heap_hdr _ _ _ _ _ _ _ _ Hok) as Hh.
  destruct (heap_bounds _ _ _ _ _ _ _ _ Hok) as (Hb & Hu & Hn & Htop & Hend).
  pose proof Hh as (_ & (_ & ?) & _). unfold malloc_search.
  rewrite wp_bind, (wp_M_OK _ _ _ _ _ Hh). simpl negb. cbn iota.
  rewrite wp_bind, (wp_mh_prevblock _ _ _ _ _ Hh), Z.eqb_refl. simpl negb. cbn iota.
  rewrite wp_bind, (wp_mh_nextblock _ _ _ _ _ Hh).
  rewrite wp_bind, (wp_mh_inuse _ _ _ _ _ Hh). simpl negb. cbn iota.
  rewrite wp_bind, (wp_M_SIZE _ _ _ _ _ Hh), (proj2 (Z.ltb_ge _ _)) by lia.
  rewrite wp_bind. apply (split_spec _ _ _ _ _ _ n l2 k); [done|done|]. rewrite wp_bind.
  unfold alloc_mem in HQ. change 1 with (Z.b2z true) at 1.
  unfold M_DATA, MBLOCKSIZE. rewrite u32_id by lia.
  destruct (Z.ltb_spec (n - k) 2).
  - by rewrite (wp_set_inuse _ _ _ _ _ Hh).
  - rewrite (wp_set_inuse _ _ (lastn 0 l1) k false); [done|].
    apply (hdr_frame (<[b + 8 * units l1 + 4 := hdr2 k false]> m)).
    + intros y Hy. unfold split_mem. destruct (_ =? _);
        rewrite ?(lookup_insert_ne _ (b + 8 * units l1 + 8 * n)) by lia;
        by rewrite put_hdr_ne by lia.
    + eapply hdr_set_next; [done|lia].
Qed.

Lemma search_next b t m x o l1 n u l2 k Q :
  heap_ok b t m x (l1 ++ (n, u) :: l2) → u = true ∨ n < k → 1 ≤ k < 2 ^ 29 →
  Q (inl (b + 8 * units (l1 ++ [(n, u)]), lastn 0 (l1 ++ [(n, u)]))) (World (UProc b t m x) o) →
  wp (malloc_search (8 * (k - 1)) (b + 8 * units l1, lastn 0 l1)) Q (World (UProc b t m x) o).
Proof.
  intros Hok Hno Hk HQ. pose proof (heap_hdr _ _ _ _ _ _ _ _ Hok) as Hh.
  destruct (heap_bounds _ _ _ _ _ _ _ _ Hok) as (Hb & Hu & Hn & Htop & Hend).
  pose proof Hh as (_ & (_ & ?) & _). unfold malloc_search.
  rewrite wp_bind, (wp_M_OK _ _ _ _ _ Hh). simpl negb. cbn iota.
  rewrite wp_bind, (wp_mh_prevblock _ _ _ _ _ Hh), Z.eqb_refl. simpl negb. cbn iota.
  rewrite wp_bind, (wp_mh_nextblock _ _ _ _ _ Hh).
  rewrite wp_bind, (wp_mh_inuse _ _ _ _ _ Hh).
  rewrite lastn_app, units_app in HQ. simpl in HQ.
  replace (b + 8 * (units l1 + (n + 0))) with (b + 8 * units l1 + 8 * n) in HQ by lia.
  destruct u; simpl negb; cbn iota.
  - rewrite wp_bind, (wp_M_NEXTOFF _ _ _ _ _ Hh), u32_id by lia. by kstep.
  - rewrite wp_bind, (wp_M_SIZE _ _ _ _ _ Hh).
    rewrite (proj2 (Z.ltb_lt _ _)) by (destruct Hno; [done|lia]).
    rewrite wp_bind, (wp_M_NEXTOFF _ _ _ _ _ Hh), u32_id by lia. by kstep.
Qed.

Lemma usearch_spec b t m x o k l Q : ∀ l1 fuel,
  heap_ok b t m x (l1 ++ l) → 1 ≤ k < 2 ^ 29 → (length l ≤ fuel)%nat →
  match first_fit k l with
  | Some (l2, n, _) =>
      Q (inr (b + 8 * units (l1 ++ l2) + 8))
        (World (UProc b t (alloc_mem t (b + 8 * units (l1 ++ l2)) k n m) x) o)
  | None => Q (inl (t, lastn 0 (l1 ++ l))) (World (UProc b t m x) o)
  end →
  wp (kloop fuel (λ t', t'.1 <? t) (malloc_search (8 * (k - 1))) (b + 8 * units l1, lastn 0 l1))
     Q (World (UProc b t m x) o).
Proof.
  induction l as [|[n u] l IH]; intros l1 fuel Hok Hk Hf HQ; simpl in HQ.
  - rewrite app_nil_r in *. pose proof (hk_top _ _ _ _ _ Hok) as [Ht _].
    rewrite wp_kloop_done by (simpl; lia). by rewrite Ht in HQ at 1.
  - destruct fuel as [|fuel]; [simpl in Hf; lia|].
    destruct (heap_bounds _ _ _ _ _ _ _ _ Hok) as (Hb & Hu & Hn & Htop & Hend).
    rewrite wp_kloop_step by (simpl; lia).
    destruct (negb u && (k <=? n)) eqn:E.
    + apply andb_true_iff in E as [->%negb_true_iff E%Z.leb_le].
      rewrite app_nil_r in HQ. by apply (search_free _ _ _ _ _ _ n l); [|lia|].
    + eapply (search_next _ _ _ _ _ _ _ _ l); [done| |done|].
      { destruct u; [by left|right]. simpl in E. lia. }
      rewrite (cons_middle (n, u)), app_assoc in Hok. apply IH; [done|done|simpl in Hf; lia|].
      destruct (first_fit k l) as [[[l2 n'] l3]|]; simpl in HQ;
        rewrite <- !app_assoc; by rewrite <- ?app_assoc in HQ.
Qed.

(** ** malloc *)

Lemma round_land z :
  0 ≤ z < 2 ^ 32 → Z.land z (u32 (Z.lnot (MBLOCKSIZE - 1))) = 8 * (z / 8).
Proof.
  intros Hz. unfold MBLOCKSIZE, u32. rewrite <- (Z.land_ones (Z.lnot _)) by lia.
  rewrite Z.land_assoc, (Z.land_comm _ (Z.lnot _)), <- Z.land_assoc, Z.land_ones by lia.
  rewrite Z.mod_small by lia. rewrite Z.land_comm. change (8 - 1) with (Z.ones 3).
  rewrite <- Z.ldiff_land, Z.ldiff_ones_r by lia.
  rewrite Z.shiftr_div_pow2, Z.shiftl_mul_pow2 by lia. lia.
Qed.

Lemma round_size size :
  0 ≤ size → size + 7 < 2 ^ 32 →
  Z.land (u32 (size + MBLOCKSIZE - 1)) (u32 (Z.lnot (MBLOCKSIZE - 1))) = 8 * ((size + 7) / 8 + 1 - 1).
Proof.
  intros H0 H1. rewrite round_land by apply u32_range. unfold MBLOCKSIZE. rewrite u32_id by lia.
  replace (size + 8 - 1) with (size + 7) by lia. lia.
Qed.

(** The largest request whose size with its header is a positive [intptr_t]. *)
Definition MALLOC_MAX : Z := 2 ^ 31 - 16.

(** The units a request needs, header included. *)
Definition request (size : Z) : Z := (size + 7) / 8 + 1.

(** What [malloc] does to a heap with the blocks [l]: the first free block that
    fits is taken, otherwise the heap grows or the answer is NULL; words in use
    keep their values. *)
Definition malloc_post (s : uproc X) (l : list blk) (k r : Z) (s' : uproc X) : Prop :=
  match first_fit k l with
  | Some (l1, n, l2) =>
      heap_rep s' (l1 ++ carve k n ++ l2) ∧ r = uheapbase s' + 8 * units l1 + 8
  | None =>
      r = 0 ∧ heap_rep s' l ∨
      heap_rep s' (l ++ [(k, true)]) ∧ r = uheapbase s' + 8 * units l + 8
  end ∧
  (uheapbase s ≠ 0 → uheapbase s' = uheapbase s) ∧
  (∀ y, y mod 4 = 0 → live_word (uheapbase s) l y → umem s' !! y = umem s !! y).

(** The heap grows by a block at its top. *)
Lemma grow_heap b t m m' x x' l k :
  heap_ok b t m x l → 1 ≤ k → m ⊆ m' → brk x' = t + 8 * k → t + 8 * k ≤ USER_END →
  (∀ a, a mod 4 = 0 → t ≤ a → a + 4 ≤ t + 8 * k → ∃ v, m' !! a = Some v ∧ 0 ≤ v < 2 ^ 32) →
  heap_ok b (t + 8 * k) (put_hdr m' t (lastn 0 l) k true) x' (l ++ [(k, true)]) ∧
  (∀ y, y mod 4 = 0 → live_word b l y → put_hdr m' t (lastn 0 l) k true !! y = m !! y).
Proof.
  intros [[Hb Hb8] [Ht _] Hx Hs Hm Hh] Hk Hsub Hx' Hend Hnew. unfold USER_END in *.
  pose proof (units_nonneg _ Hs) as Hu.
  assert (0 ≤ lastn 0 l ≤ units l).
  { destruct l as [|b' l]; [simpl; lia|]. pose proof (lastn_le 0 (b' :: l) Hs ltac:(done)). lia. }
  assert (∀ y v, m !! y = Some v → m' !! y = Some v) as Hkeep by (intros; by eapply lookup_weaken).
  assert (∀ y, y mod 4 = 0 → b ≤ y < t → m' !! y = m !! y) as Hold.
  { intros y Hy Hr. destruct (Hm y Hy Hr) as (v & Hv & _). rewrite Hv. by apply Hkeep. }
  split.
  - split; [done| |done| | |].
    + rewrite units_app. simpl. unfold USER_END. lia.
    + apply Forall_app. split; [done|]. by repeat constructor.
    + apply mapped_put; [|lia|lia]. intros y Hy Hr. destruct (Z.ltb_spec y t).
      * rewrite Hold by lia. apply Hm; [done|lia].
      * apply Hnew; lia.
    + apply hdrs_app. rewrite <- Ht. split.
      * eapply hdrs_frame; [done| |].
        { intros y Hy. apply put_hdr_ne. lia. }
        clear - Hh Hkeep. revert Hh. generalize b 0.
        induction l as [|[n u] l IH]; intros a p; simpl; [done|].
        intros (H1 & H2 & H3). split_and!; eauto.
      * simpl. destruct (hdr_put m' t (lastn 0 l) k true) as (_ & _ & ? & ?); try lia. done.
  - intros y Hy Hr%live_word_range; [|done]. rewrite put_hdr_ne by lia. apply Hold; lia.
Qed.

Lemma init_spec (s : uproc X) o Q :
  uheapbase s = 0 → uheaptop s = 0 → 0 < brk (usys s) ≤ USER_END → brk (usys s) mod 8 = 0 →
  (∀ x', heap_ok (brk (usys s)) (brk (usys s)) (umem s) x' [] →
     Q tt (World (UProc (brk (usys s)) (brk (usys s)) (umem s) x') o)) →
  wp __malloc_init Q (World s o).
Proof.
  intros Hb Ht Hr Hal HQ. unfold __malloc_init, usbrk, set_heap. kstep. simpl. rewrite Hb, Ht.
  simpl. kstep. destruct (sbrk_zero (umem s) (usys s)) as (x' & -> & Hx'); [lia|]. kstep.
  unfold SBRK_FAILED, USER_END, MBLOCKSIZE in *.
  rewrite (proj2 (Z.eqb_neq _ _)), (proj2 (Z.eqb_neq _ 0)) by lia. kstep.
  rewrite Hal. simpl. kstep. apply HQ. split; try done; simpl; unfold USER_END; try lia.
  - constructor.
  - intros y ??. lia.
Qed.

Lemma malloc_grow b t m x o l k Q :
  heap_ok b t m x l → 1 ≤ k < 2 ^ 28 → t ≠ 0 →
  (∀ x', heap_ok b t m x' l → Q 0 (World (UProc b t m x') o)) →
  (∀ t' m' x', heap_ok b t' m' x' (l ++ [(k, true)]) →
     (∀ y, y mod 4 = 0 → live_word b l y → m' !! y = m !! y) →
     Q (t + 8) (World (UProc b t' m' x') o)) →
  wp (mh ← __malloc_sbrk (u32 (8 * (k - 1) + MBLOCKSIZE));
      if mh =? 0 then mret 0 else
      set_prevblock mh (lastn 0 l);; set_magic1 mh MMAGIC;; set_magic2 mh MMAGIC;;
      set_pad mh 0;; set_inuse mh 1;;
      set_nextblock mh (M_MKFIELD (u32 (8 * (k - 1) + MBLOCKSIZE)));;
      mret (M_DATA mh)) Q (World (UProc b t m x) o).
Proof.
  intros Hok Hk Ht0 HQ0 HQ1. pose proof Hok as [[Hb Hb8] [Ht Hend] Hx Hs Hm Hh].
  pose proof (units_nonneg _ Hs) as Hu. unfold MBLOCKSIZE at 1 2. unfold USER_END in *.
  replace (8 * (k - 1) + 8) with (8 * k) by lia.
  rewrite (mkfield (8 * k) k) by lia. rewrite u32_id by lia.
  unfold __malloc_sbrk, usbrk, set_heap. kstep. rewrite i32_id by lia. simpl.
  destruct (sbrk (8 * k) m x) as [[r m'] x'] eqn:E. kstep.
  apply sbrk_law in E; [|by rewrite Hx|lia]. destruct E as [(-> & -> & Hx')|(-> & Hx' & He' & Hsub & Hnew)].
  { kstep. apply HQ0. split; try done. congruence. }
  rewrite Hx in *. unfold SBRK_FAILED, USER_END in *.
  rewrite (proj2 (Z.eqb_neq _ _)) by lia. kstep. simpl. rewrite Z.eqb_refl. simpl. kstep.
  rewrite (proj2 (Z.eqb_neq _ _)) by lia. rewrite u32_id by lia.
  destruct (grow_heap b t m m' x x' l k) as [Hok' Hlive]; try (done || lia).
  assert (0 ≤ lastn 0 l ≤ units l).
  { destruct l as [|b' l]; [simpl; lia|]. pose proof (lastn_le 0 (b' :: l) Hs ltac:(done)). lia. }
  rewrite wp_malloc_hdr; [|lia..| |lia|lia].
  - kstep. unfold M_DATA, MBLOCKSIZE. rewrite u32_id by lia. by apply HQ1.
  - intros y Hy Hr. apply Hnew; lia.
Qed.

Lemma malloc_ready b t m x o l size :
  heap_ok b t m x l → 0 ≤ size ≤ MALLOC_MAX →
  wp (malloc size) (λ r w', malloc_post (UProc b t m x) l (request size) r (wst w') ∧ wmem w' = o)
     (World (UProc b t m x) o).
Proof.
  intros Hok Hsz. pose proof Hok as [[Hb Hb8] [Ht Hend] Hx Hs Hm Hh].
  pose proof (units_nonneg _ Hs) as Hu. pose proof (units_length _ Hs) as Hlen.
  unfold USER_END, MALLOC_MAX in *. unfold malloc. rewrite wp_bind, wp_kget. cbn [wst uheapbase].
  rewrite (proj2 (Z.eqb_neq _ _)) by lia. kstep. simpl.
  rewrite (proj2 (Z.eqb_neq b 0)), (proj2 (Z.eqb_neq t 0)), (proj2 (Z.ltb_ge t b)) by lia. simpl.
  rewrite round_size by lia. fold (request size). kstep.
  assert (1 ≤ request size ≤ 2 ^ 28 - 1) as Hk by (unfold request; lia).
  set (k := request size) in *.
  replace (b, 0) with (b + 8 * units [], lastn 0 []) by (simpl; f_equal; lia).
  apply (usearch_spec _ _ _ _ _ _ l); [done|lia| |].
  { unfold malloc_fuel, MBLOCKSIZE. lia. }
  unfold malloc_post. destruct (first_fit k l) as [[[l1 n] l2]|] eqn:E; simpl.
  - apply first_fit_Some in E as [-> Hn]. kstep. split_and!; try done.
    + right. by apply alloc_heap; [|lia].
    + intros y _ Hy. eapply alloc_live; [done|lia|done].
  - rewrite Z.eqb_refl. simpl. apply malloc_grow; [done|lia|lia|..].
    + intros x' Hok'. simpl. split_and!; try done. left. split; [done|by right].
    + intros t' m' x' Hok' Hlive. simpl. split_and!; try done. right. split; [by right|]. lia.
Qed.

Lemma malloc_spec (s : uproc X) o l size :
  heap_rep s l → 0 ≤ size ≤ MALLOC_MAX →
  wp (malloc size) (λ r w', malloc_post s l (request size) r (wst w') ∧ wmem w' = o) (World s o).
Proof.
  intros [(Hb & Ht & -> & Hr & Hal)|Hok] Hsz.
  - unfold malloc. rewrite wp_bind, wp_kget. cbn [wst]. rewrite Hb. simpl Z.eqb. cbn iota.
    rewrite wp_bind. apply init_spec; [done..|]. intros x' Hok.
    eapply wp_mono.
    + pose proof (malloc_ready _ _ _ _ o [] size Hok Hsz) as Hw. unfold malloc in Hw.
      rewrite wp_bind, wp_kget in Hw. cbn [wst uheapbase] in Hw.
      rewrite (proj2 (Z.eqb_neq _ _)) in Hw by lia. exact Hw.
    + intros r w' ((Hp & _ & _) & Ho). split; [|done]. split_and!; try done.
  - destruct s as [b t m x]. by apply malloc_ready.
Qed.

End spec.
