(* ===== verification/UMallocFree.v ===== *)
(** * Release of a block of the user heap

    The lemmas of [__malloc_deadbeef], [__malloc_trymerge] and [free] of
    lib/libc/malloc.c on the list of blocks. *)

From S2P Require Import Prelude UMalloc UMallocInv UMallocSpec.

#[local] Ltac Zify.zify_post_hook ::= Z.div_mod_to_equations.

Section free.
Context {X : Type} `{Hsbrk : Sbrk X} `{Hlaws : !SbrkLaws X}.
Implicit Types (x : X) (m : gmap Z Z) (o : list bool).

(** [m'] is [m] with the words from [a] up to [e] overwritten. *)
Definition wiped m m' (a e : Z) : Prop :=
  (∀ y, ¬ (a ≤ y < e) → m' !! y = m !! y) ∧
  (∀ y, y mod 4 = 0 → a ≤ y < e → m' !! y = Some 0xdeadbeef).

Lemma wiped_mapped m m' a e b t : wiped m m' a e → mapped m b t → mapped m' b t.
Proof.
  intros [Hout Hin] Hm y Hy Hr. destruct (decide (a ≤ y < e)) as [Hae|Hae].
  - exists 0xdeadbeef. split; [by apply Hin|lia].
  - rewrite Hout by done. by apply Hm.
Qed.

Lemma deadbeef_spec a n b t m x o Q :
  a mod 4 = 0 → 0 ≤ a → 0 ≤ n → a + 8 * n ≤ 2 ^ 31 → mapped m a (a + 8 * n) →
  (∀ m', wiped m m' a (a + 8 * n) → Q tt (World (UProc b t m' x) o)) →
  wp (__malloc_deadbeef a (8 * n)) Q (World (UProc b t m x) o).
Proof.
  intros Ha Ha0 Hn Hend Hm HQ. unfold __malloc_deadbeef.
  replace (8 * n / 4) with (2 * n) by lia.
  apply (wp_kfold (λ i _ w, ∃ m', w = World (UProc b t m' x) o ∧ wiped m m' a (a + 4 * i))).
  - exists m. split; [done|]. split; [done|]. intros y Hy. lia.
  - intros i [] w Hi (m' & -> & Hout & Hin). rewrite u32_id by lia.
    destruct (Hm (a + 4 * i)) as (v & Hv & _); [lia|lia|].
    rewrite (wp_ustore _ _ v); [|lia|by rewrite Hout by lia].
    exists (<[a + 4 * i := 0xdeadbeef]> m'). split; [done|]. split; intros y.
    + intros Hy. rewrite lookup_insert_ne by lia. apply Hout. lia.
    + intros Hy Hr. destruct (decide (y = a + 4 * i)) as [->|Hne]; [by rewrite lookup_insert_eq|].
      rewrite lookup_insert_ne by done. apply Hin; [done|lia].
  - intros [] w (m' & -> & Hw). apply HQ. by replace (8 * n) with (4 * (0 + Z.of_nat (Z.to_nat (2 * n)))) by lia.
Qed.

(** ** Merging two adjacent free blocks *)

Lemma live_word_merge b l1 n n' l2 y :
  live_word b (l1 ++ (n + n', false) :: l2) y ↔
  live_word b (l1 ++ (n, false) :: (n', false) :: l2) y.
Proof.
  rewrite !live_word_app. simpl.
  replace (b + 8 * units l1 + 8 * n + 8 * n') with (b + 8 * units l1 + 8 * (n + n')) by lia.
  naive_solver.
Qed.

Lemma live_word_glue b l1 n l2 y :
  live_word b (glue l1 ((n, false) :: l2)) y ↔ live_word b (l1 ++ (n, false) :: l2) y.
Proof.
  destruct l1 as [|[n0 []] l1 _] using rev_ind; [done|by rewrite glue_used, <- app_assoc|].
  rewrite glue_free, <- app_assoc. apply live_word_merge.
Qed.

Lemma live_word_join b l1 n l2 y :
  live_word b (l1 ++ join n l2) y ↔ live_word b (l1 ++ (n, false) :: l2) y.
Proof. destruct l2 as [|[n' []] l2]; [done|done|]. apply live_word_merge. Qed.

Definition link_mem (t a n : Z) m : gmap Z Z :=
  if a + 8 * n =? t then <[a + 4 := hdr2 n false]> m
  else <[a + 8 * n := hdr1 n]> (<[a + 4 := hdr2 n false]> m).

Lemma link_mem_ne t a n m y :
  y ≠ a + 4 → y ≠ a + 8 * n → link_mem t a n m !! y = m !! y.
Proof.
  intros. unfold link_mem. destruct (_ =? _); by rewrite !lookup_insert_ne by lia.
Qed.

Lemma link_mem_mapped t a n m b : mapped m b t → 1 ≤ n < 2 ^ 29 → mapped (link_mem t a n m) b t.
Proof.
  intros. unfold link_mem. destruct (_ =? _); repeat apply mapped_insert; try done;
    (apply hdr1_range || apply hdr2_range); lia.
Qed.

Lemma merge_heap b t m m' x l1 n n' l2 (a := b + 8 * units l1) :
  heap_ok b t m x (l1 ++ (n, false) :: (n', false) :: l2) →
  wiped (link_mem t a (n + n') m) m' (a + 8 * n) (a + 8 * n + 8) →
  heap_ok b t m' x (l1 ++ (n + n', false) :: l2) ∧
  (∀ y, live_word b (l1 ++ (n, false) :: (n', false) :: l2) y → m' !! y = m !! y).
Proof.
  intros Hok Hw. pose proof (heap_hdr _ _ _ _ _ _ _ _ Hok) as (Ha & (Hp & Hn) & Hw1 & _).
  pose proof Hok as [[Hb _] [Ht Hend] _ Hs Hm Hhs]. unfold USER_END in *.
  apply Forall_app in Hs as [Hs1 [_ [Hn' Hs2]%Forall_cons]%Forall_cons]. simpl in Hn'.
  pose proof (units_nonneg _ Hs1). pose proof (units_nonneg _ Hs2).
  rewrite units_app in Ht. simpl in Ht. fold a in Ha, Hw1.
  assert (∀ y, y ≠ a + 4 → y ≠ a + 8 * (n + n') → ¬ (a + 8 * n ≤ y < a + 8 * n + 8) →
            m' !! y = m !! y) as Hsame.
  { intros y ???. destruct Hw as [-> _]; [|done]. by apply link_mem_ne. }
  split.
  - apply (heap_change b t m m' x l1 [(n, false); (n', false)] [(n + n', false)]).
    + done.
    + repeat constructor. simpl. lia.
    + simpl. lia.
    + eapply wiped_mapped; [done|]. apply link_mem_mapped; [done|lia].
    + intros y Hy. apply Hsame; lia.
    + fold a. simpl. rewrite Hsame by lia. split_and!; [done| |].
      { destruct Hw as [-> _]; [|lia]. unfold link_mem.
        destruct (_ =? _); rewrite ?(lookup_insert_ne _ (a + 8 * (n + n'))) by lia;
          apply lookup_insert_eq. }
      apply hdrs_app in Hhs as [_ (_ & _ & _ & _ & Hhs)]. fold a in Hhs.
      replace (a + 8 * n + 8 * n') with (a + 8 * (n + n')) in Hhs by lia.
      destruct l2 as [|b2 l2']; [done|].
      eapply hdrs_frame; [done| |eapply (hdrs_prev m _ n' (n + n')); done].
      intros y Hy. destruct Hw as [-> _]; [|lia]. unfold link_mem.
      rewrite (proj2 (Z.eqb_neq _ _)).
      2: { apply Forall_cons in Hs2 as [? Hs2]. pose proof (units_nonneg _ Hs2).
           simpl in *. lia. }
      destruct (decide (y = a + 8 * (n + n'))) as [->|]; [by rewrite !lookup_insert_eq|].
      by rewrite !lookup_insert_ne by lia.
  - intros y. rewrite live_word_app. fold a. simpl.
    replace (a + 8 * n + 8 * n') with (a + 8 * (n + n')) by lia.
    intros [Hl|[[? _]|[[? _]|Hl]]]; try done; apply live_word_range in Hl; try done;
      apply Hsame; lia.
Qed.

Lemma trymerge_used b t m x o l1 n u n' u' l2 Q :
  heap_ok b t m x (l1 ++ (n, u) :: (n', u') :: l2) → u = true ∨ u' = true →
  Q tt (World (UProc b t m x) o) →
  wp (__malloc_trymerge (b + 8 * units l1) (b + 8 * units l1 + 8 * n)) Q (World (UProc b t m x) o).
Proof.
  intros Hok Hu HQ. pose proof (heap_hdr _ _ _ _ _ _ _ _ Hok) as Hh.
  destruct (heap_hdr_next _ _ _ _ _ _ _ _ Hok) as [[? _]|[_ (? & ? & ? & [= <- <- <-] & Hn)]]; [done|].
  unfold __malloc_trymerge.
  rewrite wp_bind, (wp_mh_nextblock _ _ _ _ _ Hh), wp_bind, (wp_mh_prevblock _ _ _ _ _ Hn), Z.eqb_refl.
  simpl negb. cbn iota. rewrite wp_bind, (wp_mh_inuse _ _ _ _ _ Hh), wp_bind.
  destruct u; simpl Z.eqb; cbn iota; [by kstep|].
  rewrite (wp_mh_inuse _ _ _ _ _ Hn). destruct Hu as [?| ->]; [done|]. by kstep.
Qed.

Lemma trymerge_free b t m x o l1 n n' l2 Q :
  heap_ok b t m x (l1 ++ (n, false) :: (n', false) :: l2) →
  (∀ m', heap_ok b t m' x (l1 ++ (n + n', false) :: l2) →
     (∀ y, live_word b (l1 ++ (n, false) :: (n', false) :: l2) y → m' !! y = m !! y) →
     m' !! (b + 8 * units l1 + 8 * n) = Some 0xdeadbeef →
     Q tt (World (UProc b t m' x) o)) →
  wp (__malloc_trymerge (b + 8 * units l1) (b + 8 * units l1 + 8 * n)) Q (World (UProc b t m x) o).
Proof.
  intros Hok HQ. pose proof (heap_hdr _ _ _ _ _ _ _ _ Hok) as Hh.
  destruct (heap_hdr_next _ _ _ _ _ _ _ _ Hok) as [[? _]|[_ (? & ? & ? & [= <- <- <-] & Hn)]]; [done|].
  pose proof Hok as Hok'. rewrite (cons_middle (n, false)), app_assoc in Hok'.
  destruct (heap_bounds _ _ _ _ _ _ _ _ Hok') as (Hb & Hu & Hn1 & Htop & Hend).
  pose proof (heap_hdr_next _ _ _ _ _ _ _ _ Hok') as Hnn.
  rewrite units_app in *. cbn [units fst] in *.
  destruct (heap_bounds _ _ _ _ _ _ _ _ Hok) as (_ & Hu1 & Hn0 & _).
  set (a := b + 8 * units l1) in *.
  replace (b + 8 * (units l1 + (n + 0)) + 8 * n') with (a + 8 * (n + n')) in * by lia.
  pose proof Hh as ((? & ? & ?) & (? & ?) & _). pose proof Hn as ((? & ? & ?) & (? & ?) & _).
  unfold __malloc_trymerge.
  rewrite wp_bind, (wp_mh_nextblock _ _ _ _ _ Hh), wp_bind, (wp_mh_prevblock _ _ _ _ _ Hn), Z.eqb_refl.
  simpl negb. cbn iota. rewrite wp_bind, (wp_mh_inuse _ _ _ _ _ Hh), wp_bind.
  simpl Z.eqb. cbn iota. rewrite (wp_mh_inuse _ _ _ _ _ Hn). simpl Z.eqb. simpl negb. cbn iota.
  rewrite wp_bind, (wp_M_NEXT _ _ _ _ _ Hn) by lia.
  rewrite wp_bind, (wp_M_SIZE _ _ _ _ _ Hh), wp_bind, (wp_M_SIZE _ _ _ _ _ Hn).
  rewrite (mkfield _ (n + n')) by (unfold MBLOCKSIZE; lia).
  rewrite wp_bind, (wp_set_nextblock _ _ _ _ _ Hh) by lia.
  replace (a + 8 * n + 8 * n') with (a + 8 * (n + n')) by lia.
  rewrite wp_bind, wp_kget. cbn [wst uheaptop]. rewrite wp_bind.
  assert (∀ m1, m1 = link_mem t a (n + n') m →
    wp (__malloc_deadbeef (a + 8 * n) MBLOCKSIZE) Q (World (UProc b t m1 x) o)) as Hbeef.
  { intros m1 ->. change MBLOCKSIZE with (8 * 1). apply deadbeef_spec; [lia..| |].
    - intros y Hy Hr. eapply (link_mem_mapped _ _ _ _ b); [apply Hok|lia|done|lia].
    - intros m' Hw. destruct (merge_heap _ _ _ _ _ _ _ _ _ Hok Hw) as [Hok2 Hlive].
      apply HQ; [done..|]. apply Hw; lia. }
  unfold link_mem in Hbeef. destruct (Z.eqb_spec (a + 8 * (n + n')) t) as [He|He]; simpl.
  - kstep. by apply Hbeef.
  - destruct Hnn as [[_ ?]|[_ (n2 & u2 & l3 & -> & Hnn)]]; [done|].
    rewrite wp_bind, (wp_mh_nextblock _ _ (lastn 0 l1) (n + n') false).
    2: { eapply hdr_set_next; [done|lia]. }
    rewrite (wp_set_prevblock _ _ n' n2 u2); [by apply Hbeef| |lia].
    eapply hdr_frame; [|exact Hnn]. intros y Hy. by rewrite lookup_insert_ne by lia.
Qed.

(** ** free *)

(** The words of a block that is not in use may hold anything. *)
Lemma wipe_heap b t m m' x l1 n u l2 (a := b + 8 * units l1) :
  heap_ok b t m x (l1 ++ (n, u) :: l2) →
  wiped (<[a + 4 := hdr2 n false]> m) m' (a + 8) (a + 8 * n) →
  heap_ok b t m' x (l1 ++ (n, false) :: l2) ∧
  (∀ y, live_word b (l1 ++ (n, false) :: l2) y → m' !! y = m !! y).
Proof.
  intros Hok Hw. pose proof (heap_hdr _ _ _ _ _ _ _ _ Hok) as (Ha & (Hp & Hn) & Hw1 & _).
  pose proof Hok as [[Hb _] [Ht Hend] _ Hs Hm Hhs]. unfold USER_END in *.
  apply Forall_app in Hs as [Hs1 [_ Hs2]%Forall_cons].
  pose proof (units_nonneg _ Hs1). pose proof (units_nonneg _ Hs2). fold a in Ha, Hw1.
  assert (∀ y, y ≠ a + 4 → ¬ (a + 8 ≤ y < a + 8 * n) → m' !! y = m !! y) as Hsame.
  { intros y ??. destruct Hw as [-> _]; [|done]. by rewrite lookup_insert_ne by lia. }
  split.
  - apply (heap_change b t m m' x l1 [(n, u)] [(n, false)]).
    + done.
    + repeat constructor. simpl. lia.
    + simpl. lia.
    + eapply wiped_mapped; [done|]. apply mapped_insert; [done|apply hdr2_range; lia].
    + intros y Hy. apply Hsame; lia.
    + fold a. simpl. rewrite Hsame by lia. apply hdrs_app in Hhs as [_ (_ & _ & Hhs)].
      split_and!; [done| |].
      * destruct Hw as [-> _]; [|lia]. apply lookup_insert_eq.
      * eapply hdrs_frame; [done| |done]. intros y Hy. apply Hsame; lia.
  - intros y. rewrite live_word_app. fold a. simpl.
    intros [Hl|[[? _]|Hl]]; try done; apply live_word_range in Hl; try done; apply Hsame; lia.
Qed.

(** What is left of the header of a freed block: overwritten by a merge with the
    block below, or still there and marked free. *)
Definition freed m a : Prop :=
  m !! a = Some 0xdeadbeef ∨ ∃ p n, hdr m a p n false.

(** The second half of [free]: merging with the block below. *)
Lemma merge_prev b t m x o l1 n l2 Q :
  heap_ok b t m x (l1 ++ (n, false) :: l2) →
  (∀ m', heap_ok b t m' x (glue l1 ((n, false) :: l2)) →
     (∀ y, live_word b (glue l1 ((n, false) :: l2)) y → m' !! y = m !! y) →
     freed m' (b + 8 * units l1) → Q tt (World (UProc b t m' x) o)) →
  wp (s ← kget;
      if negb (b + 8 * units l1 =? uheapbase s) then
        mhprev ← M_PREV (b + 8 * units l1); __malloc_trymerge mhprev (b + 8 * units l1)
      else mret tt) Q (World (UProc b t m x) o).
Proof.
  intros Hok HQ. pose proof (heap_hdr _ _ _ _ _ _ _ _ Hok) as Hh.
  destruct (heap_bounds _ _ _ _ _ _ _ _ Hok) as (Hb & Hu & Hn & Htop & Hend).
  kstep. cbn [wst uheapbase].
  destruct l1 as [|[n0 u0] l1 _] using rev_ind.
  { rewrite (proj2 (Z.eqb_eq (b + 8 * units []) b)) by (simpl; lia). simpl negb. kstep.
    apply HQ; [done|done|right; eauto]. }
  pose proof Hok as Hok'. rewrite <- app_assoc in Hok'.
  destruct (heap_bounds _ _ _ _ _ _ _ _ Hok') as (_ & Hu1 & Hn0 & _).
  rewrite units_app, lastn_app in *. cbn [units lastn fst] in *.
  rewrite (proj2 (Z.eqb_neq _ _)) by lia. simpl.
  rewrite wp_bind, (wp_M_PREV _ _ _ _ _ Hh) by lia.
  replace (b + 8 * (units l1 + (n0 + 0))) with (b + 8 * units l1 + 8 * n0) in * by lia.
  replace (b + 8 * units l1 + 8 * n0 - 8 * n0) with (b + 8 * units l1) by lia.
  destruct u0.
  - rewrite glue_used in HQ. apply (trymerge_used _ _ _ _ _ _ _ true n false l2); [done|by left|].
    apply HQ; [done|done|right; eauto].
  - rewrite glue_free in HQ. apply (trymerge_free _ _ _ _ _ _ _ n l2); [done|].
    intros m' Hok2 Hlive Hbeef. apply HQ; [done| |by left].
    intros y Hy%live_word_merge. by apply Hlive.
Qed.

Lemma merge_next b t m x o l1 n l2 Q :
  heap_ok b t m x (l1 ++ (n, false) :: l2) →
  (∀ m', heap_ok b t m' x (l1 ++ join n l2) →
     (∀ y, live_word b (l1 ++ join n l2) y → m' !! y = m !! y) →
     Q tt (World (UProc b t m' x) o)) →
  wp (if negb (b + 8 * units l1 + 8 * n =? t)
      then __malloc_trymerge (b + 8 * units l1) (b + 8 * units l1 + 8 * n)
      else mret tt) Q (World (UProc b t m x) o).
Proof.
  intros Hok HQ. destruct (heap_hdr_next _ _ _ _ _ _ _ _ Hok) as [[-> Ht]|[Ht (n' & u' & l3 & -> & _)]].
  - rewrite (proj2 (Z.eqb_eq _ _) Ht). simpl. kstep. by apply HQ.
  - rewrite (proj2 (Z.eqb_neq _ _)) by lia. simpl negb. cbn iota. destruct u'.
    + apply (trymerge_used _ _ _ _ _ _ _ false n' true l3); [done|by right|]. by apply HQ.
    + apply (trymerge_free _ _ _ _ _ _ _ n' l3); [done|]. intros m' Hok' Hlive _.
      apply HQ; [done|]. intros y Hy%live_word_merge. by apply Hlive.
Qed.

(** What [free] does to a heap in which [l1] precede and [l2] follow the block. *)
Definition free_post (s : uproc X) (l1 : list blk) (n : Z) (l2 : list blk) (s' : uproc X) : Prop :=
  heap_rep s' (release l1 n l2) ∧ uheapbase s' = uheapbase s ∧ uheaptop s' = uheaptop s ∧
  (∀ y, live_word (uheapbase s) (release l1 n l2) y → umem s' !! y = umem s !! y) ∧
  freed (umem s') (uheapbase s + 8 * units l1).

Lemma free_spec b t m x o l1 n l2 :
  heap_ok b t m x (l1 ++ (n, true) :: l2) → b + 8 * units l1 + 8 < t →
  wp (free (b + 8 * units l1 + 8))
     (λ _ w', free_post (UProc b t m x) l1 n l2 (wst w') ∧ wmem w' = o)
     (World (UProc b t m x) o).
Proof.
  intros Hok Hlt. pose proof (heap_hdr _ _ _ _ _ _ _ _ Hok) as Hh.
  destruct (heap_bounds _ _ _ _ _ _ _ _ Hok) as (Hb & Hu & Hn & Htop & Hend).
  pose proof Hh as ((? & ? & ?) & (? & ?) & _).
  unfold free. rewrite (proj2 (Z.eqb_neq _ _)) by lia. rewrite wp_bind, wp_kget.
  cbn [wst uheapbase uheaptop].
  rewrite (proj2 (Z.eqb_neq b 0)), (proj2 (Z.eqb_neq t 0)), (proj2 (Z.ltb_ge t b)) by lia.
  simpl orb. cbn iota.
  rewrite (proj2 (Z.ltb_ge _ _)), (proj2 (Z.leb_gt _ _)) by lia. simpl orb. cbn iota.
  unfold MBLOCKSIZE. replace (b + 8 * units l1 + 8 - 8) with (b + 8 * units l1) by lia.
  rewrite u32_id by lia. cbv zeta. rewrite wp_bind, (wp_M_OK _ _ _ _ _ Hh). simpl negb. cbn iota.
  rewrite wp_bind, (wp_mh_inuse _ _ _ _ _ Hh). simpl Z.eqb. cbn iota.
  change 0 with (Z.b2z false) at 1. rewrite wp_bind, (wp_set_inuse _ _ _ _ _ Hh).
  pose proof (hdr_set_next _ _ _ _ _ n false Hh ltac:(lia)) as Hh1.
  rewrite wp_bind, (wp_M_SIZE _ _ _ _ _ Hh1). rewrite wp_bind.
  unfold M_DATA, MBLOCKSIZE. rewrite u32_id by lia. apply deadbeef_spec; [lia..| |].
  { intros y Hy Hr. apply mapped_insert with (a := b) (b := t); [apply Hok|apply hdr2_range; lia|done|lia]. }
  intros m2 Hw. replace (b + 8 * units l1 + 8 + 8 * (n - 1)) with (b + 8 * units l1 + 8 * n) in Hw by lia.
  destruct (wipe_heap _ _ _ _ _ _ _ _ _ Hok Hw) as [Hok2 Hlive2].
  rewrite wp_bind, (wp_M_NEXT _ _ _ _ _ (heap_hdr _ _ _ _ _ _ _ _ Hok2)) by lia.
  rewrite wp_bind, wp_kget. cbn [wst uheaptop]. rewrite wp_bind.
  apply (merge_next _ _ _ _ _ _ _ l2); [done|]. intros m3 Hok3 Hlive3.
  destruct (join n l2) as [|[n3 u3] l3] eqn:Ej;
    [by destruct l2 as [|[? []] ?]|].
  assert (u3 = false) as -> by (destruct l2 as [|[? []] ?]; naive_solver).
  apply (merge_prev _ _ _ _ _ _ n3 l3); [done|]. intros m4 Hok4 Hlive4 Hfr.
  unfold free_post. cbn [wst uheapbase uheaptop umem wmem]. unfold release. rewrite Ej.
  split_and!; try done; [by right|].
  intros y Hy. rewrite Hlive4 by done. apply live_word_glue in Hy. rewrite Hlive3 by done.
  rewrite <- Ej in Hy. apply live_word_join in Hy. by apply Hlive2.
Qed.

End free.
