(* ===== verification/UMallocClient.v ===== *)
(** * Clients of the user heap

    The blocks in use of a heap, the invariant that free blocks are never
    adjacent, and programs that allocate, write in their blocks and free them
    (lib/libc/malloc.c). *)

From S2P Require Import Prelude UMalloc UMallocInv UMallocSpec UMallocFree.

#[local] Ltac Zify.zify_post_hook ::= Z.div_mod_to_equations.

(** ** Blocks in use: data pointers and lengths *)

Fixpoint used (a : Z) (l : list blk) : list (Z * Z) :=
  match l with
  | [] => []
  | (n, u) :: l => (if u then [(a + 8, n)] else []) ++ used (a + 8 * n) l
  end.

Lemma used_app a l1 l2 : used a (l1 ++ l2) = used a l1 ++ used (a + 8 * units l1) l2.
Proof.
  revert a. induction l1 as [|[n u] l1 IH]; intros a; simpl.
  - by replace (a + 8 * 0) with a by lia.
  - rewrite IH, app_assoc. by replace (a + 8 * n + 8 * units l1) with (a + 8 * (n + units l1)) by lia.
Qed.

Lemma used_range a l p n :
  sized l → (p, n) ∈ used a l → 1 ≤ n ∧ a + 8 ≤ p ∧ p + 8 * (n - 1) ≤ a + 8 * units l.
Proof.
  intros Hl. revert a. induction Hl as [|[n' u] l Hn Hl IH]; intros a; simpl in *.
  { by intros ?%not_elem_of_nil. }
  pose proof (units_nonneg _ Hl). rewrite elem_of_app. intros [Hp|Hp%IH]; [|lia].
  destruct u; [apply list_elem_of_singleton in Hp; simplify_eq; lia|by apply not_elem_of_nil in Hp].
Qed.

Lemma used_aligned a l p n : a mod 8 = 0 → (p, n) ∈ used a l → p mod 8 = 0.
Proof.
  revert a. induction l as [|[n' u] l IH]; intros a Ha; simpl; [by intros ?%not_elem_of_nil|].
  rewrite elem_of_app. intros [Hp|Hp]; [|apply IH in Hp; [done|lia]].
  destruct u; [apply list_elem_of_singleton in Hp; simplify_eq; lia|by apply not_elem_of_nil in Hp].
Qed.

(** Blocks in use do not overlap, not even in their headers. *)
Lemma used_apart a l p n q k :
  sized l → (p, n) ∈ used a l → (q, k) ∈ used a l →
  p = q ∧ n = k ∨ p + 8 * n ≤ q ∨ q + 8 * k ≤ p.
Proof.
  intros Hl. revert a. induction Hl as [|[n' u] l Hn Hl IH]; intros a; simpl in *.
  { by intros ?%not_elem_of_nil. }
  rewrite !elem_of_app. intros [Hp|Hp] [Hq|Hq].
  - destruct u; [|by apply not_elem_of_nil in Hp]. apply list_elem_of_singleton in Hp, Hq.
    simplify_eq. by left.
  - destruct u; [|by apply not_elem_of_nil in Hp]. apply list_elem_of_singleton in Hp.
    apply used_range in Hq; [|done]. simplify_eq. lia.
  - destruct u; [|by apply not_elem_of_nil in Hq]. apply list_elem_of_singleton in Hq.
    apply used_range in Hp; [|done]. simplify_eq. lia.
  - by eapply IH.
Qed.

Lemma used_live a l p n y : (p, n) ∈ used a l → p ≤ y < p + 8 * (n - 1) → live_word a l y.
Proof.
  revert a. induction l as [|[n' u] l IH]; intros a; simpl; [by intros ?%not_elem_of_nil|].
  rewrite elem_of_app. intros [Hp|Hp] Hy; [|right; eauto].
  destruct u; [|by apply not_elem_of_nil in Hp]. apply list_elem_of_singleton in Hp.
  simplify_eq. left. split; [done|lia].
Qed.

Lemma used_split a l p n :
  (p, n) ∈ used a l → ∃ l1 l2, l = l1 ++ (n, true) :: l2 ∧ p = a + 8 * units l1 + 8.
Proof.
  revert a. induction l as [|[n' u] l IH]; intros a; simpl; [by intros ?%not_elem_of_nil|].
  rewrite elem_of_app. intros [Hp|Hp].
  - destruct u; [|by apply not_elem_of_nil in Hp]. apply list_elem_of_singleton in Hp.
    simplify_eq. exists [], l. split; [done|]. simpl. lia.
  - apply IH in Hp as (l1 & l2 & -> & ->). exists ((n', u) :: l1), l2. split; [done|]. simpl. lia.
Qed.

Lemma used_carve a l1 k n l2 :
  used a (l1 ++ carve k n ++ l2) =
  used a l1 ++ (a + 8 * units l1 + 8, if n - k <? 2 then n else k) :: used (a + 8 * units l1 + 8 * n) l2.
Proof.
  rewrite used_app. f_equal. unfold carve. destruct (n - k <? 2); simpl; [done|].
  do 2 f_equal. lia.
Qed.

Lemma used_merge a l1 n n' l2 :
  used a (l1 ++ (n + n', false) :: l2) = used a (l1 ++ (n, false) :: (n', false) :: l2).
Proof. rewrite !used_app. simpl. do 2 f_equal. lia. Qed.

Lemma used_release a l1 n l2 : used a (release l1 n l2) = used a (l1 ++ (n, false) :: l2).
Proof.
  assert (∀ n2 l3, used a (glue l1 ((n2, false) :: l3)) = used a (l1 ++ (n2, false) :: l3)) as Hg.
  { intros n2 l3. destruct l1 as [|[n0 []] l1 _] using rev_ind; [done|by rewrite glue_used, <- app_assoc|].
    rewrite glue_free, <- app_assoc. apply used_merge. }
  unfold release. destruct l2 as [|[n' []] l2]; simpl; rewrite Hg; [done|done|]. apply used_merge.
Qed.

(** ** No two free blocks are adjacent *)

Definition apart_at (l1 l2 : list blk) : Prop :=
  match last l1, head l2 with
  | Some (_, false), Some (_, false) => False
  | _, _ => True
  end.

Lemma coalesced_app l1 l2 :
  coalesced (l1 ++ l2) ↔ coalesced l1 ∧ coalesced l2 ∧ apart_at l1 l2.
Proof.
  induction l1 as [|[n u] l1 IH]; simpl; [unfold apart_at; simpl; destruct (head l2) as [[? []]|]; tauto|].
  destruct l1 as [|[n' u'] l1]; simpl in *.
  - unfold apart_at. simpl. destruct l2 as [|[n2 u2] l2]; simpl; [destruct u; tauto|].
    destruct u, u2; naive_solver.
  - rewrite IH. unfold apart_at. simpl. tauto.
Qed.

Lemma coalesced_grow k l : coalesced l → coalesced (l ++ [(k, true)]).
Proof.
  intros Hl. apply coalesced_app. split_and!; [done|done|].
  unfold apart_at. simpl. by destruct (last l) as [[? []]|].
Qed.

Lemma coalesced_carve k n l1 l2 :
  coalesced (l1 ++ (n, false) :: l2) → coalesced (l1 ++ carve k n ++ l2).
Proof.
  rewrite !coalesced_app. unfold apart_at, carve. intros (H1 & H2 & _).
  change ((n, false) :: l2) with ([(n, false)] ++ l2) in H2. apply coalesced_app in H2 as (_ & H2 & H3).
  unfold apart_at in H3. simpl in H3.
  destruct (n - k <? 2); simpl; split_and!; try done; destruct (last l1) as [[? []]|]; try done;
    auto.
Qed.

Lemma coalesced_release n l1 l2 :
  coalesced (l1 ++ (n, true) :: l2) → coalesced (release l1 n l2).
Proof.
  rewrite coalesced_app. intros (H1 & H2 & _). unfold release.
  change ((n, true) :: l2) with ([(n, true)] ++ l2) in H2. apply coalesced_app in H2 as (_ & H2 & _).
  assert (∃ n2 l3, join n l2 = (n2, false) :: l3 ∧ coalesced ((n2, false) :: l3)) as (n2 & l3 & -> & Hj).
  { destruct l2 as [|[n' []] l2]; simpl; [by exists n, []| |].
    - exists n, ((n', true) :: l2). split; [done|]. simpl. split; [by right|done].
    - exists (n + n'), l2. split; [done|]. simpl in *. done. }
  destruct l1 as [|[n0 []] l1 _] using rev_ind; [done| |].
  - rewrite glue_used, cons_middle, app_assoc. apply coalesced_app. split_and!; [done|done|].
    unfold apart_at. by rewrite last_snoc.
  - rewrite glue_free. apply coalesced_app in H1 as (H1 & _ & Ha). apply coalesced_app.
    split_and!; [done| |done]. destruct l3 as [|[? ?] ?]; done.
Qed.

(** ** Programs

    A program allocates, writes words of its own blocks and frees them.  Its
    view is the blocks it holds, with the sizes it asked for, and the words it
    has written in them. *)

Inductive uop :=
| UMalloc (sz : Z)
| UStore (p off v : Z)
| UFree (p : Z).

Record uclient := UClient { ublocks : gmap Z Z; uwords : gmap Z Z }.

Definition in_ublock (p sz y : Z) : Prop := p ≤ y ∧ y + 4 ≤ p + sz.

#[global] Instance in_ublock_dec p sz y : Decision (in_ublock p sz y).
Proof. unfold in_ublock. apply _. Defined.

Section client.
Context {X : Type} `{Hsbrk : Sbrk X} `{Hlaws : !SbrkLaws X}.
Implicit Types (s : uproc X) (c : uclient).

Definition run_uop c (o : uop) : K (uproc X) uclient :=
  match o with
  | UMalloc sz =>
      r ← malloc sz;
      mret (if r =? 0 then c else UClient (<[r := sz]> (ublocks c)) (uwords c))
  | UStore p off v =>
      match ublocks c !! p with
      | Some sz =>
          if decide (in_ublock p sz (p + off) ∧ off mod 4 = 0) then
            ustore (p + off) (u32 v);;
            mret (UClient (ublocks c) (<[p + off := u32 v]> (uwords c)))
          else mret c
      | None => mret c
      end
  | UFree p =>
      match ublocks c !! p with
      | Some sz =>
          free p;;
          mret (UClient (delete p (ublocks c)) (filter (λ w, ¬ in_ublock p sz w.1) (uwords c)))
      | None => mret c
      end
  end.

Fixpoint run_uops c (os : list uop) : K (uproc X) uclient :=
  match os with
  | [] => mret c
  | o :: os => c' ← run_uop c o; run_uops c' os
  end.

(** Requests the allocator can serve: [malloc(0)] may return a pointer that
    [free] rejects, and a size near 2^32 is negative for [sbrk]. *)
Definition uop_ok (o : uop) : Prop :=
  match o with UMalloc sz => 1 ≤ sz ≤ MALLOC_MAX | _ => True end.

(** The blocks in use are the program's, and they hold the program's words. *)
Record uclient_ok c s : Prop := UClientOk {
  uk_heap : ∃ l, heap_rep s l ∧ coalesced l ∧
    (∀ p n, (p, n) ∈ used (uheapbase s) l → ∃ sz, ublocks c !! p = Some sz ∧ 1 ≤ sz ≤ 8 * (n - 1)) ∧
    (∀ p sz, ublocks c !! p = Some sz → ∃ n, (p, n) ∈ used (uheapbase s) l);
  uk_words y v : uwords c !! y = Some v →
    umem s !! y = Some v ∧ y mod 4 = 0 ∧ ∃ p sz, ublocks c !! p = Some sz ∧ in_ublock p sz y
}.

Lemma heap_rep_used s l p n :
  heap_rep s l → (p, n) ∈ used (uheapbase s) l →
  heap_ok (uheapbase s) (uheaptop s) (umem s) (usys s) l.
Proof. intros [(_ & _ & -> & _)|Hok]; [by intros ?%not_elem_of_nil|done]. Qed.

(** The word a client wrote is in a live word of the heap. *)
Lemma client_live c s l y p sz :
  heap_rep s l →
  (∀ p n, (p, n) ∈ used (uheapbase s) l → ∃ sz, ublocks c !! p = Some sz ∧ 1 ≤ sz ≤ 8 * (n - 1)) →
  (∀ p sz, ublocks c !! p = Some sz → ∃ n, (p, n) ∈ used (uheapbase s) l) →
  ublocks c !! p = Some sz → in_ublock p sz y → live_word (uheapbase s) l y.
Proof.
  intros Hrep H1 H2 Hp Hy. destruct (H2 _ _ Hp) as (n & Hn).
  destruct (H1 _ _ Hn) as (sz' & Hp' & ?). simplify_eq. unfold in_ublock in Hy.
  eapply used_live; [done|lia].
Qed.

Lemma client_add c s s' l l' r k sz :
  uclient_ok c s → heap_rep s' l' → coalesced l' → r ≠ 0 → 1 ≤ sz ≤ 8 * (k - 1) →
  (∀ p n, (p, n) ∈ used (uheapbase s) l → ∃ sz, ublocks c !! p = Some sz ∧ 1 ≤ sz ≤ 8 * (n - 1)) →
  (∀ p sz, ublocks c !! p = Some sz → ∃ n, (p, n) ∈ used (uheapbase s) l) →
  (∀ p n, (p, n) ∈ used (uheapbase s') l' ↔ (p, n) = (r, k) ∨ (p, n) ∈ used (uheapbase s) l) →
  (∀ n, (r, n) ∉ used (uheapbase s) l) →
  (∀ y v, uwords c !! y = Some v → umem s' !! y = Some v) →
  uclient_ok (UClient (<[r := sz]> (ublocks c)) (uwords c)) s'.
Proof.
  intros [_ Hw] Hrep Hcl Hr Hsz H1 H2 Hu Hfresh Hkeep. split; simpl.
  - exists l'. split_and!; [done|done| |].
    + intros p n [[= -> ->]|Hp]%Hu; [exists sz; by rewrite lookup_insert_eq|].
      destruct (H1 _ _ Hp) as (sz' & ? & ?). exists sz'. rewrite lookup_insert_ne; [done|].
      intros ->. by eapply Hfresh.
    + intros p sz' [[<- <-]|[Hne Hp]]%lookup_insert_Some; [exists k; apply Hu; by left|].
      destruct (H2 _ _ Hp) as (n & ?). exists n. apply Hu. by right.
  - intros y v Hy. destruct (Hw _ _ Hy) as (_ & ? & p & sz' & Hp & ?). split_and!; [by apply Hkeep|done|].
    exists p, sz'. split; [|done]. rewrite lookup_insert_ne; [done|]. intros ->.
    destruct (H2 _ _ Hp) as (n & ?). by eapply Hfresh.
Qed.

Lemma run_umalloc c sz s o :
  uclient_ok c s → 1 ≤ sz ≤ MALLOC_MAX →
  wp (run_uop c (UMalloc sz)) (λ c' w', uclient_ok c' (wst w') ∧ wmem w' = o) (World s o).
Proof.
  intros Hc Hsz. pose proof Hc as [(l & Hrep & Hcl & H1 & H2) Hw]. simpl. rewrite wp_bind.
  eapply wp_mono; [eapply (malloc_spec s o l sz); [done|lia]|].
  intros r [s' o'] [(Hpost & Hbase & Hlive) Ho]. simpl in *. kstep. split; [|done].
  assert (∀ y v, uwords c !! y = Some v → umem s' !! y = Some v) as Hkeep.
  { intros y v Hy. destruct (Hw _ _ Hy) as (Hv & Hal & p & sz' & Hp & Hin).
    rewrite Hlive; [done|done|]. by eapply client_live. }
  assert (used (uheapbase s') l = used (uheapbase s) l ∧ sized l) as [Hb Hs].
  { destruct Hrep as [(_ & _ & -> & _)|Hok]; [by split; [|constructor]|].
    rewrite Hbase; [by split; [|apply Hok]|]. pose proof (hk_base _ _ _ _ _ Hok). lia. }
  assert (1 ≤ request sz ∧ sz ≤ 8 * (request sz - 1)) as Hk by (unfold request; lia).
  destruct (first_fit (request sz) l) as [[[l1 n] l2]|] eqn:E.
  - destruct Hpost as [Hrep' ->]. apply first_fit_Some in E as [-> Hn].
    destruct Hrep' as [(_ & _ & ? & _)|Hok'].
    { exfalso. unfold carve in *. by destruct l1, (n - request sz <? 2). }
    pose proof (hk_base _ _ _ _ _ Hok') as [? _]. apply Forall_app in Hs as [Hs1 [_ Hs2]%Forall_cons].
    pose proof (units_nonneg _ Hs1). rewrite (proj2 (Z.eqb_neq _ _)) by lia.
    eapply (client_add _ s _ (l1 ++ (n, false) :: l2) _ _ (if n - request sz <? 2 then n else request sz));
      [done|by right|by apply coalesced_carve|lia|destruct (Z.ltb_spec (n - request sz) 2); lia|done|done| | |done];
      rewrite <- Hb, (used_app _ l1 ((n, false) :: l2)); simpl used.
    + intros p n'. rewrite used_carve, !elem_of_app, elem_of_cons. tauto.
    + intros n'. rewrite elem_of_app. intros [Hp|Hp]; apply used_range in Hp; try done; lia.
  - destruct Hpost as [[-> Hrep']|[Hrep' ->]].
    { simpl. split; [exists l; rewrite Hb; done|]. intros y v Hy.
      destruct (Hw _ _ Hy) as (_ & ? & ?). split_and!; [by apply Hkeep|done|done]. }
    destruct Hrep' as [(_ & _ & ? & _)|Hok']; [by destruct l|].
    pose proof (hk_base _ _ _ _ _ Hok') as [? _]. pose proof (units_nonneg _ Hs).
    rewrite (proj2 (Z.eqb_neq _ _)) by lia.
    eapply (client_add _ s _ l _ _ (request sz));
      [done|by right|by apply coalesced_grow|lia|lia|done|done| | |done]; rewrite <- Hb.
    + intros p n'. rewrite used_app. simpl. rewrite elem_of_app, list_elem_of_singleton. tauto.
    + intros n' Hp. apply used_range in Hp; [lia|done].
Qed.

Lemma heap_store b t m x l p n y v :
  heap_ok b t m x l → (p, n) ∈ used b l → p ≤ y < p + 8 * (n - 1) → 0 ≤ v < 2 ^ 32 →
  heap_ok b t (<[y := v]> m) x l.
Proof.
  intros Hok (l1 & l2 & -> & ->)%used_split Hy Hv.
  pose proof (heap_hdr _ _ _ _ _ _ _ _ Hok) as (_ & (_ & Hn) & Hw1 & Hw2).
  pose proof Hok as [_ _ _ Hs Hm Hhs].
  apply (heap_change b t m _ x l1 [(n, true)] [(n, true)]).
  - done.
  - apply Forall_app in Hs as [_ [? _]%Forall_cons]. by repeat constructor.
  - done.
  - by apply mapped_insert.
  - intros z Hz. by rewrite lookup_insert_ne by lia.
  - simpl. rewrite !lookup_insert_ne by lia. split_and!; [done|done|].
    apply hdrs_app in Hhs as [_ (_ & _ & Hhs)]. apply Forall_app in Hs as [_ [_ Hs]%Forall_cons].
    eapply hdrs_frame; [done| |done]. intros z Hz. by rewrite lookup_insert_ne by lia.
Qed.

Lemma run_ustore c p off v s o :
  uclient_ok c s →
  wp (run_uop c (UStore p off v)) (λ c' w', uclient_ok c' (wst w') ∧ wmem w' = o) (World s o).
Proof.
  intros Hc. pose proof Hc as [(l & Hrep & Hcl & H1 & H2) Hw]. simpl.
  destruct (ublocks c !! p) as [sz|] eqn:Hp; [|by kstep].
  destruct (decide _) as [[Hin Hal]|]; [|by kstep].
  destruct (H2 _ _ Hp) as (n & Hn). destruct (H1 _ _ Hn) as (sz' & Hp' & Hsz). simplify_eq.
  pose proof (heap_rep_used _ _ _ _ Hrep Hn) as Hok. pose proof Hin as [Hin1 Hin2].
  assert (p mod 8 = 0) by (eapply used_aligned; [apply Hok|done]).
  destruct (used_range _ _ _ _ (hk_sized _ _ _ _ _ Hok) Hn) as (? & ? & ?).
  pose proof (hk_top _ _ _ _ _ Hok) as [Ht _].
  destruct (hk_mapped _ _ _ _ _ Hok (p + off)) as (v' & Hv' & _); [lia|lia|].
  destruct s as [b t m x]; simpl in *. rewrite wp_bind, (wp_ustore _ _ v') by (done || lia). kstep.
  split; [|done]. pose proof (u32_range v). split; simpl.
  - exists l. split_and!; try done. right. eapply heap_store; [done|done|lia|done].
  - intros y w [[<- <-]|[Hne Hy]]%lookup_insert_Some.
    + rewrite lookup_insert_eq. split_and!; [done|lia|]. by exists p, sz.
    + rewrite lookup_insert_ne by done. by apply Hw.
Qed.

Lemma run_ufree c p s o :
  uclient_ok c s →
  wp (run_uop c (UFree p)) (λ c' w', uclient_ok c' (wst w') ∧ wmem w' = o) (World s o).
Proof.
  intros Hc. pose proof Hc as [(l & Hrep & Hcl & H1 & H2) Hw]. simpl.
  destruct (ublocks c !! p) as [sz|] eqn:Hp; [|by kstep].
  destruct (H2 _ _ Hp) as (n & Hn). destruct (H1 _ _ Hn) as (sz' & Hp' & Hsz). simplify_eq.
  pose proof (heap_rep_used _ _ _ _ Hrep Hn) as Hok.
  destruct (used_range _ _ _ _ (hk_sized _ _ _ _ _ Hok) Hn) as (? & ? & ?).
  pose proof (hk_top _ _ _ _ _ Hok) as [Ht _].
  assert (∀ q k, (q, k) ∈ used (uheapbase s) l → q = p ∧ k = n ∨ p + 8 * n ≤ q ∨ q + 8 * k ≤ p) as Hap.
  { intros q k Hq. destruct (used_apart _ _ _ _ _ _ (hk_sized _ _ _ _ _ Hok) Hn Hq); [left|]; lia. }
  pose proof (hk_sized _ _ _ _ _ Hok) as Hs.
  pose proof Hn as (l1 & l2 & -> & Hpe)%used_split. rewrite wp_bind, Hpe.
  apply Forall_app in Hs as [Hs1 [_ Hs2]%Forall_cons].
  destruct s as [b t m x]; simpl in *.
  eapply wp_mono; [eapply free_spec; [done|lia]|].
  intros [] [s' o'] [(Hrep' & Hb & Ht' & Hlive & _) Ho]. simpl in *. kstep. split; [|done].
  rewrite <- Hpe.
  assert (∀ q k, (q, k) ∈ used b (release l1 n l2) ↔ (q, k) ∈ used b (l1 ++ (n, true) :: l2) ∧ q ≠ p)
    as Hrel.
  { intros q k. rewrite used_release, !used_app. simpl. rewrite !elem_of_app, elem_of_cons. split.
    - intros [Hq|Hq]; (split; [tauto|]); apply used_range in Hq; try done; lia.
    - intros [[Hq|[[= -> ->]|Hq]] Hne]; [tauto| |tauto]. lia. }
  split; simpl.
  - exists (release l1 n l2). rewrite Hb. split_and!; [done|by apply coalesced_release| |].
    + intros q k [Hq Hne]%Hrel. rewrite lookup_delete_ne by done. by apply H1.
    + intros q k [Hne Hq]%lookup_delete_Some. destruct (H2 _ _ Hq) as (k' & ?).
      exists k'. apply Hrel. split; [done|congruence].
  - intros y v [Hy Hout]%map_lookup_filter_Some. simpl in Hout.
    destruct (Hw _ _ Hy) as (Hv & Hal & q & sz2 & Hq & Hin).
    assert (q ≠ p) as Hne by (intros ->; simplify_eq; done).
    split_and!; [|done|exists q, sz2; by rewrite lookup_delete_ne by done].
    destruct (H2 _ _ Hq) as (k & Hk). destruct (H1 _ _ Hk) as (sz3 & Hq3 & ?). simplify_eq.
    rewrite Hlive; [done|]. eapply used_live; [by apply Hrel|]. unfold in_ublock in Hin. lia.
Qed.

Lemma run_uops_ok os : ∀ c s o,
  uclient_ok c s → Forall uop_ok os →
  wp (run_uops c os) (λ c' w', uclient_ok c' (wst w') ∧ wmem w' = o) (World s o).
Proof.
  induction os as [|op os IH]; intros c s o Hc Hos; simpl; [by kstep|].
  apply Forall_cons in Hos as [Hop Hos]. rewrite wp_bind. eapply wp_mono.
  - destruct op; [by apply run_umalloc|by apply run_ustore|by apply run_ufree].
  - intros c' [s' o'] [Hc' Ho]. simpl in *. subst. by apply IH.
Qed.

End client.
