(* ===== verification/UMallocProps.v ===== *)
(** * Correctness of the user heap

    The theorems about [malloc] and [free] of lib/libc/malloc.c: their effect on
    the list of blocks, safety of every program that keeps to its own blocks,
    and the requests for which the code goes wrong. *)

From S2P Require Import Prelude UMalloc UMallocInv UMallocSpec UMallocFree UMallocClient.

#[local] Ltac Zify.zify_post_hook ::= Z.div_mod_to_equations.

(** ** A kernel that implements [sbrk]

    It maps zeroed memory up to [USER_END], and gives memory back on negative
    amounts down to the start of the heap. *)

Record bproc := BProc { bp_start : Z; bp_brk : Z }.

Definition word_addrs (a n : Z) : list Z := filter (λ x, x mod 4 = 0) (seqZ a n).

Definition bsbrk (n : Z) (m : gmap Z Z) (x : bproc) : Z * gmap Z Z * bproc :=
  let b := bp_brk x in
  if n <? 0 then
    if b + n <? bp_start x then (SBRK_FAILED, m, x)
    else (b, foldr delete m (word_addrs (b + n) (- n)), BProc (bp_start x) (b + n))
  else if (b + n <=? USER_END) && forallb (λ a, bool_decide (m !! a = None)) (word_addrs b n)
  then (b, foldr (λ a m, <[a := 0]> m) m (word_addrs b n), BProc (bp_start x) (b + n))
  else (SBRK_FAILED, m, x).

#[global] Instance bproc_sbrk : Sbrk bproc := {| sbrk := bsbrk; brk := bp_brk |}.

Lemma zeroed_lookup (m : gmap Z Z) l a :
  foldr (λ a m, <[a := 0]> m) m l !! a = if decide (a ∈ l) then Some 0 else m !! a.
Proof.
  induction l as [|b l IH]; simpl; [done|].
  destruct (decide (a = b)) as [->|Hne].
  - rewrite lookup_insert_eq. by rewrite decide_True by left.
  - rewrite lookup_insert_ne, IH by done.
    destruct (decide (a ∈ l)) as [|Hn]; [by rewrite decide_True by by right|].
    rewrite decide_False; [done|]. by rewrite elem_of_cons; intros [].
Qed.

Lemma word_addrs_elem a n x : x ∈ word_addrs a n ↔ x mod 4 = 0 ∧ a ≤ x < a + n.
Proof. unfold word_addrs. by rewrite list_elem_of_filter, elem_of_seqZ. Qed.

#[global] Instance bproc_laws : SbrkLaws bproc.
Proof.
  split.
  - intros n m x r m' x' Hb Hn. unfold sbrk, brk in *; simpl in *. unfold bsbrk.
    rewrite (proj2 (Z.ltb_ge _ _)) by lia.
    destruct (_ && _) eqn:E; intros [= <- <- <-]; [|by left]. right.
    apply andb_true_iff in E as [E1%Z.leb_le E2]. split_and!; try done.
    + apply map_subseteq_spec. intros a v Ha. rewrite zeroed_lookup, decide_False; [done|].
      intros Hin. rewrite forallb_forall in E2.
      specialize (E2 a (proj1 (list_elem_of_In _ _) Hin)). rewrite bool_decide_eq_true in E2. congruence.
    + intros a Ha H1 H2. exists 0. rewrite zeroed_lookup, decide_True; [split; [done|lia]|].
      apply word_addrs_elem. lia.
  - intros m x Hb. exists (BProc (bp_start x) (bp_brk x + 0)). split; simpl; [|lia].
    unfold bsbrk. simpl. rewrite Z.add_0_r. simpl in Hb. by rewrite (proj2 (Z.leb_le _ _)).
Qed.

(** A process before its first allocation, its heap region starting at 4096. *)
Definition fresh_proc : uproc bproc := UProc 0 0 ∅ (BProc 4096 4096).

Section props.
Context {X : Type} `{Hsbrk : Sbrk X} `{Hlaws : !SbrkLaws X}.
Implicit Types (s : uproc X) (o : list bool).

(** ** Lemmas *)

Lemma client_start s : heap_rep s [] → uclient_ok (UClient ∅ ∅) s.
Proof.
  intros Hrep. split; simpl; [|by intros ?? ?%lookup_empty_Some].
  exists []. split_and!; [done|done|by intros ?? ?%not_elem_of_nil|by intros ?? ?%lookup_empty_Some].
Qed.

Lemma all_free_one l a : coalesced l → used a l = [] → l = [] ∨ ∃ n, l = [(n, false)].
Proof.
  destruct l as [|[n []] [|[n' []] l]]; simpl; try done; [by left|by right; exists n|].
  intros [[?|?] _]; done.
Qed.

Lemma client_apart c s p sz q sz' :
  uclient_ok c s → p ≠ q → ublocks c !! p = Some sz → ublocks c !! q = Some sz' →
  p + sz ≤ q ∨ q + sz' ≤ p.
Proof.
  intros [(l & Hrep & _ & H1 & H2) _] Hne Hp Hq.
  destruct (H2 _ _ Hp) as (n & Hn). destruct (H1 _ _ Hn) as (? & ? & ?).
  destruct (H2 _ _ Hq) as (k & Hk). destruct (H1 _ _ Hk) as (? & ? & ?). simplify_eq.
  pose proof (heap_rep_used _ _ _ _ Hrep Hn) as Hok.
  destruct (used_apart _ _ _ _ _ _ (hk_sized _ _ _ _ _ Hok) Hn Hk) as [[? _]|?]; [done|lia].
Qed.

Lemma client_range c s p sz :
  uclient_ok c s → ublocks c !! p = Some sz →
  p mod 8 = 0 ∧ uheapbase s + 8 ≤ p ∧ p + sz ≤ uheaptop s.
Proof.
  intros [(l & Hrep & _ & H1 & H2) _] Hp.
  destruct (H2 _ _ Hp) as (n & Hn). destruct (H1 _ _ Hn) as (? & ? & ?). simplify_eq.
  pose proof (heap_rep_used _ _ _ _ Hrep Hn) as Hok.
  pose proof (used_aligned _ _ _ _ (proj2 (hk_base _ _ _ _ _ Hok)) Hn).
  pose proof (used_range _ _ _ _ (hk_sized _ _ _ _ _ Hok) Hn).
  pose proof (hk_top _ _ _ _ _ Hok) as [? _]. lia.
Qed.

(** Freeing a block whose header is gone or marked free ends the process. *)
Lemma freed_panics b t m (x : X) o a :
  0 < b → b ≤ a → a mod 8 = 0 → a + 8 < t → t ≤ USER_END → freed m a →
  panics (free (a + 8)) (World (UProc b t m x) o).
Proof.
  intros Hb Ha Ha8 Ht Hend Hf. unfold USER_END in *. unfold panics, free.
  rewrite (proj2 (Z.eqb_neq _ _)) by lia. unfold mbind, K_bind, kget. cbn [wst uheapbase uheaptop].
  rewrite (proj2 (Z.eqb_neq b 0)), (proj2 (Z.eqb_neq t 0)), (proj2 (Z.ltb_ge t b)) by lia.
  simpl orb. cbn iota. rewrite (proj2 (Z.ltb_ge _ _)), (proj2 (Z.leb_gt _ _)) by lia.
  cbn beta iota zeta delta [orb]. unfold MBLOCKSIZE.
  replace (a + 8 - 8) with a by lia. rewrite u32_id by lia. destruct Hf as [Hf|(p & n & Hh)].
  - rewrite (wp_Ok (M_OK a) _ false (World (UProc b t m x) o)); [done|].
    unfold M_OK, mh_magic1. kstep. erewrite wp_uload; [|lia|exact Hf]. by kstep.
  - rewrite (wp_Ok (M_OK a) _ true (World (UProc b t m x) o)) by by rewrite (wp_M_OK _ _ _ _ _ Hh).
    cbn beta iota delta [negb].
    by rewrite (wp_Ok (mh_inuse a) _ 0 (World (UProc b t m x) o))
      by by rewrite (wp_mh_inuse _ _ _ _ _ Hh).
Qed.

(** ** Theorems *)


(** [malloc] of a size whose block fits in the positive [intptr_t] range
    takes the first free block that is large enough, splitting off a rest of at
    least two units as a free block; if there is none it grows the heap by one
    block or, when [sbrk] fails, answers NULL and leaves the blocks as they were.
    The answer points behind the header, and no word in use changes. *)
Theorem umalloc_first_fit s o l size :
  heap_rep s l → 0 ≤ size ≤ MALLOC_MAX →
  wp (malloc size) (λ r w', malloc_post s l (request size) r (wst w')) (World s o).
Proof.
  intros Hrep Hsz. eapply wp_mono; [by apply (malloc_spec s o l)|]. by intros r w' [? _].
Qed.

(** [free] of a block in use that has data marks it free and merges it with
    a free block above and a free block below it; no word in use changes, and if
    no two free blocks were adjacent before, none are after. *)
Theorem ufree_coalesces b t m (x : X) o l1 n l2 :
  heap_ok b t m x (l1 ++ (n, true) :: l2) → 2 ≤ n →
  wp (free (b + 8 * units l1 + 8))
     (λ _ w', free_post (UProc b t m x) l1 n l2 (wst w') ∧
              (coalesced (l1 ++ (n, true) :: l2) → coalesced (release l1 n l2)))
     (World (UProc b t m x) o).
Proof.
  intros Hok Hn. eapply wp_mono; [apply (free_spec b t m x o l1 n l2); [done|]|].
  - pose proof (heap_bounds _ _ _ _ _ _ _ _ Hok). lia.
  - intros _ w' [Hp _]. split; [done|apply coalesced_release].
Qed.

(** Freeing the same block twice in a row ends the process with an error
    message, whether or not the first [free] merged the block. *)
Theorem ufree_twice_exits b t m (x : X) o l1 n l2 :
  heap_ok b t m x (l1 ++ (n, true) :: l2) → 2 ≤ n →
  wp (free (b + 8 * units l1 + 8)) (λ _ w', panics (free (b + 8 * units l1 + 8)) w')
     (World (UProc b t m x) o).
Proof.
  intros Hok Hn. pose proof (heap_bounds _ _ _ _ _ _ _ _ Hok) as (Hb & Hu & _ & Htop & Hend).
  pose proof (heap_hdr _ _ _ _ _ _ _ _ Hok) as ((Ha & _) & _).
  eapply wp_mono; [apply (free_spec b t m x o l1 n l2); [done|lia]|].
  intros _ [[b' t' m' x'] o'] [(_ & Hb' & Ht' & _ & Hf) _]. simpl in *. subst.
  apply freed_panics; try (done || lia).
Qed.

(** [malloc(0)] that grows the heap answers a pointer to the top of the
    heap, which [free] rejects as out of range: the process ends. *)
Theorem umalloc_zero_free_exits s o l :
  heap_rep s l → first_fit 1 l = None →
  wp (malloc 0) (λ r w', r = 0 ∨ panics (free r) w') (World s o).
Proof.
  intros Hrep Hfit. eapply wp_mono; [apply (malloc_spec s o l 0); [done|unfold MALLOC_MAX; lia]|].
  intros r [s' o'] [(Hpost & _) _]. simpl in *. change (request 0) with 1 in Hpost.
  rewrite Hfit in Hpost. destruct Hpost as [[-> _]|[Hrep' ->]]; [by left|right].
  destruct Hrep' as [(_ & _ & ? & _)|Hok]; [by destruct l|].
  pose proof Hok as [[Hb _] [Ht _] _ Hs _ _]. apply Forall_app in Hs as [Hs _].
  pose proof (units_nonneg _ Hs). rewrite units_app in Ht. simpl in Ht.
  unfold panics, free. rewrite (proj2 (Z.eqb_neq _ _)) by lia.
  unfold mbind, K_bind, kget. cbn [wst].
  rewrite (proj2 (Z.eqb_neq _ 0)), (proj2 (Z.eqb_neq (uheaptop s') 0)), (proj2 (Z.ltb_ge (uheaptop s') _)) by lia.
  rewrite (proj2 (Z.leb_le (uheaptop s') _)) by lia. by rewrite orb_true_r.
Qed.

(** The rounding of the size wraps around: a request for the last seven
    sizes of [size_t] is treated as a request for zero bytes. *)
Theorem umalloc_size_wraps size (w : world (uproc X)) :
  2 ^ 32 - 7 ≤ size < 2 ^ 32 → malloc size w = malloc 0 w.
Proof.
  intros Hsz. unfold malloc. rewrite !round_land by apply u32_range. unfold MBLOCKSIZE.
  replace (u32 (size + 8 - 1) / 8) with (u32 (0 + 8 - 1) / 8); [done|]. unfold u32. lia.
Qed.

End props.

(** ** Witnesses and runs *)

Lemma fresh_rep : heap_rep fresh_proc [].
Proof. left. unfold USER_END. simpl. split_and!; (done || lia). Qed.

(** A heap with a free block of 4 units between two blocks of 3 units in use. *)
Definition ex_ops : list uop := [UMalloc 16; UMalloc 24; UMalloc 16; UFree 4128; UStore 4104 0 7].

Definition ex_world : world (uproc bproc) :=
  match run_uops (UClient ∅ ∅) ex_ops (World fresh_proc []) with
  | Ok (_, w) => w
  | _ => World fresh_proc []
  end.

Definition ex_blocks : list blk := [(3, true); (4, false); (3, true)].

Lemma ex_heap :
  heap_ok (uheapbase (wst ex_world)) (uheaptop (wst ex_world)) (umem (wst ex_world))
    (usys (wst ex_world)) ex_blocks.
Proof.
  assert (uheapbase (wst ex_world) = 4096 ∧ uheaptop (wst ex_world) = 4176 ∧
          brk (usys (wst ex_world)) = 4176) as (Hb & Ht & Hx) by (vm_compute; repeat split).
  rewrite Hb, Ht. split.
  - split; [lia|reflexivity].
  - split; [reflexivity|unfold USER_END; lia].
  - exact Hx.
  - repeat constructor; simpl; lia.
  - intros y Hy Hr.
    assert (forallb (λ y, match umem (wst ex_world) !! y with
                          | Some v => (0 <=? v) && (v <? 2 ^ 32) | None => false end)
              (word_addrs 4096 80) = true) as Hall by (vm_compute; reflexivity).
    rewrite forallb_forall in Hall. specialize (Hall y).
    rewrite <- list_elem_of_In, word_addrs_elem in Hall. specialize (Hall ltac:(lia)).
    destruct (umem _ !! y) as [v|]; [|done]. exists v. split; [done|lia].
  - vm_compute. repeat split.
Qed.


Lemma umalloc_first_fit_witness :
  first_fit (request 8) ex_blocks = Some ([(3, true)], 4, [(3, true)]) ∧
  wp (malloc 8) (λ r w', malloc_post (wst ex_world) ex_blocks (request 8) r (wst w'))
     (World (wst ex_world) []).
Proof.
  split; [reflexivity|].
  apply (umalloc_first_fit (wst ex_world) [] ex_blocks 8); [right; exact ex_heap|unfold MALLOC_MAX; lia].
Defined.

Lemma ufree_coalesces_witness :
  release [(3, true); (4, false)] 3 [] = [(3, true); (7, false)] ∧
  wp (free (uheapbase (wst ex_world) + 8 * 7 + 8))
     (λ _ w', free_post (UProc (uheapbase (wst ex_world)) (uheaptop (wst ex_world))
                (umem (wst ex_world)) (usys (wst ex_world))) [(3, true); (4, false)] 3 [] (wst w') ∧
              (coalesced ex_blocks → coalesced (release [(3, true); (4, false)] 3 [])))
     (World (UProc (uheapbase (wst ex_world)) (uheaptop (wst ex_world))
                (umem (wst ex_world)) (usys (wst ex_world))) []).
Proof.
  split; [reflexivity|].
  apply (ufree_coalesces _ _ _ _ [] [(3, true); (4, false)] 3 [] ex_heap). lia.
Defined.

Lemma ufree_twice_exits_witness :
  wp (free (uheapbase (wst ex_world) + 8 * 7 + 8))
     (λ _ w', panics (free (uheapbase (wst ex_world) + 8 * 7 + 8)) w')
     (World (UProc (uheapbase (wst ex_world)) (uheaptop (wst ex_world))
                (umem (wst ex_world)) (usys (wst ex_world))) []).
Proof. apply (ufree_twice_exits _ _ _ _ [] [(3, true); (4, false)] 3 [] ex_heap). lia. Defined.

Lemma umalloc_zero_free_exits_witness :
  wp (malloc 0) (λ r w', r = 0 ∨ panics (free r) w') (World fresh_proc []).
Proof. exact (umalloc_zero_free_exits fresh_proc [] [] fresh_rep eq_refl). Defined.

Lemma umalloc_size_wraps_witness :
  malloc 0xffffffff (World fresh_proc []) = malloc 0 (World fresh_proc []).
Proof. apply (umalloc_size_wraps 0xffffffff (World fresh_proc [])). lia. Defined.

(** The amount passed to [sbrk] is signed: after an allocation of 8 bytes,
    [malloc(0xfffffff0)] asks for -8 bytes, which lowers the break, and writes
    the header of the new block above it, in memory that is not mapped. *)
Theorem umalloc_huge_faults :
  (malloc 8;; malloc 0xfffffff0) (World fresh_proc []) = Undef.
Proof. vm_compute. reflexivity. Qed.
